(* ===== verification/_CoqProject ===== *)
-Q . S2P
Prelude.v
GoIo.v
BufferPool.v
Framer.v
FramerXl.v
NetId.v
TransferPath.v
FrameCodec.v
AckWindow.v
GoHeap.v
MemoryBudget.v
CapacityWait.v
TransferQueue.v
RttWindow.v
CombineQueue.v
PumpQueue.v
SequenceContract.v
ReceiveSequence.v
ReceiveOrder.v
FlightController.v
SendSequence.v
SendNumbers.v
SendOrder.v
SendRun.v
SendTrace.v
ReceiveTrace.v
Delivery.v
Ipv6Ext.v
IpWire.v
IpFlow.v
IpPacket.v
FragmentCache.v
Fragment4.v
Fragment6.v
FragmentGate.v
