(* ===== verification/Prelude.v ===== *)
(** * The core network stack of the connect library, modelled and verified

    The repository is a relay network's client and provider. Its core is the Go
    package at the root of src/: messages are framed onto transports
    (message_framer*.go), numbered, acknowledged and retransmitted by pairs of
    sequences under byte budgets and contracts (transfer*.go), and the
    user-space NAT (ip*.go) turns IP packets into flows and back. This
    development models the parts of that package that decide what bytes go on
    the wire, what the application is handed and what memory is held, each as
    executable definitions translated from the source, and proves the
    properties their callers rely on.

    ** How the code is represented

    A Go slice is a list with its bounds checks written out; an operation that
    can panic returns [go], so "returns" is always a theorem and never a side
    condition. Machine integers are [Z] with explicit wrap-around ([u8] to
    [u64], [i64]) wherever the source's width matters; lengths and indices are
    [nat]. Pointers are indices or keys into stores. A component whose methods
    run under a lock takes one step per method; a sequence, which one goroutine
    owns, takes one step per turn of its loop, and what it does to the outside
    is a log of events. Clocks, random numbers, map iteration order, the
    contents of recycled buffers and everything else outside the package are
    arguments, indexed by the readings made, and the theorems hold for all of
    them.

    ** Files

    Shared:
    - Prelude: machine integers, the panic monad, slices, big-endian fields,
      sums, and the automation the other files share.
    - GoIo: io.Reader, io.Writer and the message pool as interfaces (classes),
      with the laws the framers use and concrete instances.
    - BufferPool: message_pool.go, the pool behind that interface. Whatever is
      taken, shared, returned, trimmed and written, a buffer handed out is not
      on a free list and not in other hands; every free list holds buffers of
      its class within its capacity; the totals, counted from their last reset,
      tell how many more buffers are out than were then;
      the last owner's return is the one that puts a buffer back.
    - GoHeap: container/heap over the index-carrying heaps of the program.

    Framing and names:
    - Framer, FramerXl: message_framer.go and message_framer_xl.go. Reading what
      was written, singly or as coalesced batches, gives the messages back, on
      any writer, with any recycled buffer; oversized batches write nothing.
    - NetId: id.go. Ids increase strictly until the 80-bit entropy of one
      millisecond is exhausted; text and JSON forms round-trip.
    - TransferPath: the paths and multi-hop ids of connect.go.
    - FrameCodec: frame_protobuf.go, the hand-written protobuf writer of packs
      and acks and its decoders. Decoding what was encoded gives it back, the
      sizes computed are the sizes written, every decoder returns on every input.

    Memory, timing and accounting:
    - MemoryBudget: transfer_memory_budget.go, the tree of byte budgets. Every
      counter is exactly the bytes owned at and below it; admission is all or
      nothing along the ancestors; moves change only what lies between.
    - CapacityWait: the capacity waiters of the same file. The intrusive list
      is a FIFO queue; a notification pass wakes a waiter only within the free
      capacity and never lets a later waiter take what an earlier one waits for.
    - TransferQueue: transfer_queue.go against the interface [MemoryPool], which
      the budgets implement. Every operation refines an operation on a plain
      set of items with exact byte accounts; tearing a queue down returns every
      reserved byte.
    - RttWindow: transfer_rtt.go. The heap, the sum and the ring always hold the
      same samples; when and which samples expire; a full ring keeps one sample
      past its timeout.
    - FlightController: transfer_flight.go. Limits stay between floor and
      maximum, counts equal what is in flight, and the bytes in flight are
      capped; slow start can switch on a message limit that is disabled.
    - SequenceContract: the byte account of one contract (transfer.go). What is
      acked and unacked is what was debited and not undone, within the size.
    - AckWindow: the window between the receive loop and its ack writer. What a
      snapshot writes is the newest head and the selective acks above it.

    The DNS packet translation (transport_pt_queue.go, transport_pt.go):
    - CombineQueue: the combiner of fragments. Whatever arrives, it stays inside
      its limits with exact books, holds or returns every buffer once, and gives
      a packet back from its fragments in any order.
    - PumpQueue: the reply headers of recent requests. Each address gets its
      headers back last in, first out, also within one tick of the clock; headers
      and peers are bounded apart; the latest request of a peer is remembered.

    The sequences (transfer.go), each its loop and then what the loop promises:
    - ReceiveSequence: the loop of a receiving sequence, with the hold of early
      packs and its three policies. ReceiveOrder: on packs that satisfy
      [pack_ok] a run does not panic; it takes the numbers in in order and once,
      acknowledges only what was taken in or will be, gives every buffer back
      once, keeps its open contracts bounded; what fills a gap below an
      acknowledged early pack is always accepted, without evicting one; where
      nacks break the books. ReceiveTrace: what the log says to the sender and
      to the application: every message taken in, numbered or not, is handed
      to the callback once, at its place, or discarded by the encryption rule.
    - SendSequence: the loop of a sending sequence: encoding, resends,
      retention, the unreliable flight, acks, contracts. SendNumbers: its
      floating-point formulas. SendOrder: the invariant of its state. SendRun:
      under the laws of its environment a run does not panic; it settles every
      callback and buffer once, numbers
      messages consecutively, keeps the contracts' books and its retained bytes
      bounded, ends every resend pass, never writes plaintext where encryption
      is required; how an exemption from contracts, which those laws exclude,
      makes an ack panic. SendTrace: what the log says to the receiver.
    - Delivery: the two ends joined by a network that loses, repeats, reorders
      and delays: the frames of numbered messages the application is handed are a
      subsequence of the frames the sender took, those of unsequenced messages
      are frames it took; a success callback means that the frame was handed
      over, or discarded for having come as plaintext where encryption is
      required; and what is skipped is reported.

    IP:
    - Ipv6Ext: ip_ipv6_ext.go, the extension-header walk.
    - IpWire: the parsers, checksums and header writers of ip.go and ip_icmp.go.
    - IpFlow: the packet builders of a TCP connection, a UDP stream and an ICMP
      flow (ip.go, ip_icmp.go): what is sent parses back, with a checksum that
      verifies; segmentation keeps the byte stream.
    - IpPacket: flow paths, the packets built outside any sequence, ICMP errors
      and the dial-failure signal (ip.go, ip_packet.go, ip_icmp_gate.go).
    - FragmentCache: the reassembly cache that ip_fragment.go and
      ip_ipv6_fragment.go each write out, once, over the class [FragmentFamily]
      of what differs. Whatever arrives, it stays inside its bounds with exact
      books, and every buffer is held, returned or handed over once.
    - Fragment4, Fragment6: the two families, their wire formats and
      fragmentation. Fragments fed in any order give the packet back.
    - FragmentGate: the gate over both caches, and the provider's ingress behind
      it (ip.go): only whole UDP datagrams that the policy allowed reach the NAT.

    ** What the theorems rely on

    Interfaces are classes and their laws a second class: [MemoryPool] and
    [MemoryPoolLaws] (the budgets implement them), [MessagePool] (BufferPool
    implements it, [pool_interface]), the readers and writers of GoIo, and the environments of the two sequences. The laws of the
    sender's environment ([SendOrder.EnvOk]) say that item ids differ, that
    payloads and wire frames have a greatest size, that every payload fits the
    standard contract, that the flight counters of that many frames fit 64 bits,
    that a frame the sender encoded decodes to one with a pack in it, and that a
    destination's need for contracts does not change; those of the receiver's ([ReceiveOrder.EnvOk]) that local
    contract ids are handed out in order. The generated protobuf code is a
    parameter of the sender ([protoUnmarshalTransferFrame] and its like), which
    setHead decodes and encodes frames with. [WireOk], for Delivery, adds that it
    reads what the hand-written decoder reads and writes what that decoder gives
    back, and that the frames a peer opens are the frames that were sealed. Each class has an
    instance in the witnesses; Delivery's instance runs the real frame codec.
    [Fragment6.RandomReadsOk] says that the system's random source gives 32-bit
    numbers, and not zero forever; [FragmentGate.SecurityPolicy] is the policy a
    provider is configured with, of which nothing is assumed.

    ** Bounds

    Loops that are not structural take fuel computed from their input, and a
    lemma shows it is enough: the extension walk stops after the source's own
    limit of 16 headers; the TCP option loop advances at least one byte per
    round ([tcp_options_loop_fuel]); two rounds fold any 32-bit checksum
    ([fold_rounds]); segmentation and fragmentation advance at least one byte
    per round; eviction removes a datagram per round ([evict_while_spec]); an
    identification is drawn within twice the readings that may be zero
    ([next_identification6]); heap
    sifting and notification passes are bounded by the number of elements; a
    protobuf field takes at least one byte ([eats_all], [frame_decoders_total])
    and a varint at most ten; the drain and the eviction of a receive sequence
    remove an item per round; a resend pass handles each item once, because an
    item written goes behind the present ([send_pass_terminates]); expiry of
    fragments and reply headers removes one per round. The pool's
    ownership theorems are for buffers with at most 65535 + 127 owners, which is
    what its count and its refused shares can tell apart, and the order of the
    reply headers is for fewer than 2^64 requests.

    ** Not modelled

    Sockets, TLS, HTTP and DNS, the goroutines of the NAT, the provider program
    and the operator tools: input and output around the modelled parts. Of the
    sequences: the channels their goroutines read (the gates of Pack, Ack and
    Close), the route writers, the retry token bucket, the route lanes and
    scheduleSelectiveAckRecovery, which the loop does not call; in Delivery,
    the legacy frames of protocol version 1 and the client that finds a frame's
    sequence. Of the packet translation: the DNS messages themselves, which a
    third-party package builds and parses, and the timer that wakes the expiry.
    Of the message pool: reading a stream into buffers, call-site tags and leak
    reports. Of the provider: ClientReceive around the fragment ingress, with the
    SMTP guard. Of what is modelled: nil entries in a pack's list of frames, a
    client without an encryption session manager, and the counters other
    goroutines move during a notification pass, which is one step. Route and contract management, the
    transport budgets and the reconnect governors are not modelled yet. *)
From Stdlib Require Export ZArith Lia ZifyNat.
From stdpp Require Export base list gmap numbers.
#[global] Open Scope Z_scope.

(** ** Machine integers *)

Definition u8 (z : Z) : Z := z mod 256.
Definition u16 (z : Z) : Z := z mod 65536.
Definition u32 (z : Z) : Z := z mod 4294967296.
Definition u64 (z : Z) : Z := z mod 18446744073709551616.
Definition MaxInt64 : Z := 9223372036854775807.
(** Signed 64-bit wrap-around (Go's [int] and [int64] on a 64-bit host). *)
Definition i64 (z : Z) : Z :=
  (z + 9223372036854775808) mod 18446744073709551616 - 9223372036854775808.

Lemma u8_range z : 0 <= u8 z < 256.
Proof. unfold u8. apply Z.mod_pos_bound. lia. Qed.
Lemma u16_range z : 0 <= u16 z < 65536.
Proof. unfold u16. apply Z.mod_pos_bound. lia. Qed.
Lemma u32_range z : 0 <= u32 z < 4294967296.
Proof. unfold u32. apply Z.mod_pos_bound. lia. Qed.
Lemma u64_range z : 0 <= u64 z < 18446744073709551616.
Proof. unfold u64. apply Z.mod_pos_bound. lia. Qed.

Lemma i64_range z : -9223372036854775808 <= i64 z <= MaxInt64.
Proof.
  unfold i64, MaxInt64.
  pose proof (Z.mod_pos_bound (z + 9223372036854775808) 18446744073709551616). lia.
Qed.
Lemma i64_small z : -9223372036854775808 <= z <= MaxInt64 -> i64 z = z.
Proof. unfold i64, MaxInt64. intros H. rewrite Z.mod_small; lia. Qed.

Lemma u8_small z : 0 <= z < 256 -> u8 z = z.
Proof. apply Z.mod_small. Qed.
Lemma u16_small z : 0 <= z < 65536 -> u16 z = z.
Proof. apply Z.mod_small. Qed.
Lemma u32_small z : 0 <= z < 4294967296 -> u32 z = z.
Proof. apply Z.mod_small. Qed.
Lemma u64_small z : 0 <= z < 18446744073709551616 -> u64 z = z.
Proof. apply Z.mod_small. Qed.

(** ** Go computations that may panic

    A run-time panic (an index or slice bound out of range) is the value
    [Panic]; every other outcome is [Ret]. *)

Inductive go (A : Type) : Type :=
| Ret (a : A)
| Panic.
Arguments Ret {A} a.
Arguments Panic {A}.

Definition gbind {A B} (m : go A) (k : A -> go B) : go B :=
  match m with
  | Ret a => k a
  | Panic => Panic
  end.

Declare Scope go_scope.
Delimit Scope go_scope with go.
Notation "'let!' x ':=' m 'in' k" := (gbind m (fun x => k))
  (at level 10, x name, m at level 100, k at level 200) : go_scope.
Notation "'let!' ' p ':=' m 'in' k" := (gbind m (fun x => match x with p => k end))
  (at level 10, p pattern, m at level 100, k at level 200) : go_scope.
Open Scope go_scope.

Lemma gbind_ret_inv {A B} (m : go A) (k : A -> go B) b :
  gbind m k = Ret b -> exists a, m = Ret a /\ k a = Ret b.
Proof. destruct m; simpl; intros H; [eauto|discriminate]. Qed.

(** A computation returns a value that satisfies [P] (and does not panic). *)
Definition returns {A} (m : go A) (P : A -> Prop) : Prop :=
  exists a, m = Ret a /\ P a.

Lemma returns_ret {A} (a : A) (P : A -> Prop) : P a -> returns (Ret a) P.
Proof. intros H. exists a. auto. Qed.

Lemma returns_bind {A B} (m : go A) (k : A -> go B) (P : A -> Prop) (Q : B -> Prop) :
  returns m P -> (forall a, P a -> returns (k a) Q) -> returns (gbind m k) Q.
Proof. intros (a & -> & Ha) Hk. simpl. auto. Qed.

Lemma returns_weaken {A} (m : go A) (P Q : A -> Prop) :
  returns m P -> (forall a, P a -> Q a) -> returns m Q.
Proof. intros (a & -> & Ha) H. exists a. auto. Qed.

(** [P] holds of whatever a computation returns. *)
Definition yields {A} (m : go A) (P : A -> Prop) : Prop := match m with Ret a => P a | Panic => True end.
Lemma yields_bind {A B} (m : go A) (k : A -> go B) (P : A -> Prop) (Q : B -> Prop) :
  yields m P -> (forall a, P a -> yields (k a) Q) -> yields (gbind m k) Q.
Proof. destruct m; cbn; auto. Qed.
Lemma yields_and {A} (m : go A) (P Q : A -> Prop) : yields m P -> yields m Q -> yields m (fun a => P a /\ Q a).
Proof. by destruct m. Qed.
Lemma yields_weaken {A} (m : go A) (P Q : A -> Prop) : yields m P -> (forall a, P a -> Q a) -> yields m Q.
Proof. destruct m; cbn; auto. Qed.
Lemma yields_true {A} (m : go A) : yields m (fun _ => True).
Proof. by destruct m. Qed.
Lemma yields_ret {A} (m : go A) (P : A -> Prop) a : yields m P -> m = Ret a -> P a.
Proof. by intros Hm ->. Qed.

(** Peels one panicking operation off a [returns] goal with the lemma [H]. *)
Ltac greturns H :=
  eapply returns_bind; [eapply H|]; cbv beta.

(** ** Slices

    A Go slice is a list; [len], indexing, reslicing, assignment and [copy]
    are the language's, with its bounds checks. *)

Definition bytes := list Z.
Definition byte_ok (b : Z) : Prop := 0 <= b < 256.
Definition bytes_ok (l : bytes) : Prop := Forall byte_ok l.

#[export] Instance byte_ok_dec b : Decision (byte_ok b).
Proof. unfold byte_ok. apply _. Defined.

Section slices.
Context {A : Type}.
Implicit Types l : list A.

Definition index l (i : nat) : go A :=
  match l !! i with
  | Some x => Ret x
  | None => Panic
  end.

Definition slice l (i j : nat) : go (list A) :=
  if ((i <=? j) && (j <=? length l))%nat then Ret (take (j - i) (drop i l)) else Panic.

Definition set_index l (i : nat) (v : A) : go (list A) :=
  if (i <? length l)%nat then Ret (<[i := v]> l) else Panic.

(** [copy(l[i:j], src)] *)
Definition copy_into l (i j : nat) (src : list A) : go (list A) :=
  if ((i <=? j) && (j <=? length l))%nat
  then let n := Nat.min (j - i) (length src) in
       Ret (take i l ++ take n src ++ drop (i + n) l)
  else Panic.

Lemma index_ret l i x : l !! i = Some x -> index l i = Ret x.
Proof. unfold index. by intros ->. Qed.

Lemma index_returns l i : (i < length l)%nat -> returns (index l i) (fun x => l !! i = Some x).
Proof.
  intros [x Hx]%lookup_lt_is_Some_2. exists x. split; [by apply index_ret | done].
Qed.

Lemma slice_ret l i j : (i <= j)%nat -> (j <= length l)%nat -> slice l i j = Ret (take (j - i) (drop i l)).
Proof.
  intros H1 H2. unfold slice.
  rewrite (proj2 (Nat.leb_le _ _) H1), (proj2 (Nat.leb_le _ _) H2). done.
Qed.

Lemma slice_returns l i j :
  (i <= j)%nat -> (j <= length l)%nat ->
  returns (slice l i j) (fun r => r = take (j - i) (drop i l) /\ length r = (j - i)%nat).
Proof.
  intros Hi Hj. exists (take (j - i) (drop i l)). split; [by apply slice_ret|]. split; [done|].
  rewrite length_take, length_drop. lia.
Qed.

Lemma slice_0 l j : (j <= length l)%nat -> slice l 0 j = Ret (take j l).
Proof. intros H. rewrite slice_ret by lia. by rewrite drop_0, Nat.sub_0_r. Qed.

Lemma slice_end l i n : (i <= length l)%nat -> n = length l -> slice l i n = Ret (drop i l).
Proof.
  intros H ->. rewrite slice_ret by lia. by rewrite firstn_all2 by (rewrite length_drop; lia).
Qed.

Lemma slice_all l n : n = length l -> slice l 0 n = Ret l.
Proof. intros ->. rewrite slice_0 by lia. by rewrite firstn_all. Qed.

Lemma slice_app_l l k : slice (l ++ k) 0 (length l) = Ret l.
Proof.
  rewrite slice_ret; [|lia|rewrite length_app; lia].
  rewrite drop_0, Nat.sub_0_r, take_app_length. done.
Qed.

Lemma slice_app_r l k n : n = (length l + length k)%nat -> slice (l ++ k) (length l) n = Ret k.
Proof.
  intros ->. rewrite slice_ret; [|lia|rewrite length_app; lia].
  rewrite drop_app_length, firstn_all2 by lia. done.
Qed.

Lemma copy_into_all l i src :
  (i + length src = length l)%nat -> copy_into l i (length l) src = Ret (take i l ++ src).
Proof.
  intros H. unfold copy_into.
  rewrite (proj2 (Nat.leb_le i _)), (proj2 (Nat.leb_le (length l) _)) by lia. cbn.
  rewrite Nat.min_r, firstn_all, drop_ge, app_nil_r by lia. done.
Qed.
End slices.

(** ** Big-endian fields *)

Definition be16 (hi lo : Z) : Z := hi * 256 + lo.
Definition be32 (a b c d : Z) : Z := ((a * 256 + b) * 256 + c) * 256 + d.
Definition hi8 (v : Z) : Z := u8 (Z.shiftr v 8).
Definition lo8 (v : Z) : Z := u8 v.
Definition byte_of (v : Z) (k : Z) : Z := u8 (Z.shiftr v k).

(** [binary.BigEndian.Uint16(l[i:i+2])] and its [Uint32] and [Put] forms. *)
Definition get_u16 (l : bytes) (i : nat) : go Z :=
  let! a := index l i in
  let! b := index l (i + 1) in
  Ret (be16 a b).

Definition get_u32 (l : bytes) (i : nat) : go Z :=
  let! a := index l i in
  let! b := index l (i + 1) in
  let! c := index l (i + 2) in
  let! d := index l (i + 3) in
  Ret (be32 a b c d).

Definition put_u16 (l : bytes) (i : nat) (v : Z) : go bytes :=
  let! l := set_index l i (byte_of v 8) in
  set_index l (i + 1) (byte_of v 0).

Definition put_u32 (l : bytes) (i : nat) (v : Z) : go bytes :=
  let! l := set_index l i (byte_of v 24) in
  let! l := set_index l (i + 1) (byte_of v 16) in
  let! l := set_index l (i + 2) (byte_of v 8) in
  set_index l (i + 3) (byte_of v 0).

Lemma byte_of_ok v k : byte_ok (byte_of v k).
Proof. apply u8_range. Qed.

Lemma byte_of_div v k : 0 <= k -> byte_of v k = (v / 2 ^ k) mod 256.
Proof. intros Hk. unfold byte_of, u8. by rewrite Z.shiftr_div_pow2. Qed.

Lemma be16_split v : 0 <= v < 65536 -> be16 (byte_of v 8) (byte_of v 0) = v.
Proof.
  intros H. unfold be16. rewrite !byte_of_div by lia.
  change (2 ^ 8) with 256. change (2 ^ 0) with 1.
  rewrite Z.div_1_r, (Z.mod_small (v / 256)).
  - pose proof (Z.div_mod v 256). lia.
  - split; [apply Z.div_pos|apply Z.div_lt_upper_bound]; lia.
Qed.

Lemma be32_split v :
  0 <= v < 4294967296 ->
  be32 (byte_of v 24) (byte_of v 16) (byte_of v 8) (byte_of v 0) = v.
Proof.
  intros H. unfold be32. rewrite !byte_of_div by lia.
  change (2 ^ 24) with (256 * 65536). change (2 ^ 16) with (256 * 256).
  change (2 ^ 8) with 256. change (2 ^ 0) with 1. change 65536 with (256 * 256) at 1.
  rewrite Z.div_1_r, !Z.mul_assoc, <- !Z.div_div by lia.
  pose proof (Z.div_mod v 256 ltac:(lia)).
  pose proof (Z.div_mod (v / 256) 256 ltac:(lia)).
  pose proof (Z.div_mod (v / 256 / 256) 256 ltac:(lia)).
  pose proof (Z.div_mod (v / 256 / 256 / 256) 256 ltac:(lia)).
  assert (0 <= v / 256 / 256 / 256 / 256) by (repeat apply Z.div_pos; lia).
  assert (v / 256 / 256 / 256 / 256 < 1) by (repeat (apply Z.div_lt_upper_bound; [lia|]); lia).
  lia.
Qed.

Lemma be16_range a b : byte_ok a -> byte_ok b -> 0 <= be16 a b < 65536.
Proof. unfold byte_ok, be16. lia. Qed.

Lemma be32_range a b c d :
  byte_ok a -> byte_ok b -> byte_ok c -> byte_ok d -> 0 <= be32 a b c d < 4294967296.
Proof. unfold byte_ok, be32. lia. Qed.

Lemma be16_bytes a b : byte_ok a -> byte_ok b ->
  byte_of (be16 a b) 8 = a /\ byte_of (be16 a b) 0 = b.
Proof.
  unfold byte_ok, be16. intros Ha Hb. rewrite !byte_of_div by lia.
  change (2 ^ 8) with 256. change (2 ^ 0) with 1. rewrite Z.div_1_r.
  split.
  - rewrite Z.div_add_l, (Z.div_small b) by lia. rewrite Z.add_0_r. apply Z.mod_small. lia.
  - rewrite Z.add_comm, Z.mod_add by lia. apply Z.mod_small. lia.
Qed.

Lemma bytes_ok_lookup (l : bytes) i x : bytes_ok l -> l !! i = Some x -> byte_ok x.
Proof. apply Forall_lookup_1. Qed.

Lemma get_u16_returns (l : bytes) i :
  bytes_ok l -> (i + 2 <= length l)%nat -> returns (get_u16 l i) (fun v => 0 <= v < 65536).
Proof.
  intros Hl Hi. unfold get_u16.
  greturns @index_returns; [lia|]. intros a Ha.
  greturns @index_returns; [lia|]. intros b Hb.
  apply returns_ret, be16_range; eauto using bytes_ok_lookup.
Qed.

Lemma get_u32_returns (l : bytes) i :
  bytes_ok l -> (i + 4 <= length l)%nat -> returns (get_u32 l i) (fun v => 0 <= v < 4294967296).
Proof.
  intros Hl Hi. unfold get_u32.
  do 4 (greturns @index_returns; [lia|]; intros ? ?).
  apply returns_ret, be32_range; eauto using bytes_ok_lookup.
Qed.

(** Writes into a buffer whose untouched parts are named. *)
Lemma set_index_app {A} (a b : list A) x v i :
  i = length a -> set_index (a ++ x :: b) i v = Ret (a ++ v :: b).
Proof.
  intros ->. unfold set_index.
  rewrite (proj2 (Nat.ltb_lt _ _)) by (rewrite length_app; simpl; lia).
  by rewrite insert_app_r_alt, Nat.sub_diag by lia.
Qed.

Lemma put_u16_app (a b : bytes) x y v i :
  i = length a ->
  put_u16 (a ++ x :: y :: b) i v = Ret (a ++ byte_of v 8 :: byte_of v 0 :: b).
Proof.
  intros ->. unfold put_u16. rewrite set_index_app by done. cbn [gbind].
  change (byte_of v 8 :: y :: b) with ([byte_of v 8] ++ y :: b). rewrite app_assoc.
  rewrite set_index_app by (rewrite length_app; done). by rewrite <- app_assoc.
Qed.

Lemma put_u32_app (a b : bytes) x y z w v i :
  i = length a ->
  put_u32 (a ++ x :: y :: z :: w :: b) i v =
    Ret (a ++ byte_of v 24 :: byte_of v 16 :: byte_of v 8 :: byte_of v 0 :: b).
Proof.
  intros ->. unfold put_u32. rewrite set_index_app by done. cbn [gbind].
  change (byte_of v 24 :: y :: z :: w :: b) with ([byte_of v 24] ++ y :: z :: w :: b).
  rewrite app_assoc, set_index_app by (rewrite length_app; done). cbn [gbind].
  change (byte_of v 16 :: z :: w :: b) with ([byte_of v 16] ++ z :: w :: b).
  rewrite app_assoc, set_index_app by (rewrite !length_app; simpl; lia). cbn [gbind].
  change (byte_of v 8 :: w :: b) with ([byte_of v 8] ++ w :: b).
  rewrite app_assoc, set_index_app by (rewrite !length_app; simpl; lia).
  by rewrite <- !app_assoc.
Qed.

Lemma copy_into_app {A} (a b c src : list A) i j :
  i = length a -> j = (length a + length src)%nat -> length b = length src ->
  copy_into (a ++ b ++ c) i j src = Ret (a ++ src ++ c).
Proof.
  intros -> -> Hb. unfold copy_into.
  rewrite (proj2 (Nat.leb_le _ _)), (proj2 (Nat.leb_le _ _))
    by (rewrite ?length_app; lia).
  cbn [andb]. replace (length a + length src - length a)%nat with (length src) by lia.
  rewrite Nat.min_id, firstn_all, take_app_length. f_equal. f_equal. f_equal.
  rewrite app_assoc, drop_app_length' by (rewrite length_app; lia). done.
Qed.

Lemma copy_tail {A} (a b src : list A) i j :
  i = length a -> j = (length a + length b)%nat -> (length src <= length b)%nat ->
  copy_into (a ++ b) i j src = Ret (a ++ src ++ drop (length src) b).
Proof.
  intros -> -> Hl. unfold copy_into. rewrite length_app.
  rewrite (proj2 (Nat.leb_le _ _)), (proj2 (Nat.leb_le _ _)) by lia. cbn [andb].
  replace (length a + length b - length a)%nat with (length b) by lia. rewrite Nat.min_r by lia.
  rewrite firstn_all, take_app_length, drop_app_ge by lia. by replace (length a + length src - length a)%nat
    with (length src) by lia.
Qed.

(** A buffer of length at least [k] starts with [k] cells. *)
Lemma length_split {A} (l : list A) k :
  (k <= length l)%nat -> exists a b, l = a ++ b /\ length a = k.
Proof.
  intros H. exists (take k l), (drop k l).
  rewrite take_drop, length_take. split; [done|lia].
Qed.

Lemma length_cons4 {A} (l : list A) :
  (4 <= length l)%nat -> exists x y z w r, l = x :: y :: z :: w :: r.
Proof. destruct l as [|? [|? [|? [|? ?]]]]; simpl; intros; try lia. eauto 10. Qed.

Lemma bytes_ok_app l k : bytes_ok (l ++ k) <-> bytes_ok l /\ bytes_ok k.
Proof. apply Forall_app. Qed.

Lemma bytes_ok_take n l : bytes_ok l -> bytes_ok (take n l).
Proof. apply Forall_take. Qed.

Lemma bytes_ok_drop n l : bytes_ok l -> bytes_ok (drop n l).
Proof. apply Forall_drop. Qed.

Lemma bytes_ok_replicate n : bytes_ok (replicate n 0).
Proof. apply Forall_replicate. unfold byte_ok. lia. Qed.

Lemma bytes_ok_insert l i v : bytes_ok l -> byte_ok v -> bytes_ok (<[i := v]> l).
Proof. intros Hl Hv. by apply Forall_insert. Qed.

Create HintDb go.
#[export] Hint Resolve byte_of_ok bytes_ok_take bytes_ok_drop bytes_ok_replicate bytes_ok_insert : go.

(** ** Sums *)

Definition sumZ (l : list Z) : Z := foldr Z.add 0 l.

Lemma sumZ_cons x l : sumZ (x :: l) = x + sumZ l.
Proof. done. Qed.

Lemma sumZ_app l1 l2 : sumZ (l1 ++ l2) = sumZ l1 + sumZ l2.
Proof. induction l1; [done|]. cbn [app]. rewrite !sumZ_cons. lia. Qed.

Lemma sumZ_perm l1 l2 : l1 ≡ₚ l2 -> sumZ l1 = sumZ l2.
Proof. induction 1; rewrite ?sumZ_cons; lia. Qed.

Lemma sumZ_map_perm {A} (f : A -> Z) l1 l2 : l1 ≡ₚ l2 -> sumZ (map f l1) = sumZ (map f l2).
Proof. intros Hp. by apply sumZ_perm, Permutation_map. Qed.

Lemma sumZ_map_add {A} (f g : A -> Z) l :
  sumZ (map (fun x => f x + g x) l) = sumZ (map f l) + sumZ (map g l).
Proof. induction l; [done|]. cbn [map]. rewrite !sumZ_cons. lia. Qed.

Lemma sumZ_map_nonneg {A} (f : A -> Z) l : (forall x, x ∈ l -> 0 <= f x) -> 0 <= sumZ (map f l).
Proof.
  induction l as [|x l IH]; intros Hf; [done|]. cbn [map]. rewrite sumZ_cons.
  pose proof (Hf x ltac:(set_solver)). assert (0 <= sumZ (map f l)) by (apply IH; set_solver). lia.
Qed.

Lemma sumZ_map_ext {A} (f g : A -> Z) l :
  (forall x, x ∈ l -> f x = g x) -> sumZ (map f l) = sumZ (map g l).
Proof.
  induction l as [|x l IH]; intros Hf; [done|]. cbn [map]. rewrite !sumZ_cons.
  rewrite (Hf x) by set_solver. f_equal. apply IH. set_solver.
Qed.

Lemma sumZ_map_0 {A} (f : A -> Z) l : (forall x, x ∈ l -> f x = 0) -> sumZ (map f l) = 0.
Proof.
  intros Hf. rewrite (sumZ_map_ext f (fun _ => 0) l Hf). clear Hf.
  induction l; [done|]. cbn [map]. rewrite sumZ_cons. lia.
Qed.

(** A sum that is zero everywhere but at one element. *)
Lemma sumZ_map_single {A} `{EqDecision A} (x : A) v l :
  NoDup l -> x ∈ l -> sumZ (map (fun y => if decide (y = x) then v else 0) l) = v.
Proof.
  induction 1 as [|y l Hy Hnd IH]; [set_solver|]. intros Hx.
  cbn [map]. rewrite sumZ_cons. destruct (decide (y = x)) as [->|].
  - rewrite sumZ_map_0; [lia|]. intros z Hz. rewrite decide_False; [done|set_solver].
  - rewrite IH; [lia|]. apply elem_of_cons in Hx as [->|Hx]; done.
Qed.

(** Wrap-around absorbs inner wrap-around. *)
Lemma i64_eqm a b : (exists k, a = b + k * 18446744073709551616) -> i64 a = i64 b.
Proof.
  intros [k ->]. unfold i64. f_equal.
  rewrite Z.add_shuffle0. apply Z.mod_add. lia.
Qed.

Lemma i64_diff a : exists k, i64 a = a + k * 18446744073709551616.
Proof.
  exists (- ((a + 9223372036854775808) / 18446744073709551616)). unfold i64.
  rewrite Zmod_eq_full by lia. lia.
Qed.

Lemma i64_i64_add a b : i64 (i64 a + b) = i64 (a + b).
Proof. destruct (i64_diff a) as [k ->]. apply i64_eqm. exists k. lia. Qed.

Lemma i64_add_i64 a b : i64 (a + i64 b) = i64 (a + b).
Proof. by rewrite (Z.add_comm a), i64_i64_add, (Z.add_comm b). Qed.

Lemma i64_sub_i64 a b : i64 (a - i64 b) = i64 (a - b).
Proof. destruct (i64_diff b) as [k ->]. apply i64_eqm. exists (- k). lia. Qed.

Lemma i64_idem a : i64 (i64 a) = i64 a.
Proof. pose proof (i64_i64_add a 0) as E. by rewrite !Z.add_0_r in E. Qed.

(** A boolean fact about the integers below a bound, by running it. *)
Lemma all_below (P : Z -> bool) (n : nat) :
  forallb (fun k => P (Z.of_nat k)) (seq 0 n) = true -> forall z, 0 <= z < Z.of_nat n -> P z = true.
Proof.
  intros Hall z Hz. rewrite forallb_forall in Hall. specialize (Hall (Z.to_nat z)).
  rewrite Z2Nat.id in Hall by lia. apply Hall. apply in_seq. lia.
Qed.
