(* ===== verification/GoIo.v ===== *)
(** The standard-library I/O interfaces the framers use: [io.Reader] through
    [io.ReadFull], [io.Writer], and the message pool (src/message_pool.go)
    through the one promise its callers rely on. *)
From S2P Require Import Prelude.

Inductive ioerr :=
| EOF
| ErrUnexpectedEOF
| ErrShortWrite
| ErrOther (code : Z).

#[export] Instance ioerr_eq_dec : EqDecision ioerr.
Proof. solve_decision. Defined.

(** A byte stream being read: the bytes that will still arrive and the error
    reported after them. *)
Record stream := Stream { st_bytes : bytes; st_end : ioerr }.

(** [io.ReadFull(r, buf)] with [len(buf) = n]. *)
Definition ReadFull (r : stream) (n : nat) : stream * (bytes + ioerr) :=
  if (n <=? length (st_bytes r))%nat
  then (Stream (drop n (st_bytes r)) (st_end r), inl (take n (st_bytes r)))
  else (Stream [] (st_end r),
        inr (match st_end r, st_bytes r with
             | EOF, [] => EOF
             | EOF, _ :: _ => ErrUnexpectedEOF
             | e, _ => e
             end)).

(** [io.Writer]: a write reports how many bytes it took and an error. The law
    is the part of the interface's contract the framing theorems use: the
    destination grows by exactly the bytes the writer says it took. *)
Class Writer (W : Type) := {
  w_write : W -> bytes -> W * nat * option ioerr;
  w_out : W -> bytes;
  w_write_out : forall w p w' n e,
    w_write w p = (w', n, e) -> w_out w' = w_out w ++ take n p;
}.

(** A destination with a scripted answer per call: [Some (n, e)] takes at most
    [n] bytes and reports [e]; past the script every byte is taken. *)
Record sink := Sink { sk_out : bytes; sk_script : list (nat * option ioerr) }.

Definition sink_write (w : sink) (p : bytes) : sink * nat * option ioerr :=
  match sk_script w with
  | [] => (Sink (sk_out w ++ p) [], length p, None)
  | (n, e) :: rest =>
      let n := Nat.min n (length p) in
      (Sink (sk_out w ++ take n p) rest, n, e)
  end.

#[export] Program Instance sink_writer : Writer sink := {|
  w_write := sink_write;
  w_out := sk_out;
|}.
Next Obligation.
  intros w p w' n e. unfold sink_write.
  destruct (sk_script w) as [|[k e'] rest]; intros H; simplify_eq/=; [|done].
  by rewrite firstn_all.
Qed.

(** [MessagePoolGet n] hands out a buffer of length [n] with unspecified
    contents: a pooled buffer still holds what its last owner wrote. *)
Class MessagePool := {
  pool_get : nat -> bytes;
  pool_get_length : forall n, length (pool_get n) = n;
}.

(** A pool whose buffers are dirty: the witness that nothing relies on zeroed
    memory. *)
#[export] Program Instance dirty_pool : MessagePool := {|
  pool_get n := replicate n 165;
|}.
Next Obligation. intros n. apply length_replicate. Qed.

Lemma ReadFull_app (a b : bytes) e :
  ReadFull (Stream (a ++ b) e) (length a) = (Stream b e, inl a).
Proof.
  unfold ReadFull. cbn [st_bytes st_end].
  rewrite (proj2 (Nat.leb_le _ _)) by (rewrite length_app; lia).
  by rewrite drop_app_length, take_app_length.
Qed.

Lemma ReadFull_app_n (a b : bytes) e n :
  length a = n -> ReadFull (Stream (a ++ b) e) n = (Stream b e, inl a).
Proof. intros <-. apply ReadFull_app. Qed.

Lemma ReadFull_short (r : stream) n :
  (length (st_bytes r) < n)%nat ->
  exists e, ReadFull r n = (Stream [] (st_end r), inr e).
Proof.
  intros H. unfold ReadFull. rewrite (proj2 (Nat.leb_gt _ _)) by lia. eauto.
Qed.
