(* ===== verification/BufferPool.v ===== *)
(** The shared message pool (src/message_pool.go): five size classes of byte
    buffers, each split into shards with a free list. A buffer carries its own
    books in the 13 bytes past its size: an id, the tag of the call site, flags,
    a reference count and the shard it came from. Owners share a buffer by
    raising the count and give it back by lowering it.

    A buffer is an array of the heap, named by its index; a Go slice of it is the
    index with a length, and its capacity is the length of the array. An array
    that reaches no free list and no owner stays in the heap as garbage. The
    methods lock one shard at a time, and between two locks of one operation the
    buffer is in nobody's hands but the caller's, so an operation is one step.
    The number of shards is [DefaultMessagePoolShardCount], a power of two up to
    256 that the environment sets. *)
From S2P Require Import Prelude GoIo.

Definition MessagePoolMetaByteCount : nat := 13.
Definition MessagePoolFlagShared : Z := 1.
Definition MessagePoolRefusedShareCountShift : Z := 1.
Definition MessagePoolRefusedShareCountMask : Z := 254.
Definition MessagePoolMaxRefusedShareCount : Z := 127.
Definition InitialMessagePoolByteCount : Z := 2097152.

(** ** The state *)

Record poolShard := PoolShard {
  sh_pool : list nat;                  (* pool[:count] *)
  sh_capacity : nat;                   (* len(pool) *)
  nextId : Z;
  takenTags : list Z;
  returnedTags : list Z;
  createdTags : list Z;
}.

Record messagePool := MkMessagePool { mp_size : nat; mp_shards : list poolShard; shardNext : Z }.

Record PoolMetrics := MkPoolMetrics {
  Hits : Z;
  Misses : Z;
  Returns : Z;
  ActiveBuffers : Z;
  SizeDistribution : gmap nat Z;
}.

Record pools := Pools {
  orderedMessagePools : list messagePool;
  heap : list (list Z);
  globalPoolMetrics : PoolMetrics;
}.

(** A slice that starts where its buffer starts. *)
Record message := Message { m_buf : nat; m_len : nat }.

Definition no_tags : list Z := replicate 256 0.
Definition newPoolShard (maxCount : nat) : poolShard := PoolShard [] maxCount 0 no_tags no_tags no_tags.

(** The free capacity of a shard is at least one buffer. *)
Definition per_shard (shardCount maxCount : Z) : nat := Z.to_nat (Z.max 1 (Z.quot maxCount shardCount)).

Definition newMessagePool (shardCount : nat) (size : nat) (maxCount : Z) : messagePool :=
  MkMessagePool size (replicate shardCount (newPoolShard (per_shard (Z.of_nat shardCount) maxCount))) 0.

Definition messagePoolSizes : list nat := map Z.to_nat [2048; 4096; 16384; 32768; 65536].
Definition newPools (shardCount : nat) : pools :=
  Pools (map (fun n => newMessagePool shardCount n (Z.quot InitialMessagePoolByteCount (Z.of_nat n))) messagePoolSizes) []
    (MkPoolMetrics 0 0 0 0 ∅).

(** ** Updates of the nested state *)

Definition set_shard_pool (sh : poolShard) (l : list nat) : poolShard :=
  PoolShard l (sh_capacity sh) (nextId sh) (takenTags sh) (returnedTags sh) (createdTags sh).
Definition set_heap (st : pools) (h : list (list Z)) : pools := Pools (orderedMessagePools st) h (globalPoolMetrics st).
Definition set_metrics (st : pools) (m : PoolMetrics) : pools := Pools (orderedMessagePools st) (heap st) m.
Definition alter_pool (st : pools) (k : nat) (f : messagePool -> messagePool) : pools :=
  Pools (alter f k (orderedMessagePools st)) (heap st) (globalPoolMetrics st).
Definition alter_shards (f : list poolShard -> list poolShard) (mp : messagePool) : messagePool :=
  MkMessagePool (mp_size mp) (f (mp_shards mp)) (shardNext mp).
Definition alter_shard (st : pools) (k j : nat) (f : poolShard -> poolShard) : pools :=
  alter_pool st k (alter_shards (alter f j)).

Definition addSizeDistribution (m : PoolMetrics) (size : nat) : PoolMetrics :=
  MkPoolMetrics (Hits m) (Misses m) (Returns m) (ActiveBuffers m)
    (<[size := u64 (default 0 (SizeDistribution m !! size) + 1)]> (SizeDistribution m)).
Definition count_get (m : PoolMetrics) (hit : bool) (size : nat) : PoolMetrics :=
  addSizeDistribution
    (MkPoolMetrics (if hit then u64 (Hits m + 1) else Hits m) (if hit then Misses m else u64 (Misses m + 1)) (Returns m)
       (u64 (ActiveBuffers m + 1)) (SizeDistribution m)) size.

Definition add_tag (tag : Z) (l : list Z) : list Z := alter (fun n => u64 (n + 1)) (Z.to_nat tag) l.

(** ** Shards *)

Definition nextShardIndex (mp : messagePool) : messagePool * nat :=
  let n := u64 (shardNext mp + 1) in
  (MkMessagePool (mp_size mp) (mp_shards mp) n,
   Z.to_nat (Z.land (i64 (u64 (n - 1))) (u32 (Z.of_nat (length (mp_shards mp)) - 1)))).

(** The first [count] entries stay. *)
Definition resize_shard (maxCountPerShard : nat) (sh : poolShard) : poolShard :=
  PoolShard (take maxCountPerShard (sh_pool sh)) maxCountPerShard (nextId sh) (takenTags sh) (returnedTags sh) (createdTags sh).
Definition Resize (maxCount : Z) (mp : messagePool) : messagePool :=
  alter_shards (map (resize_shard (per_shard (Z.of_nat (length (mp_shards mp))) maxCount))) mp.

Definition Clear (mp : messagePool) : messagePool := alter_shards (map (fun sh => set_shard_pool sh [])) mp.

Definition ResizeMessagePools (st : pools) (maxByteCount : Z) : pools :=
  let n := Z.of_nat (length (orderedMessagePools st)) in
  Pools (map (fun mp => Resize (Z.quot (Z.quot maxByteCount n) (Z.of_nat (mp_size mp))) mp) (orderedMessagePools st)) (heap st) (globalPoolMetrics st).
Definition ResizeMessagePoolsPerClass (st : pools) (maxByteCount : Z) : pools :=
  Pools (map (fun mp => Resize (Z.quot maxByteCount (Z.of_nat (mp_size mp))) mp) (orderedMessagePools st)) (heap st) (globalPoolMetrics st).
Definition ClearMessagePools (st : pools) : pools := Pools (map Clear (orderedMessagePools st)) (heap st) (globalPoolMetrics st).

(** ** Taking a buffer from a class, and putting it back *)

Definition put_u64 (l : bytes) (i : nat) (v : Z) : go bytes :=
  let! l := put_u32 l i (Z.shiftr v 32) in put_u32 l (i + 4) v.

Definition new_buffer (size : nat) (id : Z) (j : nat) : go bytes :=
  let! b := put_u64 (replicate (size + MessagePoolMetaByteCount) 0) size id in
  let! b := set_index b (size + 8) 255 in
  set_index b (size + 12) (u8 (Z.of_nat j)).

Definition Get (st : pools) (k : nat) : go (pools * nat) :=
  let! mp := index (orderedMessagePools st) k in
  let '(mp', j) := nextShardIndex mp in
  let st := alter_pool st k (fun _ => mp') in
  let! sh := index (mp_shards mp') j in
  match list.last (sh_pool sh) with
  | Some b =>
      let st := alter_shard st k j (fun sh => set_shard_pool sh (removelast (sh_pool sh))) in
      let! a := index (heap st) b in
      let! a := set_index a (mp_size mp + 12) (u8 (Z.of_nat j)) in
      Ret (set_metrics (set_heap st (<[b := a]> (heap st))) (count_get (globalPoolMetrics st) true (mp_size mp)), b)
  | None =>
      let id := u64 (nextId sh + 1) in
      let st := alter_shard st k j (fun sh => PoolShard (sh_pool sh) (sh_capacity sh) id (takenTags sh) (returnedTags sh) (createdTags sh)) in
      let! a := new_buffer (mp_size mp) id j in
      Ret (set_metrics (set_heap st (heap st ++ [a])) (count_get (globalPoolMetrics st) false (mp_size mp)), length (heap st))
  end.

Definition Put (st : pools) (k : nat) (b : nat) : go pools :=
  let! mp := index (orderedMessagePools st) k in
  let! a := index (heap st) b in
  let! j := index a (mp_size mp + 12) in
  if Z.of_nat (length (mp_shards mp)) <=? j then Ret st
  else
    let! sh := index (mp_shards mp) (Z.to_nat j) in
    let m := globalPoolMetrics st in
    let m := MkPoolMetrics (Hits m) (Misses m) (Returns m) (u64 (ActiveBuffers m + (- 1))) (SizeDistribution m) in
    if (length (sh_pool sh) <? sh_capacity sh)%nat then
      let st := alter_shard st k (Z.to_nat j) (fun sh => set_shard_pool sh (sh_pool sh ++ [b])) in
      Ret (set_metrics st (MkPoolMetrics (Hits m) (Misses m) (u64 (Returns m + 1)) (ActiveBuffers m) (SizeDistribution m)))
    else Ret (set_metrics st m).

(** ** The operations of the callers *)

Definition count_taken (sh : poolShard) (created : bool) (tag : Z) : poolShard :=
  PoolShard (sh_pool sh) (sh_capacity sh) (nextId sh) (add_tag tag (takenTags sh)) (returnedTags sh)
    (if created then add_tag tag (createdTags sh) else createdTags sh).
Definition count_returned (sh : poolShard) (tag : Z) : poolShard :=
  PoolShard (sh_pool sh) (sh_capacity sh) (nextId sh) (takenTags sh) (add_tag tag (returnedTags sh)) (createdTags sh).

Definition MessagePoolGetDetailedWithTag (st : pools) (n : nat) (tag : Z) : go (pools * message * bool) :=
  match list_find (fun mp => n <= mp_size mp)%nat (orderedMessagePools st) with
  | Some (k, mp) =>
      let size := mp_size mp in
      let! '(st, b) := Get st k in
      let! a := index (heap st) b in
      let! t := index a (size + 8) in
      let! a := set_index a (size + 8) tag in
      let! j := index a (size + 12) in
      let! mp := index (orderedMessagePools st) k in
      let! sh := index (mp_shards mp) (Z.to_nat j) in
      let st := alter_shard st k (Z.to_nat j) (fun sh => count_taken sh (t =? 255) tag) in
      let! count := get_u16 a (size + 10) in
      if negb (count =? 0) then Panic
      else
        let! a := put_u16 a (size + 10) 1 in
        Ret (set_heap st (<[b := a]> (heap st)), Message b n, true)
  | None => Ret (set_heap st (heap st ++ [replicate (n + MessagePoolMetaByteCount) 0]), Message (length (heap st)) n, false)
  end.

(** [copy(poolMessage, message)]. *)
Definition MessagePoolCopyDetailedWithTag (st : pools) (content : bytes) (tag : Z) : go (pools * message * bool) :=
  let! '(st, m, pooled) := MessagePoolGetDetailedWithTag st (length content) tag in
  let! a := index (heap st) (m_buf m) in
  let! a := copy_into a 0 (m_len m) content in
  Ret (set_heap st (<[m_buf m := a]> (heap st)), m, pooled).

(** The class a slice of this capacity belongs to. *)
Definition class_of (st : pools) (cap : nat) : option (nat * messagePool) :=
  list_find (fun mp => cap = mp_size mp + MessagePoolMetaByteCount)%nat (orderedMessagePools st).

Definition refused_of (flags : Z) : Z := Z.shiftr (Z.land flags MessagePoolRefusedShareCountMask) MessagePoolRefusedShareCountShift.
Definition set_refused (flags refused : Z) : Z :=
  Z.lor (Z.ldiff flags MessagePoolRefusedShareCountMask) (u8 (Z.shiftl refused MessagePoolRefusedShareCountShift)).

Definition MessagePoolReturn (st : pools) (m : message) : go (pools * bool) :=
  let! a := index (heap st) (m_buf m) in
  match class_of st (length a) with
  | Some (k, mp) =>
      let size := mp_size mp in
      let! tag := index a (size + 8) in
      let! j := index a (size + 12) in
      if Z.of_nat (length (mp_shards mp)) <=? j then Ret (st, false)
      else
        let! sh := index (mp_shards mp) (Z.to_nat j) in
        let! count := get_u16 a (size + 10) in
        let! flags := index a (size + 9) in
        let refused := refused_of flags in
        if negb (refused =? 0) then
          let! a := set_index a (size + 9) (set_refused flags (refused - 1)) in
          Ret (set_heap st (<[m_buf m := a]> (heap st)), false)
        else if count =? 0 then Ret (st, false)
        else if count =? 1 then
          let! a := set_index a (size + 8) 0 in
          let! a := set_index a (size + 9) 0 in
          let! a := put_u16 a (size + 10) 0 in
          let st := alter_shard st k (Z.to_nat j) (fun sh => count_returned sh tag) in
          let! st := Put (set_heap st (<[m_buf m := a]> (heap st))) k (m_buf m) in
          Ret (st, true)
        else
          let! a := put_u16 a (size + 10) (count - 1) in
          Ret (set_heap st (<[m_buf m := a]> (heap st)), false)
  | None => Ret (st, false)
  end.

Definition MessagePoolShareReadOnly (st : pools) (m : message) : go pools :=
  let! a := index (heap st) (m_buf m) in
  match class_of st (length a) with
  | Some (k, mp) =>
      let size := mp_size mp in
      let! j := index a (size + 12) in
      if Z.of_nat (length (mp_shards mp)) <=? j then Ret st
      else
        let! sh := index (mp_shards mp) (Z.to_nat j) in
        let! count := get_u16 a (size + 10) in
        if count =? 0 then Ret st
        else if count =? 65535 then
          let! flags := index a (size + 9) in
          let refused := refused_of flags in
          let refused := if refused <? MessagePoolMaxRefusedShareCount then refused + 1 else refused in
          let! a := set_index a (size + 9) (set_refused flags refused) in
          Ret (set_heap st (<[m_buf m := a]> (heap st)))
        else
          let! a := put_u16 a (size + 10) (count + 1) in
          let! flags := index a (size + 9) in
          let! a := set_index a (size + 9) (Z.lor flags MessagePoolFlagShared) in
          Ret (set_heap st (<[m_buf m := a]> (heap st)))
  | None => Ret st
  end.

(** Whether the buffer is taken, and whether it was ever shared. *)
Definition MessagePoolCheck (st : pools) (m : message) : go (bool * bool) :=
  let! a := index (heap st) (m_buf m) in
  match class_of st (length a) with
  | Some (k, mp) =>
      let size := mp_size mp in
      let! j := index a (size + 12) in
      if Z.of_nat (length (mp_shards mp)) <=? j then Ret (false, false)
      else
        let! sh := index (mp_shards mp) (Z.to_nat j) in
        let! count := get_u16 a (size + 10) in
        let! flags := index a (size + 9) in
        Ret (if 0 <? count then (true, negb (Z.land flags MessagePoolFlagShared =? 0)) else (false, false))
  | None => Ret (false, false)
  end.

(** [MessagePoolTotals]: taken and returned, over the shards and tags of a class. *)
Definition MessagePoolTotals (st : pools) (size : nat) : Z * Z :=
  let shards := flat_map (fun mp => if decide (mp_size mp = size) then mp_shards mp else []) (orderedMessagePools st) in
  (fold_left (fun n sh => fold_left (fun n t => u64 (n + t)) (takenTags sh) n) shards 0,
   fold_left (fun n sh => fold_left (fun n t => u64 (n + t)) (returnedTags sh) n) shards 0).
Definition ResetMessagePoolStats (st : pools) : pools :=
  Pools (map (alter_shards (map (fun sh => PoolShard (sh_pool sh) (sh_capacity sh) (nextId sh) no_tags no_tags no_tags))) (orderedMessagePools st))
    (heap st) (globalPoolMetrics st).

(** An owner writes a byte of its slice. *)
Definition write_byte (st : pools) (m : message) (i : nat) (v : Z) : go pools :=
  if (i <? m_len m)%nat then
    let! a := index (heap st) (m_buf m) in
    let! a := set_index a i v in
    Ret (set_heap st (<[m_buf m := a]> (heap st)))
  else Panic.

(** ** The books of a buffer *)

Definition tag_of (size : nat) (a : list Z) : Z := a !!! (size + 8)%nat.
Definition flags_of (size : nat) (a : list Z) : Z := a !!! (size + 9)%nat.
Definition count_of (size : nat) (a : list Z) : Z := be16 (a !!! (size + 10)%nat) (a !!! (size + 11)%nat).
Definition shard_of (size : nat) (a : list Z) : Z := a !!! (size + 12)%nat.
Definition set_count (size : nat) (v : Z) (a : list Z) : list Z := <[(size + 11)%nat := byte_of v 0]> (<[(size + 10)%nat := byte_of v 8]> a).

Lemma index_total (a : list Z) i : (i < length a)%nat -> index a i = Ret (a !!! i).
Proof. intros Hi. apply index_ret. by apply list_lookup_lookup_total_lt. Qed.
Lemma set_index_insert (a : list Z) i v : (i < length a)%nat -> set_index a i v = Ret (<[i := v]> a).
Proof. intros Hi. unfold set_index. by rewrite (proj2 (Nat.ltb_lt _ _) Hi). Qed.
Lemma get_count (a : list Z) size : length a = (size + 13)%nat -> get_u16 a (size + 10) = Ret (count_of size a).
Proof.
  intros Hl. unfold get_u16. rewrite !index_total by lia. cbn [gbind].
  by replace (size + 10 + 1)%nat with (size + 11)%nat by lia.
Qed.
Lemma put_count (a : list Z) size v : length a = (size + 13)%nat -> put_u16 a (size + 10) v = Ret (set_count size v a).
Proof.
  intros Hl. unfold put_u16. rewrite set_index_insert by lia. cbn [gbind]. rewrite set_index_insert by (rewrite ?length_insert; lia).
  by replace (size + 10 + 1)%nat with (size + 11)%nat by lia.
Qed.

(** Evaluates the books of a buffer after writes into it. *)
Ltac books :=
  unfold tag_of, flags_of, count_of, shard_of, set_count in *;
  repeat first [rewrite list_lookup_total_insert_ne by lia | rewrite list_lookup_total_insert_eq by (rewrite ?length_insert; lia)].

Lemma count_set size v a : length a = (size + 13)%nat -> 0 <= v < 65536 -> count_of size (set_count size v a) = v.
Proof. intros Hl Hv. books. by apply be16_split. Qed.

Lemma lookup_total_byte (a : list Z) i : bytes_ok a -> byte_ok (a !!! i).
Proof.
  intros Ha. destruct (a !! i) as [x|] eqn:E; [rewrite (list_lookup_total_correct _ _ _ E); by eapply bytes_ok_lookup|].
  rewrite list_lookup_total_alt, E. cbn. unfold byte_ok. lia.
Qed.

(** ** What the pool keeps *)

Definition shard_at (st : pools) (k j : nat) : option (nat * poolShard) :=
  match orderedMessagePools st !! k with
  | Some mp => match mp_shards mp !! j with Some sh => Some (mp_size mp, sh) | None => None end
  | None => None
  end.

(** A buffer on the free list of shard [j] of the class of [size]. *)
Record free_ok (size j : nat) (a : list Z) : Prop := {
  fr_length : length a = (size + 13)%nat;
  fr_tag : tag_of size a = 0;
  fr_flags : flags_of size a = 0;
  fr_count : count_of size a = 0;
  fr_shard : shard_of size a = Z.of_nat j;
}.

(** Refusals are pending only at the greatest count. *)
Record buffer_ok (shards size : nat) (a : list Z) : Prop := {
  bo_bytes : bytes_ok a;
  bo_shard : shard_of size a < Z.of_nat shards;
  bo_untaken : count_of size a = 0 -> flags_of size a = 0;
  bo_refused : refused_of (flags_of size a) = 0 \/ count_of size a = 65535;
}.

Record shard_ok (h : list (list Z)) (size j : nat) (sh : poolShard) : Prop := {
  so_nodup : NoDup (sh_pool sh);
  so_room : (length (sh_pool sh) <= sh_capacity sh)%nat;
  so_free b : b ∈ sh_pool sh -> exists a, h !! b = Some a /\ free_ok size j a;
  so_tags : length (takenTags sh) = 256%nat /\ length (returnedTags sh) = 256%nat;
}.

Record pool_wf (sizes : list nat) (shards : nat) (st : pools) : Prop := {
  pw_sizes : map mp_size (orderedMessagePools st) = sizes;
  pw_counts mp : mp ∈ orderedMessagePools st -> length (mp_shards mp) = shards;
  pw_shards k j size sh : shard_at st k j = Some (size, sh) -> shard_ok (heap st) size j sh;
  pw_heap b a size : heap st !! b = Some a -> size ∈ sizes -> length a = (size + 13)%nat -> buffer_ok shards size a;
}.

Section pool.
Context (sizes : list nat) (shards : nat).
Context (Hsizes : NoDup sizes) (Hshards : exists p, (p <= 8)%nat /\ shards = (2 ^ p)%nat).
Implicit Types st : pools.
Abbreviation wf := (pool_wf sizes shards).

Lemma shards_range : (1 <= shards <= 256)%nat.
Proof.
  destruct Hshards as (p & Hp & ->). pose proof (Nat.pow_le_mono_r 2 p 8 ltac:(lia) Hp). pose proof (Nat.pow_nonzero 2 p ltac:(lia)).
  change (2 ^ 8)%nat with 256%nat in *. lia.
Qed.

Lemma wf_class st k mp : wf st -> orderedMessagePools st !! k = Some mp ->
  mp_size mp ∈ sizes /\ sizes !! k = Some (mp_size mp) /\ length (mp_shards mp) = shards.
Proof.
  intros Hw Hk. assert (Hs : sizes !! k = Some (mp_size mp)) by (rewrite <- (pw_sizes _ _ _ Hw); by rewrite list_lookup_fmap, Hk).
  split; [by apply list_elem_of_lookup_2 in Hs|]. split; [done|]. apply (pw_counts _ _ _ Hw). by apply list_elem_of_lookup_2 in Hk.
Qed.

Lemma class_some st cap k mp :
  class_of st cap = Some (k, mp) -> orderedMessagePools st !! k = Some mp /\ cap = (mp_size mp + 13)%nat.
Proof. unfold class_of. intros (H1 & H2 & _)%list_find_Some. done. Qed.

Lemma class_none st cap size : wf st -> class_of st cap = None -> size ∈ sizes -> cap <> (size + 13)%nat.
Proof.
  intros Hw Hn Hs ->. rewrite <- (pw_sizes _ _ _ Hw) in Hs. apply list_elem_of_fmap in Hs as (mp & -> & Hmp).
  unfold class_of in Hn. apply list_find_None in Hn. rewrite list.Forall_forall in Hn. by apply (Hn mp Hmp).
Qed.

Lemma class_at st k mp : wf st -> orderedMessagePools st !! k = Some mp -> class_of st (mp_size mp + 13) = Some (k, mp).
Proof.
  intros Hw Hk. destruct (class_of st (mp_size mp + 13)) as [[k' mp']|] eqn:E.
  - apply class_some in E as [Hk' Es]. destruct (wf_class st k mp Hw Hk) as (_ & S1 & _). destruct (wf_class st k' mp' Hw Hk') as (_ & S2 & _).
    assert (k' = k) as ->; [|congruence]. apply (NoDup_lookup sizes k' k (mp_size mp)); [done| |done]. rewrite S2. f_equal. lia.
  - destruct (class_none st _ (mp_size mp) Hw E); [by eapply wf_class|done].
Qed.

Lemma shard_at_some st k j size sh :
  shard_at st k j = Some (size, sh) -> exists mp, orderedMessagePools st !! k = Some mp /\ mp_shards mp !! j = Some sh /\ mp_size mp = size.
Proof.
  unfold shard_at. destruct (orderedMessagePools st !! k) as [mp|]; [|done]. destruct (mp_shards mp !! j) as [sh'|] eqn:E; [|done].
  intros [= <- <-]. by exists mp.
Qed.
Lemma shard_at_intro st k mp j sh : orderedMessagePools st !! k = Some mp -> mp_shards mp !! j = Some sh -> shard_at st k j = Some (mp_size mp, sh).
Proof. unfold shard_at. by intros -> ->. Qed.
Lemma wf_shard st k mp j : wf st -> orderedMessagePools st !! k = Some mp -> (j < shards)%nat -> exists sh, mp_shards mp !! j = Some sh.
Proof. intros Hw Hk Hj. destruct (wf_class st k mp Hw Hk) as (_ & _ & Hl). apply lookup_lt_is_Some_2. lia. Qed.

Lemma shard_at_alter st k j f k' j' :
  shard_at (alter_shard st k j f) k' j' =
    if decide (k' = k /\ j' = j) then (fun x => (fst x, f (snd x))) <$> shard_at st k j else shard_at st k' j'.
Proof.
  unfold shard_at, alter_shard, alter_pool. cbn. destruct (decide (k' = k)) as [->|Hk].
  - rewrite list_lookup_alter_eq. destruct (orderedMessagePools st !! k) as [mp|]; cbn; [|by destruct (decide _)].
    destruct (decide (j' = j)) as [->|Hj].
    + rewrite decide_True by done. rewrite list_lookup_alter_eq. by destruct (mp_shards mp !! j).
    + rewrite decide_False by tauto. by rewrite list_lookup_alter_ne.
  - rewrite decide_False by tauto. by rewrite list_lookup_alter_ne.
Qed.

(** A taken buffer is on no free list. *)
Lemma taken_not_free st b a size k j size' sh :
  wf st -> heap st !! b = Some a -> size ∈ sizes -> length a = (size + 13)%nat -> count_of size a <> 0 ->
  shard_at st k j = Some (size', sh) -> b ∉ sh_pool sh.
Proof.
  intros Hw Hb Hs Hl Hc Hat Hin. destruct (so_free _ _ _ _ (pw_shards _ _ _ Hw k j size' sh Hat) b Hin) as (a' & Ha' & [F1 F2 F3 F4 F5]).
  assert (a' = a) as -> by congruence. assert (size' = size) as -> by lia. done.
Qed.

(** A step changes one buffer and moves no other one between the free lists. *)
Lemma wf_step st st' b0 a0 :
  wf st -> map mp_size (orderedMessagePools st') = sizes ->
  (forall mp, mp ∈ orderedMessagePools st' -> length (mp_shards mp) = shards) ->
  heap st' = <[b0 := a0]> (heap st) \/ (heap st' = heap st ++ [a0] /\ b0 = length (heap st)) ->
  (forall size, size ∈ sizes -> length a0 = (size + 13)%nat -> buffer_ok shards size a0) ->
  (forall k j size sh', shard_at st' k j = Some (size, sh') -> exists sh, shard_at st k j = Some (size, sh) /\
     NoDup (sh_pool sh') /\ (length (sh_pool sh') <= sh_capacity sh')%nat /\ length (takenTags sh') = 256%nat /\ length (returnedTags sh') = 256%nat /\
     forall b, b ∈ sh_pool sh' -> (b = b0 /\ free_ok size j a0 /\ (b0 < length (heap st'))%nat) \/ (b <> b0 /\ b ∈ sh_pool sh)) ->
  wf st'.
Proof.
  intros Hw H1 H2 Hh Ha Hs. assert (Hold : forall b, b <> b0 -> forall a, heap st !! b = Some a -> heap st' !! b = Some a).
  { intros b Hb a Hba. destruct Hh as [->|[-> ->]]; [by rewrite list_lookup_insert_ne|]. by apply lookup_app_l_Some. }
  assert (Hnew : forall a, heap st' !! b0 = Some a -> a = a0).
  { intros a. destruct Hh as [->|[-> ->]].
    - intros Hx. pose proof (lookup_lt_Some _ _ _ Hx) as Hl. rewrite length_insert in Hl. rewrite list_lookup_insert_eq in Hx by done. congruence.
    - rewrite lookup_app_r, Nat.sub_diag by done. by intros [= <-]. }
  split; [done|done| |].
  - intros k j size sh' Hat. destruct (Hs k j size sh' Hat) as (sh & Hat' & N & L & T1 & T2 & Hb). split; [done|done| |done].
    intros b Hin. destruct (Hb b Hin) as [(-> & Hf & Hlt)|[Hne Hin']].
    + apply lookup_lt_is_Some in Hlt as [a Hx]. exists a. split; [done|]. by rewrite (Hnew a Hx).
    + destruct (so_free _ _ _ _ (pw_shards _ _ _ Hw k j size sh Hat') b Hin') as (a & Hba & Hf). exists a. split; [by apply Hold|done].
  - intros b a size Hb Hsz Hl. destruct (decide (b = b0)) as [->|Hne]; [apply Hnew in Hb as ->; by apply Ha|].
    assert (Hb' : heap st !! b = Some a).
    { destruct Hh as [Hh|[Hh Hb0]]; rewrite Hh in Hb; [by rewrite list_lookup_insert_ne in Hb|].
      apply lookup_app_Some in Hb as [Hb|[Hge Hb]]; [done|]. destruct (b - length (heap st))%nat as [|m] eqn:E; [|by destruct m].
      apply Nat.sub_0_le in E. destruct Hne. rewrite Hb0. by apply Nat.le_antisymm. }
    by apply (pw_heap _ _ _ Hw b).
Qed.

(** ** Steps that keep the shape *)

Definition shape st : list (nat * nat) := map (fun mp => (mp_size mp, length (mp_shards mp))) (orderedMessagePools st).

Lemma map_alter_same {A B} (f : A -> B) (g : A -> A) k l :
  (forall x, l !! k = Some x -> f (g x) = f x) -> map f (alter g k l) = map f l.
Proof.
  intros Hg. apply list_eq. intros i. rewrite !list_lookup_fmap. destruct (decide (i = k)) as [->|Hi].
  - rewrite list_lookup_alter_eq. destruct (l !! k) as [x|]; [|done]. cbn. f_equal. by apply Hg.
  - by rewrite list_lookup_alter_ne.
Qed.

Lemma shape_alter st k j f : shape (alter_shard st k j f) = shape st.
Proof. apply map_alter_same. intros mp _. cbn. by rewrite length_alter. Qed.
Lemma shape_heap st h : shape (set_heap st h) = shape st. Proof. done. Qed.
Lemma shape_metrics st m : shape (set_metrics st m) = shape st. Proof. done. Qed.
Lemma shape_pool st k mp mp' :
  orderedMessagePools st !! k = Some mp -> mp_size mp' = mp_size mp -> mp_shards mp' = mp_shards mp -> shape (alter_pool st k (fun _ => mp')) = shape st.
Proof. intros Hk E1 E2. apply map_alter_same. intros mp0. rewrite Hk. intros [= <-]. by rewrite E1, E2. Qed.

Lemma wf_shape st st' : wf st -> shape st' = shape st ->
  map mp_size (orderedMessagePools st') = sizes /\ forall mp, mp ∈ orderedMessagePools st' -> length (mp_shards mp) = shards.
Proof.
  intros Hw Hs. split.
  - rewrite <- (pw_sizes _ _ _ Hw). apply (f_equal (map fst)) in Hs. unfold shape in Hs. by rewrite !map_map in Hs.
  - intros mp Hmp. assert (Hin : (mp_size mp, length (mp_shards mp)) ∈ shape st') by (by apply (list_elem_of_fmap_2 (fun mp => (mp_size mp, length (mp_shards mp))))).
    rewrite Hs in Hin. apply list_elem_of_fmap in Hin as (mp' & [= _ ->] & Hmp'). by apply (pw_counts _ _ _ Hw).
Qed.

(** A step that leaves the free lists alone. *)
Lemma wf_write st b a a' :
  wf st -> heap st !! b = Some a -> (forall k j size sh, shard_at st k j = Some (size, sh) -> b ∉ sh_pool sh) ->
  (forall size, size ∈ sizes -> length a' = (size + 13)%nat -> buffer_ok shards size a') ->
  wf (set_heap st (<[b := a']> (heap st))).
Proof.
  intros Hw Hb Hfree Ha. destruct (wf_shape st (set_heap st (<[b := a']> (heap st))) Hw eq_refl) as [S1 S2].
  apply (wf_step st _ b a'); [done|done|done|by left|done|]. intros k j size sh Hat. exists sh. split; [exact Hat|].
  destruct (pw_shards _ _ _ Hw k j size sh Hat) as [N L F [T1 T2]]. do 4 (split; [done|]). intros b' Hb'. right. split; [|done].
  intros ->. by apply (Hfree k j size sh).
Qed.

(** Counting in a shard changes its statistics only. *)
Lemma wf_stats st k j f :
  wf st -> (forall sh, sh_pool (f sh) = sh_pool sh /\ sh_capacity (f sh) = sh_capacity sh /\
    length (takenTags (f sh)) = length (takenTags sh) /\ length (returnedTags (f sh)) = length (returnedTags sh)) -> wf (alter_shard st k j f).
Proof.
  intros Hw Hf. destruct (wf_shape st (alter_shard st k j f) Hw (shape_alter st k j f)) as [S1 S2]. split; [done|done| |apply Hw].
  intros k' j' size sh. rewrite shard_at_alter. destruct (decide _) as [[-> ->]|_]; [|apply (pw_shards _ _ _ Hw)].
  destruct (shard_at st k j) as [[size' sh']|] eqn:E; [|done]. cbn. intros [= <- <-].
  destruct (pw_shards _ _ _ Hw k j size' sh' E) as [N L F [T1 T2]]. destruct (Hf sh') as (F1 & F2 & F3 & F4). split; rewrite ?F1, ?F2, ?F3, ?F4; done.
Qed.
Lemma wf_metrics st m : wf st -> wf (set_metrics st m).
Proof. intros [H1 H2 H3 H4]. by split. Qed.

(** ** The flag byte *)

Lemma all_bytes (P : Z -> Prop) `{forall v, Decision (P v)} : bool_decide (Forall P (seqZ 0 256)) = true -> forall v, byte_ok v -> P v.
Proof. intros HP%bool_decide_eq_true v Hv. rewrite list.Forall_forall in HP. apply HP, elem_of_seqZ. unfold byte_ok in Hv. lia. Qed.

Lemma refused_range v : byte_ok v -> 0 <= refused_of v <= 127.
Proof. revert v. apply (all_bytes (fun v => 0 <= refused_of v <= 127)). vm_compute. reflexivity. Qed.
Lemma refused_shared v : byte_ok v -> refused_of (Z.lor v MessagePoolFlagShared) = refused_of v /\ byte_ok (Z.lor v MessagePoolFlagShared).
Proof.
  revert v. apply (all_bytes (fun v => refused_of (Z.lor v MessagePoolFlagShared) = refused_of v /\ byte_ok (Z.lor v MessagePoolFlagShared))).
  vm_compute. reflexivity.
Qed.
Lemma refused_set v r : byte_ok v -> 0 <= r <= 127 -> refused_of (set_refused v r) = r /\ byte_ok (set_refused v r).
Proof.
  intros Hv Hr. unfold set_refused.
  assert (Hc : Z.ldiff v MessagePoolRefusedShareCountMask = 0 \/ Z.ldiff v MessagePoolRefusedShareCountMask = 1).
  { revert v Hv. apply (all_bytes (fun v => Z.ldiff v MessagePoolRefusedShareCountMask = 0 \/ Z.ldiff v MessagePoolRefusedShareCountMask = 1)).
    vm_compute. reflexivity. }
  assert (Hset : forall c, c = 0 \/ c = 1 -> forall r, byte_ok r -> 128 <= r \/ refused_of (Z.lor c (u8 (Z.shiftl r MessagePoolRefusedShareCountShift))) = r /\
            byte_ok (Z.lor c (u8 (Z.shiftl r MessagePoolRefusedShareCountShift)))).
  { intros c Hc'. apply (all_bytes (fun r => 128 <= r \/ refused_of (Z.lor c (u8 (Z.shiftl r MessagePoolRefusedShareCountShift))) = r /\
      byte_ok (Z.lor c (u8 (Z.shiftl r MessagePoolRefusedShareCountShift))))). destruct Hc' as [-> | ->]; vm_compute; reflexivity. }
  destruct (Hset _ Hc r) as [|]; [unfold byte_ok; lia|lia|done].
Qed.

Lemma shard_index mp :
  length (mp_shards mp) = shards -> (snd (nextShardIndex mp) < shards)%nat /\ mp_shards (fst (nextShardIndex mp)) = mp_shards mp /\
  mp_size (fst (nextShardIndex mp)) = mp_size mp.
Proof.
  intros Hl. unfold nextShardIndex. cbn [fst snd mp_shards mp_size]. split; [|done]. rewrite Hl. pose proof shards_range as Hr. destruct Hshards as (p & Hp & E).
  assert (Ez : Z.of_nat shards = 2 ^ Z.of_nat p) by (rewrite E, Nat2Z.inj_pow; done).
  rewrite u32_small by lia. rewrite Ez. replace (2 ^ Z.of_nat p - 1) with (Z.ones (Z.of_nat p)) by (rewrite Z.ones_equiv; lia).
  rewrite Z.land_ones by lia. pose proof (Z.mod_pos_bound (i64 (u64 (u64 (shardNext mp + 1) - 1))) (2 ^ Z.of_nat p) ltac:(lia)). lia.
Qed.

(** ** Taking a buffer *)

Definition stats_at st (k j : nat) : option (list Z * list Z) := (fun x => (takenTags (snd x), returnedTags (snd x))) <$> shard_at st k j.
Definition unlisted st (b : nat) : Prop := forall k j size sh, shard_at st k j = Some (size, sh) -> b ∉ sh_pool sh.

(** [b] was on a free list, or is new. *)
Definition took st st' (size b : nat) (a : list Z) : Prop :=
  (exists a0, heap st !! b = Some a0 /\ length a0 = (size + 13)%nat /\ count_of size a0 = 0 /\ heap st' = <[b := a]> (heap st)) \/
  (heap st' = heap st ++ [a] /\ b = length (heap st)).

Lemma took_lookup st st' size b a : took st st' size b a -> heap st' !! b = Some a.
Proof.
  intros [(a0 & Hb & _ & _ & ->)|[-> ->]]; [apply list_lookup_insert_eq; by eapply lookup_lt_Some|].
  by rewrite lookup_app_r, Nat.sub_diag.
Qed.

Lemma put_u32_insert (l : list Z) i v : (i + 4 <= length l)%nat ->
  put_u32 l i v = Ret (<[(i + 3)%nat := byte_of v 0]> (<[(i + 2)%nat := byte_of v 8]> (<[(i + 1)%nat := byte_of v 16]> (<[i := byte_of v 24]> l)))).
Proof. intros Hl. unfold put_u32. do 4 (rewrite set_index_insert by (rewrite ?length_insert; lia); cbn [gbind]). done. Qed.

Lemma new_buffer_ok size id j :
  exists a, new_buffer size id j = Ret a /\ length a = (size + 13)%nat /\ bytes_ok a /\ tag_of size a = 255 /\ flags_of size a = 0 /\
    count_of size a = 0 /\ shard_of size a = u8 (Z.of_nat j).
Proof.
  unfold new_buffer, put_u64. set (l := replicate (size + MessagePoolMetaByteCount) 0). assert (Hl : length l = (size + 13)%nat) by apply length_replicate.
  rewrite put_u32_insert by lia. cbn [gbind]. rewrite put_u32_insert by (rewrite !length_insert; lia). cbn [gbind].
  rewrite set_index_insert by (rewrite !length_insert; lia). cbn [gbind]. rewrite set_index_insert by (rewrite !length_insert; lia).
  eexists. split; [done|]. split; [by rewrite !length_insert|].
  assert (Hz : forall i, (i < size + 13)%nat -> l !!! i = 0) by (intros i Hi; apply lookup_total_replicate_2; exact Hi).
  split; [|books; rewrite !Hz by lia; done].
  repeat (apply bytes_ok_insert; [|first [apply byte_of_ok|apply u8_range|unfold byte_ok; lia]]). apply bytes_ok_replicate.
Qed.

Lemma insert_byte_ok i v (a : list Z) : bytes_ok a -> byte_ok v -> bytes_ok (<[i := v]> a).
Proof. intros Ha Hv. by apply bytes_ok_insert. Qed.
Lemma set_count_bytes size v a : bytes_ok a -> bytes_ok (set_count size v a).
Proof. intros Ha. unfold set_count. repeat apply insert_byte_ok; try apply byte_of_ok. done. Qed.
Lemma set_count_length size v a : length (set_count size v a) = length a.
Proof. unfold set_count. by rewrite !length_insert. Qed.

Record got st st' (k size : nat) (b : nat) (a : list Z) : Prop := {
  go_wf : wf st';
  go_shape : shape st' = shape st;
  go_took : took st st' size b a;
  go_length : length a = (size + 13)%nat;
  go_bytes : bytes_ok a;
  go_count : count_of size a = 0;
  go_flags : flags_of size a = 0;
  go_shard : 0 <= shard_of size a < Z.of_nat shards;
  go_unlisted : unlisted st' b;
  go_stats k' j' : stats_at st' k' j' = stats_at st k' j';
  go_active : ActiveBuffers (globalPoolMetrics st') = u64 (ActiveBuffers (globalPoolMetrics st) + 1);
}.

(** The shard a buffer is on the free list of. *)
Lemma listed_at st k j size sh b k' j' size' sh' :
  wf st -> shard_at st k j = Some (size, sh) -> shard_at st k' j' = Some (size', sh') -> b ∈ sh_pool sh -> b ∈ sh_pool sh' -> k = k' /\ j = j'.
Proof.
  intros W H1 H2 B1 B2. destruct (so_free _ _ _ _ (pw_shards _ _ _ W k j size sh H1) b B1) as (a & Ha & [F1 _ _ _ F5]).
  destruct (so_free _ _ _ _ (pw_shards _ _ _ W k' j' size' sh' H2) b B2) as (a' & Ha' & [G1 _ _ _ G5]). assert (a' = a) as -> by congruence.
  assert (size' = size) as -> by lia. split; [|lia]. apply shard_at_some in H1 as (mp & K1 & _ & E1). apply shard_at_some in H2 as (mp' & K2 & _ & E2).
  destruct (wf_class st k mp W K1) as (_ & S1 & _). destruct (wf_class st k' mp' W K2) as (_ & S2 & _). apply (NoDup_lookup sizes k k' size); congruence.
Qed.

(** Popping the last buffer of a free list. *)
Lemma pop_unlisted st k j size sh l b :
  wf st -> shard_at st k j = Some (size, sh) -> sh_pool sh = l ++ [b] -> unlisted (alter_shard st k j (fun sh => set_shard_pool sh (removelast (sh_pool sh)))) b.
Proof.
  intros W Hat El k' j' size' sh'. rewrite shard_at_alter. assert (Hin : b ∈ sh_pool sh) by (rewrite El; apply list.elem_of_app; right; by left).
  destruct (decide _) as [[-> ->]|Hne].
  - rewrite Hat. cbn. intros [= <- <-]. cbn. pose proof (so_nodup _ _ _ _ (pw_shards _ _ _ W k j _ _ Hat)) as N. rewrite El in N |- *. rewrite removelast_last.
    apply list.NoDup_app in N as (_ & N & _). intros Hb. apply (N b Hb). by left.
  - intros Hat' Hb. apply Hne. by destruct (listed_at st k j size sh b k' j' size' sh' W Hat Hat' Hin Hb) as [-> ->].
Qed.
Lemma pop_wf st k j size sh l b a :
  wf st -> shard_at st k j = Some (size, sh) -> sh_pool sh = l ++ [b] -> (forall size', size' ∈ sizes -> length a = (size' + 13)%nat -> buffer_ok shards size' a) ->
  wf (set_heap (alter_shard st k j (fun sh => set_shard_pool sh (removelast (sh_pool sh)))) (<[b := a]> (heap st))).
Proof.
  intros W Hat El Hok. pose proof (pop_unlisted st k j size sh l b W Hat El) as Hun. set (st2 := alter_shard st k j _) in *.
  assert (Hsh : shape (set_heap st2 (<[b := a]> (heap st))) = shape st) by (rewrite shape_heap; apply shape_alter).
  destruct (wf_shape st _ W Hsh) as [S1 S2].
  apply (wf_step st _ b a); [done|done|done|by left|done|]. intros k' j' size' sh' Hat'. change (shard_at st2 k' j' = Some (size', sh')) in Hat'.
  pose proof (Hun k' j' size' sh' Hat') as Hnot. unfold st2 in Hat'. rewrite shard_at_alter in Hat'. destruct (decide _) as [[-> ->]|Hne].
  - rewrite Hat in Hat'. cbn in Hat'. injection Hat' as <- <-. exists sh. split; [done|]. destruct (pw_shards _ _ _ W k j _ _ Hat) as [N L _ [T1 T2]].
    cbn in Hnot |- *. rewrite El, removelast_last in *. rewrite length_app in L. cbn in L. apply list.NoDup_app in N as (N & _).
    split; [done|]. split; [lia|]. split; [done|]. split; [done|]. intros b' Hb'. right. split; [by intros ->|]. apply list.elem_of_app. by left.
  - exists sh'. split; [done|]. destruct (pw_shards _ _ _ W k' j' _ _ Hat') as [N' L' F' [T1' T2']]. do 4 (split; [done|]).
    intros b' Hb'. right. split; [by intros ->|done].
Qed.

(** A shard with free buffers recycles the last one. *)
Lemma Get_recycles st k j size sh l b :
  wf st -> (j < shards)%nat -> shard_at st k j = Some (size, sh) -> sh_pool sh = l ++ [b] ->
  let st1 := alter_shard st k j (fun sh => set_shard_pool sh (removelast (sh_pool sh))) in
  exists a, heap st !! b = Some a /\ length a = (size + 13)%nat /\
    got st (set_metrics (set_heap st1 (<[b := <[(size + 12)%nat := Z.of_nat j]> a]> (heap st))) (count_get (globalPoolMetrics st) true size)) k size b
      (<[(size + 12)%nat := Z.of_nat j]> a).
Proof.
  intros W Hj Hat El st1. destruct (pw_shards _ _ _ W k j _ _ Hat) as [_ _ F _]. pose proof shards_range as Hr.
  destruct (F b) as (a & Hb & [F1 F2 F3 F4 F5]); [rewrite El; apply list.elem_of_app; right; by left|].
  exists a. split; [done|]. split; [done|]. set (a' := <[(size + 12)%nat := Z.of_nat j]> a).
  assert (Hla : length a' = (size + 13)%nat) by (unfold a'; by rewrite length_insert).
  assert (Hsz : size ∈ sizes) by (apply shard_at_some in Hat as (mp & Hk & _ & <-); by eapply wf_class).
  assert (Hba : bytes_ok a') by (apply insert_byte_ok; [by apply (bo_bytes _ _ _ (pw_heap _ _ _ W b a size Hb Hsz F1))|unfold byte_ok; lia]).
  assert (Hm : count_of size a' = 0 /\ flags_of size a' = 0 /\ shard_of size a' = Z.of_nat j) by (unfold a'; books; by rewrite F4, F3).
  destruct Hm as (M1 & M2 & M3). split; try done.
  - apply wf_metrics, (pop_wf st k j size sh l b); [done|done|done|]. intros size' _ Hl'. assert (size' = size) as -> by lia.
    split; [done|lia|by rewrite M2|left; by rewrite M2].
  - rewrite shape_metrics, shape_heap. apply shape_alter.
  - left. by exists a.
  - lia.
  - exact (pop_unlisted st k j size sh l b W Hat El).
  - intros k' j'. change (stats_at st1 k' j' = stats_at st k' j'). unfold stats_at, st1. rewrite shard_at_alter.
    destruct (decide _) as [[-> ->]|]; [|done]. by rewrite Hat.
Qed.

(** An empty one makes a new buffer. *)
Lemma Get_creates st k j size sh id :
  wf st -> (j < shards)%nat -> shard_at st k j = Some (size, sh) ->
  let st1 := alter_shard st k j (fun sh => PoolShard (sh_pool sh) (sh_capacity sh) id (takenTags sh) (returnedTags sh) (createdTags sh)) in
  exists a, new_buffer size id j = Ret a /\
    got st (set_metrics (set_heap st1 (heap st ++ [a])) (count_get (globalPoolMetrics st) false size)) k size (length (heap st)) a.
Proof.
  intros W Hj Hat st1. destruct (new_buffer_ok size id j) as (a & E & A1 & A2 & A3 & A4 & A5 & A6). exists a. split; [done|]. pose proof shards_range as Hr.
  rewrite u8_small in A6 by lia. assert (W1 : wf st1) by (by apply wf_stats).
  assert (Hun : unlisted st1 (length (heap st))).
  { intros k' j' size' sh' Hat' Hin. destruct (so_free _ _ _ _ (pw_shards _ _ _ W1 k' j' _ _ Hat') _ Hin) as (a2 & Ha2 & _).
    apply lookup_lt_Some in Ha2. change (heap st1) with (heap st) in Ha2. lia. }
  split; try done.
  - apply wf_metrics. destruct (wf_shape st1 (set_heap st1 (heap st1 ++ [a])) W1 eq_refl) as [S1 S2].
    apply (wf_step st1 _ (length (heap st)) a); [done|done|done|by right| |].
    + intros size' _ Hl'. assert (size' = size) as -> by lia. split; [done|lia|done|left; by rewrite A4].
    + intros k' j' size' sh' Hat'. exists sh'. split; [done|]. destruct (pw_shards _ _ _ W1 k' j' _ _ Hat') as [N' L' F' [T1' T2']]. do 4 (split; [done|]).
      intros b' Hb'. right. split; [|done]. intros ->. by apply (Hun k' j' size' sh').
  - rewrite shape_metrics, shape_heap. apply shape_alter.
  - by right.
  - lia.
  - intros k' j'. change (stats_at st1 k' j' = stats_at st k' j'). unfold stats_at, st1. rewrite shard_at_alter.
    destruct (decide _) as [[-> ->]|]; [|done]. by rewrite Hat.
Qed.

(** Taking turns among the shards changes nothing else. *)
Lemma shard_turn_ok st k mp :
  wf st -> orderedMessagePools st !! k = Some mp ->
  let st1 := alter_pool st k (fun _ => fst (nextShardIndex mp)) in
  wf st1 /\ shape st1 = shape st /\ (forall k' j', shard_at st1 k' j' = shard_at st k' j') /\
  forall st' b a, got st1 st' k (mp_size mp) b a -> got st st' k (mp_size mp) b a.
Proof.
  intros W Hk st1. destruct (wf_class st k mp W Hk) as (_ & _ & Hlen). destruct (shard_index mp Hlen) as (_ & E1 & E2).
  assert (Hat : forall k' j', shard_at st1 k' j' = shard_at st k' j').
  { intros k' j'. unfold shard_at, st1, alter_pool. cbn [orderedMessagePools]. destruct (decide (k' = k)) as [->|]; [|by rewrite list_lookup_alter_ne].
    rewrite list_lookup_alter_eq, Hk. cbn [fmap option_fmap option_map]. by rewrite E1, E2. }
  assert (Hsh : shape st1 = shape st) by (by apply (shape_pool st k mp)).
  split; [|split; [done|split; [done|]]].
  - destruct (wf_shape st st1 W Hsh) as [S1 S2]. split; [done|done| |apply W]. intros k' j' size sh. rewrite Hat. apply (pw_shards _ _ _ W).
  - intros st' b a [G1 G2 G3 G4 G5 G6 G7 G8 G9 G10 G11]. split; try done; [by rewrite G2|]. intros k' j'. rewrite G10. unfold stats_at. by rewrite Hat.
Qed.

Lemma Get_ok st k mp : wf st -> orderedMessagePools st !! k = Some mp -> exists st' b a, Get st k = Ret (st', b) /\ got st st' k (mp_size mp) b a.
Proof.
  intros Hw Hk. unfold Get. rewrite (index_ret _ _ _ Hk). cbn [gbind]. destruct (wf_class st k mp Hw Hk) as (_ & _ & Hlen).
  destruct (shard_index mp Hlen) as (Hj & E1 & E2). destruct (shard_turn_ok st k mp Hw Hk) as (W1 & _ & Hat1 & Hgot).
  destruct (nextShardIndex mp) as [mp' j]. cbn [fst snd] in *. set (st1 := alter_pool st k (fun _ => mp')) in *.
  destruct (wf_shard st k mp j Hw Hk Hj) as [sh Hsh]. assert (Hat : shard_at st1 k j = Some (mp_size mp, sh)) by (rewrite Hat1; by apply shard_at_intro).
  rewrite <- E1 in Hsh. rewrite (index_ret _ _ _ Hsh). cbn [gbind]. destruct (list.last (sh_pool sh)) as [b|] eqn:El.
  - apply last_Some in El as [l El]. destruct (Get_recycles st1 k j (mp_size mp) sh l b W1 Hj Hat El) as (a & Hb & La & G).
    pose proof shards_range as Hr. set (st2 := alter_shard st1 k j _) in *. change (heap st2) with (heap st1).
    rewrite (index_ret _ _ _ Hb). cbn [gbind]. rewrite set_index_insert, u8_small by lia. cbn [gbind]. eexists _, b, _. split; [done|]. by apply Hgot.
  - destruct (Get_creates st1 k j (mp_size mp) sh (u64 (nextId sh + 1)) W1 Hj Hat) as (a & E & G). rewrite E. cbn [gbind]. eexists _, _, a. split; [done|].
    by apply Hgot.
Qed.

Lemma took_again st st1 st2 size b a a' : took st st1 size b a -> heap st2 = <[b := a']> (heap st1) -> took st st2 size b a'.
Proof.
  intros [(a0 & Hb & Hl & Hc & E)|[E ->]] E2; rewrite E in E2.
  - left. exists a0. by rewrite list_insert_insert_eq in E2.
  - right. by rewrite insert_app_r_alt, Nat.sub_diag in E2.
Qed.

(** The statistics after one more taken, or returned, buffer. *)
Definition tallied st st' (k j : nat) (taken : bool) (tag : Z) : Prop :=
  forall k' j', stats_at st' k' j' =
    (if decide (k' = k /\ j' = j) then (fun x => if taken then (add_tag tag (fst x), snd x) else (fst x, add_tag tag (snd x))) <$> stats_at st k j
     else stats_at st k' j').

Lemma stats_alter st k j f g :
  (forall sh, (takenTags (f sh), returnedTags (f sh)) = g (takenTags sh, returnedTags sh)) ->
  forall k' j', stats_at (alter_shard st k j f) k' j' = if decide (k' = k /\ j' = j) then g <$> stats_at st k j else stats_at st k' j'.
Proof.
  intros Hf k' j'. unfold stats_at. rewrite shard_at_alter. destruct (decide _); [|done]. destruct (shard_at st k j) as [[size sh]|]; [|done].
  cbn. by rewrite Hf.
Qed.

(** What a caller gets. *)
Record handed st st' (n : nat) (tag : Z) (k size b : nat) (a : list Z) : Prop := {
  ha_class : sizes !! k = Some size /\ (n <= size)%nat /\ forall k' size', (k' < k)%nat -> sizes !! k' = Some size' -> (size' < n)%nat;
  ha_took : took st st' size b a;
  ha_length : length a = (size + 13)%nat;
  ha_count : count_of size a = 1;
  ha_flags : flags_of size a = 0;
  ha_tag : tag_of size a = tag;
  ha_shard : 0 <= shard_of size a < Z.of_nat shards;
  ha_tallied : tallied st st' k (Z.to_nat (shard_of size a)) true tag;
  ha_active : ActiveBuffers (globalPoolMetrics st') = u64 (ActiveBuffers (globalPoolMetrics st) + 1);
}.

Lemma length_add_tag tag l : length (add_tag tag l) = length l.
Proof. apply length_alter. Qed.

(** A message no class is big enough for gets an array of its own. *)
Lemma wf_oversize st n : wf st -> (forall size, size ∈ sizes -> (size < n)%nat) -> wf (set_heap st (heap st ++ [replicate (n + 13) 0])).
Proof.
  intros Hw Hbig.
  destruct (wf_shape st (set_heap st (heap st ++ [replicate (n + 13) 0])) Hw eq_refl) as [S1 S2].
  apply (wf_step st _ (length (heap st)) (replicate (n + 13) 0)); [done|done|done|by right| |].
  - intros size Hs Hl. rewrite length_replicate in Hl. specialize (Hbig size Hs). lia.
  - intros k j size sh Hat. exists sh. split; [exact Hat|]. destruct (pw_shards _ _ _ Hw k j size sh Hat) as [N L F [T1 T2]]. do 4 (split; [done|]).
    intros b Hb. right. split; [|done]. intros ->. destruct (F _ Hb) as (a & Ha & _). apply lookup_lt_Some in Ha. lia.
Qed.

Lemma pool_get_ok st n tag :
  wf st -> byte_ok tag -> exists st' m pooled, MessagePoolGetDetailedWithTag st n tag = Ret (st', m, pooled) /\ wf st' /\ shape st' = shape st /\ m_len m = n /\
    if pooled then exists k size a, handed st st' n tag k size (m_buf m) a
    else (forall size, size ∈ sizes -> (size < n)%nat) /\ st' = set_heap st (heap st ++ [replicate (n + 13) 0]) /\ m_buf m = length (heap st).
Proof.
  intros Hw Htag. unfold MessagePoolGetDetailedWithTag. destruct (list_find _ _) as [[k mp]|] eqn:Ef.
  - apply list_find_Some in Ef as (Hk & Hn & Hfirst). destruct (Get_ok st k mp Hw Hk) as (st1 & b & a & -> & [W1 Sh T La Ba Ca Fa Ja Un St Ac]). cbn [gbind].
    set (size := mp_size mp) in *. destruct (wf_class st k mp Hw Hk) as (Hsz & Hks & _).
    rewrite (index_ret _ _ _ (took_lookup _ _ _ _ _ T)). cbn [gbind]. rewrite index_total by lia. cbn [gbind].
    rewrite set_index_insert by lia. cbn [gbind]. set (a1 := <[(size + 8)%nat := tag]> a).
    assert (L1 : length a1 = (size + 13)%nat) by (unfold a1; by rewrite length_insert).
    rewrite index_total by lia. cbn [gbind]. fold (shard_of size a1). assert (J1 : shard_of size a1 = shard_of size a) by (unfold a1; by books).
    assert (Hmp1 : exists mp1, orderedMessagePools st1 !! k = Some mp1).
    { apply lookup_lt_is_Some_2. apply lookup_lt_Some in Hk. apply (f_equal length) in Sh. unfold shape in Sh. rewrite !length_map in Sh. lia. }
    destruct Hmp1 as [mp1 Hk1]. rewrite (index_ret _ _ _ Hk1). cbn [gbind]. rewrite J1.
    destruct (wf_shard st1 k mp1 (Z.to_nat (shard_of size a)) W1 Hk1) as [sh Hsh]; [lia|]. rewrite (index_ret _ _ _ Hsh). cbn [gbind].
    rewrite (get_count a1 size L1). cbn [gbind]. assert (C1 : count_of size a1 = 0) by (unfold a1; by books). rewrite C1. cbn [negb Z.eqb].
    rewrite (put_count a1 size 1 L1). cbn [gbind]. set (a2 := set_count size 1 a1). set (st2 := alter_shard st1 k _ _).
    eexists _, _, true. split; [done|].
    assert (L2 : length a2 = (size + 13)%nat) by (unfold a2; by rewrite set_count_length).
    assert (M2 : count_of size a2 = 1 /\ flags_of size a2 = 0 /\ tag_of size a2 = tag /\ shard_of size a2 = shard_of size a).
    { split; [by apply count_set|]. unfold a2, a1. books. done. }
    destruct M2 as (M1 & M2 & M3 & M4).
    assert (W2 : wf st2).
    { apply wf_stats; [done|]. intros sh'. cbn. by rewrite length_add_tag. }
    split.
    { apply (wf_write st2 b a); [done|by apply (took_lookup st st1 size)| |].
      - intros k' j' size' sh'. unfold st2. rewrite shard_at_alter. destruct (decide _) as [[-> ->]|]; [|apply Un].
        destruct (shard_at st1 k _) as [[size0 sh0]|] eqn:E0; [|done]. cbn. intros [= <- <-]. cbn. by apply (Un _ _ _ _ E0).
      - intros size' Hs' Hl'. assert (size' = size) as -> by lia. split.
        + apply set_count_bytes, insert_byte_ok; done.
        + lia.
        + by rewrite M1.
        + left. by rewrite M2. }
    split; [unfold st2; by rewrite shape_heap, shape_alter|]. split; [done|]. exists k, size, a2. split; try done.
    + split; [done|]. split; [done|]. intros k' size' Hlt Hs'. rewrite <- (pw_sizes _ _ _ Hw), list_lookup_fmap in Hs'.
      destruct (orderedMessagePools st !! k') as [mp'|] eqn:E'; [|done]. cbn in Hs'. injection Hs' as <-. specialize (Hfirst k' mp' E' Hlt). lia.
    + by apply (took_again st st1 _ size b a).
    + by rewrite M4.
    + rewrite M4. intros k' j'. etransitivity; [exact (stats_alter st1 k _ (fun sh' => count_taken sh' (a !!! (size + 8)%nat =? 255) tag) (fun x => (add_tag tag (fst x), snd x)) (fun sh' => eq_refl) k' j')|].
      destruct (decide _); by rewrite St.
  - assert (Hbig : forall size, size ∈ sizes -> (size < n)%nat).
    { intros size Hs. rewrite <- (pw_sizes _ _ _ Hw) in Hs. apply list_elem_of_fmap in Hs as (mp & -> & Hmp). apply list_find_None in Ef.
      rewrite list.Forall_forall in Ef. specialize (Ef mp Hmp). cbn in Ef. lia. }
    eexists _, _, false. split; [done|]. split; [|done]. by apply wf_oversize.
Qed.

(** ** Giving a buffer back *)

(** The buffer [b], of the class [k], after its books became those of [a']. *)
Record rebooked st st' (b : nat) (a' : list Z) : Prop := {
  rb_wf : wf st';
  rb_pools : orderedMessagePools st' = orderedMessagePools st;
  rb_metrics : globalPoolMetrics st' = globalPoolMetrics st;
  rb_heap : heap st' = <[b := a']> (heap st);
}.

Record retired st st' (k size b : nat) (a a' : list Z) : Prop := {
  rt_wf : wf st';
  rt_shape : shape st' = shape st;
  rt_heap : heap st' = <[b := a']> (heap st);
  rt_count : count_of size a' = 0;
  rt_same : length a' = length a /\ shard_of size a' = shard_of size a /\ forall i, (i < size)%nat -> a' !! i = a !! i;
  rt_tallied : tallied st st' k (Z.to_nat (shard_of size a)) false (tag_of size a);
  rt_active : ActiveBuffers (globalPoolMetrics st') = u64 (ActiveBuffers (globalPoolMetrics st) + (- 1));
}.

(** A buffer of a class, as its books say. *)
Record of_class st (b k : nat) (mp : messagePool) (a : list Z) : Prop := {
  oc_heap : heap st !! b = Some a;
  oc_pool : orderedMessagePools st !! k = Some mp;
  oc_length : length a = (mp_size mp + 13)%nat;
}.

Lemma of_class_ok st b k mp a : wf st -> of_class st b k mp a ->
  class_of st (length a) = Some (k, mp) /\ mp_size mp ∈ sizes /\ buffer_ok shards (mp_size mp) a /\
  index (mp_shards mp) (Z.to_nat (shard_of (mp_size mp) a)) <> Panic /\ Z.of_nat (length (mp_shards mp)) <=? shard_of (mp_size mp) a = false.
Proof.
  intros Hw [Hb Hk Hl]. destruct (wf_class st k mp Hw Hk) as (Hsz & _ & Hc). pose proof (pw_heap _ _ _ Hw b a _ Hb Hsz Hl) as Hok.
  split; [rewrite Hl; by apply class_at|]. split; [done|]. split; [done|]. pose proof (bo_shard _ _ _ Hok). pose proof (lookup_total_byte a (mp_size mp + 12) (bo_bytes _ _ _ Hok)) as [H0 _].
  fold (shard_of (mp_size mp) a) in H0. split; [|lia].
  destruct (wf_shard st k mp (Z.to_nat (shard_of (mp_size mp) a)) Hw Hk) as [sh Hsh]; [lia|]. by rewrite (index_ret _ _ _ Hsh).
Qed.

Lemma rebook_ok st b k mp a a' :
  wf st -> of_class st b k mp a -> count_of (mp_size mp) a <> 0 -> length a' = length a -> buffer_ok shards (mp_size mp) a' ->
  rebooked st (set_heap st (<[b := a']> (heap st))) b a'.
Proof.
  intros Hw Hc Hcnt Hl Hok. destruct (of_class_ok st b k mp a Hw Hc) as (_ & Hsz & _). destruct Hc as [Hb Hk La]. split; try done.
  apply (wf_write st b a); [done|done| |].
  - intros k' j' size' sh' Hat. by apply (taken_not_free st b a (mp_size mp) k' j' size' sh').
  - intros size' _ Hl'. assert (size' = mp_size mp) as -> by lia. done.
Qed.

(** Pushing a buffer nobody has onto its free list. *)
Lemma Put_ok st b k mp a :
  wf st -> of_class st b k mp a -> free_ok (mp_size mp) (Z.to_nat (shard_of (mp_size mp) a)) a -> unlisted st b ->
  exists st', Put st k b = Ret st' /\ wf st' /\ shape st' = shape st /\ heap st' = heap st /\ (forall k' j', stats_at st' k' j' = stats_at st k' j') /\
    ActiveBuffers (globalPoolMetrics st') = u64 (ActiveBuffers (globalPoolMetrics st) + (- 1)).
Proof.
  intros Hw Hc Hf Hun. destruct (of_class_ok st b k mp a Hw Hc) as (_ & Hsz & Hok & Hi & Hle). destruct Hc as [Hb Hk La]. unfold Put.
  rewrite (index_ret _ _ _ Hk). cbn [gbind]. rewrite (index_ret _ _ _ Hb). cbn [gbind]. rewrite index_total by lia. cbn [gbind].
  fold (shard_of (mp_size mp) a). rewrite Hle. set (j := Z.to_nat (shard_of (mp_size mp) a)) in *.
  destruct (mp_shards mp !! j) as [sh|] eqn:Hsh; [|unfold index in Hi; by rewrite Hsh in Hi]. rewrite (index_ret _ _ _ Hsh). cbn [gbind].
  pose proof (shard_at_intro st k mp j sh Hk Hsh) as Hat. destruct (pw_shards _ _ _ Hw k j _ _ Hat) as [N L F [T1 T2]].
  destruct (Nat.ltb_spec (length (sh_pool sh)) (sh_capacity sh)) as [Hroom|Hfull].
  2:{ eexists. split; [done|]. split; [by apply wf_metrics|]. done. }
  set (st1 := alter_shard st k j _). eexists. split; [done|].
  assert (S : shape st1 = shape st) by apply shape_alter.
  split; [|split; [exact S|split; [done|split; [|done]]]].
  2:{ intros k' j'. etransitivity; [exact (stats_alter st k j (fun sh' => set_shard_pool sh' (sh_pool sh' ++ [b])) (fun x => x) (fun sh' => eq_refl) k' j')|].
      destruct (decide _) as [[-> ->]|]; [|done]. by destruct (stats_at st k j). }
  apply wf_metrics. destruct (wf_shape st st1 Hw S) as [S1 S2].
  apply (wf_step st st1 b a); [done|done|done| | |].
  - left. change (heap st1) with (heap st). by rewrite list_insert_id.
  - intros size' _ Hl'. assert (size' = mp_size mp) as -> by lia. done.
  - intros k' j' size' sh' Hat'. unfold st1 in Hat'. rewrite shard_at_alter in Hat'. destruct (decide _) as [[-> ->]|Hne].
    + rewrite Hat in Hat'. cbn in Hat'. injection Hat' as <- <-. exists sh. split; [done|]. cbn. rewrite length_app. cbn.
      split; [|split; [lia|split; [done|split; [done|]]]].
      * apply list.NoDup_app. split; [done|]. split; [|by apply list.NoDup_singleton]. intros b' Hb' ->%list_elem_of_singleton. by apply (Hun k j _ sh Hat).
      * intros b' [Hb'|Hb'%list_elem_of_singleton]%list.elem_of_app; [right|subst b'; left].
        -- split; [|done]. intros ->. by apply (Hun k j _ sh Hat).
        -- split; [done|]. split; [done|]. by eapply lookup_lt_Some.
    + exists sh'. split; [done|]. destruct (pw_shards _ _ _ Hw k' j' _ _ Hat') as [N' L' F' [T1' T2']]. do 4 (split; [done|]).
      intros b' Hb'. right. split; [|done]. intros ->. by apply (Hun k' j' _ sh' Hat').
Qed.

(** A buffer in nobody's hands is on no free list before it is put there. *)
Lemma count_unlisted st b k mp a : wf st -> of_class st b k mp a -> count_of (mp_size mp) a <> 0 -> unlisted st b.
Proof.
  intros Hw Hc Hn k' j' size' sh' Hat. destruct (of_class_ok st b k mp a Hw Hc) as (_ & Hsz & _). destruct Hc as [Hb Hk La].
  by apply (taken_not_free st b a (mp_size mp) k' j' size' sh').
Qed.

Lemma retire_ok st b k mp a :
  wf st -> of_class st b k mp a -> count_of (mp_size mp) a = 1 ->
  let size := mp_size mp in
  let a' := set_count size 0 (<[(size + 9)%nat := 0]> (<[(size + 8)%nat := 0]> a)) in
  let st1 := alter_shard st k (Z.to_nat (shard_of size a)) (fun sh => count_returned sh (tag_of size a)) in
  exists st', Put (set_heap st1 (<[b := a']> (heap st1))) k b = Ret st' /\ retired st st' k size b a a'.
Proof.
  intros Hw Hc H1 size a' st1. destruct (of_class_ok st b k mp a Hw Hc) as (_ & Hsz & [B1 B2 B3 B4] & Hi & Hle).
  pose proof (count_unlisted st b k mp a Hw Hc ltac:(lia)) as Hun. destruct Hc as [Hb Hk La].
  pose proof (lookup_total_byte a (mp_size mp + 12) B1) as [H0 _]. fold (shard_of (mp_size mp) a) in H0. fold size in Hsz, B1, B2, B3, B4, H0, La, H1.
  assert (L' : length a' = (size + 13)%nat) by (unfold a'; rewrite set_count_length, !length_insert; done).
  assert (M : count_of size a' = 0 /\ tag_of size a' = 0 /\ flags_of size a' = 0 /\ shard_of size a' = shard_of size a).
  { split; [apply count_set; [by rewrite !length_insert|lia]|]. unfold a'. by books. }
  destruct M as (M1 & M2 & M3 & M4). set (st2 := set_heap st1 _).
  assert (W1 : wf st1) by (apply wf_stats; [done|]; intros sh; cbn; by rewrite length_add_tag).
  assert (Hun1 : unlisted st1 b).
  { intros k' j' size' sh'. unfold st1. rewrite shard_at_alter. destruct (decide _) as [[-> ->]|]; [|apply Hun].
    destruct (shard_at st k _) as [[size0 sh0]|] eqn:E0; [|done]. cbn. intros [= <- <-]. cbn. by apply (Hun _ _ _ _ E0). }
  assert (Hb2 : heap st2 !! b = Some a') by (apply list_lookup_insert_eq; by eapply lookup_lt_Some).
  assert (W2 : wf st2).
  { apply (wf_write st1 b a); [done|done|done|]. intros size' _ Hl'. assert (size' = size) as -> by lia. split.
    - apply set_count_bytes. repeat apply insert_byte_ok; unfold byte_ok; (done || lia).
    - lia.
    - done.
    - left. by rewrite M3. }
  assert (Hmp : exists mp2, orderedMessagePools st2 !! k = Some mp2 /\ mp_size mp2 = size /\ length (mp_shards mp2) = length (mp_shards mp)).
  { exists (alter_shards (alter (fun sh => count_returned sh (tag_of size a)) (Z.to_nat (shard_of size a))) mp). cbn.
    rewrite list_lookup_alter_eq, Hk. cbn. by rewrite length_alter. }
  destruct Hmp as (mp2 & Hk2 & Es & El2).
  destruct (Put_ok st2 b k mp2 a') as (st' & E & W' & S' & H' & T' & A').
  { done. } { split; [done|done|by rewrite Es]. }
  { rewrite Es. split; [done|done|done|done|]. rewrite M4. lia. } { done. }
  exists st'. split; [done|]. split; try done.
  - rewrite S'. unfold st2. rewrite shape_heap. apply shape_alter.
  - split; [by rewrite L', La|]. split; [done|]. intros i Hlt. unfold a', set_count. by rewrite !list_lookup_insert_ne by lia.
  - intros k' j'. rewrite T'. etransitivity; [exact (stats_alter st k _ (fun sh => count_returned sh (tag_of size a)) (fun x => (fst x, add_tag (tag_of size a) (snd x))) (fun sh' => eq_refl) k' j')|].
    done.
Qed.

(** A return forgives a refused share, finds nothing to give back, retires the
    buffer, or leaves it to its other owners. *)
Inductive return_outcome st (b k size : nat) (a : list Z) : pools -> bool -> Prop :=
| return_forgives st' :
    refused_of (flags_of size a) <> 0 ->
    rebooked st st' b (<[(size + 9)%nat := set_refused (flags_of size a) (refused_of (flags_of size a) - 1)]> a) ->
    return_outcome st b k size a st' false
| return_nothing :
    refused_of (flags_of size a) = 0 -> count_of size a = 0 -> return_outcome st b k size a st false
| return_last st' a' :
    refused_of (flags_of size a) = 0 -> count_of size a = 1 -> retired st st' k size b a a' -> return_outcome st b k size a st' true
| return_shared st' :
    refused_of (flags_of size a) = 0 -> 1 < count_of size a -> rebooked st st' b (set_count size (count_of size a - 1) a) ->
    return_outcome st b k size a st' false.

Lemma buffer_recounted size a v :
  buffer_ok shards size a -> length a = (size + 13)%nat -> refused_of (flags_of size a) = 0 -> 0 < v < 65536 -> buffer_ok shards size (set_count size v a).
Proof.
  intros [B1 B2 B3 B4] La Hz Hv. pose proof (count_set size v a La ltac:(lia)) as Hcs.
  assert (Hfl : flags_of size (set_count size v a) = flags_of size a /\ shard_of size (set_count size v a) = shard_of size a) by (by books).
  destruct Hfl as [Hfl Hs]. split; [by apply set_count_bytes|lia|lia|left; by rewrite Hfl].
Qed.
Lemma buffer_reflagged size a v :
  buffer_ok shards size a -> length a = (size + 13)%nat -> count_of size a = 65535 -> byte_ok v -> buffer_ok shards size (<[(size + 9)%nat := v]> a).
Proof.
  intros [B1 B2 B3 B4] La Hc Hv. set (a' := <[(size + 9)%nat := v]> a).
  assert (Hcs : count_of size a' = 65535 /\ shard_of size a' = shard_of size a) by (unfold a'; books; done). destruct Hcs as [Hcs Hss].
  split; [by apply insert_byte_ok|lia|lia|by right].
Qed.

Lemma pool_return_ok st m k mp a :
  wf st -> of_class st (m_buf m) k mp a ->
  exists st' r, MessagePoolReturn st m = Ret (st', r) /\ wf st' /\ return_outcome st (m_buf m) k (mp_size mp) a st' r.
Proof.
  intros Hw Hc. set (size := mp_size mp). destruct (of_class_ok st _ k mp a Hw Hc) as (Ec & Hsz & Hok & Hi & Hle). pose proof Hc as [Hb Hk La].
  unfold MessagePoolReturn. rewrite (index_ret _ _ _ Hb). cbn [gbind]. rewrite Ec, !index_total by lia. cbn [gbind]. fold size (shard_of size a).
  fold size in Hle, Hi, Hok, La. rewrite Hle. destruct (index (mp_shards mp) _) as [sh|] eqn:Esh; [|done]. cbn [gbind].
  rewrite (get_count a size La). cbn [gbind]. fold (tag_of size a) (flags_of size a). pose proof (bo_bytes _ _ _ Hok) as B1.
  pose proof (lookup_total_byte a (size + 9) B1) as Hfb. fold (flags_of size a) in Hfb. pose proof (refused_range _ Hfb) as Hrr.
  assert (Hcr : 0 <= count_of size a < 65536) by (apply be16_range; by apply lookup_total_byte).
  destruct (Z.eqb_spec (refused_of (flags_of size a)) 0) as [Hz|Hz]; cbn [negb].
  - destruct (Z.eqb_spec (count_of size a) 0) as [H0|H0]; [exists st, false; split; [done|]; split; [done|by constructor]|].
    destruct (Z.eqb_spec (count_of size a) 1) as [H1|H1].
    + rewrite set_index_insert by lia. cbn [gbind]. rewrite set_index_insert by (rewrite length_insert; lia). cbn [gbind].
      rewrite put_count by (by rewrite !length_insert). cbn [gbind].
      destruct (retire_ok st (m_buf m) k mp a Hw Hc H1) as (st' & E & Hr). fold size in E, Hr.
      match goal with |- context [Put ?x ?y ?z] => replace (Put x y z) with (Ret st') by (symmetry; exact E) end. cbn [gbind].
      exists st', true. split; [done|]. split; [apply Hr|]. by eapply return_last.
    + rewrite put_count by done. cbn [gbind]. eexists _, false. split; [done|].
      pose proof (rebook_ok st (m_buf m) k mp a (set_count size (count_of size a - 1) a) Hw Hc H0 (set_count_length _ _ _)
        ltac:(apply buffer_recounted; (done || lia))) as Hrb.
      split; [apply Hrb|]. apply return_shared; [done|lia|done].
  - rewrite set_index_insert by lia. cbn [gbind]. eexists _, false. split; [done|].
    destruct (bo_refused _ _ _ Hok) as [?|B4]; [done|]. destruct (refused_set (flags_of size a) (refused_of (flags_of size a) - 1) Hfb ltac:(lia)) as [R1 R2].
    pose proof (rebook_ok st (m_buf m) k mp a (<[(size + 9)%nat := set_refused (flags_of size a) (refused_of (flags_of size a) - 1)]> a) Hw Hc
      ltac:(fold size; lia) ltac:(by rewrite length_insert) ltac:(by apply buffer_reflagged)) as Hrb.
    split; [apply Hrb|]. by apply return_forgives.
Qed.

(** ** Sharing a buffer *)

Inductive share_outcome st (b size : nat) (a : list Z) : pools -> Prop :=
| share_untaken : count_of size a = 0 -> share_outcome st b size a st
| share_refused st' :
    count_of size a = 65535 ->
    rebooked st st' b (<[(size + 9)%nat := set_refused (flags_of size a) (Z.min 127 (refused_of (flags_of size a) + 1))]> a) -> share_outcome st b size a st'
| share_counted st' a' :
    0 < count_of size a < 65535 -> count_of size a' = count_of size a + 1 -> refused_of (flags_of size a') = 0 ->
    length a' = length a -> shard_of size a' = shard_of size a -> tag_of size a' = tag_of size a -> (forall i, (i < size)%nat -> a' !! i = a !! i) ->
    rebooked st st' b a' -> share_outcome st b size a st'.

Lemma pool_share_ok st m k mp a :
  wf st -> of_class st (m_buf m) k mp a ->
  exists st', MessagePoolShareReadOnly st m = Ret st' /\ wf st' /\ share_outcome st (m_buf m) (mp_size mp) a st'.
Proof.
  intros Hw Hc. set (size := mp_size mp). destruct (of_class_ok st _ k mp a Hw Hc) as (Ec & Hsz & Hok & Hi & Hle). pose proof Hc as [Hb Hk La].
  unfold MessagePoolShareReadOnly. rewrite (index_ret _ _ _ Hb). cbn [gbind]. rewrite Ec, !index_total by lia. cbn [gbind]. fold size (shard_of size a).
  fold size in Hle, Hi, Hok, La. rewrite Hle. destruct (index (mp_shards mp) _) as [sh|] eqn:Esh; [|done]. cbn [gbind].
  rewrite (get_count a size La). cbn [gbind]. pose proof (bo_bytes _ _ _ Hok) as B1.
  pose proof (lookup_total_byte a (size + 9) B1) as Hfb. fold (flags_of size a) in Hfb. pose proof (refused_range _ Hfb) as Hrr.
  assert (Hcr : 0 <= count_of size a < 65536) by (apply be16_range; by apply lookup_total_byte).
  destruct (Z.eqb_spec (count_of size a) 0) as [H0|H0]; [exists st; split; [done|]; split; [done|by constructor]|].
  destruct (Z.eqb_spec (count_of size a) 65535) as [H1|H1].
  - rewrite set_index_insert by lia. cbn [gbind].
    assert (Er : (if refused_of (flags_of size a) <? MessagePoolMaxRefusedShareCount then refused_of (flags_of size a) + 1 else refused_of (flags_of size a)) =
              Z.min 127 (refused_of (flags_of size a) + 1)) by (unfold MessagePoolMaxRefusedShareCount; destruct (Z.ltb_spec (refused_of (flags_of size a)) 127); lia).
    fold (flags_of size a). rewrite Er. eexists. split; [done|].
    destruct (refused_set (flags_of size a) (Z.min 127 (refused_of (flags_of size a) + 1)) Hfb ltac:(lia)) as [R1 R2].
    pose proof (rebook_ok st (m_buf m) k mp a (<[(size + 9)%nat := set_refused (flags_of size a) (Z.min 127 (refused_of (flags_of size a) + 1))]> a) Hw Hc
      ltac:(done) ltac:(by rewrite length_insert) ltac:(by apply buffer_reflagged)) as Hrb.
    split; [apply Hrb|]. by apply share_refused.
  - rewrite put_count by done. cbn [gbind]. set (a1 := set_count size (count_of size a + 1) a).
    assert (L1 : length a1 = (size + 13)%nat) by (unfold a1; by rewrite set_count_length). rewrite index_total by lia. cbn [gbind].
    rewrite set_index_insert by lia. cbn [gbind]. fold (flags_of size a1). set (a2 := <[(size + 9)%nat := _]> a1). eexists. split; [done|].
    assert (F1 : flags_of size a1 = flags_of size a) by (unfold a1; by books). destruct (refused_shared (flags_of size a1)) as [R1 R2]; [by rewrite F1|].
    destruct (bo_refused _ _ _ Hok) as [Hz|?]; [|done].
    assert (M : count_of size a2 = count_of size a1 /\ flags_of size a2 = Z.lor (flags_of size a1) MessagePoolFlagShared /\ shard_of size a2 = shard_of size a /\ tag_of size a2 = tag_of size a).
    { unfold a2, a1. by books. }
    destruct M as (M1 & M2 & M3 & M4). assert (C1 : count_of size a1 = count_of size a + 1) by (apply count_set; [done|lia]).
    assert (Hok2 : buffer_ok shards size a2).
    { destruct Hok as [_ B2 _ _]. split; [apply insert_byte_ok; [by apply set_count_bytes|done]|lia|lia|left; by rewrite M2, R1, F1]. }
    pose proof (rebook_ok st (m_buf m) k mp a a2 Hw Hc H0 ltac:(unfold a2; rewrite length_insert, L1; lia) Hok2) as Hrb. split; [apply Hrb|].
    apply (share_counted st (m_buf m) size a _ a2); try done; [lia|lia|by rewrite M2, R1, F1|unfold a2; rewrite length_insert; lia|].
    intros i Hlt. unfold a2, a1, set_count. by rewrite !list_lookup_insert_ne by lia.
Qed.

(** ** Every operation returns *)

Lemma wf_pools st f :
  wf st ->
  (forall mp, mp_size (f mp) = mp_size mp /\ length (mp_shards (f mp)) = length (mp_shards mp) /\
     forall j sh', mp_shards (f mp) !! j = Some sh' -> exists sh, mp_shards mp !! j = Some sh /\
       sh_pool sh' `prefix_of` sh_pool sh /\ (length (sh_pool sh) <= sh_capacity sh -> length (sh_pool sh') <= sh_capacity sh')%nat /\
       (length (takenTags sh) = 256%nat -> length (takenTags sh') = 256%nat) /\ (length (returnedTags sh) = 256%nat -> length (returnedTags sh') = 256%nat)) ->
  wf (Pools (map f (orderedMessagePools st)) (heap st) (globalPoolMetrics st)).
Proof.
  intros Hw Hf. split; cbn.
  - rewrite map_map, <- (pw_sizes _ _ _ Hw). apply map_ext. intros mp. apply Hf.
  - intros mp' (mp & -> & Hmp)%list_elem_of_fmap. rewrite (proj1 (proj2 (Hf mp))). by apply (pw_counts _ _ _ Hw).
  - intros k j size sh' Hat. apply shard_at_some in Hat as (mp' & Hk & Hj & <-). cbn in Hk. rewrite list_lookup_fmap in Hk.
    destruct (orderedMessagePools st !! k) as [mp|] eqn:E; [|done]. cbn in Hk. injection Hk as <-. destruct (Hf mp) as (F1 & F2 & F3).
    destruct (F3 j sh' Hj) as (sh & Hsh & Hpre & Hroom & Ht1 & Ht2). destruct (pw_shards _ _ _ Hw k j _ _ (shard_at_intro st k mp j sh E Hsh)) as [N L F [T1 T2]].
    split; [|by apply Hroom| |by auto].
    + destruct Hpre as [l El]. rewrite El in N. by apply list.NoDup_app in N as [N _].
    + intros b Hb. rewrite F1. apply F. by eapply elem_of_prefix.
  - apply Hw.
Qed.

Lemma wf_shards_map st (g : messagePool -> poolShard -> poolShard) :
  wf st ->
  (forall mp sh, sh_pool (g mp sh) `prefix_of` sh_pool sh /\ (length (sh_pool sh) <= sh_capacity sh -> length (sh_pool (g mp sh)) <= sh_capacity (g mp sh))%nat /\
     (length (takenTags sh) = 256%nat -> length (takenTags (g mp sh)) = 256%nat) /\ (length (returnedTags sh) = 256%nat -> length (returnedTags (g mp sh)) = 256%nat)) ->
  wf (Pools (map (fun mp => alter_shards (map (g mp)) mp) (orderedMessagePools st)) (heap st) (globalPoolMetrics st)).
Proof.
  intros Hw Hg. apply wf_pools; [done|]. intros mp. cbn. rewrite length_map. split; [done|]. split; [done|]. intros j sh'. rewrite list_lookup_fmap.
  destruct (mp_shards mp !! j) as [sh|]; [|done]. intros [= <-]. exists sh. split; [done|]. apply Hg.
Qed.

Lemma wf_resize st (g : messagePool -> Z) : wf st ->
  wf (Pools (map (fun mp => Resize (g mp) mp) (orderedMessagePools st)) (heap st) (globalPoolMetrics st)).
Proof.
  intros Hw. apply (wf_shards_map st (fun mp => resize_shard (per_shard (Z.of_nat (length (mp_shards mp))) (g mp)))); [done|]. intros mp sh. cbn.
  split; [apply prefix_take|]. split; [|done]. intros _. rewrite length_take. lia.
Qed.
Lemma wf_clear st : wf st -> wf (ClearMessagePools st).
Proof.
  intros Hw. apply (wf_shards_map st (fun _ sh => set_shard_pool sh [])); [done|]. intros mp sh. cbn. split; [apply prefix_nil|]. split; [lia|done].
Qed.
Lemma wf_reset st : wf st -> wf (ResetMessagePoolStats st).
Proof.
  intros Hw. apply (wf_shards_map st (fun _ sh => PoolShard (sh_pool sh) (sh_capacity sh) (nextId sh) no_tags no_tags no_tags)); [done|].
  intros mp sh. by cbn.
Qed.

#[export] Instance message_eq_dec : EqDecision message.
Proof. solve_decision. Defined.

Inductive pool_op :=
| OpGet (n : nat) (tag : Z)
| OpCopy (content : bytes) (tag : Z)
| OpReturn (m : message)
| OpShare (m : message)
| OpWrite (m : message) (i : nat) (v : Z)
| OpResize (maxByteCount : Z)
| OpResizePerClass (maxByteCount : Z)
| OpClear
| OpResetStats.

#[export] Instance pool_op_eq_dec : EqDecision pool_op.
Proof. solve_decision. Defined.

Definition pool_step st (o : pool_op) : go (pools * option message) :=
  match o with
  | OpGet n tag => let! '(st, m, _) := MessagePoolGetDetailedWithTag st n tag in Ret (st, Some m)
  | OpCopy content tag => let! '(st, m, _) := MessagePoolCopyDetailedWithTag st content tag in Ret (st, Some m)
  | OpReturn m => let! '(st, _) := MessagePoolReturn st m in Ret (st, None)
  | OpShare m => let! st := MessagePoolShareReadOnly st m in Ret (st, None)
  | OpWrite m i v => let! st := write_byte st m i v in Ret (st, None)
  | OpResize n => Ret (ResizeMessagePools st n, None)
  | OpResizePerClass n => Ret (ResizeMessagePoolsPerClass st n, None)
  | OpClear => Ret (ClearMessagePools st, None)
  | OpResetStats => Ret (ResetMessagePoolStats st, None)
  end.

(** A slice that was handed out: it ends before the books of its buffer. *)
Definition slice_ok st (m : message) : Prop := exists a, heap st !! m_buf m = Some a /\ (m_len m + 13 <= length a)%nat.
Definition op_ok st (o : pool_op) : Prop :=
  match o with
  | OpGet _ tag => byte_ok tag
  | OpCopy content tag => bytes_ok content /\ byte_ok tag
  | OpReturn m | OpShare m => slice_ok st m
  | OpWrite m i v => slice_ok st m /\ (i < m_len m)%nat /\ byte_ok v
  | _ => True
  end.

(** Writing below the books of a buffer. *)
Lemma wf_content st b a a' :
  wf st -> heap st !! b = Some a -> length a' = length a -> (bytes_ok a -> bytes_ok a') ->
  (forall i, (length a <= i + 13)%nat -> a' !! i = a !! i) -> wf (set_heap st (<[b := a']> (heap st))).
Proof.
  intros Hw Hb Hl Hby Hsame. destruct (wf_shape st (set_heap st (<[b := a']> (heap st))) Hw eq_refl) as [S1 S2].
  assert (Ht : forall i, (length a <= i + 13)%nat -> a' !!! i = a !!! i) by (intros i Hi; rewrite !list_lookup_total_alt; by rewrite (Hsame i Hi)).
  assert (Hbk : forall size, length a = (size + 13)%nat -> tag_of size a' = tag_of size a /\ flags_of size a' = flags_of size a /\ count_of size a' = count_of size a /\ shard_of size a' = shard_of size a).
  { intros size El. unfold tag_of, flags_of, count_of, shard_of.
    rewrite (Ht (size + 8)%nat), (Ht (size + 9)%nat), (Ht (size + 10)%nat), (Ht (size + 11)%nat), (Ht (size + 12)%nat) by lia. done. }
  apply (wf_step st _ b a'); [done|done|done|by left| |].
  - intros size Hs El. rewrite Hl in El. destruct (pw_heap _ _ _ Hw b a size Hb Hs El) as [B1 B2 B3 B4]. destruct (Hbk size El) as (E1 & E2 & E3 & E4).
    split; rewrite ?E2, ?E3, ?E4; auto.
  - intros k j size sh Hat. exists sh. split; [exact Hat|]. destruct (pw_shards _ _ _ Hw k j size sh Hat) as [N L F [T1 T2]]. do 4 (split; [done|]).
    intros b' Hb'. destruct (decide (b' = b)) as [->|]; [left|by right]. split; [done|]. destruct (F b Hb') as (a0 & Ha0 & [F1 F2 F3 F4 F5]).
    assert (a0 = a) as -> by congruence. destruct (Hbk size F1) as (E1 & E2 & E3 & E4). split; [split; rewrite ?E1, ?E2, ?E3, ?E4; congruence|].
    cbn. rewrite length_insert. by eapply lookup_lt_Some.
Qed.

Lemma copy_content (a : list Z) n content :
  length content = n -> (n + 13 <= length a)%nat -> copy_into a 0 n content = Ret (content ++ drop n a).
Proof.
  intros <- Hn. unfold copy_into. rewrite (proj2 (Nat.leb_le 0 _)), (proj2 (Nat.leb_le (length content) _)) by lia. cbn [andb].
  rewrite Nat.sub_0_r, Nat.min_id. cbn. by rewrite firstn_all.
Qed.

Lemma pool_copy_ok st content tag :
  wf st -> bytes_ok content -> byte_ok tag ->
  exists st1 st' m pooled a, MessagePoolGetDetailedWithTag st (length content) tag = Ret (st1, m, pooled) /\
    MessagePoolCopyDetailedWithTag st content tag = Ret (st', m, pooled) /\ wf st' /\ heap st1 !! m_buf m = Some a /\
    (length content + 13 <= length a)%nat /\ m_len m = length content /\ st' = set_heap st1 (<[m_buf m := content ++ drop (length content) a]> (heap st1)).
Proof.
  intros Hw Hc Ht. unfold MessagePoolCopyDetailedWithTag. destruct (pool_get_ok st (length content) tag Hw Ht) as (st1 & m & pooled & E & W1 & S1 & Em & Hp).
  rewrite E. cbn [gbind].
  assert (Ha : exists a, heap st1 !! m_buf m = Some a /\ (length content + 13 <= length a)%nat).
  { destruct pooled.
    - destruct Hp as (k & size & a & Hh). exists a. split; [by apply (took_lookup st st1 size), Hh|]. rewrite (ha_length _ _ _ _ _ _ _ _ Hh).
      destruct (ha_class _ _ _ _ _ _ _ _ Hh) as (_ & ? & _). lia.
    - destruct Hp as (_ & -> & ->). eexists. cbn. rewrite lookup_app_r, Nat.sub_diag by lia. split; [done|]. rewrite length_replicate. lia. }
  destruct Ha as (a & Ha & Hl). rewrite (index_ret _ _ _ Ha). cbn [gbind]. rewrite Em, copy_content by done. cbn [gbind].
  eexists _, _, m, pooled, a. split_and!; try done. apply (wf_content st1 (m_buf m) a); [done|done| | |].
  - rewrite length_app, length_drop. lia.
  - intros Hb. apply bytes_ok_app. split; [done|by apply bytes_ok_drop].
  - intros i Hi. rewrite lookup_app_r by lia. rewrite lookup_drop. f_equal. lia.
Qed.

Lemma pool_step_ok st o : wf st -> op_ok st o -> exists st' x, pool_step st o = Ret (st', x) /\ wf st'.
Proof.
  intros Hw Ho. destruct o as [n tag|content tag|m|m|m i v|n|n| |]; cbn [pool_step op_ok] in *.
  - destruct (pool_get_ok st n tag Hw Ho) as (st' & m & p & -> & W & _). by eexists _, _.
  - destruct Ho as [Hc Ht]. destruct (pool_copy_ok st content tag Hw Hc Ht) as (st1 & st' & m & p & a & _ & -> & W & _). by eexists _, _.
  - destruct Ho as (a & Hb & Hl). destruct (class_of st (length a)) as [[k mp]|] eqn:Ec.
    + apply class_some in Ec as [Hk El]. destruct (pool_return_ok st m k mp a Hw) as (st' & r & -> & W & _); [by split|]. by eexists _, _.
    + unfold MessagePoolReturn. rewrite (index_ret _ _ _ Hb). cbn [gbind]. rewrite Ec. by eexists _, _.
  - destruct Ho as (a & Hb & Hl). destruct (class_of st (length a)) as [[k mp]|] eqn:Ec.
    + apply class_some in Ec as [Hk El]. destruct (pool_share_ok st m k mp a Hw) as (st' & -> & W & _); [by split|]. by eexists _, _.
    + unfold MessagePoolShareReadOnly. rewrite (index_ret _ _ _ Hb). cbn [gbind]. rewrite Ec. by eexists _, _.
  - destruct Ho as ((a & Hb & Hl) & Hi & Hv). unfold write_byte. rewrite (proj2 (Nat.ltb_lt _ _) Hi), (index_ret _ _ _ Hb). cbn [gbind].
    rewrite set_index_insert by lia. cbn [gbind]. eexists _, _. split; [done|]. apply (wf_content st (m_buf m) a); [done|done|by rewrite length_insert| |].
    + intros Hb'. by apply insert_byte_ok.
    + intros j Hj. apply list_lookup_insert_ne. lia.
  - eexists _, _. split; [done|]. by apply (wf_resize st (fun mp => Z.quot (Z.quot n _) _)).
  - eexists _, _. split; [done|]. by apply (wf_resize st (fun mp => Z.quot n _)).
  - eexists _, _. split; [done|]. by apply wf_clear.
  - eexists _, _. split; [done|]. by apply wf_reset.
Qed.

(** ** Owners

    The references callers believe they hold, by buffer: one for a buffer handed
    out, one more for each share, one less for each return. *)

Definition op_legal (refs : list nat) (o : pool_op) : Prop :=
  match o with
  | OpReturn m => exists r, refs !! m_buf m = Some (S r)
  | OpShare m => exists r, refs !! m_buf m = Some (S r) /\ Z.of_nat (S r) < 65535 + 127
  | OpWrite m _ _ => refs !! m_buf m = Some 1%nat
  | _ => True
  end.

Definition op_refs (refs : list nat) (o : pool_op) (x : option message) : list nat :=
  match o, x with
  | OpGet _ _, Some m | OpCopy _ _, Some m => if (m_buf m <? length refs)%nat then <[m_buf m := 1%nat]> refs else refs ++ [1%nat]
  | OpReturn m, _ => alter pred (m_buf m) refs
  | OpShare m, _ => alter S (m_buf m) refs
  | _, _ => refs
  end.

Definition refs_of (size : nat) (a : list Z) : Z := count_of size a + refused_of (flags_of size a).

Record owned_by st (refs : list nat) : Prop := {
  ob_wf : wf st;
  ob_length : length refs = length (heap st);
  ob_refs b a r size : heap st !! b = Some a -> refs !! b = Some r -> size ∈ sizes -> length a = (size + 13)%nat -> Z.of_nat r = refs_of size a;
}.

Lemma alter_lookup {A} (f : A -> A) (i : nat) (l : list A) (x : A) : l !! i = Some x -> alter f i l = <[i := f x]> l.
Proof.
  intros Hx. apply list_eq. intros j. destruct (decide (j = i)) as [->|Hj].
  - rewrite list_lookup_alter_eq, Hx, list_lookup_insert_eq by (by eapply lookup_lt_Some). done.
  - by rewrite list_lookup_alter_ne, list_lookup_insert_ne.
Qed.

Lemma owned_update st st' refs b a' r' :
  owned_by st refs -> wf st' -> heap st' = <[b := a']> (heap st) -> (forall size, size ∈ sizes -> length a' = (size + 13)%nat -> Z.of_nat r' = refs_of size a') ->
  owned_by st' (<[b := r']> refs).
Proof.
  intros [W L R] W' Eh Hr. split; [done|by rewrite Eh, !length_insert|]. intros b0 a0 r0 size. rewrite Eh. destruct (decide (b0 = b)) as [->|Hne].
  - intros Ha Hr0. pose proof (lookup_lt_Some _ _ _ Ha) as H1. pose proof (lookup_lt_Some _ _ _ Hr0) as H2. rewrite length_insert in H1. rewrite length_insert in H2.
    rewrite list_lookup_insert_eq in Ha by done. rewrite list_lookup_insert_eq in Hr0 by done. injection Ha as <-. injection Hr0 as <-. apply Hr.
  - rewrite !list_lookup_insert_ne by done. apply R.
Qed.
Lemma owned_append st st' refs a' r' :
  owned_by st refs -> wf st' -> heap st' = heap st ++ [a'] -> (forall size, size ∈ sizes -> length a' = (size + 13)%nat -> Z.of_nat r' = refs_of size a') ->
  owned_by st' (refs ++ [r']).
Proof.
  intros [W L R] W' Eh Hr. split; [done|rewrite Eh, !length_app; cbn; lia|]. intros b0 a0 r0 size. rewrite Eh.
  intros [Ha|[Hge Ha]]%lookup_app_Some [Hr0|[Hge' Hr0]]%lookup_app_Some.
  - by apply (R b0).
  - apply lookup_lt_Some in Ha. lia.
  - apply lookup_lt_Some in Hr0. lia.
  - apply list_lookup_singleton_Some in Ha as [_ <-]. apply list_lookup_singleton_Some in Hr0 as [_ <-]. apply Hr.
Qed.

(** What a step leaves to a buffer that others hold. *)
Definition undisturbed st st' (b : nat) : Prop :=
  forall a, heap st !! b = Some a -> exists a', heap st' !! b = Some a' /\ length a' = length a /\ forall i, (i + 13 < length a)%nat -> a' !! i = a !! i.

Lemma undisturbed_other st st' b b' a' : heap st' = <[b' := a']> (heap st) -> b <> b' -> undisturbed st st' b.
Proof. intros Eh Hne a Ha. exists a. by rewrite Eh, list_lookup_insert_ne. Qed.
Lemma undisturbed_same st st' b a a' :
  heap st !! b = Some a -> heap st' = <[b := a']> (heap st) -> length a' = length a -> (forall i, (i + 13 < length a)%nat -> a' !! i = a !! i) -> undisturbed st st' b.
Proof.
  intros Hb Eh Hl Hs a0 Ha0. assert (a0 = a) as -> by congruence. exists a'. rewrite Eh, list_lookup_insert_eq by (by eapply lookup_lt_Some). done.
Qed.

(** A buffer handed out belonged to nobody. *)
Lemma took_unowned st st' refs size b a r :
  owned_by st refs -> size ∈ sizes -> took st st' size b a -> refs !! b = Some r -> r = 0%nat /\ (b < length (heap st))%nat.
Proof.
  intros [W L R] Hs [(a0 & Hb & Hl & Hc & _)|[_ ->]] Hr.
  - split; [|by eapply lookup_lt_Some]. pose proof (R b a0 r size Hb Hr Hs Hl) as E. pose proof (bo_untaken _ _ _ (pw_heap _ _ _ W b a0 size Hb Hs Hl) Hc) as Hf.
    unfold refs_of in E. rewrite Hc, Hf in E. change (0 + refused_of 0) with 0 in E. lia.
  - apply lookup_lt_Some in Hr. lia.
Qed.

Lemma took_owned st st' refs size b a :
  owned_by st refs -> wf st' -> size ∈ sizes -> took st st' size b a -> length a = (size + 13)%nat -> refs_of size a = 1 ->
  owned_by st' (if (b <? length refs)%nat then <[b := 1%nat]> refs else refs ++ [1%nat]) /\
  forall b' r, refs !! b' = Some (S r) -> undisturbed st st' b' /\ b <> b'.
Proof.
  intros Ho W' Hs Ht Hl Hr. pose proof Ho as [W L R]. split.
  - assert (Hone : forall size', size' ∈ sizes -> length a = (size' + 13)%nat -> Z.of_nat 1 = refs_of size' a).
    { intros size' _ Hl'. assert (size' = size) as -> by lia. lia. }
    destruct Ht as [(a0 & Hb & _ & _ & Eh)|[Eh ->]].
    + apply lookup_lt_Some in Hb. rewrite (proj2 (Nat.ltb_lt _ _)) by lia. by apply (owned_update st st' refs b a).
    + rewrite (proj2 (Nat.ltb_ge _ _)) by lia. by apply (owned_append st st' refs a).
  - intros b' r Hr'. assert (Hne : b <> b').
    { intros ->. destruct (took_unowned st st' refs size b' a (S r) Ho Hs Ht Hr'). done. }
    split; [|done]. destruct Ht as [(a0 & _ & _ & _ & Eh)|[Eh _]]; [by apply (undisturbed_other st st' b' b a)|].
    intros x Hx. exists x. rewrite Eh. split; [by apply lookup_app_l_Some|done].
Qed.

(** A byte array that an owner holds, after its books changed. *)
Lemma rebooked_owned st st' refs b k mp a a' r r' :
  owned_by st refs -> of_class st b k mp a -> refs !! b = Some r -> rebooked st st' b a' -> length a' = length a ->
  Z.of_nat r' = refs_of (mp_size mp) a' -> (forall i, (i < mp_size mp)%nat -> a' !! i = a !! i) ->
  owned_by st' (<[b := r']> refs) /\ forall b', undisturbed st st' b'.
Proof.
  intros Ho [Hb Hk La] Hr [W _ _ Eh] Hl Er Hs. split.
  - apply (owned_update st st' refs b a'); [done|done|done|]. intros size' _ Hl'. assert (size' = mp_size mp) as -> by lia. done.
  - intros b'. destruct (decide (b' = b)) as [->|]; [|by apply (undisturbed_other st st' b' b a')].
    apply (undisturbed_same st st' b a a'); [done|done|done|]. intros i Hi. apply Hs. lia.
Qed.

Lemma alter_refs {A} (f : A -> A) (i : nat) (l : list A) x y : l !! i = Some x -> f x = y -> alter f i l = <[i := y]> l.
Proof. intros Hx <-. by apply alter_lookup. Qed.

(** Returning is true for the last owner of a pooled buffer, and only for it. *)
Lemma owned_return st refs m r :
  owned_by st refs -> slice_ok st m -> refs !! m_buf m = Some (S r) ->
  exists st' x, MessagePoolReturn st m = Ret (st', x) /\ owned_by st' (alter pred (m_buf m) refs) /\ (forall b, undisturbed st st' b) /\
    (forall a k mp, of_class st (m_buf m) k mp a -> (x = true <-> r = 0%nat)).
Proof.
  intros Ho (a & Hb & _) Hr. pose proof Ho as [W L R]. destruct (class_of st (length a)) as [[k mp]|] eqn:Ec.
  - apply class_some in Ec as [Hk El]. assert (Hc : of_class st (m_buf m) k mp a) by (by split).
    destruct (of_class_ok st _ k mp a W Hc) as (_ & Hsz & Hok & _). pose proof (R _ a _ _ Hb Hr Hsz El) as Er. unfold refs_of in Er.
    pose proof (lookup_total_byte a (mp_size mp + 9) (bo_bytes _ _ _ Hok)) as Hfb. fold (flags_of (mp_size mp) a) in Hfb. pose proof (refused_range _ Hfb) as Hrr.
    destruct (pool_return_ok st m k mp a W Hc) as (st' & x & E & W' & Hout). exists st', x. split; [done|].
    rewrite (alter_refs pred (m_buf m) refs (S r) r Hr eq_refl).
    assert (Hx : forall b0, (b0 = true <-> r = 0%nat) -> forall a0 k0 mp0, of_class st (m_buf m) k0 mp0 a0 -> (b0 = true <-> r = 0%nat)) by auto.
    inversion Hout as [st1 N1 Rb|Z1 C1|st1 a' Z1 C1 Rt|st1 Z1 C1 Rb]; subst.
    + destruct (bo_refused _ _ _ Hok) as [?|B4]; [done|]. destruct (refused_set (flags_of (mp_size mp) a) (refused_of (flags_of (mp_size mp) a) - 1) Hfb ltac:(lia)) as [R1 R2].
      assert (La' : length a = (mp_size mp + 13)%nat) by done.
      destruct (rebooked_owned st st' refs (m_buf m) k mp a _ (S r) r Ho Hc Hr Rb) as [O U].
      * by rewrite length_insert.
      * unfold refs_of. books. rewrite R1. lia.
      * intros i Hi. apply list_lookup_insert_ne. lia.
      * split; [done|]. split; [done|]. apply Hx. split; [done|]. lia.
    + lia.
    + destruct Rt as [RW _ RH RC (RL & _ & RS) _ _]. split; [|split].
      * apply (owned_update st st' refs (m_buf m) a'); [done|done|done|]. intros size' _ Hl'. assert (size' = mp_size mp) as -> by lia.
        assert (Hb' : heap st' !! m_buf m = Some a') by (rewrite RH; apply list_lookup_insert_eq; by eapply lookup_lt_Some).
        unfold refs_of. rewrite RC, (bo_untaken _ _ _ (pw_heap _ _ _ RW _ _ _ Hb' Hsz ltac:(lia)) RC). change (0 + refused_of 0) with 0. lia.
      * intros b'. destruct (decide (b' = m_buf m)) as [->|]; [|by apply (undisturbed_other st st' b' (m_buf m) a')].
        apply (undisturbed_same st st' (m_buf m) a a'); [done|done|done|]. intros i Hi. apply RS. lia.
      * apply Hx. split; [lia|done].
    + pose proof (be16_range (a !!! (mp_size mp + 10)%nat) (a !!! (mp_size mp + 11)%nat) (lookup_total_byte _ _ (bo_bytes _ _ _ Hok)) (lookup_total_byte _ _ (bo_bytes _ _ _ Hok))) as Hcr.
      fold (count_of (mp_size mp) a) in Hcr.
      destruct (rebooked_owned st st' refs (m_buf m) k mp a _ (S r) r Ho Hc Hr Rb) as [O U].
      * apply set_count_length.
      * unfold refs_of. rewrite count_set by (done || lia). replace (flags_of (mp_size mp) (set_count _ _ a)) with (flags_of (mp_size mp) a) by (by books). lia.
      * intros i Hi. unfold set_count. by rewrite !list_lookup_insert_ne by lia.
      * split; [done|]. split; [done|]. apply Hx. split; [done|]. lia.
  - exists st, false. unfold MessagePoolReturn. rewrite (index_ret _ _ _ Hb). cbn [gbind]. rewrite Ec. split; [done|].
    rewrite (alter_refs pred (m_buf m) refs (S r) r Hr eq_refl). split; [|split].
    + apply (owned_update st st refs (m_buf m) a); [done|done|by rewrite list_insert_id|]. intros size Hs Hl. by destruct (class_none st _ size W Ec Hs).
    + intros b' x Hx. by exists x.
    + intros a0 k0 mp0 [Hb0 Hk0 El0]. assert (a0 = a) as -> by congruence. destruct (class_none st _ (mp_size mp0) W Ec); [by eapply wf_class|done].
Qed.

Lemma owned_share st refs m r :
  owned_by st refs -> slice_ok st m -> refs !! m_buf m = Some (S r) -> Z.of_nat (S r) < 65535 + 127 ->
  exists st', MessagePoolShareReadOnly st m = Ret st' /\ owned_by st' (alter S (m_buf m) refs) /\ (forall b, undisturbed st st' b).
Proof.
  intros Ho (a & Hb & _) Hr Hmax. pose proof Ho as [W L R]. rewrite (alter_refs S (m_buf m) refs (S r) (S (S r)) Hr eq_refl).
  destruct (class_of st (length a)) as [[k mp]|] eqn:Ec.
  - apply class_some in Ec as [Hk El]. assert (Hc : of_class st (m_buf m) k mp a) by (by split).
    destruct (of_class_ok st _ k mp a W Hc) as (_ & Hsz & Hok & _). pose proof (R _ a _ _ Hb Hr Hsz El) as Er. unfold refs_of in Er.
    pose proof (lookup_total_byte a (mp_size mp + 9) (bo_bytes _ _ _ Hok)) as Hfb. fold (flags_of (mp_size mp) a) in Hfb. pose proof (refused_range _ Hfb) as Hrr.
    destruct (pool_share_ok st m k mp a W Hc) as (st' & E & W' & Hout). exists st'. split; [done|].
    inversion Hout as [C1|st1 C1 Rb|st1 a' C1 C2 C3 C4 C5 C6 C7 Rb]; subst.
    + assert (flags_of (mp_size mp) a = 0) as Hf by (by apply (bo_untaken _ _ _ Hok)). rewrite Hf in Er. change (refused_of 0) with 0 in Er. lia.
    + destruct (refused_set (flags_of (mp_size mp) a) (Z.min 127 (refused_of (flags_of (mp_size mp) a) + 1)) Hfb ltac:(lia)) as [R1 R2].
      apply (rebooked_owned st st' refs (m_buf m) k mp a _ (S r) (S (S r)) Ho Hc Hr Rb).
      * by rewrite length_insert.
      * unfold refs_of. books. rewrite R1. lia.
      * intros i Hi. apply list_lookup_insert_ne. lia.
    + apply (rebooked_owned st st' refs (m_buf m) k mp a _ (S r) (S (S r)) Ho Hc Hr Rb); [done| |done].
      unfold refs_of. rewrite C2, C3. destruct (bo_refused _ _ _ Hok); lia.
  - exists st. unfold MessagePoolShareReadOnly. rewrite (index_ret _ _ _ Hb). cbn [gbind]. rewrite Ec. split; [done|]. split.
    + apply (owned_update st st refs (m_buf m) a); [done|done|by rewrite list_insert_id|]. intros size Hs Hl. by destruct (class_none st _ size W Ec Hs).
    + intros b' x Hx. by exists x.
Qed.

Definition writes (o : pool_op) (b : nat) : Prop := match o with OpWrite m _ _ => m_buf m = b | _ => False end.

(** What a step gives a caller: a buffer nobody else holds, with the bytes it
    asked for. *)
Definition hands_out st' (refs : list nat) (o : pool_op) (m : message) : Prop :=
  (refs !! m_buf m = None \/ refs !! m_buf m = Some 0%nat) /\ slice_ok st' m /\
  match o with
  | OpGet n _ => m_len m = n
  | OpCopy content _ => m_len m = length content /\ take (m_len m) <$> heap st' !! m_buf m = Some content
  | _ => False
  end.

Definition owned_step st refs o st' (x : option message) : Prop :=
  owned_by st' (op_refs refs o x) /\ (forall b r, refs !! b = Some (S r) -> ~ writes o b -> undisturbed st st' b) /\
  forall m, x = Some m -> hands_out st' refs o m.

Lemma owned_quiet st st' refs o :
  owned_by st refs -> wf st' -> heap st' = heap st -> op_refs refs o None = refs -> owned_step st refs o st' None.
Proof.
  intros [W L R] W' Eh Er. split; [|split; [|done]].
  - rewrite Er. split; [done|by rewrite Eh|]. rewrite Eh. apply R.
  - intros b r _ _ a Ha. exists a. by rewrite Eh.
Qed.

(** The array of a slice that was just handed out is nobody else's. *)
Lemma owned_get st refs n tag :
  owned_by st refs -> byte_ok tag -> exists st' m pooled, MessagePoolGetDetailedWithTag st n tag = Ret (st', m, pooled) /\
    owned_step st refs (OpGet n tag) st' (Some m).
Proof.
  intros Ho Ht. pose proof Ho as [W L R]. destruct (pool_get_ok st n tag W Ht) as (st' & m & pooled & E & W' & _ & Em & Hp).
  exists st', m, pooled. split; [done|]. unfold owned_step. cbn [op_refs]. destruct pooled.
  - destruct Hp as (k & size & a & Hh). pose proof (ha_took _ _ _ _ _ _ _ _ Hh) as Htk. pose proof (ha_length _ _ _ _ _ _ _ _ Hh) as Hl.
    destruct (ha_class _ _ _ _ _ _ _ _ Hh) as (Hk & Hn & _). assert (Hs : size ∈ sizes) by (by apply list_elem_of_lookup_2 in Hk).
    destruct (took_owned st st' refs size (m_buf m) a Ho W' Hs Htk Hl) as [O U].
    { unfold refs_of. rewrite (ha_count _ _ _ _ _ _ _ _ Hh), (ha_flags _ _ _ _ _ _ _ _ Hh). done. }
    split; [done|]. split; [intros b r Hr _; by apply (U b r)|]. intros m' [= <-]. split; [|split; [|done]].
    + destruct (refs !! m_buf m) as [r|] eqn:Er; [right|by left]. by destruct (took_unowned st st' refs size _ a r Ho Hs Htk Er) as [-> _].
    + exists a. split; [by apply (took_lookup st st' size)|lia].
  - destruct Hp as (Hbig & -> & Eb). rewrite Eb, <- L, Nat.ltb_irrefl. split; [|split].
    + apply (owned_append st _ refs (replicate (n + 13) 0)); [done|done|done|]. intros size Hs Hl. rewrite length_replicate in Hl. specialize (Hbig size Hs). lia.
    + intros b r Hr _ a Ha. exists a. split; [by apply lookup_app_l_Some|done].
    + intros m' [= <-]. split; [|split; [|done]].
      * left. apply lookup_ge_None_2. lia.
      * exists (replicate (n + 13) 0). cbn. rewrite Eb, lookup_app_r, Nat.sub_diag, length_replicate by done. split; [done|lia].
Qed.

Lemma owned_copy st refs content tag :
  owned_by st refs -> bytes_ok content -> byte_ok tag ->
  exists st' m pooled, MessagePoolCopyDetailedWithTag st content tag = Ret (st', m, pooled) /\ owned_step st refs (OpCopy content tag) st' (Some m).
Proof.
  intros Ho Hc Ht. destruct (pool_copy_ok st content tag (ob_wf _ _ Ho) Hc Ht) as (st1 & st' & m & pooled & a & Eg & E & W' & Hb & Hl & Em & Est).
  exists st', m, pooled. split; [done|]. destruct (owned_get st refs (length content) tag Ho Ht) as (st0 & m0 & p0 & Eg' & O & U & H).
  rewrite Eg in Eg'. injection Eg' as <- <- <-. destruct (H m eq_refl) as (Hn & _ & _). cbn [op_refs] in O.
  set (a' := content ++ drop (length content) a) in *. assert (La : length a' = length a) by (unfold a'; rewrite length_app, length_drop; lia).
  assert (Hb' : heap st' !! m_buf m = Some a') by (rewrite Est; apply list_lookup_insert_eq; by eapply lookup_lt_Some).
  unfold owned_step. cbn [op_refs]. split; [|split].
  - set (refs1 := if (m_buf m <? length refs)%nat then _ else _) in *. destruct O as [W1 L1 R1]. split; [done|by rewrite Est; cbn; rewrite length_insert|].
    intros b x r size Hx Hr Hs Hlx. destruct (decide (b = m_buf m)) as [->|Hne].
    2:{ apply (R1 b x r size); try done. rewrite Est in Hx. cbn in Hx. by rewrite list_lookup_insert_ne in Hx. }
    assert (x = a') as -> by congruence. rewrite (R1 _ a r size Hb Hr Hs ltac:(lia)).
    assert (Hsame : forall i, (length a <= i + 13)%nat -> a' !!! i = a !!! i).
    { intros i Hi. unfold a'. rewrite lookup_total_app_r by lia. rewrite lookup_total_drop. f_equal. lia. }
    unfold refs_of, count_of, flags_of. by rewrite !Hsame by lia.
  - intros b r Hr Hw. assert (Hne : b <> m_buf m) by (intros ->; rewrite Hr in Hn; by destruct Hn).
    intros x Hx. destruct (U b r Hr) with (a := x) as (x' & Hx' & Hrest); [done|done|]. exists x'. split; [|done].
    rewrite Est. cbn. by rewrite list_lookup_insert_ne.
  - intros m' [= <-]. split; [done|]. split; [exists a'; split; [done|lia]|]. split; [done|]. rewrite Hb', Em. unfold a'. cbn. by rewrite take_app_length.
Qed.

Lemma owned_write st refs m i v :
  owned_by st refs -> slice_ok st m -> (i < m_len m)%nat -> byte_ok v ->
  exists st', write_byte st m i v = Ret st' /\ owned_step st refs (OpWrite m i v) st' None.
Proof.
  intros Ho Hm Hi Hv. pose proof Ho as [W L R]. destruct (pool_step_ok st (OpWrite m i v) W) as (st1 & x & E & W'); [done|].
  destruct Hm as (a & Hb & Hl). cbn [pool_step] in E. unfold write_byte in *. rewrite (proj2 (Nat.ltb_lt _ _) Hi), (index_ret _ _ _ Hb) in *. cbn [gbind] in *.
  rewrite set_index_insert in * by lia. cbn [gbind] in *. injection E as <- <-. eexists. split; [done|]. split; [|split; [|done]].
  - cbn [op_refs]. split; [done|by cbn; rewrite length_insert|]. intros b x r size Hx Hr Hs Hlx. cbn in Hx.
    destruct (decide (b = m_buf m)) as [->|Hne]; [|rewrite list_lookup_insert_ne in Hx by done; by apply (R b)].
    rewrite list_lookup_insert_eq in Hx by (by eapply lookup_lt_Some). injection Hx as <-. rewrite length_insert in Hlx.
    rewrite (R _ a r size Hb Hr Hs Hlx). unfold refs_of, count_of, flags_of. by rewrite !list_lookup_total_insert_ne by lia.
  - intros b r Hr Hw. apply (undisturbed_other st _ b (m_buf m) (<[i := v]> a)); [done|]. intros ->. by apply Hw.
Qed.

Lemma owned_step_ok st refs o :
  owned_by st refs -> op_ok st o -> op_legal refs o -> exists st' x, pool_step st o = Ret (st', x) /\ owned_step st refs o st' x.
Proof.
  intros Ho Hok Hleg. pose proof (ob_wf _ _ Ho) as W. destruct o as [n tag|content tag|m|m|m i v|n|n| |]; cbn [pool_step op_ok op_legal] in *.
  - destruct (owned_get st refs n tag Ho Hok) as (st' & m & p & -> & H). by eexists _, _.
  - destruct Hok as [Hc Ht]. destruct (owned_copy st refs content tag Ho Hc Ht) as (st' & m & p & -> & H). by eexists _, _.
  - destruct Hleg as [r Hr]. destruct (owned_return st refs m r Ho Hok Hr) as (st' & x & -> & O & U & _). eexists _, _. split; [done|].
    split; [done|]. split; [intros b r' _ _; apply U|done].
  - destruct Hleg as (r & Hr & Hmax). destruct (owned_share st refs m r Ho Hok Hr Hmax) as (st' & -> & O & U). eexists _, _. split; [done|].
    split; [done|]. split; [intros b r' _ _; apply U|done].
  - destruct Hok as (Hs & Hi & Hv). destruct (owned_write st refs m i v Ho Hs Hi Hv) as (st' & -> & H). by eexists _, _.
  - eexists _, _. split; [done|]. apply owned_quiet; try done. by apply (wf_resize st (fun mp => Z.quot (Z.quot n _) _)).
  - eexists _, _. split; [done|]. apply owned_quiet; try done. by apply (wf_resize st (fun mp => Z.quot n _)).
  - eexists _, _. split; [done|]. apply owned_quiet; try done. by apply wf_clear.
  - eexists _, _. split; [done|]. apply owned_quiet; try done. by apply wf_reset.
Qed.

(** A buffer on a free list belongs to nobody. *)
Lemma free_unowned st refs k j size sh b :
  owned_by st refs -> shard_at st k j = Some (size, sh) -> b ∈ sh_pool sh -> refs !! b = Some 0%nat.
Proof.
  intros [W L R] Hat Hb. destruct (so_free _ _ _ _ (pw_shards _ _ _ W k j size sh Hat) b Hb) as (a & Ha & [F1 F2 F3 F4 F5]).
  assert (Hlt : (b < length refs)%nat) by (rewrite L; by eapply lookup_lt_Some). apply lookup_lt_is_Some in Hlt as [r Hr]. rewrite Hr.
  apply shard_at_some in Hat as (mp & Hk & _ & <-). pose proof (R b a r _ Ha Hr ltac:(by eapply wf_class) F1) as E. unfold refs_of in E.
  rewrite F3, F4 in E. change (0 + refused_of 0) with 0 in E. f_equal. lia.
Qed.

(** ** Statistics

    A figure of a heap is a sum over its buffers of something their length and
    their books say; a buffer nobody has counts nothing. *)

Definition weigh (f : list Z -> Z) (h : list (list Z)) : Z := sumZ (map f h).
#[local] Arguments weigh : simpl never.

Lemma weigh_insert f (h : list (list Z)) b a a' : h !! b = Some a -> weigh f (<[b := a']> h) = weigh f h - f a + f a'.
Proof.
  intros Hb. unfold weigh. rewrite insert_take_drop by (by eapply lookup_lt_Some). rewrite <- (take_drop_middle h b a Hb) at 3.
  rewrite !map_app, !sumZ_app. cbn [map]. rewrite !sumZ_cons. lia.
Qed.
Lemma weigh_app f (h : list (list Z)) a : weigh f (h ++ [a]) = weigh f h + f a.
Proof. unfold weigh. rewrite map_app, sumZ_app. cbn. lia. Qed.

Record figure (f : list Z -> Z) : Prop := {
  fi_none a : (forall size, size ∈ sizes -> length a <> (size + 13)%nat) -> f a = 0;
  fi_untaken a size : size ∈ sizes -> length a = (size + 13)%nat -> count_of size a = 0 -> f a = 0;
  fi_same a a' size : size ∈ sizes -> length a = (size + 13)%nat -> length a' = (size + 13)%nat -> count_of size a <> 0 -> count_of size a' <> 0 ->
    tag_of size a' = tag_of size a -> shard_of size a' = shard_of size a -> f a' = f a;
}.

(** A buffer of the class of [size] that somebody has, taken at the call site
    of [tag] from shard [j]. *)
Definition live_at (size j : nat) (tag : Z) (a : list Z) : Z :=
  if decide (length a = (size + 13)%nat /\ count_of size a <> 0 /\ shard_of size a = Z.of_nat j /\ tag_of size a = tag) then 1 else 0.
Definition taken_of (size : nat) (a : list Z) : Z := if decide (length a = (size + 13)%nat /\ count_of size a <> 0) then 1 else 0.
Definition taken (a : list Z) : Z := sumZ (map (fun size => taken_of size a) sizes).

Lemma live_figure size j tag : size ∈ sizes -> figure (live_at size j tag).
Proof.
  intros Hs. split.
  - intros a Hn. unfold live_at. rewrite decide_False; [done|]. intros [Hl _]. by apply (Hn size).
  - intros a size' _ Hl Hc. unfold live_at. rewrite decide_False; [done|]. intros (Hl' & Hc' & _). assert (size' = size) as -> by lia. done.
  - intros a a' size' _ Hl Hl' Hc Hc' Et Es. unfold live_at. destruct (decide (size' = size)) as [->|Hne].
    + rewrite Et, Es. destruct (decide _) as [Hd|Hd], (decide _) as [He|He]; try done; [destruct He|destruct Hd]; tauto.
    + rewrite !decide_False; [done|intros [? _]; lia|intros [? _]; lia].
Qed.
Lemma taken_at size a : size ∈ sizes -> length a = (size + 13)%nat -> taken a = if decide (count_of size a = 0) then 0 else 1.
Proof.
  intros Hs Hl. unfold taken. rewrite (sumZ_map_ext _ (fun size' => if decide (size' = size) then if decide (count_of size a = 0) then 0 else 1 else 0)).
  - by apply sumZ_map_single.
  - intros size' Hs'. unfold taken_of. destruct (decide (size' = size)) as [->|].
    + destruct (decide (count_of size a = 0)); [rewrite decide_False by tauto|rewrite decide_True by tauto]; done.
    + rewrite decide_False; [done|]. intros [? _]. lia.
Qed.
Lemma taken_figure : figure taken.
Proof.
  split.
  - intros a Hn. unfold taken. apply sumZ_map_0. intros size Hs. unfold taken_of. rewrite decide_False; [done|]. intros [Hl _]. by apply (Hn size).
  - intros a size Hs Hl Hc. rewrite (taken_at size) by done. by rewrite decide_True.
  - intros a a' size Hs Hl Hl' Hc Hc' _ _. rewrite !(taken_at size) by done. by rewrite !decide_False.
Qed.

(** What a step does to the figures and to the statistics: nothing, or one
    buffer more or less. *)
Inductive counted st st' : Prop :=
| counted_same :
    (forall f, figure f -> weigh f (heap st') = weigh f (heap st)) -> (forall k j, stats_at st' k j = stats_at st k j) ->
    ActiveBuffers (globalPoolMetrics st') = ActiveBuffers (globalPoolMetrics st) -> counted st st'
| counted_take k size a :
    sizes !! k = Some size -> length a = (size + 13)%nat -> count_of size a <> 0 -> 0 <= shard_of size a -> byte_ok (tag_of size a) ->
    (forall f, figure f -> weigh f (heap st') = weigh f (heap st) + f a) ->
    tallied st st' k (Z.to_nat (shard_of size a)) true (tag_of size a) ->
    ActiveBuffers (globalPoolMetrics st') = u64 (ActiveBuffers (globalPoolMetrics st) + 1) -> counted st st'
| counted_retire k size a :
    sizes !! k = Some size -> length a = (size + 13)%nat -> count_of size a <> 0 -> 0 <= shard_of size a -> byte_ok (tag_of size a) ->
    (forall f, figure f -> weigh f (heap st') = weigh f (heap st) - f a) ->
    tallied st st' k (Z.to_nat (shard_of size a)) false (tag_of size a) ->
    ActiveBuffers (globalPoolMetrics st') = u64 (ActiveBuffers (globalPoolMetrics st) + (- 1)) -> counted st st'.

(** The counters of [st] tell what was taken since [base] and is still out, less
    what was out at [base] and has come back. *)
Definition balanced base st : Prop :=
  (forall k j size tk rt tag, sizes !! k = Some size -> stats_at st k j = Some (tk, rt) -> 0 <= tag < 256 ->
     u64 (tk !!! Z.to_nat tag - rt !!! Z.to_nat tag) = u64 (weigh (live_at size j tag) (heap st) - weigh (live_at size j tag) (heap base))).

Lemma u64_take x y w : u64 (x - y) = u64 w -> u64 (u64 (x + 1) - y) = u64 (w + 1).
Proof. unfold u64. intros E. rewrite Zminus_mod_idemp_l, <- (Zplus_mod_idemp_l w), <- E, Zplus_mod_idemp_l. f_equal. lia. Qed.
Lemma u64_give x y w : u64 (x - y) = u64 w -> u64 (x - u64 (y + 1)) = u64 (w - 1).
Proof. unfold u64. intros E. rewrite Zminus_mod_idemp_r, <- (Zminus_mod_idemp_l w), <- E, Zminus_mod_idemp_l. f_equal. lia. Qed.
Definition active_ok st : Prop := ActiveBuffers (globalPoolMetrics st) = u64 (weigh taken (heap st)).

Lemma add_tag_at tag tag' l : length l = 256%nat -> byte_ok tag -> byte_ok tag' ->
  add_tag tag l !!! Z.to_nat tag' = if decide (tag' = tag) then u64 (l !!! Z.to_nat tag' + 1) else l !!! Z.to_nat tag'.
Proof.
  intros Hl [H1 H2] [H3 H4]. unfold add_tag. destruct (lookup_lt_is_Some_2 l (Z.to_nat tag)) as [x Hx]; [lia|]. rewrite (alter_lookup _ _ _ x Hx).
  destruct (decide (tag' = tag)) as [->|Hne]; [|by rewrite list_lookup_total_insert_ne by lia].
  rewrite list_lookup_total_insert_eq by lia. by rewrite (list_lookup_total_correct _ _ _ Hx).
Qed.

Lemma active_step st st' : counted st st' -> active_ok st -> active_ok st'.
Proof.
  unfold active_ok. intros [Hf _ Ha|k size a Hk Hl Hc _ _ Hf _ Ha|k size a Hk Hl Hc _ _ Hf _ Ha] H; rewrite Ha, H, (Hf _ taken_figure); [done| |];
    rewrite (taken_at size a), decide_False by (done || by apply list_elem_of_lookup_2 in Hk); unfold u64; by rewrite Zplus_mod_idemp_l.
Qed.

Lemma wf_stats_length st k j tk rt : wf st -> stats_at st k j = Some (tk, rt) -> length tk = 256%nat /\ length rt = 256%nat.
Proof.
  intros W. unfold stats_at. destruct (shard_at st k j) as [[size sh]|] eqn:E; [|done]. cbn. intros [= <- <-]. apply (so_tags _ _ _ _ (pw_shards _ _ _ W k j size sh E)).
Qed.

Lemma live_other size j tag k k' size' a :
  sizes !! k = Some size -> sizes !! k' = Some size' -> length a = (size + 13)%nat -> 0 <= shard_of size a ->
  ~ (k' = k /\ j = Z.to_nat (shard_of size a) /\ tag = tag_of size a) -> live_at size' j tag a = 0.
Proof.
  intros Hk Hk' Hl Hs Hne. unfold live_at. rewrite decide_False; [done|]. intros (Hl' & _ & Hj & Ht). apply Hne. assert (size' = size) as -> by lia.
  split; [by apply (NoDup_lookup sizes k' k size)|]. split; [lia|done].
Qed.
Lemma live_here size a : length a = (size + 13)%nat -> count_of size a <> 0 -> 0 <= shard_of size a ->
  live_at size (Z.to_nat (shard_of size a)) (tag_of size a) a = 1.
Proof. intros Hl Hc Hs. unfold live_at. rewrite decide_True; [done|]. split; [done|]. split; [done|]. split; [lia|done]. Qed.

Lemma balanced_step base st st' : wf st -> counted st st' -> balanced base st -> balanced base st'.
Proof.
  intros W Hct Hb k' j' size' tk' rt' tag' Hk' Hst' Htag. assert (Hs' : size' ∈ sizes) by (by apply list_elem_of_lookup_2 in Hk').
  destruct Hct as [Hf Hs _|k size a Hk Hl Hc Hj Ht Hf Hs _|k size a Hk Hl Hc Hj Ht Hf Hs _]; rewrite (Hf _ (live_figure size' j' tag' Hs')).
  - rewrite Hs in Hst'. by apply (Hb k').
  - rewrite Hs in Hst'. destruct (decide (k' = k /\ j' = _)) as [[-> ->]|Hne].
    + destruct (stats_at st k _) as [[tk rt]|] eqn:E; [|done]. cbn in Hst'. injection Hst' as <- <-. pose proof (Hb _ _ _ _ _ tag' Hk' E Htag) as HB.
      destruct (wf_stats_length st _ _ tk rt W E) as [L1 L2]. rewrite add_tag_at by (done || unfold byte_ok; lia).
      assert (size' = size) as -> by congruence. destruct (decide (tag' = tag_of size a)) as [->|Hnt].
      * rewrite live_here by done. rewrite (u64_take _ _ _ HB). f_equal. lia.
      * rewrite (live_other size _ tag' k k size a) by (done || tauto). by rewrite Z.add_0_r.
    + rewrite (live_other size j' tag' k k' size' a) by (done || tauto). rewrite Z.add_0_r. by apply (Hb k').
  - rewrite Hs in Hst'. destruct (decide (k' = k /\ j' = _)) as [[-> ->]|Hne].
    + destruct (stats_at st k _) as [[tk rt]|] eqn:E; [|done]. cbn in Hst'. injection Hst' as <- <-. pose proof (Hb _ _ _ _ _ tag' Hk' E Htag) as HB.
      destruct (wf_stats_length st _ _ tk rt W E) as [L1 L2]. rewrite add_tag_at by (done || unfold byte_ok; lia).
      assert (size' = size) as -> by congruence. destruct (decide (tag' = tag_of size a)) as [->|Hnt].
      * rewrite live_here by done. rewrite (u64_give _ _ _ HB). f_equal. lia.
      * rewrite (live_other size _ tag' k k size a) by (done || tauto). by rewrite Z.sub_0_r.
    + rewrite (live_other size j' tag' k k' size' a) by (done || tauto). rewrite Z.sub_0_r. by apply (Hb k').
Qed.

Lemma figure_same f a a' :
  figure f -> length a' = length a ->
  (forall size, size ∈ sizes -> length a = (size + 13)%nat ->
     (count_of size a' = 0 <-> count_of size a = 0) /\ tag_of size a' = tag_of size a /\ shard_of size a' = shard_of size a) -> f a' = f a.
Proof.
  intros [F1 F2 F3] Hl Hs. destruct (decide (Exists (fun size => length a = size + 13)%nat sizes)) as [(size & Hin & El)%list.Exists_exists|Hn].
  - destruct (Hs size) as (Hc & Ht & Hj); [done|done|].
    destruct (decide (count_of size a = 0)) as [Z0|Z0]; [rewrite (F2 a size), (F2 a' size); (done || lia || tauto)|]. apply (F3 a a' size); (done || lia || tauto).
  - assert (Hno : forall size, size ∈ sizes -> length a <> (size + 13)%nat) by (intros size Hin El; apply Hn, list.Exists_exists; by exists size).
    rewrite (F1 a), (F1 a'); [done| |done]. intros size Hin El. apply (Hno size Hin). lia.
Qed.

(** Writing below the books moves no figure. *)
Lemma counted_content st b a a' :
  heap st !! b = Some a -> length a' = length a -> (forall i, (length a <= i + 13)%nat -> a' !!! i = a !!! i) -> counted st (set_heap st (<[b := a']> (heap st))).
Proof.
  intros Hb Hl Hs. apply counted_same; [|done|done]. intros f Hf. cbn. rewrite (weigh_insert f _ b a a' Hb), (figure_same f a a'); [lia|done|done|].
  intros size _ El. unfold count_of, tag_of, shard_of. by rewrite !Hs by lia.
Qed.
Lemma counted_rebook st st' b k mp a a' :
  wf st -> of_class st b k mp a -> rebooked st st' b a' -> length a' = length a -> (count_of (mp_size mp) a' = 0 <-> count_of (mp_size mp) a = 0) ->
  tag_of (mp_size mp) a' = tag_of (mp_size mp) a -> shard_of (mp_size mp) a' = shard_of (mp_size mp) a -> counted st st'.
Proof.
  intros W [Hb Hk La] [_ Ep Em Eh] Hl Hc Ht Hs. apply counted_same; [| |by rewrite Em].
  - intros f Hf. rewrite Eh, (weigh_insert f _ b a a' Hb), (figure_same f a a'); [lia|done|done|]. intros size _ El. assert (size = mp_size mp) as -> by lia. done.
  - intros k' j'. unfold stats_at, shard_at. by rewrite Ep.
Qed.

Lemma counted_get st n tag st' m pooled :
  wf st -> byte_ok tag -> MessagePoolGetDetailedWithTag st n tag = Ret (st', m, pooled) -> counted st st'.
Proof.
  intros W Ht E. destruct (pool_get_ok st n tag W Ht) as (st1 & m1 & p1 & E1 & W' & _ & _ & Hp). rewrite E in E1. injection E1 as <- <- <-. destruct pooled.
  - destruct Hp as (k & size & a & [(Hk & _) Htk Hl Hc Hf Hta Hs Htl Hac]). assert (Hsz : size ∈ sizes) by (by apply list_elem_of_lookup_2 in Hk).
    apply (counted_take st st' k size a); [done|done|lia|lia|by rewrite Hta| |by rewrite Hta|done].
    intros f Hfig. destruct Htk as [(a0 & Hb & Hl0 & Hc0 & ->)|[-> _]]; [|apply weigh_app].
    rewrite (weigh_insert f _ _ a0 a Hb), (fi_untaken f Hfig a0 size) by done. lia.
  - destruct Hp as (Hbig & -> & _). apply counted_same; [|done|done]. intros f Hfig. cbn. rewrite weigh_app, (fi_none f Hfig); [lia|].
    intros size Hs. rewrite length_replicate. specialize (Hbig size Hs). lia.
Qed.

Lemma counted_trans_content st st1 b a a' :
  counted st st1 -> heap st1 !! b = Some a -> length a' = length a -> (forall i, (length a <= i + 13)%nat -> a' !!! i = a !!! i) ->
  counted st (set_heap st1 (<[b := a']> (heap st1))).
Proof.
  intros Hc Hb Hl Hs. assert (Hw : forall f, figure f -> weigh f (<[b := a']> (heap st1)) = weigh f (heap st1)).
  { intros f Hf. rewrite (weigh_insert f _ b a a' Hb), (figure_same f a a'); [lia|done|done|].
    intros size _ El. unfold count_of, tag_of, shard_of. by rewrite !Hs by lia. }
  destruct Hc as [Hf Hst Ha|k size x Hk Hl' Hc Hj Ht Hf Hst Ha|k size x Hk Hl' Hc Hj Ht Hf Hst Ha].
  - apply counted_same; [|done|done]. intros f Hfig. cbn. by rewrite Hw, Hf.
  - apply (counted_take st _ k size x); try done. intros f Hfig. cbn. by rewrite Hw, Hf.
  - apply (counted_retire st _ k size x); try done. intros f Hfig. cbn. by rewrite Hw, Hf.
Qed.

Lemma counted_return st m k mp a st' r :
  wf st -> of_class st (m_buf m) k mp a -> return_outcome st (m_buf m) k (mp_size mp) a st' r -> counted st st'.
Proof.
  intros W Hc Hout. destruct (of_class_ok st _ k mp a W Hc) as (_ & Hsz & Hok & _). pose proof Hc as [Hb Hk La].
  pose proof (bo_bytes _ _ _ Hok) as B1. pose proof (lookup_total_byte a (mp_size mp + 12) B1) as [J0 _]. pose proof (lookup_total_byte a (mp_size mp + 8) B1) as T0.
  destruct Hout as [st1 N1 Rb|Z1 C1|st1 a' Z1 C1 Rt|st1 Z1 C1 Rb].
  - apply (counted_rebook st st1 (m_buf m) k mp a _ W Hc Rb); [by rewrite length_insert|by books..].
  - by apply counted_same.
  - destruct Rt as [RW _ RH RC (RL & _ & _) RT RA]. apply (counted_retire st st1 k (mp_size mp) a); [apply (wf_class st k mp W Hk)|done|lia|done|done| |done|done].
    intros f Hf. rewrite RH, (weigh_insert f _ _ a a' Hb), (fi_untaken f Hf a' (mp_size mp)) by (done || lia). lia.
  - assert (Hcr : 0 <= count_of (mp_size mp) a < 65536) by (apply be16_range; by apply lookup_total_byte).
    apply (counted_rebook st st1 (m_buf m) k mp a _ W Hc Rb); [apply set_count_length| |by books..]. rewrite count_set by (done || lia). lia.
Qed.
Lemma counted_share st m k mp a st' :
  wf st -> of_class st (m_buf m) k mp a -> share_outcome st (m_buf m) (mp_size mp) a st' -> counted st st'.
Proof.
  intros W Hc Hout. pose proof Hc as [Hb Hk La]. destruct Hout as [C1|st1 C1 Rb|st1 a' C1 C2 C3 C4 C5 C6 C7 Rb].
  - by apply counted_same.
  - apply (counted_rebook st st1 (m_buf m) k mp a _ W Hc Rb); [by rewrite length_insert|by books..].
  - apply (counted_rebook st st1 (m_buf m) k mp a a' W Hc Rb); try done. lia.
Qed.

Lemma counted_shards st (g : messagePool -> poolShard -> poolShard) :
  (forall mp sh, takenTags (g mp sh) = takenTags sh /\ returnedTags (g mp sh) = returnedTags sh) ->
  counted st (Pools (map (fun mp => alter_shards (map (g mp)) mp) (orderedMessagePools st)) (heap st) (globalPoolMetrics st)).
Proof.
  intros Hg. apply counted_same; [done| |done]. intros k j. unfold stats_at, shard_at. cbn. rewrite list_lookup_fmap.
  destruct (orderedMessagePools st !! k) as [mp|]; [|done]. cbn. rewrite list_lookup_fmap. destruct (mp_shards mp !! j) as [sh|]; [|done]. cbn.
  by rewrite !(proj1 (Hg mp sh)), !(proj2 (Hg mp sh)).
Qed.

Lemma counted_step st o st' x : wf st -> op_ok st o -> pool_step st o = Ret (st', x) -> o <> OpResetStats -> counted st st'.
Proof.
  intros W Hok E Hne. destruct o as [n tag|content tag|m|m|m i v|n|n| |]; cbn [pool_step op_ok] in *; try done.
  - destruct (MessagePoolGetDetailedWithTag st n tag) as [[[st1 m1] p1]|] eqn:Eg; [|done]. cbn in E. injection E as <- <-. by eapply counted_get.
  - destruct Hok as [Hc Ht]. destruct (pool_copy_ok st content tag W Hc Ht) as (st1 & st2 & m & pooled & a & Eg & Ec & _ & Hb & Hl & _ & Est).
    rewrite Ec in E. cbn in E. injection E as <- _. rewrite Est. apply (counted_trans_content st st1 (m_buf m) a); [by eapply counted_get|done| |].
    + rewrite length_app, length_drop. lia.
    + intros i Hi. rewrite lookup_total_app_r by lia. rewrite lookup_total_drop. f_equal. lia.
  - destruct Hok as (a & Hb & Hl). destruct (class_of st (length a)) as [[k mp]|] eqn:Ec.
    + apply class_some in Ec as [Hk El]. assert (Hc : of_class st (m_buf m) k mp a) by (by split).
      destruct (pool_return_ok st m k mp a W Hc) as (st1 & r & E1 & _ & Hout). rewrite E1 in E. cbn in E. injection E as <- _. by eapply counted_return.
    + unfold MessagePoolReturn in E. rewrite (index_ret _ _ _ Hb) in E. cbn [gbind] in E. rewrite Ec in E. cbn in E. injection E as <- _. by apply counted_same.
  - destruct Hok as (a & Hb & Hl). destruct (class_of st (length a)) as [[k mp]|] eqn:Ec.
    + apply class_some in Ec as [Hk El]. assert (Hc : of_class st (m_buf m) k mp a) by (by split).
      destruct (pool_share_ok st m k mp a W Hc) as (st1 & E1 & _ & Hout). rewrite E1 in E. cbn in E. injection E as <- _. by eapply counted_share.
    + unfold MessagePoolShareReadOnly in E. rewrite (index_ret _ _ _ Hb) in E. cbn [gbind] in E. rewrite Ec in E. cbn in E. injection E as <- _. by apply counted_same.
  - destruct Hok as ((a & Hb & Hl) & Hi & Hv). unfold write_byte in E. rewrite (proj2 (Nat.ltb_lt _ _) Hi), (index_ret _ _ _ Hb) in E. cbn [gbind] in E.
    rewrite set_index_insert in E by lia. cbn [gbind] in E. injection E as <- _. apply (counted_content st (m_buf m) a); [done|by rewrite length_insert|].
    intros j Hj. apply list_lookup_total_insert_ne. lia.
  - injection E as <- _. by apply (counted_shards st (fun mp => resize_shard _)).
  - injection E as <- _. by apply (counted_shards st (fun mp => resize_shard _)).
  - injection E as <- _. by apply (counted_shards st (fun _ sh => set_shard_pool sh [])).
Qed.

(** The totals of a class, over its shards and tags. *)
Lemma fold_u64 (l : list Z) n : u64 (fold_left (fun n t => u64 (n + t)) l n) = u64 (n + sumZ l).
Proof.
  revert n. induction l as [|x l IH]; intros n; cbn [fold_left]; [cbn; by rewrite Z.add_0_r|]. rewrite IH, sumZ_cons. unfold u64.
  rewrite Zplus_mod_idemp_l. f_equal. lia.
Qed.
Lemma fold_u64_shards (g : poolShard -> list Z) l n :
  u64 (fold_left (fun n sh => fold_left (fun n t => u64 (n + t)) (g sh) n) l n) = u64 (n + sumZ (map (fun sh => sumZ (g sh)) l)).
Proof.
  revert n. induction l as [|x l IH]; intros n; cbn [fold_left map]; [cbn; by rewrite Z.add_0_r|]. rewrite IH, sumZ_cons. unfold u64 in *.
  rewrite <- Zplus_mod_idemp_l. pose proof (fold_u64 (g x) n) as H. unfold u64 in H. rewrite H, Zplus_mod_idemp_l. f_equal. lia.
Qed.

Lemma sumZ_mod_ext {A} (f g : A -> Z) l : (forall x, x ∈ l -> u64 (f x) = u64 (g x)) -> u64 (sumZ (map f l)) = u64 (sumZ (map g l)).
Proof.
  induction l as [|x l IH]; intros H; [done|]. cbn [map]. rewrite !sumZ_cons. unfold u64 in *.
  rewrite (Zplus_mod (f x)), (Zplus_mod (g x)), H, IH by set_solver. done.
Qed.
Lemma sumZ_map_indices {A} `{Inhabited A} (f : A -> Z) l : sumZ (map f l) = sumZ (map (fun i => f (l !!! i)) (seq 0 (length l))).
Proof.
  induction l as [|x l IH]; [done|]. cbn [map length seq]. rewrite !sumZ_cons, IH. f_equal. rewrite <- seq_shift, map_map. done.
Qed.
Lemma sumZ_indices (l : list Z) : sumZ l = sumZ (map (fun i => l !!! i) (seq 0 (length l))).
Proof. rewrite <- (sumZ_map_indices (fun x => x)). by rewrite map_id. Qed.
Lemma sumZ_map_sub {A} (f g : A -> Z) l : sumZ (map f l) - sumZ (map g l) = sumZ (map (fun x => f x - g x) l).
Proof. induction l; [done|]. cbn [map]. rewrite !sumZ_cons. lia. Qed.
Lemma sumZ_swap {A B} (f : A -> B -> Z) l l' :
  sumZ (map (fun x => sumZ (map (f x) l')) l) = sumZ (map (fun y => sumZ (map (fun x => f x y) l)) l').
Proof.
  induction l as [|x l IH]; [symmetry; by apply sumZ_map_0|]. cbn [map]. rewrite sumZ_cons, IH, <- sumZ_map_add. apply sumZ_map_ext. intros y _. by rewrite sumZ_cons.
Qed.

#[local] Instance poolShard_inhabited : Inhabited poolShard := populate (newPoolShard 0).

Lemma class_shards st k mp : wf st -> orderedMessagePools st !! k = Some mp ->
  flat_map (fun x => if decide (mp_size x = mp_size mp) then mp_shards x else []) (orderedMessagePools st) = mp_shards mp.
Proof.
  intros W Hk. assert (Hno : forall l, (forall x, x ∈ l -> mp_size x <> mp_size mp) -> flat_map (fun x => if decide (mp_size x = mp_size mp) then mp_shards x else []) l = []).
  { induction l as [|x l IH]; intros Hl; [done|]. cbn. rewrite decide_False by (apply Hl; left). apply IH. intros y Hy. apply Hl. by right. }
  assert (Hne : forall i x, orderedMessagePools st !! i = Some x -> mp_size x = mp_size mp -> i = k).
  { intros i x Hi E. destruct (wf_class st k mp W Hk) as (_ & S1 & _). destruct (wf_class st i x W Hi) as (_ & S2 & _). rewrite E in S2.
    by apply (NoDup_lookup sizes i k (mp_size mp)). }
  rewrite <- (take_drop_middle _ _ _ Hk) at 1. rewrite flat_map_app. cbn [flat_map]. rewrite decide_True by done.
  rewrite !Hno; [by rewrite app_nil_r| |].
  - intros x (i & Hx)%list_elem_of_lookup E. rewrite lookup_drop in Hx. apply Hne in Hx; [lia|done].
  - intros x (i & Hx)%list_elem_of_lookup E. apply lookup_take_Some in Hx as [Hx Hi]. apply Hne in Hx; [lia|done].
Qed.

Lemma live_sum st size b a : wf st -> heap st !! b = Some a -> size ∈ sizes ->
  sumZ (map (fun j => sumZ (map (fun t => live_at size j (Z.of_nat t) a) (seq 0 256))) (seq 0 shards)) = taken_of size a.
Proof.
  intros W Hb Hs. unfold taken_of. destruct (decide _) as [[Hl Hc]|Hn].
  - pose proof (pw_heap _ _ _ W b a size Hb Hs Hl) as [B1 B2 _ _]. pose proof (lookup_total_byte a (size + 12) B1) as [J0 _].
    pose proof (lookup_total_byte a (size + 8) B1) as [T0 T1]. fold (shard_of size a) in J0. fold (tag_of size a) in T0, T1.
    rewrite (sumZ_map_ext _ (fun j => if decide (j = Z.to_nat (shard_of size a)) then 1 else 0)).
    + apply (sumZ_map_single _ 1); [apply NoDup_seq|]. apply elem_of_seq. lia.
    + intros j _. rewrite (sumZ_map_ext _ (fun t => if decide (t = Z.to_nat (tag_of size a)) then (if decide (j = Z.to_nat (shard_of size a)) then 1 else 0) else 0)).
      * apply sumZ_map_single; [apply NoDup_seq|]. apply elem_of_seq. lia.
      * intros t _. unfold live_at. destruct (decide (t = _)) as [->|Hne]; [|rewrite decide_False; [done|intros (_ & _ & _ & ?); lia]].
        destruct (decide (j = _)) as [->|Hne]; [rewrite decide_True; [done|split_and!; (done || lia)]|rewrite decide_False; [done|intros (_ & _ & ? & _); lia]].
  - rewrite sumZ_map_0; [done|]. intros j _. apply sumZ_map_0. intros t _. unfold live_at. rewrite decide_False; tauto.
Qed.

(** The taken buffers of a class, by shard and call site. *)
Lemma taken_sum st size : wf st -> size ∈ sizes ->
  weigh (taken_of size) (heap st) = sumZ (map (fun j => sumZ (map (fun t => weigh (live_at size j (Z.of_nat t)) (heap st)) (seq 0 256))) (seq 0 shards)).
Proof.
  intros W Hs. unfold weigh. rewrite <- (sumZ_map_ext (fun a => sumZ (map (fun j => sumZ (map (fun t => live_at size j (Z.of_nat t) a) (seq 0 256))) (seq 0 shards)))).
  2:{ intros a (b & Ha)%list_elem_of_lookup. by apply (live_sum st _ b). }
  rewrite <- sumZ_swap. apply sumZ_map_ext. intros j _. by rewrite <- sumZ_swap.
Qed.

Lemma totals_balance base st size : wf base -> wf st -> balanced base st -> size ∈ sizes ->
  u64 (fst (MessagePoolTotals st size) - snd (MessagePoolTotals st size)) =
  u64 (weigh (taken_of size) (heap st) - weigh (taken_of size) (heap base)).
Proof.
  intros W0 W Hb Hs. pose proof Hs as (k & Hk)%list_elem_of_lookup. pose proof Hk as Hk'. rewrite <- (pw_sizes _ _ _ W), list_lookup_fmap in Hk'.
  destruct (orderedMessagePools st !! k) as [mp|] eqn:Hmp; [|done]. cbn in Hk'. injection Hk' as <-. destruct (wf_class st k mp W Hmp) as (_ & _ & Hlen).
  unfold MessagePoolTotals. rewrite (class_shards st k mp W Hmp). cbn [fst snd].
  assert (E : forall g, u64 (fold_left (fun n sh => fold_left (fun n t => u64 (n + t)) (g sh) n) (mp_shards mp) 0) = u64 (sumZ (map (fun sh => sumZ (g sh)) (mp_shards mp)))) by (intros g; apply fold_u64_shards).
  transitivity (u64 (sumZ (map (fun sh => sumZ (takenTags sh)) (mp_shards mp)) - sumZ (map (fun sh => sumZ (returnedTags sh)) (mp_shards mp)))).
  { pose proof (E takenTags) as E1. pose proof (E returnedTags) as E2. unfold u64 in *. by rewrite Zminus_mod, E1, E2, <- Zminus_mod. }
  rewrite (taken_sum st), (taken_sum base), !sumZ_map_sub, (sumZ_map_indices _ (mp_shards mp)), Hlen by done.
  apply sumZ_mod_ext. intros j Hj%elem_of_seq. rewrite sumZ_map_sub.
  destruct (lookup_lt_is_Some_2 (mp_shards mp) j ltac:(lia)) as [sh Hsh]. rewrite (list_lookup_total_correct _ _ _ Hsh).
  pose proof (shard_at_intro st k mp j sh Hmp Hsh) as Hat. destruct (so_tags _ _ _ _ (pw_shards _ _ _ W k j _ _ Hat)) as [T1 T2].
  rewrite (sumZ_indices (takenTags sh)), (sumZ_indices (returnedTags sh)), T1, T2, sumZ_map_sub.
  apply sumZ_mod_ext. intros t Ht%elem_of_seq. pose proof (Hb k j _ (takenTags sh) (returnedTags sh) (Z.of_nat t) Hk) as HB.
  rewrite Nat2Z.id in HB. apply HB; [|lia]. unfold stats_at. by rewrite Hat.
Qed.
End pool.

(** ** Histories of the pool *)

Lemma messagePoolSizes_nodup : NoDup messagePoolSizes.
Proof.
  apply (NoDup_fmap_2_strong Z.to_nat).
  - intros x y Hx Hy E. apply (Z2Nat.inj x y); [set_unfold; lia..|done].
  - by apply (bool_decide_unpack _).
Qed.
#[local] Hint Resolve messagePoolSizes_nodup : core.

(** [n] shards: a power of two up to 256. *)
Definition shard_count (n : nat) : Prop := exists p, (p <= 8)%nat /\ n = (2 ^ p)%nat.

(** What any callers can bring the pool to, with operations of [allow]. *)
Inductive pool_reached (n : nat) (allow : pool_op -> Prop) : pools -> Prop :=
| reached_new : pool_reached n allow (newPools n)
| reached_step st o st' x :
    pool_reached n allow st -> allow o -> op_ok st o -> pool_step st o = Ret (st', x) -> pool_reached n allow st'.

(** What callers that return and share only what they hold, and write only what
    they hold alone, can bring the pool to, with the references they hold. *)
Inductive pool_held (n : nat) : pools -> list nat -> Prop :=
| held_new : pool_held n (newPools n) []
| held_step st refs o st' x :
    pool_held n st refs -> op_ok st o -> op_legal refs o -> pool_step st o = Ret (st', x) -> pool_held n st' (op_refs refs o x).

Lemma new_shard_at n k j size sh : shard_at (newPools n) k j = Some (size, sh) -> exists c, sh = newPoolShard c.
Proof.
  intros (mp & Hk & Hj & _)%shard_at_some. unfold newPools in Hk. cbn [orderedMessagePools] in Hk. rewrite list_lookup_fmap in Hk.
  destruct (messagePoolSizes !! k) as [size'|]; [|done]. cbn in Hk. injection Hk as <-. unfold newMessagePool in Hj. cbn [mp_shards] in Hj.
  apply lookup_replicate in Hj as [-> _]. by eexists.
Qed.

Lemma newPools_wf n : pool_wf messagePoolSizes n (newPools n).
Proof.
  split.
  - unfold newPools. cbn [orderedMessagePools]. rewrite map_map. apply map_id.
  - intros mp. unfold newPools. cbn [orderedMessagePools]. intros (size & -> & _)%list_elem_of_fmap. unfold newMessagePool. cbn [mp_shards]. apply length_replicate.
  - intros k j size sh [c ->]%new_shard_at. split; cbn [sh_pool newPoolShard sh_capacity takenTags returnedTags].
    + apply NoDup_nil_2.
    + cbn. lia.
    + intros b Hb. by apply not_elem_of_nil in Hb.
    + split; apply length_replicate.
  - intros b a size Hb. by apply lookup_lt_Some, Nat.nlt_0_r in Hb.
Qed.

Lemma reached_wf n allow st : shard_count n -> pool_reached n allow st -> pool_wf messagePoolSizes n st /\ active_ok messagePoolSizes st.
Proof.
  intros Hn. induction 1 as [|st o st' x Hr [IHw IHa] _ Ho E]; [split; [apply newPools_wf|reflexivity]|].
  destruct (pool_step_ok messagePoolSizes n messagePoolSizes_nodup Hn st o IHw Ho) as (st1 & x1 & E1 & W). rewrite E in E1. injection E1 as <- <-.
  split; [done|]. destruct (decide (o = OpResetStats)) as [->|Hne]; [cbn in E; by injection E as <- _|].
  apply (active_step messagePoolSizes messagePoolSizes_nodup st); [|done]. by apply (counted_step messagePoolSizes n messagePoolSizes_nodup Hn st o st' x).
Qed.

(** A history of the pool, with the state its statistics count from: the new
    pool, or the state the last reset left. *)
Inductive pool_since (n : nat) : pools -> pools -> Prop :=
| since_new : pool_since n (newPools n) (newPools n)
| since_reset base st st' x : pool_since n base st -> pool_step st OpResetStats = Ret (st', x) -> pool_since n st' st'
| since_step base st o st' x :
    pool_since n base st -> o <> OpResetStats -> op_ok st o -> pool_step st o = Ret (st', x) -> pool_since n base st'.

(** Every history has such a state. *)
Lemma reached_since n st : pool_reached n (fun _ => True) st <-> exists base, pool_since n base st.
Proof.
  split.
  - induction 1 as [|st o st' x _ [base IH] _ Ho E]; [eexists; constructor|]. destruct (decide (o = OpResetStats)) as [->|Hne].
    + exists st'. by apply (since_reset n base st st' x).
    + exists base. by apply (since_step n base st o st' x).
  - intros (base & Hs). induction Hs as [|base st st' x _ IH E|base st o st' x _ IH _ Ho E]; [constructor| |].
    + by apply (reached_step n _ st OpResetStats st' x).
    + by apply (reached_step n _ st o st' x).
Qed.

Lemma since_wf n base st : shard_count n -> pool_since n base st -> pool_wf messagePoolSizes n base /\ pool_wf messagePoolSizes n st.
Proof.
  intros Hn Hs. assert (W : pool_wf messagePoolSizes n st) by (apply (reached_wf n (fun _ => True)); [done|]; apply reached_since; by exists base).
  split; [|done]. clear W. induction Hs as [|base st st' x Hs _ E|]; [apply newPools_wf| |done].
  apply (reached_wf n (fun _ => True)); [done|]. apply reached_since. exists st'. by apply (since_reset n base st st' x).
Qed.

(** Counters that are all zero count from where they are. *)
Lemma zero_balanced st :
  (forall k j size sh, shard_at st k j = Some (size, sh) -> takenTags sh = no_tags /\ returnedTags sh = no_tags) -> balanced messagePoolSizes st st.
Proof.
  intros Hz k j size tk rt tag _ Hst Ht. unfold stats_at in Hst. destruct (shard_at st k j) as [[size' sh]|] eqn:E; [|done].
  destruct (Hz k j size' sh E) as [E1 E2]. cbn in Hst. rewrite E1, E2 in Hst. injection Hst as <- <-.
  unfold no_tags. rewrite !lookup_total_replicate_2 by lia. by rewrite !Z.sub_diag.
Qed.

Lemma reset_shard_at st k j size sh :
  shard_at (ResetMessagePoolStats st) k j = Some (size, sh) -> takenTags sh = no_tags /\ returnedTags sh = no_tags.
Proof.
  intros (mp & Hk & Hj & _)%shard_at_some. unfold ResetMessagePoolStats in Hk. cbn [orderedMessagePools] in Hk. rewrite list_lookup_fmap in Hk.
  destruct (orderedMessagePools st !! k) as [mp0|]; [|done]. cbn in Hk. injection Hk as <-. cbn [mp_shards alter_shards] in Hj.
  rewrite list_lookup_fmap in Hj. destruct (mp_shards mp0 !! j); [|done]. cbn in Hj. by injection Hj as <-.
Qed.

Lemma since_balanced n base st : shard_count n -> pool_since n base st -> balanced messagePoolSizes base st.
Proof.
  intros Hn Hs. induction Hs as [|base st st' x Hs IH E|base st o st' x Hs IH Hne Ho E].
  - apply zero_balanced. by intros k j size sh [c ->]%new_shard_at.
  - cbn in E. injection E as <- _. apply zero_balanced, reset_shard_at.
  - destruct (since_wf n base st Hn Hs) as [_ W]. apply (balanced_step messagePoolSizes n messagePoolSizes_nodup base st); [done| |done].
    by apply (counted_step messagePoolSizes n messagePoolSizes_nodup Hn st o st' x).
Qed.

Lemma held_owned n st refs : shard_count n -> pool_held n st refs -> owned_by messagePoolSizes n st refs.
Proof.
  intros Hn. induction 1 as [|st refs o st' x Hh IH Ho Hl E].
  - split; [apply newPools_wf|done|]. intros b a r size Hb. by apply lookup_lt_Some, Nat.nlt_0_r in Hb.
  - destruct (owned_step_ok messagePoolSizes n messagePoolSizes_nodup Hn st refs o IH Ho Hl) as (st1 & x1 & E1 & O & _). rewrite E in E1. by injection E1 as <- <-.
Qed.

(** The promise the framers, the codecs and the reassembler rely on, kept by any
    reachable pool. *)
Definition get_bytes (st : pools) (tag : Z) (len : nat) : bytes :=
  match MessagePoolGetDetailedWithTag st len tag with
  | Ret (st', m, _) => take (m_len m) (heap st' !!! m_buf m)
  | Panic => []
  end.
Lemma get_bytes_length n allow st tag len : shard_count n -> pool_reached n allow st -> byte_ok tag -> length (get_bytes st tag len) = len.
Proof.
  intros Hn Hr Ht. unfold get_bytes. destruct (reached_wf n allow st Hn Hr) as [W _].
  destruct (pool_get_ok messagePoolSizes n messagePoolSizes_nodup Hn st len tag W Ht) as (st1 & m & p & Eg & _ & _ & Em & Hp). rewrite Eg.
  cbv beta iota. rewrite Em. apply length_take_le. destruct p.
  - destruct Hp as (k & size & a & Hh). rewrite (list_lookup_total_correct _ _ _ (took_lookup _ _ _ _ _ (ha_took _ _ _ _ _ _ _ _ _ _ Hh))).
    rewrite (ha_length _ _ _ _ _ _ _ _ _ _ Hh). destruct (ha_class _ _ _ _ _ _ _ _ _ _ Hh) as (_ & Hle & _). lia.
  - destruct Hp as (_ & -> & ->). cbn [heap set_heap]. rewrite lookup_total_app_r, Nat.sub_diag by lia. cbn. rewrite length_replicate. lia.
Qed.
Definition pool_interface n allow st tag (Hn : shard_count n) (Hr : pool_reached n allow st) (Ht : byte_ok tag) : MessagePool :=
  {| pool_get := get_bytes st tag; pool_get_length := fun len => get_bytes_length n allow st tag len Hn Hr Ht |}.

(** ** Theorems *)

(** C17: Whatever its callers do with slices they were handed (returning one
    twice, sharing one after it was returned, writing one they gave away), the
    pool never panics and keeps its shape: the size classes and their shards stay
    as built; every free list holds untaken buffers of its class and its shard,
    none of them twice nor on another free list, and no more than its capacity;
    and the gauge of active buffers is the number of buffers that are taken. *)
Theorem message_pool_well_formed n st o :
  shard_count n -> pool_reached n (fun _ => True) st -> op_ok st o ->
  (exists st' x, pool_step st o = Ret (st', x)) /\ pool_wf messagePoolSizes n st /\
  (forall b k j size sh k' j' size' sh', shard_at st k j = Some (size, sh) -> shard_at st k' j' = Some (size', sh') ->
     b ∈ sh_pool sh -> b ∈ sh_pool sh' -> k = k' /\ j = j') /\
  ActiveBuffers (globalPoolMetrics st) = u64 (weigh (taken messagePoolSizes) (heap st)).
Proof.
  intros Hn Hr Ho. destruct (reached_wf n _ st Hn Hr) as [W A]. split; [|split; [done|split; [|done]]].
  - destruct (pool_step_ok messagePoolSizes n messagePoolSizes_nodup Hn st o W Ho) as (st' & x & E & _). by exists st', x.
  - intros b k j size sh k' j' size' sh' H1 H2. by apply (listed_at messagePoolSizes n messagePoolSizes_nodup st k j size sh b k' j' size' sh').
Qed.

(** C16: When callers return and share only what they hold, write only what they
    hold alone, and share a buffer among at most 65535 + 127 owners (the reference
    count and the shares refused past it), no caller sees another's bytes: a buffer handed out is held
    by nobody, it has the length asked for, and a copy the bytes that were given;
    every buffer that somebody holds keeps its bytes through every operation but
    a write to it, whoever shares it, returns it or trims the pool; and the free
    lists hold no buffer that anybody holds. *)
Theorem message_pool_isolation n st refs o :
  shard_count n -> pool_held n st refs -> op_ok st o -> op_legal refs o ->
  exists st' x, pool_step st o = Ret (st', x) /\
    (forall m, x = Some m -> hands_out st' refs o m) /\
    (forall b r, refs !! b = Some (S r) -> ~ writes o b -> undisturbed st st' b) /\
    (forall k j size sh b, shard_at st' k j = Some (size, sh) -> b ∈ sh_pool sh -> op_refs refs o x !! b = Some 0%nat).
Proof.
  intros Hn Hh Ho Hl. pose proof (held_owned n st refs Hn Hh) as O.
  destruct (owned_step_ok messagePoolSizes n messagePoolSizes_nodup Hn st refs o O Ho Hl) as (st' & x & E & O' & U & H). exists st', x.
  split; [done|]. split; [done|]. split; [done|]. intros k j size sh b. by apply (free_unowned messagePoolSizes n st').
Qed.

(** C19: The books of a pooled buffer are what its owners believe:
    [MessagePoolCheck] reports a buffer as pooled while somebody holds it, and
    [MessagePoolReturn] reports that it recycled the buffer to the last of its
    owners and to no other. *)
Theorem message_pool_last_owner n st refs m r k mp a :
  shard_count n -> pool_held n st refs -> slice_ok st m -> of_class st (m_buf m) k mp a -> refs !! m_buf m = Some r ->
  (exists shared, MessagePoolCheck st m = Ret (bool_decide (0 < r)%nat, shared)) /\
  ((0 < r)%nat -> exists st', MessagePoolReturn st m = Ret (st', bool_decide (r = 1)%nat)).
Proof.
  intros Hn Hh Hs Hc Hr. pose proof (held_owned n st refs Hn Hh) as O. pose proof O as [W L R]. split.
  - destruct (of_class_ok messagePoolSizes n messagePoolSizes_nodup st _ k mp a W Hc) as (Ec & Hsz & Hok & Hi & Hle). destruct Hc as [Hb Hk La].
    unfold MessagePoolCheck. rewrite (index_ret _ _ _ Hb). cbn [gbind]. rewrite Ec, !index_total by lia. cbn [gbind]. fold (shard_of (mp_size mp) a).
    rewrite Hle. destruct (index (mp_shards mp) _); [|done]. cbn [gbind]. rewrite (get_count a (mp_size mp) La). cbn [gbind].
    pose proof (R _ a r _ Hb Hr Hsz La) as Er. unfold refs_of in Er. pose proof (lookup_total_byte a (mp_size mp + 9) (bo_bytes _ _ _ Hok)) as Hfb.
    pose proof (refused_range _ Hfb) as Hrr. fold (flags_of (mp_size mp) a) in Hrr.
    assert (Hcr : 0 <= count_of (mp_size mp) a < 65536) by (apply be16_range; apply lookup_total_byte, (bo_bytes _ _ _ Hok)).
    destruct (Z.ltb_spec 0 (count_of (mp_size mp) a)); [rewrite bool_decide_true by lia; by eexists|].
    rewrite bool_decide_false; [by eexists|]. destruct (bo_refused _ _ _ Hok); lia.
  - intros Hpos. destruct r as [|r]; [lia|]. destruct (owned_return messagePoolSizes n messagePoolSizes_nodup st refs m r O Hs Hr) as (st' & x & E & _ & _ & Hx).
    specialize (Hx a k mp Hc). exists st'. rewrite E. do 2 f_equal. destruct x; symmetry; [apply bool_decide_true|apply bool_decide_false]; [|intros Hy].
    + f_equal. tauto.
    + assert (r = 0%nat) by lia. destruct Hx as [_ Hx]. by specialize (Hx H).
Qed.

(** C18: The statistics account for every buffer, whatever callers do with the
    slices they were handed, misuse included, and however often the statistics
    are reset. The difference of the totals of
    a size class is the number of its buffers that are taken, less the number
    that were taken when the statistics were last reset (none, if they never
    were); and so is the difference of the counters of one shard and one call
    site, for the buffers that came from there; modulo the width of the
    counters. *)
Theorem message_pool_totals n base st size :
  shard_count n -> pool_since n base st -> size ∈ messagePoolSizes ->
  u64 (fst (MessagePoolTotals st size) - snd (MessagePoolTotals st size)) =
    u64 (weigh (taken_of size) (heap st) - weigh (taken_of size) (heap base)) /\
  forall k j sh tag, messagePoolSizes !! k = Some size -> shard_at st k j = Some (size, sh) -> 0 <= tag < 256 ->
    u64 (takenTags sh !!! Z.to_nat tag - returnedTags sh !!! Z.to_nat tag) =
    u64 (weigh (live_at size j tag) (heap st) - weigh (live_at size j tag) (heap base)).
Proof.
  intros Hn Hr Hs. destruct (since_wf n base st Hn Hr) as [W0 W]. pose proof (since_balanced n base st Hn Hr) as B. split.
  - by apply (totals_balance messagePoolSizes n messagePoolSizes_nodup Hn base st).
  - intros k j sh tag Hk Hat Ht. apply (B k j size (takenTags sh) (returnedTags sh) tag Hk); [|done]. unfold stats_at. by rewrite Hat.
Qed.

(** One shard, and one buffer that holds a copy of three bytes. *)
Definition demo_message : message := Message 0 3.
Definition demo_pools : pools :=
  match pool_step (newPools 1) (OpCopy [1; 2; 3] 7) with Ret (st, _) => st | Panic => newPools 1 end.

Lemma demo_step : pool_step (newPools 1) (OpCopy [1; 2; 3] 7) = Ret (demo_pools, Some demo_message).
Proof.
  assert (Hx : match pool_step (newPools 1) (OpCopy [1; 2; 3] 7) with Ret (_, x) => x | Panic => None end = Some demo_message) by (vm_compute; reflexivity).
  unfold demo_pools. destruct (pool_step (newPools 1) (OpCopy [1; 2; 3] 7)) as [[st x]|]; [by rewrite Hx|done].
Qed.
Lemma demo_copy_ok : op_ok (newPools 1) (OpCopy [1; 2; 3] 7).
Proof. split; [repeat constructor|]; unfold byte_ok; lia. Qed.
Lemma demo_shards : shard_count 1.
Proof. exists 0%nat. split; [lia|done]. Qed.
Lemma demo_pools_reached (allow : pool_op -> Prop) : allow (OpCopy [1; 2; 3] 7) -> pool_reached 1 allow demo_pools.
Proof. intros Ha. exact (reached_step 1 allow _ _ _ _ (reached_new 1 allow) Ha demo_copy_ok demo_step). Qed.
Lemma demo_held : pool_held 1 demo_pools [1%nat].
Proof. exact (held_step 1 _ [] _ _ _ (held_new 1) demo_copy_ok I demo_step). Qed.
Lemma ret_pair_inj {A B} (a a' : A) (b b' : B) : Ret (a, b) = Ret (a', b') -> a = a' /\ b = b'.
Proof. by intros [= -> ->]. Qed.
Lemma demo_slice : slice_ok demo_pools demo_message.
Proof.
  pose proof (held_owned 1 _ _ demo_shards demo_held) as O.
  destruct (owned_step_ok messagePoolSizes 1 messagePoolSizes_nodup demo_shards (newPools 1) [] (OpCopy [1; 2; 3] 7)) as (st & x & E & _ & _ & H).
  - exact (held_owned 1 _ _ demo_shards (held_new 1)).
  - exact demo_copy_ok.
  - done.
  - rewrite demo_step in E. apply ret_pair_inj in E as [<- <-]. by destruct (H demo_message eq_refl) as (_ & Hs & _).
Qed.

Lemma message_pool_well_formed_witness : exists st' x, pool_step demo_pools (OpReturn demo_message) = Ret (st', x).
Proof.
  destruct (message_pool_well_formed 1 demo_pools (OpReturn demo_message)) as [H _].
  - exact demo_shards.
  - exact (demo_pools_reached (fun _ => True) I).
  - exact demo_slice.
  - exact H.
Defined.

Lemma message_pool_isolation_witness : exists st' x, pool_step demo_pools (OpWrite demo_message 1 9) = Ret (st', x).
Proof.
  destruct (message_pool_isolation 1 demo_pools [1%nat] (OpWrite demo_message 1 9)) as (st' & x & E & _).
  - exact demo_shards.
  - exact demo_held.
  - split; [exact demo_slice|]. split; [cbn; lia|unfold byte_ok; lia].
  - reflexivity.
  - exists st', x. exact E.
Defined.

Lemma message_pool_last_owner_witness : exists mp a st', of_class demo_pools 0 0 mp a /\ MessagePoolReturn demo_pools demo_message = Ret (st', true).
Proof.
  assert (Hl : match orderedMessagePools demo_pools !! 0%nat, heap demo_pools !! 0%nat with
               | Some mp, Some a => Nat.eqb (length a) (mp_size mp + 13) | _, _ => false end = true) by (vm_compute; reflexivity).
  destruct (orderedMessagePools demo_pools !! 0%nat) as [mp|] eqn:Em; [|discriminate Hl].
  destruct (heap demo_pools !! 0%nat) as [a|] eqn:Ea; [|discriminate Hl].
  assert (Hc : of_class demo_pools 0 0 mp a) by (split; [exact Ea|exact Em|exact (proj1 (Nat.eqb_eq _ _) Hl)]).
  destruct (message_pool_last_owner 1 demo_pools [1%nat] demo_message 1 0 mp a) as [_ H].
  - exact demo_shards.
  - exact demo_held.
  - exact demo_slice.
  - exact Hc.
  - reflexivity.
  - destruct (H ltac:(lia)) as [st' E]. exists mp, a, st'. split; [exact Hc|exact E].
Defined.

(** The statistics are reset while the buffer is out, and it comes back: the
    totals are 0 and 1. *)
Definition demo_reset : pools := ResetMessagePoolStats demo_pools.
Definition demo_back : pools := match pool_step demo_reset (OpReturn demo_message) with Ret (st, _) => st | Panic => demo_reset end.

Lemma message_pool_totals_witness :
  MessagePoolTotals demo_back (Z.to_nat 2048) = (0, 1) /\
  u64 (fst (MessagePoolTotals demo_back (Z.to_nat 2048)) - snd (MessagePoolTotals demo_back (Z.to_nat 2048))) =
  u64 (weigh (taken_of (Z.to_nat 2048)) (heap demo_back) - weigh (taken_of (Z.to_nat 2048)) (heap demo_reset)).
Proof.
  split; [vm_compute; reflexivity|]. destruct (message_pool_totals 1 demo_reset demo_back (Z.to_nat 2048)) as [H _].
  - exact demo_shards.
  - assert (Hr : pool_since 1 demo_reset demo_reset).
    { apply (since_reset 1 (newPools 1) demo_pools demo_reset None); [|reflexivity].
      apply (since_step 1 (newPools 1) _ _ _ _ (since_new 1)) with (2 := demo_copy_ok) (3 := demo_step). discriminate. }
    assert (Hx : match pool_step demo_reset (OpReturn demo_message) with Ret _ => true | Panic => false end = true) by (vm_compute; reflexivity).
    unfold demo_back. destruct (pool_step demo_reset (OpReturn demo_message)) as [[st x]|] eqn:E; [|discriminate Hx].
    apply (since_step 1 demo_reset demo_reset (OpReturn demo_message) st x Hr); [discriminate|exact demo_slice|exact E].
  - left.
  - exact H.
Defined.
