(* ===== verification/Framer.v ===== *)
(** The stream framer of src/message_framer.go: a four-byte header (payload
    length and a legacy split hint, both big-endian 16-bit) before each
    message, written whole, split in two, or coalesced into one batch. *)
From S2P Require Import Prelude GoIo.

Inductive framer_err :=
| ErrMaxMessageLen        (* "Max message len exceeded" *)
| ErrMaxPossibleLen       (* "Max possible message len exceeded" *)
| ErrBatchOverflow        (* "Framer batch byte count overflow." *)
| ErrStorageTooSmall      (* "Framer batch storage too small" *)
| ErrIo (e : ioerr).

Record FramerSettings := {
  fs_MaxMessageLen : Z;
  fs_SplitMinimumLen : Z;
}.

Definition DefaultFramerSettings (maxMessageLen : Z) : FramerSettings := {|
  fs_MaxMessageLen := maxMessageLen;
  fs_SplitMinimumLen := 256;
|}.

Record Framer := {
  maxFrameLen : Z;
  settings : FramerSettings;
}.

Definition NewFramer (s : FramerSettings) : Framer := {|
  maxFrameLen := i64 (fs_MaxMessageLen s + 4);
  settings := s;
|}.

Definition zlen (m : bytes) : Z := Z.of_nat (length m).

(** ** Reading *)

Definition ReadHeader (f : Framer) (r : stream) : go (stream * (nat + framer_err)) :=
  match ReadFull r 4 with
  | (r, inr e) => Ret (r, inr (ErrIo e))
  | (r, inl h) =>
      let! messageLen := get_u16 h 0 in
      if maxFrameLen f <? messageLen + 4
      then Ret (r, inr ErrMaxMessageLen)
      else Ret (r, inl (Z.to_nat messageLen))
  end.

Definition Read (f : Framer) (r : stream) : go (stream * (bytes + framer_err)) :=
  let! '(r, h) := ReadHeader f r in
  match h with
  | inr e => Ret (r, inr e)
  | inl messageLen =>
      match ReadFull r messageLen with
      | (r, inr e) => Ret (r, inr (ErrIo e))
      | (r, inl message) => Ret (r, inl message)
      end
  end.

(** [n] successive reads of one stream, stopping at the first error. *)
Fixpoint ReadN (f : Framer) (r : stream) (n : nat) : go (stream * (list bytes + framer_err)) :=
  match n with
  | O => Ret (r, inl [])
  | S n =>
      let! '(r, m) := Read f r in
      match m with
      | inr e => Ret (r, inr e)
      | inl m =>
          let! '(r, ms) := ReadN f r n in
          match ms with
          | inr e => Ret (r, inr e)
          | inl ms => Ret (r, inl (m :: ms))
          end
      end
  end.

Section writing.
Context {W : Type} {WR : Writer W} {MP : MessagePool}.

(** One [w.Write(p)] with the short-write check that follows every write. *)
Definition write_all (w : W) (p : bytes) (need : Z) : W * option framer_err :=
  let '(w, nw, e) := w_write w p in
  match e with
  | Some e => (w, Some (ErrIo e))
  | None => if Z.of_nat nw <? need then (w, Some (ErrIo ErrShortWrite)) else (w, None)
  end.

Definition Write (f : Framer) (w : W) (message : bytes) : go (W * option framer_err) :=
  let messageLen := zlen message in
  let n := length message in
  if maxFrameLen f <? messageLen + 4 then Ret (w, Some ErrMaxMessageLen)
  else if 65535 <? messageLen then Ret (w, Some ErrMaxPossibleLen)
  else if messageLen <? Z.max 16 (fs_SplitMinimumLen (settings f)) then
    let buf := pool_get (n + 4) in
    let! buf := put_u16 buf 0 (u16 messageLen) in
    let! buf := put_u16 buf 2 0 in
    let! buf := copy_into buf 4 (4 + n) message in
    let! p := slice buf 0 (n + 4) in
    Ret (write_all w p (messageLen + 4))
  else
    let splitIndex := (n / 2)%nat in
    let h := pool_get (splitIndex + 4) in
    let! first := slice message 0 splitIndex in
    let! h := put_u16 h 0 (u16 messageLen) in
    let! h := put_u16 h 2 (u16 (Z.of_nat splitIndex)) in
    let! h := copy_into h 4 (4 + splitIndex) first in
    let! p := slice h 0 (4 + splitIndex) in
    match write_all w p (4 + Z.of_nat splitIndex) with
    | (w, Some e) => Ret (w, Some e)
    | (w, None) =>
        let! second := slice message splitIndex n in
        Ret (write_all w second (messageLen - Z.of_nat splitIndex))
    end.

Fixpoint writeBatchByteCount_loop (f : Framer) (messages : list bytes) (total : Z)
  : Z + framer_err :=
  match messages with
  | [] => inl total
  | message :: rest =>
      let messageByteCount := zlen message in
      if maxFrameLen f <? messageByteCount + 4 then inr ErrMaxMessageLen
      else if 65535 <? messageByteCount then inr ErrMaxPossibleLen
      else if MaxInt64 - total <? messageByteCount + 4 then inr ErrBatchOverflow
      else writeBatchByteCount_loop f rest (total + (messageByteCount + 4))
  end.

Definition writeBatchByteCount (f : Framer) (messages : list bytes) : Z + framer_err :=
  writeBatchByteCount_loop f messages 0.

Fixpoint fillFramerBatch (messages : list bytes) (batchBytes : bytes) (offset : nat) : go bytes :=
  match messages with
  | [] => Ret batchBytes
  | message :: rest =>
      let n := length message in
      let! b := put_u16 batchBytes offset (u16 (zlen message)) in
      let! b := put_u16 b (offset + 2) 0 in
      let! b := copy_into b (offset + 4) (offset + 4 + n) message in
      fillFramerBatch rest b (offset + (n + 4))
  end.

Definition writeFramerBatch (w : W) (messages : list bytes) (batchBytes : bytes)
  : go (W * option framer_err) :=
  let! b := fillFramerBatch messages batchBytes 0 in
  Ret (write_all w b (zlen b)).

Definition WriteBatch (f : Framer) (w : W) (messages : list bytes) : go (W * option framer_err) :=
  match messages with
  | [] => Ret (w, None)
  | [message] => Write f w message
  | _ =>
      match writeBatchByteCount f messages with
      | inr e => Ret (w, Some e)
      | inl totalByteCount =>
          writeFramerBatch w messages (pool_get (Z.to_nat totalByteCount))
      end
  end.

Definition WriteBatchWithStorage (f : Framer) (w : W) (messages : list bytes) (storage : bytes)
  : go (W * option framer_err) :=
  let batch :=
    match writeBatchByteCount f messages with
    | inr e => Ret (w, Some e)
    | inl totalByteCount =>
        if zlen storage <? totalByteCount then Ret (w, Some ErrStorageTooSmall)
        else let! b := slice storage 0 (Z.to_nat totalByteCount) in
             writeFramerBatch w messages b
    end in
  match messages with
  | [] => Ret (w, None)
  | [message] => if zlen storage <? zlen message + 4 then Write f w message else batch
  | _ => batch
  end.
End writing.

(** ** The wire format and the round trip *)

(** The frame of a message with split hint [s]. *)
Definition frame (s : Z) (m : bytes) : bytes :=
  byte_of (zlen m) 8 :: byte_of (zlen m) 0 :: byte_of s 8 :: byte_of s 0 :: m.

Definition fits (f : Framer) (m : bytes) : Prop :=
  zlen m + 4 <= maxFrameLen f /\ zlen m <= 65535.

Lemma fits_len f ms : Forall (fits f) ms -> Forall (fun m => zlen m <= 65535) ms.
Proof. apply List.Forall_impl. by intros m []. Qed.

Lemma zlen_nonneg m : 0 <= zlen m.
Proof. unfold zlen. lia. Qed.

Lemma u16_zlen m : zlen m <= 65535 -> u16 (zlen m) = zlen m.
Proof. intros H. apply u16_small. pose proof (zlen_nonneg m). lia. Qed.

Lemma Read_frame f s m rest e :
  fits f m -> Read f (Stream (frame s m ++ rest) e) = Ret (Stream rest e, inl m).
Proof.
  intros [H1 H2]. pose proof (zlen_nonneg m).
  unfold Read, ReadHeader.
  rewrite (ReadFull_app_n [byte_of (zlen m) 8; byte_of (zlen m) 0; byte_of s 8; byte_of s 0]
             (m ++ rest)) by done.
  cbn [gbind get_u16 index lookup list_lookup Nat.add].
  rewrite be16_split by lia.
  rewrite (proj2 (Z.ltb_ge _ _)) by lia. cbn [gbind].
  unfold zlen. rewrite Nat2Z.id, ReadFull_app. done.
Qed.

Lemma ReadN_frames f ms rest e :
  Forall (fits f) ms ->
  ReadN f (Stream (concat (map (frame 0) ms) ++ rest) e) (length ms) = Ret (Stream rest e, inl ms).
Proof.
  induction 1 as [|m ms Hm _ IH]; [done|].
  cbn [ReadN length map concat]. rewrite <- app_assoc, Read_frame by done.
  cbn [gbind]. by rewrite IH.
Qed.

(** Filling a buffer of the right size writes header and body over whatever
    it held. *)
Lemma fill_frame {B} (buf m : bytes) v s j (k : bytes -> go B) :
  length buf = (length m + 4)%nat -> j = (4 + length m)%nat ->
  (let! b := put_u16 buf 0 v in
   let! b := put_u16 b 2 s in
   gbind (copy_into b 4 j m) k) =
  k (byte_of v 8 :: byte_of v 0 :: byte_of s 8 :: byte_of s 0 :: m).
Proof.
  intros L ->. destruct (length_cons4 buf) as (x & y & z & w & r & ->); [lia|].
  simpl in L.
  pose proof (put_u16_app [] (z :: w :: r) x y v 0 eq_refl) as E1. cbn [app] in E1.
  rewrite E1. cbn [gbind].
  pose proof (put_u16_app [byte_of v 8; byte_of v 0] r z w s 2 eq_refl) as E2. cbn [app] in E2.
  rewrite E2. cbn [gbind].
  pose proof (copy_into_app [byte_of v 8; byte_of v 0; byte_of s 8; byte_of s 0] r [] m 4 (4 + length m)
                eq_refl eq_refl ltac:(lia)) as E3.
  rewrite !app_nil_r in E3. cbn [app] in E3. by rewrite E3.
Qed.

Section write_facts.
Context {W : Type} {WR : Writer W} {MP : MessagePool}.

Lemma write_all_ok (w : W) p need w' :
  write_all w p need = (w', None) -> zlen p <= need -> w_out w' = w_out w ++ p.
Proof.
  unfold write_all. destruct (w_write w p) as [[w1 nw] e] eqn:E.
  destruct e as [e|]; [discriminate|].
  destruct (Z.of_nat nw <? need) eqn:En; [discriminate|].
  intros [= <-] Hn. apply Z.ltb_ge in En. unfold zlen in Hn.
  rewrite (w_write_out _ _ _ _ _ E). rewrite firstn_all2 by lia. done.
Qed.

(** What [Write] hands to the writer: the whole frame, or its two halves. *)
Lemma Write_calls f (w : W) m :
  fits f m ->
  Write f w m =
    if zlen m <? Z.max 16 (fs_SplitMinimumLen (settings f))
    then Ret (write_all w (frame 0 m) (zlen m + 4))
    else
      let k := (length m / 2)%nat in
      match write_all w (take (4 + k) (frame (Z.of_nat k) m)) (4 + Z.of_nat k) with
      | (w, Some e) => Ret (w, Some e)
      | (w, None) => Ret (write_all w (drop k m) (zlen m - Z.of_nat k))
      end.
Proof.
  intros [H1 H2]. unfold Write.
  rewrite (proj2 (Z.ltb_ge _ _)), (proj2 (Z.ltb_ge 65535 _)) by lia.
  rewrite u16_zlen by done.
  destruct (zlen m <? _).
  - rewrite fill_frame by (rewrite ?pool_get_length; lia).
    by rewrite slice_all by (simpl; lia).
  - set (k := (length m / 2)%nat).
    assert (k <= length m)%nat by (apply Nat.Div0.div_le_upper_bound; lia).
    assert (length (take k m) = k) by (rewrite length_take; lia).
    rewrite slice_0 by lia. cbn [gbind].
    rewrite fill_frame by (rewrite ?pool_get_length; lia).
    rewrite slice_all by (simpl; lia). cbn [gbind].
    rewrite (u16_small (Z.of_nat k)) by (unfold zlen in H2; lia).
    cbn [Nat.add take frame].
    destruct (write_all w _ _) as [w1 [e|]]; [done|].
    by rewrite slice_end by lia.
Qed.

Lemma fillFramerBatch_spec ms pre buf :
  Forall (fun m => zlen m <= 65535) ms ->
  length buf = length (concat (map (frame 0) ms)) ->
  fillFramerBatch ms (pre ++ buf) (length pre) = Ret (pre ++ concat (map (frame 0) ms)).
Proof.
  intros H. revert pre buf. induction H as [|m ms Hm _ IH]; intros pre buf L.
  - simpl in *. apply nil_length_inv in L as ->. done.
  - cbn [map concat] in L. rewrite length_app in L. cbn [length frame] in L.
    destruct (length_cons4 buf) as (x & y & z & v & r & ->); [lia|].
    destruct (length_split r (length m)) as (b & c & -> & Hb); [simpl in L; lia|].
    cbn [fillFramerBatch]. rewrite u16_zlen by done.
    rewrite put_u16_app by done. cbn [gbind].
    replace (pre ++ _ :: _ :: z :: v :: b ++ c)
      with ((pre ++ [byte_of (zlen m) 8; byte_of (zlen m) 0]) ++ z :: v :: b ++ c)
      by (by rewrite <- app_assoc).
    rewrite put_u16_app by (rewrite length_app; done). cbn [gbind].
    replace ((pre ++ _) ++ _ :: _ :: b ++ c)
      with ((pre ++ [byte_of (zlen m) 8; byte_of (zlen m) 0; byte_of 0 8; byte_of 0 0]) ++ b ++ c)
      by (by rewrite <- !app_assoc).
    rewrite copy_into_app by (rewrite ?length_app; simpl; lia). cbn [gbind].
    rewrite app_assoc.
    replace (length pre + (length m + 4))%nat
      with (length ((pre ++ [byte_of (zlen m) 8; byte_of (zlen m) 0; byte_of 0 8; byte_of 0 0]) ++ m))
      by (rewrite !length_app; simpl; lia).
    rewrite IH; [by rewrite <- !app_assoc|].
    simpl in L. rewrite length_app in L. lia.
Qed.

Lemma writeBatchByteCount_ok f ms total n :
  writeBatchByteCount_loop f ms total = inl n ->
  Forall (fits f) ms /\ n = total + Z.of_nat (length (concat (map (frame 0) ms))).
Proof.
  revert total. induction ms as [|m ms IH]; intros total; cbn [writeBatchByteCount_loop].
  - intros [= <-]. split; [done|simpl; lia].
  - destruct (Z.ltb_spec (maxFrameLen f) (zlen m + 4)); [discriminate|].
    destruct (Z.ltb_spec 65535 (zlen m)); [discriminate|].
    destruct (Z.ltb_spec (MaxInt64 - total) (zlen m + 4)); [discriminate|].
    intros [IHf ->]%IH. split; [constructor; [split; lia|done]|].
    cbn [map concat]. rewrite length_app. unfold zlen. cbn [length frame]. lia.
Qed.

Lemma writeBatchByteCount_fits f ms total :
  Forall (fits f) ms ->
  total + Z.of_nat (length (concat (map (frame 0) ms))) <= MaxInt64 ->
  exists n, writeBatchByteCount_loop f ms total = inl n.
Proof.
  intros H. revert total. induction H as [|m ms [H1 H2] _ IH]; intros total L; [by eexists|].
  cbn [map concat] in L. rewrite length_app in L. cbn [length frame] in L.
  cbn [writeBatchByteCount_loop]. unfold zlen in *.
  rewrite (proj2 (Z.ltb_ge _ _)), (proj2 (Z.ltb_ge 65535 _)), (proj2 (Z.ltb_ge _ _)) by lia.
  apply IH. lia.
Qed.

Lemma writeFramerBatch_spec (w : W) ms buf :
  Forall (fun m => zlen m <= 65535) ms ->
  length buf = length (concat (map (frame 0) ms)) ->
  writeFramerBatch w ms buf =
    Ret (write_all w (concat (map (frame 0) ms)) (zlen (concat (map (frame 0) ms)))).
Proof.
  intros H L. unfold writeFramerBatch.
  pose proof (fillFramerBatch_spec ms [] buf H L) as E. cbn [app length] in E.
  by rewrite E.
Qed.

Lemma Write_wire f (w w' : W) m :
  Write f w m = Ret (w', None) ->
  fits f m /\ exists s, w_out w' = w_out w ++ frame s m.
Proof.
  intros E. assert (Hf : fits f m).
  { unfold Write in E. destruct (Z.ltb_spec (maxFrameLen f) (zlen m + 4)); [discriminate|].
    destruct (Z.ltb_spec 65535 (zlen m)); [discriminate|]. split; lia. }
  split; [done|]. rewrite Write_calls in E by done.
  assert (Hk : (length m / 2 <= length m)%nat) by (apply Nat.Div0.div_le_upper_bound; lia).
  revert E Hk. generalize (length m / 2)%nat. intros k E Hk.
  destruct (zlen m <? _).
  - exists 0. apply (write_all_ok _ _ (zlen m + 4)); [congruence|unfold zlen; simpl; lia].
  - exists (Z.of_nat k). cbv zeta in E.
    destruct (write_all w _ _) as [w1 [e|]] eqn:E1; [discriminate|].
    apply write_all_ok in E1; [|unfold zlen; rewrite length_take; simpl; lia].
    injection E as E. apply write_all_ok in E; [|unfold zlen; rewrite length_drop; lia].
    rewrite E, E1, <- app_assoc. f_equal. cbn [Nat.add take frame app].
    by rewrite take_drop.
Qed.

Lemma writeFramerBatch_wire f (w w' : W) ms buf n :
  writeBatchByteCount f ms = inl n -> length buf = Z.to_nat n ->
  writeFramerBatch w ms buf = Ret (w', None) ->
  Forall (fits f) ms /\ w_out w' = w_out w ++ concat (map (frame 0) ms).
Proof.
  intros [Hf Hn]%writeBatchByteCount_ok L E. split; [done|].
  rewrite writeFramerBatch_spec in E; [|by apply (fits_len f)|lia].
  injection E as E. by apply write_all_ok in E.
Qed.

(** A batch that was written leaves frames of exactly its messages, in
    order, on the stream. *)
Lemma WriteBatch_wire f (w w' : W) ms storage :
  WriteBatch f w ms = Ret (w', None) \/
  WriteBatchWithStorage f w ms storage = Ret (w', None) ->
  Forall (fits f) ms /\
  exists ss, length ss = length ms /\
    w_out w' = w_out w ++ concat (zip_with frame ss ms).
Proof.
  assert (Hone : forall m, Write f w m = Ret (w', None) ->
    Forall (fits f) [m] /\ exists ss, length ss = 1%nat /\
      w_out w' = w_out w ++ concat (zip_with frame ss [m])).
  { intros m (Hf & s & Hs)%Write_wire. split; [by constructor|].
    exists [s]. cbn. by rewrite app_nil_r. }
  assert (Hmany : forall n buf, writeBatchByteCount f ms = inl n -> length buf = Z.to_nat n ->
    writeFramerBatch w ms buf = Ret (w', None) ->
    Forall (fits f) ms /\ exists ss, length ss = length ms /\
      w_out w' = w_out w ++ concat (zip_with frame ss ms)).
  { intros n buf H1 H2 H3. destruct (writeFramerBatch_wire f w w' ms buf n H1 H2 H3) as [Hf Ho].
    split; [done|]. exists (replicate (length ms) 0). split; [apply length_replicate|].
    rewrite Ho. f_equal. f_equal. clear. induction ms; simpl; congruence. }
  assert (Hnil : Ret (w, None) = Ret (w', @None framer_err) ->
    Forall (fits f) [] /\ exists ss, length ss = 0%nat /\ w_out w' = w_out w ++ concat (zip_with frame ss [])).
  { intros [= <-]. split; [done|]. exists []. cbn. by rewrite app_nil_r. }
  intros [E|E].
  - destruct ms as [|m [|m2 ms]]; [by apply Hnil|by apply Hone|].
    unfold WriteBatch in E. destruct (writeBatchByteCount _ _) as [n|] eqn:En; [|discriminate].
    eapply Hmany; [done| |done]. apply pool_get_length.
  - unfold WriteBatchWithStorage in E.
    set (batch := match writeBatchByteCount f ms with inl _ => _ | inr _ => _ end) in E.
    assert (Hb : batch = Ret (w', None) -> Forall (fits f) ms /\ exists ss, length ss = length ms /\
      w_out w' = w_out w ++ concat (zip_with frame ss ms)).
    { unfold batch. destruct (writeBatchByteCount f ms) as [n|] eqn:En; [|discriminate].
      destruct (Z.ltb_spec (zlen storage) n); [discriminate|].
      rewrite slice_0 by (unfold zlen in *; lia). cbn [gbind].
      intros Eb. eapply Hmany; [done| |done]. rewrite length_take. unfold zlen in *. lia. }
    destruct ms as [|m [|m2 ms]]; [by apply Hnil| |by apply Hb].
    destruct (zlen storage <? zlen m + 4); [by apply Hone|by apply Hb].
Qed.

Lemma ReadN_zip f ss ms rest e :
  Forall (fits f) ms -> length ss = length ms ->
  ReadN f (Stream (concat (zip_with frame ss ms) ++ rest) e) (length ms) = Ret (Stream rest e, inl ms).
Proof.
  intros H. revert ss. induction H as [|m ms Hm _ IH]; intros [|s ss] L; try done.
  cbn [ReadN length zip_with concat]. rewrite <- app_assoc, Read_frame by done.
  cbn [gbind]. rewrite IH by (simpl in L; lia). done.
Qed.
End write_facts.

(** * Properties *)

(** C25: A message written without error is read back exactly: whatever the
    buffer pool hands out and however the writer accepts the bytes, the bytes
    that reached the stream decode (under any receiving limit that admits the
    message) to the message, consuming exactly its frame. *)
Theorem framer_roundtrip {W} {WR : Writer W} {MP : MessagePool}
    (f f2 : Framer) (w w' : W) (m : bytes) :
  Write f w m = Ret (w', None) ->
  zlen m + 4 <= maxFrameLen f2 ->
  exists wire, w_out w' = w_out w ++ wire /\
    forall rest e, Read f2 (Stream (wire ++ rest) e) = Ret (Stream rest e, inl m).
Proof.
  intros (Hf & s & Hs)%Write_wire H2. exists (frame s m). split; [done|].
  intros rest e. apply Read_frame. destruct Hf. split; lia.
Qed.

Definition demo_framer : Framer := NewFramer (DefaultFramerSettings 1000).

Lemma framer_roundtrip_witness :
  exists wire, [9; 1; 44; 0; 150] ++ replicate 300 7 = [9] ++ wire /\
    forall rest e, Read demo_framer (Stream (wire ++ rest) e) = Ret (Stream rest e, inl (replicate 300 7)).
Proof.
  refine (framer_roundtrip demo_framer demo_framer (Sink [9] [])
            (Sink ([9; 1; 44; 0; 150] ++ replicate 300 7) []) (replicate 300 7) _ _);
    [vm_compute; reflexivity|vm_compute; discriminate].
Defined.

(** C26: A batch written without error, through either batch entry point and
    with any caller-owned storage, is read back as the same messages in the
    same order, with nothing left over. *)
Theorem framer_batch_roundtrip {W} {WR : Writer W} {MP : MessagePool}
    (f : Framer) (w w' : W) (ms : list bytes) (storage : bytes) :
  WriteBatch f w ms = Ret (w', None) \/
  WriteBatchWithStorage f w ms storage = Ret (w', None) ->
  exists wire, w_out w' = w_out w ++ wire /\
    forall rest e, ReadN f (Stream (wire ++ rest) e) (length ms) = Ret (Stream rest e, inl ms).
Proof.
  intros (Hf & ss & Hl & Ho)%WriteBatch_wire. exists (concat (zip_with frame ss ms)).
  split; [done|]. intros rest e. by apply ReadN_zip.
Qed.

Lemma framer_batch_roundtrip_witness :
  exists wire, [0; 2; 0; 0; 1; 2; 0; 0; 0; 0; 0; 1; 0; 0; 3] = [] ++ wire /\
    forall rest e, ReadN demo_framer (Stream (wire ++ rest) e) 3 = Ret (Stream rest e, inl [[1; 2]; []; [3]]).
Proof.
  refine (framer_batch_roundtrip demo_framer (Sink [] [])
            (Sink [0; 2; 0; 0; 1; 2; 0; 0; 0; 0; 0; 1; 0; 0; 3] []) [[1; 2]; []; [3]] [] _).
  left. vm_compute. reflexivity.
Defined.

(** A batch with any message over the framer's limits is rejected before
    the writer is called: both entry points return an error and the writer is
    untouched. *)
Theorem framer_batch_reject {W} {WR : Writer W} {MP : MessagePool}
    (f : Framer) (w : W) (ms : list bytes) (storage : bytes) :
  ~ Forall (fits f) ms ->
  (exists e, WriteBatch f w ms = Ret (w, Some e)) /\
  (exists e, WriteBatchWithStorage f w ms storage = Ret (w, Some e)).
Proof.
  intros Hnf.
  assert (Hc : exists e, writeBatchByteCount f ms = inr e).
  { destruct (writeBatchByteCount f ms) as [n|e] eqn:E; [|eauto].
    by apply writeBatchByteCount_ok in E as []. }
  assert (Hone : forall m, ms = [m] -> exists e, Write f w m = Ret (w, Some e)).
  { intros m ->. unfold Write.
    destruct (Z.ltb_spec (maxFrameLen f) (zlen m + 4)); [eauto|].
    destruct (Z.ltb_spec 65535 (zlen m)); [eauto|].
    destruct Hnf. repeat constructor; lia. }
  destruct Hc as [e He]. unfold WriteBatch, WriteBatchWithStorage.
  destruct ms as [|m [|m2 ms]]; [by destruct Hnf| |rewrite He; eauto].
  rewrite He. destruct (Hone m eq_refl). destruct (_ <? _); eauto.
Qed.

Lemma framer_batch_reject_witness :
  exists e, WriteBatch demo_framer (Sink [5] []) [[1]; replicate 1001 0] = Ret (Sink [5] [], Some e).
Proof.
  apply (framer_batch_reject demo_framer (Sink [5] []) [[1]; replicate 1001 0] []).
  intros H. apply Forall_cons_1 in H as [_ H]. apply Forall_cons_1 in H as [[H _] _].
  vm_compute in H. apply H. reflexivity.
Defined.
