(* ===== verification/FramerXl.v ===== *)
(** The large-message framer of src/message_framer_xl.go: a four-byte 32-bit
    big-endian length before each message, settings validated once at
    construction, and multi-message batches bounded independently of the
    message size. *)
From S2P Require Import Prelude GoIo Framer.

Definition framerXlHeaderLen : Z := 4.
Definition framerXlDefaultBatchLen : Z := 16 * 1024.
Definition MessagePoolMetaByteCount : Z := 13.
Definition MaxUint32 : Z := 4294967295.

Inductive xl_err :=
| XlSettingsRequired
| XlBadMaxMessageLen
| XlBadMaxBatchLen
| XlMessageTooLong        (* "FramerXl message length %d exceeds maximum %d" *)
| XlBatchTooLong          (* "FramerXl batch length %d exceeds maximum %d" *)
| XlBatchOverflow         (* "FramerXl batch byte count overflow" *)
| XlStorageTooSmall       (* "FramerXl batch storage too small" *)
| XlIo (e : ioerr).

Record FramerXlSettings := {
  xs_MaxMessageLen : Z;
  xs_MaxBatchLen : Z;
}.

Definition DefaultFramerXlSettings (maxMessageLen : Z) : FramerXlSettings := {|
  xs_MaxMessageLen := maxMessageLen;
  xs_MaxBatchLen := framerXlDefaultBatchLen;
|}.

Record FramerXl := {
  maxMessageLen : Z;
  maxBatchLen : Z;
  settingsErr : option xl_err;
}.

(** [settings] is nil as [None]. *)
Definition NewFramerXl (settings : option FramerXlSettings) : FramerXl :=
  match settings with
  | None => {| maxMessageLen := 0; maxBatchLen := 0; settingsErr := Some XlSettingsRequired |}
  | Some s => {|
      maxMessageLen := xs_MaxMessageLen s;
      maxBatchLen := xs_MaxBatchLen s;
      settingsErr :=
        if (xs_MaxMessageLen s <? 0) || (MaxUint32 <? u64 (xs_MaxMessageLen s)) ||
           (MaxInt64 - framerXlHeaderLen - MessagePoolMetaByteCount <? xs_MaxMessageLen s)
        then Some XlBadMaxMessageLen
        else if (xs_MaxBatchLen s <? framerXlHeaderLen) ||
                (MaxInt64 - MessagePoolMetaByteCount <? xs_MaxBatchLen s)
        then Some XlBadMaxBatchLen
        else None
    |}
  end.

Definition XlReadHeader (f : FramerXl) (r : stream) : go (stream * (nat + xl_err)) :=
  match settingsErr f with
  | Some e => Ret (r, inr e)
  | None =>
      match ReadFull r 4 with
      | (r, inr e) => Ret (r, inr (XlIo e))
      | (r, inl header) =>
          let! wireLen := get_u32 header 0 in
          if u64 (maxMessageLen f) <? wireLen then Ret (r, inr XlMessageTooLong)
          else Ret (r, inl (Z.to_nat wireLen))
      end
  end.

Definition XlRead (f : FramerXl) (r : stream) : go (stream * (bytes + xl_err)) :=
  let! '(r, h) := XlReadHeader f r in
  match h with
  | inr e => Ret (r, inr e)
  | inl messageLen =>
      match ReadFull r messageLen with
      | (r, inr e) => Ret (r, inr (XlIo e))
      | (r, inl message) => Ret (r, inl message)
      end
  end.

Fixpoint XlReadN (f : FramerXl) (r : stream) (n : nat) : go (stream * (list bytes + xl_err)) :=
  match n with
  | O => Ret (r, inl [])
  | S n =>
      let! '(r, m) := XlRead f r in
      match m with
      | inr e => Ret (r, inr e)
      | inl m =>
          let! '(r, ms) := XlReadN f r n in
          match ms with
          | inr e => Ret (r, inr e)
          | inl ms => Ret (r, inl (m :: ms))
          end
      end
  end.

Definition validateMessageLen (f : FramerXl) (messageLen : Z) : option xl_err :=
  match settingsErr f with
  | Some e => Some e
  | None =>
      if (messageLen <? 0) || (maxMessageLen f <? messageLen)
      then Some XlMessageTooLong else None
  end.

Definition framerXlAddFrameByteCount (total messageLen : Z) : Z + xl_err :=
  if (total <? 0) || (messageLen <? 0) || (MaxInt64 - framerXlHeaderLen - total <? messageLen)
  then inr XlBatchOverflow
  else inl (total + framerXlHeaderLen + messageLen).

Fixpoint xlBatchByteCount_loop (f : FramerXl) (many : bool) (messages : list bytes) (total : Z)
  : Z + xl_err :=
  match messages with
  | [] => inl total
  | message :: rest =>
      match validateMessageLen f (zlen message) with
      | Some e => inr e
      | None =>
          match framerXlAddFrameByteCount total (zlen message) with
          | inr e => inr e
          | inl total =>
              if many && (maxBatchLen f <? total) then inr XlBatchTooLong
              else xlBatchByteCount_loop f many rest total
          end
      end
  end.

Definition xlBatchByteCount (f : FramerXl) (messages : list bytes) : Z + xl_err :=
  match settingsErr f with
  | Some e => inr e
  | None => xlBatchByteCount_loop f (1 <? length messages)%nat messages 0
  end.

Fixpoint fillFramerXlBatch (messages : list bytes) (storage : bytes) (offset : nat) : go bytes :=
  match messages with
  | [] => Ret storage
  | message :: rest =>
      let! s := put_u32 storage offset (u32 (zlen message)) in
      let! s := copy_into s (offset + 4) (offset + 4 + length message) message in
      fillFramerXlBatch rest s (offset + 4 + length message)
  end.

Section writing.
Context {W : Type} {WR : Writer W} {MP : MessagePool}.

Definition writeFramerXlBytes (w : W) (message : bytes) : W * option xl_err :=
  let '(w, n, e) := w_write w message in
  match e with
  | Some e => (w, Some (XlIo e))
  | None => if (n =? length message)%nat then (w, None) else (w, Some (XlIo ErrShortWrite))
  end.

Definition XlWrite (f : FramerXl) (w : W) (message : bytes) : go (W * option xl_err) :=
  match validateMessageLen f (zlen message) with
  | Some e => Ret (w, Some e)
  | None =>
      let frame := pool_get (length message + 4) in
      let! frame := put_u32 frame 0 (u32 (zlen message)) in
      let! frame := copy_into frame 4 (length frame) message in
      Ret (writeFramerXlBytes w frame)
  end.

Definition writeFramerXlBatch (w : W) (messages : list bytes) (storage : bytes)
  : go (W * option xl_err) :=
  let! s := fillFramerXlBatch messages storage 0 in
  Ret (writeFramerXlBytes w s).

Definition XlWriteBatch (f : FramerXl) (w : W) (messages : list bytes) : go (W * option xl_err) :=
  match settingsErr f with
  | Some e => Ret (w, Some e)
  | None =>
      match messages with
      | [] => Ret (w, None)
      | [message] => XlWrite f w message
      | _ =>
          match xlBatchByteCount f messages with
          | inr e => Ret (w, Some e)
          | inl byteCount => writeFramerXlBatch w messages (pool_get (Z.to_nat byteCount))
          end
      end
  end.

Definition XlWriteBatchWithStorage (f : FramerXl) (w : W) (messages : list bytes) (storage : bytes)
  : go (W * option xl_err) :=
  match settingsErr f with
  | Some e => Ret (w, Some e)
  | None =>
      match messages with
      | [] => Ret (w, None)
      | first :: others =>
          match xlBatchByteCount f messages with
          | inr e => Ret (w, Some e)
          | inl byteCount =>
              if zlen storage <? byteCount then
                match others with
                | [] => XlWrite f w first
                | _ => Ret (w, Some XlStorageTooSmall)
                end
              else
                let! s := slice storage 0 (Z.to_nat byteCount) in
                writeFramerXlBatch w messages s
          end
      end
  end.
End writing.

(** ** The wire format *)

Definition xframe (m : bytes) : bytes :=
  byte_of (zlen m) 24 :: byte_of (zlen m) 16 :: byte_of (zlen m) 8 :: byte_of (zlen m) 0 :: m.

Definition xfits (f : FramerXl) (m : bytes) : Prop :=
  zlen m <= maxMessageLen f /\ zlen m <= MaxUint32.

(** What construction guarantees of a framer without a settings error. *)
Definition xl_valid (f : FramerXl) : Prop :=
  settingsErr f = None /\ 0 <= maxMessageLen f <= MaxUint32.

Lemma XlRead_frame f m rest e :
  xl_valid f -> zlen m <= maxMessageLen f ->
  XlRead f (Stream (xframe m ++ rest) e) = Ret (Stream rest e, inl m).
Proof.
  intros [Hs Hm] Hl. pose proof (zlen_nonneg m). unfold MaxUint32 in *.
  unfold XlRead, XlReadHeader. rewrite Hs.
  rewrite (ReadFull_app_n [byte_of (zlen m) 24; byte_of (zlen m) 16; byte_of (zlen m) 8; byte_of (zlen m) 0]
             (m ++ rest)) by done.
  cbn [gbind get_u32 index lookup list_lookup Nat.add].
  rewrite be32_split, u64_small by lia.
  rewrite (proj2 (Z.ltb_ge _ _)) by lia. cbn [gbind].
  unfold zlen. rewrite Nat2Z.id, ReadFull_app. done.
Qed.

Lemma XlReadN_frames f ms rest e :
  xl_valid f -> Forall (fun m => zlen m <= maxMessageLen f) ms ->
  XlReadN f (Stream (concat (map xframe ms) ++ rest) e) (length ms) = Ret (Stream rest e, inl ms).
Proof.
  intros Hv. induction 1 as [|m ms Hm _ IH]; [done|].
  cbn [XlReadN length map concat]. rewrite <- app_assoc, XlRead_frame by done.
  cbn [gbind]. by rewrite IH.
Qed.

Lemma u32_zlen f m : xl_valid f -> zlen m <= maxMessageLen f -> u32 (zlen m) = zlen m.
Proof.
  intros [_ Hm] Hl. unfold MaxUint32 in Hm. apply u32_small. pose proof (zlen_nonneg m). lia.
Qed.

Lemma fillFramerXlBatch_spec f ms pre buf :
  xl_valid f -> Forall (fun m => zlen m <= maxMessageLen f) ms ->
  length buf = length (concat (map xframe ms)) ->
  fillFramerXlBatch ms (pre ++ buf) (length pre) = Ret (pre ++ concat (map xframe ms)).
Proof.
  intros Hv H. revert pre buf. induction H as [|m ms Hm _ IH]; intros pre buf L.
  - simpl in *. apply nil_length_inv in L as ->. done.
  - cbn [map concat] in L. rewrite length_app in L. cbn [length xframe] in L.
    destruct (length_cons4 buf) as (x & y & z & v & r & ->); [lia|].
    destruct (length_split r (length m)) as (b & c & -> & Hb); [simpl in L; lia|].
    cbn [fillFramerXlBatch]. rewrite (u32_zlen f) by done.
    rewrite put_u32_app by done. cbn [gbind].
    set (h := [byte_of (zlen m) 24; byte_of (zlen m) 16; byte_of (zlen m) 8; byte_of (zlen m) 0]).
    replace (pre ++ _ :: _ :: _ :: _ :: b ++ c) with ((pre ++ h) ++ b ++ c) by (by rewrite <- app_assoc).
    rewrite copy_into_app by (rewrite ?length_app; simpl; lia). cbn [gbind].
    rewrite app_assoc.
    replace (length pre + 4 + length m)%nat with (length ((pre ++ h) ++ m))
      by (rewrite !length_app; simpl; lia).
    rewrite IH; [by rewrite <- !app_assoc|].
    simpl in L. rewrite length_app in L. lia.
Qed.

Lemma xlBatchByteCount_ok f many ms total n :
  settingsErr f = None ->
  xlBatchByteCount_loop f many ms total = inl n ->
  Forall (fun m => zlen m <= maxMessageLen f) ms /\
  n = total + zlen (concat (map xframe ms)) /\
  (many = true -> ms <> [] -> n <= maxBatchLen f).
Proof.
  intros Hs. revert total. induction ms as [|m ms IH]; intros total; cbn [xlBatchByteCount_loop].
  - intros [= <-]. split; [done|]. unfold zlen. simpl. split; [lia|done].
  - unfold validateMessageLen. rewrite Hs.
    destruct (Z.ltb_spec (maxMessageLen f) (zlen m)); [rewrite orb_true_r; discriminate|].
    destruct (_ || _); [discriminate|].
    unfold framerXlAddFrameByteCount. destruct (_ || _ || _); [discriminate|].
    destruct (many && _) eqn:Em; [discriminate|].
    intros (H1 & H2 & H3)%IH. split; [by constructor|].
    split.
    + rewrite H2. unfold zlen, framerXlHeaderLen. cbn [map concat]. rewrite length_app. cbn [length xframe]. lia.
    + intros -> _. cbn in Em. apply Z.ltb_ge in Em.
      destruct ms as [|m2 ms]; [|by apply H3].
      rewrite H2. unfold zlen at 2. simpl. lia.
Qed.

Section write_facts.
Context {W : Type} {WR : Writer W} {MP : MessagePool}.

Lemma writeFramerXlBytes_ok (w w' : W) p :
  writeFramerXlBytes w p = (w', None) -> w_out w' = w_out w ++ p.
Proof.
  unfold writeFramerXlBytes. destruct (w_write w p) as [[w1 n] e] eqn:E.
  destruct e; [discriminate|]. destruct (Nat.eqb_spec n (length p)) as [->|]; [|discriminate].
  intros [= <-]. rewrite (w_write_out _ _ _ _ _ E). by rewrite firstn_all.
Qed.

Lemma XlWrite_wire f (w w' : W) m :
  xl_valid f -> XlWrite f w m = Ret (w', None) ->
  zlen m <= maxMessageLen f /\ w_out w' = w_out w ++ xframe m.
Proof.
  intros Hv. unfold XlWrite, validateMessageLen. rewrite (proj1 Hv).
  destruct (Z.ltb_spec (maxMessageLen f) (zlen m)); [rewrite orb_true_r; discriminate|].
  destruct (_ || _); [discriminate|]. intros E. split; [lia|].
  rewrite (u32_zlen f) in E by done.
  destruct (length_cons4 (pool_get (length m + 4))) as (x & y & z & v & r & Er).
  { rewrite pool_get_length. lia. }
  pose proof (pool_get_length (length m + 4)) as L. rewrite Er in *. simpl in L.
  pose proof (put_u32_app [] r x y z v (zlen m) 0 eq_refl) as E1. cbn [app] in E1.
  rewrite E1 in E. cbn [gbind] in E.
  rewrite copy_into_all in E by (simpl; lia). cbn [gbind take app] in E.
  injection E as E. by apply writeFramerXlBytes_ok in E.
Qed.

Lemma writeFramerXlBatch_wire f (w w' : W) ms buf n :
  xl_valid f -> xlBatchByteCount f ms = inl n -> length buf = Z.to_nat n ->
  writeFramerXlBatch w ms buf = Ret (w', None) ->
  Forall (fun m => zlen m <= maxMessageLen f) ms /\
  w_out w' = w_out w ++ concat (map xframe ms) /\
  ((1 < length ms)%nat -> zlen (concat (map xframe ms)) <= maxBatchLen f).
Proof.
  intros Hv Hc L E. unfold xlBatchByteCount in Hc. rewrite (proj1 Hv) in Hc.
  apply xlBatchByteCount_ok in Hc as (H1 & H2 & H3); [|apply Hv].
  split; [done|]. split.
  - unfold writeFramerXlBatch in E.
    pose proof (fillFramerXlBatch_spec f ms [] buf Hv H1) as Ef. cbn [app length] in Ef.
    rewrite Ef in E by (unfold zlen in H2; lia).
    injection E as E. by apply writeFramerXlBytes_ok in E.
  - intros Hl. rewrite H2 in H3. rewrite Z.add_0_l in H3.
    apply H3; [by apply Nat.ltb_lt|]. intros ->. simpl in Hl. lia.
Qed.
End write_facts.

(** * Properties *)

(** Messages written without error by any FramerXl entry point (a single
    write, a batch, or a batch into caller storage) are read back as the same
    messages in order with nothing left over, and a multi-message batch never
    puts more than MaxBatchLen bytes on the wire. *)
Theorem framerxl_roundtrip {W} {WR : Writer W} {MP : MessagePool}
    (f : FramerXl) (w w' : W) (ms : list bytes) (storage : bytes) :
  xl_valid f ->
  (exists m, ms = [m] /\ XlWrite f w m = Ret (w', None)) \/
  XlWriteBatch f w ms = Ret (w', None) \/
  XlWriteBatchWithStorage f w ms storage = Ret (w', None) ->
  exists wire, w_out w' = w_out w ++ wire /\
    (forall rest e, XlReadN f (Stream (wire ++ rest) e) (length ms) = Ret (Stream rest e, inl ms)) /\
    ((1 < length ms)%nat -> zlen wire <= maxBatchLen f).
Proof.
  intros Hv HW. exists (concat (map xframe ms)).
  cut (Forall (fun m => zlen m <= maxMessageLen f) ms /\
       w_out w' = w_out w ++ concat (map xframe ms) /\
       ((1 < length ms)%nat -> zlen (concat (map xframe ms)) <= maxBatchLen f)).
  { intros (H1 & H2 & H3). split; [done|]. split; [|done].
    intros rest e. by apply XlReadN_frames. }
  assert (Hone : forall m, XlWrite f w m = Ret (w', None) ->
    Forall (fun m => zlen m <= maxMessageLen f) [m] /\ w_out w' = w_out w ++ concat (map xframe [m]) /\
    ((1 < length [m])%nat -> zlen (concat (map xframe [m])) <= maxBatchLen f)).
  { intros m [H1 H2]%XlWrite_wire; [|done]. split; [by constructor|].
    cbn [map concat]. rewrite app_nil_r. split; [done|simpl; lia]. }
  assert (Hnil : Ret (w, None) = Ret (w', @None xl_err) ->
    Forall (fun m => zlen m <= maxMessageLen f) [] /\ w_out w' = w_out w ++ concat (map xframe []) /\
    ((1 < length (@nil bytes))%nat -> zlen (concat (map xframe [])) <= maxBatchLen f)).
  { intros [= <-]. cbn. rewrite app_nil_r. split; [done|split; [done|lia]]. }
  destruct HW as [(m & -> & HW)|[HW|HW]]; [by apply Hone|..].
  - unfold XlWriteBatch in HW. rewrite (proj1 Hv) in HW.
    destruct ms as [|m [|m2 ms]]; [by apply Hnil|by apply Hone|].
    destruct (xlBatchByteCount _ _) as [n|] eqn:En; [|discriminate].
    eapply writeFramerXlBatch_wire; [done..| |done]. apply pool_get_length.
  - unfold XlWriteBatchWithStorage in HW. rewrite (proj1 Hv) in HW.
    destruct ms as [|m ms]; [by apply Hnil|].
    destruct (xlBatchByteCount _ _) as [n|] eqn:En; [|discriminate].
    destruct (Z.ltb_spec (zlen storage) n) as [|Hn].
    + destruct ms; [by apply Hone|discriminate].
    + rewrite slice_0 in HW by (unfold zlen in Hn; lia).
      eapply writeFramerXlBatch_wire; [done..| |done].
      rewrite length_take. unfold zlen in Hn. lia.
Qed.

Definition demo_xl : FramerXl := NewFramerXl (Some (DefaultFramerXlSettings 100000)).

Lemma framerxl_roundtrip_witness :
  exists wire, [0; 0; 0; 1; 7; 0; 0; 0; 0] = [] ++ wire /\
    (forall rest e, XlReadN demo_xl (Stream (wire ++ rest) e) 2 = Ret (Stream rest e, inl [[7]; []])) /\
    ((1 < 2)%nat -> zlen wire <= maxBatchLen demo_xl).
Proof.
  refine (framerxl_roundtrip demo_xl (Sink [] []) (Sink [0; 0; 0; 1; 7; 0; 0; 0; 0] [])
            [[7]; []] [1; 2] _ _).
  - split; [reflexivity|vm_compute; split; discriminate].
  - right. left. vm_compute. reflexivity.
Defined.

(** A framer constructed from settings reports no settings error exactly
    when both limits are in range; with a settings error every operation
    returns that error having read and written nothing. *)
Theorem framerxl_settings {W} {WR : Writer W} {MP : MessagePool}
    (s : FramerXlSettings) (w : W) (r : stream) (m : bytes) (ms : list bytes) (storage : bytes) :
  - 2 ^ 63 <= xs_MaxMessageLen s < 2 ^ 63 ->
  let f := NewFramerXl (Some s) in
  (settingsErr f = None <->
     0 <= xs_MaxMessageLen s <= MaxUint32 /\
     framerXlHeaderLen <= xs_MaxBatchLen s <= MaxInt64 - MessagePoolMetaByteCount) /\
  forall e, settingsErr f = Some e ->
    XlRead f r = Ret (r, inr e) /\
    XlWrite f w m = Ret (w, Some e) /\
    XlWriteBatch f w ms = Ret (w, Some e) /\
    XlWriteBatchWithStorage f w ms storage = Ret (w, Some e).
Proof.
  intros Hr f. split.
  - subst f. cbn [NewFramerXl settingsErr].
    change (2 ^ 63) with 9223372036854775808 in Hr.
    unfold MaxUint32, MaxInt64, framerXlHeaderLen, MessagePoolMetaByteCount in *.
    destruct (Z.ltb_spec (xs_MaxMessageLen s) 0); [cbn; split; [discriminate|lia]|].
    rewrite u64_small by lia.
    destruct (Z.ltb_spec 4294967295 (xs_MaxMessageLen s)); [cbn; split; [discriminate|lia]|].
    destruct (Z.ltb_spec (9223372036854775807 - 4 - 13) (xs_MaxMessageLen s)); [lia|]. cbn [orb].
    destruct (Z.ltb_spec (xs_MaxBatchLen s) 4); [cbn; split; [discriminate|lia]|].
    destruct (Z.ltb_spec (9223372036854775807 - 13) (xs_MaxBatchLen s)); cbn; split; try discriminate; try done; lia.
  - intros e He.
    unfold XlRead, XlReadHeader, XlWrite, XlWriteBatch, XlWriteBatchWithStorage, validateMessageLen.
    by rewrite He.
Qed.

Lemma framerxl_settings_witness :
  let f := NewFramerXl (Some {| xs_MaxMessageLen := 10; xs_MaxBatchLen := 3 |}) in
  XlWrite f (Sink [1] []) [2] = Ret (Sink [1] [], Some XlBadMaxBatchLen).
Proof.
  refine (proj1 (proj2 (proj2 (framerxl_settings {| xs_MaxMessageLen := 10; xs_MaxBatchLen := 3 |}
    (Sink [1] []) (Stream [] EOF) [2] [] [] _) XlBadMaxBatchLen _))).
  - vm_compute. split; [discriminate|reflexivity].
  - reflexivity.
Defined.
