(* ===== verification/NetId.v ===== *)
(** 16-byte identifiers of src/id.go: the monotonic time-ordered generator,
    the byte-wise order the sequence layer relies on, and the UUID text and
    JSON forms. Text is a list of character codes. *)
From Stdlib Require Import Sorted.
From S2P Require Import Prelude.

(** ** Generation *)

Record idGenState := {
  ms : Z;          (* uint64 *)
  entropyHi : Z;   (* uint16 *)
  entropyLo : Z;   (* uint64 *)
}.

Definition idGenState_ok (s : idGenState) : Prop :=
  0 <= ms s < 2 ^ 48 /\ 0 <= entropyHi s < 2 ^ 16 /\ 0 <= entropyLo s < 2 ^ 64.

(** The bytes [NewId] lays out from the generator state: 48 bits of
    milliseconds, then the 16 and 64 bits of entropy, big-endian. *)
Definition id_of_state (s : idGenState) : bytes :=
  [byte_of (ms s) 40; byte_of (ms s) 32; byte_of (ms s) 24; byte_of (ms s) 16;
   byte_of (ms s) 8; byte_of (ms s) 0;
   byte_of (entropyHi s) 8; byte_of (entropyHi s) 0;
   byte_of (entropyLo s) 56; byte_of (entropyLo s) 48; byte_of (entropyLo s) 40;
   byte_of (entropyLo s) 32; byte_of (entropyLo s) 24; byte_of (entropyLo s) 16;
   byte_of (entropyLo s) 8; byte_of (entropyLo s) 0].

(** [NewId] with the wall clock reading and the two draws of [math/rand/v2]
    it may make as arguments. *)
Definition NewId (s : idGenState) (wallMs r1 r2 : Z) : idGenState * bytes :=
  let s' :=
    if ms s <? wallMs then
      {| ms := wallMs; entropyHi := u16 r1; entropyLo := u64 r2 |}
    else
      let inc := 1 + Z.land r1 4294967295 in
      let lo := u64 (entropyLo s + inc) in
      {| ms := ms s;
         entropyHi := if lo <? entropyLo s then u16 (entropyHi s + 1) else entropyHi s;
         entropyLo := lo |} in
  (s', id_of_state s').

(** A process's successive calls, one input triple per call. *)
Fixpoint NewIds (s : idGenState) (inputs : list (Z * Z * Z)) : list bytes :=
  match inputs with
  | [] => []
  | (wallMs, r1, r2) :: rest =>
      let '(s', id) := NewId s wallMs r1 r2 in
      id :: NewIds s' rest
  end.

(** ** Order *)

Fixpoint Cmp (a b : bytes) : Z :=
  match a, b with
  | v :: a, bi :: b =>
      if v <? bi then -1
      else if bi <? v then 1
      else Cmp a b
  | _, _ => 0
  end.

Definition LessThan (a b : bytes) : bool := Cmp a b <? 0.

(** ** Conversions *)

Inductive id_err :=
| ErrIdLength          (* "Id must be 16 bytes" *)
| ErrCannotParse       (* "cannot parse UUID" *)
| ErrInvalidHex        (* hex.InvalidByteError *)
| ErrJsonLength.       (* "invalid length for UUID" *)

Definition IdFromBytes (idBytes : bytes) : bytes + id_err :=
  if (length idBytes =? 16)%nat then inl idBytes else inr ErrIdLength.

Definition RequireIdFromBytes (idBytes : bytes) : go bytes :=
  match IdFromBytes idBytes with
  | inl id => Ret id
  | inr _ => Panic
  end.

(** [%x] of a byte and [hex.DecodeString]: lower case out, either case in. *)
Definition hexDigit (d : Z) : Z := if d <? 10 then 48 + d else 87 + d.

Definition hexBytes (l : bytes) : bytes :=
  flat_map (fun b => [hexDigit (Z.shiftr b 4); hexDigit (Z.land b 15)]) l.

Definition fromHexChar (c : Z) : option Z :=
  if (48 <=? c) && (c <=? 57) then Some (c - 48)
  else if (97 <=? c) && (c <=? 102) then Some (c - 87)
  else if (65 <=? c) && (c <=? 70) then Some (c - 55)
  else None.

Fixpoint DecodeString (src : bytes) : bytes + id_err :=
  match src with
  | [] => inl []
  | [_] => inr ErrInvalidHex
  | a :: b :: rest =>
      match fromHexChar a, fromHexChar b, DecodeString rest with
      | Some x, Some y, inl out => inl (Z.lor (Z.shiftl x 4) y :: out)
      | _, _, _ => inr ErrInvalidHex
      end
  end.

Definition parseUuid (src : bytes) : go (bytes + id_err) :=
  let decode (src : bytes) : bytes + id_err := DecodeString src in
  if (length src =? 36)%nat then
    let! a := slice src 0 8 in
    let! b := slice src 9 13 in
    let! c := slice src 14 18 in
    let! d := slice src 19 23 in
    let! e := slice src 24 (length src) in
    Ret (decode (a ++ b ++ c ++ d ++ e))
  else if (length src =? 32)%nat then Ret (decode src)
  else Ret (inr ErrCannotParse).

Definition ParseId (idStr : bytes) : go (bytes + id_err) := parseUuid idStr.

Definition dash : Z := 45.
Definition quote : Z := 34.

Definition encodeUuid (src : bytes) : go bytes :=
  let! a := slice src 0 4 in
  let! b := slice src 4 6 in
  let! c := slice src 6 8 in
  let! d := slice src 8 10 in
  let! e := slice src 10 16 in
  Ret (hexBytes a ++ [dash] ++ hexBytes b ++ [dash] ++ hexBytes c ++ [dash]
         ++ hexBytes d ++ [dash] ++ hexBytes e).

Definition IdString (id : bytes) : go bytes := encodeUuid id.

Definition MarshalJSON (id : bytes) : go bytes :=
  let! s := encodeUuid id in
  Ret ([quote] ++ s ++ [quote]).

Definition UnmarshalJSON (src : bytes) : go (bytes + id_err) :=
  if negb (length src =? 38)%nat then Ret (inr ErrJsonLength)
  else
    let! inner := slice src 1 (length src - 1) in
    parseUuid inner.

(** ** Facts *)

(** The number a byte string denotes, big-endian. *)
Fixpoint be_val (acc : Z) (l : bytes) : Z :=
  match l with
  | [] => acc
  | b :: l => be_val (acc * 256 + b) l
  end.

Lemma be_val_acc acc l : be_val acc l = acc * 256 ^ Z.of_nat (length l) + be_val 0 l.
Proof.
  revert acc. induction l as [|b l IH]; intros acc.
  - cbn. lia.
  - cbn [be_val length]. rewrite IH, (IH (0 * 256 + b)), Nat2Z.inj_succ, Z.pow_succ_r by lia. nia.
Qed.

Lemma be_val_bound l : bytes_ok l -> 0 <= be_val 0 l < 256 ^ Z.of_nat (length l).
Proof.
  induction 1 as [|b l Hb _ IH]; [cbn; lia|].
  cbn [be_val length]. rewrite be_val_acc, Nat2Z.inj_succ, Z.pow_succ_r by lia.
  unfold byte_ok in Hb. nia.
Qed.

Lemma Cmp_compare a b :
  bytes_ok a -> bytes_ok b -> length a = length b ->
  Cmp a b = match be_val 0 a ?= be_val 0 b with Lt => -1 | Eq => 0 | Gt => 1 end.
Proof.
  intros Ha. revert b. induction Ha as [|x a Hx Ha IH]; intros [|y b] Hb L; try done.
  apply Forall_cons_1 in Hb as [Hy Hb]. simpl in L. injection L as L.
  cbn [Cmp be_val]. rewrite (be_val_acc _ a), (be_val_acc _ b), <- L.
  pose proof (be_val_bound a Ha). pose proof (be_val_bound b Hb). rewrite <- L in *.
  set (P := 256 ^ Z.of_nat (length a)) in *.
  destruct (Z.ltb_spec x y).
  { destruct (Z.compare_spec ((0 * 256 + x) * P + be_val 0 a) ((0 * 256 + y) * P + be_val 0 b)); nia. }
  destruct (Z.ltb_spec y x).
  { destruct (Z.compare_spec ((0 * 256 + x) * P + be_val 0 a) ((0 * 256 + y) * P + be_val 0 b)); nia. }
  assert (x = y) as -> by lia. rewrite IH by done. by rewrite Z.add_compare_mono_l.
Qed.

Lemma id_of_state_ok s : bytes_ok (id_of_state s).
Proof. unfold id_of_state, bytes_ok. repeat constructor; apply u8_range. Qed.

Lemma be_val_app acc a b : be_val acc (a ++ b) = be_val (be_val acc a) b.
Proof. revert acc. induction a as [|x a IH]; intros acc; [done|]. cbn. apply IH. Qed.

(** [v] is rebuilt from the bytes [k-1 .. 0] of its [8 k]-bit form. *)
Lemma be_val_bytes (n : nat) v acc :
  be_val acc (map (fun k => byte_of v (8 * Z.of_nat k)) (rev (seq 0 n))) =
    acc * 256 ^ Z.of_nat n + v mod 2 ^ (8 * Z.of_nat n).
Proof.
  revert acc. induction n as [|n IH]; intros acc.
  - cbn. rewrite Z.mod_1_r. lia.
  - rewrite seq_S, rev_app_distr. cbn [rev app map be_val]. rewrite IH. cbn [Nat.add].
    rewrite byte_of_div by lia.
    replace (8 * Z.of_nat (S n)) with (8 * Z.of_nat n + 8) by lia.
    rewrite Z.pow_add_r by lia. change (2 ^ 8) with 256.
    rewrite Z.rem_mul_r by lia.
    rewrite Nat2Z.inj_succ, Z.pow_succ_r, Z.pow_mul_r by lia. change (2 ^ 8) with 256. lia.
Qed.

Lemma id_of_state_val s :
  idGenState_ok s ->
  be_val 0 (id_of_state s) = ms s * 2 ^ 80 + (entropyHi s * 2 ^ 64 + entropyLo s).
Proof.
  intros (H1 & H2 & H3).
  assert (E : id_of_state s =
    map (fun k => byte_of (ms s) (8 * Z.of_nat k)) (rev (seq 0 6)) ++
    map (fun k => byte_of (entropyHi s) (8 * Z.of_nat k)) (rev (seq 0 2)) ++
    map (fun k => byte_of (entropyLo s) (8 * Z.of_nat k)) (rev (seq 0 8))) by reflexivity.
  rewrite E, !be_val_app, !be_val_bytes, !Z.mod_small by done.
  cbn [Z.of_nat Pos.of_succ_nat Pos.succ]. lia.
Qed.

Lemma NewId_ok s wallMs r1 r2 :
  idGenState_ok s -> 0 <= wallMs < 2 ^ 48 -> idGenState_ok (fst (NewId s wallMs r1 r2)).
Proof.
  intros (H1 & H2 & H3) Hw. unfold NewId, idGenState_ok.
  change (2 ^ 16) with 65536 in *. change (2 ^ 64) with 18446744073709551616 in *.
  destruct (ms s <? wallMs); cbn.
  - split; [done|]. split; [apply u16_range|apply u64_range].
  - split; [done|]. split; [|apply u64_range]. destruct (_ <? _); [apply u16_range|done].
Qed.

(** The step that would exhaust the 80 entropy bits of one millisecond. *)
Definition entropy_room (s : idGenState) (wallMs r1 : Z) : Prop :=
  ms s < wallMs \/
  entropyHi s * 2 ^ 64 + entropyLo s + (1 + Z.land r1 4294967295) < 2 ^ 80.

Lemma NewId_increases s wallMs r1 r2 :
  idGenState_ok s -> 0 <= wallMs < 2 ^ 48 -> entropy_room s wallMs r1 ->
  be_val 0 (id_of_state s) < be_val 0 (snd (NewId s wallMs r1 r2)).
Proof.
  intros Hs Hw Hroom. pose proof (NewId_ok s wallMs r1 r2 Hs Hw) as Hs'.
  replace (snd (NewId s wallMs r1 r2)) with (id_of_state (fst (NewId s wallMs r1 r2))) by done.
  rewrite !id_of_state_val by done.
  destruct Hs as (H1 & H2 & H3). destruct Hs' as (_ & H2' & H3'). unfold NewId in *.
  change (2 ^ 16) with 65536 in *. change (2 ^ 64) with 18446744073709551616 in *.
  change (2 ^ 80) with 1208925819614629174706176 in *. unfold entropy_room in Hroom.
  change (2 ^ 64) with 18446744073709551616 in *. change (2 ^ 80) with 1208925819614629174706176 in *.
  assert (0 <= Z.land r1 4294967295 < 4294967296).
  { change 4294967295 with (Z.ones 32). rewrite Z.land_ones by lia. apply Z.mod_pos_bound. lia. }
  destruct (Z.ltb_spec (ms s) wallMs); cbn in *; [lia|].
  set (inc := 1 + Z.land r1 4294967295) in *.
  destruct (Z_lt_dec (entropyLo s + inc) 18446744073709551616) as [Hlt|Hge].
  - rewrite u64_small in * by lia. destruct (Z.ltb_spec (entropyLo s + inc) (entropyLo s)); lia.
  - assert (Hlo : u64 (entropyLo s + inc) = entropyLo s + inc - 18446744073709551616).
    { unfold u64. replace (entropyLo s + inc)
        with (entropyLo s + inc - 18446744073709551616 + 1 * 18446744073709551616) at 1 by lia.
      rewrite Z.mod_add by lia. apply Z.mod_small. lia. }
    rewrite Hlo in *. destruct (Z.ltb_spec (entropyLo s + inc - 18446744073709551616) (entropyLo s)); [|lia].
    rewrite u16_small by lia. lia.
Qed.

(** A run in which the wall clock stays in its 48 bits and no millisecond
    exhausts its entropy. *)
Fixpoint good_run (s : idGenState) (inputs : list (Z * Z * Z)) : Prop :=
  match inputs with
  | [] => True
  | (wallMs, r1, r2) :: rest =>
      0 <= wallMs < 2 ^ 48 /\ entropy_room s wallMs r1 /\
      good_run (fst (NewId s wallMs r1 r2)) rest
  end.

Lemma NewIds_above s inputs :
  idGenState_ok s -> good_run s inputs ->
  Forall (fun id => length id = 16%nat /\ bytes_ok id /\
                    be_val 0 (id_of_state s) < be_val 0 id) (NewIds s inputs).
Proof.
  revert s. induction inputs as [|[[wallMs r1] r2] rest IH]; intros s Hs; [constructor|].
  intros (Hw & Hr & Hg). cbn [NewIds].
  pose proof (NewId_increases s wallMs r1 r2 Hs Hw Hr) as Hinc.
  pose proof (NewId_ok s wallMs r1 r2 Hs Hw) as Hs'.
  destruct (NewId s wallMs r1 r2) as [s' id] eqn:E.
  assert (id = id_of_state s') as -> by (unfold NewId in E; congruence).
  cbn [fst snd] in *. constructor.
  - split; [done|]. split; [apply id_of_state_ok|done].
  - eapply List.Forall_impl; [|by apply IH]. intros x (? & ? & ?). split; [done|]. split; [done|lia].
Qed.

Lemma LessThan_val a b :
  bytes_ok a -> bytes_ok b -> length a = length b ->
  LessThan a b = true <-> be_val 0 a < be_val 0 b.
Proof.
  intros Ha Hb L. unfold LessThan. rewrite Cmp_compare by done.
  destruct (Z.compare_spec (be_val 0 a) (be_val 0 b)); cbn; split; intros; try done; lia.
Qed.

Lemma be_val_inj a b :
  bytes_ok a -> bytes_ok b -> length a = length b -> be_val 0 a = be_val 0 b -> a = b.
Proof.
  intros Ha. revert b. induction Ha as [|x a Hx Ha IH]; intros [|y b] Hb L; try done.
  apply Forall_cons_1 in Hb as [Hy Hb]. simpl in L. injection L as L.
  cbn [be_val]. rewrite (be_val_acc _ a), (be_val_acc _ b), <- L.
  pose proof (be_val_bound a Ha). pose proof (be_val_bound b Hb). rewrite <- L in *.
  set (P := 256 ^ Z.of_nat (length a)) in *. intros E.
  assert (x = y) as -> by nia. f_equal. apply IH; [done..|lia].
Qed.

Lemma fromHexChar_digit d : 0 <= d < 16 -> fromHexChar (hexDigit d) = Some d.
Proof.
  intros H. unfold hexDigit, fromHexChar.
  destruct (Z.ltb_spec d 10).
  - rewrite (proj2 (Z.leb_le _ _)), (proj2 (Z.leb_le _ _)) by lia. cbn. f_equal. lia.
  - rewrite (proj2 (Z.leb_le 48 _)), (proj2 (Z.leb_gt _ 57)) by lia. cbn.
    rewrite (proj2 (Z.leb_le _ _)), (proj2 (Z.leb_le _ _)) by lia. cbn. f_equal. lia.
Qed.

Lemma byte_nibbles b :
  byte_ok b -> Z.lor (Z.shiftl (Z.shiftr b 4) 4) (Z.land b 15) = b /\
               0 <= Z.shiftr b 4 < 16 /\ 0 <= Z.land b 15 < 16.
Proof.
  unfold byte_ok. intros H. change 15 with (Z.ones 4). split; [|split].
  - rewrite <- Z.ldiff_ones_r by lia. by rewrite Z.lor_ldiff_and.
  - rewrite Z.shiftr_div_pow2 by lia. change (2 ^ 4) with 16. split;
      [apply Z.div_pos|apply Z.div_lt_upper_bound]; lia.
  - rewrite Z.land_ones by lia. apply Z.mod_pos_bound. lia.
Qed.

Lemma DecodeString_hexBytes l : bytes_ok l -> DecodeString (hexBytes l) = inl l.
Proof.
  induction 1 as [|b l Hb _ IH]; [done|].
  unfold hexBytes in *. cbn [flat_map app DecodeString].
  destruct (byte_nibbles b Hb) as (E & H1 & H2).
  rewrite !fromHexChar_digit, IH, E by done. done.
Qed.

Lemma length_hexBytes l : length (hexBytes l) = (2 * length l)%nat.
Proof. induction l as [|b l IH]; [done|]. unfold hexBytes in *. simpl. lia. Qed.

Lemma hexBytes_app a b : hexBytes (a ++ b) = hexBytes a ++ hexBytes b.
Proof. unfold hexBytes. apply flat_map_app. Qed.

Lemma encodeUuid_parse id :
  bytes_ok id -> length id = 16%nat ->
  exists s, encodeUuid id = Ret s /\ length s = 36%nat /\ parseUuid s = Ret (inl id).
Proof.
  intros Hok L. do 16 (destruct id as [|? id]; [discriminate|]).
  destruct id; [|discriminate]. eexists. split; [reflexivity|]. split; [reflexivity|].
  rewrite <- (f_equal Ret (DecodeString_hexBytes _ Hok)). reflexivity.
Qed.

(** * Properties *)

(** The ids one process generates are strictly increasing in the order
    [LessThan] decides, whatever the wall clock does within its 48 bits
    (including stalling and stepping back), as long as no single millisecond
    uses up its 80 bits of entropy. *)
Theorem newid_strictly_increasing (s : idGenState) (inputs : list (Z * Z * Z)) :
  idGenState_ok s -> good_run s inputs ->
  StronglySorted (fun a b => LessThan a b = true) (NewIds s inputs).
Proof.
  revert s. induction inputs as [|[[wallMs r1] r2] rest IH]; intros s Hs Hg; [constructor|].
  pose proof (NewIds_above s _ Hs Hg) as Hfst.
  destruct Hg as (Hw & Hr & Hg). cbn [NewIds] in *.
  pose proof (NewId_ok s wallMs r1 r2 Hs Hw) as Hs'.
  destruct (NewId s wallMs r1 r2) as [s' id] eqn:E. cbn [fst] in *.
  assert (id = id_of_state s') as -> by (unfold NewId in E; congruence).
  constructor; [by apply IH|].
  eapply List.Forall_impl; [|by apply (NewIds_above s')]. intros x (Hl & Hx & Hlt).
  apply LessThan_val; [apply id_of_state_ok|done| |done]. by rewrite Hl.
Qed.

Definition demo_state : idGenState := {| ms := 1000; entropyHi := 65535; entropyLo := 2 ^ 64 - 1 |}.
Definition demo_inputs : list (Z * Z * Z) := [(1001, 5, 7); (900, 3, 0); (1001, 4294967295, 0)].

Lemma newid_strictly_increasing_witness :
  length (NewIds demo_state demo_inputs) = 3%nat /\
  StronglySorted (fun a b => LessThan a b = true) (NewIds demo_state demo_inputs).
Proof.
  split; [reflexivity|]. apply (newid_strictly_increasing demo_state demo_inputs).
  - vm_compute. repeat split; discriminate.
  - vm_compute. repeat split; try discriminate; first [left; reflexivity | right; reflexivity].
Defined.

(** [Cmp] on two ids is the comparison of the 128-bit numbers they spell,
    so [LessThan] is a strict total order on ids and [Cmp] is zero exactly on
    equal ids. *)
Theorem id_cmp_total_order (a b : bytes) :
  bytes_ok a -> bytes_ok b -> length a = 16%nat -> length b = 16%nat ->
  Cmp a b = match be_val 0 a ?= be_val 0 b with Lt => -1 | Eq => 0 | Gt => 1 end /\
  (Cmp a b = 0 <-> a = b) /\
  (a <> b -> LessThan a b = true \/ LessThan b a = true).
Proof.
  intros Ha Hb La Lb. assert (L : length a = length b) by congruence.
  rewrite !LessThan_val, Cmp_compare by done. split; [done|].
  split.
  - destruct (Z.compare_spec (be_val 0 a) (be_val 0 b)) as [E|E|E].
    + split; [|done]. intros _. by apply be_val_inj.
    + split; [discriminate|]. intros ->. lia.
    + split; [discriminate|]. intros ->. lia.
  - intros Hne. destruct (Z.lt_trichotomy (be_val 0 a) (be_val 0 b)) as [|[E|]]; [by left| |by right].
    by apply be_val_inj in E.
Qed.

Lemma id_cmp_total_order_witness :
  let a := id_of_state demo_state in
  let b := snd (NewId demo_state 1001 5 7) in
  a <> b /\ (LessThan a b = true \/ LessThan b a = true).
Proof.
  cbv zeta. split; [vm_compute; discriminate|].
  apply (id_cmp_total_order (id_of_state demo_state) (snd (NewId demo_state 1001 5 7)));
    first [apply id_of_state_ok | reflexivity | vm_compute; discriminate].
Defined.

(** Every id survives its text forms: the dashed UUID string has 36
    characters and parses back to the id, and so does its JSON string. *)
Theorem id_text_roundtrip (id : bytes) :
  bytes_ok id -> length id = 16%nat ->
  exists s j, IdString id = Ret s /\ length s = 36%nat /\ ParseId s = Ret (inl id) /\
    MarshalJSON id = Ret j /\ UnmarshalJSON j = Ret (inl id).
Proof.
  intros Hok L. destruct (encodeUuid_parse id Hok L) as (s & Es & Ls & Ep).
  exists s, ([quote] ++ s ++ [quote]). split; [done|]. split; [done|]. split; [done|].
  unfold MarshalJSON, UnmarshalJSON. rewrite Es. split; [done|].
  assert (Hlen : length ([quote] ++ s ++ [quote]) = 38%nat) by (rewrite !length_app, Ls; done).
  rewrite Hlen. cbn [Nat.eqb negb Nat.sub].
  rewrite slice_ret by lia. cbn [gbind app skipn Nat.sub]. rewrite drop_0, take_app_length' by lia. done.
Qed.

Lemma id_text_roundtrip_witness :
  exists s j, IdString (id_of_state demo_state) = Ret s /\ length s = 36%nat /\
    ParseId s = Ret (inl (id_of_state demo_state)) /\
    MarshalJSON (id_of_state demo_state) = Ret j /\
    UnmarshalJSON j = Ret (inl (id_of_state demo_state)).
Proof.
  apply (id_text_roundtrip (id_of_state demo_state)); [apply id_of_state_ok|reflexivity].
Defined.

(** The generator does not always return a larger id: from the initial
    state, a first call that draws all-ones entropy and a second call in the
    same millisecond give a second id that is less than the first, because
    the carry out of the 80 entropy bits is dropped. *)
Theorem newid_entropy_wrap_decreases :
  let s0 := {| ms := 0; entropyHi := 0; entropyLo := 0 |} in
  let ids := NewIds s0 [(1000, 2 ^ 64 - 1, 2 ^ 64 - 1); (1000, 0, 0)] in
  exists a b, ids = [a; b] /\ LessThan b a = true.
Proof. cbv zeta. do 2 eexists. split; vm_compute; reflexivity. Qed.
