(* ===== verification/TransferPath.v ===== *)
(** Transfer paths and multi-hop ids of src/connect.go: the addresses the
    routing and the frame codec share, their masks, and their wire forms. A
    Go byte slice that may be nil is an [option]; an [Id] is its 16 bytes. *)
From S2P Require Import Prelude NetId.

Definition zero_id : bytes := replicate 16 0.
Definition ControlId : bytes := zero_id.
Definition isId (id : bytes) : Prop := length id = 16%nat /\ bytes_ok id.

Record TransferPath := Path { SourceId : bytes; DestinationId : bytes; StreamId : bytes }.

#[export] Instance TransferPath_eq_dec : EqDecision TransferPath.
Proof. solve_decision. Defined.

Definition noPath : TransferPath := Path zero_id zero_id zero_id.
Definition path_ok (p : TransferPath) : Prop := isId (SourceId p) /\ isId (DestinationId p) /\ isId (StreamId p).

(** ** Masks *)

Definition is_zero (id : bytes) : bool := bool_decide (id = zero_id).

Definition IsControlSource (p : TransferPath) : bool :=
  bool_decide (SourceId p = ControlId) && is_zero (DestinationId p) && is_zero (StreamId p).
Definition IsControlDestination (p : TransferPath) : bool :=
  bool_decide (DestinationId p = ControlId) && is_zero (SourceId p) && is_zero (StreamId p).
Definition IsStream (p : TransferPath) : bool := negb (is_zero (StreamId p)).
Definition IsSourceMask (p : TransferPath) : bool := is_zero (DestinationId p).
Definition IsDestinationMask (p : TransferPath) : bool := is_zero (SourceId p).
Definition IsLocalMask (p : TransferPath) : bool := is_zero (StreamId p).
Definition SourceMask (p : TransferPath) : TransferPath := Path (SourceId p) zero_id (StreamId p).
Definition DestinationMask (p : TransferPath) : TransferPath := Path zero_id (DestinationId p) (StreamId p).
Definition LocalMask (p : TransferPath) : TransferPath := Path (SourceId p) (DestinationId p) zero_id.
Definition PathReverse (p : TransferPath) : TransferPath := Path (DestinationId p) (SourceId p) (StreamId p).
Definition AddSource (p : TransferPath) (id : bytes) : TransferPath := Path id (DestinationId p) (StreamId p).
Definition AddDestination (p : TransferPath) (id : bytes) : TransferPath := Path (SourceId p) id (StreamId p).

(** ** Wire form: three optional byte fields *)

Record protoTransferPath := ProtoPath {
  pp_destination_id : option bytes;
  pp_source_id : option bytes;
  pp_stream_id : option bytes;
}.

Definition ToProtobuf (p : TransferPath) : protoTransferPath :=
  let field id := if is_zero id then None else Some id in
  ProtoPath (field (DestinationId p)) (field (SourceId p)) (field (StreamId p)).

Definition TransferPathFromBytes (sourceIdBytes destinationIdBytes streamIdBytes : option bytes)
  : TransferPath + id_err :=
  let field o := match o with None => inl zero_id | Some b => IdFromBytes b end in
  match field sourceIdBytes with
  | inr e => inr e
  | inl s =>
      match field destinationIdBytes with
      | inr e => inr e
      | inl d =>
          match field streamIdBytes with
          | inr e => inr e
          | inl t => inl (Path s d t)
          end
      end
  end.

Inductive path_err := ErrMissingPath | ErrBadId (e : id_err).

Definition TransferPathFromProtobuf (p : option protoTransferPath) : TransferPath + path_err :=
  match p with
  | None => inr ErrMissingPath
  | Some p =>
      match TransferPathFromBytes (pp_source_id p) (pp_destination_id p) (pp_stream_id p) with
      | inl path => inl path
      | inr e => inr (ErrBadId e)
      end
  end.

(** ** Multi-hop ids: an array of eight with a length *)

Definition MaxMultihopLength : nat := 8.

Record MultiHopId := MultiHop { mh_ids : list bytes; mh_len : nat }.

Definition emptyMultiHopId : MultiHopId := MultiHop (replicate MaxMultihopLength zero_id) 0.

Definition mh_ok (m : MultiHopId) : Prop :=
  length (mh_ids m) = MaxMultihopLength /\ (mh_len m <= MaxMultihopLength)%nat.

Inductive mh_err := ErrTooLong | ErrHopId.

(** The loop [multiHopId.ids[i] = id] fills the array from the front. *)
Definition NewMultiHopId (ids : list bytes) : MultiHopId + mh_err :=
  if (MaxMultihopLength <? length ids)%nat then inr ErrTooLong
  else inl (MultiHop (ids ++ drop (length ids) (mh_ids emptyMultiHopId)) (length ids)).

Definition RequireMultiHopId (ids : list bytes) : go MultiHopId :=
  match NewMultiHopId ids with inl m => Ret m | inr _ => Panic end.

Definition MultiHopIdFromBytes (l : list bytes) : MultiHopId + mh_err :=
  if forallb (fun b => (length b =? 16)%nat) l then NewMultiHopId l else inr ErrHopId.

Definition Ids (m : MultiHopId) : go (list bytes) := slice (mh_ids m) 0 (mh_len m).

Definition Tail (m : MultiHopId) : go bytes :=
  if (mh_len m =? 0)%nat then Panic else index (mh_ids m) (mh_len m - 1).

Definition SplitTail (m : MultiHopId) : go (MultiHopId * bytes) :=
  if (mh_len m =? 0)%nat then Panic
  else if (mh_len m =? 1)%nat then
    let! x := index (mh_ids m) 0 in
    Ret (emptyMultiHopId, x)
  else
    let! front := slice (mh_ids m) 0 (mh_len m - 1) in
    let! ids := copy_into (mh_ids emptyMultiHopId) 0 (mh_len m - 1) front in
    let! x := index (mh_ids m) (mh_len m - 1) in
    Ret (MultiHop ids (mh_len m - 1), x).

(** ** Properties *)

Lemma zero_id_ok : isId zero_id.
Proof. split; [done|]. apply bytes_ok_replicate. Qed.

Lemma is_zero_true id : is_zero id = true <-> id = zero_id.
Proof. apply bool_decide_eq_true. Qed.
Lemma is_zero_false id : is_zero id = false <-> id <> zero_id.
Proof. apply bool_decide_eq_false. Qed.

Lemma IdFromBytes_id id : isId id -> IdFromBytes id = inl id.
Proof. intros [Hl _]. unfold IdFromBytes. by rewrite Hl. Qed.

Lemma path_field_roundtrip id :
  isId id ->
  match (if is_zero id then None else Some id) with None => inl zero_id | Some b => IdFromBytes b end = inl id.
Proof.
  intros Hid. destruct (is_zero id) eqn:E; [|by apply IdFromBytes_id]. by apply is_zero_true in E as ->.
Qed.

Lemma transfer_path_wire p : path_ok p -> TransferPathFromProtobuf (Some (ToProtobuf p)) = inl p.
Proof.
  intros (Hs & Hd & Ht). unfold TransferPathFromProtobuf, TransferPathFromBytes. cbn [ToProtobuf pp_source_id pp_destination_id pp_stream_id].
  rewrite !path_field_roundtrip by done. by destruct p.
Qed.

Lemma PathReverse_involutive p : PathReverse (PathReverse p) = p.
Proof. by destruct p. Qed.

Lemma drop_replicate_zero n : drop n (replicate MaxMultihopLength zero_id) = replicate (MaxMultihopLength - n) zero_id.
Proof. apply drop_replicate. Qed.

Lemma NewMultiHopId_ok ids m :
  NewMultiHopId ids = inl m -> mh_ok m /\ Ids m = Ret ids /\ mh_len m = length ids.
Proof.
  unfold NewMultiHopId. destruct (Nat.ltb_spec MaxMultihopLength (length ids)); [done|]. intros [= <-].
  unfold mh_ok, Ids. cbn [mh_ids mh_len emptyMultiHopId]. rewrite drop_replicate_zero, length_app, length_replicate.
  split; [lia|]. split; [|done]. apply slice_app_l.
Qed.

Lemma copy_front ids :
  (length ids <= MaxMultihopLength)%nat ->
  copy_into (replicate MaxMultihopLength zero_id) 0 (length ids) ids =
    Ret (ids ++ replicate (MaxMultihopLength - length ids) zero_id).
Proof.
  intros Hle. replace (replicate MaxMultihopLength zero_id)
    with ([] ++ replicate (length ids) zero_id ++ replicate (MaxMultihopLength - length ids) zero_id)
    by (cbn [app]; rewrite <- replicate_add; f_equal; lia).
  by rewrite copy_into_app by (rewrite ?length_replicate; done).
Qed.

(** Splitting the tail off a path of at least one hop: the hops before it and
    the last one, the path's [Tail]. *)
Lemma split_tail_spec ids last m :
  NewMultiHopId (ids ++ [last]) = inl m ->
  Tail m = Ret last /\ exists front, SplitTail m = Ret (front, last) /\ NewMultiHopId ids = inl front.
Proof.
  unfold NewMultiHopId. rewrite length_app. cbn [length]. destruct (Nat.ltb_spec MaxMultihopLength (length ids + 1)) as [|Hle]; [done|].
  intros [= <-]. cbn [emptyMultiHopId mh_ids]. rewrite drop_replicate_zero, <- app_assoc. cbn [app].
  set (pad := replicate (MaxMultihopLength - (length ids + 1)) zero_id).
  unfold Tail, SplitTail. cbn [mh_ids mh_len]. rewrite (proj2 (Nat.eqb_neq _ 0)), Nat.add_sub by lia.
  assert (Hi : index (ids ++ last :: pad) (length ids) = Ret last).
  { apply index_ret. by apply list_lookup_middle. }
  split; [done|]. rewrite (proj2 (Nat.ltb_ge _ _)), drop_replicate_zero by lia.
  destruct (Nat.eqb_spec (length ids + 1) 1) as [E|E].
  - destruct ids; [|cbn in E; lia]. cbn. eexists. split; [done|]. done.
  - rewrite slice_app_l. cbn [gbind].
    change (mh_ids emptyMultiHopId) with (replicate MaxMultihopLength zero_id). rewrite (copy_front ids) by lia.
    cbn [gbind app]. rewrite Hi. cbn [gbind]. eexists. split; done.
Qed.
