(* ===== verification/FrameCodec.v ===== *)
(** The protobuf wire codec of src/frame_protobuf.go: the hand-written encoders
    of the pack and ack transfer frames, the hand-written decoders, and the
    allocation-free reader of a frame's transfer path.

    The decoders parse with the third-party package protowire; it is the class
    [ProtoWire] here, with the documented behaviour the code relies on in
    [ProtoWireLaws] and a concrete instance at the end. A Go byte slice that
    may be nil is an [option]. Sizes and lengths are [nat]; field values are
    [Z] at their width. *)
From S2P Require Import Prelude NetId GoIo TransferPath.

(** Signed 32-bit wrap-around: Go's [int32], the type of protobuf enums. *)
Definition i32 (z : Z) : Z := (z + 2147483648) mod 4294967296 - 2147483648.

(** ** Varints and tags *)

Definition protoWireVarint : Z := 0.
Definition protoWireBytes : Z := 2.

(** Ten rounds are enough for any [uint64] ([size_loop_fuel]). *)
Fixpoint size_loop (fuel : nat) (v : Z) (n : nat) : nat :=
  match fuel with
  | O => n
  | S fuel => if 128 <=? v then size_loop fuel (Z.shiftr v 7) (n + 1) else n
  end.

Definition protoSizeVarint (v : Z) : nat := size_loop 10 v 1.

Fixpoint append_loop (fuel : nat) (b : bytes) (v : Z) : bytes :=
  match fuel with
  | O => b ++ [u8 v]
  | S fuel => if 128 <=? v then append_loop fuel (b ++ [Z.lor (u8 v) 128]) (Z.shiftr v 7) else b ++ [u8 v]
  end.

Definition protoAppendVarint (b : bytes) (v : Z) : bytes := append_loop 10 b v.

Definition protoSizeTag (fieldNumber : Z) : nat := protoSizeVarint (u64 (Z.shiftl fieldNumber 3)).

Definition protoAppendTag (b : bytes) (fieldNumber wireType : Z) : bytes :=
  protoAppendVarint b (Z.lor (u64 (Z.shiftl fieldNumber 3)) wireType).

(** [len] of a slice that may be nil. *)
Definition blen (o : option bytes) : nat := match o with None => 0 | Some b => length b end.
Definition bval (o : option bytes) : bytes := match o with None => [] | Some b => b end.

Definition u64len (n : nat) : Z := u64 (Z.of_nat n).

(** ** Messages of src/protocol/frame.proto and transfer.proto *)

Record Frame := MkFrame { MessageType : Z; MessageBytes : option bytes; Raw : bool }.

Record Tag := MkTag { SendTime : Z }.

Record Pack := MkPack {
  MessageId : option bytes;
  SequenceId : option bytes;
  SequenceNumber : Z;
  Head : bool;
  Frames : list Frame;
  Nack : bool;
  ContractFrame : option Frame;
  PackTag : option Tag;
  ContractId : option bytes;
}.

Record Ack := MkAck {
  AckMessageId : option bytes;
  AckSequenceId : option bytes;
  Selective : bool;
  AckTag : option Tag;
  ReceiveWindowByteCount : option Z;
}.

Record TransferFrame := MkTransferFrame {
  tf_TransferPath : option protoTransferPath;
  tf_Frame : option Frame;
  tf_Pack : option Pack;
  tf_Ack : option Ack;
  tf_EncryptedTransferFrame : option bytes;
  tf_SessionRole : option Z;
  tf_SessionCompanion : option bool;
}.

Definition emptyFrame : Frame := MkFrame 0 None false.
Definition emptyPack : Pack := MkPack None None 0 false [] false None None None.
Definition emptyAck : Ack := MkAck None None false None None.
Definition emptyTransferFrame : TransferFrame := MkTransferFrame None None None None None None None.

Definition MessageType_TransferPack : Z := 0.
Definition MessageType_TransferAck : Z := 1.

(** ** Encoding *)

Definition sizeFrame (f : Frame) : nat :=
  let n := 0%nat in
  let n := if negb (MessageType f =? 0) then (n + (protoSizeTag 1 + protoSizeVarint (u64 (MessageType f))))%nat else n in
  let n := if (0 <? blen (MessageBytes f))%nat
           then (n + (protoSizeTag 2 + protoSizeVarint (u64len (blen (MessageBytes f))) + blen (MessageBytes f)))%nat
           else n in
  if Raw f then (n + (protoSizeTag 3 + 1))%nat else n.

Definition appendFrame (b : bytes) (f : Frame) : bytes :=
  let b := if negb (MessageType f =? 0)
           then protoAppendVarint (protoAppendTag b 1 protoWireVarint) (u64 (MessageType f)) else b in
  let b := if (0 <? blen (MessageBytes f))%nat
           then protoAppendVarint (protoAppendTag b 2 protoWireBytes) (u64len (blen (MessageBytes f))) ++ bval (MessageBytes f)
           else b in
  if Raw f then protoAppendTag b 3 protoWireVarint ++ [1] else b.

Definition sizeTransferPath (path : TransferPath) : nat :=
  let n := 0%nat in
  let n := if negb (is_zero (DestinationId path)) then (n + (protoSizeTag 1 + protoSizeVarint 16 + 16))%nat else n in
  let n := if negb (is_zero (SourceId path)) then (n + (protoSizeTag 2 + protoSizeVarint 16 + 16))%nat else n in
  if negb (is_zero (StreamId path)) then (n + (protoSizeTag 3 + protoSizeVarint 16 + 16))%nat else n.

Definition appendIdField (b : bytes) (fieldNumber : Z) (id : bytes) : bytes :=
  protoAppendVarint (protoAppendTag b fieldNumber protoWireBytes) 16 ++ id.

Definition appendTransferPath (b : bytes) (path : TransferPath) : bytes :=
  let b := if negb (is_zero (DestinationId path)) then appendIdField b 1 (DestinationId path) else b in
  let b := if negb (is_zero (SourceId path)) then appendIdField b 2 (SourceId path) else b in
  if negb (is_zero (StreamId path)) then appendIdField b 3 (StreamId path) else b.

Record sendPackFrame := SendPackFrame {
  sp_path : TransferPath;
  sp_messageId : bytes;
  sp_sequenceId : bytes;
  sp_sequenceNumber : Z;
  sp_head : bool;
  sp_nack : bool;
  sp_frames : list Frame;
  sp_contractFrame : option Frame;
  sp_tagSendTime : Z;
  sp_contractId : option bytes;
  sp_sessionRole : Z;
  sp_sessionRoleSet : bool;
  sp_companion : bool;
}.

Definition sizeTagBody (sendTime : Z) : nat :=
  if negb (sendTime =? 0) then (protoSizeTag 1 + protoSizeVarint sendTime)%nat else 0%nat.

Definition appendTagBody (b : bytes) (sendTime : Z) : bytes :=
  if negb (sendTime =? 0) then protoAppendVarint (protoAppendTag b 1 protoWireVarint) sendTime else b.

Definition sizePack (m : sendPackFrame) : nat :=
  let n := 0%nat in
  let n := (n + (protoSizeTag 1 + protoSizeVarint 16 + 16))%nat in
  let n := (n + (protoSizeTag 2 + protoSizeVarint 16 + 16))%nat in
  let n := if negb (sp_sequenceNumber m =? 0) then (n + (protoSizeTag 3 + protoSizeVarint (sp_sequenceNumber m)))%nat else n in
  let n := if sp_head m then (n + (protoSizeTag 4 + 1))%nat else n in
  let n := fold_left (fun n f => let fs := sizeFrame f in (n + (protoSizeTag 5 + protoSizeVarint (u64len fs) + fs))%nat)
             (sp_frames m) n in
  let n := if sp_nack m then (n + (protoSizeTag 6 + 1))%nat else n in
  let n := match sp_contractFrame m with
           | Some f => let fs := sizeFrame f in (n + (protoSizeTag 7 + protoSizeVarint (u64len fs) + fs))%nat
           | None => n
           end in
  let tagBody := sizeTagBody (sp_tagSendTime m) in
  let n := (n + (protoSizeTag 8 + protoSizeVarint (u64len tagBody) + tagBody))%nat in
  match sp_contractId m with
  | Some _ => (n + (protoSizeTag 9 + protoSizeVarint 16 + 16))%nat
  | None => n
  end.

Definition appendPack (m : sendPackFrame) (b : bytes) : bytes :=
  let b := appendIdField b 1 (sp_messageId m) in
  let b := appendIdField b 2 (sp_sequenceId m) in
  let b := if negb (sp_sequenceNumber m =? 0)
           then protoAppendVarint (protoAppendTag b 3 protoWireVarint) (sp_sequenceNumber m) else b in
  let b := if sp_head m then protoAppendTag b 4 protoWireVarint ++ [1] else b in
  let b := fold_left (fun b f => appendFrame (protoAppendVarint (protoAppendTag b 5 protoWireBytes) (u64len (sizeFrame f))) f)
             (sp_frames m) b in
  let b := if sp_nack m then protoAppendTag b 6 protoWireVarint ++ [1] else b in
  let b := match sp_contractFrame m with
           | Some f => appendFrame (protoAppendVarint (protoAppendTag b 7 protoWireBytes) (u64len (sizeFrame f))) f
           | None => b
           end in
  let tagBody := sizeTagBody (sp_tagSendTime m) in
  let b := protoAppendVarint (protoAppendTag b 8 protoWireBytes) (u64len tagBody) in
  let b := appendTagBody b (sp_tagSendTime m) in
  match sp_contractId m with
  | Some id => appendIdField b 9 id
  | None => b
  end.

Definition sizePackFrame (m : sendPackFrame) : nat :=
  let pathSize := sizeTransferPath (sp_path m) in
  let n := (0 + (protoSizeTag 1 + protoSizeVarint (u64len pathSize) + pathSize))%nat in
  let n := (n + (protoSizeTag 3 + protoSizeVarint (u64 MessageType_TransferPack)))%nat in
  let packSize := sizePack m in
  let n := (n + (protoSizeTag 4 + protoSizeVarint (u64len packSize) + packSize))%nat in
  let n := if sp_sessionRoleSet m then (n + (protoSizeTag 7 + protoSizeVarint (u64 (sp_sessionRole m))))%nat else n in
  if sp_companion m then (n + (protoSizeTag 8 + 1))%nat else n.

Definition appendPackFrame (m : sendPackFrame) (b : bytes) : bytes :=
  let b := protoAppendVarint (protoAppendTag b 1 protoWireBytes) (u64len (sizeTransferPath (sp_path m))) in
  let b := appendTransferPath b (sp_path m) in
  let b := protoAppendVarint (protoAppendTag b 3 protoWireVarint) (u64 MessageType_TransferPack) in
  let b := protoAppendVarint (protoAppendTag b 4 protoWireBytes) (u64len (sizePack m)) in
  let b := appendPack m b in
  let b := if sp_sessionRoleSet m
           then protoAppendVarint (protoAppendTag b 7 protoWireVarint) (u64 (sp_sessionRole m)) else b in
  if sp_companion m then protoAppendTag b 8 protoWireVarint ++ [1] else b.

Definition marshalSendPackTransferFrame `{MessagePool} (m : sendPackFrame) : bytes :=
  let buf := pool_get (sizePackFrame m) in
  appendPackFrame m (take 0 buf).

Record sendAckFrame := SendAckFrame {
  sa_path : TransferPath;
  sa_messageId : bytes;
  sa_sequenceId : bytes;
  sa_selective : bool;
  sa_tag : option Tag;
  sa_receiveWindowByteCount : Z;
  sa_receiveWindowSet : bool;
}.

Definition sizeAck (m : sendAckFrame) : nat :=
  let n := (0 + (protoSizeTag 1 + protoSizeVarint 16 + 16))%nat in
  let n := (n + (protoSizeTag 2 + protoSizeVarint 16 + 16))%nat in
  let n := if sa_selective m then (n + (protoSizeTag 3 + 1))%nat else n in
  let n := match sa_tag m with
           | Some t => let tagBody := sizeTagBody (SendTime t) in
                       (n + (protoSizeTag 4 + protoSizeVarint (u64len tagBody) + tagBody))%nat
           | None => n
           end in
  if sa_receiveWindowSet m then (n + (protoSizeTag 8 + protoSizeVarint (sa_receiveWindowByteCount m)))%nat else n.

Definition appendAck (m : sendAckFrame) (b : bytes) : bytes :=
  let b := appendIdField b 1 (sa_messageId m) in
  let b := appendIdField b 2 (sa_sequenceId m) in
  let b := if sa_selective m then protoAppendTag b 3 protoWireVarint ++ [1] else b in
  let b := match sa_tag m with
           | Some t => appendTagBody (protoAppendVarint (protoAppendTag b 4 protoWireBytes) (u64len (sizeTagBody (SendTime t))))
                         (SendTime t)
           | None => b
           end in
  if sa_receiveWindowSet m then protoAppendVarint (protoAppendTag b 8 protoWireVarint) (sa_receiveWindowByteCount m) else b.

Definition sizeAckFrame (m : sendAckFrame) : nat :=
  let pathSize := sizeTransferPath (sa_path m) in
  let n := (0 + (protoSizeTag 1 + protoSizeVarint (u64len pathSize) + pathSize))%nat in
  let n := (n + (protoSizeTag 3 + protoSizeVarint (u64 MessageType_TransferAck)))%nat in
  let ackSize := sizeAck m in
  (n + (protoSizeTag 5 + protoSizeVarint (u64len ackSize) + ackSize))%nat.

Definition appendAckFrame (m : sendAckFrame) (b : bytes) : bytes :=
  let b := protoAppendVarint (protoAppendTag b 1 protoWireBytes) (u64len (sizeTransferPath (sa_path m))) in
  let b := appendTransferPath b (sa_path m) in
  let b := protoAppendVarint (protoAppendTag b 3 protoWireVarint) (u64 MessageType_TransferAck) in
  let b := protoAppendVarint (protoAppendTag b 5 protoWireBytes) (u64len (sizeAck m)) in
  appendAck m b.

Definition marshalSendAckTransferFrame `{MessagePool} (m : sendAckFrame) : bytes :=
  let buf := pool_get (sizeAckFrame m) in
  appendAckFrame m (take 0 buf).

(** ** The protowire package *)

(** A negative count, protowire's error, is [None]. *)
Class ProtoWire := {
  ConsumeTag : bytes -> option (Z * Z * nat);
  ConsumeVarint : bytes -> option (Z * nat);
  ConsumeBytes : bytes -> option (bytes * nat);
  ConsumeFieldValue : Z -> Z -> bytes -> option nat;
  DecodeBool : Z -> bool;
}.

Definition VarintType : Z := 0.
Definition BytesType : Z := 2.

(** The base-128 encoding of the wire format: seven bits per byte, least
    significant first, the high bit set on every byte but the last. *)
Inductive varint_bytes : Z -> bytes -> Prop :=
| varint_last v : 0 <= v < 128 -> varint_bytes v [v]
| varint_more v l : 128 <= v -> varint_bytes (v / 128) l -> varint_bytes v ((v mod 128 + 128) :: l).

(** What the package documents: a well-formed value is consumed exactly, field
    numbers start at 1 (MinValidNumber), and nothing is consumed past the end
    of the input. *)
Class ProtoWireLaws `{ProtoWire} := {
  consume_varint v l rest : varint_bytes v l -> v < 18446744073709551616 ->
    ConsumeVarint (l ++ rest) = Some (v, length l);
  consume_tag num typ l rest : 1 <= num < 536870912 -> 0 <= typ < 8 -> varint_bytes (num * 8 + typ) l ->
    ConsumeTag (l ++ rest) = Some (num, typ, length l);
  consume_tag_invalid typ l rest : 0 <= typ < 8 -> varint_bytes typ l -> ConsumeTag (l ++ rest) = None;
  consume_bytes v l rest : varint_bytes (Z.of_nat (length v)) l -> Z.of_nat (length v) < 18446744073709551616 ->
    ConsumeBytes (l ++ v ++ rest) = Some (v, (length l + length v)%nat);
  consume_field_varint num v l rest : varint_bytes v l -> v < 18446744073709551616 ->
    ConsumeFieldValue num 0 (l ++ rest) = Some (length l);
  consume_tag_bound b num typ n : ConsumeTag b = Some (num, typ, n) -> (1 <= n <= length b)%nat;
  consume_varint_bound b v n : ConsumeVarint b = Some (v, n) -> (1 <= n <= length b)%nat;
  consume_bytes_bound b v n : ConsumeBytes b = Some (v, n) -> (length v < n <= length b)%nat;
  consume_field_bound num typ b n : ConsumeFieldValue num typ b = Some n -> (n <= length b)%nat;
  decode_bool v : DecodeBool v = negb (v =? 0);
}.

(** ** Decoding *)

Section decode.
Context {PW : ProtoWire}.

Definition copyProtoBytes (v : bytes) : option bytes := match v with [] => None | _ => Some v end.

(** The value of a field of the type its case requires, and what follows it;
    [None] is the case's [return nil, false]. *)
Definition varint_field (typ : Z) (b : bytes) : go (option (Z * bytes)) :=
  if negb (typ =? VarintType) then Ret None
  else match ConsumeVarint b with
       | None => Ret None
       | Some (v, vn) => let! b := slice b vn (length b) in Ret (Some (v, b))
       end.

Definition bytes_field (typ : Z) (b : bytes) : go (option (bytes * bytes)) :=
  if negb (typ =? BytesType) then Ret None
  else match ConsumeBytes b with
       | None => Ret None
       | Some (v, vn) => let! b := slice b vn (length b) in Ret (Some (v, b))
       end.

Definition skip_field (num typ : Z) (b : bytes) : go (option bytes) :=
  match ConsumeFieldValue num typ b with
  | None => Ret None
  | Some fn => let! b := slice b fn (length b) in Ret (Some b)
  end.

(** The loop every decoder runs: a tag, then the case for its field number. It
    consumes at least one byte per round, so the length of the input bounds
    the rounds ([fields_total]). *)
Fixpoint fields {A} (step : Z -> Z -> bytes -> A -> go (option (A * bytes))) (fuel : nat) (b : bytes) (acc : A)
  : go (option A) :=
  match b with
  | [] => Ret (Some acc)
  | _ :: _ =>
      match fuel with
      | O => Panic
      | S fuel =>
          match ConsumeTag b with
          | None => Ret None
          | Some (num, typ, n) =>
              let! b := slice b n (length b) in
              let! r := step num typ b acc in
              match r with
              | None => Ret None
              | Some (acc, b) => fields step fuel b acc
              end
          end
      end
  end.

(** The three shapes of a case: set from a varint, set from bytes that may be
    rejected, skip. *)
Definition on_varint {A} (typ : Z) (b : bytes) (k : Z -> A) : go (option (A * bytes)) :=
  let! r := varint_field typ b in
  Ret (match r with None => None | Some (v, b) => Some (k v, b) end).

Definition on_bytes {A} (typ : Z) (b : bytes) (k : bytes -> go (option A)) : go (option (A * bytes)) :=
  let! r := bytes_field typ b in
  match r with
  | None => Ret None
  | Some (v, b) => let! a := k v in Ret (match a with None => None | Some a => Some (a, b) end)
  end.

Definition on_skip {A} (num typ : Z) (b : bytes) (acc : A) : go (option (A * bytes)) :=
  let! r := skip_field num typ b in
  Ret (match r with None => None | Some b => Some (acc, b) end).

Definition decodeTag (b : bytes) : go (option Tag) :=
  fields (fun num typ b tag =>
    if num =? 1 then on_varint typ b (fun v => MkTag v)
    else on_skip num typ b tag) (length b) b (MkTag 0).

Definition decodeFrame (b : bytes) : go (option Frame) :=
  fields (fun num typ b f =>
    if num =? 1 then on_varint typ b (fun v => MkFrame (i32 v) (MessageBytes f) (Raw f))
    else if num =? 2 then on_bytes typ b (fun v => Ret (Some (MkFrame (MessageType f) (copyProtoBytes v) (Raw f))))
    else if num =? 3 then on_varint typ b (fun v => MkFrame (MessageType f) (MessageBytes f) (DecodeBool v))
    else on_skip num typ b f) (length b) b emptyFrame.

Definition decodeTransferPathProto (b : bytes) : go (option protoTransferPath) :=
  fields (fun num typ b p =>
    if (num =? 1) || (num =? 2) || (num =? 3) then
      on_bytes typ b (fun v => Ret (Some (
        if num =? 1 then ProtoPath (copyProtoBytes v) (pp_source_id p) (pp_stream_id p)
        else if num =? 2 then ProtoPath (pp_destination_id p) (copyProtoBytes v) (pp_stream_id p)
        else ProtoPath (pp_destination_id p) (pp_source_id p) (copyProtoBytes v))))
    else on_skip num typ b p) (length b) b (ProtoPath None None None).

Definition set_pack_ids (k : Pack) (num : Z) (v : option bytes) : Pack :=
  if num =? 1 then MkPack v (SequenceId k) (SequenceNumber k) (Head k) (Frames k) (Nack k) (ContractFrame k) (PackTag k) (ContractId k)
  else if num =? 2 then MkPack (MessageId k) v (SequenceNumber k) (Head k) (Frames k) (Nack k) (ContractFrame k) (PackTag k) (ContractId k)
  else MkPack (MessageId k) (SequenceId k) (SequenceNumber k) (Head k) (Frames k) (Nack k) (ContractFrame k) (PackTag k) v.
Definition set_pack_num (k : Pack) (v : Z) : Pack :=
  MkPack (MessageId k) (SequenceId k) v (Head k) (Frames k) (Nack k) (ContractFrame k) (PackTag k) (ContractId k).
Definition set_pack_head (k : Pack) (v : bool) : Pack :=
  MkPack (MessageId k) (SequenceId k) (SequenceNumber k) v (Frames k) (Nack k) (ContractFrame k) (PackTag k) (ContractId k).
Definition set_pack_nack (k : Pack) (v : bool) : Pack :=
  MkPack (MessageId k) (SequenceId k) (SequenceNumber k) (Head k) (Frames k) v (ContractFrame k) (PackTag k) (ContractId k).
Definition set_pack_frames (k : Pack) (l : list Frame) : Pack :=
  MkPack (MessageId k) (SequenceId k) (SequenceNumber k) (Head k) l (Nack k) (ContractFrame k) (PackTag k) (ContractId k).
Definition set_pack_contract (k : Pack) (f : option Frame) : Pack :=
  MkPack (MessageId k) (SequenceId k) (SequenceNumber k) (Head k) (Frames k) (Nack k) f (PackTag k) (ContractId k).
Definition set_pack_tag (k : Pack) (t : option Tag) : Pack :=
  MkPack (MessageId k) (SequenceId k) (SequenceNumber k) (Head k) (Frames k) (Nack k) (ContractFrame k) t (ContractId k).

Definition pack_field (num typ : Z) (b : bytes) (pack : Pack) : go (option (Pack * bytes)) :=
  if (num =? 1) || (num =? 2) || (num =? 9) then
    on_bytes typ b (fun v => Ret (Some (set_pack_ids pack num (copyProtoBytes v))))
  else if num =? 3 then on_varint typ b (fun v => set_pack_num pack v)
  else if num =? 4 then on_varint typ b (fun v => set_pack_head pack (DecodeBool v))
  else if num =? 6 then on_varint typ b (fun v => set_pack_nack pack (DecodeBool v))
  else if (num =? 5) || (num =? 7) then
    on_bytes typ b (fun v =>
      let! f := decodeFrame v in
      Ret (match f with
           | None => None
           | Some f => Some (if num =? 5 then set_pack_frames pack (Frames pack ++ [f]) else set_pack_contract pack (Some f))
           end))
  else if num =? 8 then
    on_bytes typ b (fun v =>
      let! t := decodeTag v in
      Ret (match t with None => None | Some t => Some (set_pack_tag pack (Some t)) end))
  else on_skip num typ b pack.

Definition decodePack (b : bytes) : go (option Pack) := fields pack_field (length b) b emptyPack.

Definition decodeAck (b : bytes) : go (option Ack) :=
  fields (fun num typ b a =>
    if (num =? 1) || (num =? 2) then
      on_bytes typ b (fun v => Ret (Some (
        if num =? 1 then MkAck (copyProtoBytes v) (AckSequenceId a) (Selective a) (AckTag a) (ReceiveWindowByteCount a)
        else MkAck (AckMessageId a) (copyProtoBytes v) (Selective a) (AckTag a) (ReceiveWindowByteCount a))))
    else if num =? 3 then
      on_varint typ b (fun v => MkAck (AckMessageId a) (AckSequenceId a) (DecodeBool v) (AckTag a) (ReceiveWindowByteCount a))
    else if num =? 4 then
      on_bytes typ b (fun v =>
        let! t := decodeTag v in
        Ret (match t with
             | None => None
             | Some t => Some (MkAck (AckMessageId a) (AckSequenceId a) (Selective a) (Some t) (ReceiveWindowByteCount a))
             end))
    else on_skip num typ b a) (length b) b emptyAck.

Definition set_tf_path (f : TransferFrame) (p : option protoTransferPath) : TransferFrame :=
  MkTransferFrame p (tf_Frame f) (tf_Pack f) (tf_Ack f) (tf_EncryptedTransferFrame f) (tf_SessionRole f) (tf_SessionCompanion f).
Definition set_tf_frame (f : TransferFrame) (x : Frame) : TransferFrame :=
  MkTransferFrame (tf_TransferPath f) (Some x) (tf_Pack f) (tf_Ack f) (tf_EncryptedTransferFrame f) (tf_SessionRole f) (tf_SessionCompanion f).
Definition set_tf_pack (f : TransferFrame) (x : Pack) : TransferFrame :=
  MkTransferFrame (tf_TransferPath f) (tf_Frame f) (Some x) (tf_Ack f) (tf_EncryptedTransferFrame f) (tf_SessionRole f) (tf_SessionCompanion f).
Definition set_tf_ack (f : TransferFrame) (x : Ack) : TransferFrame :=
  MkTransferFrame (tf_TransferPath f) (tf_Frame f) (tf_Pack f) (Some x) (tf_EncryptedTransferFrame f) (tf_SessionRole f) (tf_SessionCompanion f).
Definition set_tf_encrypted (f : TransferFrame) (x : option bytes) : TransferFrame :=
  MkTransferFrame (tf_TransferPath f) (tf_Frame f) (tf_Pack f) (tf_Ack f) x (tf_SessionRole f) (tf_SessionCompanion f).
Definition set_tf_role (f : TransferFrame) (x : Z) : TransferFrame :=
  MkTransferFrame (tf_TransferPath f) (tf_Frame f) (tf_Pack f) (tf_Ack f) (tf_EncryptedTransferFrame f) (Some x) (tf_SessionCompanion f).
Definition set_tf_companion (f : TransferFrame) (x : bool) : TransferFrame :=
  MkTransferFrame (tf_TransferPath f) (tf_Frame f) (tf_Pack f) (tf_Ack f) (tf_EncryptedTransferFrame f) (tf_SessionRole f) (Some x).

(** [None] is the result [false]. *)
Definition unmarshalTransferFrame (b : bytes) (tf : TransferFrame) (decodePath : bool) : go (option TransferFrame) :=
  fields (fun num typ b tf =>
    if num =? 1 then
      on_bytes typ b (fun v =>
        if decodePath then
          let! p := decodeTransferPathProto v in
          Ret (match p with None => None | Some p => Some (set_tf_path tf (Some p)) end)
        else Ret (Some tf))
    else if num =? 2 then
      on_bytes typ b (fun v =>
        let! f := decodeFrame v in
        Ret (match f with None => None | Some f => Some (set_tf_frame tf f) end))
    else if num =? 3 then on_varint typ b (fun _ => tf)
    else if num =? 4 then
      on_bytes typ b (fun v =>
        let! p := decodePack v in
        Ret (match p with None => None | Some p => Some (set_tf_pack tf p) end))
    else if num =? 5 then
      on_bytes typ b (fun v =>
        let! a := decodeAck v in
        Ret (match a with None => None | Some a => Some (set_tf_ack tf a) end))
    else if num =? 6 then on_bytes typ b (fun v => Ret (Some (set_tf_encrypted tf (copyProtoBytes v))))
    else if num =? 7 then on_varint typ b (fun v => set_tf_role tf (i32 v))
    else if num =? 8 then on_varint typ b (fun v => set_tf_companion tf (DecodeBool v))
    else on_skip num typ b tf) (length b) b tf.
End decode.

(** ** The transfer path reader *)

(** [readVarint(limit)] at position [i]: the value and the position after it.
    The shift is 0, 7, .., 63 in the ten rounds it can run. *)
Fixpoint read_varint (fuel : nat) (b : bytes) (limit i : nat) (v shift : Z) : go (option (Z * nat)) :=
  match fuel with
  | O => Ret None
  | S fuel =>
      if (limit <=? i)%nat || (63 <? shift) then Ret None
      else
        let! c := index b i in
        let v := Z.lor v (u64 (Z.shiftl (Z.land c 127) shift)) in
        if c <? 128 then Ret (Some (v, (i + 1)%nat)) else read_varint fuel b limit (i + 1) v (shift + 7)
  end.

Definition readVarint (b : bytes) (limit i : nat) : go (option (Z * nat)) := read_varint 11 b limit i 0 0.

Definition skipField (b : bytes) (wireType : Z) (limit i : nat) : go (option nat) :=
  if wireType =? 0 then
    let! r := readVarint b limit i in
    Ret (match r with None => None | Some (_, i) => Some i end)
  else if wireType =? 1 then Ret (if (limit <? i + 8)%nat then None else Some (i + 8)%nat)
  else if wireType =? 2 then
    let! r := readVarint b limit i in
    Ret (match r with
         | None => None
         | Some (len, i) => if Z.of_nat (limit - i) <? len then None else Some (i + Z.to_nat len)%nat
         end)
  else if wireType =? 5 then Ret (if (limit <? i + 4)%nat then None else Some (i + 4)%nat)
  else Ret None.

Definition set_path_field (num : Z) (path : TransferPath) (id : bytes) : TransferPath :=
  if num =? 1 then Path (SourceId path) id (StreamId path)
  else if num =? 2 then Path id (DestinationId path) (StreamId path)
  else Path (SourceId path) (DestinationId path) id.

(** The inner loop over the fields of a transfer path that ends at [stop]. *)
Fixpoint path_fields (fuel : nat) (b : bytes) (stop i : nat) (path : TransferPath) : go (option (TransferPath * nat)) :=
  if (i <? stop)%nat then
    match fuel with
    | O => Panic
    | S fuel =>
        let! r := readVarint b stop i in
        match r with
        | None => Ret None
        | Some (pathTag, i) =>
            let pathFieldNumber := Z.shiftr pathTag 3 in
            let pathWireType := Z.land pathTag 7 in
            if (pathFieldNumber =? 1) || (pathFieldNumber =? 2) || (pathFieldNumber =? 3) then
              if negb (pathWireType =? 2) then Ret None
              else
                let! r := readVarint b stop i in
                match r with
                | None => Ret None
                | Some (idLength, i) =>
                    if Z.of_nat (stop - i) <? idLength then Ret None
                    else if negb (idLength =? 16) then Ret None
                    else
                      let! id := slice b i (i + 16) in
                      path_fields fuel b stop (i + 16) (set_path_field pathFieldNumber path id)
                end
            else
              let! r := skipField b pathWireType stop i in
              match r with
              | None => Ret None
              | Some i => path_fields fuel b stop i path
              end
        end
    end
  else Ret (Some (path, i)).

Fixpoint frame_fields (fuel : nat) (b : bytes) (i : nat) (path : TransferPath) (exists' : bool)
  : go (option (TransferPath * bool)) :=
  let n := length b in
  if (i <? n)%nat then
    match fuel with
    | O => Panic
    | S fuel =>
        let! r := readVarint b n i in
        match r with
        | None => Ret None
        | Some (tag, i) =>
            let fieldNumber := Z.shiftr tag 3 in
            let wireType := Z.land tag 7 in
            if negb (fieldNumber =? 1) then
              let! r := skipField b wireType n i in
              match r with
              | None => Ret None
              | Some i => frame_fields fuel b i path exists'
              end
            else if negb (wireType =? 2) then Ret None
            else
              let! r := readVarint b n i in
              match r with
              | None => Ret None
              | Some (len, i) =>
                  if Z.of_nat (n - i) <? len then Ret None
                  else
                    let stop := (i + Z.to_nat len)%nat in
                    let! r := path_fields (length b) b stop i path in
                    match r with
                    | None => Ret None
                    | Some (path, i) => frame_fields fuel b i path true
                    end
              end
        end
    end
  else Ret (Some (path, exists')).

(** [None] is [ok = false]. *)
Definition parseFilteredTransferPath (b : bytes) : go (option (TransferPath * bool)) :=
  frame_fields (length b) b 0 noPath false.

(** [unmarshal] is the full decoder the reader falls back to: an error, or the
    frame's path if it has one. *)
Definition FilteredTransferPath (unmarshal : bytes -> (option protoTransferPath) + path_err) (b : bytes)
  : go (TransferPath + path_err) :=
  let! r := parseFilteredTransferPath b in
  Ret (match r with
       | Some (path, true) => inl path
       | Some (_, false) => inr ErrMissingPath
       | None =>
           match unmarshal b with
           | inr e => inr e
           | inl None => inr ErrMissingPath
           | inl (Some p) => TransferPathFromProtobuf (Some p)
           end
       end).

(** ** Varints *)

Definition enc (v : Z) : bytes := protoAppendVarint [] v.

Lemma append_loop_app fuel b v : append_loop fuel b v = b ++ append_loop fuel [] v.
Proof.
  revert b v. induction fuel as [|fuel IH]; intros b v; cbn [append_loop]; [done|].
  destruct (128 <=? v); [|done]. rewrite IH, (IH ([] ++ _)). by rewrite <- app_assoc.
Qed.

Lemma protoAppendVarint_app b v : protoAppendVarint b v = b ++ enc v.
Proof. apply append_loop_app. Qed.

Lemma lor_tag num typ : 0 <= num < 16 -> 0 <= typ < 8 -> Z.lor (num * 8) typ = num * 8 + typ.
Proof.
  intros Hn Ht. apply Z.eqb_eq. revert num Hn. refine (all_below (fun num => Z.lor (num * 8) typ =? num * 8 + typ) 16 _).
  revert typ Ht. refine (all_below (fun typ => forallb _ _) 8 _). by vm_compute.
Qed.

Lemma lor_128 v : 0 <= v -> Z.lor (u8 v) 128 = v mod 128 + 128.
Proof.
  intros Hv. unfold u8. assert (E : v mod 128 = (v mod 256) mod 128).
  { rewrite (Z.mod_eq v 256) by lia. replace (v - 256 * (v / 256)) with (v + (- 2 * (v / 256)) * 128) by lia.
    by rewrite Z.mod_add by lia. }
  rewrite E. pose proof (Z.mod_pos_bound v 256 ltac:(lia)) as Hr. revert Hr. generalize (v mod 256). intros r Hr.
  apply Z.eqb_eq. revert r Hr. refine (all_below (fun r => Z.lor r 128 =? r mod 128 + 128) 256 _). by vm_compute.
Qed.

(** The tag of each field used here is one byte. *)
Lemma protoAppendTag_app b num typ :
  0 <= num < 16 -> 0 <= typ < 8 -> protoAppendTag b num typ = b ++ [num * 8 + typ].
Proof.
  intros Hn Ht. unfold protoAppendTag, protoAppendVarint. rewrite Z.shiftl_mul_pow2 by lia. change (2 ^ 3) with 8.
  rewrite u64_small by lia. rewrite lor_tag by done. cbn [append_loop].
  rewrite (proj2 (Z.leb_gt _ _)) by lia. by rewrite u8_small by lia.
Qed.

Lemma append_loop_varint fuel v :
  0 <= v < 128 ^ (Z.of_nat fuel + 1) -> varint_bytes v (append_loop fuel [] v).
Proof.
  revert v. induction fuel as [|fuel IH]; intros v Hv; cbn [append_loop].
  - change (128 ^ _) with 128 in Hv. cbn [app]. rewrite u8_small by lia. by constructor.
  - destruct (Z.leb_spec 128 v).
    + rewrite append_loop_app, lor_128, Z.shiftr_div_pow2 by lia. change (2 ^ 7) with 128. apply varint_more; [done|].
      apply IH. split; [apply Z.div_pos; lia|]. apply Z.div_lt_upper_bound; [lia|].
      replace (128 * 128 ^ _) with (128 ^ (Z.of_nat (S fuel) + 1)); [lia|].
      rewrite <- Z.pow_succ_r by lia. f_equal. lia.
    + rewrite u8_small by lia. constructor. lia.
Qed.

Lemma enc_varint v : 0 <= v < 18446744073709551616 -> varint_bytes v (enc v).
Proof. intros Hv. apply append_loop_varint. change (128 ^ _) with 151115727451828646838272. lia. Qed.

(** The sizes are those of the bytes appended. *)
Lemma size_loop_fuel fuel v n : (size_loop fuel v (S n) = n + length (append_loop fuel [] v))%nat.
Proof.
  revert v n. induction fuel as [|fuel IH]; intros v n; cbn [size_loop append_loop]; [cbn; lia|].
  destruct (128 <=? v); [|cbn; lia]. rewrite append_loop_app, length_app. cbn [length app].
  replace (S n + 1)%nat with (S (S n)) by lia. rewrite IH. lia.
Qed.

Lemma protoSizeVarint_length v : protoSizeVarint v = length (enc v).
Proof. apply (size_loop_fuel 10 v 0). Qed.

Lemma protoSizeVarint_bound v : (protoSizeVarint v <= 11)%nat.
Proof.
  unfold protoSizeVarint.
  enough (forall fuel w n, (size_loop fuel w n <= n + fuel)%nat) as Hl by (pose proof (Hl 10%nat v 1%nat); lia).
  induction fuel as [|fuel IH]; intros w n; cbn; [lia|].
  destruct (128 <=? w); [|lia]. specialize (IH (Z.shiftr w 7) (n + 1)%nat). lia.
Qed.

(** ** The encoders as concatenations of fields *)

Definition vfield (num v : Z) : bytes := (num * 8 + 0) :: enc v.
Definition bfield (num : Z) (v : bytes) : bytes := (num * 8 + 2) :: enc (u64len (length v)) ++ v.
Definition when (c : bool) (l : bytes) : bytes := if c then l else [].

Definition frame_bytes (f : Frame) : bytes :=
  when (negb (MessageType f =? 0)) (vfield 1 (u64 (MessageType f))) ++
  when (0 <? blen (MessageBytes f))%nat (bfield 2 (bval (MessageBytes f))) ++
  when (Raw f) (vfield 3 1).

Definition path_bytes (p : TransferPath) : bytes :=
  when (negb (is_zero (DestinationId p))) (bfield 1 (DestinationId p)) ++
  when (negb (is_zero (SourceId p))) (bfield 2 (SourceId p)) ++
  when (negb (is_zero (StreamId p))) (bfield 3 (StreamId p)).

Definition tag_bytes (t : Z) : bytes := when (negb (t =? 0)) (vfield 1 t).

Definition pack_bytes (m : sendPackFrame) : bytes :=
  bfield 1 (sp_messageId m) ++ bfield 2 (sp_sequenceId m) ++
  when (negb (sp_sequenceNumber m =? 0)) (vfield 3 (sp_sequenceNumber m)) ++
  when (sp_head m) (vfield 4 1) ++
  concat (map (fun f => bfield 5 (frame_bytes f)) (sp_frames m)) ++
  when (sp_nack m) (vfield 6 1) ++
  match sp_contractFrame m with Some f => bfield 7 (frame_bytes f) | None => [] end ++
  bfield 8 (tag_bytes (sp_tagSendTime m)) ++
  match sp_contractId m with Some id => bfield 9 id | None => [] end.

Definition pack_frame_bytes (m : sendPackFrame) : bytes :=
  bfield 1 (path_bytes (sp_path m)) ++ vfield 3 MessageType_TransferPack ++ bfield 4 (pack_bytes m) ++
  when (sp_sessionRoleSet m) (vfield 7 (u64 (sp_sessionRole m))) ++ when (sp_companion m) (vfield 8 1).

Definition ack_bytes (m : sendAckFrame) : bytes :=
  bfield 1 (sa_messageId m) ++ bfield 2 (sa_sequenceId m) ++ when (sa_selective m) (vfield 3 1) ++
  match sa_tag m with Some t => bfield 4 (tag_bytes (SendTime t)) | None => [] end ++
  when (sa_receiveWindowSet m) (vfield 8 (sa_receiveWindowByteCount m)).

Definition ack_frame_bytes (m : sendAckFrame) : bytes :=
  bfield 1 (path_bytes (sa_path m)) ++ vfield 3 MessageType_TransferAck ++ bfield 5 (ack_bytes m).

Definition pack_ok (m : sendPackFrame) : Prop :=
  path_ok (sp_path m) /\ isId (sp_messageId m) /\ isId (sp_sequenceId m) /\
  match sp_contractId m with Some id => isId id | None => True end.

Definition ack_ok (m : sendAckFrame) : Prop := path_ok (sa_path m) /\ isId (sa_messageId m) /\ isId (sa_sequenceId m).

Lemma vfield_app b num v : 0 <= num < 16 -> protoAppendVarint (protoAppendTag b num protoWireVarint) v = b ++ vfield num v.
Proof.
  intros Hn. rewrite protoAppendVarint_app, protoAppendTag_app by (unfold protoWireVarint; lia). by rewrite <- app_assoc.
Qed.

Lemma vfield_true b num : 0 <= num < 16 -> protoAppendTag b num protoWireVarint ++ [1] = b ++ vfield num 1.
Proof. intros Hn. rewrite protoAppendTag_app by (unfold protoWireVarint; lia). by rewrite <- app_assoc. Qed.

Lemma bfield_app b num v n :
  0 <= num < 16 -> n = length v -> protoAppendVarint (protoAppendTag b num protoWireBytes) (u64len n) ++ v = b ++ bfield num v.
Proof.
  intros Hn ->. rewrite protoAppendVarint_app, protoAppendTag_app by (unfold protoWireBytes; lia). by rewrite <- !app_assoc.
Qed.

Lemma appendIdField_app b num id : 0 <= num < 16 -> isId id -> appendIdField b num id = b ++ bfield num id.
Proof. intros Hn [Hl _]. unfold appendIdField. change 16 with (u64len 16). by rewrite bfield_app. Qed.

Lemma when_app (c : bool) (b l : bytes) : (if c then b ++ l else b) = b ++ when c l.
Proof. destruct c; [done|]. by rewrite app_nil_r. Qed.

Lemma length_vfield num v : length (vfield num v) = (1 + protoSizeVarint v)%nat.
Proof. by rewrite protoSizeVarint_length. Qed.

Lemma length_bfield num v : length (bfield num v) = (1 + protoSizeVarint (u64len (length v)) + length v)%nat.
Proof. unfold bfield. cbn [length]. rewrite length_app, protoSizeVarint_length. lia. Qed.

Lemma length_when c l : length (when c l) = if c then length l else 0%nat.
Proof. by destruct c. Qed.

Lemma length_id num id : isId id -> length (bfield num id) = (1 + 1 + 16)%nat.
Proof. intros [Hl _]. rewrite length_bfield, Hl. done. Qed.

(** Evaluates the sizes of constants. *)
Ltac tag_sizes :=
  repeat match goal with
  | |- context [protoSizeTag ?k] => let v := eval vm_compute in (protoSizeTag k) in change (protoSizeTag k) with v
  | |- context [protoSizeVarint 16] => change (protoSizeVarint 16) with 1%nat
  | |- context [protoSizeVarint 1] => change (protoSizeVarint 1) with 1%nat
  end.

(** Size and append agree, part by part. *)
Lemma frame_append f b : appendFrame b f = b ++ frame_bytes f /\ sizeFrame f = length (frame_bytes f).
Proof.
  split.
  - unfold appendFrame, frame_bytes. rewrite vfield_app by lia. rewrite when_app.
    rewrite bfield_app by (done || (by destruct (MessageBytes f))). rewrite when_app. rewrite vfield_true by lia. rewrite when_app.
    by rewrite <- !app_assoc.
  - unfold sizeFrame, frame_bytes. rewrite !length_app, !length_when, !length_vfield, length_bfield.
    replace (length (bval (MessageBytes f))) with (blen (MessageBytes f)) by (by destruct (MessageBytes f)). tag_sizes. repeat case_match; lia.
Qed.

Lemma path_append p b :
  path_ok p -> appendTransferPath b p = b ++ path_bytes p /\ sizeTransferPath p = length (path_bytes p).
Proof.
  intros (Hs & Hd & Ht). split.
  - unfold appendTransferPath, path_bytes. rewrite !appendIdField_app by (done || lia). rewrite !when_app.
    by rewrite <- !app_assoc.
  - unfold sizeTransferPath, path_bytes. rewrite !length_app, !length_when, !length_id by done. tag_sizes. repeat case_match; lia.
Qed.

Lemma tag_append t b : appendTagBody b t = b ++ tag_bytes t /\ sizeTagBody t = length (tag_bytes t).
Proof.
  unfold appendTagBody, sizeTagBody, tag_bytes. rewrite vfield_app, when_app, length_when, length_vfield by lia. tag_sizes. by destruct (negb _).
Qed.

Lemma tag_field_app b num t :
  0 <= num < 16 ->
  appendTagBody (protoAppendVarint (protoAppendTag b num protoWireBytes) (u64len (sizeTagBody t))) t = b ++ bfield num (tag_bytes t).
Proof. intros Hn. rewrite (proj1 (tag_append _ _)). apply bfield_app; [done|]. apply (tag_append t []). Qed.

Lemma frame_field_app b num f :
  0 <= num < 16 ->
  appendFrame (protoAppendVarint (protoAppendTag b num protoWireBytes) (u64len (sizeFrame f))) f = b ++ bfield num (frame_bytes f).
Proof. intros Hn. rewrite (proj1 (frame_append _ _)). apply bfield_app; [done|]. apply (frame_append f []). Qed.

Lemma frames_append l b n :
  fold_left (fun b f => appendFrame (protoAppendVarint (protoAppendTag b 5 protoWireBytes) (u64len (sizeFrame f))) f) l b =
    b ++ concat (map (fun f => bfield 5 (frame_bytes f)) l) /\
  fold_left (fun n f => let fs := sizeFrame f in (n + (protoSizeTag 5 + protoSizeVarint (u64len fs) + fs))%nat) l n =
    (n + length (concat (map (fun f => bfield 5 (frame_bytes f)) l)))%nat.
Proof.
  revert b n. induction l as [|f l IH]; intros b n; cbn [fold_left map concat]; [by rewrite app_nil_r, Nat.add_0_r|].
  rewrite frame_field_app by lia. destruct (IH (b ++ bfield 5 (frame_bytes f)) 0%nat) as [-> _]. split; [by rewrite <- app_assoc|].
  etransitivity; [apply (IH b)|]. cbv zeta.
  rewrite length_app, length_bfield, (proj2 (frame_append f [])). tag_sizes. lia.
Qed.

Lemma pack_append m b : pack_ok m -> appendPack m b = b ++ pack_bytes m /\ sizePack m = length (pack_bytes m).
Proof.
  intros (_ & Hm & Hs & Hc). split.
  - unfold appendPack, pack_bytes. rewrite !appendIdField_app by (done || lia).
    rewrite vfield_app, when_app, vfield_true, when_app by lia. rewrite (proj1 (frames_append _ _ 0%nat)).
    rewrite vfield_true, when_app by lia. rewrite tag_field_app by lia.
    destruct (sp_contractFrame m) as [f|]; rewrite ?frame_field_app by lia;
      (destruct (sp_contractId m) as [id|]; [rewrite appendIdField_app by (done || lia)|]);
      cbn [app]; rewrite ?app_nil_r, <- ?app_assoc; reflexivity.
  - unfold sizePack, pack_bytes. rewrite !length_app, !(length_id _ _ Hm), !(length_id _ _ Hs), !length_when, !length_vfield.
    rewrite (proj2 (frames_append (sp_frames m) [] _)), length_bfield, <- (proj2 (tag_append _ [])). tag_sizes.
    destruct (sp_contractFrame m) as [f|]; [rewrite length_bfield, (proj2 (frame_append f []))|];
      (destruct (sp_contractId m) as [id|]; [rewrite (length_id _ _ Hc)|]); cbn [length]; repeat case_match; lia.
Qed.

Lemma pack_frame_append m b :
  pack_ok m -> appendPackFrame m b = b ++ pack_frame_bytes m /\ sizePackFrame m = length (pack_frame_bytes m).
Proof.
  intros Hm. pose proof Hm as (Hp & _). destruct (path_append _ [] Hp) as [_ Esz]. destruct (pack_append m [] Hm) as [_ Epk]. split.
  - unfold appendPackFrame, pack_frame_bytes. rewrite (proj1 (path_append _ _ Hp)), (bfield_app _ 1 _ _ ltac:(lia) Esz).
    rewrite vfield_app by lia. rewrite (proj1 (pack_append _ _ Hm)), (bfield_app _ 4 _ _ ltac:(lia) Epk).
    rewrite vfield_app, when_app, vfield_true, when_app by lia. by rewrite <- !app_assoc.
  - unfold sizePackFrame, pack_frame_bytes. rewrite !length_app, !length_when, !length_vfield, !length_bfield, <- Esz, <- Epk. tag_sizes.
    change (u64 MessageType_TransferPack) with MessageType_TransferPack. repeat case_match; lia.
Qed.

Lemma ack_append m b : ack_ok m -> appendAck m b = b ++ ack_bytes m /\ sizeAck m = length (ack_bytes m).
Proof.
  intros (_ & Hm & Hs). split.
  - unfold appendAck, ack_bytes. rewrite !appendIdField_app by (done || lia).
    rewrite vfield_true, when_app, vfield_app, when_app by lia.
    destruct (sa_tag m) as [t|]; rewrite ?tag_field_app by lia; cbn [app]; by rewrite <- ?app_assoc.
  - unfold sizeAck, ack_bytes. rewrite !length_app, !(length_id _ _ Hm), !(length_id _ _ Hs), !length_when, !length_vfield. tag_sizes.
    destruct (sa_tag m) as [t|]; [rewrite length_bfield, <- (proj2 (tag_append _ []))|]; cbn [length]; repeat case_match; lia.
Qed.

Lemma ack_frame_append m b :
  ack_ok m -> appendAckFrame m b = b ++ ack_frame_bytes m /\ sizeAckFrame m = length (ack_frame_bytes m).
Proof.
  intros Hm. pose proof Hm as (Hp & _). destruct (path_append _ [] Hp) as [_ Esz]. destruct (ack_append m [] Hm) as [_ Eak]. split.
  - unfold appendAckFrame, ack_frame_bytes. rewrite (proj1 (path_append _ _ Hp)), (bfield_app _ 1 _ _ ltac:(lia) Esz).
    rewrite vfield_app by lia. rewrite (proj1 (ack_append _ _ Hm)), (bfield_app _ 5 _ _ ltac:(lia) Eak). by rewrite <- !app_assoc.
  - unfold sizeAckFrame, ack_frame_bytes. rewrite !length_app, !length_vfield, !length_bfield, <- Esz, <- Eak. tag_sizes.
    change (u64 MessageType_TransferAck) with MessageType_TransferAck. lia.
Qed.

(** ** Decoding what was encoded *)

(** Lengths in memory fit 63 bits. *)
Definition fits63 (n : nat) : Prop := Z.of_nat n < 9223372036854775808.

Section laws.
Context {PW : ProtoWire} {PL : ProtoWireLaws}.

Lemma varint_field_enc v rest :
  0 <= v < 18446744073709551616 -> varint_field VarintType (enc v ++ rest) = Ret (Some (v, rest)).
Proof.
  intros Hv. unfold varint_field. cbn [negb]. rewrite (consume_varint v (enc v) rest (enc_varint v Hv)) by lia.
  by rewrite slice_app_r by (by rewrite length_app).
Qed.

Lemma bytes_field_enc v rest :
  fits63 (length v) -> bytes_field BytesType (enc (u64len (length v)) ++ v ++ rest) = Ret (Some (v, rest)).
Proof.
  unfold fits63. intros Hv. unfold bytes_field, u64len. cbn [negb]. rewrite u64_small by lia.
  rewrite (consume_bytes v (enc _) rest (enc_varint (Z.of_nat (length v)) ltac:(lia))) by lia.
  rewrite app_assoc. rewrite <- length_app. by rewrite slice_app_r by (by rewrite length_app).
Qed.

Lemma skip_varint_enc num v rest :
  0 <= v < 18446744073709551616 -> skip_field num VarintType (enc v ++ rest) = Ret (Some rest).
Proof.
  intros Hv. unfold skip_field. rewrite (consume_field_varint num v (enc v) rest (enc_varint v Hv)) by lia.
  by rewrite slice_app_r by (by rewrite length_app).
Qed.

Section loops.
Context {A : Type} (step : Z -> Z -> bytes -> A -> go (option (A * bytes))).

(** The loop reads the bytes [b] in front of anything and turns [acc] into [acc']. *)
Definition eats (b : bytes) (acc acc' : A) : Prop :=
  forall fuel rest, (length (b ++ rest) <= fuel)%nat ->
  exists fuel', (length rest <= fuel')%nat /\ fields step fuel (b ++ rest) acc = fields step fuel' rest acc'.

Lemma eats_nil acc : eats [] acc acc.
Proof. intros fuel rest Hf. eauto. Qed.

Lemma eats_app b1 b2 acc1 acc2 acc3 : eats b1 acc1 acc2 -> eats b2 acc2 acc3 -> eats (b1 ++ b2) acc1 acc3.
Proof.
  intros H1 H2 fuel rest. rewrite <- app_assoc. intros Hf. destruct (H1 fuel (b2 ++ rest) Hf) as (f1 & Hf1 & ->).
  by apply H2.
Qed.

Lemma eats_when (c : bool) b acc acc' : (c = true -> eats b acc acc') -> eats (when c b) acc (if c then acc' else acc).
Proof. intros He. destruct c; [by apply He|apply eats_nil]. Qed.

Lemma eats_option {X} (o : option X) (b : X -> bytes) acc (k : X -> A) :
  (forall x, o = Some x -> eats (b x) acc (k x)) ->
  eats (match o with Some x => b x | None => [] end) acc (match o with Some x => k x | None => acc end).
Proof. intros He. destruct o; [by apply He|apply eats_nil]. Qed.

Lemma eats_eq b acc x acc' : eats b acc x -> x = acc' -> eats b acc acc'.
Proof. by intros ? <-. Qed.

Lemma eats_all b acc acc' : eats b acc acc' -> fields step (length b) b acc = Ret (Some acc').
Proof.
  intros He. destruct (He (length b) []) as (f & _ & E); [by rewrite app_nil_r|]. rewrite app_nil_r in E.
  rewrite E. by destruct f.
Qed.

(** One field: its tag byte, then a value the case accepts. *)
Lemma eats_field num typ payload acc acc' :
  1 <= num < 16 -> 0 <= typ < 8 ->
  (forall rest, step num typ (payload ++ rest) acc = Ret (Some (acc', rest))) ->
  eats ((num * 8 + typ) :: payload) acc acc'.
Proof.
  intros Hn Ht Hs fuel rest Hf. destruct fuel as [|fuel]; [cbn in Hf; lia|]. exists fuel.
  cbn [app length] in Hf. rewrite length_app in Hf. split; [lia|]. cbn [app fields].
  change ((num * 8 + typ) :: payload ++ rest) with ([num * 8 + typ] ++ payload ++ rest).
  rewrite (consume_tag num typ [num * 8 + typ]); [|lia|lia|constructor; lia].
  rewrite slice_app_r by (by rewrite length_app). cbn [gbind]. by rewrite Hs.
Qed.

Lemma eats_varint num v k acc acc' :
  1 <= num < 16 -> 0 <= v < 18446744073709551616 ->
  (forall b, step num VarintType b acc = on_varint VarintType b k) -> k v = acc' ->
  eats (vfield num v) acc acc'.
Proof.
  intros Hn Hv Hs <-. apply eats_field; [done|unfold VarintType; lia|]. intros rest. change 0 with VarintType.
  rewrite Hs. unfold on_varint. by rewrite varint_field_enc.
Qed.

Lemma eats_bytes num v k acc acc' :
  1 <= num < 16 -> fits63 (length v) ->
  (forall b, step num BytesType b acc = on_bytes BytesType b k) -> k v = Ret (Some acc') ->
  eats (bfield num v) acc acc'.
Proof.
  intros Hn Hv Hs Hk. apply eats_field; [done|unfold BytesType; lia|]. intros rest. change 2 with BytesType.
  rewrite Hs. unfold on_bytes. rewrite <- app_assoc, bytes_field_enc by done. cbn [gbind]. by rewrite Hk.
Qed.

Lemma eats_skip num v acc :
  1 <= num < 16 -> 0 <= v < 18446744073709551616 ->
  (forall b, step num VarintType b acc = on_skip num VarintType b acc) ->
  eats (vfield num v) acc acc.
Proof.
  intros Hn Hv Hs. apply eats_field; [done|unfold VarintType; lia|]. intros rest. change 0 with VarintType.
  rewrite Hs. unfold on_skip. by rewrite skip_varint_enc.
Qed.
End loops.

Lemma i32_u64 z : -2147483648 <= z < 2147483648 -> i32 (u64 z) = z.
Proof.
  intros Hz. unfold i32, u64. destruct (Z.lt_ge_cases z 0).
  - replace (z mod 18446744073709551616) with (z + 18446744073709551616) by (apply (Z.mod_unique_pos z _ (-1)); lia).
    replace (z + 18446744073709551616 + 2147483648) with (z + 2147483648 + 4294967296 * 4294967296) by lia.
    rewrite Z.mod_add, Z.mod_small by lia. lia.
  - rewrite (Z.mod_small z), Z.mod_small by lia. lia.
Qed.

Lemma decode_true : DecodeBool 1 = true.
Proof. by rewrite decode_bool. Qed.

(** Encoding loses only whether an empty byte field was nil. *)
Definition canon_bytes (o : option bytes) : option bytes := copyProtoBytes (bval o).
Definition canon_frame (f : Frame) : Frame := MkFrame (MessageType f) (canon_bytes (MessageBytes f)) (Raw f).

Definition frame_ok (f : Frame) : Prop :=
  -2147483648 <= MessageType f < 2147483648 /\ fits63 (length (frame_bytes f)).

Lemma frame_bytes_bound f : (length (bval (MessageBytes f)) <= length (frame_bytes f))%nat.
Proof.
  unfold frame_bytes. rewrite !length_app, !length_when, length_bfield.
  destruct (MessageBytes f) as [l|]; cbn [blen bval]; [|cbn; lia]. destruct l; cbn; lia.
Qed.

Lemma decodeTag_bytes t : 0 <= t < 18446744073709551616 -> decodeTag (tag_bytes t) = Ret (Some (MkTag t)).
Proof.
  intros Ht. unfold decodeTag. erewrite eats_all; [done|]. unfold tag_bytes.
  replace (MkTag t) with (if negb (t =? 0) then MkTag t else MkTag 0) at 1 by (destruct (Z.eqb_spec t 0) as [->|]; done).
  apply eats_when. intros _. by eapply eats_varint; [lia|done|intros b; reflexivity|].
Qed.

Lemma decodeFrame_bytes f : frame_ok f -> decodeFrame (frame_bytes f) = Ret (Some (canon_frame f)).
Proof.
  intros [Hmt Hfit]. pose proof (frame_bytes_bound f) as Hb. unfold fits63 in Hfit. unfold decodeFrame.
  erewrite eats_all; [done|]. unfold frame_bytes.
  eapply eats_app; [|eapply eats_app].
  - eapply eats_when. intros _.
    eapply eats_varint; [lia|unfold u64; apply Z.mod_pos_bound; lia|intros b; reflexivity|reflexivity].
  - eapply eats_when. intros _. eapply eats_bytes; [lia|unfold fits63; lia|intros b; reflexivity|reflexivity].
  - match goal with |- eats _ _ ?acc _ => replace (canon_frame f) with (if Raw f then MkFrame (MessageType acc) (MessageBytes acc) true else acc) end.
    { eapply eats_when. intros _. eapply eats_varint; [lia|lia|intros b; reflexivity|by cbv beta; rewrite decode_true]. }
    rewrite i32_u64 by done. unfold canon_frame, canon_bytes, emptyFrame. destruct (Z.eqb_spec (MessageType f) 0) as [->|];
      destruct (MessageBytes f) as [[|x l]|]; destruct (Raw f); reflexivity.
Qed.

Lemma copyProtoBytes_id id : isId id -> copyProtoBytes id = Some id.
Proof. intros [Hl _]. by destruct id. Qed.

Lemma isId_fits id : isId id -> fits63 (length id).
Proof. intros [-> _]. unfold fits63. lia. Qed.

Lemma eats_frames l pack :
  Forall frame_ok l ->
  eats pack_field (concat (map (fun f => bfield 5 (frame_bytes f)) l)) pack
    (set_pack_frames pack (Frames pack ++ map canon_frame l)).
Proof.
  intros Hl. revert pack. induction Hl as [|f l Hf Hl IH]; intros pack; cbn [map concat].
  - rewrite app_nil_r. destruct pack. apply eats_nil.
  - eapply eats_app.
    + eapply eats_bytes; [lia|apply Hf|intros b; reflexivity|]. cbv beta. by rewrite decodeFrame_bytes.
    + cbn [Z.eqb]. pose proof (IH (set_pack_frames pack (Frames pack ++ [canon_frame f]))) as E.
      cbn [set_pack_frames Frames] in E. by rewrite <- app_assoc in E.
Qed.

Definition decoded_pack (m : sendPackFrame) : Pack :=
  MkPack (Some (sp_messageId m)) (Some (sp_sequenceId m)) (sp_sequenceNumber m) (sp_head m)
    (map canon_frame (sp_frames m)) (sp_nack m) (canon_frame <$> sp_contractFrame m)
    (Some (MkTag (sp_tagSendTime m))) (sp_contractId m).

(** The values of a pack frame are in the ranges of their Go types. *)
Definition pack_values_ok (m : sendPackFrame) : Prop :=
  pack_ok m /\ Forall frame_ok (sp_frames m) /\ match sp_contractFrame m with Some f => frame_ok f | None => True end /\
  0 <= sp_sequenceNumber m < 18446744073709551616 /\ 0 <= sp_tagSendTime m < 18446744073709551616 /\
  -2147483648 <= sp_sessionRole m < 2147483648 /\ fits63 (length (pack_frame_bytes m)).

#[export] Instance isId_dec id : Decision (isId id). Proof. unfold isId, bytes_ok. apply _. Defined.
#[export] Instance path_ok_dec p : Decision (path_ok p). Proof. unfold path_ok. apply _. Defined.
#[export] Instance pack_ok_dec m : Decision (pack_ok m).
Proof. unfold pack_ok. destruct (sp_contractId m); apply _. Defined.
#[export] Instance frame_ok_dec f : Decision (frame_ok f). Proof. unfold frame_ok, fits63. apply _. Defined.
#[export] Instance pack_values_ok_dec m : Decision (pack_values_ok m).
Proof. unfold pack_values_ok, fits63. destruct (sp_contractFrame m); apply _. Defined.
#[export] Instance Frame_eq_dec : EqDecision Frame. Proof. solve_decision. Defined.

(** What a frame adds to the payload it carries. *)
Definition payload_size (f : Frame) : nat := 60 + length (bval (MessageBytes f)).

Lemma frame_field_size num f : (length (bfield num (frame_bytes f)) <= payload_size f)%nat.
Proof.
  unfold frame_bytes, payload_size. rewrite length_bfield, !length_app, !length_when, length_bfield, !length_vfield.
  pose proof (protoSizeVarint_bound (u64 (MessageType f))). pose proof (protoSizeVarint_bound 1).
  pose proof (protoSizeVarint_bound (u64len (length (bval (MessageBytes f))))).
  match goal with |- context [protoSizeVarint (u64len (?x + ?y))] => pose proof (protoSizeVarint_bound (u64len (x + y))) end.
  repeat case_match; lia.
Qed.

Lemma frames_size num l : (length (concat (map (fun f => bfield num (frame_bytes f)) l)) <= list_sum (map payload_size l))%nat.
Proof.
  induction l as [|f l IH]; [done|]. change (list_sum _) with (payload_size f + list_sum (map payload_size l))%nat.
  cbn [map concat]. rewrite length_app. pose proof (frame_field_size num f). lia.
Qed.

Lemma path_bytes_size p : path_ok p -> (length (path_bytes p) <= 54)%nat.
Proof.
  intros (Hs & Hd & Ht). unfold path_bytes. rewrite !length_app, !length_when, (length_id 1 _ Hd), (length_id 2 _ Hs), (length_id 3 _ Ht).
  destruct (negb (is_zero (DestinationId p))), (negb (is_zero (SourceId p))), (negb (is_zero (StreamId p))); cbn; lia.
Qed.

Lemma pack_bytes_size m :
  pack_ok m -> (length (pack_bytes m) <= 150 + list_sum (map payload_size (sp_frames m)) +
    match sp_contractFrame m with Some f => payload_size f | None => 0 end)%nat.
Proof.
  intros (_ & Hm & Hs & Hc). unfold pack_bytes. rewrite !length_app, !length_when, !length_id, !length_vfield by done.
  pose proof (frames_size 5 (sp_frames m)). pose proof (protoSizeVarint_bound (sp_sequenceNumber m)). pose proof (protoSizeVarint_bound 1).
  assert (length (match sp_contractFrame m with Some f => bfield 7 (frame_bytes f) | None => [] end) <=
          match sp_contractFrame m with Some f => payload_size f | None => 0 end)%nat.
  { destruct (sp_contractFrame m); [apply frame_field_size|done]. }
  assert (length (bfield 8 (tag_bytes (sp_tagSendTime m))) <= 24)%nat.
  { rewrite length_bfield. unfold tag_bytes. rewrite length_when, length_vfield. pose proof (protoSizeVarint_bound (sp_tagSendTime m)).
    match goal with |- context [protoSizeVarint (u64len ?x)] => pose proof (protoSizeVarint_bound (u64len x)) end. case_match; lia. }
  assert (length (match sp_contractId m with Some id => bfield 9 id | None => [] end) <= 18)%nat.
  { destruct (sp_contractId m); [by rewrite length_id|cbn; lia]. }
  repeat case_match; lia.
Qed.

(** The size of a pack frame, from what it carries. *)
Lemma pack_frame_size m :
  pack_ok m -> (0 < length (pack_frame_bytes m) <= 300 + list_sum (map payload_size (sp_frames m)) +
    match sp_contractFrame m with Some f => payload_size f | None => 0 end)%nat.
Proof.
  intros Hm. pose proof (pack_bytes_size m Hm). destruct Hm as (Hp & _). pose proof (path_bytes_size _ Hp).
  unfold pack_frame_bytes. rewrite !length_app, !length_when, !length_bfield, !length_vfield.
  pose proof (protoSizeVarint_bound (u64len (length (path_bytes (sp_path m))))). pose proof (protoSizeVarint_bound (u64len (length (pack_bytes m)))).
  pose proof (protoSizeVarint_bound MessageType_TransferPack). pose proof (protoSizeVarint_bound (u64 (sp_sessionRole m))).
  pose proof (protoSizeVarint_bound 1). repeat case_match; lia.
Qed.

Lemma tag_bytes_fits t : 0 <= t < 18446744073709551616 -> fits63 (length (tag_bytes t)).
Proof.
  intros Ht. unfold tag_bytes, fits63. rewrite length_when, length_vfield. destruct (negb _); [|lia].
  pose proof (protoSizeVarint_bound t). lia.
Qed.

Lemma decodePack_bytes m : pack_values_ok m -> decodePack (pack_bytes m) = Ret (Some (decoded_pack m)).
Proof.
  intros ((_ & Hmid & Hsid & Hcid) & Hfs & Hcf & Hsn & Htt & _). unfold decodePack. apply eats_all. unfold pack_bytes.
  eapply eats_eq; [repeat eapply eats_app|].
  - eapply eats_bytes; [lia|by apply isId_fits|intros b; reflexivity|reflexivity].
  - eapply eats_bytes; [lia|by apply isId_fits|intros b; reflexivity|reflexivity].
  - apply eats_when. intros _. eapply eats_varint; [lia|done|intros b; reflexivity|reflexivity].
  - apply eats_when. intros _. eapply eats_varint; [lia|lia|intros b; reflexivity|reflexivity].
  - by apply eats_frames.
  - apply eats_when. intros _. eapply eats_varint; [lia|lia|intros b; reflexivity|reflexivity].
  - apply eats_option. intros f Hf. rewrite Hf in Hcf.
    eapply eats_bytes; [lia|apply Hcf|intros b; reflexivity|]. cbv beta. rewrite decodeFrame_bytes by done. reflexivity.
  - eapply eats_bytes; [lia|by apply tag_bytes_fits|intros b; reflexivity|]. cbv beta. rewrite decodeTag_bytes by done. reflexivity.
  - apply eats_option. intros id Hid. rewrite Hid in Hcid.
    eapply eats_bytes; [lia|by apply isId_fits|intros b; reflexivity|reflexivity].
  - rewrite decode_true. cbn [Z.eqb Pos.eqb]. rewrite !copyProtoBytes_id by done. unfold decoded_pack.
    destruct (sp_contractId m) as [id|]; [rewrite copyProtoBytes_id by done|];
      (destruct (Z.eqb_spec (sp_sequenceNumber m) 0) as [->|]; destruct (sp_head m), (sp_nack m), (sp_contractFrame m); reflexivity).
Qed.

Lemma decodeTransferPathProto_bytes p :
  path_ok p -> decodeTransferPathProto (path_bytes p) = Ret (Some (ToProtobuf p)).
Proof.
  intros (Hs & Hd & Ht). unfold decodeTransferPathProto. apply eats_all. unfold path_bytes.
  eapply eats_eq; [repeat eapply eats_app|].
  - apply eats_when. intros _. eapply eats_bytes; [lia|by apply isId_fits|intros b; reflexivity|reflexivity].
  - apply eats_when. intros _. eapply eats_bytes; [lia|by apply isId_fits|intros b; reflexivity|reflexivity].
  - apply eats_when. intros _. eapply eats_bytes; [lia|by apply isId_fits|intros b; reflexivity|reflexivity].
  - cbn [Z.eqb Pos.eqb]. rewrite !copyProtoBytes_id by done. unfold ToProtobuf.
    by destruct (is_zero (DestinationId p)), (is_zero (SourceId p)), (is_zero (StreamId p)).
Qed.

(** What the receiver sees of a pack frame. *)
Definition decoded_pack_frame (m : sendPackFrame) (decodePath : bool) : TransferFrame :=
  MkTransferFrame (if decodePath then Some (ToProtobuf (sp_path m)) else None) None (Some (decoded_pack m)) None None
    (if sp_sessionRoleSet m then Some (sp_sessionRole m) else None) (if sp_companion m then Some true else None).

Lemma unmarshal_pack_frame m decodePath :
  pack_values_ok m ->
  unmarshalTransferFrame (pack_frame_bytes m) emptyTransferFrame decodePath = Ret (Some (decoded_pack_frame m decodePath)).
Proof.
  intros Hm. pose proof Hm as ((Hp & _) & _ & _ & _ & _ & Hr & Hfit).
  assert (Hsub : (length (path_bytes (sp_path m)) + length (pack_bytes m) <= length (pack_frame_bytes m))%nat).
  { unfold pack_frame_bytes. rewrite !length_app, !length_bfield. lia. }
  unfold fits63 in Hfit. unfold unmarshalTransferFrame. apply eats_all. unfold pack_frame_bytes.
  eapply eats_eq; [repeat eapply eats_app|].
  - eapply eats_bytes; [lia|unfold fits63; lia|intros b; reflexivity|]. cbv beta.
    instantiate (1 := set_tf_path emptyTransferFrame (if decodePath then Some (ToProtobuf (sp_path m)) else None)).
    destruct decodePath; [by rewrite decodeTransferPathProto_bytes|done].
  - eapply eats_varint; [lia|unfold MessageType_TransferPack; lia|intros b; reflexivity|reflexivity].
  - eapply eats_bytes; [lia|unfold fits63; lia|intros b; reflexivity|]. cbv beta. rewrite decodePack_bytes by done. reflexivity.
  - apply eats_when. intros _. eapply eats_varint; [lia|apply u64_range|intros b; reflexivity|reflexivity].
  - apply eats_when. intros _. eapply eats_varint; [lia|lia|intros b; reflexivity|reflexivity].
  - rewrite decode_true, i32_u64 by done. unfold decoded_pack_frame. by destruct (sp_sessionRoleSet m), (sp_companion m).
Qed.

(** The decoder has no case for the receive window (field 8): it is lost. *)
Definition decoded_ack (m : sendAckFrame) : Ack :=
  MkAck (Some (sa_messageId m)) (Some (sa_sequenceId m)) (sa_selective m) (sa_tag m) None.

Definition ack_values_ok (m : sendAckFrame) : Prop :=
  ack_ok m /\ match sa_tag m with Some t => 0 <= SendTime t < 18446744073709551616 | None => True end /\
  0 <= sa_receiveWindowByteCount m < 18446744073709551616.

Lemma decodeAck_bytes m : ack_values_ok m -> decodeAck (ack_bytes m) = Ret (Some (decoded_ack m)).
Proof.
  intros ((_ & Hmid & Hsid) & Ht & Hw). unfold decodeAck. apply eats_all. unfold ack_bytes.
  eapply eats_eq; [repeat eapply eats_app|].
  - eapply eats_bytes; [lia|by apply isId_fits|intros b; reflexivity|reflexivity].
  - eapply eats_bytes; [lia|by apply isId_fits|intros b; reflexivity|reflexivity].
  - apply eats_when. intros _. eapply eats_varint; [lia|lia|intros b; reflexivity|reflexivity].
  - apply eats_option. intros t Hst. rewrite Hst in Ht.
    eapply eats_bytes; [lia|by apply tag_bytes_fits|intros b; reflexivity|]. cbv beta. rewrite decodeTag_bytes by done. reflexivity.
  - apply eats_when. intros _. apply eats_skip; [lia|done|intros b; reflexivity].
  - rewrite decode_true. cbn [Z.eqb Pos.eqb]. rewrite !copyProtoBytes_id by done. unfold decoded_ack.
    destruct (sa_tag m) as [[t]|]; by destruct (sa_selective m), (sa_receiveWindowSet m).
Qed.

Lemma ack_frame_fits m : ack_values_ok m -> fits63 (length (ack_frame_bytes m)).
Proof.
  intros ((Hp & Hm & Hs) & Ht & Hw).
  pose proof protoSizeVarint_bound as Hv.
  assert (Hap : (length (path_bytes (sa_path m)) <= 54)%nat).
  { destruct Hp as (H1 & H2 & H3). unfold path_bytes. rewrite !length_app, !length_when, !length_id by done. repeat case_match; lia. }
  assert (Haa : (length (ack_bytes m) <= 100)%nat).
  { unfold ack_bytes. rewrite !length_app, !length_when, !length_id, !length_vfield by done.
    pose proof (Hv 1). pose proof (Hv (sa_receiveWindowByteCount m)).
    assert (length (match sa_tag m with Some t => bfield 4 (tag_bytes (SendTime t)) | None => [] end) <= 30)%nat.
    { destruct (sa_tag m) as [[t]|]; [|cbn; lia]. rewrite length_bfield. unfold tag_bytes. rewrite length_when, length_vfield. cbn [SendTime].
      pose proof (Hv t). match goal with |- context [protoSizeVarint (u64len ?n)] => pose proof (Hv (u64len n)) end. case_match; lia. }
    repeat case_match; lia. }
  unfold fits63, ack_frame_bytes. rewrite !length_app, !length_bfield, length_vfield.
  pose proof (Hv (u64len (length (path_bytes (sa_path m))))). pose proof (Hv (u64len (length (ack_bytes m)))).
  pose proof (Hv MessageType_TransferAck). lia.
Qed.

Definition decoded_ack_frame (m : sendAckFrame) (decodePath : bool) : TransferFrame :=
  MkTransferFrame (if decodePath then Some (ToProtobuf (sa_path m)) else None) None None (Some (decoded_ack m)) None None None.

Lemma unmarshal_ack_frame m decodePath :
  ack_values_ok m ->
  unmarshalTransferFrame (ack_frame_bytes m) emptyTransferFrame decodePath = Ret (Some (decoded_ack_frame m decodePath)).
Proof.
  intros Hm. pose proof Hm as ((Hp & _) & _). pose proof (ack_frame_fits m Hm) as Hfit.
  assert (Hsub : (length (path_bytes (sa_path m)) + length (ack_bytes m) <= length (ack_frame_bytes m))%nat).
  { unfold ack_frame_bytes. rewrite !length_app, !length_bfield. lia. }
  unfold fits63 in Hfit. unfold unmarshalTransferFrame. apply eats_all. unfold ack_frame_bytes.
  eapply eats_eq; [repeat eapply eats_app|].
  - eapply eats_bytes; [lia|unfold fits63; lia|intros b; reflexivity|]. cbv beta.
    instantiate (1 := set_tf_path emptyTransferFrame (if decodePath then Some (ToProtobuf (sa_path m)) else None)).
    destruct decodePath; [by rewrite decodeTransferPathProto_bytes|done].
  - eapply eats_varint; [lia|unfold MessageType_TransferAck; lia|intros b; reflexivity|reflexivity].
  - eapply eats_bytes; [lia|unfold fits63; lia|intros b; reflexivity|]. cbv beta. rewrite decodeAck_bytes by done. reflexivity.
  - done.
Qed.

(** *** Every input *)

(** A case returns, and leaves no more than it was given. *)
Definition case_ok {A} (b : bytes) (m : go (option (A * bytes))) : Prop :=
  returns m (fun r => match r with Some (_, b') => (length b' <= length b)%nat | None => True end).

Lemma fields_total {A} (step : Z -> Z -> bytes -> A -> go (option (A * bytes))) :
  (forall num typ b acc, case_ok b (step num typ b acc)) ->
  forall fuel b acc, (length b <= fuel)%nat -> returns (fields step fuel b acc) (fun _ => True).
Proof.
  intros Hs fuel. induction fuel as [|fuel IH]; intros b acc Hf.
  - destruct b; [|cbn in Hf; lia]. by apply returns_ret.
  - cbn [fields]. destruct b as [|x b]; [by apply returns_ret|]. set (l := x :: b) in *.
    destruct (ConsumeTag l) as [[[num typ] n]|] eqn:Et; [|by apply returns_ret].
    apply consume_tag_bound in Et. rewrite slice_end by (done || lia). cbn [gbind].
    eapply returns_bind; [apply Hs|]. intros [[acc' b']|] Hb'; [|by apply returns_ret].
    apply IH. rewrite length_drop in Hb'. lia.
Qed.

Lemma on_varint_ok {A} typ b (k : Z -> A) : case_ok b (on_varint typ b k).
Proof.
  unfold case_ok, on_varint, varint_field. destruct (negb _); [by apply returns_ret|].
  destruct (ConsumeVarint b) as [[v n]|] eqn:E; [|by apply returns_ret]. apply consume_varint_bound in E.
  rewrite slice_end by (done || lia). apply returns_ret. rewrite length_drop. lia.
Qed.

Lemma on_bytes_ok {A} typ b (k : bytes -> go (option A)) :
  (forall v, returns (k v) (fun _ => True)) -> case_ok b (on_bytes typ b k).
Proof.
  intros Hk. unfold case_ok, on_bytes, bytes_field. destruct (negb _); [by apply returns_ret|].
  destruct (ConsumeBytes b) as [[v n]|] eqn:E; [|by apply returns_ret]. apply consume_bytes_bound in E.
  rewrite slice_end by (done || lia). cbn [gbind]. eapply returns_bind; [apply Hk|]. intros [a|] _; apply returns_ret; [|done].
  rewrite length_drop. lia.
Qed.

Lemma on_skip_ok {A} num typ b (acc : A) : case_ok b (on_skip num typ b acc).
Proof.
  unfold case_ok, on_skip, skip_field. destruct (ConsumeFieldValue num typ b) as [n|] eqn:E; [|by apply returns_ret].
  apply consume_field_bound in E. rewrite slice_end by (done || lia). apply returns_ret. rewrite length_drop. lia.
Qed.

(** Discharges the cases of one decoder; [t] proves its submessage decoders total. *)
Ltac decoder_total t :=
  apply fields_total; [|done]; intros num typ b' acc; try unfold pack_field;
  repeat (case_match; [solve [apply on_varint_ok | apply on_skip_ok
    | apply on_bytes_ok; intros v; try (by apply returns_ret);
      repeat case_match; try (by apply returns_ret); (eapply returns_bind; [t|]); intros ? _; by apply returns_ret]|]);
  apply on_skip_ok.

Lemma decodeTag_total b : returns (decodeTag b) (fun _ => True).
Proof. unfold decodeTag. decoder_total idtac. Qed.

Lemma decodeFrame_total b : returns (decodeFrame b) (fun _ => True).
Proof. unfold decodeFrame. decoder_total idtac. Qed.

Lemma decodeTransferPathProto_total b : returns (decodeTransferPathProto b) (fun _ => True).
Proof. unfold decodeTransferPathProto. decoder_total idtac. Qed.

Lemma decodePack_total b : returns (decodePack b) (fun _ => True).
Proof. unfold decodePack. decoder_total ltac:(first [apply decodeFrame_total | apply decodeTag_total]). Qed.

Lemma decodeAck_total b : returns (decodeAck b) (fun _ => True).
Proof. unfold decodeAck. decoder_total ltac:(apply decodeTag_total). Qed.

Lemma unmarshal_total b tf decodePath : returns (unmarshalTransferFrame b tf decodePath) (fun _ => True).
Proof.
  unfold unmarshalTransferFrame.
  decoder_total ltac:(first [apply decodeFrame_total | apply decodePack_total | apply decodeAck_total | apply decodeTransferPathProto_total]).
Qed.
End laws.

(** ** The path reader *)

Lemma lor_shiftl a b k : 0 <= k -> 0 <= a < 2 ^ k -> Z.lor a (Z.shiftl b k) = a + b * 2 ^ k.
Proof.
  intros Hk Ha. rewrite <- Z.shiftl_mul_pow2 by done. symmetry. rewrite <- Z.lxor_lor.
  - apply Z.add_nocarry_lxor. apply Z.bits_inj'. intros n Hn. rewrite Z.land_spec, Z.bits_0.
    rewrite <- (Z.mod_small a (2 ^ k)) by done. destruct (Z.lt_ge_cases n k).
    + by rewrite Z.shiftl_spec_low, andb_false_r.
    + by rewrite Z.mod_pow2_bits_high.
  - apply Z.bits_inj'. intros n Hn. rewrite Z.land_spec, Z.bits_0.
    rewrite <- (Z.mod_small a (2 ^ k)) by done. destruct (Z.lt_ge_cases n k).
    + by rewrite Z.shiftl_spec_low, andb_false_r.
    + by rewrite Z.mod_pow2_bits_high.
Qed.

Lemma read_varint_enc v l :
  varint_bytes v l -> forall fuel pre post limit acc shift,
  0 <= acc < 2 ^ shift -> 0 <= shift <= 63 -> v * 2 ^ shift < 18446744073709551616 ->
  70 <= shift + 7 * Z.of_nat fuel ->
  (length pre + length l <= limit)%nat ->
  read_varint fuel (pre ++ l ++ post) limit (length pre) acc shift =
    Ret (Some (acc + v * 2 ^ shift, (length pre + length l)%nat)).
Proof.
  induction 1 as [v Hv|v l Hv Hl IH]; intros fuel pre post limit acc shift Ha Hs Hb Hf Hlim;
    (destruct fuel as [|fuel]; [lia|]); cbn [read_varint length] in *;
    rewrite (proj2 (Nat.leb_gt _ _)), (proj2 (Z.ltb_ge _ _)) by lia; cbn [orb app].
  - rewrite (index_ret _ _ v) by (by apply list_lookup_middle). cbn [gbind].
    assert (E : Z.land v 127 = v) by (change 127 with (Z.ones 7); rewrite Z.land_ones by lia; apply Z.mod_small; lia).
    rewrite E, u64_small, lor_shiftl by (done || lia || (rewrite Z.shiftl_mul_pow2 by lia; nia)).
    by rewrite (proj2 (Z.ltb_lt _ _)) by lia.
  - rewrite (index_ret _ _ (v mod 128 + 128)) by (by apply list_lookup_middle). cbn [gbind].
    pose proof (Z.mod_pos_bound v 128 ltac:(lia)) as Hm. pose proof (Z.div_mod v 128 ltac:(lia)) as Hdm.
    assert (E : Z.land (v mod 128 + 128) 127 = v mod 128).
    { change 127 with (Z.ones 7). rewrite Z.land_ones by lia. change (2 ^ 7) with 128.
      rewrite <- (Z.mul_1_l 128) at 2. rewrite Z.mod_add by lia. apply Z.mod_small. lia. }
    assert (Hp : 0 < 2 ^ shift) by (apply Z.pow_pos_nonneg; lia).
    rewrite E, u64_small, lor_shiftl by (done || lia || (rewrite Z.shiftl_mul_pow2 by lia; nia)).
    rewrite (proj2 (Z.ltb_ge _ _)) by lia.
    assert (Hsh : shift <= 56).
    { destruct (Z.le_gt_cases shift 56); [done|]. assert (2 ^ 57 <= 2 ^ shift) by (apply Z.pow_le_mono_r; lia).
      change (2 ^ 57) with 144115188075855872 in *. nia. }
    assert (Ep : 2 ^ (shift + 7) = 2 ^ shift * 128) by (rewrite Z.pow_add_r by lia; done).
    specialize (IH fuel (pre ++ [v mod 128 + 128]) post limit (acc + v mod 128 * 2 ^ shift) (shift + 7)).
    rewrite length_app, <- app_assoc in IH. cbn [length app] in IH. rewrite IH; [|rewrite Ep; nia|lia|rewrite Ep; nia|lia|lia].
    do 3 f_equal; [rewrite Ep; nia|lia].
Qed.

Lemma readVarint_enc pre v post limit :
  0 <= v < 18446744073709551616 -> (length pre + length (enc v) <= limit)%nat ->
  readVarint (pre ++ enc v ++ post) limit (length pre) = Ret (Some (v, (length pre + length (enc v))%nat)).
Proof.
  intros Hv Hl. unfold readVarint. rewrite (read_varint_enc v (enc v) (enc_varint v Hv)); [|lia..].
  do 3 f_equal. lia.
Qed.

(** A reader's rounds, with fuel for the bytes that are left. *)
Definition path_reads (b : bytes) (stop i i' : nat) (path path' : TransferPath) : Prop :=
  forall fuel, (stop - i <= fuel)%nat ->
  exists fuel', (stop - i' <= fuel')%nat /\ path_fields fuel b stop i path = path_fields fuel' b stop i' path'.

Definition frame_reads (b : bytes) (i i' : nat) (s s' : TransferPath * bool) : Prop :=
  forall fuel, (length b - i <= fuel)%nat ->
  exists fuel', (length b - i' <= fuel')%nat /\ frame_fields fuel b i s.1 s.2 = frame_fields fuel' b i' s'.1 s'.2.

Lemma path_fields_eq fuel b stop i path : path_fields fuel b stop i path =
  if (i <? stop)%nat then
    match fuel with
    | O => Panic
    | S fuel =>
        let! r := readVarint b stop i in
        match r with
        | None => Ret None
        | Some (pathTag, i) =>
            let pathFieldNumber := Z.shiftr pathTag 3 in
            let pathWireType := Z.land pathTag 7 in
            if (pathFieldNumber =? 1) || (pathFieldNumber =? 2) || (pathFieldNumber =? 3) then
              if negb (pathWireType =? 2) then Ret None
              else
                let! r := readVarint b stop i in
                match r with
                | None => Ret None
                | Some (idLength, i) =>
                    if Z.of_nat (stop - i) <? idLength then Ret None
                    else if negb (idLength =? 16) then Ret None
                    else
                      let! id := slice b i (i + 16) in
                      path_fields fuel b stop (i + 16) (set_path_field pathFieldNumber path id)
                end
            else
              let! r := skipField b pathWireType stop i in
              match r with
              | None => Ret None
              | Some i => path_fields fuel b stop i path
              end
        end
    end
  else Ret (Some (path, i)).
Proof. by destruct fuel. Qed.

Lemma tag_split num typ : 0 <= num -> 0 <= typ < 8 -> Z.shiftr (num * 8 + typ) 3 = num /\ Z.land (num * 8 + typ) 7 = typ.
Proof.
  intros Hn Ht. rewrite Z.shiftr_div_pow2 by lia. change (2 ^ 3) with 8. change 7 with (Z.ones 3). rewrite Z.land_ones by lia.
  change (2 ^ 3) with 8. split; [symmetry; apply (Z.div_unique_pos _ _ _ typ); lia|].
  rewrite Z.add_comm, Z.mod_add, Z.mod_small by lia. done.
Qed.

Lemma enc_small v : 0 <= v < 128 -> enc v = [v].
Proof. intros Hv. unfold enc, protoAppendVarint. cbn [append_loop]. rewrite (proj2 (Z.leb_gt _ _)), u8_small by lia. done. Qed.

(** A tag byte, then the value at the next position. *)
Lemma readVarint_tag pre num typ post limit :
  0 <= num < 16 -> 0 <= typ < 8 -> (length pre < limit)%nat ->
  readVarint (pre ++ (num * 8 + typ) :: post) limit (length pre) = Ret (Some (num * 8 + typ, S (length pre))).
Proof.
  intros Hn Ht Hl. pose proof (readVarint_enc pre (num * 8 + typ) post limit ltac:(lia)) as E.
  rewrite enc_small in E by lia. cbn [length app] in E. rewrite E by lia. do 3 f_equal. lia.
Qed.

Lemma path_reads_id pre num id post stop path :
  1 <= num <= 3 -> isId id -> (length pre + 18 <= stop)%nat ->
  path_reads (pre ++ bfield num id ++ post) stop (length pre) (length pre + 18) path (set_path_field num path id).
Proof.
  intros Hn [Hid _] Hstop [|fuel] Hf; [lia|]. exists fuel. split; [lia|].
  rewrite path_fields_eq, (proj2 (Nat.ltb_lt _ _)) by lia. unfold bfield. rewrite Hid. change (enc (u64len 16)) with [16]. cbn [app].
  rewrite readVarint_tag by lia. cbn [gbind]. cbv zeta. destruct (tag_split num 2 ltac:(lia) ltac:(lia)) as [-> ->].
  replace ((num =? 1) || (num =? 2) || (num =? 3)) with true by (symmetry; destruct (Z.eqb_spec num 1), (Z.eqb_spec num 2), (Z.eqb_spec num 3); cbn; lia).
  cbn [negb Z.eqb Pos.eqb].
  pose proof (readVarint_enc (pre ++ [num * 8 + 2]) 16 (id ++ post) stop ltac:(lia)) as E.
  rewrite enc_small, length_app, <- app_assoc in E by lia. cbn [length app] in E.
  replace (length pre + 1)%nat with (S (length pre)) in E by lia. rewrite E by lia. cbn [gbind].
  rewrite (proj2 (Z.ltb_ge _ _)) by lia. cbn [negb Z.eqb Pos.eqb].
  replace (pre ++ num * 8 + 2 :: 16 :: id ++ post) with ((pre ++ [num * 8 + 2; 16]) ++ id ++ post) by (by rewrite <- app_assoc).
  rewrite slice_ret by (rewrite ?length_app; cbn [length]; lia).
  replace (S (length pre) + 1)%nat with (length (pre ++ [num * 8 + 2; 16])) by (rewrite length_app; cbn; lia).
  rewrite drop_app_length. replace (_ + 16 - _)%nat with (length id) by lia. rewrite take_app_length. cbn [gbind].
  f_equal. rewrite length_app. cbn. lia.
Qed.

Lemma path_reads_refl b stop i path : path_reads b stop i i path path.
Proof. intros fuel Hf. eauto. Qed.

Lemma path_reads_trans b stop i1 i2 i3 p1 p2 p3 :
  path_reads b stop i1 i2 p1 p2 -> path_reads b stop i2 i3 p2 p3 -> path_reads b stop i1 i3 p1 p3.
Proof. intros H1 H2 fuel Hf. destruct (H1 fuel Hf) as (f & Hf1 & ->). by apply H2. Qed.

Lemma path_reads_eq b stop i i' i'' p p' p'' :
  path_reads b stop i i' p p' -> i' = i'' -> p' = p'' -> path_reads b stop i i'' p p''.
Proof. by intros ? <- <-. Qed.

Lemma path_reads_when pre num id post stop path :
  1 <= num <= 3 -> isId id -> (length pre + length (when (negb (is_zero id)) (bfield num id)) <= stop)%nat ->
  path_reads (pre ++ when (negb (is_zero id)) (bfield num id) ++ post) stop (length pre)
    (length (pre ++ when (negb (is_zero id)) (bfield num id))) path
    (if is_zero id then path else set_path_field num path id).
Proof.
  intros Hn Hid Hstop. rewrite length_app. destruct (is_zero id); cbn [negb when app length] in *.
  - rewrite Nat.add_0_r. apply path_reads_refl.
  - rewrite length_id in * by done. by apply path_reads_id.
Qed.

Lemma path_fields_bytes pre p post :
  path_ok p ->
  let b := pre ++ path_bytes p ++ post in
  let stop := (length pre + length (path_bytes p))%nat in
  path_fields (length b) b stop (length pre) noPath = Ret (Some (p, stop)).
Proof.
  intros (Hs & Hd & Ht) b stop.
  assert (E : path_reads b stop (length pre) stop noPath p).
  { unfold stop, b, path_bytes. rewrite <- !app_assoc. rewrite !length_app.
    eapply path_reads_trans; [apply (path_reads_when pre 1); [lia|done|lia]|].
    rewrite (app_assoc pre).
    eapply path_reads_trans; [apply (path_reads_when (pre ++ _) 2); [lia|done|rewrite length_app; lia]|].
    rewrite (app_assoc (pre ++ _)).
    eapply path_reads_eq; [apply (path_reads_when _ 3); [lia|done|rewrite !length_app; lia]|rewrite !length_app; lia|].
    destruct (is_zero (StreamId p)) eqn:E3, (is_zero (SourceId p)) eqn:E2, (is_zero (DestinationId p)) eqn:E1;
      rewrite ?is_zero_true in *; unfold set_path_field, noPath; cbn [Z.eqb Pos.eqb SourceId DestinationId StreamId];
      destruct p; cbn in *; congruence. }
  destruct (E (length b)) as (f & _ & ->); [unfold stop, b; rewrite !length_app; lia|].
  rewrite path_fields_eq. by rewrite Nat.ltb_irrefl.
Qed.

Lemma frame_reads_trans b i1 i2 i3 s1 s2 s3 :
  frame_reads b i1 i2 s1 s2 -> frame_reads b i2 i3 s2 s3 -> frame_reads b i1 i3 s1 s3.
Proof. intros H1 H2 fuel Hf. destruct (H1 fuel Hf) as (f & Hf1 & ->). by apply H2. Qed.

Lemma frame_reads_refl b i s : frame_reads b i i s s.
Proof. intros fuel Hf. eauto. Qed.

(** Opens one round of the frame loop at a tag. *)
Ltac frame_round :=
  let fuel := fresh "fuel" in let Hf := fresh "Hf" in
  intros [|fuel] Hf; [rewrite !length_app in Hf; cbn [length vfield bfield] in Hf; lia|];
  cbn [frame_fields]; rewrite (proj2 (Nat.ltb_lt _ _)) by (rewrite !length_app; cbn; lia).

Lemma frame_reads_path pre p post :
  path_ok p ->
  frame_reads (pre ++ bfield 1 (path_bytes p) ++ post) (length pre) (length (pre ++ bfield 1 (path_bytes p)))
    (noPath, false) (p, true).
Proof.
  intros Hp.
  assert (Hlp : (length (path_bytes p) <= 54)%nat).
  { destruct Hp as (H1 & H2 & H3). unfold path_bytes. rewrite !length_app, !length_when, !length_id by done. repeat case_match; lia. }
  set (n := length (path_bytes p)) in *.
  assert (Eb : pre ++ bfield 1 (path_bytes p) ++ post = pre ++ [10] ++ [Z.of_nat n] ++ path_bytes p ++ post).
  { unfold bfield. fold n. unfold u64len. rewrite u64_small, enc_small by lia. done. }
  assert (Ei : length (pre ++ bfield 1 (path_bytes p)) = (length pre + 2 + n)%nat).
  { rewrite length_app. unfold bfield. fold n. unfold u64len. rewrite u64_small, enc_small by lia. cbn. lia. }
  rewrite Eb, Ei. intros [|fuel] Hf; [rewrite !length_app in Hf; cbn [length] in Hf; lia|]. exists fuel.
  split; [lia|]. cbn [frame_fields fst snd]. rewrite (proj2 (Nat.ltb_lt _ _)) by (rewrite !length_app; cbn; lia).
  pose proof (readVarint_tag pre 1 2) as Et. change (1 * 8 + 2) with 10 in Et. cbn [app].
  rewrite Et by (rewrite ?length_app; cbn; lia). cbn [gbind]. cbv zeta.
  change (Z.shiftr 10 3) with 1. change (Z.land 10 7) with 2. cbn [negb Z.eqb Pos.eqb].
  pose proof (readVarint_enc (pre ++ [10]) (Z.of_nat n) (path_bytes p ++ post)) as E.
  rewrite <- app_assoc, enc_small, length_app in E by lia. cbn [length] in E.
  replace (length pre + 1)%nat with (S (length pre)) in E by lia.
  cbn [app] in E. rewrite E by (rewrite ?length_app; cbn; lia). cbn [gbind].
  rewrite (proj2 (Z.ltb_ge _ _)) by (rewrite length_app; cbn [length]; rewrite length_app; fold n; lia).
  rewrite Nat2Z.id.
  pose proof (path_fields_bytes (pre ++ [10; Z.of_nat n]) p post Hp) as Epf. cbv zeta in Epf. fold n in Epf.
  rewrite <- app_assoc in Epf. cbn [app] in Epf.
  replace (length (pre ++ [10; Z.of_nat n])) with (S (length pre) + 1)%nat in Epf by (rewrite length_app; cbn; lia).
  rewrite Epf. cbn [gbind]. f_equal. lia.
Qed.

Lemma skip_varint pre v post :
  0 <= v < 18446744073709551616 ->
  skipField (pre ++ enc v ++ post) 0 (length (pre ++ enc v ++ post)) (length pre) = Ret (Some (length pre + length (enc v))%nat).
Proof. intros Hv. unfold skipField. cbn [Z.eqb]. by rewrite readVarint_enc by (rewrite ?length_app; done || lia). Qed.

Lemma skip_bytes pre v post :
  fits63 (length v) ->
  skipField (pre ++ enc (u64len (length v)) ++ v ++ post) 2 (length (pre ++ enc (u64len (length v)) ++ v ++ post)) (length pre) =
    Ret (Some (length pre + length (enc (u64len (length v))) + length v)%nat).
Proof.
  unfold fits63. intros Hv. unfold skipField, u64len. cbn [Z.eqb Pos.eqb]. rewrite u64_small by lia.
  rewrite readVarint_enc by (rewrite ?length_app; lia). cbn [gbind].
  rewrite (proj2 (Z.ltb_ge _ _)) by (rewrite !length_app; lia). by rewrite Nat2Z.id.
Qed.

Lemma frame_reads_vfield pre num v post s :
  2 <= num < 16 -> 0 <= v < 18446744073709551616 ->
  frame_reads (pre ++ vfield num v ++ post) (length pre) (length (pre ++ vfield num v)) s s.
Proof.
  intros Hn Hv. frame_round. exists fuel. split; [rewrite !length_app in *; cbn [length vfield] in *; lia|].
  cbn [vfield app]. rewrite readVarint_tag by (rewrite ?length_app; cbn; lia). cbn [gbind]. cbv zeta.
  destruct (tag_split num 0 ltac:(lia) ltac:(lia)) as [-> ->]. rewrite (proj2 (Z.eqb_neq num 1)) by lia. cbn [negb].
  pose proof (skip_varint (pre ++ [num * 8 + 0]) v post Hv) as E. rewrite <- app_assoc in E. cbn [app] in E.
  replace (length (pre ++ [num * 8 + 0])) with (S (length pre)) in E by (rewrite length_app; cbn; lia).
  rewrite E. cbn [gbind]. f_equal. rewrite length_app. cbn [length vfield bfield]. rewrite ?length_app. lia.
Qed.

Lemma frame_reads_bfield pre num v post s :
  2 <= num < 16 -> fits63 (length v) ->
  frame_reads (pre ++ bfield num v ++ post) (length pre) (length (pre ++ bfield num v)) s s.
Proof.
  intros Hn Hv. frame_round. exists fuel. split; [rewrite !length_app in *; cbn [length bfield] in *; lia|].
  cbn [bfield app]. rewrite readVarint_tag by (rewrite ?length_app; cbn; lia). cbn [gbind]. cbv zeta.
  destruct (tag_split num 2 ltac:(lia) ltac:(lia)) as [-> ->]. rewrite (proj2 (Z.eqb_neq num 1)) by lia. cbn [negb].
  pose proof (skip_bytes (pre ++ [num * 8 + 2]) v post Hv) as E. rewrite <- app_assoc in E. cbn [app] in E.
  replace (length (pre ++ [num * 8 + 2])) with (S (length pre)) in E by (rewrite length_app; cbn; lia).
  rewrite <- (app_assoc _ v post). rewrite E. cbn [gbind]. f_equal. rewrite length_app. cbn [length vfield bfield]. rewrite ?length_app. lia.
Qed.

Lemma frame_reads_when (c : bool) pre l post s :
  (c = true -> frame_reads (pre ++ l ++ post) (length pre) (length (pre ++ l)) s s) ->
  frame_reads (pre ++ when c l ++ post) (length pre) (length (pre ++ when c l)) s s.
Proof. intros He. destruct c; [by apply He|]. cbn [when app]. rewrite app_nil_r. apply frame_reads_refl. Qed.

Lemma frame_reads_all b s s' : frame_reads b 0 (length b) s s' -> frame_fields (length b) b 0 s.1 s.2 = Ret (Some s').
Proof.
  intros He. destruct (He (length b)) as (f & _ & ->); [lia|]. destruct f; cbn [frame_fields]; rewrite Nat.ltb_irrefl; by destruct s'.
Qed.

Lemma parse_pack_frame m :
  pack_values_ok m -> parseFilteredTransferPath (pack_frame_bytes m) = Ret (Some (sp_path m, true)).
Proof.
  intros ((Hp & _) & _ & _ & _ & _ & _ & Hfit). unfold fits63 in Hfit.
  assert (Hsub : (length (pack_bytes m) <= length (pack_frame_bytes m))%nat).
  { unfold pack_frame_bytes. rewrite !length_app, !length_bfield. lia. }
  apply (frame_reads_all _ (noPath, false)).
  assert (E : forall l, l = pack_frame_bytes m -> frame_reads l 0 (length l) (noPath, false) (sp_path m, true)); [|by apply E].
  intros l El. unfold pack_frame_bytes in El. subst l.
  eapply frame_reads_trans; [apply (frame_reads_path [] _ _ Hp)|]. cbn [app].
  eapply frame_reads_trans; [apply frame_reads_vfield; unfold MessageType_TransferPack; lia|]. rewrite app_assoc.
  eapply frame_reads_trans; [apply frame_reads_bfield; [lia|unfold fits63; lia]|]. rewrite app_assoc.
  eapply frame_reads_trans; [apply frame_reads_when; intros _; apply frame_reads_vfield; [lia|apply u64_range]|]. rewrite app_assoc.
  rewrite <- (app_nil_r (when (sp_companion m) (vfield 8 1))). rewrite (app_nil_r (when _ _)) at 2.
  apply frame_reads_when; intros _. apply frame_reads_vfield; lia.
Qed.

Lemma parse_ack_frame m :
  ack_values_ok m -> parseFilteredTransferPath (ack_frame_bytes m) = Ret (Some (sa_path m, true)).
Proof.
  intros Hm. pose proof (ack_frame_fits m Hm) as Hfit. unfold fits63 in Hfit. destruct Hm as ((Hp & _) & _).
  assert (Hsub : (length (ack_bytes m) <= length (ack_frame_bytes m))%nat).
  { unfold ack_frame_bytes. rewrite !length_app, !length_bfield. lia. }
  apply (frame_reads_all _ (noPath, false)).
  assert (E : forall l, l = ack_frame_bytes m -> frame_reads l 0 (length l) (noPath, false) (sa_path m, true)); [|by apply E].
  intros l El. unfold ack_frame_bytes in El. subst l.
  eapply frame_reads_trans; [apply (frame_reads_path [] _ _ Hp)|]. cbn [app].
  eapply frame_reads_trans; [apply frame_reads_vfield; unfold MessageType_TransferAck; lia|]. rewrite app_assoc.
  rewrite <- (app_nil_r (bfield 5 (ack_bytes m))). rewrite (app_nil_r (bfield 5 _)) at 2.
  apply frame_reads_bfield; [lia|unfold fits63; lia].
Qed.

(** *** Any bytes *)

Lemma read_varint_total fuel b limit i v shift :
  (limit <= length b)%nat ->
  returns (read_varint fuel b limit i v shift) (fun r => match r with Some (_, i') => (i < i' <= limit)%nat | None => True end).
Proof.
  intros Hl. revert i v shift. induction fuel as [|fuel IH]; intros i v shift; cbn [read_varint]; [by apply returns_ret|].
  destruct (Nat.leb_spec limit i); [by apply returns_ret|]. cbn [orb]. destruct (63 <? shift); [by apply returns_ret|].
  greturns @index_returns; [lia|]. intros c _. destruct (c <? 128); [apply returns_ret; lia|].
  eapply returns_weaken; [apply IH|]. intros [[w k]|]; [lia|done].
Qed.

Lemma skipField_total b wireType limit i :
  (i <= limit)%nat -> (limit <= length b)%nat ->
  returns (skipField b wireType limit i) (fun r => match r with Some i' => (i <= i' <= limit)%nat | None => True end).
Proof.
  intros Hi Hl. unfold skipField. destruct (wireType =? 0).
  { greturns read_varint_total; [done|]. intros [[w k]|] Hk; apply returns_ret; [lia|done]. }
  destruct (wireType =? 1); [apply returns_ret; destruct (Nat.ltb_spec limit (i + 8)); [done|lia]|].
  destruct (wireType =? 2).
  { greturns read_varint_total; [done|]. intros [[w k]|] Hk; apply returns_ret; [|done].
    destruct (Z.ltb_spec (Z.of_nat (limit - k)) w); [done|lia]. }
  destruct (wireType =? 5); apply returns_ret; [|done]. destruct (Nat.ltb_spec limit (i + 4)); [done|lia].
Qed.

Lemma path_fields_total fuel b stop i path :
  (stop <= length b)%nat -> (i <= stop)%nat -> (stop - i <= fuel)%nat ->
  returns (path_fields fuel b stop i path) (fun r => match r with Some (_, i') => i' = stop | None => True end).
Proof.
  intros Hl. revert i path. induction fuel as [|fuel IH]; intros i path Hi Hf; rewrite path_fields_eq;
    (destruct (Nat.ltb_spec i stop); [|apply returns_ret; lia]); [lia|].
  greturns read_varint_total; [done|]. intros [[tag k]|] Hk; [|by apply returns_ret]. cbv zeta.
  destruct (_ || _).
  - destruct (negb _); [by apply returns_ret|]. greturns read_varint_total; [done|].
    intros [[len k']|] Hk'; [|by apply returns_ret]. destruct (Z.ltb_spec (Z.of_nat (stop - k')) len); [by apply returns_ret|].
    destruct (Z.eqb_spec len 16); [|by apply returns_ret]. cbn [negb]. rewrite slice_ret by lia. cbn [gbind]. apply IH; lia.
  - greturns skipField_total; [lia|done|]. intros [k'|] Hk'; [|by apply returns_ret]. apply IH; lia.
Qed.

Lemma frame_fields_total fuel b i path ex :
  (i <= length b)%nat -> (length b - i <= fuel)%nat -> returns (frame_fields fuel b i path ex) (fun _ => True).
Proof.
  revert i path ex. induction fuel as [|fuel IH]; intros i path ex Hi Hf; cbn [frame_fields];
    (destruct (Nat.ltb_spec i (length b)); [|by apply returns_ret]); [lia|].
  greturns read_varint_total; [done|]. intros [[tag k]|] Hk; [|by apply returns_ret]. cbv zeta.
  destruct (negb _).
  - greturns skipField_total; [lia|done|]. intros [k'|] Hk'; [|by apply returns_ret]. apply IH; lia.
  - destruct (negb _); [by apply returns_ret|]. greturns read_varint_total; [done|].
    intros [[len k']|] Hk'; [|by apply returns_ret]. destruct (Z.ltb_spec (Z.of_nat (length b - k')) len); [by apply returns_ret|].
    greturns path_fields_total; [lia|lia|lia|]. intros [[path' i']|] Hi'; [|by apply returns_ret]. apply IH; lia.
Qed.

(** ** The frames the sequences exchange *)

Section theorems.
Context {PW : ProtoWire} {PL : ProtoWireLaws} {MP : MessagePool}.

(** C29: A pack frame, marshalled into a buffer of exactly the size computed
    beforehand and decoded by the receiver, gives back the message and
    sequence ids, the sequence number, the flags, the frames, the contract,
    the tag and the session hints; and the routing path read from the same
    bytes without decoding is the path it was sent on. *)
Theorem pack_frame_roundtrip (m : sendPackFrame) (decodePath : bool) :
  pack_values_ok m ->
  length (marshalSendPackTransferFrame m) = sizePackFrame m /\
  unmarshalTransferFrame (marshalSendPackTransferFrame m) emptyTransferFrame decodePath =
    Ret (Some (decoded_pack_frame m decodePath)) /\
  (forall unmarshal, FilteredTransferPath unmarshal (marshalSendPackTransferFrame m) = Ret (inl (sp_path m))) /\
  TransferPathFromProtobuf (tf_TransferPath (decoded_pack_frame m true)) = inl (sp_path m).
Proof.
  intros Hm. unfold marshalSendPackTransferFrame. rewrite take_0.
  destruct (pack_frame_append m [] (proj1 Hm)) as [-> Hsz]. cbn [app]. split; [done|]. split; [by apply unmarshal_pack_frame|].
  split; [|by apply transfer_path_wire, Hm]. intros u. unfold FilteredTransferPath. by rewrite parse_pack_frame.
Qed.

(** An ack frame decodes to the message and sequence ids, the selective flag
    and the tag it was built from, and its routing path reads back; the
    receive window it advertises does not survive decoding, whatever its
    value. *)
Theorem ack_frame_roundtrip (m : sendAckFrame) (decodePath : bool) :
  ack_values_ok m ->
  length (marshalSendAckTransferFrame m) = sizeAckFrame m /\
  unmarshalTransferFrame (marshalSendAckTransferFrame m) emptyTransferFrame decodePath =
    Ret (Some (decoded_ack_frame m decodePath)) /\
  ReceiveWindowByteCount (decoded_ack m) = None /\
  (forall unmarshal, FilteredTransferPath unmarshal (marshalSendAckTransferFrame m) = Ret (inl (sa_path m))).
Proof.
  intros Hm. unfold marshalSendAckTransferFrame. rewrite take_0.
  destruct (ack_frame_append m [] (proj1 Hm)) as [-> Hsz]. cbn [app]. split; [done|]. split; [by apply unmarshal_ack_frame|].
  split; [done|]. intros u. unfold FilteredTransferPath. by rewrite parse_ack_frame.
Qed.

(** Whatever bytes arrive, decoding a transfer frame terminates without a
    panic, and so does reading its path. *)
Theorem frame_decoders_total (b : bytes) (tf : TransferFrame) (decodePath : bool) unmarshal :
  returns (unmarshalTransferFrame b tf decodePath) (fun _ => True) /\
  returns (FilteredTransferPath unmarshal b) (fun _ => True).
Proof.
  split; [apply unmarshal_total|]. unfold FilteredTransferPath, parseFilteredTransferPath.
  greturns frame_fields_total; [lia|lia|]. intros r _. by apply returns_ret.
Qed.

(** The path reader takes what the wire format rejects: a field numbered 0 in
    front of a frame, which the full decoder refuses, is skipped. *)
Theorem path_reader_accepts_field_zero (m : sendAckFrame) (decodePath : bool) :
  ack_values_ok m ->
  let b := [0; 0] ++ ack_frame_bytes m in
  unmarshalTransferFrame b emptyTransferFrame decodePath = Ret None /\
  parseFilteredTransferPath b = Ret (Some (sa_path m, true)).
Proof.
  intros Hm b. split.
  { unfold unmarshalTransferFrame, b. cbn [length app fields].
    pose proof (consume_tag_invalid 0 [0] (0 :: ack_frame_bytes m) ltac:(lia) ltac:(constructor; lia)) as Et.
    cbn [app] in Et. by rewrite Et. }
  unfold parseFilteredTransferPath. apply (frame_reads_all _ (noPath, false)).
  pose proof (ack_frame_fits m Hm) as Hfit. unfold fits63 in Hfit. destruct Hm as ((Hp & _) & _).
  assert (Hsub : (length (ack_bytes m) <= length (ack_frame_bytes m))%nat).
  { unfold ack_frame_bytes. rewrite !length_app, !length_bfield. lia. }
  eapply frame_reads_trans with (i2 := 2%nat) (s2 := (noPath, false)).
  { intros [|fuel] Hf; [unfold b in Hf; cbn in Hf; lia|]. exists fuel. split; [lia|]. reflexivity. }
  unfold b, ack_frame_bytes.
  eapply frame_reads_trans; [apply (frame_reads_path [0; 0] _ _ Hp)|]. rewrite app_assoc.
  eapply frame_reads_trans; [apply frame_reads_vfield; unfold MessageType_TransferAck; lia|]. rewrite app_assoc.
  rewrite <- (app_nil_r (bfield 5 (ack_bytes m))). rewrite (app_nil_r (bfield 5 _)) at 2.
  apply frame_reads_bfield; [lia|unfold fits63; lia].
Qed.
End theorems.

(** ** A concrete wire reader *)

Fixpoint take_varint (fuel : nat) (b : bytes) : option (Z * nat) :=
  match fuel, b with
  | S fuel, c :: b =>
      if c <? 128 then Some (c, 1%nat)
      else match take_varint fuel b with
           | Some (v, n) => Some (c - 128 + 128 * v, S n)
           | None => None
           end
  | _, _ => None
  end.

Definition wire_varint (b : bytes) : option (Z * nat) :=
  match take_varint 10 b with
  | Some (v, n) => if v <? 18446744073709551616 then Some (v, n) else None
  | None => None
  end.

Definition wire_tag (b : bytes) : option (Z * Z * nat) :=
  match wire_varint b with
  | Some (v, n) => if (8 <=? v) && (v <? 4294967296) then Some (v / 8, v mod 8, n) else None
  | None => None
  end.

Definition wire_bytes (b : bytes) : option (bytes * nat) :=
  match wire_varint b with
  | Some (v, n) =>
      if (0 <=? v) && (v <=? Z.of_nat (length b - n)) then Some (take (Z.to_nat v) (drop n b), (n + Z.to_nat v)%nat) else None
  | None => None
  end.

Definition wire_field (num typ : Z) (b : bytes) : option nat :=
  if typ =? 0 then snd <$> wire_varint b
  else if typ =? 1 then (if (8 <=? length b)%nat then Some 8%nat else None)
  else if typ =? 2 then snd <$> wire_bytes b
  else if typ =? 5 then (if (4 <=? length b)%nat then Some 4%nat else None)
  else None.

#[export] Instance wire : ProtoWire := {|
  ConsumeTag := wire_tag;
  ConsumeVarint := wire_varint;
  ConsumeBytes := wire_bytes;
  ConsumeFieldValue := wire_field;
  DecodeBool v := negb (v =? 0);
|}.

Lemma take_varint_enc v l : varint_bytes v l -> forall k rest, v < 128 ^ Z.of_nat k -> (0 < k)%nat ->
  take_varint k (l ++ rest) = Some (v, length l).
Proof.
  induction 1 as [v Hv|v l Hv Hl IH]; intros [|k] rest Hk Hpos; try lia; cbn [take_varint app].
  - by rewrite (proj2 (Z.ltb_lt _ _)) by lia.
  - pose proof (Z.mod_pos_bound v 128 ltac:(lia)). rewrite (proj2 (Z.ltb_ge _ _)) by lia.
    destruct k as [|k]; [change (128 ^ Z.of_nat 1) with 128 in Hk; lia|].
    rewrite IH; [|apply Z.div_lt_upper_bound; [lia|]; rewrite <- Z.pow_succ_r by lia; by rewrite <- Nat2Z.inj_succ|lia].
    do 3 f_equal. pose proof (Z.div_mod v 128 ltac:(lia)). lia.
Qed.

Lemma take_varint_bound k b v n : take_varint k b = Some (v, n) -> (1 <= n <= length b)%nat.
Proof.
  revert b v n. induction k as [|k IH]; intros [|c b] v n; cbn [take_varint]; try done.
  destruct (c <? 128); [intros [= <- <-]; cbn; lia|]. destruct (take_varint k b) as [[w m]|] eqn:E; [|done].
  intros [= <- <-]. apply IH in E. cbn. lia.
Qed.

Lemma wire_varint_enc v l rest : varint_bytes v l -> v < 18446744073709551616 -> wire_varint (l ++ rest) = Some (v, length l).
Proof.
  intros Hl Hv. unfold wire_varint. rewrite (take_varint_enc v l Hl); [by rewrite (proj2 (Z.ltb_lt _ _) Hv)| |lia].
  change (128 ^ Z.of_nat 10) with 1180591620717411303424. lia.
Qed.

Lemma wire_varint_bound b v n : wire_varint b = Some (v, n) -> (1 <= n <= length b)%nat.
Proof.
  unfold wire_varint. destruct (take_varint 10 b) as [[w m]|] eqn:E; [|done]. destruct (_ <? _); [|done].
  intros [= <- <-]. by apply take_varint_bound in E.
Qed.

Lemma wire_bytes_bound b v n : wire_bytes b = Some (v, n) -> (length v < n <= length b)%nat.
Proof.
  unfold wire_bytes. destruct (wire_varint b) as [[w m]|] eqn:E; [|done]. apply wire_varint_bound in E.
  destruct (Z.leb_spec 0 w), (Z.leb_spec w (Z.of_nat (length b - m))); cbn [andb]; try done.
  intros [= <- <-]. rewrite length_take, length_drop. lia.
Qed.

#[export] Instance wire_laws : ProtoWireLaws.
Proof.
  constructor; cbn [ConsumeTag ConsumeVarint ConsumeBytes ConsumeFieldValue DecodeBool wire].
  - intros. by apply wire_varint_enc.
  - intros num typ l rest Hn Ht Hl. unfold wire_tag. rewrite (wire_varint_enc _ _ _ Hl) by lia.
    rewrite (proj2 (Z.leb_le _ _)), (proj2 (Z.ltb_lt _ _)) by lia. cbn [andb]. do 3 f_equal.
    + symmetry. apply (Z.div_unique_pos _ _ _ typ); lia.
    + rewrite Z.add_comm, Z.mod_add, Z.mod_small by lia. done.
  - intros typ l rest Ht Hl. unfold wire_tag. rewrite (wire_varint_enc _ _ _ Hl) by lia. by rewrite (proj2 (Z.leb_gt _ _)) by lia.
  - intros v l rest Hl Hv. unfold wire_bytes. rewrite (wire_varint_enc _ _ _ Hl) by done.
    rewrite (proj2 (Z.leb_le _ _)), (proj2 (Z.leb_le _ _)) by (rewrite ?length_app; lia). cbn [andb].
    by rewrite Nat2Z.id, drop_app_length, take_app_length.
  - intros num v l rest Hl Hv. unfold wire_field. cbn [Z.eqb]. by rewrite (wire_varint_enc _ _ _ Hl).
  - intros b num typ n. unfold wire_tag. destruct (wire_varint b) as [[v m]|] eqn:E; [|done]. destruct (_ && _); [|done].
    intros [= <- <- <-]. by apply wire_varint_bound in E.
  - apply wire_varint_bound.
  - apply wire_bytes_bound.
  - intros num typ b n. unfold wire_field. destruct (typ =? 0).
    { destruct (wire_varint b) as [[v m]|] eqn:E; [|done]. cbn. intros [= <-]. apply wire_varint_bound in E. lia. }
    destruct (typ =? 1); [destruct (Nat.leb_spec 8 (length b)); [intros [= <-]; lia|done]|].
    destruct (typ =? 2).
    { destruct (wire_bytes b) as [[v m]|] eqn:E; [|done]. cbn. intros [= <-]. apply wire_bytes_bound in E. lia. }
    destruct (typ =? 5); [destruct (Nat.leb_spec 4 (length b)); [intros [= <-]; lia|done]|done].
  - done.
Qed.

(** ** Witnesses *)

Definition demo_id (k : Z) : bytes := replicate 15 7 ++ [k].
Definition demo_transfer_path : TransferPath := Path (demo_id 1) (demo_id 2) zero_id.
Definition demo_frame : Frame := MkFrame 16 (Some [69; 0; 0; 20]) true.
Definition demo_pack : sendPackFrame :=
  SendPackFrame demo_transfer_path (demo_id 3) (demo_id 4) 300 true false [demo_frame; MkFrame (-1) None false]
    (Some (MkFrame 2 (Some [1; 2; 3]) false)) 1700000000000 None 2 true true.
Definition demo_ack : sendAckFrame :=
  SendAckFrame demo_transfer_path (demo_id 3) (demo_id 4) true (Some (MkTag 1700000000000)) 2097152 true.

Lemma demo_id_ok k : byte_ok k -> isId (demo_id k).
Proof. intros Hk. split; [done|]. unfold demo_id, bytes_ok, byte_ok in *. cbn. repeat constructor; lia. Qed.

Lemma demo_transfer_path_ok : path_ok demo_transfer_path.
Proof. split; [|split]; [apply demo_id_ok; unfold byte_ok; lia..|apply zero_id_ok]. Qed.

Lemma demo_pack_ok : pack_values_ok demo_pack.
Proof.
  repeat apply conj; try apply demo_transfer_path_ok; try (apply demo_id_ok; unfold byte_ok; lia); try done;
    cbn; repeat constructor; cbn; unfold fits63; vm_compute; done || (intros; discriminate).
Qed.

Lemma demo_ack_ok : ack_values_ok demo_ack.
Proof. repeat apply conj; try apply demo_transfer_path_ok; try (apply demo_id_ok; unfold byte_ok; lia); cbn; lia. Qed.

Lemma pack_frame_roundtrip_witness :
  unmarshalTransferFrame (marshalSendPackTransferFrame demo_pack) emptyTransferFrame true =
    Ret (Some (decoded_pack_frame demo_pack true)) /\
  tf_SessionRole (decoded_pack_frame demo_pack true) = Some 2.
Proof. split; [apply (pack_frame_roundtrip demo_pack true demo_pack_ok)|reflexivity]. Defined.

Lemma ack_frame_roundtrip_witness :
  sa_receiveWindowSet demo_ack = true /\
  unmarshalTransferFrame (marshalSendAckTransferFrame demo_ack) emptyTransferFrame false =
    Ret (Some (decoded_ack_frame demo_ack false)).
Proof. split; [reflexivity|]. apply (ack_frame_roundtrip demo_ack false demo_ack_ok). Defined.

Lemma frame_decoders_total_witness :
  returns (unmarshalTransferFrame [10; 200; 1] emptyTransferFrame true) (fun _ => True).
Proof. apply (frame_decoders_total [10; 200; 1] emptyTransferFrame true (fun _ => inr ErrMissingPath)). Defined.

Lemma path_reader_accepts_field_zero_witness :
  parseFilteredTransferPath ([0; 0] ++ ack_frame_bytes demo_ack) = Ret (Some (demo_transfer_path, true)).
Proof. apply (path_reader_accepts_field_zero demo_ack true demo_ack_ok). Defined.
