(* ===== verification/AckWindow.v ===== *)
(** The acknowledgement window of src/transfer.go ([sequenceAckWindow]): the
    compression of the acks of one sequence into a cumulative head ack and a
    set of selective acks, and the early wake on a hole. Both ends use it: the
    receive sequence in front of its ack writer, the send sequence in front of
    the resend queue.

    Update stores the pointer it is given and Snapshot hands the same pointers
    out; nothing changes a stored ack afterwards (the head is replaced by a
    copy), so acks are values here. *)
From S2P Require Import Prelude FrameCodec.

Record sequenceAck := SequenceAck {
  ak_sequenceNumber : Z;   (* uint64 *)
  ak_messageId : bytes;
  ak_selective : bool;
  ak_tag : option Tag;
  ak_unwrapped : bool;
}.

(** [gapWakeReason] is a bit set. *)
Definition gapWakeHoleProvable : Z := 1.
Definition gapWakeHoleFilled : Z := 2.

(** [gapNotify] is whether the channel of capacity one holds its token;
    [ackNotified] counts the [NotifyAll] calls of the monitor. *)
Record sequenceAckWindow := AckWindow {
  headAck : option sequenceAck;
  ackUpdateCount : Z;
  selectiveAcks : gmap bytes sequenceAck;
  gapNotify : bool;
  gapWakeSelectiveCount : Z;
  gapWakeSignaled : Z;
  gapSelectiveAboveHead : Z;
  gapSelectiveMax : Z;
  gapSelectiveSeen : bool;
  ackNotified : nat;
}.

Record sequenceAckWindowSnapshot := AckSnapshot {
  sn_headAck : option sequenceAck;
  sn_ackUpdateCount : Z;
  sn_selectiveAcks : gmap bytes sequenceAck;
}.

Definition newSequenceAckWindowWithGapWake (n : Z) : sequenceAckWindow :=
  AckWindow None 0 ∅ false n 0 0 0 false 0.

Definition newSequenceAckWindow : sequenceAckWindow := newSequenceAckWindowWithGapWake 0.

Definition set_unwrapped (a : sequenceAck) (b : bool) : sequenceAck :=
  SequenceAck (ak_sequenceNumber a) (ak_messageId a) (ak_selective a) (ak_tag a) b.
Definition set_gap (w : sequenceAckWindow) (notify : bool) (signaled : Z) : sequenceAckWindow :=
  AckWindow (headAck w) (ackUpdateCount w) (selectiveAcks w) notify (gapWakeSelectiveCount w) signaled
    (gapSelectiveAboveHead w) (gapSelectiveMax w) (gapSelectiveSeen w) (ackNotified w).
Definition set_gap_counts (w : sequenceAckWindow) (above max : Z) (seen : bool) : sequenceAckWindow :=
  AckWindow (headAck w) (ackUpdateCount w) (selectiveAcks w) (gapNotify w) (gapWakeSelectiveCount w) (gapWakeSignaled w)
    above max seen (ackNotified w).
Definition set_acks (w : sequenceAckWindow) (head : option sequenceAck) (count : Z) (sel : gmap bytes sequenceAck)
  : sequenceAckWindow :=
  AckWindow head count sel (gapNotify w) (gapWakeSelectiveCount w) (gapWakeSignaled w)
    (gapSelectiveAboveHead w) (gapSelectiveMax w) (gapSelectiveSeen w) (ackNotified w).
Definition notify_all (w : sequenceAckWindow) : sequenceAckWindow :=
  AckWindow (headAck w) (ackUpdateCount w) (selectiveAcks w) (gapNotify w) (gapWakeSelectiveCount w) (gapWakeSignaled w)
    (gapSelectiveAboveHead w) (gapSelectiveMax w) (gapSelectiveSeen w) (S (ackNotified w)).

(** A non-blocking send on the channel leaves its token there. *)
Definition signalGapWakeWithLock (w : sequenceAckWindow) (reason : Z) : sequenceAckWindow :=
  if negb (Z.land (gapWakeSignaled w) reason =? 0) then w
  else set_gap w true (Z.lor (gapWakeSignaled w) reason).

Definition GapWakeReasons (w : sequenceAckWindow) : Z := gapWakeSignaled w.

Definition above_head (w : sequenceAckWindow) (n : Z) : bool :=
  match headAck w with None => true | Some h => ak_sequenceNumber h <? n end.

Definition update_selective (w : sequenceAckWindow) (ack : sequenceAck) : sequenceAckWindow :=
  let prior := selectiveAcks w !! ak_messageId ack in
  let ack := match prior with
             | Some p => if ak_unwrapped p then set_unwrapped ack true else ack
             | None => ack
             end in
  let w := set_acks w (headAck w) (ackUpdateCount w) (<[ak_messageId ack := ack]> (selectiveAcks w)) in
  let w := match prior with
           | None => set_gap_counts w (i64 (gapSelectiveAboveHead w + 1)) (gapSelectiveMax w) (gapSelectiveSeen w)
           | Some _ => w
           end in
  let w := if negb (gapSelectiveSeen w) || (gapSelectiveMax w <? ak_sequenceNumber ack)
           then set_gap_counts w (gapSelectiveAboveHead w) (ak_sequenceNumber ack) true else w in
  if (0 <? gapWakeSelectiveCount w) && (gapWakeSelectiveCount w <=? gapSelectiveAboveHead w)
  then signalGapWakeWithLock w gapWakeHoleProvable else w.

Definition update_head (w : sequenceAckWindow) (ack : sequenceAck) : sequenceAckWindow :=
  let w := if (0 <? gapWakeSelectiveCount w) && gapSelectiveSeen w &&
              match headAck w with None => true | Some h => ak_sequenceNumber h <? gapSelectiveMax w end
           then signalGapWakeWithLock w gapWakeHoleFilled else w in
  let w := if 0 <? gapSelectiveAboveHead w then
             if gapSelectiveMax w <=? ak_sequenceNumber ack
             then set_gap_counts w 0 (gapSelectiveMax w) (gapSelectiveSeen w)
             else match selectiveAcks w !! ak_messageId ack with
                  | Some _ => set_gap_counts w (i64 (gapSelectiveAboveHead w - 1)) (gapSelectiveMax w) (gapSelectiveSeen w)
                  | None => w
                  end
           else w in
  let ack := match headAck w with Some h => if ak_unwrapped h then set_unwrapped ack true else ack | None => ack end in
  let ack := if negb (ak_unwrapped ack) &&
                existsb (fun '(_, sel) => ak_unwrapped sel && (ak_sequenceNumber sel <=? ak_sequenceNumber ack))
                  (map_to_list (selectiveAcks w))
             then set_unwrapped ack true else ack in
  set_acks w (Some ack) (i64 (ackUpdateCount w + 1)) (selectiveAcks w).

Definition update_past (w : sequenceAckWindow) (ack : sequenceAck) : sequenceAckWindow :=
  let head := match headAck w with
              | Some h => if ak_unwrapped ack && negb (ak_unwrapped h) then Some (set_unwrapped h true) else Some h
              | None => None
              end in
  set_acks w head (i64 (ackUpdateCount w + 1)) (selectiveAcks w).

Definition Update (w : sequenceAckWindow) (ack : sequenceAck) : sequenceAckWindow :=
  notify_all
    (if above_head w (ak_sequenceNumber ack) then
       if ak_selective ack then update_selective w ack else update_head w ack
     else update_past w ack).

(** The loop over the map dereferences the head for every entry: a nil head
    panics there. *)
Definition after_head (w : sequenceAckWindow) : go (gmap bytes sequenceAck) :=
  if bool_decide (selectiveAcks w = ∅) then Ret ∅
  else match headAck w with
       | None => Panic
       | Some h => Ret (filter (fun '(_, a) => ak_sequenceNumber h < ak_sequenceNumber a) (selectiveAcks w))
       end.

Definition reset_window (w : sequenceAckWindow) : sequenceAckWindow :=
  AckWindow (headAck w) 0 ∅ false (gapWakeSelectiveCount w) 0 0 (gapSelectiveMax w) (gapSelectiveSeen w) (ackNotified w).

Definition Snapshot (w : sequenceAckWindow) (reset : bool) : go (sequenceAckWindow * sequenceAckWindowSnapshot) :=
  let! sel := if 0 <? ackUpdateCount w then after_head w else Ret (selectiveAcks w) in
  let snapshot := AckSnapshot (headAck w) (ackUpdateCount w) sel in
  Ret (if reset then reset_window w else w, snapshot).

(** ** Runs *)

Inductive window_op := DoUpdate (a : sequenceAck) | DoSnapshot (reset : bool).

Definition window_step (w : sequenceAckWindow) (o : window_op) : go sequenceAckWindow :=
  match o with
  | DoUpdate a => Ret (Update w a)
  | DoSnapshot reset => let! '(w, _) := Snapshot w reset in Ret w
  end.

Fixpoint window_run (w : sequenceAckWindow) (l : list window_op) : go sequenceAckWindow :=
  match l with
  | [] => Ret w
  | o :: l => let! w := window_step w o in window_run w l
  end.

(** The acks recorded by a run, and those since its last reset snapshot. *)
Definition op_history (h : list sequenceAck * list sequenceAck) (o : window_op) : list sequenceAck * list sequenceAck :=
  match o with
  | DoUpdate a => (h.1 ++ [a], h.2 ++ [a])
  | DoSnapshot true => (h.1, [])
  | DoSnapshot false => h
  end.

Definition history (l : list window_op) : list sequenceAck * list sequenceAck := fold_left op_history l ([], []).

(** Acks that agree up to the wrap bit. *)
Definition same_ack (a b : sequenceAck) : Prop :=
  ak_sequenceNumber a = ak_sequenceNumber b /\ ak_messageId a = ak_messageId b /\
  ak_selective a = ak_selective b /\ ak_tag a = ak_tag b.

(** A message has one sequence number. *)
Definition ids_consistent (l : list sequenceAck) : Prop :=
  forall a b, a ∈ l -> b ∈ l -> ak_messageId a = ak_messageId b -> ak_sequenceNumber a = ak_sequenceNumber b.

(** ** The invariant *)

Record window_ok (w : sequenceAckWindow) (all recent : list sequenceAck) : Prop := {
  (* the head is the highest cumulative ack *)
  wo_head : match headAck w with
            | None => Forall (fun a => ak_selective a = true) all
            | Some h => (exists a, a ∈ all /\ same_ack a h /\ ak_selective a = false) /\
                        Forall (fun a => ak_selective a = false -> ak_sequenceNumber a <= ak_sequenceNumber h) all
            end;
  (* every selective ack held is one that was recorded *)
  wo_held : forall id s, selectiveAcks w !! id = Some s ->
              ak_messageId s = id /\ ak_selective s = true /\ exists a, a ∈ recent /\ same_ack a s;
  (* a recent ack is covered by the head or held *)
  wo_recent : Forall (fun a => (above_head w (ak_sequenceNumber a) = false /\ 0 < ackUpdateCount w) \/
                               (ak_selective a = true /\ is_Some (selectiveAcks w !! ak_messageId a))) recent;
  wo_count : 0 <= ackUpdateCount w <= Z.of_nat (length recent);
  wo_count_head : 0 < ackUpdateCount w -> headAck w <> None;
  (* without an update of the head, everything held is above it *)
  wo_above : ackUpdateCount w = 0 -> forall id s, selectiveAcks w !! id = Some s -> above_head w (ak_sequenceNumber s) = true;
  wo_sub : forall a, a ∈ recent -> a ∈ all;
  (* a plaintext ack under the head makes the head plaintext *)
  wo_plain : forall a, a ∈ recent -> ak_unwrapped a = true ->
               match headAck w with
               | Some h => ak_sequenceNumber a <= ak_sequenceNumber h -> ak_unwrapped h = true
               | None => True
               end;
  wo_plain_held : forall a, a ∈ recent -> ak_unwrapped a = true -> above_head w (ak_sequenceNumber a) = true ->
               exists s, selectiveAcks w !! ak_messageId a = Some s /\ ak_unwrapped s = true;
}.

(** ** What an update changes *)

Lemma same_ack_refl a : same_ack a a.
Proof. done. Qed.

Lemma same_ack_unwrapped a b u : same_ack a b -> same_ack a (set_unwrapped b u).
Proof. done. Qed.

Lemma signal_acks w r :
  headAck (signalGapWakeWithLock w r) = headAck w /\ selectiveAcks (signalGapWakeWithLock w r) = selectiveAcks w /\
  ackUpdateCount (signalGapWakeWithLock w r) = ackUpdateCount w.
Proof. unfold signalGapWakeWithLock. by destruct (negb _). Qed.

Lemma update_selective_acks w ack :
  exists u, (ak_unwrapped ack = true -> u = true) /\
  (forall p, selectiveAcks w !! ak_messageId ack = Some p -> ak_unwrapped p = true -> u = true) /\
  headAck (update_selective w ack) = headAck w /\
  selectiveAcks (update_selective w ack) = <[ak_messageId ack := set_unwrapped ack u]> (selectiveAcks w) /\
  ackUpdateCount (update_selective w ack) = ackUpdateCount w.
Proof.
  set (prior := selectiveAcks w !! ak_messageId ack).
  exists (match prior with Some p => if ak_unwrapped p then true else ak_unwrapped ack | None => ak_unwrapped ack end).
  split; [intros ->; by destruct prior as [p|]; [destruct (ak_unwrapped p)|]|].
  split; [intros p -> ->; done|].
  unfold update_selective. fold prior.
  assert (Eid : ak_messageId (match prior with Some p => if ak_unwrapped p then set_unwrapped ack true else ack | None => ack end)
                = ak_messageId ack) by (destruct prior as [p|]; [destruct (ak_unwrapped p)|]; done).
  assert (Eack : match prior with Some p => if ak_unwrapped p then set_unwrapped ack true else ack | None => ack end
                 = set_unwrapped ack (match prior with Some p => if ak_unwrapped p then true else ak_unwrapped ack | None => ak_unwrapped ack end))
    by (destruct prior as [p|]; [destruct (ak_unwrapped p)|]; by destruct ack).
  rewrite Eid, Eack. cbv zeta.
  repeat match goal with
  | |- context [if ?b then signalGapWakeWithLock _ _ else _] => destruct b
  | |- context [signalGapWakeWithLock ?w ?r] => destruct (signal_acks w r) as (-> & -> & ->)
  | |- context [if ?b then set_gap_counts _ _ _ _ else _] => destruct b
  | |- context [match prior with Some _ => ?x | None => set_gap_counts _ _ _ _ end] => destruct prior
  end; done.
Qed.

Lemma update_head_acks w ack :
  exists u, (ak_unwrapped ack = true -> u = true) /\
  (forall h, headAck w = Some h -> ak_unwrapped h = true -> u = true) /\
  (forall id s, selectiveAcks w !! id = Some s -> ak_unwrapped s = true -> ak_sequenceNumber s <= ak_sequenceNumber ack -> u = true) /\
  headAck (update_head w ack) = Some (set_unwrapped ack u) /\
  selectiveAcks (update_head w ack) = selectiveAcks w /\
  ackUpdateCount (update_head w ack) = i64 (ackUpdateCount w + 1).
Proof.
  set (found := existsb (fun '(_, sel) => ak_unwrapped sel && (ak_sequenceNumber sel <=? ak_sequenceNumber ack))
                  (map_to_list (selectiveAcks w))).
  set (inherited := match headAck w with Some h => ak_unwrapped h | None => false end).
  exists (inherited || ak_unwrapped ack || found).
  split; [intros ->; by rewrite orb_true_r|]. split; [intros h Hh Hu; unfold inherited; by rewrite Hh, Hu|].
  split.
  { intros id s Hs Hu Hle. assert (found = true) as ->; [|by rewrite orb_true_r].
    apply existsb_exists. exists (id, s). split; [apply list_elem_of_In, elem_of_map_to_list, Hs|].
    rewrite Hu. apply andb_true_iff. split; [done|]. by apply Z.leb_le. }
  unfold update_head.
  set (w1 := if _ && _ && _ then _ else _).
  assert (E1 : headAck w1 = headAck w /\ selectiveAcks w1 = selectiveAcks w /\ ackUpdateCount w1 = ackUpdateCount w).
  { unfold w1. destruct (_ && _ && _); [apply signal_acks|done]. }
  set (w2 := if 0 <? gapSelectiveAboveHead w1 then _ else _). cbv zeta.
  assert (E2 : headAck w2 = headAck w /\ selectiveAcks w2 = selectiveAcks w /\ ackUpdateCount w2 = ackUpdateCount w).
  { unfold w2. clearbody w1. destruct (_ <? _); [|exact E1]. destruct (_ <=? _); [exact E1|].
    destruct (selectiveAcks w1 !! _); exact E1. }
  destruct E2 as (-> & -> & ->).
  assert (Ea : (match headAck w with Some h => if ak_unwrapped h then set_unwrapped ack true else ack | None => ack end)
               = set_unwrapped ack (inherited || ak_unwrapped ack)).
  { unfold inherited. destruct (headAck w) as [h|]; [destruct (ak_unwrapped h)|]; by destruct ack. }
  rewrite Ea. cbn [ak_unwrapped set_unwrapped ak_sequenceNumber]. fold found. split; [|done].
  cbn [headAck set_acks]. destruct (inherited || ak_unwrapped ack); cbn [negb orb andb]; [done|]. by destruct found.
Qed.

Lemma above_head_false w n : above_head w n = false <-> exists h, headAck w = Some h /\ n <= ak_sequenceNumber h.
Proof.
  unfold above_head. destruct (headAck w) as [h|]; [|split; [done|by intros (h & ? & _)]].
  rewrite Z.ltb_ge. split; [eauto|]. by intros (h' & [= <-] & ?).
Qed.

Lemma above_head_true w n : above_head w n = true <-> forall h, headAck w = Some h -> ak_sequenceNumber h < n.
Proof.
  unfold above_head. destruct (headAck w) as [h|]; [|done]. rewrite Z.ltb_lt. split; [by intros ? h' [= <-]|auto].
Qed.

Lemma recent_snoc (P : sequenceAck -> Prop) l a : (forall x, x ∈ l -> P x) -> P a -> forall x, x ∈ l ++ [a] -> P x.
Proof. intros Hl Ha x [Hx|Hx]%elem_of_app; [auto|]. apply list_elem_of_singleton in Hx as ->. done. Qed.

Lemma window_new n : window_ok (newSequenceAckWindowWithGapWake n) [] [].
Proof. split; cbn; try done; try lia; try (intros; set_solver); by constructor. Qed.

Lemma ok_notify w all recent : window_ok (notify_all w) all recent <-> window_ok w all recent.
Proof. split; intros [? ? ? ? ? ? ? ? ?]; by split. Qed.

Lemma update_selective_ok w all recent a :
  window_ok w all recent -> ids_consistent (all ++ [a]) -> ak_selective a = true -> above_head w (ak_sequenceNumber a) = true ->
  window_ok (update_selective w a) (all ++ [a]) (recent ++ [a]).
Proof.
  intros [Hh Hheld Hrec Hc Hch Hab Hsub Hp Hph] Hcon Hsel Ha.
  destruct (update_selective_acks w a) as (u & Hu1 & Hu2 & Eh & Es & Ec).
  assert (Eah : forall n, above_head (update_selective w a) n = above_head w n) by (intros n; unfold above_head; by rewrite Eh).
  split; rewrite ?Eh, ?Es, ?Ec.
  - destruct (headAck w) as [h|]; [|apply Forall_app; split; [done|by constructor]].
    destruct Hh as ((x & Hx & Hsx & Hnx) & Hmax). split; [exists x; set_solver|]. apply Forall_app; split; [done|].
    constructor; [congruence|constructor].
  - intros id s [[<- <-]|[Hne Hs]]%lookup_insert_Some.
    + split; [done|]. split; [done|]. exists a. split; [set_solver|done].
    + destruct (Hheld id s Hs) as (? & ? & x & Hx & ?). split; [done|]. split; [done|]. exists x. split; [set_solver|done].
  - apply Forall_app; split.
    + eapply Forall_impl; [|exact Hrec]. intros x [Hx|[Hx Hi]]; [left; by rewrite Eah|right]. split; [done|].
      rewrite lookup_insert. destruct (decide _); [eauto|done].
    + constructor; [|constructor]. right. split; [done|]. rewrite lookup_insert. by rewrite decide_True.
  - rewrite length_app. cbn. lia.
  - done.
  - intros H0 id s [[<- <-]|[Hne Hs]]%lookup_insert_Some; rewrite Eah; [done|by apply (Hab H0 id)].
  - refine (recent_snoc _ _ _ _ _); set_solver.
  - refine (recent_snoc _ _ _ _ _); [done|]. intros _. destruct (headAck w) as [h|] eqn:E; [|done]. intros Hle.
    rewrite above_head_true in Ha. specialize (Ha h E). lia.
  - refine (recent_snoc _ _ _ _ _).
    + intros x Hx Hux Hax. rewrite Eah in Hax. destruct (Hph x Hx Hux Hax) as (s & Hs & Hus).
      destruct (decide (ak_messageId x = ak_messageId a)) as [E|E].
      * rewrite E, lookup_insert, decide_True by done. eexists. split; [done|]. cbn. rewrite E in Hs. by apply (Hu2 s).
      * rewrite lookup_insert_ne by done. eauto.
    + intros Hua _. rewrite lookup_insert, decide_True by done. eexists. split; [done|]. cbn. auto.
Qed.

Lemma update_head_ok w all recent a :
  window_ok w all recent -> ids_consistent (all ++ [a]) -> ak_selective a = false -> above_head w (ak_sequenceNumber a) = true ->
  Z.of_nat (length recent) < MaxInt64 ->
  window_ok (update_head w a) (all ++ [a]) (recent ++ [a]).
Proof.
  unfold MaxInt64. intros [Hh Hheld Hrec Hc Hch Hab Hsub Hp Hph] Hcon Hsel Ha Hlen.
  destruct (update_head_acks w a) as (u & Hu1 & Hu2 & Hu3 & Eh & Es & Ec). rewrite i64_small in Ec by (unfold MaxInt64; lia).
  assert (Hmono : forall n, above_head w n = false -> above_head (update_head w a) n = false).
  { intros n (h & Hh' & Hn)%above_head_false. apply above_head_false. eexists. split; [done|]. cbn.
    rewrite above_head_true in Ha. specialize (Ha h Hh'). lia. }
  assert (Hself : above_head (update_head w a) (ak_sequenceNumber a) = false).
  { apply above_head_false. eexists. split; [done|]. cbn. lia. }
  split; rewrite ?Eh, ?Es, ?Ec.
  - split; [exists a; split; [set_solver|done]|]. apply Forall_app. split; [|constructor; [cbn; lia|constructor]].
    destruct (headAck w) as [h|] eqn:E.
    + destruct Hh as [_ Hmax]. eapply Forall_impl; [|exact Hmax]. cbn. intros x Hx Hnx. specialize (Hx Hnx).
      rewrite above_head_true in Ha. specialize (Ha h E). lia.
    + eapply Forall_impl; [|exact Hh]. cbn. intros x Hx Hnx. congruence.
  - intros id s Hs. destruct (Hheld id s Hs) as (? & ? & x & Hx & ?). split; [done|]. split; [done|]. exists x. split; [set_solver|done].
  - apply Forall_app; split; [|constructor; [left; split; [done|lia]|constructor]].
    eapply Forall_impl; [|exact Hrec]. intros x [[Hx _]|Hx]; [left; split; [by apply Hmono|lia]|by right].
  - rewrite length_app. cbn. lia.
  - done.
  - lia.
  - refine (recent_snoc _ _ _ _ _); set_solver.
  - refine (recent_snoc _ _ _ _ _); [|intros Hua _; cbn; auto]. intros x Hx Hux Hle. cbn in Hle |- *.
    destruct (above_head w (ak_sequenceNumber x)) eqn:Eax.
    + destruct (Hph x Hx Hux Eax) as (s & Hs & Hus). apply (Hu3 _ _ Hs Hus).
      destruct (Hheld _ _ Hs) as (_ & _ & y & Hy & Hsy). destruct Hsy as (Hq & Hi & _).
      assert (ak_messageId y = ak_messageId x) by (rewrite Hi; by destruct (Hheld _ _ Hs) as (? & _)).
      assert (ak_sequenceNumber y = ak_sequenceNumber x) by (apply Hcon; [set_solver|set_solver|done]). lia.
    + apply above_head_false in Eax as (h & Ehh & Hxh). specialize (Hp x Hx Hux). rewrite Ehh in Hp. by apply (Hu2 h Ehh), Hp.
  - intros x Hx Hux Hax. apply list.elem_of_app in Hx as [Hx|Hx].
    + apply (Hph x Hx Hux). destruct (above_head w (ak_sequenceNumber x)) eqn:E; [done|]. apply Hmono in E. congruence.
    + apply list_elem_of_singleton in Hx as ->. congruence.
Qed.

Lemma update_past_ok w all recent a :
  window_ok w all recent -> above_head w (ak_sequenceNumber a) = false -> Z.of_nat (length recent) < MaxInt64 ->
  window_ok (update_past w a) (all ++ [a]) (recent ++ [a]).
Proof.
  unfold MaxInt64. intros [Hh Hheld Hrec Hc Hch Hab Hsub Hp Hph] Ha Hlen.
  apply above_head_false in Ha as (h & Eh & Ha). rewrite Eh in *. destruct Hh as [(y & Hy & Hsy & Hny) Hmax].
  set (u := ak_unwrapped a || ak_unwrapped h).
  assert (Eh' : headAck (update_past w a) = Some (set_unwrapped h u)).
  { unfold update_past, u. cbn [headAck set_acks]. rewrite Eh. destruct h as [q i sl t b]. cbn. by destruct (ak_unwrapped a), b. }
  assert (Ec : ackUpdateCount (update_past w a) = ackUpdateCount w + 1).
  { unfold update_past. cbn. apply i64_small. unfold MaxInt64. lia. }
  assert (Es : selectiveAcks (update_past w a) = selectiveAcks w) by done.
  assert (Eah : forall n, above_head (update_past w a) n = above_head w n).
  { intros n. unfold above_head. by rewrite Eh', Eh. }
  split; rewrite ?Eh', ?Es, ?Ec.
  - split; [exists y; split; [set_solver|done]|]. apply Forall_app. split; [done|]. constructor; [done|constructor].
  - intros id s Hs. destruct (Hheld id s Hs) as (? & ? & x & Hx & ?). split; [done|]. split; [done|]. exists x. split; [set_solver|done].
  - apply Forall_app; split.
    + eapply Forall_impl; [|exact Hrec]. intros x [[Hx _]|Hx]; [left; rewrite Eah; split; [done|lia]|by right].
    + constructor; [|constructor]. left. rewrite Eah. split; [apply above_head_false; eauto|lia].
  - rewrite length_app. cbn. lia.
  - done.
  - lia.
  - refine (recent_snoc _ _ _ _ _); set_solver.
  - refine (recent_snoc _ _ _ _ _); [|intros Hua _; cbn; unfold u; by rewrite Hua].
    intros x Hx Hux Hle. cbn. unfold u. specialize (Hp x Hx Hux). rewrite Hp by done. apply orb_true_r.
  - intros x Hx Hux Hax. rewrite Eah in Hax. apply list.elem_of_app in Hx as [Hx|Hx]; [by apply Hph|].
    apply list_elem_of_singleton in Hx as ->. apply above_head_true with (h := h) in Hax; [lia|done].
Qed.

Lemma Update_ok w all recent a :
  window_ok w all recent -> ids_consistent (all ++ [a]) -> Z.of_nat (length recent) < MaxInt64 ->
  window_ok (Update w a) (all ++ [a]) (recent ++ [a]).
Proof.
  intros Hw Hcon Hlen. unfold Update. apply ok_notify. destruct (above_head w (ak_sequenceNumber a)) eqn:Ea.
  - destruct (ak_selective a) eqn:Es; [by apply update_selective_ok|by apply update_head_ok].
  - by apply update_past_ok.
Qed.

Lemma reset_ok w all recent : window_ok w all recent -> window_ok (reset_window w) all [].
Proof.
  intros [Hh Hheld Hrec Hc Hch Hab Hsub Hp Hph].
  split; cbn [headAck selectiveAcks ackUpdateCount reset_window length]; try done; try lia; try (intros; set_solver); by constructor.
Qed.

Lemma Snapshot_ret w all recent reset :
  window_ok w all recent ->
  exists sel, Snapshot w reset = Ret (if reset then reset_window w else w, AckSnapshot (headAck w) (ackUpdateCount w) sel) /\
    forall id s, sel !! id = Some s <-> selectiveAcks w !! id = Some s /\ above_head w (ak_sequenceNumber s) = true.
Proof.
  intros [Hh Hheld Hrec Hc Hch Hab Hsub Hp Hph]. unfold Snapshot. destruct (Z.ltb_spec 0 (ackUpdateCount w)) as [Hpos|Hz].
  - specialize (Hch Hpos). unfold after_head. destruct (headAck w) as [h|] eqn:Eh; [|done].
    destruct (bool_decide_reflect (selectiveAcks w = ∅)) as [E|E]; cbn [gbind].
    + exists ∅. split; [done|]. intros id s. rewrite E, lookup_empty. split; [done|]. by intros [? _].
    + eexists. split; [done|]. intros id s. rewrite map_lookup_filter_Some. unfold above_head. rewrite Eh, Z.ltb_lt. done.
  - exists (selectiveAcks w). split; [done|]. intros id s. split; [|by intros [? _]]. intros Hs. split; [done|].
    by apply (Hab ltac:(lia) id s).
Qed.

Lemma history_grows l a b :
  (length a <= length (fold_left op_history l (a, b)).1)%nat /\ forall x, x ∈ a -> x ∈ (fold_left op_history l (a, b)).1.
Proof.
  revert a b. induction l as [|o l IH]; intros a b; cbn [fold_left fst]; [done|].
  destruct o as [x|[|]]; cbn [op_history fst snd]; [|apply IH|apply IH].
  destruct (IH (a ++ [x]) (b ++ [x])) as [H1 H2]. rewrite length_app in H1. cbn [length] in H1. split; [lia|]. set_solver.
Qed.

Lemma window_run_ok l w all recent h :
  window_ok w all recent -> h = fold_left op_history l (all, recent) -> ids_consistent h.1 -> Z.of_nat (length h.1) < MaxInt64 ->
  (length recent <= length all)%nat ->
  exists w', window_run w l = Ret w' /\ window_ok w' h.1 h.2.
Proof.
  revert w all recent. induction l as [|o l IH]; intros w all recent Hw Eh Hcon Hlen Hle; [subst h; exists w; done|].
  cbn [fold_left window_run] in *.
  destruct o as [a|reset]; cbn [op_history window_step fst snd] in *.
  - destruct (history_grows l (all ++ [a]) (recent ++ [a])) as [Hl Hin]. rewrite <- Eh in Hl, Hin. rewrite length_app in Hl. cbn [length] in Hl.
    apply (IH _ (all ++ [a]) (recent ++ [a])); try done; [|rewrite !length_app; cbn; lia].
    apply Update_ok; [done| |lia]. intros x y Hx Hy. apply Hcon; auto.
  - destruct (Snapshot_ret w all recent reset Hw) as (sel & -> & _). cbn [gbind]. destruct reset.
    + apply (IH _ all []); try done; [by apply (reset_ok w all recent)|cbn; lia].
    + by apply (IH _ all recent).
Qed.

(** C30: No ack is lost or invented by the window, as long as the acks recorded
    give every message id one sequence number (a second selective ack with the
    same id and another number would replace the first) and are fewer than
    2^63 - 1. After any such updates and any snapshots, a snapshot returns: its
    head is the recorded cumulative ack with the
    highest sequence number; each selective ack it lists was recorded since
    the last reset and is above the head; and every ack recorded since then
    is either at or below the head, which is then marked to be sent and is
    plaintext if that ack was, or is listed. *)
Theorem ack_window_lossless (n : Z) (l : list window_op) (reset : bool) :
  let all := (history l).1 in
  let recent := (history l).2 in
  ids_consistent all -> Z.of_nat (length all) < MaxInt64 ->
  exists w w' snap, window_run (newSequenceAckWindowWithGapWake n) l = Ret w /\ Snapshot w reset = Ret (w', snap) /\
  match sn_headAck snap with
  | None => Forall (fun a => ak_selective a = true) all
  | Some h => (exists a, a ∈ all /\ same_ack a h /\ ak_selective a = false) /\
              Forall (fun a => ak_selective a = false -> ak_sequenceNumber a <= ak_sequenceNumber h) all
  end /\
  (forall id s, sn_selectiveAcks snap !! id = Some s ->
     (exists a, a ∈ recent /\ same_ack a s /\ ak_selective a = true /\ ak_messageId a = id) /\
     (forall h, sn_headAck snap = Some h -> ak_sequenceNumber h < ak_sequenceNumber s)) /\
  Forall (fun a =>
    (exists h, sn_headAck snap = Some h /\ ak_sequenceNumber a <= ak_sequenceNumber h /\ 0 < sn_ackUpdateCount snap /\
               (ak_unwrapped a = true -> ak_unwrapped h = true)) \/
    (exists s, sn_selectiveAcks snap !! ak_messageId a = Some s /\ ak_sequenceNumber s = ak_sequenceNumber a)) recent.
Proof.
  intros all recent Hcon Hlen.
  destruct (window_run_ok l _ [] [] (history l) (window_new n) eq_refl Hcon Hlen (le_n _)) as (w & Er & Hw).
  fold all recent in Hw. destruct (Snapshot_ret w all recent reset Hw) as (sel & Es & Hsel).
  destruct Hw as [Hh Hheld Hrec Hc Hch Hab Hsub Hp Hph].
  eexists w, _, _. split; [done|]. split; [exact Es|]. cbn [sn_headAck sn_selectiveAcks sn_ackUpdateCount]. split; [done|]. split.
  { intros id s [Hs Ha]%Hsel. destruct (Hheld id s Hs) as (Hid & Hss & a & Hin & Hsame). split; [|by apply above_head_true].
    exists a. split; [done|]. split; [done|]. destruct Hsame as (_ & Hi & Hse & _). split; congruence. }
  apply Forall_forall. intros a Hin%list_elem_of_In. rewrite Forall_forall in Hrec. specialize (Hrec a (proj1 (list_elem_of_In _ _) Hin)).
  assert (Hcov : above_head w (ak_sequenceNumber a) = false -> 0 < ackUpdateCount w -> exists h, headAck w = Some h /\
    ak_sequenceNumber a <= ak_sequenceNumber h /\ 0 < ackUpdateCount w /\ (ak_unwrapped a = true -> ak_unwrapped h = true)).
  { intros (h & Eh & Hle)%above_head_false Hpos. exists h. split; [done|]. split; [done|]. split; [done|].
    intros Hu. specialize (Hp a Hin Hu). rewrite Eh in Hp. auto. }
  destruct Hrec as [[Ha Hpos]|[Hs [s Hsa]]]; [left; by apply Hcov|].
  destruct (Hheld _ _ Hsa) as (Hid & _ & b & Hb & Hsame).
  assert (Eq : ak_sequenceNumber s = ak_sequenceNumber a).
  { destruct Hsame as (<- & Hi & _). apply Hcon; [by apply Hsub|by apply Hsub|congruence]. }
  destruct (above_head w (ak_sequenceNumber a)) eqn:Ea.
  - right. exists s. split; [apply Hsel; split; [done|by rewrite Eq]|done].
  - left. apply Hcov; [done|]. destruct (Z.eq_dec (ackUpdateCount w) 0) as [E0|]; [|lia].
    specialize (Hab E0 _ _ Hsa). rewrite Eq in Hab. congruence.
Qed.

(** ** Witness *)

Definition demo_ack_at (n : Z) (sel plain : bool) : sequenceAck := SequenceAck n (demo_id n) sel None plain.

(** Selective acks 3 and 4 arrive over a hole at 1, then 1 and 2 are delivered. *)
Definition demo_window_ops : list window_op :=
  [DoUpdate (demo_ack_at 0 false false); DoUpdate (demo_ack_at 3 true true); DoUpdate (demo_ack_at 5 true false);
   DoUpdate (demo_ack_at 1 false false); DoUpdate (demo_ack_at 2 false false); DoUpdate (demo_ack_at 3 false false)].

Definition demo_window : sequenceAckWindow :=
  match window_run (newSequenceAckWindowWithGapWake 2) demo_window_ops with Ret w => w | Panic => newSequenceAckWindow end.

Lemma ack_window_lossless_witness :
  exists w w' snap, window_run (newSequenceAckWindowWithGapWake 2) demo_window_ops = Ret w /\ Snapshot w true = Ret (w', snap) /\
    sn_headAck snap = Some (demo_ack_at 3 false true) /\
    sn_selectiveAcks snap !! demo_id 3 = None /\ sn_selectiveAcks snap !! demo_id 5 = Some (demo_ack_at 5 true false).
Proof.
  destruct (ack_window_lossless 2 demo_window_ops true) as (w & w' & snap & Er & Es & _).
  - intros a b Ha Hb. cbn in Ha, Hb. repeat (apply elem_of_cons in Ha as [->|Ha]); repeat (apply elem_of_cons in Hb as [->|Hb]);
      try (by apply elem_of_nil in Ha); try (by apply elem_of_nil in Hb); vm_compute; done.
  - vm_compute. reflexivity.
  - exists w, w', snap. split; [done|]. split; [done|].
    assert (Ew : Ret w = Ret demo_window) by (rewrite <- Er; vm_compute; reflexivity). injection Ew as ->.
    assert (H : match Snapshot demo_window true with
                | Ret (_, s) => sn_headAck s = Some (demo_ack_at 3 false true) /\ sn_selectiveAcks s !! demo_id 3 = None /\
                                sn_selectiveAcks s !! demo_id 5 = Some (demo_ack_at 5 true false)
                | Panic => False
                end) by (vm_compute; repeat split).
    by rewrite Es in H.
Defined.
