(* ===== verification/GoHeap.v ===== *)
(** The [container/heap] algorithms over the one shape every heap of the
    program has (transferQueue, transferQueueMaxHeap, rttHeap, combineQueue,
    pumpQueue, pumpQueueMaxHeap): a slice of item pointers whose [Swap],
    [Push] and [Pop] keep an index field in each item.

    Items are pointers [P]; the index fields of all items are the map [idx].
    [less a b] is the heap's order on the items' current keys. *)
From S2P Require Import Prelude.

Record iheap (P : Type) `{Countable P} := Iheap {
  items : list P;
  idx : gmap P nat;
}.
Arguments Iheap {P _ _} _ _.
Arguments items {P _ _} _.
Arguments idx {P _ _} _.

Section heap.
Context {P : Type} `{Countable P}.
Variable less : P -> P -> bool.
Implicit Types (h : iheap P) (l : list P) (p : P).

(** ** heap.Interface *)

Definition Len h : nat := length (items h).

Definition Less h (i j : nat) : bool :=
  match items h !! i, items h !! j with
  | Some a, Some b => less a b
  | _, _ => false
  end.

(** Both cells are rewritten, and both items' index fields. Out of range
    (where Go panics) nothing changes; no call below is out of range. *)
Definition Swap h (i j : nat) : iheap P :=
  match items h !! i, items h !! j with
  | Some a, Some b =>
      Iheap (<[j := a]> (<[i := b]> (items h))) (<[a := j]> (<[b := i]> (idx h)))
  | _, _ => h
  end.

Definition Push h (x : P) : iheap P :=
  Iheap (items h ++ [x]) (<[x := length (items h)]> (idx h)).

Definition Pop h : go (iheap P * P) :=
  match items h !! (length (items h) - 1)%nat with
  | Some x => Ret (Iheap (take (length (items h) - 1) (items h)) (idx h), x)
  | None => Panic
  end.

(** ** container/heap *)

Definition parent_index (j : nat) : nat := ((j - 1) / 2)%nat.

(** The loop of [up]; [j] bounds its iterations, since each one moves to
    the parent. *)
Fixpoint up_loop (fuel : nat) h (j : nat) : iheap P :=
  match fuel with
  | O => h
  | S fuel =>
      let i := parent_index j in
      if (i =? j)%nat || negb (Less h j i) then h
      else up_loop fuel (Swap h i j) i
  end.

Definition up h (j : nat) : iheap P := up_loop (S j) h j.

(** The loop of [down]; [n] bounds its iterations, since each one at least
    doubles [i]. *)
Fixpoint down_loop (fuel : nat) h (i n : nat) : iheap P * nat :=
  match fuel with
  | O => (h, i)
  | S fuel =>
      let j1 := (2 * i + 1)%nat in
      if (n <=? j1)%nat then (h, i)
      else
        let j2 := (j1 + 1)%nat in
        let j := if (j2 <? n)%nat && Less h j2 j1 then j2 else j1 in
        if negb (Less h j i) then (h, i)
        else down_loop fuel (Swap h i j) j n
  end.

Definition down h (i0 n : nat) : iheap P * bool :=
  let '(h, i) := down_loop (S n) h i0 n in
  (h, (i0 <? i)%nat).

(** [heap.Init]: [down] from the last parent to the root. *)
Fixpoint heap_Init_loop h (i : nat) : iheap P :=
  match i with
  | O => h
  | S i => heap_Init_loop (fst (down h i (Len h))) i
  end.

Definition heap_Init h : iheap P := heap_Init_loop h (Len h / 2)%nat.

Definition heap_Push h (x : P) : iheap P :=
  let h := Push h x in
  up h (Len h - 1).

Definition heap_Remove h (i : nat) : go (iheap P * P) :=
  if (i <? Len h)%nat then
    let n := (Len h - 1)%nat in
    let h :=
      if (n =? i)%nat then h
      else
        let h := Swap h i n in
        let '(h, moved) := down h i n in
        if moved then h else up h i in
    Pop h
  else Panic.

Definition heap_Fix h (i : nat) : iheap P :=
  let '(h, moved) := down h i (Len h) in
  if moved then h else up h i.

(** ** Facts *)

Hypothesis less_asym : forall a b, less a b = true -> less b a = false.
Hypothesis less_ntrans : forall a b c, less b a = false -> less c b = false -> less c a = false.

(** [a] does not come after [b]. *)
Definition le (a b : P) : Prop := less b a = false.

Lemma le_trans a b c : le a b -> le b c -> le a c.
Proof. unfold le. eauto. Qed.
Lemma less_le a b : less a b = true -> le a b.
Proof. unfold le. eauto. Qed.
Lemma le_refl a : le a a.
Proof. unfold le. destruct (less a a) eqn:E; [|done]. apply less_asym in E as E'. congruence. Qed.

(** The edge from [k] up to its parent is in order. *)
Definition edge l (k : nat) : Prop :=
  forall a b, l !! parent_index k = Some a -> l !! k = Some b -> le a b.

Definition heap_upto l (n : nat) : Prop := forall k, (0 < k < n)%nat -> edge l k.
Definition heap l : Prop := heap_upto l (length l).

(** The parent of [i] is in order with the children of [i]. *)
Definition bridge l (n i : nat) : Prop :=
  forall k a b, (0 < i)%nat -> (0 < k < n)%nat -> parent_index k = i ->
    l !! parent_index i = Some a -> l !! k = Some b -> le a b.

Definition idx_ok h : Prop := forall i p, items h !! i = Some p -> idx h !! p = Some i.

Lemma items_Swap h i j a b :
  items h !! i = Some a -> items h !! j = Some b ->
  items (Swap h i j) = <[j := a]> (<[i := b]> (items h)).
Proof. intros Ha Hb. unfold Swap. by rewrite Ha, Hb. Qed.

Lemma lookup_Swap h i j k a b :
  items h !! i = Some a -> items h !! j = Some b ->
  items (Swap h i j) !! k =
    if decide (k = j) then Some a else if decide (k = i) then Some b else items h !! k.
Proof.
  intros Ha Hb. rewrite (items_Swap _ _ _ a b) by done.
  apply lookup_lt_Some in Ha as La. apply lookup_lt_Some in Hb as Lb.
  destruct (decide (k = j)) as [->|].
  { by rewrite list_lookup_insert_eq by (by rewrite length_insert). }
  rewrite list_lookup_insert_ne by done.
  destruct (decide (k = i)) as [->|]; [by rewrite list_lookup_insert_eq|].
  by rewrite list_lookup_insert_ne.
Qed.

Lemma Len_Swap h i j : Len (Swap h i j) = Len h.
Proof.
  unfold Len, Swap. destruct (items h !! i), (items h !! j); try done.
  cbn. by rewrite !length_insert.
Qed.

Lemma Swap_perm h i j : items (Swap h i j) ≡ₚ items h.
Proof.
  destruct (items h !! i) as [a|] eqn:Ha; [|unfold Swap; by rewrite Ha].
  destruct (items h !! j) as [b|] eqn:Hb; [|unfold Swap; by rewrite Ha, Hb].
  rewrite (items_Swap _ _ _ a b) by done.
  by apply Permutation_insert_swap.
Qed.

Lemma idx_ok_Swap h i j : NoDup (items h) -> idx_ok h -> idx_ok (Swap h i j).
Proof.
  intros Hnd Hok. unfold Swap.
  destruct (items h !! i) as [a|] eqn:Ha; [|done].
  destruct (items h !! j) as [b|] eqn:Hb; [|done].
  intros k p. pose proof (lookup_Swap h i j k a b Ha Hb) as E.
  rewrite (items_Swap h i j a b Ha Hb) in E. cbn [items idx] in *. rewrite E. clear E.
  destruct (decide (k = j)) as [->|Hkj]; [intros [= <-]; apply lookup_insert_eq|].
  destruct (decide (k = i)) as [->|Hki].
  - intros [= <-]. rewrite lookup_insert_ne; [apply lookup_insert_eq|].
    intros ->. by destruct Hkj, (NoDup_lookup _ _ _ _ Hnd Ha Hb).
  - intros Hp. rewrite !lookup_insert_ne; [by apply Hok|..].
    + intros ->. by destruct Hki, (NoDup_lookup _ _ _ _ Hnd Hp Hb).
    + intros ->. by destruct Hki, (NoDup_lookup _ _ _ _ Hnd Hp Ha).
Qed.

(** A property preserved by in-range swaps is preserved by the sifts. *)
Section sift_ind.
Variables (Q : iheap P -> Prop) (n : nat).
Hypothesis Q_Swap : forall h i j, (i < n)%nat -> (j < n)%nat -> Q h -> Q (Swap h i j).

Lemma up_loop_ind fuel h j : (j < n)%nat -> Q h -> Q (up_loop fuel h j).
Proof.
  revert h j. induction fuel as [|fuel IH]; intros h j Hj HQ; [done|].
  cbn [up_loop]. destruct (_ || _); [done|].
  assert (parent_index j < n)%nat by (unfold parent_index; lia). eauto.
Qed.

Lemma down_loop_ind fuel h i : (i < n)%nat -> Q h -> Q (fst (down_loop fuel h i n)).
Proof.
  revert h i. induction fuel as [|fuel IH]; intros h i Hi HQ; [done|].
  cbn [down_loop]. destruct (Nat.leb_spec n (2 * i + 1)); [done|].
  set (j := if _ && _ then _ else _). destruct (negb _); [done|].
  assert (j < n)%nat by (unfold j; destruct (Nat.ltb_spec (2 * i + 1 + 1) n); destruct (Less _ _ _); cbn; lia).
  eauto.
Qed.
End sift_ind.

Lemma up_ind (Q : iheap P -> Prop) n h j :
  (forall h i j, (i < n)%nat -> (j < n)%nat -> Q h -> Q (Swap h i j)) ->
  (j < n)%nat -> Q h -> Q (up h j).
Proof. intros. by apply (up_loop_ind Q n). Qed.

Lemma down_ind (Q : iheap P -> Prop) n h i :
  (forall h i j, (i < n)%nat -> (j < n)%nat -> Q h -> Q (Swap h i j)) ->
  (i < n)%nat -> Q h -> Q (fst (down h i n)).
Proof.
  intros HS Hi HQ. pose proof (down_loop_ind Q n HS (S n) h i Hi HQ) as E.
  unfold down. destruct (down_loop _ _ _ _). done.
Qed.

(** What every sift keeps: the items, and their index fields. *)
Definition sifted (l : list P) h : Prop := items h ≡ₚ l /\ idx_ok h.

Lemma sifted_Swap l h i j : NoDup l -> sifted l h -> sifted l (Swap h i j).
Proof.
  intros Hnd [Hp Hi]. split; [by rewrite Swap_perm|].
  apply idx_ok_Swap; [by rewrite Hp|done].
Qed.

(** Only the edges into and out of [i] may be out of order. *)
Definition hole l (n i : nat) : Prop :=
  (forall k, (0 < k < n)%nat -> k <> i -> parent_index k <> i -> edge l k) /\ bridge l n i.

(** Only the edge from [j] up may be out of order. *)
Definition hole_up l (n j : nat) : Prop :=
  (forall k, (0 < k < n)%nat -> k <> j -> edge l k) /\ bridge l n j.

Lemma parent_index_lt k : (0 < k)%nat -> (parent_index k < k)%nat.
Proof. unfold parent_index. lia. Qed.

Lemma up_step h n j x y :
  (0 < j < n)%nat -> items h !! j = Some x -> items h !! parent_index j = Some y ->
  less x y = true -> hole_up (items h) n j -> hole_up (items (Swap h (parent_index j) j)) n (parent_index j).
Proof.
  intros Hj Hx Hy Hlt [He Hb]. pose proof (parent_index_lt j ltac:(lia)) as Hpj.
  apply less_le in Hlt. split.
  - intros k Hk Hki a b. rewrite !(lookup_Swap _ _ _ _ y x Hy Hx).
    pose proof (parent_index_lt k ltac:(lia)).
    destruct (decide (k = j)) as [->|Hkj].
    { rewrite decide_False by lia. rewrite decide_True by done. congruence. }
    rewrite (decide_False (P := k = parent_index j)) by done.
    destruct (decide (parent_index k = j)) as [Hkp|].
    { intros [= <-] Hk2. rewrite <- Hkp in *. eapply (Hb k); eauto; lia. }
    destruct (decide (parent_index k = parent_index j)) as [Hkp|]; [|by apply He].
    intros [= <-] Hk2. apply (le_trans _ y); [done|]. apply (He k Hk Hkj); [by rewrite Hkp|done].
  - intros k a b Hi Hk Hpk. rewrite !(lookup_Swap _ _ _ _ y x Hy Hx).
    pose proof (parent_index_lt (parent_index j) Hi).
    rewrite (decide_False (P := parent_index (parent_index j) = j)), (decide_False (P := parent_index (parent_index j) = parent_index j)) by lia.
    intros Ha. assert (le a y) by (apply (He (parent_index j)); [lia|lia|done|done]).
    destruct (decide (k = j)) as [->|Hkj]; [congruence|].
    rewrite decide_False by (pose proof (parent_index_lt k ltac:(lia)); lia).
    intros Hk2. apply (le_trans _ y); [done|]. apply (He k Hk Hkj); [by rewrite Hpk|done].
Qed.

Lemma up_loop_heap fuel h n j :
  (j < fuel)%nat -> (j < n <= Len h)%nat -> hole_up (items h) n j ->
  heap_upto (items (up_loop fuel h j)) n.
Proof.
  revert h j. induction fuel as [|fuel IH]; intros h j Hf Hj Hh; [lia|].
  cbn [up_loop]. destruct (Nat.eqb_spec (parent_index j) j) as [E|E]; cbn [orb].
  { intros k Hk. apply Hh; [done|]. intros Ekj. pose proof (parent_index_lt k ltac:(lia)). subst. lia. }
  assert (0 < j)%nat by (unfold parent_index in E; lia). pose proof (parent_index_lt j ltac:(lia)).
  unfold Len in Hj.
  destruct (lookup_lt_is_Some_2 (items h) j) as [x Hx]; [lia|].
  destruct (lookup_lt_is_Some_2 (items h) (parent_index j)) as [y Hy]; [lia|].
  unfold Less. rewrite Hx, Hy. destruct (less x y) eqn:Hlt; cbn [negb].
  - apply IH; [lia|rewrite Len_Swap; unfold Len; lia|]. apply (up_step _ _ _ x y); [lia|done..].
  - intros k Hk. destruct (decide (k = j)) as [->|]; [|by apply Hh].
    intros a b Ha Hb. unfold le. congruence.
Qed.

(** The smaller child of [i], as [down] picks it. *)
Lemma down_step h n i j x c :
  (j < n)%nat -> parent_index j = i -> (0 < j)%nat -> items h !! i = Some x -> items h !! j = Some c ->
  (forall k b, (0 < k < n)%nat -> parent_index k = i -> items h !! k = Some b -> le c b) ->
  less c x = true -> hole (items h) n i ->
  hole (items (Swap h i j)) n j /\ edge (items (Swap h i j)) j /\
  (forall k, (0 < k < n)%nat -> parent_index k <> j -> edge (items (Swap h i j)) k).
Proof.
  intros Hj Hpj Hj0 Hx Hc Hmin Hlt [He Hb]. pose proof (parent_index_lt j Hj0) as Hij. rewrite Hpj in Hij.
  apply less_le in Hlt.
  assert (Hedges : forall k, (0 < k < n)%nat -> parent_index k <> j -> edge (items (Swap h i j)) k).
  { intros k Hk Hpk a b. rewrite !(lookup_Swap _ _ _ _ x c Hx Hc).
    rewrite (decide_False (P := parent_index k = j)) by done. pose proof (parent_index_lt k ltac:(lia)).
    destruct (decide (parent_index k = i)) as [Hpi|Hpi].
    - intros [= <-]. destruct (decide (k = j)) as [->|]; [congruence|].
      rewrite decide_False by lia. by apply Hmin.
    - destruct (decide (k = j)) as [->|]; [congruence|].
      destruct (decide (k = i)) as [->|]; [|by apply He].
      intros Ha [= <-]. apply (Hb j a c); [lia|lia|done|done|done]. }
  split; [|split; [apply Hedges; lia|done]]. split.
  - intros k Hk _ Hpk. by apply Hedges.
  - intros k a b _ Hk Hpk. rewrite !(lookup_Swap _ _ _ _ x c Hx Hc), Hpj.
    pose proof (parent_index_lt k ltac:(lia)).
    rewrite decide_False, decide_True by lia. intros [= <-].
    rewrite (decide_False (P := k = j)), (decide_False (P := k = i)) by lia.
    intros Hb2. apply (He k Hk); [lia|lia| |done]. by rewrite Hpk.
Qed.

Lemma children k i : (0 < k)%nat -> parent_index k = i <-> (k = 2 * i + 1 \/ k = 2 * i + 2)%nat.
Proof. unfold parent_index. lia. Qed.

(** One iteration of [down] either stops with the edges below [i] in order
    or moves to a child that satisfies [down_step]. *)
Lemma down_pick h n i x :
  (i < n <= Len h)%nat -> items h !! i = Some x ->
  let j1 := (2 * i + 1)%nat in
  let j := if (j1 + 1 <? n)%nat && Less h (j1 + 1) j1 then (j1 + 1)%nat else j1 in
  (n <= j1)%nat \/
  ((j < n)%nat /\ parent_index j = i /\ (0 < j)%nat /\
   exists c, items h !! j = Some c /\ Less h j i = less c x /\
     forall k b, (0 < k < n)%nat -> parent_index k = i -> items h !! k = Some b -> le c b).
Proof.
  intros Hi Hx j1 j. destruct (decide (n <= j1)%nat) as [|Hn]; [by left|right].
  unfold Len in Hi.
  destruct (lookup_lt_is_Some_2 (items h) j1) as [c1 Hc1]; [lia|].
  assert (Hj : (j = j1 + 1 /\ j1 + 1 < n /\ Less h (j1 + 1) j1 = true \/
                j = j1 /\ (n <= j1 + 1 \/ Less h (j1 + 1) j1 = false))%nat).
  { unfold j. destruct (Nat.ltb_spec (j1 + 1) n); destruct (Less h (j1 + 1) j1) eqn:E;
      cbn [andb]; [left|right..]; repeat split; auto. }
  clearbody j. destruct Hj as [(-> & Hj2 & HL)|(-> & HL)].
  - destruct (lookup_lt_is_Some_2 (items h) (j1 + 1)) as [c2 Hc2]; [lia|].
    split; [lia|]. split; [apply children; lia|]. split; [lia|].
    exists c2. split; [done|]. unfold Less in *. rewrite Hc2, Hx. split; [done|].
    rewrite Hc1, Hc2 in HL. intros k b Hk Hpk Hb. apply children in Hpk as [->| ->]; [| |lia].
    + fold j1 in Hb. assert (b = c1) as -> by congruence. by apply less_le.
    + replace (2 * i + 2)%nat with (j1 + 1)%nat in Hb by lia.
      assert (b = c2) as -> by congruence. apply le_refl.
  - split; [lia|]. split; [apply children; lia|]. split; [lia|].
    exists c1. split; [done|]. unfold Less in *. rewrite Hc1, Hx. split; [done|].
    intros k b Hk Hpk Hb. apply children in Hpk as [->| ->]; [| |lia].
    + fold j1 in Hb. assert (b = c1) as -> by congruence. apply le_refl.
    + replace (2 * i + 2)%nat with (j1 + 1)%nat in * by lia.
      destruct HL as [|HL]; [lia|]. rewrite Hb, Hc1 in HL. done.
Qed.

Lemma down_loop_spec fuel h n i :
  (n - i < fuel)%nat -> (i < n <= Len h)%nat -> hole (items h) n i ->
  let r := down_loop fuel h i n in
  (i <= snd r)%nat /\
  (forall k, (0 < k < n)%nat -> parent_index k = i -> snd r = i -> edge (items (fst r)) k) /\
  (snd r = i -> fst r = h) /\
  ((forall k, (0 < k < n)%nat -> parent_index k <> i -> edge (items h) k) \/ (i < snd r)%nat ->
    heap_upto (items (fst r)) n).
Proof.
  revert h i. induction fuel as [|fuel IH]; intros h i Hf Hi Hh; [lia|].
  destruct (lookup_lt_is_Some_2 (items h) i) as [x Hx]; [unfold Len in Hi; lia|].
  cbn [down_loop]. pose proof (down_pick h n i x Hi Hx) as Hp. cbv zeta in Hp.
  set (j := if _ && _ then _ else _) in *.
  destruct (Nat.leb_spec n (2 * i + 1)) as [Hn|Hn].
  { cbn [fst snd]. split; [lia|]. split; [intros k Hk Hpk _; apply children in Hpk; lia|].
    split; [done|]. intros [He|]; [|lia]. intros k Hk. apply He; [done|].
    intros Hpk. apply children in Hpk; lia. }
  destruct Hp as [|(Hj & Hpj & Hj0 & c & Hc & HL & Hmin)]; [lia|].
  rewrite HL. destruct (less c x) eqn:Hlt; cbn [negb].
  - destruct (down_step h n i j x c Hj Hpj Hj0 Hx Hc Hmin Hlt Hh) as (Hh' & Hej & Hedges).
    pose proof (parent_index_lt j Hj0). rewrite Hpj in *.
    destruct (IH (Swap h i j) j) as (H1 & H2 & H3 & H4); [lia|rewrite Len_Swap; lia|done|].
    split; [lia|]. split; [intros; lia|]. split; [intros; lia|]. intros _. apply H4. left. done.
  - assert (Hbelow : forall k, (0 < k < n)%nat -> parent_index k = i -> edge (items h) k).
    { intros k Hk Hpk a b Ha Hb. rewrite Hpk in Ha. assert (a = x) as -> by congruence.
      apply (le_trans _ c); [exact Hlt|]. eauto. }
    cbn [fst snd]. split; [lia|]. split; [by intros k Hk Hpk _; apply Hbelow|]. split; [done|].
    intros [He|]; [|lia]. intros k Hk. destruct (decide (parent_index k = i)); auto.
Qed.

(** [down] then, if it did not move, [up]: the repair both [Remove] and
    [Fix] make after one position changed. *)
Definition repair h (i n : nat) : iheap P :=
  let '(h, moved) := down h i n in
  if moved then h else up h i.

Lemma repair_heap h n i :
  (i < n <= Len h)%nat -> hole (items h) n i -> heap_upto (items (repair h i n)) n.
Proof.
  intros Hi Hh. unfold repair, down.
  pose proof (down_loop_spec (S n) h n i ltac:(lia) Hi Hh) as Hd. cbv zeta in Hd.
  destruct (down_loop (S n) h i n) as [h' i']. cbn [fst snd] in Hd.
  destruct Hd as (H1 & H2 & H3 & H4).
  destruct (Nat.ltb_spec i i') as [Hm|Hm]; [by apply H4; right|].
  assert (i' = i) as -> by lia. rewrite H3 in * by done.
  apply up_loop_heap; [lia|done|]. split; [|apply Hh].
  intros k Hk Hki. destruct (decide (parent_index k = i)); [by apply H2|]. by apply Hh.
Qed.

Lemma repair_ind (Q : iheap P -> Prop) n h i :
  (forall h i j, (i < n)%nat -> (j < n)%nat -> Q h -> Q (Swap h i j)) ->
  (i < n)%nat -> Q h -> Q (repair h i n).
Proof.
  intros HS Hi HQ. unfold repair. pose proof (down_ind Q n h i HS Hi HQ) as Hd.
  destruct (down h i n) as [h' []]; cbn in Hd; [done|]. by apply (up_ind Q n).
Qed.

Lemma repair_sifted l n h i :
  NoDup l -> (i < n)%nat -> sifted l h -> sifted l (repair h i n).
Proof. intros Hnd. apply repair_ind. intros. by apply sifted_Swap. Qed.

(** ** Specifications *)

(** A well-formed heap: in order, no item twice, index fields exact. *)
Record heap_wf h : Prop := {
  hw_heap : heap (items h);
  hw_nodup : NoDup (items h);
  hw_idx : idx_ok h;
}.

Lemma heap_wf_empty m : heap_wf (Iheap [] m).
Proof.
  constructor; [intros k Hk; simpl in Hk; lia|constructor|]. intros i p Hp.
  cbn [items] in Hp. by rewrite lookup_nil in Hp.
Qed.

Lemma heap_Push_spec h x :
  heap_wf h -> x ∉ items h ->
  heap_wf (heap_Push h x) /\ items (heap_Push h x) ≡ₚ x :: items h.
Proof.
  intros [Hh Hnd Hi] Hx. unfold heap_Push.
  assert (Hnd' : NoDup (items h ++ [x])).
  { apply list.NoDup_app. split; [done|]. split; [|apply NoDup_singleton].
    intros y Hy ->%list_elem_of_singleton. done. }
  assert (Hl : Len (Push h x) = S (Len h)) by (unfold Len; cbn; rewrite length_app; cbn; lia).
  assert (Hs : sifted (items h ++ [x]) (Push h x)).
  { split; [done|]. intros i p. cbn. destruct (decide (i < length (items h))%nat).
    - rewrite lookup_app_l by done. intros Hp. rewrite lookup_insert_ne; [by apply Hi|].
      intros ->. by apply Hx, list_elem_of_lookup_2 with i.
    - rewrite lookup_app_r by lia. destruct (i - length (items h))%nat eqn:E; [|done].
      intros [= <-]. rewrite lookup_insert_eq. f_equal. lia. }
  assert (Hs' : sifted (items h ++ [x]) (up (Push h x) (Len (Push h x) - 1))).
  { apply (up_ind _ (S (Len h))); [intros; by apply sifted_Swap|lia|done]. }
  assert (Hp : items (up (Push h x) (Len (Push h x) - 1)) ≡ₚ x :: items h).
  { rewrite (proj1 Hs'). symmetry. apply Permutation_cons_append. }
  split; [|done]. split; [|rewrite Hp; by constructor|apply Hs'].
  unfold heap. rewrite (Permutation_length Hp). cbn [length].
  apply up_loop_heap; [lia|unfold Len in *; lia|]. rewrite Hl. unfold Len. split.
  - intros k Hk Hne a b. pose proof (parent_index_lt k ltac:(lia)).
    cbn [items Push]. rewrite !lookup_app_l by lia. apply Hh. lia.
  - intros k a b H0 Hk Hp2. apply children in Hp2; lia.
Qed.

Lemma heap_upto_take l n m : (m <= n)%nat -> heap_upto l n -> heap_upto (take m l) m.
Proof.
  intros Hm Hh k Hk a b. pose proof (parent_index_lt k ltac:(lia)).
  rewrite !lookup_take_lt by lia. apply Hh. lia.
Qed.

Lemma heap_hole l i : heap l -> hole l (length l) i.
Proof.
  intros Hh. split; [intros k Hk _ _; by apply Hh|]. intros k a b H0 Hk Hpk Ha Hb.
  pose proof (parent_index_lt k ltac:(lia)). destruct (lookup_lt_is_Some_2 l i) as [x Hx]; [lia|].
  apply (le_trans _ x); [by apply (Hh i); [lia|..]|]. apply (Hh k); [lia|by rewrite Hpk|done].
Qed.

Lemma hole_Swap_last h i x y :
  hole (items h) (Len h) i -> let n := (Len h - 1)%nat in (i < n)%nat ->
  items h !! i = Some x -> items h !! n = Some y ->
  hole (items (Swap h i n)) n i.
Proof.
  intros [Hh Hb] n Hi Hx Hy. unfold Len in *. subst n. split.
  - intros k Hk Hki Hpk a b. pose proof (parent_index_lt k ltac:(lia)).
    rewrite !(lookup_Swap _ _ _ _ x y Hx Hy), !decide_False by lia. apply Hh; lia.
  - intros k a b H0 Hk Hpk. pose proof (parent_index_lt k ltac:(lia)). pose proof (parent_index_lt i H0).
    rewrite !(lookup_Swap _ _ _ _ x y Hx Hy), !decide_False by lia. by apply Hb; [|lia|].
Qed.

(** Swapping the item at [i] with the last one and repairing the others moves
    it to the end behind a heap of the rest. *)
Lemma repair_last h i n x :
  hole (items h) (Len h) i -> NoDup (items h) -> idx_ok h -> items h !! i = Some x -> n = (Len h - 1)%nat ->
  let h1 := if (n =? i)%nat then h else repair (Swap h i n) i n in
  sifted (items h) h1 /\ items h1 !! n = Some x /\ heap_upto (items h1) n /\
  (forall p, p ∉ items h -> idx h1 !! p = idx h !! p).
Proof.
  intros Hh Hnd Hidx Hx Hn h1. pose proof (lookup_lt_Some _ _ _ Hx) as Hi.
  change (n = length (items h) - 1)%nat in Hn.
  destruct (lookup_lt_is_Some_2 (items h) n) as [y Hy]; [lia|].
  unfold h1. destruct (Nat.eqb_spec n i) as [<-|Hne].
  - split; [by split|]. split; [done|]. split; [|done]. intros k Hk. pose proof (parent_index_lt k ltac:(lia)). apply (proj1 Hh); unfold Len in *; lia.
  - assert (Hs : sifted (items h) (Swap h i n)) by (by apply sifted_Swap).
    split; [by apply repair_sifted; [|unfold Len in *; lia|]|].
    split.
    { apply (repair_ind (fun g => items g !! n = Some x) n); [|unfold Len in *; lia|].
      - intros g a b Ha Hb Hg. unfold Swap.
        destruct (items g !! a), (items g !! b); try done. cbn.
        rewrite !list_lookup_insert_ne by lia. done.
      - rewrite (lookup_Swap _ _ _ _ x y Hx Hy). by rewrite decide_True. }
    split.
    { apply repair_heap; [rewrite Len_Swap; unfold Len in *; lia|].
      change (n = Len h - 1)%nat in Hn. rewrite Hn.
      apply (hole_Swap_last h i x y); [done|unfold Len in *; lia|done|by rewrite <- Hn]. }
    intros p Hp.
    apply (repair_ind (fun g => items g ≡ₚ items h /\ idx g !! p = idx h !! p) n);
      [|unfold Len in *; lia|].
    + intros g a b _ _ [Hg1 Hg2]. split; [by rewrite Swap_perm|]. unfold Swap.
      destruct (items g !! a) as [u|] eqn:Hu; [|done].
      destruct (items g !! b) as [v|] eqn:Hv; [|done]. cbn.
      rewrite !lookup_insert_ne; [done|..]; intros ->; apply Hp; rewrite <- Hg1;
        eauto using list_elem_of_lookup_2.
    + split; [by rewrite Swap_perm|]. unfold Swap. rewrite Hx, Hy. cbn.
      rewrite !lookup_insert_ne; [done|..]; intros ->; apply Hp; eauto using list_elem_of_lookup_2.
Qed.

(** Removing needs no order at the item that leaves: its key may have changed. *)
Lemma heap_Remove_hole h i x :
  hole (items h) (Len h) i -> NoDup (items h) -> idx_ok h -> items h !! i = Some x ->
  exists h', heap_Remove h i = Ret (h', x) /\ heap_wf h' /\
    x :: items h' ≡ₚ items h /\ (forall p, p ∉ items h -> idx h' !! p = idx h !! p).
Proof.
  intros Hh Hnd Hidx Hx. pose proof (lookup_lt_Some _ _ _ Hx) as Hi.
  unfold heap_Remove. rewrite (proj2 (Nat.ltb_lt i (Len h)) Hi).
  set (n := (Len h - 1)%nat). cbv zeta. fold (repair (Swap h i n) i n).
  set (h1 := if (n =? i)%nat then h else repair (Swap h i n) i n).
  assert (Hn : n = (length (items h) - 1)%nat) by done.
  destruct (repair_last h i n x Hh Hnd Hidx Hx Hn) as ([Hperm Hidx1] & Hlast & Hheap & Hother).
  fold h1 in Hperm, Hidx1, Hlast, Hheap, Hother. clearbody n h1.
  assert (Hlen : length (items h1) = S n).
  { rewrite (Permutation_length Hperm). unfold Len in *. lia. }
  assert (Esplit : items h1 = take n (items h1) ++ [x]).
  { rewrite <- (take_drop n (items h1)) at 1. f_equal.
    rewrite (drop_S _ x) by done. by rewrite drop_ge by lia. }
  unfold Pop. rewrite Hlen, Nat.sub_succ, Nat.sub_0_r.
  rewrite Hlast.
  eexists. split; [done|]. cbn [items idx].
  assert (Hnd1 : NoDup (take n (items h1) ++ [x])) by (rewrite <- Esplit, Hperm; done).
  split; [|split; [|done]].
  - constructor; cbn [items].
    + unfold heap. rewrite length_take, Nat.min_l by lia. by apply (heap_upto_take _ n).
    + by apply list.NoDup_app in Hnd1 as [].
    + intros k p Hk. apply Hidx1. cbn in Hk. rewrite lookup_take_lt in Hk; [done|].
      apply lookup_lt_Some in Hk. rewrite length_take in Hk. lia.
  - rewrite <- Hperm. rewrite Esplit at 2. apply Permutation_cons_append.
Qed.

Lemma heap_Remove_spec h i x :
  heap_wf h -> items h !! i = Some x ->
  exists h', heap_Remove h i = Ret (h', x) /\ heap_wf h' /\
    x :: items h' ≡ₚ items h /\ (forall p, p ∉ items h -> idx h' !! p = idx h !! p).
Proof. intros [Hh Hnd Hidx]. apply heap_Remove_hole; [by apply heap_hole|done|done]. Qed.

(** [Fix] repairs the one item whose key changed. *)
Lemma heap_Fix_spec h i :
  (i < Len h)%nat -> hole (items h) (Len h) i -> NoDup (items h) -> idx_ok h ->
  heap_wf (heap_Fix h i) /\ items (heap_Fix h i) ≡ₚ items h.
Proof.
  intros Hi Hh Hnd Hidx. change (heap_Fix h i) with (repair h i (Len h)).
  destruct (repair_sifted (items h) (Len h) h i Hnd Hi) as [Hp Hi']; [by split|]. split; [|done].
  split; [|by rewrite Hp|done]. unfold heap. rewrite (Permutation_length Hp). apply repair_heap; [unfold Len in *; lia|done].
Qed.

(** The root comes before every other item. *)
Lemma heap_root h x :
  heap (items h) -> items h !! 0%nat = Some x -> forall y, y ∈ items h -> le x y.
Proof.
  intros Hh Hx y [k Hk]%list_elem_of_lookup_1. revert y Hk.
  induction k as [k IH] using lt_wf_ind. intros y Hk.
  destruct (decide (k = 0)%nat) as [->|]; [assert (y = x) as -> by congruence; apply le_refl|].
  pose proof (parent_index_lt k ltac:(lia)) as Hp. apply lookup_lt_Some in Hk as Hl.
  destruct (lookup_lt_is_Some_2 (items h) (parent_index k)) as [z Hz]; [lia|].
  apply (le_trans _ z); [eauto|]. apply (Hh k); [lia|done..].
Qed.
End heap.

(** Changing the key of the item at [i] leaves a hole there. *)
Lemma rekey_hole {P} `{Countable P} (less less' : P -> P -> bool) (l : list P) i x :
  (forall a b c, less b a = false -> less c b = false -> less c a = false) ->
  heap less l -> NoDup l -> l !! i = Some x -> (forall a b, a <> x -> b <> x -> less' a b = less a b) -> hole less' l (length l) i.
Proof.
  intros Htr Hh Hnd Hx Hsame. destruct (heap_hole less Htr l i Hh) as [H1 H2].
  assert (Hne : forall k a, l !! k = Some a -> k <> i -> a <> x) by (intros k a Ha Hk ->; by apply Hk, (NoDup_lookup l k i x)).
  split.
  - intros k Hk Hki Hpk a b Ha Hb. unfold le. rewrite Hsame by (by eapply Hne). by apply (H1 k).
  - intros k a b H0 Hk Hpk Ha Hb. pose proof (parent_index_lt i H0). pose proof (parent_index_lt k ltac:(lia)).
    unfold le. rewrite Hsame; [by apply (H2 k)|eapply Hne; [done|lia]..].
Qed.

(** An order that agrees on the items of the heap keeps it. *)
Lemma heap_wf_ext {P} `{Countable P} (less less' : P -> P -> bool) (h : iheap P) :
  (forall a b, a ∈ items h -> b ∈ items h -> less' a b = less a b) -> heap_wf less h -> heap_wf less' h.
Proof.
  intros Hs [H1 H2 H3]. split; [|done|done]. intros k Hk a b Ha Hb. unfold le. rewrite Hs by (by eapply list_elem_of_lookup_2). by apply (H1 k Hk).
Qed.
