(* ===== verification/MemoryBudget.v ===== *)
(** The shared byte budget of src/transfer_memory_budget.go.

    Budgets form trees: a child's bytes are charged to the child and to every
    ancestor. Pointers to budgets and to waiters are indices into the two
    stores of [world], in allocation order, so a parent's index is always
    smaller than its child's. Every method of the source runs under its root's
    lock (or is one atomic add), so an operation is one function on [world].

    The theorems relate the counters to a ledger of who owns what: a budget's
    used count is the sum of what is owned at it and below it, whatever the
    order of reserves, overdrafts, releases and moves; admission through
    TryReserve keeps it within the total at every level of the tree. *)
From S2P Require Import Prelude.

(** ** State *)

(** The atomic counters of one budget. *)
Record counters := Counters {
  totalByteCount : Z;
  usedByteCount : Z;
  floorByteCount : Z;
  reservedByteCount : Z;
  releasedByteCount : Z;
}.

(** The intrusive list of admission waiters that a root owns. *)
Record waitList := WaitList {
  capacityWaitHead : option nat;
  capacityWaitTail : option nat;
  capacityWaiterCount : Z;
}.

Record budget := Budget {
  parent : option nat;
  root : option nat;
  hasChildren : bool;
  cnt : counters;
  notify : option nat;      (* the current notification channel, if any *)
  waits : waitList;
}.

(** [token] says whether the waiter's one-item channel holds a wake. *)
Record waiter := Waiter {
  token : bool;
  wbudget : option nat;
  requiredByteCount : Z;
  previousCapacityWaiter : option nat;
  nextCapacityWaiter : option nat;
  registered : bool;
}.

Record world := World {
  budgets : list budget;
  waiters : list waiter;
  channels : list bool;      (* CapacityNotify channels; true once closed *)
}.

Definition set_cnt (f : counters -> counters) (b : budget) : budget :=
  Budget (parent b) (root b) (hasChildren b) (f (cnt b)) (notify b) (waits b).
Definition set_hasChildren (b : budget) : budget :=
  Budget (parent b) (root b) true (cnt b) (notify b) (waits b).
Definition set_notify (n : option nat) (b : budget) : budget :=
  Budget (parent b) (root b) (hasChildren b) (cnt b) n (waits b).
Definition set_waits (f : waitList -> waitList) (b : budget) : budget :=
  Budget (parent b) (root b) (hasChildren b) (cnt b) (notify b) (f (waits b)).

Definition set_budgets (f : list budget -> list budget) (w : world) : world :=
  World (f (budgets w)) (waiters w) (channels w).
Definition set_waiters (f : list waiter -> list waiter) (w : world) : world :=
  World (budgets w) (f (waiters w)) (channels w).

(** A budget pointer is followed; every pointer of a well-formed world is
    allocated, so the default is never read. *)
Definition no_budget : budget :=
  Budget None None false (Counters 0 0 0 0 0) None (WaitList None None 0).
Definition get (w : world) (i : nat) : budget := default no_budget (budgets w !! i).
Definition total (w : world) (i : nat) : Z := totalByteCount (cnt (get w i)).
Definition used (w : world) (i : nat) : Z := usedByteCount (cnt (get w i)).

(** ** The tree *)

(** [for budget := self; budget != nil; budget = budget.parent]: the budgets
    such a loop visits. [self] bounds the steps, since parents are older. *)
Fixpoint chain_loop (fuel : nat) (bs : list budget) (self : option nat) : list nat :=
  match fuel, self with
  | S fuel, Some i =>
      i :: chain_loop fuel bs (match bs !! i with Some b => parent b | None => None end)
  | _, _ => []
  end.

Definition chain (w : world) (self : nat) : list nat := chain_loop (S self) (budgets w) (Some self).

Definition admissionRoot (w : world) (self : nat) : nat := default self (root (get w self)).

Definition NewTransferMemoryBudget (w : world) (totalByteCount : Z) : world * nat :=
  (set_budgets (fun bs => bs ++ [Budget None None false (Counters totalByteCount 0 0 0 0) None (WaitList None None 0)]) w,
   length (budgets w)).

Definition NewTransferMemoryBudgetWithParent (w : world) (totalByteCount : Z) (parent : option nat)
  : world * nat :=
  match parent with
  | None => NewTransferMemoryBudget w totalByteCount
  | Some p =>
      let r := admissionRoot w p in
      (set_budgets (fun bs => alter set_hasChildren r bs ++
          [Budget (Some p) (Some r) false (Counters totalByteCount 0 0 0 0) None (WaitList None None 0)]) w,
       length (budgets w))
  end.

(** ** Counters *)

Definition addFloor (w : world) (self : nat) (byteCount : Z) : world :=
  set_budgets (alter (set_cnt (fun c =>
    Counters (totalByteCount c) (usedByteCount c) (i64 (floorByteCount c + Z.max 0 byteCount))
      (reservedByteCount c) (releasedByteCount c))) self) w.

Definition removeFloor (w : world) (self : nat) (byteCount : Z) : world :=
  set_budgets (alter (set_cnt (fun c =>
    Counters (totalByteCount c) (usedByteCount c) (i64 (floorByteCount c + - Z.max 0 byteCount))
      (reservedByteCount c) (releasedByteCount c))) self) w.

Definition LendableByteCount (w : world) (self : nat) (ownFloorByteCount : Z) : Z :=
  let c := cnt (get w self) in
  let otherFloors := Z.max 0 (i64 (floorByteCount c - Z.max 0 ownFloorByteCount)) in
  Z.max 0 (i64 (totalByteCount c - otherFloors)).

(** The unreserved remainder of one level. *)
Definition remainder (w : world) (i : nat) : Z := Z.max 0 (i64 (total w i - used w i)).

Definition Available (w : world) (self : nat) : Z :=
  fold_left (fun available p => Z.min available (remainder w p)) (tail (chain w self)) (remainder w self).

Definition requiresAdmissionLock (w : world) (self : nat) : bool :=
  let b := get w self in
  bool_decide (is_Some (parent b)) || bool_decide (is_Some (root b)) || hasChildren b.

(** One level's reserve: [usedByteCount.Add], [reservedByteCount.Add]. *)
Definition reserve_counters (byteCount : Z) (c : counters) : counters :=
  Counters (totalByteCount c) (i64 (usedByteCount c + byteCount)) (floorByteCount c)
    (i64 (reservedByteCount c + byteCount)) (releasedByteCount c).

Definition release_counters (byteCount : Z) (c : counters) : counters :=
  Counters (totalByteCount c) (i64 (usedByteCount c + - byteCount)) (floorByteCount c)
    (reservedByteCount c) (i64 (releasedByteCount c + byteCount)).

Definition reserveLevel (byteCount : Z) (w : world) (i : nat) : world :=
  set_budgets (alter (set_cnt (reserve_counters byteCount)) i) w.

Definition releaseByteCount (byteCount : Z) (w : world) (i : nat) : world :=
  set_budgets (alter (set_cnt (release_counters byteCount)) i) w.

Definition fits_level (w : world) (byteCount : Z) (i : nat) : bool :=
  negb ((total w i <? byteCount) || (i64 (total w i - byteCount) <? used w i)).

Definition tryReserveWithLock (w : world) (self : nat) (byteCount : Z) : world * bool :=
  if byteCount <? 0 then (w, false)
  else if forallb (fits_level w byteCount) (chain w self)
  then (fold_left (reserveLevel byteCount) (chain w self) w, true)
  else (w, false).

Definition TryReserve := tryReserveWithLock.

Definition Reserve (w : world) (self : nat) (byteCount : Z) : world :=
  if negb (requiresAdmissionLock w self) then reserveLevel byteCount w self
  else
    match tryReserveWithLock w self byteCount with
    | (w, true) => w
    | (w, false) => fold_left (reserveLevel byteCount) (chain w self) w
    end.

(** ** Capacity waiters *)

Definition upd_waiter (i : nat) (f : waiter -> waiter) (w : world) : world :=
  set_waiters (alter f i) w.
Definition upd_waits (r : nat) (f : waitList -> waitList) (w : world) : world :=
  set_budgets (alter (set_waits f) r) w.

Definition set_prev (p : option nat) (x : waiter) : waiter :=
  Waiter (token x) (wbudget x) (requiredByteCount x) p (nextCapacityWaiter x) (registered x).
Definition set_next (n : option nat) (x : waiter) : waiter :=
  Waiter (token x) (wbudget x) (requiredByteCount x) (previousCapacityWaiter x) n (registered x).
Definition set_registered (r : bool) (x : waiter) : waiter :=
  Waiter (token x) (wbudget x) (requiredByteCount x) (previousCapacityWaiter x) (nextCapacityWaiter x) r.
Definition set_token (t : bool) (x : waiter) : waiter :=
  Waiter t (wbudget x) (requiredByteCount x) (previousCapacityWaiter x) (nextCapacityWaiter x) (registered x).
Definition set_wbudget (b : option nat) (x : waiter) : waiter :=
  Waiter (token x) b (requiredByteCount x) (previousCapacityWaiter x) (nextCapacityWaiter x) (registered x).
Definition set_required (n : Z) (x : waiter) : waiter :=
  Waiter (token x) (wbudget x) n (previousCapacityWaiter x) (nextCapacityWaiter x) (registered x).

Definition set_head (h : option nat) (q : waitList) : waitList :=
  WaitList h (capacityWaitTail q) (capacityWaiterCount q).
Definition set_tail (t : option nat) (q : waitList) : waitList :=
  WaitList (capacityWaitHead q) t (capacityWaiterCount q).
Definition add_count (d : Z) (q : waitList) : waitList :=
  WaitList (capacityWaitHead q) (capacityWaitTail q) (i64 (capacityWaiterCount q + d)).

Definition newTransferMemoryBudgetWaiter (w : world) : world * nat :=
  (set_waiters (fun ws => ws ++ [Waiter false None 0 None None false]) w, length (waiters w)).

Definition addCapacityWaiter (w : world) (self i : nat) : world :=
  let r := admissionRoot w self in
  match waiters w !! i with
  | Some x =>
      if registered x then w
      else
        let q := waits (get w r) in
        let w := upd_waiter i (fun x => set_next None (set_prev (capacityWaitTail q) x)) w in
        let w := match capacityWaitTail q with
                 | None => upd_waits r (set_head (Some i)) w
                 | Some t => upd_waiter t (set_next (Some i)) w
                 end in
        let w := upd_waits r (set_tail (Some i)) w in
        let w := upd_waiter i (set_registered true) w in
        upd_waits r (add_count 1) w
  | None => w
  end.

Definition removeCapacityWaiterWithLock (w : world) (r i : nat) : world :=
  match waiters w !! i with
  | Some x =>
      if negb (registered x) then w
      else
        let w := match previousCapacityWaiter x with
                 | None => upd_waits r (set_head (nextCapacityWaiter x)) w
                 | Some p => upd_waiter p (set_next (nextCapacityWaiter x)) w
                 end in
        let w := match nextCapacityWaiter x with
                 | None => upd_waits r (set_tail (previousCapacityWaiter x)) w
                 | Some n => upd_waiter n (set_prev (previousCapacityWaiter x)) w
                 end in
        let w := upd_waiter i (fun x => set_registered false (set_next None (set_prev None x))) w in
        upd_waits r (add_count (-1)) w
  | None => w
  end.

Definition removeCapacityWaiter (w : world) (self i : nat) : world :=
  removeCapacityWaiterWithLock w (admissionRoot w self) i.

(** One budget's state within a notification pass. *)
Record waitScratch := Scratch {
  grantedByteCount : Z;
  blocked : bool;
}.
Definition no_scratch : waitScratch := Scratch 0 false.
Definition scratch_get (s : gmap nat waitScratch) (b : nat) : waitScratch := default no_scratch (s !! b).

(** [max(0, total - used - granted)] *)
Definition headroom (w : world) (s : gmap nat waitScratch) (b : nat) : Z :=
  Z.max 0 (i64 (i64 (total w b - used w b) - grantedByteCount (scratch_get s b))).

Definition waiter_chain (w : world) (x : waiter) : list nat :=
  match wbudget x with
  | Some b => chain w b
  | None => []
  end.

Definition grant (req : Z) (s : gmap nat waitScratch) (b : nat) : gmap nat waitScratch :=
  let st := scratch_get s b in
  <[b := Scratch (i64 (grantedByteCount st + req)) (blocked st)]> s.

Definition hold (w : world) (req : Z) (s : gmap nat waitScratch) (b : nat) : gmap nat waitScratch :=
  if headroom w s b <? req
  then <[b := Scratch (grantedByteCount (scratch_get s b)) true]> s
  else s.

(** One waiter of the pass. *)
Definition passWaiter (w : world) (r : nat) (s : gmap nat waitScratch) (i : nat) (x : waiter)
  : world * gmap nat waitScratch :=
  let req := Z.max 0 (requiredByteCount x) in
  let bs := waiter_chain w x in
  let eligible := forallb (fun b => negb (headroom w s b <? req)) bs in
  let blocked := existsb (fun b => blocked (scratch_get s b)) bs in
  let impossible := existsb (fun b => total w b <? req) bs in
  if eligible && (negb blocked || (req =? 0)) then
    let w := removeCapacityWaiterWithLock w r i in
    if token x then (w, s)
    else (upd_waiter i (set_token true) w, fold_left (grant req) bs s)
  else if negb eligible && negb blocked && negb impossible then (w, fold_left (hold w req) bs s)
  else (w, s).

(** The list walk; the next pointer is read before the waiter may leave the
    list. Each waiter is on the list at most once, so the number of waiters
    bounds the walk. *)
Fixpoint pass_loop (fuel : nat) (w : world) (r : nat) (s : gmap nat waitScratch) (cur : option nat)
  : world :=
  match fuel, cur with
  | S fuel, Some i =>
      match waiters w !! i with
      | Some x =>
          let '(w, s) := passWaiter w r s i x in
          pass_loop fuel w r s (nextCapacityWaiter x)
      | None => w
      end
  | _, _ => w
  end.

Definition notifyEligibleCapacityWaiters (w : world) (self : nat) : world :=
  let r := admissionRoot w self in
  let q := waits (get w r) in
  if capacityWaiterCount q =? 0 then w
  else if Available w r <=? 0 then w
  else pass_loop (length (waiters w)) w r ∅ (capacityWaitHead q).

Definition CapacityNotify (w : world) (self : nat) : world * nat :=
  let r := admissionRoot w self in
  match notify (get w r) with
  | Some c => (w, c)
  | None =>
      let c := length (channels w) in
      (World (alter (set_notify (Some c)) r (budgets w)) (waiters w) (channels w ++ [false]), c)
  end.

Definition notifyCapacityChanged (w : world) (self : nat) : world :=
  let r := admissionRoot w self in
  let w :=
    match notify (get w r) with
    | Some c => World (alter (set_notify None) r (budgets w)) (waiters w) (<[c := true]> (channels w))
    | None => w
    end in
  notifyEligibleCapacityWaiters w r.

Definition waiter_reset (w : world) (i : nat) : world :=
  match waiters w !! i with
  | Some x =>
      let w :=
        match wbudget x with
        | Some b => upd_waiter i (set_wbudget None) (removeCapacityWaiter w b i)
        | None => w
        end in
      upd_waiter i (set_token false) w
  | None => w
  end.

Definition waiter_subscribe (w : world) (i : nat) (b : option nat) (requiredByteCount : Z) : world :=
  let w := waiter_reset w i in
  match b with
  | None => w
  | Some b =>
      let w := upd_waiter i (set_token false) w in
      let w := upd_waiter i (fun x => set_required (Z.max 0 requiredByteCount) (set_wbudget (Some b) x)) w in
      addCapacityWaiter w b i
  end.

(** ** Release, resize, move *)

Definition SetTotalByteCount (w : world) (self : nat) (byteCount : Z) : world :=
  notifyCapacityChanged
    (set_budgets (alter (set_cnt (fun c =>
       Counters byteCount (usedByteCount c) (floorByteCount c) (reservedByteCount c) (releasedByteCount c))) self) w)
    self.

Definition Release (w : world) (self : nat) (byteCount : Z) : world :=
  if negb (requiresAdmissionLock w self)
  then notifyCapacityChanged (releaseByteCount byteCount w self) self
  else notifyCapacityChanged (fold_left (releaseByteCount byteCount) (chain w self) w) self.

Definition contains (w : world) (start member : nat) : bool := bool_decide (member ∈ chain w start).

Definition tryMoveReservation (w : world) (self target : option nat) (byteCount : Z) : world * bool :=
  match self, target with
  | Some self, Some target =>
      if (byteCount <? 0) || negb (admissionRoot w self =? admissionRoot w target)%nat then (w, false)
      else if existsb (fun b => used w b <? byteCount) (chain w self) then (w, false)
      else if existsb (fun b => negb (contains w self b) && (i64 (total w b - used w b) <? byteCount))
                (chain w target) then (w, false)
      else
        let w1 := fold_left (releaseByteCount byteCount)
                    (filter (fun b => contains w target b = false) (chain w self)) w in
        let w2 := fold_left (reserveLevel byteCount)
                    (filter (fun b => contains w self b = false) (chain w target)) w1 in
        (if negb (self =? target)%nat && negb (byteCount =? 0) then notifyCapacityChanged w2 self else w2, true)
  | _, _ => (w, false)
  end.

(** ** Counts and statistics *)

Definition Counts (w : world) (self : nat) : Z * Z :=
  let c := cnt (get w self) in (reservedByteCount c, releasedByteCount c).

Definition statsWithLock (w : world) (self : nat) : Z * Z * Z * Z :=
  let c := cnt (get w self) in
  (totalByteCount c, usedByteCount c, reservedByteCount c, releasedByteCount c).

(** A nil or unrelated descendant panics. *)
Definition StatsWithDescendants (w : world) (self : nat) (descendants : list (option nat))
  : go (list (Z * Z * Z * Z)) :=
  if forallb (fun d => match d with
                       | Some d => (admissionRoot w d =? admissionRoot w self)%nat
                       | None => false
                       end) descendants
  then Ret (statsWithLock w self :: map (fun d => statsWithLock w (default 0%nat d)) descendants)
  else Panic.

(** ** What an operation leaves alone

    The links and counters of a budget, without its notification state. *)

Definition core (b : budget) : option nat * option nat * bool * counters :=
  (parent b, root b, hasChildren b, cnt b).
Definition cores (w : world) := core <$> budgets w.

Lemma cores_get w w' i : cores w = cores w' -> core (get w i) = core (get w' i).
Proof.
  intros E. unfold get. assert (E' : cores w !! i = cores w' !! i) by (by rewrite E).
  unfold cores in E'. rewrite !list_lookup_fmap in E'.
  destruct (budgets w !! i), (budgets w' !! i); cbn in *; congruence.
Qed.

Lemma cores_length w w' : cores w = cores w' -> length (budgets w) = length (budgets w').
Proof. intros E. apply (f_equal length) in E. unfold cores in E. by rewrite !length_fmap in E. Qed.

Lemma cores_cnt w w' i : cores w = cores w' -> cnt (get w i) = cnt (get w' i).
Proof. intros E. apply (cores_get _ _ i) in E. unfold core in E. congruence. Qed.

Lemma cores_root w w' i : cores w = cores w' -> admissionRoot w i = admissionRoot w' i.
Proof. intros E. apply (cores_get _ _ i) in E. unfold core, admissionRoot in *. congruence. Qed.

Lemma chain_loop_ext bs bs' fuel s :
  (forall i, parent <$> bs !! i = parent <$> bs' !! i) -> chain_loop fuel bs s = chain_loop fuel bs' s.
Proof.
  intros E. revert s. induction fuel as [|fuel IH]; intros [i|]; try done.
  cbn [chain_loop]. rewrite IH. do 2 f_equal. specialize (E i).
  destruct (bs !! i), (bs' !! i); cbn in *; congruence.
Qed.

Lemma cores_chain w w' i : cores w = cores w' -> chain w i = chain w' i.
Proof.
  intros E. apply chain_loop_ext. intros j.
  assert (E' : cores w !! j = cores w' !! j) by (by rewrite E).
  unfold cores in E'. rewrite !list_lookup_fmap in E'. unfold core in E'.
  destruct (budgets w !! j), (budgets w' !! j); cbn in *; congruence.
Qed.

Lemma fmap_alter_same {A B} (g : A -> B) (f : A -> A) (i : nat) (l : list A) :
  (forall a, g (f a) = g a) -> g <$> alter f i l = g <$> l.
Proof.
  intros E. apply list_eq. intros j. rewrite !list_lookup_fmap.
  destruct (decide (j = i)) as [->|].
  - rewrite list_lookup_alter_eq. destruct (l !! i); cbn; by rewrite ?E.
  - by rewrite list_lookup_alter_ne.
Qed.

Lemma cores_upd_waits r f w : cores (upd_waits r f w) = cores w.
Proof. apply fmap_alter_same. done. Qed.

Lemma cores_upd_waiter i f w : cores (upd_waiter i f w) = cores w.
Proof. done. Qed.

Lemma cores_remove w r i : cores (removeCapacityWaiterWithLock w r i) = cores w.
Proof.
  unfold removeCapacityWaiterWithLock.
  destruct (waiters w !! i) as [x|]; [|done]. destruct (negb _); [done|].
  rewrite cores_upd_waits, cores_upd_waiter.
  destruct (nextCapacityWaiter x), (previousCapacityWaiter x);
    by rewrite ?cores_upd_waiter, ?cores_upd_waits.
Qed.

Lemma cores_add w b i : cores (addCapacityWaiter w b i) = cores w.
Proof.
  unfold addCapacityWaiter.
  destruct (waiters w !! i) as [x|]; [|done]. destruct (registered x); [done|].
  rewrite cores_upd_waits, cores_upd_waiter, cores_upd_waits.
  destruct (capacityWaitTail _); by rewrite ?cores_upd_waiter, ?cores_upd_waits.
Qed.

Lemma cores_passWaiter w r s i x : cores (fst (passWaiter w r s i x)) = cores w.
Proof.
  unfold passWaiter. destruct (_ && _).
  - destruct (token x); cbn [fst]; rewrite ?cores_upd_waiter; apply cores_remove.
  - by destruct (_ && _).
Qed.

Lemma cores_pass_loop fuel w r s cur : cores (pass_loop fuel w r s cur) = cores w.
Proof.
  revert w s cur. induction fuel as [|fuel IH]; intros w s [i|]; try done.
  cbn [pass_loop]. destruct (waiters w !! i) as [x|]; [|done].
  pose proof (cores_passWaiter w r s i x) as E. destruct (passWaiter _ _ _ _ _) as [w' s']. by rewrite IH.
Qed.

Lemma cores_notifyCapacityChanged w b : cores (notifyCapacityChanged w b) = cores w.
Proof.
  unfold notifyCapacityChanged, notifyEligibleCapacityWaiters.
  set (w' := match notify _ with Some _ => _ | None => _ end).
  assert (E : cores w' = cores w).
  { unfold w'. destruct (notify _); [|done]. apply fmap_alter_same. done. }
  destruct (_ =? _); [done|]. destruct (_ <=? _); [done|]. by rewrite cores_pass_loop.
Qed.

Lemma cores_reset w i : cores (waiter_reset w i) = cores w.
Proof.
  unfold waiter_reset. destruct (waiters w !! i) as [x|]; [|done].
  rewrite cores_upd_waiter. destruct (wbudget x); [|done].
  rewrite cores_upd_waiter. apply cores_remove.
Qed.

Lemma cores_subscribe w i b n : cores (waiter_subscribe w i b n) = cores w.
Proof.
  unfold waiter_subscribe. destruct b; [|apply cores_reset].
  rewrite cores_add, !cores_upd_waiter. apply cores_reset.
Qed.

Lemma cores_CapacityNotify w b : cores (fst (CapacityNotify w b)) = cores w.
Proof.
  unfold CapacityNotify. destruct (notify _); [done|]. apply fmap_alter_same. done.
Qed.

(** ** Chains *)

(** Parents are older than their children, and every child records its
    parent's root. *)
Definition tree_wf (w : world) : Prop :=
  forall i b, budgets w !! i = Some b ->
    match parent b with
    | None => root b = None
    | Some p => (p < i)%nat /\ root b = Some (admissionRoot w p)
    end.

Lemma chain_loop_None fuel bs : chain_loop fuel bs None = [].
Proof. by destruct fuel. Qed.

Lemma chain_loop_fuels w i f1 f2 :
  tree_wf w -> (i < f1)%nat -> (i < f2)%nat ->
  chain_loop f1 (budgets w) (Some i) = chain_loop f2 (budgets w) (Some i).
Proof.
  intros Hwf. revert f1 f2. induction i as [i IH] using lt_wf_ind. intros [|f1] [|f2] H1 H2; [lia..|].
  cbn [chain_loop]. f_equal. destruct (budgets w !! i) as [b|] eqn:Hb; [|by rewrite !chain_loop_None].
  pose proof (Hwf i b Hb) as Hp. destruct (parent b) as [p|]; [|by rewrite !chain_loop_None].
  apply IH; lia.
Qed.

Lemma chain_unfold w i :
  tree_wf w -> chain w i = i :: match parent (get w i) with Some p => chain w p | None => [] end.
Proof.
  intros Hwf. unfold chain at 1. cbn [chain_loop]. f_equal. unfold get.
  destruct (budgets w !! i) as [b|] eqn:Hb; cbn [default from_option id parent no_budget];
    [|by rewrite chain_loop_None].
  pose proof (Hwf i b Hb) as Hp. destruct (parent b) as [p|]; [|by rewrite chain_loop_None].
  apply chain_loop_fuels; [done|lia..].
Qed.

Lemma parent_get_lt w i p : tree_wf w -> parent (get w i) = Some p -> (p < i)%nat.
Proof.
  intros Hwf. unfold get. destruct (budgets w !! i) as [b|] eqn:Hb; cbn; [|done].
  pose proof (Hwf i b Hb). intros E. rewrite E in *. lia.
Qed.

Lemma chain_le w i b : tree_wf w -> b ∈ chain w i -> (b <= i)%nat.
Proof.
  intros Hwf. induction i as [i IH] using lt_wf_ind. rewrite chain_unfold by done.
  intros [->|Hb]%elem_of_cons; [done|]. destruct (parent (get w i)) as [p|] eqn:Hp; [|set_solver].
  apply parent_get_lt in Hp; [|done]. apply IH in Hb; lia.
Qed.

Lemma chain_NoDup w i : tree_wf w -> NoDup (chain w i).
Proof.
  intros Hwf. induction i as [i IH] using lt_wf_ind. rewrite chain_unfold by done.
  destruct (parent (get w i)) as [p|] eqn:Hp; [|apply NoDup_singleton].
  apply parent_get_lt in Hp; [|done]. constructor; [|by apply IH].
  intros Hi%chain_le; [lia|done].
Qed.

Lemma chain_self w i : tree_wf w -> i ∈ chain w i.
Proof. intros Hwf. rewrite chain_unfold by done. set_solver. Qed.

(** ** Levels

    An operation on counters keeps every link of the tree. *)

Definition link (b : budget) : option nat * option nat := (parent b, root b).
Definition links (w : world) := link <$> budgets w.

Lemma cores_links w w' : cores w = cores w' -> links w = links w'.
Proof.
  intros E. unfold links, cores in *. apply (f_equal (fmap (fun c => (c.1.1.1, c.1.1.2)))) in E.
  by rewrite <- !list_fmap_compose in E.
Qed.

Lemma links_lookup w w' i : links w = links w' -> link <$> budgets w !! i = link <$> budgets w' !! i.
Proof. intros E. rewrite <- !list_lookup_fmap. unfold links in E. by rewrite E. Qed.

Lemma links_length w w' : links w = links w' -> length (budgets w) = length (budgets w').
Proof. intros E. apply (f_equal length) in E. unfold links in E. by rewrite !length_fmap in E. Qed.

Lemma links_chain w w' i : links w = links w' -> chain w i = chain w' i.
Proof.
  intros E. apply chain_loop_ext. intros j. apply (links_lookup _ _ j) in E. unfold link in E.
  destruct (budgets w !! j), (budgets w' !! j); cbn in *; congruence.
Qed.

Lemma links_root w w' i : links w = links w' -> admissionRoot w i = admissionRoot w' i.
Proof.
  intros E. apply (links_lookup _ _ i) in E. unfold admissionRoot, get, link in *.
  destruct (budgets w !! i), (budgets w' !! i); cbn in *; congruence.
Qed.

Lemma links_wf w w' : links w = links w' -> tree_wf w -> tree_wf w'.
Proof.
  intros E Hwf i b Hb. pose proof (links_lookup _ _ i E) as El. rewrite Hb in El.
  destruct (budgets w !! i) as [b0|] eqn:Hb0; [|done]. injection El as Ep Er.
  pose proof (Hwf i b0 Hb0) as H0. rewrite <- Ep, <- Er. destruct (parent b0); [|done].
  by rewrite <- (links_root w w').
Qed.

Definition adjust (f : counters -> counters) (w : world) (i : nat) : world :=
  set_budgets (alter (set_cnt f) i) w.

Lemma adjust_links f w i : links (adjust f w i) = links w.
Proof. by apply fmap_alter_same. Qed.

Lemma adjust_cnt f w i j :
  (i < length (budgets w))%nat ->
  cnt (get (adjust f w i) j) = if decide (j = i) then f (cnt (get w j)) else cnt (get w j).
Proof.
  intros [b Hb]%lookup_lt_is_Some_2. unfold get, adjust. cbn [budgets set_budgets].
  destruct (decide (j = i)) as [->|].
  - by rewrite list_lookup_alter_eq, Hb.
  - by rewrite list_lookup_alter_ne.
Qed.

Lemma adjust_all f l w :
  NoDup l -> (forall i, i ∈ l -> (i < length (budgets w))%nat) ->
  links (fold_left (adjust f) l w) = links w /\
  forall j, cnt (get (fold_left (adjust f) l w) j) =
    if decide (j ∈ l) then f (cnt (get w j)) else cnt (get w j).
Proof.
  intros Hnd. revert w. induction Hnd as [|i l Hi Hnd IH]; intros w Hl.
  { split; [done|]. intros j. by rewrite decide_False by set_solver. }
  cbn [fold_left]. destruct (IH (adjust f w i)) as [IH1 IH2].
  { intros j Hj. rewrite <- (links_length w) by (by rewrite adjust_links). apply Hl. set_solver. }
  rewrite IH1, adjust_links. split; [done|]. intros j. rewrite IH2, adjust_cnt by (apply Hl; set_solver).
  destruct (decide (j ∈ l)), (decide (j = i)) as [->|]; try done.
  - by rewrite decide_True by set_solver.
  - by rewrite decide_True by set_solver.
  - by rewrite decide_False by set_solver.
Qed.

Lemma chain_in_range w s b :
  tree_wf w -> (s < length (budgets w))%nat -> b ∈ chain w s -> (b < length (budgets w))%nat.
Proof. intros Hwf Hs Hb%chain_le; [lia|done]. Qed.

Lemma standalone_chain w s :
  tree_wf w -> requiresAdmissionLock w s = false -> chain w s = [s].
Proof.
  intros Hwf. unfold requiresAdmissionLock. rewrite !orb_false_iff, bool_decide_eq_false.
  intros [[Hp _] _]. rewrite chain_unfold by done. destruct (parent _); [|done].
  destruct Hp. eauto.
Qed.

(** ** The ledger *)

(** What [own] records as owned at budget [b] or at a budget below it. *)
Definition charged (w : world) (own : nat -> Z) (b : nat) : Z :=
  sumZ (map (fun d => if decide (b ∈ chain w d) then own d else 0) (seq 0 (length (budgets w)))).

Definition credit (own : nat -> Z) (s : nat) (n : Z) : nat -> Z :=
  fun d => if decide (d = s) then own d + n else own d.

Lemma charged_credit w own s n b :
  (s < length (budgets w))%nat ->
  charged w (credit own s n) b = charged w own b + (if decide (b ∈ chain w s) then n else 0).
Proof.
  intros Hs. unfold charged.
  rewrite <- (sumZ_map_single s (if decide (b ∈ chain w s) then n else 0) (seq 0 (length (budgets w))))
    by (try apply NoDup_ListNoDup, seq_NoDup; apply elem_of_seq; lia).
  rewrite <- sumZ_map_add. apply sumZ_map_ext. intros d _. unfold credit.
  destruct (decide (d = s)) as [->|]; destruct (decide _); lia.
Qed.

Lemma charged_nonneg w own b : (forall d, 0 <= own d) -> 0 <= charged w own b.
Proof. intros H. apply sumZ_map_nonneg. intros d _. destruct (decide _); [apply H|lia]. Qed.

Lemma charged_links w w' own b : links w = links w' -> charged w own b = charged w' own b.
Proof.
  intros E. unfold charged. rewrite (links_length w w' E). apply sumZ_map_ext.
  intros d _. by rewrite (links_chain w w').
Qed.

Lemma credit_nonneg own s n : (forall d, 0 <= own d) -> 0 <= own s + n -> forall d, 0 <= credit own s n d.
Proof. intros H Hs d. unfold credit. destruct (decide (d = s)) as [->|]; auto. Qed.

(** What is owned at [b] itself is part of what is charged to it. *)
Lemma own_le_charged w own b :
  tree_wf w -> (forall d, 0 <= own d) -> (b < length (budgets w))%nat -> own b <= charged w own b.
Proof.
  intros Hwf Hown Hb.
  assert (0 <= charged w (credit own b (- own b)) b) as H.
  { apply charged_nonneg, credit_nonneg; [done|lia]. }
  rewrite charged_credit, decide_True in H by (done || by apply chain_self). lia.
Qed.

Record ledger_ok (w : world) (own : nat -> Z) : Prop := {
  lo_wf : tree_wf w;
  lo_own : forall d, 0 <= own d;
  lo_total : forall b, (b < length (budgets w))%nat -> i64 (total w b) = total w b;
  lo_used : forall b, (b < length (budgets w))%nat -> used w b = i64 (charged w own b);
  lo_counts : forall b, (b < length (budgets w))%nat ->
    used w b = i64 (reservedByteCount (cnt (get w b)) - releasedByteCount (cnt (get w b)));
}.

(** Every counter moves by the amount the ledger's charge moves. *)
Lemma ledger_move w own w' own' (d : nat -> Z) :
  ledger_ok w own -> links w' = links w -> (forall x, 0 <= own' x) ->
  (forall b, (b < length (budgets w))%nat -> charged w own' b = charged w own b + d b) ->
  (forall b, (b < length (budgets w))%nat ->
    total w' b = total w b /\ used w' b = i64 (used w b + d b) /\
    i64 (reservedByteCount (cnt (get w' b)) - releasedByteCount (cnt (get w' b))) =
      i64 (reservedByteCount (cnt (get w b)) - releasedByteCount (cnt (get w b)) + d b)) ->
  ledger_ok w' own'.
Proof.
  intros [Hwf Hown Ht Hu Hc] El Hown' Hch Hcnt. pose proof (links_length _ _ El) as Elen.
  split; [by apply (links_wf w)|done|..]; intros b Hb; rewrite Elen in Hb;
    destruct (Hcnt b Hb) as (Et & Eu & Ec).
  - rewrite Et. auto.
  - rewrite (charged_links w' w) by done. rewrite Hch, Eu, Hu by done. by rewrite i64_i64_add.
  - rewrite Ec, Eu, Hc by done. by rewrite i64_i64_add.
Qed.

Lemma ledger_cores w w' own : cores w' = cores w -> ledger_ok w own -> ledger_ok w' own.
Proof.
  intros E H. apply (ledger_move w own w' own (fun _ => 0)); [done|by apply cores_links|apply H|lia|].
  intros b Hb. unfold total, used. rewrite (cores_cnt w' w) by done.
  split; [done|]. rewrite !Z.add_0_r. split; [|done]. fold (used w b). by rewrite (lo_used _ _ H), i64_idem.
Qed.

(** [f] moves a level's used count, and its cumulative balance, by [n]. *)
Definition shifts (f : counters -> counters) (n : Z) : Prop :=
  forall c, totalByteCount (f c) = totalByteCount c /\
    usedByteCount (f c) = i64 (usedByteCount c + n) /\
    i64 (reservedByteCount (f c) - releasedByteCount (f c)) =
      i64 (reservedByteCount c - releasedByteCount c + n).

Lemma reserve_shifts n : shifts (reserve_counters n) n.
Proof.
  intros c. cbn. split; [done|]. split; [done|].
  rewrite <- Z.add_opp_r, i64_i64_add. f_equal. lia.
Qed.

Lemma release_shifts n : shifts (release_counters n) (- n).
Proof. intros c. cbn. split; [done|]. split; [done|]. rewrite i64_sub_i64. f_equal. lia. Qed.

(** Levels in [l] moved by [n]; the rest unchanged. *)
Definition shifted (w w' : world) (d : nat -> Z) : Prop :=
  links w' = links w /\
  forall b, (b < length (budgets w))%nat ->
    total w' b = total w b /\ used w' b = i64 (used w b + d b) /\
    i64 (reservedByteCount (cnt (get w' b)) - releasedByteCount (cnt (get w' b))) =
      i64 (reservedByteCount (cnt (get w b)) - releasedByteCount (cnt (get w b)) + d b).

Lemma adjust_shifted f n l w own :
  ledger_ok w own -> shifts f n -> NoDup l -> (forall i, i ∈ l -> (i < length (budgets w))%nat) ->
  shifted w (fold_left (adjust f) l w) (fun b => if decide (b ∈ l) then n else 0).
Proof.
  intros H Hf Hnd Hl. destruct (adjust_all f l w Hnd Hl) as [E1 E2]. split; [done|].
  intros b Hb. unfold total, used. rewrite (E2 b). destruct (decide (b ∈ l)); [apply Hf|].
  rewrite !Z.add_0_r. split; [done|]. split; [|done]. fold (used w b).
  by rewrite (lo_used _ _ H), i64_idem.
Qed.

Lemma ledger_shifted w w' own own' d :
  ledger_ok w own -> shifted w w' d -> (forall x, 0 <= own' x) ->
  (forall b, (b < length (budgets w))%nat -> charged w own' b = charged w own b + d b) ->
  ledger_ok w' own'.
Proof. intros H [E1 E2] Hown Hch. by apply (ledger_move w own w' own' d). Qed.

(** Moving the counters of a whole chain by [n] is crediting its first budget. *)
Lemma ledger_chain f n w own s :
  ledger_ok w own -> shifts f n -> (s < length (budgets w))%nat -> 0 <= own s + n ->
  ledger_ok (fold_left (adjust f) (chain w s) w) (credit own s n).
Proof.
  intros H Hf Hs Hn. pose proof (lo_wf _ _ H) as Hwf.
  eapply ledger_shifted; [done|apply (adjust_shifted f n _ w own)|..]; try done.
  - by apply chain_NoDup.
  - intros; by apply (chain_in_range w s).
  - apply credit_nonneg; [apply H|lia].
  - intros b _. by apply charged_credit.
Qed.

(** ** Operation sequences *)

Inductive op :=
| ONew (total : Z)
| OChild (total : Z) (p : nat)
| OTry (b : nat) (n : Z)
| OReserve (b : nat) (n : Z)
| ORelease (b : nat) (n : Z)
| OMove (a b : nat) (n : Z)
| OSetTotal (b : nat) (n : Z)
| OAddFloor (b : nat) (n : Z)
| ORemoveFloor (b : nat) (n : Z)
| ONewWaiter
| OSubscribe (i : nat) (b : option nat) (n : Z)
| OReset (i : nat)
| ONotify (b : nat).

(** One operation, on the program's state and on the ledger. *)
Definition run (o : op) (st : world * (nat -> Z)) : world * (nat -> Z) :=
  let '(w, own) := st in
  match o with
  | ONew t => (fst (NewTransferMemoryBudget w t), own)
  | OChild t p => (fst (NewTransferMemoryBudgetWithParent w t (Some p)), own)
  | OTry b n => let '(w, ok) := TryReserve w b n in (w, if ok then credit own b n else own)
  | OReserve b n => (Reserve w b n, credit own b n)
  | ORelease b n => (Release w b n, credit own b (- n))
  | OMove a b n =>
      let '(w, ok) := tryMoveReservation w (Some a) (Some b) n in
      (w, if ok then credit (credit own a (- n)) b n else own)
  | OSetTotal b n => (SetTotalByteCount w b n, own)
  | OAddFloor b n => (addFloor w b n, own)
  | ORemoveFloor b n => (removeFloor w b n, own)
  | ONewWaiter => (fst (newTransferMemoryBudgetWaiter w), own)
  | OSubscribe i b n => (waiter_subscribe w i b n, own)
  | OReset i => (waiter_reset w i, own)
  | ONotify b => (fst (CapacityNotify w b), own)
  end.

Definition int64 (z : Z) : Prop := i64 z = z.

(** A caller follows pointers to allocated budgets and gives back no more
    than it owns. *)
Definition op_ok (st : world * (nat -> Z)) (o : op) : Prop :=
  let '(w, own) := st in
  let live b := (b < length (budgets w))%nat in
  match o with
  | ONew t => int64 t
  | OChild t p => int64 t /\ live p
  | OTry b n => live b /\ int64 n
  | OReserve b n => live b /\ 0 <= n
  | ORelease b n => live b /\ 0 <= n <= own b
  | OMove a b n => live a /\ live b /\ n <= own a
  | OSetTotal b n => live b /\ int64 n
  | OAddFloor b _ | ORemoveFloor b _ => live b
  | ONewWaiter | OSubscribe _ _ _ | OReset _ | ONotify _ => True
  end.

(** No unconditional reserve, no total below what is used. *)
Definition op_exact (st : world * (nat -> Z)) (o : op) : Prop :=
  match o with
  | ONew t | OChild t _ => 0 <= t
  | OReserve _ _ => False
  | OSetTotal b n => used (fst st) b <= n
  | _ => True
  end.

Inductive reach (ok : world * (nat -> Z) -> op -> Prop) : world * (nat -> Z) -> Prop :=
| reach_init : reach ok (World [] [] [], fun _ => 0)
| reach_step st o : reach ok st -> ok st o -> reach ok (run o st).

(** *** The ledger is kept *)

Lemma get_app_old w bs i :
  (i < length (budgets w))%nat -> get (set_budgets (fun l => l ++ bs) w) i = get w i.
Proof. intros Hi. unfold get. cbn. by rewrite lookup_app_l. Qed.

(** A new leaf [x] leaves every chain of the old budgets as it was. *)
Lemma chain_app_old w x i :
  tree_wf w -> (i < length (budgets w))%nat ->
  chain (set_budgets (fun l => l ++ [x]) w) i = chain w i.
Proof.
  intros Hwf Hi. unfold chain.
  assert (Hg : forall fuel s, (match s with Some j => (j < length (budgets w))%nat | None => True end) ->
    chain_loop fuel (budgets w ++ [x]) s = chain_loop fuel (budgets w) s).
  { induction fuel as [|fuel IH]; intros [j|] Hj; try done. cbn [chain_loop].
    rewrite lookup_app_l by done. rewrite IH; [done|].
    destruct (budgets w !! j) as [b|] eqn:Hb; [|done]. pose proof (Hwf j b Hb) as Hp.
    destruct (parent b); [lia|done]. }
  by apply Hg.
Qed.

Lemma charged_leaf w own x b :
  tree_wf w -> own (length (budgets w)) = 0 ->
  charged (set_budgets (fun l => l ++ [x]) w) own b = charged w own b.
Proof.
  intros Hwf Hz. unfold charged. cbn [budgets set_budgets].
  rewrite length_app, Nat.add_1_r, seq_S, map_app, sumZ_app. cbn [map]. rewrite sumZ_cons.
  rewrite Nat.add_0_l, Hz. destruct (decide _); cbn [sumZ foldr].
  all: rewrite (sumZ_map_ext _ (fun d => if decide (b ∈ chain w d) then own d else 0)); [lia|].
  all: intros d Hd%elem_of_seq; by rewrite <- (chain_app_old w x) by (done || lia).
Qed.

Lemma ledger_leaf w own t p r :
  ledger_ok w own -> int64 t -> own (length (budgets w)) = 0 ->
  match p with
  | None => r = None
  | Some p => (p < length (budgets w))%nat /\ r = Some (admissionRoot w p)
  end ->
  ledger_ok (set_budgets (fun l => l ++ [Budget p r false (Counters t 0 0 0 0) None (WaitList None None 0)]) w) own.
Proof.
  intros H Ht Hz Hp. set (x := Budget _ _ _ _ _ _). set (w' := set_budgets _ w).
  pose proof (lo_wf _ _ H) as Hwf.
  assert (Hnew : get w' (length (budgets w)) = x).
  { unfold get, w'. cbn. by rewrite lookup_app_r, Nat.sub_diag by lia. }
  assert (Hold : forall i, (i < length (budgets w))%nat -> get w' i = get w i).
  { intros i. apply get_app_old. }
  assert (Hlen : length (budgets w') = S (length (budgets w))).
  { cbn. rewrite length_app. cbn. lia. }
  assert (Hwf' : tree_wf w').
  { intros i b Hb. cbn in Hb. apply lookup_app_Some in Hb as [Hb|[Hi Hb]].
    - pose proof (Hwf i b Hb) as Hw. apply lookup_lt_Some in Hb.
      destruct (parent b); [|done]. destruct Hw as [? ->]. split; [done|].
      unfold admissionRoot. rewrite Hold by lia. done.
    - apply list_lookup_singleton_Some in Hb as [Hi0 <-]. cbn. destruct p; [|done].
      destruct Hp as [? ->]. split; [lia|]. unfold admissionRoot. by rewrite Hold. }
  assert (Hch : forall b, charged w' own b = charged w own b) by (intros b; by apply charged_leaf).
  split; [done|apply H|..]; intros b Hb; rewrite Hlen in Hb; unfold total, used;
    (destruct (decide (b = length (budgets w))) as [->|]; [rewrite Hnew|rewrite Hold by lia]).
  - done.
  - apply H. lia.
  - rewrite Hch. cbn. unfold charged. rewrite sumZ_map_0; [done|].
    intros d Hd%elem_of_seq. rewrite decide_False; [done|]. intros Hc%chain_le; [lia|done].
  - rewrite Hch. apply H. lia.
  - done.
  - apply H. lia.
Qed.

(** The same links and byte counters (floors and notification may differ). *)
Lemma ledger_same w w' own :
  links w' = links w ->
  (forall b, (b < length (budgets w))%nat -> int64 (total w' b) /\ used w' b = used w b /\ Counts w' b = Counts w b) ->
  ledger_ok w own -> ledger_ok w' own.
Proof.
  intros El Hc H. pose proof (links_length _ _ El) as Elen. unfold Counts in Hc.
  split; [by apply (links_wf w); [|apply H]|apply H|..]; intros b Hb; rewrite Elen in Hb;
    destruct (Hc b Hb) as (Et & Eu & Ec).
  - done.
  - rewrite Eu, (charged_links w' w) by done. by apply H.
  - injection Ec as -> ->. rewrite Eu. by apply H.
Qed.

Lemma ledger_adjust_same f w own s :
  (s < length (budgets w))%nat ->
  (forall c, int64 (totalByteCount c) -> int64 (totalByteCount (f c)) /\ usedByteCount (f c) = usedByteCount c /\
     reservedByteCount (f c) = reservedByteCount c /\ releasedByteCount (f c) = releasedByteCount c) ->
  ledger_ok w own -> ledger_ok (adjust f w s) own.
Proof.
  intros Hs Hf H. apply (ledger_same w); [apply adjust_links| |done]. intros b Hb.
  unfold total, used, Counts. rewrite adjust_cnt by done.
  pose proof (lo_total _ _ H b Hb) as Ht. unfold total in Ht. cbv zeta.
  destruct (decide (b = s)); [|done]. by destruct (Hf _ Ht) as (? & -> & -> & ->).
Qed.

Definition fresh (w : world) (own : nat -> Z) : Prop :=
  forall d, (length (budgets w) <= d)%nat -> own d = 0.

Lemma fresh_credit w w' own s n :
  links w' = links w -> (s < length (budgets w))%nat -> fresh w own -> fresh w' (credit own s n).
Proof.
  intros El Hs Hf d Hd. rewrite (links_length _ _ El) in Hd. unfold credit.
  rewrite decide_False by lia. auto.
Qed.

Lemma fresh_links w w' own : links w' = links w -> fresh w own -> fresh w' own.
Proof. intros El Hf d Hd. rewrite (links_length _ _ El) in Hd. auto. Qed.

Lemma chain_adjust_links f w s :
  tree_wf w -> (s < length (budgets w))%nat -> links (fold_left (adjust f) (chain w s) w) = links w.
Proof.
  intros Hwf Hs. apply adjust_all; [by apply chain_NoDup|]. intros; by apply (chain_in_range w s).
Qed.

Definition ledger (st : world * (nat -> Z)) : Prop := ledger_ok (fst st) (snd st) /\ fresh (fst st) (snd st).

Lemma ledger_of_cores w w' own : cores w' = cores w -> ledger (w, own) -> ledger (w', own).
Proof.
  intros E [H Hf]. split; [by apply (ledger_cores w)|].
  apply (fresh_links w); [by apply cores_links|done].
Qed.

Lemma ledger_credit f n w own s :
  ledger (w, own) -> shifts f n -> (s < length (budgets w))%nat -> 0 <= own s + n ->
  ledger (fold_left (adjust f) (chain w s) w, credit own s n).
Proof.
  intros [H Hf] Hs Hl Hn. split; [by apply ledger_chain|].
  apply (fresh_credit w); [by apply chain_adjust_links; [apply H|]|done..].
Qed.

Lemma ledger_Reserve w own s n :
  ledger (w, own) -> (s < length (budgets w))%nat -> 0 <= n -> ledger (Reserve w s n, credit own s n).
Proof.
  intros H Hs Hn. pose proof (lo_wf _ _ (proj1 H)) as Hwf. pose proof (lo_own _ _ (proj1 H) s).
  pose proof (ledger_credit _ n w own s H (reserve_shifts n) Hs ltac:(cbn in *; lia)) as HL.
  unfold Reserve. destruct (requiresAdmissionLock w s) eqn:E; cbn [negb].
  - unfold tryReserveWithLock. destruct (n <? 0); [done|]. by destruct (forallb _ _).
  - rewrite (standalone_chain w s) in HL by done. done.
Qed.

Lemma ledger_Release w own s n :
  ledger (w, own) -> (s < length (budgets w))%nat -> 0 <= n <= own s -> ledger (Release w s n, credit own s (- n)).
Proof.
  intros H Hs Hn. pose proof (lo_wf _ _ (proj1 H)) as Hwf.
  pose proof (ledger_credit _ (- n) w own s H (release_shifts n) Hs ltac:(cbn in *; lia)) as HL.
  unfold Release. destruct (requiresAdmissionLock w s) eqn:E; cbn [negb].
  - eapply ledger_of_cores; [apply cores_notifyCapacityChanged|done].
  - rewrite (standalone_chain w s) in HL by done.
    eapply ledger_of_cores; [apply cores_notifyCapacityChanged|done].
Qed.

(** What a move does: the counters below the common ancestors. *)
Definition move_delta (w : world) (a b : nat) (n : Z) (x : nat) : Z :=
  (if decide (x ∈ chain w b) then n else 0) - (if decide (x ∈ chain w a) then n else 0).

Definition moved (w : world) (a b : nat) (n : Z) : world :=
  fold_left (reserveLevel n) (filter (fun x => contains w a x = false) (chain w b))
    (fold_left (releaseByteCount n) (filter (fun x => contains w b x = false) (chain w a)) w).

Lemma contains_false w a x : contains w a x = false <-> x ∉ chain w a.
Proof. unfold contains. apply bool_decide_eq_false. Qed.

Lemma moved_shifted w own a b n :
  ledger_ok w own -> (a < length (budgets w))%nat -> (b < length (budgets w))%nat ->
  shifted w (moved w a b n) (move_delta w a b n).
Proof.
  intros H Ha Hb. pose proof (lo_wf _ _ H) as Hwf. unfold moved.
  change (reserveLevel n) with (adjust (reserve_counters n)).
  change (releaseByteCount n) with (adjust (release_counters n)).
  set (la := filter (fun x => contains w b x = false) (chain w a)).
  set (lb := filter (fun x => contains w a x = false) (chain w b)).
  assert (Hla : NoDup la) by (by apply list.NoDup_filter, chain_NoDup).
  assert (Hlb : NoDup lb) by (by apply list.NoDup_filter, chain_NoDup).
  assert (Ra : forall i, i ∈ la -> (i < length (budgets w))%nat).
  { intros i [_ Hi]%list_elem_of_filter. by apply (chain_in_range w a). }
  assert (Rb : forall i, i ∈ lb -> (i < length (budgets w))%nat).
  { intros i [_ Hi]%list_elem_of_filter. by apply (chain_in_range w b). }
  destruct (adjust_all (release_counters n) la w Hla Ra) as [E1 E2].
  destruct (adjust_all (reserve_counters n) lb (fold_left (adjust (release_counters n)) la w) Hlb) as [E3 E4].
  { by rewrite (links_length _ _ E1). }
  split; [by etrans|]. intros x Hx. unfold total, used.
  rewrite (E4 x), (E2 x). clear E1 E2 E3 E4.
  pose proof (lo_used _ _ H x Hx) as Hu. unfold used in Hu.
  assert (Hu0 : i64 (usedByteCount (cnt (get w x)) + 0) = usedByteCount (cnt (get w x))).
  { by rewrite Z.add_0_r, Hu, i64_idem. }
  assert (Da : x ∈ la <-> x ∈ chain w a /\ x ∉ chain w b).
  { unfold la. rewrite list_elem_of_filter, contains_false. tauto. }
  assert (Db : x ∈ lb <-> x ∈ chain w b /\ x ∉ chain w a).
  { unfold lb. rewrite list_elem_of_filter, contains_false. tauto. }
  clearbody la lb. unfold move_delta.
  destruct (decide (x ∈ chain w a)) as [Ia|Ia], (decide (x ∈ chain w b)) as [Ib|Ib];
    destruct (decide (x ∈ la)) as [Ja|Ja], (decide (x ∈ lb)) as [Jb|Jb]; try tauto.
  - by rewrite Z.sub_diag, Hu0, Z.add_0_r.
  - rewrite Z.sub_0_l. apply release_shifts.
  - rewrite Z.sub_0_r. apply reserve_shifts.
  - by rewrite Z.sub_diag, Hu0, Z.add_0_r.
Qed.

Lemma charged_move w own a b n x :
  (a < length (budgets w))%nat -> (b < length (budgets w))%nat ->
  charged w (credit (credit own a (- n)) b n) x = charged w own x + move_delta w a b n x.
Proof.
  intros Ha Hb. rewrite !charged_credit by done. unfold move_delta.
  destruct (decide _), (decide _); lia.
Qed.

Lemma ledger_moved w own a b n :
  ledger (w, own) -> (a < length (budgets w))%nat -> (b < length (budgets w))%nat -> 0 <= n <= own a ->
  ledger (moved w a b n, credit (credit own a (- n)) b n).
Proof.
  intros [H Hf] Ha Hb Hn. cbn [fst snd] in *.
  pose proof (moved_shifted w own a b n H Ha Hb) as Hs. split; cbn [fst snd].
  - apply (ledger_shifted w _ own _ _ H Hs).
    + apply credit_nonneg; [apply credit_nonneg; [apply H|lia]|].
      pose proof (lo_own _ _ H b). unfold credit. destruct (decide _) as [->|]; lia.
    + intros x _. by apply charged_move.
  - apply (fresh_credit w); [apply Hs|done|]. by apply (fresh_credit w).
Qed.

(** The three outcomes of a move. *)
Lemma tryMove_cases w a b n :
  tryMoveReservation w (Some a) (Some b) n = (w, false) \/
  0 <= n /\ admissionRoot w a = admissionRoot w b /\
  (forall x, x ∈ chain w a -> n <= used w x) /\
  (forall x, x ∈ chain w b -> x ∉ chain w a -> n <= i64 (total w x - used w x)) /\
  exists w', tryMoveReservation w (Some a) (Some b) n = (w', true) /\ cores w' = cores (moved w a b n).
Proof.
  cbn [tryMoveReservation].
  destruct (Z.ltb_spec n 0); cbn [orb]; [by left|].
  destruct (Nat.eqb_spec (admissionRoot w a) (admissionRoot w b)) as [Er|]; cbn [negb]; [|by left].
  destruct (existsb _ (chain w a)) eqn:E1; [by left|].
  destruct (existsb _ (chain w b)) eqn:E2; [by left|]. right.
  split; [done|]. split; [done|]. split; [|split].
  - intros x Hx. apply Z.nlt_ge. intros Hlt. apply not_true_iff_false in E1. destruct E1.
    apply existsb_exists. exists x. split; [by apply list_elem_of_In|by apply Z.ltb_lt].
  - intros x Hx Ha. apply Z.nlt_ge. intros Hlt. apply not_true_iff_false in E2. destruct E2.
    apply existsb_exists. exists x. split; [by apply list_elem_of_In|].
    rewrite (proj2 (contains_false w a x) Ha). by apply Z.ltb_lt.
  - eexists. split; [done|]. fold (moved w a b n). destruct (_ && _); [|done].
    apply cores_notifyCapacityChanged.
Qed.

Lemma cnt_get_alter f i j w :
  (forall b, cnt (f b) = cnt b) -> cnt (get (set_budgets (alter f i) w) j) = cnt (get w j).
Proof.
  intros E. unfold get. cbn. destruct (decide (j = i)) as [->|].
  - rewrite list_lookup_alter_eq. destruct (budgets w !! i); cbn; auto.
  - by rewrite list_lookup_alter_ne.
Qed.

Lemma ledger_hasChildren w own r :
  ledger (w, own) -> ledger (set_budgets (alter set_hasChildren r) w, own).
Proof.
  intros [H Hf]. assert (El : links (set_budgets (alter set_hasChildren r) w) = links w) by (by apply fmap_alter_same).
  split; [|by apply (fresh_links w)]. cbn [fst snd] in *.
  apply (ledger_same w); [done| |done]. intros b Hb. unfold total, used, Counts.
  rewrite cnt_get_alter by done. split; [by apply H|done].
Qed.

Lemma ledger_child w own t p :
  ledger (w, own) -> int64 t -> (p < length (budgets w))%nat ->
  ledger (fst (NewTransferMemoryBudgetWithParent w t (Some p)), own).
Proof.
  intros H Ht Hp. cbn [NewTransferMemoryBudgetWithParent fst].
  set (r := admissionRoot w p). set (w1 := set_budgets (alter set_hasChildren r) w).
  assert (El : links w1 = links w) by (by apply fmap_alter_same).
  pose proof (links_length _ _ El) as Elen.
  destruct (ledger_hasChildren w own r H) as [H1 H2]. split; cbn [fst snd] in *.
  - change (set_budgets _ w) with (set_budgets (fun l => l ++ [Budget (Some p) (Some r) false (Counters t 0 0 0 0) None (WaitList None None 0)]) w1).
    apply ledger_leaf; [done|done|by apply H2|].
    rewrite Elen. split; [done|]. by rewrite (links_root w1 w).
  - intros d. cbn. rewrite length_app, length_alter. cbn. intros Hd. apply H. cbn. lia.
Qed.

Lemma ledger_adjust f w own s :
  (s < length (budgets w))%nat ->
  (forall c, int64 (totalByteCount c) -> int64 (totalByteCount (f c)) /\ usedByteCount (f c) = usedByteCount c /\
     reservedByteCount (f c) = reservedByteCount c /\ releasedByteCount (f c) = releasedByteCount c) ->
  ledger (w, own) -> ledger (adjust f w s, own).
Proof.
  intros Hs Hf [H1 H2]. split; [by apply ledger_adjust_same|].
  apply (fresh_links w); [apply adjust_links|done].
Qed.

Lemma run_ledger st o : ledger st -> op_ok st o -> ledger (run o st).
Proof.
  destruct st as [w own]. intros H Hok. pose proof H as [H1 H2]. cbn [fst snd] in *.
  destruct o; cbn [run op_ok] in *.
  - split; cbn [fst snd].
    + apply ledger_leaf; auto.
    + intros d Hd. cbn in Hd. rewrite length_app in Hd. apply H2. lia.
  - apply ledger_child; tauto.
  - unfold TryReserve, tryReserveWithLock. destruct (Z.ltb_spec n 0); [done|].
    destruct (forallb _ _); [|done]. pose proof (lo_own _ _ H1 b).
    apply ledger_credit; [done|apply reserve_shifts|tauto|lia].
  - apply ledger_Reserve; tauto.
  - apply ledger_Release; tauto.
  - destruct (tryMove_cases w a b n) as [->|(Hn & _ & _ & _ & w' & -> & E)]; [done|].
    eapply ledger_of_cores; [exact E|]. apply ledger_moved; tauto || lia.
  - eapply ledger_of_cores; [apply cores_notifyCapacityChanged|].
    apply ledger_adjust; [tauto| |done]. intros c _. cbn. tauto.
  - by apply ledger_adjust.
  - by apply ledger_adjust.
  - by apply (ledger_of_cores w).
  - by apply (ledger_of_cores w); [apply cores_subscribe|].
  - by apply (ledger_of_cores w); [apply cores_reset|].
  - by apply (ledger_of_cores w); [apply cores_CapacityNotify|].
Qed.

Lemma ledger_init : ledger (World [] [] [], fun _ => 0).
Proof. split; [|done]. split; try done; cbn; intros; lia. Qed.

(** *** Exact admission *)

Definition exact (st : world * (nat -> Z)) : Prop :=
  ledger st /\ forall b, (b < length (budgets (fst st)))%nat -> charged (fst st) (snd st) b <= total (fst st) b.

Lemma int64_max z : int64 z -> - MaxInt64 - 1 <= z <= MaxInt64.
Proof. intros E. rewrite <- E. pose proof (i64_range z). unfold MaxInt64 in *. lia. Qed.

Lemma exact_used w own b :
  exact (w, own) -> (b < length (budgets w))%nat ->
  used w b = charged w own b /\ 0 <= used w b <= total w b /\ total w b <= MaxInt64.
Proof.
  intros [[H _] He] Hb. cbn [fst snd] in *. pose proof (He b Hb).
  pose proof (charged_nonneg w own b (lo_own _ _ H)).
  pose proof (int64_max _ (lo_total _ _ H b Hb)).
  assert (E : used w b = charged w own b).
  { rewrite (lo_used _ _ H) by done. apply i64_small. unfold MaxInt64 in *. lia. }
  rewrite E. lia.
Qed.

(** A state with the same tree whose charges moved by [d] within the totals. *)
Lemma exact_shift w own w' own' d :
  exact (w, own) -> ledger (w', own') -> links w' = links w ->
  (forall b, (b < length (budgets w))%nat -> charged w own' b = charged w own b + d b) ->
  (forall b, (b < length (budgets w))%nat -> used w b + d b <= total w' b) ->
  exact (w', own').
Proof.
  intros He HL El Hch Hd. split; [done|]. cbn [fst snd]. intros b Hb.
  rewrite (links_length _ _ El) in Hb. rewrite (charged_links w' w) by done. rewrite Hch by done.
  destruct (exact_used w own b He Hb) as [E _]. rewrite <- E. auto.
Qed.

Lemma fits_level_spec w n b :
  0 <= n -> int64 (total w b) ->
  fits_level w n b = true <-> n <= total w b /\ used w b + n <= total w b.
Proof.
  intros Hn Ht%int64_max. unfold fits_level. rewrite negb_true_iff, orb_false_iff, !Z.ltb_ge.
  split; intros [H1 H2]; (split; [done|]); rewrite i64_small in * by (unfold MaxInt64 in *; lia); lia.
Qed.

Lemma exact_leaf w own x :
  exact (w, own) -> ledger (set_budgets (fun l => l ++ [x]) w, own) -> 0 <= totalByteCount (cnt x) ->
  exact (set_budgets (fun l => l ++ [x]) w, own).
Proof.
  intros [[H Hf] He] HL Hx. split; [done|]. cbn [fst snd] in *. intros b Hb.
  cbn in Hb. rewrite length_app in Hb. cbn in Hb.
  rewrite charged_leaf by (apply H || by apply Hf).
  destruct (decide (b = length (budgets w))) as [->|].
  - unfold total, get. cbn. rewrite lookup_app_r, Nat.sub_diag by lia. cbn.
    unfold charged. rewrite sumZ_map_0; [done|]. intros d Hd%elem_of_seq.
    rewrite decide_False; [done|]. intros Hc%chain_le; [lia|apply H].
  - unfold total. rewrite get_app_old by lia. apply He. lia.
Qed.

Lemma exact_cores w w' own : cores w' = cores w -> exact (w, own) -> exact (w', own).
Proof.
  intros E He. apply (exact_shift w own w' own (fun _ => 0)); [done| | |lia|].
  - by apply (ledger_of_cores w); [|apply He].
  - by apply cores_links.
  - intros b Hb. rewrite Z.add_0_r. unfold total. rewrite (cores_cnt w' w) by done.
    fold (total w b). destruct (exact_used w own b He Hb). lia.
Qed.

Lemma exact_hasChildren w own r :
  exact (w, own) -> exact (set_budgets (alter set_hasChildren r) w, own).
Proof.
  intros He. apply (exact_shift w own _ own (fun _ => 0)); [done| | |lia|].
  - apply ledger_hasChildren, He.
  - by apply fmap_alter_same.
  - intros b Hb. rewrite Z.add_0_r. unfold total. rewrite cnt_get_alter by done.
    fold (total w b). destruct (exact_used w own b He Hb). lia.
Qed.

Lemma exact_chain f n w own s :
  exact (w, own) -> shifts f n -> (s < length (budgets w))%nat -> 0 <= own s + n ->
  (forall b, b ∈ chain w s -> used w b + n <= total w b) ->
  exact (fold_left (adjust f) (chain w s) w, credit own s n).
Proof.
  intros He Hf Hs Hn Hfit. pose proof (lo_wf _ _ (proj1 (proj1 He))) as Hwf. cbn in Hwf.
  apply (exact_shift w own _ _ (fun b => if decide (b ∈ chain w s) then n else 0)); [done|..].
  - apply ledger_credit; [apply He|done..].
  - by apply chain_adjust_links.
  - intros b _. by apply charged_credit.
  - intros b Hb.
    destruct (adjust_all f (chain w s) w) as [_ E2];
      [by apply chain_NoDup|intros; by apply (chain_in_range w s)|].
    unfold total. rewrite (E2 b). destruct (exact_used w own b He Hb) as (_ & ? & _).
    unfold total in *. destruct (decide _) as [Hc|]; [|lia].
    destruct (Hf (cnt (get w b))) as [-> _]. auto.
Qed.

Lemma exact_Release w own s n :
  exact (w, own) -> (s < length (budgets w))%nat -> 0 <= n <= own s ->
  exact (Release w s n, credit own s (- n)).
Proof.
  intros He Hs Hn. pose proof (lo_wf _ _ (proj1 (proj1 He))) as Hwf. cbn in Hwf.
  assert (HL : exact (fold_left (adjust (release_counters n)) (chain w s) w, credit own s (- n))).
  { apply exact_chain; [done|apply release_shifts|done|lia|]. intros b Hb.
    destruct (exact_used w own b He) as (_ & ? & _); [by apply (chain_in_range w s)|]. lia. }
  unfold Release. destruct (requiresAdmissionLock w s) eqn:E; cbn [negb];
    (eapply exact_cores; [apply cores_notifyCapacityChanged|]); [done|].
  rewrite (standalone_chain w s) in HL by done. done.
Qed.

Lemma exact_moved w own a b n :
  exact (w, own) -> (a < length (budgets w))%nat -> (b < length (budgets w))%nat -> 0 <= n <= own a ->
  (forall x, x ∈ chain w b -> x ∉ chain w a -> n <= i64 (total w x - used w x)) ->
  exact (moved w a b n, credit (credit own a (- n)) b n).
Proof.
  intros He Ha Hb Hn Hfit. pose proof (proj1 (proj1 He)) as H. cbn in H.
  destruct (moved_shifted w own a b n H Ha Hb) as [El Hs].
  apply (exact_shift w own _ _ (move_delta w a b n)); [done| |done|..].
  - apply ledger_moved; [apply He|done..].
  - intros x _. by apply charged_move.
  - intros x Hx. destruct (Hs x Hx) as [-> _]. unfold move_delta.
    destruct (exact_used w own x He Hx) as (_ & ? & ?).
    destruct (decide (x ∈ chain w b)), (decide (x ∈ chain w a)); try lia.
    pose proof (Hfit x ltac:(done) ltac:(done)) as Hi.
    rewrite i64_small in Hi by (unfold MaxInt64 in *; lia). lia.
Qed.

Lemma exact_adjust f w own s :
  exact (w, own) -> (s < length (budgets w))%nat ->
  (forall c, int64 (totalByteCount c) -> int64 (totalByteCount (f c)) /\ usedByteCount (f c) = usedByteCount c /\
     reservedByteCount (f c) = reservedByteCount c /\ releasedByteCount (f c) = releasedByteCount c) ->
  used w s <= totalByteCount (f (cnt (get w s))) -> exact (adjust f w s, own).
Proof.
  intros He Hs Hf Hle. apply (exact_shift w own _ _ (fun _ => 0)); [done| | |lia|].
  - by apply ledger_adjust; [..|apply He].
  - apply adjust_links.
  - intros x Hx. unfold total. rewrite adjust_cnt by done.
    destruct (exact_used w own x He Hx) as (_ & ? & _).
    destruct (decide (x = s)) as [->|]; unfold total in *; lia.
Qed.

Lemma run_exact st o : exact st -> op_ok st o -> op_exact st o -> exact (run o st).
Proof.
  destruct st as [w own]. intros He Hok Hex. pose proof (run_ledger _ _ (proj1 He) Hok) as HL.
  destruct o; cbn [run op_ok op_exact fst] in *.
  - by apply exact_leaf.
  - refine (exact_leaf (set_budgets (alter set_hasChildren (admissionRoot w p)) w) own
      (Budget (Some p) (Some (admissionRoot w p)) false (Counters _ 0 0 0 0) None (WaitList None None 0)) _ HL Hex).
    by apply exact_hasChildren.
  - unfold TryReserve, tryReserveWithLock in *. destruct (Z.ltb_spec n 0); [done|].
    destruct (forallb _ _) eqn:E; [|done]. pose proof (proj1 (proj1 He)) as HO. cbn in HO.
    pose proof (lo_own _ _ HO b). apply exact_chain; [done|apply reserve_shifts|tauto|lia|].
    intros x Hx. rewrite forallb_forall in E. apply list_elem_of_In in Hx as Hx'.
    apply E, fits_level_spec in Hx'; [lia|lia|]. apply HO. apply (chain_in_range w b); [apply HO|tauto|done].
  - done.
  - apply exact_Release; tauto.
  - destruct (tryMove_cases w a b n) as [E|(Hn & _ & _ & Hfit & w' & E & Ec)]; rewrite E in *; [done|].
    eapply exact_cores; [exact Ec|]. apply exact_moved; tauto || lia.
  - eapply exact_cores; [apply cores_notifyCapacityChanged|].
    apply exact_adjust; [done|tauto|cbn; tauto|]. destruct Hok as [Hb Hn].
    destruct (exact_used w own b He Hb) as (_ & ? & _). cbn. lia.
  - apply exact_adjust; [done|done|done|]. destruct (exact_used w own b He Hok) as (_ & ? & _). cbn. apply H.
  - apply exact_adjust; [done|done|done|]. destruct (exact_used w own b He Hok) as (_ & ? & _). cbn. apply H.
  - by apply (exact_cores w).
  - by apply (exact_cores w); [apply cores_subscribe|].
  - by apply (exact_cores w); [apply cores_reset|].
  - by apply (exact_cores w); [apply cores_CapacityNotify|].
Qed.

(** ** Claims *)

Lemma reach_ledger st : reach op_ok st -> ledger st.
Proof. induction 1; [apply ledger_init|]. by apply run_ledger. Qed.

Lemma reach_exact st : reach (fun st o => op_ok st o /\ op_exact st o) st -> exact st.
Proof.
  induction 1 as [|st o _ IH [H1 H2]]; [|by apply run_exact].
  split; [apply ledger_init|]. cbn. intros; lia.
Qed.

(** C28: After any sequence of budget operations (reserves with overdraft,
    exact reserves, releases, moves, resizes, new children, waiters), the used
    count of every budget is what is owned at it and below it in the tree, in
    64-bit arithmetic, and equals the cumulative reserved minus released
    count; once nothing is owned, every budget is back at zero. *)
Theorem budget_ledger st b :
  reach op_ok st -> (b < length (budgets (fst st)))%nat ->
  used (fst st) b = i64 (charged (fst st) (snd st) b) /\
  used (fst st) b = i64 (fst (Counts (fst st) b) - snd (Counts (fst st) b)) /\
  ((forall d, snd st d = 0) -> used (fst st) b = 0).
Proof.
  intros [H _]%reach_ledger Hb. split; [by apply H|]. split; [by apply H|].
  intros Hz. rewrite (lo_used _ _ H) by done. unfold charged.
  rewrite sumZ_map_0; [done|]. intros d _. rewrite Hz. by destruct (decide _).
Qed.

Definition demo_ops : list op :=
  [ONew 100; OChild 60 0; OTry 1 40; OReserve 0 70; ORelease 1 10; OMove 1 0 30].
Definition demo_init : world * (nat -> Z) := (World [] [] [], fun _ => 0).
Definition demo_st (l : list op) : world * (nat -> Z) := fold_left (fun st o => run o st) l demo_init.

Lemma budget_ledger_witness :
  let st := demo_st demo_ops in used (fst st) 0 = i64 (charged (fst st) (snd st) 0) /\ used (fst st) 0 = 100.
Proof.
  cbv zeta. split; [|vm_compute; reflexivity].
  refine (proj1 (budget_ledger (demo_st demo_ops) 0%nat _ _)); [|vm_compute; lia].
  unfold demo_st, demo_ops. cbn [fold_left].
  repeat (apply reach_step; [|vm_compute; repeat split; (lia || congruence || reflexivity)]).
  apply reach_init.
Defined.

(** When bytes enter only through TryReserve and moves, and no total is
    set below what is used, no budget of any tree ever holds more than its
    total: at every level the bytes owned at it and below it are exactly its
    used count, which lies between zero and the total. *)
Theorem budget_exact_admission st b :
  reach (fun st o => op_ok st o /\ op_exact st o) st -> (b < length (budgets (fst st)))%nat ->
  used (fst st) b = charged (fst st) (snd st) b /\ 0 <= used (fst st) b <= total (fst st) b.
Proof.
  intros He%reach_exact Hb. destruct st as [w own].
  destruct (exact_used w own b He Hb) as (E & Hu & _). done.
Qed.

Definition demo_exact_ops : list op :=
  [ONew 100; OChild 60 0; OTry 1 40; OTry 1 30; OTry 0 50; OMove 1 0 30; OTry 1 20; OSetTotal 0 120].

Lemma demo_exact_reach :
  reach (fun st o => op_ok st o /\ op_exact st o) (demo_st demo_exact_ops).
Proof.
  unfold demo_st, demo_exact_ops. cbn [fold_left].
  repeat (apply reach_step; [|vm_compute; repeat split; (lia || congruence || reflexivity)]).
  apply reach_init.
Qed.

Lemma budget_exact_admission_witness :
  let st := demo_st demo_exact_ops in
  used (fst st) 0 = charged (fst st) (snd st) 0 /\ 0 <= used (fst st) 0 <= total (fst st) 0.
Proof.
  cbv zeta. refine (budget_exact_admission (demo_st demo_exact_ops) 0%nat demo_exact_reach _).
  vm_compute. lia.
Defined.

(** TryReserve is all or nothing over the chain of ancestors: it succeeds
    exactly when the request is not negative and fits within the total and
    the unreserved remainder of the budget and of every ancestor; then each
    of them, and no other budget, is charged, and otherwise nothing changes. *)
Theorem budget_try_reserve w self n :
  tree_wf w -> (self < length (budgets w))%nat ->
  (forall b, (b < length (budgets w))%nat -> int64 (total w b) /\ int64 (used w b)) ->
  exists w' ok, TryReserve w self n = (w', ok) /\
    (ok = true <-> 0 <= n /\ forall b, b ∈ chain w self -> n <= total w b /\ used w b + n <= total w b) /\
    (ok = false -> w' = w) /\
    (ok = true -> forall b, total w' b = total w b /\
       used w' b = used w b + (if decide (b ∈ chain w self) then n else 0)).
Proof.
  intros Hwf Hs Hint. unfold TryReserve, tryReserveWithLock.
  destruct (Z.ltb_spec n 0); [eexists _, _; split; [done|]; split; [split; [done|lia]|done]|].
  assert (Hfit : forallb (fits_level w n) (chain w self) = true <->
                 forall b, b ∈ chain w self -> n <= total w b /\ used w b + n <= total w b).
  { rewrite forallb_forall. split; intros HF b Hb.
    - apply fits_level_spec; [done|apply Hint; by apply (chain_in_range w self)|].
      by apply HF, list_elem_of_In.
    - apply list_elem_of_In in Hb. apply fits_level_spec; [done|apply Hint; by apply (chain_in_range w self)|auto]. }
  destruct (forallb _ _) eqn:E; eexists _, _; (split; [done|]).
  - split; [tauto|]. split; [done|]. intros _ b.
    destruct (adjust_all (reserve_counters n) (chain w self) w) as [_ E2];
      [by apply chain_NoDup|intros; by apply (chain_in_range w self)|].
    change (reserveLevel n) with (adjust (reserve_counters n)). unfold total, used. rewrite (E2 b).
    destruct (decide (b ∈ chain w self)) as [Hb|]; [|split; [done|lia]]. cbn. split; [done|].
    apply i64_small. destruct (proj1 Hfit eq_refl b Hb).
    destruct (Hint b) as [?%int64_max ?%int64_max]; [by apply (chain_in_range w self)|].
    unfold used, total, MaxInt64 in *. lia.
  - split; [split; [done|]|done]. intros [_ HF]. apply Hfit in HF. congruence.
Qed.

Lemma budget_try_reserve_witness :
  exists w' ok, TryReserve (fst (demo_st demo_exact_ops)) 1 35 = (w', ok) /\ ok = false.
Proof.
  destruct (budget_try_reserve (fst (demo_st demo_exact_ops)) 1 35) as (w' & ok & E & H & _).
  - apply (lo_wf _ _ (proj1 (proj1 (reach_exact _ demo_exact_reach)))).
  - vm_compute. lia.
  - intros [|[|b]] Hb; [done|done|]. vm_compute in Hb. lia.
  - exists w', ok. split; [exact E|]. destruct ok; [|reflexivity].
    destruct (proj2 (proj1 H eq_refl) 0%nat) as [_ Hu]; [apply (bool_decide_eq_true_1 _); vm_compute; reflexivity|].
    exfalso. apply Hu. vm_compute. reflexivity.
Defined.

(** A move of an owned claim inside one tree changes the used counts by
    [n] down exactly on the source's levels and up exactly on the target's;
    levels common to both keep their charge, and every level that grew still
    has room. A refused move changes nothing. *)
Theorem budget_move w own a b n :
  ledger_ok w own -> (a < length (budgets w))%nat -> (b < length (budgets w))%nat ->
  exists w' ok, tryMoveReservation w (Some a) (Some b) n = (w', ok) /\
    (ok = false -> w' = w) /\
    (ok = true -> 0 <= n /\ forall x, (x < length (budgets w))%nat ->
       total w' x = total w x /\
       (x ∈ chain w a -> x ∈ chain w b -> used w' x = used w x) /\
       (x ∈ chain w a -> x ∉ chain w b -> used w' x = i64 (used w x - n) /\ n <= used w x) /\
       (x ∉ chain w a -> x ∈ chain w b -> used w' x = i64 (used w x + n) /\ n <= i64 (total w x - used w x)) /\
       (x ∉ chain w a -> x ∉ chain w b -> used w' x = used w x)).
Proof.
  intros H Ha Hb. destruct (tryMove_cases w a b n) as [E|(Hn & _ & Hu & Hf & w' & E & Ec)]; rewrite E.
  { exists w, false. done. }
  exists w', true. split; [done|]. split; [done|]. intros _. split; [done|]. intros x Hx.
  destruct (moved_shifted w own a b n H Ha Hb) as [_ Hs].
  destruct (Hs x Hx) as (Et & Eu & _).
  assert (Et' : total w' x = total w x) by (unfold total; rewrite (cores_cnt w' _ x Ec); exact Et).
  assert (Eu' : used w' x = i64 (used w x + move_delta w a b n x))
    by (rewrite <- Eu; unfold used; by rewrite (cores_cnt w' _ x Ec)).
  rewrite Et', Eu'. unfold move_delta.
  assert (Hi : i64 (used w x + 0) = used w x) by (by rewrite Z.add_0_r, (lo_used _ _ H), i64_idem).
  split; [done|].
  destruct (decide (x ∈ chain w a)), (decide (x ∈ chain w b));
    rewrite ?Z.sub_diag, ?Z.sub_0_l, ?Z.sub_0_r, ?Hi, ?Z.add_opp_r;
    (split; [|split; [|split]]); intros; try contradiction; auto.
Qed.

Lemma budget_move_witness :
  exists w' ok, tryMoveReservation (fst (demo_st demo_exact_ops)) (Some 1%nat) (Some 0%nat) 10 = (w', ok) /\
    ok = true /\ used w' 0 = 90.
Proof.
  destruct (budget_move (fst (demo_st demo_exact_ops)) (snd (demo_st demo_exact_ops)) 1 0 10)
    as (w' & ok & E & _ & H).
  - apply (proj1 (proj1 (reach_exact _ demo_exact_reach))).
  - vm_compute. lia.
  - vm_compute. lia.
  - assert (Hok : ok = true) by (apply (f_equal snd) in E; vm_compute in E; congruence).
    exists w', ok. split; [exact E|]. split; [exact Hok|].
    destruct (H Hok) as [_ Hx]. destruct (Hx 0%nat) as (_ & Hu & _); [vm_compute; lia|].
    etransitivity; [apply Hu; apply (bool_decide_eq_true_1 _); vm_compute; reflexivity|]. vm_compute. reflexivity.
Defined.
