(* ===== verification/CapacityWait.v ===== *)
(** The admission waiters of src/transfer_memory_budget.go: the intrusive
    doubly linked list a root budget keeps is a FIFO queue, and a notification
    pass over it wakes only waiters the free capacity can satisfy, without
    letting a later waiter take capacity an earlier one is waiting for. *)
From S2P Require Import Prelude MemoryBudget.

(** ** The intrusive list *)

Lemma lookup_alter_dec {A} (f : A -> A) (i j : nat) (l : list A) :
  alter f i l !! j = if decide (j = i) then f <$> l !! j else l !! j.
Proof.
  destruct (decide (j = i)) as [->|]; [apply list_lookup_alter_eq|by apply list_lookup_alter_ne].
Qed.

(** Node [k] of the list [l]. *)
Definition node (w : world) (l : list nat) (k i : nat) : Prop :=
  exists x, waiters w !! i = Some x /\ registered x = true /\
    previousCapacityWaiter x = match k with O => None | S k => l !! k end /\
    nextCapacityWaiter x = l !! S k.

(** Root [r]'s waiters are the list [l], oldest first. *)
Record wait_list (w : world) (r : nat) (l : list nat) : Prop := {
  wl_root : (r < length (budgets w))%nat;
  wl_nodup : NoDup l;
  wl_head : capacityWaitHead (waits (get w r)) = l !! 0%nat;
  wl_tail : capacityWaitTail (waits (get w r)) = match length l with O => None | S k => l !! k end;
  wl_count : capacityWaiterCount (waits (get w r)) = i64 (Z.of_nat (length l));
  wl_node : forall k i, l !! k = Some i -> node w l k i;
}.

Lemma waits_upd_waits w r f :
  (r < length (budgets w))%nat -> waits (get (upd_waits r f w) r) = f (waits (get w r)).
Proof.
  intros [b Hb]%lookup_lt_is_Some_2. unfold get, upd_waits. cbn.
  by rewrite list_lookup_alter_eq, Hb.
Qed.

Lemma length_upd_waits w r f : length (budgets (upd_waits r f w)) = length (budgets w).
Proof. apply length_alter. Qed.

Lemma get_upd_waiter w i f r : get (upd_waiter i f w) r = get w r.
Proof. done. Qed.

Ltac waits_simpl :=
  repeat (rewrite get_upd_waiter || rewrite waits_upd_waits by (cbn; rewrite ?length_alter; done)).

(** What removal does, field by field. *)
Lemma remove_waits w r i x :
  (r < length (budgets w))%nat -> waiters w !! i = Some x -> registered x = true ->
  let q := waits (get w r) in
  waits (get (removeCapacityWaiterWithLock w r i) r) =
    WaitList (match previousCapacityWaiter x with None => nextCapacityWaiter x | Some _ => capacityWaitHead q end)
             (match nextCapacityWaiter x with None => previousCapacityWaiter x | Some _ => capacityWaitTail q end)
             (i64 (capacityWaiterCount q + -1)).
Proof.
  intros Hr Hx Hreg q. unfold removeCapacityWaiterWithLock. rewrite Hx, Hreg. cbn [negb].
  destruct (previousCapacityWaiter x), (nextCapacityWaiter x); cbv zeta; by waits_simpl.
Qed.

Lemma remove_waiters w r i x j :
  waiters w !! i = Some x -> registered x = true ->
  waiters (removeCapacityWaiterWithLock w r i) !! j =
    (fun y =>
       let y := if decide (previousCapacityWaiter x = Some j) then set_next (nextCapacityWaiter x) y else y in
       let y := if decide (nextCapacityWaiter x = Some j) then set_prev (previousCapacityWaiter x) y else y in
       if decide (j = i) then set_registered false (set_next None (set_prev None y)) else y)
    <$> waiters w !! j.
Proof.
  intros Hx Hreg. unfold removeCapacityWaiterWithLock. rewrite Hx, Hreg. cbn [negb].
  destruct (previousCapacityWaiter x) as [p|], (nextCapacityWaiter x) as [n|]; cbv zeta;
    unfold upd_waiter, upd_waits; cbn [set_budgets set_waiters waiters]; rewrite !lookup_alter_dec;
    destruct (waiters w !! j) as [y|]; repeat (destruct (decide _)); simplify_eq; cbn; try done.
Qed.

(** The predecessor of position [k]. *)
Definition before (l : list nat) (k : nat) : option nat := match k with O => None | S k => l !! k end.

Lemma lookup_mid {A} (l1 l2 : list A) i k :
  (l1 ++ i :: l2) !! k = if decide (k < length l1)%nat then l1 !! k
                         else if decide (k = length l1) then Some i else l2 !! (k - S (length l1))%nat.
Proof.
  destruct (decide _); [by rewrite lookup_app_l|].
  destruct (decide _) as [->|]; [by rewrite lookup_app_r, Nat.sub_diag by lia|].
  rewrite lookup_app_r by lia. by replace (k - length l1)%nat with (S (k - S (length l1))) by lia.
Qed.

Lemma lookup_app_dec {A} (l1 l2 : list A) k :
  (l1 ++ l2) !! k = if decide (k < length l1)%nat then l1 !! k else l2 !! (k - length l1)%nat.
Proof. destruct (decide _); [by rewrite lookup_app_l|by rewrite lookup_app_r by lia]. Qed.

(** The nodes left after a removal are linked around the removed one. *)
Lemma remove_nodes w r l1 i l2 :
  wait_list w r (l1 ++ i :: l2) ->
  forall k j, (l1 ++ l2) !! k = Some j -> node (removeCapacityWaiterWithLock w r i) (l1 ++ l2) k j.
Proof.
  intros [Hr Hnd Hh Ht Hc Hn]. set (l := l1 ++ i :: l2) in *.
  assert (Hi : l !! length l1 = Some i) by (by apply list_lookup_middle).
  destruct (Hn _ _ Hi) as (x & Hx & Hreg & Hp & Hnx). fold (before l (length l1)) in Hp.
  assert (Hpos : forall k j, l !! k = Some j ->
            (before l (length l1) = Some j <-> S k = length l1) /\ (l !! S (length l1) = Some j <-> k = S (length l1))).
  { intros k j Hk. split; (split; [intros E|intros E]).
    - destruct (length l1) as [|n]; [done|]. cbn in E. f_equal. by eapply NoDup_lookup.
    - rewrite <- E. done.
    - by eapply NoDup_lookup.
    - by rewrite <- E. }
  intros k j Hk. unfold node. rewrite (remove_waiters w r i x j) by done.
  rewrite lookup_app_dec in Hk. destruct (decide (k < length l1)%nat) as [Hlt|Hge].
  - assert (Hk' : l !! k = Some j) by (unfold l; by rewrite lookup_app_l).
    destruct (Hn k j Hk') as (y & Hy & Hyr & Hyp & Hyn). destruct (Hpos k j Hk') as [P1 P2].
    rewrite Hy. eexists. split; [done|]. cbv zeta. rewrite Hp, Hnx.
    rewrite (decide_False (P := j = i)) by (intros ->; pose proof (NoDup_lookup _ _ _ _ Hnd Hk' Hi); lia).
    rewrite (decide_False (P := l !! S (length l1) = Some j)) by (rewrite P2; lia).
    destruct (decide (before l (length l1) = Some j)) as [E|E]; rewrite P1 in E; cbn; rewrite ?Hyp, ?Hyn.
    + split; [done|]. split.
      * destruct k; [done|]. unfold l. by rewrite !lookup_app_l by lia.
      * rewrite <- E in Hnx |- *. unfold l. rewrite E. rewrite lookup_mid, !decide_False by lia.
         rewrite (lookup_app_r l1) by lia. f_equal; lia.
    + split; [done|]. split.
      * destruct k; [done|]. unfold l. by rewrite !lookup_app_l by lia.
      * unfold l. by rewrite !lookup_app_l by lia.
  - assert (Hk' : l !! S k = Some j).
    { unfold l. rewrite lookup_mid, !decide_False by lia. rewrite <- Hk. f_equal; lia. }
    destruct (Hn (S k) j Hk') as (y & Hy & Hyr & Hyp & Hyn). destruct (Hpos (S k) j Hk') as [P1 P2].
    rewrite Hy. eexists. split; [done|]. cbv zeta. rewrite Hp, Hnx.
    rewrite (decide_False (P := j = i)) by (intros ->; pose proof (NoDup_lookup _ _ _ _ Hnd Hk' Hi); lia).
    rewrite (decide_False (P := before l (length l1) = Some j)) by (rewrite P1; lia).
    assert (Enext : l !! S (S k) = (l1 ++ l2) !! S k).
    { unfold l. rewrite lookup_mid, !decide_False by lia. rewrite lookup_app_r by lia. f_equal; lia. }
    destruct (decide (l !! S (length l1) = Some j)) as [E|E]; rewrite P2 in E; cbn; rewrite ?Hyp, ?Hyn, ?Enext.
    + split; [done|]. split; [|done]. assert (k = length l1) as -> by lia. unfold before, l.
      destruct (length l1) eqn:E1; [done|]. by rewrite !lookup_app_l by lia.
    + split; [done|]. split; [|done]. destruct k; [lia|].
      unfold l. rewrite lookup_mid, !decide_False by lia. rewrite lookup_app_r by lia. f_equal; lia.
Qed.

Lemma wait_list_remove w r l1 i l2 :
  wait_list w r (l1 ++ i :: l2) -> wait_list (removeCapacityWaiterWithLock w r i) r (l1 ++ l2).
Proof.
  intros Hwl. pose proof Hwl as [Hr Hnd Hh Ht Hc Hn]. set (l := l1 ++ i :: l2) in *.
  assert (Hi : l !! length l1 = Some i) by (by apply list_lookup_middle).
  destruct (Hn _ _ Hi) as (x & Hx & Hreg & Hp & Hnx). fold (before l (length l1)) in Hp.
  pose proof (cores_length _ _ (cores_remove w r i)) as Elen.
  split; [by rewrite Elen| |..].
  - unfold l in Hnd. apply list.NoDup_app in Hnd as (H1 & H2 & H3). apply list.NoDup_cons in H3 as [H3 H4].
    apply list.NoDup_app. split; [done|]. split; [set_solver|done].
  - rewrite (remove_waits w r i x) by done. cbn [capacityWaitHead]. rewrite Hp, Hnx, Hh.
    unfold l. destruct l1 as [|a l1]; [done|]. cbn [length before].
    destruct (lookup_lt_is_Some_2 ((a :: l1) ++ i :: l2) (length l1)) as [y ->]; [rewrite length_app; cbn; lia|done].
  - rewrite (remove_waits w r i x) by done. cbn [capacityWaitTail]. rewrite Hp, Hnx, Ht.
    unfold l. rewrite !length_app. cbn [length]. rewrite lookup_mid, !decide_False by lia.
    rewrite Nat.sub_diag. destruct l2 as [|b l2].
    + cbn [length lookup list_lookup]. rewrite Nat.add_0_r, app_nil_r. unfold before.
      destruct (length l1) eqn:E; [done|]. by rewrite lookup_app_l by lia.
    + cbn [length lookup list_lookup]. replace (length l1 + S (S (length l2)))%nat with (S (S (length l1 + length l2))) by lia.
      replace (length l1 + S (length l2))%nat with (S (length l1 + length l2)) by lia.
      rewrite lookup_mid, !decide_False by lia. rewrite lookup_app_r by lia. f_equal; lia.
  - rewrite (remove_waits w r i x) by done. cbn [capacityWaiterCount]. rewrite Hc, i64_i64_add.
    unfold l. rewrite !length_app. cbn [length]. f_equal; lia.
  - by apply remove_nodes.
Qed.

Lemma add_waiters w b i x j :
  waiters w !! i = Some x -> registered x = false ->
  let t := capacityWaitTail (waits (get w (admissionRoot w b))) in
  t <> Some i ->
  waiters (addCapacityWaiter w b i) !! j =
    (fun y => if decide (j = i) then set_registered true (set_next None (set_prev t y))
              else if decide (t = Some j) then set_next (Some i) y else y)
    <$> waiters w !! j.
Proof.
  intros Hx Hreg t Ht. unfold addCapacityWaiter. rewrite Hx, Hreg. fold t.
  destruct t as [t0|]; cbv zeta;
    unfold upd_waiter, upd_waits; cbn [set_budgets set_waiters waiters]; rewrite !lookup_alter_dec;
    destruct (waiters w !! j) as [y|]; repeat (destruct (decide _)); simplify_eq; cbn; try done.
Qed.

Lemma add_waits w b i x :
  waiters w !! i = Some x -> registered x = false ->
  let r := admissionRoot w b in
  let q := waits (get w r) in
  (r < length (budgets w))%nat ->
  waits (get (addCapacityWaiter w b i) r) =
    WaitList (match capacityWaitTail q with None => Some i | Some _ => capacityWaitHead q end)
             (Some i) (i64 (capacityWaiterCount q + 1)).
Proof.
  intros Hx Hreg r q Hr. unfold addCapacityWaiter. rewrite Hx, Hreg. fold r. fold q.
  destruct (capacityWaitTail q); cbv zeta; by waits_simpl.
Qed.

Lemma wait_list_add w b i x l :
  wait_list w (admissionRoot w b) l -> waiters w !! i = Some x -> registered x = false ->
  wait_list (addCapacityWaiter w b i) (admissionRoot w b) (l ++ [i]).
Proof.
  intros [Hr Hnd Hh Ht Hc Hn] Hx Hreg. set (r := admissionRoot w b) in *.
  assert (Hi : i ∉ l).
  { intros [k Hk]%list_elem_of_lookup_1. destruct (Hn k i Hk) as (y & Hy & Hyr & _). congruence. }
  assert (Hti : capacityWaitTail (waits (get w r)) <> Some i).
  { rewrite Ht. destruct (length l); [done|]. intros E. by apply Hi, (list_elem_of_lookup_2 _ _ _ E). }
  pose proof (add_waits w b i x Hx Hreg Hr) as Hq. fold r in Hq. cbv zeta in Hq.
  split.
  - by rewrite (cores_length _ _ (cores_add w b i)).
  - apply list.NoDup_app. split; [done|]. split; [|apply NoDup_singleton]. set_solver.
  - rewrite Hq. cbn. rewrite Ht, Hh.
    destruct l as [|a l]; [done|]. cbn [length].
    destruct (lookup_lt_is_Some_2 (a :: l) (length l)) as [y ->]; [cbn; lia|done].
  - rewrite Hq. cbn. rewrite length_app, Nat.add_1_r.
    by rewrite list_lookup_middle.
  - rewrite Hq. cbn. rewrite Hc, i64_i64_add, length_app. cbn. f_equal; lia.
  - intros k j Hk. unfold node. rewrite (add_waiters w b i x j Hx Hreg Hti). fold r.
    rewrite lookup_app_dec in Hk. destruct (decide (k < length l)%nat) as [Hlt|Hge].
    + destruct (Hn k j Hk) as (y & Hy & Hyr & Hyp & Hyn). rewrite Hy.
      eexists. split; [done|]. cbv beta.
      rewrite decide_False by (intros ->; by apply Hi, (list_elem_of_lookup_2 _ _ _ Hk)).
      assert (Hprev : previousCapacityWaiter y = match k with O => None | S k => (l ++ [i]) !! k end).
      { rewrite Hyp. destruct k; [done|]. by rewrite lookup_app_l by lia. }
      destruct (decide (S k = length l)) as [E|E].
      * rewrite decide_True; [cbn|by rewrite Ht, <- E].
        split; [done|]. split; [done|]. rewrite E. by rewrite list_lookup_middle.
      * rewrite decide_False; [|rewrite Ht; destruct (length l) as [|n] eqn:El; [done|]; intros E2;
          pose proof (NoDup_lookup _ _ _ _ Hnd Hk E2); lia].
        split; [done|]. split; [done|]. rewrite Hyn. by rewrite lookup_app_l by lia.
    + apply list_lookup_singleton_Some in Hk as [Hk <-]. assert (k = length l) as -> by lia.
      rewrite Hx. eexists. split; [done|]. cbv beta. rewrite decide_True by done. cbn. rewrite Ht.
      split; [done|]. split.
      * destruct l as [|a l]; [done|]. cbn [length]. rewrite lookup_app_l by (cbn; lia). done.
      * symmetry. apply lookup_ge_None_2. rewrite length_app. cbn. lia.
Qed.

(** ** A pass, waiter by waiter *)

Inductive outcome :=
| Woken       (* left the list with a new token *)
| Dropped     (* left the list; its token was already pending *)
| Kept.

#[export] Instance outcome_eq_dec : EqDecision outcome.
Proof. solve_decision. Defined.

Definition req (x : waiter) : Z := Z.max 0 (requiredByteCount x).
Definition eligible (w : world) (s : gmap nat waitScratch) (x : waiter) : bool :=
  forallb (fun b => negb (headroom w s b <? req x)) (waiter_chain w x).
Definition held (w : world) (s : gmap nat waitScratch) (x : waiter) : bool :=
  existsb (fun b => blocked (scratch_get s b)) (waiter_chain w x).
Definition impossible (w : world) (x : waiter) : bool :=
  existsb (fun b => total w b <? req x) (waiter_chain w x).

Definition settle (w : world) (s : gmap nat waitScratch) (x : waiter) : outcome * gmap nat waitScratch :=
  if eligible w s x && (negb (held w s x) || (req x =? 0)) then
    if token x then (Dropped, s) else (Woken, fold_left (grant (req x)) (waiter_chain w x) s)
  else if negb (eligible w s x) && negb (held w s x) && negb (impossible w x)
  then (Kept, fold_left (hold w (req x)) (waiter_chain w x) s)
  else (Kept, s).

Fixpoint settle_all (w : world) (s : gmap nat waitScratch) (l : list nat) : list (nat * outcome) :=
  match l with
  | [] => []
  | i :: l =>
      match waiters w !! i with
      | Some x => let '(o, s) := settle w s x in (i, o) :: settle_all w s l
      | None => []
      end
  end.

Definition kept (os : list (nat * outcome)) : list nat := (filter (fun p => p.2 = Kept) os).*1.

(** The fields a decision reads. *)
Definition data (x : waiter) : bool * option nat * Z := (token x, wbudget x, requiredByteCount x).

Lemma headroom_cores w w' s b : cores w = cores w' -> headroom w s b = headroom w' s b.
Proof. intros E. unfold headroom, total, used. by rewrite (cores_cnt w w'). Qed.

Lemma hold_cores w w' n l s :
  cores w = cores w' -> fold_left (hold w n) l s = fold_left (hold w' n) l s.
Proof.
  intros E. revert s. induction l as [|b l IH]; intros s; [done|]. cbn.
  unfold hold at 2 4. rewrite (headroom_cores w w') by done. apply IH.
Qed.

Lemma settle_ext w w' s x x' : cores w = cores w' -> data x = data x' -> settle w s x = settle w' s x'.
Proof.
  intros E. unfold data. intros [= Et Eb Er]. unfold settle, eligible, held, impossible, req, waiter_chain.
  rewrite Et, Eb, Er. destruct (wbudget x') as [b|]; [|done]. rewrite (cores_chain w w') by done.
  assert (E1 : forallb (fun b => negb (headroom w s b <? Z.max 0 (requiredByteCount x'))) (chain w' b) =
               forallb (fun b => negb (headroom w' s b <? Z.max 0 (requiredByteCount x'))) (chain w' b)).
  { induction (chain w' b) as [|c cs IH]; [done|]. cbn [forallb].
    rewrite (headroom_cores w w') by done. by rewrite IH. }
  assert (E2 : existsb (fun b => total w b <? Z.max 0 (requiredByteCount x')) (chain w' b) =
               existsb (fun b => total w' b <? Z.max 0 (requiredByteCount x')) (chain w' b)).
  { clear E1. induction (chain w' b) as [|c cs IH]; [done|]. cbn [existsb].
    unfold total at 1 3. rewrite (cores_cnt w w') by done. by rewrite IH. }
  by rewrite E1, E2, (hold_cores w w').
Qed.

Lemma settle_all_ext w w' s l :
  cores w = cores w' -> (forall i, i ∈ l -> data <$> waiters w !! i = data <$> waiters w' !! i) ->
  settle_all w s l = settle_all w' s l.
Proof.
  intros E. revert s. induction l as [|i l IH]; intros s Hd; [done|]. cbn [settle_all].
  pose proof (Hd i ltac:(set_solver)) as Hi.
  destruct (waiters w !! i) as [x|], (waiters w' !! i) as [x'|]; try done. cbn [fmap option_fmap option_map] in Hi.
  injection Hi as H1 H2 H3. rewrite (settle_ext w w' s x x') by (done || unfold data; congruence).
  destruct (settle w' s x'). f_equal. apply IH. intros j Hj. apply Hd. set_solver.
Qed.

Lemma remove_data w r i j : data <$> waiters (removeCapacityWaiterWithLock w r i) !! j = data <$> waiters w !! j.
Proof.
  destruct (waiters w !! i) as [x|] eqn:Hx; [|unfold removeCapacityWaiterWithLock; by rewrite Hx].
  destruct (registered x) eqn:Hr; [|unfold removeCapacityWaiterWithLock; by rewrite Hx, Hr].
  rewrite (remove_waiters w r i x) by done. destruct (waiters w !! j) as [y|]; [|done]. cbn.
  f_equal. repeat (destruct (decide _)); done.
Qed.

(** [passWaiter] is [settle] on the decision, and list removal or nothing. *)
Lemma passWaiter_settle w r s i x :
  passWaiter w r s i x =
    match settle w s x with
    | (Woken, s) => (upd_waiter i (set_token true) (removeCapacityWaiterWithLock w r i), s)
    | (Dropped, s) => (removeCapacityWaiterWithLock w r i, s)
    | (Kept, s) => (w, s)
    end.
Proof.
  unfold passWaiter, settle. fold (req x) (eligible w s x) (held w s x) (impossible w x).
  cbv zeta. destruct (_ && _); [by destruct (token x)|]. by destruct (_ && _).
Qed.

Lemma wait_list_token w r l i t : wait_list w r l -> wait_list (upd_waiter i (set_token t) w) r l.
Proof.
  intros [Hr Hnd Hh Ht Hc Hn]. split; try done. intros k j Hk.
  destruct (Hn k j Hk) as (y & Hy & H1 & H2 & H3). unfold node, upd_waiter. cbn.
  rewrite lookup_alter_dec, Hy. destruct (decide _); [|by exists y]. by eexists.
Qed.

(** The waiter store after outcomes [os]: a token for each woken waiter. *)
Definition settled (w w' : world) (os : list (nat * outcome)) : Prop :=
  forall j, data <$> waiters w' !! j =
    (fun y => (token y || bool_decide ((j, Woken) ∈ os), wbudget y, requiredByteCount y)) <$> waiters w !! j.

Lemma settle_all_fst w s l :
  (forall i, i ∈ l -> is_Some (waiters w !! i)) -> (settle_all w s l).*1 = l.
Proof.
  revert s. induction l as [|i l IH]; intros s Hl; [done|]. cbn.
  destruct (Hl i) as [x ->]; [set_solver|]. destruct (settle w s x). cbn. f_equal. apply IH. set_solver.
Qed.

Lemma wait_list_Some w r l i : wait_list w r l -> i ∈ l -> is_Some (waiters w !! i).
Proof.
  intros H [k Hk]%list_elem_of_lookup_1. destruct (wl_node _ _ _ H k i Hk) as (x & -> & _). eauto.
Qed.

(** One waiter at the cursor: [l1] are the waiters kept so far. *)
Lemma passWaiter_spec w r s l1 i l2 x w' s' :
  wait_list w r (l1 ++ i :: l2) -> waiters w !! i = Some x -> passWaiter w r s i x = (w', s') ->
  exists o, settle w s x = (o, s') /\ cores w' = cores w /\
    wait_list w' r (match o with Kept => l1 ++ i :: l2 | _ => l1 ++ l2 end) /\ settled w w' [(i, o)].
Proof.
  intros Hl Hx Hp. pose proof (cores_passWaiter w r s i x) as Hc. rewrite Hp in Hc. cbn in Hc.
  rewrite passWaiter_settle in Hp. destruct (settle w s x) as [o s1] eqn:Hs.
  pose proof (wait_list_remove _ _ _ _ _ Hl) as Hl'.
  assert (Hnone : forall j p : nat, bool_decide ((j, Woken) ∈ [(p, Dropped)]) = false /\ bool_decide ((j, Woken) ∈ [(p, Kept)]) = false).
  { intros j p. split; apply bool_decide_eq_false; set_solver. }
  destruct o; injection Hp as <- <-; eexists; (split; [done|]); (split; [done|]).
  - split; [by apply wait_list_token|]. intros j. unfold upd_waiter. cbn [set_waiters waiters].
    rewrite lookup_alter_dec. pose proof (remove_data w r i j) as Hd.
    destruct (decide (j = i)) as [->|].
    + rewrite bool_decide_eq_true_2 by set_solver.
      destruct (waiters (removeCapacityWaiterWithLock w r i) !! i) as [y|], (waiters w !! i) as [z|]; try done.
      cbn in *. unfold data in *. injection Hd as H1 H2 H3. cbn. rewrite H2, H3, orb_true_r. done.
    + rewrite bool_decide_eq_false_2 by set_solver. rewrite Hd.
      destruct (waiters w !! j) as [z|]; [|done]. cbn. by rewrite orb_false_r.
  - split; [done|]. intros j. rewrite remove_data, (proj1 (Hnone j i)).
    destruct (waiters w !! j) as [z|]; [|done]. cbn. by rewrite orb_false_r.
  - split; [done|]. intros j. rewrite (proj2 (Hnone j i)).
    destruct (waiters w !! j) as [z|]; [|done]. cbn. by rewrite orb_false_r.
Qed.

Lemma settled_trans w w1 w2 os1 os2 :
  settled w w1 os1 -> settled w1 w2 os2 -> settled w w2 (os1 ++ os2).
Proof.
  intros H1 H2 j. specialize (H1 j). specialize (H2 j).
  assert (E : bool_decide ((j, Woken) ∈ os1 ++ os2) = bool_decide ((j, Woken) ∈ os1) || bool_decide ((j, Woken) ∈ os2)).
  { rewrite <- bool_decide_or. apply bool_decide_ext. by rewrite elem_of_app. }
  rewrite H2, E. destruct (waiters w !! j) as [x|], (waiters w1 !! j) as [y|]; try done.
  cbn in *. unfold data in H1. injection H1 as -> -> ->. by rewrite orb_assoc.
Qed.

Lemma settled_nil w : settled w w [].
Proof.
  intros j. rewrite bool_decide_eq_false_2 by set_solver.
  destruct (waiters w !! j); [|done]. cbn. by rewrite orb_false_r.
Qed.

Lemma pass_loop_spec fuel w r s l1 l2 :
  wait_list w r (l1 ++ l2) -> (length l2 <= fuel)%nat ->
  let w' := pass_loop fuel w r s (l2 !! 0%nat) in
  let os := settle_all w s l2 in
  wait_list w' r (l1 ++ kept os) /\ settled w w' os.
Proof.
  revert w s l1 l2. induction fuel as [|fuel IH]; intros w s l1 [|i l2] Hl Hf; cbn [length] in Hf; try lia.
  - cbn. split; [done|apply settled_nil].
  - cbn. split; [done|apply settled_nil].
  - assert (Hi : (l1 ++ i :: l2) !! length l1 = Some i) by (by apply list_lookup_middle).
    destruct (wl_node _ _ _ Hl _ _ Hi) as (x & Hx & _ & _ & Hnx).
    rewrite lookup_mid, !decide_False, Nat.sub_diag in Hnx by lia.
    cbn [lookup list_lookup pass_loop settle_all]. rewrite Hx.
    destruct (passWaiter w r s i x) as [w1 s1] eqn:Hp.
    destruct (passWaiter_spec w r s l1 i l2 x w1 s1 Hl Hx Hp) as (o & -> & Hc & Hl1 & Hs1).
    rewrite Hnx.
    assert (Hnd : i ∉ l2).
    { pose proof (wl_nodup _ _ _ Hl) as Hnd. apply list.NoDup_app in Hnd as (_ & _ & Hnd). by apply list.NoDup_cons in Hnd as []. }
    assert (Hext : settle_all w s1 l2 = settle_all w1 s1 l2).
    { apply settle_all_ext; [done|]. intros j Hj. rewrite (Hs1 j).
      rewrite bool_decide_eq_false_2 by set_solver. destruct (waiters w !! j); [|done]. cbn. by rewrite orb_false_r. }
    rewrite Hext. change ((i, o) :: ?t) with ([(i, o)] ++ t). destruct o.
    + destruct (IH w1 s1 l1 l2) as [IH1 IH2]; [done|lia|]. split; [done|]. by eapply settled_trans.
    + destruct (IH w1 s1 l1 l2) as [IH1 IH2]; [done|lia|]. split; [done|]. by eapply settled_trans.
    + destruct (IH w1 s1 (l1 ++ [i]) l2) as [IH1 IH2]; [by rewrite <- app_assoc|lia|].
      split; [|by eapply settled_trans]. rewrite <- app_assoc in IH1. done.
Qed.

(** ** Capacity *)

(** The bytes granted to woken waiters at budget [b]. *)
Definition share (w : world) (b i : nat) : Z :=
  match waiters w !! i with
  | Some x => if decide (b ∈ waiter_chain w x) then req x else 0
  | None => 0
  end.
Definition woken_at (w : world) (b : nat) (os : list (nat * outcome)) : Z :=
  sumZ (map (fun p => if decide (p.2 = Woken) then share w b p.1 else 0) os).

Definition scratch_ok (w : world) (s : gmap nat waitScratch) : Prop :=
  forall b, 0 <= grantedByteCount (scratch_get s b) <= remainder w b.

Lemma scratch_get_insert s b v c :
  scratch_get (<[b := v]> s) c = if decide (c = b) then v else scratch_get s c.
Proof.
  unfold scratch_get. destruct (decide (c = b)) as [->|].
  - by rewrite lookup_insert_eq.
  - by rewrite lookup_insert_ne by done.
Qed.

Lemma hold_granted w n l s c :
  grantedByteCount (scratch_get (fold_left (hold w n) l s) c) = grantedByteCount (scratch_get s c).
Proof.
  revert s. induction l as [|b l IH]; intros s; [done|]. cbn. rewrite IH. unfold hold.
  destruct (_ <? _); [|done]. rewrite scratch_get_insert. by destruct (decide _) as [->|].
Qed.

Lemma grant_other n l s c : c ∉ l -> scratch_get (fold_left (grant n) l s) c = scratch_get s c.
Proof.
  revert s. induction l as [|b l IH]; intros s Hc; [done|]. cbn. rewrite IH by set_solver.
  unfold grant. by rewrite scratch_get_insert, decide_False by set_solver.
Qed.

Lemma grant_at n l s c :
  NoDup l -> c ∈ l -> scratch_get (fold_left (grant n) l s) c =
    Scratch (i64 (grantedByteCount (scratch_get s c) + n)) (blocked (scratch_get s c)).
Proof.
  intros Hnd. revert s. induction Hnd as [|b l Hb Hnd IH]; intros s Hc; [set_solver|]. cbn.
  destruct (decide (c = b)) as [->|].
  - rewrite grant_other by done. unfold grant. by rewrite scratch_get_insert, decide_True.
  - rewrite IH by set_solver. unfold grant. by rewrite !scratch_get_insert, !decide_False.
Qed.

Lemma waiter_chain_NoDup w x : tree_wf w -> NoDup (waiter_chain w x).
Proof. intros Hwf. unfold waiter_chain. destruct (wbudget x); [by apply chain_NoDup|constructor]. Qed.

(** Headroom is what the earlier grants of the pass left of the remainder. *)
Lemma headroom_left w s b :
  scratch_ok w s -> headroom w s b = remainder w b - grantedByteCount (scratch_get s b).
Proof.
  intros Hs. specialize (Hs b). unfold headroom, remainder in *.
  pose proof (i64_range (total w b - used w b)) as HR. set (R := i64 (total w b - used w b)) in *.
  unfold MaxInt64 in HR. destruct (decide (0 <= R)).
  - rewrite (i64_small (R - _)) by (unfold MaxInt64; lia). lia.
  - assert (grantedByteCount (scratch_get s b) = 0) as -> by lia.
    rewrite (i64_small (R - 0)) by (unfold MaxInt64; lia). lia.
Qed.

Lemma eligible_spec w s x :
  eligible w s x = true -> forall b, b ∈ waiter_chain w x -> req x <= headroom w s b.
Proof.
  unfold eligible. rewrite forallb_forall. intros H b Hb%list_elem_of_In. apply H in Hb.
  rewrite negb_true_iff in Hb. by apply Z.ltb_ge.
Qed.

Lemma remainder_range w b : 0 <= remainder w b <= MaxInt64.
Proof. unfold remainder. pose proof (i64_range (total w b - used w b)). unfold MaxInt64 in *. lia. Qed.

(** A grant is within every level's headroom. *)
Lemma settle_granted w s x o s' :
  tree_wf w -> scratch_ok w s -> settle w s x = (o, s') ->
  scratch_ok w s' /\
  forall b, grantedByteCount (scratch_get s' b) = grantedByteCount (scratch_get s b) +
    (if decide (o = Woken) then if decide (b ∈ waiter_chain w x) then req x else 0 else 0).
Proof.
  intros Hwf Hs. unfold settle. destruct (eligible w s x && _) eqn:E.
  - destruct (token x); intros [= <- <-].
    { split; [done|]. intros b. rewrite decide_False by done. lia. }
    apply andb_true_iff in E as [E _].
    assert (Hg : forall b, grantedByteCount (scratch_get (fold_left (grant (req x)) (waiter_chain w x) s) b) =
      grantedByteCount (scratch_get s b) + (if decide (b ∈ waiter_chain w x) then req x else 0)).
    { intros b. destruct (decide (b ∈ waiter_chain w x)) as [Hb|Hb].
      - rewrite grant_at by (done || by apply waiter_chain_NoDup). cbn.
        pose proof (eligible_spec w s x E b Hb) as He. rewrite headroom_left in He by done.
        pose proof (Hs b). pose proof (remainder_range w b). apply i64_small. unfold req, MaxInt64 in *. lia.
      - rewrite grant_other by done. lia. }
    split; [|done]. intros b. rewrite Hg. pose proof (Hs b). destruct (decide _) as [Hb|]; [|lia].
    pose proof (eligible_spec w s x E b Hb) as He. rewrite headroom_left in He by done. unfold req in *. lia.
  - destruct (negb _ && negb _ && negb _); intros [= <- <-].
    + split; [intros b; rewrite hold_granted; apply Hs|]. intros b. rewrite hold_granted, decide_False by done. lia.
    + split; [done|]. intros b. rewrite decide_False by done. lia.
Qed.

Lemma settle_all_capacity w s l b :
  tree_wf w -> scratch_ok w s ->
  grantedByteCount (scratch_get s b) + woken_at w b (settle_all w s l) <= remainder w b.
Proof.
  intros Hwf. revert s. induction l as [|i l IH]; intros s Hs; cbn [settle_all].
  { unfold woken_at. cbn. pose proof (Hs b). lia. }
  destruct (waiters w !! i) as [x|] eqn:Hx; [|unfold woken_at; cbn; pose proof (Hs b); lia].
  destruct (settle w s x) as [o s'] eqn:E. destruct (settle_granted w s x o s' Hwf Hs E) as [Hs' Hg].
  pose proof (IH s' Hs') as Hi. rewrite Hg in Hi. unfold woken_at in *. cbn [map]. rewrite sumZ_cons.
  cbn [fst snd]. unfold share at 1. rewrite Hx. lia.
Qed.

Lemma scratch_ok_empty w : scratch_ok w ∅.
Proof. intros b. unfold scratch_get. rewrite lookup_empty. cbn. pose proof (remainder_range w b). lia. Qed.

(** ** Fairness *)

Fixpoint scratch_after (w : world) (s : gmap nat waitScratch) (l : list nat) : gmap nat waitScratch :=
  match l with
  | [] => s
  | i :: l =>
      match waiters w !! i with
      | Some x => scratch_after w (snd (settle w s x)) l
      | None => s
      end
  end.

Lemma settle_all_app w s l1 l2 :
  (forall i, i ∈ l1 -> is_Some (waiters w !! i)) ->
  settle_all w s (l1 ++ l2) = settle_all w s l1 ++ settle_all w (scratch_after w s l1) l2.
Proof.
  revert s. induction l1 as [|i l1 IH]; intros s Hl; [done|]. cbn.
  destruct (Hl i) as [x ->]; [set_solver|]. destruct (settle w s x) as [o s'] eqn:E. cbn.
  f_equal. apply IH. set_solver.
Qed.

Lemma grant_blocked n l s c : blocked (scratch_get (fold_left (grant n) l s) c) = blocked (scratch_get s c).
Proof.
  revert s. induction l as [|b l IH]; intros s; [done|]. cbn. rewrite IH. unfold grant.
  rewrite scratch_get_insert. by destruct (decide _) as [->|].
Qed.

Lemma hold_blocked w n l s c :
  blocked (scratch_get (fold_left (hold w n) l s) c) =
  blocked (scratch_get s c) || bool_decide (c ∈ l /\ headroom w s c < n).
Proof.
  revert s. induction l as [|b l IH]; intros s; cbn.
  { rewrite bool_decide_eq_false_2 by set_solver. by rewrite orb_false_r. }
  rewrite IH. assert (Hh : headroom w (hold w n s b) c = headroom w s c).
  { unfold headroom. pose proof (hold_granted w n [b] s c) as Hg. cbn in Hg. by rewrite Hg. }
  rewrite Hh. assert (Hb : blocked (scratch_get (hold w n s b) c) =
    blocked (scratch_get s c) || bool_decide (c = b /\ headroom w s c < n)).
  { unfold hold. destruct (Z.ltb_spec (headroom w s b) n).
    - rewrite scratch_get_insert. destruct (decide (c = b)) as [->|].
      + rewrite bool_decide_eq_true_2 by done. by rewrite orb_true_r.
      + rewrite bool_decide_eq_false_2 by tauto. by rewrite orb_false_r.
    - rewrite bool_decide_eq_false_2; [by rewrite orb_false_r|]. intros [-> ?]. lia. }
  rewrite Hb, <- orb_assoc. f_equal. rewrite <- bool_decide_or. apply bool_decide_ext.
  rewrite elem_of_cons. tauto.
Qed.

Lemma held_spec w s x b :
  b ∈ waiter_chain w x -> blocked (scratch_get s b) = true -> held w s x = true.
Proof. intros Hb Hs. apply existsb_exists. exists b. split; [by apply list_elem_of_In|done]. Qed.

(** A blocked level stays blocked, and holds every positive request at it. *)
Lemma settle_blocked w s x b o s' :
  blocked (scratch_get s b) = true -> settle w s x = (o, s') ->
  blocked (scratch_get s' b) = true /\ (b ∈ waiter_chain w x -> 0 < req x -> o = Kept).
Proof.
  intros Hb. unfold settle. destruct (eligible w s x && _) eqn:E.
  - apply andb_true_iff in E as [_ E]. apply orb_true_iff in E.
    assert (Hk : b ∈ waiter_chain w x -> 0 < req x -> False).
    { intros Hc Hr. rewrite (held_spec w s x b Hc Hb), Z.eqb_eq in E. cbn in E. destruct E; [done|lia]. }
    destruct (token x); intros [= <- <-]; (split; [by rewrite ?grant_blocked|]); tauto.
  - destruct (negb _ && negb _ && negb _); intros [= <- <-]; (split; [|done]); [|done]. by rewrite hold_blocked, Hb.
Qed.

Lemma settle_all_blocked w s l b j y :
  blocked (scratch_get s b) = true -> waiters w !! j = Some y -> b ∈ waiter_chain w y -> 0 < req y ->
  (j, Woken) ∉ settle_all w s l.
Proof.
  intros Hb Hy Hc Hr. revert s Hb. induction l as [|i l IH]; intros s Hb; cbn; [set_solver|].
  destruct (waiters w !! i) as [x|] eqn:Hx; [|set_solver]. destruct (settle w s x) as [o s'] eqn:E.
  destruct (settle_blocked w s x b o s' Hb E) as [Hb' Ho]. apply not_elem_of_cons. split; [|by apply IH].
  intros [= <- <-]. assert (x = y) as -> by congruence. by specialize (Ho Hc Hr).
Qed.

(** No level is blocked while every waiter so far left the list or could
    never be admitted. *)
Lemma settle_unblocked w s x o s' :
  (forall b, blocked (scratch_get s b) = false) -> settle w s x = (o, s') ->
  o <> Kept \/ impossible w x = true -> forall b, blocked (scratch_get s' b) = false.
Proof.
  intros Hb. unfold settle. destruct (eligible w s x && _).
  - destruct (token x); intros [= <- <-] _ b; by rewrite ?grant_blocked.
  - destruct (negb (eligible w s x) && negb _ && negb _) eqn:E; intros [= <- <-] Hor b; [|done].
    destruct Hor as [|Hi]; [done|]. rewrite Hi, andb_false_r in E. done.
Qed.

Lemma scratch_after_unblocked w s l :
  (forall b, blocked (scratch_get s b) = false) ->
  (forall i, i ∈ l -> exists x, waiters w !! i = Some x /\
     ((i, Kept) ∉ settle_all w s l \/ impossible w x = true)) ->
  forall b, blocked (scratch_get (scratch_after w s l) b) = false.
Proof.
  revert s. induction l as [|i l IH]; intros s Hs Hl; [done|]. cbn.
  destruct (Hl i) as (x & Hx & Hor); [set_solver|]. cbn [settle_all] in *. rewrite Hx in *.
  destruct (settle w s x) as [o s'] eqn:E. cbn [snd]. apply IH.
  - apply (settle_unblocked w s x o s' Hs E). destruct Hor as [Ho|]; [left|by right].
    intros ->. set_solver.
  - intros j Hj. destruct (Hl j) as (y & Hy & Hor'); [set_solver|]. exists y. split; [done|].
    destruct Hor'; [left; set_solver|by right].
Qed.

Lemma scratch_after_ok w s l : tree_wf w -> scratch_ok w s -> scratch_ok w (scratch_after w s l).
Proof.
  intros Hwf. revert s. induction l as [|i l IH]; intros s Hs; [done|]. cbn.
  destruct (waiters w !! i) as [x|]; [|done]. destruct (settle w s x) as [o s'] eqn:E. cbn.
  apply IH. by apply (settle_granted w s x o s').
Qed.

(** A waiter kept although possible blocks every level it is short at. *)
Lemma settle_kept_holds w s x s' b :
  scratch_ok w s -> (forall c, blocked (scratch_get s c) = false) -> settle w s x = (Kept, s') ->
  impossible w x = false -> b ∈ waiter_chain w x -> remainder w b < req x -> blocked (scratch_get s' b) = true.
Proof.
  intros Hok Hs. unfold settle. intros E Hi Hb Hlt.
  assert (Hh : held w s x = false).
  { apply not_true_is_false. intros (c & _ & Hc)%existsb_exists. by rewrite Hs in Hc. }
  assert (He : eligible w s x = false).
  { apply not_true_is_false. intros He. pose proof (eligible_spec w s x He b Hb) as Hr.
    rewrite headroom_left in Hr by done. pose proof (Hok b). lia. }
  rewrite Hh, Hi, He in E. cbn in E. injection E as <-. rewrite hold_blocked.
  rewrite bool_decide_eq_true_2; [by rewrite orb_true_r|]. split; [done|].
  rewrite headroom_left by done. pose proof (Hok b). lia.
Qed.

(** The waiters on the list are fewer than the waiters allocated. *)
Lemma wait_list_length w r l : wait_list w r l -> (length l <= length (waiters w))%nat.
Proof.
  intros H. rewrite <- (length_seq (length (waiters w)) 0). apply submseteq_length, NoDup_submseteq; [apply H|].
  intros i Hi. destruct (wait_list_Some _ _ _ _ H Hi) as [x Hx]. apply lookup_lt_Some in Hx.
  apply elem_of_seq. lia.
Qed.

Lemma notify_pass w b l :
  let r := admissionRoot w b in
  wait_list w r l ->
  notifyEligibleCapacityWaiters w b = w \/
  (wait_list (notifyEligibleCapacityWaiters w b) r (kept (settle_all w ∅ l)) /\
   settled w (notifyEligibleCapacityWaiters w b) (settle_all w ∅ l)).
Proof.
  intros r H. unfold notifyEligibleCapacityWaiters. fold r.
  destruct (_ =? _); [by left|]. destruct (_ <=? _); [by left|]. right.
  rewrite (wl_head _ _ _ H). apply (pass_loop_spec _ w r ∅ [] l); [done|by apply (wait_list_length w r)].
Qed.

(** Waiter [i] was given a token between [w] and [w']. *)
Definition woken (w w' : world) (i : nat) : bool :=
  match waiters w !! i, waiters w' !! i with
  | Some x, Some x' => negb (token x) && token x'
  | _, _ => false
  end.

Lemma settled_woken w w' os i :
  settled w w' os -> woken w w' i = true -> (i, Woken) ∈ os.
Proof.
  intros Hs. specialize (Hs i). unfold woken.
  destruct (waiters w !! i) as [x|], (waiters w' !! i) as [x'|]; try done. cbn in Hs.
  injection Hs as Ht _ _. rewrite Ht. destruct (token x); [done|]. cbn. intros H. by apply bool_decide_eq_true in H.
Qed.

Lemma elem_of_kept os i : i ∈ kept os <-> (i, Kept) ∈ os.
Proof.
  unfold kept. rewrite list_elem_of_fmap. split.
  - intros ([j o] & -> & [Ho Hj]%list_elem_of_filter). cbn in *. by subst.
  - intros Hi. exists (i, Kept). split; [done|]. by apply list_elem_of_filter.
Qed.

(** A world holds one list per root. *)
Lemma wait_list_det w r l l' : wait_list w r l -> wait_list w r l' -> l = l'.
Proof.
  intros H H'. apply list_eq. intros k. induction k as [|k IH].
  { by rewrite <- (wl_head _ _ _ H), (wl_head _ _ _ H'). }
  destruct (l !! k) as [i|] eqn:E.
  - destruct (wl_node _ _ _ H k i E) as (x & Hx & _ & _ & Hn).
    destruct (wl_node _ _ _ H' k i (eq_sym IH)) as (x' & Hx' & _ & _ & Hn'). congruence.
  - apply lookup_ge_None in E. symmetry in IH. apply lookup_ge_None in IH.
    rewrite !lookup_ge_None_2 by lia. done.
Qed.

Lemma woken_share w w' b os l :
  settled w w' os -> os.*1 = l -> NoDup l ->
  sumZ (map (fun i => if woken w w' i then share w b i else 0) l) <= woken_at w b os.
Proof.
  intros Hs <- Hnd. unfold woken_at.
  assert (Hsub : forall os', (forall p, p ∈ os' -> p ∈ os) ->
    sumZ (map (fun i => if woken w w' i then share w b i else 0) os'.*1) <=
    sumZ (map (fun p => if decide (p.2 = Woken) then share w b p.1 else 0) os')); [|by apply Hsub].
  intros os'. induction os' as [|[i o] os' IH]; intros Hin; [done|]. cbn [fmap list_fmap map fst].
  rewrite !sumZ_cons. cbn [fst snd]. pose proof (IH ltac:(set_solver)) as Hi.
  assert (Hsh : 0 <= share w b i).
  { unfold share. destruct (waiters w !! i); [|done]. destruct (decide _); [|done]. unfold req. lia. }
  destruct (woken w w' i) eqn:E; [|destruct (decide _); lia].
  apply (settled_woken _ _ _ _ Hs) in E. rewrite decide_True; [lia|].
  assert (Hio : (i, o) ∈ os) by (apply Hin; set_solver).
  apply list_elem_of_lookup_1 in E as [k1 E1]. apply list_elem_of_lookup_1 in Hio as [k2 E2].
  assert (k1 = k2) as ->.
  { eapply (NoDup_lookup (os.*1)); [done|rewrite list_lookup_fmap, E1; done|rewrite list_lookup_fmap, E2; done]. }
  congruence.
Qed.

(** ** Claims *)

(** The intrusive list of a root's admission waiters is a FIFO queue:
    registering an unregistered waiter appends it at the tail, removing a
    waiter anywhere unlinks exactly it and keeps the order of the others, with
    every pointer, both ends and the count right. *)
Theorem waiter_queue_fifo w b l :
  wait_list w (admissionRoot w b) l ->
  (forall i x, waiters w !! i = Some x -> registered x = false ->
     wait_list (addCapacityWaiter w b i) (admissionRoot w b) (l ++ [i])) /\
  (forall l1 i l2, l = l1 ++ i :: l2 ->
     wait_list (removeCapacityWaiter w b i) (admissionRoot w b) (l1 ++ l2)).
Proof.
  intros H. split.
  - intros i x Hx Hr. by apply (wait_list_add w b i x l).
  - intros l1 i l2 ->. by apply wait_list_remove.
Qed.

(** C35: A notification pass keeps the queue well formed and in order, wakes
    only waiters it takes off the queue, and at every budget of the tree the
    requests of the waiters it wakes together fit in the unreserved remainder
    that the pass saw. *)
Theorem notify_pass_within_capacity w b l :
  tree_wf w -> wait_list w (admissionRoot w b) l ->
  let w' := notifyEligibleCapacityWaiters w b in
  exists l', wait_list w' (admissionRoot w b) l' /\ sublist l' l /\
    (forall i, woken w w' i = true -> i ∈ l /\ i ∉ l') /\
    forall c, sumZ (map (fun i => if woken w w' i then share w c i else 0) l) <= remainder w c.
Proof.
  intros Hwf H w'. destruct (notify_pass w b l H) as [E|[Hl Hs]].
  { unfold w'. rewrite E. exists l. assert (Hno : forall i, woken w w i = false).
    { intros i. unfold woken. destruct (waiters w !! i) as [x|]; [|done]. by destruct (token x). }
    split; [done|]. split; [done|]. split; [intros i; by rewrite Hno|]. intros c.
    rewrite sumZ_map_0; [apply remainder_range|]. intros i _. by rewrite Hno. }
  fold w' in Hl, Hs. set (os := settle_all w ∅ l) in *.
  assert (Hfst : os.*1 = l) by (apply settle_all_fst; intros i Hi; by apply (wait_list_Some w _ l i H)).
  exists (kept os). split; [done|]. split; [|split].
  - rewrite <- Hfst. unfold kept. apply fmap_sublist, sublist_filter.
  - intros i Hi%(settled_woken _ _ _ _ Hs). split.
    + rewrite <- Hfst. apply list_elem_of_fmap. exists (i, Woken). done.
    + unfold kept. intros ([j o] & -> & [Ho Hj]%list_elem_of_filter)%list_elem_of_fmap. cbn in *. subst o.
      apply list_elem_of_lookup_1 in Hi as [k1 E1]. apply list_elem_of_lookup_1 in Hj as [k2 E2].
      pose proof (wl_nodup _ _ _ H) as Hnd. rewrite <- Hfst in Hnd.
      assert (k1 = k2) as ->.
      { eapply (NoDup_lookup (os.*1)); [done|rewrite list_lookup_fmap, E1; done|rewrite list_lookup_fmap, E2; done]. }
      congruence.
  - intros c. etrans; [apply (woken_share w w' c os l Hs Hfst (wl_nodup _ _ _ H))|].
    pose proof (settle_all_capacity w ∅ l c Hwf (scratch_ok_empty w)) as Hc.
    unfold scratch_get in Hc. rewrite lookup_empty in Hc. cbn in Hc. done.
Qed.

(** No starvation: when waiter [i] could be admitted by an empty tree,
    every waiter before it left the queue in this pass or could never be
    admitted, and [i] still waits after the pass, then no later waiter with a
    positive request is woken at a budget where [i] is short. *)
Theorem notify_pass_fair w b l1 i l2 x c j y l' :
  tree_wf w -> wait_list w (admissionRoot w b) (l1 ++ i :: l2) ->
  let w' := notifyEligibleCapacityWaiters w b in
  wait_list w' (admissionRoot w b) l' ->
  (forall k, k ∈ l1 -> exists z, waiters w !! k = Some z /\ (k ∉ l' \/ impossible w z = true)) ->
  waiters w !! i = Some x -> impossible w x = false -> i ∈ l' ->
  c ∈ waiter_chain w x -> remainder w c < req x ->
  j ∈ l2 -> waiters w !! j = Some y -> c ∈ waiter_chain w y -> 0 < req y ->
  woken w w' j = false.
Proof.
  intros Hwf H w' Hl' Hpre Hx Himp Hi Hc Hshort Hj Hy Hcy Hr.
  destruct (notify_pass w b _ H) as [E|[Hl Hs]].
  { unfold w'. rewrite E. unfold woken. rewrite Hy. by destruct (token y). }
  fold w' in Hl, Hs. apply not_true_is_false. intros Hw%(settled_woken _ _ _ _ Hs).
  assert (l' = kept (settle_all w ∅ (l1 ++ i :: l2))) as -> by (by eapply wait_list_det).
  pose proof (wl_nodup _ _ _ H) as Hnd. apply list.NoDup_app in Hnd as (_ & Hd1 & [Hd2 _]%list.NoDup_cons).
  assert (Hl1 : forall k, k ∈ l1 -> is_Some (waiters w !! k)).
  { intros k Hk. apply (wait_list_Some w _ _ k H). set_solver. }
  set (s := scratch_after w ∅ l1).
  rewrite (settle_all_app w ∅ l1 (i :: l2) Hl1) in *. fold s in Hw, Hi, Hpre.
  cbn [settle_all] in Hw, Hi, Hpre. rewrite Hx in Hw, Hi, Hpre. destruct (settle w s x) as [o s'] eqn:E.
  assert (Hin1 : forall k o, (k, o) ∈ settle_all w ∅ l1 -> k ∈ l1).
  { intros k o' Hk. rewrite <- (settle_all_fst w ∅ l1 Hl1). apply list_elem_of_fmap. by exists (k, o'). }
  assert (Hin2 : forall k o, (k, o) ∈ settle_all w s' l2 -> k ∈ l2).
  { intros k o' Hk. rewrite <- (settle_all_fst w s' l2).
    - apply list_elem_of_fmap. by exists (k, o').
    - intros m Hm. apply (wait_list_Some w _ _ m H). set_solver. }
  assert (o = Kept) as ->.
  { apply elem_of_kept in Hi. apply elem_of_app in Hi as [Hi%Hin1|[Hi|Hi%Hin2]%elem_of_cons]; [set_solver|congruence|done]. }
  assert (Hub : forall d, blocked (scratch_get s d) = false).
  { apply scratch_after_unblocked; [intros d; unfold scratch_get; by rewrite lookup_empty|].
    intros k Hk. destruct (Hpre k Hk) as (z & Hz & [Hn|]); [|by eauto]. exists z. split; [done|]. left.
    intros Hk2. apply Hn, elem_of_kept, elem_of_app. by left. }
  apply elem_of_app in Hw as [Hw%Hin1|[Hw|Hw]%elem_of_cons]; [set_solver|congruence|].
  revert Hw. apply (settle_all_blocked w s' l2 c j y); [|done..].
  apply (settle_kept_holds w s x s' c); [by apply scratch_after_ok, scratch_ok_empty|done..].
Qed.

(** Five bytes are free; the first waiter wants 50, the second 3, the third 0. *)
Definition demo_wait : world :=
  fst (demo_st [ONew 100; OTry 0 95; ONewWaiter; ONewWaiter; ONewWaiter;
                OSubscribe 0 (Some 0%nat) 50; OSubscribe 1 (Some 0%nat) 3; OSubscribe 2 (Some 0%nat) 0]).

Ltac wait_list_compute :=
  split; [vm_compute; lia|apply (bool_decide_eq_true_1 _); vm_compute; reflexivity|vm_compute; reflexivity..|];
  intros [|[|[|k]]] i Hk; vm_compute in Hk; try discriminate; injection Hk as <-;
  eexists; (split; [vm_compute; reflexivity|]); vm_compute; repeat split; reflexivity.

Lemma demo_wait_list : wait_list demo_wait 0 [0; 1; 2]%nat.
Proof. wait_list_compute. Qed.

Lemma demo_wait_list_after : wait_list (notifyEligibleCapacityWaiters demo_wait 0) 0 [0; 1]%nat.
Proof. wait_list_compute. Qed.

Lemma demo_wait_wf : tree_wf demo_wait.
Proof. intros [|i] b Hb; vm_compute in Hb; [injection Hb as <-; reflexivity|discriminate]. Qed.

Lemma waiter_queue_fifo_witness :
  wait_list (removeCapacityWaiter demo_wait 0 1) 0 [0; 2]%nat.
Proof.
  exact (proj2 (waiter_queue_fifo demo_wait 0 [0; 1; 2]%nat demo_wait_list) [0%nat] 1%nat [2%nat] eq_refl).
Defined.

Lemma notify_pass_within_capacity_witness :
  exists l', wait_list (notifyEligibleCapacityWaiters demo_wait 0) 0 l' /\ sublist l' [0; 1; 2]%nat.
Proof.
  destruct (notify_pass_within_capacity demo_wait 0 [0; 1; 2]%nat demo_wait_wf demo_wait_list)
    as (l' & H1 & H2 & _). exists l'. exact (conj H1 H2).
Defined.

Lemma notify_pass_fair_witness :
  woken demo_wait (notifyEligibleCapacityWaiters demo_wait 0) 1 = false /\
  woken demo_wait (notifyEligibleCapacityWaiters demo_wait 0) 2 = true.
Proof.
  split; [|vm_compute; reflexivity].
  apply (notify_pass_fair demo_wait 0 [] 0 [1; 2]%nat
           (Waiter false (Some 0%nat) 50 None (Some 1%nat) true) 0 1
           (Waiter false (Some 0%nat) 3 (Some 0%nat) (Some 2%nat) true) [0; 1]%nat
           demo_wait_wf demo_wait_list demo_wait_list_after);
    first [intros k Hk; exfalso; set_solver | vm_compute; reflexivity
          | apply (bool_decide_eq_true_1 _); vm_compute; reflexivity ].
Defined.
