(* ===== verification/TransferQueue.v ===== *)
(** The transfer queue of src/transfer_queue.go: a min-heap and a max-heap
    over the same items, two indexes by message id and by sequence number, and
    the byte accounting against a shared budget.

    The heaps are those of [GoHeap]; the budget is used through the interface
    [MemoryPool], which the budgets of [MemoryBudget] implement. *)
From stdpp Require Import sorting.
From S2P Require Import Prelude GoHeap MemoryBudget.

(** ** The budget, as a queue uses it *)

(** [B] is the state of the shared budgets, [H] a pointer to one of them. *)
Class MemoryPool (B H : Type) := {
  p_Reserve : B -> H -> Z -> B;
  p_Release : B -> H -> Z -> B;
  p_Available : B -> H -> Z;
  p_addFloor : B -> H -> Z -> B;
  p_removeFloor : B -> H -> Z -> B;
}.

(** What a queue relies on: the bytes reserved through a pointer and not yet
    released are accounted exactly, and floors do not touch them. *)
Class MemoryPoolLaws (B H : Type) `{MP : MemoryPool B H} := {
  p_ok : B -> H -> Prop;
  p_owned : B -> H -> Z;
  p_owned_nonneg b h : p_ok b h -> 0 <= p_owned b h;
  p_Reserve_law b h n : p_ok b h -> 0 <= n -> p_ok (p_Reserve b h n) h /\ p_owned (p_Reserve b h n) h = p_owned b h + n;
  p_Release_law b h n : p_ok b h -> 0 <= n <= p_owned b h ->
    p_ok (p_Release b h n) h /\ p_owned (p_Release b h n) h = p_owned b h - n;
  p_addFloor_law b h n : p_ok b h -> p_ok (p_addFloor b h n) h /\ p_owned (p_addFloor b h n) h = p_owned b h;
  p_removeFloor_law b h n : p_ok b h -> p_ok (p_removeFloor b h n) h /\ p_owned (p_removeFloor b h n) h = p_owned b h;
}.

(** ** Items *)

(** The immutable fields of an item; its two heap indices are the [idx] maps
    of the heaps. *)
Record transferItem := TransferItem {
  messageId : bytes;
  messageByteCount : Z;
  queueByteCount : Z;
  sequenceNumber : Z;
}.

Definition QueueByteCount (x : transferItem) : Z :=
  if 0 <? queueByteCount x then queueByteCount x else messageByteCount x.

Section queue.
Context {P : Type} {EP : EqDecision P} {CP : Countable P} {B H : Type} {MP : MemoryPool B H}.
(** The items pointers point to, and the queue's order. *)
Variable deref : P -> transferItem.
Variable cmp : P -> P -> Z.

Definition MessageId (p : P) : bytes := messageId (deref p).
Definition MessageByteCount (p : P) : Z := messageByteCount (deref p).
Definition QBytes (p : P) : Z := QueueByteCount (deref p).
Definition SequenceNumber (p : P) : Z := sequenceNumber (deref p).

Definition queueLess (a b : P) : bool := cmp a b <? 0.
Definition maxLess (a b : P) : bool := 0 <? cmp a b.

Record transferQueue := TransferQueue {
  orderedItems : iheap P;
  maxHeap : iheap P;
  messageIdItems : gmap bytes P;
  sequenceNumberItems : gmap Z P;
  byteCount : Z;
  qByteCount : Z;
  budget : option H;
  minByteCount : Z;
  borrowedByteCount : Z;
  floorRegistered : bool;
  lifetimeBudget : bool;
}.

Definition newTransferQueue : transferQueue :=
  TransferQueue (heap_Init queueLess (Iheap [] ∅)) (heap_Init maxLess (Iheap [] ∅)) ∅ ∅ 0 0 None 0 0 false false.

(** The heaps and indexes, then the accounting fields. *)
Definition set_items (q : transferQueue) (o m : iheap P) (ids : gmap bytes P) (seqs : gmap Z P) : transferQueue :=
  TransferQueue o m ids seqs (byteCount q) (qByteCount q) (budget q) (minByteCount q)
    (borrowedByteCount q) (floorRegistered q) (lifetimeBudget q).
Definition set_bytes (q : transferQueue) (bc qbc borrowed : Z) : transferQueue :=
  TransferQueue (orderedItems q) (maxHeap q) (messageIdItems q) (sequenceNumberItems q) bc qbc
    (budget q) (minByteCount q) borrowed (floorRegistered q) (lifetimeBudget q).
Definition set_floor (q : transferQueue) (b : option H) (min : Z) (reg life : bool) : transferQueue :=
  TransferQueue (orderedItems q) (maxHeap q) (messageIdItems q) (sequenceNumberItems q)
    (byteCount q) (qByteCount q) b min (borrowedByteCount q) reg life.

(** ** Budget accounting *)

Definition ObtainableByteCount (q : transferQueue) (b : B) : Z :=
  match budget q with
  | None => 0
  | Some h => i64 (i64 (minByteCount q + borrowedByteCount q) + p_Available b h)
  end.

Definition dropFloor (q : transferQueue) (b : B) : transferQueue * B :=
  match budget q with
  | Some h =>
      if floorRegistered q
      then (set_floor q (budget q) (minByteCount q) false (lifetimeBudget q), p_removeFloor b h (minByteCount q))
      else (q, b)
  | None => (q, b)
  end.

Definition setBudget (q : transferQueue) (b : B) (newBudget : option H) (min : Z) : transferQueue * B :=
  let '(q, b) := dropFloor q b in
  let q := set_floor q newBudget min (floorRegistered q) (lifetimeBudget q) in
  match newBudget with
  | Some h => (set_floor q newBudget min true (lifetimeBudget q), p_addFloor b h min)
  | None => (q, b)
  end.

Definition setLifetimeBudget (q : transferQueue) (b : B) : transferQueue * B :=
  let '(q, b) := setBudget q b (budget q) 0 in
  (set_floor q (budget q) (minByteCount q) (floorRegistered q) true, b).

Definition updateByteCountWithLock (q : transferQueue) (b : B) (deltaByteCount deltaQueueByteCount : Z)
  : transferQueue * B :=
  let bc := i64 (byteCount q + deltaByteCount) in
  let qbc := i64 (qByteCount q + deltaQueueByteCount) in
  match budget q with
  | None => (set_bytes q bc qbc (borrowedByteCount q), b)
  | Some h =>
      let target := Z.max 0 (i64 (qbc - minByteCount q)) in
      if lifetimeBudget q then (set_bytes q bc qbc target, b)
      else if target <? borrowedByteCount q
      then (set_bytes q bc qbc target, p_Release b h (i64 (borrowedByteCount q - target)))
      else if borrowedByteCount q <? target
      then (set_bytes q bc qbc target, p_Reserve b h (i64 (target - borrowedByteCount q)))
      else (set_bytes q bc qbc (borrowedByteCount q), b)
  end.

Definition CanAddWithQueueByteCount (q : transferQueue) (b : B) (bytes queueBytes maxByteCount : Z) : bool :=
  if (Len (orderedItems q) =? 0)%nat && negb (lifetimeBudget q) then true
  else if maxByteCount <=? i64 (byteCount q + bytes) then false
  else
    match budget q with
    | None => true
    | Some h =>
        let probe := Z.max (i64 (qByteCount q + queueBytes)) (i64 (qByteCount q + 1)) in
        let target := Z.max 0 (i64 (probe - minByteCount q)) in
        i64 (target - borrowedByteCount q) <=? p_Available b h
    end.

Definition CanAdd (q : transferQueue) (b : B) (bytes maxByteCount : Z) : bool :=
  CanAddWithQueueByteCount q b bytes bytes maxByteCount.

(** ** Operations *)

Definition Clear (q : transferQueue) (b : B) : transferQueue * B * list P :=
  let items := items (orderedItems q) in
  let q := set_items q (Iheap [] (idx (orderedItems q)))
             (heap_Init maxLess (Iheap [] (idx (maxHeap q)))) ∅ ∅ in
  let '(q, b) := updateByteCountWithLock q b (- byteCount q) (- qByteCount q) in
  let '(q, b) := dropFloor q b in
  (q, b, items).

Definition IsEmpty (q : transferQueue) : bool := (Len (orderedItems q) =? 0)%nat.
Definition Snapshot (q : transferQueue) : list P := items (orderedItems q).
Definition QueueSize (q : transferQueue) : nat * Z := (Len (orderedItems q), byteCount q).

Definition Add (q : transferQueue) (b : B) (item : P) : transferQueue * B :=
  let q := set_items q (heap_Push queueLess (orderedItems q) item) (heap_Push maxLess (maxHeap q) item)
             (<[MessageId item := item]> (messageIdItems q))
             (<[SequenceNumber item := item]> (sequenceNumberItems q)) in
  updateByteCountWithLock q b (MessageByteCount item) (QBytes item).

Definition ContainsMessageId (q : transferQueue) (id : bytes) : Z * bool :=
  match messageIdItems q !! id with
  | Some item => (SequenceNumber item, true)
  | None => (0, false)
  end.

(** A heap index field; a never pushed item's is Go's zero. *)
Definition heapIndex (h : iheap P) (p : P) : nat := default 0%nat (idx h !! p).

(** "Heap invariant broken." when the index field names another item. *)
Definition remove (q : transferQueue) (b : B) (item : P) : go (transferQueue * B * option P) :=
  let! '(o, item_) := heap_Remove queueLess (orderedItems q) (heapIndex (orderedItems q) item) in
  if bool_decide (item = item_) then
    let! '(m, _) := heap_Remove maxLess (maxHeap q) (heapIndex (maxHeap q) item) in
    let q := set_items q o m (delete (MessageId item) (messageIdItems q))
               (delete (SequenceNumber item) (sequenceNumberItems q)) in
    let '(q, b) := updateByteCountWithLock q b (- MessageByteCount item) (- QBytes item) in
    Ret (q, b, Some item)
  else Panic.

Definition RemoveByMessageId (q : transferQueue) (b : B) (id : bytes) : go (transferQueue * B * option P) :=
  match messageIdItems q !! id with
  | Some item => remove q b item
  | None => Ret (q, b, None)
  end.

Definition RemoveBySequenceNumber (q : transferQueue) (b : B) (n : Z) : go (transferQueue * B * option P) :=
  match sequenceNumberItems q !! n with
  | Some item => remove q b item
  | None => Ret (q, b, None)
  end.

Definition GetByMessageId (q : transferQueue) (id : bytes) : option P := messageIdItems q !! id.
Definition GetBySequenceNumber (q : transferQueue) (n : Z) : option P := sequenceNumberItems q !! n.

Definition RemoveFirst (q : transferQueue) (b : B) : go (transferQueue * B * option P) :=
  if (Len (orderedItems q) =? 0)%nat then Ret (q, b, None)
  else
    let! '(o, item) := heap_Remove queueLess (orderedItems q) 0 in
    let! '(m, _) := heap_Remove maxLess (maxHeap q) (heapIndex (maxHeap q) item) in
    let q := set_items q o m (delete (MessageId item) (messageIdItems q))
               (delete (SequenceNumber item) (sequenceNumberItems q)) in
    let '(q, b) := updateByteCountWithLock q b (- MessageByteCount item) (- QBytes item) in
    Ret (q, b, Some item).

Definition UnorderedItems (q : transferQueue) : list P := items (orderedItems q).

(** [slices.SortFunc(buf, cmp)] on a copy: a permutation sorted by [cmp]. *)
Definition cmp_le (a b : P) : Prop := cmp a b <= 0.
#[local] Instance cmp_le_dec : RelDecision cmp_le.
Proof. intros a b. unfold cmp_le. apply _. Defined.
Definition AscendingItems (q : transferQueue) : list P := merge_sort cmp_le (items (orderedItems q)).

Definition PeekFirst (q : transferQueue) : option P := items (orderedItems q) !! 0%nat.
Definition PeekLast (q : transferQueue) : option P := items (maxHeap q) !! 0%nat.

(** ** Facts *)

Context {ML : MemoryPoolLaws B H}.
(** [cmp] is a comparison function. *)
Hypothesis cmp_flip : forall a b, cmp a b < 0 <-> 0 < cmp b a.
Hypothesis cmp_trans : forall a b c, cmp a b <= 0 -> cmp b c <= 0 -> cmp a c <= 0.

Lemma cmp_le_flip a b : cmp a b <= 0 <-> 0 <= cmp b a.
Proof. pose proof (cmp_flip b a). lia. Qed.

Lemma queueLess_asym a b : queueLess a b = true -> queueLess b a = false.
Proof. unfold queueLess. rewrite Z.ltb_lt, Z.ltb_ge, cmp_flip. lia. Qed.
Lemma queueLess_ntrans a b c : queueLess b a = false -> queueLess c b = false -> queueLess c a = false.
Proof. unfold queueLess. rewrite !Z.ltb_ge, <- !cmp_le_flip. eauto. Qed.
Lemma maxLess_asym a b : maxLess a b = true -> maxLess b a = false.
Proof. unfold maxLess. rewrite Z.ltb_lt, Z.ltb_ge, <- cmp_flip. lia. Qed.
Lemma maxLess_ntrans a b c : maxLess b a = false -> maxLess c b = false -> maxLess c a = false.
Proof. unfold maxLess. rewrite !Z.ltb_ge. eauto. Qed.

Definition contents (q : transferQueue) : gset P := list_to_set (items (orderedItems q)).

(** The heaps and the indexes agree on the items held. *)
Record items_wf (o m : iheap P) (ids : gmap bytes P) (seqs : gmap Z P) : Prop := {
  iw_ord : heap_wf queueLess o;
  iw_max : heap_wf maxLess m;
  iw_same : items m ≡ₚ items o;
  iw_ids : forall id p, ids !! id = Some p <-> p ∈ items o /\ MessageId p = id;
  iw_seqs : forall n p, seqs !! n = Some p <-> p ∈ items o /\ SequenceNumber p = n;
}.

(** The byte counts are the sums over the items, and the borrowed bytes are
    what the retained bytes exceed the floor by. *)
Record bytes_wf (l : list P) (q : transferQueue) : Prop := {
  bw_bytes : byteCount q = i64 (sumZ (map MessageByteCount l));
  bw_qbytes : qByteCount q = i64 (sumZ (map QBytes l));
  bw_min : 0 <= minByteCount q <= MaxInt64;
  bw_borrowed : borrowedByteCount q =
    match budget q with None => 0 | Some _ => Z.max 0 (i64 (qByteCount q - minByteCount q)) end;
}.

Definition queue_wf (q : transferQueue) : Prop :=
  items_wf (orderedItems q) (maxHeap q) (messageIdItems q) (sequenceNumberItems q) /\
  bytes_wf (items (orderedItems q)) q.

(** The bytes the queue borrowed are among those its budget has handed out. *)
Definition backed (q : transferQueue) (b : B) : Prop :=
  match budget q with
  | Some h => p_ok b h /\ (lifetimeBudget q = false -> borrowedByteCount q <= p_owned b h)
  | None => True
  end.

(** What the budget has handed out beyond what this queue borrowed. *)
Definition others (q : transferQueue) (b : B) : Z :=
  match budget q with
  | Some h => if lifetimeBudget q then p_owned b h else p_owned b h - borrowedByteCount q
  | None => 0
  end.

Lemma update_items q b d1 d2 q' b' :
  updateByteCountWithLock q b d1 d2 = (q', b') ->
  orderedItems q' = orderedItems q /\ maxHeap q' = maxHeap q /\
  messageIdItems q' = messageIdItems q /\ sequenceNumberItems q' = sequenceNumberItems q /\
  budget q' = budget q /\ lifetimeBudget q' = lifetimeBudget q /\ minByteCount q' = minByteCount q /\
  floorRegistered q' = floorRegistered q.
Proof.
  unfold updateByteCountWithLock. destruct (budget q) eqn:E; [destruct (lifetimeBudget q) eqn:El;
    [|destruct (_ <? _); [|destruct (_ <? _)]]|]; intros [= <- <-]; cbn; by rewrite ?E, ?El.
Qed.

Lemma borrow_range q h l : bytes_wf l q -> budget q = Some h -> 0 <= borrowedByteCount q <= MaxInt64.
Proof.
  intros Hb E. rewrite (bw_borrowed _ _ Hb), E.
  pose proof (i64_range (qByteCount q - minByteCount q)). unfold MaxInt64 in *. lia.
Qed.

Lemma update_wf q b l l' d1 d2 q' b' :
  bytes_wf l q -> backed q b ->
  i64 (sumZ (map MessageByteCount l')) = i64 (sumZ (map MessageByteCount l) + d1) ->
  i64 (sumZ (map QBytes l')) = i64 (sumZ (map QBytes l) + d2) ->
  updateByteCountWithLock q b d1 d2 = (q', b') ->
  bytes_wf l' q' /\ backed q' b' /\ others q' b' = others q b.
Proof.
  intros Hb Hk H1 H2 E. pose proof (borrow_range q) as Hrange. destruct (update_items _ _ _ _ _ _ E) as (_ & _ & _ & _ & Eb & El & Em & _).
  assert (Hbc : i64 (byteCount q + d1) = i64 (sumZ (map MessageByteCount l'))).
  { by rewrite (bw_bytes _ _ Hb), i64_i64_add, H1. }
  assert (Hqbc : i64 (qByteCount q + d2) = i64 (sumZ (map QBytes l'))).
  { by rewrite (bw_qbytes _ _ Hb), i64_i64_add, H2. }
  unfold updateByteCountWithLock in E. rewrite Hbc, Hqbc in E.
  unfold backed, others in *. rewrite Eb, El in *.
  destruct (budget q) as [h|] eqn:Ebud.
  2:{ injection E as <- <-. split; [|done]. split; try done; cbn; [apply Hb|]. by rewrite (bw_borrowed _ _ Hb), Ebud. }
  set (qbc := i64 (sumZ (map QBytes l'))) in *. set (t := Z.max 0 (i64 (qbc - minByteCount q))) in *.
  assert (Ht : 0 <= t <= MaxInt64).
  { pose proof (i64_range (qbc - minByteCount q)). unfold t, MaxInt64 in *. lia. }
  specialize (Hrange h l Hb eq_refl).
  assert (Hwf : bytes_wf l' (set_bytes q (i64 (sumZ (map MessageByteCount l'))) qbc t)).
  { split; try done; cbn; [apply Hb|]. by rewrite Ebud. }
  destruct (lifetimeBudget q) eqn:Elife.
  { injection E as <- <-. split; [done|]. split; [|done]. split; [apply Hk|done]. }
  destruct Hk as [Hok Hown]. specialize (Hown eq_refl).
  destruct (Z.ltb_spec t (borrowedByteCount q)); [|destruct (Z.ltb_spec (borrowedByteCount q) t)];
    injection E as <- <-.
  - rewrite (i64_small (borrowedByteCount q - t)) by (unfold MaxInt64 in *; lia).
    destruct (p_Release_law b h (borrowedByteCount q - t) Hok) as [Hok' Ho']; [lia|].
    split; [done|]. cbn. rewrite Ho'. split; [|lia]. split; [done|lia].
  - rewrite (i64_small (t - borrowedByteCount q)) by (unfold MaxInt64 in *; lia).
    destruct (p_Reserve_law b h (t - borrowedByteCount q) Hok) as [Hok' Ho']; [lia|].
    split; [done|]. cbn. rewrite Ho'. split; [|lia]. split; [done|lia].
  - assert (Et : borrowedByteCount q = t) by lia. rewrite Et. split; [done|]. cbn. split; [|lia]. split; [done|lia].
Qed.
Lemma items_wf_empty i j : items_wf (Iheap [] i) (Iheap [] j) ∅ ∅.
Proof.
  split; [apply heap_wf_empty|apply heap_wf_empty|done|..]; intros ? p; rewrite lookup_empty; cbn;
    split; [done|set_solver|done|set_solver].
Qed.

(** An item with an id and a sequence number the queue does not hold. *)
Definition fresh_item (l : list P) (p : P) : Prop :=
  forall x, x ∈ l -> x <> p /\ MessageId x <> MessageId p /\ SequenceNumber x <> SequenceNumber p.

Lemma items_wf_add o m ids seqs p :
  items_wf o m ids seqs -> fresh_item (items o) p ->
  items_wf (heap_Push queueLess o p) (heap_Push maxLess m p)
    (<[MessageId p := p]> ids) (<[SequenceNumber p := p]> seqs) /\
  items (heap_Push queueLess o p) ≡ₚ p :: items o.
Proof.
  intros [Ho Hm Hs Hi Hq] Hf.
  assert (Hp : p ∉ items o) by (intros Hp; by destruct (Hf p Hp)).
  destruct (heap_Push_spec _ queueLess_asym queueLess_ntrans o p Ho Hp) as [Ho' Po].
  destruct (heap_Push_spec _ maxLess_asym maxLess_ntrans m p Hm) as [Hm' Pm]; [by rewrite Hs|].
  split; [|done]. split; [done|done|by rewrite Po, Pm, Hs|..]; intros k x; rewrite Po, elem_of_cons.
  - rewrite lookup_insert_Some, Hi. split.
    + intros [[<- <-]|[Hne [Hx <-]]]; tauto.
    + intros [[->|Hx] <-]; [by left|right]. destruct (Hf x Hx) as (_ & Hne & _). done.
  - rewrite lookup_insert_Some, Hq. split.
    + intros [[<- <-]|[Hne [Hx <-]]]; tauto.
    + intros [[->|Hx] <-]; [by left|right]. destruct (Hf x Hx) as (_ & _ & Hne). done.
Qed.

(** An index map after deleting the key of the item that left. *)
Lemma index_delete {K} `{Countable K} (key : P -> K) (ids : gmap K P) (l l' : list P) p :
  NoDup l -> p :: l' ≡ₚ l -> (forall k x, ids !! k = Some x <-> x ∈ l /\ key x = k) ->
  forall k x, delete (key p) ids !! k = Some x <-> x ∈ l' /\ key x = k.
Proof.
  intros Hnd Hl Hk k x. rewrite <- Hl in Hnd. apply list.NoDup_cons in Hnd as [Hp _].
  rewrite lookup_delete_Some, Hk, <- Hl, elem_of_cons. split.
  - intros [Hne [[->|Hx] <-]]; [done|tauto].
  - intros [Hx <-]. split; [|tauto]. intros E.
    assert (ids !! key x = Some x) by (apply Hk; rewrite <- Hl; set_solver).
    assert (ids !! key x = Some p) by (apply Hk; rewrite <- Hl, E; set_solver).
    congruence.
Qed.

Lemma items_wf_remove o m ids seqs p :
  items_wf o m ids seqs -> p ∈ items o ->
  exists o' m', heap_Remove queueLess o (heapIndex o p) = Ret (o', p) /\
    heap_Remove maxLess m (heapIndex m p) = Ret (m', p) /\ p :: items o' ≡ₚ items o /\
    items_wf o' m' (delete (MessageId p) ids) (delete (SequenceNumber p) seqs).
Proof.
  intros [Ho Hm Hs Hi Hq] Hp.
  assert (Hidx : forall less (h : iheap P), heap_wf less h -> p ∈ items h -> items h !! heapIndex h p = Some p).
  { intros less h Hh [k Hk]%list_elem_of_lookup_1. unfold heapIndex. by rewrite (hw_idx _ _ Hh k p Hk). }
  destruct (heap_Remove_spec _ queueLess_asym queueLess_ntrans o _ p Ho (Hidx _ _ Ho Hp)) as (o' & Eo & Ho' & Po & _).
  destruct (heap_Remove_spec _ maxLess_asym maxLess_ntrans m (heapIndex m p) p Hm) as (m' & Em & Hm' & Pm & _);
    [apply (Hidx _ _ Hm); by rewrite Hs|].
  exists o', m'. split; [done|]. split; [done|]. split; [done|]. pose proof (hw_nodup _ _ Ho) as Hnd.
  split; [done|done| |by apply (index_delete _ _ (items o))..].
  apply (Permutation_cons_inv (a := p)). by rewrite Pm, Po.
Qed.

(** ** The abstract queue

    A set of items; the operations say which item leaves. *)

Inductive qop :=
| QAdd (p : P)
| QRemoveFirst
| QRemoveByMessageId (id : bytes)
| QRemoveBySequenceNumber (n : Z)
| QClear.

Inductive spec_step (S : gset P) : qop -> gset P -> list P -> Prop :=
| spec_add p : p ∉ S -> spec_step S (QAdd p) ({[p]} ∪ S) []
| spec_first_empty : S = ∅ -> spec_step S QRemoveFirst S []
| spec_first p : p ∈ S -> (forall x, x ∈ S -> cmp p x <= 0) -> spec_step S QRemoveFirst (S ∖ {[p]}) [p]
| spec_id_miss id : (forall x, x ∈ S -> MessageId x <> id) -> spec_step S (QRemoveByMessageId id) S []
| spec_id p : p ∈ S -> spec_step S (QRemoveByMessageId (MessageId p)) (S ∖ {[p]}) [p]
| spec_seq_miss n : (forall x, x ∈ S -> SequenceNumber x <> n) -> spec_step S (QRemoveBySequenceNumber n) S []
| spec_seq p : p ∈ S -> spec_step S (QRemoveBySequenceNumber (SequenceNumber p)) (S ∖ {[p]}) [p]
| spec_clear l : NoDup l -> list_to_set l = S -> spec_step S QClear ∅ l.

Definition one (r : go (transferQueue * B * option P)) : go (transferQueue * B * list P) :=
  let! '(q, b, x) := r in Ret (q, b, match x with Some x => [x] | None => [] end).

Definition qrun (op : qop) (q : transferQueue) (b : B) : go (transferQueue * B * list P) :=
  match op with
  | QAdd p => let '(q, b) := Add q b p in Ret (q, b, [])
  | QRemoveFirst => one (RemoveFirst q b)
  | QRemoveByMessageId id => one (RemoveByMessageId q b id)
  | QRemoveBySequenceNumber n => one (RemoveBySequenceNumber q b n)
  | QClear => Ret (Clear q b)
  end.

Definition qop_ok (q : transferQueue) (op : qop) : Prop :=
  match op with QAdd p => fresh_item (items (orderedItems q)) p | _ => True end.

(** What every operation establishes. *)
Definition simulates (q : transferQueue) (b : B) (op : qop) (q' : transferQueue) (b' : B) (r : list P) : Prop :=
  queue_wf q' /\ backed q' b' /\ others q' b' = others q b /\ spec_step (contents q) op (contents q') r.

Lemma set_items_bytes l q o m ids seqs : bytes_wf l q -> bytes_wf l (set_items q o m ids seqs).
Proof. intros []. by split. Qed.

(** The queue after one item left. *)
Lemma leave q b p o' m' ids' seqs' q' b' op :
  queue_wf q -> backed q b -> p :: items o' ≡ₚ items (orderedItems q) -> items_wf o' m' ids' seqs' ->
  updateByteCountWithLock (set_items q o' m' ids' seqs') b (- MessageByteCount p) (- QBytes p) = (q', b') ->
  spec_step (contents q) op (contents q ∖ {[p]}) [p] ->
  simulates q b op q' b' [p].
Proof.
  intros [Hw Hb] Hk Hp Hw' E Hspec.
  destruct (update_items _ _ _ _ _ _ E) as (E1 & E2 & E3 & E4 & _). cbn in E1, E2, E3, E4.
  assert (Hsum : forall f : P -> Z, sumZ (map f (items o')) = sumZ (map f (items (orderedItems q))) + - f p).
  { intros f. rewrite <- (sumZ_map_perm f _ _ Hp). cbn [map]. rewrite sumZ_cons. lia. }
  destruct (update_wf (set_items q o' m' ids' seqs') b (items (orderedItems q)) (items o') _ _ q' b'
              (set_items_bytes _ _ _ _ _ _ Hb) Hk (f_equal i64 (Hsum _)) (f_equal i64 (Hsum _)) E) as (Hb' & Hk' & Ho').
  split; [|split; [done|split; [done|]]].
  - split; [by rewrite E1, E2, E3, E4|by rewrite E1].
  - replace (contents q') with (contents q ∖ {[p]}); [done|]. unfold contents. rewrite E1.
    pose proof (hw_nodup _ _ (iw_ord _ _ _ _ Hw)) as Hnd. rewrite <- Hp in Hnd.
    apply list.NoDup_cons in Hnd as [Hnp _]. apply leibniz_equiv. intros x.
    rewrite elem_of_difference, !elem_of_list_to_set, elem_of_singleton, <- Hp, elem_of_cons.
    split; [tauto|]. intros Hx. split; [tauto|]. by intros ->.
Qed.
Lemma remove_sim q b p op :
  queue_wf q -> backed q b -> p ∈ items (orderedItems q) ->
  spec_step (contents q) op (contents q ∖ {[p]}) [p] ->
  exists q' b', remove q b p = Ret (q', b', Some p) /\ simulates q b op q' b' [p].
Proof.
  intros Hq Hk Hp Hspec. pose proof Hq as [Hw _].
  destruct (items_wf_remove _ _ _ _ p Hw Hp) as (o' & m' & Eo & Em & Po & Hw').
  unfold remove. rewrite Eo. cbn [gbind]. rewrite bool_decide_eq_true_2 by done. rewrite Em. cbn [gbind].
  destruct (updateByteCountWithLock _ _ _ _) as [q' b'] eqn:E.
  exists q', b'. split; [done|]. by eapply leave.
Qed.

Lemma RemoveFirst_sim q b :
  queue_wf q -> backed q b ->
  exists q' b' r, RemoveFirst q b = Ret (q', b', r) /\
    simulates q b QRemoveFirst q' b' (match r with Some x => [x] | None => [] end).
Proof.
  intros Hq Hk. pose proof Hq as [Hw _]. unfold RemoveFirst, Len.
  destruct (items (orderedItems q)) as [|p l] eqn:Ei.
  { exists q, b, None. split; [done|]. split; [done|]. split; [done|]. split; [done|].
    apply spec_first_empty. unfold contents. by rewrite Ei. }
  assert (H0 : items (orderedItems q) !! 0%nat = Some p) by (by rewrite Ei).
  assert (Hp : p ∈ items (orderedItems q)) by (rewrite Ei; set_solver).
  destruct (items_wf_remove _ _ _ _ p Hw Hp) as (o' & m' & Eo & Em & Po & Hw').
  assert (Hidx : heapIndex (orderedItems q) p = 0%nat).
  { unfold heapIndex. by rewrite (hw_idx _ _ (iw_ord _ _ _ _ Hw) 0%nat p H0). }
  rewrite Hidx in Eo. cbn [length Nat.eqb]. rewrite Eo. cbn [gbind]. rewrite Em. cbn [gbind].
  destruct (updateByteCountWithLock _ _ _ _) as [q' b'] eqn:E.
  exists q', b', (Some p). split; [done|]. eapply leave; try done.
  apply spec_first; [by apply elem_of_list_to_set|]. intros x Hx%elem_of_list_to_set.
  pose proof (heap_root _ queueLess_asym queueLess_ntrans _ p (hw_heap _ _ (iw_ord _ _ _ _ Hw)) H0 x Hx) as Hle.
  unfold le, queueLess in Hle. apply Z.ltb_ge in Hle. by apply cmp_le_flip.
Qed.

Lemma Add_sim q b p :
  queue_wf q -> backed q b -> fresh_item (items (orderedItems q)) p ->
  exists q' b', Add q b p = (q', b') /\ simulates q b (QAdd p) q' b' [].
Proof.
  intros [Hw Hb] Hk Hf. destruct (items_wf_add _ _ _ _ p Hw Hf) as [Hw' Po]. unfold Add.
  destruct (updateByteCountWithLock _ _ _ _) as [q' b'] eqn:E.
  exists q', b'. split; [done|].
  destruct (update_items _ _ _ _ _ _ E) as (E1 & E2 & E3 & E4 & _). cbn in E1, E2, E3, E4.
  assert (Hsum : forall f : P -> Z, sumZ (map f (items (heap_Push queueLess (orderedItems q) p))) =
                   sumZ (map f (items (orderedItems q))) + f p).
  { intros f. rewrite (sumZ_map_perm f _ _ Po). cbn [map]. rewrite sumZ_cons. lia. }
  destruct (update_wf _ b (items (orderedItems q)) _ _ _ q' b'
              (set_items_bytes _ _ _ _ _ _ Hb) Hk (f_equal i64 (Hsum _)) (f_equal i64 (Hsum _)) E) as (Hb' & Hk' & Ho').
  split; [|split; [done|split; [done|]]].
  - split; [by rewrite E1, E2, E3, E4|by rewrite E1].
  - replace (contents q') with ({[p]} ∪ contents q).
    + apply spec_add. intros Hp%elem_of_list_to_set. by destruct (Hf p Hp).
    + unfold contents. rewrite E1. apply leibniz_equiv. intros x.
      rewrite elem_of_union, !elem_of_list_to_set, Po, elem_of_cons, elem_of_singleton. done.
Qed.

Lemma dropFloor_wf q b q' b' l :
  bytes_wf l q -> backed q b -> dropFloor q b = (q', b') ->
  bytes_wf l q' /\ backed q' b' /\ others q' b' = others q b /\
  orderedItems q' = orderedItems q /\ maxHeap q' = maxHeap q /\
  messageIdItems q' = messageIdItems q /\ sequenceNumberItems q' = sequenceNumberItems q.
Proof.
  intros Hb Hk. unfold dropFloor. destruct (budget q) as [h|] eqn:Eb.
  2:{ by intros [= <- <-]. }
  destruct (floorRegistered q); [|by intros [= <- <-]]. intros [= <- <-].
  unfold backed, others in *. rewrite Eb in *. cbn.
  destruct (p_removeFloor_law b h (minByteCount q)) as [Hok Ho]; [tauto|]. rewrite Ho.
  split; [destruct Hb as [H1 H2 H3 H4]; split; try done; cbn; by rewrite Eb in H4|].
  split; [|done]. split; [done|tauto].
Qed.

Lemma Clear_sim q b :
  queue_wf q -> backed q b ->
  exists q' b' r, Clear q b = (q', b', r) /\ simulates q b QClear q' b' r.
Proof.
  intros [Hw Hb] Hk. unfold Clear. set (q0 := set_items _ _ _ _ _).
  destruct (updateByteCountWithLock q0 b _ _) as [q1 b1] eqn:E.
  destruct (dropFloor q1 b1) as [q2 b2] eqn:E2. eexists q2, b2, _. split; [done|].
  destruct (update_items _ _ _ _ _ _ E) as (E3 & E4 & E5 & E6 & _). cbn in E3, E4, E5, E6.
  pose proof (bw_bytes _ _ Hb) as H1. pose proof (bw_qbytes _ _ Hb) as H2.
  assert (Hw1 : items_wf (orderedItems q1) (maxHeap q1) (messageIdItems q1) (sequenceNumberItems q1)).
  { rewrite E3, E4, E5, E6. apply items_wf_empty. }
  assert (Hb1 : bytes_wf [] q1 /\ backed q1 b1 /\ others q1 b1 = others q0 b).
  { apply (update_wf q0 b (items (orderedItems q)) [] (- byteCount q0) (- qByteCount q0)); try done.
    - by apply set_items_bytes.
    - cbn [byteCount q0 set_items]. by rewrite H1, Z.add_opp_r, i64_sub_i64, Z.sub_diag.
    - cbn [qByteCount q0 set_items]. by rewrite H2, Z.add_opp_r, i64_sub_i64, Z.sub_diag. }
  destruct Hb1 as (Hb1 & Hk1 & Ho1).
  destruct (dropFloor_wf q1 b1 q2 b2 [] Hb1 Hk1 E2) as (Hb2 & Hk2 & Ho2 & D1 & D2 & D3 & D4).
  split; [|split; [done|split; [by rewrite Ho2|]]].
  - split; [by rewrite D1, D2, D3, D4|]. rewrite D1, E3. done.
  - replace (contents q2) with (∅ : gset P) by (unfold contents; by rewrite D1, E3).
    apply spec_clear; [apply (hw_nodup _ _ (iw_ord _ _ _ _ Hw))|done].
Qed.
Lemma one_sim q b op m :
  (exists q' b' r, m = Ret (q', b', r) /\ simulates q b op q' b' (match r with Some x => [x] | None => [] end)) ->
  exists q' b' r, one m = Ret (q', b', r) /\ simulates q b op q' b' r.
Proof. intros (q' & b' & r & -> & Hs). cbn. eauto. Qed.

Lemma no_op q b op : queue_wf q -> backed q b -> spec_step (contents q) op (contents q) [] -> simulates q b op q b [].
Proof. by intros. Qed.

Lemma Clear_items q b q' b' r : Clear q b = (q', b', r) -> items (orderedItems q') = [].
Proof.
  unfold Clear. destruct (updateByteCountWithLock _ b _ _) as [q1 b1] eqn:E1.
  destruct (dropFloor q1 b1) as [q2 b2] eqn:E2. intros [= <- <- <-].
  destruct (update_items _ _ _ _ _ _ E1) as (E3 & _). unfold dropFloor in E2.
  destruct (budget q1); [destruct (floorRegistered q1)|]; injection E2 as <- <-; cbn; by rewrite E3.
Qed.

Lemma dropFloor_budget q b q' b' :
  dropFloor q b = (q', b') -> budget q' = budget q /\ lifetimeBudget q' = lifetimeBudget q /\
    (is_Some (budget q) -> floorRegistered q' = false).
Proof.
  unfold dropFloor. destruct (budget q) as [h|] eqn:E.
  - destruct (floorRegistered q) eqn:Ef; intros [= <- <-]; cbn; by rewrite ?E.
  - intros [= <- <-]. rewrite E. split; [done|]. split; [done|]. by intros [? ?].
Qed.

Lemma Clear_budget q b q' b' r :
  Clear q b = (q', b', r) -> budget q' = budget q /\ lifetimeBudget q' = lifetimeBudget q /\
    (is_Some (budget q) -> floorRegistered q' = false).
Proof.
  unfold Clear. destruct (updateByteCountWithLock _ b _ _) as [q1 b1] eqn:E1.
  destruct (dropFloor q1 b1) as [q2 b2] eqn:E2. intros [= <- <- <-].
  destruct (update_items _ _ _ _ _ _ E1) as (_ & _ & _ & _ & Eb & El & _). cbn in Eb, El.
  destruct (dropFloor_budget _ _ _ _ E2) as (-> & -> & Hf). rewrite Eb in *. done.
Qed.

Lemma qrun_budget op q b q' b' r :
  qrun op q b = Ret (q', b', r) -> budget q' = budget q /\ lifetimeBudget q' = lifetimeBudget q.
Proof.
  assert (Hrem : forall p x, remove q b p = Ret (q', b', x) -> budget q' = budget q /\ lifetimeBudget q' = lifetimeBudget q).
  { intros p x E. unfold remove in E. apply gbind_ret_inv in E as ([o x1] & _ & E).
    destruct (bool_decide _); [|done]. apply gbind_ret_inv in E as ([m x2] & _ & E).
    destruct (updateByteCountWithLock _ _ _ _) as [q1 b1] eqn:E1. injection E as <- <- _.
    by destruct (update_items _ _ _ _ _ _ E1) as (_ & _ & _ & _ & -> & -> & _). }
  assert (Hone : forall m, one m = Ret (q', b', r) -> exists x, m = Ret (q', b', x)).
  { intros m E. apply gbind_ret_inv in E as ([[q1 b1] x] & -> & [= <- <- _]). eauto. }
  destruct op; cbn [qrun]; intros E.
  - destruct (Add q b p) as [q1 b1] eqn:EA. injection E as <- <- _. unfold Add in EA.
    by destruct (update_items _ _ _ _ _ _ EA) as (_ & _ & _ & _ & -> & -> & _).
  - apply Hone in E as [x E]. unfold RemoveFirst in E. destruct (_ =? _)%nat; [by injection E as <- <- _|].
    apply gbind_ret_inv in E as ([o x1] & _ & E). apply gbind_ret_inv in E as ([m x2] & _ & E).
    destruct (updateByteCountWithLock _ _ _ _) as [q1 b1] eqn:E1. injection E as <- <- _.
    by destruct (update_items _ _ _ _ _ _ E1) as (_ & _ & _ & _ & -> & -> & _).
  - apply Hone in E as [x E]. unfold RemoveByMessageId in E. destruct (_ !! id); [eauto|by injection E as <- <- _].
  - apply Hone in E as [x E]. unfold RemoveBySequenceNumber in E. destruct (_ !! n); [eauto|by injection E as <- <- _].
  - injection E as E. by destruct (Clear_budget _ _ _ _ _ E) as (-> & -> & _).
Qed.

Lemma queue_simulation_step q b op :
  queue_wf q -> backed q b -> qop_ok q op ->
  exists q' b' r, qrun op q b = Ret (q', b', r) /\ simulates q b op q' b' r.
Proof.
  intros Hq Hk Hok. pose proof Hq as [Hw _]. destruct op as [p| |id|n|]; cbn [qrun qop_ok] in *.
  - destruct (Add_sim q b p Hq Hk Hok) as (q' & b' & -> & Hs). eauto.
  - apply one_sim. by apply RemoveFirst_sim.
  - apply one_sim. unfold RemoveByMessageId. destruct (messageIdItems q !! id) as [p|] eqn:E.
    + apply (iw_ids _ _ _ _ Hw) in E as [Hp <-].
      destruct (remove_sim q b p (QRemoveByMessageId (MessageId p)) Hq Hk Hp) as (q' & b' & -> & Hs).
      { apply spec_id. by apply elem_of_list_to_set. }
      by eexists _, _, _.
    + eexists q, b, None. split; [done|]. apply no_op; [done|done|]. apply spec_id_miss.
      intros x Hx%elem_of_list_to_set <-. assert (messageIdItems q !! MessageId x = Some x) by (by apply (iw_ids _ _ _ _ Hw)).
      congruence.
  - apply one_sim. unfold RemoveBySequenceNumber. destruct (sequenceNumberItems q !! n) as [p|] eqn:E.
    + apply (iw_seqs _ _ _ _ Hw) in E as [Hp <-].
      destruct (remove_sim q b p (QRemoveBySequenceNumber (SequenceNumber p)) Hq Hk Hp) as (q' & b' & -> & Hs).
      { apply spec_seq. by apply elem_of_list_to_set. }
      by eexists _, _, _.
    + eexists q, b, None. split; [done|]. apply no_op; [done|done|]. apply spec_seq_miss.
      intros x Hx%elem_of_list_to_set <-. assert (sequenceNumberItems q !! SequenceNumber x = Some x) by (by apply (iw_seqs _ _ _ _ Hw)).
      congruence.
  - destruct (Clear_sim q b Hq Hk) as (q' & b' & r & -> & Hs). eauto.
Qed.

(** ** The operations on the list of items *)

Lemma queue_nodup q : queue_wf q -> NoDup (items (orderedItems q)).
Proof. intros [Hw _]. apply (hw_nodup _ _ (iw_ord _ _ _ _ Hw)). Qed.

(** A removal by id takes exactly the item with that id, or nothing. *)
Lemma RemoveByMessageId_list q b id :
  queue_wf q -> backed q b ->
  exists q' b' x, RemoveByMessageId q b id = Ret (q', b', x) /\ queue_wf q' /\ backed q' b' /\
    match x with
    | None => q' = q /\ b' = b /\ forall p, p ∈ items (orderedItems q) -> MessageId p <> id
    | Some p => MessageId p = id /\ p :: items (orderedItems q') ≡ₚ items (orderedItems q)
    end.
Proof.
  intros Hq Hk. pose proof Hq as [Hw _]. unfold RemoveByMessageId. destruct (messageIdItems q !! id) as [p|] eqn:E.
  - apply (iw_ids _ _ _ _ Hw) in E as [Hp <-].
    destruct (remove_sim q b p (QRemoveByMessageId (MessageId p)) Hq Hk Hp) as (q' & b' & -> & Hq' & Hk' & _ & Hs).
    { apply spec_id. by apply elem_of_list_to_set. }
    exists q', b', (Some p). split; [done|]. split; [done|]. split; [done|]. split; [done|].
    inversion Hs as [| | | |p' Hp' Hid Hc Hr| | |]; subst p'. clear Hs.
    pose proof (queue_nodup q Hq) as N1. pose proof (queue_nodup q' Hq') as N2.
    assert (Hx : forall x, x ∈ items (orderedItems q') <-> x ∈ items (orderedItems q) /\ x <> p).
    { intros x. rewrite <- (elem_of_list_to_set (C := gset P)). fold (contents q'). rewrite <- Hc.
      unfold contents. rewrite elem_of_difference, elem_of_list_to_set, elem_of_singleton. done. }
    apply NoDup_Permutation; [apply list.NoDup_cons; split; [rewrite Hx; tauto|done]|done|].
    intros x. rewrite elem_of_cons, Hx. destruct (decide (x = p)) as [->|]; tauto.
  - exists q, b, None. split; [done|]. split; [done|]. split; [done|]. split; [done|]. split; [done|].
    intros p Hp <-. pose proof (proj2 (iw_ids _ _ _ _ Hw (MessageId p) p) (conj Hp eq_refl)). congruence.
Qed.

Lemma Add_list q b p :
  queue_wf q -> backed q b -> fresh_item (items (orderedItems q)) p ->
  exists q' b', Add q b p = (q', b') /\ queue_wf q' /\ backed q' b' /\
    items (orderedItems q') ≡ₚ p :: items (orderedItems q).
Proof.
  intros Hq Hk Hf. destruct (Add_sim q b p Hq Hk Hf) as (q' & b' & E & Hq' & Hk' & _).
  exists q', b'. split; [done|]. split; [done|]. split; [done|]. unfold Add in E.
  destruct (update_items _ _ _ _ _ _ E) as (-> & _). cbn [orderedItems set_items].
  destruct (items_wf_add _ _ _ _ p (proj1 Hq) Hf) as [_ Po]. done.
Qed.

Lemma Clear_list q b :
  queue_wf q -> backed q b ->
  exists q' b', Clear q b = (q', b', items (orderedItems q)) /\ queue_wf q' /\ backed q' b' /\ items (orderedItems q') = [].
Proof.
  intros Hq Hk. destruct (Clear_sim q b Hq Hk) as (q' & b' & r & E & Hq' & Hk' & _).
  exists q', b'. assert (r = items (orderedItems q)) as ->.
  { unfold Clear in E. destruct (updateByteCountWithLock _ _ _ _). destruct (dropFloor _ _). by injection E as <- <- <-. }
  split; [done|]. split; [done|]. split; [done|]. by apply (Clear_items _ _ _ _ _ E).
Qed.

Lemma PeekFirst_list q :
  queue_wf q -> match PeekFirst q with
                | None => items (orderedItems q) = []
                | Some p => p ∈ items (orderedItems q) /\ forall x, x ∈ items (orderedItems q) -> cmp p x <= 0
                end.
Proof.
  intros [[Ho _ _ _ _] _]. unfold PeekFirst. destruct (items (orderedItems q) !! 0%nat) as [p|] eqn:Hp.
  - split; [by apply (list_elem_of_lookup_2 _ _ _ Hp)|]. intros x Hx.
    pose proof (heap_root _ queueLess_asym queueLess_ntrans _ p (hw_heap _ _ Ho) Hp x Hx) as Hle.
    apply Z.ltb_ge in Hle. by apply cmp_le_flip.
  - by destruct (items (orderedItems q)).
Qed.

(** ** Claims *)

(** C27: Every operation of the transfer queue that changes it refines the
    abstract queue, a set of items: it returns (no panic, in particular no
    broken heap invariant), keeps both heaps, both indexes and the byte
    counts consistent, hands out exactly the item the specification names
    (the smallest for RemoveFirst, the one with the id or the number
    otherwise), and moves exactly its own borrowed bytes at the budget. *)
Theorem queue_simulation q b op :
  queue_wf q -> backed q b -> qop_ok q op ->
  exists q' b' r, qrun op q b = Ret (q', b', r) /\ simulates q b op q' b' r.
Proof. apply queue_simulation_step. Qed.

(** The reads of the queue: PeekFirst is a smallest item, PeekLast a
    largest one, both nil exactly on the empty queue; AscendingItems is the
    queue's items sorted; the indexes answer exactly the items held. *)
Theorem queue_reads q :
  queue_wf q ->
  (forall p, PeekFirst q = Some p -> p ∈ contents q /\ forall x, x ∈ contents q -> cmp p x <= 0) /\
  (forall p, PeekLast q = Some p -> p ∈ contents q /\ forall x, x ∈ contents q -> cmp x p <= 0) /\
  (PeekFirst q = None <-> contents q = ∅) /\ (PeekLast q = None <-> contents q = ∅) /\
  AscendingItems q ≡ₚ Snapshot q /\ Sorted (fun a b => cmp a b <= 0) (AscendingItems q) /\
  (forall id p, GetByMessageId q id = Some p <-> p ∈ contents q /\ MessageId p = id) /\
  (forall n p, GetBySequenceNumber q n = Some p <-> p ∈ contents q /\ SequenceNumber p = n).
Proof.
  intros [[Ho Hm Hs Hi Hq] _]. unfold PeekFirst, PeekLast, contents, GetByMessageId, GetBySequenceNumber.
  split; [|split; [|split; [|split; [|split; [|split; [|split]]]]]].
  - intros p Hp. split; [by apply elem_of_list_to_set, (list_elem_of_lookup_2 _ _ _ Hp)|].
    intros x Hx%elem_of_list_to_set.
    pose proof (heap_root _ queueLess_asym queueLess_ntrans _ p (hw_heap _ _ Ho) Hp x Hx) as Hle.
    apply Z.ltb_ge in Hle. by apply cmp_le_flip.
  - intros p Hp. split; [apply elem_of_list_to_set; rewrite <- Hs; by apply (list_elem_of_lookup_2 _ _ _ Hp)|].
    intros x Hx%elem_of_list_to_set. rewrite <- Hs in Hx.
    pose proof (heap_root _ maxLess_asym maxLess_ntrans _ p (hw_heap _ _ Hm) Hp x Hx) as Hle.
    by apply Z.ltb_ge in Hle.
  - destruct (items (orderedItems q)) as [|x l]; cbn; [tauto|]. split; [done|]. intros E. exfalso.
    assert (x ∈ (∅ : gset P)) by (rewrite <- E; set_solver). set_solver.
  - destruct (items (maxHeap q)) as [|x l] eqn:E; cbn.
    + apply Permutation_nil_l in Hs. rewrite <- Hs. tauto.
    + split; [done|]. intros E2. exfalso. assert (Hx : x ∈ items (orderedItems q)) by (rewrite <- Hs; set_solver).
      assert (x ∈ (∅ : gset P)) by (rewrite <- E2; by apply elem_of_list_to_set). set_solver.
  - apply merge_sort_Permutation.
  - apply Sorted_merge_sort. intros a b. unfold cmp_le. pose proof (cmp_flip a b). pose proof (cmp_flip b a). lia.
  - intros id p. rewrite elem_of_list_to_set. apply Hi.
  - intros n p. rewrite elem_of_list_to_set. apply Hq.
Qed.

(** An admission through CanAddWithQueueByteCount on a non-empty queue is
    honoured: adding an item of the sizes asked about keeps the protocol bytes
    below the maximum, and the bytes it borrows are at most what the budget
    had available. *)
Theorem queue_admission q b h p maxByteCount :
  queue_wf q -> backed q b -> budget q = Some h -> lifetimeBudget q = false ->
  items (orderedItems q) <> [] -> fresh_item (items (orderedItems q)) p ->
  0 <= QBytes p -> 0 <= qByteCount q -> qByteCount q + Z.max 1 (QBytes p) <= MaxInt64 ->
  CanAddWithQueueByteCount q b (MessageByteCount p) (QBytes p) maxByteCount = true ->
  byteCount (fst (Add q b p)) < maxByteCount /\
  borrowedByteCount (fst (Add q b p)) - borrowedByteCount q <= Z.max 0 (p_Available b h).
Proof.
  intros Hwf Hk Eb El Hne Hf H0 Hlo Hov.
  assert (Hlen : Len (orderedItems q) <> 0%nat).
  { unfold Len. by destruct (items (orderedItems q)). }
  unfold CanAddWithQueueByteCount. rewrite El, Eb, (proj2 (Nat.eqb_neq _ _) Hlen). cbn [andb negb].
  destruct (Z.leb_spec maxByteCount (i64 (byteCount q + MessageByteCount p))); [done|].
  pose proof (bw_min _ _ (proj2 Hwf)) as Hmin. pose proof (borrow_range q h _ (proj2 Hwf) Eb) as Hbr.
  rewrite !(i64_small (qByteCount q + _)) by (unfold MaxInt64 in *; lia).
  rewrite (i64_small (Z.max _ _ - minByteCount q)) by (unfold MaxInt64 in *; lia).
  rewrite (i64_small (_ - borrowedByteCount q)) by (unfold MaxInt64 in *; lia). rewrite Z.leb_le. intros Hav.
  unfold Add, updateByteCountWithLock. cbn [budget set_items byteCount qByteCount minByteCount lifetimeBudget borrowedByteCount].
  rewrite Eb, El. rewrite (i64_small (qByteCount q + _)) by (unfold MaxInt64 in *; lia).
  rewrite (i64_small (qByteCount q + QBytes p - _)) by (unfold MaxInt64 in *; lia).
  set (t := Z.max 0 (qByteCount q + QBytes p - minByteCount q)) in *.
  destruct (Z.ltb_spec t (borrowedByteCount q)); [cbn; lia|].
  destruct (Z.ltb_spec (borrowedByteCount q) t); cbn; lia.
Qed.
(** The states a queue reaches, with what its operations handed out. *)
Inductive qtrace (q : transferQueue) (b : B) : transferQueue -> B -> Prop :=
| qtrace_start : qtrace q b q b
| qtrace_step q1 b1 op q2 b2 r :
    qtrace q b q1 b1 -> qop_ok q1 op -> qrun op q1 b1 = Ret (q2, b2, r) -> qtrace q b q2 b2.

Lemma qtrace_wf q b q' b' :
  queue_wf q -> backed q b -> qtrace q b q' b' ->
  queue_wf q' /\ backed q' b' /\ others q' b' = others q b.
Proof.
  intros Hq Hk. induction 1 as [|q1 b1 op q2 b2 r _ IH Hok E]; [done|].
  destruct IH as (Hq1 & Hk1 & Ho1).
  destruct (queue_simulation_step q1 b1 op Hq1 Hk1 Hok) as (q3 & b3 & r3 & E3 & Hq3 & Hk3 & Ho3 & _).
  rewrite E in E3. injection E3 as <- <- <-. split; [done|]. split; [done|]. congruence.
Qed.

Lemma setBudget_wf b h min q0 b0 :
  p_ok b h -> 0 <= min <= MaxInt64 -> setBudget newTransferQueue b (Some h) min = (q0, b0) ->
  queue_wf q0 /\ backed q0 b0 /\ others q0 b0 = p_owned b h /\ budget q0 = Some h /\ lifetimeBudget q0 = false.
Proof.
  intros Hok Hmin E. cbn in E. injection E as <- <-. destruct (p_addFloor_law b h min Hok) as [Hok' Ho'].
  pose proof (p_owned_nonneg _ _ Hok') as H0. split; [|split; [|split; [|done]]].
  - split; cbn; [apply items_wf_empty|]. split; cbn; try done. rewrite i64_small by (unfold MaxInt64 in *; lia). lia.
  - split; [done|]. cbn. lia.
  - unfold others. cbn. lia.
Qed.

(** A queue starts on a budget in order, or on none. *)
Definition start_ok (b : B) (budget : option H) (minByteCount : Z) : Prop :=
  0 <= minByteCount <= MaxInt64 /\ match budget with Some h => p_ok b h | None => True end.

Lemma setLifetimeBudget_wf q b q' b' :
  queue_wf q -> backed q b -> items (orderedItems q) = [] -> setLifetimeBudget q b = (q', b') ->
  queue_wf q' /\ backed q' b' /\ items (orderedItems q') = [].
Proof.
  intros [Hw Hb] Hk Hi El. unfold setLifetimeBudget, setBudget in El.
  destruct (dropFloor q b) as [q1 b1] eqn:Ed. destruct (dropFloor_wf q b q1 b1 (items (orderedItems q)) Hb Hk Ed)
    as (Hb1 & Hk1 & _ & E1 & E2 & E3 & E4). destruct (dropFloor_budget q b q1 b1 Ed) as (Eb & Elf & _).
  rewrite Hi in Hb1. assert (Hw1 : items_wf (orderedItems q1) (maxHeap q1) (messageIdItems q1) (sequenceNumberItems q1)) by (by rewrite E1, E2, E3, E4).
  pose proof Hb1 as [A1 A2 A3 A4]. change (qByteCount q1 = 0) in A2.
  unfold backed in Hk1. rewrite Eb in *. destruct (budget q) as [h|] eqn:Ebq; injection El as <- <-; cbn.
  - destruct (p_addFloor_law b1 h 0 (proj1 Hk1)) as [Hok Ho]. split; [|split; [split; [done|done]|by rewrite E1]]. split; [done|]. cbn. rewrite E1, Hi.
    split; cbn; [done|done|unfold MaxInt64; lia|]. rewrite A2. change (i64 (0 - 0)) with 0.
    rewrite A4, A2, i64_small by (unfold MaxInt64 in *; lia). lia.
  - split; [|split; [by unfold backed|by rewrite E1]]. split; [done|]. cbn. rewrite E1, Hi. split; cbn; [done|done|unfold MaxInt64; lia|done].
Qed.

(** The queue a sequence starts with is empty and in order. *)
Lemma new_queue_wf b bud min (lifetime : bool) :
  start_ok b bud min ->
  let '(q, b) := setBudget newTransferQueue b bud min in
  let '(q, b) := if lifetime then setLifetimeBudget q b else (q, b) in
  queue_wf q /\ backed q b /\ items (orderedItems q) = [].
Proof.
  intros [Hm Hb]. destruct (setBudget newTransferQueue b bud min) as [q0 b0] eqn:E0.
  assert (H0 : queue_wf q0 /\ backed q0 b0 /\ items (orderedItems q0) = []).
  { destruct bud as [h|].
    - destruct (setBudget_wf b h min q0 b0 Hb Hm E0) as (H1 & H2 & _). split; [done|]. split; [done|]. cbn in E0. injection E0 as <- _. done.
    - cbn in E0. injection E0 as <- <-. split; [|done]. split; cbn; [apply items_wf_empty|]. by split. }
  destruct H0 as (Hw & Hk & Hi). destruct lifetime; [|done]. destruct (setLifetimeBudget q0 b0) as [q1 b1] eqn:E1.
  by apply (setLifetimeBudget_wf q0 b0).
Qed.

Lemma qtrace_budget q b q' b' : qtrace q b q' b' -> budget q' = budget q /\ lifetimeBudget q' = lifetimeBudget q.
Proof.
  induction 1 as [|q1 b1 op q2 b2 r _ [IH1 IH2] _ E]; [done|]. rewrite <- IH1, <- IH2. clear IH1 IH2.
  apply (qrun_budget op q1 b1 q2 b2 r E).
Qed.

(** No borrowed byte is lost: a queue attached to a budget, driven through
    any sequence of operations and cleared at teardown, leaves the budget
    owing exactly what it owed before the queue was attached, and the queue
    empty with no bytes counted or borrowed and its floor withdrawn. *)
Theorem queue_teardown_balanced b h min q0 b0 q1 b1 q2 b2 r :
  p_ok b h -> 0 <= min <= MaxInt64 -> setBudget newTransferQueue b (Some h) min = (q0, b0) ->
  qtrace q0 b0 q1 b1 -> Clear q1 b1 = (q2, b2, r) ->
  p_owned b2 h = p_owned b h /\ contents q2 = ∅ /\ byteCount q2 = 0 /\ qByteCount q2 = 0 /\
  borrowedByteCount q2 = 0 /\ floorRegistered q2 = false.
Proof.
  intros Hok Hmin E0 Ht E. destruct (setBudget_wf b h min q0 b0 Hok Hmin E0) as (Hq0 & Hk0 & Ho0 & Eb0 & El0).
  destruct (qtrace_wf _ _ _ _ Hq0 Hk0 Ht) as (Hq1 & Hk1 & Ho1). destruct (qtrace_budget _ _ _ _ Ht) as [Eb1 El1].
  destruct (Clear_sim q1 b1 Hq1 Hk1) as (q3 & b3 & r3 & E3 & Hq3 & Hk3 & Ho3 & Hs3).
  rewrite E in E3. injection E3 as <- <- <-.
  destruct (qrun_budget QClear q1 b1 q2 b2 r) as [Eb2 El2]; [cbn; by rewrite E|].
  assert (Hi : items (orderedItems q2) = []) by (eapply Clear_items; exact E).
  destruct Hq3 as [_ [H1 H2 H3 H4]]. rewrite Hi in H1, H2.
  change (byteCount q2 = 0) in H1. change (qByteCount q2 = 0) in H2.
  assert (Hbor : borrowedByteCount q2 = 0).
  { rewrite H4, Eb2, Eb1, Eb0, H2, (i64_small (0 - minByteCount q2)) by (unfold MaxInt64 in *; lia). lia. }
  assert (Hown : others q2 b2 = p_owned b2 h).
  { unfold others. rewrite Eb2, Eb1, Eb0, El2, El1, El0, Hbor. lia. }
  split; [congruence|]. split; [unfold contents; by rewrite Hi|]. split; [done|]. split; [done|]. split; [done|].
  apply (Clear_budget _ _ _ _ _ E). rewrite Eb1, Eb0. eauto.
Qed.
End queue.

(** ** The budgets implement the interface *)

#[export] Instance budget_pool : MemoryPool (world * (nat -> Z)) nat := {|
  p_Reserve st h n := run (OReserve h n) st;
  p_Release st h n := run (ORelease h n) st;
  p_Available st h := Available (fst st) h;
  p_addFloor st h n := run (OAddFloor h n) st;
  p_removeFloor st h n := run (ORemoveFloor h n) st;
|}.

Lemma Reserve_length w own s n :
  ledger (w, own) -> (s < length (budgets w))%nat -> length (budgets (Reserve w s n)) = length (budgets w).
Proof.
  intros [H _] Hs. apply links_length. pose proof (lo_wf _ _ H) as Hwf. cbn in Hwf.
  unfold Reserve. destruct (requiresAdmissionLock w s); cbn [negb]; [|apply adjust_links].
  unfold tryReserveWithLock. destruct (n <? 0); [by apply chain_adjust_links|].
  destruct (forallb _ _); by apply chain_adjust_links.
Qed.

Lemma Release_length w own s n :
  ledger (w, own) -> (s < length (budgets w))%nat -> length (budgets (Release w s n)) = length (budgets w).
Proof.
  intros [H _] Hs. apply links_length. pose proof (lo_wf _ _ H) as Hwf. cbn in Hwf.
  unfold Release. destruct (requiresAdmissionLock w s); cbn [negb];
    (etrans; [apply cores_links, cores_notifyCapacityChanged|]); [by apply chain_adjust_links|apply adjust_links].
Qed.

Lemma credit_at own s n : credit own s n s = own s + n.
Proof. unfold credit. by rewrite decide_True. Qed.

#[export] Instance budget_pool_laws : MemoryPoolLaws (world * (nat -> Z)) nat.
Proof.
  refine {| p_ok st h := ledger st /\ (h < length (budgets (fst st)))%nat; p_owned st h := snd st h |}.
  - intros [w own] h [[H _] _]. apply H.
  - intros [w own] h n [H Hh] Hn. split; [|apply credit_at]. split.
    + apply (run_ledger (w, own)); [done|]. done.
    + cbn. by rewrite (Reserve_length w own).
  - intros [w own] h n [H Hh] Hn. split; [|rewrite <- Z.add_opp_r; apply credit_at]. split.
    + apply (run_ledger (w, own)); [done|]. done.
    + cbn. by rewrite (Release_length w own).
  - intros [w own] h n [H Hh]. split; [|done]. split; [by apply (run_ledger (w, own))|].
    cbn. by rewrite length_alter.
  - intros [w own] h n [H Hh]. split; [|done]. split; [by apply (run_ledger (w, own))|].
    cbn. by rewrite length_alter.
Defined.

(** ** A concrete queue over a concrete budget *)

(** Item [n] has sequence number [10 - n] and 100 bytes. *)
Definition demo_item (n : nat) : transferItem := TransferItem [Z.of_nat n] 100 0 (10 - Z.of_nat n).
Definition demo_cmp (a b : nat) : Z := sequenceNumber (demo_item a) - sequenceNumber (demo_item b).

Lemma demo_cmp_flip a b : demo_cmp a b < 0 <-> 0 < demo_cmp b a.
Proof. unfold demo_cmp. cbn. lia. Qed.
Lemma demo_cmp_trans a b c : demo_cmp a b <= 0 -> demo_cmp b c <= 0 -> demo_cmp a c <= 0.
Proof. unfold demo_cmp. cbn. lia. Qed.

Definition demo_pool : world * (nat -> Z) := demo_st [ONew 1000; OTry 0 300].

Lemma demo_pool_ok : p_ok demo_pool 0%nat.
Proof.
  split; [|vm_compute; lia]. apply reach_ledger. unfold demo_pool, demo_st. cbn [fold_left].
  repeat (apply reach_step; [|vm_compute; repeat split; (lia || congruence || reflexivity)]).
  apply reach_init.
Qed.

(** Freshness against an explicit list of items. *)
Ltac fresh_compute items_eq :=
  let x := fresh in let Hx := fresh in
  intros x Hx; rewrite items_eq in Hx;
  repeat (apply elem_of_cons in Hx as [->|Hx]; [vm_compute; repeat split; discriminate|]);
  exact (False_ind _ (not_elem_of_nil _ Hx)).

Definition demo_q0 := setBudget (newTransferQueue demo_cmp) demo_pool (Some 0%nat) 150.
Definition demo_q1 := Add demo_item demo_cmp (fst demo_q0) (snd demo_q0) 3%nat.
Definition demo_q2 := Add demo_item demo_cmp (fst demo_q1) (snd demo_q1) 5%nat.

Lemma demo_trace : qtrace demo_item demo_cmp (fst demo_q0) (snd demo_q0) (fst demo_q2) (snd demo_q2).
Proof.
  eapply (qtrace_step _ _ _ _ _ _ (QAdd 5%nat)); [eapply (qtrace_step _ _ _ _ _ _ (QAdd 3%nat)); [apply qtrace_start|..]|..].
  - assert (E : items (orderedItems (fst demo_q0)) = []) by (vm_compute; reflexivity). fresh_compute E.
  - unfold qrun. fold demo_q1. rewrite (surjective_pairing demo_q1). reflexivity.
  - assert (E : items (orderedItems (fst demo_q1)) = [3%nat]) by (vm_compute; reflexivity). fresh_compute E.
  - unfold qrun. fold demo_q2. rewrite (surjective_pairing demo_q2). reflexivity.
Qed.

Lemma demo_q2_wf : queue_wf demo_item demo_cmp (fst demo_q2) /\ backed (fst demo_q2) (snd demo_q2).
Proof.
  destruct (setBudget_wf demo_item demo_cmp demo_cmp_flip demo_cmp_trans demo_pool 0%nat 150 (fst demo_q0) (snd demo_q0))
    as (H1 & H2 & _); [apply demo_pool_ok|unfold MaxInt64; lia|reflexivity|].
  destruct (qtrace_wf demo_item demo_cmp demo_cmp_flip demo_cmp_trans _ _ _ _ H1 H2 demo_trace) as (H3 & H4 & _).
  exact (conj H3 H4).
Qed.

Lemma queue_simulation_witness :
  exists q' b' r, qrun demo_item demo_cmp QRemoveFirst (fst demo_q2) (snd demo_q2) = Ret (q', b', r) /\ r = [5%nat].
Proof.
  destruct (queue_simulation demo_item demo_cmp demo_cmp_flip demo_cmp_trans (fst demo_q2) (snd demo_q2) QRemoveFirst
              (proj1 demo_q2_wf) (proj2 demo_q2_wf) I) as (q' & b' & r & E & _).
  exists q', b', r. split; [exact E|].
  assert (E2 : match qrun demo_item demo_cmp QRemoveFirst (fst demo_q2) (snd demo_q2) with
               | Ret (_, _, r) => r = [5%nat] | Panic => False end) by (vm_compute; reflexivity).
  rewrite E in E2. exact E2.
Defined.

Lemma queue_reads_witness : PeekLast (fst demo_q2) = Some 3%nat /\ forall x, x ∈ contents (fst demo_q2) -> demo_cmp x 3 <= 0.
Proof.
  destruct (queue_reads demo_item demo_cmp demo_cmp_flip demo_cmp_trans (fst demo_q2) (proj1 demo_q2_wf)) as (_ & H & _).
  assert (E : PeekLast (fst demo_q2) = Some 3%nat) by (vm_compute; reflexivity).
  split; [exact E|]. exact (proj2 (H 3%nat E)).
Defined.

Lemma demo_fresh : fresh_item demo_item (items (orderedItems (fst demo_q2))) 7%nat.
Proof.
  assert (E : items (orderedItems (fst demo_q2)) = [5; 3]%nat) by (vm_compute; reflexivity). fresh_compute E.
Qed.

Lemma queue_admission_witness :
  borrowedByteCount (fst (Add demo_item demo_cmp (fst demo_q2) (snd demo_q2) 7%nat)) - 50 <= 650.
Proof.
  assert (E : borrowedByteCount (fst demo_q2) = 50) by (vm_compute; reflexivity).
  assert (EA : p_Available (snd demo_q2) 0%nat = 650) by (vm_compute; reflexivity).
  pose proof (queue_admission demo_item demo_cmp (fst demo_q2) (snd demo_q2) 0%nat 7%nat 10000
                (proj1 demo_q2_wf) (proj2 demo_q2_wf) eq_refl eq_refl) as H.
  rewrite E, EA in H. apply H; clear; [vm_compute; discriminate|exact demo_fresh|vm_compute; discriminate..|].
  vm_compute. reflexivity.
Defined.

Lemma queue_teardown_balanced_witness :
  exists q2 b2 r, Clear demo_cmp (fst demo_q2) (snd demo_q2) = (q2, b2, r) /\ p_owned b2 0%nat = p_owned demo_pool 0%nat.
Proof.
  destruct (Clear demo_cmp (fst demo_q2) (snd demo_q2)) as [[q2 b2] r] eqn:E. exists q2, b2, r. split; [reflexivity|].
  refine (proj1 (queue_teardown_balanced demo_item demo_cmp demo_cmp_flip demo_cmp_trans demo_pool 0%nat 150
                   (fst demo_q0) (snd demo_q0) (fst demo_q2) (snd demo_q2) q2 b2 r demo_pool_ok _ _ demo_trace E)).
  - unfold MaxInt64. lia.
  - reflexivity.
Defined.
