(* ===== verification/RttWindow.v ===== *)
(** The round-trip-time window of src/transfer_rtt.go: a ring of the last
    samples, a min-heap over them with their running sum, and the scaled
    estimates the sender times its retransmissions with.

    Instants are nanoseconds; samples are pointers into [pool], in allocation
    order. A float32 is Stdlib's [spec_float] at precision 24. *)
From Stdlib Require Import Floats.SpecFloat.
From S2P Require Import Prelude GoHeap.

Record rttWindowItem := RttItem {
  sendTime : Z;
  receiveTime : Z;
  rtt : Z;
}.

(** [Time.Sub] saturates at the ends of a Duration. *)
Definition time_Sub (t u : Z) : Z := Z.max (- MaxInt64 - 1) (Z.min MaxInt64 (t - u)).

Definition newRttWindowItem (send receive : Z) : rttWindowItem := RttItem send receive (time_Sub receive send).

Record rttHeap := RttHeap {
  rttItems : iheap nat;
  netRtt : Z;
}.

Record RttWindow := Window {
  windowTimeout : Z;
  rttScale : spec_float;
  minScaledRtt : Z;
  rttMinScaledRtt : Z;
  maxScaledRtt : Z;
  window : list (option nat);
  windowTailIndex : nat;
  windowHeadIndex : nat;
  rtts : rttHeap;
  pool : list rttWindowItem;
}.

(** ** The heap *)

Definition item_of (pool : list rttWindowItem) (p : nat) : rttWindowItem := default (RttItem 0 0 0) (pool !! p).
Definition rttOf (pool : list rttWindowItem) (p : nat) : Z := rtt (item_of pool p).
Definition rttLess (pool : list rttWindowItem) (a b : nat) : bool := rttOf pool a <? rttOf pool b.

Definition newRttHeap : rttHeap := RttHeap (heap_Init (rttLess []) (Iheap [] ∅)) 0.

Definition rttHeap_Add (pool : list rttWindowItem) (h : rttHeap) (p : nat) : rttHeap :=
  RttHeap (heap_Push (rttLess pool) (rttItems h) p) (i64 (netRtt h + rttOf pool p)).

Definition rttHeap_Remove (pool : list rttWindowItem) (h : rttHeap) (p : nat) : go rttHeap :=
  let! '(i, _) := heap_Remove (rttLess pool) (rttItems h) (default 0%nat (idx (rttItems h) !! p)) in
  Ret (RttHeap i (i64 (netRtt h - rttOf pool p))).

Definition MinRtt (pool : list rttWindowItem) (h : rttHeap) : Z :=
  match items (rttItems h) with
  | [] => 0
  | p :: _ => rttOf pool p
  end.

Definition rttHeap_MeanRtt (h : rttHeap) : Z :=
  let n := Len (rttItems h) in
  if (n =? 0)%nat then 0 else i64 (Z.quot (netRtt h) (Z.of_nat n)).

(** ** The window *)

Definition NewRttWindow (windowSize : nat) (timeout : Z) (scale : spec_float) (minScaled : Z) (rest : list Z)
  : go RttWindow :=
  if (windowSize =? 0)%nat then Panic
  else
    let '(rttMin, maxScaled) :=
      match rest with
      | [] => (0, 0)
      | [m] => (minScaled, m)
      | r :: m :: _ => (r, m)
      end in
    let rttMin := if rttMin <=? 0 then minScaled else rttMin in
    Ret (Window timeout scale minScaled rttMin maxScaled (replicate windowSize None) 0 0 newRttHeap []).

Definition set_ring (w : RttWindow) (win : list (option nat)) (t h : nat) (r : rttHeap) (p : list rttWindowItem) : RttWindow :=
  Window (windowTimeout w) (rttScale w) (minScaledRtt w) (rttMinScaledRtt w) (maxScaledRtt w) win t h r p.

(** The loop of [coalesce]: every iteration moves the tail one slot towards
    the head, so the number of slots bounds it. A nil sample would panic. *)
Fixpoint coalesce_loop (fuel : nat) (w : RttWindow) (windowStartTime : Z) : go RttWindow :=
  match fuel with
  | O => Ret w
  | S fuel =>
      if (windowTailIndex w =? windowHeadIndex w)%nat then Ret w
      else
        let! slot := index (window w) (windowTailIndex w) in
        match slot with
        | None => Panic
        | Some p =>
            if negb (receiveTime (item_of (pool w) p) <? windowStartTime) then Ret w
            else
              let! r := rttHeap_Remove (pool w) (rtts w) p in
              let! win := set_index (window w) (windowTailIndex w) None in
              coalesce_loop fuel
                (set_ring w win ((windowTailIndex w + 1) mod length (window w)) (windowHeadIndex w) r (pool w))
                windowStartTime
        end
  end.

Definition coalesce (w : RttWindow) (windowTime : Z) : go RttWindow :=
  coalesce_loop (length (window w)) w (windowTime + i64 (- windowTimeout w)).

(** [uint64(t.UnixMilli())] for an instant not before the epoch. *)
Definition openTag (t : Z) : Z := u64 (t / 1000000).

Definition closeSendTime (w : RttWindow) (sendTimeUnixMilli : Z) (receive : Z) : go RttWindow :=
  let send := i64 sendTimeUnixMilli * 1000000 in
  if receive <? send then Ret w
  else
    let! w := coalesce w receive in
    let p := length (pool w) in
    let pool' := pool w ++ [newRttWindowItem send receive] in
    let r := rttHeap_Add pool' (rtts w) p in
    let! slot := index (window w) (windowHeadIndex w) in
    let! r := match slot with
              | Some old => rttHeap_Remove pool' r old
              | None => Ret r
              end in
    let! win := set_index (window w) (windowHeadIndex w) (Some p) in
    let h := ((windowHeadIndex w + 1) mod length win)%nat in
    let t := if (windowTailIndex w =? h)%nat then ((windowTailIndex w + 1) mod length win)%nat else windowTailIndex w in
    Ret (set_ring w win t h r pool').

(** ** Estimates *)

Definition MeanRtt (w : RttWindow) (now : Z) : go (RttWindow * Z) :=
  let! w := coalesce w now in
  Ret (w, rttHeap_MeanRtt (rtts w)).

(** [float32(z)], the product of two float32, and [int64(f)]: truncation
    towards zero; a value int64 cannot hold gives the "integer indefinite"
    value of the amd64 instruction Go compiles the conversion to. *)
Definition float32_of_Z (z : Z) : spec_float := binary_normalize 24 128 z 0 false.
Definition float32_mul : spec_float -> spec_float -> spec_float := SFmul 24 128.
Definition int64_of_float32 (f : spec_float) : Z :=
  let indefinite := - MaxInt64 - 1 in
  match f with
  | S754_zero _ => 0
  | S754_infinity _ | S754_nan => indefinite
  | S754_finite s m e =>
      let v := if 0 <=? e then Zpos m * 2 ^ e else Zpos m / 2 ^ (- e) in
      let v := if s then - v else v in
      if (- MaxInt64 - 1 <=? v) && (v <=? MaxInt64) then v else indefinite
  end.

Definition Millisecond : Z := 1000000.

Definition scale (w : RttWindow) (useRtt : Z) : Z :=
  let floor := if (rttMinScaledRtt w =? 0) || (useRtt =? 0) then minScaledRtt w else rttMinScaledRtt w in
  Z.min
    (Z.max (i64 (int64_of_float32 (float32_mul (float32_of_Z (Z.quot useRtt Millisecond)) (rttScale w)) * Millisecond))
       floor)
    (maxScaledRtt w).

Definition scaledRtt (w : RttWindow) (t : Z) : go (RttWindow * Z) :=
  let! w := coalesce w t in
  Ret (w, scale w (rttHeap_MeanRtt (rtts w))).

Definition probeRtt (w : RttWindow) (t : Z) : go (RttWindow * Z) :=
  let! w := coalesce w t in
  Ret (w, scale w (MinRtt (pool w) (rtts w))).

(** ** Facts *)

Lemma rttLess_asym pool a b : rttLess pool a b = true -> rttLess pool b a = false.
Proof. unfold rttLess. rewrite Z.ltb_lt, Z.ltb_ge. lia. Qed.
Lemma rttLess_ntrans pool a b c :
  rttLess pool b a = false -> rttLess pool c b = false -> rttLess pool c a = false.
Proof. unfold rttLess. rewrite !Z.ltb_ge. lia. Qed.

(** The samples in the slots. *)
Definition samples (l : list (option nat)) : list nat := omap id l.

Lemma samples_app l1 l2 : samples (l1 ++ l2) = samples l1 ++ samples l2.
Proof. apply omap_app. Qed.

Lemma samples_insert l i x y :
  l !! i = Some x -> option_list x ++ samples (<[i := y]> l) ≡ₚ option_list y ++ samples l.
Proof.
  intros Hi. rewrite <- (take_drop_middle l i x Hi) at 2.
  rewrite insert_take_drop by (by apply lookup_lt_Some in Hi).
  rewrite !samples_app. cbn [samples omap list_omap].
  destruct x as [x|], y as [y|]; cbn [option_list app id]; unfold samples; cbn.
  - rewrite <- !Permutation_middle. apply Permutation_swap.
  - by rewrite <- Permutation_middle.
  - by rewrite <- Permutation_middle.
  - done.
Qed.

(** Slot [i] lies between the tail and the head. *)
Definition inring (t h i : nat) : Prop := if decide (t <= h)%nat then (t <= i < h)%nat else (t <= i \/ i < h)%nat.

Definition next (n i : nat) : nat := if decide (i + 1 = n)%nat then 0%nat else (i + 1)%nat.
Lemma succ_mod n i : (i < n)%nat -> ((i + 1) mod n = next n i)%nat.
Proof.
  intros Hi. unfold next. destruct (decide _) as [<-|]; [apply Nat.Div0.mod_same|apply Nat.mod_small; lia].
Qed.

(** The number of slots from the tail to the head. *)
Definition ring_size (n t h : nat) : nat := if decide (t <= h)%nat then (h - t)%nat else (h + n - t)%nat.
(** The place of slot [i] counted from the tail. *)
Definition pos (n t i : nat) : nat := if decide (t <= i)%nat then (i - t)%nat else (i + n - t)%nat.

Ltac ring_lia := unfold inring, next, ring_size, pos in *; repeat destruct (decide _); lia.

Record rtt_wf (w : RttWindow) : Prop := {
  rw_tail : (windowTailIndex w < length (window w))%nat;
  rw_head : (windowHeadIndex w < length (window w))%nat;
  rw_ring : forall i, (i < length (window w))%nat -> inring (windowTailIndex w) (windowHeadIndex w) i ->
    exists p, window w !! i = Some (Some p);
  rw_heap : heap_wf (rttLess (pool w)) (rttItems (rtts w));
  rw_items : items (rttItems (rtts w)) ≡ₚ samples (window w);
  rw_live : forall p, p ∈ samples (window w) -> (p < length (pool w))%nat;
  rw_net : netRtt (rtts w) = i64 (sumZ (map (rttOf (pool w)) (samples (window w))));
  rw_pos : Forall (fun x => 0 <= rtt x <= MaxInt64) (pool w);
}.

Lemma rttHeap_Remove_spec pool h p :
  heap_wf (rttLess pool) (rttItems h) -> p ∈ items (rttItems h) ->
  exists h', rttHeap_Remove pool h p = Ret h' /\ heap_wf (rttLess pool) (rttItems h') /\
    p :: items (rttItems h') ≡ₚ items (rttItems h) /\ netRtt h' = i64 (netRtt h - rttOf pool p).
Proof.
  intros Hh Hp. apply list_elem_of_lookup_1 in Hp as [k Hk]. unfold rttHeap_Remove.
  rewrite (hw_idx _ _ Hh k p Hk). cbn [default from_option id].
  destruct (heap_Remove_spec _ (rttLess_asym pool) (rttLess_ntrans pool) _ k p Hh Hk) as (i & -> & Hi & Hp & _).
  eexists. by split.
Qed.

Lemma samples_elem l i p : l !! i = Some (Some p) -> p ∈ samples l.
Proof. intros Hi. apply list_elem_of_omap. exists (Some p). split; [by eapply list_elem_of_lookup_2|done]. Qed.

(** Dropping the sample at the tail. *)
Lemma drop_tail w p :
  rtt_wf w -> windowTailIndex w <> windowHeadIndex w -> window w !! windowTailIndex w = Some (Some p) ->
  exists r, rttHeap_Remove (pool w) (rtts w) p = Ret r /\
    rtt_wf (set_ring w (<[windowTailIndex w := None]> (window w))
              (next (length (window w)) (windowTailIndex w)) (windowHeadIndex w) r (pool w)).
Proof.
  intros [Ht Hh Hr Hp Hi Hl Hn Hpos] Hne Hs.
  destruct (rttHeap_Remove_spec (pool w) (rtts w) p Hp) as (r & Er & Hp' & Hi' & Hn').
  { rewrite Hi. by eapply samples_elem. }
  exists r. split; [done|].
  pose proof (samples_insert (window w) (windowTailIndex w) (Some p) None Hs
    : p :: samples (<[windowTailIndex w := None]> (window w)) ≡ₚ samples (window w)) as HS.
  split; cbn [set_ring window windowTailIndex windowHeadIndex rtts pool]; rewrite ?length_insert.
  - ring_lia.
  - done.
  - intros i Hi2 Hring. assert (i <> windowTailIndex w) by ring_lia.
    rewrite list_lookup_insert_ne by done. apply Hr; [done|]. ring_lia.
  - done.
  - apply (Permutation_cons_inv (a := p)). by rewrite Hi', Hi, HS.
  - intros q Hq. apply Hl. rewrite <- HS. set_solver.
  - pose proof (sumZ_map_perm (rttOf (pool w)) _ _ HS) as HZ. cbn [map] in HZ. rewrite sumZ_cons in HZ.
    rewrite Hn', Hn, <- HZ, <- Z.add_opp_r, i64_i64_add. f_equal. lia.
  - done.
Qed.

(** The loop stops at the head or at a sample that is recent enough. *)
Lemma coalesce_loop_spec fuel w start :
  rtt_wf w -> (ring_size (length (window w)) (windowTailIndex w) (windowHeadIndex w) < fuel)%nat ->
  exists w', coalesce_loop fuel w start = Ret w' /\ rtt_wf w' /\ pool w' = pool w /\
    length (window w') = length (window w) /\ windowHeadIndex w' = windowHeadIndex w /\
    window w' !! windowHeadIndex w = window w !! windowHeadIndex w /\
    (forall i, inring (windowTailIndex w') (windowHeadIndex w) i -> (i < length (window w))%nat ->
       inring (windowTailIndex w) (windowHeadIndex w) i /\ window w' !! i = window w !! i) /\
    (windowTailIndex w' = windowHeadIndex w \/
     exists p, window w' !! windowTailIndex w' = Some (Some p) /\ start <= receiveTime (item_of (pool w) p)).
Proof.
  revert w. induction fuel as [|fuel IH]; intros w Hw Hf; [lia|]. cbn [coalesce_loop].
  destruct (Nat.eqb_spec (windowTailIndex w) (windowHeadIndex w)) as [E|E].
  { exists w. split; [done|]. split; [done|]. repeat (split; [done|]). by left. }
  pose proof (rw_tail _ Hw) as Ht. pose proof (rw_head _ Hw) as Hh.
  destruct (rw_ring _ Hw (windowTailIndex w)) as [p Hp]; [done|ring_lia|].
  rewrite (index_ret _ _ _ Hp). cbn [gbind].
  destruct (Z.ltb_spec (receiveTime (item_of (pool w) p)) start) as [Hlt|Hge]; cbn [negb].
  2:{ exists w. split; [done|]. split; [done|]. repeat (split; [done|]). right. eauto. }
  destruct (drop_tail w p Hw E Hp) as (r & -> & Hw1). cbn [gbind].
  unfold set_index. rewrite (proj2 (Nat.ltb_lt _ _) Ht). cbn [gbind]. rewrite succ_mod by done.
  set (w1 := set_ring _ _ _ _ _ _) in *.
  destruct (IH w1 Hw1) as (w' & E' & Hw' & P1 & P2 & P3 & P4 & P5 & P6).
  { cbn. rewrite length_insert. ring_lia. }
  cbn in P1, P2, P3, P4, P5, P6. rewrite length_insert in *.
  exists w'. split; [done|]. split; [done|]. split; [done|]. split; [done|]. split; [done|].
  split; [rewrite P4; by apply list_lookup_insert_ne|]. split; [|done].
  intros i Hi Hi2. destruct (P5 i Hi Hi2) as [Hr Hv]. split; [ring_lia|].
  rewrite Hv. apply list_lookup_insert_ne. ring_lia.
Qed.

Lemma coalesce_spec w t :
  rtt_wf w ->
  exists w', coalesce w t = Ret w' /\ rtt_wf w' /\ pool w' = pool w /\
    length (window w') = length (window w) /\ windowHeadIndex w' = windowHeadIndex w /\
    window w' !! windowHeadIndex w = window w !! windowHeadIndex w /\
    (forall i, inring (windowTailIndex w') (windowHeadIndex w) i -> (i < length (window w))%nat ->
       inring (windowTailIndex w) (windowHeadIndex w) i /\ window w' !! i = window w !! i) /\
    (windowTailIndex w' = windowHeadIndex w \/
     exists p, window w' !! windowTailIndex w' = Some (Some p) /\
       t + i64 (- windowTimeout w) <= receiveTime (item_of (pool w) p)).
Proof.
  intros Hw. apply coalesce_loop_spec; [done|]. pose proof (rw_tail _ Hw). pose proof (rw_head _ Hw). ring_lia.
Qed.

Lemma item_of_app l x p : (p < length l)%nat -> item_of (l ++ [x]) p = item_of l p.
Proof. intros Hp. unfold item_of. by rewrite lookup_app_l. Qed.

(** Pushing a new sample over a larger pool. *)
Lemma push_sample w x :
  rtt_wf w ->
  let pool' := pool w ++ [x] in
  let r := rttHeap_Add pool' (rtts w) (length (pool w)) in
  heap_wf (rttLess pool') (rttItems r) /\ items (rttItems r) ≡ₚ length (pool w) :: samples (window w) /\
  netRtt r = i64 (sumZ (map (rttOf pool') (length (pool w) :: samples (window w)))).
Proof.
  intros Hw pool' r. pose proof (rw_items _ Hw) as Hi. pose proof (rw_live _ Hw) as Hl.
  assert (Hold : forall p, p ∈ samples (window w) -> rttOf pool' p = rttOf (pool w) p).
  { intros p Hp. unfold rttOf, pool'. by rewrite item_of_app by auto. }
  destruct (heap_Push_spec _ (rttLess_asym pool') (rttLess_ntrans pool') (rttItems (rtts w)) (length (pool w))) as [H1 H2].
  - apply (heap_wf_ext (rttLess (pool w))); [|apply Hw]. intros a b Ha Hb. unfold rttLess.
    rewrite Hi in Ha, Hb. by rewrite !Hold.
  - rewrite Hi. intros Hp%Hl. lia.
  - split; [done|]. split; [unfold r; cbn; by rewrite H2, Hi|]. unfold r, rttHeap_Add. cbn [netRtt map].
    rewrite sumZ_cons, (rw_net _ Hw), i64_i64_add. f_equal. rewrite Z.add_comm. f_equal.
    apply sumZ_map_ext. intros p Hp. by rewrite Hold.
Qed.

Lemma time_Sub_range t u : u <= t -> 0 <= time_Sub t u <= MaxInt64.
Proof. unfold time_Sub, MaxInt64. lia. Qed.

(** The second half of [closeSendTime]. *)
Definition insert_sample (w : RttWindow) (x : rttWindowItem) : go RttWindow :=
  let p := length (pool w) in
  let pool' := pool w ++ [x] in
  let r := rttHeap_Add pool' (rtts w) p in
  let! slot := index (window w) (windowHeadIndex w) in
  let! r := match slot with
            | Some old => rttHeap_Remove pool' r old
            | None => Ret r
            end in
  let! win := set_index (window w) (windowHeadIndex w) (Some p) in
  let h := ((windowHeadIndex w + 1) mod length win)%nat in
  let t := if (windowTailIndex w =? h)%nat then ((windowTailIndex w + 1) mod length win)%nat else windowTailIndex w in
  Ret (set_ring w win t h r pool').

Lemma insert_sample_spec w x :
  rtt_wf w -> 0 <= rtt x <= MaxInt64 ->
  exists w', insert_sample w x = Ret w' /\ rtt_wf w' /\ pool w' = pool w ++ [x] /\
    length (window w') = length (window w) /\
    windowHeadIndex w' = next (length (window w)) (windowHeadIndex w) /\
    windowTailIndex w' = (if decide (windowTailIndex w = next (length (window w)) (windowHeadIndex w))
                          then next (length (window w)) (windowTailIndex w) else windowTailIndex w) /\
    window w' = <[windowHeadIndex w := Some (length (pool w))]> (window w).
Proof.
  intros Hw Hx. pose proof (rw_tail _ Hw) as Ht. pose proof (rw_head _ Hw) as Hh.
  destruct (push_sample w x Hw) as (Hp1 & Hp2 & Hp3). set (pool' := pool w ++ [x]) in *.
  set (p := length (pool w)) in *. set (r := rttHeap_Add pool' (rtts w) p) in *.
  destruct (lookup_lt_is_Some_2 (window w) (windowHeadIndex w) Hh) as [slot Hslot].
  unfold insert_sample. fold p pool' r. rewrite (index_ret _ _ _ Hslot). cbn [gbind].
  pose proof (samples_insert (window w) (windowHeadIndex w) slot (Some p) Hslot) as HS.
  set (win := <[windowHeadIndex w := Some p]> (window w)) in *.
  assert (Hrem : exists r', match slot with Some old => rttHeap_Remove pool' r old | None => Ret r end = Ret r' /\
            heap_wf (rttLess pool') (rttItems r') /\ items (rttItems r') ≡ₚ samples win /\
            netRtt r' = i64 (sumZ (map (rttOf pool') (samples win)))).
  { destruct slot as [old|].
    - change (old :: samples win ≡ₚ p :: samples (window w)) in HS.
      destruct (rttHeap_Remove_spec pool' r old Hp1) as (r' & -> & H1 & H2 & H3).
      { rewrite Hp2, <- HS. set_solver. }
      exists r'. split; [done|]. split; [done|].
      assert (Hperm : items (rttItems r') ≡ₚ samples win).
      { apply (Permutation_cons_inv (a := old)). by rewrite H2, Hp2, HS. }
      split; [done|]. pose proof (sumZ_map_perm (rttOf pool') _ _ HS) as HZ. cbn [map] in HZ, Hp3. rewrite !sumZ_cons in HZ.
      rewrite H3, Hp3, sumZ_cons, <- HZ, <- Z.add_opp_r, i64_i64_add. f_equal. lia.
    - change (samples win ≡ₚ p :: samples (window w)) in HS. exists r. split; [done|]. split; [done|].
      split; [by rewrite Hp2, HS|]. rewrite Hp3. f_equal. symmetry. by apply sumZ_map_perm. }
  destruct Hrem as (r' & -> & Hr1 & Hr2 & Hr3). cbn [gbind].
  unfold set_index. rewrite (proj2 (Nat.ltb_lt _ _) Hh). cbn [gbind]. fold win.
  assert (Elen : length win = length (window w)) by apply length_insert.
  rewrite Elen, !succ_mod by done. set (n := length (window w)) in *.
  eexists. split; [done|]. cbn [pool window windowHeadIndex windowTailIndex set_ring].
  split; [|split; [done|split; [done|split; [done|split; [|done]]]]].
  2:{ destruct (Nat.eqb_spec (windowTailIndex w) (next n (windowHeadIndex w))), (decide _); done. }
  split; cbn [pool window windowHeadIndex windowTailIndex set_ring rtts]; rewrite ?Elen; fold n.
  - destruct (Nat.eqb_spec (windowTailIndex w) (next n (windowHeadIndex w))); ring_lia.
  - ring_lia.
  - intros i Hi Hring. destruct (decide (i = windowHeadIndex w)) as [->|Hne].
    { exists p. unfold win. by apply list_lookup_insert_eq. }
    unfold win. rewrite list_lookup_insert_ne by done. apply (rw_ring _ Hw); [done|].
    destruct (Nat.eqb_spec (windowTailIndex w) (next n (windowHeadIndex w))); ring_lia.
  - done.
  - done.
  - intros q Hq. unfold pool'. rewrite length_app. cbn [length].
    assert (Hq' : q ∈ option_list slot ++ samples win) by set_solver. rewrite HS in Hq'.
    change (q ∈ p :: samples (window w)) in Hq'. apply elem_of_cons in Hq' as [->|Hq'%(rw_live _ Hw)]; unfold p; lia.
  - done.
  - unfold pool'. apply Forall_app. split; [apply Hw|]. by constructor.
Qed.

Lemma closeSendTime_spec w ms t :
  rtt_wf w -> exists w', closeSendTime w ms t = Ret w' /\ rtt_wf w'.
Proof.
  intros Hw. unfold closeSendTime. destruct (Z.ltb_spec t (i64 ms * 1000000)) as [|Hge]; [by exists w|].
  destruct (coalesce_spec w t Hw) as (w1 & -> & Hw1 & _). cbn [gbind].
  fold (insert_sample w1 (newRttWindowItem (i64 ms * 1000000) t)).
  destruct (insert_sample_spec w1 (newRttWindowItem (i64 ms * 1000000) t) Hw1) as (w' & E & Hw' & _); [by apply time_Sub_range|].
  exists w'. done.
Qed.

(** The configuration of a window never changes. *)
Definition rtt_conf (w : RttWindow) : Z * Z * Z := (minScaledRtt w, rttMinScaledRtt w, maxScaledRtt w).

Lemma coalesce_conf w t w' : coalesce w t = Ret w' -> rtt_conf w' = rtt_conf w.
Proof.
  unfold coalesce. generalize (length (window w)) (t + i64 (- windowTimeout w)). intros n u. revert w.
  induction n as [|n IH]; intros w; cbn [coalesce_loop]; [by intros [= <-]|].
  destruct (_ =? _)%nat; [by intros [= <-]|]. intros E. apply gbind_ret_inv in E as ([p|] & _ & E); [|done].
  destruct (negb _); [by injection E as <-|]. apply gbind_ret_inv in E as (r & _ & E). apply gbind_ret_inv in E as (win & _ & E).
  by rewrite (IH _ E).
Qed.

Lemma closeSendTime_conf w ms t w' : closeSendTime w ms t = Ret w' -> rtt_conf w' = rtt_conf w.
Proof.
  unfold closeSendTime. destruct (_ <? _); [by intros [= <-]|]. intros E.
  apply gbind_ret_inv in E as (w1 & E1 & E). apply gbind_ret_inv in E as (slot & _ & E).
  apply gbind_ret_inv in E as (r & _ & E). apply gbind_ret_inv in E as (win & _ & [= <-]). by rewrite <- (coalesce_conf _ _ _ E1).
Qed.

(** ** Events *)

Inductive rtt_event :=
| RClose (ms t : Z)        (* an acknowledgement received at [t] *)
| RQuery (t : Z).          (* an estimate asked for at [t] *)

Definition rrun (e : rtt_event) (w : RttWindow) : go RttWindow :=
  match e with
  | RClose ms t => closeSendTime w ms t
  | RQuery t => coalesce w t
  end.

Fixpoint rruns (es : list rtt_event) (w : RttWindow) : go RttWindow :=
  match es with
  | [] => Ret w
  | e :: es => let! w := rrun e w in rruns es w
  end.

Definition event_time (e : rtt_event) : Z := match e with RClose _ t | RQuery t => t end.

(** The events come in time order, from [T] on. *)
Fixpoint in_order (T : Z) (es : list rtt_event) : Prop :=
  match es with
  | [] => True
  | e :: es => T <= event_time e /\ in_order (event_time e) es
  end.

Lemma rrun_spec e w : rtt_wf w -> exists w', rrun e w = Ret w' /\ rtt_wf w'.
Proof.
  intros Hw. destruct e as [ms t|t]; [by apply closeSendTime_spec|].
  destruct (coalesce_spec w t Hw) as (w' & E & Hw' & _). eauto.
Qed.

Lemma rruns_spec es w : rtt_wf w -> exists w', rruns es w = Ret w' /\ rtt_wf w'.
Proof.
  revert w. induction es as [|e es IH]; intros w Hw; [eauto|]. cbn.
  destruct (rrun_spec e w Hw) as (w1 & -> & Hw1). by apply IH.
Qed.

Lemma samples_replicate n : samples (replicate n None) = [].
Proof. induction n; [done|]. done. Qed.

Lemma new_wf n timeout scale minScaled rest :
  n <> 0%nat -> exists w, NewRttWindow n timeout scale minScaled rest = Ret w /\ rtt_wf w /\ length (window w) = n /\
    windowTailIndex w = 0%nat /\ windowHeadIndex w = 0%nat /\ windowTimeout w = timeout.
Proof.
  intros Hn. unfold NewRttWindow. rewrite (proj2 (Nat.eqb_neq _ _) Hn).
  destruct (match rest with [] => _ | _ => _ end) as [a b].
  eexists. split; [done|]. split; [|cbn; by rewrite length_replicate].
  split; cbn [window windowTailIndex windowHeadIndex rtts pool]; rewrite ?length_replicate, ?samples_replicate; try lia; try done.
  - intros i _ Hi. ring_lia.
  - apply heap_wf_empty.
  - intros p Hp. by apply not_elem_of_nil in Hp.
Qed.

(** *** Time order *)

Definition slot_time (w : RttWindow) (i : nat) (t : Z) : Prop :=
  exists p, window w !! i = Some (Some p) /\ receiveTime (item_of (pool w) p) = t.
Definition held (w : RttWindow) (i : nat) : Prop :=
  (i < length (window w))%nat /\ inring (windowTailIndex w) (windowHeadIndex w) i.

(** The samples between tail and head are in time order, none after [T]. *)
Record ordered (w : RttWindow) (T : Z) : Prop := {
  or_sorted : forall i j a b, held w i -> held w j -> slot_time w i a -> slot_time w j b ->
    (pos (length (window w)) (windowTailIndex w) i <= pos (length (window w)) (windowTailIndex w) j)%nat -> a <= b;
  or_last : forall i a, held w i -> slot_time w i a -> a <= T;
}.

Lemma ordered_coalesce w w' T t :
  rtt_wf w -> ordered w T -> coalesce w t = Ret w' -> ordered w' T.
Proof.
  intros Hw [Ho1 Ho2] E. destruct (coalesce_spec w t Hw) as (w1 & E1 & Hw1 & P1 & P2 & P3 & _ & P5 & _).
  rewrite E in E1. injection E1 as <-.
  pose proof (rw_tail _ Hw) as Ht. pose proof (rw_head _ Hw) as Hh. pose proof (rw_tail _ Hw1) as Ht1.
  rewrite P2 in Ht1.
  assert (Hsub : forall i a, held w' i -> slot_time w' i a -> held w i /\ slot_time w i a).
  { intros i a [Hi1 Hi2] (p & Hp & Hpa). rewrite P2, P3 in *. destruct (P5 i Hi2 Hi1) as [Hr Hv].
    split; [done|]. exists p. by rewrite <- Hv, <- P1. }
  split.
  - intros i j a b Hi Hj Ha Hb Hle. destruct (Hsub i a Hi Ha) as [Hi' Ha']. destruct (Hsub j b Hj Hb) as [Hj' Hb'].
    apply (Ho1 i j a b); try done. destruct Hi as [Hi1 Hi2], Hj as [Hj1 Hj2]. rewrite P2, P3 in *.
    assert (Ht' : inring (windowTailIndex w') (windowHeadIndex w) (windowTailIndex w')) by ring_lia.
    destruct (P5 _ Ht' Ht1) as [Htr _]. destruct Hi' as [_ Hi'], Hj' as [_ Hj'].
    revert Hle Htr Hi2 Hj2 Hi' Hj' Ht' Hi1 Hj1 Ht Hh Ht1. clear. ring_lia.
  - intros i a Hi Ha. destruct (Hsub i a Hi Ha). eauto.
Qed.

Lemma ordered_insert w w' T x :
  rtt_wf w -> ordered w T -> 0 <= rtt x <= MaxInt64 -> T <= receiveTime x -> insert_sample w x = Ret w' ->
  ordered w' (receiveTime x).
Proof.
  intros Hw [Ho1 Ho2] Hx HT E. destruct (insert_sample_spec w x Hw Hx) as (w1 & E1 & Hw1 & P1 & P2 & P3 & P4 & P5).
  rewrite E in E1. injection E1 as <-.
  pose proof (rw_tail _ Hw) as Ht. pose proof (rw_head _ Hw) as Hh.
  assert (Hsub : forall i a, held w' i -> slot_time w' i a ->
            i = windowHeadIndex w /\ a = receiveTime x \/ i <> windowHeadIndex w /\ held w i /\ slot_time w i a).
  { intros i a [Hi1 Hi2] (p & Hp & Hpa). rewrite P2 in Hi1. rewrite P5 in Hp.
    destruct (decide (i = windowHeadIndex w)) as [->|Hne].
    - left. split; [done|]. rewrite list_lookup_insert_eq in Hp by done. injection Hp as <-.
      unfold item_of in Hpa. rewrite P1, lookup_app_r, Nat.sub_diag in Hpa by lia. done.
    - right. split; [done|]. rewrite list_lookup_insert_ne in Hp by done. split.
      + split; [done|]. rewrite P3, P4 in Hi2. revert Hi2 Hne Hi1 Ht Hh. clear. ring_lia.
      + exists p. split; [done|]. rewrite P1, item_of_app in Hpa; [done|]. apply (rw_live _ Hw). by eapply samples_elem. }
  split.
  - intros i j a b Hi Hj Ha Hb Hle. destruct (Hsub j b Hj Hb) as [[-> ->]|(Hnj & Hj' & Hb')].
    + destruct (Hsub i a Hi Ha) as [[_ ->]|(_ & Hi' & Ha')]; [done|]. pose proof (Ho2 i a Hi' Ha'). lia.
    + destruct (Hsub i a Hi Ha) as [[-> ->]|(Hni & Hi' & Ha')].
      * exfalso. destruct Hi as [Hi1 Hi2], Hj as [Hj1 Hj2]. destruct Hj' as [_ Hj']. rewrite P2, P3, P4 in *.
        revert Hle Hnj Hi1 Hi2 Hj1 Hj2 Hj' Ht Hh. clear. ring_lia.
      * apply (Ho1 i j a b); try done. destruct Hi as [Hi1 Hi2], Hj as [Hj1 Hj2], Hi' as [_ Hi'], Hj' as [_ Hj'].
        rewrite P2, P3, P4 in *. revert Hle Hnj Hni Hi1 Hi2 Hj1 Hj2 Hi' Hj' Ht Hh. clear. ring_lia.
  - intros i a Hi Ha. destruct (Hsub i a Hi Ha) as [[_ ->]|(_ & Hi' & Ha')]; [done|]. pose proof (Ho2 i a Hi' Ha'). lia.
Qed.

Lemma rrun_ordered e w w' T :
  rtt_wf w -> ordered w T -> T <= event_time e -> rrun e w = Ret w' -> ordered w' (event_time e).
Proof.
  intros Hw Ho HT E. assert (Hweak : forall v T', ordered v T -> T <= T' -> ordered v T').
  { intros v T' [H1 H2] HT'. split; [done|]. intros i a Hi Ha. pose proof (H2 i a Hi Ha). lia. }
  destruct e as [ms t|t]; cbn in *; [|by apply (Hweak w'), HT; apply (ordered_coalesce w w' T t)].
  unfold closeSendTime in E. destruct (Z.ltb_spec t (i64 ms * 1000000)); [injection E as <-; by apply Hweak|].
  destruct (coalesce_spec w t Hw) as (w1 & E1 & Hw1 & _). rewrite E1 in E. cbn [gbind] in E.
  apply (ordered_insert w1 w' T (newRttWindowItem (i64 ms * 1000000) t)); try done.
  - by apply (ordered_coalesce w w1 T t).
  - by apply time_Sub_range.
Qed.

Lemma rruns_ordered es w w' T :
  rtt_wf w -> ordered w T -> in_order T es -> rruns es w = Ret w' ->
  exists T', ordered w' T' /\ T <= T' /\ T' = fold_left (fun _ e => event_time e) es T.
Proof.
  revert w T. induction es as [|e es IH]; intros w T Hw Ho Hio E; cbn in *; [injection E as <-; by exists T|].
  destruct Hio as [H1 H2]. destruct (rrun_spec e w Hw) as (w1 & E1 & Hw1). rewrite E1 in E. cbn [gbind] in E.
  pose proof (rrun_ordered e w w1 T Hw Ho H1 E1) as Ho1.
  destruct (IH w1 (event_time e) Hw1 Ho1 H2 E) as (T' & ? & ? & ?). exists T'. split; [done|]. split; [lia|done].
Qed.

(** The mean of non-negative samples is not below the smallest of them. *)
Lemma mean_ge_min w :
  rtt_wf w -> samples (window w) <> [] ->
  sumZ (map (rttOf (pool w)) (samples (window w))) <= MaxInt64 ->
  MinRtt (pool w) (rtts w) <= rttHeap_MeanRtt (rtts w) /\
  forall p, p ∈ samples (window w) -> MinRtt (pool w) (rtts w) <= rttOf (pool w) p.
Proof.
  intros Hw Hne Hsum. pose proof (rw_items _ Hw) as Hi. unfold MinRtt, rttHeap_MeanRtt, Len.
  pose proof (sumZ_map_perm (rttOf (pool w)) _ _ Hi) as HZ.
  destruct (items (rttItems (rtts w))) as [|p l] eqn:E; [by apply Permutation_nil_l in Hi|].
  assert (Hmin : forall q, q ∈ p :: l -> rttOf (pool w) p <= rttOf (pool w) q).
  { intros q Hq. rewrite <- E in Hq. assert (H0 : items (rttItems (rtts w)) !! 0%nat = Some p) by (by rewrite E).
    pose proof (heap_root _ (rttLess_asym (pool w)) (rttLess_ntrans (pool w)) _ p (hw_heap _ _ (rw_heap _ Hw)) H0 q Hq) as Hle.
    by apply Z.ltb_ge in Hle. }
  split; [|intros q Hq; apply Hmin; by rewrite Hi].
  assert (Hp : forall q, 0 <= rttOf (pool w) q).
  { intros q. unfold rttOf, item_of. destruct (pool w !! q) as [x|] eqn:Ex; [|done]. cbn.
    pose proof (rw_pos _ Hw) as HF. rewrite Forall_forall in HF. apply list_elem_of_lookup_2, list_elem_of_In in Ex.
    by destruct (HF x Ex). }
  assert (Hbound : Z.of_nat (length (p :: l)) * rttOf (pool w) p <= sumZ (map (rttOf (pool w)) (p :: l))).
  { clear - Hmin. induction (p :: l) as [|q l' IH]; [done|]. cbn [length map]. rewrite sumZ_cons.
    pose proof (Hmin q ltac:(set_solver)). assert (Z.of_nat (length l') * rttOf (pool w) p <= sumZ (map (rttOf (pool w)) l')) by (apply IH; set_solver). lia. }
  assert (Hs0 : 0 <= sumZ (map (rttOf (pool w)) (p :: l))) by (apply sumZ_map_nonneg; auto).
  rewrite (rw_net _ Hw), <- HZ. cbn [length] in *. cbn [Nat.eqb].
  rewrite (i64_small (sumZ _)) by (unfold MaxInt64 in *; lia).
  assert (Hq : rttOf (pool w) p <= Z.quot (sumZ (map (rttOf (pool w)) (p :: l))) (Z.of_nat (S (length l)))).
  { apply Z.quot_le_lower_bound; lia. }
  rewrite i64_small; [done|]. split.
  - pose proof (Hp p). unfold MaxInt64. lia.
  - transitivity (sumZ (map (rttOf (pool w)) (p :: l))); [|lia]. apply Z.quot_le_upper_bound; nia.
Qed.

(** ** Claims *)

(** From a new window, any sequence of acknowledgements and estimates
    runs without a panic (no nil sample, no stale heap index): afterwards the
    heap holds exactly the samples of the ring's slots, at most one per slot,
    its running sum is theirs, and when that sum fits 64 bits the mean
    estimate is at least the minimum estimate, which bounds every sample. *)
Theorem rtt_window_consistent n timeout sc minScaled rest es :
  n <> 0%nat ->
  exists w0 w, NewRttWindow n timeout sc minScaled rest = Ret w0 /\ rruns es w0 = Ret w /\
    items (rttItems (rtts w)) ≡ₚ samples (window w) /\ (length (samples (window w)) <= length (window w))%nat /\
    NoDup (samples (window w)) /\
    netRtt (rtts w) = i64 (sumZ (map (rttOf (pool w)) (samples (window w)))) /\
    (samples (window w) <> [] -> sumZ (map (rttOf (pool w)) (samples (window w))) <= MaxInt64 ->
       MinRtt (pool w) (rtts w) <= rttHeap_MeanRtt (rtts w) /\
       forall p, p ∈ samples (window w) -> MinRtt (pool w) (rtts w) <= rttOf (pool w) p).
Proof.
  intros Hn. destruct (new_wf n timeout sc minScaled rest Hn) as (w0 & E0 & Hw0 & _).
  destruct (rruns_spec es w0 Hw0) as (w & E & Hw). exists w0, w. split; [done|]. split; [done|].
  split; [apply Hw|]. split.
  { clear. unfold samples. induction (window w) as [|[q|] l IH]; cbn in *; lia. }
  split; [rewrite <- (rw_items _ Hw); apply (rw_heap _ Hw)|]. split; [apply Hw|]. by apply mean_ge_min.
Qed.

Lemma rtt_window_consistent_witness :
  exists w0 w, NewRttWindow 2 60000000000 (float32_of_Z 2) 0 [] = Ret w0 /\
    rruns [RClose 1000 1500000000; RClose 2000 2100000000] w0 = Ret w /\ NoDup (samples (window w)).
Proof.
  destruct (rtt_window_consistent 2 60000000000 (float32_of_Z 2) 0 [] [RClose 1000 1500000000; RClose 2000 2100000000])
    as (w0 & w & E1 & E2 & _ & _ & H & _); [lia|]. exists w0, w. exact (conj E1 (conj E2 H)).
Defined.

(** Expiry: when events arrive in time order, an estimate at time [t]
    first drops every sample between the tail and the head that was received
    before [t] minus the window timeout. *)
Theorem rtt_window_expires n timeout sc minScaled rest es w0 w t w' i a :
  NewRttWindow n timeout sc minScaled rest = Ret w0 -> in_order 0 es -> rruns es w0 = Ret w ->
  coalesce w t = Ret w' -> held w' i -> slot_time w' i a -> t + i64 (- windowTimeout w) <= a.
Proof.
  intros E0 Hio E Ec Hi Ha. destruct (decide (n = 0%nat)) as [->|Hn]; [done|].
  destruct (new_wf n timeout sc minScaled rest Hn) as (w0' & E0' & Hw0 & Hlen & Ht0 & Hh0 & _).
  rewrite E0 in E0'. injection E0' as <-.
  assert (Ho0 : ordered w0 0).
  { split; [intros i0 j a0 b [_ Hi0]|intros i0 a0 [_ Hi0]]; rewrite Ht0, Hh0 in Hi0; ring_lia. }
  destruct (rruns_spec es w0 Hw0) as (w1 & E1 & Hw). rewrite E in E1. injection E1 as <-.
  destruct (rruns_ordered es w0 w 0 Hw0 Ho0 Hio E) as (T' & Ho & _).
  pose proof (ordered_coalesce w w' T' t Hw Ho Ec) as [Ho1 _].
  destruct (coalesce_spec w t Hw) as (w2 & E2 & Hw' & P1 & P2 & P3 & _ & _ & P6). rewrite Ec in E2. injection E2 as <-.
  destruct P6 as [P6|(p & Hp & Hge)].
  { exfalso. destruct Hi as [_ Hi]. rewrite P3, P6 in Hi. ring_lia. }
  etrans; [exact Hge|]. pose proof (rw_tail _ Hw') as Ht'. pose proof (rw_head _ Hw') as Hh'.
  apply (Ho1 (windowTailIndex w') i _ _).
  - split; [done|]. destruct Hi as [Hi1 Hi2]. ring_lia.
  - done.
  - exists p. split; [done|]. by rewrite P1.
  - done.
  - ring_lia.
Qed.

(** Two samples in a window of three. *)
Definition demo_rtt : go RttWindow :=
  let! w := NewRttWindow 3 60000000000 (float32_of_Z 2) 0 [] in
  rruns [RClose 1000 1500000000; RClose 50000 50100000000] w.

Lemma rtt_window_expires_witness :
  exists w0 w w', NewRttWindow 3 60000000000 (float32_of_Z 2) 0 [] = Ret w0 /\
    rruns [RClose 1000 1500000000; RClose 50000 50100000000] w0 = Ret w /\ coalesce w 70000000000 = Ret w' /\
    70000000000 + i64 (- windowTimeout w) <= 50100000000.
Proof.
  do 3 eexists. split; [reflexivity|]. split; [vm_compute; reflexivity|]. split; [vm_compute; reflexivity|].
  eapply (rtt_window_expires 3 60000000000 (float32_of_Z 2) 0 [] [RClose 1000 1500000000; RClose 50000 50100000000]
           _ _ 70000000000 _ 1 50100000000).
  - reflexivity.
  - cbn. lia.
  - vm_compute. reflexivity.
  - vm_compute. reflexivity.
  - split; vm_compute; lia.
  - eexists. split; vm_compute; reflexivity.
Defined.

(** A full ring keeps its oldest sample past the timeout: in a window of
    two with both slots filled, the sample in the head slot is outside the
    range the expiry loop visits, so an estimate asked for long after both
    samples timed out still returns that sample's round-trip time. *)
Theorem rtt_full_ring_never_expires :
  exists w0 w w', NewRttWindow 2 60000000000 (float32_of_Z 1) 0 [] = Ret w0 /\
    rruns [RClose 1000 1500000000; RClose 2000 2100000000] w0 = Ret w /\
    Forall (fun x => receiveTime x < 1000000000000000 + i64 (- windowTimeout w)) (pool w) /\
    MeanRtt w 1000000000000000 = Ret (w', 500000000).
Proof.
  do 3 eexists. split; [reflexivity|]. split; [vm_compute; reflexivity|].
  split; [repeat constructor|vm_compute; reflexivity].
Qed.

(** Every scaled estimate is at most the configured maximum, and at least
    its floor when the floor is within the maximum; without a sample the
    floor is the minimum used for an unknown path. *)
Theorem scaled_rtt_bounds w t w' v :
  scaledRtt w t = Ret (w', v) \/ probeRtt w t = Ret (w', v) ->
  v <= maxScaledRtt w' /\
  (Z.max (minScaledRtt w') (rttMinScaledRtt w') <= maxScaledRtt w' -> Z.min (minScaledRtt w') (rttMinScaledRtt w') <= v) /\
  (items (rttItems (rtts w')) = [] -> minScaledRtt w' <= maxScaledRtt w' -> minScaledRtt w' <= v).
Proof.
  intros H. assert (Hv : exists u, v = scale w' u /\ (items (rttItems (rtts w')) = [] -> u = 0)).
  { destruct H as [H|H]; apply gbind_ret_inv in H as (w1 & _ & [= <- <-]); eexists; (split; [done|]); intros E.
    - unfold rttHeap_MeanRtt, Len. by rewrite E.
    - unfold MinRtt. by rewrite E. }
  destruct Hv as (u & -> & Hu). unfold scale. split; [lia|]. split.
  - destruct (_ || _); lia.
  - intros E. rewrite (Hu E), orb_true_r. lia.
Qed.

Lemma scaled_rtt_bounds_witness :
  match demo_rtt with
  | Ret w => exists w' v, scaledRtt w 70000000000 = Ret (w', v) /\ v <= 0
  | Panic => False
  end.
Proof.
  destruct demo_rtt as [w|] eqn:E; [|vm_compute in E; discriminate E].
  destruct (scaledRtt w 70000000000) as [[w' v]|] eqn:E2.
  - exists w', v. split; [reflexivity|].
    assert (Em : maxScaledRtt w' = 0).
    { vm_compute in E. injection E as <-. vm_compute in E2. injection E2 as <- _. reflexivity. }
    rewrite <- Em. exact (proj1 (scaled_rtt_bounds w 70000000000 w' v (or_introl E2))).
  - exfalso. vm_compute in E. injection E as <-. vm_compute in E2. discriminate E2.
Defined.
