(* ===== verification/CombineQueue.v ===== *)
(** The fragment combiner of the DNS packet translation (combineQueue in
    src/transport_pt_queue.go, settings and receive loop in src/transport_pt.go).
    Fragments arrive in any order and from any address; a bounded queue, ordered
    by update time, holds the incomplete packets.

    Items are pointers into a store, since the heap, the key map and the handler
    share and update them. A fragment is a pooled buffer: its identity, its bytes
    and its capacity. An address is what its [String] method says. *)
From S2P Require Import Prelude GoIo GoHeap.

(** The limits of PacketTranslationSettings that the queues read. *)
Record PacketTranslationSettings := TranslationSettings {
  DnsStateTimeout : Z;
  DnsMaxCombinePerAddress : Z;
  DnsMaxCombine : Z;
  DnsMaxCombineFragmentCount : Z;
  DnsMaxCombinedPacketByteCount : Z;
  DnsMaxCombineBytesPerAddress : Z;
  DnsMaxCombineBytes : Z;
  DnsMaxPumpHostsPerAddress : Z;
  DnsMaxPumpHosts : Z;
}.

(** What [NewPacketTranslation] accepts. *)
Definition settings_accepted (s : PacketTranslationSettings) : bool :=
  negb ((DnsStateTimeout s <=? 0) ||
        ((DnsMaxCombinePerAddress s <=? 0) || (DnsMaxCombine s <=? 0) || (DnsMaxCombineFragmentCount s <=? 0) ||
         (DnsMaxCombinedPacketByteCount s <=? 0) || (DnsMaxCombineBytesPerAddress s <=? 0) || (DnsMaxCombineBytes s <=? 0)) ||
        ((DnsMaxPumpHostsPerAddress s <=? 0) || (DnsMaxPumpHosts s <=? 0))).

Record buffer := Buffer { buf_id : nat; buf_bytes : bytes; buf_cap : Z }.

Definition combineItemRetainedByteCount : Z := 256.
Definition combinePacketRetainedByteCount : Z := 48.
Definition combinePointerRetainedByteCount : Z := 8.
Definition MetaByteCount : Z := 13.

Definition newCombineItemRetainedByteCount (fragmentCount : Z) : Z := combineItemRetainedByteCount + fragmentCount * combinePointerRetainedByteCount.
Definition combineFragmentRetainedByteCount (data : buffer) : Z := combinePacketRetainedByteCount + MetaByteCount + buf_cap data.

Inductive combine_error := ErrFragmentCount | ErrFragmentIndex.

Section combine.
(** net.Addr. *)
Context {Addr : Type} (String : Addr -> list Z).

(** The write side's result channel is nil in a received packet. *)
Record packet := Packet { p_data : buffer; p_addr : Addr }.

Record combineItem := CombineItem {
  ci_key : list Z;
  ci_addr : Addr;
  ci_packets : list (option packet);
  ci_n : Z;
  ci_updateAddr : option Addr;
  ci_updateTime : Z;
  ci_retained : Z;
  ci_payload : Z;
}.

(** [heapIndex] of every item is the index map of the heap. *)
Record combineQueue := CombineQueue {
  cq_settings : PacketTranslationSettings;
  cq_items : iheap nat;
  cq_store : gmap nat combineItem;
  cq_next : nat;
  keyItems : gmap (list Z) nat;
  addrItemCount : gmap (list Z) Z;
  addrByteCount : gmap (list Z) Z;
  retainedBytes : Z;
}.

Definition newCombineQueue (settings : PacketTranslationSettings) : combineQueue :=
  CombineQueue settings (heap_Init (fun _ _ => false) (Iheap [] ∅)) ∅ 0 ∅ ∅ ∅ 0.

Definition update_time (store : gmap nat combineItem) (p : nat) : Z := match store !! p with Some it => ci_updateTime it | None => 0 end.
Definition item_less (store : gmap nat combineItem) (a b : nat) : bool := update_time store a <? update_time store b.

Definition packets_data (l : list (option packet)) : list buffer := omap (option_map p_data) l.

(** [remove]; the buffers it returns to the pool come with the queue. *)
Definition remove (q : combineQueue) (p : nat) (item : combineItem) (releasePackets : bool) : go (combineQueue * list nat) :=
  let! '(h, _) := heap_Remove (item_less (cq_store q)) (cq_items q) (default 0%nat (idx (cq_items q) !! p)) in
  let addrKey := String (ci_addr item) in
  let c := default 0 (addrItemCount q !! addrKey) in
  let counts := if c <=? 1 then delete addrKey (addrItemCount q) else <[addrKey := c - 1]> (addrItemCount q) in
  let bytes := default 0 (addrByteCount q !! addrKey) - ci_retained item in
  let byteCounts := if bytes <=? 0 then delete addrKey (addrByteCount q) else <[addrKey := bytes]> (addrByteCount q) in
  Ret (CombineQueue (cq_settings q) h (cq_store q) (cq_next q) (delete (ci_key item) (keyItems q)) counts byteCounts
         (retainedBytes q - ci_retained item),
       if releasePackets then map buf_id (packets_data (ci_packets item)) else []).

Definition OldestUpdateTime (q : combineQueue) : option Z :=
  match items (cq_items q) with
  | [] => None
  | p :: _ => Some (update_time (cq_store q) p)
  end.

(** Each round removes an item. *)
Fixpoint older_loop (fuel : nat) (q : combineQueue) (minUpdateTime : Z) : go (combineQueue * list nat) :=
  match items (cq_items q) with
  | p :: _ =>
      if update_time (cq_store q) p <=? minUpdateTime then
        match fuel, cq_store q !! p with
        | S fuel, Some item =>
            let! '(q, returned) := remove q p item true in
            let! '(q, rest) := older_loop fuel q minUpdateTime in
            Ret (q, returned ++ rest)
        | _, _ => Panic
        end
      else Ret (q, [])
  | [] => Ret (q, [])
  end.
Definition RemoveOlder (q : combineQueue) (minUpdateTime : Z) : go (combineQueue * list nat) :=
  older_loop (length (items (cq_items q))) q minUpdateTime.

(** [for _, p := range item.packets]: a missing packet is a nil dereference. *)
Fixpoint total_data (l : list (option packet)) : go nat :=
  match l with
  | [] => Ret 0%nat
  | Some p :: l => let! n := total_data l in Ret (length (buf_bytes (p_data p)) + n)%nat
  | None :: _ => Panic
  end.
Fixpoint copy_data (l : list (option packet)) (data : bytes) (i : nat) : go bytes :=
  match l with
  | [] => Ret data
  | Some p :: l =>
      let! data := copy_into data i (length data) (buf_bytes (p_data p)) in
      copy_data l data (i + length (buf_bytes (p_data p)))
  | None :: _ => Panic
  end.

Inductive combine_result :=
| Combined (data : bytes) (addr : option Addr)
| Incomplete
| Limited
| Failed (e : combine_error).

Context {MP : MessagePool}.

(** What the fragment adds to the item, less what it replaces. *)
Definition retained_delta (data : buffer) (oldPacket : option packet) : Z :=
  combineFragmentRetainedByteCount data - match oldPacket with Some p => combineFragmentRetainedByteCount (p_data p) | None => 0 end.
Definition payload_delta (data : buffer) (oldPacket : option packet) : Z :=
  Z.of_nat (length (buf_bytes data)) - match oldPacket with Some p => Z.of_nat (length (buf_bytes (p_data p))) | None => 0 end.
Definition store_packet (item : combineItem) (oldPacket : option packet) (addr : Addr) (i : nat) (data : buffer) (now : Z) : combineItem :=
  CombineItem (ci_key item) (ci_addr item) (<[i := Some (Packet data addr)]> (ci_packets item))
    (match oldPacket with Some _ => ci_n item | None => ci_n item + 1 end) (Some addr) now
    (ci_retained item + retained_delta data oldPacket) (ci_payload item + payload_delta data oldPacket).

(** The item after the fragment, and where it goes. [known] is its pointer when
    it was in the queue. *)
Definition combine_item (q : combineQueue) (known : option nat) (item : combineItem) (addr : Addr) (i : nat) (data : buffer) (now : Z)
    : go (combineQueue * combine_result * list nat) :=
  let s := cq_settings q in
  let! oldPacket := index (ci_packets item) i in
  let retainedDelta := retained_delta data oldPacket in
  if DnsMaxCombinedPacketByteCount s <? ci_payload item + payload_delta data oldPacket then Ret (q, Limited, [])
  else
    let addrKey := String (ci_addr item) in
    let fresh := match known with Some _ => 0 | None => ci_retained item end in
    let prospectiveTotalBytes := retainedBytes q + retainedDelta + fresh in
    let prospectiveAddressBytes := default 0 (addrByteCount q !! addrKey) + retainedDelta + fresh in
    if (DnsMaxCombineBytes s <? prospectiveTotalBytes) || (DnsMaxCombineBytesPerAddress s <? prospectiveAddressBytes) then Ret (q, Limited, [])
    else
      let released := match oldPacket with Some p => [buf_id (p_data p)] | None => [] end in
      let item := store_packet item oldPacket addr i data now in
      let p := match known with Some p => p | None => cq_next q end in
      let q := CombineQueue s (cq_items q) (<[p := item]> (cq_store q)) (match known with Some _ => cq_next q | None => S (cq_next q) end) (keyItems q)
                 (addrItemCount q)
                 (match known with Some _ => <[addrKey := default 0 (addrByteCount q !! addrKey) + retainedDelta]> (addrByteCount q) | None => addrByteCount q end)
                 (match known with Some _ => retainedBytes q + retainedDelta | None => retainedBytes q end) in
      if ci_n item =? Z.of_nat (length (ci_packets item)) then
        let! n := total_data (ci_packets item) in
        let! out := copy_data (ci_packets item) (pool_get n) 0 in
        let released := released ++ map buf_id (packets_data (ci_packets item)) in
        match known with
        | Some p => let! '(q, _) := remove q p item false in Ret (q, Combined out (ci_updateAddr item), released)
        | None => Ret (q, Combined out (ci_updateAddr item), released)
        end
      else
        match known with
        | None =>
            Ret (CombineQueue s (heap_Push (item_less (cq_store q)) (cq_items q) p) (cq_store q) (cq_next q) (<[ci_key item := p]> (keyItems q))
                   (<[addrKey := default 0 (addrItemCount q !! addrKey) + 1]> (addrItemCount q))
                   (<[addrKey := default 0 (addrByteCount q !! addrKey) + ci_retained item]> (addrByteCount q)) (retainedBytes q + ci_retained item),
                 Incomplete, released)
        | Some p =>
            Ret (CombineQueue s (heap_Fix (item_less (cq_store q)) (cq_items q) (default 0%nat (idx (cq_items q) !! p))) (cq_store q) (cq_next q) (keyItems q)
                   (addrItemCount q) (addrByteCount q) (retainedBytes q),
                 Incomplete, released)
        end.

Definition Combine (q : combineQueue) (addr : Addr) (header : list Z) (data : buffer) (now : Z) : go (combineQueue * combine_result * list nat) :=
  let s := cq_settings q in
  let! c := index header 16 in
  let! i := index header 17 in
  if c =? 0 then Ret (q, Failed ErrFragmentCount, [])
  else if c <=? i then Ret (q, Failed ErrFragmentIndex, [])
  else
    let key := take 17 header in
    if DnsMaxCombineFragmentCount s <? c then Ret (q, Limited, [])
    else
      match keyItems q !! key with
      | Some p =>
          match cq_store q !! p with
          | Some item => combine_item q (Some p) item addr (Z.to_nat i) data now
          | None => Panic
          end
      | None =>
          if DnsMaxCombinePerAddress s <=? default 0 (addrItemCount q !! String addr) then Ret (q, Limited, [])
          else if DnsMaxCombine s <=? Z.of_nat (length (items (cq_items q))) then Ret (q, Limited, [])
          else
            let item := CombineItem key addr (replicate (Z.to_nat c) None) 0 None 0 (newCombineItemRetainedByteCount c) 0 in
            combine_item q None item addr (Z.to_nat i) data now
      end.

(** The receive loop's turn for one fragment: expired items go first, and a
    fragment the queue refused goes back to the pool. The clock is read [before]
    the expiry, and again when the fragment is stored. *)
Definition receive_fragment (q : combineQueue) (addr : Addr) (header : list Z) (data : buffer) (before now : Z) : go (combineQueue * combine_result * list nat) :=
  let! '(q, expired) := RemoveOlder q (before - DnsStateTimeout (cq_settings q)) in
  let! '(q, r, released) := Combine q addr header data now in
  match r with
  | Limited | Failed _ => Ret (q, r, expired ++ released ++ [buf_id data])
  | Combined _ _ | Incomplete => Ret (q, r, expired ++ released)
  end.

(** ** Sums over the items *)

Definition weigh_items (f : combineItem -> Z) (store : gmap nat combineItem) (l : list nat) : Z :=
  sumZ (map (fun p => match store !! p with Some it => f it | None => 0 end) l).

Lemma weigh_items_perm f store l l' : l ≡ₚ l' -> weigh_items f store l = weigh_items f store l'.
Proof. apply sumZ_map_perm. Qed.
Lemma weigh_items_cons f store p it l : store !! p = Some it -> weigh_items f store (p :: l) = f it + weigh_items f store l.
Proof. intros Hp. unfold weigh_items. cbn [map]. by rewrite sumZ_cons, Hp. Qed.
Lemma weigh_items_other f store p it l : p ∉ l -> weigh_items f (<[p := it]> store) l = weigh_items f store l.
Proof. intros Hp. apply sumZ_map_ext. intros x Hx. rewrite lookup_insert_ne; [done|]. by intros ->. Qed.
Lemma weigh_items_update f store p it it' l :
  NoDup l -> p ∈ l -> store !! p = Some it -> weigh_items f (<[p := it']> store) l = weigh_items f store l - f it + f it'.
Proof.
  intros Hnd Hin Hp. apply elem_of_Permutation in Hin as [l' E]. rewrite !(weigh_items_perm _ _ _ _ E).
  rewrite (weigh_items_cons f store p it) by done. rewrite (weigh_items_cons f _ p it') by apply lookup_insert_eq.
  rewrite weigh_items_other; [lia|]. rewrite E in Hnd. by apply list.NoDup_cons in Hnd as [].
Qed.
Lemma weigh_items_nonneg f store l : (forall p it, p ∈ l -> store !! p = Some it -> 0 <= f it) -> 0 <= weigh_items f store l.
Proof. intros Hf. apply sumZ_map_nonneg. intros p Hp. destruct (store !! p) as [it|] eqn:E; [by apply (Hf p)|done]. Qed.

Definition of_addr (a : list Z) (f : combineItem -> Z) (it : combineItem) : Z := if decide (String (ci_addr it) = a) then f it else 0.
Definition one (_ : combineItem) : Z := 1.

(** ** What the queue keeps *)

Definition buffer_ok (b : buffer) : Prop := Z.of_nat (length (buf_bytes b)) <= buf_cap b.
Definition payload_of (l : list (option packet)) : Z := sumZ (map (fun b => Z.of_nat (length (buf_bytes b))) (packets_data l)).
Definition retained_of (l : list (option packet)) : Z :=
  newCombineItemRetainedByteCount (Z.of_nat (length l)) + sumZ (map combineFragmentRetainedByteCount (packets_data l)).

(** The books of an item are those of its packets; the key ends with their count. *)
Record item_ok (s : PacketTranslationSettings) (it : combineItem) : Prop := {
  io_key : length (ci_key it) = 17%nat;
  io_count : exists c, ci_key it !! 16%nat = Some c /\ 0 < c <= DnsMaxCombineFragmentCount s /\ length (ci_packets it) = Z.to_nat c;
  io_n : ci_n it = Z.of_nat (length (packets_data (ci_packets it)));
  io_retained : ci_retained it = retained_of (ci_packets it);
  io_payload : ci_payload it = payload_of (ci_packets it);
  io_payload_max : ci_payload it <= DnsMaxCombinedPacketByteCount s;
  io_buffers : Forall buffer_ok (packets_data (ci_packets it));
}.

(** The maps and the sums, whatever the order of the heap. *)
Record books_ok (q : combineQueue) : Prop := {
  bk_nodup : NoDup (items (cq_items q));
  bk_idx : idx_ok (cq_items q);
  bk_items p : p ∈ items (cq_items q) -> (p < cq_next q)%nat /\ exists it, cq_store q !! p = Some it /\ item_ok (cq_settings q) it;
  bk_keys key p : keyItems q !! key = Some p <-> p ∈ items (cq_items q) /\ exists it, cq_store q !! p = Some it /\ ci_key it = key;
  bk_bytes : retainedBytes q = weigh_items ci_retained (cq_store q) (items (cq_items q));
  bk_addr_bytes a : default 0 (addrByteCount q !! a) = weigh_items (of_addr a ci_retained) (cq_store q) (items (cq_items q));
  bk_addr_items a : default 0 (addrItemCount q !! a) = weigh_items (of_addr a one) (cq_store q) (items (cq_items q));
}.

Record limits_ok (q : combineQueue) : Prop := {
  lm_bytes : retainedBytes q <= DnsMaxCombineBytes (cq_settings q);
  lm_addr_bytes a : default 0 (addrByteCount q !! a) <= DnsMaxCombineBytesPerAddress (cq_settings q);
  lm_items : Z.of_nat (length (items (cq_items q))) <= DnsMaxCombine (cq_settings q);
  lm_addr_items a : default 0 (addrItemCount q !! a) <= DnsMaxCombinePerAddress (cq_settings q);
}.

(** No item is complete, and the items are in the order of their update times. *)
Record queue_ok (q : combineQueue) : Prop := {
  qo_books : books_ok q;
  qo_limits : limits_ok q;
  qo_heap : heap (item_less (cq_store q)) (items (cq_items q));
  qo_open p it : p ∈ items (cq_items q) -> cq_store q !! p = Some it -> ci_n it < Z.of_nat (length (ci_packets it));
}.

(** The queue while the item [p] changes: it may be out of order, or complete. *)
Record queue_at (q : combineQueue) (p : nat) (it : combineItem) : Prop := {
  qa_books : books_ok q;
  qa_limits : limits_ok q;
  qa_item : cq_store q !! p = Some it;
  qa_index : exists i, items (cq_items q) !! i = Some p /\ hole (item_less (cq_store q)) (items (cq_items q)) (length (items (cq_items q))) i;
  qa_open p' it' : p' ∈ items (cq_items q) -> p' <> p -> cq_store q !! p' = Some it' -> ci_n it' < Z.of_nat (length (ci_packets it'));
}.

Lemma item_less_asym store a b : item_less store a b = true -> item_less store b a = false.
Proof. unfold item_less. lia. Qed.
Lemma item_less_ntrans store a b c : item_less store b a = false -> item_less store c b = false -> item_less store c a = false.
Proof. unfold item_less. lia. Qed.

Lemma queue_at_intro q p it : queue_ok q -> p ∈ items (cq_items q) -> cq_store q !! p = Some it -> queue_at q p it.
Proof.
  intros [B L H O] Hin Hp. split; [done|done|done| |].
  - apply list_elem_of_lookup in Hin as [i Hi]. exists i. split; [done|]. apply heap_hole; [apply item_less_ntrans|done].
  - intros p' it' Hin' _. by apply O.
Qed.

Lemma retained_nonneg s it : item_ok s it -> 0 <= ci_retained it.
Proof.
  intros [_ _ _ Hr _ _ Hb]. rewrite Hr. unfold retained_of, newCombineItemRetainedByteCount, combineItemRetainedByteCount, combinePointerRetainedByteCount.
  assert (0 <= sumZ (map combineFragmentRetainedByteCount (packets_data (ci_packets it)))); [|lia]. apply sumZ_map_nonneg. intros b Hin.
  rewrite list.Forall_forall in Hb. specialize (Hb b Hin). unfold buffer_ok in Hb. unfold combineFragmentRetainedByteCount, combinePacketRetainedByteCount, MetaByteCount. lia.
Qed.

Lemma addr_bytes_nonneg q a l : books_ok q -> (forall p, p ∈ l -> p ∈ items (cq_items q)) -> 0 <= weigh_items (of_addr a ci_retained) (cq_store q) l.
Proof.
  intros B Hl. apply weigh_items_nonneg. intros p it Hp Hs. unfold of_addr. destruct (decide _); [|done].
  destruct (bk_items _ B p (Hl p Hp)) as (_ & it' & Hs' & Hok). assert (it' = it) as -> by congruence. by eapply retained_nonneg.
Qed.
Lemma addr_items_nonneg a store l : 0 <= weigh_items (of_addr a one) store l.
Proof. apply weigh_items_nonneg. intros p it _ _. unfold of_addr, one. by destruct (decide _). Qed.

(** A count kept in a map that drops it when it reaches zero. *)
Lemma map_lower (m : gmap (list Z) Z) (k a : list Z) (v : Z) (b : bool) :
  (b = true -> v = 0) -> default 0 ((if b then delete k m else <[k := v]> m) !! a) = if decide (a = k) then v else default 0 (m !! a).
Proof.
  intros Hb. destruct b, (decide (a = k)) as [->|];
    rewrite ?lookup_delete_eq, ?lookup_insert_eq, ?lookup_delete_ne, ?lookup_insert_ne by congruence; [|done..]. symmetry. by apply Hb.
Qed.
Lemma map_raise (m : gmap (list Z) Z) (k a : list Z) (v : Z) : default 0 (<[k := v]> m !! a) = if decide (a = k) then v else default 0 (m !! a).
Proof. destruct (decide (a = k)) as [->|]; [by rewrite lookup_insert_eq|by rewrite lookup_insert_ne]. Qed.

(** The sums per address after one item has left. *)
Lemma sums_lower (f : combineItem -> Z) (m : gmap (list Z) Z) store p it l l' (b : bool) :
  (forall a, default 0 (m !! a) = weigh_items (of_addr a f) store l) -> p :: l' ≡ₚ l -> store !! p = Some it ->
  let k := String (ci_addr it) in
  (b = true -> weigh_items (of_addr k f) store l' = 0) ->
  forall a, default 0 ((if b then delete k m else <[k := default 0 (m !! k) - f it]> m) !! a) = weigh_items (of_addr a f) store l'.
Proof.
  intros Hm Hperm Hp k Hb a.
  assert (Hw : forall a, weigh_items (of_addr a f) store l = of_addr a f it + weigh_items (of_addr a f) store l').
  { intros a'. rewrite <- (weigh_items_perm _ _ _ _ Hperm). by apply weigh_items_cons. }
  pose proof (Hm k) as Hc. rewrite Hw in Hc. unfold of_addr in Hc at 1. rewrite decide_True in Hc by done.
  rewrite map_lower by (intros E; specialize (Hb E); lia). destruct (decide (a = k)) as [->|Hne]; [lia|]. rewrite Hm, Hw. unfold of_addr at 1.
  rewrite decide_False by (intros E; by apply Hne). lia.
Qed.
(** A sum per address only shrinks when an item leaves. *)
Lemma sums_shrink (f : combineItem -> Z) store p it l l' a : p :: l' ≡ₚ l -> store !! p = Some it -> 0 <= f it -> weigh_items (of_addr a f) store l' <= weigh_items (of_addr a f) store l.
Proof.
  intros Hperm Hp Hf. rewrite <- (weigh_items_perm _ _ _ _ Hperm), (weigh_items_cons _ _ p it) by done. unfold of_addr at 2. destruct (decide _); lia.
Qed.

(** [remove] takes the item out of the heap, the maps and the sums. *)
Lemma remove_ok q p it b :
  queue_at q p it -> exists q', remove q p it b = Ret (q', if b then map buf_id (packets_data (ci_packets it)) else []) /\ queue_ok q' /\
    p :: items (cq_items q') ≡ₚ items (cq_items q) /\ cq_store q' = cq_store q /\ cq_settings q' = cq_settings q /\ cq_next q' = cq_next q /\
    keyItems q' = delete (ci_key it) (keyItems q).
Proof.
  intros [B [L1 L2 L3 L4] Hp (i & Hi & Hh) O]. pose proof B as [N X I K Eb Ea Ei]. unfold remove. rewrite (X i p Hi). change (default 0%nat (Some i)) with i.
  destruct (heap_Remove_hole (item_less (cq_store q)) (item_less_asym _) (item_less_ntrans _) (cq_items q) i p Hh N X Hi) as (h' & E & [W1 W2 W3] & Hperm & _).
  rewrite E. cbn [gbind]. eexists. split; [done|]. cbn [cq_items cq_store cq_settings cq_next keyItems].
  assert (Hin : forall x, x ∈ items h' -> x ∈ items (cq_items q) /\ x <> p).
  { intros x Hx. rewrite <- Hperm. split; [by right|]. intros ->. rewrite <- Hperm in N. by apply list.NoDup_cons in N as []. }
  assert (Hw : forall f, weigh_items f (cq_store q) (items (cq_items q)) = f it + weigh_items f (cq_store q) (items h')).
  { intros f. rewrite <- (weigh_items_perm _ _ _ _ Hperm). by apply weigh_items_cons. }
  destruct (I p) as (_ & it' & Hp' & Hok); [rewrite <- Hperm; by left|]. assert (it' = it) as -> by congruence.
  pose proof (retained_nonneg _ _ Hok) as Hr0.
  set (k := String (ci_addr it)). pose proof (addr_items_nonneg k (cq_store q) (items h')) as H0.
  pose proof (addr_bytes_nonneg q k (items h') B (fun x Hx => proj1 (Hin x Hx))) as H1.
  pose proof (Ei k) as E1. pose proof (Ea k) as E2. rewrite Hw in E1, E2. unfold of_addr at 1 in E1. unfold of_addr at 1 in E2.
  rewrite decide_True in E1, E2 by done. unfold one at 1 in E1.
  pose proof (sums_lower one (addrItemCount q) (cq_store q) p it _ _ (default 0 (addrItemCount q !! k) <=? 1) Ei Hperm Hp ltac:(cbv zeta; fold k; intros Hb%Z.leb_le; lia)) as A1.
  pose proof (sums_lower ci_retained (addrByteCount q) (cq_store q) p it _ _ (default 0 (addrByteCount q !! k) - ci_retained it <=? 0) Ea Hperm Hp ltac:(cbv zeta; fold k; intros Hb%Z.leb_le; lia)) as A2.
  split; [|by split_and!]. split.
  - split; cbn [cq_items cq_store cq_settings cq_next keyItems retainedBytes addrByteCount addrItemCount]; [done|done| | | |done|done].
    + intros x Hx. apply I. by apply Hin.
    + intros key x. rewrite lookup_delete_Some, K. split.
      * intros (Hne & Hx & itx & Hsx & Hkx). split; [|by exists itx]. rewrite <- Hperm in Hx. apply list.elem_of_cons in Hx as [->|Hx]; [|done].
        congruence.
      * intros (Hx & itx & Hsx & Hkx). destruct (Hin x Hx) as [Hx' Hne]. split; [|split; [done|by exists itx]].
        intros Hk. apply Hne. assert (A : keyItems q !! key = Some x) by (apply K; split; [done|by exists itx]).
        assert (B' : keyItems q !! key = Some p) by (apply K; split; [rewrite <- Hperm; by left|by exists it]). congruence.
    + rewrite Eb, Hw. lia.
  - split; cbn [cq_items cq_settings retainedBytes addrByteCount addrItemCount].
    + lia.
    + intros a. etransitivity; [|apply (L2 a)]. rewrite A2, Ea. by apply (sums_shrink _ _ p it).
    + apply Permutation_length in Hperm. cbn in Hperm. lia.
    + intros a. etransitivity; [|apply (L4 a)]. rewrite A1, Ei. by apply (sums_shrink _ _ p it).
  - done.
  - intros x itx Hx. destruct (Hin x Hx). by apply O.
Qed.

(** ** The packets of an item *)

Definition old_data (o : option packet) : list buffer := match o with Some p => [p_data p] | None => [] end.

(** Storing a packet replaces the one at its place. *)
Lemma packets_store (l : list (option packet)) i o pk :
  l !! i = Some o -> old_data o ++ packets_data (<[i := Some pk]> l) ≡ₚ p_data pk :: packets_data l.
Proof.
  intros Hi. unfold packets_data. rewrite insert_take_drop by (by eapply lookup_lt_Some). rewrite <- (take_drop_middle l i o Hi) at 3.
  rewrite !omap_app. cbn [omap list_omap option_map]. destruct o as [p|]; cbn [option_map old_data app]; solve_Permutation.
Qed.
Lemma packets_sum (f : buffer -> Z) (l : list (option packet)) i o pk :
  l !! i = Some o -> sumZ (map f (packets_data (<[i := Some pk]> l))) = sumZ (map f (packets_data l)) - sumZ (map f (old_data o)) + f (p_data pk).
Proof.
  intros Hi. pose proof (sumZ_map_perm f _ _ (packets_store l i o pk Hi)) as H. rewrite map_app, sumZ_app in H. cbn [map] in H. rewrite sumZ_cons in H. lia.
Qed.
Lemma packets_count (l : list (option packet)) i o pk :
  l !! i = Some o -> Z.of_nat (length (packets_data (<[i := Some pk]> l))) = Z.of_nat (length (packets_data l)) + match o with Some _ => 0 | None => 1 end.
Proof.
  intros Hi. pose proof (Permutation_length (packets_store l i o pk Hi)) as H. rewrite length_app in H. cbn [length] in H. destruct o; cbn in H; lia.
Qed.
Lemma packets_le (l : list (option packet)) : (length (packets_data l) <= length l)%nat.
Proof. unfold packets_data. induction l as [|[p|] l IH]; cbn; lia. Qed.

(** Combining complete packets. *)
Lemma total_data_ok l : length (packets_data l) = length l -> total_data l = Ret (length (concat (map buf_bytes (packets_data l)))).
Proof.
  induction l as [|[p|] l IH]; intros Hl; [done| |pose proof (packets_le l); cbn in Hl; unfold packets_data in *; lia].
  cbn [total_data]. unfold packets_data in *. cbn in Hl |- *. rewrite IH by lia. cbn [gbind]. by rewrite length_app.
Qed.
Lemma copy_data_ok l done_ rest :
  length (packets_data l) = length l -> length rest = length (concat (map buf_bytes (packets_data l))) ->
  copy_data l (done_ ++ rest) (length done_) = Ret (done_ ++ concat (map buf_bytes (packets_data l))).
Proof.
  revert done_ rest. induction l as [|[p|] l IH]; intros done_ rest Hl Hr; [|unfold packets_data in *; cbn in Hl, Hr|pose proof (packets_le l); cbn in Hl; unfold packets_data in *; lia].
  - destruct rest; [done|cbn in Hr; lia].
  - rewrite length_app in Hr. cbn [copy_data packets_data omap list_omap option_map map concat].
    rewrite copy_tail; [|done|by rewrite length_app|lia]. cbn [gbind]. rewrite app_assoc, <- length_app.
    rewrite IH; [by rewrite <- app_assoc|unfold packets_data; lia|]. rewrite length_drop. unfold packets_data. lia.
Qed.

(** ** Storing a fragment *)

Lemma store_packet_ok s item i o addr data now :
  item_ok s item -> ci_packets item !! i = Some o -> buffer_ok data -> ci_payload item + payload_delta data o <= DnsMaxCombinedPacketByteCount s ->
  item_ok s (store_packet item o addr i data now).
Proof.
  intros [K C N R P M B] Hi Hd Hp. split; cbn [store_packet ci_key ci_packets ci_n ci_retained ci_payload].
  - done.
  - rewrite length_insert. done.
  - rewrite (packets_count _ i o _ Hi), N. destruct o; lia.
  - rewrite R. unfold retained_of. rewrite length_insert, (packets_sum _ _ i o _ Hi). unfold retained_delta. destruct o; cbn [old_data map p_data]; rewrite ?sumZ_cons; cbn [sumZ foldr]; lia.
  - rewrite P. unfold payload_of. rewrite (packets_sum _ _ i o _ Hi). unfold payload_delta. destruct o; cbn [old_data map p_data]; rewrite ?sumZ_cons; cbn [sumZ foldr]; lia.
  - done.
  - assert (H : Forall buffer_ok (old_data o ++ packets_data (<[i := Some (Packet data addr)]> (ci_packets item)))) by (rewrite (packets_store _ i o _ Hi); by constructor).
    by apply Forall_app in H as [_ H].
Qed.

Lemma packets_none n : packets_data (replicate n (None : option packet)) = [].
Proof. induction n; done. Qed.
Lemma new_item_ok s key addr c :
  length key = 17%nat -> key !! 16%nat = Some c -> 0 < c <= DnsMaxCombineFragmentCount s -> 0 <= DnsMaxCombinedPacketByteCount s ->
  item_ok s (CombineItem key addr (replicate (Z.to_nat c) None) 0 None 0 (newCombineItemRetainedByteCount c) 0).
Proof.
  intros Hl Hk Hc Hm. pose proof (packets_none (Z.to_nat c)) as E.
  split; cbn [ci_key ci_packets ci_n ci_retained ci_payload]; unfold retained_of, payload_of; rewrite ?E, ?length_replicate; cbn; try done.
  - by exists c.
  - rewrite Z2Nat.id by lia. lia.
Qed.

Lemma update_time_other store p it p' : p' <> p -> update_time (<[p := it]> store) p' = update_time store p'.
Proof. intros Hne. unfold update_time. by rewrite lookup_insert_ne. Qed.

(** The queue with the item [p] replaced by one of the same key and address. *)
Definition put_item (q : combineQueue) (p : nat) (it : combineItem) (delta : Z) : combineQueue :=
  CombineQueue (cq_settings q) (cq_items q) (<[p := it]> (cq_store q)) (cq_next q) (keyItems q) (addrItemCount q)
    (<[String (ci_addr it) := default 0 (addrByteCount q !! String (ci_addr it)) + delta]> (addrByteCount q)) (retainedBytes q + delta).

Lemma put_item_ok q p it it' :
  queue_ok q -> p ∈ items (cq_items q) -> cq_store q !! p = Some it -> ci_key it' = ci_key it -> ci_addr it' = ci_addr it -> item_ok (cq_settings q) it' ->
  let delta := ci_retained it' - ci_retained it in
  retainedBytes q + delta <= DnsMaxCombineBytes (cq_settings q) ->
  default 0 (addrByteCount q !! String (ci_addr it')) + delta <= DnsMaxCombineBytesPerAddress (cq_settings q) ->
  queue_at (put_item q p it' delta) p it'.
Proof.
  intros [[N X I K Eb Ea Ei] [L1 L2 L3 L4] H O] Hin Hp Ek Eaddr Hok delta Hl1 Hl2.
  split; cbn [cq_items cq_store cq_settings put_item].
  - split; cbn [cq_items cq_store cq_settings cq_next keyItems retainedBytes addrByteCount addrItemCount put_item]; [done|done| | | | |].
    + intros x Hx. destruct (I x Hx) as [Hlt (itx & Hsx & Hokx)]. split; [done|]. destruct (decide (x = p)) as [->|Hne].
      * exists it'. by rewrite lookup_insert_eq.
      * exists itx. by rewrite lookup_insert_ne.
    + intros key x. rewrite K. split; intros [Hx (itx & Hsx & Hkx)]; (split; [done|]).
      * destruct (decide (x = p)) as [->|Hne]; [exists it'; rewrite lookup_insert_eq; split; [done|congruence]|exists itx; by rewrite lookup_insert_ne].
      * destruct (decide (x = p)) as [->|Hne]; [|exists itx; by rewrite lookup_insert_ne in Hsx].
        rewrite lookup_insert_eq in Hsx. exists it. split; [done|congruence].
    + rewrite Eb, (weigh_items_update _ _ p it it') by done. lia.
    + intros a. rewrite map_raise, (weigh_items_update _ _ p it it') by done. unfold of_addr at 2 3. rewrite <- Eaddr.
      destruct (decide (a = _)) as [->|Hne]; rewrite Ea; [rewrite !decide_True by done; lia|rewrite !decide_False by congruence; lia].
    + intros a. rewrite Ei, (weigh_items_update _ _ p it it') by done. unfold of_addr, one. rewrite <- Eaddr. lia.
  - split; cbn [cq_items cq_settings retainedBytes addrByteCount addrItemCount put_item]; [done| |done|done].
    intros a. rewrite map_raise. by destruct (decide _).
  - apply lookup_insert_eq.
  - apply list_elem_of_lookup in Hin as [i Hi]. exists i. split; [done|].
    apply (rekey_hole (item_less (cq_store q)) _ _ i p); [apply item_less_ntrans|done|done|done|]. intros a b Ha Hb. unfold item_less. by rewrite !update_time_other.
  - intros x itx Hx Hne. rewrite lookup_insert_ne by done. by apply O.
Qed.

Lemma fix_ok q p it :
  queue_at q p it -> ci_n it < Z.of_nat (length (ci_packets it)) ->
  let h := heap_Fix (item_less (cq_store q)) (cq_items q) (default 0%nat (idx (cq_items q) !! p)) in
  queue_ok (CombineQueue (cq_settings q) h (cq_store q) (cq_next q) (keyItems q) (addrItemCount q) (addrByteCount q) (retainedBytes q)) /\
  items h ≡ₚ items (cq_items q).
Proof.
  intros [[N X I K Eb Ea Ei] [L1 L2 L3 L4] Hp (i & Hi & Hh) O] Hn h. unfold h. rewrite (X i p Hi). change (default 0%nat (Some i)) with i.
  destruct (heap_Fix_spec (item_less (cq_store q)) (item_less_asym _) (item_less_ntrans _) (cq_items q) i) as [[W1 W2 W3] Hperm];
    [by eapply lookup_lt_Some|done|done|done|]. split; [|done].
  assert (Hin : forall x, x ∈ items (heap_Fix (item_less (cq_store q)) (cq_items q) i) <-> x ∈ items (cq_items q)) by (intros x; by rewrite Hperm).
  split; cbn [cq_items cq_store cq_settings cq_next keyItems retainedBytes addrByteCount addrItemCount]; [| |done|].
  - split; cbn [cq_items cq_store cq_settings cq_next keyItems retainedBytes addrByteCount addrItemCount]; [done|done| | | | |].
    + intros x Hx%Hin. by apply I.
    + intros key x. by rewrite K, Hin.
    + by rewrite (weigh_items_perm _ _ _ _ Hperm).
    + intros a. by rewrite (weigh_items_perm _ _ _ _ Hperm).
    + intros a. by rewrite (weigh_items_perm _ _ _ _ Hperm).
  - split; cbn [cq_items cq_settings retainedBytes addrByteCount addrItemCount]; [done|done| |done]. by rewrite (Permutation_length Hperm).
  - intros x itx Hx%Hin Hsx. destruct (decide (x = p)) as [->|Hne]; [|by apply (O x)]. assert (itx = it) as -> by congruence. done.
Qed.

(** A new item joins the queue. *)
Definition push_item (q : combineQueue) (p : nat) (it : combineItem) : combineQueue :=
  let k := String (ci_addr it) in
  CombineQueue (cq_settings q) (heap_Push (item_less (cq_store q)) (cq_items q) p) (cq_store q) (cq_next q) (<[ci_key it := p]> (keyItems q))
    (<[k := default 0 (addrItemCount q !! k) + 1]> (addrItemCount q)) (<[k := default 0 (addrByteCount q !! k) + ci_retained it]> (addrByteCount q))
    (retainedBytes q + ci_retained it).
Definition alloc_item (q : combineQueue) (it : combineItem) : combineQueue :=
  CombineQueue (cq_settings q) (cq_items q) (<[cq_next q := it]> (cq_store q)) (S (cq_next q)) (keyItems q) (addrItemCount q) (addrByteCount q) (retainedBytes q).

Lemma alloc_ok q it : queue_ok q -> queue_ok (alloc_item q it) /\ cq_next q ∉ items (cq_items q) /\
  (forall p, p ∈ items (cq_items q) -> cq_store (alloc_item q it) !! p = cq_store q !! p).
Proof.
  intros [[N X I K Eb Ea Ei] [L1 L2 L3 L4] H O].
  assert (Hni : cq_next q ∉ items (cq_items q)) by (intros Hin; destruct (I _ Hin) as [Hlt _]; lia).
  assert (Hs : forall p, p ∈ items (cq_items q) -> <[cq_next q := it]> (cq_store q) !! p = cq_store q !! p) by (intros p Hp; apply lookup_insert_ne; by intros <-).
  split; [|done]. split; cbn [cq_items cq_store alloc_item]; [| by split| |].
  - split; cbn [cq_items cq_store cq_settings cq_next keyItems retainedBytes addrByteCount addrItemCount alloc_item]; [done|done| | | | |].
    + intros p Hp. destruct (I p Hp) as [Hlt Hx]. split; [lia|]. by rewrite Hs.
    + intros key p. rewrite K. split; intros [Hp Hx]; (split; [done|]); by rewrite Hs in *.
    + by rewrite weigh_items_other.
    + intros a. by rewrite weigh_items_other.
    + intros a. by rewrite weigh_items_other.
  - intros k Hk a b Ha Hb. pose proof (H k Hk a b Ha Hb) as Hle. unfold le, item_less in *.
    apply list_elem_of_lookup_2 in Ha, Hb. by rewrite !update_time_other by (by intros ->).
  - intros p it' Hp. rewrite Hs by done. by apply O.
Qed.

Lemma push_ok q p it :
  queue_ok q -> p ∉ items (cq_items q) -> (p < cq_next q)%nat -> cq_store q !! p = Some it -> item_ok (cq_settings q) it ->
  ci_n it < Z.of_nat (length (ci_packets it)) -> keyItems q !! ci_key it = None ->
  retainedBytes q + ci_retained it <= DnsMaxCombineBytes (cq_settings q) ->
  default 0 (addrByteCount q !! String (ci_addr it)) + ci_retained it <= DnsMaxCombineBytesPerAddress (cq_settings q) ->
  Z.of_nat (length (items (cq_items q))) < DnsMaxCombine (cq_settings q) ->
  default 0 (addrItemCount q !! String (ci_addr it)) < DnsMaxCombinePerAddress (cq_settings q) ->
  queue_ok (push_item q p it) /\ items (cq_items (push_item q p it)) ≡ₚ p :: items (cq_items q).
Proof.
  intros [[N X I K Eb Ea Ei] [L1 L2 L3 L4] H O] Hni Hlt Hp Hok Hn Hk M1 M2 M3 M4.
  destruct (heap_Push_spec (item_less (cq_store q)) (item_less_asym _) (item_less_ntrans _) (cq_items q) p) as [[W1 W2 W3] Hperm]; [by split|done|].
  split; [|done]. assert (Hin : forall x, x ∈ items (heap_Push (item_less (cq_store q)) (cq_items q) p) <-> x = p \/ x ∈ items (cq_items q)).
  { intros x. rewrite Hperm. apply list.elem_of_cons. }
  assert (Hw : forall f, weigh_items f (cq_store q) (items (heap_Push (item_less (cq_store q)) (cq_items q) p)) = f it + weigh_items f (cq_store q) (items (cq_items q))).
  { intros f. rewrite (weigh_items_perm _ _ _ _ Hperm). by apply weigh_items_cons. }
  split; cbn [cq_items cq_store cq_settings push_item]; [| |done|].
  - split; cbn [cq_items cq_store cq_settings cq_next keyItems retainedBytes addrByteCount addrItemCount push_item]; [done|done| | | | |].
    + intros x [->|Hx]%Hin; [split; [done|by exists it]|by apply I].
    + intros key x. rewrite lookup_insert_Some, K, Hin. split.
      * intros [[<- <-]|[Hne [Hx Hy]]]; (split; [by auto|]); [by exists it|done].
      * intros [[->|Hx] (itx & Hsx & Hkx)]; [left; split; [congruence|done]|]. right. split; [|split; [done|by exists itx]].
        intros Hy. assert (A : keyItems q !! key = Some x) by (apply K; split; [done|by exists itx]). congruence.
    + rewrite Eb, Hw. lia.
    + intros a. rewrite map_raise, Hw. unfold of_addr at 1. destruct (decide (a = _)) as [->|Hne]; rewrite Ea; [rewrite decide_True by done; lia|rewrite decide_False by congruence; lia].
    + intros a. rewrite map_raise, Hw. unfold of_addr at 1. destruct (decide (a = _)) as [->|Hne]; rewrite Ei; [rewrite decide_True by done; unfold one at 2; lia|rewrite decide_False by congruence; lia].
  - split; cbn [cq_items cq_settings retainedBytes addrByteCount addrItemCount push_item]; [done| | |].
    + intros a. rewrite map_raise. by destruct (decide _).
    + rewrite (Permutation_length Hperm). cbn [length]. lia.
    + intros a. rewrite map_raise. destruct (decide _); [lia|done].
  - intros x itx [->|Hx]%Hin Hsx; [congruence|by apply (O x)].
Qed.

(** ** What the queue holds *)

(** The fragments that have arrived for a packet, by index, and the address
    that is charged for them. *)
Definition frags (it : combineItem) : list (option buffer) := map (option_map p_data) (ci_packets it).
Definition fragments (q : combineQueue) (key : list Z) : option (Addr * list (option buffer)) :=
  match keyItems q !! key with
  | Some p => (fun it => (ci_addr it, frags it)) <$> cq_store q !! p
  | None => None
  end.

(** The buffers of the items, each in one place. *)
Definition item_buffers (store : gmap nat combineItem) (p : nat) : list nat :=
  match store !! p with Some it => map buf_id (packets_data (ci_packets it)) | None => [] end.
Definition held (q : combineQueue) : list nat := flat_map (item_buffers (cq_store q)) (items (cq_items q)).

Lemma fragments_item q p it : books_ok q -> p ∈ items (cq_items q) -> cq_store q !! p = Some it -> fragments q (ci_key it) = Some (ci_addr it, frags it).
Proof. intros B Hin Hp. unfold fragments. rewrite (proj2 (bk_keys _ B (ci_key it) p)) by eauto. by rewrite Hp. Qed.
Lemma fragments_none q key : keyItems q !! key = None -> fragments q key = None.
Proof. unfold fragments. by intros ->. Qed.

(** What happens to the other packets: nothing. *)
Lemma fragments_other q q' key p :
  books_ok q -> (forall key', key' <> key -> keyItems q' !! key' = keyItems q !! key') -> (forall p', p' <> p -> cq_store q' !! p' = cq_store q !! p') ->
  (forall it, cq_store q !! p = Some it -> p ∈ items (cq_items q) -> ci_key it = key) -> forall key', key' <> key -> fragments q' key' = fragments q key'.
Proof.
  intros B Hk Hs Hp key' Hne. unfold fragments. rewrite Hk by done. destruct (keyItems q !! key') as [p'|] eqn:E; [|done].
  apply (bk_keys _ B) in E as [Hin (it & Hit & Ek)]. rewrite Hs; [done|]. intros ->. by rewrite (Hp it Hit Hin) in Ek.
Qed.

Lemma held_perm store l l' : l ≡ₚ l' -> flat_map (item_buffers store) l ≡ₚ flat_map (item_buffers store) l'.
Proof. intros E. by apply (Permutation_flat_map (item_buffers store)). Qed.
Lemma held_other store p it l : p ∉ l -> flat_map (item_buffers (<[p := it]> store)) l = flat_map (item_buffers store) l.
Proof.
  induction l as [|x l IH]; intros Hp; [done|]. cbn. rewrite IH by (intros ?; apply Hp; by right). unfold item_buffers.
  rewrite lookup_insert_ne; [done|]. intros ->. apply Hp. by left.
Qed.
Lemma held_split store p it l l' : l ≡ₚ p :: l' -> store !! p = Some it ->
  flat_map (item_buffers store) l ≡ₚ map buf_id (packets_data (ci_packets it)) ++ flat_map (item_buffers store) l'.
Proof. intros E Hp. rewrite (held_perm _ _ _ E). cbn [flat_map]. unfold item_buffers at 1. by rewrite Hp. Qed.

(** ** One fragment *)

(** The bytes a fragment can add: a packet that is not in the queue costs its
    item too. *)
Definition fragment_cost (q : combineQueue) (key : list Z) (l : list (option buffer)) (data : buffer) : Z :=
  combineFragmentRetainedByteCount data + match fragments q key with Some _ => 0 | None => newCombineItemRetainedByteCount (Z.of_nat (length l)) end.

(** A limit that the fragment would pass: on the packet, on the queue or on the
    address charged. *)
Definition over_limit (q : combineQueue) (key : list Z) (a : Addr) (l : list (option buffer)) (data : buffer) : Prop :=
  let s := cq_settings q in
  let cost := fragment_cost q key l data in
  DnsMaxCombinedPacketByteCount s < sumZ (map (fun b => Z.of_nat (length (buf_bytes b))) (omap id l)) + Z.of_nat (length (buf_bytes data)) \/
  DnsMaxCombineBytes s < retainedBytes q + cost \/
  DnsMaxCombineBytesPerAddress s < default 0 (addrByteCount q !! String a) + cost.

(** What becomes of a fragment for the packet of [key], of which [l] has
    arrived: it would pass a limit and the queue is untouched, or it takes its
    place and the packet stays incomplete, or it completes the packet, which
    leaves. No buffer is lost or returned twice. *)
Inductive combine_outcome (q : combineQueue) (key : list Z) (a : Addr) (l : list (option buffer)) (i : nat) (addr : Addr) (data : buffer)
    : combineQueue -> combine_result -> list nat -> Prop :=
| outcome_limited : over_limit q key a l data -> combine_outcome q key a l i addr data q Limited []
| outcome_incomplete q' released :
    queue_ok q' -> cq_settings q' = cq_settings q -> fragments q' key = Some (a, <[i := Some data]> l) -> None ∈ <[i := Some data]> l ->
    (forall key', key' <> key -> fragments q' key' = fragments q key') -> released ++ held q' ≡ₚ buf_id data :: held q ->
    retainedBytes q' <= retainedBytes q + fragment_cost q key l data ->
    default 0 (addrByteCount q' !! String a) <= default 0 (addrByteCount q !! String a) + fragment_cost q key l data ->
    combine_outcome q key a l i addr data q' Incomplete released
| outcome_combined q' released parts :
    queue_ok q' -> cq_settings q' = cq_settings q -> <[i := Some data]> l = map Some parts -> fragments q' key = None ->
    (forall key', key' <> key -> fragments q' key' = fragments q key') -> released ++ held q' ≡ₚ buf_id data :: held q ->
    combine_outcome q key a l i addr data q' (Combined (concat (map buf_bytes parts)) (Some addr)) released.

Lemma frags_store it i o addr data now : frags (store_packet it o addr i data now) = <[i := Some data]> (frags it).
Proof. unfold frags. cbn [ci_packets store_packet]. by rewrite (list_fmap_insert (option_map p_data)). Qed.
Lemma frags_complete it : length (packets_data (ci_packets it)) = length (ci_packets it) -> frags it = map Some (packets_data (ci_packets it)).
Proof.
  unfold frags. generalize (ci_packets it). intros l. induction l as [|[p|] l IH]; intros Hl; [done| |pose proof (packets_le l); cbn in Hl; unfold packets_data in *; lia].
  unfold packets_data in *. cbn in Hl |- *. by rewrite IH by lia.
Qed.
Lemma frags_incomplete it : (length (packets_data (ci_packets it)) < length (ci_packets it))%nat -> None ∈ frags it.
Proof.
  unfold frags. generalize (ci_packets it). intros l. induction l as [|[p|] l IH]; intros Hl; [cbn in Hl; lia| |by left].
  right. apply IH. unfold packets_data in *. cbn in Hl. lia.
Qed.
Lemma frags_data it : omap id (frags it) = packets_data (ci_packets it).
Proof. unfold frags, packets_data. induction (ci_packets it) as [|[p|] l IH]; cbn; [done|by rewrite IH|done]. Qed.
Lemma old_cost s it i o : item_ok s it -> ci_packets it !! i = Some o -> 0 <= sumZ (map combineFragmentRetainedByteCount (old_data o)).
Proof.
  intros Hok Hi. destruct o as [pk|]; [|done]. cbn [old_data map]. rewrite sumZ_cons. cbn [sumZ foldr].
  assert (Hb : buffer_ok (p_data pk)).
  { pose proof (io_buffers _ _ Hok) as H. rewrite list.Forall_forall in H. apply H. unfold packets_data. apply list_elem_of_omap. exists (Some pk).
    split; [by apply list_elem_of_lookup_2 in Hi|done]. }
  unfold buffer_ok in Hb. unfold combineFragmentRetainedByteCount, combinePacketRetainedByteCount, MetaByteCount. lia.
Qed.
Lemma retained_delta_le s it i o data : item_ok s it -> ci_packets it !! i = Some o -> retained_delta data o <= combineFragmentRetainedByteCount data.
Proof. intros Hok Hi. pose proof (old_cost s it i o Hok Hi) as H. unfold retained_delta. destruct o; cbn [old_data map] in H; rewrite ?sumZ_cons in H; cbn [sumZ foldr] in H; lia. Qed.
Lemma payload_delta_le data o : payload_delta data o <= Z.of_nat (length (buf_bytes data)).
Proof. unfold payload_delta. destruct o; lia. Qed.

Lemma orb_ltb_true a b c d : (a <? b) || (c <? d) = true -> a < b \/ c < d.
Proof. intros [H|H]%orb_true_iff; [left|right]; by apply Z.ltb_lt. Qed.

(** The checks refuse only what would pass a limit. *)
Lemma over_limit_intro q it i o data (known : option nat) :
  item_ok (cq_settings q) it -> ci_packets it !! i = Some o ->
  fragments q (ci_key it) = match known with Some _ => Some (ci_addr it, frags it) | None => None end ->
  let fresh := match known with Some _ => 0 | None => newCombineItemRetainedByteCount (Z.of_nat (length (ci_packets it))) end in
  DnsMaxCombinedPacketByteCount (cq_settings q) < ci_payload it + payload_delta data o \/
  DnsMaxCombineBytes (cq_settings q) < retainedBytes q + retained_delta data o + fresh \/
  DnsMaxCombineBytesPerAddress (cq_settings q) < default 0 (addrByteCount q !! String (ci_addr it)) + retained_delta data o + fresh ->
  over_limit q (ci_key it) (ci_addr it) (frags it) data.
Proof.
  intros Hok Hi Hf fresh Hor. pose proof (retained_delta_le _ it i o data Hok Hi) as Hrd. pose proof (payload_delta_le data o) as Hpd.
  unfold over_limit, fragment_cost. rewrite Hf, frags_data. fold (payload_of (ci_packets it)). rewrite <- (io_payload _ _ Hok).
  unfold frags. rewrite length_map. unfold fresh in Hor. destruct known; lia.
Qed.

Lemma store_ids it i o addr data now : ci_packets it !! i = Some o ->
  map buf_id (old_data o) ++ map buf_id (packets_data (ci_packets (store_packet it o addr i data now))) ≡ₚ buf_id data :: map buf_id (packets_data (ci_packets it)).
Proof. intros Hi. rewrite <- map_app. by rewrite (packets_store (ci_packets it) i o (Packet data addr) Hi). Qed.

Lemma combine_bytes it : length (packets_data (ci_packets it)) = length (ci_packets it) ->
  exists n, total_data (ci_packets it) = Ret n /\ copy_data (ci_packets it) (pool_get n) 0 = Ret (concat (map buf_bytes (packets_data (ci_packets it)))).
Proof.
  intros Hl. eexists. split; [by apply total_data_ok|]. apply (copy_data_ok _ [] (pool_get _)); [done|apply pool_get_length].
Qed.

Lemma combine_known q p it i o addr data now :
  queue_ok q -> p ∈ items (cq_items q) -> cq_store q !! p = Some it -> ci_packets it !! i = Some o -> buffer_ok data ->
  exists q' r released, combine_item q (Some p) it addr i data now = Ret (q', r, released) /\
    combine_outcome q (ci_key it) (ci_addr it) (frags it) i addr data q' r released.
Proof.
  intros Q Hin Hp Hi Hd. unfold combine_item. rewrite (index_ret _ _ _ Hi). cbn [gbind].
  destruct (bk_items _ (qo_books _ Q) p Hin) as (_ & it0 & Hp0 & Hok). assert (it0 = it) as -> by congruence.
  pose proof (over_limit_intro q it i o data (Some p) Hok Hi (fragments_item q p it (qo_books _ Q) Hin Hp)) as Hov.
  destruct (Z.ltb_spec (DnsMaxCombinedPacketByteCount (cq_settings q)) (ci_payload it + payload_delta data o)) as [|Hm];
    [eexists _, _, _; split; [done|constructor; apply Hov; by left]|].
  destruct (_ || _) eqn:El; [eexists _, _, _; split; [done|constructor; apply Hov; right; by apply orb_ltb_true]|].
  apply orb_false_iff in El as [El1 El2]. apply Z.ltb_ge in El1, El2. set (it' := store_packet it o addr i data now).
  pose proof (store_packet_ok _ it i o addr data now Hok Hi Hd Hm) as Hok'. fold it' in Hok'.
  pose proof (put_item_ok q p it it' Q Hin Hp eq_refl eq_refl Hok') as A. cbv zeta in A.
  replace (ci_retained it' - ci_retained it) with (retained_delta data o) in A by (unfold it'; cbn; lia). specialize (A ltac:(lia) ltac:(cbn; lia)).
  set (q1 := put_item q p it' (retained_delta data o)) in A. change (CombineQueue (cq_settings q) (cq_items q) _ _ _ _ _ _) with q1. pose proof (qa_books _ _ _ A) as B1.
  pose proof (elem_of_Permutation (items (cq_items q)) p) as [Hsp _]. destruct (Hsp Hin) as [l' El']. pose proof (bk_nodup _ (qo_books _ Q)) as N. rewrite El' in N.
  apply list.NoDup_cons in N as [Hnl _]. pose proof (store_ids it i o addr data now Hi) as Hids. fold it' in Hids.
  pose proof (held_split (cq_store q) p it _ _ El' Hp) as H1. fold (held q) in H1.
  assert (Hrel : match o with Some pk => [buf_id (p_data pk)] | None => [] end = map buf_id (old_data o)) by (by destruct o). rewrite Hrel. clear Hrel.
  destruct (Z.eqb_spec (ci_n it') (Z.of_nat (length (ci_packets it')))) as [Hc|Hc].
  - assert (Hlen : length (packets_data (ci_packets it')) = length (ci_packets it')) by (pose proof (io_n _ _ Hok'); lia).
    destruct (combine_bytes it' Hlen) as (n & -> & E). cbn [gbind]. rewrite E. cbn [gbind].
    destruct (remove_ok q1 p it' false A) as (q2 & -> & Q2 & Hperm & Es & Est & _ & Ek). cbn [gbind]. eexists _, _, _. split; [done|].
    apply outcome_combined; [done|by rewrite Est| | | |].
    + unfold it' in *. rewrite <- (frags_store it i o addr data now). by apply frags_complete.
    + apply fragments_none. rewrite Ek. apply lookup_delete_eq.
    + apply (fragments_other q q2 (ci_key it) p); [apply Q| | |intros it1 Hit1 _; congruence].
      * intros key' Hne. rewrite Ek. cbn [keyItems put_item q1]. by apply lookup_delete_ne.
      * intros p' Hne. rewrite Es. cbn [cq_store put_item q1]. by apply lookup_insert_ne.
    + assert (H2 : held q2 ≡ₚ flat_map (item_buffers (cq_store q)) l').
      { unfold held. rewrite Es. cbn [cq_store put_item q1]. rewrite (held_perm _ (items (cq_items q2)) l'); [by rewrite held_other|].
        apply (Permutation_cons_inv (a := p)). by rewrite Hperm, <- El'. }
      rewrite H2, H1. rewrite <- app_assoc, app_assoc. rewrite Hids. done.
  - assert (Hlt : ci_n it' < Z.of_nat (length (ci_packets it'))) by (pose proof (io_n _ _ Hok'); pose proof (packets_le (ci_packets it')); lia).
    destruct (fix_ok q1 p it' A Hlt) as [Q2 Hperm]. eexists _, _, _. split; [done|]. set (q2 := CombineQueue _ _ _ _ _ _ _ _) in *.
    pose proof (retained_delta_le _ it i o data Hok Hi) as Hrd.
    assert (Hcost : fragment_cost q (ci_key it) (frags it) data = combineFragmentRetainedByteCount data) by (unfold fragment_cost; rewrite (fragments_item q p it (qo_books _ Q) Hin Hp); lia).
    apply outcome_incomplete; [done|done| | | | |cbn; lia|cbn [addrByteCount q2 q1 put_item]; change (ci_addr it') with (ci_addr it); rewrite map_raise, decide_True by done; lia].
    + unfold it'. rewrite <- (frags_store it i o addr data now). fold it'. apply (fragments_item q2 p it'); [apply Q2|cbn [cq_items q2]; by rewrite Hperm|apply A].
    + rewrite <- (frags_store it i o addr data now). apply frags_incomplete. fold it'. pose proof (io_n _ _ Hok'). lia.
    + apply (fragments_other q q2 (ci_key it) p); [apply Q|done| |intros it1 Hit1 _; congruence]. intros p' Hne. by apply lookup_insert_ne.
    + assert (H2 : held q2 ≡ₚ map buf_id (packets_data (ci_packets it')) ++ flat_map (item_buffers (cq_store q)) l').
      { unfold held. cbn [cq_items cq_store q2]. rewrite (held_split _ p it' _ l'); [|rewrite Hperm; exact El'|apply A]. cbn [cq_store put_item q1]. by rewrite held_other. }
      rewrite H2, H1, app_assoc, Hids. done.
Qed.

Lemma combine_new q it i addr data now :
  queue_ok q -> item_ok (cq_settings q) it -> ci_addr it = addr -> packets_data (ci_packets it) = [] -> ci_packets it !! i = Some None -> buffer_ok data ->
  keyItems q !! ci_key it = None -> Z.of_nat (length (items (cq_items q))) < DnsMaxCombine (cq_settings q) ->
  default 0 (addrItemCount q !! String addr) < DnsMaxCombinePerAddress (cq_settings q) ->
  exists q' r released, combine_item q None it addr i data now = Ret (q', r, released) /\
    combine_outcome q (ci_key it) (ci_addr it) (frags it) i addr data q' r released.
Proof.
  intros Q Hok <- Hnil Hi Hd Hk M1 M2. unfold combine_item. rewrite (index_ret _ _ _ Hi). cbn [gbind].
  assert (Hr0 : ci_retained it = newCombineItemRetainedByteCount (Z.of_nat (length (ci_packets it)))).
  { rewrite (io_retained _ _ Hok). unfold retained_of. rewrite Hnil. cbn [map sumZ foldr]. lia. }
  pose proof (over_limit_intro q it i None data None Hok Hi (fragments_none _ _ Hk)) as Hov. cbv zeta in Hov. rewrite <- Hr0 in Hov.
  destruct (Z.ltb_spec (DnsMaxCombinedPacketByteCount (cq_settings q)) (ci_payload it + payload_delta data None)) as [|Hm];
    [eexists _, _, _; split; [done|constructor; apply Hov; by left]|].
  destruct (_ || _) eqn:El; [eexists _, _, _; split; [done|constructor; apply Hov; right; by apply orb_ltb_true]|].
  apply orb_false_iff in El as [El1 El2]. apply Z.ltb_ge in El1, El2.
  set (addr := ci_addr it) in *. set (it' := store_packet it None addr i data now).
  pose proof (store_packet_ok _ it i None addr data now Hok Hi Hd Hm) as Hok'. fold it' in Hok'.
  destruct (alloc_ok q it' Q) as (Q1 & Hni & Hs1). set (q1 := alloc_item q it') in *. change (CombineQueue (cq_settings q) (cq_items q) _ _ _ _ _ _) with q1.
  pose proof (store_ids it i None addr data now Hi) as Hids. rewrite Hnil in Hids. cbn [old_data map app] in Hids. fold it' in Hids.
  assert (Hheld : held q1 = held q) by (by apply held_other).
  assert (Hother : forall key', key' <> ci_key it -> fragments q1 key' = fragments q key').
  { apply (fragments_other q q1 (ci_key it) (cq_next q)); [apply Q|done| |intros it1 _ Hin; done]. intros p' Hne. by apply lookup_insert_ne. }
  destruct (Z.eqb_spec (ci_n it') (Z.of_nat (length (ci_packets it')))) as [Hc|Hc].
  - assert (Hlen : length (packets_data (ci_packets it')) = length (ci_packets it')) by (pose proof (io_n _ _ Hok'); lia).
    destruct (combine_bytes it' Hlen) as (n & -> & E). cbn [gbind]. rewrite E. cbn [gbind]. eexists _, _, _. split; [done|].
    apply outcome_combined; [done|done| |by apply fragments_none|done|].
    + rewrite <- (frags_store it i None addr data now). by apply frags_complete.
    + cbn [app]. by rewrite Hheld, Hids.
  - assert (Hlt : ci_n it' < Z.of_nat (length (ci_packets it'))) by (pose proof (io_n _ _ Hok'); pose proof (packets_le (ci_packets it')); lia).
    assert (Hr : ci_retained it' = ci_retained it + retained_delta data None) by done.
    destruct (push_ok q1 (cq_next q) it') as [Q2 Hperm]; 
      [done|done|cbn [cq_next alloc_item q1]; lia|apply lookup_insert_eq|done|done|done|cbn [retainedBytes cq_settings alloc_item q1]; lia|
       change (ci_addr it') with addr; cbn [addrByteCount cq_settings alloc_item q1]; lia|done|done|].
    eexists _, _, _. split; [done|]. change (CombineQueue (cq_settings q) _ _ _ _ _ _ _) with (push_item q1 (cq_next q) it'). set (q2 := push_item q1 (cq_next q) it') in *.
    assert (Hcost : fragment_cost q (ci_key it) (frags it) data = combineFragmentRetainedByteCount data + ci_retained it).
    { unfold fragment_cost. rewrite (fragments_none _ _ Hk), Hr0. unfold frags. by rewrite length_map. }
    assert (Hrd : retained_delta data None <= combineFragmentRetainedByteCount data) by (unfold retained_delta; lia).
    apply outcome_incomplete; [done|done| | | | |cbn [retainedBytes q2 q1 push_item alloc_item]; lia|
      cbn [addrByteCount q2 q1 push_item alloc_item]; change (ci_addr it') with addr; rewrite map_raise, decide_True by done; lia].
    + rewrite <- (frags_store it i None addr data now). fold it'.
      apply (fragments_item q2 (cq_next q) it'); [apply Q2|rewrite Hperm; by left|apply lookup_insert_eq].
    + rewrite <- (frags_store it i None addr data now). apply frags_incomplete. fold it'. pose proof (io_n _ _ Hok'). lia.
    + intros key' Hne. rewrite <- (Hother key' Hne). unfold fragments. cbn [keyItems cq_store push_item q2]. by rewrite lookup_insert_ne.
    + cbn [app]. unfold held at 1. rewrite (held_split _ (cq_next q) it' _ _ Hperm) by apply lookup_insert_eq. cbn [cq_store push_item q2].
      fold (held q1). rewrite Hheld, Hids. done.
Qed.

(** What has arrived for the packet of a header. *)
Definition arrived (q : combineQueue) (addr : Addr) (header : list Z) : Addr * list (option buffer) :=
  default (addr, replicate (Z.to_nat (header !!! 16%nat)) None) (fragments q (take 17 header)).

(** A fragment the queue has no place for: too many fragments, or a new packet
    past the packets of its address or of the queue. *)
Definition no_place (q : combineQueue) (addr : Addr) (header : list Z) : Prop :=
  let s := cq_settings q in
  DnsMaxCombineFragmentCount s < header !!! 16%nat \/
  (fragments q (take 17 header) = None /\
    (DnsMaxCombinePerAddress s <= default 0 (addrItemCount q !! String addr) \/ DnsMaxCombine s <= Z.of_nat (length (items (cq_items q))))).

(** A bad header fails; else the fragment is refused for want of place, or
    meets its packet. *)
Definition combine_post q addr header data q' r released : Prop :=
  match r with
  | Failed _ => q' = q /\ released = [] /\ header !!! 16%nat <= header !!! 17%nat
  | Limited => q' = q /\ released = [] /\ header !!! 17%nat < header !!! 16%nat /\
      (no_place q addr header \/ over_limit q (take 17 header) (arrived q addr header).1 (arrived q addr header).2 data)
  | _ => header !!! 17%nat < header !!! 16%nat /\
      combine_outcome q (take 17 header) (arrived q addr header).1 (arrived q addr header).2 (Z.to_nat (header !!! 17%nat)) addr data q' r released
  end.

Lemma combine_post_intro q addr header data a l x :
  arrived q addr header = (a, l) -> header !!! 17%nat < header !!! 16%nat ->
  (exists q' r released, x = Ret (q', r, released) /\ combine_outcome q (take 17 header) a l (Z.to_nat (header !!! 17%nat)) addr data q' r released) ->
  exists q' r released, x = Ret (q', r, released) /\ combine_post q addr header data q' r released.
Proof.
  intros Ea Hlt (q' & r & rel & -> & Ho). exists q', r, rel. split; [done|]. unfold combine_post. rewrite Ea. cbn [fst snd].
  destruct r; try done; inversion Ho; subst; by auto.
Qed.

Lemma Combine_ok q addr header data now :
  queue_ok q -> 0 <= DnsMaxCombinedPacketByteCount (cq_settings q) -> length header = 18%nat -> bytes_ok header -> buffer_ok data ->
  exists q' r released, Combine q addr header data now = Ret (q', r, released) /\ combine_post q addr header data q' r released.
Proof.
  intros Q Hmax Hl Hb Hd. unfold Combine. destruct (lookup_lt_is_Some_2 header 16) as [c Hc]; [lia|]. destruct (lookup_lt_is_Some_2 header 17) as [i Hi]; [lia|].
  rewrite (index_ret _ _ _ Hc), (index_ret _ _ _ Hi). cbn [gbind].
  pose proof (list_lookup_total_correct _ _ _ Hc) as Ec. pose proof (list_lookup_total_correct _ _ _ Hi) as Ei.
  pose proof (bytes_ok_lookup _ _ _ Hb Hc) as [C0 _]. pose proof (bytes_ok_lookup _ _ _ Hb Hi) as [I0 _].
  destruct (Z.eqb_spec c 0) as [->|Hc0]; [eexists _, _, _; split; [done|]; cbn; rewrite Ec, Ei; split_and!; (done || lia)|].
  destruct (Z.leb_spec c i) as [|Hci]; [eexists _, _, _; split; [done|]; cbn; rewrite Ec, Ei; split_and!; (done || lia)|].
  assert (Hnp : no_place q addr header -> combine_post q addr header data q Limited []).
  { intros Hnp. cbn. rewrite Ec, Ei. split_and!; try done. by left. }
  destruct (Z.ltb_spec (DnsMaxCombineFragmentCount (cq_settings q)) c) as [Hcm|Hcm]; [eexists _, _, _; split; [done|]; apply Hnp; left; by rewrite Ec|].
  destruct (keyItems q !! take 17 header) as [p|] eqn:Ek.
  - apply (bk_keys _ (qo_books _ Q)) in Ek as [Hin (it & Hit & Eki)]. rewrite Hit.
    pose proof (fragments_item q p it (qo_books _ Q) Hin Hit) as Ef. apply (combine_post_intro _ _ _ _ (ci_addr it) (frags it)).
    + unfold arrived. by rewrite <- Eki, Ef.
    + by rewrite Ec, Ei.
    + destruct (bk_items _ (qo_books _ Q) p Hin) as (_ & it0 & Hit0 & Hok). assert (it0 = it) as -> by congruence.
      destruct (io_count _ _ Hok) as (c' & Hc' & _ & Hpl). rewrite Eki, lookup_take_lt, Hc in Hc' by lia. injection Hc' as <-.
      destruct (lookup_lt_is_Some_2 (ci_packets it) (Z.to_nat i)) as [o Ho]; [lia|]. rewrite <- Eki, Ei. by apply (combine_known q p it (Z.to_nat i) o).
  - pose proof (fragments_none _ _ Ek) as Ef.
    destruct (Z.leb_spec (DnsMaxCombinePerAddress (cq_settings q)) (default 0 (addrItemCount q !! String addr))); [eexists _, _, _; split; [done|]; apply Hnp; right; by auto|].
    destruct (Z.leb_spec (DnsMaxCombine (cq_settings q)) (Z.of_nat (length (items (cq_items q))))); [eexists _, _, _; split; [done|]; apply Hnp; right; by auto|].
    set (it := CombineItem _ _ _ _ _ _ _ _). assert (Hok : item_ok (cq_settings q) it).
    { apply new_item_ok; [rewrite length_take; lia|by rewrite lookup_take_lt by lia|lia|done]. }
    apply (combine_post_intro _ _ _ _ addr (frags it)); [|by rewrite Ec, Ei|].
    + unfold arrived. rewrite Ef, Ec. cbn [default from_option]. f_equal. symmetry. exact (fmap_replicate _ _ _).
    + rewrite Ei. apply (combine_new q it); try done; [apply packets_none|]. apply lookup_replicate_2. lia.
Qed.

(** ** Expiry *)

Definition updated (q : combineQueue) (key : list Z) : option Z := update_time (cq_store q) <$> keyItems q !! key.

(** The oldest item is at the root. *)
Lemma root_oldest q p rest :
  queue_ok q -> items (cq_items q) = p :: rest -> forall p', p' ∈ items (cq_items q) -> update_time (cq_store q) p <= update_time (cq_store q) p'.
Proof.
  intros Q E p' Hp'. pose proof (heap_root (item_less (cq_store q)) (item_less_asym _) (item_less_ntrans _) (cq_items q) p (qo_heap _ Q)) as H.
  rewrite E in H. specialize (H eq_refl p'). rewrite E in Hp'. specialize (H Hp'). unfold le, item_less in H. lia.
Qed.

(** The packets that stay are the ones updated after the given time. *)
Definition expired_at (q q' : combineQueue) (t : Z) : Prop :=
  forall key, fragments q' key = match updated q key with Some u => if u <=? t then None else fragments q key | None => None end /\
              updated q' key = match updated q key with Some u => if u <=? t then None else Some u | None => None end.

Lemma expired_none q t : queue_ok q -> (forall p, p ∈ items (cq_items q) -> t < update_time (cq_store q) p) -> expired_at q q t.
Proof.
  intros Q Hall key. unfold updated, fragments. destruct (keyItems q !! key) as [p|] eqn:E; [|done]. cbn [fmap option_fmap option_map].
  apply (bk_keys _ (qo_books _ Q)) in E as [Hin _]. rewrite (proj2 (Z.leb_gt _ _)) by (by apply Hall). done.
Qed.

Lemma expired_step q q1 q' p it t :
  queue_ok q -> p ∈ items (cq_items q) -> cq_store q !! p = Some it -> ci_updateTime it <= t ->
  cq_store q1 = cq_store q -> keyItems q1 = delete (ci_key it) (keyItems q) -> expired_at q1 q' t -> expired_at q q' t.
Proof.
  intros Q Hin Hp Ht Es Ek He key. destruct (He key) as [H1 H2]. rewrite H1, H2. unfold updated, fragments. rewrite Es, Ek. destruct (decide (key = ci_key it)) as [->|Hne].
  - rewrite lookup_delete_eq, (proj2 (bk_keys _ (qo_books _ Q) (ci_key it) p)) by eauto. cbn [fmap option_fmap option_map]. unfold update_time.
    rewrite Hp, (proj2 (Z.leb_le _ _) Ht). done.
  - by rewrite lookup_delete_ne.
Qed.

Lemma older_loop_ok fuel q t :
  queue_ok q -> (length (items (cq_items q)) <= fuel)%nat ->
  exists q' returned, older_loop fuel q t = Ret (q', returned) /\ queue_ok q' /\ cq_settings q' = cq_settings q /\ returned ++ held q' ≡ₚ held q /\ expired_at q q' t.
Proof.
  revert q. induction fuel as [|fuel IH]; intros q Q Hf.
  - destruct (items (cq_items q)) as [|p l] eqn:E; [|cbn in Hf; lia]. cbn [older_loop]. rewrite E. exists q, []. split_and!; try done.
    apply expired_none; [done|]. intros p Hp. rewrite E in Hp. by apply not_elem_of_nil in Hp.
  - cbn [older_loop]. destruct (items (cq_items q)) as [|p l] eqn:E.
    { exists q, []. split_and!; try done. apply expired_none; [done|]. intros p Hp. rewrite E in Hp. by apply not_elem_of_nil in Hp. }
    pose proof (root_oldest q p l Q E) as Hroot. assert (Hin : p ∈ items (cq_items q)) by (rewrite E; by left).
    destruct (Z.leb_spec (update_time (cq_store q) p) t) as [Ht|Ht].
    2:{ exists q, []. split_and!; try done. apply expired_none; [done|]. intros p' Hp'. specialize (Hroot p' Hp'). lia. }
    destruct (bk_items _ (qo_books _ Q) p Hin) as (_ & it & Hp & _). rewrite Hp.
    destruct (remove_ok q p it true (queue_at_intro q p it Q Hin Hp)) as (q1 & -> & Q1 & Hperm & Es & Est & _ & Ek). cbn [gbind].
    destruct (IH q1 Q1) as (q' & rest & -> & Q' & Est' & Hh & He); [apply Permutation_length in Hperm; rewrite E in Hperm; cbn in *; lia|]. cbn [gbind].
    eexists _, _. split; [done|]. split_and!; [done|by rewrite Est'| |].
    + rewrite <- app_assoc, Hh. unfold held at 2. rewrite (held_split (cq_store q) p it _ _ (symmetry Hperm) Hp). unfold held. by rewrite Es.
    + apply (expired_step q q1 q' p it t); try done. unfold update_time in Ht. by rewrite Hp in Ht.
Qed.

Lemma newCombineQueue_ok s : settings_accepted s = true -> queue_ok (newCombineQueue s).
Proof.
  intros Hs. unfold settings_accepted in Hs. assert (Hpos : 0 <= DnsMaxCombineBytes s /\ 0 <= DnsMaxCombineBytesPerAddress s /\ 0 <= DnsMaxCombine s /\ 0 <= DnsMaxCombinePerAddress s) by lia.
  destruct Hpos as (P1 & P2 & P3 & P4). split; [| |by intros k Hk; cbn in Hk; lia|intros p it Hp; by apply not_elem_of_nil in Hp].
  - split; cbn; try done; [constructor|intros p Hp; by apply not_elem_of_nil in Hp|].
    intros key p. rewrite lookup_empty. split; [done|]. intros [Hp _]. by apply not_elem_of_nil in Hp.
  - split; cbn; done.
Qed.

(** A received fragment: 18 bytes of header and a pooled buffer. *)
Definition fragment_ok (header : list Z) (data : buffer) : Prop := length header = 18%nat /\ bytes_ok header /\ buffer_ok data.

Inductive queue_reached (s : PacketTranslationSettings) : combineQueue -> Prop :=
| reached_empty : queue_reached s (newCombineQueue s)
| reached_receive q addr header data before now q' r released :
    queue_reached s q -> fragment_ok header data -> receive_fragment q addr header data before now = Ret (q', r, released) -> queue_reached s q'
| reached_expire q t q' returned : queue_reached s q -> RemoveOlder q t = Ret (q', returned) -> queue_reached s q'.

Lemma combine_post_ok q addr header data q' r released :
  queue_ok q -> combine_post q addr header data q' r released ->
  queue_ok q' /\ cq_settings q' = cq_settings q /\
  released ++ held q' ≡ₚ match r with Limited | Failed _ => held q | _ => buf_id data :: held q end.
Proof.
  intros Q. unfold combine_post. destruct r.
  - intros [_ Ho]. inversion Ho; subst. done.
  - intros [_ Ho]. inversion Ho; subst. done.
  - by intros (-> & -> & _).
  - by intros (-> & -> & _).
Qed.

Lemma combine_receive_ok q addr header data before now :
  queue_ok q -> 0 <= DnsMaxCombinedPacketByteCount (cq_settings q) -> fragment_ok header data ->
  exists q1 q' r released, receive_fragment q addr header data before now = Ret (q', r, released) /\
    queue_ok q' /\ cq_settings q' = cq_settings q /\ expired_at q q1 (before - DnsStateTimeout (cq_settings q)) /\
    (exists given, combine_post q1 addr header data q' r given) /\ released ++ held q' ≡ₚ buf_id data :: held q.
Proof.
  intros Q Hm (Hl & Hb & Hd). unfold receive_fragment, RemoveOlder.
  destruct (older_loop_ok _ q (before - DnsStateTimeout (cq_settings q)) Q (Nat.le_refl _)) as (q1 & expired & -> & Q1 & S1 & H1 & E1). cbn [gbind].
  destruct (Combine_ok q1 addr header data now Q1 ltac:(by rewrite S1) Hl Hb Hd) as (q2 & r & given & -> & P). cbn [gbind].
  destruct (combine_post_ok _ _ _ _ _ _ _ Q1 P) as (Q2 & S2 & H2). exists q1, q2, r.
  destruct r; (eexists; split; [done|]; split_and!; [done|by rewrite S2|done|by exists given|]).
  - by rewrite <- app_assoc, H2, <- H1, Permutation_middle.
  - by rewrite <- app_assoc, H2, <- H1, Permutation_middle.
  - rewrite <- H1, Permutation_middle, <- H2, <- !app_assoc. f_equiv. rewrite (Permutation_app_comm given). cbn. by rewrite (Permutation_app_comm (held q2)).
  - rewrite <- H1, Permutation_middle, <- H2, <- !app_assoc. f_equiv. rewrite (Permutation_app_comm given). cbn. by rewrite (Permutation_app_comm (held q2)).
Qed.

Lemma reached_ok s q : settings_accepted s = true -> queue_reached s q -> queue_ok q /\ cq_settings q = s.
Proof.
  intros Hs. induction 1 as [|q addr header data before now q' r released _ [Q E] Hf Hr|q t q' returned _ [Q E] Hr].
  - split; [by apply newCombineQueue_ok|done].
  - assert (Hm : 0 <= DnsMaxCombinedPacketByteCount (cq_settings q)) by (rewrite E; unfold settings_accepted in Hs; lia).
    destruct (combine_receive_ok q addr header data before now Q Hm Hf) as (q1 & q2 & r2 & rel2 & E2 & Q2 & S2 & _). rewrite Hr in E2. injection E2 as <- <- <-. by rewrite S2.
  - destruct (older_loop_ok _ q t Q (Nat.le_refl _)) as (q2 & ret2 & E2 & Q2 & S2 & _). unfold RemoveOlder in Hr. rewrite Hr in E2. injection E2 as <- <-. by rewrite S2.
Qed.

(** ** A whole packet *)

Fixpoint combine_all (q : combineQueue) (addr : Addr) (l : list (list Z * buffer * Z)) : go (combineQueue * list combine_result) :=
  match l with
  | [] => Ret (q, [])
  | (header, data, now) :: l =>
      let! '(q, r, _) := Combine q addr header data now in
      let! '(q, rs) := combine_all q addr l in
      Ret (q, r :: rs)
  end.

Definition packet_header (pid : list Z) (c i : nat) : list Z := pid ++ [Z.of_nat c; Z.of_nat i].
Definition packet_key (pid : list Z) (c : nat) : list Z := pid ++ [Z.of_nat c].

(** The fragments of [parts] that are still to come, with their times. *)
Definition sent (pid : list Z) (parts : list buffer) (order : list (nat * Z)) : list (list Z * buffer * Z) :=
  omap (fun it => (fun b => (packet_header pid (length parts) (fst it), b, snd it)) <$> parts !! fst it) order.
Definition sent_sum (f : buffer -> Z) (parts : list buffer) (order : list (nat * Z)) : Z :=
  sumZ (map f (omap (fun it => parts !! fst it) order)).

Lemma header_facts pid c i :
  length pid = 16%nat -> bytes_ok pid -> (c < 256)%nat -> (i < c)%nat -> let h := packet_header pid c i in
  length h = 18%nat /\ bytes_ok h /\ h !!! 16%nat = Z.of_nat c /\ h !!! 17%nat = Z.of_nat i /\ take 17 h = packet_key pid c.
Proof.
  intros Hl Hb Hc Hi h. unfold h, packet_header, packet_key. split_and!.
  - rewrite length_app. cbn. lia.
  - apply bytes_ok_app. split; [done|]. repeat constructor; lia.
  - by rewrite lookup_total_app_r, Hl by lia.
  - by rewrite lookup_total_app_r, Hl by lia.
  - rewrite take_app, Hl, (firstn_all2 pid) by lia. done.
Qed.

(** The packet so far: [l] has the parts whose index is not in [order]. *)
Record under_way (q : combineQueue) (pid : list Z) (addr : Addr) (parts : list buffer) (order : list (nat * Z)) (l : list (option buffer)) : Prop := {
  uw_queue : queue_ok q;
  uw_length : length l = length parts;
  uw_arrived : default (addr, replicate (length parts) None) (fragments q (packet_key pid (length parts))) = (addr, l);
  uw_nodup : NoDup order.*1;
  uw_missing j : l !! j = Some None <-> j ∈ order.*1;
  uw_have j b : l !! j = Some (Some b) -> parts !! j = Some b;
  uw_count : Z.of_nat (length parts) <= DnsMaxCombineFragmentCount (cq_settings q);
  uw_place : fragments q (packet_key pid (length parts)) = None ->
    default 0 (addrItemCount q !! String addr) < DnsMaxCombinePerAddress (cq_settings q) /\
    Z.of_nat (length (items (cq_items q))) < DnsMaxCombine (cq_settings q);
  uw_payload : sumZ (map (fun b => Z.of_nat (length (buf_bytes b))) (omap (@id (option buffer)) l)) + sent_sum (fun b => Z.of_nat (length (buf_bytes b))) parts order <=
    DnsMaxCombinedPacketByteCount (cq_settings q);
  uw_room : let cost := sent_sum combineFragmentRetainedByteCount parts order +
      match fragments q (packet_key pid (length parts)) with Some _ => 0 | None => newCombineItemRetainedByteCount (Z.of_nat (length parts)) end in
    retainedBytes q + cost <= DnsMaxCombineBytes (cq_settings q) /\
    default 0 (addrByteCount q !! String addr) + cost <= DnsMaxCombineBytesPerAddress (cq_settings q);
}.

Lemma omap_id_insert (l : list (option buffer)) i b : l !! i = Some None -> omap (@id (option buffer)) (<[i := Some b]> l) ≡ₚ b :: omap (@id (option buffer)) l.
Proof.
  intros Hi. rewrite insert_take_drop by (by eapply lookup_lt_Some). rewrite <- (take_drop_middle l i None Hi) at 3. rewrite !omap_app.
  cbn [omap list_omap id]. solve_Permutation.
Qed.

Lemma sent_sum_cons f parts i t order b : parts !! i = Some b -> sent_sum f parts ((i, t) :: order) = f b + sent_sum f parts order.
Proof. intros Hb. unfold sent_sum. cbn [omap list_omap fst]. rewrite Hb. cbn [map]. by rewrite sumZ_cons. Qed.
Lemma sent_sum_nonneg f parts order : (forall b, b ∈ parts -> 0 <= f b) -> 0 <= sent_sum f parts order.
Proof.
  intros Hf. apply sumZ_map_nonneg. intros b (it & _ & Hb)%list_elem_of_omap. apply Hf. by apply list_elem_of_lookup_2 in Hb.
Qed.

(** One more fragment, and not the last. *)
Lemma under_way_step q q' pid addr parts i t order l b :
  under_way q pid addr parts ((i, t) :: order) l -> parts !! i = Some b -> queue_ok q' -> cq_settings q' = cq_settings q ->
  fragments q' (packet_key pid (length parts)) = Some (addr, <[i := Some b]> l) ->
  retainedBytes q' <= retainedBytes q + fragment_cost q (packet_key pid (length parts)) l b ->
  default 0 (addrByteCount q' !! String addr) <= default 0 (addrByteCount q !! String addr) + fragment_cost q (packet_key pid (length parts)) l b ->
  under_way q' pid addr parts order (<[i := Some b]> l).
Proof.
  intros [_ L A N M H C _ P R] Hb Q' S' F' Hr Ha. cbv zeta in R. cbn [fmap list_fmap fst] in N, M. apply list.NoDup_cons in N as [Ni N].
  assert (Hi : l !! i = Some None) by (apply M; by left). pose proof (lookup_lt_Some _ _ _ Hi) as Hlt.
  unfold fragment_cost in Hr, Ha. rewrite L in Hr, Ha. rewrite (sent_sum_cons _ _ i t order b Hb) in R. rewrite (sent_sum_cons _ _ i t order b Hb) in P.
  split; rewrite ?S', ?F'; try done.
  - by rewrite length_insert.
  - intros j. destruct (decide (j = i)) as [->|Hne].
    + rewrite list_lookup_insert_eq by done. by split.
    + rewrite list_lookup_insert_ne, M, list.elem_of_cons by done. split; [by intros [->|?]|by right].
  - intros j b' Hj. destruct (decide (j = i)) as [->|Hne]; [rewrite list_lookup_insert_eq in Hj by done; congruence|].
    rewrite list_lookup_insert_ne in Hj by done. by apply H.
  - rewrite (sumZ_map_perm _ _ _ (omap_id_insert l i b Hi)). cbn [map]. rewrite sumZ_cons. lia.
  - cbv zeta. lia.
Qed.

(** The lists of packets agree once nothing is missing. *)
Lemma under_way_last q pid addr parts i t l b ps :
  under_way q pid addr parts [(i, t)] l -> parts !! i = Some b -> <[i := Some b]> l = map Some ps -> ps = parts.
Proof.
  intros [_ L A N M H C _ P R] Hb E. apply list_eq. intros j. assert (Hj : <[i := Some b]> l !! j = Some <$> ps !! j) by (rewrite E; apply list_lookup_fmap).
  destruct (decide (j = i)) as [->|Hne].
  - assert (Hi : l !! i = Some None) by (apply M; by left). rewrite list_lookup_insert_eq in Hj by (by eapply lookup_lt_Some).
    destruct (ps !! i) as [b'|]; [|done]. cbn in Hj. congruence.
  - rewrite list_lookup_insert_ne in Hj by done. destruct (ps !! j) as [b'|] eqn:Ep.
    + cbn in Hj. symmetry. by apply H.
    + cbn in Hj. symmetry. apply lookup_ge_None_2. apply lookup_ge_None_1 in Hj. lia.
Qed.

Lemma combine_all_ok pid addr parts order : forall q l,
  length pid = 16%nat -> bytes_ok pid -> (length parts < 256)%nat -> Forall buffer_ok parts -> order <> [] -> Forall (fun it => is_Some (parts !! fst it)) order ->
  under_way q pid addr parts order l ->
  exists q', combine_all q addr (sent pid parts order) =
    Ret (q', replicate (pred (length order)) Incomplete ++ [Combined (concat (map buf_bytes parts)) (Some addr)]) /\ queue_ok q' /\
    fragments q' (packet_key pid (length parts)) = None.
Proof.
  induction order as [|[i t] order IH]; intros q l Hid Hidb Hlen Hbufs Hne Hin U; [done|]. apply Forall_cons_1 in Hin as [[b Hb] Hin]. cbn [fst] in Hb.
  pose proof (lookup_lt_Some _ _ _ Hb) as Hlt. destruct (header_facts pid (length parts) i Hid Hidb Hlen Hlt) as (F1 & F2 & F3 & F4 & F5).
  set (key := packet_key pid (length parts)) in *. cbn [sent omap list_omap fst snd]. rewrite Hb. cbn [fmap option_fmap option_map combine_all].
  pose proof U as [Q L A N M H C PL P R]. cbv zeta in R. fold key in A, PL, R. rewrite list.Forall_forall in Hbufs.
  assert (Hbok : buffer_ok b) by (apply Hbufs; by apply list_elem_of_lookup_2 in Hb).
  assert (Hc0 : forall x, x ∈ parts -> 0 <= combineFragmentRetainedByteCount x).
  { intros x Hx. specialize (Hbufs x Hx). unfold buffer_ok in Hbufs. unfold combineFragmentRetainedByteCount, combinePacketRetainedByteCount, MetaByteCount. lia. }
  pose proof (sent_sum_nonneg combineFragmentRetainedByteCount parts order Hc0) as Hs0.
  pose proof (sent_sum_nonneg (fun b => Z.of_nat (length (buf_bytes b))) parts order ltac:(intros; cbv beta; lia)) as Hs1.
  rewrite (sent_sum_cons _ _ i t order b Hb) in P. rewrite (sent_sum_cons _ _ i t order b Hb) in R.
  destruct (Combine_ok q addr (packet_header pid (length parts) i) b t Q) as (q1 & r & given & E & Post); [|done|done|done|].
  { assert (0 <= sumZ (map (fun b => Z.of_nat (length (buf_bytes b))) (omap (@id (option buffer)) l))) by (apply sumZ_map_nonneg; intros; cbv beta; lia). lia. }
  rewrite E. cbn [gbind]. unfold combine_post, arrived, no_place, over_limit, fragment_cost in Post. rewrite F3, F4, F5, Nat2Z.id in Post. fold key in Post. rewrite A in Post. cbn [fst snd] in Post.
  destruct r as [out ad| | |e].
  - destruct Post as [_ Ho]. inversion Ho as [| |q2 rel ps Q2 S2 Ep Fn Fo Hh]; subst. destruct order as [|[i' t'] order].
    + rewrite (under_way_last q pid addr parts i t l b ps U Hb ltac:(by rewrite Nat2Z.id in Ep)). cbn. by eexists.
    + exfalso. assert (Hm : l !! i' = Some None) by (apply M; right; by left). rewrite Nat2Z.id in Ep.
      assert (Hx : <[i := Some b]> l !! i' = Some None).
      { rewrite list_lookup_insert_ne; [done|]. intros ->. cbn in N. apply list.NoDup_cons in N as [N _]. apply N. by left. }
      rewrite Ep, list_lookup_fmap in Hx. by destruct (ps !! i').
  - destruct Post as [_ Ho]. inversion Ho as [|q2 rel Q2 S2 Fr Hn Fo Hh Hr Ha|]; subst. rewrite Nat2Z.id in Fr, Hn. destruct order as [|it order].
    + exfalso. apply list_elem_of_lookup in Hn as [j Hj]. destruct (decide (j = i)) as [->|Hji].
      * rewrite list_lookup_insert_eq in Hj; [done|]. assert (l !! i = Some None) as Hi by (apply M; by left). by eapply lookup_lt_Some.
      * rewrite list_lookup_insert_ne in Hj by done. apply M in Hj. cbn in Hj. apply list_elem_of_singleton in Hj. done.
    + destruct (IH q1 (<[i := Some b]> l) Hid Hidb Hlen ltac:(by rewrite list.Forall_forall) ltac:(done) Hin) as (q' & E' & Q' & F').
      { by apply (under_way_step q q1 pid addr parts i t). }
      unfold sent in E'. rewrite E'. cbn [gbind]. by exists q'.
  - exfalso. destruct Post as (_ & _ & _ & [Hnp|Hov]).
    + destruct Hnp as [?|[Hnone Hnp]]; [lia|]. specialize (PL Hnone). lia.
    + rewrite L in Hov. lia.
  - exfalso. lia.
Qed.
End combine.

(** ** Theorems *)

Section theorems.
Context {Addr : Type} (String : Addr -> list Z) {MP : MessagePool}.

Lemma sent_all (f : buffer -> Z) (parts : list buffer) (order : list (nat * Z)) : order.*1 ≡ₚ seq 0 (length parts) -> sent_sum f parts order = sumZ (map f parts).
Proof.
  intros Hp. unfold sent_sum. apply sumZ_map_perm. assert (E : forall o, omap (fun it : nat * Z => parts !! it.1) o = omap (fun i => parts !! i) o.*1).
  { induction o as [|x o IH]; [done|]. cbn. destruct (parts !! x.1); by rewrite IH. }
  rewrite E, Hp. clear E Hp order. induction parts as [|b parts IH]; [done|]. cbn [length seq omap list_omap lookup list_lookup].
  rewrite <- seq_shift. assert (E : forall l : list nat, omap (fun i => (b :: parts) !! i) (map S l) = omap (fun i => parts !! i) l).
  { induction l as [|x l IHl]; [done|]. cbn. by rewrite IHl. }
  by rewrite E, IH.
Qed.

Lemma oldest_ok (q : combineQueue) : queue_ok String q ->
  match OldestUpdateTime q with
  | None => forall key, fragments q key = None
  | Some t => (exists key, updated q key = Some t) /\ forall key u, updated q key = Some u -> t <= u
  end.
Proof.
  intros Q. unfold OldestUpdateTime. pose proof (qo_books _ _ Q) as B. destruct (items (cq_items q)) as [|p rest] eqn:E.
  - intros key. apply fragments_none. destruct (keyItems q !! key) as [p|] eqn:Ek; [|done]. apply (bk_keys _ _ B) in Ek as [Hin _]. rewrite E in Hin. by apply not_elem_of_nil in Hin.
  - assert (Hin : p ∈ items (cq_items q)) by (rewrite E; by left). destruct (bk_items _ _ B p Hin) as (_ & it & Hp & _). split.
    + exists (ci_key it). unfold updated. by rewrite (proj2 (bk_keys _ _ B (ci_key it) p)) by eauto.
    + intros key u. unfold updated. destruct (keyItems q !! key) as [p'|] eqn:Ek; [|done]. intros [= <-]. apply (bk_keys _ _ B) in Ek as [Hin' _].
      by apply (root_oldest String q p rest).
Qed.
End theorems.

(** C22: Whatever fragments arrive, with whatever counts, indices and buffer
    sizes and from whatever addresses, the combiner holds no more packets and no
    more bytes than its settings allow, in all and for every address; no packet
    has more fragments or more payload than allowed; its running totals are the
    sums over what it holds; and the oldest update time it reports is the least. *)
Theorem combine_queue_bounded {Addr} (String : Addr -> list Z) {MP : MessagePool} s q :
  settings_accepted s = true -> queue_reached String s q ->
  retainedBytes q <= DnsMaxCombineBytes s /\ (forall a, default 0 (addrByteCount q !! a) <= DnsMaxCombineBytesPerAddress s) /\
  Z.of_nat (length (items (cq_items q))) <= DnsMaxCombine s /\ (forall a, default 0 (addrItemCount q !! a) <= DnsMaxCombinePerAddress s) /\
  retainedBytes q = weigh_items ci_retained (cq_store q) (items (cq_items q)) /\
  (forall a, default 0 (addrByteCount q !! a) = weigh_items (of_addr String a ci_retained) (cq_store q) (items (cq_items q))) /\
  (forall p, p ∈ items (cq_items q) -> exists it, cq_store q !! p = Some it /\ item_ok s it) /\
  match OldestUpdateTime q with
  | None => forall key, fragments q key = None
  | Some t => (exists key, updated q key = Some t) /\ forall key u, updated q key = Some u -> t <= u
  end.
Proof.
  intros Hs Hr. destruct (reached_ok String s q Hs Hr) as [Q <-]. pose proof (qo_limits _ _ Q) as [L1 L2 L3 L4]. pose proof (qo_books _ _ Q) as B.
  split_and!; [done..|apply B|apply B| |by apply (oldest_ok String)]. intros p Hp. apply (bk_items _ _ B p Hp).
Qed.

(** C20: A received fragment is handled without a panic, and its buffer, those it
    replaces and those of expired packets are returned to the pool once or held
    once: what was held together with the new buffer is what is held together
    with what was returned. Packets updated within the state timeout stay, the
    others go. A fragment is refused for a bad header or because it would pass a
    limit, and then changes nothing; else it takes its place in the packet of its
    header and in no other, and the packet leaves, as the bytes of its fragments
    in the order of their indices, as soon as all of them are there. *)
Theorem combine_fragment {Addr} (String : Addr -> list Z) {MP : MessagePool} s q addr header data before now :
  settings_accepted s = true -> queue_reached String s q -> fragment_ok header data ->
  exists q1 q' r released, receive_fragment String q addr header data before now = Ret (q', r, released) /\
    expired_at q q1 (before - DnsStateTimeout s) /\ (exists given, combine_post String q1 addr header data q' r given) /\
    released ++ held q' ≡ₚ buf_id data :: held q.
Proof.
  intros Hs Hr Hf. destruct (reached_ok String s q Hs Hr) as [Q <-].
  destruct (combine_receive_ok String q addr header data before now Q) as (q1 & q' & r & rel & E & _ & _ & He & Hp & Hh); [unfold settings_accepted in Hs; lia|done|].
  by exists q1, q', r, rel.
Qed.

(** C21: A packet comes back whole: when the queue has room for it, its fragments,
    given in any order, are combined into its bytes at the last of them and not
    before, whatever other packets the queue holds. *)
Theorem combine_roundtrip {Addr} (String : Addr -> list Z) {MP : MessagePool} s q pid addr parts order :
  settings_accepted s = true -> queue_reached String s q ->
  length pid = 16%nat -> bytes_ok pid -> (0 < length parts < 256)%nat -> Forall buffer_ok parts -> order.*1 ≡ₚ seq 0 (length parts) ->
  fragments q (packet_key pid (length parts)) = None -> Z.of_nat (length parts) <= DnsMaxCombineFragmentCount s ->
  default 0 (addrItemCount q !! String addr) < DnsMaxCombinePerAddress s -> Z.of_nat (length (items (cq_items q))) < DnsMaxCombine s ->
  sumZ (map (fun b => Z.of_nat (length (buf_bytes b))) parts) <= DnsMaxCombinedPacketByteCount s ->
  let cost := newCombineItemRetainedByteCount (Z.of_nat (length parts)) + sumZ (map combineFragmentRetainedByteCount parts) in
  retainedBytes q + cost <= DnsMaxCombineBytes s -> default 0 (addrByteCount q !! String addr) + cost <= DnsMaxCombineBytesPerAddress s ->
  exists q', combine_all String q addr (sent pid parts order) =
    Ret (q', replicate (pred (length parts)) Incomplete ++ [Combined (concat (map buf_bytes parts)) (Some addr)]) /\
    fragments q' (packet_key pid (length parts)) = None.
Proof.
  intros Hs Hr Hid Hidb Hl Hb Hp Hf M1 M2 M3 M4 cost M5 M6. destruct (reached_ok String s q Hs Hr) as [Q <-].
  assert (Ho : length order = length parts) by (apply Permutation_length in Hp; by rewrite length_fmap, length_seq in Hp).
  destruct (combine_all_ok String pid addr parts order q (replicate (length parts) None)) as (q' & E & _ & F); [done|done|lia|done| | | |].
  - intros ->. cbn in Ho. lia.
  - apply list.Forall_forall. intros it Hit. apply lookup_lt_is_Some_2. assert (Hin : it.1 ∈ order.*1) by (by apply (list_elem_of_fmap_2 fst)).
    rewrite Hp, elem_of_seq in Hin. lia.
  - split; rewrite ?Hf, ?(sent_all _ _ _ Hp); try done.
    + by rewrite length_replicate.
    + rewrite Hp. apply NoDup_seq.
    + intros j. rewrite Hp, elem_of_seq, lookup_replicate. split; [intros [_ ?]; lia|intros ?; split; [done|lia]].
    + intros j b Hj. apply lookup_replicate in Hj as [? _]. done.
    + assert (Ez : forall n, omap (@id (option buffer)) (replicate n None) = []) by (induction n; done). rewrite Ez. cbn [map sumZ foldr]. lia.
    + cbv zeta. lia.
  - exists q'. by rewrite Ho in E.
Qed.

(** The default limits, and a packet of two fragments, the second one first. *)
Definition demo_settings : PacketTranslationSettings := TranslationSettings 5000000000 64 512 32 65536 262144 2097152 1024 8192.
Definition demo_parts : list buffer := [Buffer 0 [1; 2; 3] 2061; Buffer 1 [4; 5] 2061].
Definition demo_id : list Z := replicate 16 7.
Definition demo_queue : @combineQueue (list Z) := newCombineQueue demo_settings.
Definition demo_header : list Z := packet_header demo_id 2 1.

Lemma demo_fragment : fragment_ok demo_header (Buffer 1 [4; 5] 2061).
Proof. split; [reflexivity|]. split; [apply (bool_decide_eq_true_1 _); vm_compute; reflexivity|unfold buffer_ok; cbn; lia]. Qed.

(** One fragment of that packet has arrived, and one of another packet from
    another address; a third one is refused for its count. *)
Definition demo_arrivals : list (list Z * list Z * buffer * Z) :=
  [([10], demo_header, Buffer 1 [4; 5] 2061, 1); ([11], packet_header (replicate 16 8) 3 0, Buffer 2 [6] 2061, 2);
   ([11], packet_header (replicate 16 9) 200 0, Buffer 3 [7] 2061, 3)].

Fixpoint demo_receive (q : @combineQueue (list Z)) (l : list (list Z * list Z * buffer * Z)) : go (@combineQueue (list Z)) :=
  match l with
  | [] => Ret q
  | (addr, header, data, now) :: l => let! '(q, _, _) := receive_fragment (fun a => a) q addr header data now now in demo_receive q l
  end.

Lemma demo_receive_reached l q q' :
  queue_reached (fun a : list Z => a) demo_settings q -> Forall (fun '(_, header, data, _) => fragment_ok header data) l ->
  demo_receive q l = Ret q' -> queue_reached (fun a : list Z => a) demo_settings q'.
Proof.
  revert q. induction l as [|[[[addr header] data] now] l IH]; intros q Hq Hl; cbn [demo_receive]; [by intros [= <-]|].
  apply Forall_cons_1 in Hl as [Hf Hl]. destruct (receive_fragment (fun a : list Z => a) q addr header data now now) as [[[q1 r] rel]|] eqn:E1; [|done].
  cbn [gbind]. apply IH; [|done]. by apply (reached_receive _ _ q addr header data now now q1 r rel).
Qed.

Lemma combine_queue_bounded_witness :
  exists q, demo_receive demo_queue demo_arrivals = Ret q /\ length (items (cq_items q)) = 2%nat /\
    0 < retainedBytes q <= DnsMaxCombineBytes demo_settings /\ OldestUpdateTime q = Some 1 /\
    forall a, default 0 (addrByteCount q !! a) <= DnsMaxCombineBytesPerAddress demo_settings.
Proof.
  destruct (demo_receive demo_queue demo_arrivals) as [q|] eqn:E; [|vm_compute in E; discriminate E].
  assert (Hr : queue_reached (fun a : list Z => a) demo_settings q).
  { apply (demo_receive_reached demo_arrivals demo_queue q); [constructor| |exact E].
    repeat constructor; try exact (proj1 (proj2 demo_fragment)); try (apply (bool_decide_eq_true_1 _); vm_compute; reflexivity); unfold buffer_ok; cbn; lia. }
  assert (Ev : match demo_receive demo_queue demo_arrivals with
               | Ret q => length (items (cq_items q)) = 2%nat /\ 0 < retainedBytes q /\ OldestUpdateTime q = Some 1
               | Panic => False end) by (vm_compute; repeat split; reflexivity).
  rewrite E in Ev. destruct Ev as (E1 & E2 & E3).
  destruct (combine_queue_bounded (fun a : list Z => a) demo_settings q eq_refl Hr) as (H1 & H2 & _).
  exists q. split; [reflexivity|]. split; [exact E1|]. split; [split; [exact E2|exact H1]|]. split; [exact E3|exact H2].
Defined.

Lemma combine_fragment_witness : exists q' r released, receive_fragment (fun a => a) demo_queue [10] demo_header (Buffer 1 [4; 5] 2061) 0 0 = Ret (q', r, released).
Proof.
  destruct (combine_fragment (fun a : list Z => a) demo_settings demo_queue [10] demo_header (Buffer 1 [4; 5] 2061) 0 0) as (q1 & q' & r & rel & E & _).
  - reflexivity.
  - constructor.
  - exact demo_fragment.
  - exists q', r, rel. exact E.
Defined.

Lemma combine_roundtrip_witness : exists q', combine_all (fun a => a) demo_queue [10] (sent demo_id demo_parts [(1%nat, 5); (0%nat, 6)]) =
  Ret (q', [Incomplete; Combined [1; 2; 3; 4; 5] (Some [10])]).
Proof.
  destruct (combine_roundtrip (fun a : list Z => a) demo_settings demo_queue demo_id [10] demo_parts [(1%nat, 5); (0%nat, 6)]) as (q' & E & _).
  - reflexivity.
  - constructor.
  - reflexivity.
  - apply (bool_decide_eq_true_1 _). vm_compute. reflexivity.
  - cbn. lia.
  - repeat constructor; unfold buffer_ok; cbn; lia.
  - apply perm_swap.
  - reflexivity.
  - vm_compute. discriminate.
  - vm_compute. reflexivity.
  - vm_compute. reflexivity.
  - vm_compute. discriminate.
  - vm_compute. discriminate.
  - vm_compute. discriminate.
  - exists q'. exact E.
Defined.
