(* ===== verification/PumpQueue.v ===== *)
(** The reply headers of the DNS packet translation (pumpQueue in
    src/transport_pt_queue.go). A request leaves a header that one response may
    be paired with; the server takes the latest header of an address first, and
    remembers for every recent peer what its latest request could do.

    Headers are pointers into a store: the heap by age and the heap of their
    address share them. The list of peers is container/list: elements in order,
    with a map to them. *)
From stdpp Require Import sorting.
From S2P Require Import Prelude GoIo GoHeap CombineQueue.

Section pump.
Context {Addr : Type} (String : Addr -> list Z).

Record pumpItem := PumpItem {
  pi_addr : Addr;
  pi_id : Z;
  pi_header : list Z;
  pi_tld : list Z;
  pi_edns : bool;
  pi_updateTime : Z;
  pi_seq : Z;
}.

Record pumpPeerState := PumpPeerState { pp_addrKey : list Z; pp_edns : bool; pp_updateTime : Z }.

(** The heaps keep the two index fields of the items. *)
Record pumpQueue := PumpQueue {
  pq_settings : PacketTranslationSettings;
  pq_items : iheap nat;
  pq_store : gmap nat pumpItem;
  pq_next : nat;
  addrMaxHeap : gmap (list Z) (iheap nat);
  peerStateEntries : gmap (list Z) nat;
  orderedPeerStates : list nat;
  peer_store : gmap nat pumpPeerState;
  peer_next : nat;
  pq_seq : Z;
}.

Definition newPumpQueue (settings : PacketTranslationSettings) : pumpQueue := PumpQueue settings (Iheap [] ∅) ∅ 0 ∅ ∅ [] ∅ 0 0.

Definition item_time (store : gmap nat pumpItem) (p : nat) : Z := match store !! p with Some it => pi_updateTime it | None => 0 end.
Definition item_seq (store : gmap nat pumpItem) (p : nat) : Z := match store !! p with Some it => pi_seq it | None => 0 end.

(** Less of pumpQueue and of pumpQueueMaxHeap. *)
Definition pump_less (store : gmap nat pumpItem) (a b : nat) : bool :=
  if item_time store a =? item_time store b then item_seq store a <? item_seq store b else item_time store a <? item_time store b.
Definition pump_max_less (store : gmap nat pumpItem) (a b : nat) : bool :=
  if item_time store a =? item_time store b then item_seq store b <? item_seq store a else item_time store b <? item_time store a.

Definition set_heaps (q : pumpQueue) (h : iheap nat) (heaps : gmap (list Z) (iheap nat)) : pumpQueue :=
  PumpQueue (pq_settings q) h (pq_store q) (pq_next q) heaps (peerStateEntries q) (orderedPeerStates q) (peer_store q) (peer_next q) (pq_seq q).
Definition set_peers (q : pumpQueue) (entries : gmap (list Z) nat) (order : list nat) (store : gmap nat pumpPeerState) (next : nat) : pumpQueue :=
  PumpQueue (pq_settings q) (pq_items q) (pq_store q) (pq_next q) (addrMaxHeap q) entries order store next (pq_seq q).

(** The heap of an address after it has shrunk. *)
Definition put_heap (addrKey : list Z) (h : iheap nat) (heaps : gmap (list Z) (iheap nat)) : gmap (list Z) (iheap nat) :=
  if (Len h =? 0)%nat then delete addrKey heaps else <[addrKey := h]> heaps.

(** An empty heap of an address would be a nil dereference. *)
Definition removeLastWithLock (q : pumpQueue) (addrKey : list Z) : go (pumpQueue * option nat) :=
  match addrMaxHeap q !! addrKey with
  | None => Ret (q, None)
  | Some h =>
      let! '(h, p) := heap_Remove (pump_max_less (pq_store q)) h 0 in
      let heaps := put_heap addrKey h (addrMaxHeap q) in
      let! '(o, _) := heap_Remove (pump_less (pq_store q)) (pq_items q) (default 0%nat (idx (pq_items q) !! p)) in
      Ret (set_heaps q o heaps, Some p)
  end.

Definition RemoveLast (q : pumpQueue) (addr : Addr) : go (pumpQueue * option nat) := removeLastWithLock q (String addr).

Fixpoint remove_n (n : nat) (q : pumpQueue) (addrKey : list Z) : go (pumpQueue * list (option nat)) :=
  match n with
  | O => Ret (q, [])
  | S n =>
      let! '(q, p) := removeLastWithLock q addrKey in
      let! '(q, l) := remove_n n q addrKey in
      Ret (q, p :: l)
  end.
Definition RemoveLastN (q : pumpQueue) (addr : Addr) (n : nat) : go (pumpQueue * list (option nat)) :=
  match addrMaxHeap q !! String addr with
  | None => Ret (q, [])
  | Some h => if (Len h <? n)%nat then Ret (q, []) else remove_n n q (String addr)
  end.

Fixpoint remove_available (n : nat) (q : pumpQueue) (addrKey : list Z) : go (pumpQueue * list nat) :=
  match n with
  | O => Ret (q, [])
  | S n =>
      let! '(q, p) := removeLastWithLock q addrKey in
      match p with
      | None => Ret (q, [])
      | Some p => let! '(q, l) := remove_available n q addrKey in Ret (q, p :: l)
      end
  end.
Definition RemoveAvailable (q : pumpQueue) (addr : Addr) (n : nat) : go (pumpQueue * list nat * bool) :=
  let edns := match peerStateEntries q !! String addr with
              | Some e => match peer_store q !! e with Some st => pp_edns st | None => false end
              | None => false
              end in
  let! '(q, l) := remove_available n q (String addr) in
  Ret (q, l, edns).

Definition removePeerWithLock (q : pumpQueue) (e : nat) : go pumpQueue :=
  match peer_store q !! e with
  | Some st => Ret (set_peers q (delete (pp_addrKey st) (peerStateEntries q)) (filter (fun x => x <> e) (orderedPeerStates q)) (peer_store q) (peer_next q))
  | None => Panic
  end.

(** Each round removes an item; then each round removes a peer. *)
Fixpoint older_items (fuel : nat) (q : pumpQueue) (minUpdateTime : Z) : go pumpQueue :=
  match items (pq_items q) with
  | p :: _ =>
      if item_time (pq_store q) p <=? minUpdateTime then
        match fuel, pq_store q !! p with
        | S fuel, Some it =>
            let! '(o, _) := heap_Remove (pump_less (pq_store q)) (pq_items q) 0 in
            let addrKey := String (pi_addr it) in
            let! heaps :=
              match addrMaxHeap q !! addrKey with
              | Some h => let! '(h, _) := heap_Remove (pump_max_less (pq_store q)) h (default 0%nat (idx h !! p)) in Ret (put_heap addrKey h (addrMaxHeap q))
              | None => Ret (addrMaxHeap q)
              end in
            older_items fuel (set_heaps q o heaps) minUpdateTime
        | _, _ => Panic
        end
      else Ret q
  | [] => Ret q
  end.
Fixpoint older_peers (fuel : nat) (q : pumpQueue) (minUpdateTime : Z) : go pumpQueue :=
  match orderedPeerStates q with
  | e :: _ =>
      match fuel, peer_store q !! e with
      | S fuel, Some st =>
          if minUpdateTime <? pp_updateTime st then Ret q
          else let! q := removePeerWithLock q e in older_peers fuel q minUpdateTime
      | _, _ => Panic
      end
  | [] => Ret q
  end.
Definition RemoveOlder (q : pumpQueue) (minUpdateTime : Z) : go pumpQueue :=
  let! q := older_items (length (items (pq_items q))) q minUpdateTime in
  older_peers (length (orderedPeerStates q)) q minUpdateTime.

Definition OldestUpdateTime (q : pumpQueue) : option Z :=
  let oldest := match items (pq_items q) with p :: _ => Some (item_time (pq_store q) p) | [] => None end in
  match orderedPeerStates q with
  | e :: _ =>
      match peer_store q !! e with
      | Some st =>
          match oldest with
          | Some t => if pp_updateTime st <? t then Some (pp_updateTime st) else oldest
          | None => Some (pp_updateTime st)
          end
      | None => oldest
      end
  | [] => oldest
  end.

Definition rememberPeerWithLock (q : pumpQueue) (addrKey : list Z) (edns : bool) (now : Z) : go pumpQueue :=
  match peerStateEntries q !! addrKey with
  | Some e =>
      Ret (set_peers q (peerStateEntries q) (filter (fun x => x <> e) (orderedPeerStates q) ++ [e]) (<[e := PumpPeerState addrKey edns now]> (peer_store q)) (peer_next q))
  | None =>
      if DnsMaxPumpHosts (pq_settings q) <=? 0 then Ret q
      else
        let! q :=
          (if DnsMaxPumpHosts (pq_settings q) <=? Z.of_nat (size (peerStateEntries q)) then
             match orderedPeerStates q with
             | e :: _ => removePeerWithLock q e
             | [] => Panic
             end
           else Ret q) in
        let e := peer_next q in
        Ret (set_peers q (<[addrKey := e]> (peerStateEntries q)) (orderedPeerStates q ++ [e]) (<[e := PumpPeerState addrKey edns now]> (peer_store q)) (S e))
  end.

(** [Add]; the queue takes the item over, and says whether a limit refused it. *)
Definition Add (q : pumpQueue) (it : pumpItem) (now : Z) : go (pumpQueue * option nat) :=
  let addrKey := String (pi_addr it) in
  let! q := rememberPeerWithLock q addrKey (pi_edns it) now in
  if DnsMaxPumpHosts (pq_settings q) <=? Z.of_nat (length (items (pq_items q))) then Ret (q, None)
  else
    let h := default (Iheap [] ∅) (addrMaxHeap q !! addrKey) in
    if DnsMaxPumpHostsPerAddress (pq_settings q) <=? Z.of_nat (Len h) then
      Ret (set_heaps q (pq_items q) (<[addrKey := h]> (addrMaxHeap q)), None)
    else
      let seq := u64 (pq_seq q + 1) in
      let p := pq_next q in
      let store := <[p := PumpItem (pi_addr it) (pi_id it) (pi_header it) (pi_tld it) (pi_edns it) now seq]> (pq_store q) in
      Ret (PumpQueue (pq_settings q) (heap_Push (pump_less store) (pq_items q) p) store (S p) (<[addrKey := heap_Push (pump_max_less store) h p]> (addrMaxHeap q))
             (peerStateEntries q) (orderedPeerStates q) (peer_store q) (peer_next q) seq, Some p).

Definition Clear (q : pumpQueue) : pumpQueue :=
  PumpQueue (pq_settings q) (Iheap [] (idx (pq_items q))) (pq_store q) (pq_next q) ∅ ∅ [] (peer_store q) (peer_next q) (pq_seq q).

(** ** The order of the headers *)

Lemma pump_less_asym store a b : pump_less store a b = true -> pump_less store b a = false.
Proof. unfold pump_less. destruct (Z.eqb_spec (item_time store a) (item_time store b)), (Z.eqb_spec (item_time store b) (item_time store a)); lia. Qed.
Lemma pump_less_ntrans store a b c : pump_less store b a = false -> pump_less store c b = false -> pump_less store c a = false.
Proof.
  unfold pump_less. destruct (Z.eqb_spec (item_time store b) (item_time store a)), (Z.eqb_spec (item_time store c) (item_time store b)),
    (Z.eqb_spec (item_time store c) (item_time store a)); lia.
Qed.
Lemma pump_max_less_flip store a b : pump_max_less store a b = pump_less store b a.
Proof. unfold pump_max_less, pump_less. by rewrite Z.eqb_sym. Qed.
Lemma pump_max_less_asym store a b : pump_max_less store a b = true -> pump_max_less store b a = false.
Proof. rewrite !pump_max_less_flip. apply pump_less_asym. Qed.
Lemma pump_max_less_ntrans store a b c : pump_max_less store b a = false -> pump_max_less store c b = false -> pump_max_less store c a = false.
Proof. rewrite !pump_max_less_flip. intros H1 H2. by apply (pump_less_ntrans store c b a). Qed.

(** [a] was added before [b]. *)
Definition before (store : gmap nat pumpItem) (a b : nat) : Prop := item_time store a <= item_time store b /\ item_seq store a < item_seq store b.

Lemma before_not_less store a b : before store a b -> pump_less store b a = false.
Proof. unfold before, pump_less. destruct (Z.eqb_spec (item_time store b) (item_time store a)); lia. Qed.

(** ** What the queue keeps: the headers in the order they were added *)

Definition addr_of (store : gmap nat pumpItem) (p : nat) : option (list Z) := (fun it => String (pi_addr it)) <$> store !! p.
Definition mine (store : gmap nat pumpItem) (a : list Z) (l : list nat) : list nat := filter (fun p => addr_of store p = Some a) l.

Record pump_ok (q : pumpQueue) (l : list nat) (clock : Z) : Prop := {
  po_heap : heap_wf (pump_less (pq_store q)) (pq_items q);
  po_perm : items (pq_items q) ≡ₚ l;
  po_sorted : StronglySorted (before (pq_store q)) l;
  po_items p : p ∈ l -> (p < pq_next q)%nat /\ exists it, pq_store q !! p = Some it /\ pi_seq it <= pq_seq q /\ pi_updateTime it <= clock;
  po_addrs a :
    match addrMaxHeap q !! a with
    | Some h => heap_wf (pump_max_less (pq_store q)) h /\ items h ≡ₚ mine (pq_store q) a l /\ items h <> []
    | None => mine (pq_store q) a l = []
    end;
  po_hosts : Z.of_nat (length l) <= DnsMaxPumpHosts (pq_settings q);
  po_hosts_addr a : Z.of_nat (length (mine (pq_store q) a l)) <= DnsMaxPumpHostsPerAddress (pq_settings q);
  po_seq : 0 <= pq_seq q;
}.

Lemma pump_nodup q l clock : pump_ok q l clock -> NoDup l.
Proof. intros O. rewrite <- (po_perm _ _ _ O). apply (po_heap _ _ _ O). Qed.

(** The list without one header. *)
Definition without (p : nat) (l : list nat) : list nat := filter (fun x => x <> p) l.

Lemma without_other p l : p ∉ l -> without p l = l.
Proof.
  unfold without. induction l as [|x l IH]; intros Hk; [done|]. rewrite filter_cons_True by (intros ->; apply Hk; by left). f_equal. apply IH. intros Hx. apply Hk. by right.
Qed.
Lemma without_perm p l : NoDup l -> p ∈ l -> p :: without p l ≡ₚ l.
Proof.
  intros N Hp. apply list_elem_of_split in Hp as (l1 & l2 & ->). apply list.NoDup_app in N as (N1 & N2 & N3). apply list.NoDup_cons in N3 as [N3 N4].
  unfold without. rewrite list.filter_app, list.filter_cons_False by tauto.
  fold (without p l1) (without p l2). rewrite !without_other; [apply Permutation_middle|done|]. intros Hp. apply (N2 p Hp). by left.
Qed.
Lemma without_sorted (R : nat -> nat -> Prop) p l : StronglySorted R l -> StronglySorted R (without p l).
Proof.
  induction 1 as [|x l Hs IH Hx]; [constructor|]. unfold without. rewrite filter_cons. destruct (decide (x <> p)); [|done]. constructor; [done|].
  apply list.Forall_forall. intros y [_ Hy]%list_elem_of_filter. rewrite list.Forall_forall in Hx. by apply Hx.
Qed.
Lemma mine_without store a p l : mine store a (without p l) = without p (mine store a l).
Proof.
  unfold mine, without. rewrite !list_filter_filter. apply list_filter_iff. tauto.
Qed.
Lemma mine_in store a p l : p ∈ mine store a l <-> addr_of store p = Some a /\ p ∈ l.
Proof. unfold mine. by rewrite list_elem_of_filter. Qed.
Lemma without_length p l : (length (without p l) <= length l)%nat.
Proof. apply length_filter. Qed.

(** One header leaves the heap of its address, and then the queue. *)
Lemma drop_ok q l clock p a h h' o :
  pump_ok q l clock -> p ∈ l -> addr_of (pq_store q) p = Some a -> addrMaxHeap q !! a = Some h ->
  heap_wf (pump_max_less (pq_store q)) h' -> p :: items h' ≡ₚ items h -> heap_wf (pump_less (pq_store q)) o -> p :: items o ≡ₚ items (pq_items q) ->
  pump_ok (set_heaps q o (put_heap a h' (addrMaxHeap q))) (without p l) clock.
Proof.
  intros O Hp Ha Hh W' E' Wo Eo. pose proof (pump_nodup _ _ _ O) as N. destruct O as [H P S I A L1 L2 Sq]. pose proof (A a) as Aa. rewrite Hh in Aa.
  destruct Aa as (W & Pm & _). split; cbn [pq_items pq_store pq_settings pq_next addrMaxHeap pq_seq set_heaps]; [done| |by apply without_sorted| | | | |done].
  - apply (Permutation_cons_inv (a := p)). by rewrite Eo, P, without_perm.
  - intros x [_ Hx]%list_elem_of_filter. by apply I.
  - intros b. rewrite mine_without. unfold put_heap. destruct (decide (b = a)) as [->|Hne].
    + assert (Pm' : items h' ≡ₚ without p (mine (pq_store q) a l)).
      { apply (Permutation_cons_inv (a := p)). rewrite E', Pm, without_perm; [done|by apply list.NoDup_filter|by apply mine_in]. }
      unfold Len. destruct (Nat.eqb_spec (length (items h')) 0) as [E0|E0].
      * rewrite lookup_delete_eq. destruct (items h'); [|done]. by apply Permutation_nil_l in Pm'.
      * rewrite lookup_insert_eq. split_and!; [done|done|]. by destruct (items h').
    + rewrite (without_other p (mine (pq_store q) b l)) by (rewrite mine_in; intros [Hb _]; congruence).
      destruct (Len h' =? 0)%nat; [rewrite lookup_delete_ne by done|rewrite lookup_insert_ne by done]; apply A.
  - pose proof (without_length p l). lia.
  - intros b. rewrite mine_without. pose proof (without_length p (mine (pq_store q) b l)). specialize (L2 b). lia.
Qed.

(** ** The latest header of an address *)

Lemma last_sorted (R : nat -> nat -> Prop) l x : StronglySorted R l -> list.last l = Some x -> forall y, y ∈ l -> y = x \/ R y x.
Proof.
  induction 1 as [|z l Hs IH Hz]; intros Hl y Hy; [done|]. destruct l as [|w l].
  - cbn in Hl. injection Hl as ->. apply list_elem_of_singleton in Hy. by left.
  - cbn in Hl. apply list.elem_of_cons in Hy as [->|Hy]; [|by apply IH]. right. rewrite list.Forall_forall in Hz. apply Hz.
    apply last_Some_elem_of. done.
Qed.

Lemma mine_sorted store a l : StronglySorted (before store) l -> StronglySorted (before store) (mine store a l).
Proof.
  induction 1 as [|x l Hs IH Hx]; [constructor|]. unfold mine. rewrite filter_cons. destruct (decide _); [|done]. constructor; [done|].
  apply list.Forall_forall. intros y [_ Hy]%list_elem_of_filter. rewrite list.Forall_forall in Hx. by apply Hx.
Qed.

Lemma heap_top store h l p rest :
  heap_wf (pump_max_less store) h -> items h ≡ₚ l -> StronglySorted (before store) l -> items h = p :: rest -> list.last l = Some p.
Proof.
  intros W P S E. destruct (list.last l) as [x|] eqn:El.
  2:{ apply last_None in El as ->. rewrite E in P. symmetry in P. by apply Permutation_nil_cons in P. }
  assert (Hx : x ∈ l) by (by apply last_Some_elem_of). assert (Hp : p ∈ l) by (rewrite <- P, E; by left).
  destruct (last_sorted _ l x S El p Hp) as [->|Hb]; [done|]. exfalso.
  assert (Hx' : x ∈ items h) by (by rewrite P).
  pose proof (heap_root (pump_max_less store) (pump_max_less_asym _) (pump_max_less_ntrans _) h p (hw_heap _ _ W)) as Hr. rewrite E in Hr. specialize (Hr eq_refl x).
  rewrite <- E in Hr. specialize (Hr Hx'). unfold le in Hr. rewrite pump_max_less_flip in Hr.
  unfold before in Hb. unfold pump_less in Hr. destruct (Z.eqb_spec (item_time store p) (item_time store x)); lia.
Qed.

Lemma removeLast_ok q l clock a :
  pump_ok q l clock -> exists q' , removeLastWithLock q a = Ret (q', list.last (mine (pq_store q) a l)) /\ pq_store q' = pq_store q /\
    pump_ok q' (match list.last (mine (pq_store q) a l) with Some p => without p l | None => l end) clock /\
    pq_settings q' = pq_settings q /\ peerStateEntries q' = peerStateEntries q /\ orderedPeerStates q' = orderedPeerStates q /\ peer_store q' = peer_store q /\
    peer_next q' = peer_next q.
Proof.
  intros O. pose proof (po_addrs _ _ _ O a) as Aa. unfold removeLastWithLock. destruct (addrMaxHeap q !! a) as [h|] eqn:Eh.
  - destruct Aa as (W & P & Hne). destruct (items h) as [|p rest] eqn:Ei; [done|]. rewrite <- Ei in P.
    rewrite (heap_top _ h _ p rest W P (mine_sorted _ _ _ (po_sorted _ _ _ O)) Ei).
    assert (H0 : items h !! 0%nat = Some p) by (by rewrite Ei).
    destruct (heap_Remove_spec (pump_max_less (pq_store q)) (pump_max_less_asym _) (pump_max_less_ntrans _) h 0 p W H0) as (h' & -> & W' & P' & _). cbn [gbind].
    assert (Hp : p ∈ mine (pq_store q) a l) by (rewrite <- P, Ei; by left). apply mine_in in Hp as [Ha Hp].
    assert (Hpi : p ∈ items (pq_items q)) by (by rewrite (po_perm _ _ _ O)). apply list_elem_of_lookup in Hpi as [i Hi].
    rewrite (hw_idx _ _ (po_heap _ _ _ O) i p Hi). change (default 0%nat (Some i)) with i.
    destruct (heap_Remove_spec (pump_less (pq_store q)) (pump_less_asym _) (pump_less_ntrans _) (pq_items q) i p (po_heap _ _ _ O) Hi) as (o & -> & Wo & Po & _). cbn [gbind].
    eexists. split; [done|]. split; [done|]. split; [|done]. by apply (drop_ok q l clock p a h h' o).
  - rewrite Aa. cbn. by exists q.
Qed.

(** ** Taking several *)

Definition same_peers (q q' : pumpQueue) : Prop :=
  pq_settings q' = pq_settings q /\ peerStateEntries q' = peerStateEntries q /\ orderedPeerStates q' = orderedPeerStates q /\ peer_store q' = peer_store q /\
  peer_next q' = peer_next q.
Lemma same_peers_trans q1 q2 q3 : same_peers q1 q2 -> same_peers q2 q3 -> same_peers q1 q3.
Proof. unfold same_peers. intuition congruence. Qed.

(** The list without several headers. *)
Definition without_all (ps l : list nat) : list nat := filter (fun x => x ∉ ps) l.

Lemma without_all_nil l : without_all [] l = l.
Proof. unfold without_all. induction l as [|x l IH]; [done|]. rewrite list.filter_cons_True by (apply not_elem_of_nil). by rewrite IH. Qed.
Lemma without_all_cons p ps l : without_all (p :: ps) l = without_all ps (without p l).
Proof. unfold without_all, without. rewrite list_filter_filter. apply list_filter_iff. intros x. rewrite list.elem_of_cons. tauto. Qed.

Lemma without_last p k : NoDup (k ++ [p]) -> without p (k ++ [p]) = k.
Proof.
  intros N. apply list.NoDup_app in N as (_ & N & _). unfold without. rewrite list.filter_app, list.filter_cons_False by tauto. rewrite list.filter_nil, app_nil_r.
  apply without_other. intros Hp. apply (N p Hp). by left.
Qed.

Lemma remove_available_ok n : forall q l clock a,
  pump_ok q l clock -> exists q', let ps := take n (reverse (mine (pq_store q) a l)) in
    remove_available n q a = Ret (q', ps) /\ pq_store q' = pq_store q /\ pump_ok q' (without_all ps l) clock /\ same_peers q q'.
Proof.
  induction n as [|n IH]; intros q l clock a O; cbv zeta; cbn [remove_available].
  - exists q. cbn [take]. rewrite without_all_nil. by split_and!.
  - destruct (removeLast_ok q l clock a O) as (q1 & -> & Es & O1 & Hpeers). cbn [gbind]. destruct (list.last (mine (pq_store q) a l)) as [p|] eqn:El.
    + apply last_Some in El as [k Ek]. destruct (IH q1 (without p l) clock a O1) as (q' & E & Es' & O' & Hp'). cbv zeta in E, O'.
      rewrite E. cbn [gbind]. pose proof (pump_nodup _ _ _ O) as N. assert (Nm : NoDup (mine (pq_store q) a l)) by (by apply list.NoDup_filter).
      rewrite Es, mine_without, Ek, without_last in E, O' |- * by (by rewrite <- Ek). rewrite reverse_snoc. cbn [take]. exists q'.
      rewrite without_all_cons. split_and!; [done|by rewrite Es'|done|by eapply same_peers_trans].
    + apply last_None in El. rewrite El. exists q1. rewrite reverse_nil, take_nil, without_all_nil. by split_and!.
Qed.

Lemma remove_n_ok n : forall q l clock a,
  pump_ok q l clock -> (n <= length (mine (pq_store q) a l))%nat -> exists q', let ps := take n (reverse (mine (pq_store q) a l)) in
    remove_n n q a = Ret (q', map Some ps) /\ pq_store q' = pq_store q /\ pump_ok q' (without_all ps l) clock /\ same_peers q q'.
Proof.
  induction n as [|n IH]; intros q l clock a O Hn; cbv zeta; cbn [remove_n].
  - exists q. cbn [take]. rewrite without_all_nil. by split_and!.
  - destruct (removeLast_ok q l clock a O) as (q1 & -> & Es & O1 & Hpeers). cbn [gbind]. destruct (list.last (mine (pq_store q) a l)) as [p|] eqn:El.
    + apply last_Some in El as [k Ek]. pose proof (pump_nodup _ _ _ O) as N. assert (Nm : NoDup (mine (pq_store q) a l)) by (by apply list.NoDup_filter).
      assert (Ew : mine (pq_store q1) a (without p l) = k) by (rewrite Es, mine_without, Ek; apply without_last; by rewrite <- Ek).
      destruct (IH q1 (without p l) clock a O1) as (q' & E & Es' & O' & Hp'); [rewrite Ew; rewrite Ek, length_app in Hn; cbn in Hn; lia|]. cbv zeta in E, O'.
      rewrite E. cbn [gbind]. rewrite Ew in E, O' |- *. rewrite Ek, reverse_snoc. cbn [take map]. exists q'.
      rewrite without_all_cons. split_and!; [done|by rewrite Es'|done|by eapply same_peers_trans].
    + apply last_None in El. rewrite El in Hn. cbn in Hn. lia.
Qed.

(** ** Expiry *)

Definition recent (store : gmap nat pumpItem) (t : Z) (l : list nat) : list nat := filter (fun p => t < item_time store p) l.

Lemma recent_all store t l : (forall p, p ∈ l -> t < item_time store p) -> recent store t l = l.
Proof.
  unfold recent. induction l as [|x l IH]; intros Hl; [done|]. rewrite list.filter_cons_True by (apply Hl; by left). f_equal. apply IH. intros p Hp. apply Hl. by right.
Qed.
Lemma recent_without store t p l : item_time store p <= t -> recent store t (without p l) = recent store t l.
Proof. intros Hp. unfold recent, without. rewrite list_filter_filter. apply list_filter_iff. intros x. split; [tauto|]. intros Hx. split; [done|]. intros ->. lia. Qed.

Lemma pump_root q l clock p rest : pump_ok q l clock -> items (pq_items q) = p :: rest -> forall x, x ∈ l -> item_time (pq_store q) p <= item_time (pq_store q) x.
Proof.
  intros O E x Hx. pose proof (heap_root (pump_less (pq_store q)) (pump_less_asym _) (pump_less_ntrans _) (pq_items q) p (hw_heap _ _ (po_heap _ _ _ O))) as Hr.
  rewrite E in Hr. specialize (Hr eq_refl x). rewrite <- E in Hr. rewrite <- (po_perm _ _ _ O) in Hx. specialize (Hr Hx). unfold le, pump_less in Hr.
  destruct (Z.eqb_spec (item_time (pq_store q) x) (item_time (pq_store q) p)); lia.
Qed.

Lemma older_items_ok fuel : forall q l clock t,
  pump_ok q l clock -> (length l <= fuel)%nat -> exists q', older_items fuel q t = Ret q' /\ pq_store q' = pq_store q /\
    pump_ok q' (recent (pq_store q) t l) clock /\ same_peers q q'.
Proof.
  induction fuel as [|fuel IH]; intros q l clock t O Hf; cbn [older_items]; pose proof (Permutation_length (po_perm _ _ _ O)) as Hlen.
  - destruct l; [|cbn in Hf; lia]. destruct (items (pq_items q)); [|done]. by exists q.
  - destruct (items (pq_items q)) as [|p rest] eqn:Ei; [destruct l; [by exists q|done]|]. pose proof (pump_root q l clock p rest O Ei) as Hroot.
    assert (Hp : p ∈ l) by (rewrite <- (po_perm _ _ _ O), Ei; by left).
    destruct (Z.leb_spec (item_time (pq_store q) p) t) as [Ht|Ht].
    2:{ exists q. rewrite recent_all; [by split_and!|]. intros x Hx. specialize (Hroot x Hx). lia. }
    destruct (po_items _ _ _ O p Hp) as (_ & it & Hit & _). rewrite Hit.
    assert (H0 : items (pq_items q) !! 0%nat = Some p) by (by rewrite Ei).
    destruct (heap_Remove_spec (pump_less (pq_store q)) (pump_less_asym _) (pump_less_ntrans _) (pq_items q) 0 p (po_heap _ _ _ O) H0) as (o & -> & Wo & Po & _). cbn [gbind].
    set (a := String (pi_addr it)). assert (Ha : addr_of (pq_store q) p = Some a) by (unfold addr_of; by rewrite Hit).
    assert (Hm : p ∈ mine (pq_store q) a l) by (by apply mine_in). pose proof (po_addrs _ _ _ O a) as Aa.
    destruct (addrMaxHeap q !! a) as [h|] eqn:Eh; [|rewrite Aa in Hm; by apply not_elem_of_nil in Hm]. destruct Aa as (W & P & _).
    rewrite <- P in Hm. apply list_elem_of_lookup in Hm as [i Hi]. rewrite (hw_idx _ _ W i p Hi). change (default 0%nat (Some i)) with i.
    destruct (heap_Remove_spec (pump_max_less (pq_store q)) (pump_max_less_asym _) (pump_max_less_ntrans _) h i p W Hi) as (h' & -> & W' & P' & _). cbn [gbind].
    pose proof (drop_ok q l clock p a h h' o O Hp Ha Eh W' P' Wo Po) as O1.
    destruct (IH _ _ clock t O1) as (q' & E & Es & O' & Hpe).
    { pose proof (Permutation_length (without_perm p l (pump_nodup _ _ _ O) Hp)) as Hw. cbn in Hw. lia. }
    exists q'. rewrite E. cbn [pq_store set_heaps] in Es, O'. rewrite recent_without in O' by done. by split_and!.
Qed.

(** ** The peers *)

Definition peer_time (store : gmap nat pumpPeerState) (e : nat) : Z := match store !! e with Some st => pp_updateTime st | None => 0 end.

Record peers_ok (q : pumpQueue) (clock : Z) : Prop := {
  pe_nodup : NoDup (orderedPeerStates q);
  pe_store e : e ∈ orderedPeerStates q -> (e < peer_next q)%nat /\ exists st, peer_store q !! e = Some st /\ pp_updateTime st <= clock;
  pe_entries key e : peerStateEntries q !! key = Some e <-> e ∈ orderedPeerStates q /\ exists st, peer_store q !! e = Some st /\ pp_addrKey st = key;
  pe_sorted : StronglySorted (fun e e' => peer_time (peer_store q) e <= peer_time (peer_store q) e') (orderedPeerStates q);
  pe_size : size (peerStateEntries q) = length (orderedPeerStates q);
  pe_max : Z.of_nat (length (orderedPeerStates q)) <= DnsMaxPumpHosts (pq_settings q);
}.

(** What the queue knows of a peer. *)
Definition peer (q : pumpQueue) (key : list Z) : option (bool * Z) :=
  match peerStateEntries q !! key with
  | Some e => (fun st => (pp_edns st, pp_updateTime st)) <$> peer_store q !! e
  | None => None
  end.

Definition same_items (q q' : pumpQueue) : Prop :=
  pq_settings q' = pq_settings q /\ pq_items q' = pq_items q /\ pq_store q' = pq_store q /\ pq_next q' = pq_next q /\ addrMaxHeap q' = addrMaxHeap q /\ pq_seq q' = pq_seq q.

Lemma pump_same q q' l clock : same_items q q' -> pump_ok q l clock -> pump_ok q' l clock.
Proof. intros (E1 & E2 & E3 & E4 & E5 & E6) [H P S I A L1 L2 Sq]. split; rewrite ?E1, ?E2, ?E3, ?E4, ?E5, ?E6; done. Qed.
Lemma peers_same q q' clock : same_peers q q' -> peers_ok q clock -> peers_ok q' clock.
Proof. intros (E1 & E2 & E3 & E4 & E5) [N S E Sd Sz M]. split; rewrite ?E1, ?E2, ?E3, ?E4, ?E5; done. Qed.
Lemma peer_same q q' key : same_peers q q' -> peer q' key = peer q key.
Proof. intros (_ & E2 & _ & E4 & _). unfold peer. by rewrite E2, E4. Qed.
Lemma peers_later q clock clock' : clock <= clock' -> peers_ok q clock -> peers_ok q clock'.
Proof.
  intros Hc [N S E Sd Sz M]. split; try done. intros e He. destruct (S e He) as [Hlt (st & Hst & Ht)]. split; [done|]. exists st. split; [done|lia].
Qed.
Lemma pump_later q l clock clock' : clock <= clock' -> pump_ok q l clock -> pump_ok q l clock'.
Proof.
  intros Hc [H P S I A L1 L2 Sq]. split; try done. intros p Hp. destruct (I p Hp) as [Hlt (it & Hit & Hs & Ht)]. split; [done|]. exists it. split_and!; [done|done|lia].
Qed.

(** The oldest peer goes. *)
Lemma remove_peer_ok q clock e rest st :
  peers_ok q clock -> orderedPeerStates q = e :: rest -> peer_store q !! e = Some st ->
  exists q', removePeerWithLock q e = Ret q' /\ peers_ok q' clock /\ same_items q q' /\ orderedPeerStates q' = rest /\ peer_store q' = peer_store q /\
    peerStateEntries q' = delete (pp_addrKey st) (peerStateEntries q) /\ peer q' (pp_addrKey st) = None /\
    (forall key, key <> pp_addrKey st -> peer q' key = peer q key).
Proof.
  intros [N S E Sd Sz M] Eo Hst. unfold removePeerWithLock. rewrite Hst. eexists. split; [done|]. rewrite Eo in *. apply list.NoDup_cons in N as [Ne N].
  rewrite list.filter_cons_False by tauto. fold (without e rest). rewrite without_other by done.
  assert (He : peerStateEntries q !! pp_addrKey st = Some e) by (apply E; split; [by left|by exists st]).
  split_and!; cbn [orderedPeerStates peer_store peerStateEntries set_peers]; try done.
  - split; cbn [orderedPeerStates peer_store peerStateEntries peer_next pq_settings set_peers]; [done| | | | |].
    + intros x Hx. apply S. by right.
    + intros key x. rewrite lookup_delete_Some, E. split.
      * intros (Hne & [->|Hx]%list.elem_of_cons & stx & Hsx & Hkx); [congruence|]. split; [done|by exists stx].
      * intros (Hx & stx & Hsx & Hkx). split; [|split; [by right|by exists stx]]. intros Hk. apply Ne.
        assert (Hx' : peerStateEntries q !! key = Some x) by (apply E; split; [by right|by exists stx]). congruence.
    + by apply StronglySorted_inv in Sd as [Sd _].
    + rewrite map_size_delete_Some by (by exists e). rewrite Sz. done.
    + cbn in M. lia.
  - unfold peer. cbn [peerStateEntries set_peers]. by rewrite lookup_delete_eq.
  - intros key Hne. unfold peer. cbn [peerStateEntries peer_store set_peers]. by rewrite lookup_delete_ne.
Qed.

Lemma older_peers_ok fuel : forall q clock t,
  peers_ok q clock -> (length (orderedPeerStates q) <= fuel)%nat -> exists q', older_peers fuel q t = Ret q' /\ peers_ok q' clock /\ same_items q q' /\
    forall key, peer q' key = match peer q key with Some (b, u) => if u <=? t then None else Some (b, u) | None => None end.
Proof.
  induction fuel as [|fuel IH]; intros q clock t O Hf; cbn [older_peers]; destruct (orderedPeerStates q) as [|e rest] eqn:Eo; try (cbn in Hf; lia).
  1,2: exists q; split_and!; try done; intros key; unfold peer; destruct (peerStateEntries q !! key) as [e|] eqn:Ek; [|done];
    apply (pe_entries _ _ O) in Ek as [Hin _]; rewrite Eo in Hin; by apply not_elem_of_nil in Hin.
  destruct (pe_store _ _ O e) as (_ & st & Hst & _); [rewrite Eo; by left|]. rewrite Hst. destruct (Z.ltb_spec t (pp_updateTime st)) as [Ht|Ht].
  - exists q. split_and!; try done. intros key. unfold peer. destruct (peerStateEntries q !! key) as [x|] eqn:Ek; [|done].
    apply (pe_entries _ _ O) in Ek as [Hin (stx & Hsx & Hkx)]. rewrite Hsx. cbn [fmap option_fmap option_map]. rewrite (proj2 (Z.leb_gt _ _)); [done|].
    pose proof (pe_sorted _ _ O) as Sd. rewrite Eo in Sd, Hin. apply StronglySorted_inv in Sd as [_ Sd]. apply list.elem_of_cons in Hin as [->|Hin]; [congruence|].
    rewrite list.Forall_forall in Sd. specialize (Sd x Hin). unfold peer_time in Sd. rewrite Hst, Hsx in Sd. lia.
  - destruct (remove_peer_ok q clock e rest st O Eo Hst) as (q1 & -> & O1 & I1 & Eo1 & Es1 & _ & Hn1 & Ho1). cbn [gbind].
    destruct (IH q1 clock t O1) as (q' & -> & O' & I' & Hk'); [rewrite Eo1; cbn in Hf; lia|]. exists q'. split_and!; [done|done| |].
    + unfold same_items in *. intuition congruence.
    + intros key. rewrite Hk'. destruct (decide (key = pp_addrKey st)) as [->|Hne]; [|by rewrite Ho1].
      rewrite Hn1. unfold peer. rewrite (proj2 (pe_entries _ _ O (pp_addrKey st) e)) by (split; [rewrite Eo; by left|by exists st]). rewrite Hst.
      cbn [fmap option_fmap option_map]. by rewrite (proj2 (Z.leb_le _ _) Ht).
Qed.

(** An element of the list gets new contents and moves to the back. *)
Lemma peers_append q clock now key edns e rest :
  e ∉ rest -> NoDup rest -> (forall x, x ∈ rest -> (x < peer_next q)%nat /\ exists st, peer_store q !! x = Some st /\ pp_updateTime st <= clock) ->
  StronglySorted (fun e e' => peer_time (peer_store q) e <= peer_time (peer_store q) e') rest -> clock <= now ->
  let store := <[e := PumpPeerState key edns now]> (peer_store q) in
  NoDup (rest ++ [e]) /\ (forall x, x ∈ rest -> store !! x = peer_store q !! x) /\
  StronglySorted (fun e e' => peer_time store e <= peer_time store e') (rest ++ [e]).
Proof.
  intros He N S Sd Hc store. split; [|split].
  - apply list.NoDup_app. split; [done|]. split; [|apply list.NoDup_singleton]. intros x Hx ->%list_elem_of_singleton. done.
  - intros x Hx. apply lookup_insert_ne. by intros ->.
  - assert (Hs : forall x, x ∈ rest -> peer_time store x = peer_time (peer_store q) x /\ peer_time store x <= now).
    { intros x Hx. destruct (S x Hx) as [_ (st & Hst & Ht)]. unfold peer_time, store. rewrite lookup_insert_ne by (by intros ->). rewrite Hst. split; [done|lia]. }
    assert (He' : peer_time store e = now) by (unfold peer_time, store; by rewrite lookup_insert_eq).
    clear - Sd Hs He'. induction Sd as [|x rest Sd IH Hx]; cbn [app]; [by repeat constructor|]. constructor; [apply IH; intros y Hy; apply Hs; by right|].
    apply list.Forall_forall. intros y [Hy|Hy]%list.elem_of_app; [|apply list_elem_of_singleton in Hy as ->].
    + rewrite list.Forall_forall in Hx. specialize (Hx y Hy). destruct (Hs y) as [-> _]; [by right|]. destruct (Hs x) as [-> _]; [by left|]. done.
    + destruct (Hs x) as [_ H]; [by left|]. lia.
Qed.

Definition oldest_peer (q : pumpQueue) : option (list Z) :=
  match orderedPeerStates q with e :: _ => pp_addrKey <$> peer_store q !! e | [] => None end.

(** A request is remembered; a new peer beyond the bound takes the place of the
    oldest one. *)
Definition remembered (q q' : pumpQueue) (key : list Z) (edns : bool) (now : Z) : Prop :=
  peer q' key = Some (edns, now) /\
  forall key', key' <> key -> peer q' key' = peer q key' \/
    (peer q' key' = None /\ peer q key = None /\ oldest_peer q = Some key' /\ DnsMaxPumpHosts (pq_settings q) <= Z.of_nat (length (orderedPeerStates q))).

Lemma peers_put q clock now key edns e rest next entries :
  peers_ok q clock -> clock <= now -> e ∉ rest -> NoDup rest -> (forall x, x ∈ rest -> x ∈ orderedPeerStates q) ->
  StronglySorted (fun e e' => peer_time (peer_store q) e <= peer_time (peer_store q) e') rest ->
  (e < next)%nat -> (peer_next q <= next)%nat -> (forall k x, k <> key -> (entries !! k = Some x <-> x ∈ rest /\ exists st, peer_store q !! x = Some st /\ pp_addrKey st = k)) ->
  entries !! key = Some e -> (forall x st, x ∈ rest -> peer_store q !! x = Some st -> pp_addrKey st <> key) -> size entries = S (length rest) ->
  Z.of_nat (S (length rest)) <= DnsMaxPumpHosts (pq_settings q) ->
  peers_ok (set_peers q entries (rest ++ [e]) (<[e := PumpPeerState key edns now]> (peer_store q)) next) now.
Proof.
  intros O Hc He N Hr Sd Hen Hn Hk Hke Hnk Hsz Hmax. assert (Hin : forall x, x ∈ rest -> (x < peer_next q)%nat /\ exists st, peer_store q !! x = Some st /\ pp_updateTime st <= clock).
  { intros x Hx. apply (pe_store _ _ O). by apply Hr. }
  destruct (peers_append q clock now key edns e rest He N Hin Sd Hc) as (N' & Hs & Sd'). cbv zeta in Hs, Sd'.
  split; cbn [orderedPeerStates peer_store peerStateEntries peer_next pq_settings set_peers]; [done| | |done|rewrite length_app; cbn; lia|rewrite length_app; cbn; lia].
  - intros x [Hx|Hx]%list.elem_of_app.
    + destruct (Hin x Hx) as [Hlt (st & Hst & Ht)]. split; [lia|]. exists st. rewrite Hs by done. split; [done|lia].
    + apply list_elem_of_singleton in Hx as ->. split; [done|]. eexists. rewrite lookup_insert_eq. split; [done|cbn; lia].
  - intros k x. destruct (decide (k = key)) as [->|Hne].
    + rewrite Hke. split.
      * intros [= <-]. split; [apply list.elem_of_app; right; by left|]. eexists. by rewrite lookup_insert_eq.
      * intros ([Hx|Hx]%list.elem_of_app & st & Hst & Hkx); [rewrite Hs in Hst by done; by destruct (Hnk x st Hx Hst)|]. apply list_elem_of_singleton in Hx. by rewrite Hx.
    + rewrite (Hk k x Hne). split.
      * intros (Hx & st & Hst & Hkx). split; [apply list.elem_of_app; by left|]. exists st. by rewrite Hs.
      * intros ([Hx|Hx]%list.elem_of_app & st & Hst & Hkx); [rewrite Hs in Hst by done; split; [done|by exists st]|].
        apply list_elem_of_singleton in Hx as ->. rewrite lookup_insert_eq in Hst. injection Hst as <-. done.
Qed.

Lemma peer_put q key edns now e rest next entries key' :
  entries !! key = Some e -> (forall x, entries !! key' = Some x -> x = e -> key' = key) ->
  peer (set_peers q entries (rest ++ [e]) (<[e := PumpPeerState key edns now]> (peer_store q)) next) key' =
    if decide (key' = key) then Some (edns, now) else match entries !! key' with Some x => (fun st => (pp_edns st, pp_updateTime st)) <$> peer_store q !! x | None => None end.
Proof.
  intros He Hx. unfold peer. cbn [peerStateEntries peer_store set_peers]. destruct (decide (key' = key)) as [->|Hne].
  - by rewrite He, lookup_insert_eq.
  - destruct (entries !! key') as [x|] eqn:E; [|done]. rewrite lookup_insert_ne; [done|]. intros ->. by apply Hne, (Hx x).
Qed.

(** A known peer moves to the back. *)
Lemma remember_known q clock key edns now e :
  peers_ok q clock -> clock <= now -> peerStateEntries q !! key = Some e ->
  let q' := set_peers q (peerStateEntries q) (without e (orderedPeerStates q) ++ [e]) (<[e := PumpPeerState key edns now]> (peer_store q)) (peer_next q) in
  peers_ok q' now /\ remembered q q' key edns now.
Proof.
  intros O Hc Ek q'. unfold q'. pose proof (proj1 (pe_entries _ _ O key e) Ek) as [He (st & Hst & Hkst)].
  pose proof (Permutation_length (without_perm e _ (pe_nodup _ _ O) He)) as Hlen. cbn in Hlen. pose proof (pe_size _ _ O) as Hsz. pose proof (pe_max _ _ O) as Hmx.
  assert (Hk : forall k x, k <> key -> peerStateEntries q !! k = Some x <-> x ∈ without e (orderedPeerStates q) /\ (exists st, peer_store q !! x = Some st /\ pp_addrKey st = k)).
  { intros k x Hne. rewrite (pe_entries _ _ O). unfold without. rewrite list_elem_of_filter. split; [|tauto]. intros (Hx & stx & Hsx & Hkx). split; [|by exists stx].
    split; [|done]. intros ->. congruence. }
  split.
  - apply (peers_put q clock); try done.
    + unfold without. rewrite list_elem_of_filter. tauto.
    + apply list.NoDup_filter, (pe_nodup _ _ O).
    + intros x Hx. unfold without in Hx. by apply list_elem_of_filter in Hx as [_ Hx].
    + apply without_sorted, (pe_sorted _ _ O).
    + apply (pe_store _ _ O e He).
    + intros x stx Hx Hsx Hkx. unfold without in Hx. apply list_elem_of_filter in Hx as [Hne Hx]. apply Hne.
      assert (Hy : peerStateEntries q !! key = Some x) by (apply (pe_entries _ _ O); split; [done|by exists stx]). congruence.
    + lia.
    + lia.
  - assert (Hx : forall key' x, peerStateEntries q !! key' = Some x -> x = e -> key' = key).
    { intros key' x Hx ->. apply (pe_entries _ _ O) in Hx as [_ (st' & Hst' & Hk')]. congruence. }
    split; [rewrite peer_put by (done || by apply Hx); by rewrite decide_True|]. intros key' Hne. left. rewrite peer_put by (done || by apply Hx). by rewrite decide_False.
Qed.

(** Room for a new peer: the oldest one goes when the bound is reached. *)
Definition make_room (q : pumpQueue) : go pumpQueue :=
  if DnsMaxPumpHosts (pq_settings q) <=? Z.of_nat (size (peerStateEntries q)) then
    match orderedPeerStates q with e :: _ => removePeerWithLock q e | [] => Panic end
  else Ret q.
Lemma make_room_ok q clock key :
  peers_ok q clock -> 0 < DnsMaxPumpHosts (pq_settings q) -> peerStateEntries q !! key = None ->
  exists q1, make_room q = Ret q1 /\ peers_ok q1 clock /\ same_items q q1 /\
    peerStateEntries q1 !! key = None /\ Z.of_nat (length (orderedPeerStates q1)) < DnsMaxPumpHosts (pq_settings q) /\
    forall key', key' <> key -> peer q1 key' = peer q key' \/
      (peer q1 key' = None /\ oldest_peer q = Some key' /\ DnsMaxPumpHosts (pq_settings q) <= Z.of_nat (length (orderedPeerStates q))).
Proof.
  intros O Hm Ek. unfold make_room.
  rewrite (pe_size _ _ O). destruct (Z.leb_spec (DnsMaxPumpHosts (pq_settings q)) (Z.of_nat (length (orderedPeerStates q)))) as [Hfull|Hroom].
  - destruct (orderedPeerStates q) as [|e rest] eqn:Eo; [cbn in Hfull; lia|]. destruct (pe_store _ _ O e) as (_ & st & Hst & _); [rewrite Eo; by left|].
    destruct (remove_peer_ok q clock e rest st O Eo Hst) as (q1 & -> & O1 & I1 & Eo1 & _ & Ee1 & Hn1 & Ho1). exists q1. split_and!; try done.
    + rewrite Ee1. destruct (decide (key = pp_addrKey st)) as [->|Hne]; [apply lookup_delete_eq|by rewrite lookup_delete_ne].
    + rewrite Eo1. pose proof (pe_max _ _ O) as M. rewrite Eo in M. cbn in M. lia.
    + intros key' Hne. destruct (decide (key' = pp_addrKey st)) as [->|Hne']; [|left; by apply Ho1]. right. split_and!; [done| |done].
      unfold oldest_peer. by rewrite Eo, Hst.
  - exists q. split_and!; try done. intros key' _. by left.
Qed.

Lemma remember_ok q clock key edns now :
  peers_ok q clock -> clock <= now -> 0 < DnsMaxPumpHosts (pq_settings q) ->
  exists q', rememberPeerWithLock q key edns now = Ret q' /\ peers_ok q' now /\ same_items q q' /\ remembered q q' key edns now.
Proof.
  intros O Hc Hm. unfold rememberPeerWithLock. destruct (peerStateEntries q !! key) as [e|] eqn:Ek.
  - eexists. split; [done|]. destruct (remember_known q clock key edns now e O Hc Ek). by split_and!.
  - rewrite (proj2 (Z.leb_gt _ _) Hm).
    destruct (make_room_ok q clock key O Hm Ek) as (q1 & E1 & O1 & I1 & Ek1 & Hroom & Hp1). unfold make_room in E1. rewrite E1. cbn [gbind]. eexists. split; [done|].
    assert (Hnew : forall x st, x ∈ orderedPeerStates q1 -> peer_store q1 !! x = Some st -> pp_addrKey st <> key).
    { intros x st Hx Hst Hk. assert (Hy : peerStateEntries q1 !! key = Some x) by (apply (pe_entries _ _ O1); split; [done|by exists st]). congruence. }
    assert (Hfresh : peer_next q1 ∉ orderedPeerStates q1) by (intros Hx; destruct (pe_store _ _ O1 _ Hx) as [Hlt _]; lia).
    split_and!.
    + apply (peers_put q1 clock); try done.
      * apply (pe_nodup _ _ O1).
      * apply (pe_sorted _ _ O1).
      * lia.
      * lia.
      * intros k x Hne. rewrite lookup_insert_ne by done. apply (pe_entries _ _ O1).
      * apply lookup_insert_eq.
      * rewrite map_size_insert_None by done. by rewrite (pe_size _ _ O1).
      * rewrite (proj1 I1). lia.
    + unfold same_items in *. cbn. intuition congruence.
    + assert (Hx : forall key' x, <[key := peer_next q1]> (peerStateEntries q1) !! key' = Some x -> x = peer_next q1 -> key' = key).
      { intros key' x Hx ->. destruct (decide (key' = key)) as [->|Hne]; [done|]. rewrite lookup_insert_ne in Hx by done. apply (pe_entries _ _ O1) in Hx as [Hx _]. done. }
      split; [rewrite peer_put by (apply lookup_insert_eq || by apply Hx); by rewrite decide_True|]. intros key' Hne.
      rewrite peer_put by (apply lookup_insert_eq || by apply Hx). rewrite decide_False, lookup_insert_ne by done. fold (peer q1 key').
      destruct (Hp1 key' Hne) as [->|(Hn & Hold & Hfull)]; [by left|]. right. split_and!; try done. unfold peer. by rewrite Ek.
Qed.

(** ** A new header *)

Lemma mine_ext store store' a l : (forall x, x ∈ l -> store' !! x = store !! x) -> mine store' a l = mine store a l.
Proof.
  intros He. unfold mine. induction l as [|x l IH]; [done|]. rewrite !filter_cons. rewrite IH by (intros y Hy; apply He; by right).
  assert (E : addr_of store' x = addr_of store x) by (unfold addr_of; rewrite He; [done|by left]). by rewrite E.
Qed.
Lemma less_ext store store' x y : store' !! x = store !! x -> store' !! y = store !! y -> pump_less store' x y = pump_less store x y.
Proof. intros Hx Hy. unfold pump_less, item_time, item_seq. by rewrite Hx, Hy. Qed.

Lemma before_append store store' l p : StronglySorted (before store) l -> (forall x, x ∈ l -> store' !! x = store !! x) ->
  (forall x, x ∈ l -> before store' x p) -> StronglySorted (before store') (l ++ [p]).
Proof.
  intros S He Hp. induction S as [|x l S IH Hx]; cbn [app]; [by repeat constructor|]. constructor.
  - apply IH; intros y Hy; [apply He|apply Hp]; by right.
  - apply list.Forall_forall. intros y [Hy|Hy]%list.elem_of_app.
    + rewrite list.Forall_forall in Hx. specialize (Hx y Hy). unfold before, item_time, item_seq in *.
      rewrite (He x) by (by left). rewrite (He y) by (by right). done.
    + apply list_elem_of_singleton in Hy as ->. apply Hp. by left.
Qed.

Definition added (it : pumpItem) (now seq : Z) : pumpItem := PumpItem (pi_addr it) (pi_id it) (pi_header it) (pi_tld it) (pi_edns it) now seq.

(** The queue with one more header. *)
Definition push (q : pumpQueue) (it : pumpItem) (now : Z) : pumpQueue :=
  let addrKey := String (pi_addr it) in
  let seq := pq_seq q + 1 in
  let p := pq_next q in
  let store := <[p := added it now seq]> (pq_store q) in
  PumpQueue (pq_settings q) (heap_Push (pump_less store) (pq_items q) p) store (S p)
    (<[addrKey := heap_Push (pump_max_less store) (default (Iheap [] ∅) (addrMaxHeap q !! addrKey)) p]> (addrMaxHeap q))
    (peerStateEntries q) (orderedPeerStates q) (peer_store q) (peer_next q) seq.

(** The heap of an address, empty when it has none. *)
Lemma addr_heap q l clock a : pump_ok q l clock ->
  let h := default (Iheap [] ∅) (addrMaxHeap q !! a) in
  heap_wf (pump_max_less (pq_store q)) h /\ items h ≡ₚ mine (pq_store q) a l.
Proof.
  intros O. pose proof (po_addrs _ _ _ O a) as Aa. destruct (addrMaxHeap q !! a) as [h|]; cbn; [tauto|]. rewrite Aa. split; [apply heap_wf_empty|done].
Qed.

Lemma pump_push_ok q l clock it now :
  pump_ok q l clock -> clock <= now -> Z.of_nat (length l) < DnsMaxPumpHosts (pq_settings q) ->
  Z.of_nat (length (mine (pq_store q) (String (pi_addr it)) l)) < DnsMaxPumpHostsPerAddress (pq_settings q) ->
  pump_ok (push q it now) (l ++ [pq_next q]) now.
Proof.
  intros O Hc Hl Hm. destruct (addr_heap q l clock (String (pi_addr it)) O) as [Wh Ph]. revert Wh Ph. cbv zeta.
  set (h := default (Iheap [] ∅) (addrMaxHeap q !! String (pi_addr it))). intros Wh Ph.
  set (p := pq_next q). set (store := <[p := added it now (pq_seq q + 1)]> (pq_store q)).
  assert (Hf : p ∉ l) by (intros Hx; apply (po_items _ _ _ O) in Hx as [? _]; unfold p in *; lia).
  assert (He : forall x, x ∈ l -> store !! x = pq_store q !! x) by (intros x Hx; apply lookup_insert_ne; by intros <-).
  assert (Hp : store !! p = Some (added it now (pq_seq q + 1))) by apply lookup_insert_eq.
  assert (Hmn : forall a, mine store a (l ++ [p]) = mine (pq_store q) a l ++ (if decide (String (pi_addr it) = a) then [p] else [])).
  { intros a. unfold mine. rewrite list.filter_app. fold (mine store a l). rewrite (mine_ext (pq_store q)) by done. f_equal. rewrite filter_cons. unfold addr_of. rewrite Hp. cbn.
    destruct (decide (String (pi_addr it) = a)) as [->|Hne]; [by rewrite decide_True|]. rewrite decide_False; [done|]. congruence. }
  assert (Hsub : forall a x, x ∈ mine (pq_store q) a l -> x ∈ l) by (intros a x [_ Hx]%mine_in; done).
  assert (Hlift : forall g, heap_wf (pump_max_less (pq_store q)) g -> (forall x, x ∈ items g -> x ∈ l) -> heap_wf (pump_max_less store) g).
  { intros g W Hg. eapply heap_wf_ext; [|exact W]. intros x y Hx Hy. rewrite !pump_max_less_flip. apply less_ext; apply He; by apply Hg. }
  destruct (heap_Push_spec (pump_less store) (pump_less_asym _) (pump_less_ntrans _) (pq_items q) p) as [W1 P1].
  { eapply heap_wf_ext; [|apply (po_heap _ _ _ O)]. intros x y Hx Hy. rewrite (po_perm _ _ _ O) in Hx, Hy. apply less_ext; by apply He. }
  { by rewrite (po_perm _ _ _ O). }
  destruct (heap_Push_spec (pump_max_less store) (pump_max_less_asym _) (pump_max_less_ntrans _) h p) as [W2 P2].
  { apply Hlift; [done|]. intros x Hx. rewrite Ph in Hx. by apply Hsub in Hx. }
  { rewrite Ph. intros Hx. by apply Hsub in Hx. }
  split; unfold push; cbn [pq_items pq_store pq_settings pq_next addrMaxHeap pq_seq]; fold h p; fold store.
  - done.
  - rewrite P1, (po_perm _ _ _ O). apply Permutation_cons_append.
  - apply (before_append (pq_store q)); [apply (po_sorted _ _ _ O)|done|]. intros x Hx. destruct (po_items _ _ _ O x Hx) as (_ & itx & Hit & Hs & Ht).
    unfold before, item_time, item_seq. rewrite (He x Hx), Hit, Hp. cbn. lia.
  - intros x [Hx|Hx]%list.elem_of_app.
    + destruct (po_items _ _ _ O x Hx) as (Hlt & itx & Hit & Hs & Ht). split; [unfold p; lia|]. exists itx. rewrite He by done. split_and!; [done|lia|lia].
    + apply list_elem_of_singleton in Hx as ->. split; [lia|]. eexists. split; [exact Hp|]. cbn. lia.
  - intros a. rewrite Hmn. destruct (decide (String (pi_addr it) = a)) as [<-|Hne].
    + rewrite lookup_insert_eq. split_and!; [done|rewrite P2, Ph; apply Permutation_cons_append|]. intros E0. rewrite E0 in P2. by apply Permutation_nil_cons in P2.
    + rewrite lookup_insert_ne, app_nil_r by done. pose proof (po_addrs _ _ _ O a) as Aa. destruct (addrMaxHeap q !! a) as [g|]; [|done].
      destruct Aa as (Wg & Pg & Hg). split_and!; [|done|done]. apply Hlift; [done|]. intros x Hx. rewrite Pg in Hx. by apply Hsub in Hx.
  - rewrite length_app. cbn. lia.
  - intros a. rewrite Hmn, length_app. pose proof (po_hosts_addr _ _ _ O a). destruct (decide (String (pi_addr it) = a)) as [<-|]; cbn; lia.
  - pose proof (po_seq _ _ _ O). lia.
Qed.

(** What a request leaves behind: a header at the back, or none at a limit. *)
Definition add_post (q : pumpQueue) (l : list nat) (it : pumpItem) (now : Z) (q' : pumpQueue) (r : option nat) : Prop :=
  match r with
  | Some p => p ∉ l /\ pq_store q' = <[p := added it now (pq_seq q + 1)]> (pq_store q) /\ Z.of_nat (length l) < DnsMaxPumpHosts (pq_settings q) /\
      Z.of_nat (length (mine (pq_store q) (String (pi_addr it)) l)) < DnsMaxPumpHostsPerAddress (pq_settings q)
  | None => pq_store q' = pq_store q /\ (DnsMaxPumpHosts (pq_settings q) <= Z.of_nat (length l) \/
      DnsMaxPumpHostsPerAddress (pq_settings q) <= Z.of_nat (length (mine (pq_store q) (String (pi_addr it)) l)))
  end.
Definition after_add (l : list nat) (r : option nat) : list nat := l ++ (match r with Some p => [p] | None => [] end).

Lemma Add_ok q l clock it now :
  pump_ok q l clock -> peers_ok q clock -> clock <= now -> 0 < DnsMaxPumpHosts (pq_settings q) -> 0 < DnsMaxPumpHostsPerAddress (pq_settings q) -> pq_seq q + 1 < 2 ^ 64 ->
  exists q' r, Add q it now = Ret (q', r) /\ pump_ok q' (after_add l r) now /\ peers_ok q' now /\ pq_settings q' = pq_settings q /\
    remembered q q' (String (pi_addr it)) (pi_edns it) now /\ add_post q l it now q' r.
Proof.
  intros O Pe Hc Hm1 Hm2 Hq. unfold Add. destruct (remember_ok q clock (String (pi_addr it)) (pi_edns it) now Pe Hc Hm1) as (q1 & -> & Pe1 & I1 & R1). cbn [gbind].
  pose proof (pump_same q q1 l clock I1 O) as O1. pose proof I1 as (S1 & S2 & S3 & S4 & S5 & S6).
  rewrite (Permutation_length (po_perm _ _ _ O1)). destruct (Z.leb_spec (DnsMaxPumpHosts (pq_settings q1)) (Z.of_nat (length l))) as [Hfull|Hroom].
  { exists q1, None. unfold after_add. rewrite app_nil_r. split_and!; try done; [by apply (pump_later q1 l clock)|]. cbn. rewrite S3, <- S1. split; [done|by left]. }
  destruct (addr_heap q1 l clock (String (pi_addr it)) O1) as [Wh Ph]. apply Permutation_length in Ph. unfold Len. rewrite Ph.
  destruct (Z.leb_spec (DnsMaxPumpHostsPerAddress (pq_settings q1)) (Z.of_nat (length (mine (pq_store q1) (String (pi_addr it)) l)))) as [Hfull|Hroom2].
  - destruct (addrMaxHeap q1 !! String (pi_addr it)) as [h|] eqn:Eh.
    2:{ cbn in Ph. rewrite <- Ph, S1 in Hfull. cbn in Hfull. lia. }
    cbn [default id]. assert (Ei : <[String (pi_addr it) := h]> (addrMaxHeap q1) = addrMaxHeap q1) by (by apply insert_id).
    exists (set_heaps q1 (pq_items q1) (addrMaxHeap q1)), None. change (default (Iheap [] ∅) (Some h)) with h. rewrite Ei. unfold after_add. rewrite app_nil_r.
    split_and!; try done.
    + apply (pump_same q1 _ l now); [done|]. by apply (pump_later q1 l clock).
    + by apply (peers_same q1).
    + cbn [pq_store set_heaps add_post]. rewrite S3 in Hfull |- *. rewrite S1 in Hfull. split; [done|by right].
  - assert (Eu : u64 (pq_seq q1 + 1) = pq_seq q1 + 1).
    { pose proof (po_seq _ _ _ O1). unfold u64. apply Z.mod_small. lia. }
    rewrite Eu. exists (push q1 it now), (Some (pq_next q1)). split_and!; try done.
    + by apply (pump_push_ok q1 l clock).
    + destruct Pe1 as [N S E Sd Sz M]. by split.
    + cbn [pq_store push add_post]. rewrite S3, S6, S1 in *. split_and!; try done. intros Hx. apply (po_items _ _ _ O1) in Hx as [? _]. lia.
Qed.

(** ** The other operations *)

Lemma RemoveLastN_ok q l clock addr n :
  pump_ok q l clock -> exists q',
    let mines := mine (pq_store q) (String addr) l in
    let ps := if (n <=? length mines)%nat then take n (reverse mines) else [] in
    RemoveLastN q addr n = Ret (q', map Some ps) /\ pq_store q' = pq_store q /\ pump_ok q' (without_all ps l) clock /\ same_peers q q'.
Proof.
  intros O. cbv zeta. unfold RemoveLastN. destruct (addr_heap q l clock (String addr) O) as [_ Ph]. apply Permutation_length in Ph.
  destruct (addrMaxHeap q !! String addr) as [h|] eqn:Eh.
  - change (default (Iheap [] ∅) (Some h)) with h in Ph. unfold Len. rewrite Ph. destruct (Nat.leb_spec n (length (mine (pq_store q) (String addr) l))) as [Hn|Hn].
    + rewrite (proj2 (Nat.ltb_ge _ _)) by lia. apply (remove_n_ok n q l clock (String addr) O Hn).
    + rewrite (proj2 (Nat.ltb_lt _ _)) by lia. exists q. rewrite without_all_nil. by split_and!.
  - cbn in Ph. symmetry in Ph. apply nil_length_inv in Ph. exists q. rewrite Ph, reverse_nil, take_nil. destruct (n <=? _)%nat; rewrite without_all_nil; by split_and!.
Qed.

Lemma RemoveAvailable_ok q l clock addr n :
  pump_ok q l clock -> peers_ok q clock -> exists q',
    let ps := take n (reverse (mine (pq_store q) (String addr) l)) in
    RemoveAvailable q addr n = Ret (q', ps, match peer q (String addr) with Some (edns, _) => edns | None => false end) /\
    pq_store q' = pq_store q /\ pump_ok q' (without_all ps l) clock /\ same_peers q q'.
Proof.
  intros O Pe. cbv zeta. unfold RemoveAvailable. destruct (remove_available_ok n q l clock (String addr) O) as (q' & -> & H). cbn [gbind]. exists q'. split; [|exact H].
  do 2 f_equal. unfold peer. destruct (peerStateEntries q !! String addr) as [e|]; [|done]. by destruct (peer_store q !! e).
Qed.

Lemma RemoveLast_ok q l clock addr :
  pump_ok q l clock -> exists q',
    let r := list.last (mine (pq_store q) (String addr) l) in
    RemoveLast q addr = Ret (q', r) /\ pq_store q' = pq_store q /\ pump_ok q' (without_all (option_list r) l) clock /\ same_peers q q'.
Proof.
  intros O. cbv zeta. destruct (removeLast_ok q l clock (String addr) O) as (q' & E & Es & O' & H). exists q'. split_and!; try done; try apply H.
  revert O'. destruct (list.last (mine (pq_store q) (String addr) l)) as [p|]; [change (option_list (Some p)) with [p]; by rewrite without_all_cons, without_all_nil|].
  change (option_list (A := nat) None) with (@nil nat). by rewrite without_all_nil.
Qed.

Definition peers_after (q q' : pumpQueue) (t : Z) : Prop :=
  forall key, peer q' key = match peer q key with Some (b, u) => if u <=? t then None else Some (b, u) | None => None end.

Lemma RemoveOlder_ok q l clock t :
  pump_ok q l clock -> peers_ok q clock -> exists q', RemoveOlder q t = Ret q' /\ pq_store q' = pq_store q /\
    pump_ok q' (recent (pq_store q) t l) clock /\ peers_ok q' clock /\ pq_settings q' = pq_settings q /\ peers_after q q' t.
Proof.
  intros O Pe. unfold RemoveOlder. destruct (older_items_ok (length (items (pq_items q))) q l clock t O) as (q1 & -> & Es & O1 & S1).
  { by rewrite (Permutation_length (po_perm _ _ _ O)). }
  cbn [gbind]. destruct (older_peers_ok (length (orderedPeerStates q1)) q1 clock t (peers_same q q1 clock S1 Pe)) as (q' & -> & Pe' & I' & Hk); [done|].
  pose proof (pump_same q1 q' _ clock I' O1) as O'. pose proof I' as (E1 & _ & E3 & _). pose proof (proj1 S1) as E0. exists q'.
  split_and!; [done|congruence|done|done|congruence|]. intros key. rewrite Hk. by rewrite (peer_same q q1 key S1).
Qed.

Lemma clear_ok q clock : 0 <= pq_seq q -> 0 <= DnsMaxPumpHosts (pq_settings q) -> 0 <= DnsMaxPumpHostsPerAddress (pq_settings q) ->
  pump_ok (Clear q) [] clock /\ peers_ok (Clear q) clock.
Proof.
  intros Hs H1 H2. split.
  - split; cbn [Clear pq_items pq_store pq_settings addrMaxHeap pq_seq pq_next]; try done; [apply heap_wf_empty|constructor|intros p Hp; by apply not_elem_of_nil in Hp].
  - split; cbn [Clear orderedPeerStates peerStateEntries peer_store pq_settings]; try done; [constructor|intros e He; by apply not_elem_of_nil in He| |constructor].
    intros key e. rewrite lookup_empty. split; [done|]. intros [He _]. by apply not_elem_of_nil in He.
Qed.

(** ** Histories: the list is what was put in and not taken out or expired *)

Inductive pump_reached (s : PacketTranslationSettings) : pumpQueue -> list nat -> Z -> Prop :=
| reached_new clock : pump_reached s (newPumpQueue s) [] clock
| reached_add q l clock it now q' r : pump_reached s q l clock -> clock <= now -> pq_seq q + 1 < 2 ^ 64 -> Add q it now = Ret (q', r) -> pump_reached s q' (after_add l r) now
| reached_last q l clock addr q' r : pump_reached s q l clock -> RemoveLast q addr = Ret (q', r) -> pump_reached s q' (without_all (option_list r) l) clock
| reached_last_n q l clock addr n q' ps : pump_reached s q l clock -> RemoveLastN q addr n = Ret (q', ps) -> pump_reached s q' (without_all (omap id ps) l) clock
| reached_available q l clock addr n q' ps edns :
    pump_reached s q l clock -> RemoveAvailable q addr n = Ret (q', ps, edns) -> pump_reached s q' (without_all ps l) clock
| reached_older q l clock t q' : pump_reached s q l clock -> RemoveOlder q t = Ret q' -> pump_reached s q' (recent (pq_store q) t l) clock
| reached_clear q l clock : pump_reached s q l clock -> pump_reached s (Clear q) [] clock.

Lemma omap_id_some (l : list nat) : omap id (map Some l) = l.
Proof. induction l as [|x l IH]; [done|]. cbn. by rewrite IH. Qed.

Lemma pump_reached_ok s q l clock : settings_accepted s = true -> pump_reached s q l clock -> pump_ok q l clock /\ peers_ok q clock /\ pq_settings q = s.
Proof.
  intros Hs. assert (Hp : 0 < DnsMaxPumpHosts s /\ 0 < DnsMaxPumpHostsPerAddress s) by (unfold settings_accepted in Hs; lia). clear Hs. destruct Hp as [Hp1 Hp2].
  induction 1 as [clock|q l clock it now q' r _ (O & Pe & E) Hc Hq Er|q l clock addr q' r _ (O & Pe & E) Er|q l clock addr n q' ps _ (O & Pe & E) Er
    |q l clock addr n q' ps edns _ (O & Pe & E) Er|q l clock t q' _ (O & Pe & E) Er|q l clock _ (O & Pe & E)].
  - destruct (clear_ok (newPumpQueue s) clock); cbn; try lia. by split_and!.
  - destruct (Add_ok q l clock it now O Pe Hc) as (q1 & r1 & E1 & O1 & P1 & S1 & _); [by rewrite E|by rewrite E|done|]. rewrite E1 in Er. injection Er as <- <-. split_and!; [done|done|congruence].
  - destruct (RemoveLast_ok q l clock addr O) as (q1 & E1 & _ & O1 & S1). rewrite E1 in Er. injection Er as <- <-.
    split_and!; [done|by apply (peers_same q)|by rewrite (proj1 S1)].
  - destruct (RemoveLastN_ok q l clock addr n O) as (q1 & E1 & _ & O1 & S1). rewrite E1 in Er. injection Er as <- <-. rewrite omap_id_some.
    split_and!; [done|by apply (peers_same q)|by rewrite (proj1 S1)].
  - destruct (RemoveAvailable_ok q l clock addr n O Pe) as (q1 & E1 & _ & O1 & S1). rewrite E1 in Er. injection Er as <- <- _.
    split_and!; [done|by apply (peers_same q)|by rewrite (proj1 S1)].
  - destruct (RemoveOlder_ok q l clock t O Pe) as (q1 & E1 & _ & O1 & P1 & S1 & _). rewrite E1 in Er. injection Er as <-. split_and!; [done|done|congruence].
  - destruct (clear_ok q clock (po_seq _ _ _ O)); rewrite ?E; try lia. by split_and!.
Qed.

Lemma pump_oldest q l clock : pump_ok q l clock -> peers_ok q clock ->
  match OldestUpdateTime q with
  | None => l = [] /\ forall key, peer q key = None
  | Some t => ((exists p, p ∈ l /\ item_time (pq_store q) p = t) \/ (exists key b, peer q key = Some (b, t))) /\
      (forall p, p ∈ l -> t <= item_time (pq_store q) p) /\ (forall key b u, peer q key = Some (b, u) -> t <= u)
  end.
Proof.
  intros O Pe.
  assert (Hpeers : match orderedPeerStates q with
    | [] => forall key, peer q key = None
    | e :: _ => exists st, peer_store q !! e = Some st /\ (exists key b, peer q key = Some (b, pp_updateTime st)) /\ forall key b u, peer q key = Some (b, u) -> pp_updateTime st <= u
    end).
  { destruct (orderedPeerStates q) as [|e rest] eqn:Eo.
    - intros key. unfold peer. destruct (peerStateEntries q !! key) as [x|] eqn:Ek; [|done]. apply (pe_entries _ _ Pe) in Ek as [Hin _]. rewrite Eo in Hin. by apply not_elem_of_nil in Hin.
    - destruct (pe_store _ _ Pe e) as (_ & st & Hst & _); [rewrite Eo; by left|]. exists st. split_and!; [done| |].
      + exists (pp_addrKey st), (pp_edns st). unfold peer. rewrite (proj2 (pe_entries _ _ Pe (pp_addrKey st) e)) by (split; [rewrite Eo; by left|by exists st]). by rewrite Hst.
      + intros key b u. unfold peer. destruct (peerStateEntries q !! key) as [x|] eqn:Ek; [|done]. apply (pe_entries _ _ Pe) in Ek as [Hin (stx & Hsx & _)]. rewrite Hsx. intros [= _ <-].
        pose proof (pe_sorted _ _ Pe) as Sd. rewrite Eo in Sd, Hin. apply StronglySorted_inv in Sd as [_ Sd]. apply list.elem_of_cons in Hin as [->|Hin]; [replace stx with st by congruence; lia|].
        rewrite list.Forall_forall in Sd. specialize (Sd x Hin). unfold peer_time in Sd. by rewrite Hst, Hsx in Sd. }
  unfold OldestUpdateTime. destruct (items (pq_items q)) as [|p rest] eqn:Ei.
  - assert (El : l = []) by (symmetry; apply Permutation_nil_l; rewrite <- Ei; apply (po_perm _ _ _ O)). subst l. destruct (orderedPeerStates q) as [|e es]; [by split|].
    destruct Hpeers as (st & -> & Hex & Hmin). split_and!; [by right|intros p Hp; by apply not_elem_of_nil in Hp|done].
  - assert (Hp : p ∈ l) by (rewrite <- (po_perm _ _ _ O), Ei; by left). pose proof (pump_root q l clock p rest O Ei) as Hroot.
    destruct (orderedPeerStates q) as [|e es].
    + split_and!; [left; by exists p|done|]. intros key b u. by rewrite Hpeers.
    + destruct Hpeers as (st & -> & Hex & Hmin). destruct (Z.ltb_spec (pp_updateTime st) (item_time (pq_store q) p)) as [Hlt|Hge].
      * split_and!; [by right|intros x Hx; specialize (Hroot x Hx); lia|done].
      * split_and!; [left; by exists p|done|]. intros key b u Hk. specialize (Hmin key b u Hk). lia.
Qed.
End pump.

(** ** Theorems *)

(** C23: The reply headers of every address come back last in, first out. [l] is
    the history: the headers added and neither taken nor expired, in the order
    they were added. Taking one gives the latest of the address, ties of the
    clock included; taking up to [n] gives the latest ones in order together with
    what the latest request of the address could do; taking exactly [n] gives them
    all or nothing; expiry returns; and a request puts its header at the back,
    or is refused because all headers or those of its address are at their limit.
    No operation panics. *)
Theorem pump_queue_lifo {Addr} (String : Addr -> list Z) s q l clock :
  settings_accepted s = true -> pump_reached String s q l clock ->
  let mines addr := mine String (pq_store q) (String addr) l in
  (forall addr, exists q', RemoveLast String q addr = Ret (q', list.last (mines addr))) /\
  (forall addr n, exists q', RemoveAvailable String q addr n =
     Ret (q', take n (reverse (mines addr)), match peer q (String addr) with Some (edns, _) => edns | None => false end)) /\
  (forall addr n, exists q', RemoveLastN String q addr n = Ret (q', map Some (if (n <=? length (mines addr))%nat then take n (reverse (mines addr)) else []))) /\
  (forall t, exists q', RemoveOlder String q t = Ret q') /\
  (forall it now, clock <= now -> pq_seq q + 1 < 2 ^ 64 -> exists q' r, Add String q it now = Ret (q', r) /\ add_post String q l it now q' r).
Proof.
  intros Hs Hr. destruct (pump_reached_ok String s q l clock Hs Hr) as (O & Pe & <-). cbv zeta. split_and!.
  - intros addr. destruct (RemoveLast_ok String q l clock addr O) as (q' & E & _). by exists q'.
  - intros addr n. destruct (RemoveAvailable_ok String q l clock addr n O Pe) as (q' & E & _). by exists q'.
  - intros addr n. destruct (RemoveLastN_ok String q l clock addr n O) as (q' & E & _). by exists q'.
  - intros t. destruct (RemoveOlder_ok String q l clock t O Pe) as (q' & E & _). by exists q'.
  - intros it now Hc Hq. destruct (Add_ok String q l clock it now O Pe Hc) as (q' & r & E & _ & _ & _ & _ & H); [unfold settings_accepted in Hs; lia..|]. by exists q', r.
Qed.

(** C24: What the queue holds is bounded, headers and peers apart, each by the
    limit on hosts, and the headers of an address by its own limit. The oldest
    update time covers both, so that the expiry timer stays armed for a peer whose
    headers are all taken. A request is remembered as the latest of its peer even
    when its header is refused; of the other peers at most the oldest is forgotten,
    and only for a new peer beyond the limit. Expiry forgets exactly the peers not
    updated since. *)
Theorem pump_peers_bounded {Addr} (String : Addr -> list Z) s q l clock :
  settings_accepted s = true -> pump_reached String s q l clock ->
  items (pq_items q) ≡ₚ l /\ Z.of_nat (length l) <= DnsMaxPumpHosts s /\ (forall a, Z.of_nat (length (mine String (pq_store q) a l)) <= DnsMaxPumpHostsPerAddress s) /\
  size (peerStateEntries q) = length (orderedPeerStates q) /\ Z.of_nat (size (peerStateEntries q)) <= DnsMaxPumpHosts s /\
  match OldestUpdateTime q with
  | None => l = [] /\ forall key, peer q key = None
  | Some t => ((exists p, p ∈ l /\ item_time (pq_store q) p = t) \/ (exists key b, peer q key = Some (b, t))) /\
      (forall p, p ∈ l -> t <= item_time (pq_store q) p) /\ (forall key b u, peer q key = Some (b, u) -> t <= u)
  end /\
  (forall it now q' r, clock <= now -> pq_seq q + 1 < 2 ^ 64 -> Add String q it now = Ret (q', r) -> remembered q q' (String (pi_addr it)) (pi_edns it) now) /\
  (forall t q', RemoveOlder String q t = Ret q' -> peers_after q q' t).
Proof.
  intros Hs Hr. destruct (pump_reached_ok String s q l clock Hs Hr) as (O & Pe & <-). split_and!; try apply O; try apply Pe.
  - rewrite (pe_size _ _ Pe). apply Pe.
  - by apply (pump_oldest String q l clock).
  - intros it now q' r Hc Hq E. destruct (Add_ok String q l clock it now O Pe Hc) as (q1 & r1 & E1 & _ & _ & _ & R & _); [unfold settings_accepted in Hs; lia..|].
    rewrite E1 in E. by injection E as <- <-.
  - intros t q' E. destruct (RemoveOlder_ok String q l clock t O Pe) as (q1 & E1 & _ & _ & _ & _ & R). rewrite E1 in E. by injection E as <-.
Qed.

(** Two requests of one address within a tick of the clock. *)
Definition demo_item (id : Z) : @pumpItem (list Z) := PumpItem [10] id [] [] (id =? 2) 0 0.
Definition demo_add (q : @pumpQueue (list Z)) (id : Z) : @pumpQueue (list Z) :=
  match Add (fun a => a) q (demo_item id) 100 with Ret (q, _) => q | Panic => q end.
Definition demo_pump : @pumpQueue (list Z) := demo_add (demo_add (newPumpQueue demo_settings) 1) 2.

Lemma demo_pump_reached : pump_reached (fun a => a) demo_settings demo_pump [0; 1]%nat 100.
Proof.
  apply (reached_add (fun a => a) demo_settings (demo_add (newPumpQueue demo_settings) 1) [0%nat] 100 (demo_item 2) 100 demo_pump (Some 1%nat)); [|lia|reflexivity|vm_compute; reflexivity].
  apply (reached_add (fun a => a) demo_settings (newPumpQueue demo_settings) [] 100 (demo_item 1) 100 (demo_add (newPumpQueue demo_settings) 1) (Some 0%nat));
    [constructor|lia|reflexivity|vm_compute; reflexivity].
Qed.

Lemma pump_queue_lifo_witness : exists q', RemoveAvailable (fun a => a) demo_pump [10] 5 = Ret (q', [1; 0]%nat, true).
Proof.
  destruct (pump_queue_lifo (fun a => a) demo_settings demo_pump [0; 1]%nat 100) as (_ & H & _); [reflexivity|exact demo_pump_reached|].
  destruct (H [10] 5%nat) as [q' E]. exists q'. exact E.
Defined.

Lemma pump_peers_bounded_witness : size (peerStateEntries demo_pump) = length (orderedPeerStates demo_pump).
Proof. apply (pump_peers_bounded (fun a => a) demo_settings demo_pump [0; 1]%nat 100); [reflexivity|exact demo_pump_reached]. Defined.
