(* ===== verification/SequenceContract.v ===== *)
(** The byte accounts of one transfer contract (src/transfer.go,
    [sequenceContract], and src/transfer_contract_expiration.go): a contract
    admits bytes until its effective size, moves them from unacked to acked as
    they are acknowledged, and releases them when they are dropped.

    Each [expired] call reads the clock; the reading, in milliseconds, is an
    argument. The two protobuf messages a contract is built from are parsed by
    generated code: their decoders are parameters. *)
From Stdlib Require Import SpecFloat.
From S2P Require Import Prelude NetId TransferPath RttWindow.

(** ** Messages *)

Record StoredContract := MkStoredContract {
  st_ContractId : bytes;
  st_TransferByteCount : Z;               (* uint64 *)
  st_SourceId : option bytes;
  st_DestinationId : option bytes;
  st_StreamId : option bytes;
  st_ProvideTlsCertificate : list bytes;
  st_DestinationClientPublicKey : bytes;
  st_DestinationClientKeySignedTlsCertificate : bytes;
  st_ExpirationTimeUnixMilli : option Z;
}.

Record Contract := MkContract {
  ct_StoredContractBytes : bytes;
  ct_StoredContractHmac : bytes;
  ct_ProvideMode : Z;
  ct_ProvideTlsCertificate : list bytes;
  ct_DestinationClientPublicKey : bytes;
  ct_DestinationClientKeySignedTlsCertificate : bytes;
}.

(** ** Expiry *)

Definition contractExpiredAt (deadline : option Z) (nowUnixMilli : Z) : bool :=
  match deadline with None => false | Some d => d <=? nowUnixMilli end.

(** [nowUnixMilli - *deadline] milliseconds, in nanoseconds. *)
Definition contractExpiredBy (deadline : option Z) (nowUnixMilli : Z) : Z :=
  if negb (contractExpiredAt deadline nowUnixMilli) then 0
  else match deadline with None => 0 | Some d => i64 (i64 (nowUnixMilli - d) * Millisecond) end.

(** ** The contract of a sequence *)

Record sequenceContract := SeqContract {
  localId : bytes;
  contract : Contract;
  contractId : bytes;
  transferByteCount : Z;
  effectiveTransferByteCount : Z;
  provideMode : Z;
  expirationTimeUnixMilli : option Z;
  minUpdateByteCount : Z;
  path : TransferPath;
  ackedByteCount : Z;
  unackedByteCount : Z;
  provideTlsCertificate : list bytes;
  destinationClientPublicKey : bytes;
  destinationClientKeySignedTlsCertificate : bytes;
}.

Definition set_counts (c : sequenceContract) (acked unacked : Z) : sequenceContract :=
  SeqContract (localId c) (contract c) (contractId c) (transferByteCount c) (effectiveTransferByteCount c) (provideMode c)
    (expirationTimeUnixMilli c) (minUpdateByteCount c) (path c) acked unacked (provideTlsCertificate c)
    (destinationClientPublicKey c) (destinationClientKeySignedTlsCertificate c).

Definition expired (c : sequenceContract) (now : Z) : bool := contractExpiredAt (expirationTimeUnixMilli c) now.

Inductive contract_err := ErrUnmarshalStored | ErrContractId (e : id_err).

Section contract.
(** [ProtoUnmarshal] of a stored contract. *)
Variable unmarshalStored : bytes -> option StoredContract.

Definition prefer {A} (stored outer : list A) : list A := match stored with [] => outer | _ => stored end.

(** [newLocalId] is the id [NewId] returns. *)
Definition newSequenceContract (ct : Contract) (minBytes : Z) (contractFillFraction : spec_float) (newLocalId : bytes)
  : sequenceContract + contract_err :=
  match unmarshalStored (ct_StoredContractBytes ct) with
  | None => inr ErrUnmarshalStored
  | Some st =>
      match IdFromBytes (st_ContractId st) with
      | inr e => inr (ErrContractId e)
      | inl id =>
          match TransferPathFromBytes (st_SourceId st) (st_DestinationId st) (st_StreamId st) with
          | inr e => inr (ErrContractId e)
          | inl p =>
              inl (SeqContract newLocalId ct id (i64 (st_TransferByteCount st))
                (int64_of_float32 (float32_mul (float32_of_Z (st_TransferByteCount st)) contractFillFraction))
                (ct_ProvideMode ct) (st_ExpirationTimeUnixMilli st) minBytes p 0 0
                (prefer (st_ProvideTlsCertificate st) (ct_ProvideTlsCertificate ct))
                (prefer (st_DestinationClientPublicKey st) (ct_DestinationClientPublicKey ct))
                (prefer (st_DestinationClientKeySignedTlsCertificate st) (ct_DestinationClientKeySignedTlsCertificate ct)))
          end
      end
  end.
End contract.

Definition effective (c : sequenceContract) (byteCount : Z) : Z := Z.max (minUpdateByteCount c) byteCount.

Definition update (c : sequenceContract) (now byteCount : Z) : sequenceContract * bool :=
  if expired c now then (c, false)
  else
    let e := effective c byteCount in
    if effectiveTransferByteCount c <? i64 (i64 (ackedByteCount c + unackedByteCount c) + e) then (c, false)
    else (set_counts c (ackedByteCount c) (i64 (unackedByteCount c + e)), true).

(** "Bad accounting" panics. *)
Definition ack (c : sequenceContract) (byteCount : Z) : go sequenceContract :=
  let e := effective c byteCount in
  if unackedByteCount c <? e then Panic
  else Ret (set_counts c (i64 (ackedByteCount c + e)) (i64 (unackedByteCount c - e))).

Definition unack (c : sequenceContract) (byteCount : Z) : sequenceContract :=
  let e := effective c byteCount in
  let e := if unackedByteCount c <? e then unackedByteCount c else e in
  set_counts c (ackedByteCount c) (i64 (unackedByteCount c - e)).

(** ** Accounting *)

(** The byte counts of the debits that are neither acked nor released, and the
    bytes acked so far, next to the contract that carries them. *)
Record account := Account { ac_contract : sequenceContract; ac_open : list Z; ac_acked : Z }.

Inductive contract_op :=
| CUpdate (now byteCount : Z)
| CAck (k : nat)      (* acknowledge the [k]th open debit *)
| CUnack (k : nat).   (* release it *)

Definition remove_nth (k : nat) (l : list Z) : list Z := take k l ++ drop (S k) l.

Definition contract_step (a : account) (o : contract_op) : go account :=
  match o with
  | CUpdate now n =>
      let '(c, ok) := update (ac_contract a) now n in
      Ret (Account c (if ok then ac_open a ++ [n] else ac_open a) (ac_acked a))
  | CAck k =>
      match ac_open a !! k with
      | None => Ret a
      | Some n =>
          let! c := ack (ac_contract a) n in
          Ret (Account c (remove_nth k (ac_open a)) (ac_acked a + effective (ac_contract a) n))
      end
  | CUnack k =>
      match ac_open a !! k with
      | None => Ret a
      | Some n => Ret (Account (unack (ac_contract a) n) (remove_nth k (ac_open a)) (ac_acked a))
      end
  end.

Fixpoint contract_run (a : account) (l : list contract_op) : go account :=
  match l with
  | [] => Ret a
  | o :: l => let! a := contract_step a o in contract_run a l
  end.

(** Every debit fits a 62-bit count. *)
Definition op_small (o : contract_op) : Prop := match o with CUpdate _ n => 0 <= n < 2 ^ 62 | _ => True end.

Record account_ok (a : account) : Prop := {
  ao_min : 0 <= minUpdateByteCount (ac_contract a) < 2 ^ 62;
  ao_size : 0 <= effectiveTransferByteCount (ac_contract a) < 2 ^ 62;
  ao_acked : ackedByteCount (ac_contract a) = ac_acked a /\ 0 <= ac_acked a;
  ao_open : unackedByteCount (ac_contract a) = sumZ (map (effective (ac_contract a)) (ac_open a)) /\
            Forall (fun n => 0 <= n < 2 ^ 62) (ac_open a);
  ao_fits : ackedByteCount (ac_contract a) + unackedByteCount (ac_contract a) <= effectiveTransferByteCount (ac_contract a);
}.

Lemma sum_remove_nth (f : Z -> Z) k l n :
  l !! k = Some n -> sumZ (map f (remove_nth k l)) = sumZ (map f l) - f n.
Proof.
  intros Hk. unfold remove_nth. rewrite <- (take_drop_middle l k n Hk) at 3. rewrite !map_app, !sumZ_app. cbn [map].
  rewrite sumZ_cons. lia.
Qed.

Lemma sum_member (f : Z -> Z) l n : (forall x, x ∈ l -> 0 <= f x) -> n ∈ l -> f n <= sumZ (map f l).
Proof.
  intros Hf [k Hk]%list_elem_of_lookup_1. pose proof (sum_remove_nth f k l n Hk) as E.
  assert (0 <= sumZ (map f (remove_nth k l))); [|lia]. apply sumZ_map_nonneg. intros x Hx. apply Hf.
  apply list_elem_of_lookup in Hx as [i Hi]. apply list_elem_of_lookup. unfold remove_nth in Hi.
  apply lookup_app_Some in Hi as [Hi|[_ Hi]]; [apply lookup_take_Some in Hi as [Hi _]; eauto|rewrite lookup_drop in Hi; eauto].
Qed.

Lemma effective_set c a u n : effective (set_counts c a u) n = effective c n.
Proof. done. Qed.

Lemma remove_nth_Forall (Q : Z -> Prop) k l : Forall Q l -> Forall Q (remove_nth k l).
Proof. intros Hl. unfold remove_nth. apply Forall_app. split; [by apply Forall_take|by apply Forall_drop]. Qed.

Lemma contract_step_ok a o :
  account_ok a -> op_small o -> exists a', contract_step a o = Ret a' /\ account_ok a' /\
    effectiveTransferByteCount (ac_contract a') = effectiveTransferByteCount (ac_contract a).
Proof.
  intros [Hmin Hsz [Ha Ha0] [Hu Hop] Hf] Ho. change (2 ^ 62) with 4611686018427387904 in *.
  assert (Hnn : forall x, x ∈ ac_open a -> 0 <= effective (ac_contract a) x) by (intros; unfold effective; lia).
  pose proof (sumZ_map_nonneg _ _ Hnn) as Hu0.
  destruct o as [now n|k|k]; cbn [contract_step op_small] in *.
  - unfold update. destruct (expired _ _); [eexists; split; [done|]; split; [by split|done]|].
    set (e := effective (ac_contract a) n) in *. assert (He : 0 <= e < 4611686018427387904) by (unfold e, effective; lia).
    rewrite (i64_small (ackedByteCount _ + _)) by (unfold MaxInt64; lia). rewrite (i64_small (_ + e)) by (unfold MaxInt64; lia).
    destruct (Z.ltb_spec (effectiveTransferByteCount (ac_contract a)) (ackedByteCount (ac_contract a) + unackedByteCount (ac_contract a) + e));
      [eexists; split; [done|]; split; [by split|done]|].
    rewrite i64_small by (unfold MaxInt64; lia).
    eexists. split; [done|]. split; [|done]. split; cbn; change (2 ^ 62) with 4611686018427387904; try done; [|lia].
    split; [|apply Forall_app; split; [done|by constructor]]. rewrite map_app, sumZ_app. cbn [map]. rewrite sumZ_cons. cbn.
    change (effective (set_counts _ _ _)) with (effective (ac_contract a)). fold e. lia.
  - destruct (ac_open a !! k) as [n|] eqn:Hk; [|eexists; split; [done|]; split; [by split|done]].
    pose proof (sum_member _ _ n Hnn (list_elem_of_lookup_2 _ _ _ Hk)) as Hle.
    pose proof (Hnn n (list_elem_of_lookup_2 _ _ _ Hk)) as Hn0. unfold ack. rewrite (proj2 (Z.ltb_ge _ _)) by lia. cbn [gbind].
    rewrite !i64_small by (unfold MaxInt64; lia).
    eexists. split; [done|]. split; [|done]. split; cbn; change (2 ^ 62) with 4611686018427387904; try done; [lia| |lia].
    split; [|by apply remove_nth_Forall]. change (effective (set_counts _ _ _)) with (effective (ac_contract a)).
    rewrite (sum_remove_nth _ k _ n Hk). lia.
  - destruct (ac_open a !! k) as [n|] eqn:Hk; [|eexists; split; [done|]; split; [by split|done]].
    pose proof (sum_member _ _ n Hnn (list_elem_of_lookup_2 _ _ _ Hk)) as Hle.
    pose proof (Hnn n (list_elem_of_lookup_2 _ _ _ Hk)) as Hn0. unfold unack. rewrite (proj2 (Z.ltb_ge _ _)) by lia.
    rewrite i64_small by (unfold MaxInt64; lia).
    eexists. split; [done|]. split; [|done]. split; cbn; change (2 ^ 62) with 4611686018427387904; try done; [|lia].
    split; [|by apply remove_nth_Forall]. change (effective (set_counts _ _ _)) with (effective (ac_contract a)).
    rewrite (sum_remove_nth _ k _ n Hk). lia.
Qed.

Lemma contract_run_ok l a :
  account_ok a -> Forall op_small l -> exists a', contract_run a l = Ret a' /\ account_ok a' /\
    effectiveTransferByteCount (ac_contract a') = effectiveTransferByteCount (ac_contract a).
Proof.
  intros Ha Hl. revert a Ha. induction Hl as [|o l Ho Hl IH]; intros a Ha; [exists a; done|]. cbn [contract_run].
  destruct (contract_step_ok a o Ha Ho) as (a1 & -> & Ha1 & E1). cbn [gbind].
  destruct (IH a1 Ha1) as (a2 & E2 & Ha2 & E3). exists a2. split; [done|]. split; [done|congruence].
Qed.

(** C31: A contract never pays out more than its size. From a new contract, under
    any debits and any acknowledgements and releases of debits that are open,
    no accounting panic occurs, the unacked count is exactly the sum of the
    open debits (each at least the minimum charge), the acked count exactly
    what was acknowledged and not released, and the two together stay within
    the contract's effective size. *)
Theorem contract_accounting c l :
  ackedByteCount c = 0 -> unackedByteCount c = 0 -> 0 <= minUpdateByteCount c < 2 ^ 62 ->
  0 <= effectiveTransferByteCount c < 2 ^ 62 -> Forall op_small l ->
  exists a, contract_run (Account c [] 0) l = Ret a /\
    unackedByteCount (ac_contract a) = sumZ (map (effective (ac_contract a)) (ac_open a)) /\
    ackedByteCount (ac_contract a) = ac_acked a /\
    0 <= ackedByteCount (ac_contract a) /\ 0 <= unackedByteCount (ac_contract a) /\
    ackedByteCount (ac_contract a) + unackedByteCount (ac_contract a) <= effectiveTransferByteCount c.
Proof.
  intros H0 H1 Hmin Hsz Hl. destruct (contract_run_ok l (Account c [] 0)) as (a & E & [Hm Hs [Ha Ha0] [Hu Hop] Hf] & Ee); [|done|].
  { split; cbn; try done; lia. }
  exists a. split; [done|]. split; [done|]. split; [done|]. split; [lia|]. split; [|cbn in Ee; lia].
  rewrite Hu. apply sumZ_map_nonneg. intros x Hx. unfold effective. lia.
Qed.

(** ** Witness *)

Definition demo_contract (size : Z) : sequenceContract :=
  SeqContract (replicate 16 1) (MkContract [] [] 0 [] [] []) (replicate 16 9) size size 3 (Some 1000) 10 noPath 0 0 [] [] [].

(** Three debits of which the last does not fit, one ack, one release. *)
Lemma contract_accounting_witness :
  exists a, contract_run (Account (demo_contract 100) [] 0) [CUpdate 0 4; CUpdate 5 60; CUpdate 6 50; CAck 1; CUnack 0] = Ret a /\
    ackedByteCount (ac_contract a) = 60 /\ unackedByteCount (ac_contract a) = 0.
Proof.
  destruct (contract_accounting (demo_contract 100) [CUpdate 0 4; CUpdate 5 60; CUpdate 6 50; CAck 1; CUnack 0]) as (a & E & _);
    [reflexivity|reflexivity|cbn; lia|cbn; lia|repeat constructor; cbn; lia|].
  exists a. split; [exact E|]. revert E. vm_compute. intros [= <-]. split; reflexivity.
Defined.
