(* ===== verification/ReceiveSequence.v ===== *)
(** The receiving end of a transfer sequence (src/transfer.go,
    [ReceiveSequence]): packs arrive in any order, any number of times, and the
    sequence hands their frames to its callback in order, holds the ones that
    are early under a byte limit, acknowledges what it delivered or holds, and
    charges every delivery to a contract.

    The state is the goroutine's: [Run] owns every field, so a turn of its loop
    is one step. What a turn does to the outside is the log: callbacks, audit
    counts, buffers given back to the message pool, contracts opened and
    closed, and the acks recorded in the ack window (AckWindow.v models the
    window and its concurrent writer). An item is a pointer with its immutable
    fields; the two fields the code assigns later are kept apart: [committed]
    is a set of pointers in the state, [contractId] travels with the item that
    has already left the queue.

    [clock n] is the n-th reading of the wall clock, in nanoseconds; the
    contract manager and the encryption session are arguments that may answer
    differently at every reading. Readings made only to print a log line are
    left out. *)
From stdpp Require Import sorting.
From Stdlib Require Import SpecFloat.
From S2P Require Import Prelude NetId TransferPath FrameCodec AckWindow GoHeap MemoryBudget TransferQueue RttWindow SequenceContract.

#[export] Instance Frame_eq_dec : EqDecision Frame.
Proof. solve_decision. Defined.
#[export] Instance Frame_countable : Countable Frame.
Proof.
  apply (inj_countable' (fun f => (MessageType f, MessageBytes f, Raw f)) (fun '(a, b, c) => MkFrame a b c)). by intros [].
Defined.
#[export] Instance Tag_eq_dec : EqDecision Tag.
Proof. solve_decision. Defined.
#[export] Instance Tag_countable : Countable Tag.
Proof. apply (inj_countable' SendTime MkTag). by intros []. Defined.
#[export] Instance transferItem_eq_dec : EqDecision transferItem.
Proof. solve_decision. Defined.
#[export] Instance transferItem_countable : Countable transferItem.
Proof.
  apply (inj_countable' (fun x => (messageId x, messageByteCount x, queueByteCount x, sequenceNumber x))
           (fun '(a, b, c, d) => TransferItem a b c d)). by intros [].
Defined.

(** ** Items and packs *)

(** [it_ptr] tells items with equal fields apart; [it_buffer] names the pooled
    buffer of [transferFrameBytes]. *)
Record receiveItem := ReceiveItem {
  it_ptr : nat;
  it_transfer : transferItem;
  it_receiveTime : Z;
  it_frames : list Frame;
  it_contractFrame : option Frame;
  it_tag : option Tag;
  it_buffer : nat;
  it_head : bool;
  it_ack : bool;
  it_unwrapped : bool;
}.

#[export] Instance receiveItem_eq_dec : EqDecision receiveItem.
Proof. solve_decision. Defined.
#[export] Instance receiveItem_countable : Countable receiveItem.
Proof.
  apply (inj_countable'
    (fun i => (it_ptr i, it_transfer i, it_receiveTime i, it_frames i, it_contractFrame i, it_tag i, it_buffer i, it_head i, it_ack i, it_unwrapped i))
    (fun '(a, b, c, d, e, f, g, h, i, j) => ReceiveItem a b c d e f g h i j)). by intros [].
Defined.

Definition it_seq (i : receiveItem) : Z := sequenceNumber (it_transfer i).
Definition it_id (i : receiveItem) : bytes := messageId (it_transfer i).
Definition it_bytes (i : receiveItem) : Z := messageByteCount (it_transfer i).

(** The order of [newReceiveQueue]. *)
Definition item_cmp (a b : receiveItem) : Z :=
  if it_seq a <? it_seq b then -1 else if it_seq b <? it_seq a then 1 else 0.

Record ReceivePack := MkReceivePack {
  rp_Pack : Pack;
  rp_MessageByteCount : Z;
  rp_TransferFrameBytes : nat;   (* the pooled buffer *)
  rp_Unwrapped : bool;
}.

Inductive ReceiveHoldPolicyKind := ReceiveHoldCommittedPrefix | ReceiveHoldEvict | ReceiveHoldRefuse.

#[export] Instance policy_eq_dec : EqDecision ReceiveHoldPolicyKind.
Proof. solve_decision. Defined.

Record ReceiveBufferSettings := MkReceiveSettings {
  GapTimeout : Z;
  IdleTimeout : Z;
  MinMessageByteCount : Z;
  ReceiveQueueMaxByteCount : Z;
  ReceiveHoldPolicy : ReceiveHoldPolicyKind;
  AllowLegacyNack : bool;
  MaxOpenReceiveContract : Z;
}.

(** [protocol.EncryptedControl], as far as the sequence reads it. *)
Record EncryptedControl := MkEncryptedControl { ec_SessionRole : Z; ec_bytes : bytes }.

Inductive sequenceTlsRole := sequenceTlsRoleClient | sequenceTlsRoleServer.

(** SequenceRoleClient is 1 and SequenceRoleServer 2 in the protocol. *)
Definition sequenceTlsRoleFromProtobuf (r : Z) : sequenceTlsRole * bool :=
  if r =? 1 then (sequenceTlsRoleClient, true)
  else if r =? 2 then (sequenceTlsRoleServer, true)
  else (sequenceTlsRoleClient, false).

Definition complement (r : sequenceTlsRole) : sequenceTlsRole :=
  match r with sequenceTlsRoleClient => sequenceTlsRoleServer | sequenceTlsRoleServer => sequenceTlsRoleClient end.

Inductive receive_err :=
| ErrBadMessageId | ErrBadContractId | ErrContractFrame | ErrVerification
| ErrContract (e : contract_err) | ErrContractExpired | ErrNoContract.

(** ** The ack writer *)

(** What [writeSnapshot] writes, in order: the head when it was updated, then
    the selective acks by ascending number. *)
Definition ack_le (a b : sequenceAck) : Prop := ak_sequenceNumber a <= ak_sequenceNumber b.
#[export] Instance ack_le_dec : RelDecision ack_le.
Proof. intros a b. unfold ack_le. apply _. Defined.

Definition writeSnapshot (snap : sequenceAckWindowSnapshot) : list sequenceAck :=
  (if 0 <? sn_ackUpdateCount snap then match sn_headAck snap with Some h => [h] | None => [] end else []) ++
  merge_sort ack_le
    (map (fun '(id, a) => SequenceAck (ak_sequenceNumber a) id true (ak_tag a) (ak_unwrapped a)) (map_to_list (sn_selectiveAcks snap))).

(** ** What a turn does to the outside *)

Inductive event :=
| EvJump (from to : Z)                                 (* the delivery point follows a head *)
| EvReceived (i : receiveItem)                         (* audit: received *)
| EvCallback (i : receiveItem) (l : list Frame) (provideMode : Z)
| EvControl (r : sequenceTlsRole) (c : EncryptedControl)
| EvRequiredDiscard (i : receiveItem)                  (* NotifyRequiredReceiveDiscarded *)
| EvAck (a : sequenceAck)                              (* ackWindow.Update *)
| EvResend (n : Z)
| EvDiscard (n : Z)
| EvBadMessage (n : Z)
| EvBadContract
| EvReturn (buffer : nat)                              (* MessagePoolReturn *)
| EvEvict (i : receiveItem) (committed : bool)
| EvCommit (i : receiveItem)
| EvOpenContract (id : bytes) (transferByteCount : Z)
| EvContractStats (id : bytes) (usedByteCount : Z)
| EvCloseContract (id : bytes) (acked unacked : Z)
| EvCheckpointContract (id : bytes) (acked unacked : Z).

(** What the sequence is given. *)
Class ReceiveEnv := {
  settings : ReceiveBufferSettings;
  clock : nat -> Z;
  (* [ProtoUnmarshal] of the generated messages *)
  unmarshalContract : bytes -> option Contract;
  unmarshalStored : bytes -> option StoredContract;
  unmarshalControl : bytes -> option EncryptedControl;
  (* the contract manager's [Verify] and [ReceiveNoContract] for this source,
     and the ids [NewId] hands out, at a reading *)
  Verify : nat -> bytes -> bytes -> Z -> bool;
  ReceiveNoContract : nat -> bool;
  newId : nat -> bytes;
  (* the encryption session: whether there is one, and [RequireEncryption] *)
  session : option (nat -> bool);
}.

(** Contracts in the order their local ids were made. *)
Definition localId_le (a b : sequenceContract) : Prop := Cmp (localId a) (localId b) <= 0.
#[export] Instance localId_le_dec : RelDecision localId_le.
Proof. intros a b. unfold localId_le. apply _. Defined.

(** ** The sequence *)

Section sequence.
Context {B H : Type} {MP : MemoryPool B H}.

Abbreviation queue := (@transferQueue receiveItem receiveItem_eq_dec receiveItem_countable H).

Record ReceiveSequence := RSeq {
  nextSequenceNumber : Z;                                (* uint64 *)
  receiveQueue : queue;
  rs_pool : B;
  openReceiveContracts : gmap bytes sequenceContract;
  (* the current contract is one of the open ones: its id is the pointer *)
  receiveContract : option bytes;
  maxHeldByteCount : Z;
  committed : gset nat;
  rs_items : nat;                                        (* pointers handed out *)
  rs_reads : nat;                                        (* clock readings made *)
  rs_log : list event;
}.

Definition set_next (s : ReceiveSequence) (n : Z) : ReceiveSequence :=
  RSeq n (receiveQueue s) (rs_pool s) (openReceiveContracts s) (receiveContract s) (maxHeldByteCount s) (committed s)
    (rs_items s) (rs_reads s) (rs_log s).
Definition set_queue (s : ReceiveSequence) (q : queue) (b : B) : ReceiveSequence :=
  RSeq (nextSequenceNumber s) q b (openReceiveContracts s) (receiveContract s) (maxHeldByteCount s) (committed s)
    (rs_items s) (rs_reads s) (rs_log s).
Definition set_contracts (s : ReceiveSequence) (m : gmap bytes sequenceContract) (c : option bytes) : ReceiveSequence :=
  RSeq (nextSequenceNumber s) (receiveQueue s) (rs_pool s) m c (maxHeldByteCount s) (committed s)
    (rs_items s) (rs_reads s) (rs_log s).
Definition set_hold (s : ReceiveSequence) (n : Z) (l : gset nat) : ReceiveSequence :=
  RSeq (nextSequenceNumber s) (receiveQueue s) (rs_pool s) (openReceiveContracts s) (receiveContract s) n l
    (rs_items s) (rs_reads s) (rs_log s).
Definition bump_items (s : ReceiveSequence) : ReceiveSequence :=
  RSeq (nextSequenceNumber s) (receiveQueue s) (rs_pool s) (openReceiveContracts s) (receiveContract s) (maxHeldByteCount s)
    (committed s) (S (rs_items s)) (rs_reads s) (rs_log s).
Definition bump_reads (s : ReceiveSequence) : ReceiveSequence :=
  RSeq (nextSequenceNumber s) (receiveQueue s) (rs_pool s) (openReceiveContracts s) (receiveContract s) (maxHeldByteCount s)
    (committed s) (rs_items s) (S (rs_reads s)) (rs_log s).
Definition emit (s : ReceiveSequence) (e : event) : ReceiveSequence :=
  RSeq (nextSequenceNumber s) (receiveQueue s) (rs_pool s) (openReceiveContracts s) (receiveContract s) (maxHeldByteCount s)
    (committed s) (rs_items s) (rs_reads s) (rs_log s ++ [e]).

Context {E : ReceiveEnv}.

Definition now_ms (s : ReceiveSequence) : Z := clock (rs_reads s) / 1000000.

(** [c.expired()], one reading. *)
Definition expired_now (s : ReceiveSequence) (c : sequenceContract) : ReceiveSequence * bool :=
  (bump_reads s, expired c (now_ms s)).

Definition sendAck (s : ReceiveSequence) (n : Z) (id : bytes) (selective : bool) (tag : option Tag) (unwrapped : bool)
  : ReceiveSequence :=
  emit s (EvAck (SequenceAck n id selective tag unwrapped)).

Definition messagePoolReturn (s : ReceiveSequence) (i : receiveItem) : ReceiveSequence := emit s (EvReturn (it_buffer i)).

(** *** Contracts *)

(** The loop over the oldest contracts: every one but the current is closed. *)
Definition close_oldest (s : ReceiveSequence) (l : list sequenceContract) : ReceiveSequence :=
  fold_left (fun s c =>
    if bool_decide (receiveContract s = Some (contractId c)) then s
    else set_contracts (emit s (EvCloseContract (contractId c) (ackedByteCount c) (unackedByteCount c)))
           (delete (contractId c) (openReceiveContracts s)) (receiveContract s)) l s.

(** [orderedReceiveContracts[:d]] panics past the end of the slice. *)
Definition trim_contracts (s : ReceiveSequence) : go ReceiveSequence :=
  let d := Z.of_nat (size (openReceiveContracts s)) - MaxOpenReceiveContract settings in
  if 0 <? d then
    let ordered := merge_sort localId_le (map snd (map_to_list (openReceiveContracts s))) in
    let! l := slice ordered 0 (Z.to_nat d) in
    Ret (close_oldest s l)
  else Ret s.

Definition setContract (s : ReceiveSequence) (next : sequenceContract) : go (ReceiveSequence * option receive_err) :=
  let '(s, e) := expired_now s next in
  if e then Ret (s, Some ErrContractExpired)
  else if bool_decide (receiveContract s = Some (contractId next)) then
    (* contract already set *)
    match openReceiveContracts s !! contractId next with
    | None => Panic
    | Some c => let '(s, e) := expired_now s c in Ret (s, if e then Some ErrContractExpired else None)
    end
  else
    match openReceiveContracts s !! contractId next with
    | Some c =>
        let '(s, e) := expired_now s c in
        if e then Ret (s, Some ErrContractExpired)
        else Ret (set_contracts s (openReceiveContracts s) (Some (contractId next)), None)
    | None =>
        let s := set_contracts s (<[contractId next := next]> (openReceiveContracts s)) (Some (contractId next)) in
        let s := emit s (EvOpenContract (contractId next) (transferByteCount next)) in
        let! s := trim_contracts s in
        Ret (s, None)
    end.

Definition registerContracts (s : ReceiveSequence) (i : receiveItem) : go (ReceiveSequence * option receive_err) :=
  match it_contractFrame i with
  | None => Ret (s, None)
  | Some f =>
      match unmarshalContract (bval (MessageBytes f)) with
      | None => Ret (emit s (EvBadMessage (it_bytes i)), Some ErrContractFrame)
      | Some ct =>
          if negb (Verify (rs_reads s) (ct_StoredContractHmac ct) (ct_StoredContractBytes ct) (ct_ProvideMode ct))
          then Ret (emit s EvBadContract, Some ErrVerification)
          else
            match newSequenceContract unmarshalStored ct (MinMessageByteCount settings) (float32_of_Z 1) (newId (rs_reads s)) with
            | inr e => Ret (emit s EvBadContract, Some (ErrContract e))
            | inl next =>
                let '(s, e) := expired_now s next in
                if e then Ret (s, Some ErrContractExpired)
                else
                  let! '(s, err) := setContract s next in
                  match err with
                  | None => Ret (s, None)
                  | Some ErrContractExpired => Ret (s, err)
                  | Some e => Ret (emit s EvBadContract, Some e)
                  end
            end
      end
  end.

(** Charges the contract [id] of [s]; the answer of [update]. *)
Definition debit (s : ReceiveSequence) (id : bytes) (c : sequenceContract) (n : Z) : ReceiveSequence * bool :=
  let '(c', ok) := update c (now_ms s) n in
  (set_contracts (bump_reads s) (<[id := c']> (openReceiveContracts s)) (receiveContract s), ok).

(** The item's contract id is [cid]; the returned one is what the code leaves
    in the item. *)
Definition updateContract (s : ReceiveSequence) (i : receiveItem) (cid : option bytes) : ReceiveSequence * bool * option bytes :=
  let attempt id on_ok :=
    match openReceiveContracts s !! id with
    | None => inl s
    | Some c =>
        let '(s, e) := expired_now s c in
        if e then inr (s, false, cid)
        else
          let '(s, ok) := debit s id c (it_bytes i) in
          if ok then inr (s, true, on_ok) else inl s
    end in
  let r :=
    match cid with
    | Some id => attempt id cid
    | None => match receiveContract s with Some id => attempt id (Some id) | None => inl s end
    end in
  match r with
  | inr r => r
  | inl s => (s, ReceiveNoContract (rs_reads s), cid)
  end.

(** *** Delivery *)

Definition ProvideMode_Network : Z := 1.
Definition MessageType_TransferEncryptedControl : Z := 23.

Fixpoint deliverEncryptedControlFrames (s : ReceiveSequence) (l : list Frame) : ReceiveSequence * list Frame :=
  match l with
  | [] => (s, [])
  | f :: l =>
      if negb (MessageType f =? MessageType_TransferEncryptedControl)
      then let '(s, rest) := deliverEncryptedControlFrames s l in (s, f :: rest)
      else
        let s :=
          match unmarshalControl (bval (MessageBytes f)) with
          | None => s
          | Some ec =>
              let '(senderRole, ok) := sequenceTlsRoleFromProtobuf (ec_SessionRole ec) in
              if ok then emit s (EvControl (complement senderRole) ec) else s
          end in
        deliverEncryptedControlFrames s l
  end.

(** The contract of a delivered item is credited; its provide mode. *)
Definition settle_contract (s : ReceiveSequence) (i : receiveItem) (cid : option bytes) : go (ReceiveSequence * Z) :=
  match cid with
  | None => Ret (s, ProvideMode_Network)
  | Some id =>
      match openReceiveContracts s !! id with
      | None => Ret (s, ProvideMode_Network)
      | Some c =>
          let! c := ack c (it_bytes i) in
          let s := set_contracts s (<[id := c]> (openReceiveContracts s)) (receiveContract s) in
          Ret (emit s (EvContractStats id (ackedByteCount c)), provideMode c)
      end
  end.

(** The frames the callback is due, after the session's controls and the
    encryption requirement. *)
Definition application_frames (s : ReceiveSequence) (i : receiveItem) : ReceiveSequence * list Frame :=
  match session with
  | None => (s, it_frames i)
  | Some requireEncryption =>
      let '(s, l) := deliverEncryptedControlFrames s (it_frames i) in
      match l with
      | [] => (s, [])
      | _ =>
          if it_unwrapped i && requireEncryption (rs_reads s)
          then (emit (emit s (EvBadMessage (it_bytes i))) (EvRequiredDiscard i), [])
          else (s, l)
      end
  end.

Definition receiveHead (s : ReceiveSequence) (i : receiveItem) (cid : option bytes) : go ReceiveSequence :=
  let s := emit s (EvReceived i) in
  let! '(s, provideMode) := settle_contract s i cid in
  let '(s, l) := application_frames s i in
  let s := match l with [] => s | _ => emit s (EvCallback i l provideMode) end in
  let s := if it_ack i then sendAck s (it_seq i) (it_id i) false (it_tag i) (it_unwrapped i) else s in
  Ret (messagePoolReturn s i).

(** *** The hold *)

Definition commitHeldItem (s : ReceiveSequence) (i : receiveItem) : ReceiveSequence :=
  let s := set_hold s (maxHeldByteCount s) ({[it_ptr i]} ∪ committed s) in
  sendAck (emit s (EvCommit i)) (it_seq i) (it_id i) true (it_tag i) (it_unwrapped i).

Definition commit_all (s : ReceiveSequence) (l : list receiveItem) : ReceiveSequence :=
  fold_left (fun s i => if bool_decide (it_ptr i ∈ committed s) then s else commitHeldItem s i) l s.

(** [int64(n) - int64(next) - int64(below)], at least zero. *)
Definition missing (n next : Z) (below : nat) : Z :=
  Z.max 0 (i64 (i64 (i64 n - i64 next) - Z.of_nat below)).

Definition fits_hold (s : ReceiveSequence) (n : Z) (below : nat) (held : Z) : bool :=
  i64 (i64 (missing n (nextSequenceNumber s) below * Z.max (maxHeldByteCount s) 1) + held) <=? ReceiveQueueMaxByteCount settings.

(** The general path: the [k]-th held item in ascending order. *)
Fixpoint commit_prefix (s : ReceiveSequence) (k : nat) (held : Z) (l : list receiveItem) : ReceiveSequence :=
  match l with
  | [] => s
  | i :: l =>
      let held := i64 (held + it_bytes i) in
      if negb (fits_hold s (it_seq i) k held) then s
      else
        let s := if bool_decide (it_ptr i ∈ committed s) then s else commitHeldItem s i in
        commit_prefix s (S k) held l
  end.

Definition commitHeldPrefix (s : ReceiveSequence) : ReceiveSequence :=
  let '(heldCount, heldTotal) := QueueSize (receiveQueue s) in
  if (heldCount =? 0)%nat then s
  else
    let whole :=
      match PeekLast (receiveQueue s) with
      | None => false
      | Some newest => fits_hold s (it_seq newest) (heldCount - 1) heldTotal
      end in
    if whole then commit_all s (UnorderedItems (receiveQueue s))
    else commit_prefix s 0 0 (AscendingItems item_cmp (receiveQueue s)).

(** The hold capacity advertised on acks; [budgetTotal] is the shared budget's
    [TotalByteCount], when there is one. *)
Definition receiveWindowAdvertisement (budgetTotal : option Z) : Z :=
  let window := ReceiveQueueMaxByteCount settings in
  let window := match budgetTotal with Some t => Z.min window t | None => window end in
  Z.max 0 window.

Definition canQueue (s : ReceiveSequence) (n : Z) : bool :=
  CanAdd (receiveQueue s) (rs_pool s) n (ReceiveQueueMaxByteCount settings).

(** Queue operations on the sequence's queue. *)
Definition q_remove_id (s : ReceiveSequence) (id : bytes) : go (ReceiveSequence * option receiveItem) :=
  let! '(q, b, x) := RemoveByMessageId it_transfer item_cmp (receiveQueue s) (rs_pool s) id in Ret (set_queue s q b, x).
Definition q_remove_seq (s : ReceiveSequence) (n : Z) : go (ReceiveSequence * option receiveItem) :=
  let! '(q, b, x) := RemoveBySequenceNumber it_transfer item_cmp (receiveQueue s) (rs_pool s) n in Ret (set_queue s q b, x).
Definition q_add (s : ReceiveSequence) (i : receiveItem) : ReceiveSequence :=
  let '(q, b) := Add it_transfer item_cmp (receiveQueue s) (rs_pool s) i in set_queue s q b.

(** A held item the arrival replaces. *)
Definition replaced (s : ReceiveSequence) (x : option receiveItem) : ReceiveSequence :=
  match x with None => s | Some i => messagePoolReturn (emit s (EvResend (it_bytes i))) i end.

(** The eviction loop for an arrival of [n] bytes at [seq]; every round but the
    last removes an item. *)
Fixpoint evict_later (fuel : nat) (s : ReceiveSequence) (seq n : Z) : go ReceiveSequence :=
  if canQueue s n then Ret s
  else
    match fuel with
    | O => Panic
    | S fuel =>
        match PeekLast (receiveQueue s) with
        | None => Ret s
        | Some last =>
            if it_seq last <=? seq then Ret s
            else
              let held := bool_decide (it_ptr last ∈ committed s) in
              if bool_decide (ReceiveHoldPolicy settings = ReceiveHoldCommittedPrefix) && held then Ret s
              else
                let! '(s, _) := q_remove_id s (it_id last) in
                let s := messagePoolReturn (emit s (EvEvict last held)) last in
                evict_later fuel s seq n
        end
    end.

Definition make_item (s : ReceiveSequence) (p : ReceivePack) (id : bytes) (receiveTime : Z) : receiveItem :=
  ReceiveItem (rs_items s) (TransferItem id (rp_MessageByteCount p) 0 (FrameCodec.SequenceNumber (rp_Pack p))) receiveTime
    (Frames (rp_Pack p)) (ContractFrame (rp_Pack p)) (PackTag (rp_Pack p)) (rp_TransferFrameBytes p)
    (Head (rp_Pack p)) (negb (Nack (rp_Pack p))) (rp_Unwrapped p).

(** *** Arrivals *)

Definition receive_now (s : ReceiveSequence) (i : receiveItem) : go (ReceiveSequence * (bool + receive_err)) :=
  let s := set_next s (u64 (nextSequenceNumber s + 1)) in
  let! '(s, err) := registerContracts s i in
  match err with
  | Some e => Ret (s, inr e)
  | None =>
      let '(s, ok, cid) := updateContract s i None in
      if ok then let! s := receiveHead s i cid in Ret (s, inl true)
      else Ret (s, inr ErrNoContract)
  end.

Definition receive_early (s : ReceiveSequence) (i : receiveItem) : go (ReceiveSequence * (bool + receive_err)) :=
  let! s :=
    if bool_decide (ReceiveHoldPolicy settings = ReceiveHoldRefuse) then Ret s
    else evict_later (S (Len (orderedItems (receiveQueue s)))) s (it_seq i) (it_bytes i) in
  if canQueue s (it_bytes i) then
    let s := set_hold s (Z.max (maxHeldByteCount s) (it_bytes i)) (committed s) in
    let s := q_add s i in
    let s :=
      if bool_decide (ReceiveHoldPolicy settings = ReceiveHoldCommittedPrefix) then commitHeldPrefix s
      else sendAck (set_hold s (maxHeldByteCount s) ({[it_ptr i]} ∪ committed s)) (it_seq i) (it_id i) true (it_tag i) (it_unwrapped i) in
    Ret (s, inl true)
  else Ret (s, inl false).

Definition receive (s : ReceiveSequence) (p : ReceivePack) : go (ReceiveSequence * (bool + receive_err)) :=
  let receiveTime := clock (rs_reads s) in
  let s := bump_reads s in
  match IdFromBytes (bval (FrameCodec.MessageId (rp_Pack p))) with
  | inr _ => Ret (s, inr ErrBadMessageId)
  | inl id =>
      let i := make_item s p id receiveTime in
      let s := bump_items s in
      let s := if it_head i && (nextSequenceNumber s <? it_seq i)
               then set_next (emit s (EvJump (nextSequenceNumber s) (it_seq i))) (it_seq i) else s in
      let! '(s, x) := q_remove_seq s (it_seq i) in
      let s := replaced s x in
      let! '(s, x) := q_remove_id s (it_id i) in
      let s := replaced s x in
      if it_seq i <=? nextSequenceNumber s then
        if nextSequenceNumber s =? it_seq i then receive_now s i
        else Ret (if it_ack i then sendAck s (it_seq i) (it_id i) false None (it_unwrapped i) else s, inl false)
      else receive_early s i
  end.

Definition receiveNack (s : ReceiveSequence) (p : ReceivePack) : go (ReceiveSequence * (bool + receive_err)) :=
  let receiveTime := clock (rs_reads s) in
  let s := bump_reads s in
  match IdFromBytes (bval (FrameCodec.MessageId (rp_Pack p))) with
  | inr _ => Ret (s, inr ErrBadMessageId)
  | inl id =>
      let cid := match ContractId (rp_Pack p) with
                 | None => inl None
                 | Some b => match IdFromBytes b with inl c => inl (Some c) | inr e => inr e end
                 end in
      match cid with
      | inr _ => Ret (s, inr ErrBadContractId)
      | inl cid =>
          if bool_decide (cid = None) && negb (AllowLegacyNack settings) then Ret (s, inl false)
          else
            let i := make_item s p id receiveTime in
            let s := bump_items s in
            let! '(s, err) := registerContracts s i in
            match err with
            | Some e => Ret (s, inr e)
            | None =>
                if match cid with Some c => bool_decide (openReceiveContracts s !! c = None) | None => false end
                then Ret (s, inl false)
                else
                  let '(s, ok, cid) := updateContract s i cid in
                  if ok then let! s := receiveHead s i cid in Ret (s, inl true)
                  else Ret (s, inl false)
            end
      end
  end.

(** *** The loop *)

(** Delivers what the hold can deliver. [None] ends the sequence; otherwise
    the next wait. *)
Fixpoint drain (fuel : nat) (s : ReceiveSequence) (receiveTime timeout : Z) : go (ReceiveSequence * option Z) :=
  match PeekFirst (receiveQueue s) with
  | None => Ret (s, Some timeout)
  | Some i =>
      let itemGapTimeout := time_Sub (it_receiveTime i + GapTimeout settings) receiveTime in
      if itemGapTimeout <? 0 then Ret (s, None)
      else if nextSequenceNumber s <? it_seq i then Ret (s, Some (if itemGapTimeout <? timeout then itemGapTimeout else timeout))
      else
        match fuel with
        | O => Panic
        | S fuel =>
            let! '(s, _) := q_remove_id s (it_id i) in
            if nextSequenceNumber s =? it_seq i then
              let! '(s, err) := registerContracts s i in
              match err with
              | Some _ => Ret (s, None)
              | None =>
                  let '(s, ok, cid) := updateContract s i None in
                  if ok then
                    let! s := receiveHead (set_next s (u64 (nextSequenceNumber s + 1))) i cid in
                    drain fuel s receiveTime timeout
                  else Ret (s, None)
              end
            else
              let s := if it_ack i then sendAck s (it_seq i) (it_id i) false None (it_unwrapped i) else s in
              drain fuel s receiveTime timeout
        end
  end.

(** What the select of a turn picks. [SelIdle closed]: the timer, with the
    answer of [idleCondition.Close]. *)
Inductive select_case := SelDone | SelClosed | SelPack (p : ReceivePack) | SelIdle (closed : bool).

(** The outcome of a receive call; [true] goes on. *)
Definition received (s : ReceiveSequence) (p : ReceivePack) (r : bool + receive_err) : ReceiveSequence * bool :=
  match r with
  | inr _ => (emit (emit s (EvBadMessage (rp_MessageByteCount p))) (EvReturn (rp_TransferFrameBytes p)), false)
  | inl false => (emit (emit s (EvDiscard (rp_MessageByteCount p))) (EvReturn (rp_TransferFrameBytes p)), true)
  | inl true => (s, true)
  end.

(** Before the select: the hold is drained and the boundary moved. *)
Definition before_select (s : ReceiveSequence) : go (ReceiveSequence * option Z) :=
  let receiveTime := clock (rs_reads s) in
  let s := bump_reads s in
  if (fst (QueueSize (receiveQueue s)) =? 0)%nat then Ret (s, Some (IdleTimeout settings))
  else
    let! '(s, timeout) := drain (S (Len (orderedItems (receiveQueue s)))) s receiveTime (GapTimeout settings) in
    match timeout with
    | None => Ret (s, None)
    | Some t =>
        Ret (if bool_decide (ReceiveHoldPolicy settings = ReceiveHoldCommittedPrefix) then commitHeldPrefix s else s, Some t)
    end.

Definition after_select (s : ReceiveSequence) (c : select_case) : go (ReceiveSequence * bool) :=
  match c with
  | SelDone | SelClosed => Ret (s, false)
  | SelPack p =>
      let! '(s, r) := if Nack (rp_Pack p) then receiveNack s p else receive s p in
      Ret (received s p r)
  | SelIdle closed => Ret (s, negb (IsEmpty (receiveQueue s) && closed))
  end.

Definition turn (s : ReceiveSequence) (c : select_case) : go (ReceiveSequence * bool) :=
  let! '(s, timeout) := before_select s in
  match timeout with
  | None => Ret (s, false)
  | Some _ => after_select s c
  end.

(** The deferred teardown. The contracts are closed in the order of the map's
    iteration. *)
Definition teardown (s : ReceiveSequence) : ReceiveSequence :=
  let s := fold_left (fun s c =>
             if bool_decide (receiveContract s = Some (contractId c)) then s
             else emit s (EvCloseContract (contractId c) (ackedByteCount c) (unackedByteCount c)))
             (map snd (map_to_list (openReceiveContracts s))) s in
  let s := match receiveContract s with
           | None => s
           | Some id => match openReceiveContracts s !! id with
                        | None => s
                        | Some c => emit s (EvCheckpointContract (contractId c) (ackedByteCount c) (unackedByteCount c))
                        end
           end in
  let '(q, b, items) := Clear item_cmp (receiveQueue s) (rs_pool s) in
  fold_left (fun s i => messagePoolReturn (emit s (EvDiscard (it_bytes i))) i) items (set_queue s q b).

(** [Run] on the cases its selects pick; [true] is a sequence still running
    when they are used up. *)
Fixpoint Run (s : ReceiveSequence) (l : list select_case) : go (ReceiveSequence * bool) :=
  match l with
  | [] => Ret (s, true)
  | c :: l =>
      let! '(s, go_on) := turn s c in
      if go_on then Run s l else Ret (teardown s, false)
  end.

Definition newReceiveQueue (b : B) (budget : option H) (minByteCount : Z) : queue * B :=
  setBudget (newTransferQueue item_cmp) b budget minByteCount.

(** [lifetime]: ReceiveQueueRetainedByteAccounting, as the constructor settles it. *)
Definition NewReceiveSequence (b : B) (budget : option H) (minByteCount : Z) (lifetime : bool) : ReceiveSequence :=
  let '(q, b) := newReceiveQueue b budget minByteCount in
  let '(q, b) := if lifetime then setLifetimeBudget q b else (q, b) in
  RSeq 0 q b ∅ None 0 ∅ 0 0 [].
End sequence.
