(* ===== verification/ReceiveOrder.v ===== *)
(** What the receive sequence of ReceiveSequence.v promises: it never panics,
    delivers in order and once, gives no buffer back twice, charges every
    delivery, and acknowledges only what it delivered or keeps. *)
From stdpp Require Import sorting.
From Stdlib Require Import SpecFloat.
From S2P Require Import Prelude NetId TransferPath FrameCodec AckWindow GoHeap MemoryBudget TransferQueue RttWindow SequenceContract ReceiveSequence.

(** ** The order of the hold *)

Lemma item_cmp_flip a b : item_cmp a b < 0 <-> 0 < item_cmp b a.
Proof. unfold item_cmp. destruct (Z.ltb_spec (it_seq a) (it_seq b)), (Z.ltb_spec (it_seq b) (it_seq a)); lia. Qed.
Lemma item_cmp_trans a b c : item_cmp a b <= 0 -> item_cmp b c <= 0 -> item_cmp a c <= 0.
Proof.
  unfold item_cmp. destruct (Z.ltb_spec (it_seq a) (it_seq b)), (Z.ltb_spec (it_seq b) (it_seq a)),
    (Z.ltb_spec (it_seq b) (it_seq c)), (Z.ltb_spec (it_seq c) (it_seq b)),
    (Z.ltb_spec (it_seq a) (it_seq c)), (Z.ltb_spec (it_seq c) (it_seq a)); lia.
Qed.
Lemma item_cmp_le a b : item_cmp a b <= 0 <-> it_seq a <= it_seq b.
Proof. unfold item_cmp. destruct (Z.ltb_spec (it_seq a) (it_seq b)), (Z.ltb_spec (it_seq b) (it_seq a)); lia. Qed.

Section order.
Context {B H : Type} {MP : MemoryPool B H} {ML : MemoryPoolLaws B H} {E : ReceiveEnv}.
Abbreviation RS := (@ReceiveSequence B H).
Implicit Types (s : RS) (i : receiveItem).

(** The items held. *)
Definition held s : list receiveItem := items (orderedItems (receiveQueue s)).

Definition hold_wf s : Prop :=
  queue_wf it_transfer item_cmp (receiveQueue s) /\ backed (receiveQueue s) (rs_pool s).

Lemma held_nodup s : hold_wf s -> NoDup (held s).
Proof. intros [[Hw _] _]. apply (hw_nodup _ _ (iw_ord _ _ _ _ _ _ Hw)). Qed.

Lemma held_unique s i j : hold_wf s -> i ∈ held s -> j ∈ held s -> it_seq i = it_seq j \/ it_id i = it_id j -> i = j.
Proof.
  intros [[Hw _] _] Hi Hj [Heq|Heq].
  - pose proof (proj2 (iw_seqs _ _ _ _ _ _ Hw (it_seq i) i) (conj Hi eq_refl)) as H1.
    pose proof (proj2 (iw_seqs _ _ _ _ _ _ Hw (it_seq i) j) (conj Hj (eq_sym Heq))) as H2. congruence.
  - pose proof (proj2 (iw_ids _ _ _ _ _ _ Hw (it_id i) i) (conj Hi eq_refl)) as H1.
    pose proof (proj2 (iw_ids _ _ _ _ _ _ Hw (it_id i) j) (conj Hj (eq_sym Heq))) as H2. congruence.
Qed.

(** The queue of [s'] is that of [s] after an operation that kept its books. *)
Record requeued s s' : Prop := {
  rq_wf : hold_wf s';
  rq_budget : budget (receiveQueue s') = budget (receiveQueue s);
  rq_life : lifetimeBudget (receiveQueue s') = lifetimeBudget (receiveQueue s);
  rq_rest : s' = set_queue s (receiveQueue s') (rs_pool s');
}.

Lemma contents_perm (q1 q2 : @transferQueue receiveItem _ _ H) p :
  queue_wf it_transfer item_cmp q1 -> queue_wf it_transfer item_cmp q2 -> p ∈ contents q1 ->
  contents q2 = contents q1 ∖ {[p]} -> p :: items (orderedItems q2) ≡ₚ items (orderedItems q1).
Proof.
  intros [H1 _] [H2 _] Hp Hc. pose proof (hw_nodup _ _ (iw_ord _ _ _ _ _ _ H1)) as N1. pose proof (hw_nodup _ _ (iw_ord _ _ _ _ _ _ H2)) as N2.
  assert (Hx : forall x, x ∈ items (orderedItems q2) <-> x ∈ items (orderedItems q1) /\ x <> p).
  { intros x. rewrite <- (elem_of_list_to_set (C := gset receiveItem)). fold (contents q2). rewrite Hc.
    unfold contents. rewrite elem_of_difference, elem_of_list_to_set, elem_of_singleton. done. }
  apply NoDup_Permutation; [|done|].
  - apply list.NoDup_cons. split; [|done]. rewrite Hx. tauto.
  - intros x. rewrite elem_of_cons, Hx. apply elem_of_list_to_set in Hp. destruct (decide (x = p)) as [->|]; tauto.
Qed.

(** Removing by id or by number: nothing there, or exactly that item leaves. *)
Definition removed s s' (x : option receiveItem) : Prop :=
  match x with None => s' = s | Some i => i :: held s' ≡ₚ held s end.

Lemma remove_held s p :
  hold_wf s -> p ∈ held s -> exists q b, TransferQueue.remove it_transfer item_cmp (receiveQueue s) (rs_pool s) p = Ret (q, b, Some p) /\
    requeued s (set_queue s q b) /\ removed s (set_queue s q b) (Some p).
Proof.
  intros [Hq Hk] Hp. pose proof Hq as [Hw _].
  destruct (remove_sim it_transfer item_cmp item_cmp_flip item_cmp_trans (receiveQueue s) (rs_pool s) p (QRemoveByMessageId (it_id p)) Hq Hk Hp)
    as (q' & b' & Er & Hq' & Hk' & _ & Hs).
  { apply (spec_id it_transfer item_cmp). by apply elem_of_list_to_set. }
  destruct (qrun_budget it_transfer item_cmp (QRemoveByMessageId (it_id p)) (receiveQueue s) (rs_pool s) q' b' [p]) as [Eb El].
  { cbn. unfold RemoveByMessageId. by rewrite (proj2 (iw_ids _ _ _ _ _ _ Hw (it_id p) p) (conj Hp eq_refl)), Er. }
  exists q', b'. split; [done|]. split; [by split|]. apply contents_perm; [done|done|by apply elem_of_list_to_set|].
  inversion Hs; subst; try done.
Qed.

Lemma removed_gone s s' p : hold_wf s -> removed s s' (Some p) -> forall i, i ∈ held s' -> it_seq i <> it_seq p /\ it_id i <> it_id p.
Proof.
  intros Hs Hr i Hi. assert (Hne : i <> p).
  { intros ->. pose proof (held_nodup s Hs) as Hnd. unfold removed in Hr. rewrite <- Hr in Hnd. apply list.NoDup_cons in Hnd. tauto. }
  unfold removed in Hr. assert (Hin : i ∈ held s) by (rewrite <- Hr; set_solver). assert (Hp : p ∈ held s) by (rewrite <- Hr; set_solver).
  split; intros Heq; apply Hne, (held_unique s); auto.
Qed.

Lemma q_remove_seq_ok s n :
  hold_wf s -> exists s' x, q_remove_seq s n = Ret (s', x) /\ requeued s s' /\ removed s s' x /\
    (forall i, x = Some i -> it_seq i = n) /\ (forall i, i ∈ held s' -> it_seq i <> n).
Proof.
  intros Hs. pose proof Hs as [[Hw _] _]. unfold q_remove_seq, RemoveBySequenceNumber.
  destruct (sequenceNumberItems (receiveQueue s) !! n) as [p|] eqn:En.
  - apply (iw_seqs _ _ _ _ _ _ Hw) in En as [Hp Hn]. destruct (remove_held s p Hs Hp) as (q & b & -> & Hq & Hr). cbn [gbind].
    eexists _, _. split; [done|]. split; [done|]. split; [done|]. split; [by intros ? [= <-]|].
    intros i Hi. rewrite <- Hn. apply (removed_gone s _ p Hs Hr i Hi).
  - cbn [gbind]. exists s, None. split; [by destruct s|]. split; [split; try done; by destruct s|]. split; [done|]. split; [done|].
    intros i Hi Hin. pose proof (proj2 (iw_seqs _ _ _ _ _ _ Hw n i) (conj Hi Hin)). congruence.
Qed.

Lemma q_remove_id_ok s id :
  hold_wf s -> exists s' x, q_remove_id s id = Ret (s', x) /\ requeued s s' /\ removed s s' x /\
    (forall i, x = Some i -> it_id i = id) /\ (forall i, i ∈ held s' -> it_id i <> id).
Proof.
  intros Hs. pose proof Hs as [[Hw _] _]. unfold q_remove_id, RemoveByMessageId.
  destruct (messageIdItems (receiveQueue s) !! id) as [p|] eqn:En.
  - apply (iw_ids _ _ _ _ _ _ Hw) in En as [Hp Hn]. destruct (remove_held s p Hs Hp) as (q & b & -> & Hq & Hr). cbn [gbind].
    eexists _, _. split; [done|]. split; [done|]. split; [done|]. split; [by intros ? [= <-]|].
    intros i Hi. rewrite <- Hn. apply (removed_gone s _ p Hs Hr i Hi).
  - cbn [gbind]. exists s, None. split; [by destruct s|]. split; [split; try done; by destruct s|]. split; [done|]. split; [done|].
    intros i Hi Hin. pose proof (proj2 (iw_ids _ _ _ _ _ _ Hw id i) (conj Hi Hin)). congruence.
Qed.

(** An item whose id, number and pointer are new joins the hold. *)
Lemma q_add_ok s i :
  hold_wf s -> (forall x, x ∈ held s -> it_ptr x <> it_ptr i /\ it_id x <> it_id i /\ it_seq x <> it_seq i) ->
  requeued s (q_add s i) /\ held (q_add s i) ≡ₚ i :: held s.
Proof.
  intros [Hq Hk] Hf. unfold q_add.
  assert (Hfr : fresh_item it_transfer (items (orderedItems (receiveQueue s))) i).
  { intros x Hx. destruct (Hf x Hx) as (H1 & H2 & H3). split; [congruence|done]. }
  destruct (Add_sim it_transfer item_cmp item_cmp_flip item_cmp_trans (receiveQueue s) (rs_pool s) i Hq Hk Hfr) as (q' & b' & Ea & Hq' & Hk' & _ & Hs).
  rewrite Ea. destruct (qrun_budget it_transfer item_cmp (QAdd i) (receiveQueue s) (rs_pool s) q' b' []) as [Eb El]; [cbn; by rewrite Ea|].
  split; [by split|]. unfold held. cbn [receiveQueue set_queue]. symmetry.
  pose proof (f_equal fst Ea) as Eq. unfold Add in Ea. destruct (update_items _ _ _ _ _ _ Ea) as (-> & _). cbn [orderedItems set_items].
  destruct (items_wf_add it_transfer item_cmp item_cmp_flip item_cmp_trans _ _ _ _ i (proj1 Hq) Hfr) as [_ Po]. by rewrite Po.
Qed.

(** ** Events

    The events the invariants follow are the jumps, the deliveries, the acks,
    the evictions, the commitments and the returned buffers; the others are
    quiet. *)
Definition quiet (e : event) : bool :=
  match e with
  | EvJump _ _ | EvReceived _ | EvAck _ | EvReturn _ | EvEvict _ _ | EvCommit _ => false
  | _ => true
  end.

Definition core s := (nextSequenceNumber s, receiveQueue s, rs_pool s, maxHeldByteCount s, committed s, rs_items s).

(** [s'] differs from [s] in its contracts, its readings and quiet events. *)
Definition quietly s s' : Prop :=
  core s' = core s /\ (rs_reads s <= rs_reads s')%nat /\ exists l, rs_log s' = rs_log s ++ l /\ Forall (fun e => quiet e = true) l.

Lemma quietly_refl s : quietly s s.
Proof. split; [done|]. split; [done|]. exists []. by rewrite app_nil_r. Qed.
Lemma quietly_trans s1 s2 s3 : quietly s1 s2 -> quietly s2 s3 -> quietly s1 s3.
Proof.
  intros (H1 & R1 & l1 & E1 & F1) (H2 & R2 & l2 & E2 & F2). split; [congruence|]. split; [lia|]. exists (l1 ++ l2).
  rewrite E2, E1, app_assoc. split; [done|]. by apply Forall_app.
Qed.
Lemma quietly_emit s e : quiet e = true -> quietly s (emit s e).
Proof. intros He. split; [done|]. split; [done|]. exists [e]. split; [done|]. by constructor. Qed.
Lemma quietly_reads s : quietly s (bump_reads s).
Proof. split; [done|]. split; [cbn; lia|]. exists []. by rewrite app_nil_r. Qed.
Lemma quietly_contracts s m c : quietly s (set_contracts s m c).
Proof. split; [done|]. split; [done|]. exists []. by rewrite app_nil_r. Qed.

(** ** Contracts *)

(** The first 2^64 ids of [NewId] are ids and increase; the open-contract limit
    is not negative; the minimum charge is a count of bytes. *)
Class EnvOk : Prop := {
  env_ids n : isId (newId n);
  env_order n m : (n < m)%nat -> Z.of_nat m < 2 ^ 64 -> Cmp (newId n) (newId m) < 0;
  env_open : 0 <= MaxOpenReceiveContract settings;
  env_min : 0 <= MinMessageByteCount settings < 2 ^ 62;
}.
Context {EO : EnvOk}.

(** A contract between deliveries: nothing is unacked, and what was acked is
    within its size. *)
Definition settled (c : sequenceContract) : Prop :=
  unackedByteCount c = 0 /\ minUpdateByteCount c = MinMessageByteCount settings /\
  (effectiveTransferByteCount c < 2 ^ 62 -> 0 <= ackedByteCount c <= Z.max 0 (effectiveTransferByteCount c)).

(** Fewer than 2^64 readings were made. *)
Definition early s : Prop := Z.of_nat (rs_reads s) <= 2 ^ 64.

Record contracts_ok s : Prop := {
  co_settled : forall id c, openReceiveContracts s !! id = Some c -> contractId c = id /\ settled c;
  co_current : forall id, receiveContract s = Some id -> is_Some (openReceiveContracts s !! id);
  co_count : early s -> Z.of_nat (size (openReceiveContracts s)) <= Z.max 1 (MaxOpenReceiveContract settings);
  co_locals : forall id c, openReceiveContracts s !! id = Some c -> exists n, (n < rs_reads s)%nat /\ localId c = newId n;
}.

Lemma contracts_quiet s s' :
  openReceiveContracts s' = openReceiveContracts s -> receiveContract s' = receiveContract s -> (rs_reads s <= rs_reads s')%nat ->
  contracts_ok s -> contracts_ok s'.
Proof.
  intros Eo Er Hr [H1 H2 H3 H4]. split; rewrite ?Eo, ?Er; try done.
  { unfold early in *. intros He. apply H3. lia. }
  intros id c Hc. destruct (H4 id c Hc) as (n & Hn & El). exists n. split; [lia|done].
Qed.

(** Closing contracts in a list, the current one excepted. *)
Lemma close_oldest_spec s l :
  quietly s (close_oldest s l) /\ receiveContract (close_oldest s l) = receiveContract s /\
  forall id, openReceiveContracts (close_oldest s l) !! id =
    if decide (id ∈ map contractId l /\ receiveContract s <> Some id) then None else openReceiveContracts s !! id.
Proof.
  unfold close_oldest. revert s. induction l as [|c l IH]; intros s; cbn [fold_left map].
  { split; [apply quietly_refl|]. split; [done|]. intros id. rewrite decide_False; [done|]. intros [[]%not_elem_of_nil _]. }
  case_bool_decide as Hc.
  - destruct (IH s) as (H1 & H2 & H3). split; [done|]. split; [done|]. intros id. rewrite H3.
    apply (f_equal (fun x => x)). destruct (decide (id ∈ map contractId l /\ _)) as [[Ha Hb]|Hn];
      [rewrite decide_True; [done|]; split; [by apply elem_of_cons; right|done]|].
    rewrite decide_False; [done|]. intros [[->|Ha]%elem_of_cons Hb]; [by apply Hb|by apply Hn].
  - match goal with |- context [fold_left _ l ?x] => destruct (IH x) as (H1 & H2 & H3); set (s1 := x) in * end.
    split; [eapply quietly_trans; [|exact H1]; eapply quietly_trans; [|apply quietly_contracts]; by apply quietly_emit|].
    split; [done|]. intros id. rewrite H3. cbn [openReceiveContracts set_contracts receiveContract emit s1].
    destruct (decide (id = contractId c)) as [->|Hne].
    + rewrite lookup_delete_eq. rewrite (decide_True (P := contractId c ∈ contractId c :: _ /\ _)); [by destruct (decide _)|].
      split; [by left|done].
    + rewrite lookup_delete_ne by done. destruct (decide (id ∈ map contractId l /\ _)) as [[Ha Hb]|Hn];
        [rewrite decide_True; [done|]; split; [by right|done]|].
      rewrite decide_False; [done|]. intros [[->|Ha]%elem_of_cons Hb]; [done|by apply Hn].
Qed.

Lemma Cmp_flip a b : Cmp b a = - Cmp a b.
Proof.
  revert b. induction a as [|x a IH]; intros [|y b]; try done. cbn [Cmp]. rewrite (IH b).
  destruct (Z.ltb_spec x y), (Z.ltb_spec y x); lia.
Qed.

#[local] Instance localId_le_total : Total localId_le.
Proof. intros a b. unfold localId_le. rewrite (Cmp_flip (localId a) (localId b)). lia. Qed.

(** The contracts of an open map, oldest first. *)
Definition by_age s : list sequenceContract := merge_sort localId_le (map snd (map_to_list (openReceiveContracts s))).

Lemma by_age_elem s c : c ∈ by_age s <-> exists id, openReceiveContracts s !! id = Some c.
Proof.
  unfold by_age. rewrite merge_sort_Permutation, list_elem_of_fmap. split.
  - intros ([id c'] & -> & Hc%elem_of_map_to_list). eauto.
  - intros [id Hc]. exists (id, c). split; [done|]. by apply elem_of_map_to_list.
Qed.

Lemma by_age_nodup s :
  (forall id c, openReceiveContracts s !! id = Some c -> contractId c = id) -> NoDup (map contractId (by_age s)).
Proof.
  intros Hid. unfold by_age. rewrite merge_sort_Permutation, map_map.
  replace (map (fun x => contractId x.2) _) with (map fst (map_to_list (openReceiveContracts s)));
    [apply NoDup_fst_map_to_list|]. apply map_ext_in. intros [id c] Hin. cbn.
  symmetry. apply Hid. by apply elem_of_map_to_list, list_elem_of_In.
Qed.

Lemma by_age_length s : length (by_age s) = size (openReceiveContracts s).
Proof. unfold by_age. rewrite merge_sort_Permutation, length_map. apply length_map_to_list. Qed.

(** The newest contract is not the oldest of two. *)
Lemma oldest_not_newest s cur c x y l :
  (forall id c, openReceiveContracts s !! id = Some c -> contractId c = id) ->
  openReceiveContracts s !! cur = Some c ->
  (forall id x, openReceiveContracts s !! id = Some x -> id <> cur -> Cmp (localId x) (localId c) < 0) ->
  by_age s = x :: y :: l -> contractId x <> cur.
Proof.
  intros Hid Hc Hnew Hl Hx. pose proof (by_age_nodup s Hid) as Hnd. rewrite Hl in Hnd. cbn in Hnd.
  apply list.NoDup_cons in Hnd as [Hnd _]. assert (Hxy : contractId x <> contractId y) by (intros Heq; apply Hnd; rewrite Heq; by left).
  assert (Hs : Sorted localId_le (by_age s)) by (apply Sorted_merge_sort, _). rewrite Hl in Hs.
  apply Sorted_inv in Hs as [_ Hs]. apply HdRel_inv in Hs. unfold localId_le in Hs.
  destruct (proj1 (by_age_elem s x)) as [ix Hix]; [rewrite Hl; by left|].
  destruct (proj1 (by_age_elem s y)) as [iy Hiy]; [rewrite Hl; by right; left|].
  pose proof (Hid _ _ Hix). pose proof (Hid _ _ Hiy). assert (x = c) as -> by congruence.
  specialize (Hnew iy y Hiy). rewrite (Cmp_flip (localId c) (localId y)) in Hnew. lia || (assert (iy <> cur) by congruence; lia).
Qed.

(** The newest contract is current and the limit is exceeded by at most one. *)
Lemma trim_contracts_ok s cur c :
  (forall id c, openReceiveContracts s !! id = Some c -> contractId c = id /\ settled c) ->
  (forall id c, openReceiveContracts s !! id = Some c -> exists n, (n < rs_reads s)%nat /\ localId c = newId n) ->
  receiveContract s = Some cur -> openReceiveContracts s !! cur = Some c ->
  (early s -> forall id x, openReceiveContracts s !! id = Some x -> id <> cur -> Cmp (localId x) (localId c) < 0) ->
  (early s -> Z.of_nat (size (openReceiveContracts s)) <= Z.max 1 (MaxOpenReceiveContract settings) + 1) ->
  exists s', trim_contracts s = Ret s' /\ quietly s s' /\ contracts_ok s'.
Proof.
  intros Hset Hloc Hcur Hc Hnew Hsz. pose proof env_open as Hmax. unfold trim_contracts. fold (by_age s).
  set (d := Z.of_nat (size (openReceiveContracts s)) - MaxOpenReceiveContract settings).
  destruct (Z.ltb_spec 0 d) as [Hd|Hd].
  2:{ exists s. split; [done|]. split; [apply quietly_refl|]. split; try done; [|intros _; unfold d in Hd; lia].
      intros id Hid. rewrite Hcur in Hid. injection Hid as <-. eauto. }
  rewrite slice_0 by (rewrite by_age_length; unfold d; lia). cbn [gbind].
  destruct (close_oldest_spec s (take (Z.to_nat d) (by_age s))) as (Hq & Er & Ho). eexists. split; [done|]. split; [done|].
  set (s' := close_oldest s _) in *.
  assert (Hsub : forall id x, openReceiveContracts s' !! id = Some x -> openReceiveContracts s !! id = Some x).
  { intros id x. rewrite Ho. by destruct (decide _). }
  assert (Hid : forall id x, openReceiveContracts s !! id = Some x -> contractId x = id) by (intros; by apply Hset).
  split; [by intros id x Hx%Hsub; apply Hset| | |].
  - intros id. rewrite Er, Hcur, Ho. intros [= <-]. rewrite decide_False by tauto. eauto.
  - intros He. assert (He0 : early s) by (unfold early in *; destruct Hq as (_ & Hrd & _); lia). specialize (Hnew He0). specialize (Hsz He0).
    destruct (Z.eq_dec (MaxOpenReceiveContract settings) 0) as [E0|E0].
    + assert (Hone : openReceiveContracts s' ⊆ {[cur := c]}).
      { apply map_subseteq_spec. intros id x Hx. pose proof (Hsub _ _ Hx) as Hx'. rewrite Ho in Hx.
        destruct (decide _) as [|Hn]; [done|]. destruct (decide (id = cur)) as [->|Hne]; [rewrite lookup_singleton_eq; congruence|].
        destruct Hn. split; [|congruence]. unfold d. rewrite E0, firstn_all2 by (rewrite by_age_length; lia).
        apply list_elem_of_fmap. exists x. split; [symmetry; by apply Hid|]. apply by_age_elem. eauto. }
      apply map_subseteq_size in Hone. rewrite map_size_singleton in Hone. lia.
    + assert (d = 1) as Ed by (unfold d in *; lia). pose proof (by_age_length s) as Hl.
      destruct (by_age s) as [|x [|y l]] eqn:Ex; [cbn in Hl; unfold d in *; lia|cbn in Hl; unfold d in *; lia|].
      pose proof (oldest_not_newest s cur c x y l Hid Hc Hnew Ex) as Hx.
      destruct (proj1 (by_age_elem s x)) as [ix Hix]; [rewrite Ex; by left|]. pose proof (Hid _ _ Hix) as Hxi. subst ix.
      assert (openReceiveContracts s' = delete (contractId x) (openReceiveContracts s)) as ->.
      { apply map_eq. intros id. rewrite Ho, Ed, Hcur. change (Z.to_nat 1) with 1%nat. cbn [take map].
        destruct (decide (id = contractId x)) as [->|Hne].
        - rewrite decide_True, lookup_delete_eq; [done|]. split; [by left|congruence].
        - rewrite decide_False, lookup_delete_ne; [done|done|]. by intros [->%list_elem_of_singleton _]. }
      rewrite map_size_delete_Some by eauto. unfold d in *. lia.
  - intros id x Hx%Hsub. destruct (Hloc id x Hx) as (n & Hn & El). exists n. split; [|done]. destruct Hq as (_ & Hr & _). lia.
Qed.

Lemma setContract_ok s next n :
  contracts_ok s -> (forall id c, openReceiveContracts s !! id = Some c -> exists k, (k < n)%nat /\ localId c = newId k) ->
  localId next = newId n -> (n < rs_reads s)%nat -> settled next ->
  exists s' r, setContract s next = Ret (s', r) /\ quietly s s' /\ contracts_ok s'.
Proof.
  intros Hs Hloc Hn Hr Hset. pose proof Hs as [H1 H2 H3 H4]. unfold setContract, expired_now. destruct (expired next _).
  { eexists _, _. split; [done|]. split; [apply quietly_reads|]. by apply (contracts_quiet s); [..|cbn; lia|]. }
  change (receiveContract (bump_reads s)) with (receiveContract s).
  change (openReceiveContracts (bump_reads s)) with (openReceiveContracts s).
  assert (Hok2 : contracts_ok (bump_reads (bump_reads s))) by (by apply (contracts_quiet s); [..|cbn; lia|]).
  assert (Hq2 : quietly s (bump_reads (bump_reads s))) by (eapply quietly_trans; apply quietly_reads).
  case_bool_decide as Hcur.
  { destruct (H2 _ Hcur) as [c Hc]. rewrite Hc. eexists _, _. done. }
  destruct (openReceiveContracts s !! contractId next) as [c|] eqn:Ec.
  { destruct (expired c _); [by eexists _, _|]. eexists _, _. split; [done|]. split; [eapply quietly_trans; [exact Hq2|apply quietly_contracts]|].
    destruct Hok2 as [A1 A2 A3 A4]. split; try done. intros id [= <-]. cbn. rewrite Ec. eauto. }
  match goal with |- context [trim_contracts ?x] => set (s1 := x) end.
  assert (Hq1 : quietly s s1).
  { eapply quietly_trans; [apply quietly_reads|]. eapply quietly_trans; [apply quietly_contracts|]. by apply quietly_emit. }
  destruct (trim_contracts_ok s1 (contractId next) next) as (s' & Et & Hq & Hok).
  - intros id c. cbn. rewrite lookup_insert_Some. intros [[<- <-]|[_ Hc]]; [done|by apply H1].
  - intros id c. cbn. rewrite lookup_insert_Some. intros [[<- <-]|[_ Hc]]; [by exists n; split; [lia|]|].
    destruct (H4 _ _ Hc) as (k & Hk & El). exists k. split; [lia|done].
  - done.
  - cbn. apply lookup_insert_eq.
  - intros He id c. cbn. rewrite lookup_insert_Some. intros [[<- <-]|[_ Hc]] Hne; [done|].
    destruct (Hloc _ _ Hc) as (k & Hk & El). rewrite El, Hn. apply env_order; [done|]. unfold early in He. cbn in He. lia.
  - intros He. cbn. rewrite map_size_insert_None by done.
    assert (Hes : early s) by (unfold early in *; cbn in He; lia). specialize (H3 Hes). lia.
  - rewrite Et. cbn [gbind]. eexists _, _. split; [done|]. split; [by eapply quietly_trans|done].
Qed.

Lemma new_contract_settled ct f lid c :
  newSequenceContract unmarshalStored ct (MinMessageByteCount settings) f lid = inl c -> settled c /\ localId c = lid.
Proof.
  unfold newSequenceContract. destruct (unmarshalStored _) as [st|]; [|done]. destruct (IdFromBytes _); [|done].
  destruct (TransferPathFromBytes _ _ _); [|done]. intros [= <-]. split; [|done]. split; [done|]. split; [done|]. cbn. lia.
Qed.

Lemma registerContracts_ok s i :
  contracts_ok s -> exists s' r, registerContracts s i = Ret (s', r) /\ quietly s s' /\ contracts_ok s'.
Proof.
  intros Hs. unfold registerContracts. destruct (it_contractFrame i) as [f|]; [|by eexists _, _; split; [done|]; split; [apply quietly_refl|]].
  assert (Hbad : forall e, quiet e = true -> quietly s (emit s e) /\ contracts_ok (emit s e)).
  { intros e He. split; [by apply quietly_emit|by apply (contracts_quiet s)]. }
  destruct (unmarshalContract _) as [ct|]; [|by eexists _, _; split; [done|]; apply Hbad].
  destruct (Verify _ _ _ _); cbn [negb]; [|by eexists _, _; split; [done|]; apply Hbad].
  destruct (newSequenceContract _ _ _ _ _) as [next|e] eqn:En; [|by eexists _, _; split; [done|]; apply Hbad].
  destruct (new_contract_settled _ _ _ _ En) as [Hset Hl]. unfold expired_now.
  assert (Hb : contracts_ok (bump_reads s)) by (by apply (contracts_quiet s); [..|cbn; lia|]).
  destruct (expired next _); [by eexists _, _; split; [done|]; split; [apply quietly_reads|]|].
  destruct (setContract_ok (bump_reads s) next (rs_reads s) Hb) as (s' & r & -> & Hq & Hok); [apply Hs|done|cbn; lia|done|].
  assert (Hq' : quietly s s') by (eapply quietly_trans; [apply quietly_reads|done]). cbn [gbind].
  destruct r as [e|]; [|by eexists _, _].
  assert (Hbad' : quietly s (emit s' EvBadContract) /\ contracts_ok (emit s' EvBadContract)).
  { split; [eapply quietly_trans; [exact Hq'|by apply quietly_emit]|by apply (contracts_quiet s')]. }
  destruct e; by eexists _, _.
Qed.

(** ** Charging a delivery *)

Definition in64 (n : Z) : Prop := 0 <= n < 2 ^ 62.

(** The contract of an item about to be delivered holds exactly its charge. *)
Definition charged s i (cid : option bytes) : Prop :=
  match cid with
  | None => contracts_ok s
  | Some id => exists c s0, contracts_ok s0 /\ openReceiveContracts s0 !! id = Some c /\
      s = set_contracts s (<[id := set_counts c (ackedByteCount c) (effective c (it_bytes i))]> (openReceiveContracts s0)) (receiveContract s0) /\
      (rs_reads s0 <= rs_reads s)%nat /\
      effectiveTransferByteCount c >= i64 (i64 (ackedByteCount c + 0) + effective c (it_bytes i))
  end.

Lemma effective_range c i : settled c -> in64 (it_bytes i) -> 0 <= effective c (it_bytes i) < 2 ^ 62.
Proof.
  intros (_ & Hm & _) Hi. unfold effective. rewrite Hm. pose proof env_min. unfold in64 in *. lia.
Qed.

(** A debit that fits, or nothing. *)
Lemma debit_ok s id c i :
  contracts_ok s -> in64 (it_bytes i) -> openReceiveContracts s !! id = Some c ->
  let '(s', ok) := debit s id c (it_bytes i) in
  quietly s s' /\ if ok then charged s' i (Some id) else contracts_ok s'.
Proof.
  intros Hs Hi Hc. unfold debit, update. pose proof Hs as [H1 H2 H3 H4]. destruct (H1 _ _ Hc) as [Hid Hset].
  pose proof (effective_range c i Hset Hi) as He. destruct Hset as (Hu & Hm & Ha).
  assert (Hno : contracts_ok (set_contracts (bump_reads s) (<[id := c]> (openReceiveContracts s)) (receiveContract s))).
  { apply (contracts_quiet s); cbn; [|done|lia|done]. by apply insert_id. }
  assert (Hq : forall m, quietly s (set_contracts (bump_reads s) m (receiveContract s))).
  { intros m. eapply quietly_trans; [apply quietly_reads|apply quietly_contracts]. }
  destruct (expired c _); [by split|].
  rewrite Hu. destruct (Z.ltb_spec (effectiveTransferByteCount c) (i64 (i64 (ackedByteCount c + 0) + effective c (it_bytes i)))); [by split|].
  split; [done|]. exists c, s. split; [done|]. split; [done|]. rewrite Z.add_0_l, i64_small by (unfold MaxInt64; change (2 ^ 62) with 4611686018427387904 in *; lia).
  split; [done|]. split; [cbn; lia|lia].
Qed.

(** An item with a contract id of its own comes from a source that must use
    contracts. *)
Definition must_charge (cid : option bytes) : Prop := cid = None \/ forall n, ReceiveNoContract n = false.

Lemma updateContract_ok s i cid :
  contracts_ok s -> in64 (it_bytes i) -> must_charge cid ->
  let '(s', ok, cid') := updateContract s i cid in
  quietly s s' /\ if ok then charged s' i cid' else contracts_ok s'.
Proof.
  intros Hs Hi Hm. unfold updateContract, expired_now.
  assert (Hb : contracts_ok (bump_reads s)) by (by apply (contracts_quiet s); [..|cbn; lia|]).
  assert (Hfree : forall s', quietly s s' -> contracts_ok s' -> let '(s'', ok, cid') := (s', ReceiveNoContract (rs_reads s'), cid) in
    quietly s s'' /\ if ok then charged s'' i cid' else contracts_ok s'').
  { intros s' Hq Hok. split; [done|]. destruct Hm as [->|Hm]; [by destruct (ReceiveNoContract _)|by rewrite Hm]. }
  assert (Hgo : forall id, let '(s', ok, cid') := match
    match openReceiveContracts s !! id with
    | None => inl s
    | Some c => if expired c (now_ms s) then inr (bump_reads s, false, cid)
                else let '(s', ok) := debit (bump_reads s) id c (it_bytes i) in if ok then inr (s', true, Some id) else inl s'
    end with inl s' => (s', ReceiveNoContract (rs_reads s'), cid) | inr r => r end in
    quietly s s' /\ if ok then charged s' i cid' else contracts_ok s').
  { intros id. destruct (openReceiveContracts s !! id) as [c|] eqn:Ec; [|apply Hfree; [apply quietly_refl|done]].
    destruct (expired c _); [split; [apply quietly_reads|done]|].
    pose proof (debit_ok (bump_reads s) id c i Hb Hi Ec) as Hd. destruct (debit _ _ _ _) as [s' ok]. destruct Hd as [Hq Hd].
    assert (Hq' : quietly s s') by (eapply quietly_trans; [apply quietly_reads|done]).
    destruct ok; [by split|by apply Hfree]. }
  destruct cid as [id|]; [apply Hgo|]. destruct (receiveContract s) as [id|]; [apply Hgo|]. apply Hfree; [apply quietly_refl|done].
Qed.

Lemma settle_contract_ok s i cid :
  charged s i cid -> in64 (it_bytes i) -> exists s' m, settle_contract s i cid = Ret (s', m) /\ quietly s s' /\ contracts_ok s'.
Proof.
  intros Hc Hi. unfold settle_contract. destruct cid as [id|]; [|by eexists _, _; split; [done|]; split; [apply quietly_refl|]].
  destruct Hc as (c & s0 & Hs0 & Hc & Hs & Hr & Hfit). pose proof Hs0 as [H1 H2 H3 H4]. destruct (H1 _ _ Hc) as [Hid Hset].
  pose proof (effective_range c i Hset Hi) as He. destruct Hset as (Hu & Hm & Ha).
  assert (Eo : openReceiveContracts s = <[id:=set_counts c (ackedByteCount c) (effective c (it_bytes i))]> (openReceiveContracts s0)) by (by rewrite Hs).
  assert (Er : receiveContract s = receiveContract s0) by (by rewrite Hs). rewrite Eo, lookup_insert_eq. unfold ack.
  cbn [unackedByteCount set_counts ackedByteCount]. change (effective (set_counts _ _ _)) with (effective c).
  rewrite (proj2 (Z.ltb_ge _ _)) by lia. cbn [gbind]. eexists _, _. split; [done|].
  split; [eapply quietly_trans; [apply quietly_contracts|by apply quietly_emit]|].
  rewrite Z.sub_diag, insert_insert_eq. split; cbn.
  - intros id' c'. rewrite lookup_insert_Some. intros [[<- <-]|[_ Hc']]; [|by apply H1]. split; [done|]. split; [done|]. split; [done|].
    cbn. intros Hlt. specialize (Ha Hlt). unfold MaxInt64 in *. change (2 ^ 62) with 4611686018427387904 in *.
    rewrite (i64_small (ackedByteCount c + 0)) in Hfit by (unfold MaxInt64; lia).
    rewrite i64_small in * by (unfold MaxInt64; lia). lia.
  - rewrite Er. intros id' Hid'. destruct (decide (id = id')) as [->|]; [rewrite lookup_insert_eq; eauto|rewrite lookup_insert_ne by done; by apply H2].
  - intros He'. rewrite map_size_insert_Some by eauto. apply H3. unfold early in *. cbn in He'. lia.
  - intros id' c'. rewrite lookup_insert_Some. intros [[<- <-]|[_ Hc']];
      [destruct (H4 _ _ Hc) as (n & Hn & El)|destruct (H4 _ _ Hc') as (n & Hn & El)]; exists n; (split; [lia|done]).
Qed.

Lemma controls_quiet l s :
  let '(s', l') := deliverEncryptedControlFrames s l in
  quietly s s' /\ openReceiveContracts s' = openReceiveContracts s /\ receiveContract s' = receiveContract s.
Proof.
  revert s. induction l as [|f l IH]; intros s; cbn [deliverEncryptedControlFrames]; [by split; [apply quietly_refl|]|].
  destruct (negb _); [specialize (IH s); by destruct (deliverEncryptedControlFrames s l)|].
  assert (Hsame : forall s1, quietly s s1 -> openReceiveContracts s1 = openReceiveContracts s -> receiveContract s1 = receiveContract s ->
    let '(s', _) := deliverEncryptedControlFrames s1 l in
    quietly s s' /\ openReceiveContracts s' = openReceiveContracts s /\ receiveContract s' = receiveContract s).
  { intros s1 Hq Ho Hr. specialize (IH s1). destruct (deliverEncryptedControlFrames s1 l) as [s' l']. destruct IH as (Hq' & Ho' & Hr').
    split; [by eapply quietly_trans|]. split; congruence. }
  destruct (unmarshalControl _) as [ec|]; [|apply Hsame; [apply quietly_refl|done|done]].
  destruct (sequenceTlsRoleFromProtobuf _) as [r []]; apply Hsame; try done; [by apply quietly_emit|apply quietly_refl].
Qed.

Lemma application_frames_quiet s i :
  let '(s', l') := application_frames s i in
  quietly s s' /\ openReceiveContracts s' = openReceiveContracts s /\ receiveContract s' = receiveContract s.
Proof.
  unfold application_frames. destruct session as [req|]; [|by split; [apply quietly_refl|]].
  pose proof (controls_quiet (it_frames i) s) as Hc. destruct (deliverEncryptedControlFrames _ _) as [s' [|f l]]; [done|].
  destruct (_ && _); [|done]. destruct Hc as (Hq & Ho & Hr). split; [|by split].
  eapply quietly_trans; [exact Hq|]. eapply quietly_trans; by apply quietly_emit.
Qed.

(** The acknowledgement of a delivered item. *)
Definition head_acks i : list event :=
  if it_ack i then [EvAck (SequenceAck (it_seq i) (it_id i) false (it_tag i) (it_unwrapped i))] else [].

Lemma receiveHead_ok s i cid :
  charged s i cid -> in64 (it_bytes i) ->
  exists s' l, receiveHead s i cid = Ret s' /\ core s' = core s /\ contracts_ok s' /\ Forall (fun e => quiet e = true) l /\
    rs_log s' = rs_log s ++ EvReceived i :: l ++ head_acks i ++ [EvReturn (it_buffer i)].
Proof.
  intros Hc Hi. unfold receiveHead. assert (Hc' : charged (emit s (EvReceived i)) i cid).
  { destruct cid as [id|]; [|by apply (contracts_quiet s)]. destruct Hc as (c & s0 & H0 & H1 & H2 & H3).
    exists c, s0. split; [done|]. split; [done|]. split; [|done]. rewrite H2. done. }
  destruct (settle_contract_ok _ i cid Hc' Hi) as (s1 & m & -> & Hq1 & Hok1). cbn [gbind].
  pose proof (application_frames_quiet s1 i) as Hf. destruct (application_frames s1 i) as [s2 fl]. destruct Hf as (Hq2 & Ho2 & Hr2).
  set (s3 := match fl with [] => s2 | _ => _ end).
  assert (Hq3 : quietly (emit s (EvReceived i)) s3 /\ contracts_ok s3).
  { assert (Hok2 : contracts_ok s2) by (apply (contracts_quiet s1); try done; apply Hq2).
    pose proof (quietly_trans _ _ _ Hq1 Hq2) as Hq12. unfold s3. destruct fl as [|f fl]; [done|].
    split; [eapply quietly_trans; [exact Hq12|by apply quietly_emit]|by apply (contracts_quiet s2)]. }
  destruct Hq3 as [(Hc3 & _ & l & El & Hl) Hok3]. eexists _, l. split; [done|].
  assert (Hlog : rs_log s3 = rs_log s ++ EvReceived i :: l) by (rewrite El; cbn; by rewrite <- app_assoc).
  unfold head_acks. destruct (it_ack i); cbn; (split; [exact Hc3|]; split; [by apply (contracts_quiet s3)|]; split; [done|]);
    rewrite Hlog; repeat (rewrite <- ?app_assoc; cbn [app]); done.
Qed.

(** ** What a log says *)

(** The delivery point a log moves to: a delivery is of the item at the point,
    a jump starts from it and goes forward. *)
Definition replay_step (p : option Z) (e : event) : option Z :=
  match p with
  | None => None
  | Some p =>
      match e with
      | EvJump a b => if (a =? p) && (p <? b) then Some b else None
      | EvReceived i => if it_ack i then if it_seq i =? p then Some (p + 1) else None else Some p
      | _ => Some p
      end
  end.
Definition replay_from (p : Z) (l : list event) : option Z := fold_left replay_step l (Some p).

(** The numbered messages a log took in at the delivery point, the acks and the
    returned buffers, and every message taken in, unsequenced ones too. What
    the application is handed of them is in ReceiveTrace.v. *)
Definition accepted (l : list event) : list receiveItem :=
  omap (fun e => match e with EvReceived i => if it_ack i then Some i else None | _ => None end) l.
Definition acks (l : list event) : list sequenceAck := omap (fun e => match e with EvAck a => Some a | _ => None end) l.
Definition returned (l : list event) : list nat := omap (fun e => match e with EvReturn b => Some b | _ => None end) l.
Definition heads (l : list event) : list receiveItem := omap (fun e => match e with EvReceived i => Some i | _ => None end) l.
Definition jumped (l : list event) : bool := existsb (fun e => match e with EvJump _ _ => true | _ => false end) l.

Lemma replay_app p l k q r : replay_from p l = Some q -> replay_from q k = Some r -> replay_from p (l ++ k) = Some r.
Proof. unfold replay_from. intros Hl Hk. by rewrite fold_left_app, Hl. Qed.
Lemma replay_quiet p l : Forall (fun e => quiet e = true) l -> replay_from p l = Some p.
Proof. induction 1 as [|e l He Hl IH]; [done|]. unfold replay_from in *. cbn. by destruct e. Qed.
Lemma acks_app l k : acks (l ++ k) = acks l ++ acks k.
Proof. apply omap_app. Qed.
Lemma returned_app l k : returned (l ++ k) = returned l ++ returned k.
Proof. apply omap_app. Qed.
Lemma heads_app l k : heads (l ++ k) = heads l ++ heads k.
Proof. apply omap_app. Qed.
Lemma jumped_app l k : jumped (l ++ k) = jumped l || jumped k.
Proof. apply existsb_app. Qed.
Lemma acks_quiet l : Forall (fun e => quiet e = true) l -> acks l = [].
Proof. induction 1 as [|e l He Hl IH]; [done|]. by destruct e. Qed.
Lemma returned_quiet l : Forall (fun e => quiet e = true) l -> returned l = [].
Proof. induction 1 as [|e l He Hl IH]; [done|]. by destruct e. Qed.
Lemma heads_quiet l : Forall (fun e => quiet e = true) l -> heads l = [].
Proof. induction 1 as [|e l He Hl IH]; [done|]. by destruct e. Qed.
Lemma jumped_quiet l : Forall (fun e => quiet e = true) l -> jumped l = false.
Proof. induction 1 as [|e l He Hl IH]; [done|]. by destruct e. Qed.

(** ** The invariant

    [pos] is the delivery point of the log, [extra] the buffers that are
    neither held nor given back. *)

Definition max_seq : Z := 18446744073709551615.

Definition item_ok s i : Prop :=
  (it_ptr i < rs_items s)%nat /\ in64 (it_bytes i) /\ 0 <= it_seq i < max_seq /\ it_ack i = true.

(** An item is what a pack carried. *)
Definition from_pack (p : ReceivePack) i : Prop :=
  it_seq i = FrameCodec.SequenceNumber (rp_Pack p) /\ it_frames i = Frames (rp_Pack p) /\
  it_id i = bval (FrameCodec.MessageId (rp_Pack p)) /\ it_bytes i = rp_MessageByteCount p /\
  it_buffer i = rp_TransferFrameBytes p /\ it_ack i = negb (Nack (rp_Pack p)).
Definition from (packs : list ReceivePack) i : Prop := exists p, p ∈ packs /\ from_pack p i.

(** A recorded ack names a pack; a cumulative one is below the delivery point. *)
Definition ack_names (packs : list ReceivePack) (n : Z) (id : bytes) : Prop :=
  exists p, p ∈ packs /\ n = FrameCodec.SequenceNumber (rp_Pack p) /\ id = bval (FrameCodec.MessageId (rp_Pack p)).
Definition ack_true (packs : list ReceivePack) (pos : Z) (a : sequenceAck) : Prop :=
  (ak_selective a = false -> ak_sequenceNumber a < pos) /\ ack_names packs (ak_sequenceNumber a) (ak_messageId a).

Lemma from_names packs i : from packs i -> ack_names packs (it_seq i) (it_id i).
Proof. intros (p & Hp & H1 & _ & H2 & _). by exists p. Qed.

(** Pointers are never reused. *)
Definition ptrs_ok s : Prop := NoDup (map it_ptr (held s)).

Record seq_inv s (packs : list ReceivePack) (pos : Z) (extra : list nat) : Prop := {
  si_hold : hold_wf s;
  si_ptrs : ptrs_ok s;
  si_contracts : contracts_ok s;
  si_items : Forall (item_ok s) (held s);
  si_from : Forall (from packs) (held s ++ heads (rs_log s));
  si_pos : 0 <= pos <= max_seq;
  si_next : 0 <= nextSequenceNumber s <= max_seq;
  si_replay : replay_from 0 (rs_log s) = Some pos;
  si_buffers : map it_buffer (held s) ++ returned (rs_log s) ++ extra ≡ₚ map rp_TransferFrameBytes packs;
  si_acks : Forall (ack_true packs pos) (acks (rs_log s));
}.

(** The hold is untouched and the log grows. *)
Lemma inv_log s s' packs pos pos' extra extra' l :
  seq_inv s packs pos extra -> receiveQueue s' = receiveQueue s -> rs_pool s' = rs_pool s -> (rs_items s <= rs_items s')%nat ->
  contracts_ok s' -> rs_log s' = rs_log s ++ l -> replay_from pos l = Some pos' -> pos <= pos' <= max_seq ->
  0 <= nextSequenceNumber s' <= max_seq -> returned l ++ extra' ≡ₚ extra ->
  Forall (ack_true packs pos') (acks l) -> Forall (from packs) (heads l) ->
  seq_inv s' packs pos' extra'.
Proof.
  intros [H1 Hptr H2 H3 Hfr H4 H5 H6 H7 H8] Eq Ep Ei Hc El Hr Hp Hn Hx Ha Hh.
  assert (Eh : held s' = held s) by (unfold held; by rewrite Eq). split; try done; rewrite ?El, ?Eh.
  - unfold hold_wf. by rewrite Eq, Ep.
  - unfold ptrs_ok. by rewrite Eh.
  - eapply Forall_impl; [|exact H3]. intros i (A1 & A2). split; [lia|done].
  - rewrite heads_app, app_assoc. by apply Forall_app.
  - lia.
  - by eapply replay_app.
  - rewrite returned_app, <- app_assoc, Hx. done.
  - rewrite acks_app. apply Forall_app. split; [|done]. eapply Forall_impl; [|exact H8]. intros a [Hl Hn']. split; [intros Hs; specialize (Hl Hs); lia|done].
Qed.

Lemma inv_quiet s s' packs pos extra : seq_inv s packs pos extra -> quietly s s' -> contracts_ok s' -> seq_inv s' packs pos extra.
Proof.
  intros Hi (Hc & Hr & l & El & Hl) Hok. unfold core in Hc. injection Hc as E1 E2 E3 _ _ E6.
  eapply (inv_log s s' packs pos pos extra extra l Hi); try done.
  - by rewrite E6.
  - by apply replay_quiet.
  - pose proof (si_pos _ _ _ _ Hi). lia.
  - rewrite E1. apply Hi.
  - by rewrite (returned_quiet l Hl).
  - by rewrite (acks_quiet l Hl).
  - by rewrite (heads_quiet l Hl).
Qed.

Lemma perm_mid {A} (x : A) (a b c : list A) : a ++ b ++ x :: c ≡ₚ x :: a ++ b ++ c.
Proof. rewrite !app_assoc. symmetry. apply Permutation_middle. Qed.

(** An item leaves the hold: its buffer is in hand. *)
Lemma inv_remove s s' packs pos extra x :
  seq_inv s packs pos extra -> requeued s s' -> removed s s' x ->
  seq_inv s' packs pos (match x with Some i => it_buffer i :: extra | None => extra end) /\
  (forall i, x = Some i -> item_ok s' i /\ from packs i).
Proof.
  intros Hinv [Hw Hb Hl Hs] Hr. destruct x as [i|]; [|by rewrite Hr]. pose proof Hinv as [H1 Hptr H2 H3 Hfr H4 H5 H6 H7 H8].
  rewrite Hs. unfold removed in Hr. rewrite <- Hr in H3, H7, Hfr. apply Forall_cons_1 in H3 as [Hi H3]. apply Forall_cons_1 in Hfr as [Hif Hfr].
  split; [|by intros ? [= <-]; split]. assert (Ew : held (set_queue s (receiveQueue s') (rs_pool s')) = held s') by done.
  split; try done; rewrite ?Ew; [|by apply (contracts_quiet s)|].
  { unfold ptrs_ok in *. rewrite <- Hr in Hptr. by apply list.NoDup_cons in Hptr as [_ Hptr]. }
  rewrite <- H7. apply perm_mid.
Qed.

(** The item in hand joins the hold. *)
Lemma inv_add s packs pos extra i :
  seq_inv s packs pos (it_buffer i :: extra) -> item_ok s i -> from packs i ->
  (forall x, x ∈ held s -> it_ptr x <> it_ptr i /\ it_id x <> it_id i /\ it_seq x <> it_seq i) ->
  seq_inv (q_add s i) packs pos extra /\ requeued s (q_add s i) /\ held (q_add s i) ≡ₚ i :: held s.
Proof.
  intros Hinv Hi Hif Hf. pose proof Hinv as [H1 Hptr H2 H3 Hfr H4 H5 H6 H7 H8]. destruct (q_add_ok s i H1 Hf) as [Hq Hp].
  split; [|done]. destruct Hq as [Hw _ _ Hs]. rewrite Hs in *. set (q := receiveQueue (q_add s i)) in *. set (b := rs_pool (q_add s i)) in *.
  split; try done; [|by apply (contracts_quiet s)| | |].
  - unfold ptrs_ok in *. rewrite Hp. cbn. apply list.NoDup_cons. split; [|done].
    intros (x & Ex & Hx)%list_elem_of_fmap. by destruct (Hf x Hx) as [? _].
  - rewrite Hp. by constructor.
  - rewrite Hp. by constructor.
  - rewrite Hp, <- H7. symmetry. apply perm_mid.
Qed.

(** ** Deliveries *)

Lemma set_next_same s : set_next s (nextSequenceNumber s) = s.
Proof. by destruct s. Qed.

Lemma charged_next s i cid n : charged s i cid -> charged (set_next s n) i cid.
Proof.
  destruct cid as [id|]; [|by apply contracts_quiet]. intros (c & s0 & H0 & H1 & H2 & H3). exists c, s0.
  split; [done|]. split; [done|]. split; [|done]. rewrite H2. done.
Qed.

(** What a step of the delivery leaves alone. *)
Definition same_hold s s' : Prop :=
  receiveQueue s' = receiveQueue s /\ rs_pool s' = rs_pool s /\ committed s' = committed s /\
  maxHeldByteCount s' = maxHeldByteCount s /\ rs_items s' = rs_items s /\ jumped (rs_log s') = jumped (rs_log s).

Lemma same_hold_trans s1 s2 s3 : same_hold s1 s2 -> same_hold s2 s3 -> same_hold s1 s3.
Proof. unfold same_hold. intros (-> & -> & -> & -> & -> & ->) (-> & -> & -> & -> & -> & ->). done. Qed.

Lemma quietly_same s s' : quietly s s' -> same_hold s s' /\ nextSequenceNumber s' = nextSequenceNumber s.
Proof.
  intros (Hc & _ & l & El & Hl). unfold core in Hc. injection Hc as E1 E2 E3 E4 E5 E6. split; [|done].
  repeat (split; [done|]). rewrite El, jumped_app, (jumped_quiet l Hl), orb_false_r. done.
Qed.

Lemma receiveHead_inv s s1 i cid packs pos extra n :
  seq_inv s packs pos (it_buffer i :: extra) -> quietly s s1 -> charged s1 i cid -> in64 (it_bytes i) ->
  0 <= n <= max_seq -> (it_ack i = true -> it_seq i = pos /\ pos < max_seq) -> from packs i ->
  exists s2, receiveHead (set_next s1 n) i cid = Ret s2 /\ nextSequenceNumber s2 = n /\ same_hold s s2 /\
    seq_inv s2 packs (if it_ack i then pos + 1 else pos) extra.
Proof.
  intros Hinv Hq Hc Hb Hn Ha Hif.
  destruct (receiveHead_ok (set_next s1 n) i cid (charged_next _ _ _ _ Hc) Hb) as (s2 & l & E2 & Hc2 & Hok2 & Hl & El).
  exists s2. split; [done|]. destruct Hq as (Hcore & Hr & k & Ek & Hk). unfold core in Hc2, Hcore. injection Hcore as A1 A2 A3 A4 A5 A6.
  cbn in Hc2. injection Hc2 as C1 C2 C3 C4 C5 C6.
  assert (Elog : rs_log s2 = rs_log s ++ k ++ EvReceived i :: l ++ head_acks i ++ [EvReturn (it_buffer i)]).
  { rewrite El. cbn [rs_log set_next]. rewrite Ek. by rewrite <- app_assoc. }
  assert (Hrep : replay_from pos (k ++ EvReceived i :: l ++ head_acks i ++ [EvReturn (it_buffer i)]) = Some (if it_ack i then pos + 1 else pos)).
  { eapply replay_app; [by apply replay_quiet|]. rewrite (app_assoc l).
    change (EvReceived i :: ?x) with ([EvReceived i] ++ x). eapply replay_app.
    - unfold replay_from. cbn. instantiate (1 := if it_ack i then pos + 1 else pos). destruct (it_ack i); [|done].
      destruct Ha as [-> _]; [done|]. by rewrite Z.eqb_refl.
    - eapply replay_app; [eapply replay_app; [by apply replay_quiet|]|done]. unfold head_acks. by destruct (it_ack i). }
  split; [done|]. split.
  - split; [congruence|]. repeat (split; [congruence|]). rewrite Elog, !jumped_app. cbn [jumped existsb orb app].
    rewrite (jumped_quiet k Hk). fold (jumped (l ++ head_acks i ++ [EvReturn (it_buffer i)])). rewrite !jumped_app, (jumped_quiet l Hl).
    unfold head_acks. destruct (it_ack i); cbn; by rewrite orb_false_r.
  - eapply (inv_log s s2 packs pos _ (it_buffer i :: extra) extra _ Hinv); [congruence|congruence|rewrite C6, A6; done|done|exact Elog|exact Hrep| | | | |].
    + pose proof (si_pos _ _ _ _ Hinv). destruct (it_ack i); [destruct Ha; [done|]|]; lia.
    + rewrite C1. lia.
    + rewrite returned_app, (returned_quiet k Hk). change (EvReceived i :: ?x) with ([EvReceived i] ++ x).
      rewrite !returned_app, (returned_quiet l Hl). unfold head_acks. by destruct (it_ack i).
    + rewrite acks_app, (acks_quiet k Hk). change (EvReceived i :: ?x) with ([EvReceived i] ++ x).
      rewrite !acks_app, (acks_quiet l Hl). unfold head_acks. destruct (it_ack i); cbn; [|constructor].
      constructor; [|constructor]. split; [|by apply from_names]. cbn. intros _. destruct Ha as [-> _]; [done|lia].
    + rewrite heads_app, (heads_quiet k Hk). change (EvReceived i :: ?x) with ([EvReceived i] ++ x).
      rewrite !heads_app, (heads_quiet l Hl). unfold head_acks. destruct (it_ack i); cbn; by constructor.
Qed.

(** An ack of something already passed. *)
Lemma past_ack_inv s packs pos extra n id tag u :
  seq_inv s packs pos extra -> n < pos -> ack_names packs n id -> seq_inv (sendAck s n id false tag u) packs pos extra /\ same_hold s (sendAck s n id false tag u).
Proof.
  intros Hinv Hn Hnm. split.
  - eapply (inv_log s _ packs pos pos extra extra [EvAck (SequenceAck n id false tag u)] Hinv); try done.
    + apply (contracts_quiet s); try done. apply Hinv.
    + pose proof (si_pos _ _ _ _ Hinv). lia.
    + apply Hinv.
    + cbn. constructor; [|constructor]. done.
  - unfold same_hold. repeat (split; [done|]). cbn. rewrite jumped_app. cbn. by rewrite orb_false_r.
Qed.

(** ** The running sequence *)

Definition running s (packs : list ReceivePack) : Prop :=
  exists extra, seq_inv s packs (nextSequenceNumber s) extra /\
    (jumped (rs_log s) = false -> extra = [] /\ Forall (fun i => nextSequenceNumber s <= it_seq i) (held s)).

Definition ended s (packs : list ReceivePack) : Prop := exists pos extra, seq_inv s packs pos extra.

Lemma running_ended s packs : running s packs -> ended s packs.
Proof. intros (extra & Hs & _). by exists (nextSequenceNumber s), extra. Qed.

(** The first item of the hold comes out. *)
Lemma q_remove_held s i :
  hold_wf s -> i ∈ held s -> exists s', q_remove_id s (it_id i) = Ret (s', Some i) /\ requeued s s' /\ removed s s' (Some i).
Proof.
  intros Hs Hi. destruct (q_remove_id_ok s (it_id i) Hs) as (s' & x & Eq & Hq & Hr & Hx & Hgone).
  destruct x as [j|]; [|cbn in Hr; subst s'; by destruct (Hgone i Hi)].
  assert (Hj : j ∈ held s) by (unfold removed in Hr; rewrite <- Hr; set_solver).
  assert (j = i) as -> by (apply (held_unique s); auto). eauto.
Qed.

Lemma peek_first s i : hold_wf s -> PeekFirst (receiveQueue s) = Some i -> i ∈ held s /\ forall x, x ∈ held s -> it_seq i <= it_seq x.
Proof.
  intros [Hq _] Hp. destruct (queue_reads it_transfer item_cmp item_cmp_flip item_cmp_trans _ Hq) as (Hf & _).
  destruct (Hf i Hp) as [Hi Hx]. unfold contents in *. split; [by apply elem_of_list_to_set in Hi|].
  intros x Hxin. apply item_cmp_le, Hx. by apply elem_of_list_to_set.
Qed.
Lemma peek_last s i : hold_wf s -> PeekLast (receiveQueue s) = Some i -> i ∈ held s /\ forall x, x ∈ held s -> it_seq x <= it_seq i.
Proof.
  intros [Hq _] Hp. destruct (queue_reads it_transfer item_cmp item_cmp_flip item_cmp_trans _ Hq) as (_ & Hf & _).
  destruct (Hf i Hp) as [Hi Hx]. unfold contents in *. split; [by apply elem_of_list_to_set in Hi|].
  intros x Hxin. apply item_cmp_le, Hx. by apply elem_of_list_to_set.
Qed.

(** The outcome of a drain or a turn. *)
Definition outcome s (packs : list ReceivePack) (goes_on : bool) : Prop := if goes_on then running s packs else ended s packs.

Lemma same_hold_held s s' : same_hold s s' -> held s' = held s.
Proof. unfold held. by intros (-> & _). Qed.

Lemma removed_length s s' i : removed s s' (Some i) -> length (held s) = S (length (held s')).
Proof. unfold removed. intros <-. done. Qed.

Lemma removed_elem s s' i x : removed s s' (Some i) -> x ∈ held s' -> x ∈ held s.
Proof. unfold removed. intros <- Hx. by right. Qed.

(** The head item is out of the hold: it is delivered, or the sequence ends. *)
Lemma deliver_next s i packs extra :
  seq_inv s packs (nextSequenceNumber s) (it_buffer i :: extra) -> item_ok s i -> from packs i -> it_seq i = nextSequenceNumber s ->
  exists s1 r, registerContracts s i = Ret (s1, r) /\
  match r with
  | Some _ => ended s1 packs
  | None =>
      let '(s2, ok, cid) := updateContract s1 i None in
      if ok then
        exists s3, receiveHead (set_next s2 (u64 (nextSequenceNumber s2 + 1))) i cid = Ret s3 /\
          nextSequenceNumber s3 = nextSequenceNumber s + 1 /\ same_hold s s3 /\ seq_inv s3 packs (nextSequenceNumber s + 1) extra
      else ended s2 packs
  end.
Proof.
  intros Hinv (Hp & Hb & Hsq & Ha) Hif Hnext. pose proof (si_contracts _ _ _ _ Hinv) as Hc.
  destruct (registerContracts_ok s i Hc) as (s1 & r & E1 & Hq1 & Hc1). exists s1, r. split; [done|].
  pose proof (inv_quiet s s1 packs _ _ Hinv Hq1 Hc1) as Hinv1. destruct r as [e|]; [by eexists _, _|].
  pose proof (updateContract_ok s1 i None Hc1 Hb (or_introl eq_refl)) as Hu.
  destruct (updateContract s1 i None) as [[s2 ok] cid]. destruct Hu as [Hq2 Hu].
  destruct ok; [|eexists _, _; by apply (inv_quiet s1 s2 packs)]. pose proof (quietly_trans _ _ _ Hq1 Hq2) as Hq.
  destruct (quietly_same _ _ Hq) as [_ En]. rewrite En, u64_small by (unfold max_seq in *; lia).
  destruct (receiveHead_inv s s2 i cid packs (nextSequenceNumber s) extra (nextSequenceNumber s + 1) Hinv Hq Hu Hb) as (s3 & E3 & Hn3 & Hsame & Hinv3).
  - unfold max_seq in *. lia.
  - intros _. split; [done|lia].
  - done.
  - exists s3. rewrite Ha in Hinv3. done.
Qed.

Lemma drain_ok fuel s packs receiveTime timeout :
  running s packs -> (length (held s) < fuel)%nat ->
  exists s' r, drain fuel s receiveTime timeout = Ret (s', r) /\ outcome s' packs (match r with Some _ => true | None => false end).
Proof.
  revert s. induction fuel as [|fuel IH]; intros s Hrun Hf; [lia|]. cbn [drain].
  destruct (PeekFirst (receiveQueue s)) as [i|] eqn:Ep; [|by eexists _, _].
  destruct (_ <? 0); [eexists _, _; split; [done|]; by apply running_ended|].
  destruct (Z.ltb_spec (nextSequenceNumber s) (it_seq i)) as [|Hle]; [by eexists _, _|].
  destruct Hrun as (extra & Hinv & Hnj). pose proof (si_hold _ _ _ _ Hinv) as Hw. destruct (peek_first s i Hw Ep) as [Hi Hmin].
  destruct (q_remove_held s i Hw Hi) as (s1 & E1 & Hq1 & Hr1). rewrite E1. cbn [gbind].
  destruct (inv_remove s s1 packs _ extra (Some i) Hinv Hq1 Hr1) as [Hinv1 Hok]. destruct (Hok i eq_refl) as [Hoki Hif]. clear Hok.
  assert (En1 : nextSequenceNumber s1 = nextSequenceNumber s) by (rewrite (rq_rest _ _ Hq1); done).
  assert (El1 : rs_log s1 = rs_log s) by (rewrite (rq_rest _ _ Hq1); done).
  pose proof (removed_length _ _ _ Hr1) as Hlen. rewrite <- En1 in Hinv1.
  destruct (Z.eqb_spec (nextSequenceNumber s1) (it_seq i)) as [Heq|Hne].
  - destruct (deliver_next s1 i packs extra Hinv1 Hoki Hif (eq_sym Heq)) as (s2 & r & E2 & Hr). rewrite E2. cbn [gbind].
    destruct r as [e|]; [by eexists _, _|]. destruct (updateContract s2 i None) as [[s3 ok] cid].
    destruct ok; [|by eexists _, _]. destruct Hr as (s4 & E4 & Hn4 & Hsame & Hinv4). rewrite E4. cbn [gbind].
    apply IH; [|rewrite (same_hold_held _ _ Hsame); lia]. exists extra. rewrite Hn4. split; [done|].
    destruct Hsame as (Eq4 & _ & _ & _ & _ & Ej4). rewrite Ej4, El1. intros Hj. destruct (Hnj Hj) as [-> Hall]. split; [done|].
    apply Forall_forall. intros x Hx%list_elem_of_In. assert (Hx1 : x ∈ held s1) by (unfold held in *; by rewrite <- Eq4).
    rewrite Forall_forall in Hall. specialize (Hall x (proj1 (list_elem_of_In _ _) (removed_elem _ _ _ _ Hr1 Hx1))).
    destruct (removed_gone s s1 i Hw Hr1 x Hx1) as [Hs _]. lia.
  - set (s2 := if it_ack i then _ else s1).
    assert (H2 : seq_inv s2 packs (nextSequenceNumber s1) (it_buffer i :: extra) /\ same_hold s1 s2).
    { unfold s2. destruct (it_ack i); [apply past_ack_inv; [done|lia|by apply from_names]|]. split; [done|]. by repeat (split; [done|]). }
    destruct H2 as [Hinv2 Hsame]. assert (En2 : nextSequenceNumber s2 = nextSequenceNumber s1) by (unfold s2; by destruct (it_ack i)).
    apply IH; [|rewrite (same_hold_held _ _ Hsame); lia]. exists (it_buffer i :: extra). rewrite En2. split; [done|].
    destruct Hsame as (_ & _ & _ & _ & _ & Ej). rewrite Ej, El1. intros Hj. exfalso.
    destruct (Hnj Hj) as [_ Hall]. rewrite Forall_forall in Hall. specialize (Hall i (proj1 (list_elem_of_In _ _) Hi)). lia.
Qed.

(** ** Commitment *)

Definition commit_events i : list event :=
  [EvCommit i; EvAck (SequenceAck (it_seq i) (it_id i) true (it_tag i) (it_unwrapped i))].

(** Exactly the items of [l] are committed, in that order. *)
Definition commits s (l : list receiveItem) : RS :=
  RSeq (nextSequenceNumber s) (receiveQueue s) (rs_pool s) (openReceiveContracts s) (receiveContract s) (maxHeldByteCount s)
    (list_to_set (map it_ptr l) ∪ committed s) (rs_items s) (rs_reads s) (rs_log s ++ concat (map commit_events l)).

Lemma commits_nil s : commits s [] = s.
Proof. destruct s. unfold commits. cbn. by rewrite app_nil_r, union_empty_l_L. Qed.
Lemma commits_cons s i l : commits (commitHeldItem s i) l = commits s (i :: l).
Proof.
  unfold commits, commitHeldItem, sendAck. cbn. rewrite <- !app_assoc. cbn. f_equal.
  rewrite (union_comm_L {[it_ptr i]} (list_to_set _)), union_assoc_L. done.
Qed.

(** The items of a list that are not committed yet; a list names a pointer
    once. *)
Definition tentative s (l : list receiveItem) : list receiveItem := filter (fun i => it_ptr i ∉ committed s) l.

Lemma tentative_commit s i l : it_ptr i ∉ map it_ptr l -> tentative (commitHeldItem s i) l = tentative s l.
Proof.
  intros Hi. unfold tentative. induction l as [|x l IH]; [done|]. cbn in Hi. apply not_elem_of_cons in Hi as [Hx Hi].
  rewrite !filter_cons, IH by done. cbn [commitHeldItem committed set_hold sendAck emit].
  destruct (decide (it_ptr x ∉ _)) as [H1|H1], (decide (it_ptr x ∉ committed s)) as [H2|H2]; try done; set_solver.
Qed.

Lemma commit_all_spec s l : NoDup (map it_ptr l) -> commit_all s l = commits s (tentative s l).
Proof.
  unfold commit_all. revert s. induction l as [|i l IH]; intros s Hnd; cbn [fold_left]; [by rewrite commits_nil|].
  apply list.NoDup_cons in Hnd as [Hi Hnd]. unfold tentative at 1. rewrite filter_cons. case_bool_decide as Hc.
  - rewrite decide_False by tauto. by apply IH.
  - rewrite decide_True by done. rewrite IH by done. rewrite tentative_commit by done. apply commits_cons.
Qed.

(** The prefix the general path accepts. *)
Fixpoint safe_prefix s (k : nat) (hb : Z) (l : list receiveItem) : list receiveItem :=
  match l with
  | [] => []
  | i :: l =>
      let hb := i64 (hb + it_bytes i) in
      if fits_hold s (it_seq i) k hb then i :: safe_prefix s (S k) hb l else []
  end.

Lemma safe_prefix_commit s i k hb l : safe_prefix (commitHeldItem s i) k hb l = safe_prefix s k hb l.
Proof. revert k hb. induction l as [|x l IH]; intros k hb; [done|]. cbn [safe_prefix]. by rewrite IH. Qed.

Lemma safe_prefix_sub s k hb l x : x ∈ safe_prefix s k hb l -> x ∈ l.
Proof.
  revert k hb. induction l as [|i l IH]; intros k hb; [done|]. cbn [safe_prefix]. destruct (fits_hold _ _ _ _); [|set_solver].
  intros [->|Hx]%elem_of_cons; [by left|right; eauto].
Qed.

Lemma commit_prefix_spec s k hb l :
  NoDup (map it_ptr l) -> commit_prefix s k hb l = commits s (tentative s (safe_prefix s k hb l)).
Proof.
  revert s k hb. induction l as [|i l IH]; intros s k hb Hnd; cbn [commit_prefix safe_prefix]; [by rewrite commits_nil|].
  apply list.NoDup_cons in Hnd as [Hi Hnd]. destruct (fits_hold _ _ _ _); cbn [negb]; [|by rewrite commits_nil].
  unfold tentative at 1. rewrite filter_cons. case_bool_decide as Hc; [rewrite decide_False by tauto; by apply IH|].
  rewrite decide_True by done. rewrite IH, safe_prefix_commit by done. rewrite tentative_commit; [apply commits_cons|].
  intros (x & Ex & Hx%safe_prefix_sub)%list_elem_of_fmap. apply Hi. apply list_elem_of_fmap. eauto.
Qed.

Lemma ascending_perm s : hold_wf s -> AscendingItems item_cmp (receiveQueue s) ≡ₚ held s.
Proof. intros _. apply merge_sort_Permutation. Qed.

(** Whatever the path, commitHeldPrefix commits items of the hold. *)
Lemma commitHeldPrefix_commits s :
  hold_wf s -> ptrs_ok s -> exists l, commitHeldPrefix s = commits s l /\ (forall x, x ∈ l -> x ∈ held s /\ it_ptr x ∉ committed s).
Proof.
  intros Hw Hp. unfold commitHeldPrefix. destruct (QueueSize (receiveQueue s)) as [n total].
  destruct (n =? 0)%nat; [exists []; split; [by rewrite commits_nil|set_solver]|].
  assert (Hsub : forall l, (forall x, x ∈ l -> x ∈ held s) -> forall x, x ∈ tentative s l -> x ∈ held s /\ it_ptr x ∉ committed s).
  { intros l Hl x [Hx Hin]%list_elem_of_filter. split; [by apply Hl|done]. }
  destruct (match PeekLast (receiveQueue s) with Some _ => _ | None => _ end).
  - eexists. split; [by apply commit_all_spec|]. by apply Hsub.
  - eexists. split; [apply commit_prefix_spec; by rewrite (Permutation_map it_ptr (ascending_perm s Hw))|].
    apply Hsub. intros x Hx%safe_prefix_sub. by rewrite (ascending_perm s Hw) in Hx.
Qed.

Lemma commits_inv s packs pos extra l :
  seq_inv s packs pos extra -> (forall x, x ∈ l -> x ∈ held s /\ it_ptr x ∉ committed s) ->
  seq_inv (commits s l) packs pos extra /\ jumped (rs_log (commits s l)) = jumped (rs_log s).
Proof.
  intros Hinv Hlh. assert (Hl : replay_from pos (concat (map commit_events l)) = Some pos /\ returned (concat (map commit_events l)) = [] /\
    Forall (ack_true packs pos) (acks (concat (map commit_events l))) /\ jumped (concat (map commit_events l)) = false /\
    heads (concat (map commit_events l)) = []).
  { induction l as [|i l IHl]; [done|]. destruct IHl as (I1 & I2 & I3 & I4 & I5); [intros x Hx; apply Hlh; by right|]. cbn [map concat]. split; [by eapply replay_app|].
    rewrite returned_app, acks_app, jumped_app, heads_app, I2, I4, I5. split; [done|]. split; [|done]. cbn. constructor; [|done]. split; [done|]. apply from_names.
    pose proof (si_from _ _ _ _ Hinv) as Hfr. rewrite Forall_forall in Hfr. apply Hfr, list_elem_of_In, list.elem_of_app. left. apply Hlh. by left. }
  destruct Hl as (L1 & L2 & L3 & L4 & L5). split; [|cbn; rewrite jumped_app, L4; apply orb_false_r].
  eapply (inv_log s _ packs pos pos extra extra _ Hinv); try done.
  - apply (contracts_quiet s); try done. apply Hinv.
  - pose proof (si_pos _ _ _ _ Hinv). lia.
  - apply Hinv.
  - by rewrite L2.
  - by rewrite L5.
Qed.

(** ** Arrivals *)

(** A pack the sequence may be handed: its number is not the last one, its
    size is a byte count, and a nack that names a contract comes from a source
    that must use contracts. *)
Definition pack_ok (p : ReceivePack) : Prop :=
  0 <= FrameCodec.SequenceNumber (rp_Pack p) < max_seq /\ in64 (rp_MessageByteCount p) /\
  (Nack (rp_Pack p) = true -> ContractId (rp_Pack p) = None \/ forall n, ReceiveNoContract n = false).

Lemma inv_arrive s packs pos extra p :
  seq_inv s packs pos extra -> seq_inv s (packs ++ [p]) pos (rp_TransferFrameBytes p :: extra).
Proof.
  intros [H1 Hptr H2 H3 Hfr H4 H5 H6 H7 H8]. split; try done.
  { eapply Forall_impl; [|exact Hfr]. intros i (q & Hq & Hi). exists q. split; [|done]. apply list.elem_of_app. by left. }
  2:{ eapply Forall_impl; [|exact H8]. intros a [Ha (q & Hq & Hi)]. split; [done|]. exists q. split; [|done]. apply list.elem_of_app. by left. }
  rewrite map_app. cbn [map]. rewrite perm_mid, H7. apply Permutation_cons_append.
Qed.

(** The state is that of [s] with fewer items held. *)
Record shrinks s s' : Prop := {
  sh_held : forall x, x ∈ held s' -> x ∈ held s;
  sh_next : nextSequenceNumber s' = nextSequenceNumber s;
  sh_items : rs_items s' = rs_items s;
  sh_jumped : jumped (rs_log s') = jumped (rs_log s);
}.

Lemma shrinks_refl s : shrinks s s.
Proof. by split. Qed.
Lemma shrinks_trans s1 s2 s3 : shrinks s1 s2 -> shrinks s2 s3 -> shrinks s1 s3.
Proof. intros [A1 A2 A3 A4] [B1 B2 B3 B4]. split; [auto|congruence..]. Qed.

(** An item taken out of the hold is noted and its buffer given back. *)
Lemma drop_inv s packs pos extra i e :
  seq_inv s packs pos (it_buffer i :: extra) -> (quiet e = true \/ exists c, e = EvEvict i c) ->
  seq_inv (messagePoolReturn (emit s e) i) packs pos extra /\ shrinks s (messagePoolReturn (emit s e) i).
Proof.
  intros Hinv He. assert (Hl : replay_from pos [e; EvReturn (it_buffer i)] = Some pos /\ returned [e; EvReturn (it_buffer i)] = [it_buffer i] /\
    acks [e; EvReturn (it_buffer i)] = [] /\ jumped [e; EvReturn (it_buffer i)] = false /\ heads [e; EvReturn (it_buffer i)] = []) by (destruct He as [He|[c ->]]; [by destruct e|done]).
  destruct Hl as (L1 & L2 & L3 & L4 & L5).
  assert (Elog : rs_log (messagePoolReturn (emit s e) i) = rs_log s ++ [e; EvReturn (it_buffer i)]) by (cbn; by rewrite <- app_assoc).
  split.
  - eapply (inv_log s _ packs pos pos _ extra _ Hinv); try done.
    + apply (contracts_quiet s); try done. apply Hinv.
    + pose proof (si_pos _ _ _ _ Hinv). lia.
    + apply Hinv.
    + by rewrite L2.
    + by rewrite L3.
    + by rewrite L5.
  - split; try done. rewrite Elog, jumped_app, L4. apply orb_false_r.
Qed.

Lemma requeued_shrinks s s' x : requeued s s' -> removed s s' x -> shrinks s s'.
Proof.
  intros [_ _ _ Hs] Hr. split; [|by rewrite Hs..].
  intros y Hy. destruct x as [i|]; [by eapply removed_elem|]. cbn in Hr. by subst s'.
Qed.

Lemma replaced_inv s s' packs pos extra x :
  seq_inv s packs pos extra -> requeued s s' -> removed s s' x ->
  seq_inv (replaced s' x) packs pos extra /\ shrinks s (replaced s' x).
Proof.
  intros Hinv Hq Hr. destruct (inv_remove s s' packs pos extra x Hinv Hq Hr) as [Hinv' _]. pose proof (requeued_shrinks _ _ _ Hq Hr) as Hs.
  destruct x as [i|]; [|done]. cbn [replaced]. destruct (drop_inv s' packs pos extra i (EvResend (it_bytes i)) Hinv') as [H1 H2]; [by left|].
  split; [done|]. by eapply shrinks_trans.
Qed.

Lemma evict_later_ok fuel s packs pos extra seq n :
  seq_inv s packs pos extra -> (length (held s) < fuel)%nat ->
  exists s', evict_later fuel s seq n = Ret s' /\ seq_inv s' packs pos extra /\ shrinks s s'.
Proof.
  revert s. induction fuel as [|fuel IH]; intros s Hinv Hf; [lia|]. cbn [evict_later].
  assert (Hstop : exists s', Ret s = Ret s' /\ seq_inv s' packs pos extra /\ shrinks s s') by (by exists s).
  destruct (canQueue s n); [done|]. destruct (PeekLast (receiveQueue s)) as [last|] eqn:Ep; [|done].
  destruct (it_seq last <=? seq); [done|]. destruct (_ && _); [done|]. pose proof (si_hold _ _ _ _ Hinv) as Hw.
  destruct (peek_last s last Hw Ep) as [Hi _]. destruct (q_remove_held s last Hw Hi) as (s1 & E1 & Hq1 & Hr1). rewrite E1. cbn [gbind].
  destruct (inv_remove s s1 packs pos extra (Some last) Hinv Hq1 Hr1) as [Hinv1 _]. pose proof (requeued_shrinks _ _ _ Hq1 Hr1) as Hs1.
  match goal with |- context [emit s1 ?e] => destruct (drop_inv s1 packs pos extra last e Hinv1) as [Hinv2 Hs2]; [eauto|] end.
  pose proof (removed_length _ _ _ Hr1) as Hlen.
  edestruct (IH _ Hinv2) as (s3 & E3 & Hinv3 & Hs3); [change (length (held s1) < fuel)%nat; lia|].
  exists s3. split; [exact E3|]. split; [done|]. eapply shrinks_trans; [exact Hs1|]. by eapply shrinks_trans.
Qed.

(** The pack's buffer is still in hand. *)
Definition pending s (packs : list ReceivePack) (b : nat) : Prop :=
  exists extra, seq_inv s packs (nextSequenceNumber s) (b :: extra) /\
    (jumped (rs_log s) = false -> extra = [] /\ Forall (fun i => nextSequenceNumber s <= it_seq i) (held s)).

Definition result_ok s (packs : list ReceivePack) (b : nat) (r : bool + receive_err) : Prop :=
  match r with
  | inl true => running s packs
  | inl false => pending s packs b
  | inr _ => exists pos extra, seq_inv s packs pos (b :: extra)
  end.

Lemma pending_shrinks s s' (extra : list nat) :
  shrinks s s' -> (jumped (rs_log s) = false -> extra = [] /\ Forall (fun i => nextSequenceNumber s <= it_seq i) (held s)) ->
  jumped (rs_log s') = false -> extra = [] /\ Forall (fun i => nextSequenceNumber s' <= it_seq i) (held s').
Proof.
  intros [H1 H2 H3 H4] Hs Hj. rewrite H4 in Hj. destruct (Hs Hj) as [-> Hall]. split; [done|]. rewrite H2.
  rewrite Forall_forall in *. intros x Hx. apply Hall, list_elem_of_In, H1, list_elem_of_In, Hx.
Qed.

Lemma return_pending s packs b r p :
  rp_TransferFrameBytes p = b -> result_ok s packs b r ->
  let '(s', goes_on) := received s p r in outcome s' packs goes_on.
Proof.
  intros <- Hr. unfold received, outcome.
  assert (Hdrop : forall e pos extra, quiet e = true -> seq_inv s packs pos (rp_TransferFrameBytes p :: extra) ->
    seq_inv (emit (emit s e) (EvReturn (rp_TransferFrameBytes p))) packs pos extra /\
    shrinks s (emit (emit s e) (EvReturn (rp_TransferFrameBytes p)))).
  { intros e pos extra He Hinv.
    exact (drop_inv s packs pos extra (ReceiveItem 0 (TransferItem [] 0 0 0) 0 [] None None (rp_TransferFrameBytes p) false false false) e Hinv (or_introl He)). }
  destruct r as [[]|e]; cbn [result_ok] in Hr; [done| |].
  - destruct Hr as (extra & Hinv & Hnj). destruct (Hdrop (EvDiscard (rp_MessageByteCount p)) _ _ eq_refl Hinv) as [H1 H2].
    exists extra. split; [exact H1|]. by apply (pending_shrinks s).
  - destruct Hr as (pos & extra & Hinv). destruct (Hdrop (EvBadMessage (rp_MessageByteCount p)) _ _ eq_refl Hinv) as [H1 _].
    by exists pos, extra.
Qed.

Lemma inv_next s packs pos extra n : seq_inv s packs pos extra -> 0 <= n <= max_seq -> seq_inv (set_next s n) packs pos extra.
Proof.
  intros [H1 Hptr H2 H3 Hfr H4 H5 H6 H7 H8] Hn. split; try done. by apply (contracts_quiet s).
Qed.

Lemma receive_now_ok s i packs extra :
  seq_inv s packs (nextSequenceNumber s) (it_buffer i :: extra) -> item_ok s i -> from packs i -> it_seq i = nextSequenceNumber s ->
  (jumped (rs_log s) = false -> extra = [] /\ Forall (fun x => nextSequenceNumber s <= it_seq x) (held s)) ->
  (forall x, x ∈ held s -> it_seq x <> it_seq i) ->
  exists s' r, receive_now s i = Ret (s', r) /\ result_ok s' packs (it_buffer i) r.
Proof.
  intros Hinv (Hp & Hb & Hsq & Ha) Hif Hnext Hnj Hgone. unfold receive_now. rewrite u64_small by (unfold max_seq in *; lia).
  set (s0 := set_next s (nextSequenceNumber s + 1)).
  assert (Hinv0 : seq_inv s0 packs (nextSequenceNumber s) (it_buffer i :: extra)) by (apply inv_next; [done|unfold max_seq in *; lia]).
  pose proof (si_contracts _ _ _ _ Hinv0) as Hc. destruct (registerContracts_ok s0 i Hc) as (s1 & r & E1 & Hq1 & Hc1). rewrite E1. cbn [gbind].
  destruct r as [e|]; [eexists _, _; split; [done|]; eexists _, _; by apply (inv_quiet s0)|].
  pose proof (updateContract_ok s1 i None Hc1 Hb (or_introl eq_refl)) as Hu.
  destruct (updateContract s1 i None) as [[s2 ok] cid]. destruct Hu as [Hq2 Hu]. pose proof (quietly_trans _ _ _ Hq1 Hq2) as Hq.
  destruct ok; [|eexists _, _; split; [done|]; eexists _, _; by apply (inv_quiet s0)].
  destruct (quietly_same _ _ Hq) as [_ En]. rewrite <- (set_next_same s2), En.
  destruct (receiveHead_inv s0 s2 i cid packs (nextSequenceNumber s) extra (nextSequenceNumber s0) Hinv0 Hq Hu Hb) as (s3 & E3 & Hn3 & Hsame & Hinv3).
  { cbn. unfold max_seq in *. lia. }
  { intros _. split; [done|]. unfold max_seq in *. lia. }
  { done. }
  rewrite E3. cbn [gbind]. eexists _, _. split; [done|]. rewrite Ha in Hinv3. exists extra. rewrite Hn3. split; [done|].
  rewrite (same_hold_held _ _ Hsame). destruct Hsame as (_ & _ & _ & _ & _ & ->). intros Hj. destruct (Hnj Hj) as [-> Hall].
  split; [done|]. change (held s0) with (held s). cbn [nextSequenceNumber s0 set_next]. rewrite Forall_forall in *. intros x Hx.
  specialize (Hall x Hx). pose proof (Hgone x (proj2 (list_elem_of_In _ _) Hx)). lia.
Qed.

Lemma hold_ack_inv s packs pos extra m c n id tag u :
  seq_inv s packs pos extra -> ack_names packs n id -> seq_inv (sendAck (set_hold s m c) n id true tag u) packs pos extra /\
    shrinks s (sendAck (set_hold s m c) n id true tag u).
Proof.
  intros Hinv Hnm. split.
  - eapply (inv_log s _ packs pos pos extra extra [EvAck (SequenceAck n id true tag u)] Hinv); try done.
    + apply (contracts_quiet s); try done. apply Hinv.
    + pose proof (si_pos _ _ _ _ Hinv). lia.
    + apply Hinv.
    + cbn. constructor; [|constructor]. by split.
  - split; try done. cbn. rewrite jumped_app. cbn. apply orb_false_r.
Qed.

Lemma inv_set_hold s packs pos extra m c : seq_inv s packs pos extra -> seq_inv (set_hold s m c) packs pos extra.
Proof. intros [H1 Hptr H2 H3 Hfr H4 H5 H6 H7 H8]. split; try done. by apply (contracts_quiet s). Qed.

(** The item in hand is new to the hold. *)
Definition fresh_to s i : Prop := forall x, x ∈ held s -> it_ptr x <> it_ptr i /\ it_id x <> it_id i /\ it_seq x <> it_seq i.

Lemma receive_early_ok s i packs extra :
  seq_inv s packs (nextSequenceNumber s) (it_buffer i :: extra) -> item_ok s i -> from packs i -> nextSequenceNumber s < it_seq i ->
  (jumped (rs_log s) = false -> extra = [] /\ Forall (fun x => nextSequenceNumber s <= it_seq x) (held s)) ->
  fresh_to s i ->
  exists s' r, receive_early s i = Ret (s', r) /\ result_ok s' packs (it_buffer i) r.
Proof.
  intros Hinv Hok Hif Hnext Hnj Hf. unfold receive_early.
  assert (He : exists s1, (if bool_decide (ReceiveHoldPolicy settings = ReceiveHoldRefuse) then Ret s
    else evict_later (S (Len (orderedItems (receiveQueue s)))) s (it_seq i) (it_bytes i)) = Ret s1 /\
    seq_inv s1 packs (nextSequenceNumber s) (it_buffer i :: extra) /\ shrinks s s1).
  { case_bool_decide; [by exists s|]. apply evict_later_ok; [done|]. unfold held, Len. lia. }
  destruct He as (s1 & -> & Hinv1 & Hs1). cbn [gbind]. pose proof (pending_shrinks _ _ _ Hs1 Hnj) as Hnj1.
  pose proof Hs1 as [Hsub En Ei Ej]. rewrite <- En in Hinv1.
  destruct (canQueue s1 (it_bytes i)); [|eexists _, _; split; [done|]; by exists extra].
  set (s2 := set_hold s1 _ _). assert (Hinv2 : seq_inv s2 packs (nextSequenceNumber s1) (it_buffer i :: extra)) by (by apply inv_set_hold).
  destruct (inv_add s2 packs _ extra i Hinv2) as (Hinv3 & Hq3 & Hp3).
  { destruct Hok as (A & B'). split; [|done]. cbn. by rewrite Ei. }
  { done. }
  { intros x Hx. apply Hf, Hsub, Hx. }
  set (s3 := q_add s2 i) in *. assert (E3 : nextSequenceNumber s3 = nextSequenceNumber s1 /\ rs_log s3 = rs_log s1) by (rewrite (rq_rest _ _ Hq3); done).
  destruct E3 as [En3 El3].
  assert (Hnj3 : jumped (rs_log s3) = false -> extra = [] /\ Forall (fun x => nextSequenceNumber s3 <= it_seq x) (held s3)).
  { rewrite El3, En3. intros Hj. destruct (Hnj1 Hj) as [-> Hall]. split; [done|]. rewrite Hp3. constructor; [lia|done]. }
  rewrite <- En3 in Hinv3. case_bool_decide as Hpol.
  - eexists _, _. split; [done|].
    destruct (commitHeldPrefix_commits s3 (si_hold _ _ _ _ Hinv3) (si_ptrs _ _ _ _ Hinv3)) as (l & -> & Hl).
    destruct (commits_inv s3 packs _ extra l Hinv3 Hl) as [Hinv4 Ej4]. exists extra. split; [exact Hinv4|]. rewrite Ej4. exact Hnj3.
  - eexists _, _. split; [done|]. destruct (hold_ack_inv s3 packs _ extra (maxHeldByteCount s3) ({[it_ptr i]} ∪ committed s3)
      (it_seq i) (it_id i) (it_tag i) (it_unwrapped i) Hinv3 (from_names _ _ Hif)) as [Hinv4 Hs4].
    exists extra. split; [exact Hinv4|]. by apply (pending_shrinks s3).
Qed.

Lemma running_pending s packs p : running s packs -> pending s (packs ++ [p]) (rp_TransferFrameBytes p).
Proof. intros (extra & Hinv & Hnj). exists extra. split; [by apply inv_arrive|done]. Qed.

Lemma bump_pending s packs b f :
  f = bump_reads \/ f = bump_items -> pending s packs b -> pending (f s) packs b.
Proof.
  intros Hf (extra & Hinv & Hnj). exists extra. destruct Hf as [-> | ->]; (split; [|exact Hnj]).
  - apply (inv_quiet s); [done|apply quietly_reads|]. apply (contracts_quiet s); try done; [cbn; lia|apply Hinv].
  - eapply (inv_log s _ _ _ _ _ _ [] Hinv); try done; [cbn; lia|apply (contracts_quiet s); try done; apply Hinv| | |].
    + by rewrite app_nil_r.
    + pose proof (si_pos _ _ _ _ Hinv). cbn. lia.
    + apply Hinv.
Qed.

(** The delivery point follows a head that is ahead. *)
Lemma jump_pending s packs b i :
  pending s packs b -> 0 <= it_seq i < max_seq ->
  let s' := if it_head i && (nextSequenceNumber s <? it_seq i)
            then set_next (emit s (EvJump (nextSequenceNumber s) (it_seq i))) (it_seq i) else s in
  pending s' packs b /\ held s' = held s /\ rs_items s' = rs_items s.
Proof.
  intros (extra & Hinv & Hnj) Hs s'. unfold s'. destruct (it_head i && _) eqn:Ej; [|split; [by exists extra|done]].
  apply andb_true_iff in Ej as [_ Hlt%Z.ltb_lt]. split; [|done]. exists extra. cbn [nextSequenceNumber set_next]. split.
  - eapply (inv_log s _ packs (nextSequenceNumber s) (it_seq i) _ _ [EvJump (nextSequenceNumber s) (it_seq i)] Hinv); try done.
    + apply (contracts_quiet s); try done. apply Hinv.
    + unfold replay_from. cbn. by rewrite Z.eqb_refl, (proj2 (Z.ltb_lt _ _) Hlt).
    + unfold max_seq in *. lia.
    + cbn. unfold max_seq in *. lia.
  - cbn. rewrite jumped_app. cbn. by rewrite orb_true_r.
Qed.

Lemma replaced_pending s s' packs b x :
  pending s packs b -> requeued s s' -> removed s s' x -> pending (replaced s' x) packs b /\ shrinks s (replaced s' x).
Proof.
  intros (extra & Hinv & Hnj) Hq Hr. destruct (replaced_inv s s' packs _ _ x Hinv Hq Hr) as [Hinv' Hs]. split; [|done].
  exists extra. rewrite (sh_next _ _ Hs). split; [done|]. rewrite <- (sh_next _ _ Hs). by apply (pending_shrinks s).
Qed.

Lemma replaced_held s x : held (replaced s x) = held s.
Proof. by destruct x. Qed.

Lemma made_from s p id t packs :
  IdFromBytes (bval (FrameCodec.MessageId (rp_Pack p))) = inl id -> from (packs ++ [p]) (make_item s p id t).
Proof.
  intros Eid. exists p. split; [apply list.elem_of_app; right; by left|]. unfold IdFromBytes in Eid. destruct (_ =? _)%nat; [|done].
  injection Eid as <-. done.
Qed.

Lemma receive_ok s p packs :
  running s packs -> pack_ok p -> Nack (rp_Pack p) = false ->
  exists s' r, receive s p = Ret (s', r) /\ result_ok s' (packs ++ [p]) (rp_TransferFrameBytes p) r.
Proof.
  intros Hrun (Hseq & Hb & _) Hnack. unfold receive. set (P := packs ++ [p]). set (b := rp_TransferFrameBytes p).
  assert (H0 : pending (bump_reads s) P b) by (apply bump_pending; [by left|by apply running_pending]).
  destruct (IdFromBytes _) as [id|e] eqn:Eid.
  2:{ eexists _, _. split; [done|]. destruct H0 as (extra & Hinv & _). by eexists _, _. }
  set (s0 := bump_reads s) in *. set (i := make_item s0 p id _).
  assert (Hitems : Forall (item_ok s0) (held s0)) by (destruct H0 as (extra & Hinv & _); apply Hinv).
  assert (H1 : pending (bump_items s0) P b) by (apply bump_pending; [by right|done]).
  destruct (jump_pending (bump_items s0) P b i H1 Hseq) as (H2 & Hh2 & Hi2). set (s2 := if it_head i && _ then _ else _) in *.
  destruct (q_remove_seq_ok s2 (it_seq i)) as (s3 & x3 & E3 & Hq3 & Hr3 & _ & Hg3); [destruct H2 as (extra & Hinv & _); apply Hinv|].
  rewrite E3. cbn [gbind]. destruct (replaced_pending s2 s3 P b x3 H2 Hq3 Hr3) as [H4 Hs4]. set (s4 := replaced s3 x3) in *.
  destruct (q_remove_id_ok s4 (it_id i)) as (s5 & x5 & E5 & Hq5 & Hr5 & _ & Hg5); [destruct H4 as (extra & Hinv & _); apply Hinv|].
  rewrite E5. cbn [gbind]. destruct (replaced_pending s4 s5 P b x5 H4 Hq5 Hr5) as [H6 Hs6]. set (s6 := replaced s5 x5) in *.
  assert (Hfresh : fresh_to s6 i).
  { intros x Hx. pose proof (sh_held _ _ Hs6 x Hx) as Hx4. split; [|split].
    - pose proof (sh_held _ _ Hs4 x Hx4) as Hx2. rewrite Hh2 in Hx2. rewrite Forall_forall in Hitems.
      destruct (Hitems x (proj1 (list_elem_of_In _ _) Hx2)) as [Hlt _]. cbn. cbn in Hlt. lia.
    - apply Hg5. by rewrite <- (replaced_held s5 x5).
    - apply Hg3. by rewrite <- (replaced_held s3 x3). }
  assert (Hok : item_ok s6 i).
  { split; [|split; [done|split; [done|cbn; by rewrite Hnack]]]. rewrite (sh_items _ _ Hs6), (sh_items _ _ Hs4), Hi2. cbn. lia. }
  assert (Hif : from P i) by (by apply (made_from s0 p id)).
  destruct H6 as (extra & Hinv6 & Hnj6). destruct (Z.leb_spec (it_seq i) (nextSequenceNumber s6)) as [Hle|Hgt]; [|by apply (receive_early_ok s6 i P extra)].
  destruct (Z.eqb_spec (nextSequenceNumber s6) (it_seq i)) as [Heq|Hne].
  - apply (receive_now_ok s6 i P extra); try done. intros x Hx. by destruct (Hfresh x Hx) as (_ & _ & ?).
  - eexists _, _. split; [done|]. cbn [it_ack make_item i]. rewrite Hnack. cbn [negb].
    destruct (past_ack_inv s6 P (nextSequenceNumber s6) (b :: extra) (it_seq i) (it_id i) None (it_unwrapped i) Hinv6) as [Hinv7 Hsame]; [lia|by apply from_names|].
    exists extra. split; [exact Hinv7|]. rewrite (same_hold_held _ _ Hsame). destruct Hsame as (_ & _ & _ & _ & _ & ->). exact Hnj6.
Qed.

Lemma receiveNack_ok s p packs :
  running s packs -> pack_ok p -> Nack (rp_Pack p) = true ->
  exists s' r, receiveNack s p = Ret (s', r) /\ result_ok s' (packs ++ [p]) (rp_TransferFrameBytes p) r.
Proof.
  intros Hrun (Hseq & Hb & Hmust) Hnack. unfold receiveNack. set (P := packs ++ [p]). set (b := rp_TransferFrameBytes p).
  assert (H0 : pending (bump_reads s) P b) by (apply bump_pending; [by left|by apply running_pending]).
  assert (Herr : forall s', pending s' P b -> exists pos extra, seq_inv s' P pos (b :: extra)).
  { intros s' (extra & Hinv & _). by eexists _, _. }
  destruct (IdFromBytes _) as [id|e] eqn:Eid; [|eexists _, _; split; [done|]; by apply Herr].
  set (cid := match ContractId (rp_Pack p) with None => _ | Some _ => _ end).
  destruct cid as [cid'|e] eqn:Ecid; [|eexists _, _; split; [done|]; by apply Herr].
  assert (Hm : must_charge cid').
  { destruct (Hmust Hnack) as [Hn|Hn]; [|by right]. left. unfold cid in Ecid. rewrite Hn in Ecid. congruence. }
  destruct (bool_decide _ && _); [eexists _, _; by split|].
  set (i := make_item _ p id _). assert (H1 : pending (bump_items (bump_reads s)) P b) by (apply bump_pending; [by right|done]).
  set (s1 := bump_items (bump_reads s)) in *. destruct H1 as (extra & Hinv1 & Hnj1).
  destruct (registerContracts_ok s1 i (si_contracts _ _ _ _ Hinv1)) as (s2 & r & E2 & Hq2 & Hc2). rewrite E2. cbn [gbind].
  pose proof (inv_quiet s1 s2 P _ _ Hinv1 Hq2 Hc2) as Hinv2. destruct (quietly_same _ _ Hq2) as [Hsame2 En2].
  assert (Hpend : forall s', quietly s1 s' -> contracts_ok s' -> pending s' P b).
  { intros s' Hq Hc. destruct (quietly_same _ _ Hq) as [Hsame En]. exists extra. rewrite En. split; [by apply (inv_quiet s1)|].
    rewrite (same_hold_held _ _ Hsame). destruct Hsame as (_ & _ & _ & _ & _ & ->). done. }
  destruct r as [e|]; [eexists _, _; split; [done|]; by eexists _, _|].
  destruct (match cid' with Some c => _ | None => _ end); [eexists _, _; split; [done|]; by apply Hpend|].
  pose proof (updateContract_ok s2 i cid' Hc2 Hb Hm) as Hu. destruct (updateContract s2 i cid') as [[s3 ok] cid3].
  destruct Hu as [Hq3 Hu]. pose proof (quietly_trans _ _ _ Hq2 Hq3) as Hq. destruct ok; [|eexists _, _; split; [done|]; by apply Hpend].
  destruct (quietly_same _ _ Hq) as [_ En3]. rewrite <- (set_next_same s3), En3.
  destruct (receiveHead_inv s1 s3 i cid3 P (nextSequenceNumber s1) extra (nextSequenceNumber s1) Hinv1 Hq Hu Hb) as (s4 & E4 & Hn4 & Hsame & Hinv4).
  { apply Hinv1. }
  { cbn. rewrite Hnack. done. }
  { by apply (made_from (bump_reads s) p id). }
  rewrite E4. cbn [gbind]. eexists _, _. split; [done|]. cbn [it_ack make_item i] in Hinv4. rewrite Hnack in Hinv4. cbn [negb] in Hinv4.
  exists extra. rewrite Hn4. split; [done|]. rewrite (same_hold_held _ _ Hsame). destruct Hsame as (_ & _ & _ & _ & _ & ->). done.
Qed.

(** ** Turns and runs *)

Definition packs_of (l : list select_case) : list ReceivePack := omap (fun c => match c with SelPack p => Some p | _ => None end) l.

Lemma commit_running s packs : running s packs -> running (commitHeldPrefix s) packs.
Proof.
  intros (extra & Hinv & Hnj). destruct (commitHeldPrefix_commits s (si_hold _ _ _ _ Hinv) (si_ptrs _ _ _ _ Hinv)) as (l & -> & Hl).
  destruct (commits_inv s packs _ extra l Hinv Hl) as [Hinv' Ej]. exists extra. split; [exact Hinv'|]. by rewrite Ej.
Qed.

Lemma before_select_ok s packs :
  running s packs -> exists s' r, before_select s = Ret (s', r) /\ outcome s' packs (match r with Some _ => true | None => false end).
Proof.
  intros Hrun. unfold before_select.
  assert (H0 : running (bump_reads s) packs).
  { destruct Hrun as (extra & Hinv & Hnj). exists extra. split; [|exact Hnj].
    apply (inv_quiet s); [done|apply quietly_reads|]. apply (contracts_quiet s); try done; [cbn; lia|apply Hinv]. }
  destruct (_ =? 0)%nat; [by eexists _, _|].
  edestruct (drain_ok (S (Len (orderedItems (receiveQueue (bump_reads s)))))) as (s1 & r & E1 & Ho); [exact H0|unfold held, Len; lia|].
  rewrite E1. cbn [gbind]. destruct r as [t|]; [|by eexists _, _]. eexists _, _. split; [done|]. cbn [outcome] in *.
  case_bool_decide; [by apply commit_running|done].
Qed.

Lemma turn_ok s packs c :
  running s packs -> Forall pack_ok (packs_of [c]) ->
  exists s' g, turn s c = Ret (s', g) /\ if g then running s' (packs ++ packs_of [c]) else exists P, P `prefix_of` (packs ++ packs_of [c]) /\ ended s' P.
Proof.
  intros Hrun Hok. unfold turn. destruct (before_select_ok s packs Hrun) as (s1 & r & -> & Ho). cbn [gbind].
  assert (Hend : forall s', ended s' packs -> exists P, P `prefix_of` (packs ++ packs_of [c]) /\ ended s' P).
  { intros s' He. exists packs. split; [by apply prefix_app_r|done]. }
  destruct r as [t|]; [|eexists _, _; split; [done|]; by apply Hend]. cbn [outcome] in Ho. destruct c as [| |p|closed]; cbn [after_select].
  - eexists _, _. split; [done|]. apply Hend. by apply running_ended.
  - eexists _, _. split; [done|]. apply Hend. by apply running_ended.
  - apply Forall_cons_1 in Hok as [Hp _]. cbn [packs_of omap list_omap].
    assert (Hr : exists s' r, (if Nack (rp_Pack p) then receiveNack s1 p else receive s1 p) = Ret (s', r) /\
      result_ok s' (packs ++ [p]) (rp_TransferFrameBytes p) r).
    { destruct (Nack (rp_Pack p)) eqn:En; [by apply receiveNack_ok|by apply receive_ok]. }
    destruct Hr as (s2 & r & -> & Hr). cbn [gbind]. pose proof (return_pending s2 _ _ r p eq_refl Hr) as Hout.
    destruct (received s2 p r) as [s3 g]. eexists _, _. split; [done|]. destruct g; [done|]. exists (packs ++ [p]). done.
  - eexists _, _. split; [done|]. cbn [packs_of omap list_omap]. rewrite app_nil_r in *.
    destruct (negb _); [done|]. exists packs. split; [done|by apply running_ended].
Qed.

(** *** Teardown *)

Lemma close_all_quiet (cur : option bytes) (l : list sequenceContract) s :
  let s' := fold_left (fun s c => if bool_decide (receiveContract s = Some (contractId c)) then s
              else emit s (EvCloseContract (contractId c) (ackedByteCount c) (unackedByteCount c))) l s in
  quietly s s' /\ openReceiveContracts s' = openReceiveContracts s /\ receiveContract s' = receiveContract s.
Proof.
  revert s. induction l as [|c l IH]; intros s; cbn [fold_left]; [by split; [apply quietly_refl|]|].
  case_bool_decide; [apply IH|]. set (s1 := emit s _). destruct (IH s1) as (H1 & H2 & H3).
  split; [eapply quietly_trans; [|exact H1]; by apply quietly_emit|done].
Qed.

Lemma discard_all_inv l s packs pos extra :
  seq_inv s packs pos (map it_buffer l ++ extra) ->
  let s' := fold_left (fun s i => messagePoolReturn (emit s (EvDiscard (it_bytes i))) i) l s in
  seq_inv s' packs pos extra /\ held s' = held s.
Proof.
  revert s. induction l as [|i l IH]; intros s Hinv; cbn [fold_left]; [done|].
  destruct (drop_inv s packs pos (map it_buffer l ++ extra) i (EvDiscard (it_bytes i)) Hinv) as [H1 _]; [by left|].
  exact (IH _ H1).
Qed.

Lemma teardown_inv s packs pos extra :
  seq_inv s packs pos extra -> seq_inv (teardown s) packs pos extra /\ held (teardown s) = [].
Proof.
  intros Hinv. unfold teardown. destruct (close_all_quiet None (map snd (map_to_list (openReceiveContracts s))) s) as (Hq1 & Ho1 & Hr1).
  set (s1 := fold_left _ _ s) in *. set (s2 := match receiveContract s1 with None => s1 | Some _ => _ end).
  assert (H2 : quietly s s2 /\ openReceiveContracts s2 = openReceiveContracts s /\ receiveContract s2 = receiveContract s).
  { unfold s2. destruct (receiveContract s1) as [id|] eqn:Ec; [|by rewrite Ec]. destruct (openReceiveContracts s1 !! id) as [c|]; [|by rewrite Ec].
    split; [eapply quietly_trans; [exact Hq1|by apply quietly_emit]|]. cbn. by rewrite Ec. }
  destruct H2 as (Hq2 & Ho2 & Hr2). assert (Hc2 : contracts_ok s2).
  { apply (contracts_quiet s); try done; [apply Hq2|apply Hinv]. }
  pose proof (inv_quiet s s2 packs pos extra Hinv Hq2 Hc2) as Hinv2. pose proof Hinv2 as [[Hw Hk] Hptr H2 H3 Hfr H4 H5 H6 H7 H8].
  destruct (Clear_sim it_transfer item_cmp item_cmp_flip item_cmp_trans (receiveQueue s2) (rs_pool s2) Hw Hk) as (q & b & r & Ec & Hw' & Hk' & _ & Hs).
  rewrite Ec. pose proof (Clear_items item_cmp (receiveQueue s2) (rs_pool s2) q b r Ec) as Ei.
  assert (Er : r = held s2).
  { unfold Clear in Ec. destruct (updateByteCountWithLock _ _ _ _). destruct (dropFloor _ _). injection Ec as _ _ <-. done. }
  subst r. assert (Eh : held (set_queue s2 q b) = []) by (unfold held; cbn; exact Ei).
  destruct (discard_all_inv (held s2) (set_queue s2 q b) packs pos extra) as [H' Hh'].
  - split; try done; rewrite ?Eh.
    + unfold ptrs_ok. rewrite Eh. constructor.
    + by apply (contracts_quiet s2).
    + constructor.
    + by apply Forall_app in Hfr as [_ Hfr].
    + cbn [map app rs_log set_queue]. rewrite <- H7. rewrite !app_assoc. by rewrite (Permutation_app_comm (returned _)).
  - split; [exact H'|]. etrans; [exact Hh'|exact Eh].
Qed.

Lemma Run_ok l s packs :
  running s packs -> Forall pack_ok (packs_of l) ->
  exists s' g, Run s l = Ret (s', g) /\
    if g then running s' (packs ++ packs_of l)
    else exists P, P `prefix_of` (packs ++ packs_of l) /\ ended s' P /\ held s' = [].
Proof.
  revert s packs. induction l as [|c l IH]; intros s packs Hrun Hok.
  { exists s, true. split; [done|]. cbn [packs_of omap list_omap]. by rewrite app_nil_r. }
  assert (Epk : packs_of (c :: l) = packs_of [c] ++ packs_of l) by (apply (omap_app _ [c] l)).
  rewrite Epk in *. apply Forall_app in Hok as [Hc Hl]. cbn [Run]. destruct (turn_ok s packs c Hrun Hc) as (s1 & g & -> & Hg). cbn [gbind].
  destruct g.
  - destruct (IH s1 _ Hg Hl) as (s2 & g2 & E2 & H2). exists s2, g2. rewrite app_assoc. done.
  - destruct Hg as (P & Hpre & pos & extra & Hinv). destruct (teardown_inv s1 P pos extra Hinv) as [Hinv' Hh].
    eexists _, _. split; [done|]. exists P. split; [|split; [by exists pos, extra|done]].
    rewrite app_assoc. by apply prefix_app_r.
Qed.

(** *** The new sequence *)

Lemma new_running b bud min lifetime :
  start_ok b bud min -> running (NewReceiveSequence b bud min lifetime) [].
Proof.
  intros Hst. unfold NewReceiveSequence, newReceiveQueue.
  pose proof (new_queue_wf it_transfer item_cmp item_cmp_flip item_cmp_trans b bud min lifetime Hst) as H1.
  destruct (setBudget _ b bud min) as [q0 b0]. destruct (if lifetime then setLifetimeBudget q0 b0 else (q0, b0)) as [q1 b1].
  destruct H1 as (Hw1 & Hk1 & Hi1). exists []. cbn [nextSequenceNumber rs_log]. split.
  - split; unfold ptrs_ok, held; cbn [receiveQueue rs_log]; rewrite ?Hi1; try done; try (unfold max_seq; lia).
    + constructor.
    + split; cbn [openReceiveContracts receiveContract]; [..|intros _; rewrite map_size_empty; lia|]; try done; intros id c; by rewrite lookup_empty.
  - intros _. unfold held. cbn. by rewrite Hi1.
Qed.

(** ** What the log of a run shows *)

Lemma replay_cons p e l q :
  replay_from p (e :: l) = Some q -> exists p1, replay_step (Some p) e = Some p1 /\ replay_from p1 l = Some q.
Proof.
  unfold replay_from. cbn [fold_left]. destruct (replay_step (Some p) e) as [p1|] eqn:E1; [eauto|].
  intros Hr. exfalso. clear -Hr. revert Hr. induction l as [|x l IH]; [done|exact IH].
Qed.

Lemma replay_delivered l p q :
  replay_from p l = Some q ->
  p <= q /\ Forall (fun i => p <= it_seq i < q) (accepted l) /\ StronglySorted Z.lt (map it_seq (accepted l)) /\
  (jumped l = false -> map it_seq (accepted l) = seqZ p (q - p)).
Proof.
  revert p. induction l as [|e l IH]; intros p Hr.
  { injection Hr as <-. rewrite Z.sub_diag. split; [lia|]. repeat (split; [constructor|]). done. }
  pose proof (replay_cons p e l q Hr) as Hstep.
  destruct Hstep as (p1 & E1 & Hr1). destruct (IH p1 Hr1) as (H1 & H2 & H3 & H4). clear IH Hr.
  assert (Hrest : forall p', p' <= p1 -> Forall (fun i => p' <= it_seq i < q) (accepted l)).
  { intros p' Hp. eapply Forall_impl; [|exact H2]. cbn. lia. }
  assert (Hsame : p1 = p -> accepted (e :: l) = accepted l -> jumped (e :: l) = jumped l ->
    p <= q /\ Forall (fun i => p <= it_seq i < q) (accepted (e :: l)) /\ StronglySorted Z.lt (map it_seq (accepted (e :: l))) /\
    (jumped (e :: l) = false -> map it_seq (accepted (e :: l)) = seqZ p (q - p))).
  { intros -> -> ->. done. }
  destruct e; cbn in E1; try (apply Hsame; [congruence|done|done]).
  - destruct (Z.eqb_spec from0 p) as [->|]; [|done]. destruct (Z.ltb_spec p to) as [Hlt|]; [|done]. injection E1 as ->.
    split; [lia|]. split; [apply Hrest; lia|]. done.
  - destruct (it_ack i) eqn:Ea; [|apply Hsame; [congruence|cbn; by rewrite Ea|done]].
    destruct (Z.eqb_spec (it_seq i) p) as [Hi|]; [|done]. injection E1 as <-.
    assert (Ed : accepted (EvReceived i :: l) = i :: accepted l) by (cbn; by rewrite Ea). rewrite Ed.
    split; [lia|]. split; [constructor; [lia|apply Hrest; lia]|]. split.
    + cbn [map]. constructor; [done|]. rewrite Hi. apply Forall_map. eapply Forall_impl; [|exact H2]. cbn. lia.
    + intros Hj. cbn [map]. rewrite H4 by done. rewrite Hi, (seqZ_cons p (q - p)) by lia. f_equal. f_equal; lia.
Qed.

Lemma from_prefix P packs i : P `prefix_of` packs -> from P i -> from packs i.
Proof. intros [k ->] (p & Hp & Hi). exists p. split; [apply list.elem_of_app; by left|done]. Qed.

(** The packs a run took in, and the invariant at its end. *)
Lemma run_inv b bud min lifetime l :
  start_ok b bud min -> Forall pack_ok (packs_of l) ->
  exists s g P pos extra, Run (NewReceiveSequence b bud min lifetime) l = Ret (s, g) /\ P `prefix_of` packs_of l /\
    seq_inv s P pos extra /\
    if g then P = packs_of l /\ pos = nextSequenceNumber s /\ (jumped (rs_log s) = false -> extra = []) else held s = [].
Proof.
  intros Hst Hok. destruct (Run_ok l _ [] (new_running b bud min lifetime Hst) Hok) as (s & g & Er & Hg).
  destruct g.
  - destruct Hg as (extra & Hinv & Hnj). eexists s, true, _, _, extra. split; [exact Er|]. split; [done|]. split; [exact Hinv|].
    split; [done|]. split; [done|]. intros Hj. by destruct (Hnj Hj).
  - destruct Hg as (P & Hpre & (pos & extra & Hinv) & Hh). by eexists s, false, P, pos, extra.
Qed.

Lemma updates_history wl : (history wl).1 = omap (fun o => match o with DoUpdate a => Some a | _ => None end) wl.
Proof.
  unfold history. cut (forall h, (fold_left op_history wl h).1 = h.1 ++ omap (fun o => match o with DoUpdate a => Some a | _ => None end) wl);
    [by intros ->|]. induction wl as [|o wl IH]; intros h; [by rewrite app_nil_r|]. cbn [fold_left]. rewrite IH.
  destruct o as [a|[]]; cbn; by rewrite <- ?app_assoc.
Qed.

(** A snapshot writes only true acks when only true ones were recorded. *)
Lemma snapshot_true wakes wl reset packs pos :
  ids_consistent (history wl).1 -> Forall (ack_true packs pos) (history wl).1 -> Z.of_nat (length (history wl).1) < MaxInt64 ->
  exists w w' snap, window_run (newSequenceAckWindowWithGapWake wakes) wl = Ret w /\ AckWindow.Snapshot w reset = Ret (w', snap) /\
    Forall (ack_true packs pos) (writeSnapshot snap).
Proof.
  intros Hcon Htrue Hlen.
  destruct (window_run_ok wl _ [] [] (history wl) (window_new wakes) eq_refl Hcon Hlen (le_n _)) as (w & Er & Hw).
  destruct (Snapshot_ret w _ _ reset Hw) as (sel & Es & Hsel). destruct Hw as [Hh Hheld _ _ _ _ Hsub _ _].
  eexists w, _, _. split; [done|]. split; [exact Es|]. unfold writeSnapshot. cbn [sn_headAck sn_selectiveAcks sn_ackUpdateCount].
  rewrite Forall_forall in Htrue. apply Forall_app. split.
  - destruct (0 <? ackUpdateCount w); [|done]. destruct (headAck w) as [h|]; [|done]. destruct Hh as [(a & Ha & Hs & _) _].
    constructor; [|done]. destruct (Htrue a (proj1 (list_elem_of_In _ _) Ha)) as [H1 H2]. destruct Hs as (E1 & E2 & E3 & _).
    split; [by rewrite <- E3, <- E1|by rewrite <- E1, <- E2].
  - rewrite merge_sort_Permutation. apply Forall_map. apply Forall_forall. intros [id a] Hin%list_elem_of_In%elem_of_map_to_list. cbn.
    apply Hsel in Hin as [Hin _]. destruct (Hheld id a Hin) as (Hid & _ & x & Hx & Hs).
    destruct (Htrue x (proj1 (list_elem_of_In _ _) (Hsub x Hx))) as [_ H2]. destruct Hs as (E1 & E2 & _).
    split; [done|]. cbn. by rewrite <- E1, <- Hid, <- E2.
Qed.

(** ** Claims *)

(** C6: No pooled buffer is given back twice. When every pack has a buffer of its
    own, the buffers returned to the message pool are distinct and none of
    them is still held; after the sequence has ended nothing is held; and
    while it runs, unless the head was moved, the held and the returned
    buffers are together exactly those of the packs taken in. *)
Theorem receive_buffers_once b bud min lifetime l :
  start_ok b bud min -> Forall pack_ok (packs_of l) -> NoDup (map rp_TransferFrameBytes (packs_of l)) ->
  exists s g, Run (NewReceiveSequence b bud min lifetime) l = Ret (s, g) /\
    NoDup (map it_buffer (held s) ++ returned (rs_log s)) /\
    (g = false -> held s = []) /\
    (g = true -> jumped (rs_log s) = false -> map it_buffer (held s) ++ returned (rs_log s) ≡ₚ map rp_TransferFrameBytes (packs_of l)).
Proof.
  intros Hst Hok Hnd. destruct (run_inv b bud min lifetime l Hst Hok) as (s & g & P & pos & extra & Er & Hpre & Hinv & Hg).
  exists s, g. split; [done|]. pose proof (si_buffers _ _ _ _ Hinv) as Hb. split; [|split].
  - assert (HP : NoDup (map rp_TransferFrameBytes P)).
    { destruct Hpre as [k Ek]. rewrite Ek, map_app in Hnd. by apply list.NoDup_app in Hnd as [Hnd _]. }
    rewrite <- Hb, app_assoc in HP. by apply list.NoDup_app in HP as [HP _].
  - intros ->. done.
  - intros -> Hj. destruct Hg as (-> & _ & He). rewrite (He Hj), app_nil_r in Hb. done.
Qed.

(** C5: What the ack writer puts on the wire is true. Take the acks recorded so
    far, interleaved in any way with snapshots of the writer: the window takes
    them without a panic, and of every ack a snapshot writes, a cumulative one
    is below the delivery point, so everything up to it was delivered or
    skipped by the sender, and every ack names the number and the id of a pack
    that arrived. *)
Theorem receive_acks_true b bud min lifetime l :
  start_ok b bud min -> Forall pack_ok (packs_of l) ->
  (forall p q, p ∈ packs_of l -> q ∈ packs_of l -> bval (FrameCodec.MessageId (rp_Pack p)) = bval (FrameCodec.MessageId (rp_Pack q)) ->
     FrameCodec.SequenceNumber (rp_Pack p) = FrameCodec.SequenceNumber (rp_Pack q)) ->
  exists s g pos, Run (NewReceiveSequence b bud min lifetime) l = Ret (s, g) /\ (g = true -> pos = nextSequenceNumber s) /\
    forall wakes wl reset,
      (history wl).1 `prefix_of` acks (rs_log s) -> Z.of_nat (length (acks (rs_log s))) < MaxInt64 ->
      exists w w' snap, window_run (newSequenceAckWindowWithGapWake wakes) wl = Ret w /\
        AckWindow.Snapshot w reset = Ret (w', snap) /\ Forall (ack_true (packs_of l) pos) (writeSnapshot snap).
Proof.
  intros Hst Hok Hids. destruct (run_inv b bud min lifetime l Hst Hok) as (s & g & P & pos & extra & Er & Hpre & Hinv & Hg).
  exists s, g, pos. split; [done|]. split; [by destruct g; [intros _; apply Hg|]|]. intros wakes wl reset Hwl Hlen.
  assert (Htrue : Forall (ack_true (packs_of l) pos) (history wl).1).
  { pose proof (si_acks _ _ _ _ Hinv) as Ha. destruct Hwl as [k Ek]. rewrite Ek in Ha. apply Forall_app in Ha as [Ha _].
    eapply Forall_impl; [|exact Ha]. intros a [H1 (p & Hp & H2)]. split; [done|]. exists p. split; [|done].
    destruct Hpre as [k' ->]. apply list.elem_of_app. by left. }
  apply (snapshot_true wakes wl reset _ pos); [|done|].
  - intros x y Hx Hy Hid. rewrite Forall_forall in Htrue.
    destruct (Htrue x (proj1 (list_elem_of_In _ _) Hx)) as [_ (p & Hp & -> & Hpi)].
    destruct (Htrue y (proj1 (list_elem_of_In _ _) Hy)) as [_ (q & Hq & -> & Hqi)]. apply Hids; [done|done|congruence].
  - apply prefix_length in Hwl. lia.
Qed.


(** ** The commit boundary *)

Definition frame_bytes s : Z := Z.max (maxHeldByteCount s) 1.








(** ** Room below the boundary *)

(** The boundary of a held item: with every number missing below it filled by
    the largest frame seen, the hold up to it is within capacity. *)
Definition within s c : Prop :=
  (it_seq c - nextSequenceNumber s - Z.of_nat (length (filter (fun x => it_seq x < it_seq c) (held s)))) * frame_bytes s +
    sumZ (map it_bytes (filter (fun x => it_seq x <= it_seq c) (held s))) <= ReceiveQueueMaxByteCount settings.

(** An arrival [i] below a committed item, in a hold all of whose committed
    items are inside the boundary. *)
Record gap_room s i : Prop := {
  gr_wf : hold_wf s;
  gr_budget : budget (receiveQueue s) = None;
  gr_life : lifetimeBudget (receiveQueue s) = false;
  gr_bytes : Forall (fun x => 0 <= it_bytes x) (held s);
  gr_sum : sumZ (map it_bytes (held s)) + it_bytes i <= MaxInt64;
  gr_size : 0 <= it_bytes i <= maxHeldByteCount s;
  gr_above : Forall (fun x => nextSequenceNumber s < it_seq x) (held s);
  gr_next : nextSequenceNumber s < it_seq i;
  gr_fresh : fresh_to s i;
  gr_within : forall c, c ∈ held s -> it_ptr c ∈ committed s -> within s c;
  gr_committed : exists c, c ∈ held s /\ it_ptr c ∈ committed s /\ it_seq i < it_seq c;
}.

(** Distinct numbers in a range are no more than the range. *)
Lemma distinct_in_range (l : list Z) a b : NoDup l -> Forall (fun n => a <= n < b) l -> Z.of_nat (length l) <= Z.max 0 (b - a).
Proof.
  intros Hnd Hall. assert (Hsub : l ⊆+ seqZ a (b - a)).
  { apply NoDup_submseteq; [done|]. intros x Hx. apply elem_of_seqZ. rewrite Forall_forall in Hall. specialize (Hall x (proj1 (list_elem_of_In _ _) Hx)). lia. }
  apply submseteq_length in Hsub. rewrite length_seqZ in Hsub. lia.
Qed.

Lemma seqs_nodup s : hold_wf s -> NoDup (map it_seq (held s)).
Proof.
  intros Hw. apply NoDup_fmap_2_strong; [|by apply held_nodup]. intros x y Hx Hy Heq. apply (held_unique s); auto.
Qed.

Lemma all_filter {A} (Q : A -> Prop) `{!forall x, Decision (Q x)} (l : list A) : Forall Q l -> filter Q l = l.
Proof. induction 1 as [|x l Hx Hl IH]; [done|]. rewrite filter_cons, decide_True by done. by rewrite IH. Qed.

(** The newest item of such a hold, if committed, leaves room for the arrival. *)
Lemma gap_room_fits s i last :
  gap_room s i -> PeekLast (receiveQueue s) = Some last -> it_ptr last ∈ committed s -> canQueue s (it_bytes i) = true.
Proof.
  intros Hg Hp Hc. pose proof Hg as [Hw Hb Hl Hby Hsum Hsz Hab Hn Hf Hwi _]. destruct (peek_last s last Hw Hp) as [Hin Hmax].
  pose proof (Hwi last Hin Hc) as Hbound. unfold within in Hbound.
  rewrite (all_filter (fun x => it_seq x <= it_seq last)) in Hbound.
  2:{ apply Forall_forall. intros x Hx%list_elem_of_In. by apply Hmax. }
  set (k := length (filter (fun x => it_seq x < it_seq last) (held s))) in *.
  assert (Hk : Z.of_nat k + 2 <= it_seq last - nextSequenceNumber s).
  { destruct (gr_committed _ _ Hg) as (c & Hcin & _ & Hci). specialize (Hmax c Hcin) as Hcl.
    set (L := nextSequenceNumber s :: it_seq i :: map it_seq (filter (fun x => it_seq x < it_seq last) (held s))).
    rewrite Forall_forall in Hab. assert (HL1 : NoDup L).
    { assert (Hsub : NoDup (map it_seq (filter (fun x => it_seq x < it_seq last) (held s)))).
      { apply NoDup_fmap_2_strong; [|by apply list.NoDup_filter, held_nodup]. intros x y [_ Hx]%list_elem_of_filter [_ Hy]%list_elem_of_filter He.
        apply (held_unique s); auto. }
      apply list.NoDup_cons. split; [|apply list.NoDup_cons; split; [|done]].
      + intros [He|(x & Ex & [_ Hx]%list_elem_of_filter)%list_elem_of_fmap]%elem_of_cons; [lia|].
        specialize (Hab x (proj1 (list_elem_of_In _ _) Hx)). lia.
      + intros (x & Ex & [_ Hx]%list_elem_of_filter)%list_elem_of_fmap. by apply (Hf x Hx). }
    assert (HL2 : Forall (fun n => nextSequenceNumber s <= n < it_seq last) L).
    { apply Forall_forall. intros n [->|[->|Hn']%elem_of_cons]%list_elem_of_In%elem_of_cons; [lia|lia|].
      apply list_elem_of_fmap in Hn' as (x & -> & [Hlt Hx]%list_elem_of_filter). specialize (Hab x (proj1 (list_elem_of_In _ _) Hx)). lia. }
    pose proof (distinct_in_range L _ _ HL1 HL2) as Hd. unfold L in Hd. cbn [length] in Hd. rewrite length_map in Hd. fold k in Hd. lia. }
  unfold canQueue, CanAdd, CanAddWithQueueByteCount. rewrite Hb. destruct (_ && _); [done|].
  destruct Hw as [[_ Hbw] _]. rewrite (bw_bytes _ _ _ Hbw). change (MessageByteCount it_transfer) with it_bytes. fold (held s).
  assert (0 <= sumZ (map it_bytes (held s))).
  { apply sumZ_map_nonneg. intros x Hx. rewrite Forall_forall in Hby. by apply Hby, list_elem_of_In. }
  rewrite (i64_small (sumZ _)) by (unfold MaxInt64 in *; lia). rewrite i64_small by (unfold MaxInt64 in *; lia).
  rewrite (proj2 (Z.leb_gt _ _)); [done|]. assert (Hfr : 1 <= frame_bytes s /\ maxHeldByteCount s <= frame_bytes s) by (unfold frame_bytes; lia). nia.
Qed.

(** Evicting the newest, uncommitted item keeps the room. *)
Lemma gap_room_evict s s1 i last e :
  gap_room s i -> last ∈ held s -> (forall x, x ∈ held s -> it_seq x <= it_seq last) -> it_ptr last ∉ committed s ->
  requeued s s1 -> removed s s1 (Some last) -> gap_room (messagePoolReturn (emit s1 e) last) i.
Proof.
  intros Hg Hin Hmax Hu [Hw1 Hb1 Hl1 Hs1] Hr. pose proof Hg as [Hw Hb Hl Hby Hsum Hsz Hab Hn Hf Hwi (c & Hc & Hcc & Hci)]. pose proof Hr as Hr'. unfold removed in Hr'.
  set (s2 := messagePoolReturn (emit s1 e) last).
  assert (Eh : held s2 = held s1) by done. assert (En : nextSequenceNumber s2 = nextSequenceNumber s) by (unfold s2; rewrite Hs1; done).
  assert (Em : maxHeldByteCount s2 = maxHeldByteCount s) by (unfold s2; rewrite Hs1; done).
  assert (Ec : committed s2 = committed s) by (unfold s2; rewrite Hs1; done).
  rewrite <- Hr' in Hby, Hab. rewrite <- (sumZ_map_perm it_bytes _ _ Hr') in Hsum. cbn [map] in Hsum. rewrite sumZ_cons in Hsum.
  apply Forall_cons_1 in Hby as [Hlb Hby]. apply Forall_cons_1 in Hab as [_ Hab].
  assert (Hsub : forall x, x ∈ held s1 -> x ∈ held s /\ it_seq x <> it_seq last).
  { intros x Hx. split; [by eapply removed_elem|]. by destruct (removed_gone s s1 last Hw Hr x Hx). }
  split; rewrite ?Eh, ?En, ?Em, ?Ec; try done; [exact (eq_trans Hb1 Hb)|exact (eq_trans Hl1 Hl)|lia| | |].
  - intros x Hx. apply Hf. by destruct (Hsub x Hx).
  - intros x Hx Hxc. destruct (Hsub x Hx) as [Hx' Hne]. specialize (Hmax x Hx') as Hle. specialize (Hwi x Hx' Hxc).
    assert (H1 : filter (fun y => it_seq y < it_seq x) (held s1) ≡ₚ filter (fun y => it_seq y < it_seq x) (held s)).
    { rewrite <- Hr', filter_cons, decide_False by lia. done. }
    assert (H2 : filter (fun y => it_seq y <= it_seq x) (held s1) ≡ₚ filter (fun y => it_seq y <= it_seq x) (held s)).
    { rewrite <- Hr', filter_cons, decide_False by lia. done. }
    unfold within, frame_bytes in *. rewrite Eh, En, Em, (Permutation_length H1), (sumZ_map_perm it_bytes _ _ H2). done.
  - exists c. split; [|done]. rewrite <- Hr' in Hc. apply elem_of_cons in Hc as [->|Hc]; [done|done].
Qed.

(** What leaves the hold to make room for [i]: items that were not
    acknowledged, all above it. *)
Definition spared s i (l : list receiveItem) : Prop :=
  Forall (fun x => it_ptr x ∉ committed s /\ it_seq i < it_seq x) l.

Lemma evict_makes_room fuel s i :
  ReceiveHoldPolicy settings = ReceiveHoldCommittedPrefix -> gap_room s i -> (length (held s) < fuel)%nat ->
  exists s' l, evict_later fuel s (it_seq i) (it_bytes i) = Ret s' /\ canQueue s' (it_bytes i) = true /\
    gap_room s' i /\ l ++ held s' ≡ₚ held s /\ spared s i l /\ committed s' = committed s.
Proof.
  intros Hpol. revert s. induction fuel as [|fuel IH]; intros s Hg Hf; [lia|]. cbn [evict_later].
  destruct (canQueue s (it_bytes i)) eqn:Ec; [exists s, []; split; [done|]; split; [done|]; split; [done|]; split; [done|]; split; [constructor|done]|]. pose proof (gr_wf _ _ Hg) as Hw.
  destruct (gr_committed _ _ Hg) as (c & Hc & Hcc & Hci). destruct (PeekLast (receiveQueue s)) as [last|] eqn:Ep.
  2:{ destruct (queue_reads it_transfer item_cmp item_cmp_flip item_cmp_trans _ (proj1 Hw)) as (_ & _ & _ & Hn & _). apply Hn in Ep.
      exfalso. assert (c ∈ (∅ : gset receiveItem)); [|set_solver]. rewrite <- Ep. by apply elem_of_list_to_set. }
  destruct (peek_last s last Hw Ep) as [Hin Hmax]. specialize (Hmax c Hc) as Hcl. rewrite (proj2 (Z.leb_gt _ _)) by lia.
  rewrite (bool_decide_eq_true_2 _ Hpol). cbn [andb]. case_bool_decide as Hlc.
  { exfalso. rewrite (gap_room_fits s i last Hg Ep Hlc) in Ec. done. }
  destruct (q_remove_held s last Hw Hin) as (s1 & E1 & Hq1 & Hr1). rewrite E1. cbn [gbind].
  set (s2 := messagePoolReturn _ last). assert (E2 : committed s2 = committed s) by (unfold s2; rewrite (rq_rest _ _ Hq1); done).
  destruct (IH s2) as (s' & l & He & Hcan & Hg' & Hl & Hs & Hcm).
  { by apply (gap_room_evict s s1 i last). }
  { pose proof (removed_length _ _ _ Hr1). change (length (held s1) < fuel)%nat. lia. }
  exists s', (last :: l). split; [done|]. split; [done|]. split; [done|]. split; [|split].
  - cbn. rewrite Hl. exact Hr1.
  - constructor; [split; [done|lia]|]. unfold spared in *. by rewrite E2 in Hs.
  - by rewrite Hcm.
Qed.

(** Committing moves nothing in or out of the hold and takes no ack back. *)
Lemma commit_all_hold l s : receiveQueue (commit_all s l) = receiveQueue s /\ committed s ⊆ committed (commit_all s l).
Proof.
  unfold commit_all. revert s. induction l as [|i l IH]; intros s; cbn [fold_left]; [done|]. case_bool_decide; [apply IH|].
  destruct (IH (commitHeldItem s i)) as [-> Hs]. split; [done|]. etransitivity; [|exact Hs]. cbn. set_solver.
Qed.

Lemma commit_prefix_hold l s k h : receiveQueue (commit_prefix s k h l) = receiveQueue s /\ committed s ⊆ committed (commit_prefix s k h l).
Proof.
  revert s k h. induction l as [|i l IH]; intros s k h; cbn [commit_prefix]; [done|]. destruct (negb _); [done|]. case_bool_decide; [apply IH|].
  destruct (IH (commitHeldItem s i) (S k) (i64 (h + it_bytes i))) as [-> Hs]. split; [done|]. etransitivity; [|exact Hs]. cbn. set_solver.
Qed.

Lemma commitHeldPrefix_hold s : held (commitHeldPrefix s) = held s /\ committed s ⊆ committed (commitHeldPrefix s).
Proof.
  unfold commitHeldPrefix, held. destruct (QueueSize _) as [n t]. destruct (n =? 0)%nat; [done|]. destruct (match PeekLast _ with None => _ | _ => _ end).
  - destruct (commit_all_hold (UnorderedItems (receiveQueue s)) s) as [-> ?]. done.
  - destruct (commit_prefix_hold (AscendingItems item_cmp (receiveQueue s)) s 0 0) as [-> ?]. done.
Qed.

(** C7: The promise behind a selective ack: under the committed-prefix policy and
    without a shared budget, as long as the acknowledged items are inside the
    commit boundary, an arrival that fills a gap below one of them and is no
    larger than the frames seen so far is always taken: it joins the hold, what
    leaves the hold for it are only items above it that were not acknowledged,
    and whatever was acknowledged stays so and stays held. *)
Theorem committed_gap_accepted s i :
  ReceiveHoldPolicy settings = ReceiveHoldCommittedPrefix -> gap_room s i ->
  exists s' l, receive_early s i = Ret (s', inl true) /\ l ++ held s' ≡ₚ i :: held s /\ spared s i l /\
    committed s ⊆ committed s' /\ (forall x, x ∈ held s -> it_ptr x ∈ committed s -> x ∈ held s').
Proof.
  intros Hpol Hg. unfold receive_early. rewrite (bool_decide_eq_false_2 (_ = ReceiveHoldRefuse)) by congruence.
  destruct (evict_makes_room (S (Len (orderedItems (receiveQueue s)))) s i Hpol Hg) as (s1 & l & -> & Hc & Hg1 & Hl & Hs & Hcm); [unfold held, Len; lia|].
  cbn [gbind]. rewrite Hc, (bool_decide_eq_true_2 _ Hpol).
  set (s2 := set_hold s1 _ _). destruct (q_add_ok s2 i (gr_wf _ _ Hg1) (gr_fresh _ _ Hg1)) as [Hq3 Hp3]. change (held s2) with (held s1) in Hp3.
  set (s3 := q_add s2 i) in *. destruct (commitHeldPrefix_hold s3) as [Eh Ec].
  assert (Hperm : l ++ held (commitHeldPrefix s3) ≡ₚ i :: held s) by (rewrite Eh, Hp3, <- Permutation_middle, Hl; done).
  exists (commitHeldPrefix s3), l. split; [done|]. split; [exact Hperm|]. split; [done|]. split.
  - rewrite <- Hcm. etransitivity; [|exact Ec]. rewrite (rq_rest _ _ Hq3). done.
  - intros x Hx Hxc. assert (Hin : x ∈ l ++ held (commitHeldPrefix s3)) by (rewrite Hperm; set_solver).
    apply elem_of_app in Hin as [Hin|Hin]; [|done]. unfold spared in Hs. rewrite Forall_forall in Hs.
    by destruct (Hs x (proj1 (list_elem_of_In _ _) Hin)).
Qed.

(** A message without sequence that names an open contract with no room left,
    from a source that is allowed to send without contracts, panics the
    receiver: the charge fails, the source's exemption admits the message all
    the same, and crediting the contract finds nothing to credit. *)
Theorem nack_on_full_contract_panics s p mid id c :
  IdFromBytes (bval (FrameCodec.MessageId (rp_Pack p))) = inl mid -> ContractId (rp_Pack p) = Some id -> length id = 16%nat ->
  ContractFrame (rp_Pack p) = None -> openReceiveContracts s !! id = Some c -> expirationTimeUnixMilli c = None ->
  unackedByteCount c = 0 -> 0 < effective c (rp_MessageByteCount p) ->
  effectiveTransferByteCount c < i64 (i64 (ackedByteCount c + 0) + effective c (rp_MessageByteCount p)) ->
  (forall n, ReceiveNoContract n = true) ->
  receiveNack s p = Panic.
Proof.
  intros Hmid Hid Hlen Hcf Hc Hexp Hu Hpos Hfull Hno. unfold receiveNack. rewrite Hmid, Hid. unfold IdFromBytes. rewrite Hlen. cbn [Nat.eqb].
  rewrite bool_decide_eq_false_2 by done. cbn [andb]. unfold registerContracts. cbn [it_contractFrame make_item]. rewrite Hcf. cbn [gbind].
  rewrite bool_decide_eq_false_2 by (cbn; congruence). unfold updateContract. cbn [openReceiveContracts bump_items bump_reads].
  assert (He : forall t, expired c t = false) by (intros t; unfold expired; by rewrite Hexp).
  rewrite Hc. unfold expired_now, debit, update. rewrite !He, Hu. cbn [it_bytes it_transfer make_item messageByteCount].
  rewrite (proj2 (Z.ltb_lt _ _)) by done. rewrite Hno. unfold receiveHead, settle_contract. cbn [openReceiveContracts emit set_contracts].
  rewrite lookup_insert_eq. unfold ack. cbn [it_bytes it_transfer make_item messageByteCount]. rewrite Hu, (proj2 (Z.ltb_lt _ _)) by done. done.
Qed.
End order.

(** ** Witnesses *)

(** Big-endian ids from a counter; every contract frame holds the same signed
    contract of 100 bytes. *)
Definition demo_newId (n : nat) : bytes := id_of_state {| ms := 0; entropyHi := 0; entropyLo := Z.of_nat n |}.
Definition demo_stored : StoredContract := MkStoredContract (replicate 16 9) 100 None None None [] [] [] None.

Definition demo_env (policy : ReceiveHoldPolicyKind) (noContract : bool) : ReceiveEnv := {|
  settings := MkReceiveSettings 30000000000 60000000000 10 1000 policy false 2;
  clock _ := 0;
  unmarshalContract _ := Some (MkContract [] [] 3 [] [] []);
  unmarshalStored _ := Some demo_stored;
  unmarshalControl _ := None;
  Verify _ _ _ _ := true;
  ReceiveNoContract _ := noContract;
  newId := demo_newId;
  session := None;
|}.

Lemma demo_env_ok policy noContract : @EnvOk (demo_env policy noContract).
Proof.
  split; cbn [newId settings demo_env MaxOpenReceiveContract MinMessageByteCount].
  - intros n. split; [done|]. apply id_of_state_ok.
  - intros n m Hnm Hm. change (2 ^ 64) with 18446744073709551616 in Hm.
    assert (Hok : forall k, (k <= m)%nat -> idGenState_ok {| ms := 0; entropyHi := 0; entropyLo := Z.of_nat k |}).
    { intros k Hk. unfold idGenState_ok. cbn. lia. }
    apply Z.ltb_lt. change (LessThan (demo_newId n) (demo_newId m) = true).
    apply LessThan_val; [apply id_of_state_ok|apply id_of_state_ok|done|].
    unfold demo_newId. rewrite !id_of_state_val by (apply Hok; lia). cbn [ms entropyHi entropyLo]. lia.
  - lia.
  - lia.
Qed.

Definition demo_receive (n size : Z) (buffer : nat) (head : bool) : select_case :=
  SelPack (MkReceivePack (MkPack (Some (demo_id n)) None n head [demo_frame] false None None None) size buffer false).

Definition demo_sequence : @ReceiveSequence (world * (nat -> Z)) nat := NewReceiveSequence demo_pool (Some 0%nat) 0 false.

Lemma demo_start_ok : start_ok demo_pool (Some 0%nat) 0.
Proof. split; [unfold MaxInt64; lia|apply demo_pool_ok]. Qed.

(** Packs 2, 0, 2 again and 1: early, due, duplicate, and the gap. *)
Definition demo_arrivals : list select_case :=
  [demo_receive 2 100 0 false; demo_receive 0 100 1 false; demo_receive 2 100 2 false; demo_receive 1 100 3 false; SelIdle false].
Definition demo_E := demo_env ReceiveHoldCommittedPrefix true.

Lemma demo_arrivals_ok : Forall (pack_ok (E := demo_E)) (packs_of demo_arrivals).
Proof. repeat constructor; cbn; try (unfold max_seq, in64; lia); done. Qed.

Lemma receive_buffers_once_witness :
  exists s g, Run (E := demo_E) demo_sequence demo_arrivals = Ret (s, g) /\
    map it_buffer (held s) ++ returned (rs_log s) ≡ₚ [0; 1; 2; 3]%nat.
Proof.
  pose proof (demo_env_ok ReceiveHoldCommittedPrefix true) as EO.
  destruct (receive_buffers_once (E := demo_E) demo_pool (Some 0%nat) 0 false demo_arrivals demo_start_ok demo_arrivals_ok)
    as (s & g & Er & _ & _ & Hb); [cbn; repeat constructor; set_solver|].
  exists s, g. split; [exact Er|].
  assert (E : match Run (E := demo_E) demo_sequence demo_arrivals with
              | Ret (s, g) => g = true /\ jumped (rs_log s) = false
              | Panic => False
              end) by (vm_compute; repeat split).
  unfold demo_sequence in E. rewrite Er in E. destruct E as (-> & Ej). exact (Hb eq_refl Ej).
Defined.

Lemma receive_acks_true_witness :
  exists s g w w' snap, Run (E := demo_E) demo_sequence demo_arrivals = Ret (s, g) /\
    window_run (newSequenceAckWindowWithGapWake 3) (DoSnapshot true :: map DoUpdate (acks (rs_log s))) = Ret w /\
    AckWindow.Snapshot w true = Ret (w', snap) /\ map ak_sequenceNumber (writeSnapshot snap) = [2].
Proof.
  pose proof (demo_env_ok ReceiveHoldCommittedPrefix true) as EO.
  destruct (receive_acks_true (E := demo_E) demo_pool (Some 0%nat) 0 false demo_arrivals demo_start_ok demo_arrivals_ok)
    as (s & g & pos & Er & Hpos & Hw).
  { intros p q Hp Hq. cbn in Hp, Hq. repeat (apply elem_of_cons in Hp as [->|Hp]); repeat (apply elem_of_cons in Hq as [->|Hq]);
      try (by apply elem_of_nil in Hp); try (by apply elem_of_nil in Hq); vm_compute; done. }
  assert (E : match Run (E := demo_E) demo_sequence demo_arrivals with
              | Ret (s, g) => acks (rs_log s) = [demo_ack_at 2 true false; demo_ack_at 0 false false; demo_ack_at 2 true false;
                                                 demo_ack_at 1 false false; demo_ack_at 2 false false]
              | Panic => False
              end) by (vm_compute; repeat split).
  unfold demo_sequence in *. rewrite Er in E.
  destruct (Hw 3 (DoSnapshot true :: map DoUpdate (acks (rs_log s))) true) as (w & w' & snap & E1 & E2 & _).
  { rewrite E. vm_compute. reflexivity || exists []. reflexivity. }
  { rewrite E. vm_compute. reflexivity. }
  exists s, g, w, w', snap. split; [exact Er|]. split; [exact E1|]. split; [exact E2|].
  rewrite E in E1. assert (E3 : match window_run (newSequenceAckWindowWithGapWake 3) (DoSnapshot true :: map DoUpdate
      [demo_ack_at 2 true false; demo_ack_at 0 false false; demo_ack_at 2 true false; demo_ack_at 1 false false; demo_ack_at 2 false false]) with
    | Ret w => match AckWindow.Snapshot w true with Ret (_, snap) => map ak_sequenceNumber (writeSnapshot snap) = [2] | Panic => False end
    | Panic => False end) by (vm_compute; reflexivity).
  rewrite E1, E2 in E3. exact E3.
Defined.

(** A pack that brings the contract, with or without a number. *)
Definition demo_with_contract (n size : Z) (nack : bool) (frame : option Frame) : select_case :=
  SelPack (MkReceivePack (MkPack (Some (demo_id n)) None n false [demo_frame] nack frame None
    (if nack then Some (replicate 16 9) else None)) size (Z.to_nat n) false).


(** The state after arrivals at a sequence without a budget. *)
Definition demo_state (l : list select_case) : @ReceiveSequence (world * (nat -> Z)) nat :=
  match Run (E := demo_E) (NewReceiveSequence demo_pool None 0 false) l with Ret (s, _) => s | Panic => NewReceiveSequence demo_pool None 0 false end.

Lemma demo_state_inv l :
  Forall (pack_ok (E := demo_E)) (packs_of l) -> hold_wf (demo_state l) /\ ptrs_ok (demo_state l).
Proof.
  intros Hok. pose proof (demo_env_ok ReceiveHoldCommittedPrefix true) as EO.
  destruct (run_inv (E := demo_E) demo_pool None 0 false l) as (s & g & P & pos & extra & Er & _ & Hinv & _); [split; [unfold MaxInt64; lia|done]|done|].
  unfold demo_state. rewrite Er. split; apply Hinv.
Qed.


(** Item 3 is committed, 6, 7 and 8 fill the hold tentatively; 1 arrives. *)
Definition demo_gap_state := demo_state [demo_receive 3 200 0 false; demo_receive 6 200 1 false; demo_receive 7 200 2 false; demo_receive 8 200 3 false].
Definition demo_gap_item : receiveItem :=
  ReceiveItem 4 (TransferItem (demo_id 1) 200 0 1) 0 [demo_frame] None None 4 false true false.

Lemma committed_gap_accepted_witness :
  canQueue (E := demo_E) demo_gap_state 200 = false /\
  exists s l, receive_early (E := demo_E) demo_gap_state demo_gap_item = Ret (s, inl true) /\
    map it_seq l = [8] /\ l ++ held s ≡ₚ demo_gap_item :: held demo_gap_state.
Proof.
  split; [vm_compute; reflexivity|]. pose proof (demo_env_ok ReceiveHoldCommittedPrefix true) as EO.
  destruct (demo_state_inv [demo_receive 3 200 0 false; demo_receive 6 200 1 false; demo_receive 7 200 2 false; demo_receive 8 200 3 false]) as [Hw _].
  { repeat constructor; cbn; try (unfold max_seq, in64; lia); done. }
  assert (Hc : Forall (fun c => it_ptr c ∈ committed demo_gap_state -> within (E := demo_E) demo_gap_state c) (held demo_gap_state)).
  { unfold within. apply (bool_decide_unpack _). vm_compute. exact I. }
  assert (Hfr : Forall (fun x => it_ptr x <> it_ptr demo_gap_item /\ it_id x <> it_id demo_gap_item /\ it_seq x <> it_seq demo_gap_item) (held demo_gap_state)).
  { apply (bool_decide_unpack _). vm_compute. exact I. }
  destruct (committed_gap_accepted (E := demo_E) demo_gap_state demo_gap_item) as (s & l & Es & Hp & _).
  { reflexivity. }
  { split; [exact Hw|vm_compute; reflexivity|vm_compute; reflexivity|
          apply (bool_decide_unpack _); vm_compute; exact I|apply (bool_decide_unpack _); vm_compute; exact I|
          apply (bool_decide_unpack _); vm_compute; exact I|apply (bool_decide_unpack _); vm_compute; exact I|
          apply (bool_decide_unpack _); vm_compute; exact I| | |].
    - intros x Hx. rewrite Forall_forall in Hfr. exact (Hfr x (proj1 (list_elem_of_In _ _) Hx)).
    - intros c Hin. rewrite Forall_forall in Hc. exact (Hc c (proj1 (list_elem_of_In _ _) Hin)).
    - assert (Ex : Exists (fun c => it_ptr c ∈ committed demo_gap_state /\ it_seq demo_gap_item < it_seq c) (held demo_gap_state)).
      { apply (bool_decide_unpack _). vm_compute. exact I. }
      apply Exists_exists in Ex as (c & Hin & H1 & H2). exists c. split; [exact (proj2 (list_elem_of_In _ _) Hin)|exact (conj H1 H2)]. }
  exists s, l. split; [exact Es|]. split; [|exact Hp].
  assert (Ev : match receive_early (E := demo_E) demo_gap_state demo_gap_item with
               | Ret (s, _) => map it_seq (held s) = [1; 3; 7; 6] | Panic => False end) by (vm_compute; reflexivity).
  rewrite Es in Ev. apply (Permutation_map it_seq) in Hp. rewrite map_app, Ev in Hp.
  assert (Eg : map it_seq (held demo_gap_state) = [3; 6; 7; 8]) by (vm_compute; reflexivity).
  cbn [map] in Hp. rewrite Eg in Hp. change (it_seq demo_gap_item) with 1 in Hp.
  apply Permutation_singleton_r. apply (Permutation_app_inv_r [1; 3; 7; 6]). rewrite Hp. by apply (bool_decide_unpack _).
Defined.

(** Two unsequenced messages of 60 bytes name a contract of 100 bytes. *)
Lemma nack_on_full_contract_panics_witness :
  exists s g p, Run (E := demo_E) demo_sequence [demo_with_contract 0 60 true (Some demo_frame)] = Ret (s, g) /\ g = true /\
    demo_with_contract 1 60 true None = SelPack p /\ receiveNack (E := demo_E) s p = Panic.
Proof.
  assert (E : match Run (E := demo_E) demo_sequence [demo_with_contract 0 60 true (Some demo_frame)] with
              | Ret (s, g) => g = true /\ match openReceiveContracts s !! replicate 16 9 with
                  | Some c => expirationTimeUnixMilli c = None /\ unackedByteCount c = 0 /\ effective c 60 = 60 /\
                      effectiveTransferByteCount c = 100 /\ ackedByteCount c = 60
                  | None => False end
              | Panic => False
              end) by (vm_compute; repeat split).
  destruct (Run (E := demo_E) demo_sequence [demo_with_contract 0 60 true (Some demo_frame)]) as [[s g]|]; [|destruct E].
  destruct E as [-> E]. destruct (openReceiveContracts s !! replicate 16 9) as [c|] eqn:Ec; [|destruct E].
  destruct E as (E1 & E2 & E3 & E4 & E5). eexists s, true, _. split; [reflexivity|]. split; [reflexivity|]. split; [reflexivity|].
  apply (nack_on_full_contract_panics (E := demo_E) s _ (demo_id 1) (replicate 16 9) c);
    [reflexivity|reflexivity|reflexivity|reflexivity|exact Ec|exact E1|exact E2|cbn [rp_MessageByteCount]; rewrite E3; lia| |reflexivity].
  cbn [rp_MessageByteCount]. rewrite E3, E4, E5. vm_compute. reflexivity.
Defined.

(** A held item that a moved head passes is acknowledged and dropped without
    giving its buffer back: after pack 5 is held and the sender moves the head
    to 10, buffer 0 is neither held nor returned, even after the sequence has
    ended. *)
Theorem head_jump_loses_buffer :
  exists s, Run (E := demo_E) demo_sequence [demo_receive 5 100 0 false; demo_receive 10 100 1 true; SelIdle false; SelDone] = Ret (s, false) /\
    held s = [] /\ returned (rs_log s) = [1]%nat /\
    map ak_sequenceNumber (acks (rs_log s)) = [5; 10; 5].
Proof.
  assert (E : match Run (E := demo_E) demo_sequence [demo_receive 5 100 0 false; demo_receive 10 100 1 true; SelIdle false; SelDone] with
              | Ret (s, g) => g = false /\ held s = [] /\ returned (rs_log s) = [1]%nat /\ map ak_sequenceNumber (acks (rs_log s)) = [5; 10; 5]
              | Panic => False end) by (vm_compute; repeat split).
  destruct (Run _ _) as [[s g]|]; [|destruct E]. destruct E as (-> & E). exists s. split; [reflexivity|exact E].
Qed.

(** A duplicate of an acknowledged item makes it evictable. Pack 5 is committed
    and selectively acknowledged; a larger pack 9 raises the gap estimate; a
    second copy of 5 replaces the held one, is no longer inside the boundary
    and stays tentative; the packs 1, 2 and 3 then evict it, although its
    sender was told that it is held. *)
Theorem resend_withdraws_commitment :
  exists s, Run (E := demo_E) demo_sequence
    [demo_receive 5 100 0 false; demo_receive 9 300 1 false; demo_receive 5 100 2 false;
     demo_receive 1 300 3 false; demo_receive 2 300 4 false; demo_receive 3 300 5 false] = Ret (s, true) /\
    (exists a, a ∈ acks (rs_log s) /\ ak_selective a = true /\ ak_sequenceNumber a = 5) /\
    nextSequenceNumber s = 0 /\ 5 ∉ map it_seq (held s).
Proof.
  assert (E : match Run (E := demo_E) demo_sequence
    [demo_receive 5 100 0 false; demo_receive 9 300 1 false; demo_receive 5 100 2 false;
     demo_receive 1 300 3 false; demo_receive 2 300 4 false; demo_receive 3 300 5 false] with
              | Ret (s, g) => g = true /\ head (acks (rs_log s)) = Some (demo_ack_at 5 true false) /\ nextSequenceNumber s = 0 /\
                              bool_decide (5 ∉ map it_seq (held s)) = true
              | Panic => False end) by (vm_compute; repeat split).
  destruct (Run _ _) as [[s g]|]; [|destruct E]. destruct E as (-> & E1 & E2 & E3). exists s. split; [reflexivity|].
  split; [|split; [exact E2|by apply bool_decide_eq_true in E3]]. exists (demo_ack_at 5 true false). split; [|done].
  destruct (acks (rs_log s)) as [|a l]; [done|]. injection E1 as ->. by left.
Qed.
