(* ===== verification/FlightController.v ===== *)
(** The send flight controller of src/transfer_flight.go: the bytes and
    messages in flight on an unreliable route, the limits they are admitted
    against, and how the limits move with acknowledgements and losses. *)
From S2P Require Import Prelude.

(** ** State *)

(** [sendSchedulingKey]; its only field says whether it is valid. *)
Abbreviation sendSchedulingKey := bool (only parsing).
Definition no_key : sendSchedulingKey := false.

(** The settings the controller reads. *)
Record SendBufferSettings := {
  UnreliableInitialFlightByteCount : Z;
  UnreliableMinimumFlightByteCount : Z;
  UnreliableMaximumFlightByteCount : Z;
  UnreliableFlightIncreaseByteCount : Z;
  UnreliableInitialFlightMessageCount : Z;
  UnreliableMinimumFlightMessageCount : Z;
  UnreliableMaximumFlightMessageCount : Z;
  UnreliableFlightIncreaseMessageCount : Z;
  UnreliableSlowStartGrowthDivisor : Z;
}.

(** The normalised settings. *)
Record flightConfig := FlightConfig {
  initialByteCount : Z;
  minimumByteCount : Z;
  maximumByteCount : Z;
  increaseByteCount : Z;
  initialMessageCount : Z;
  minimumMessageCount : Z;
  maximumMessageCount : Z;
  increaseMessageCount : Z;
  slowStartDivisor : Z;
}.

(** The carrier policy last applied, and the limits it activates. *)
Record flightPolicy := FlightPolicy {
  generation : Z;
  limited : bool;
  policyByteLimit : Z;
  policyMessageLimit : Z;
  flowReserveEnabled : bool;
  activeMinimumByteCount : Z;
  activeMaximumByteCount : Z;
  activeMinimumMessageCount : Z;
  activeMaximumMessageCount : Z;
}.

Record flightLimits := FlightLimits {
  slowStart : bool;
  byteLimit : Z;
  messageLimit : Z;
  additiveIncreaseRemainder : Z;
  slowStartIncreaseRemainder : Z;
  additiveMessageRemainder : Z;
  slowStartMessageRemainder : Z;
}.

Record flightCounts := FlightCounts {
  byteCount : Z;
  messageCount : Z;
  messageCountByKey : gmap sendSchedulingKey Z;
  flowReserveInUse : bool;
}.

Record sendFlightController := Controller {
  config : flightConfig;
  policy : flightPolicy;
  limits : flightLimits;
  counts : flightCounts;
}.

Definition zero_config : flightConfig := FlightConfig 0 0 0 0 0 0 0 0 0.
Definition start (c : flightConfig) : sendFlightController :=
  Controller c (FlightPolicy 0 false 0 0 false 0 0 0 0) (FlightLimits false 0 0 0 0 0 0)
    (FlightCounts 0 0 ∅ false).

Definition newSendFlightController (settings : option SendBufferSettings) : sendFlightController :=
  match settings with
  | None => start zero_config
  | Some s =>
      let initialB := UnreliableInitialFlightByteCount s in
      if initialB <=? 0 then start zero_config
      else
        let minB := if UnreliableMinimumFlightByteCount s <=? 0 then initialB else UnreliableMinimumFlightByteCount s in
        let maxB := if UnreliableMaximumFlightByteCount s <? minB then minB else UnreliableMaximumFlightByteCount s in
        let initialB := Z.min (Z.max initialB minB) maxB in
        let incB := if UnreliableFlightIncreaseByteCount s <=? 0 then 1 else UnreliableFlightIncreaseByteCount s in
        let divisor := if UnreliableSlowStartGrowthDivisor s <=? 0 then 1 else UnreliableSlowStartGrowthDivisor s in
        let initialM := UnreliableInitialFlightMessageCount s in
        let minM := UnreliableMinimumFlightMessageCount s in
        let maxM := UnreliableMaximumFlightMessageCount s in
        let incM := UnreliableFlightIncreaseMessageCount s in
        if 0 <? initialM then
          let minM := if minM <=? 0 then initialM else minM in
          let maxM := if maxM <? minM then minM else maxM in
          let initialM := Z.min (Z.max initialM minM) maxM in
          let incM := if incM <=? 0 then 1 else incM in
          start (FlightConfig initialB minB maxB incB initialM minM maxM incM divisor)
        else start (FlightConfig initialB minB maxB incB initialM minM maxM incM divisor)
  end.

(** ** Policy *)

(** The fields of [transferFlightPolicySnapshot] the controller reads. *)
Record policySnapshot := Snapshot {
  p_generation : Z;
  p_limited : bool;
  p_byteLimit : Z;
  p_messageLimit : Z;
  p_flowReserve : bool;
}.

Definition applyPolicy (c : sendFlightController) (p : policySnapshot) : sendFlightController * bool :=
  let cfg := config c in
  let lim := p_limited p && (0 <? initialByteCount cfg) in
  if (generation (policy c) =? p_generation p) && Bool.eqb (limited (policy c)) lim &&
     (policyByteLimit (policy c) =? p_byteLimit p) && (policyMessageLimit (policy c) =? p_messageLimit p) &&
     Bool.eqb (flowReserveEnabled (policy c)) (p_flowReserve p)
  then (c, false)
  else if lim then
    let maxB := if 0 <? p_byteLimit p then Z.min (maximumByteCount cfg) (p_byteLimit p) else maximumByteCount cfg in
    let minB := Z.min (minimumByteCount cfg) maxB in
    let byteLimit := Z.min (Z.max (initialByteCount cfg) minB) maxB in
    let perPolicy := (0 <? p_messageLimit p) && (0 <? initialMessageCount cfg) in
    let maxM := if perPolicy then Z.min (maximumMessageCount cfg) (p_messageLimit p) else maximumMessageCount cfg in
    let minM := if perPolicy then Z.min (minimumMessageCount cfg) maxM else minimumMessageCount cfg in
    let messageLimit := Z.min (Z.max (initialMessageCount cfg) minM) maxM in
    (Controller cfg
       (FlightPolicy (p_generation p) lim (p_byteLimit p) (p_messageLimit p) (p_flowReserve p) minB maxB minM maxM)
       (FlightLimits true byteLimit messageLimit 0 0 0 0) (counts c), true)
  else
    (Controller cfg
       (FlightPolicy (p_generation p) lim (p_byteLimit p) (p_messageLimit p) (p_flowReserve p) 0 0 0 0)
       (FlightLimits false 0 0 0 0 0 0) (counts c), true).

(** ** Sending *)

Definition keyCount (c : sendFlightController) (key : sendSchedulingKey) : Z :=
  default 0 (messageCountByKey (counts c) !! key).

Definition canSendForKey (c : sendFlightController) (key : sendSchedulingKey) : bool :=
  let n := counts c in
  let l := limits c in
  if negb (limited (policy c)) || ((byteCount n =? 0) && (messageCount n =? 0)) then true
  else if (byteCount n <? byteLimit l) && ((messageLimit l <=? 0) || (messageCount n <? messageLimit l)) then true
  else flowReserveEnabled (policy c) && key && negb (flowReserveInUse n) && (keyCount c key =? 0).

Definition canSend (c : sendFlightController) : bool := canSendForKey c no_key.

Definition sendForKey (c : sendFlightController) (n : Z) (key : sendSchedulingKey) : sendFlightController * bool :=
  let k := counts c in
  let l := limits c in
  let reserved :=
    limited (policy c) && flowReserveEnabled (policy c) && key && negb (flowReserveInUse k) &&
    (keyCount c key =? 0) &&
    ((byteLimit l <=? byteCount k) || ((0 <? messageLimit l) && (messageLimit l <=? messageCount k))) in
  let inUse := if reserved then true else flowReserveInUse k in
  let k :=
    if 0 <? n
    then FlightCounts (i64 (byteCount k + n)) (i64 (messageCount k + 1))
           (if key then <[key := i64 (keyCount c key + 1)]> (messageCountByKey k) else messageCountByKey k) inUse
    else FlightCounts (byteCount k) (messageCount k) (messageCountByKey k) inUse in
  (Controller (config c) (policy c) l k, reserved).

Definition send (c : sendFlightController) (n : Z) : sendFlightController := fst (sendForKey c n no_key).

(** ** Acknowledgement *)

(** One message fewer for [key], its entry deleted at zero. *)
Definition dropKey (m : gmap sendSchedulingKey Z) (key : sendSchedulingKey) : gmap sendSchedulingKey Z :=
  let v := default 0 (m !! key) in
  if key && (0 <? v) then
    if i64 (v - 1) =? 0 then delete key m else <[key := i64 (v - 1)]> m
  else m.

(** Go's [/] and [%] on integers: truncation, and a panic on zero. *)
Definition go_div (a b : Z) : go Z := if b =? 0 then Panic else Ret (i64 (Z.quot a b)).
Definition go_rem (a b : Z) : go Z := if b =? 0 then Panic else Ret (i64 (Z.rem a b)).

(** One limit's growth: the carried remainder plus the new numerator, divided
    by the divisor, capped at the active maximum. *)
Definition grow (limit maximum remainder amount divisor : Z) : go (Z * Z) :=
  let numerator := i64 (remainder + amount) in
  let! increase := go_div numerator divisor in
  let! remainder := go_rem numerator divisor in
  Ret (Z.min maximum (i64 (limit + increase)), remainder).

Definition growIf (cond : bool) (limit maximum remainder amount divisor : Z) : go (Z * Z) :=
  if cond then grow limit maximum remainder amount divisor else Ret (limit, remainder).

Definition acknowledgeForKey (c : sendFlightController) (n : Z) (key : sendSchedulingKey) (reserved : bool)
  : go sendFlightController :=
  let k := counts c in
  let inUse := if reserved then false else flowReserveInUse k in
  if n <=? 0
  then Ret (Controller (config c) (policy c) (limits c)
              (FlightCounts (byteCount k) (messageCount k) (messageCountByKey k) inUse))
  else
    let ackB := Z.min n (byteCount k) in
    let ackM := if 0 <? messageCount k then 1 else 0 in
    let k' :=
      FlightCounts (i64 (byteCount k - ackB))
        (if 0 <? messageCount k then i64 (messageCount k - 1) else messageCount k)
        (if 0 <? messageCount k then dropKey (messageCountByKey k) key else messageCountByKey k) inUse in
    let cfg := config c in
    let p := policy c in
    let l := limits c in
    if negb (limited p) then Ret (Controller cfg p l k')
    else if slowStart l then
      let! '(byteLimit', ssB) :=
        growIf ((0 <? ackB) && (byteLimit l <? activeMaximumByteCount p))
          (byteLimit l) (activeMaximumByteCount p) (slowStartIncreaseRemainder l) ackB (slowStartDivisor cfg) in
      let! '(messageLimit', ssM) :=
        growIf ((0 <? ackM) && (messageLimit l <? activeMaximumMessageCount p))
          (messageLimit l) (activeMaximumMessageCount p) (slowStartMessageRemainder l) ackM (slowStartDivisor cfg) in
      Ret (Controller cfg p
             (FlightLimits true byteLimit' messageLimit' (additiveIncreaseRemainder l) ssB
                (additiveMessageRemainder l) ssM) k')
    else
      let! '(byteLimit', addB) :=
        growIf ((0 <? ackB) && (byteLimit l <? activeMaximumByteCount p))
          (byteLimit l) (activeMaximumByteCount p) (additiveIncreaseRemainder l)
          (i64 (increaseByteCount cfg * ackB)) (byteLimit l) in
      let! '(messageLimit', addM) :=
        growIf ((0 <? ackM) && (0 <? messageLimit l) && (messageLimit l <? activeMaximumMessageCount p))
          (messageLimit l) (activeMaximumMessageCount p) (additiveMessageRemainder l)
          (i64 (increaseMessageCount cfg * ackM)) (messageLimit l) in
      Ret (Controller cfg p
             (FlightLimits false byteLimit' messageLimit' addB (slowStartIncreaseRemainder l)
                addM (slowStartMessageRemainder l)) k').

Definition acknowledge (c : sendFlightController) (n : Z) : go sendFlightController :=
  acknowledgeForKey c n no_key false.

(** ** Loss and timeout *)

Definition reduceForLoss (c : sendFlightController) : sendFlightController * bool :=
  if negb (limited (policy c)) then (c, false)
  else
    let l := limits c in
    let reducedB := Z.max (activeMinimumByteCount (policy c)) (Z.quot (byteLimit l) 2) in
    let reduced := reducedB <? byteLimit l in
    if 0 <? messageLimit l then
      let reducedM := Z.max (activeMinimumMessageCount (policy c)) (Z.quot (messageLimit l) 2) in
      (Controller (config c) (policy c) (FlightLimits false reducedB reducedM 0 0 0 0) (counts c),
       reduced || (reducedM <? messageLimit l))
    else
      (Controller (config c) (policy c) (FlightLimits false reducedB (messageLimit l) 0 0 0 0) (counts c), reduced).

Definition atFloor (c : sendFlightController) : bool :=
  let l := limits c in
  if negb (limited (policy c)) || slowStart l then false
  else if byteLimit l <=? activeMinimumByteCount (policy c) then true
  else (0 <? messageLimit l) && (messageLimit l <=? activeMinimumMessageCount (policy c)).

Definition forget (c : sendFlightController) (n : Z) (key : sendSchedulingKey) (reserved : bool)
  : sendFlightController :=
  let k := counts c in
  Controller (config c) (policy c) (limits c)
    (FlightCounts (i64 (byteCount k - Z.min n (byteCount k)))
       (if 0 <? messageCount k then i64 (messageCount k - 1) else messageCount k)
       (if 0 <? messageCount k then dropKey (messageCountByKey k) key else messageCountByKey k)
       (if reserved then false else flowReserveInUse k)).

(** ** Limits *)

(** What normalisation establishes: either the controller is disabled or its
    byte settings are positive and ordered, and likewise the message settings
    when message limiting is on. *)
Definition config_ok (cfg : flightConfig) : Prop :=
  initialByteCount cfg = 0 \/
  (0 < minimumByteCount cfg <= initialByteCount cfg /\ initialByteCount cfg <= maximumByteCount cfg /\
   0 < increaseByteCount cfg /\ 0 < slowStartDivisor cfg /\
   (0 < initialMessageCount cfg ->
    0 < minimumMessageCount cfg <= initialMessageCount cfg /\ initialMessageCount cfg <= maximumMessageCount cfg /\
    0 < increaseMessageCount cfg)).

(** The limits lie between the active bounds, and the carried remainders are
    those of a division. *)
Record limited_ok (c : sendFlightController) : Prop := {
  fo_on : 0 < initialByteCount (config c);
  fo_min : 0 < activeMinimumByteCount (policy c) <= byteLimit (limits c);
  fo_max : byteLimit (limits c) <= activeMaximumByteCount (policy c) <= maximumByteCount (config c);
  fo_addB : 0 <= additiveIncreaseRemainder (limits c) < byteLimit (limits c);
  fo_ssB : 0 <= slowStartIncreaseRemainder (limits c) < slowStartDivisor (config c);
  fo_msg : 0 < initialMessageCount (config c) ->
    0 < activeMinimumMessageCount (policy c) <= messageLimit (limits c) /\
    messageLimit (limits c) <= activeMaximumMessageCount (policy c) <= maximumMessageCount (config c) /\
    0 <= additiveMessageRemainder (limits c) < messageLimit (limits c) /\
    0 <= slowStartMessageRemainder (limits c) < slowStartDivisor (config c);
}.

Definition flight_ok (c : sendFlightController) : Prop :=
  config_ok (config c) /\ (limited (policy c) = true -> limited_ok c).

(** The settings and the bytes in flight are small enough for 64-bit
    arithmetic on them to be exact. *)
Definition no_overflow (c : sendFlightController) : Prop :=
  let cfg := config c in
  0 <= byteCount (counts c) /\
  slowStartDivisor cfg + (increaseByteCount cfg + 1) * byteCount (counts c) + 2 * maximumByteCount cfg <= MaxInt64 /\
  slowStartDivisor cfg + increaseMessageCount cfg + 1 + 2 * maximumMessageCount cfg <= MaxInt64.

Lemma grow_spec limit maximum remainder amount divisor :
  0 < divisor -> 0 <= remainder -> 0 <= amount -> 0 <= limit <= maximum ->
  remainder + amount + maximum <= MaxInt64 ->
  exists limit' r, grow limit maximum remainder amount divisor = Ret (limit', r) /\
    limit <= limit' <= maximum /\ 0 <= r < divisor.
Proof.
  intros Hd Hr Ha Hl Ho. unfold grow, go_div, go_rem.
  rewrite (i64_small (remainder + amount)) by (unfold MaxInt64 in *; lia).
  destruct (Z.eqb_spec divisor 0); [lia|]. cbn [gbind].
  pose proof (Z.quot_pos (remainder + amount) divisor ltac:(lia) Hd) as Hq0.
  assert (Hq1 : Z.quot (remainder + amount) divisor <= remainder + amount).
  { rewrite Z.quot_div_nonneg by lia. apply Z.div_le_upper_bound; [lia|nia]. }
  pose proof (Z.rem_bound_pos (remainder + amount) divisor ltac:(lia) Hd) as Hm.
  assert (Hm1 : Z.rem (remainder + amount) divisor <= remainder + amount).
  { rewrite Z.rem_mod_nonneg by lia. apply Z.mod_le; lia. }
  rewrite !(i64_small (Z.quot _ _)), !(i64_small (Z.rem _ _)) by (unfold MaxInt64 in *; lia).
  rewrite i64_small by (unfold MaxInt64 in *; lia).
  eexists _, _. split; [done|]. lia.
Qed.

Lemma growIf_spec cond limit maximum remainder amount divisor :
  0 < divisor -> 0 <= remainder < divisor -> 0 <= amount -> 0 <= limit <= maximum ->
  remainder + amount + maximum <= MaxInt64 ->
  exists limit' r, growIf cond limit maximum remainder amount divisor = Ret (limit', r) /\
    limit <= limit' <= maximum /\ 0 <= r < divisor.
Proof.
  intros. destruct cond; [by apply grow_spec; lia|]. eexists _, _. split; [done|lia].
Qed.

Lemma growIf_ret cond limit maximum remainder amount divisor :
  (cond = true -> divisor <> 0) -> exists r, growIf cond limit maximum remainder amount divisor = Ret r.
Proof.
  intros Hd. destruct cond; [|by eexists]. cbn. unfold grow, go_div, go_rem.
  destruct (Z.eqb_spec divisor 0); [by destruct Hd|]. by eexists.
Qed.

Lemma new_config_ok s : config_ok (config (newSendFlightController s)).
Proof.
  destruct s as [s|]; [|by left]. unfold newSendFlightController.
  destruct (Z.leb_spec (UnreliableInitialFlightByteCount s) 0); [by left|].
  right. destruct (Z.ltb_spec 0 (UnreliableInitialFlightMessageCount s));
    cbn [config start initialByteCount minimumByteCount maximumByteCount increaseByteCount
         initialMessageCount minimumMessageCount maximumMessageCount increaseMessageCount slowStartDivisor];
    repeat match goal with |- context [?a <=? ?b] => destruct (Z.leb_spec a b) end;
    repeat match goal with |- context [?a <? ?b] => destruct (Z.ltb_spec a b) end; lia.
Qed.

Lemma applyPolicy_ok c p : flight_ok c -> flight_ok (fst (applyPolicy c p)).
Proof.
  intros [Hc Hl]. unfold applyPolicy. destruct (_ && _ && _ && _ && _); [done|].
  destruct (p_limited p && (0 <? initialByteCount (config c))) eqn:E; [|done].
  apply andb_true_iff in E as [_ E%Z.ltb_lt]. split; [done|]. intros _.
  destruct Hc as [Hc|(H1 & H2 & H3 & H4 & H5)]; [lia|].
  split; cbn [fst config policy limits activeMinimumByteCount activeMaximumByteCount byteLimit messageLimit
    activeMinimumMessageCount activeMaximumMessageCount additiveIncreaseRemainder slowStartIncreaseRemainder
    additiveMessageRemainder slowStartMessageRemainder].
  - done.
  - destruct (Z.ltb_spec 0 (p_byteLimit p)); lia.
  - destruct (Z.ltb_spec 0 (p_byteLimit p)); lia.
  - destruct (Z.ltb_spec 0 (p_byteLimit p)); lia.
  - lia.
  - intros Hm. specialize (H5 Hm). rewrite (proj2 (Z.ltb_lt _ _) Hm), andb_true_r.
    destruct (Z.ltb_spec 0 (p_messageLimit p)); lia.
Qed.

Lemma reduceForLoss_ok c : flight_ok c -> flight_ok (fst (reduceForLoss c)).
Proof.
  intros [Hc Hl]. unfold reduceForLoss. destruct (limited (policy c)) eqn:E; cbn [negb].
  2:{ split; [done|]. cbn. rewrite E. done. }
  specialize (Hl eq_refl). destruct Hl as [Hon Hmin Hmax HaB HsB Hmsg].
  pose proof (Z.quot_le_upper_bound (byteLimit (limits c)) 2 (byteLimit (limits c)) ltac:(lia) ltac:(lia)).
  assert (0 <= slowStartIncreaseRemainder (limits c) < slowStartDivisor (config c)) by done.
  destruct (Z.ltb_spec 0 (messageLimit (limits c))); (split; [done|]); intros _; split;
    cbn [fst config policy limits byteLimit messageLimit additiveIncreaseRemainder slowStartIncreaseRemainder
         additiveMessageRemainder slowStartMessageRemainder]; try lia.
Qed.

(** The message half of an acknowledgement: it returns, and stays in bounds
    when message limiting is on. *)
Lemma growIf_msg (on : bool) cond limit minimum maximum remainder amount divisor :
  (cond = true -> divisor <> 0) ->
  (on = true -> 0 < divisor /\ 0 <= remainder < divisor /\ 0 <= amount /\ 0 < minimum <= limit /\ limit <= maximum /\
     remainder + amount + maximum <= MaxInt64) ->
  exists limit' r, growIf cond limit maximum remainder amount divisor = Ret (limit', r) /\
    (on = true -> limit <= limit' <= maximum /\ 0 <= r < divisor).
Proof.
  intros Hd Hon. destruct on.
  - destruct (Hon eq_refl) as (? & ? & ? & ? & ? & ?).
    destruct (growIf_spec cond limit maximum remainder amount divisor) as (l & r & E & Hlr); [lia..|]. eauto.
  - destruct (growIf_ret cond limit maximum remainder amount divisor Hd) as [[l r] E]. by eexists _, _.
Qed.

Lemma acknowledge_ok c n key reserved :
  flight_ok c -> no_overflow c ->
  exists c', acknowledgeForKey c n key reserved = Ret c' /\ flight_ok c' /\
    config c' = config c /\ policy c' = policy c.
Proof.
  intros [Hc Hl] (Hn0 & Hn1 & Hn2). unfold acknowledgeForKey.
  destruct (Z.leb_spec n 0) as [Hle|Hpos].
  { eexists. split; [done|]. split; [|done]. split; [done|]. intros E. destruct (Hl E). by split. }
  set (k' := FlightCounts _ _ _ _). set (ackB := Z.min n (byteCount (counts c))).
  set (ackM := if 0 <? messageCount (counts c) then 1 else 0).
  destruct (limited (policy c)) eqn:E; cbn [negb].
  2:{ eexists. split; [done|]. split; [|done]. split; [done|]. cbn. congruence. }
  specialize (Hl eq_refl). destruct Hl as [Hon Hmin Hmax HaB HsB Hmsg].
  destruct Hc as [Hc|(H1 & H2 & H3 & H4 & H5)]; [lia|].
  assert (HB : 0 <= ackB <= byteCount (counts c)) by lia.
  assert (HM : 0 <= ackM <= 1) by (unfold ackM; destruct (_ <? _); lia).
  set (on := 0 <? initialMessageCount (config c)).
  assert (Hon2 : on = true -> 0 < initialMessageCount (config c)) by (unfold on; apply Z.ltb_lt).
  assert (Hfin : forall s lB lM aB sB aM sM,
    byteLimit (limits c) <= lB <= activeMaximumByteCount (policy c) -> 0 <= aB < lB ->
    0 <= sB < slowStartDivisor (config c) ->
    (on = true -> messageLimit (limits c) <= lM <= activeMaximumMessageCount (policy c) /\ 0 <= aM < lM /\
       0 <= sM < slowStartDivisor (config c)) ->
    flight_ok (Controller (config c) (policy c) (FlightLimits s lB lM aB sB aM sM) k')).
  { intros s lB lM aB sB aM sM HlB HaB' HsB' HM'. split; [right; done|]. intros _.
    split; cbn; try lia. intros Hm. specialize (Hmsg Hm). destruct HM' as (? & ? & ?); [by apply Z.ltb_lt|]. lia. }
  destruct (slowStart (limits c)).
  - destruct (growIf_spec ((0 <? ackB) && (byteLimit (limits c) <? activeMaximumByteCount (policy c)))
      (byteLimit (limits c)) (activeMaximumByteCount (policy c)) (slowStartIncreaseRemainder (limits c)) ackB
      (slowStartDivisor (config c))) as (lB & sB & -> & HlB & HsB'); [nia..|]. cbn [gbind].
    destruct (growIf_msg on ((0 <? ackM) && (messageLimit (limits c) <? activeMaximumMessageCount (policy c)))
      (messageLimit (limits c)) (activeMinimumMessageCount (policy c)) (activeMaximumMessageCount (policy c))
      (slowStartMessageRemainder (limits c)) ackM (slowStartDivisor (config c))) as (lM & sM & -> & HlM);
      [lia|intros Ho; specialize (Hmsg (Hon2 Ho)); specialize (H5 (Hon2 Ho)); lia|]. cbn [gbind].
    eexists. split; [done|]. split; [|done]. apply Hfin; [done|lia|done|].
    intros Ho. specialize (Hmsg (Hon2 Ho)). specialize (HlM Ho). lia.
  - rewrite (i64_small (increaseByteCount _ * _)) by (unfold MaxInt64 in *; nia).
    destruct (growIf_spec ((0 <? ackB) && (byteLimit (limits c) <? activeMaximumByteCount (policy c)))
      (byteLimit (limits c)) (activeMaximumByteCount (policy c)) (additiveIncreaseRemainder (limits c))
      (increaseByteCount (config c) * ackB) (byteLimit (limits c))) as (lB & aB & -> & HlB & HaB'); [nia..|]. cbn [gbind].
    destruct (growIf_msg on ((0 <? ackM) && (0 <? messageLimit (limits c)) && (messageLimit (limits c) <? activeMaximumMessageCount (policy c)))
      (messageLimit (limits c)) (activeMinimumMessageCount (policy c)) (activeMaximumMessageCount (policy c))
      (additiveMessageRemainder (limits c)) (i64 (increaseMessageCount (config c) * ackM)) (messageLimit (limits c)))
      as (lM & aM & -> & HlM).
    + intros Hc. apply andb_true_iff in Hc as [Hc _]. apply andb_true_iff in Hc as [_ Hc%Z.ltb_lt]. lia.
    + intros Ho. specialize (Hmsg (Hon2 Ho)). specialize (H5 (Hon2 Ho)).
      rewrite i64_small by (unfold MaxInt64 in *; nia). nia.
    + cbn [gbind]. eexists. split; [done|]. split; [|done]. apply Hfin; [done|lia|done|].
      intros Ho. specialize (Hmsg (Hon2 Ho)). specialize (HlM Ho). lia.
Qed.

(** ** The flight as a list of messages *)

(** A message in flight: its bytes, its key, and whether it took the reserve. *)
Record flying := Flying { f_bytes : Z; f_key : sendSchedulingKey; f_reserved : bool }.

Definition tally (f : flying -> bool) (fl : list flying) : Z := sumZ (map (fun e => if f e then 1 else 0) fl).
Definition in_flight (fl : list flying) : Z := sumZ (map f_bytes fl).
Definition sized (e : flying) : bool := 0 <? f_bytes e.

(** The counters are those of the messages in flight. *)
Record counts_ok (k : flightCounts) (fl : list flying) : Prop := {
  fc_nonneg : Forall (fun e => 0 <= f_bytes e) fl;
  fc_small : in_flight fl <= MaxInt64;
  fc_bytes : byteCount k = in_flight fl;
  fc_messages : messageCount k = tally sized fl;
  fc_keys : forall key, default 0 (messageCountByKey k !! key) =
    if key : bool then tally (fun e => sized e && f_key e) fl else 0;
  fc_reserve : (if flowReserveInUse k then 1 else 0) = tally f_reserved fl;
}.

Lemma tally_cons f e fl : tally f (e :: fl) = (if f e then 1 else 0) + tally f fl.
Proof. done. Qed.

Lemma tally_nonneg f fl : 0 <= tally f fl.
Proof. apply sumZ_map_nonneg. intros e _. destruct (f e); lia. Qed.

Lemma tally_le f g fl : (forall e, f e = true -> g e = true) -> tally f fl <= tally g fl.
Proof.
  intros Hfg. induction fl as [|e fl IH]; [done|]. rewrite !tally_cons.
  destruct (f e) eqn:E; [rewrite (Hfg e E); lia|destruct (g e); lia].
Qed.

Lemma tally_sized fl : Forall (fun e => 0 <= f_bytes e) fl -> tally sized fl <= in_flight fl.
Proof.
  unfold in_flight. induction 1 as [|e fl He _ IH]; [done|]. rewrite tally_cons. cbn [map]. rewrite sumZ_cons.
  unfold sized at 1. destruct (Z.ltb_spec 0 (f_bytes e)); lia.
Qed.

Lemma in_flight_nonneg fl : Forall (fun e => 0 <= f_bytes e) fl -> 0 <= in_flight fl.
Proof. intros Hf. pose proof (tally_sized fl Hf). pose proof (tally_nonneg sized fl). lia. Qed.

Lemma counts_ok_perm k fl fl' : fl ≡ₚ fl' -> counts_ok k fl -> counts_ok k fl'.
Proof.
  intros Hp [H1 H2 H3 H4 H5 H6]. assert (Ht : forall f, tally f fl' = tally f fl).
  { intros f. by apply sumZ_map_perm. }
  assert (Hi : in_flight fl' = in_flight fl) by (by apply sumZ_map_perm).
  split; rewrite ?Hi, ?Ht; try done. by rewrite <- Hp.
Qed.

Lemma counts_ok_start : counts_ok (FlightCounts 0 0 ∅ false) [].
Proof. split; try done. intros []; reflexivity. Qed.

Lemma sendForKey_counts c n key fl :
  counts_ok (counts c) fl -> 0 <= n -> in_flight fl + n <= MaxInt64 ->
  counts_ok (counts (fst (sendForKey c n key))) (Flying n key (snd (sendForKey c n key)) :: fl).
Proof.
  intros [H1 H2 H3 H4 H5 H6] Hn Hs. unfold sendForKey. set (r := _ && _ && _ && _ && _ && _).
  assert (Hr : r = true -> flowReserveInUse (counts c) = false).
  { unfold r. rewrite !andb_true_iff, negb_true_iff. tauto. }
  pose proof (tally_sized fl H1) as Ht. pose proof (tally_nonneg sized fl) as Ht0.
  pose proof (in_flight_nonneg fl H1).
  pose proof (tally_nonneg (fun e => sized e && f_key e) fl) as Hk0.
  pose proof (tally_le (fun e => sized e && f_key e) sized fl) as Hk1.
  assert (Hk : keyCount c true = tally (fun e => sized e && f_key e) fl) by apply (H5 true).
  assert (Hi : in_flight (Flying n key r :: fl) = n + in_flight fl) by done.
  assert (Hres : (if if r then true else flowReserveInUse (counts c) then 1 else 0) = tally f_reserved (Flying n key r :: fl)).
  { rewrite tally_cons, <- H6. cbn [f_reserved]. destruct r; [by rewrite Hr|]. lia. }
  assert (Hall : Forall (fun e => 0 <= f_bytes e) (Flying n key r :: fl)) by (by constructor).
  destruct (Z.ltb_spec 0 n) as [Hp|Hp]; cbn [fst snd counts].
  - assert (Hsz : sized (Flying n key r) = true) by (by apply Z.ltb_lt).
    assert (tally (fun e => sized e && f_key e) fl <= tally sized fl) by (apply Hk1; intros e; by destruct (sized e)).
    split; cbn [byteCount messageCount messageCountByKey flowReserveInUse]; try done; try lia.
    + rewrite i64_small by (unfold MaxInt64 in *; lia). lia.
    + rewrite tally_cons, Hsz, i64_small by (unfold MaxInt64 in *; lia). lia.
    + intros key'. rewrite tally_cons, Hsz. cbn [andb f_key]. destruct key.
      * destruct key'; [|rewrite lookup_insert_ne by done; apply (H5 false)].
        rewrite lookup_insert_eq. cbn. rewrite Hk, i64_small by (unfold MaxInt64 in *; lia). lia.
      * rewrite H5. destruct key'; lia.
  - assert (Hsz : sized (Flying n key r) = false) by (by apply Z.ltb_ge).
    split; cbn [byteCount messageCount messageCountByKey flowReserveInUse]; try done; try lia.
    + rewrite tally_cons, Hsz. lia.
    + intros key'. rewrite tally_cons, Hsz. cbn [andb]. rewrite H5. destruct key'; lia.
Qed.

(** What leaves the flight: the counters of [fl] without [e]. *)
Definition leave (k : flightCounts) (n : Z) (key : sendSchedulingKey) (reserved : bool) : flightCounts :=
  FlightCounts (i64 (byteCount k - Z.min n (byteCount k)))
    (if 0 <? messageCount k then i64 (messageCount k - 1) else messageCount k)
    (if 0 <? messageCount k then dropKey (messageCountByKey k) key else messageCountByKey k)
    (if reserved then false else flowReserveInUse k).

Lemma reserve_leave k e fl :
  counts_ok k (e :: fl) ->
  (if if f_reserved e then false else flowReserveInUse k then 1 else 0) = tally f_reserved fl.
Proof.
  intros H. pose proof (fc_reserve _ _ H) as H6. rewrite tally_cons in H6.
  pose proof (tally_nonneg f_reserved fl). destruct (f_reserved e), (flowReserveInUse k); lia.
Qed.

Lemma leave_counts k e fl :
  counts_ok k (e :: fl) -> 0 < f_bytes e -> counts_ok (leave k (f_bytes e) (f_key e) (f_reserved e)) fl.
Proof.
  intros H Hp. pose proof (reserve_leave _ _ _ H) as Hres. destruct H as [H1 H2 H3 H4 H5 H6].
  apply Forall_cons_1 in H1 as [H1e H1]. unfold in_flight in *. cbn [map] in *. rewrite sumZ_cons in *.
  pose proof (in_flight_nonneg fl H1). pose proof (tally_sized fl H1). unfold in_flight in *.
  pose proof (tally_nonneg sized fl).
  assert (Hsz : sized e = true) by (by apply Z.ltb_lt).
  rewrite tally_cons, Hsz in H4. unfold leave. rewrite (proj2 (Z.ltb_lt 0 (messageCount k))) by lia.
  split; cbn [byteCount messageCount messageCountByKey flowReserveInUse]; try done; unfold in_flight; try lia.
  - rewrite Z.min_l, i64_small by (unfold MaxInt64 in *; lia). lia.
  - rewrite i64_small by (unfold MaxInt64 in *; lia). lia.
  - intros key. specialize (H5 key). unfold dropKey. cbv zeta.
    pose proof (tally_nonneg (fun e => sized e && f_key e) fl).
    assert (tally (fun e => sized e && f_key e) fl <= tally sized fl) by (apply tally_le; intros x; by destruct (sized x)).
    destruct (f_key e) eqn:Ek; cbn [andb].
    2:{ rewrite H5. destruct key; [|done]. rewrite tally_cons, Hsz, Ek. cbn. lia. }
    assert (Hv : default 0 (messageCountByKey k !! true) = 1 + tally (fun e => sized e && f_key e) fl \/ key = false).
    { destruct key; [left|by right]. by rewrite H5, tally_cons, Hsz, Ek. }
    destruct key.
    + destruct Hv as [Hv|]; [|done]. rewrite Hv. rewrite (proj2 (Z.ltb_lt 0 _)) by lia.
      rewrite i64_small by (unfold MaxInt64 in *; lia).
      destruct (Z.eqb_spec (1 + tally (fun e => sized e && f_key e) fl - 1) 0).
      * rewrite lookup_delete_eq. cbn. lia.
      * rewrite lookup_insert_eq. cbn. lia.
    + destruct (_ <? _); [|done]. destruct (_ =? _).
      * by rewrite lookup_delete_ne.
      * by rewrite lookup_insert_ne.
Qed.

(** ** Histories *)

(** One event on the controller, with the messages then in flight. A message
    is sent only when [canSendForKey] admits it, and leaves the flight once,
    acknowledged or forgotten with the sizes it was sent with. *)
Inductive flight_step : sendFlightController * list flying -> sendFlightController * list flying -> Prop :=
| fs_policy c fl p :
    flight_step (c, fl) (fst (applyPolicy c p), fl)
| fs_send c fl n key :
    0 <= n -> in_flight fl + n <= MaxInt64 -> canSendForKey c key = true ->
    flight_step (c, fl) (fst (sendForKey c n key), Flying n key (snd (sendForKey c n key)) :: fl)
| fs_ack c fl e fl' c' :
    fl ≡ₚ e :: fl' -> no_overflow c ->
    acknowledgeForKey c (f_bytes e) (f_key e) (f_reserved e) = Ret c' ->
    flight_step (c, fl) (c', fl')
| fs_forget c fl e fl' :
    fl ≡ₚ e :: fl' -> 0 < f_bytes e ->
    flight_step (c, fl) (forget c (f_bytes e) (f_key e) (f_reserved e), fl')
| fs_loss c fl :
    flight_step (c, fl) (fst (reduceForLoss c), fl).

Inductive flight_reach (s : option SendBufferSettings) : sendFlightController * list flying -> Prop :=
| fr_new : flight_reach s (newSendFlightController s, [])
| fr_step st st' : flight_reach s st -> flight_step st st' -> flight_reach s st'.

Lemma flight_ok_counts c k : flight_ok c -> flight_ok (Controller (config c) (policy c) (limits c) k).
Proof. intros [H1 H2]. split; [done|]. intros E. destruct (H2 E). by split. Qed.

Lemma flight_ok_eq c c' :
  config c' = config c -> policy c' = policy c -> limits c' = limits c -> flight_ok c -> flight_ok c'.
Proof.
  intros E1 E2 E3 H. destruct c' as [cfg p l k]. cbn in *. subst. by apply flight_ok_counts.
Qed.

Lemma new_flight_ok s : flight_ok (newSendFlightController s).
Proof.
  split; [apply new_config_ok|]. destruct s as [s|]; [|done]. unfold newSendFlightController.
  destruct (_ <=? _); [done|]. by destruct (0 <? _).
Qed.

Lemma new_counts s : counts (newSendFlightController s) = FlightCounts 0 0 ∅ false.
Proof.
  destruct s as [s|]; [|done]. unfold newSendFlightController. destruct (_ <=? _); [done|]. by destruct (0 <? _).
Qed.

Lemma applyPolicy_counts c p : counts (fst (applyPolicy c p)) = counts c.
Proof. unfold applyPolicy. destruct (_ && _ && _ && _ && _); [done|]. by destruct (_ && _). Qed.

Lemma reduceForLoss_counts c : counts (fst (reduceForLoss c)) = counts c.
Proof. unfold reduceForLoss. destruct (negb _); [done|]. by destruct (0 <? _). Qed.

Lemma gbind_counts {A} (m : go A) (k : A -> go sendFlightController) c' x :
  gbind m k = Ret c' -> (forall a d, k a = Ret d -> counts d = x) -> counts c' = x.
Proof. intros (a & _ & E)%gbind_ret_inv H. eauto. Qed.

(** The counters after an acknowledgement. *)
Lemma acknowledge_counts c n key reserved c' :
  acknowledgeForKey c n key reserved = Ret c' ->
  counts c' = if n <=? 0
              then FlightCounts (byteCount (counts c)) (messageCount (counts c)) (messageCountByKey (counts c))
                     (if reserved then false else flowReserveInUse (counts c))
              else leave (counts c) n key reserved.
Proof.
  unfold acknowledgeForKey. destruct (n <=? 0); [by intros [= <-]|].
  fold (leave (counts c) n key reserved). cbv zeta.
  destruct (negb _); [by intros [= <-]|]. destruct (slowStart _); intros E.
  - apply (gbind_counts _ _ _ _ E). intros [b sB] d E2. apply (gbind_counts _ _ _ _ E2).
    intros [m sM] d2 [= <-]. done.
  - apply (gbind_counts _ _ _ _ E). intros [b sB] d E2. apply (gbind_counts _ _ _ _ E2).
    intros [m sM] d2 [= <-]. done.
Qed.

Lemma ack_counts_ok c e fl c' :
  counts_ok (counts c) (e :: fl) ->
  acknowledgeForKey c (f_bytes e) (f_key e) (f_reserved e) = Ret c' -> counts_ok (counts c') fl.
Proof.
  intros H E. rewrite (acknowledge_counts _ _ _ _ _ E). destruct (Z.leb_spec (f_bytes e) 0) as [Hle|Hlt].
  - pose proof (reserve_leave _ _ _ H) as Hres. destruct H as [H1 H2 H3 H4 H5 H6].
    apply Forall_cons_1 in H1 as [He H1]. assert (f_bytes e = 0) as Hz by lia.
    assert (Hsz : sized e = false) by (unfold sized; by rewrite Hz).
    unfold in_flight in *. cbn [map] in *. rewrite sumZ_cons, Hz in *. rewrite tally_cons, Hsz in H4.
    split; cbn [byteCount messageCount messageCountByKey flowReserveInUse]; unfold in_flight; try done; try lia.
    intros key. rewrite H5. destruct key; [|done]. rewrite tally_cons, Hsz. cbn. lia.
  - by apply leave_counts.
Qed.

Lemma step_ok st st' :
  flight_step st st' -> flight_ok (fst st) /\ counts_ok (counts (fst st)) (snd st) ->
  flight_ok (fst st') /\ counts_ok (counts (fst st')) (snd st').
Proof.
  destruct 1 as [c fl p|c fl n key Hn Hs Hc|c fl e fl' c' Hp Hno E|c fl e fl' Hp Hb|c fl]; cbn [fst snd]; intros [H1 H2].
  - split; [by apply applyPolicy_ok|by rewrite applyPolicy_counts].
  - split; [|by apply sendForKey_counts]. by apply (flight_ok_eq c).
  - destruct (acknowledge_ok c (f_bytes e) (f_key e) (f_reserved e) H1 Hno) as (c2 & E2 & H3 & _).
    rewrite E in E2. injection E2 as <-. split; [done|].
    apply (ack_counts_ok c e); [by apply (counts_ok_perm _ fl)|done].
  - split; [by apply (flight_ok_eq c)|]. apply leave_counts; [by apply (counts_ok_perm _ fl)|done].
  - split; [by apply reduceForLoss_ok|by rewrite reduceForLoss_counts].
Qed.

Lemma reach_ok s st : flight_reach s st -> flight_ok (fst st) /\ counts_ok (counts (fst st)) (snd st).
Proof.
  induction 1 as [|st st' _ IH Hs]; [|by apply (step_ok st)]. cbn [fst snd].
  rewrite new_counts. split; [apply new_flight_ok|apply counts_ok_start].
Qed.

(** ** Claims *)

(** Whatever settings it was built from and whatever policies, sends,
    acknowledgements, losses and timeouts followed, a limited controller keeps
    its byte limit (and, when message limiting is on, its message limit)
    positive and between the active minimum and maximum, the maximum never
    above the configured one; the next acknowledgement returns (it never
    divides by zero) as long as the counts fit 64 bits. *)
Theorem flight_limits_bounded s c fl :
  flight_reach s (c, fl) -> limited (policy c) = true ->
  0 < activeMinimumByteCount (policy c) <= byteLimit (limits c) /\
  byteLimit (limits c) <= activeMaximumByteCount (policy c) <= maximumByteCount (config c) /\
  (0 < initialMessageCount (config c) ->
     0 < activeMinimumMessageCount (policy c) <= messageLimit (limits c) /\
     messageLimit (limits c) <= activeMaximumMessageCount (policy c) <= maximumMessageCount (config c)) /\
  (no_overflow c -> forall n key r, exists c', acknowledgeForKey c n key r = Ret c').
Proof.
  intros [H _]%reach_ok E. cbn [fst] in H. pose proof H as [Hc Hl]. destruct (Hl E) as [H1 H2 H3 H4 H5 H6].
  split; [done|]. split; [done|]. split; [intros Hm; destruct (H6 Hm) as (? & ? & _); done|].
  intros Hno n key r. destruct (acknowledge_ok c n key r H Hno) as (c' & Ec & _). eauto.
Qed.

Definition demo_settings : SendBufferSettings := {|
  UnreliableInitialFlightByteCount := 3000; UnreliableMinimumFlightByteCount := 1000;
  UnreliableMaximumFlightByteCount := 10000; UnreliableFlightIncreaseByteCount := 500;
  UnreliableInitialFlightMessageCount := 8; UnreliableMinimumFlightMessageCount := 4;
  UnreliableMaximumFlightMessageCount := 256; UnreliableFlightIncreaseMessageCount := 1;
  UnreliableSlowStartGrowthDivisor := 2 |}.
Definition demo_c0 := fst (applyPolicy (newSendFlightController (Some demo_settings)) (Snapshot 1 true 0 0 true)).
Definition demo_c1 := fst (sendForKey demo_c0 1200 true).
Definition demo_c2 := fst (reduceForLoss demo_c1).

Lemma demo_flight : flight_reach (Some demo_settings) (demo_c2, [Flying 1200 true false]).
Proof.
  apply (fr_step _ (demo_c1, [Flying 1200 true false])); [|apply fs_loss].
  apply (fr_step _ (demo_c0, [])); [apply (fr_step _ (newSendFlightController (Some demo_settings), []))|].
  - apply fr_new.
  - apply (fs_policy _ _ (Snapshot 1 true 0 0 true)).
  - apply (fs_send demo_c0 [] 1200 true); [lia|vm_compute; discriminate|vm_compute; reflexivity].
Qed.

Lemma flight_limits_bounded_witness : 0 < 1000 <= byteLimit (limits demo_c2) /\ byteLimit (limits demo_c2) = 1500.
Proof.
  split; [|vm_compute; reflexivity].
  exact (proj1 (flight_limits_bounded (Some demo_settings) demo_c2 [Flying 1200 true false] demo_flight eq_refl)).
Defined.

(** The counters are those of the messages in flight: the bytes are their
    sum, the messages their number, the count per scheduling key exact, and the
    flow reserve is in use exactly when one of them took it (never two). *)
Theorem flight_counts_exact s c fl :
  flight_reach s (c, fl) ->
  byteCount (counts c) = in_flight fl /\ messageCount (counts c) = tally sized fl /\
  keyCount c true = tally (fun e => sized e && f_key e) fl /\
  (flowReserveInUse (counts c) = true <-> tally f_reserved fl = 1) /\ tally f_reserved fl <= 1.
Proof.
  intros [_ H]%reach_ok. cbn [fst snd] in H. destruct H as [H1 H2 H3 H4 H5 H6].
  split; [done|]. split; [done|]. split; [apply (H5 true)|].
  destruct (flowReserveInUse (counts c)); (split; [split; intros; first [done | lia | exfalso; lia]|lia]).
Qed.

Lemma flight_counts_exact_witness : byteCount (counts demo_c2) = in_flight [Flying 1200 true false].
Proof. exact (proj1 (flight_counts_exact (Some demo_settings) demo_c2 _ demo_flight)). Defined.

(** ** The flight bound *)

(** The bytes that did not enter through the reserve. *)
Definition plain_bytes (fl : list flying) : Z := sumZ (map (fun e => if f_reserved e then 0 else f_bytes e) fl).

(** Histories under limited policies only, with messages of at most [M] bytes,
    from the moment the first limited policy applies to an empty flight. *)
Inductive limited_reach (s : option SendBufferSettings) (M : Z) : sendFlightController * list flying -> Prop :=
| lr_start c p :
    flight_reach s (c, []) -> c = fst (applyPolicy (newSendFlightController s) p) -> limited (policy c) = true ->
    limited_reach s M (c, [])
| lr_step st st' :
    limited_reach s M st -> flight_step st st' -> limited (policy (fst st')) = true ->
    Forall (fun e => f_bytes e <= M) (snd st') -> limited_reach s M st'.

Lemma limited_reach_reach s M st : limited_reach s M st -> flight_reach s st.
Proof. induction 1; [done|]. by eapply fr_step. Qed.

(** An admitted message that does not take the reserve found the flight below
    the limit, or empty. *)
Lemma canSend_room c n key :
  canSendForKey c key = true -> snd (sendForKey c n key) = false -> limited (policy c) = true ->
  byteCount (counts c) < byteLimit (limits c) \/ byteCount (counts c) = 0.
Proof.
  unfold canSendForKey, sendForKey. intros Hc Hr Hl. cbn [snd] in Hr. rewrite Hl in *. cbn [negb orb andb] in *.
  destruct (Z.eqb_spec (byteCount (counts c)) 0); [by right|]. cbn [andb] in Hc.
  destruct (Z.ltb_spec (byteCount (counts c)) (byteLimit (limits c))) as [|Hge]; [by left|]. cbn [andb] in Hc.
  rewrite Hc in Hr. rewrite (proj2 (Z.leb_le _ _) Hge) in Hr. done.
Qed.

Lemma plain_bytes_perm fl fl' : fl ≡ₚ fl' -> plain_bytes fl = plain_bytes fl'.
Proof. apply sumZ_map_perm. Qed.

Lemma plain_le fl : Forall (fun e => 0 <= f_bytes e) fl -> plain_bytes fl <= in_flight fl.
Proof.
  unfold plain_bytes, in_flight. induction 1 as [|e fl He _ IH]; [done|]. cbn [map]. rewrite !sumZ_cons.
  destruct (f_reserved e); lia.
Qed.

(** At most one message took the reserve. *)
Lemma in_flight_plain M fl :
  Forall (fun e => 0 <= f_bytes e) fl -> Forall (fun e => f_bytes e <= M) fl -> 0 <= M ->
  in_flight fl <= plain_bytes fl + M * tally f_reserved fl.
Proof.
  unfold plain_bytes, in_flight. intros H1 H2 HM. induction fl as [|e fl IH]; [cbn; lia|].
  apply Forall_cons_1 in H1 as [He H1]. apply Forall_cons_1 in H2 as [Hm H2]. specialize (IH H1 H2).
  rewrite tally_cons. cbn [map]. rewrite !sumZ_cons. destruct (f_reserved e); lia.
Qed.

Lemma step_plain M st st' :
  flight_step st st' -> flight_ok (fst st) -> counts_ok (counts (fst st)) (snd st) ->
  limited (policy (fst st)) = true -> Forall (fun e => f_bytes e <= M) (snd st') ->
  plain_bytes (snd st) < maximumByteCount (config (fst st)) + M ->
  config (fst st') = config (fst st) /\ plain_bytes (snd st') < maximumByteCount (config (fst st)) + M.
Proof.
  destruct 1 as [c fl p|c fl n key Hn Hs Hc|c fl e fl' c' Hp Hno E|c fl e fl' Hp Hb|c fl]; cbn [fst snd];
    intros H1 H2 Hl HM Hlt.
  - split; [|done]. unfold applyPolicy. destruct (_ && _ && _ && _ && _); [done|]. by destruct (_ && _).
  - split; [done|]. unfold plain_bytes in *. cbn [map]. rewrite sumZ_cons. cbn [f_reserved f_bytes].
    destruct (snd (sendForKey c n key)) eqn:Er; [lia|].
    apply Forall_cons_1 in HM as [Hn2 _]. cbn in Hn2.
    pose proof (plain_le fl (fc_nonneg _ _ H2)) as Hpl. unfold plain_bytes in Hpl.
    rewrite <- (fc_bytes _ _ H2) in Hpl. destruct (proj2 H1 Hl) as [_ Hmin Hmax _ _ _].
    destruct (canSend_room c n key Hc Er Hl); lia.
  - destruct (acknowledge_ok c (f_bytes e) (f_key e) (f_reserved e) H1 Hno) as (c2 & E2 & _ & Ec & _).
    rewrite E in E2. injection E2 as <-. split; [done|]. rewrite (plain_bytes_perm _ _ Hp) in Hlt.
    assert (0 <= f_bytes e).
    { pose proof (fc_nonneg _ _ H2) as Hf. rewrite Hp in Hf. by apply Forall_cons_1 in Hf as []. }
    unfold plain_bytes in *. cbn [map] in Hlt. rewrite sumZ_cons in Hlt. destruct (f_reserved e); lia.
  - split; [done|]. rewrite (plain_bytes_perm _ _ Hp) in Hlt. unfold plain_bytes in *. cbn [map] in Hlt.
    rewrite sumZ_cons in Hlt. destruct (f_reserved e); lia.
  - split; [|done]. unfold reduceForLoss. destruct (negb _); [done|]. by destruct (0 <? _).
Qed.

(** C40: The hard admission cap: under limited policies, with messages of at
    most [M] bytes each sent only when admitted, the bytes in flight stay
    below the configured maximum plus two messages (one that crosses the
    limit, and one on the flow reserve), whatever the losses,
    acknowledgements and policy changes in between. *)
Theorem flight_bytes_capped s M c fl :
  limited_reach s M (c, fl) -> 0 <= M ->
  byteCount (counts c) < maximumByteCount (config c) + 2 * M.
Proof.
  intros H HM.
  assert (Hinv : forall st, limited_reach s M st -> limited (policy (fst st)) = true /\
            Forall (fun e => f_bytes e <= M) (snd st) /\ plain_bytes (snd st) < maximumByteCount (config (fst st)) + M).
  { induction 1 as [c0 p Hr _ Hl|st st' Hr (IH1 & IH2 & IH3) Hs Hl Hf]; cbn [fst snd] in *.
    - split; [done|]. split; [constructor|]. destruct (reach_ok _ _ Hr) as [[_ Ho] _]. cbn [fst] in Ho.
      destruct (Ho Hl). unfold plain_bytes. cbn. lia.
    - destruct (reach_ok _ _ (limited_reach_reach _ _ _ Hr)) as [H1 H2].
      destruct (step_plain M st st' Hs H1 H2 IH1 Hf IH3) as [Ec Hlt]. split; [done|]. split; [done|]. by rewrite Ec. }
  destruct (Hinv _ H) as (_ & Hf & Hlt). destruct (reach_ok _ _ (limited_reach_reach _ _ _ H)) as [_ H2].
  cbn [fst snd] in *. pose proof (in_flight_plain M fl (fc_nonneg _ _ H2) Hf HM) as Hi.
  pose proof (fc_reserve _ _ H2) as Hr. rewrite (fc_bytes _ _ H2). destruct (flowReserveInUse (counts c)); nia.
Qed.

Lemma flight_bytes_capped_witness : byteCount (counts demo_c1) < 10000 + 2 * 1500.
Proof.
  refine (flight_bytes_capped (Some demo_settings) 1500 demo_c1 [Flying 1200 true false] _ _); [|lia].
  apply (lr_step _ _ (demo_c0, [])).
  - apply (lr_start _ _ demo_c0 (Snapshot 1 true 0 0 true)); [|reflexivity|vm_compute; reflexivity].
    apply (fr_step _ (newSendFlightController (Some demo_settings), [])); [apply fr_new|].
    apply (fs_policy _ _ (Snapshot 1 true 0 0 true)).
  - apply (fs_send demo_c0 [] 1200 true); [lia|vm_compute; discriminate|vm_compute; reflexivity].
  - vm_compute. reflexivity.
  - constructor; [cbn; lia|constructor].
Defined.

(** With message limiting off (no initial message count) but a maximum
    message count configured, one acknowledgement in slow start turns the
    message limit on at one message: the limit goes from zero, which the
    admission check reads as none, to one, and a second message in flight is
    then refused although bytes are free. *)
Theorem slow_start_enables_message_limit :
  let s := Build_SendBufferSettings 3000 1000 10000 500 0 0 256 1 1 in
  let c := fst (applyPolicy (newSendFlightController (Some s)) (Snapshot 1 true 0 0 false)) in
  messageLimit (limits c) = 0 /\
  match acknowledgeForKey (send c 100) 100 no_key false with
  | Ret c' => messageLimit (limits c') = 1 /\ canSend (send c' 100) = false /\
              byteCount (counts (send c' 100)) < byteLimit (limits c')
  | Panic => False
  end.
Proof. vm_compute. repeat split. Qed.
