(* ===== verification/SendSequence.v ===== *)
(** The sending end of a transfer sequence (src/transfer.go, [SendSequence]):
    packs are numbered, charged to a contract, encoded, written to a route and
    kept until the receiver acknowledges them; a cumulative ack settles every
    item up to it, a selective one defers the item, and items that stay
    unanswered are written again with a growing interval until they time out.

    The state is the goroutine's: [Run] owns every field, so a turn of its loop
    is one step. What a turn does to the outside is the log: callbacks, frames
    handed to the route writer, buffers given back to the message pool, contract
    events. A [sendItem] is a pointer with its current fields: the code changes
    an item only while it is out of the resend queue, so the queue and
    [sendItems] hold the same value of it, and changing one rewrites its entry
    in [sendItems].

    The n-th reading of the outside is taken at [n]: the wall clock in
    nanoseconds, a contract's [NewId], the route writer, the flight policy of the routes, the
    per-peer session, the process-wide resend budget and the contract manager
    may answer differently at every reading; [itemId n] is [NewId] for the n-th
    item. Readings made only to print a log
    line are left out, and so are the statistics of destinations and of lanes,
    which nothing in the sequence reads. *)
From stdpp Require Import sorting.
From Stdlib Require Import SpecFloat.
From S2P Require Import Prelude GoIo NetId TransferPath FrameCodec AckWindow GoHeap MemoryBudget TransferQueue RttWindow SequenceContract FlightController.

(** ** Items *)

(** A user callback, or the one [contractOpenAckCallback] makes for the
    contract with this local id. *)
Inductive AckFunction := CbUser (n : nat) | CbContractOpen (localId : bytes).

(** A pooled buffer: the wire frame of an item, or the message of a pack. *)
Inductive buffer := BufFrame (n : nat) | BufPack (n : nat).

(** What stays as it was made. *)
Record itemKey := ItemKey {
  ik_ptr : nat;
  ik_messageId : bytes;
  ik_sequenceNumber : Z;
  ik_messageByteCount : Z;
  ik_contractId : option bytes;
  ik_hasContractFrame : bool;
  ik_ackCallback : option AckFunction;
  ik_forceUnwrapped : bool;
}.

Record itemTimes := ItemTimes {
  sendTime : Z;
  resendTime : Z;
  sendCount : Z;
  selectiveAcked : bool;
}.

(** [transferFrameBytes], the buffer that holds them, and [head]. *)
Record itemWire := ItemWire {
  head : bool;
  transferFrameBytes : bytes;
  wireBuffer : buffer;
}.

Record itemRetention := ItemRetention {
  retainAfterAckTimeout : bool;
  retainedCharge : Z;
  retainedReleased : bool;
  backstopDeadline : option Z;     (* None: the zero time *)
}.

Record itemCarrier := ItemCarrier {
  carrierChanged : bool;
  carrierRoute : option nat;
  unreliableCarrierObserved : bool;
  reliableCarrierObserved : bool;
  reliableRoute : option nat;
  hybridReliableCarrierObserved : bool;
  unreliableFlightTracked : bool;
  unreliableFlowReserve : bool;
  itemAckTimeout : Z;
}.

Record sendItem := SendItem {
  si_key : itemKey;
  si_times : itemTimes;
  si_wire : itemWire;
  si_retention : itemRetention;
  si_carrier : itemCarrier;
}.

#[export] Instance AckFunction_eq_dec : EqDecision AckFunction.
Proof. solve_decision. Defined.
#[export] Instance AckFunction_countable : Countable AckFunction.
Proof.
  apply (inj_countable' (fun c => match c with CbUser n => inl n | CbContractOpen b => inr b end)
           (fun x => match x with inl n => CbUser n | inr b => CbContractOpen b end)). by intros [].
Defined.
#[export] Instance buffer_eq_dec : EqDecision buffer.
Proof. solve_decision. Defined.
#[export] Instance buffer_countable : Countable buffer.
Proof.
  apply (inj_countable' (fun c => match c with BufFrame n => inl n | BufPack b => inr b end)
           (fun x => match x with inl n => BufFrame n | inr b => BufPack b end)). by intros [].
Defined.
#[export] Instance itemKey_eq_dec : EqDecision itemKey.
Proof. solve_decision. Defined.
#[export] Instance itemKey_countable : Countable itemKey.
Proof.
  apply (inj_countable' (fun k => (ik_ptr k, ik_messageId k, ik_sequenceNumber k, ik_messageByteCount k, ik_contractId k,
                                   ik_hasContractFrame k, ik_ackCallback k, ik_forceUnwrapped k))
           (fun '(a, b, c, d, e, f, g, h) => ItemKey a b c d e f g h)). by intros [].
Defined.
#[export] Instance itemTimes_eq_dec : EqDecision itemTimes.
Proof. solve_decision. Defined.
#[export] Instance itemTimes_countable : Countable itemTimes.
Proof.
  apply (inj_countable' (fun k => (sendTime k, resendTime k, sendCount k, selectiveAcked k)) (fun '(a, b, c, d) => ItemTimes a b c d)).
  by intros [].
Defined.
#[export] Instance itemWire_eq_dec : EqDecision itemWire.
Proof. solve_decision. Defined.
#[export] Instance itemWire_countable : Countable itemWire.
Proof.
  apply (inj_countable' (fun k => (head k, transferFrameBytes k, wireBuffer k)) (fun '(a, b, c) => ItemWire a b c)). by intros [].
Defined.
#[export] Instance itemRetention_eq_dec : EqDecision itemRetention.
Proof. solve_decision. Defined.
#[export] Instance itemRetention_countable : Countable itemRetention.
Proof.
  apply (inj_countable' (fun k => (retainAfterAckTimeout k, retainedCharge k, retainedReleased k, backstopDeadline k))
           (fun '(a, b, c, d) => ItemRetention a b c d)). by intros [].
Defined.
#[export] Instance itemCarrier_eq_dec : EqDecision itemCarrier.
Proof. solve_decision. Defined.
#[export] Instance itemCarrier_countable : Countable itemCarrier.
Proof.
  apply (inj_countable' (fun k => (carrierChanged k, carrierRoute k, unreliableCarrierObserved k, reliableCarrierObserved k,
                                   reliableRoute k, hybridReliableCarrierObserved k, unreliableFlightTracked k,
                                   unreliableFlowReserve k, itemAckTimeout k))
           (fun '(a, b, c, d, e, f, g, h, i) => ItemCarrier a b c d e f g h i)). by intros [].
Defined.
#[export] Instance sendItem_eq_dec : EqDecision sendItem.
Proof. solve_decision. Defined.
#[export] Instance sendItem_countable : Countable sendItem.
Proof.
  apply (inj_countable' (fun k => (si_key k, si_times k, si_wire k, si_retention k, si_carrier k))
           (fun '(a, b, c, d, e) => SendItem a b c d e)). by intros [].
Defined.

Definition si_ptr (i : sendItem) : nat := ik_ptr (si_key i).
Definition si_id (i : sendItem) : bytes := ik_messageId (si_key i).
Definition si_seq (i : sendItem) : Z := ik_sequenceNumber (si_key i).
Definition si_bytes (i : sendItem) : Z := ik_messageByteCount (si_key i).
Definition si_contract (i : sendItem) : option bytes := ik_contractId (si_key i).
Definition si_resend (i : sendItem) : Z := resendTime (si_times i).
Definition si_retained (i : sendItem) : bool := retainAfterAckTimeout (si_retention i).
Definition si_buffer (i : sendItem) : buffer := wireBuffer (si_wire i).
Definition si_tracked (i : sendItem) : bool := unreliableFlightTracked (si_carrier i).
Definition wire_len (i : sendItem) : Z := Z.of_nat (length (transferFrameBytes (si_wire i))).

Definition set_times (i : sendItem) (t : itemTimes) : sendItem := SendItem (si_key i) t (si_wire i) (si_retention i) (si_carrier i).
Definition set_wire (i : sendItem) (w : itemWire) : sendItem := SendItem (si_key i) (si_times i) w (si_retention i) (si_carrier i).
Definition set_retention (i : sendItem) (r : itemRetention) : sendItem := SendItem (si_key i) (si_times i) (si_wire i) r (si_carrier i).
Definition set_carrier (i : sendItem) (c : itemCarrier) : sendItem := SendItem (si_key i) (si_times i) (si_wire i) (si_retention i) c.
Definition set_resend (i : sendItem) (t : Z) : sendItem :=
  set_times i (ItemTimes (sendTime (si_times i)) t (sendCount (si_times i)) (selectiveAcked (si_times i))).
Definition set_sendCount (i : sendItem) (n : Z) : sendItem :=
  set_times i (ItemTimes (sendTime (si_times i)) (si_resend i) n (selectiveAcked (si_times i))).
Definition set_tracked (i : sendItem) (tracked reserve : bool) : sendItem :=
  let c := si_carrier i in
  set_carrier i (ItemCarrier (carrierChanged c) (carrierRoute c) (unreliableCarrierObserved c) (reliableCarrierObserved c)
    (reliableRoute c) (hybridReliableCarrierObserved c) tracked reserve (itemAckTimeout c)).

(** [sendItem.MessageByteCount]. *)
Definition item_MessageByteCount (i : sendItem) : Z := if 0 <? wire_len i then wire_len i else si_bytes i.

(** An item as the queue sees it: both byte counts are those of the wire frame. *)
Definition si_transfer (i : sendItem) : transferItem :=
  TransferItem (si_id i) (item_MessageByteCount i) (item_MessageByteCount i) (si_seq i).

(** The order of [newResendQueue]. *)
Definition resend_cmp (a b : sendItem) : Z :=
  if si_resend a <? si_resend b then -1 else if si_resend b <? si_resend a then 1 else 0.

(** [MessageByteCount] of a list of frames. *)
Definition frames_MessageByteCount (l : list Frame) : Z :=
  fold_left (fun n f => i64 (n + Z.of_nat (length (bval (MessageBytes f))))) l 0.

Record SendPack := MkSendPack {
  sk_Frame : Frame;
  sk_buffer : nat;                 (* the pooled buffer of the frame's bytes *)
  sk_AckCallback : option nat;
  sk_MessageByteCount : Z;
  sk_Ack : bool;
  sk_ForceUnwrapped : bool;
  sk_RetainAfterAckTimeout : bool;
}.

Record SendSettings := MkSendSettings {
  AckTimeout : Z;
  IdleTimeout : Z;
  SelectiveAckTimeout : Z;
  MaxResendInterval : Z;
  MaxResendCount : Z;
  RetainedAckTimeout : Z;
  UnreliableAckTimeout : Z;
  UnreliableFloorSingleFlight : bool;
  MinMessageByteCount : Z;
  ResendQueueMaxByteCount : Z;
  ContractFillFraction : spec_float;
  ProtocolVersion : Z;
  FlightSettings : SendBufferSettings;
}.

(** [transferWriteDisposition], as far as the sequence reads it; [d_typed]: the
    transport type is not the empty string. *)
Record disposition := MkDisposition {
  d_typed : bool;
  d_unreliable : bool;
  d_reliable : bool;
  d_hybridReliable : bool;
  d_route : option nat;
}.
Definition no_disposition : disposition := MkDisposition false false false false None.

(** The per-peer session at a reading. *)
Record session_ops := MkSession {
  sn_Cipher : nat -> option nat;                         (* the key in use *)
  sn_RequireEncryption : nat -> bool;
  sn_certVerified : nat -> bool;                         (* verifyPeerCertAgainstContract *)
  sn_Seal : nat -> nat -> bytes -> option bytes;
  sn_ShouldRekey : nat -> bool;
}.

(** One round of the contract loop: whether the backend is degraded, and what
    [TakeContract] answers. *)
Record attempt := MkAttempt { at_degraded : bool; at_contract : option Contract }.

Inductive exit_reason := sendExitCancelled | sendExitAckTimeout | sendExitIdle | sendExitNoContract | sendExitHeadError | sendExitClosed.

Inductive retention_event := RetainDrop | RetainSeqExit | RetainAck | RetainCapDenied | RetainSilence.

Inductive event :=
| EvTake (p : SendPack)                                (* received from the channel *)
| EvCallback (n : nat) (ok : bool)                     (* the ack callback, with a nil error or another *)
| EvSend (i : sendItem) (ack : bool)                   (* the first write of an item *)
| EvWire (plain forced : bool) (b : bytes)             (* handed to the route writer *)
| EvRefused                                            (* no cipher where one is required *)
| EvRekey
| EvAlloc (b : buffer)
| EvReturn (b : buffer)                                (* MessagePoolReturn *)
| EvFirstSend (n : Z)
| EvResend (n count : Z)
| EvDeferred (n : Z)
| EvRefund (n : Z)
| EvEarn (n : Z)                                       (* recordTransferAckedBytes *)
| EvOpenContract (id : bytes) (transferByteCount : Z)
| EvContractStats (id : bytes) (usedByteCount : Z)
| EvCloseContract (id : bytes) (acked unacked : Z)
| EvCreateContract (index byteCount : Z)
| EvFlushContracts
| EvRetention (e : retention_event)
| EvExit (r : exit_reason).

(** What the sequence is given. *)
Class SendEnv := {
  settings : SendSettings;
  clock : nat -> Z;
  itemId : nat -> bytes;                                 (* [NewId] for the n-th item made *)
  newId : nat -> bytes;                                  (* [NewId] for a contract's local id *)
  sequenceId : bytes;
  clientId : bytes;
  destination : TransferPath;
  encryptionServer : bool;                               (* encryptionRole is the server's *)
  encryptionCompanion : bool;
  (* the generated protobuf code *)
  unmarshalStored : bytes -> option StoredContract;
  marshalContract : Contract -> bytes;
  legacyMarshal : sendPackFrame -> bytes;
  protoUnmarshalTransferFrame : bytes -> option TransferFrame;
  protoUnmarshalPack : bytes -> option Pack;
  protoMarshalTransferFrame : TransferFrame -> option bytes;
  protoMarshalPack : Pack -> option bytes;
  outerFrame : bytes -> option bytes;                    (* buildEncryptedOuterFrameBytes *)
  (* routes, session, resend budget, contract manager *)
  flightPolicyAt : nat -> policySnapshot * bool;         (* with reliableRouteAvailable *)
  routeWrite : nat -> bool -> bytes -> disposition * bool; (* writeMultiRouteWithCarrier; true: no error *)
  session : option session_ops;
  retryAllowed : nat -> Z -> bool * Z;
  SendNoContract : nat -> bool;
  StandardContractTransferByteCount : nat -> Z;
}.

(** ** Numbers *)

Definition float64_of_Z (z : Z) : spec_float := binary_normalize 53 1024 z 0 false.
(** [float32(f)] of a float64. *)
Definition float32_of_float64 (f : spec_float) : spec_float :=
  match f with
  | S754_finite s m e => binary_normalize 24 128 (if s then Zneg m else Zpos m) e s
  | f => f
  end.

(** [n]/[d], as Go rounds a constant to a float64. *)
Definition float64_const (n d : Z) : spec_float := SFdiv 53 1024 (float64_of_Z n) (float64_of_Z d).

Definition computeFillFraction (meanRtt : Z) (fallback : spec_float) : spec_float :=
  if meanRtt =? 0 then fallback
  else
    let ms := float64_of_Z (i64 (Z.quot meanRtt Millisecond)) in
    if SFleb ms (float64_of_Z 100) then float32_of_float64 (float64_const 85 100)
    else if SFleb (float64_of_Z 1000) ms then float32_of_float64 (float64_const 7 10)
    else
      float32_of_float64
        (SFsub 53 1024 (float64_const 85 100)
           (SFdiv 53 1024 (SFmul 53 1024 (float64_const 15 100) (SFsub 53 1024 ms (float64_of_Z 100))) (float64_of_Z 900))).

(** [ByteCount(32+float32(n)/fill)]. *)
Definition contractRequest (n : Z) (fill : spec_float) : Z :=
  int64_of_float32 (SFadd 24 128 (float32_of_Z 32) (SFdiv 24 128 (float32_of_Z n) fill)).

(** [sendCount-1] is converted to an unsigned number after the cap. *)
Definition resendBackoff (scaledRtt sendCount maxResendInterval : Z) : Z :=
  let shift := u64 (Z.min (i64 (sendCount - 1)) 16) in
  if 0 <? shift then Z.min (if 64 <=? shift then 0 else i64 (Z.shiftl scaledRtt shift)) maxResendInterval
  else scaledRtt.

Definition resendIsFree (sendCount : Z) (isHead : bool) : bool :=
  let next := i64 (sendCount + 1) in (next <=? 2) || (isHead && (next <=? 5)).

(** A quarter of the queue's limit, computed in float64. *)
Definition retainCap (maxByteCount : Z) : Z :=
  int64_of_float32 (SFmul 53 1024 (float64_of_Z maxByteCount) (float64_const 1 4)).

Definition backstop_passed (i : sendItem) (now : Z) : bool :=
  match backstopDeadline (si_retention i) with None => true | Some d => d <=? now end.

(** ** The sequence *)

Section sequence.
Context {B H : Type} {MP : MemoryPool B H} {PG : MessagePool}.

Abbreviation queue := (@transferQueue sendItem sendItem_eq_dec sendItem_countable H).

(** The estimators and clocks, and the readings made so far. *)
Record sendAux := SendAux {
  retainedSilenceStart : option Z;                       (* None: the zero time *)
  rttWindow : RttWindow;
  flightController : sendFlightController;
  contractSeqIndex : Z;                                  (* uint64 *)
  ss_reads : nat;
}.

Record SendSequence := SSeq {
  nextSequenceNumber : Z;                                (* uint64 *)
  sendItems : list sendItem;
  resendQueue : queue;
  ss_pool : B;
  openSendContracts : gmap bytes sequenceContract;
  (* the current contract is one of the open ones: its id is the pointer *)
  sendContract : option bytes;
  sendContractAcked : bool;
  retainedByteCount : Z;
  ss_made : nat;                                         (* items made *)
  ss_buffers : nat;                                      (* wire frames made *)
  ss_aux : sendAux;
  ss_log : list event;
}.

Definition set_next (s : SendSequence) (n : Z) : SendSequence :=
  SSeq n (sendItems s) (resendQueue s) (ss_pool s) (openSendContracts s) (sendContract s) (sendContractAcked s)
    (retainedByteCount s) (ss_made s) (ss_buffers s) (ss_aux s) (ss_log s).
Definition set_items (s : SendSequence) (l : list sendItem) : SendSequence :=
  SSeq (nextSequenceNumber s) l (resendQueue s) (ss_pool s) (openSendContracts s) (sendContract s) (sendContractAcked s)
    (retainedByteCount s) (ss_made s) (ss_buffers s) (ss_aux s) (ss_log s).
Definition set_queue (s : SendSequence) (q : queue) (b : B) : SendSequence :=
  SSeq (nextSequenceNumber s) (sendItems s) q b (openSendContracts s) (sendContract s) (sendContractAcked s)
    (retainedByteCount s) (ss_made s) (ss_buffers s) (ss_aux s) (ss_log s).
Definition set_contracts (s : SendSequence) (m : gmap bytes sequenceContract) (c : option bytes) (acked : bool) : SendSequence :=
  SSeq (nextSequenceNumber s) (sendItems s) (resendQueue s) (ss_pool s) m c acked
    (retainedByteCount s) (ss_made s) (ss_buffers s) (ss_aux s) (ss_log s).
Definition set_retained (s : SendSequence) (n : Z) : SendSequence :=
  SSeq (nextSequenceNumber s) (sendItems s) (resendQueue s) (ss_pool s) (openSendContracts s) (sendContract s) (sendContractAcked s)
    n (ss_made s) (ss_buffers s) (ss_aux s) (ss_log s).
Definition bump_made (s : SendSequence) : SendSequence :=
  SSeq (nextSequenceNumber s) (sendItems s) (resendQueue s) (ss_pool s) (openSendContracts s) (sendContract s) (sendContractAcked s)
    (retainedByteCount s) (S (ss_made s)) (ss_buffers s) (ss_aux s) (ss_log s).
Definition set_aux (s : SendSequence) (a : sendAux) : SendSequence :=
  SSeq (nextSequenceNumber s) (sendItems s) (resendQueue s) (ss_pool s) (openSendContracts s) (sendContract s) (sendContractAcked s)
    (retainedByteCount s) (ss_made s) (ss_buffers s) a (ss_log s).
Definition emit (s : SendSequence) (e : event) : SendSequence :=
  SSeq (nextSequenceNumber s) (sendItems s) (resendQueue s) (ss_pool s) (openSendContracts s) (sendContract s) (sendContractAcked s)
    (retainedByteCount s) (ss_made s) (ss_buffers s) (ss_aux s) (ss_log s ++ [e]).

(** A wire frame is taken from the pool. *)
Definition alloc (s : SendSequence) : SendSequence * buffer :=
  let b := BufFrame (ss_buffers s) in
  (SSeq (nextSequenceNumber s) (sendItems s) (resendQueue s) (ss_pool s) (openSendContracts s) (sendContract s) (sendContractAcked s)
    (retainedByteCount s) (ss_made s) (S (ss_buffers s)) (ss_aux s) (ss_log s ++ [EvAlloc b]), b).

Definition ss_rtt (s : SendSequence) : RttWindow := rttWindow (ss_aux s).
Definition ss_flight (s : SendSequence) : sendFlightController := flightController (ss_aux s).
Definition reads (s : SendSequence) : nat := ss_reads (ss_aux s).

Definition tick (s : SendSequence) : SendSequence :=
  let a := ss_aux s in
  set_aux s (SendAux (retainedSilenceStart a) (rttWindow a) (flightController a) (contractSeqIndex a) (S (ss_reads a))).
Definition set_silence (s : SendSequence) (t : option Z) : SendSequence :=
  let a := ss_aux s in set_aux s (SendAux t (rttWindow a) (flightController a) (contractSeqIndex a) (ss_reads a)).
Definition set_rtt (s : SendSequence) (w : RttWindow) : SendSequence :=
  let a := ss_aux s in set_aux s (SendAux (retainedSilenceStart a) w (flightController a) (contractSeqIndex a) (ss_reads a)).
Definition set_flight (s : SendSequence) (c : sendFlightController) : SendSequence :=
  let a := ss_aux s in set_aux s (SendAux (retainedSilenceStart a) (rttWindow a) c (contractSeqIndex a) (ss_reads a)).
Definition bump_index (s : SendSequence) : SendSequence :=
  let a := ss_aux s in
  set_aux s (SendAux (retainedSilenceStart a) (rttWindow a) (flightController a) (u64 (contractSeqIndex a + 1)) (ss_reads a)).

Context {E : SendEnv}.

Definition now (s : SendSequence) : SendSequence * Z := (tick s, clock (reads s)).

(** [ScaledRtt()] and [contractFillFraction()], one reading each. *)
Definition ScaledRtt (s : SendSequence) : go (SendSequence * Z) :=
  let! '(w, v) := scaledRtt (ss_rtt s) (clock (reads s)) in Ret (tick (set_rtt s w), v).
Definition contractFillFraction (s : SendSequence) : go (SendSequence * spec_float) :=
  let! '(w, v) := MeanRtt (ss_rtt s) (clock (reads s)) in
  Ret (tick (set_rtt s w), computeFillFraction v (ContractFillFraction settings)).

(** Queue operations on the resend queue. *)
Definition q_remove (s : SendSequence) (id : bytes) : go (SendSequence * option sendItem) :=
  let! '(q, b, x) := RemoveByMessageId si_transfer resend_cmp (resendQueue s) (ss_pool s) id in Ret (set_queue s q b, x).
Definition q_add (s : SendSequence) (i : sendItem) : SendSequence :=
  let '(q, b) := Add si_transfer resend_cmp (resendQueue s) (ss_pool s) i in set_queue s q b.

(** The item has new fields: its entry in [sendItems] shows them. *)
Definition update_item (s : SendSequence) (i : sendItem) : SendSequence :=
  set_items s (map (fun x => if (si_ptr x =? si_ptr i)%nat then i else x) (sendItems s)).

(** *** Callbacks, buffers, retention *)

Definition setContractAcked (s : SendSequence) (lid : bytes) (ack : bool) : SendSequence :=
  match sendContract s with
  | None => s
  | Some id =>
      match openSendContracts s !! id with
      | Some c => if bool_decide (localId c = lid) then set_contracts s (openSendContracts s) (sendContract s) ack else s
      | None => s
      end
  end.

Definition safeAck (s : SendSequence) (cb : option AckFunction) (ok : bool) : SendSequence :=
  match cb with
  | None => s
  | Some (CbUser n) => emit s (EvCallback n ok)
  | Some (CbContractOpen lid) => setContractAcked s lid ok
  end.

Definition messagePoolReturn (s : SendSequence) (i : sendItem) : SendSequence := emit s (EvReturn (si_buffer i)).

Definition releaseRetained (s : SendSequence) (i : sendItem) : SendSequence * sendItem :=
  let r := si_retention i in
  if retainedReleased r then (s, i)
  else
    let charge := if retainedCharge r =? 0 then item_MessageByteCount i else retainedCharge r in
    (set_retained s (i64 (retainedByteCount s - charge)),
     set_retention i (ItemRetention (retainAfterAckTimeout r) 0 true (backstopDeadline r))).

(** The deadline of [retainedSilenceDeadline], when it answers true. *)
Definition retainedSilenceDeadline (s : SendSequence) : option Z :=
  let timeout := RetainedAckTimeout settings in
  match retainedSilenceStart (ss_aux s) with
  | None => None
  | Some t => if (timeout <=? 0) || (retainedByteCount s <=? 0) then None else Some (t + timeout)
  end.

Definition restartRetainedSilence (s : SendSequence) : SendSequence :=
  if 0 <? retainedByteCount s then let '(s, t) := now s in set_silence s (Some t) else set_silence s None.

Definition retainedDestinationSilent (s : SendSequence) (t : Z) : SendSequence * bool :=
  if IsEmpty (resendQueue s) then (set_silence s None, false)
  else
    match retainedSilenceDeadline s with
    | None => (s, false)
    | Some d => if t <? d then (s, false) else (emit s (EvRetention RetainSilence), true)
    end.

(** *** The unreliable flight

    The scheduling key of an item is never set: it is the zero key. *)

Definition trackUnreliableFlight (s : SendSequence) (i : sendItem) : SendSequence * sendItem :=
  if si_tracked i then (s, i)
  else
    let '(c, reserve) := sendForKey (ss_flight s) (item_MessageByteCount i) no_key in
    (set_flight s c, set_tracked i true reserve).

Definition releaseUnreliableFlight (s : SendSequence) (i : sendItem) : go (SendSequence * sendItem) :=
  if negb (si_tracked i) then Ret (s, i)
  else
    let! c := acknowledgeForKey (ss_flight s) (item_MessageByteCount i) no_key (unreliableFlowReserve (si_carrier i)) in
    Ret (set_flight s c, set_tracked i false false).

Definition forgetUnreliableFlight (s : SendSequence) (i : sendItem) : SendSequence * sendItem :=
  if negb (si_tracked i) then (s, i)
  else
    (set_flight s (forget (ss_flight s) (item_MessageByteCount i) no_key (unreliableFlowReserve (si_carrier i))),
     set_tracked i false false).

Definition observeUnreliableResendTimeout (s : SendSequence) (i : sendItem) (reliableRouteAvailable : bool)
  : SendSequence * sendItem * bool :=
  let s := set_flight s (fst (reduceForLoss (ss_flight s))) in
  if negb reliableRouteAvailable then (s, i, false)
  else let '(s, i) := forgetUnreliableFlight s i in (s, i, true).

Definition transferFlightPolicy (s : SendSequence) : SendSequence * (policySnapshot * bool) := (tick s, flightPolicyAt (reads s)).

Definition is_limited (s : SendSequence) : bool := limited (policy (ss_flight s)).

(** [reliableOnlyWrite] under a policy it was given. *)
Definition reliableOnlyWrite (s : SendSequence) (reliableRouteAvailable : bool) : bool :=
  if negb (is_limited s) then false
  else if negb reliableRouteAvailable then false
  else if negb (canSend (ss_flight s)) then true
  else UnreliableFloorSingleFlight settings && atFloor (ss_flight s) && (0 <? messageCount (counts (ss_flight s))).

(** [reliableOnlyWrite()]: the policy is read only on a limited controller. *)
Definition reliableOnlyWriteNow (s : SendSequence) : SendSequence * bool :=
  if negb (is_limited s) then (s, false)
  else let '(s, p) := transferFlightPolicy s in (s, reliableOnlyWrite s (snd p)).

Definition observeCarrierWrite (s : SendSequence) (i : sendItem) (d : disposition) : SendSequence * sendItem :=
  let s := match retainedSilenceStart (ss_aux s) with
           | Some _ => s
           | None => let '(s, t) := now s in set_silence s (Some t)
           end in
  let c := si_carrier i in
  let changed := carrierChanged c ||
    match carrierRoute c with None => false | Some _ => negb (bool_decide (carrierRoute c = d_route d)) end in
  if negb (d_unreliable d) then
    if d_reliable d && negb (unreliableCarrierObserved c) then
      (s, set_carrier i (ItemCarrier changed (d_route d) (unreliableCarrierObserved c) true (d_route d) (d_hybridReliable d)
            (unreliableFlightTracked c) (unreliableFlowReserve c) (itemAckTimeout c)))
    else
      (s, set_carrier i (ItemCarrier changed (d_route d) (unreliableCarrierObserved c) false None false
            (unreliableFlightTracked c) (unreliableFlowReserve c) (itemAckTimeout c)))
  else
    let timeout := if 0 <? UnreliableAckTimeout settings then Z.max (itemAckTimeout c) (UnreliableAckTimeout settings) else itemAckTimeout c in
    trackUnreliableFlight s
      (set_carrier i (ItemCarrier changed (d_route d) true false None false
         (unreliableFlightTracked c) (unreliableFlowReserve c) timeout)).

Definition observeAckRtt (s : SendSequence) (i : sendItem) (tag : option Tag) : go SendSequence :=
  if unreliableCarrierObserved (si_carrier i) then Ret s
  else
    match tag with
    | None => Ret s
    | Some t => let! w := closeSendTime (ss_rtt s) (SendTime t) (clock (reads s)) in Ret (tick (set_rtt s w))
    end.

(** *** Writing *)

(** A frame goes to the route writer; [true]: no error. *)
Definition route_write (s : SendSequence) (plain forced reliableOnly : bool) (b : bytes) : SendSequence * (disposition * bool) :=
  (emit (tick s) (EvWire plain forced b), routeWrite (reads s) reliableOnly b).

Definition writeMaybeWrappedBytes (s : SendSequence) (b : bytes) (forceUnwrapped reliableOnly : bool)
  : SendSequence * (disposition * bool) :=
  let '(s, p) := transferFlightPolicy s in
  let reliableOnly := reliableOnly || reliableOnlyWrite s (snd p) in
  match session with
  | None => route_write s true forceUnwrapped reliableOnly b
  | Some ss =>
      if forceUnwrapped then route_write s true forceUnwrapped reliableOnly b
      else
        match sn_Cipher ss (reads s) with
        | None =>
            if sn_RequireEncryption ss (reads s) then (emit (tick s) EvRefused, (no_disposition, false))
            else route_write s true forceUnwrapped reliableOnly b
        | Some k =>
            if negb (sn_certVerified ss (reads s)) then (tick s, (no_disposition, false))
            else
              match sn_Seal ss (reads s) k b with
              | None => (tick s, (no_disposition, false))
              | Some ct =>
                  let s := if sn_ShouldRekey ss (reads s) then emit s EvRekey else s in
                  match outerFrame ct with
                  | None => (tick s, (no_disposition, false))
                  | Some w => route_write s false forceUnwrapped reliableOnly w
                  end
              end
        end
  end.

(** *** Settling items *)

Definition close_if_done (s : SendSequence) (id : bytes) (c : sequenceContract) : SendSequence :=
  if negb (bool_decide (sendContract s = Some id)) && (unackedByteCount c =? 0)
  then set_contracts (emit s (EvCloseContract (contractId c) (ackedByteCount c) (unackedByteCount c)))
         (delete (contractId c) (openSendContracts s)) (sendContract s) (sendContractAcked s)
  else s.

Definition put_contract (s : SendSequence) (id : bytes) (c : sequenceContract) : SendSequence :=
  set_contracts s (<[id := c]> (openSendContracts s)) (sendContract s) (sendContractAcked s).

(** The contract's side of an acknowledgement. *)
Definition ack_contract (s : SendSequence) (i : sendItem) : go SendSequence :=
  match si_contract i with
  | None => Ret s
  | Some id =>
      match openSendContracts s !! id with
      | None => Ret s
      | Some c =>
          let! c := ack c (si_bytes i) in
          let s := emit (put_contract s id c) (EvContractStats id (ackedByteCount c)) in
          Ret (close_if_done s id c)
      end
  end.

Definition unack_contract (s : SendSequence) (i : sendItem) (close : bool) : SendSequence :=
  match si_contract i with
  | None => s
  | Some id =>
      match openSendContracts s !! id with
      | None => s
      | Some c =>
          let c := unack c (si_bytes i) in
          let s := put_contract s id c in
          if close then close_if_done s id c else s
      end
  end.

Definition ackItemCounted (s : SendSequence) (i : sendItem) (countYield : bool) : go SendSequence :=
  let s := if countYield then emit s (EvEarn (wire_len i)) else s in
  let! '(s, i) := releaseUnreliableFlight s i in
  let! s := ack_contract s i in
  Ret (messagePoolReturn (safeAck s (ik_ackCallback (si_key i)) true) i).

Definition ackItem (s : SendSequence) (i : sendItem) : go SendSequence := ackItemCounted s i true.

Definition ackItemWithErrDropped (s : SendSequence) (i : sendItem) : go SendSequence :=
  let! '(s, i) := releaseUnreliableFlight s i in
  let s := unack_contract s i true in
  Ret (messagePoolReturn (safeAck s (ik_ackCallback (si_key i)) false) i).

(** [slices.Delete] of the first entry that is the item. *)
Fixpoint delete_item (p : nat) (l : list sendItem) : list sendItem :=
  match l with
  | [] => []
  | x :: l => if (si_ptr x =? p)%nat then l else x :: delete_item p l
  end.

Definition dropItem (s : SendSequence) (i : sendItem) : go SendSequence :=
  let! '(s, x) := q_remove s (si_id i) in
  match x with
  | None => Ret s
  | Some _ =>
      let s := set_items s (delete_item (si_ptr i) (sendItems s)) in
      let '(s, i) := if si_retained i then releaseRetained s i else (s, i) in
      ackItemWithErrDropped s i
  end.

(** *** Acknowledgements *)

Definition selective_ack (s : SendSequence) (i : sendItem) : go SendSequence :=
  let! '(s, x) := q_remove s (si_id i) in
  match x with
  | None => Ret s
  | Some _ =>
      let! '(s, i) := if selectiveAcked (si_times i) then Ret (s, i) else releaseUnreliableFlight s i in
      let '(s, t1) := now s in
      let '(s, t2) := now s in
      let i := set_times i (ItemTimes t2 (t1 + SelectiveAckTimeout settings) (sendCount (si_times i)) true) in
      Ret (restartRetainedSilence (q_add (update_item s i) i))
  end.

(** The walk of a cumulative ack of number [n]: what is left of [sendItems]. *)
Fixpoint ack_walk (s : SendSequence) (n : Z) (l : list sendItem) : go (SendSequence * list sendItem) :=
  match l with
  | [] => Ret (s, [])
  | i :: l =>
      if n <? si_seq i then Ret (s, i :: l)
      else
        let! '(s, x) := q_remove s (si_id i) in
        match x with
        | None => ack_walk s n l
        | Some _ =>
            let! '(s, i) := if selectiveAcked (si_times i) then Ret (s, i) else releaseUnreliableFlight s i in
            let '(s, i) := if si_retained i
                           then let '(s, i) := releaseRetained s i in (emit s (EvRetention RetainAck), i)
                           else (s, i) in
            let! s := ackItem s i in
            ack_walk s n l
        end
  end.

Definition receiveAck (s : SendSequence) (id : bytes) (selective : bool) (tag : option Tag) : go SendSequence :=
  match GetByMessageId (resendQueue s) id with
  | None => Ret s
  | Some i =>
      let! s := observeAckRtt s i tag in
      if selective then selective_ack s i
      else
        let! '(s, rest) := ack_walk s (si_seq i) (sendItems s) in
        Ret (restartRetainedSilence (set_items s rest))
  end.

(** *** Sending *)

Definition MessageType_TransferContract : Z := 2.
Definition SequenceRoleServer : Z := 2.

Definition contractFrameOf (c : sequenceContract) : Frame :=
  MkFrame MessageType_TransferContract (Some (marshalContract (contract c))) false.

Definition pack_frame (messageId : bytes) (n : Z) (isHead ack : bool) (frames : list Frame) (cf : option Frame) (tag : Z)
    (cid : option bytes) : sendPackFrame :=
  SendPackFrame (AddSource destination clientId) messageId sequenceId n isHead (negb ack) frames cf tag
    (if ack then None else cid) (if encryptionServer then SequenceRoleServer else 0) encryptionServer encryptionCompanion.

(** The wire frame of a pack; the legacy encoding takes its tag at a reading of
    its own. *)
Definition encode (s : SendSequence) (sendTime : Z) (frame : Z -> sendPackFrame) : SendSequence * bytes :=
  if 2 <=? ProtocolVersion settings then (s, marshalSendPackTransferFrame (frame (openTag sendTime)))
  else let '(s, t) := now s in (s, legacyMarshal (frame (openTag t))).

(** The retained-byte cap at admission. *)
Definition admit_retained (s : SendSequence) (i : sendItem) : SendSequence * sendItem :=
  if negb (si_retained i) then (s, i)
  else
    let charge := item_MessageByteCount i in
    if retainCap (ResendQueueMaxByteCount settings) <? i64 (retainedByteCount s + charge)
    then (emit s (EvRetention RetainCapDenied), set_retention i (ItemRetention false 0 (retainedReleased (si_retention i)) None))
    else
      (set_retained s (i64 (retainedByteCount s + charge)),
       set_retention i (ItemRetention true charge (retainedReleased (si_retention i)) (backstopDeadline (si_retention i)))).

(** The current contract, with its id. *)
Definition current (s : SendSequence) : go (option (bytes * sequenceContract)) :=
  match sendContract s with
  | None => Ret None
  | Some id => match openSendContracts s !! id with Some c => Ret (Some (id, c)) | None => Panic end
  end.

Definition no_carrier : itemCarrier := ItemCarrier false None false false None false false false 0.

(** The item of a message, numbered and encoded. *)
Definition make_item (s : SendSequence) (frames : list Frame) (cb : option AckFunction) (ack setContract forceUnwrapped retain : bool)
  : go (SendSequence * sendItem * bool) :=
  let '(s, t) := now s in
  let id := itemId (ss_made s) in
  let! cur := current s in
  let ack := ack || match cur with Some _ => negb (sendContractAcked s) | None => false end in
  let isHead := ack && match sendItems s with [] => true | _ => false end in
  let n := if ack then nextSequenceNumber s else 0 in
  let s := if ack then set_next s (u64 (nextSequenceNumber s + 1)) else s in
  let cf := match cur with
            | Some (_, c) => if isHead || setContract then Some (contractFrameOf c) else None
            | None => None
            end in
  let cid := option_map fst cur in
  let '(s, b) := encode s t (fun tag => pack_frame id n isHead ack frames cf tag cid) in
  let! '(s, rtt) := ScaledRtt s in
  let '(s, buf) := alloc s in
  let i := SendItem
    (ItemKey (ss_made s) id n (frames_MessageByteCount frames) cid (match cf with Some _ => true | None => false end) cb forceUnwrapped)
    (ItemTimes t (t + rtt) 1 false) (ItemWire isHead b buf)
    (ItemRetention retain 0 false (if retain then Some (t + i64 (AckTimeout settings * 10)) else None)) no_carrier in
  Ret (emit (bump_made s) (EvSend i ack), i, ack).

Definition sendWithSetContract (s : SendSequence) (frame : option (Frame * nat)) (cb : option AckFunction)
    (ack setContract forceUnwrapped retain : bool) : go SendSequence :=
  let frames := match frame with Some (f, _) => [f] | None => [] end in
  let! '(s, i, ack) := make_item s frames cb ack setContract forceUnwrapped retain in
  let '(s, reliableOnly) := reliableOnlyWriteNow s in
  let '(s, (d, ok)) := writeMaybeWrappedBytes s (transferFrameBytes (si_wire i)) forceUnwrapped reliableOnly in
  let '(s, i) := if ok then observeCarrierWrite (emit s (EvFirstSend (wire_len i))) i d else (s, i) in
  let! s :=
    if ack then
      let '(s, i) := admit_retained s i in
      Ret (q_add (set_items s (sendItems s ++ [i])) i)
    else if ok then ackItemCounted s i false
    else Ret (messagePoolReturn (safeAck s cb false) i) in
  (* the deferred return of the message bytes *)
  Ret (match frame with Some (_, b) => emit s (EvReturn (BufPack b)) | None => s end).

Definition send (s : SendSequence) (p : SendPack) : go SendSequence :=
  sendWithSetContract s (Some (sk_Frame p, sk_buffer p)) (option_map CbUser (sk_AckCallback p)) (sk_Ack p) false
    (sk_ForceUnwrapped p) (sk_RetainAfterAckTimeout p).

(** *** Contracts *)

Definition setContract (s : SendSequence) (next : sequenceContract) : go SendSequence :=
  let! cur := current s in
  let s := match cur with
           | Some (id, c) =>
               if unackedByteCount c =? 0
               then set_contracts (emit s (EvCloseContract (contractId c) (ackedByteCount c) (unackedByteCount c)))
                      (delete (contractId c) (openSendContracts s)) (sendContract s) (sendContractAcked s)
               else s
           | None => s
           end in
  let s := set_contracts s (<[contractId next := next]> (openSendContracts s)) (Some (contractId next)) false in
  Ret (emit s (EvOpenContract (contractId next) (transferByteCount next))).

Definition now_ms (s : SendSequence) : Z := clock (reads s) / 1000000.

Definition setNextContract (s : SendSequence) (ct : Contract) (n : Z) : go (SendSequence * bool) :=
  let! '(s, fill) := contractFillFraction s in
  match newSequenceContract unmarshalStored ct (MinMessageByteCount settings) fill (newId (reads s)) with
  | inr _ => Ret (tick s, false)
  | inl next =>
      let s := tick s in
      if bool_decide (is_Some (openSendContracts s !! contractId next)) then Ret (s, false)
      else if expired next (now_ms s) then Ret (emit (tick s) (EvCloseContract (contractId next) 0 0), false)
      else
        let s := tick s in
        let '(next1, ok1) := update next (now_ms s) 0 in
        let s := tick s in
        let '(next2, ok2) := if ok1 then update next1 (now_ms s) n else (next1, false) in
        let s := tick s in
        if ok2 then
          let! s := setContract s next2 in
          let forced := match session with Some ss => bool_decide (sn_Cipher ss (reads s) = None) | None => false end in
          let! s := sendWithSetContract (tick s) None (Some (CbContractOpen (localId next2))) true true forced false in
          Ret (s, true)
        else Ret (emit s (EvCloseContract (contractId next) 0 0), false)
  end.

Definition createContract (s : SendSequence) (n : Z) : go SendSequence :=
  let! '(s, fill) := contractFillFraction s in
  Ret (emit s (EvCreateContract (contractSeqIndex (ss_aux s)) (contractRequest n fill))).

Definition nextContract (s : SendSequence) (ct : option Contract) (n : Z) : go (SendSequence * bool) :=
  match ct with
  | None => Ret (s, false)
  | Some ct =>
      let! '(s, ok) := setNextContract s ct n in
      if ok then let! s := createContract (bump_index s) (i64 (n + MinMessageByteCount settings)) in Ret (s, true)
      else Ret (s, false)
  end.

(** The loop; at the end of the attempts the context is done or the deadline has
    passed. *)
Fixpoint contract_loop (s : SendSequence) (n : Z) (l : list attempt) : go (SendSequence * bool) :=
  match l with
  | [] => Ret (s, false)
  | a :: l =>
      let! s := if at_degraded a then Ret s else createContract s (i64 (i64 (n + n) + MinMessageByteCount settings)) in
      let! '(s, ok) := nextContract s (at_contract a) n in
      if ok then Ret (s, true) else contract_loop s n l
  end.

Definition updateContract (s : SendSequence) (n : Z) (l : list attempt) : go (SendSequence * bool) :=
  let noContract := SendNoContract (reads s) in
  let s := tick s in
  if noContract then Ret (s, true)
  else
    let! cur := current s in
    let '(s, ok) := match cur with
                    | None => (s, false)
                    | Some (id, c) => let '(c, ok) := update c (now_ms s) n in (put_contract (tick s) id c, ok)
                    end in
    if ok then Ret (s, true)
    else
      let standard := StandardContractTransferByteCount (reads s) in
      let! '(s, fill) := contractFillFraction s in
      if int64_of_float32 (float32_mul (float32_of_Z standard) fill) <? i64 (n + MinMessageByteCount settings) then Panic
      else
        match cur, l with
        | None, _ => contract_loop s n l
        | Some _, [] => Ret (s, false)
        | Some _, a :: l =>
            let! '(s, ok) := nextContract s (at_contract a) n in
            if ok then Ret (s, true) else contract_loop s n l
        end.

(** *** Resending *)

(** The pack of a decoded frame: its own, or the one in the bytes of a legacy
    frame; [None] when those do not decode. A frame with neither is a nil
    dereference. *)
Definition head_pack (tf : TransferFrame) : go (option Pack) :=
  match tf_Pack tf with
  | Some pk => Ret (Some pk)
  | None => match tf_Frame tf with Some f => Ret (protoUnmarshalPack (bval (MessageBytes f))) | None => Panic end
  end.

(** The head flag and the tag are set, and the contract's frame when there is one
    to attach. *)
Definition head_fields (pk : Pack) (tag : Z) (cf : option Frame) : Pack :=
  MkPack (FrameCodec.MessageId pk) (SequenceId pk) (FrameCodec.SequenceNumber pk) true (Frames pk) (Nack pk)
    (match cf with Some _ => cf | None => ContractFrame pk end) (Some (MkTag tag)) (ContractId pk).

(** The frame with the new pack, encoded; [head_pack] has found a pack or a legacy
    frame in it. *)
Definition head_bytes (tf : TransferFrame) (pk : Pack) : option bytes :=
  let with_pack f p := MkTransferFrame (tf_TransferPath tf) f p (tf_Ack tf) (tf_EncryptedTransferFrame tf) (tf_SessionRole tf) (tf_SessionCompanion tf) in
  match tf_Pack tf with
  | Some _ => protoMarshalTransferFrame (with_pack (tf_Frame tf) (Some pk))
  | None =>
      match tf_Frame tf, protoMarshalPack pk with
      | Some f, Some b => protoMarshalTransferFrame (with_pack (Some (MkFrame (MessageType f) (Some b) (Raw f))) None)
      | _, _ => None
      end
  end.

(** The contract frame a head is given when its item did not carry one. A contract
    that is no longer open is a nil dereference. *)
Definition head_contract (s : SendSequence) (i : sendItem) : go (option Frame) :=
  match si_contract i with
  | Some id =>
      if ik_hasContractFrame (si_key i) then Ret None
      else match openSendContracts s !! id with Some c => Ret (Some (contractFrameOf c)) | None => Panic end
  | None => Ret None
  end.

(** The new wire frame: the item's frame is decoded, its pack made the head and
    encoded again; [None] when a step of the codec fails. *)
Definition setHead (s : SendSequence) (i : sendItem) : go (SendSequence * option bytes) :=
  match protoUnmarshalTransferFrame (transferFrameBytes (si_wire i)) with
  | None => Ret (s, None)
  | Some tf =>
      let! pack := head_pack tf in
      match pack with
      | None => Ret (s, None)
      | Some pk =>
          let '(s, t) := now s in
          let! cf := head_contract s i in
          Ret (s, head_bytes tf (head_fields pk (openTag t) cf))
      end
  end.

Definition apply_policy (s : SendSequence) : SendSequence * bool :=
  let '(s, (p, available)) := transferFlightPolicy s in (set_flight s (fst (applyPolicy (ss_flight s) p)), available).

(** The frame an item is resent with: [None] when the head could not be set. *)
Definition promote (s : SendSequence) (i : sendItem) (promotingHead : bool) : go (SendSequence * option sendItem) :=
  if promotingHead then
    let! '(s, b) := setHead s i in
    match b with
    | None => let! s := dropItem s i in Ret (s, None)
    | Some b =>
        let! '(s, _) := q_remove s (si_id i) in
        let '(s, buf) := alloc (messagePoolReturn s i) in
        let i := set_wire i (ItemWire true b buf) in
        Ret (update_item s i, Some i)
    end
  else let! '(s, _) := q_remove s (si_id i) in Ret (s, Some i).

(** Back into the queue at [t]. *)
Definition requeue (s : SendSequence) (i : sendItem) (t : Z) : SendSequence :=
  let i := set_resend i t in q_add (update_item s i) i.

(** The time an item is due again: its backoff, or its ack deadline when that
    comes first. *)
Definition next_resend (i : sendItem) (t ackTimeout timeout : Z) : Z :=
  if negb (si_retained i) && (ackTimeout <=? timeout) then t + ackTimeout else t + timeout.

Definition resend_write (s : SendSequence) (i : sendItem) (debit : Z) : go (SendSequence * sendItem) :=
  let '(s, available) := apply_policy s in
  let '(s, i, reliableOnly) :=
    if si_tracked i then observeUnreliableResendTimeout s i available else (s, i, false) in
  let '(s, (d, ok)) := writeMaybeWrappedBytes s (transferFrameBytes (si_wire i)) (ik_forceUnwrapped (si_key i)) reliableOnly in
  let s := if negb ok && (0 <? debit) then emit s (EvRefund debit) else s in
  let '(s, i) := if d_typed d || d_unreliable d || d_reliable d then observeCarrierWrite s i d else (s, i) in
  Ret (emit s (EvResend (wire_len i) (i64 (sendCount (si_times i) + 1))), set_sendCount i (i64 (sendCount (si_times i) + 1))).

(** One due item; [false] ends the sequence. *)
Definition resend_item (s : SendSequence) (i : sendItem) (t ackTimeout : Z) : go (SendSequence * bool) :=
  let! first := index (sendItems s) 0 in
  let isHead := si_seq first =? si_seq i in
  let promotingHead := isHead && negb (head (si_wire i)) in
  let! '(s, x) := promote s i promotingHead in
  match x with
  | None => Ret (emit s (EvExit sendExitHeadError), false)
  | Some i =>
      let charged := negb promotingHead && negb (resendIsFree (sendCount (si_times i)) isHead) in
      let '(allowed, debit) := if charged then retryAllowed (reads s) (wire_len i) else (true, 0) in
      let s := if charged then tick s else s in
      if negb allowed then
        let s := emit s (EvDeferred (wire_len i)) in
        let! '(s, rtt) := ScaledRtt s in
        let timeout := resendBackoff rtt (i64 (sendCount (si_times i) + 1)) (MaxResendInterval settings) in
        Ret (requeue s i (next_resend i t ackTimeout timeout), true)
      else
        let! '(s, i) := resend_write s i debit in
        if (0 <? MaxResendCount settings) && (MaxResendCount settings <=? sendCount (si_times i))
        then Ret (requeue s i (t + AckTimeout settings), true)
        else
          let! '(s, rtt) := ScaledRtt s in
          let timeout := resendBackoff rtt (sendCount (si_times i)) (MaxResendInterval settings) in
          Ret (requeue s i (next_resend i t ackTimeout timeout), true)
  end.

(** The head of the queue at time [t]: it ends the loop, with the next wait or
    with the sequence ([None]), or it is due. *)
Inductive look :=
| LookEnd (s : SendSequence) (r : option Z)
| LookDue (i : sendItem) (expired : bool) (ackTimeout timeout : Z).

Definition resend_look (s : SendSequence) (t timeout : Z) : look :=
  match PeekFirst (resendQueue s) with
  | None => LookEnd s (Some timeout)
  | Some i =>
      let ackTimeout := time_Sub (sendTime (si_times i) + AckTimeout settings) t in
      let timeout' := if negb (si_retained i) && (ackTimeout <? timeout) then ackTimeout else timeout in
      let expired := si_retained i && backstop_passed i t in
      if negb expired && (ackTimeout <=? 0) && negb (si_retained i) then LookEnd (emit s (EvExit sendExitAckTimeout)) None
      else if negb expired && (t <? si_resend i) then
        let itemTimeout := time_Sub (si_resend i) t in
        LookEnd s (Some (if itemTimeout <? timeout' then itemTimeout else timeout'))
      else LookDue i expired ackTimeout (if expired then timeout else timeout')
  end.

(** The loop over the due items at time [t]; [None] ends the sequence, otherwise
    the next wait. *)
Fixpoint resend_pass (fuel : nat) (s : SendSequence) (t timeout : Z) : go (SendSequence * option Z) :=
  match resend_look s t timeout with
  | LookEnd s r => Ret (s, r)
  | LookDue i expired ackTimeout timeout =>
      match fuel with
      | O => Panic
      | S fuel =>
          if expired then
            let! s := dropItem (emit s (EvRetention RetainDrop)) i in
            resend_pass fuel s t timeout
          else
            let! '(s, go_on) := resend_item s i t ackTimeout in
            if go_on then resend_pass fuel s t timeout else Ret (s, None)
      end
  end.

(** The scan of the snapshot for expired backstops. *)
Fixpoint backstop_scan (s : SendSequence) (t : Z) (l : list sendItem) : go SendSequence :=
  match l with
  | [] => Ret s
  | i :: l =>
      let! s := if si_retained i && backstop_passed i t then dropItem (emit s (EvRetention RetainDrop)) i else Ret s in
      backstop_scan s t l
  end.

(** *** The loop *)

(** The acks of a turn's snapshot: the head when it was updated, and the
    selective ones in the order the map is walked. *)
Definition apply_acks (s : SendSequence) (headAck : option sequenceAck) (l : list (bytes * sequenceAck)) : go SendSequence :=
  let! s := match headAck with Some a => receiveAck s (ak_messageId a) false (ak_tag a) | None => Ret s end in
  fold_left (fun m '(id, a) => let! s := m in receiveAck s id true (ak_tag a)) l (Ret s).

(** [unreliableFlightGates] under the policy of the turn. *)
Definition unreliableFlightGates (s : SendSequence) (available : bool) : bool := is_limited s && negb available.

Definition canQueue (s : SendSequence) (gates available : bool) : bool :=
  let capacity := CanAdd (resendQueue s) (ss_pool s) 0 (ResendQueueMaxByteCount settings) in
  if negb gates then capacity
  else if negb (canSend (ss_flight s)) then available && atFloor (ss_flight s) && capacity
  else capacity.

(** What the select of a turn picks. [SelIdle closed]: the timer, with the
    answer of [idleCondition.Close]. *)
Inductive select_case := SelDone | SelAcks | SelClosed | SelPack (p : SendPack) (l : list attempt) | SelIdle (closed : bool).

Record turn_input := TurnInput {
  in_head : option sequenceAck;
  in_selective : list (bytes * sequenceAck);
  in_case : select_case;
}.

(** Before the select: [None] ends the sequence, otherwise the wait. *)
Definition before_select (s : SendSequence) (x : turn_input) : go (SendSequence * option Z) :=
  let! s := apply_acks s (in_head x) (in_selective x) in
  let '(s, t) := now s in
  let '(s, silent) := retainedDestinationSilent s t in
  if silent then Ret (s, None)
  else
    let! '(s, timeout) :=
      if IsEmpty (resendQueue s) then Ret (s, Some (IdleTimeout settings))
      else resend_pass (S (Len (orderedItems (resendQueue s)))) s t (AckTimeout settings) in
    match timeout with
    | None => Ret (s, None)
    | Some timeout =>
        let! s := backstop_scan s t (TransferQueue.Snapshot (resendQueue s)) in
        match retainedSilenceDeadline s with
        | None => Ret (s, Some timeout)
        | Some d => let '(s, u) := now s in Ret (s, Some (Z.min timeout (Z.max (time_Sub d u) Millisecond)))
        end
    end.

Definition idle_exit (s : SendSequence) (closed : bool) : SendSequence * bool :=
  if IsEmpty (resendQueue s) && closed then (emit s (EvExit sendExitIdle), false) else (s, true).

(** The select itself; a full queue does not receive packs. *)
Definition after_select (s : SendSequence) (c : select_case) : go (SendSequence * bool) :=
  let '(s, available) := apply_policy s in
  let gates := unreliableFlightGates s available in
  match c with
  | SelDone => Ret (emit s (EvExit sendExitCancelled), false)
  | SelAcks => Ret (s, true)
  | SelIdle closed => Ret (idle_exit s closed)
  | SelClosed => if canQueue s gates available then Ret (s, false) else Ret (s, true)
  | SelPack p l =>
      if canQueue s gates available then
        let! '(s, ok) := updateContract (emit s (EvTake p)) (sk_MessageByteCount p) l in
        if ok then let! s := send s p in Ret (s, true)
        else
          let s := safeAck s (option_map CbUser (sk_AckCallback p)) false in
          Ret (emit (emit s (EvReturn (BufPack (sk_buffer p)))) (EvExit sendExitNoContract), false)
      else Ret (s, true)
  end.

Definition turn (s : SendSequence) (x : turn_input) : go (SendSequence * bool) :=
  let! '(s, timeout) := before_select s x in
  match timeout with
  | None => Ret (s, false)
  | Some _ => after_select s (in_case x)
  end.

(** The deferred teardown. The contracts are closed in the order of the map's
    iteration. *)
Definition discard_item (s : SendSequence) (i : sendItem) : SendSequence :=
  let '(s, i) := if si_retained i then releaseRetained (emit s (EvRetention RetainSeqExit)) i else (s, i) in
  let s := unack_contract s i false in
  messagePoolReturn (safeAck s (ik_ackCallback (si_key i)) false) i.

Definition teardown (s : SendSequence) : SendSequence :=
  let '(q, b, l) := Clear resend_cmp (resendQueue s) (ss_pool s) in
  let s := fold_left discard_item l (set_queue s q b) in
  let s := set_retained s 0 in
  let s := fold_left (fun s c => emit s (EvCloseContract (contractId c) (ackedByteCount c) (unackedByteCount c)))
             (map snd (map_to_list (openSendContracts s))) s in
  emit s EvFlushContracts.

(** [Run] on the inputs of its turns; [true] is a sequence still running when
    they are used up. *)
Fixpoint Run (s : SendSequence) (l : list turn_input) : go (SendSequence * bool) :=
  match l with
  | [] => Ret (s, true)
  | x :: l =>
      let! '(s, go_on) := turn s x in
      if go_on then Run s l else Ret (teardown s, false)
  end.

Definition newResendQueue (b : B) (budget : option H) (minByteCount : Z) : queue * B :=
  setBudget (newTransferQueue resend_cmp) b budget minByteCount.

(** [lifetime]: ResendQueueRetainedByteAccounting, as the constructor settles it;
    [w] is the new round-trip window. *)
Definition NewSendSequence (b : B) (budget : option H) (minByteCount : Z) (lifetime : bool) (w : RttWindow) : SendSequence :=
  let '(q, b) := newResendQueue b budget minByteCount in
  let '(q, b) := if lifetime then setLifetimeBudget q b else (q, b) in
  SSeq 0 [] q b ∅ None false 0 0 0 (SendAux None w (newSendFlightController (Some (FlightSettings settings))) 0 0) [].
End sequence.
