(* ===== verification/SendNumbers.v ===== *)
(** The numbers of the send sequence: the fraction of a contract that is filled
    before the next one, in float64 and float32, and the resend backoff. *)
From Stdlib Require Import SpecFloat.
From S2P Require Import Prelude RttWindow SendSequence.

(** ** Integers as float64

    An integer of at most 53 bits is represented exactly: its mantissa is
    shifted to 53 bits, and its exponent says by how much. *)

Lemma digits_shift k m : digits2_pos (Pos.iter xO m k) = (digits2_pos m + k)%positive.
Proof.
  apply (Pos.iter_ind positive xO m (fun k z => digits2_pos z = (digits2_pos m + k)%positive)); cbn; lia.
Qed.

(** The number of bits and the size of a positive. *)
Lemma digits_bounds p : 2 ^ (Z.pos (digits2_pos p) - 1) <= Z.pos p < 2 ^ Z.pos (digits2_pos p).
Proof.
  induction p as [p IH|p IH|]; cbn [digits2_pos]; [..|by cbn]; rewrite Pos2Z.inj_succ;
    replace (Z.succ (Z.pos (digits2_pos p)) - 1) with (Z.succ (Z.pos (digits2_pos p) - 1)) by lia;
    rewrite !Z.pow_succ_r by lia; lia.
Qed.

Lemma digits_le p k : 0 < k -> Z.pos p < 2 ^ k -> Z.pos (digits2_pos p) <= k.
Proof.
  intros Hk Hp. destruct (digits_bounds p) as [Hb _]. destruct (Z.le_gt_cases (Z.pos (digits2_pos p)) k); [done|].
  assert (2 ^ k <= 2 ^ (Z.pos (digits2_pos p) - 1)) by (apply Z.pow_le_mono_r; lia). lia.
Qed.
Lemma digits_ge p k : 2 ^ k <= Z.pos p -> k < Z.pos (digits2_pos p).
Proof.
  intros Hp. destruct (digits_bounds p) as [_ Hb]. destruct (Z.lt_ge_cases k (Z.pos (digits2_pos p))); [done|].
  assert (2 ^ Z.pos (digits2_pos p) <= 2 ^ k) by (apply Z.pow_le_mono_r; lia). lia.
Qed.

Lemma float64_exact s p :
  Z.pos (digits2_pos p) <= 53 ->
  exists m, binary_round 53 1024 s p 0 = S754_finite s m (Z.pos (digits2_pos p) - 53) /\ Z.pos (digits2_pos m) = 53.
Proof.
  intros Hd. unfold binary_round, shl_align.
  assert (He : fexp 53 1024 (Z.pos (digits2_pos p) + 0) = Z.pos (digits2_pos p) - 53) by (unfold fexp, emin; lia).
  rewrite He, Z.sub_0_r.
  assert (Hround : forall m, Z.pos (digits2_pos m) = 53 ->
            binary_round_aux 53 1024 s (Z.pos m) (Z.pos (digits2_pos p) - 53) loc_Exact = S754_finite s m (Z.pos (digits2_pos p) - 53)).
  { intros m Hm. unfold binary_round_aux, shr_fexp. cbn [Zdigits2]. rewrite Hm.
    replace (fexp 53 1024 (53 + (Z.pos (digits2_pos p) - 53)) - (Z.pos (digits2_pos p) - 53)) with 0 by (unfold fexp, emin; lia).
    cbn [shr shr_record_of_loc shr_m loc_of_shr_record round_nearest_even Zdigits2]. rewrite Hm.
    replace (fexp 53 1024 (53 + (Z.pos (digits2_pos p) - 53)) - (Z.pos (digits2_pos p) - 53)) with 0 by (unfold fexp, emin; lia).
    cbn [shr shr_record_of_loc shr_m]. rewrite (proj2 (Z.leb_le _ _)) by lia. done. }
  destruct (Z.pos (digits2_pos p) - 53) as [|k|k] eqn:Ek; [|lia|].
  - exists p. split; [|lia]. rewrite <- (Hround p) by lia. done.
  - exists (Pos.iter xO p k). rewrite digits_shift. split; [|lia]. rewrite <- (Hround (Pos.iter xO p k)) by (rewrite digits_shift; lia). done.
Qed.

Lemma leb_100_neg p : Z.pos (digits2_pos p) <= 53 -> SFleb (float64_of_Z (Z.neg p)) (float64_of_Z 100) = true.
Proof. intros Hp. cbn [float64_of_Z binary_normalize]. destruct (float64_exact true p Hp) as (m & Em & _). unfold float64_of_Z, binary_normalize. by rewrite Em. Qed.
Lemma leb_1000_big p : 1024 <= Z.pos p -> Z.pos (digits2_pos p) <= 53 -> SFleb (float64_of_Z 1000) (float64_of_Z (Z.pos p)) = true.
Proof.
  intros Hp Hd. destruct (float64_exact false p Hd) as (m & Em & _). unfold float64_of_Z at 2, binary_normalize. rewrite Em.
  assert (Hge : 10 < Z.pos (digits2_pos p)) by (by apply digits_ge).
  replace (float64_of_Z 1000) with (S754_finite false 8796093022208000 (-43)) by (vm_compute; reflexivity). unfold SFleb, SFcompare.
  by rewrite (proj2 (Z.compare_lt_iff _ _)) by lia.
Qed.

(** ** The fill fraction *)

Definition fill_low : spec_float := float32_of_float64 (float64_const 7 10).
Definition fill_high : spec_float := float32_of_float64 (float64_const 85 100).
Definition fill_at (ms : Z) : spec_float :=
  float32_of_float64
    (SFsub 53 1024 (float64_const 85 100)
       (SFdiv 53 1024 (SFmul 53 1024 (float64_const 15 100) (SFsub 53 1024 (float64_of_Z ms) (float64_of_Z 100))) (float64_of_Z 900))).

Lemma leb_small n : 0 <= n <= 100 -> SFleb (float64_of_Z n) (float64_of_Z 100) = true.
Proof. intros Hn. apply (all_below (fun n => SFleb (float64_of_Z n) (float64_of_Z 100)) 101); [by vm_compute|lia]. Qed.
Lemma leb_large n : 1000 <= n < 1024 -> SFleb (float64_of_Z 1000) (float64_of_Z n) = true.
Proof.
  intros Hn. pose proof (all_below (fun n => (n <? 1000) || SFleb (float64_of_Z 1000) (float64_of_Z n)) 1024 ltac:(by vm_compute) n ltac:(lia)) as Hb.
  cbn beta in Hb. by rewrite (proj2 (Z.ltb_ge n 1000)) in Hb by lia.
Qed.

(** A mean round trip is an int64 of nanoseconds; its milliseconds fall into
    three ranges. *)
Lemma fill_cases v fallback :
  - 9223372036854775808 <= v <= MaxInt64 ->
  let n := Z.quot v Millisecond in
  computeFillFraction v fallback =
  if v =? 0 then fallback else if n <=? 100 then fill_high else if 1000 <=? n then fill_low else fill_at n.
Proof.
  intros Hv. unfold computeFillFraction. destruct (Z.eqb_spec v 0) as [->|Hz]; [done|].
  assert (Hq : - 9223372036854 - 1 <= Z.quot v Millisecond <= 9223372036854 + 1) by (unfold Millisecond, MaxInt64 in *; Z.to_euclidean_division_equations; lia).
  rewrite i64_small by (unfold MaxInt64; lia). set (n := Z.quot v Millisecond) in *. cbn zeta.
  assert (Hdig : forall p, Z.pos p <= 9223372036855 -> Z.pos (digits2_pos p) <= 53) by (intros p Hp; apply digits_le; [lia|change (2 ^ 53) with 9007199254740992; lia]).
  destruct (Z.leb_spec n 100) as [H1|H1].
  - replace (SFleb (float64_of_Z n) (float64_of_Z 100)) with true; [done|]. symmetry.
    destruct (Z.lt_ge_cases n 0); [|apply leb_small; lia]. destruct n as [|p|p]; [lia..|]. apply leb_100_neg, Hdig. lia.
  - replace (SFleb (float64_of_Z n) (float64_of_Z 100)) with false.
    2:{ symmetry. destruct (Z.lt_ge_cases n 1024).
        - pose proof (all_below (fun n => (n <=? 100) || negb (SFleb (float64_of_Z n) (float64_of_Z 100))) 1024 ltac:(by vm_compute) n ltac:(lia)) as Hb.
          cbn beta in Hb. rewrite (proj2 (Z.leb_gt n 100)) in Hb by lia. by apply negb_true_iff in Hb.
        - destruct n as [|p|p]; [lia| |lia]. destruct (float64_exact false p) as (m & Em & _); [apply Hdig; lia|].
          unfold float64_of_Z at 1, binary_normalize. rewrite Em. replace (float64_of_Z 100) with (S754_finite false 7036874417766400 (-46)) by (vm_compute; reflexivity).
          unfold SFleb, SFcompare. assert (Hge : 10 < Z.pos (digits2_pos p)) by (by apply digits_ge).
          rewrite (proj2 (Z.compare_gt_iff _ _)) by lia. done. }
    destruct (Z.leb_spec 1000 n) as [H2|H2].
    + replace (SFleb (float64_of_Z 1000) (float64_of_Z n)) with true; [done|]. symmetry.
      destruct (Z.lt_ge_cases n 1024); [apply leb_large; lia|]. destruct n as [|p|p]; [lia| |lia]. apply leb_1000_big; [lia|apply Hdig; lia].
    + pose proof (all_below (fun n => (n <=? 100) || (1000 <=? n) || negb (SFleb (float64_of_Z 1000) (float64_of_Z n))) 1000 ltac:(by vm_compute) n ltac:(lia)) as Hb.
      cbn beta in Hb. rewrite (proj2 (Z.leb_gt n 100)), (proj2 (Z.leb_gt 1000 n)) in Hb by lia. apply negb_true_iff in Hb. by rewrite Hb.
Qed.

(** ** Claims *)

Definition fle (a b : spec_float) : Prop := SFleb a b = true.
Definition unit_float (m : positive) : spec_float := S754_finite false m (-24).
Lemma fle_unit m m' : Z.pos m <= Z.pos m' -> fle (unit_float m) (unit_float m').
Proof.
  intros Hm. unfold fle, unit_float, SFleb, SFcompare. cbn. change (Pos.compare_cont Eq m m') with (m ?= m')%positive.
  destruct (Pos.compare_spec m m') as [?|?|Hg]; [done..|]. change (Z.pos m' < Z.pos m) in Hg. lia.
Qed.

(** The fractions of the middle range are all of the same exponent; their
    mantissas fall from one millisecond to the next. *)
Definition mantissa (f : spec_float) : Z :=
  match f with S754_finite false m e => if e =? -24 then Z.pos m else 0 | _ => 0 end.
Lemma mantissa_pos f : 0 < mantissa f -> f = unit_float (Z.to_pos (mantissa f)).
Proof. destruct f as [| | |[] m e]; cbn; try lia. destruct (Z.eqb_spec e (-24)) as [->|]; [done|lia]. Qed.

Fixpoint descends (n : nat) (k prev : Z) : bool :=
  match n with
  | O => true
  | S n => let m := mantissa (fill_at k) in (0 <? m) && (m <=? prev) && descends n (k + 1) m
  end.
Lemma descends_from n k prev :
  descends n k prev = true -> forall i, k <= i < k + Z.of_nat n ->
  0 < mantissa (fill_at i) <= prev /\ forall j, i <= j < k + Z.of_nat n -> mantissa (fill_at j) <= mantissa (fill_at i).
Proof.
  revert k prev. induction n as [|n IH]; intros k prev; cbn [descends]; [lia|].
  intros [[H1%Z.ltb_lt H2%Z.leb_le]%andb_prop H3]%andb_prop i Hi. specialize (IH _ _ H3).
  destruct (Z.eq_dec i k) as [->|Hne].
  - split; [done|]. intros j Hj. destruct (Z.eq_dec j k) as [->|Hj']; [done|]. destruct (IH j) as [[_ ?] _]; [lia|done].
  - destruct (IH i) as [A1 A2]; [lia|]. split; [lia|]. intros j Hj. apply A2. lia.
Qed.

Lemma middle_descends : descends 899 101 14260634 && (11744051 <=? mantissa (fill_at 999)) = true.
Proof. vm_compute. reflexivity. Qed.
Lemma fill_ends : fill_low = unit_float 11744051 /\ fill_high = unit_float 14260634.
Proof. vm_compute. repeat split. Qed.
#[local] Opaque fill_at fill_low fill_high.

Lemma middle_range n :
  100 < n < 1000 -> fle (fill_at n) fill_high /\ fle fill_low (fill_at n) /\ forall n', n <= n' < 1000 -> fle (fill_at n') (fill_at n).
Proof.
  intros Hn. destruct fill_ends as [-> ->]. destruct (andb_prop _ _ middle_descends) as [Hd Hl%Z.leb_le].
  pose proof (descends_from _ _ _ Hd) as Hall. clear Hd.
  destruct (Hall n) as [A1 A2]; [lia|]. assert (A3 : 11744051 <= mantissa (fill_at n)) by (apply (Z.le_trans _ _ _ Hl), A2; lia). clear Hl.
  assert (Ef : forall k, 100 < k < 1000 -> fill_at k = unit_float (Z.to_pos (mantissa (fill_at k)))).
  { intros k Hk. apply mantissa_pos. apply Hall. lia. }
  split; [|split].
  - rewrite (Ef n Hn). apply fle_unit. lia.
  - rewrite (Ef n Hn). apply fle_unit. lia.
  - intros n' Hn'. rewrite (Ef n Hn), (Ef n') by lia. destruct (Hall n') as [B1 _]; [lia|]. apply fle_unit. specialize (A2 n'). lia.
Qed.

(** Every fraction, when the fallback is one: the mantissa is between those of
    0.7 and 0.85. *)
Lemma fill_unit v fallback m0 :
  - 9223372036854775808 <= v <= MaxInt64 -> fallback = unit_float m0 -> 11744051 <= Z.pos m0 <= 14260634 ->
  exists m, computeFillFraction v fallback = unit_float m /\ 11744051 <= Z.pos m <= 14260634.
Proof.
  intros Hv -> H0. rewrite fill_cases by done. destruct fill_ends as [El Eh].
  destruct (v =? 0); [by exists m0|]. destruct (Z.leb_spec (Z.quot v Millisecond) 100) as [K|K]; [exists 14260634%positive; split; [exact Eh|lia]|].
  destruct (Z.leb_spec 1000 (Z.quot v Millisecond)) as [K2|K2]; [exists 11744051%positive; split; [exact El|lia]|].
  destruct (andb_prop _ _ middle_descends) as [Hd Hl%Z.leb_le]. pose proof (descends_from _ _ _ Hd) as Hall. clear Hd.
  destruct (Hall (Z.quot v Millisecond)) as [A1 A2]; [lia|]. exists (Z.to_pos (mantissa (fill_at (Z.quot v Millisecond)))).
  assert (A3 : 11744051 <= mantissa (fill_at (Z.quot v Millisecond))) by (apply (Z.le_trans _ _ _ Hl), A2; lia). clear Hl.
  split; [apply mantissa_pos; lia|]. rewrite Z2Pos.id by lia. lia.
Qed.

(** *** A byte count times a fraction

    The product of two 24-bit mantissas has 48 bits here; the float32 product
    drops the lower half and rounds. *)
Lemma shr_1_half r : 0 <= shr_m r -> shr_m (shr_1 r) = shr_m r / 2.
Proof.
  destruct r as [m b1 b2]. cbn [shr_m]. intros Hm. unfold shr_1. destruct m as [|p|p]; [done| |lia].
  destruct p as [p|p|]; cbn [shr_m]; [..|done]; symmetry.
  - rewrite (Pos2Z.inj_xI p), Z.add_comm, Z.mul_comm, Z.div_add by lia. done.
  - rewrite (Pos2Z.inj_xO p), Z.mul_comm, Z.div_mul by lia. done.
Qed.
Lemma shr_iter p r : 0 <= shr_m r -> shr_m (SpecFloat.iter_pos shr_1 p r) = shr_m r / 2 ^ Z.pos p.
Proof.
  revert r. induction p as [p IH|p IH|]; intros r Hr; cbn [SpecFloat.iter_pos].
  - assert (H1 : 0 <= shr_m (shr_1 r)) by (rewrite shr_1_half by done; apply Z.div_pos; lia).
    rewrite IH by (rewrite IH by done; apply Z.div_pos; lia). rewrite IH, shr_1_half by done.
    rewrite !Z.div_div by lia. f_equal. replace (Z.pos p~1) with (1 + Z.pos p + Z.pos p) by lia. rewrite !Z.pow_add_r by lia. ring.
  - rewrite IH by (rewrite IH by done; apply Z.div_pos; lia). rewrite IH by done. rewrite !Z.div_div by lia. f_equal.
    replace (Z.pos p~0) with (Z.pos p + Z.pos p) by lia. rewrite !Z.pow_add_r by lia. ring.
  - by apply shr_1_half.
Qed.

Lemma mul_fill mT eT m :
  2 ^ 47 <= Z.pos mT * Z.pos m < 2 ^ 48 - 2 ^ 24 -> - 100 <= eT <= 100 ->
  exists q, float32_mul (S754_finite false mT eT) (unit_float m) = S754_finite false q eT /\
    Z.pos mT * Z.pos m / 2 ^ 24 <= Z.pos q <= Z.pos mT * Z.pos m / 2 ^ 24 + 1.
Proof.
  intros Hp He. unfold float32_mul, unit_float, SFmul, xorb, binary_round_aux, shr_fexp.
  assert (Hd : Zdigits2 (Z.pos (mT * m)) = 48).
  { cbn [Zdigits2]. change (2 ^ 47) with 140737488355328 in Hp. change (2 ^ 48 - 2 ^ 24) with 281474959933440 in Hp.
    apply Z.le_antisymm; [apply digits_le; [lia|change (2 ^ 48) with 281474976710656; lia]|].
    pose proof (digits_ge (mT * m) 47) as Hg. change (2 ^ 47) with 140737488355328 in Hg. lia. }
  rewrite Hd. replace (fexp 24 128 (48 + (eT + -24)) - (eT + -24)) with (Z.pos 24) by (unfold fexp, emin; lia). cbn [shr].
  set (r := SpecFloat.iter_pos shr_1 24 _). assert (Hr : shr_m r = Z.pos mT * Z.pos m / 2 ^ 24) by (unfold r; rewrite shr_iter by (cbn; lia); done).
  set (k := round_nearest_even (shr_m r) (loc_of_shr_record r)).
  assert (Hk : shr_m r <= k <= shr_m r + 1) by (unfold k, round_nearest_even; destruct (loc_of_shr_record r) as [|[]]; try lia; destruct (Z.even _); lia).
  assert (Hk2 : 2 ^ 23 <= k < 2 ^ 24).
  { rewrite Hr in Hk. change (2 ^ 23) with 8388608. change (2 ^ 24) with 16777216 in *. change (2 ^ 47) with 140737488355328 in Hp. change (2 ^ 48) with 281474976710656 in Hp.
    pose proof (Z.div_le_lower_bound (Z.pos mT * Z.pos m) 16777216 8388608 ltac:(lia) ltac:(lia)).
    pose proof (Z.div_lt_upper_bound (Z.pos mT * Z.pos m) 16777216 16777215 ltac:(lia) ltac:(lia)). lia. }
  destruct k as [|q|q]; [lia| |lia]. exists q. rewrite <- Hr. split; [|exact Hk].
  assert (Hq : Zdigits2 (Z.pos q) = 24).
  { cbn [Zdigits2]. apply Z.le_antisymm; [apply digits_le; lia|]. pose proof (digits_ge q 23 ltac:(lia)). lia. }
  rewrite Hq. replace (fexp 24 128 (24 + (eT + -24 + Z.pos 24)) - (eT + -24 + Z.pos 24)) with 0 by (unfold fexp, emin; lia).
  cbn [shr shr_record_of_loc shr_m]. rewrite (proj2 (Z.leb_le _ _)) by lia. f_equal. lia.
Qed.

(** The fill fraction of a contract falls with the round trip: for measured
    mean round trips (any nonzero int64 of nanoseconds), a longer one never gives
    a larger fraction, and every fraction lies between the float32 values of 0.7
    and 0.85; only a window without samples gives the configured fallback. The
    rounding of the float64 and float32 steps is included. *)
Theorem fill_fraction_antitone v v' fallback :
  - 9223372036854775808 <= v <= MaxInt64 -> - 9223372036854775808 <= v' <= MaxInt64 -> v <> 0 -> v' <> 0 -> v <= v' ->
  fle (computeFillFraction v' fallback) (computeFillFraction v fallback) /\
  fle fill_low (computeFillFraction v' fallback) /\ fle (computeFillFraction v fallback) fill_high.
Proof.
  intros Hv Hv' Hz Hz' Hle. rewrite !fill_cases, !(proj2 (Z.eqb_neq _ 0)) by done.
  assert (Hn : Z.quot v Millisecond <= Z.quot v' Millisecond) by (unfold Millisecond; Z.to_euclidean_division_equations; lia).
  set (n := Z.quot v Millisecond) in *. set (n' := Z.quot v' Millisecond) in *.
  clearbody n n'. clear -Hn. destruct fill_ends as [El Eh].
  assert (E1 : fle fill_low fill_high) by (rewrite El, Eh; apply fle_unit; lia).
  assert (E2 : fle fill_low fill_low) by (rewrite El; apply fle_unit; lia).
  assert (E3 : fle fill_high fill_high) by (rewrite Eh; apply fle_unit; lia). clear El Eh.
  assert (Hcase : n <= 100 \/ 100 < n < 1000 \/ 1000 <= n) by (clear -Hn; lia). destruct Hcase as [K|[K|K]].
  - rewrite (proj2 (Z.leb_le n 100) K). destruct (Z.leb_spec n' 100) as [K'|K']; [tauto|]. destruct (Z.leb_spec 1000 n') as [K2|K2]; [tauto|].
    destruct (middle_range n' (conj K' K2)) as (B1 & B2 & B3). tauto.
  - rewrite (proj2 (Z.leb_gt n 100)), (proj2 (Z.leb_gt 1000 n)) by apply K.
    assert (K' : 100 < n') by (clear -Hn K; lia). rewrite (proj2 (Z.leb_gt n' 100) K').
    destruct (middle_range n K) as (A1 & A2 & A3). destruct (Z.leb_spec 1000 n') as [K2|K2]; [tauto|].
    destruct (middle_range n' (conj K' K2)) as (B1 & B2 & B3). split; [exact (A3 n' (conj Hn K2))|tauto].
  - assert (K' : 100 < n /\ 100 < n' /\ 1000 <= n') by (clear -Hn K; lia). destruct K' as (K1 & K2 & K3).
    rewrite (proj2 (Z.leb_gt n 100) K1), (proj2 (Z.leb_gt n' 100) K2), (proj2 (Z.leb_le 1000 n) K), (proj2 (Z.leb_le 1000 n') K3). tauto.
Qed.

Lemma fill_fraction_antitone_witness :
  fle (computeFillFraction 700000000 (float32_of_Z 1)) (computeFillFraction 200000000 (float32_of_Z 1)).
Proof. refine (proj1 (fill_fraction_antitone 200000000 700000000 (float32_of_Z 1) _ _ _ _ _)); unfold MaxInt64; lia. Defined.
