(* ===== verification/SendOrder.v ===== *)
(** What the send sequence of SendSequence.v promises: it never panics, numbers
    its items one after the other, keeps in its resend queue exactly the items
    that wait for an answer, fires every callback and gives every buffer back
    once, keeps the contracts' books, and never writes plaintext where
    encryption is required. *)
From stdpp Require Import sorting.
From Stdlib Require Import SpecFloat.
From S2P Require Import Prelude GoIo NetId TransferPath FrameCodec AckWindow GoHeap MemoryBudget TransferQueue RttWindow SequenceContract FlightController SendSequence.

(** ** The order of the resend queue *)

Lemma resend_cmp_flip a b : resend_cmp a b < 0 <-> 0 < resend_cmp b a.
Proof. unfold resend_cmp. destruct (Z.ltb_spec (si_resend a) (si_resend b)), (Z.ltb_spec (si_resend b) (si_resend a)); lia. Qed.
Lemma resend_cmp_trans a b c : resend_cmp a b <= 0 -> resend_cmp b c <= 0 -> resend_cmp a c <= 0.
Proof.
  unfold resend_cmp. destruct (Z.ltb_spec (si_resend a) (si_resend b)), (Z.ltb_spec (si_resend b) (si_resend a)),
    (Z.ltb_spec (si_resend b) (si_resend c)), (Z.ltb_spec (si_resend c) (si_resend b)),
    (Z.ltb_spec (si_resend a) (si_resend c)), (Z.ltb_spec (si_resend c) (si_resend a)); lia.
Qed.
Lemma resend_cmp_le a b : resend_cmp a b <= 0 <-> si_resend a <= si_resend b.
Proof. unfold resend_cmp. destruct (Z.ltb_spec (si_resend a) (si_resend b)), (Z.ltb_spec (si_resend b) (si_resend a)); lia. Qed.

(** ** What the environment is relied on for *)

(** At most one frame, of at most [max] bytes. *)
Definition small_frames (max : Z) (fs : list Frame) : Prop :=
  (length fs <= 1)%nat /\ Forall (fun f => Z.of_nat (length (bval (MessageBytes f))) <= max) fs.

(** A frame as [make_item] encodes it. *)
Definition fresh_frame {PG : MessagePool} {E : SendEnv} (max : Z) (b : bytes) : Prop :=
  exists k n h a fs cf tag cid, small_frames max fs /\ (cf = None \/ exists c, cf = Some (contractFrameOf c)) /\
    (forall id, cid = Some id -> isId id) /\
    let m := pack_frame (itemId k) n h a fs cf tag cid in
    b = if 2 <=? ProtocolVersion settings then marshalSendPackTransferFrame m else legacyMarshal m.

(** No id is handed out twice among the first [maxItems]; no payload is above [maxPayload] bytes and no wire
    frame, new or made the head, is empty or above [maxFrame]; a frame that was
    encoded decodes, if it does, to one with a pack or a legacy frame in it; the flight counters of [maxItems] such
    frames and the retained bytes fit 64 bits; the timeouts are positive; whether
    a destination needs contracts does not change; a contract is smaller than
    2^62 bytes and the standard contract takes a full payload. *)
Class EnvOk {PG : MessagePool} {E : SendEnv} := {
  maxPayload : Z;
  maxFrame : Z;
  maxItems : nat;
  env_ids n m : (n < maxItems)%nat -> (m < maxItems)%nat -> itemId n = itemId m -> n = m;
  env_min : 0 < MinMessageByteCount settings < 2 ^ 62;
  env_payload : 0 <= maxPayload < 2 ^ 62;
  env_items : Z.of_nat maxItems < 2 ^ 63;
  env_stored b st : unmarshalStored b = Some st -> bytes_ok (st_ContractId st);
  env_wire b : fresh_frame maxPayload b -> 0 < Z.of_nat (length b) <= maxFrame;
  env_fresh b tf : fresh_frame maxPayload b -> protoUnmarshalTransferFrame b = Some tf -> head_pack tf <> Panic;
  env_head b tf pk tag cf b' :
    fresh_frame maxPayload b -> protoUnmarshalTransferFrame b = Some tf -> head_pack tf = Ret (Some pk) ->
    (cf = None \/ exists c, cf = Some (contractFrameOf c)) ->
    head_bytes tf (head_fields pk tag cf) = Some b' -> 0 < Z.of_nat (length b') <= maxFrame;
  env_flight : let cfg := config (newSendFlightController (Some (FlightSettings settings))) in
    slowStartDivisor cfg + (increaseByteCount cfg + 1) * (2 * maxFrame * Z.of_nat maxItems) + 2 * maximumByteCount cfg <= MaxInt64 /\
    slowStartDivisor cfg + increaseMessageCount cfg + 1 + 2 * maximumMessageCount cfg <= MaxInt64;
  env_retain : 0 <= retainCap (ResendQueueMaxByteCount settings) <= MaxInt64 - maxFrame;
  env_times : 0 < AckTimeout settings /\ 0 < MaxResendInterval settings;
  env_needs : (forall n, SendNoContract n = true) \/ (forall n, SendNoContract n = false);
  env_contract ct v lid c :
    - 9223372036854775808 <= v <= MaxInt64 ->
    newSequenceContract unmarshalStored ct (MinMessageByteCount settings) (computeFillFraction v (ContractFillFraction settings)) lid = inl c ->
    effectiveTransferByteCount c < 2 ^ 62;
  env_standard n v :
    - 9223372036854775808 <= v <= MaxInt64 ->
    maxPayload + MinMessageByteCount settings <=
    int64_of_float32 (float32_mul (float32_of_Z (StandardContractTransferByteCount n)) (computeFillFraction v (ContractFillFraction settings)));
}.

(** A pack whose byte count is that of its frame. *)
Definition pack_ok {PG : MessagePool} {E : SendEnv} {EO : EnvOk} (p : SendPack) : Prop :=
  sk_MessageByteCount p = Z.of_nat (length (bval (MessageBytes (sk_Frame p)))) /\ sk_MessageByteCount p <= maxPayload.

(** ** What is owed

    A token is a callback to fire or a buffer to give back: taking a pack and
    making a wire frame gain tokens, firing and returning settle them. *)
Inductive token := TokCb (n : nat) | TokBuf (b : buffer).

Definition cb_tokens (cb : option AckFunction) : list token :=
  match cb with Some (CbUser n) => [TokCb n] | _ => [] end.
Definition pack_tokens (p : SendPack) : list token :=
  cb_tokens (option_map CbUser (sk_AckCallback p)) ++ [TokBuf (BufPack (sk_buffer p))].
Definition gains (e : event) : list token :=
  match e with EvTake p => pack_tokens p | EvAlloc b => [TokBuf b] | _ => [] end.
Definition settles (e : event) : list token :=
  match e with EvCallback n _ => [TokCb n] | EvReturn b => [TokBuf b] | _ => [] end.
Definition owns (i : sendItem) : list token := cb_tokens (ik_ackCallback (si_key i)) ++ [TokBuf (si_buffer i)].

(** The numbered items, in the order of their first writes. *)
Definition numbered (e : event) : list Z := match e with EvSend i true => [si_seq i] | _ => [] end.

(** Events that move nothing. *)
Definition quiet (e : event) : bool :=
  match e with EvTake _ | EvAlloc _ | EvCallback _ _ | EvReturn _ | EvSend _ true => false | _ => true end.

(** The callbacks fired, with their outcomes. *)
Definition call_of (e : event) : list (nat * bool) := match e with EvCallback n ok => [(n, ok)] | _ => [] end.

Lemma quiet_events e : quiet e = true -> gains e = [] /\ settles e = [] /\ numbered e = [] /\ call_of e = [].
Proof. by destruct e as [| |? []| | | | | | | | | | | | | | | | |]. Qed.

(** The payloads charged to contract [id]: those of the items, and debits that
    belong to no item. *)
Definition charges (A : list sendItem) (extra : list (bytes * Z)) (id : bytes) : list Z :=
  flat_map (fun i => if bool_decide (si_contract i = Some id) then [si_bytes i] else []) A ++
  flat_map (fun '(j, n) => if bool_decide (j = id) then [n] else []) extra.

(** The share of the retained-byte budget an item holds, and the flight bytes it
    would release. *)
Definition retained_of (i : sendItem) : Z :=
  if si_retained i && negb (retainedReleased (si_retention i)) then retainedCharge (si_retention i) else 0.
Definition flight_of (i : sendItem) : Z := if si_tracked i then item_MessageByteCount i else 0.
Definition not_head (i : sendItem) : Z := if head (si_wire i) then 0 else 1.

#[export] Instance flat_map_perm {A B} (f : A -> list B) : Proper ((≡ₚ) ==> (≡ₚ)) (flat_map f).
Proof.
  intros l1 l2 Hp. induction Hp as [|x l1 l2 _ IH|x y l|l1 l2 l3 _ IH1 _ IH2]; cbn; [done|by rewrite IH| |by rewrite IH1].
  by rewrite !app_assoc, (Permutation_app_comm (f y)).
Qed.

Lemma charges_perm A A' X X' id : A ≡ₚ A' -> X ≡ₚ X' -> charges A X id ≡ₚ charges A' X' id.
Proof. intros H1 H2. unfold charges. by rewrite H1, H2. Qed.

(** ** The invariant *)

Section order.
Context {B H : Type} {MP : MemoryPool B H} {ML : MemoryPoolLaws B H} {PG : MessagePool} {E : SendEnv} {EO : EnvOk}.
Abbreviation SS := (@SendSequence B H).
Implicit Types (s : SS) (i : sendItem).

Definition queued s : list sendItem := items (orderedItems (resendQueue s)).

Definition key_ok s i : Prop :=
  (si_ptr i < ss_made s)%nat /\ 0 <= si_seq i < nextSequenceNumber s /\ exists k, (k < ss_made s)%nat /\ si_id i = itemId k.

(** The identities of the items waiting, oldest first. *)
Record keys_ok s (L : list sendItem) : Prop := {
  ky_ptr : NoDup (map si_ptr L);
  ky_id : NoDup (map si_id L);
  ky_seq : StronglySorted Z.lt (map si_seq L);
  ky_all : Forall (key_ok s) L;
}.

Definition wire_ok i : Prop :=
  0 < wire_len i <= maxFrame /\ (head (si_wire i) = false -> fresh_frame maxPayload (transferFrameBytes (si_wire i))).
Definition retention_ok i : Prop :=
  si_retained i = true -> 0 < retainedCharge (si_retention i) /\ retainedReleased (si_retention i) = false.

Record contracts_ok s (A : list sendItem) (X : list (bytes * Z)) : Prop := {
  co_open : forall id c, openSendContracts s !! id = Some c ->
    (contractId c = id /\ isId id) /\ minUpdateByteCount c = MinMessageByteCount settings /\
    account_ok (Account c (charges A X id) (ackedByteCount c));
  co_owed : forall i id, i ∈ A -> si_contract i = Some id -> is_Some (openSendContracts s !! id);
  co_extra : forall id n, (id, n) ∈ X -> is_Some (openSendContracts s !! id);
  co_current : forall id, sendContract s = Some id -> is_Some (openSendContracts s !! id);
  co_needless : (forall n, SendNoContract n = true) -> openSendContracts s = ∅;
}.

Definition rtt_ok (w : RttWindow) : Prop :=
  rtt_wf w /\ 0 < minScaledRtt w /\ 0 < rttMinScaledRtt w /\ 0 < maxScaledRtt w < 2 ^ 46.

Record flight_inv (c : sendFlightController) (made : nat) (A : list sendItem) : Prop := {
  fi_ok : flight_ok c;
  fi_config : config c = config (newSendFlightController (Some (FlightSettings settings)));
  fi_bytes : 0 <= byteCount (counts c) <=
    sumZ (map flight_of A) + maxFrame * (Z.of_nat made - sumZ (map not_head A));
  fi_items : (length A <= made)%nat;
}.

(** [L]: the items of the resend queue in their order; [M]: items in hand, out of
    the queue; [X]: debits without an item; [T]: tokens held by no item. *)
Record inv s (L M : list sendItem) (X : list (bytes * Z)) (T : list token) : Prop := {
  v_wf : queue_wf si_transfer resend_cmp (resendQueue s) /\ backed (resendQueue s) (ss_pool s);
  v_same : queued s ≡ₚ L;
  v_keys : keys_ok s L;
  v_wires : Forall wire_ok (L ++ M);
  v_retention : Forall retention_ok L;
  v_next : 0 <= nextSequenceNumber s <= Z.of_nat (ss_made s);
  v_made : (ss_made s <= maxItems)%nat;
  v_tokens : flat_map gains (ss_log s) ≡ₚ flat_map settles (ss_log s) ++ flat_map owns (L ++ M) ++ T;
  v_numbers : flat_map numbered (ss_log s) = seqZ 0 (nextSequenceNumber s);
  v_contracts : contracts_ok s (L ++ M) X;
  v_retained : retainedByteCount s = sumZ (map retained_of (L ++ M)) /\ Forall (fun i => 0 <= retained_of i) (L ++ M) /\
    retainedByteCount s <= retainCap (ResendQueueMaxByteCount settings);
  v_rtt : rtt_ok (ss_rtt s);
  v_flight : flight_inv (ss_flight s) (ss_made s) (L ++ M);
}.

(** ** Quiet steps *)

Definition core s :=
  (nextSequenceNumber s, sendItems s, resendQueue s, ss_pool s, openSendContracts s, sendContract s, sendContractAcked s,
   retainedByteCount s, ss_made s, ss_buffers s).

(** [s'] differs from [s] in its estimators, its readings and quiet events. *)
Record quietly s s' : Prop := {
  qu_core : core s' = core s;
  qu_reads : (reads s <= reads s')%nat;
  qu_log : exists l, ss_log s' = ss_log s ++ l /\ Forall (fun e => quiet e = true) l;
}.

#[export] Instance quietly_preorder : PreOrder quietly.
Proof.
  split.
  - intros s. split; [done|done|]. exists []. by rewrite app_nil_r.
  - intros s1 s2 s3 [C1 R1 (l1 & E1 & F1)] [C2 R2 (l2 & E2 & F2)]. split; [congruence|lia|].
    exists (l1 ++ l2). rewrite E2, E1, app_assoc. split; [done|]. by apply Forall_app.
Qed.

Lemma quietly_event s e : quiet e = true -> quietly s (emit s e).
Proof. intros He. split; [done|done|]. exists [e]. split; [done|]. by constructor. Qed.
Lemma quietly_aux s a : (reads s <= ss_reads a)%nat -> quietly s (set_aux s a).
Proof. intros Hr. split; [done|done|]. exists []. by rewrite app_nil_r. Qed.
Lemma quietly_tick s : quietly s (tick s).
Proof. apply quietly_aux. cbn. unfold reads. lia. Qed.

Lemma quiet_flat s s' {A} (f : event -> list A) :
  quietly s s' -> (forall e, quiet e = true -> f e = []) -> flat_map f (ss_log s') = flat_map f (ss_log s).
Proof.
  intros [_ _ (l & -> & Hl)] Hf. rewrite flat_map_app. replace (flat_map f l) with (@nil A); [by rewrite app_nil_r|].
  induction Hl as [|e l He Hl IH]; [done|]. cbn. by rewrite (Hf e He), <- IH.
Qed.

Lemma quiet_gains s s' : quietly s s' -> flat_map gains (ss_log s') = flat_map gains (ss_log s).
Proof. intros Hq. apply (quiet_flat s s' gains Hq). intros e He. apply (quiet_events e He). Qed.
Lemma quiet_settles s s' : quietly s s' -> flat_map settles (ss_log s') = flat_map settles (ss_log s).
Proof. intros Hq. apply (quiet_flat s s' settles Hq). intros e He. apply (quiet_events e He). Qed.
Lemma quiet_numbered s s' : quietly s s' -> flat_map numbered (ss_log s') = flat_map numbered (ss_log s).
Proof. intros Hq. apply (quiet_flat s s' numbered Hq). intros e He. apply (quiet_events e He). Qed.

Definition calls s : list (nat * bool) := flat_map call_of (ss_log s).
Lemma quiet_calls s s' : quietly s s' -> calls s' = calls s.
Proof. intros Hq. apply (quiet_flat s s' call_of Hq). intros e He. apply (quiet_events e He). Qed.

Lemma keys_mono s s' L :
  nextSequenceNumber s <= nextSequenceNumber s' -> (ss_made s <= ss_made s')%nat -> (reads s <= reads s')%nat ->
  keys_ok s L -> keys_ok s' L.
Proof.
  intros Hn Hm Hr [H1 H2 H3 H4]. split; try done. revert H4. apply List.Forall_impl.
  intros i (Hp & Hs & k & Hk & Hi). split; [lia|]. split; [lia|]. exists k. split; [lia|done].
Qed.

Lemma keys_same s L L' : map si_key L' = map si_key L -> keys_ok s L -> keys_ok s L'.
Proof.
  intros Ek [H1 H2 H3 H4].
  assert (Em : forall {C} (f : itemKey -> C), map (fun i => f (si_key i)) L' = map (fun i => f (si_key i)) L).
  { intros C f. by rewrite <- !(map_map si_key f), Ek. }
  split.
  - unfold si_ptr in *. by rewrite (Em _ ik_ptr).
  - unfold si_id in *. by rewrite (Em _ ik_messageId).
  - unfold si_seq in *. by rewrite (Em _ ik_sequenceNumber).
  - set (Q := fun k => (ik_ptr k < ss_made s)%nat /\ 0 <= ik_sequenceNumber k < nextSequenceNumber s /\
                 exists n, (n < ss_made s)%nat /\ ik_messageId k = itemId n).
    assert (Hq : Forall Q (map si_key L)) by exact (proj2 (List.Forall_map si_key Q L) H4). rewrite <- Ek in Hq.
    exact (proj1 (List.Forall_map si_key Q L') Hq).
Qed.

Lemma contracts_same s s' A A' X :
  openSendContracts s' = openSendContracts s -> sendContract s' = sendContract s -> map si_key A' = map si_key A ->
  contracts_ok s A X -> contracts_ok s' A' X.
Proof.
  intros Eo Ec Ek [H1 H2 H3 H4 H5].
  assert (Hch : forall id, charges A' X id = charges A X id).
  { intros id. unfold charges. f_equal. clear -Ek. revert A Ek. induction A' as [|i A' IH]; intros [|j A] Ek; try done.
    cbn in Ek |- *. injection Ek as Ei Ek. rewrite (IH A Ek). unfold si_contract, si_bytes. by rewrite Ei. }
  split; rewrite ?Eo, ?Ec; try done.
  - intros id c Hc. rewrite Hch. by apply H1.
  - intros i id Hi Hid. assert (Hk : si_key i ∈ map si_key A) by (rewrite <- Ek; by apply list_elem_of_fmap_2).
    apply list_elem_of_fmap in Hk as (j & Ej & Hj). apply (H2 j id Hj). unfold si_contract in *. congruence.
Qed.

Lemma contracts_perm s A A' X X' : A ≡ₚ A' -> X ≡ₚ X' -> contracts_ok s A X -> contracts_ok s A' X'.
Proof.
  intros HA HX [H1 H2 H3 H4 H5]. split; try done.
  - intros id c Hc. destruct (H1 id c Hc) as (K1 & K2 & [K3 K4 K5 [K6 K7] K8]). split; [done|]. split; [done|].
    pose proof (charges_perm A A' X X' id HA HX) as Hp. split; cbn [ac_contract ac_open ac_acked] in *; try done.
    split; [by rewrite K6; apply sumZ_map_perm|by rewrite <- Hp].
  - intros i id Hi. apply H2. by rewrite HA.
  - intros id n Hi. apply (H3 id n). by rewrite HX.
Qed.

(** The general step on the item in hand: it changes nothing the queue, the
    contracts or the tokens see. *)
Lemma inv_item s s' L i i' M X T :
  inv s L (i :: M) X T -> quietly s s' -> rtt_ok (ss_rtt s') -> flight_inv (ss_flight s') (ss_made s) (L ++ i' :: M) ->
  si_key i' = si_key i -> si_wire i' = si_wire i -> retained_of i' = retained_of i ->
  inv s' L (i' :: M) X T.
Proof.
  intros [W S K Wi Rn N Md T1 Nm C [R1 [R2 R3]] Rt F] Hq Hr Hf Ek Ew Er. pose proof (qu_core _ _ Hq) as Hc. injection Hc as En Ei Eq Ep Eo Ec Ea Eb Em Ef.
  assert (Ekeys : map si_key (L ++ i' :: M) = map si_key (L ++ i :: M)) by (rewrite !map_app; cbn; by rewrite Ek).
  assert (Eown : flat_map owns (L ++ i' :: M) = flat_map owns (L ++ i :: M)).
  { rewrite !flat_map_app. cbn. unfold owns, si_buffer. by rewrite Ek, Ew. }
  assert (Eret : map retained_of (L ++ i' :: M) = map retained_of (L ++ i :: M)) by (rewrite !map_app; cbn; by rewrite Er).
  split; unfold queued; rewrite ?En, ?Ei, ?Eq, ?Ep, ?Eb, ?Em; try done.
  - apply (keys_mono s); [lia|lia|apply Hq|done].
  - apply Forall_app in Wi as [W1 W2]. apply Forall_app. split; [done|]. apply Forall_cons_1 in W2 as [W2 W3]. constructor; [|done].
    unfold wire_ok, wire_len in *. by rewrite Ew.
  - by rewrite (quiet_gains s s' Hq), (quiet_settles s s' Hq), Eown.
  - by rewrite (quiet_numbered s s' Hq).
  - by apply (contracts_same s s' _ _ _ Eo Ec Ekeys).
  - rewrite Eret. split; [done|]. split; [|done]. apply (List.Forall_map retained_of (fun z => 0 <= z)). rewrite Eret. by apply (List.Forall_map retained_of (fun z => 0 <= z)).
Qed.

Lemma inv_quietly s s' L M X T :
  inv s L M X T -> quietly s s' -> rtt_ok (ss_rtt s') -> flight_inv (ss_flight s') (ss_made s) (L ++ M) -> inv s' L M X T.
Proof.
  intros [W S K Wi Rn N Md T1 Nm C [R1 [R2 R3]] Rt F] Hq Hr Hf. pose proof (qu_core _ _ Hq) as Hc. injection Hc as En Ei Eq Ep Eo Ec Ea Eb Em Ef.
  split; unfold queued; rewrite ?En, ?Ei, ?Eq, ?Ep, ?Eb, ?Em; try done.
  - apply (keys_mono s); [lia|lia|apply Hq|done].
  - by rewrite (quiet_gains s s' Hq), (quiet_settles s s' Hq).
  - by rewrite (quiet_numbered s s' Hq).
  - by apply (contracts_same s s' (L ++ M) (L ++ M) _ Eo Ec).
Qed.

Lemma inv_emit s e L M X T : quiet e = true -> inv s L M X T -> inv (emit s e) L M X T.
Proof. intros He Hs. apply (inv_quietly s); [done|by apply quietly_event|apply Hs|apply Hs]. Qed.
Lemma inv_tick s L M X T : inv s L M X T -> inv (tick s) L M X T.
Proof. intros Hs. apply (inv_quietly s); [done|apply quietly_tick|apply Hs|apply Hs]. Qed.
Lemma inv_silence s t L M X T : inv s L M X T -> inv (set_silence s t) L M X T.
Proof. intros Hs. apply (inv_quietly s); [done|by apply quietly_aux|apply Hs|apply Hs]. Qed.
Lemma inv_index s L M X T : inv s L M X T -> inv (bump_index s) L M X T.
Proof. intros Hs. apply (inv_quietly s); [done|by apply quietly_aux|apply Hs|apply Hs]. Qed.

(** ** The estimators *)

Lemma scale_range w u : 0 < minScaledRtt w -> 0 < rttMinScaledRtt w -> 0 < maxScaledRtt w -> 0 < scale w u <= maxScaledRtt w.
Proof. intros H1 H2 H3. unfold scale. destruct (_ || _); lia. Qed.

Lemma coalesce_ok w t : rtt_ok w -> exists w', coalesce w t = Ret w' /\ rtt_ok w'.
Proof.
  intros (Hw & H1 & H2 & H3). destruct (coalesce_spec w t Hw) as (w' & Ew & Hw' & _). exists w'. split; [done|].
  pose proof (coalesce_conf _ _ _ Ew) as Ec. injection Ec as E1 E2 E3. unfold rtt_ok. by rewrite E1, E2, E3.
Qed.

Lemma inv_rtt s w L M X T : rtt_ok w -> inv s L M X T -> inv (tick (set_rtt s w)) L M X T.
Proof.
  intros Hw Hs. apply (inv_quietly s); [done| |done|apply Hs]. etransitivity; [apply (quietly_aux s)|apply quietly_tick]. done.
Qed.

(** What an operation on the estimators leaves alone. *)
Lemma ScaledRtt_ok s L M X T :
  inv s L M X T -> exists s' v, ScaledRtt s = Ret (s', v) /\ inv s' L M X T /\ quietly s s' /\ 0 < v < 2 ^ 46.
Proof.
  intros Hs. unfold ScaledRtt, scaledRtt. destruct (coalesce_ok (ss_rtt s) (clock (reads s)) (v_rtt _ _ _ _ _ Hs)) as (w & -> & Hw).
  cbn [gbind]. eexists _, _. split; [done|]. split; [by apply inv_rtt|]. split.
  - etransitivity; [apply (quietly_aux s)|apply quietly_tick]. done.
  - destruct Hw as (_ & H1 & H2 & H3). pose proof (scale_range w (rttHeap_MeanRtt (rtts w)) H1 H2 (proj1 H3)). lia.
Qed.

Lemma contractFillFraction_ok s L M X T :
  inv s L M X T -> exists s' v, contractFillFraction s = Ret (s', computeFillFraction v (ContractFillFraction settings)) /\
    - 9223372036854775808 <= v <= MaxInt64 /\ inv s' L M X T /\ quietly s s'.
Proof.
  intros Hs. unfold contractFillFraction, MeanRtt.
  destruct (coalesce_ok (ss_rtt s) (clock (reads s)) (v_rtt _ _ _ _ _ Hs)) as (w & -> & Hw).
  cbn [gbind]. eexists _, _. split; [done|]. split; [|split; [by apply inv_rtt|]].
  - unfold rttHeap_MeanRtt. destruct (_ =? _)%nat; [unfold MaxInt64; lia|apply i64_range].
  - etransitivity; [apply (quietly_aux s)|apply quietly_tick]. done.
Qed.

Lemma observeAckRtt_ok s i tag L M X T :
  inv s L M X T -> exists s', observeAckRtt s i tag = Ret s' /\ inv s' L M X T /\ quietly s s'.
Proof.
  intros Hs. unfold observeAckRtt. destruct (unreliableCarrierObserved _); [by exists s|]. destruct tag as [t|]; [|by exists s].
  destruct (v_rtt _ _ _ _ _ Hs) as (Hw & H1 & H2 & H3).
  destruct (closeSendTime_spec (ss_rtt s) (SendTime t) (clock (reads s)) Hw) as (w & Ew & Hw'). rewrite Ew. cbn [gbind].
  eexists. split; [done|]. split; [|etransitivity; [apply (quietly_aux s)|apply quietly_tick]; done].
  apply inv_rtt; [|done]. pose proof (closeSendTime_conf _ _ _ _ Ew) as Ec. injection Ec as E1 E2 E3. unfold rtt_ok. by rewrite E1, E2, E3.
Qed.

(** ** The flight *)

Lemma wire_bytes i : wire_ok i -> item_MessageByteCount i = wire_len i /\ 0 < wire_len i <= maxFrame.
Proof. intros [[H1 H2] _]. unfold item_MessageByteCount. rewrite (proj2 (Z.ltb_lt 0 (wire_len i))) by lia. done. Qed.

Lemma flight_of_range i : wire_ok i -> 0 <= flight_of i <= maxFrame.
Proof. intros Hi. destruct (wire_bytes i Hi) as [E1 H1]. unfold flight_of. destruct (si_tracked i); lia. Qed.

Lemma sum_bound {A} (f : A -> Z) b l : Forall (fun x => 0 <= f x <= b) l -> 0 <= sumZ (map f l) <= b * Z.of_nat (length l).
Proof. induction 1 as [|x l Hx _ IH]; cbn [map length]; rewrite ?sumZ_cons; [cbn; lia|]. lia. Qed.

Lemma maxFrame_pos : 0 < maxFrame.
Proof.
  pose proof env_payload as [Hp _]. edestruct env_wire as [Hw1 Hw2]; [|lia].
  exists 0%nat, 0, false, false, [], None, 0, None. split; [exact (conj (le_0_n 1) (Forall_nil_2 _))|]. split; [by left|]. split; [done|reflexivity].
Qed.

Lemma flight_room c made A :
  flight_inv c made A -> Forall wire_ok A -> (made <= maxItems)%nat -> no_overflow c.
Proof.
  intros [H1 H2 H3 H4] HA Hm. destruct env_flight as [E1 E2]. unfold no_overflow. rewrite H2. split; [lia|]. split; [|lia].
  assert (Hf : 0 <= sumZ (map flight_of A) <= maxFrame * Z.of_nat (length A)).
  { apply sum_bound. revert HA. apply List.Forall_impl. apply flight_of_range. }
  assert (Hn : 0 <= sumZ (map not_head A) <= 1 * Z.of_nat (length A)).
  { apply sum_bound. apply Forall_true. intros i. unfold not_head. destruct (head _); lia. }
  pose proof maxFrame_pos as HF.
  assert (Hi : 0 <= increaseByteCount (config c) + 1 \/ initialByteCount (config c) = 0).
  { destruct (proj1 H1) as [K|(_ & _ & K & _)]; [by right|left; lia]. }
  assert (Hb : byteCount (counts c) <= 2 * maxFrame * Z.of_nat maxItems) by nia.
  rewrite H2 in Hi. assert (0 <= increaseByteCount (config (newSendFlightController (Some (FlightSettings settings)))) + 1).
  { clear -Hi. unfold newSendFlightController in *. destruct (_ <=? 0) eqn:E0; [cbn; lia|].
    destruct (0 <? UnreliableInitialFlightMessageCount _); cbn in *; destruct (Z.leb_spec (UnreliableFlightIncreaseByteCount (FlightSettings settings)) 0); lia. }
  nia.
Qed.

Lemma inv_flight s c L M X T :
  flight_inv c (ss_made s) (L ++ M) -> inv s L M X T -> inv (set_flight s c) L M X T.
Proof. intros Hc Hs. apply (inv_quietly s); [done|by apply quietly_aux|apply Hs|done]. Qed.

Lemma sum_middle {A} (f : A -> Z) L x M : sumZ (map f (L ++ x :: M)) = sumZ (map f (L ++ M)) + f x.
Proof. rewrite !map_app, !sumZ_app. cbn [map]. rewrite sumZ_cons. lia. Qed.

Lemma flight_set c c' made L i i' M :
  flight_inv c made (L ++ i :: M) -> flight_ok c' -> config c' = config c ->
  0 <= byteCount (counts c') -> byteCount (counts c') - flight_of i' <= Z.max (byteCount (counts c) - flight_of i) 0 ->
  not_head i' = not_head i -> Forall (fun x => 0 <= flight_of x) (L ++ M) ->
  flight_inv c' made (L ++ i' :: M).
Proof.
  intros [H1 H2 H3 H4] Ho Ec H0 Hb Hn Hf. split; [done|congruence| |by rewrite length_app in *].
  rewrite !sum_middle in *. rewrite Hn. pose proof maxFrame_pos.
  assert (0 <= sumZ (map flight_of (L ++ M))) by (apply sumZ_map_nonneg; intros x Hx; by apply (proj1 (list.Forall_forall _ _) Hf)).
  assert (Hnn : sumZ (map not_head (L ++ M)) + not_head i <= Z.of_nat made).
  { rewrite <- sum_middle. etransitivity; [|apply Nat2Z.inj_le, H4].
    pose proof (sum_bound not_head 1 (L ++ i :: M)) as K. rewrite Z.mul_1_l in K. apply K.
    apply Forall_true. intros x. unfold not_head. destruct (head _); lia. }
  split; [done|]. nia.
Qed.

Lemma flight_nonneg s L M X T : inv s L M X T -> Forall (fun x => 0 <= flight_of x) (L ++ M).
Proof. intros Hs. pose proof (v_wires _ _ _ _ _ Hs) as Hw. revert Hw. apply List.Forall_impl. intros i Hi. apply flight_of_range in Hi. lia. Qed.

Lemma app_middle_Forall {A} (P : A -> Prop) L x M : Forall P (L ++ x :: M) -> P x /\ Forall P (L ++ M).
Proof. rewrite !Forall_app, Forall_cons_iff. tauto. Qed.

Lemma tracked_wire i a b : wire_len (set_tracked i a b) = wire_len i /\ si_tracked (set_tracked i a b) = a /\
  item_MessageByteCount (set_tracked i a b) = item_MessageByteCount i.
Proof. done. Qed.

Lemma releaseUnreliableFlight_ok s i L M X T :
  inv s L (i :: M) X T ->
  exists s' c, releaseUnreliableFlight s i = Ret (s', set_carrier i c) /\ inv s' L (set_carrier i c :: M) X T /\ quietly s s' /\
    unreliableFlightTracked c = false.
Proof.
  intros Hs. unfold releaseUnreliableFlight. destruct (si_tracked i) eqn:Et; cbn [negb].
  2:{ exists s, (si_carrier i). destruct i; by split_and!. }
  pose proof (v_flight _ _ _ _ _ Hs) as Hf. pose proof (v_wires _ _ _ _ _ Hs) as Hw.
  destruct (acknowledge_ok (ss_flight s) (item_MessageByteCount i) no_key (unreliableFlowReserve (si_carrier i)) (fi_ok _ _ _ Hf))
    as (c & Ea & Hc & Ecfg & _); [by apply (flight_room _ _ _ Hf Hw), Hs|]. rewrite Ea. cbn [gbind].
  eexists _, _. split; [done|]. split; [|split; [by apply quietly_aux|done]].
  apply (inv_item s _ _ i); [done|by apply quietly_aux|apply Hs| |done|done|done]. cbn.
  apply app_middle_Forall in Hw as [Hi Hw]. destruct (wire_bytes i Hi) as [Ei Hl]. pose proof (fi_bytes _ _ _ Hf) as Hb.
  pose proof (acknowledge_counts _ _ _ _ _ Ea) as Ek. rewrite (proj2 (Z.leb_gt _ _)) in Ek by lia. unfold leave in Ek.
  pose proof (flight_room _ _ _ Hf (v_wires _ _ _ _ _ Hs) (v_made _ _ _ _ _ Hs)) as (Hn0 & Hn1 & _).
  assert (Hmx : byteCount (counts (ss_flight s)) <= MaxInt64).
  { clear -Hf Hn0 Hn1. pose proof (proj1 (fi_ok _ _ _ Hf)) as Hc. unfold MaxInt64 in *. destruct Hc as [Hc|(K1 & K2 & K3 & K4 & _)]; [|nia].
    rewrite (fi_config _ _ _ Hf) in *. revert Hn1. clear Hf. revert Hc. unfold newSendFlightController.
    destruct (_ <=? 0) eqn:E0; [cbn; lia|].
    apply Z.leb_gt in E0. destruct (0 <? UnreliableInitialFlightMessageCount _); cbn;
      destruct (Z.leb_spec (UnreliableMinimumFlightByteCount (FlightSettings settings)) 0),
        (Z.leb_spec (UnreliableFlightIncreaseByteCount (FlightSettings settings)) 0),
        (Z.leb_spec (UnreliableSlowStartGrowthDivisor (FlightSettings settings)) 0);
      repeat match goal with |- context [?a <? ?b] => destruct (Z.ltb_spec a b) end; intros; nia. }
  apply (flight_set (ss_flight s) c _ _ i); try done.
  - rewrite Ek. cbn. rewrite i64_small by (unfold MaxInt64 in *; lia). lia.
  - rewrite Ek. cbn. unfold flight_of at 1. cbn. unfold flight_of. rewrite Et, Ei. rewrite i64_small by (unfold MaxInt64 in *; lia). lia.
  - exact (proj2 (app_middle_Forall _ _ _ _ (flight_nonneg _ _ _ _ _ Hs))).
Qed.

(** The flight counters of [maxItems] frames fit 64 bits, with a frame to spare. *)
Lemma flight_small s L M X T : inv s L M X T -> 0 <= byteCount (counts (ss_flight s)) <= 2 * maxFrame * Z.of_nat (ss_made s).
Proof.
  intros Hs. pose proof (v_flight _ _ _ _ _ Hs) as [_ _ Hb Hl]. pose proof (v_wires _ _ _ _ _ Hs) as Hw.
  assert (Hf : 0 <= sumZ (map flight_of (L ++ M)) <= maxFrame * Z.of_nat (length (L ++ M))).
  { apply sum_bound. revert Hw. apply List.Forall_impl. apply flight_of_range. }
  assert (Hn : 0 <= sumZ (map not_head (L ++ M)) <= 1 * Z.of_nat (length (L ++ M))).
  { apply sum_bound. apply Forall_true. intros i. unfold not_head. destruct (head _); lia. }
  pose proof maxFrame_pos. nia.
Qed.

(** An upper bound for the bytes of [n] items: positive settings leave room. *)
Lemma env_room : 2 * maxFrame * Z.of_nat maxItems <= MaxInt64.
Proof.
  destruct env_flight as [E1 _]. pose proof maxFrame_pos. revert E1. unfold newSendFlightController.
  destruct (_ <=? 0) eqn:E0; [cbn; lia|].
  apply Z.leb_gt in E0. destruct (0 <? UnreliableInitialFlightMessageCount _); cbn;
    destruct (Z.leb_spec (UnreliableMinimumFlightByteCount (FlightSettings settings)) 0),
      (Z.leb_spec (UnreliableFlightIncreaseByteCount (FlightSettings settings)) 0),
      (Z.leb_spec (UnreliableSlowStartGrowthDivisor (FlightSettings settings)) 0);
    repeat match goal with |- context [?a <? ?b] => destruct (Z.ltb_spec a b) end; nia.
Qed.

Lemma carrier_flight i (c : itemCarrier) : unreliableFlightTracked c = si_tracked i -> flight_of (set_carrier i c) = flight_of i.
Proof. intros Ec. unfold flight_of, si_tracked. cbn. by rewrite Ec. Qed.

Lemma flight_same c made L i i' M :
  flight_of i' = flight_of i -> not_head i' = not_head i -> flight_inv c made (L ++ i :: M) -> flight_inv c made (L ++ i' :: M).
Proof.
  intros Ef En [H1 H2 H3 H4]. split; try done; [|by rewrite length_app in *]. rewrite !sum_middle in *. by rewrite Ef, En.
Qed.

(** New carrier facts, the flight's apart. *)
Lemma inv_carrier s L i c M X T :
  unreliableFlightTracked c = si_tracked i -> inv s L (i :: M) X T -> inv s L (set_carrier i c :: M) X T.
Proof.
  intros Ec Hs. apply (inv_item s _ _ i); [done|done|apply Hs| |done|done|done].
  apply (flight_same _ _ _ i); [by apply carrier_flight|done|apply Hs].
Qed.

Lemma trackUnreliableFlight_ok s i L M X T :
  inv s L (i :: M) X T ->
  exists s' c, trackUnreliableFlight s i = (s', set_carrier i c) /\ inv s' L (set_carrier i c :: M) X T /\ quietly s s'.
Proof.
  intros Hs. unfold trackUnreliableFlight. destruct (si_tracked i) eqn:Et.
  { exists s, (si_carrier i). destruct i; by split_and!. }
  pose proof (v_flight _ _ _ _ _ Hs) as Hf. pose proof (v_wires _ _ _ _ _ Hs) as Hw.
  apply app_middle_Forall in Hw as [Hi Hw]. destruct (wire_bytes i Hi) as [Ei Hl].
  unfold sendForKey. rewrite (proj2 (Z.ltb_lt 0 (item_MessageByteCount i))) by lia. cbn [fst snd].
  eexists _, _. split; [done|]. split; [|by apply quietly_aux].
  apply (inv_item s _ _ i); [done|by apply quietly_aux|apply Hs| |done|done|done]. cbn.
  pose proof (flight_small _ _ _ _ _ Hs) as Hb. pose proof env_room as He. pose proof (v_made _ _ _ _ _ Hs) as Hm.
  pose proof (fi_bytes _ _ _ Hf) as Hb2. rewrite sum_middle in Hb2.
  assert (Hsm : byteCount (counts (ss_flight s)) + wire_len i <= MaxInt64).
  { assert (Hfl : sumZ (map flight_of (L ++ M)) <= maxFrame * Z.of_nat (length (L ++ M))).
    { apply sum_bound. revert Hw. apply List.Forall_impl. apply flight_of_range. }
    pose proof (fi_items _ _ _ Hf) as Hlen. rewrite length_app in Hlen, Hfl. cbn [length] in Hlen.
    assert (Hn : 0 <= sumZ (map not_head (L ++ i :: M)) <= 1 * Z.of_nat (length (L ++ i :: M))).
    { apply sum_bound. apply Forall_true. intros x. unfold not_head. destruct (head _); lia. }
    assert (Ez : flight_of i = 0) by (unfold flight_of; by rewrite Et). rewrite Ez, Z.add_0_r in Hb2. pose proof maxFrame_pos.
    assert (byteCount (counts (ss_flight s)) <= maxFrame * (Z.of_nat (ss_made s) - 1) + maxFrame * Z.of_nat (ss_made s)).
    { assert (maxFrame * Z.of_nat (length L + length M) <= maxFrame * (Z.of_nat (ss_made s) - 1)) by (apply Z.mul_le_mono_nonneg_l; lia).
      nia. }
    nia. }
  apply (flight_set (ss_flight s) _ _ _ i); try done.
  - apply (flight_ok_eq (ss_flight s)); [done..|apply Hf].
  - cbn. rewrite i64_small by (unfold MaxInt64 in *; lia). lia.
  - cbn. rewrite i64_small by (unfold MaxInt64 in *; lia). unfold flight_of at 1. cbn. unfold flight_of. rewrite Et.
    change (item_MessageByteCount (set_carrier i _)) with (item_MessageByteCount i). lia.
  - exact (proj2 (app_middle_Forall _ _ _ _ (flight_nonneg _ _ _ _ _ Hs))).
Qed.

Lemma forgetUnreliableFlight_ok s i L M X T :
  inv s L (i :: M) X T ->
  exists s' c, forgetUnreliableFlight s i = (s', set_carrier i c) /\ inv s' L (set_carrier i c :: M) X T /\ quietly s s'.
Proof.
  intros Hs. unfold forgetUnreliableFlight. destruct (si_tracked i) eqn:Et; cbn [negb].
  2:{ exists s, (si_carrier i). destruct i; by split_and!. }
  pose proof (v_flight _ _ _ _ _ Hs) as Hf. pose proof (v_wires _ _ _ _ _ Hs) as Hw.
  apply app_middle_Forall in Hw as [Hi Hw]. destruct (wire_bytes i Hi) as [Ei Hl].
  eexists _, _. split; [done|]. split; [|by apply quietly_aux].
  apply (inv_item s _ _ i); [done|by apply quietly_aux|apply Hs| |done|done|done]. cbn.
  pose proof (flight_small _ _ _ _ _ Hs) as Hb. pose proof env_room as He. pose proof (v_made _ _ _ _ _ Hs) as Hm. pose proof maxFrame_pos.
  apply (flight_set (ss_flight s) _ _ _ i); try done.
  - apply (flight_ok_eq (ss_flight s)); [done..|apply Hf].
  - cbn. rewrite i64_small by (unfold MaxInt64 in *; nia). lia.
  - cbn. rewrite i64_small by (unfold MaxInt64 in *; nia). unfold flight_of at 1. cbn. unfold flight_of. rewrite Et, Ei. lia.
  - exact (proj2 (app_middle_Forall _ _ _ _ (flight_nonneg _ _ _ _ _ Hs))).
Qed.

Lemma inv_controller s c L M X T :
  counts c = counts (ss_flight s) -> flight_ok c -> config c = config (ss_flight s) -> inv s L M X T -> inv (set_flight s c) L M X T.
Proof.
  intros Ek Hc Ecfg Hs. apply inv_flight; [|done]. destruct (v_flight _ _ _ _ _ Hs) as [H1 H2 H3 H4]. split; [done|congruence|by rewrite Ek|done].
Qed.

Lemma applyPolicy_config c p : config (fst (applyPolicy c p)) = config c.
Proof. unfold applyPolicy. destruct (_ && _ && _ && _ && _); [done|]. by destruct (_ && _). Qed.
Lemma reduceForLoss_config c : config (fst (reduceForLoss c)) = config c.
Proof. unfold reduceForLoss. destruct (negb _); [done|]. by destruct (0 <? _). Qed.

Lemma observeUnreliableResendTimeout_ok s i available L M X T :
  inv s L (i :: M) X T ->
  exists s' c r, observeUnreliableResendTimeout s i available = (s', set_carrier i c, r) /\ inv s' L (set_carrier i c :: M) X T /\ quietly s s'.
Proof.
  intros Hs. unfold observeUnreliableResendTimeout. set (s1 := set_flight s _).
  assert (Hs1 : inv s1 L (i :: M) X T).
  { apply inv_controller; [apply reduceForLoss_counts|apply reduceForLoss_ok, (v_flight _ _ _ _ _ Hs)|apply reduceForLoss_config|done]. }
  assert (Hq1 : quietly s s1) by (by apply quietly_aux). destruct available; cbn [negb].
  - destruct (forgetUnreliableFlight_ok s1 i L M X T Hs1) as (s' & c & -> & Hs' & Hq). exists s', c, true. split; [done|]. split; [done|].
    by transitivity s1.
  - exists s1, (si_carrier i), false. destruct i; by split_and!.
Qed.

Lemma observeCarrierWrite_ok s i d L M X T :
  inv s L (i :: M) X T ->
  exists s' c, observeCarrierWrite s i d = (s', set_carrier i c) /\ inv s' L (set_carrier i c :: M) X T /\ quietly s s'.
Proof.
  intros Hs. unfold observeCarrierWrite, now. set (s1 := match retainedSilenceStart _ with Some _ => s | None => _ end).
  assert (Hs1 : inv s1 L (i :: M) X T /\ quietly s s1).
  { unfold s1. destruct (retainedSilenceStart _); [done|]. split; [by apply inv_silence, inv_tick|].
    etransitivity; [apply quietly_tick|]. by apply quietly_aux. }
  destruct Hs1 as [Hs1 Hq1]. destruct (negb (d_unreliable d)).
  { destruct (_ && _); eexists _, _; (split; [done|]); (split; [by apply inv_carrier|done]). }
  set (c := ItemCarrier _ _ _ _ _ _ _ _ _). destruct (trackUnreliableFlight_ok s1 (set_carrier i c) L M X T) as (s' & c' & -> & Hs' & Hq).
  { by apply inv_carrier. }
  exists s', c'. split; [done|]. split; [done|]. by transitivity s1.
Qed.

Lemma apply_policy_ok s L M X T : inv s L M X T -> inv (fst (apply_policy s)) L M X T /\ quietly s (fst (apply_policy s)).
Proof.
  intros Hs. unfold apply_policy, transferFlightPolicy. destruct (flightPolicyAt _) as [p available]. cbn [fst].
  split; [|etransitivity; [apply quietly_tick|by apply quietly_aux]]. apply inv_tick in Hs.
  apply inv_controller; [apply applyPolicy_counts|apply applyPolicy_ok, (v_flight _ _ _ _ _ Hs)|apply applyPolicy_config|done].
Qed.

(** ** Writing *)

Lemma route_write_ok s plain forced ro b L M X T :
  inv s L M X T -> inv (fst (route_write s plain forced ro b)) L M X T /\ quietly s (fst (route_write s plain forced ro b)).
Proof.
  intros Hs. cbn. split; [by apply inv_emit, inv_tick|]. etransitivity; [apply quietly_tick|by apply quietly_event].
Qed.

Lemma writeMaybeWrappedBytes_ok s b forced ro L M X T :
  inv s L M X T -> inv (fst (writeMaybeWrappedBytes s b forced ro)) L M X T /\ quietly s (fst (writeMaybeWrappedBytes s b forced ro)).
Proof.
  intros Hs. unfold writeMaybeWrappedBytes, transferFlightPolicy. cbn [fst snd].
  pose proof (inv_tick _ _ _ _ _ Hs) as H1. pose proof (quietly_tick s) as Q1. set (s1 := tick s) in *. clearbody s1.
  assert (Hw : forall s2 p f r w, inv s2 L M X T -> quietly s s2 -> inv (fst (route_write s2 p f r w)) L M X T /\ quietly s (fst (route_write s2 p f r w))).
  { intros s2 p f r w H2 Q2. destruct (route_write_ok s2 p f r w L M X T H2) as [H3 Q3]. split; [done|]. by transitivity s2. }
  assert (Ht : forall s2, inv s2 L M X T -> quietly s s2 -> inv (tick s2) L M X T /\ quietly s (tick s2)).
  { intros s2 H2 Q2. split; [by apply inv_tick|]. etransitivity; [exact Q2|apply quietly_tick]. }
  destruct session as [ss|]; [|by apply Hw]. destruct forced; [by apply Hw|].
  destruct (sn_Cipher ss (reads s1)) as [k|].
  - destruct (sn_certVerified ss _); cbn [negb]; [|by apply Ht]. destruct (sn_Seal _ _ _ _) as [ct|]; [|by apply Ht].
    set (s2 := if sn_ShouldRekey ss _ then _ else s1).
    assert (H2 : inv s2 L M X T /\ quietly s s2).
    { unfold s2. destruct (sn_ShouldRekey ss _); [|done]. split; [by apply inv_emit|]. etransitivity; [exact Q1|by apply quietly_event]. }
    destruct H2 as [H2 Q2]. destruct (outerFrame ct) as [w|]; [by apply Hw|by apply Ht].
  - destruct (sn_RequireEncryption ss _); [|by apply Hw]. cbn [fst]. destruct (Ht s1 H1 Q1) as [H2 Q2].
    split; [by apply inv_emit|]. etransitivity; [exact Q2|by apply quietly_event].
Qed.

(** ** The queue *)

Lemma middle_perm {A} (L1 : list A) x L2 M : (L1 ++ L2) ++ x :: M ≡ₚ (L1 ++ x :: L2) ++ M.
Proof. rewrite <- (Permutation_middle (L1 ++ L2) M x), <- (Permutation_middle L1 L2 x). done. Qed.

Lemma keys_delete s L1 i L2 : keys_ok s (L1 ++ i :: L2) -> keys_ok s (L1 ++ L2).
Proof.
  intros [H1 H2 H3 H4]. rewrite !map_app in *. cbn [map] in *. split; rewrite ?map_app.
  - rewrite <- Permutation_middle in H1. by apply list.NoDup_cons in H1 as [_ H1].
  - rewrite <- Permutation_middle in H2. by apply list.NoDup_cons in H2 as [_ H2].
  - clear -H3. induction L1 as [|x L1 IH]; cbn in *; apply StronglySorted_inv in H3 as [H3 H5]; [done|].
    constructor; [by apply IH|]. by apply app_middle_Forall in H5 as [_ H5].
  - by apply app_middle_Forall in H4 as [_ H4].
Qed.

Lemma sorted_distinct (L : list sendItem) x y :
  StronglySorted Z.lt (map si_seq L) -> x ∈ L -> y ∈ L -> si_seq x = si_seq y -> x = y.
Proof.
  induction L as [|z L IH]; cbn; [by intros _ ?%not_elem_of_nil|]. intros [Hs Hz]%StronglySorted_inv.
  rewrite !elem_of_cons. rewrite List.Forall_forall in Hz. setoid_rewrite <- list_elem_of_In in Hz.
  assert (Hlt : forall w, w ∈ L -> si_seq z < si_seq w) by (intros w Hw; apply Hz; by apply list_elem_of_fmap_2).
  intros [->|Hx] [->|Hy] Heq; [done|specialize (Hlt y Hy); lia|specialize (Hlt x Hx); lia|by apply IH].
Qed.

Lemma keys_fresh s L1 i L2 x :
  keys_ok s (L1 ++ i :: L2) -> x ∈ L1 ++ L2 -> si_id x <> si_id i /\ si_seq x <> si_seq i /\ si_ptr x <> si_ptr i.
Proof.
  intros [H1 H2 H3 _] Hx. rewrite map_app in H1, H2. cbn [map] in H1, H2. rewrite <- Permutation_middle, <- map_app in H1, H2.
  apply list.NoDup_cons in H1 as [H1 _]. apply list.NoDup_cons in H2 as [H2 _].
  split; [intros Heq; apply H2; rewrite <- Heq; by apply list_elem_of_fmap_2|].
  split; [|intros Heq; apply H1; rewrite <- Heq; by apply list_elem_of_fmap_2].
  intros Heq. assert (x = i) as ->.
  { apply (sorted_distinct _ x i H3); [|apply list.elem_of_app; right; by left|done].
    apply list.elem_of_app in Hx as [Hx|Hx]; apply list.elem_of_app; [by left|right; by right]. }
  apply H1. by apply list_elem_of_fmap_2.
Qed.

(** The queue changes, and items move between it and the hand. *)
Lemma inv_move s q b l L M L' M' X T :
  inv s L M X T -> L' ++ M' ≡ₚ L ++ M -> queue_wf si_transfer resend_cmp q /\ backed q b -> items (orderedItems q) ≡ₚ L' ->
  keys_ok s L' -> Forall retention_ok L' -> inv (set_items (set_queue s q b) l) L' M' X T.
Proof.
  intros [W S K Wi Rn N Md T1 Nm C [R1 [R2 R3]] Rt F] Hp Hw Hq Hk Hr.
  assert (Hk' : keys_ok (set_items (set_queue s q b) l) L') by (by apply (keys_mono s)).
  split; try done; cbn.
  - revert Wi. rewrite !List.Forall_forall. intros Wi x Hx. apply Wi. by rewrite <- Hp.
  - by rewrite Hp.
  - apply (contracts_same s _ (L' ++ M') (L' ++ M')); [done..|]. by apply (contracts_perm s (L ++ M) _ X X).
  - rewrite (sumZ_map_perm retained_of _ _ Hp). split; [done|]. split; [|done].
    revert R2. rewrite !List.Forall_forall. intros R2 x Hx. apply R2. by rewrite <- Hp.
  - destruct F as [F1 F2 F3 F4]. split; try done; [|by rewrite Hp]. by rewrite (sumZ_map_perm flight_of _ _ Hp), (sumZ_map_perm not_head _ _ Hp).
Qed.

Lemma q_remove_ok s L1 i L2 M X T :
  inv s (L1 ++ i :: L2) M X T ->
  exists s', q_remove s (si_id i) = Ret (s', Some i) /\ inv s' (L1 ++ L2) (i :: M) X T /\
    exists q b, s' = set_queue s q b.
Proof.
  intros Hs. pose proof (v_wf _ _ _ _ _ Hs) as [Hq Hb]. pose proof (v_same _ _ _ _ _ Hs) as Hsm. unfold q_remove.
  destruct (RemoveByMessageId_list si_transfer resend_cmp resend_cmp_flip resend_cmp_trans (resendQueue s) (ss_pool s) (si_id i) Hq Hb)
    as (q & b & x & -> & Hq' & Hb' & Hx). cbn [gbind].
  assert (Hin : i ∈ items (orderedItems (resendQueue s))) by (fold (queued s); rewrite Hsm; apply list.elem_of_app; right; by left).
  destruct x as [j|]; [|destruct Hx as (_ & _ & Hx); by destruct (Hx i Hin)]. destruct Hx as [Hj Hp].
  assert (j = i) as ->.
  { assert (Hjin : j ∈ L1 ++ i :: L2) by (rewrite <- Hsm; unfold queued; rewrite <- Hp; by left).
    destruct (decide (j = i)) as [|Hne]; [done|]. destruct (keys_fresh s L1 i L2 j (v_keys _ _ _ _ _ Hs)) as (K & _); [|by destruct K].
    apply list.elem_of_app in Hjin as [Hjin|Hjin]; apply list.elem_of_app; [by left|right]. apply elem_of_cons in Hjin as [?|?]; done. }
  eexists. split; [done|]. split; [|by eexists _, _].
  replace (set_queue s q b) with (set_items (set_queue s q b) (sendItems s)) by done.
  apply (inv_move s q b _ (L1 ++ i :: L2) M); [done|apply middle_perm|done| | |].
  - fold (queued s) in Hp. rewrite Hsm in Hp. rewrite <- Permutation_middle in Hp. by apply Permutation_cons_inv in Hp.
  - apply (keys_delete s L1 i). apply Hs.
  - pose proof (v_retention _ _ _ _ _ Hs) as Hr. by apply app_middle_Forall in Hr as [_ Hr].
Qed.

(** The item in hand goes back to its place. *)
Lemma resend_add_ok s l L1 i L2 M X T :
  inv s (L1 ++ L2) (i :: M) X T -> keys_ok s (L1 ++ i :: L2) -> retention_ok i ->
  inv (q_add (set_items s l) i) (L1 ++ i :: L2) M X T /\ exists q b, q_add (set_items s l) i = set_items (set_queue s q b) l.
Proof.
  intros Hs Hk Hr. pose proof (v_wf _ _ _ _ _ Hs) as [Hq Hb]. pose proof (v_same _ _ _ _ _ Hs) as Hsm. unfold q_add.
  destruct (Add_list si_transfer resend_cmp resend_cmp_flip resend_cmp_trans (resendQueue s) (ss_pool s) i Hq Hb) as (q & b & Ea & Hq' & Hb' & Hp).
  { intros x Hx. fold (queued s) in Hx. rewrite Hsm in Hx. destruct (keys_fresh s L1 i L2 x Hk Hx) as (K1 & K2 & K3).
    split; [by intros ->|]. split; [exact K1|exact K2]. }
  cbn [resendQueue ss_pool set_items]. rewrite Ea. split; [|by eexists _, _].
  change (set_queue (set_items s l) q b) with (set_items (set_queue s q b) l).
  apply (inv_move s q b l (L1 ++ L2) (i :: M)); [done|by symmetry; apply middle_perm|done| |done|].
  - rewrite Hp. fold (queued s). rewrite Hsm. by apply Permutation_middle.
  - pose proof (v_retention _ _ _ _ _ Hs) as Hn. apply Forall_app in Hn as [Hn1 Hn2]. apply Forall_app. split; [done|]. by constructor.
Qed.

Lemma update_item_split s L1 j i L2 :
  keys_ok s (L1 ++ j :: L2) -> sendItems s = L1 ++ j :: L2 -> si_key i = si_key j -> update_item s i = set_items s (L1 ++ i :: L2).
Proof.
  intros Hk Es Ek. unfold update_item. f_equal. rewrite Es, map_app. cbn [map].
  assert (Hp : si_ptr i = si_ptr j) by (unfold si_ptr; by rewrite Ek). rewrite Hp, Nat.eqb_refl.
  assert (Hid : forall L, (forall x, x ∈ L -> x ∈ L1 ++ L2) -> map (fun x => if (si_ptr x =? si_ptr j)%nat then i else x) L = L).
  { intros L HL. rewrite <- (map_id L) at 2. apply map_ext_in. intros x Hx%list_elem_of_In.
    destruct (Nat.eqb_spec (si_ptr x) (si_ptr j)) as [Heq|]; [|done].
    by destruct (keys_fresh s L1 j L2 x Hk (HL x Hx)) as (_ & _ & K). }
  rewrite !Hid; [done|intros x Hx..]; apply list.elem_of_app; tauto.
Qed.

Lemma delete_item_split s L1 i L2 : keys_ok s (L1 ++ i :: L2) -> delete_item (si_ptr i) (L1 ++ i :: L2) = L1 ++ L2.
Proof.
  intros Hk. assert (Hne : forall x, x ∈ L1 -> si_ptr x <> si_ptr i).
  { intros x Hx. destruct (keys_fresh s L1 i L2 x Hk) as (_ & _ & K); [apply list.elem_of_app; by left|done]. }
  clear Hk. induction L1 as [|x L1 IH]; cbn; [by rewrite Nat.eqb_refl|].
  rewrite (proj2 (Nat.eqb_neq _ _)) by (apply Hne; by left). rewrite IH; [done|]. intros y Hy. apply Hne. by right.
Qed.

(** ** Contracts *)

(** [s'] differs from [s] in its contracts and in quiet events. *)
Record contractly s s' : Prop := {
  cy_rest : (nextSequenceNumber s', sendItems s', resendQueue s', ss_pool s', sendContract s', retainedByteCount s', ss_made s',
             ss_buffers s', ss_aux s') =
            (nextSequenceNumber s, sendItems s, resendQueue s, ss_pool s, sendContract s, retainedByteCount s, ss_made s,
             ss_buffers s, ss_aux s);
  cy_log : exists l, ss_log s' = ss_log s ++ l /\ Forall (fun e => quiet e = true) l;
}.

#[export] Instance contractly_preorder : PreOrder contractly.
Proof.
  split.
  - intros s. split; [done|]. exists []. by rewrite app_nil_r.
  - intros s1 s2 s3 [C1 (l1 & E1 & F1)] [C2 (l2 & E2 & F2)]. split; [congruence|].
    exists (l1 ++ l2). rewrite E2, E1, app_assoc. split; [done|]. by apply Forall_app.
Qed.

Lemma contractly_put s id c : contractly s (put_contract s id c).
Proof. split; [done|]. exists []. by rewrite app_nil_r. Qed.
Lemma contractly_emit s e : quiet e = true -> contractly s (emit s e).
Proof. intros He. split; [done|]. exists [e]. split; [done|]. by constructor. Qed.

Lemma account_perm c l l' n : l ≡ₚ l' -> account_ok (Account c l n) -> account_ok (Account c l' n).
Proof.
  intros Hp [K3 K4 K5 [K6 K7] K8]. split; cbn [ac_contract ac_open ac_acked] in *; try done.
  split; [by rewrite K6; apply sumZ_map_perm|by rewrite <- Hp].
Qed.

(** A contract with nothing unacked is charged nothing. *)
Lemma account_empty c l n :
  minUpdateByteCount c = MinMessageByteCount settings -> account_ok (Account c l n) -> unackedByteCount c = 0 -> l = [].
Proof.
  intros Hm [K3 K4 K5 [K6 K7] K8] Hu. destruct l as [|x l]; [done|]. exfalso. cbn [ac_contract ac_open map] in K6. rewrite Hu, sumZ_cons in K6.
  pose proof env_min. assert (0 < effective c x) by (unfold effective; lia). assert (0 <= sumZ (map (effective c) l)); [|lia].
  apply sumZ_map_nonneg. intros y _. unfold effective. lia.
Qed.

Lemma charges_cons i A X id :
  charges (i :: A) X id = (if bool_decide (si_contract i = Some id) then [si_bytes i] else []) ++ charges A X id.
Proof. unfold charges. cbn. by rewrite app_assoc. Qed.

(** The account of the item's contract, after its debit was settled. *)
Lemma contracts_settle s s' i id c c' A X :
  contracts_ok s (i :: A) X -> si_contract i = Some id -> openSendContracts s !! id = Some c ->
  contractId c' = contractId c -> minUpdateByteCount c' = minUpdateByteCount c ->
  account_ok (Account c' (charges A X id) (ackedByteCount c')) ->
  openSendContracts s' = <[id := c']> (openSendContracts s) -> sendContract s' = sendContract s ->
  contracts_ok s' A X.
Proof.
  intros [H1 H2 H3 H4 H5] Hi Hc E1 E2 Ha Eo Ec. destruct (H1 id c Hc) as (K1 & K2 & _).
  assert (Hsome : forall j, is_Some (openSendContracts s !! j) -> is_Some (openSendContracts s' !! j)).
  { intros j Hj. rewrite Eo. destruct (decide (j = id)) as [->|]; [rewrite lookup_insert_eq; eauto|by rewrite lookup_insert_ne]. }
  split.
  - intros j d. rewrite Eo. destruct (decide (j = id)) as [->|Hne].
    + rewrite lookup_insert_eq. intros [= <-]. split; [by rewrite E1|]. split; [congruence|done].
    + rewrite lookup_insert_ne by done. intros Hd. destruct (H1 j d Hd) as (J1 & J2 & J3). split; [done|]. split; [done|].
      by rewrite charges_cons, bool_decide_eq_false_2 in J3 by congruence.
  - intros j d Hj Hd. apply Hsome. apply (H2 j d); [by right|done].
  - intros j n Hj. apply Hsome. by apply (H3 j n).
  - intros j Hj. apply Hsome. rewrite Ec in Hj. by apply H4.
  - intros Hn. specialize (H5 Hn). rewrite H5 in Hc. by rewrite lookup_empty in Hc.
Qed.

(** An emptied contract that is not the current one is closed. *)
Lemma close_if_done_ok s id c A X :
  contracts_ok s A X -> openSendContracts s !! id = Some c ->
  contracts_ok (close_if_done s id c) A X /\ contractly s (close_if_done s id c).
Proof.
  intros Hs Hc. pose proof Hs as [H1 H2 H3 H4 H5]. destruct (H1 id c Hc) as (K1 & K2 & K3). unfold close_if_done.
  destruct (negb _ && _) eqn:Eb; [|done]. apply andb_true_iff in Eb as [Eb Eu%Z.eqb_eq]. apply negb_true_iff, bool_decide_eq_false in Eb.
  pose proof (account_empty c _ _ K2 K3 Eu) as Hemp. rewrite (proj1 K1).
  split; [|split; [done|]; eexists; split; [done|by constructor]].
  assert (Hsome : forall j, j <> id -> is_Some (openSendContracts s !! j) -> is_Some (delete id (openSendContracts s) !! j)).
  { intros j Hj. by rewrite lookup_delete_ne. }
  unfold charges in Hemp. apply app_eq_nil in Hemp as [He1 He2]. split; cbn [openSendContracts sendContract set_contracts emit].
  - intros j d. destruct (decide (j = id)) as [->|Hne]; [by rewrite lookup_delete_eq|]. rewrite lookup_delete_ne by done. apply H1.
  - intros j d Hj Hd. apply Hsome; [|by apply (H2 j d)]. intros ->.
    assert (Hin : si_bytes j ∈ flat_map (fun i => if bool_decide (si_contract i = Some id) then [si_bytes i] else []) A).
    { apply list_elem_of_In, in_flat_map. exists j. split; [by apply list_elem_of_In|]. rewrite bool_decide_eq_true_2 by done. by left. }
    rewrite He1 in Hin. by apply not_elem_of_nil in Hin.
  - intros j n Hj. apply Hsome; [|by apply (H3 j n)]. intros ->.
    assert (Hin : n ∈ flat_map (fun '(j, n) => if bool_decide (j = id) then [n] else []) X).
    { apply list_elem_of_In, in_flat_map. exists (id, n). split; [by apply list_elem_of_In|]. rewrite bool_decide_eq_true_2 by done. by left. }
    rewrite He2 in Hin. by apply not_elem_of_nil in Hin.
  - intros j Hj. apply Hsome; [congruence|by apply H4].
  - intros Hn. rewrite (H5 Hn). apply delete_empty.
Qed.

Lemma ack_contract_ok s i A X :
  contracts_ok s (i :: A) X -> exists s', ack_contract s i = Ret s' /\ contracts_ok s' A X /\ contractly s s'.
Proof.
  intros Hs. unfold ack_contract. destruct (si_contract i) as [id|] eqn:Hi.
  2:{ exists s. split; [done|]. split; [|done]. destruct Hs as [H1 H2 H3 H4 H5]. split; try done.
      - intros j d Hd. destruct (H1 j d Hd) as (J1 & J2 & J3). split; [done|]. split; [done|].
        by rewrite charges_cons, Hi in J3.
      - intros j d Hj Hd. apply (H2 j d); [by right|done]. }
  destruct (co_owed _ _ _ Hs i id) as [c Hc]; [by left|done|]. rewrite Hc. destruct (co_open _ _ _ Hs id c Hc) as (K1 & K2 & K3).
  rewrite charges_cons, bool_decide_eq_true_2 in K3 by done.
  destruct (contract_step_ok _ (CAck 0) K3 I) as (a' & Ea & Ha & _). cbn [contract_step ac_open lookup list_lookup app ac_contract ac_acked] in Ea.
  apply gbind_ret_inv in Ea as (c' & Ea & [= <-]). rewrite Ea. cbn [gbind].
  assert (Ec' : contractId c' = contractId c /\ minUpdateByteCount c' = minUpdateByteCount c).
  { unfold ack in Ea. destruct (_ <? _); [done|]. by injection Ea as <-. }
  set (s1 := emit _ _). assert (Hs1 : contracts_ok s1 A X).
  { apply (contracts_settle s s1 i id c c'); try done; try tauto. destruct Ha as [K4 K5 K6 K7 K8].
    split; try done. cbn [ac_contract ac_acked] in *. lia. }
  assert (Hc1 : openSendContracts s1 !! id = Some c') by (cbn; apply lookup_insert_eq).
  destruct (close_if_done_ok s1 id c' A X Hs1 Hc1) as [H2 H3]. eexists. split; [done|]. split; [done|].
  etransitivity; [|exact H3]. etransitivity; [apply contractly_put|by apply contractly_emit].
Qed.

Lemma unack_contract_ok s i close A X :
  contracts_ok s (i :: A) X -> contracts_ok (unack_contract s i close) A X /\ contractly s (unack_contract s i close).
Proof.
  intros Hs. unfold unack_contract. destruct (si_contract i) as [id|] eqn:Hi.
  2:{ split; [|done]. destruct Hs as [H1 H2 H3 H4 H5]. split; try done.
      - intros j d Hd. destruct (H1 j d Hd) as (J1 & J2 & J3). split; [done|]. split; [done|].
        by rewrite charges_cons, Hi in J3.
      - intros j d Hj Hd. apply (H2 j d); [by right|done]. }
  destruct (co_owed _ _ _ Hs i id) as [c Hc]; [by left|done|]. rewrite Hc. destruct (co_open _ _ _ Hs id c Hc) as (K1 & K2 & K3).
  rewrite charges_cons, bool_decide_eq_true_2 in K3 by done.
  destruct (contract_step_ok _ (CUnack 0) K3 I) as (a' & Ea & Ha & _). cbn [contract_step ac_open lookup list_lookup app ac_contract ac_acked] in Ea.
  injection Ea as <-. set (c' := unack c (si_bytes i)) in *. set (s1 := put_contract s id c').
  assert (Hs1 : contracts_ok s1 A X).
  { apply (contracts_settle s s1 i id c c'); try done. }
  assert (Hc1 : openSendContracts s1 !! id = Some c') by (cbn; apply lookup_insert_eq).
  destruct close; [|split; [done|apply contractly_put]].
  destruct (close_if_done_ok s1 id c' A X Hs1 Hc1) as [H2 H3]. split; [done|]. etransitivity; [apply contractly_put|exact H3].
Qed.

(** ** Settling *)

(** What the operations on items leave alone. *)
Record keeps s s' : Prop := {
  kp_items : sendItems s' = sendItems s;
  kp_next : nextSequenceNumber s' = nextSequenceNumber s;
  kp_made : ss_made s' = ss_made s;
  kp_current : sendContract s' = sendContract s;
  kp_reads : (reads s <= reads s')%nat;
}.

#[export] Instance keeps_preorder : PreOrder keeps.
Proof.
  split; [done|]. intros s1 s2 s3 [A1 A2 A3 A4 A5] [B1 B2 B3 B4 B5]. split; [congruence..|lia].
Qed.
Lemma quietly_keeps s s' : quietly s s' -> keeps s s'.
Proof. intros [Hc Hr _]. injection Hc as E1 E2 E3 E4 E5 E6 E7 E8 E9 E10. by split. Qed.
Lemma contractly_keeps s s' : contractly s s' -> keeps s s'.
Proof. intros [Hc _]. injection Hc as E1 E2 E3 E4 E5 E6 E7 E8 E9. split; try done. unfold reads. by rewrite E9. Qed.

Lemma keys_keeps s s' L : keeps s s' -> keys_ok s L -> keys_ok s' L.
Proof. intros [K1 K2 K3 K4 K5]. apply keys_mono; [lia|lia|done]. Qed.

Definition cb_events (cb : option AckFunction) (ok : bool) : list event :=
  match cb with Some (CbUser n) => [EvCallback n ok] | _ => [] end.

Lemma safeAck_spec s cb ok :
  exists a, safeAck s cb ok =
    SSeq (nextSequenceNumber s) (sendItems s) (resendQueue s) (ss_pool s) (openSendContracts s) (sendContract s) a
      (retainedByteCount s) (ss_made s) (ss_buffers s) (ss_aux s) (ss_log s ++ cb_events cb ok).
Proof.
  destruct cb as [[n|lid]|]; cbn.
  - by exists (sendContractAcked s).
  - unfold setContractAcked. rewrite app_nil_r. destruct (sendContract s) as [id|] eqn:Ec; [|exists (sendContractAcked s); destruct s; cbn in *; by subst].
    destruct (openSendContracts s !! id); [|exists (sendContractAcked s); destruct s; cbn in *; by subst].
    destruct (bool_decide _); [exists ok|exists (sendContractAcked s)]; destruct s; cbn in *; by subst.
  - rewrite app_nil_r. exists (sendContractAcked s). by destruct s.
Qed.

Lemma cb_settles cb ok : flat_map settles (cb_events cb ok) = cb_tokens cb /\ flat_map gains (cb_events cb ok) = [] /\
  flat_map numbered (cb_events cb ok) = [].
Proof. destruct cb as [[]|]; by split_and!. Qed.

Lemma contractly_flat s s' {A} (f : event -> list A) :
  contractly s s' -> (forall e, quiet e = true -> f e = []) -> flat_map f (ss_log s') = flat_map f (ss_log s).
Proof.
  intros [_ (l & -> & Hl)] Hf. rewrite flat_map_app. replace (flat_map f l) with (@nil A); [by rewrite app_nil_r|].
  induction Hl as [|e l He Hl IH]; [done|]. cbn. by rewrite (Hf e He), <- IH.
Qed.

Lemma inv_settle s s1 i ok L M X X' T :
  inv s L (i :: M) X T -> contractly s s1 -> contracts_ok s1 (L ++ M) X' -> si_tracked i = false -> retained_of i = 0 ->
  inv (messagePoolReturn (safeAck s1 (ik_ackCallback (si_key i)) ok) i) L M X' T /\
  keeps s (messagePoolReturn (safeAck s1 (ik_ackCallback (si_key i)) ok) i) /\
  calls (messagePoolReturn (safeAck s1 (ik_ackCallback (si_key i)) ok) i) = calls s ++ flat_map call_of (cb_events (ik_ackCallback (si_key i)) ok).
Proof.
  intros [W S K Wi Rn N Md T1 Nm C [R1 [R2 R3]] Rt F] Hc Hco Ht Hr.
  pose proof (contractly_flat s s1 gains Hc (fun e He => proj1 (quiet_events e He))) as Lg.
  pose proof (contractly_flat s s1 settles Hc (fun e He => proj1 (proj2 (quiet_events e He)))) as Ls.
  pose proof (contractly_flat s s1 numbered Hc (fun e He => proj1 (proj2 (proj2 (quiet_events e He))))) as Ln.
  pose proof (contractly_flat s s1 call_of Hc (fun e He => proj2 (proj2 (proj2 (quiet_events e He))))) as Lc.
  pose proof (cy_rest _ _ Hc) as Hrest. injection Hrest as En Ei Eq Ep Ec Eb Em Ef Ea.
  destruct (cb_settles (ik_ackCallback (si_key i)) ok) as (S1 & S2 & S3).
  destruct (safeAck_spec s1 (ik_ackCallback (si_key i)) ok) as [a ->]. unfold messagePoolReturn, emit. cbn [ss_log].
  apply app_middle_Forall in Wi as [Wi1 Wi]. apply app_middle_Forall in R2 as [R2i R2].
  split; [|split; [split; cbn; try done; unfold reads; cbn; by rewrite Ea|]].
  2:{ unfold calls. cbn [ss_log]. rewrite !flat_map_app, Lc. cbn [flat_map call_of]. by rewrite app_nil_r. }
  split; cbn [nextSequenceNumber sendItems resendQueue ss_pool openSendContracts sendContract retainedByteCount ss_made ss_aux ss_log];
    unfold queued, ss_rtt, ss_flight; cbn [resendQueue ss_aux]; rewrite ?En, ?Eq, ?Ep, ?Eb, ?Em, ?Ea; try done.
  - by apply (keys_mono s).
  - rewrite !flat_map_app, Lg, Ls, S1, S2. cbn [flat_map gains settles]. rewrite !app_nil_r, T1, !flat_map_app. cbn [flat_map].
    unfold owns at 2. rewrite <- !app_assoc. apply Permutation_app_head. cbn [app]. solve_Permutation.
  - rewrite !flat_map_app, Ln, S3, !app_nil_r. done.
  - by apply (contracts_same s1 _ (L ++ M) (L ++ M)).
  - rewrite sum_middle, Hr, Z.add_0_r in R1. done.
  - destruct F as [F1 F2 F3 F4]. rewrite !sum_middle in F3. split; try done; [|rewrite length_app in *; cbn in F4; lia].
    assert (flight_of i = 0) as Fz by (unfold flight_of; by rewrite Ht). rewrite Fz in F3.
    pose proof maxFrame_pos. assert (0 <= not_head i) by (unfold not_head; destruct (head _); lia).
    assert (0 <= maxFrame * not_head i) by nia. change (flightController (ss_aux s)) with (ss_flight s). rewrite ?Z.mul_sub_distr_l, ?Z.mul_add_distr_l in *. lia.
Qed.

Lemma contracts_head s L i M X : contracts_ok s (L ++ i :: M) X -> contracts_ok s (i :: L ++ M) X.
Proof. apply contracts_perm; [|done]. symmetry. apply Permutation_middle. Qed.

Lemma ackItemCounted_ok s i y L M X T :
  inv s L (i :: M) X T -> retained_of i = 0 ->
  exists s', ackItemCounted s i y = Ret s' /\ inv s' L M X T /\ keeps s s' /\
    calls s' = calls s ++ flat_map call_of (cb_events (ik_ackCallback (si_key i)) true).
Proof.
  intros Hs Hr. unfold ackItemCounted. set (s0 := if y then _ else s).
  assert (H0 : inv s0 L (i :: M) X T /\ quietly s s0) by (unfold s0; destruct y; split; [by apply inv_emit|by apply quietly_event|done|done]).
  destruct H0 as [H0 Q0]. destruct (releaseUnreliableFlight_ok s0 i L M X T H0) as (s1 & c & -> & H1 & Q1 & Et). cbn [gbind].
  destruct (ack_contract_ok s1 (set_carrier i c) (L ++ M) X) as (s2 & -> & H2 & C2); [apply contracts_head, H1|]. cbn [gbind].
  eexists. split; [done|]. destruct (inv_settle s1 s2 (set_carrier i c) true L M X X T H1 C2 H2 Et Hr) as (H3 & K3 & L3).
  split; [exact H3|]. split; [|rewrite L3, (quiet_calls _ _ Q1), (quiet_calls _ _ Q0); done]. etransitivity; [apply quietly_keeps; etransitivity; [exact Q0|exact Q1]|exact K3].
Qed.

Lemma ackItemWithErrDropped_ok s i L M X T :
  inv s L (i :: M) X T -> retained_of i = 0 ->
  exists s', ackItemWithErrDropped s i = Ret s' /\ inv s' L M X T /\ keeps s s' /\
    calls s' = calls s ++ flat_map call_of (cb_events (ik_ackCallback (si_key i)) false).
Proof.
  intros Hs Hr. unfold ackItemWithErrDropped.
  destruct (releaseUnreliableFlight_ok s i L M X T Hs) as (s1 & c & -> & H1 & Q1 & Et). cbn [gbind].
  destruct (unack_contract_ok s1 (set_carrier i c) true (L ++ M) X) as [H2 C2]; [apply contracts_head, H1|].
  eexists. split; [done|]. destruct (inv_settle s1 _ (set_carrier i c) false L M X X T H1 C2 H2 Et Hr) as (H3 & K3 & L3).
  split; [exact H3|]. split; [|rewrite L3, (quiet_calls _ _ Q1); done]. etransitivity; [apply quietly_keeps; exact Q1|exact K3].
Qed.

(** A retained item gives back its charge; another holds none. *)
Lemma releaseRetained_ok s i L M X T :
  inv s L (i :: M) X T -> retention_ok i -> si_retained i = true ->
  exists s' r, releaseRetained s i = (s', set_retention i r) /\ inv s' L (set_retention i r :: M) X T /\ keeps s s' /\ calls s' = calls s /\
    retained_of (set_retention i r) = 0.
Proof.
  intros Hs Hr Hi. destruct (Hr Hi) as [Hch Hrel]. unfold releaseRetained. rewrite Hrel, (proj2 (Z.eqb_neq _ 0)) by lia.
  eexists _, _. split; [done|]. split; [|split; [done|split; [done|unfold retained_of, si_retained; cbn; by rewrite andb_false_r]]].
  destruct Hs as [W S K Wi Rn N Md T1 Nm C [R1 [R2 R3]] Rt F].
  assert (Ho : retained_of i = retainedCharge (si_retention i)) by (unfold retained_of; by rewrite Hi, Hrel).
  assert (Hz : forall d, retained_of (set_retention i (ItemRetention (retainAfterAckTimeout (si_retention i)) 0 true d)) = 0).
  { intros d. unfold retained_of, si_retained. cbn. by rewrite andb_false_r. }
  assert (Hnn : 0 <= sumZ (map retained_of (L ++ M))).
  { apply app_middle_Forall in R2 as [_ R2]. apply sumZ_map_nonneg. intros x Hx. by apply (proj1 (list.Forall_forall _ _) R2). }
  pose proof env_retain as [_ Hcap]. pose proof maxFrame_pos. pose proof R1 as R1'. rewrite sum_middle, Ho in R1'.
  assert (Er : i64 (retainedByteCount s - retainedCharge (si_retention i)) = sumZ (map retained_of (L ++ M))).
  { rewrite i64_small by (unfold MaxInt64 in *; lia). lia. }
  split; try done; cbn.
  - apply (keys_mono s); try done.
  - revert Wi. rewrite !Forall_app, !Forall_cons_iff. done.
  - rewrite flat_map_app in *. done.
  - apply (contracts_same s _ (L ++ i :: M)); [done..|by rewrite !map_app|done].
  - rewrite Er, sum_middle, Hz. split; [lia|]. split; [|lia]. revert R2. rewrite !Forall_app, !Forall_cons_iff, Hz. intuition lia.
  - apply (flight_same _ _ _ i); try done.
Qed.

Lemma not_retained i : si_retained i = false -> retained_of i = 0.
Proof. intros Hi. unfold retained_of. by rewrite Hi. Qed.

(** Dropping an item that waits. *)
Lemma dropItem_ok s L1 i L2 M X T :
  inv s (L1 ++ i :: L2) M X T -> sendItems s = L1 ++ i :: L2 ->
  exists s', dropItem s i = Ret s' /\ inv s' (L1 ++ L2) M X T /\ sendItems s' = L1 ++ L2 /\
    nextSequenceNumber s' = nextSequenceNumber s /\ ss_made s' = ss_made s /\ (reads s <= reads s')%nat.
Proof.
  intros Hs Es. unfold dropItem. destruct (q_remove_ok s L1 i L2 M X T Hs) as (s1 & -> & H1 & q & b & ->). cbn [gbind].
  cbn [sendItems set_queue]. rewrite Es, (delete_item_split s) by apply Hs.
  pose proof (v_retention _ _ _ _ _ Hs) as Hret. apply app_middle_Forall in Hret as [Hret _].
  set (s2 := set_items _ _). assert (H2 : inv s2 (L1 ++ L2) (i :: M) X T).
  { apply (inv_move _ (resendQueue (set_queue s q b)) (ss_pool (set_queue s q b)) (L1 ++ L2) _ _ _ _ _ _ H1); [done|apply H1|apply H1|apply H1|apply H1]. }
  destruct (si_retained i) eqn:Hi.
  - destruct (releaseRetained_ok s2 i _ _ _ _ H2 Hret Hi) as (s3 & r & -> & H3 & K3 & _ & Hz).
    destruct (ackItemWithErrDropped_ok s3 _ _ _ _ _ H3 Hz) as (s4 & -> & H4 & K4 & _). exists s4. split; [done|]. split; [done|].
    pose proof (transitivity K3 K4) as [A1 A2 A3 A4 A5]. done.
  - destruct (ackItemWithErrDropped_ok s2 i _ _ _ _ H2 (not_retained i Hi)) as (s4 & -> & H4 & K4 & _). exists s4. split; [done|].
    split; [done|]. destruct K4 as [A1 A2 A3 A4 A5]. done.
Qed.

(** ** Acknowledgements *)

Definition fired (ok : bool) i : list (nat * bool) := flat_map call_of (cb_events (ik_ackCallback (si_key i)) ok).

(** An item that left the queue for good. *)
Lemma walk_item_ok s i L M X T :
  inv s L (i :: M) X T -> retention_ok i ->
  exists s', (let! '(s, i) := if selectiveAcked (si_times i) then Ret (s, i) else releaseUnreliableFlight s i in
              let '(s, i) := if si_retained i
                             then let '(s, i) := releaseRetained s i in (emit s (EvRetention RetainAck), i) else (s, i) in
              ackItem s i) = Ret s' /\ inv s' L M X T /\ keeps s s' /\ calls s' = calls s ++ fired true i.
Proof.
  intros Hs Hr.
  assert (H1 : exists s1 c, (if selectiveAcked (si_times i) then Ret (s, i) else releaseUnreliableFlight s i) = Ret (s1, set_carrier i c) /\
            inv s1 L (set_carrier i c :: M) X T /\ quietly s s1).
  { destruct (selectiveAcked _); [exists s, (si_carrier i); destruct i; by split_and!|].
    destruct (releaseUnreliableFlight_ok s i L M X T Hs) as (s1 & c & E1 & H1 & Q1 & _). by exists s1, c. }
  destruct H1 as (s1 & c & -> & H1 & Q1). cbn [gbind]. change (si_retained (set_carrier i c)) with (si_retained i).
  destruct (si_retained i) eqn:Hi.
  - destruct (releaseRetained_ok s1 (set_carrier i c) L M X T H1 Hr Hi) as (s2 & r & -> & H2 & K2 & L2 & Hz).
    destruct (ackItemCounted_ok (emit s2 (EvRetention RetainAck)) (set_retention (set_carrier i c) r) true L M X T) as (s3 & E3 & H3 & K3 & L3);
      [by apply inv_emit|done|].
    exists s3. unfold ackItem. rewrite E3. split; [done|]. split; [done|]. split.
    + etransitivity; [apply quietly_keeps; exact Q1|]. etransitivity; [exact K2|]. etransitivity; [|exact K3].
      by apply quietly_keeps, quietly_event.
    + rewrite L3, (quiet_calls s2), L2, (quiet_calls _ _ Q1) by (by apply quietly_event). done.
  - destruct (ackItemCounted_ok s1 (set_carrier i c) true L M X T H1 (not_retained i Hi)) as (s3 & E3 & H3 & K3 & L3).
    exists s3. unfold ackItem. rewrite E3. split; [done|]. split; [done|]. split; [|by rewrite L3, (quiet_calls _ _ Q1)].
    etransitivity; [apply quietly_keeps; exact Q1|exact K3].
Qed.

Lemma walk_unfold s n i l :
  ack_walk s n (i :: l) =
  if n <? si_seq i then Ret (s, i :: l)
  else
    let! '(s, x) := q_remove s (si_id i) in
    match x with
    | None => ack_walk s n l
    | Some _ =>
        let! s := (let! '(s, i) := if selectiveAcked (si_times i) then Ret (s, i) else releaseUnreliableFlight s i in
                   let '(s, i) := if si_retained i
                                  then let '(s, i) := releaseRetained s i in (emit s (EvRetention RetainAck), i) else (s, i) in
                   ackItem s i) in
        ack_walk s n l
    end.
Proof.
  cbn [ack_walk]. destruct (_ <? _); [done|]. destruct (q_remove s (si_id i)) as [[s1 [x|]]|]; [|done|done]. cbn [gbind].
  destruct (if selectiveAcked (si_times i) then Ret (s1, i) else releaseUnreliableFlight s1 i) as [[s2 j]|]; [|done]. cbn [gbind].
  destruct (si_retained j); [|done]. by destruct (releaseRetained s2 j) as [s3 k].
Qed.

Lemma keys_tail s i l : keys_ok s (i :: l) -> Forall (fun x => si_seq i < si_seq x) l.
Proof.
  intros [_ _ H3 _]. cbn [map] in H3. apply StronglySorted_inv in H3 as [_ H3]. exact (proj1 (List.Forall_map si_seq (Z.lt (si_seq i)) l) H3).
Qed.

Lemma filter_all {A} (P : A -> Prop) `{!forall x, Decision (P x)} l : Forall P l -> filter P l = l.
Proof. induction 1 as [|x l Hx _ IH]; [done|]. by rewrite filter_cons_True, IH. Qed.
Lemma filter_none {A} (P : A -> Prop) `{!forall x, Decision (P x)} l : Forall (fun x => ~ P x) l -> filter P l = [].
Proof. induction 1 as [|x l Hx _ IH]; [done|]. by rewrite filter_cons_False, IH. Qed.

(** A cumulative ack of [n] settles the items up to [n], in order, and leaves the
    others. *)
Lemma ack_walk_ok n l s M X T :
  inv s l M X T ->
  exists s', ack_walk s n l = Ret (s', filter (fun i => n < si_seq i) l) /\ inv s' (filter (fun i => n < si_seq i) l) M X T /\ keeps s s' /\
    calls s' = calls s ++ flat_map (fired true) (filter (fun i => si_seq i <= n) l).
Proof.
  revert s. induction l as [|i l IH]; intros s Hs.
  { exists s. cbn. split; [done|]. split; [done|]. split; [done|]. by rewrite app_nil_r. }
  rewrite walk_unfold. destruct (Z.ltb_spec n (si_seq i)) as [Hlt|Hge].
  - pose proof (keys_tail _ _ _ (v_keys _ _ _ _ _ Hs)) as Ht. exists s.
    rewrite (filter_all (fun i => n < si_seq i)), (filter_none (fun i => si_seq i <= n)); [cbn; by rewrite app_nil_r| |];
      (constructor; [lia|]); revert Ht; apply List.Forall_impl; intros x Hx; lia.
  - destruct (q_remove_ok s [] i l M X T Hs) as (s1 & -> & H1 & q & b & E1). cbn [gbind app] in *.
    pose proof (v_retention _ _ _ _ _ Hs) as Hr. apply Forall_cons_1 in Hr as [Hr _].
    destruct (walk_item_ok s1 i l M X T H1 Hr) as (s2 & -> & H2 & K2 & L2). cbn [gbind].
    destruct (IH s2 H2) as (s3 & -> & H3 & K3 & L3). exists s3.
    rewrite filter_cons_False by lia. split; [done|]. split; [done|]. split.
    + transitivity s1; [by rewrite E1|]. by transitivity s2.
    + rewrite L3, L2, E1, filter_cons_True by lia. cbn [flat_map]. by rewrite app_assoc.
Qed.

(** Nothing that [Run] keeps across a turn moves backwards. *)
Record advances s s' : Prop := {
  ad_next : nextSequenceNumber s' = nextSequenceNumber s;
  ad_made : ss_made s' = ss_made s;
  ad_reads : (reads s <= reads s')%nat;
}.
#[export] Instance advances_preorder : PreOrder advances.
Proof. split; [done|]. intros s1 s2 s3 [A1 A2 A3] [B1 B2 B3]. split; [congruence..|lia]. Qed.
Lemma keeps_advances s s' : keeps s s' -> advances s s'.
Proof. by intros [K1 K2 K3 K4 K5]. Qed.
Lemma quietly_advances s s' : quietly s s' -> advances s s'.
Proof. intros Hq. by apply keeps_advances, quietly_keeps. Qed.

(** The invariant between two operations: the queue holds [sendItems]. *)
Definition at_rest s (X : list (bytes * Z)) (T : list token) : Prop := inv s (sendItems s) [] X T.

Lemma rest_quiet s s' X T : at_rest s X T -> quietly s s' -> rtt_ok (ss_rtt s') -> flight_inv (ss_flight s') (ss_made s) (sendItems s) -> at_rest s' X T.
Proof.
  intros Hs Hq Hr Hf. unfold at_rest. rewrite (kp_items _ _ (quietly_keeps _ _ Hq)). apply (inv_quietly s); try done. by rewrite app_nil_r.
Qed.

Lemma inv_items s l L M X T : inv s L M X T -> inv (set_items s l) L M X T.
Proof.
  intros Hs. apply (inv_move s (resendQueue s) (ss_pool s) l L M); [done|done|apply Hs..].
Qed.

Lemma restartRetainedSilence_ok s X T : at_rest s X T -> at_rest (restartRetainedSilence s) X T /\ quietly s (restartRetainedSilence s).
Proof.
  intros Hs. unfold restartRetainedSilence, now. destruct (0 <? _).
  - split; [by apply inv_silence, inv_tick|]. etransitivity; [apply quietly_tick|]. by apply quietly_aux.
  - split; [by apply inv_silence|]. by apply quietly_aux.
Qed.

Lemma selective_ack_ok s i X T :
  at_rest s X T -> i ∈ sendItems s ->
  exists s', selective_ack s i = Ret s' /\ at_rest s' X T /\ advances s s' /\ calls s' = calls s /\
    map si_key (sendItems s') = map si_key (sendItems s).
Proof.
  intros Hs (L1 & L2 & Es)%list_elem_of_split. unfold selective_ack.
  assert (Hs' : inv s (L1 ++ i :: L2) [] X T) by (unfold at_rest in Hs; by rewrite Es in Hs).
  pose proof (v_keys _ _ _ _ _ Hs') as Hk. pose proof (v_retention _ _ _ _ _ Hs') as Hret. apply app_middle_Forall in Hret as [Hret _].
  destruct (q_remove_ok s L1 i L2 [] X T Hs') as (s1 & -> & H1 & q & b & E1). cbn [gbind].
  assert (H2 : exists s2 c, (if selectiveAcked (si_times i) then Ret (s1, i) else releaseUnreliableFlight s1 i) = Ret (s2, set_carrier i c) /\
            inv s2 (L1 ++ L2) [set_carrier i c] X T /\ quietly s1 s2).
  { destruct (selectiveAcked _); [exists s1, (si_carrier i); destruct i; by split_and!|].
    destruct (releaseUnreliableFlight_ok s1 i _ [] X T H1) as (s2 & c & E2 & H2 & Q2 & _). by exists s2, c. }
  destruct H2 as (s2 & c & -> & H2 & Q2). cbn [gbind]. unfold now.
  set (s3 := tick (tick s2)). set (j := set_times _ _).
  assert (Q3 : quietly s2 s3) by (etransitivity; apply quietly_tick).
  assert (H3 : inv s3 (L1 ++ L2) [j] X T).
  { apply (inv_item s2 _ _ (set_carrier i c)); [done|done|apply H2| |done|done|done]. cbn.
    apply (flight_same _ _ _ (set_carrier i c)); [done|done|apply H2]. }
  assert (K3 : keeps s s3).
  { transitivity s1; [by rewrite E1|]. transitivity s2; by apply quietly_keeps. }
  assert (Hk3 : keys_ok s3 (L1 ++ i :: L2)) by (by apply (keys_keeps s)).
  rewrite (update_item_split s3 L1 i j L2); [|done|rewrite (kp_items _ _ K3); exact Es|done].
  destruct (resend_add_ok s3 (L1 ++ j :: L2) L1 j L2 [] X T H3) as (H4 & q4 & b4 & E4).
  { apply (keys_same _ (L1 ++ i :: L2)); [by rewrite !map_app|done]. }
  { exact Hret. }
  assert (H5 : at_rest (q_add (set_items s3 (L1 ++ j :: L2)) j) X T) by (unfold at_rest; rewrite E4 in *; exact H4).
  destruct (restartRetainedSilence_ok _ _ _ H5) as [H6 Q6]. eexists. split; [done|]. split; [done|].
  split; [|split].
  - transitivity s3; [by apply keeps_advances|]. etransitivity; [|by apply quietly_advances; exact Q6]. by rewrite E4.
  - rewrite (quiet_calls _ _ Q6), E4. transitivity (calls s3); [done|]. rewrite (quiet_calls _ _ Q3), (quiet_calls _ _ Q2). by rewrite E1.
  - rewrite (kp_items _ _ (quietly_keeps _ _ Q6)), E4. cbn [sendItems set_items]. by rewrite Es, !map_app.
Qed.

Lemma queued_elem s X T i : at_rest s X T -> GetByMessageId (resendQueue s) (si_id i) = Some i <-> i ∈ sendItems s.
Proof.
  intros Hs. pose proof (v_wf _ _ _ _ _ Hs) as [[Hw _] _]. unfold GetByMessageId. rewrite (iw_ids _ _ _ _ _ _ Hw).
  fold (queued s). rewrite (v_same _ _ _ _ _ Hs). unfold TransferQueue.MessageId. cbn. tauto.
Qed.
Lemma queued_id s X T id i : at_rest s X T -> GetByMessageId (resendQueue s) id = Some i -> i ∈ sendItems s /\ si_id i = id.
Proof.
  intros Hs. pose proof (v_wf _ _ _ _ _ Hs) as [[Hw _] _]. unfold GetByMessageId. rewrite (iw_ids _ _ _ _ _ _ Hw).
  fold (queued s). rewrite (v_same _ _ _ _ _ Hs). done.
Qed.

Lemma cumulative_ack_ok s i X T :
  at_rest s X T -> i ∈ sendItems s ->
  forall tag, exists s', receiveAck s (si_id i) false tag = Ret s' /\ at_rest s' X T /\ advances s s' /\
    sendItems s' = filter (fun x => si_seq i < si_seq x) (sendItems s) /\
    calls s' = calls s ++ flat_map (fired true) (filter (fun x => si_seq x <= si_seq i) (sendItems s)).
Proof.
  intros Hs Hi tag. unfold receiveAck. rewrite (proj2 (queued_elem s X T i Hs) Hi).
  destruct (observeAckRtt_ok s i tag _ _ _ _ Hs) as (s1 & -> & H1 & Q1). cbn [gbind].
  rewrite (kp_items _ _ (quietly_keeps _ _ Q1)).
  destruct (ack_walk_ok (si_seq i) (sendItems s) s1 [] X T H1) as (s2 & -> & H2 & K2 & L2). cbn [gbind].
  set (l := filter _ _) in H2 |- *. assert (H3 : at_rest (set_items s2 l) X T) by (by apply inv_items).
  destruct (restartRetainedSilence_ok _ _ _ H3) as [H4 Q4]. eexists. split; [done|]. split; [done|]. split.
  - transitivity s1; [by apply quietly_advances|]. transitivity s2; [by apply keeps_advances|].
    etransitivity; [|by apply quietly_advances; exact Q4]. done.
  - split; [by rewrite (kp_items _ _ (quietly_keeps _ _ Q4))|]. rewrite (quiet_calls _ _ Q4). transitivity (calls s2); [done|].
    by rewrite L2, (quiet_calls _ _ Q1).
Qed.

Lemma receiveAck_ok s id selective tag X T :
  at_rest s X T -> exists s', receiveAck s id selective tag = Ret s' /\ at_rest s' X T /\ advances s s'.
Proof.
  intros Hs. destruct (GetByMessageId (resendQueue s) id) as [i|] eqn:Eg; [|unfold receiveAck; rewrite Eg; by exists s].
  destruct (queued_id s X T id i Hs Eg) as [Hi <-]. destruct selective.
  - unfold receiveAck. rewrite Eg. destruct (observeAckRtt_ok s i tag _ _ _ _ Hs) as (s1 & -> & H1 & Q1). cbn [gbind].
    assert (H1' : at_rest s1 X T) by (unfold at_rest; by rewrite (kp_items _ _ (quietly_keeps _ _ Q1))).
    destruct (selective_ack_ok s1 i X T H1') as (s2 & -> & H2 & A2 & _); [by rewrite (kp_items _ _ (quietly_keeps _ _ Q1))|].
    exists s2. split; [done|]. split; [done|]. transitivity s1; [by apply quietly_advances|done].
  - destruct (cumulative_ack_ok s i X T Hs Hi tag) as (s' & E1 & H1 & A1 & _). by exists s'.
Qed.

Lemma apply_acks_ok s h l X T : at_rest s X T -> exists s', apply_acks s h l = Ret s' /\ at_rest s' X T /\ advances s s'.
Proof.
  intros Hs. unfold apply_acks.
  assert (H0 : exists s0, (match h with Some a => receiveAck s (ak_messageId a) false (ak_tag a) | None => Ret s end) = Ret s0 /\
            at_rest s0 X T /\ advances s s0).
  { destruct h as [a|]; [by apply receiveAck_ok|by exists s]. }
  destruct H0 as (s0 & -> & H0 & A0). cbn [gbind].
  assert (Hl : forall s1, at_rest s1 X T -> advances s s1 ->
    exists s', fold_left (fun m '(id, a) => let! s := m in receiveAck s id true (ak_tag a)) l (Ret s1) = Ret s' /\ at_rest s' X T /\ advances s s').
  { induction l as [|[id a] l IH]; intros s1 H1 A1; cbn [fold_left]; [by exists s1|]. cbn [gbind].
    destruct (receiveAck_ok s1 id true (ak_tag a) X T H1) as (s2 & -> & H2 & A2). apply IH; [done|]. by transitivity s1. }
  by apply Hl.
Qed.

(** ** Sending *)

(** The debit of a message of [n] bytes, when there is a contract to charge. *)
Definition paid (cur : option bytes) (n : Z) (X X' : list (bytes * Z)) : Prop :=
  match cur with Some id => X ≡ₚ (id, n) :: X' | None => X = X' end.

Lemma contracts_make s s' i A X X' :
  contracts_ok s A X -> openSendContracts s' = openSendContracts s -> sendContract s' = sendContract s ->
  si_contract i = sendContract s -> paid (sendContract s) (si_bytes i) X X' -> contracts_ok s' (i :: A) X'.
Proof.
  intros [H1 H2 H3 H4 H5] Eo Ec Hi Hp. split; rewrite ?Eo, ?Ec; try done.
  - intros id c Hc. destruct (H1 id c Hc) as (K1 & K2 & K3). split; [done|]. split; [done|]. revert K3. apply account_perm.
    rewrite charges_cons, Hi. unfold paid in Hp. destruct (sendContract s) as [cur|]; [|by subst].
    rewrite (charges_perm A A X _ id (Permutation_refl _) Hp). unfold charges. cbn [flat_map].
    rewrite (bool_decide_ext (cur = id) (Some cur = Some id)) by (split; congruence).
    by rewrite !app_assoc, (Permutation_app_comm (flat_map _ A)).
  - intros j id [->|Hj]%elem_of_cons Hid; [|by apply (H2 j id)]. apply H4. congruence.
  - intros id n Hn. unfold paid in Hp. destruct (sendContract s) as [cur|]; [|subst; by apply (H3 id n)].
    apply (H3 id n). rewrite Hp. by right.
Qed.

Lemma ScaledRtt_ret s : rtt_ok (ss_rtt s) -> exists w v, ScaledRtt s = Ret (tick (set_rtt s w), v) /\ rtt_ok w.
Proof.
  intros Hs. unfold ScaledRtt, scaledRtt. destruct (coalesce_ok (ss_rtt s) (clock (reads s)) Hs) as (w & -> & Hw).
  cbn [gbind]. by eexists w, _.
Qed.

(** The state after an item is made: the item is in hand. *)
Lemma inv_make s s' i ack L M X X' T :
  inv s L M X (cb_tokens (ik_ackCallback (si_key i)) ++ T) -> (S (ss_made s) <= maxItems)%nat ->
  (sendItems s', resendQueue s', ss_pool s', openSendContracts s', sendContract s', retainedByteCount s', ss_made s', ss_flight s') =
  (sendItems s, resendQueue s, ss_pool s, openSendContracts s, sendContract s, retainedByteCount s, S (ss_made s), ss_flight s) ->
  nextSequenceNumber s' = (if ack : bool then nextSequenceNumber s + 1 else nextSequenceNumber s) ->
  (reads s < reads s')%nat -> rtt_ok (ss_rtt s') -> ss_log s' = ss_log s ++ [EvAlloc (si_buffer i); EvSend i ack] ->
  si_ptr i = ss_made s -> (ack = true -> si_seq i = nextSequenceNumber s) -> si_id i = itemId (ss_made s) ->
  si_contract i = sendContract s -> paid (sendContract s) (si_bytes i) X X' ->
  wire_ok i -> retained_of i = 0 -> si_tracked i = false ->
  inv s' L (i :: M) X' T /\ (ack = true -> keys_ok s' (L ++ [i])).
Proof.
  intros Hs Hmade Hrest En Hr Hrtt El Hptr Hseq Hid Hct Hpaid Hw Hret Htr.
  injection Hrest as Ei Eq Ep Eo Ec Eb Em Ef. pose proof Hs as [W S K Wi Rn N Md T1 Nm C [R1 [R2 R3]] Rt F].
  assert (Hn : nextSequenceNumber s <= nextSequenceNumber s' <= nextSequenceNumber s + 1) by (rewrite En; destruct ack; lia).
  assert (K' : keys_ok s' L) by (apply (keys_mono s); [lia|lia|lia|done]).
  split; [split|]; unfold queued; rewrite ?Eq, ?Ep, ?Eb, ?Em, ?Ef; try done.
  - revert Wi. rewrite !Forall_app, Forall_cons_iff. tauto.
  - lia.
  - rewrite El, !flat_map_app, T1. cbn [flat_map gains settles app]. rewrite !flat_map_app. cbn [flat_map]. unfold owns at 5.
    rewrite <- !app_assoc. cbn [app]. solve_Permutation.
  - rewrite El, flat_map_app, Nm, En. cbn [flat_map numbered app]. destruct ack; [|by rewrite app_nil_r].
    rewrite (Hseq eq_refl), (seqZ_app 0 (nextSequenceNumber s) 1) by lia. done.
  - apply (contracts_perm s' (i :: L ++ M) _ X' X'); [apply Permutation_middle|done|]. by apply (contracts_make s s' i (L ++ M) X X').
  - rewrite sum_middle, Hret, Z.add_0_r. split; [done|]. split; [|done]. revert R2. rewrite !Forall_app, Forall_cons_iff, Hret. intuition lia.
  - destruct F as [F1 F2 F3 F4]. split; try done; [|rewrite length_app in *; cbn; lia]. rewrite !sum_middle.
    assert (flight_of i = 0) as -> by (unfold flight_of; by rewrite Htr). pose proof maxFrame_pos.
    assert (0 <= not_head i <= 1) by (unfold not_head; destruct (head _); lia).
    assert (maxFrame * (Z.of_nat (ss_made s) - sumZ (map not_head (L ++ M))) <=
            maxFrame * (Z.of_nat (Datatypes.S (ss_made s)) - (sumZ (map not_head (L ++ M)) + not_head i))) by (apply Z.mul_le_mono_nonneg_l; lia).
    lia.
  - intros ->. specialize (Hseq eq_refl). cbn in En. destruct K as [Y1 Y2 Y3 Y4]. destruct K' as [Z1 Z2 Z3 Z4].
    rewrite List.Forall_forall in Y4. setoid_rewrite <- list_elem_of_In in Y4.
    split; rewrite ?map_app; cbn [map].
    + apply list.NoDup_app. split; [done|]. split; [|by apply list.NoDup_singleton].
      intros p Hp ->%list_elem_of_singleton. apply list_elem_of_fmap in Hp as (x & Ex & Hx). destruct (Y4 x Hx) as (B1 & _). lia.
    + apply list.NoDup_app. split; [done|]. split; [|by apply list.NoDup_singleton].
      intros p Hp ->%list_elem_of_singleton. apply list_elem_of_fmap in Hp as (x & Ex & Hx). destruct (Y4 x Hx) as (_ & _ & k & Hk & Ek).
      assert (itemId k = itemId (ss_made s)) as Hkk by congruence. apply env_ids in Hkk; lia.
    + apply StronglySorted_app_2; [|done|repeat constructor]. intros x y Hx ->%list_elem_of_singleton.
      apply list_elem_of_fmap in Hx as (z & -> & Hz). destruct (Y4 z Hz) as (_ & B2 & _). lia.
    + apply Forall_app. split; [done|]. constructor; [|done]. split; [lia|]. split; [lia|]. exists (ss_made s). split; [lia|done].
Qed.

Lemma current_ok s L M X T :
  inv s L M X T -> match sendContract s with
                   | None => current s = Ret None
                   | Some id => exists c, openSendContracts s !! id = Some c /\ current s = Ret (Some (id, c))
                   end.
Proof.
  intros Hs. unfold current. destruct (sendContract s) as [id|] eqn:Ec; [|done].
  destruct (co_current _ _ _ (v_contracts _ _ _ _ _ Hs) id Ec) as [c Hc]. exists c. by rewrite Hc.
Qed.

(** Everything [make_item] promises of the item it made. *)
Record made_item s s' i (frames : list Frame) (cb : option AckFunction) (forced retain : bool) : Prop := {
  mi_cb : ik_ackCallback (si_key i) = cb;
  mi_forced : ik_forceUnwrapped (si_key i) = forced;
  mi_contract : si_contract i = sendContract s;
  mi_bytes : si_bytes i = frames_MessageByteCount frames;
  mi_charge : retainedCharge (si_retention i) = 0 /\ retainedReleased (si_retention i) = false;
  mi_tracked : si_tracked i = false;
  mi_items : sendItems s' = sendItems s;
  mi_current : sendContract s' = sendContract s;
  mi_made : ss_made s' = S (ss_made s);
  mi_reads : (reads s <= reads s')%nat;
}.

Lemma make_item_ok s frames cb ack sc forced retain L M X X' T :
  inv s L M X (cb_tokens cb ++ T) -> (S (ss_made s) <= maxItems)%nat -> small_frames maxPayload frames ->
  paid (sendContract s) (frames_MessageByteCount frames) X X' ->
  exists s' i ack', make_item s frames cb ack sc forced retain = Ret (s', i, ack') /\ inv s' L (i :: M) X' T /\
    (ack' = true -> keys_ok s' (L ++ [i])) /\ (ack = true -> ack' = true) /\ made_item s s' i frames cb forced retain.
Proof.
  intros Hs Hm Hpay Hpaid. unfold make_item, now. set (s1 := tick s).
  assert (H1 : inv s1 L M X (cb_tokens cb ++ T)) by (by apply inv_tick).
  pose proof (current_ok s1 L M X _ H1) as Hcur. change (sendContract s1) with (sendContract s) in Hcur.
  assert (Hc : exists cur, current s1 = Ret cur /\ option_map fst cur = sendContract s /\ forall id, option_map fst cur = Some id -> isId id).
  { destruct (sendContract s) as [id|]; [destruct Hcur as (c & Hc & ->)|rewrite Hcur; by eexists]. eexists. split; [done|]. split; [done|].
    intros id' [= <-]. apply (co_open _ _ _ (v_contracts _ _ _ _ _ Hs) id c Hc). }
  destruct Hc as (cur & -> & Ecid & Hids). cbn [gbind]. set (ack' := ack || _). set (isHead := ack' && _). set (n := if ack' then _ else 0).
  set (cf := match cur with Some _ => _ | None => None end). set (s2 := if ack' then _ else s1).
  assert (Hcf : cf = None \/ exists c, cf = Some (contractFrameOf c)).
  { unfold cf. destruct cur as [[id c]|]; [|by left]. destruct (isHead || sc); [right; by exists c|by left]. }
  assert (Hnext : 0 <= nextSequenceNumber s <= Z.of_nat (ss_made s)) by apply Hs. pose proof env_items as Hit. change (2 ^ 63) with 9223372036854775808 in Hit.
  assert (E2 : nextSequenceNumber s2 = if ack' then nextSequenceNumber s + 1 else nextSequenceNumber s).
  { unfold s2. destruct ack'; [|done]. cbn. apply u64_small. lia. }
  set (f := fun tag => pack_frame _ _ _ _ _ _ tag _).
  assert (Henc : exists s3 b, encode s2 (clock (reads s)) f = (s3, b) /\ fresh_frame maxPayload b /\ (s3 = s2 \/ s3 = tick s2)).
  { unfold encode, now. destruct (2 <=? _) eqn:Ev; eexists _, _; (split; [done|]); (split; [|tauto]).
    - exists (ss_made s), n, isHead, ack', frames, cf, (openTag (clock (reads s))), (option_map fst cur). split_and!; try done. by rewrite Ev.
    - exists (ss_made s), n, isHead, ack', frames, cf, (openTag (clock (reads s2))), (option_map fst cur). split_and!; try done. by rewrite Ev. }
  destruct Henc as (s3 & b & -> & Hfr & Hs3). pose proof (env_wire b Hfr) as Hb.
  assert (Hsame : forall A (g : SS -> A), (forall x, g (tick x) = g x) -> g s3 = g s2) by (intros A g Hg; destruct Hs3 as [-> | ->]; auto).
  assert (Hr3 : (reads s1 <= reads s3)%nat).
  { destruct Hs3 as [-> | ->]; unfold s2; destruct ack'; cbn; unfold reads; cbn; lia. }
  assert (Hr1 : reads s1 = S (reads s)) by done.
  assert (Hrtt : rtt_ok (ss_rtt s3)).
  { rewrite (Hsame _ ss_rtt) by done. unfold s2. destruct ack'; apply Hs. }
  destruct (ScaledRtt_ret s3 Hrtt) as (w & v & -> & Hw). cbn [gbind].
  eexists _, _, ack'. split; [reflexivity|]. match goal with |- context [inv _ L (?j :: M)] => set (i := j) end.
  assert (Hcore : (sendItems s3, resendQueue s3, ss_pool s3, openSendContracts s3, sendContract s3, retainedByteCount s3, ss_made s3, ss_flight s3, ss_log s3, nextSequenceNumber s3) =
            (sendItems s, resendQueue s, ss_pool s, openSendContracts s, sendContract s, retainedByteCount s, ss_made s, ss_flight s, ss_log s,
             if ack' then nextSequenceNumber s + 1 else nextSequenceNumber s)).
  { rewrite <- E2. destruct Hs3 as [-> | ->]; unfold s2; by destruct ack'. }
  injection Hcore as C1 C2 C3 C4 C5 C6 C7 C8 C9 C10.
  assert (Hcid : si_contract i = sendContract s) by exact Ecid.
  destruct (inv_make s (emit (bump_made (fst (alloc (tick (set_rtt s3 w))))) (EvSend i ack')) i ack' L M X X' T) as [H9 K9]; try done.
  - cbn. unfold ss_flight in *. cbn. by rewrite C1, C2, C3, C4, C5, C6, C7, C8.
  - cbn. unfold reads in *. cbn. lia.
  - cbn. by rewrite C9, <- app_assoc.
  - unfold si_seq. cbn. unfold n. by intros ->.
  - unfold retained_of. cbn. by destruct retain.
  - split; [done|]. split; [done|]. split; [unfold ack'; by intros ->|].
    split; try done; cbn; unfold reads in *; cbn; (congruence || lia).
Qed.

Lemma admit_retained_ok s i L M X T :
  inv s L (i :: M) X T -> retainedCharge (si_retention i) = 0 -> retainedReleased (si_retention i) = false ->
  exists s' r, admit_retained s i = (s', set_retention i r) /\ inv s' L (set_retention i r :: M) X T /\ keeps s s' /\
    retention_ok (set_retention i r).
Proof.
  intros Hs Hz Hrel. unfold admit_retained. destruct (si_retained i) eqn:Hi; cbn [negb].
  2:{ exists s, (si_retention i). split; [by destruct i|]. split; [by destruct i|]. split; [done|]. unfold retention_ok, si_retained in *. cbn. by rewrite Hi. }
  assert (Hwi : wire_ok i) by (pose proof (v_wires _ _ _ _ _ Hs) as Hw; by apply app_middle_Forall in Hw as [Hw _]).
  destruct (wire_bytes i Hwi) as [Ew Hl].
  assert (Hr0 : retained_of i = 0) by (unfold retained_of; rewrite Hz; by destruct (_ && _)).
  destruct (v_retained _ _ _ _ _ Hs) as (R1 & R2 & R3). pose proof env_retain as [Hc0 Hcap].
  assert (Hnn : 0 <= retainedByteCount s).
  { rewrite R1. apply sumZ_map_nonneg. intros x Hx. by apply (proj1 (list.Forall_forall _ _) R2). }
  rewrite i64_small by (unfold MaxInt64 in *; lia).
  destruct (Z.ltb_spec (retainCap (ResendQueueMaxByteCount settings)) (retainedByteCount s + item_MessageByteCount i)) as [Hgt|Hle].
  - eexists _, _. split; [done|]. split; [|split; [by apply quietly_keeps, quietly_event|done]].
    apply (inv_item s _ _ i); [done|by apply quietly_event|apply Hs| |done|done|].
    + apply (flight_same _ _ _ i); [done|done|apply Hs].
    + rewrite Hr0. unfold retained_of, si_retained. by cbn.
  - eexists _, _. split; [done|]. split; [|split; [done|]].
    2:{ intros _. cbn. split; [lia|done]. }
    assert (Hr1 : forall d, retained_of (set_retention i (ItemRetention true (item_MessageByteCount i) (retainedReleased (si_retention i)) d)) = item_MessageByteCount i).
    { intros d. unfold retained_of, si_retained. cbn. by rewrite Hrel. }
    destruct Hs as [W S K Wi Rn N Md T1 Nm C _ Rt F]. split; try done; cbn.
    + by apply (keys_mono s).
    + revert Wi. rewrite !Forall_app, !Forall_cons_iff. done.
    + rewrite flat_map_app in *. done.
    + apply (contracts_same s _ (L ++ i :: M)); [done..|by rewrite !map_app|done].
    + rewrite sum_middle, Hr1. rewrite sum_middle, Hr0 in R1. split; [lia|]. split; [|done].
      revert R2. rewrite !Forall_app, !Forall_cons_iff, Hr1. intuition lia.
    + apply (flight_same _ _ _ i); done.
Qed.

Definition frame_tokens (frame : option (Frame * nat)) : list token := match frame with Some (_, b) => [TokBuf (BufPack b)] | None => [] end.
Definition frame_list (frame : option (Frame * nat)) : list Frame := match frame with Some (f, _) => [f] | None => [] end.

(** A settling event takes its token. *)
Lemma inv_token s e t L M X T :
  gains e = [] -> numbered e = [] -> settles e = [t] -> inv s L M X (t :: T) -> inv (emit s e) L M X T.
Proof.
  intros E1 E2 E3 [W S K Wi Rn N Md T1 Nm C R Rt F]. split; try done; cbn.
  - by apply (keys_mono s).
  - rewrite !flat_map_app, T1. cbn [flat_map]. rewrite E1, E3, !app_nil_r, <- !app_assoc. apply Permutation_app_head.
    rewrite flat_map_app. cbn [app]. solve_Permutation.
  - rewrite flat_map_app, Nm. cbn. by rewrite E2, app_nil_r.
  - by apply (contracts_same s _ (L ++ M) (L ++ M)).
Qed.

(** A debit whose item is gone. *)
Definition lost i (X : list (bytes * Z)) : list (bytes * Z) :=
  match si_contract i with Some id => (id, si_bytes i) :: X | None => X end.

Lemma contracts_lose s i A X : contracts_ok s (i :: A) X -> contracts_ok s A (lost i X).
Proof.
  intros [H1 H2 H3 H4 H5]. split; try done.
  - intros id c Hc. destruct (H1 id c Hc) as (K1 & K2 & K3). split; [done|]. split; [done|]. revert K3. apply account_perm.
    rewrite charges_cons. unfold lost. destruct (si_contract i) as [cur|]; [|done]. unfold charges. cbn [flat_map].
    rewrite (bool_decide_ext (cur = id) (Some cur = Some id)) by (split; congruence).
    by rewrite !app_assoc, (Permutation_app_comm (flat_map _ A)).
  - intros j id Hj. apply (H2 j id). by right.
  - intros id n. unfold lost. destruct (si_contract i) as [cur|] eqn:Ei; [|apply H3].
    intros [[= -> ->]|Hn]%elem_of_cons; [|by apply (H3 id n)]. apply (H2 i cur); [by left|done].
Qed.

Lemma reliableOnlyWriteNow_ok s L M X T :
  inv s L M X T -> inv (fst (reliableOnlyWriteNow s)) L M X T /\ quietly s (fst (reliableOnlyWriteNow s)).
Proof.
  intros Hs. unfold reliableOnlyWriteNow, transferFlightPolicy. destruct (negb _); [done|]. cbn. split; [by apply inv_tick|apply quietly_tick].
Qed.

(** A message is sent: it waits for its ack, or is settled at once. *)
Lemma sendWithSetContract_ok s frame cb ack sc forced retain X X' T :
  at_rest s X (cb_tokens cb ++ frame_tokens frame ++ T) -> (S (ss_made s) <= maxItems)%nat ->
  small_frames maxPayload (frame_list frame) ->
  paid (sendContract s) (frames_MessageByteCount (frame_list frame)) X X' ->
  exists s' X'', sendWithSetContract s frame cb ack sc forced retain = Ret s' /\ at_rest s' X'' T /\
    ss_made s' = S (ss_made s) /\ (reads s <= reads s')%nat /\ sendContract s' = sendContract s /\ (ack = true -> X'' = X').
Proof.
  intros Hs Hm Hpay Hpaid. unfold sendWithSetContract. fold (frame_list frame).
  destruct (make_item_ok s (frame_list frame) cb ack sc forced retain (sendItems s) [] X X' (frame_tokens frame ++ T) Hs Hm Hpay Hpaid)
    as (s1 & i & ack' & -> & H1 & K1 & Hack & [M1 M2 M3 M4 [M5 M6] M7 M8 M9 M10 M11]). cbn [gbind].
  destruct (reliableOnlyWriteNow_ok s1 _ _ _ _ H1) as [H2 Q2]. destruct (reliableOnlyWriteNow s1) as [s2 ro]. cbn [fst] in *.
  destruct (writeMaybeWrappedBytes_ok s2 (transferFrameBytes (si_wire i)) forced ro _ _ _ _ H2) as [H3 Q3].
  destruct (writeMaybeWrappedBytes s2 _ forced ro) as [s3 [d ok]]. cbn [fst] in *.
  assert (Q13 : quietly s1 s3) by (by transitivity s2).
  set (w := if ok then observeCarrierWrite _ i d else (s3, i)).
  assert (H4 : exists s4 c, w = (s4, set_carrier i c) /\ inv s4 (sendItems s) [set_carrier i c] X' (frame_tokens frame ++ T) /\ quietly s1 s4 /\
            (ok = false -> c = si_carrier i)).
  { unfold w. destruct ok.
    - destruct (observeCarrierWrite_ok (emit s3 (EvFirstSend (wire_len i))) i d (sendItems s) [] X' (frame_tokens frame ++ T)) as (s4 & c & -> & H4 & Q4);
        [by apply inv_emit|]. exists s4, c. split; [done|]. split; [done|]. split; [|done].
      transitivity s3; [done|]. etransitivity; [|exact Q4]. by apply quietly_event.
    - exists s3, (si_carrier i). destruct i; by split_and!. }
  destruct H4 as (s4 & c & -> & H4 & Q4 & Hc). pose proof (quietly_keeps _ _ Q4) as [P1 P2 P3 P4 P5]. set (j := set_carrier i c) in *.
  assert (Hbody : exists s5 X'', (if ack' then let '(s, i) := admit_retained s4 j in Ret (q_add (set_items s (sendItems s ++ [i])) i)
              else if ok then ackItemCounted s4 j false else Ret (messagePoolReturn (safeAck s4 cb false) j)) = Ret s5 /\
            inv s5 (sendItems s5) [] X'' (frame_tokens frame ++ T) /\ ss_made s5 = ss_made s4 /\ (reads s4 <= reads s5)%nat /\
            sendContract s5 = sendContract s4 /\ (ack = true -> X'' = X')).
  { destruct ack'.
    - destruct (admit_retained_ok s4 j (sendItems s) [] X' _ H4 M5 M6) as (s5 & r & -> & H5 & [N1 N2 N3 N4 N5] & Hr5).
      eexists _, X'. split; [done|]. set (k := set_retention j r) in *.
      destruct (resend_add_ok s5 (sendItems s5 ++ [k]) (sendItems s) k [] [] X' (frame_tokens frame ++ T)) as (H6 & q & b & E6).
      + by rewrite app_nil_r.
      + apply (keys_same s5 (sendItems s ++ [i])); [by rewrite !map_app|]. apply (keys_keeps s4); [done|]. apply (keys_keeps s1); [done|]. by apply K1.
      + done.
      + rewrite E6 in *. cbn [sendItems set_items]. rewrite N1, P1, M8 in *. split; [exact H6|]. done.
    - assert (Hr : retained_of j = 0) by (unfold retained_of; cbn; rewrite M5; by destruct (_ && _)). destruct ok.
      + destruct (ackItemCounted_ok s4 j false _ _ _ _ H4 Hr) as (s5 & E5 & H5 & [N1 N2 N3 N4 N5] & _). exists s5, X'. split; [done|].
        rewrite N1, P1, M8. done.
      + eexists _, (lost j X'). split; [done|]. rewrite <- M1. change (ik_ackCallback (si_key i)) with (ik_ackCallback (si_key j)).
        destruct (inv_settle s4 s4 j false (sendItems s) [] X' (lost j X') (frame_tokens frame ++ T)) as (H5 & [N1 N2 N3 N4 N5] & _); try done.
        * apply contracts_lose, contracts_head. apply H4.
        * unfold j. by rewrite (Hc eq_refl).
        * rewrite N1, P1, M8. split; [done|]. split; [done|]. split; [done|]. split; [done|]. intros Ha. by specialize (Hack Ha). }
  destruct Hbody as (s5 & X'' & -> & H5 & B1 & B2 & B3 & B4). cbn [gbind].
  eexists _, X''. split; [done|]. unfold frame_tokens in H5. destruct frame as [[f b]|]; cbn [app] in *.
  - split; [by apply (inv_token s5 _ (TokBuf (BufPack b)))|]. cbn. split; [congruence|]. split; [unfold reads in *; cbn; lia|]. split; [congruence|done].
  - split; [done|]. split; [congruence|]. split; [lia|]. split; [congruence|done].
Qed.

(** ** Opening contracts *)

(** New books for the same items. *)
Lemma inv_contracts s s' L M X X' T l :
  inv s L M X T ->
  (nextSequenceNumber s', sendItems s', resendQueue s', ss_pool s', retainedByteCount s', ss_made s', ss_aux s') =
  (nextSequenceNumber s, sendItems s, resendQueue s, ss_pool s, retainedByteCount s, ss_made s, ss_aux s) ->
  ss_log s' = ss_log s ++ l -> Forall (fun e => quiet e = true) l -> contracts_ok s' (L ++ M) X' -> inv s' L M X' T.
Proof.
  intros [W S K Wi Rn N Md T1 Nm C R Rt F] Hrest El Hl Hc. injection Hrest as En Ei Eq Ep Eb Em Ea.
  assert (Hf : forall A (f : event -> list A), (forall e, quiet e = true -> f e = []) -> flat_map f (ss_log s') = flat_map f (ss_log s)).
  { intros A f Hf. rewrite El, flat_map_app. replace (flat_map f l) with (@nil A); [by rewrite app_nil_r|].
    clear El. induction Hl as [|e l He Hl IH]; [done|]. cbn. by rewrite (Hf e He), <- IH. }
  split; unfold queued, ss_rtt, ss_flight; rewrite ?En, ?Eq, ?Ep, ?Eb, ?Em, ?Ea; try done.
  - apply (keys_mono s); [lia|lia|unfold reads; by rewrite Ea|done].
  - rewrite (Hf _ gains), (Hf _ settles); [done|..]; intros e He; apply (quiet_events e He).
  - rewrite (Hf _ numbered); [done|]. intros e He. apply (quiet_events e He).
Qed.

(** A debit the current contract admits. *)
Lemma contracts_debit s s' id c c' n A X :
  contracts_ok s A X -> openSendContracts s !! id = Some c -> contractId c' = contractId c -> minUpdateByteCount c' = minUpdateByteCount c ->
  account_ok (Account c' (charges A X id ++ [n]) (ackedByteCount c')) ->
  openSendContracts s' = <[id := c']> (openSendContracts s) -> sendContract s' = sendContract s ->
  contracts_ok s' A ((id, n) :: X).
Proof.
  intros [H1 H2 H3 H4 H5] Hc E1 E2 Ha Eo Ec. destruct (H1 id c Hc) as (K1 & K2 & _).
  assert (Hsome : forall j, is_Some (openSendContracts s !! j) -> is_Some (openSendContracts s' !! j)).
  { intros j Hj. rewrite Eo. destruct (decide (j = id)) as [->|]; [rewrite lookup_insert_eq; eauto|by rewrite lookup_insert_ne]. }
  split.
  - intros j d. rewrite Eo. unfold charges. cbn [flat_map]. destruct (decide (j = id)) as [->|Hne].
    + rewrite lookup_insert_eq. intros [= <-]. split; [by rewrite E1|]. split; [congruence|]. rewrite bool_decide_eq_true_2 by done.
      revert Ha. apply account_perm. unfold charges. rewrite <- app_assoc. apply Permutation_app_head, Permutation_app_comm.
    + rewrite lookup_insert_ne by done. rewrite bool_decide_eq_false_2 by done. apply H1.
  - intros j d Hj Hd. apply Hsome. by apply (H2 j d).
  - intros j m [[= -> ->]|Hj]%elem_of_cons; [rewrite Eo, lookup_insert_eq; eauto|]. apply Hsome. by apply (H3 j m).
  - intros j Hj. apply Hsome. rewrite Ec in Hj. by apply H4.
  - intros Hn. specialize (H5 Hn). rewrite H5 in Hc. by rewrite lookup_empty in Hc.
Qed.

(** What a debit does to an account, whether it is admitted or not. *)
Lemma update_account c l k n t :
  account_ok (Account c l k) -> 0 <= n < 2 ^ 62 ->
  let r := update c t n in
  account_ok (Account (fst r) (if snd r then l ++ [n] else l) k) /\ contractId (fst r) = contractId c /\
  minUpdateByteCount (fst r) = minUpdateByteCount c /\ ackedByteCount (fst r) = ackedByteCount c /\ localId (fst r) = localId c /\
  (snd r = false -> fst r = c).
Proof.
  intros Ha Hn r. destruct (contract_step_ok _ (CUpdate t n) Ha Hn) as (a' & E1 & H1 & _). cbn [contract_step ac_contract ac_open ac_acked] in E1.
  unfold r. destruct (update c t n) as [c' ok] eqn:Eu. injection E1 as <-. split; [done|]. unfold update in Eu.
  destruct (expired c t); [by injection Eu as <- <-|]. destruct (_ <? _); by injection Eu as <- <-.
Qed.

Lemma contracts_open s s' next n m A X :
  contracts_ok s A X -> isId (contractId next) -> openSendContracts s !! contractId next = None -> minUpdateByteCount next = MinMessageByteCount settings ->
  account_ok (Account next [n; m] (ackedByteCount next)) -> (exists k, SendNoContract k = false) ->
  sendContract s' = Some (contractId next) ->
  (openSendContracts s' = <[contractId next := next]> (openSendContracts s) \/
   exists id c, openSendContracts s !! id = Some c /\ unackedByteCount c = 0 /\
     openSendContracts s' = <[contractId next := next]> (delete id (openSendContracts s))) ->
  contracts_ok s' A ((contractId next, n) :: (contractId next, m) :: X).
Proof.
  intros [H1 H2 H3 H4 H5] Hnid Hnone Hmin Ha [kk Hk] Ec Ho.
  set (nid := contractId next) in *.
  assert (Hold : forall j d, j <> nid -> openSendContracts s' !! j = Some d -> openSendContracts s !! j = Some d).
  { intros j d Hj. destruct Ho as [->|(id & c & _ & _ & ->)]; rewrite lookup_insert_ne by done; [done|]. intros Hd. by apply lookup_delete_Some in Hd as [_ Hd]. }
  assert (Hnew : openSendContracts s' !! nid = Some next) by (destruct Ho as [->|(id & c & _ & _ & ->)]; apply lookup_insert_eq).
  assert (Hkeep : forall j, is_Some (openSendContracts s !! j) -> charges A X j <> [] -> is_Some (openSendContracts s' !! j)).
  { intros j [d Hd] Hch. destruct (decide (j = nid)) as [->|Hne]; [eauto|].
    destruct Ho as [->|(id & c & Hc & Hu & ->)]; rewrite lookup_insert_ne by done; [eauto|].
    destruct (decide (j = id)) as [->|Hji]; [|rewrite lookup_delete_ne by done; eauto]. destruct (H1 id c Hc) as (_ & J2 & J3).
    by destruct (Hch (account_empty _ _ _ J2 J3 Hu)). }
  assert (Hin1 : forall i j, i ∈ A -> si_contract i = Some j -> si_bytes i ∈ charges A X j).
  { intros i j Hi Hj. unfold charges. apply list.elem_of_app. left. apply list_elem_of_In, in_flat_map. exists i. split; [by apply list_elem_of_In|].
    rewrite bool_decide_eq_true_2 by done. by left. }
  assert (Hin2 : forall j k, (j, k) ∈ X -> k ∈ charges A X j).
  { intros j k Hj. unfold charges. apply list.elem_of_app. right. apply list_elem_of_In, in_flat_map. exists (j, k). split; [by apply list_elem_of_In|].
    rewrite bool_decide_eq_true_2 by done. by left. }
  assert (Hemp : charges A X nid = []).
  { destruct (charges A X nid) as [|x l] eqn:Ech; [done|]. exfalso. assert (Hx : x ∈ charges A X nid) by (rewrite Ech; by left).
    unfold charges in Hx. apply list.elem_of_app in Hx as [Hx|Hx]; apply list_elem_of_In, in_flat_map in Hx.
    - destruct Hx as (i & Hi & Hx). case_bool_decide as Hc; [|done]. destruct (H2 i nid) as [d Hd]; [by apply list_elem_of_In|done|congruence].
    - destruct Hx as ([j k] & Hj & Hx). case_bool_decide as Hc; [|done]. subst j. destruct (H3 nid k) as [d Hd]; [by apply list_elem_of_In|congruence]. }
  split.
  - intros j d Hd. destruct (decide (j = nid)) as [->|Hne].
    + rewrite Hnew in Hd. injection Hd as <-. split; [done|]. split; [done|]. revert Ha. apply account_perm. unfold charges in *. cbn [flat_map].
      apply app_eq_nil in Hemp as [-> Hx]. rewrite Hx. cbn. by rewrite !bool_decide_eq_true_2.
    + apply (Hold j d Hne) in Hd. destruct (H1 j d Hd) as (J1 & J2 & J3). split; [done|]. split; [done|]. unfold charges in *. cbn [flat_map].
      by rewrite !bool_decide_eq_false_2 by done.
  - intros i j Hi Hj. apply Hkeep; [by apply (H2 i j)|]. intros Hz. pose proof (Hin1 i j Hi Hj) as Hx. rewrite Hz in Hx. by apply not_elem_of_nil in Hx.
  - intros j k. rewrite !elem_of_cons. intros [[= -> ->]|[[= -> ->]|Hj]]; [eauto..|]. apply Hkeep; [by apply (H3 j k)|].
    intros Hz. pose proof (Hin2 j k Hj) as Hx. rewrite Hz in Hx. by apply not_elem_of_nil in Hx.
  - intros j. rewrite Ec. intros [= <-]. eauto.
  - intros Hn. specialize (Hn kk). congruence.
Qed.

Lemma send_setContract_ok s next n m L X T :
  inv s L [] X T -> isId (contractId next) -> openSendContracts s !! contractId next = None -> minUpdateByteCount next = MinMessageByteCount settings ->
  account_ok (Account next [n; m] (ackedByteCount next)) -> (exists k, SendNoContract k = false) ->
  exists s', setContract s next = Ret s' /\ inv s' L [] ((contractId next, n) :: (contractId next, m) :: X) T /\
    sendContract s' = Some (contractId next) /\ sendItems s' = sendItems s /\ ss_made s' = ss_made s /\ reads s' = reads s.
Proof.
  intros Hs Hnid Hnone Hmin Ha Hk. unfold setContract. pose proof (current_ok s _ _ _ _ Hs) as Hcur. pose proof (v_contracts _ _ _ _ _ Hs) as Hco.
  destruct (sendContract s) as [cur|] eqn:Ecur.
  - destruct Hcur as (c & Hc & ->). cbn [gbind]. destruct (co_open _ _ _ Hco cur c Hc) as (K1 & K2 & K3).
    destruct (Z.eqb_spec (unackedByteCount c) 0) as [Hu|Hu].
    + eexists. split; [done|]. split; [|done].
      eapply (inv_contracts s _ L [] X); [done|done|cbn; by rewrite <- app_assoc|by repeat constructor|].
      apply (contracts_open s); try done. right. exists cur, c. cbn. by rewrite (proj1 K1).
    + eexists. split; [done|]. split; [|done]. eapply (inv_contracts s _ L [] X); [done|done|done|by repeat constructor|].
      apply (contracts_open s); try done. by left.
  - rewrite Hcur. cbn [gbind]. eexists. split; [done|]. split; [|done]. eapply (inv_contracts s _ L [] X); [done|done|done|by repeat constructor|].
    apply (contracts_open s); try done. by left.
Qed.

Lemma new_contract ct min fill lid c :
  newSequenceContract unmarshalStored ct min fill lid = inl c ->
  minUpdateByteCount c = min /\ ackedByteCount c = 0 /\ unackedByteCount c = 0.
Proof.
  unfold newSequenceContract. destruct (unmarshalStored _); [|done]. destruct (IdFromBytes _); [|done].
  destruct (TransferPathFromBytes _ _ _); [|done]. by intros [= <-].
Qed.

Lemma contract_id_ok ct min fill lid c :
  newSequenceContract unmarshalStored ct min fill lid = inl c -> isId (contractId c).
Proof.
  unfold newSequenceContract. destruct (unmarshalStored _) as [st|] eqn:Es; [|done]. unfold IdFromBytes at 1.
  destruct (Nat.eqb_spec (length (st_ContractId st)) 16) as [El|]; [|done].
  destruct (TransferPathFromBytes _ _ _); [|done]. intros [= <-]. split; [done|]. by eapply env_stored.
Qed.

(** The two debits a contract is opened with. *)
Lemma opening_debits c t1 t2 n :
  minUpdateByteCount c = MinMessageByteCount settings -> ackedByteCount c = 0 -> unackedByteCount c = 0 ->
  effectiveTransferByteCount c < 2 ^ 62 -> 0 <= n < 2 ^ 62 -> snd (update c t1 0) = true -> snd (update (fst (update c t1 0)) t2 n) = true ->
  let c' := fst (update (fst (update c t1 0)) t2 n) in
  account_ok (Account c' [0; n] (ackedByteCount c')) /\ contractId c' = contractId c /\ minUpdateByteCount c' = MinMessageByteCount settings.
Proof.
  intros Hm Ha Hu Hsz Hn H1 H2. pose proof env_min as Hmin.
  assert (H0 : account_ok (Account c [] 0)).
  { assert (0 <= effectiveTransferByteCount c).
    { unfold update in H1. destruct (expired c t1); [done|]. rewrite Ha, Hu in H1. cbn in H1. unfold effective in H1.
      destruct (Z.ltb_spec (effectiveTransferByteCount c) (i64 (i64 (0 + 0) + Z.max (minUpdateByteCount c) 0))) as [|Hge]; [done|].
      change (2 ^ 62) with 4611686018427387904 in *. rewrite (i64_small (0 + 0)) in Hge by (unfold MaxInt64; lia). rewrite i64_small in Hge by (unfold MaxInt64; lia). lia. }
    split; cbn; try done; try lia. }
  destruct (update_account c [] 0 0 t1 H0 ltac:(done)) as (A1 & A2 & A3 & A4 & _). rewrite H1 in A1. set (c1 := fst (update c t1 0)) in *.
  destruct (update_account c1 [0] 0 n t2 A1 Hn) as (B1 & B2 & B3 & B4 & _). rewrite H2 in B1. cbn zeta.
  split; [|split; congruence]. rewrite B4, A4, Ha. exact B1.
Qed.

Lemma setNextContract_ok s ct n X T :
  at_rest s X T -> 0 <= n <= maxPayload -> (S (ss_made s) <= maxItems)%nat -> (exists k, SendNoContract k = false) ->
  exists s' ok, setNextContract s ct n = Ret (s', ok) /\ (reads s <= reads s')%nat /\
    if ok then exists id, at_rest s' ((id, n) :: X) T /\ sendContract s' = Some id /\ ss_made s' = S (ss_made s)
    else at_rest s' X T /\ ss_made s' = ss_made s.
Proof.
  intros Hs Hn Hm Hk. unfold setNextContract. destruct (contractFillFraction_ok s _ _ _ _ Hs) as (s1 & v & -> & Hv & H1 & Q1). cbn [gbind].
  pose proof (quietly_keeps _ _ Q1) as [K1 K2 K3 K4 K5].
  assert (R1 : at_rest s1 X T) by (unfold at_rest; by rewrite K1). clear H1 Q1 Hs.
  pose proof (fun c => env_contract ct v (newId (reads s1)) c Hv) as Henv.
  destruct (newSequenceContract _ _ _ _ _) as [next|err] eqn:Enew.
  2:{ eexists _, false. split; [done|]. split; [unfold reads in *; cbn; lia|]. split; [by apply inv_tick|done]. }
  specialize (Henv next eq_refl). destruct (new_contract _ _ _ _ _ Enew) as (N1 & N2 & N3). pose proof (contract_id_ok _ _ _ _ _ Enew) as Nid.
  set (s2 := tick s1). assert (R2 : at_rest s2 X T) by (by apply inv_tick).
  case_bool_decide as Hopen.
  { eexists _, false. split; [done|]. split; [unfold reads in *; cbn; lia|]. done. }
  destruct (expired next (now_ms s2)).
  { eexists _, false. split; [done|]. split; [unfold reads in *; cbn; lia|]. split; [by apply inv_emit, inv_tick|done]. }
  set (s3 := tick s2). assert (R3 : at_rest s3 X T) by (by apply inv_tick).
  pose proof (opening_debits next (now_ms s3) (now_ms (tick s3)) n N1 N2 N3 Henv) as Hdeb.
  destruct (update next (now_ms s3) 0) as [next1 ok1] eqn:E1. cbn [fst snd] in Hdeb.
  set (s4 := tick (tick s3)). assert (R4 : at_rest s4 X T) by (by apply inv_tick, inv_tick).
  destruct ok1; cbn [negb]. 2:{ eexists _, false. split; [done|]. split; [unfold reads in *; cbn; lia|]. split; [by apply inv_emit|done]. }
  destruct (update next1 (now_ms (tick s3)) n) as [next2 ok2] eqn:E2. cbn [fst snd] in Hdeb.
  destruct ok2. 2:{ eexists _, false. split; [done|]. split; [unfold reads in *; cbn; lia|]. split; [by apply inv_emit|done]. }
  destruct Hdeb as (D1 & D2 & D3); [pose proof env_payload; lia|done|done|].
  destruct (send_setContract_ok s4 next2 0 n _ X T R4) as (s5 & E5 & H5 & C5 & I5 & M5 & Rd5); [by rewrite D2| |done|done|done|].
  { rewrite D2. destruct (openSendContracts s4 !! contractId next) as [c|] eqn:Ec; [|done]. destruct Hopen. exists c. exact Ec. }
  fold s4. rewrite E5. cbn [gbind]. set (forced := match session with Some _ => _ | None => false end).
  assert (R5 : at_rest (tick s5) ((contractId next2, 0) :: (contractId next2, n) :: X) (cb_tokens (Some (CbContractOpen (localId next2))) ++ frame_tokens None ++ T)).
  { unfold at_rest. apply inv_tick. cbn. by rewrite I5. }
  destruct (sendWithSetContract_ok (tick s5) None (Some (CbContractOpen (localId next2))) true true forced false _ ((contractId next2, n) :: X) T R5)
    as (s6 & X'' & -> & H6 & M6 & Rd6 & C6 & HX).
  { change (ss_made (tick s5)) with (ss_made s5). rewrite M5. change (ss_made s4) with (ss_made s1). lia. }
  { split; [cbn; lia|constructor]. }
  { unfold paid. change (sendContract (tick s5)) with (sendContract s5). by rewrite C5. }
  cbn [gbind]. rewrite (HX eq_refl) in H6. eexists _, true. split; [done|]. split.
  { change (reads (tick s5)) with (S (reads s5)) in Rd6. rewrite Rd5 in Rd6. change (reads s4) with (S (S (S (S (reads s1))))) in Rd6. lia. }
  exists (contractId next2). split; [done|]. split; [by rewrite C6|]. rewrite M6. change (ss_made (tick s5)) with (ss_made s5). rewrite M5.
  change (ss_made s4) with (ss_made s1). congruence.
Qed.

Lemma createContract_ok s n X T : at_rest s X T -> exists s', createContract s n = Ret s' /\ at_rest s' X T /\ keeps s s'.
Proof.
  intros Hs. unfold createContract. destruct (contractFillFraction_ok s _ _ _ _ Hs) as (s1 & v & -> & Hv & H1 & Q1). cbn [gbind].
  eexists. split; [done|]. assert (Q : quietly s (emit s1 (EvCreateContract (contractSeqIndex (ss_aux s1))
    (contractRequest n (computeFillFraction v (ContractFillFraction settings)))))) by (etransitivity; [exact Q1|by apply quietly_event]).
  split; [|by apply quietly_keeps]. unfold at_rest. rewrite (kp_items _ _ (quietly_keeps _ _ Q)). by apply inv_emit.
Qed.

(** The outcome of an attempt at a contract. *)
Definition contract_outcome s s' (ok : bool) (n : Z) (X : list (bytes * Z)) (T : list token) : Prop :=
  (reads s <= reads s')%nat /\
  if ok then exists id, at_rest s' ((id, n) :: X) T /\ sendContract s' = Some id /\ ss_made s' = S (ss_made s)
  else at_rest s' X T /\ ss_made s' = ss_made s.

Lemma nextContract_ok s ct n X T :
  at_rest s X T -> 0 <= n <= maxPayload -> (S (ss_made s) <= maxItems)%nat -> (exists k, SendNoContract k = false) ->
  exists s' ok, nextContract s ct n = Ret (s', ok) /\ contract_outcome s s' ok n X T.
Proof.
  intros Hs Hn Hm Hk. unfold nextContract. destruct ct as [ct|]; [|by exists s, false].
  destruct (setNextContract_ok s ct n X T Hs Hn Hm Hk) as (s1 & ok & -> & Hr & Ho). cbn [gbind]. destruct ok; [|by exists s1, false].
  destruct Ho as (id & H1 & C1 & M1). assert (H1' : at_rest (bump_index s1) ((id, n) :: X) T) by (by apply inv_index).
  destruct (createContract_ok (bump_index s1) (i64 (n + MinMessageByteCount settings)) _ _ H1') as (s2 & -> & H2 & [J1 J2 J3 J4 J5]). cbn [gbind].
  exists s2, true. split; [done|]. change (reads (bump_index s1)) with (reads s1) in J5. split; [lia|]. exists id. split; [done|].
  split; [by rewrite J4|by rewrite J3].
Qed.

Lemma contract_loop_ok l s n X T :
  at_rest s X T -> 0 <= n <= maxPayload -> (S (ss_made s) <= maxItems)%nat -> (exists k, SendNoContract k = false) ->
  exists s' ok, contract_loop s n l = Ret (s', ok) /\ contract_outcome s s' ok n X T.
Proof.
  intros Hs Hn Hm Hk. revert s Hs Hm. induction l as [|a l IH]; intros s Hs Hm; cbn [contract_loop]; [by exists s, false|].
  assert (H0 : exists s0, (if at_degraded a then Ret s else createContract s (i64 (i64 (n + n) + MinMessageByteCount settings))) = Ret s0 /\ at_rest s0 X T /\ keeps s s0).
  { destruct (at_degraded a); [by exists s|by apply createContract_ok]. }
  destruct H0 as (s0 & -> & H0 & [J1 J2 J3 J4 J5]). cbn [gbind].
  destruct (nextContract_ok s0 (at_contract a) n X T H0 Hn) as (s1 & ok & -> & Hr & Ho); [lia|done|]. cbn [gbind]. destruct ok.
  - exists s1, true. split; [done|]. split; [lia|]. destruct Ho as (id & H1 & C1 & M1). exists id. by rewrite M1, J3.
  - destruct Ho as [H1 M1]. destruct (IH s1 H1) as (s2 & ok & -> & Hr2 & Ho2); [lia|]. exists s2, ok. split; [done|]. split; [lia|].
    destruct ok; [|by rewrite <- J3, <- M1]. destruct Ho2 as (id & H2 & C2 & M2). exists id. split; [done|]. split; [done|]. congruence.
Qed.

(** A contract to charge is found, or none; a debit on the current contract needs
    no new item. *)
Lemma send_updateContract_ok s n l X T :
  at_rest s X T -> 0 <= n <= maxPayload -> (S (ss_made s) <= maxItems)%nat ->
  exists s' ok, updateContract s n l = Ret (s', ok) /\ (reads s <= reads s')%nat /\ (ss_made s <= ss_made s' <= S (ss_made s))%nat /\
    if ok then exists X', at_rest s' X' T /\ paid (sendContract s') n X' X else at_rest s' X T.
Proof.
  intros Hs Hn Hm. unfold updateContract. set (s1 := tick s). assert (H1 : at_rest s1 X T) by (by apply inv_tick).
  assert (Hr1 : (reads s <= reads s1)%nat) by (unfold reads; cbn; lia). change (ss_made s) with (ss_made s1) in *.
  destruct (SendNoContract (reads s)) eqn:Eno.
  { exists s1, true. split; [done|]. split; [done|]. split; [lia|]. exists X. split; [done|]. unfold paid.
    assert (Hall : forall k, SendNoContract k = true) by (destruct env_needs as [Hy|Hy]; [done|specialize (Hy (reads s)); congruence]).
    pose proof (v_contracts _ _ _ _ _ H1) as Hco. destruct (sendContract s1) as [id|] eqn:Ec; [|done].
    destruct (co_current _ _ _ Hco id Ec) as [c Hc]. rewrite (co_needless _ _ _ Hco Hall), lookup_empty in Hc. done. }
  assert (Hk : exists k, SendNoContract k = false) by eauto. clearbody s1. clear Hs.
  assert (Hpanic : forall k v, - 9223372036854775808 <= v <= MaxInt64 -> int64_of_float32 (float32_mul (float32_of_Z (StandardContractTransferByteCount k)) (computeFillFraction v (ContractFillFraction settings))) <?
                    i64 (n + MinMessageByteCount settings) = false).
  { intros k v Hv. apply Z.ltb_ge. pose proof (env_standard k v Hv). pose proof env_min. pose proof env_payload. change (2 ^ 62) with 4611686018427387904 in *.
    rewrite i64_small by (unfold MaxInt64; lia). lia. }
  assert (Hrest : forall s2 (cur : option (bytes * sequenceContract)), at_rest s2 X T -> ss_made s2 = ss_made s1 -> (reads s <= reads s2)%nat ->
    exists s' ok, (let standard := StandardContractTransferByteCount (reads s2) in
      let! '(s, fill) := contractFillFraction s2 in
      if int64_of_float32 (float32_mul (float32_of_Z standard) fill) <? i64 (n + MinMessageByteCount settings) then Panic
      else match cur, l with
        | None, _ => contract_loop s n l
        | Some _, [] => Ret (s, false)
        | Some _, a :: l =>
            let! '(s, ok) := nextContract s (at_contract a) n in if ok then Ret (s, true) else contract_loop s n l
        end) = Ret (s', ok) /\ (reads s <= reads s')%nat /\ (ss_made s1 <= ss_made s' <= S (ss_made s1))%nat /\
      if ok then exists X', at_rest s' X' T /\ paid (sendContract s') n X' X else at_rest s' X T).
  { intros s2 cur H2 M2 Hr2. cbn zeta. destruct (contractFillFraction_ok s2 _ _ _ _ H2) as (s3 & v & -> & Hv & H3 & Q3). cbn [gbind]. rewrite (Hpanic _ _ Hv).
    pose proof (quietly_keeps _ _ Q3) as [K1 K2 K3 K4 K5]. assert (R3 : at_rest s3 X T) by (unfold at_rest; by rewrite K1).
    assert (Hout : forall s4 s' ok, at_rest s4 X T -> ss_made s4 = ss_made s1 -> (reads s <= reads s4)%nat -> contract_outcome s4 s' ok n X T ->
      (reads s <= reads s')%nat /\ (ss_made s1 <= ss_made s' <= S (ss_made s1))%nat /\
      if ok then exists X', at_rest s' X' T /\ paid (sendContract s') n X' X else at_rest s' X T).
    { intros s4 s' ok _ E4 Hr4 [Hr5 Ho]. split; [lia|]. destruct ok.
      - destruct Ho as (id & H5 & C5 & M5). split; [lia|]. exists ((id, n) :: X). split; [done|]. unfold paid. by rewrite C5.
      - destruct Ho as [H5 M5]. split; [lia|done]. }
    assert (Hl : forall l s4, at_rest s4 X T -> ss_made s4 = ss_made s1 -> (reads s <= reads s4)%nat -> exists s' ok, contract_loop s4 n l = Ret (s', ok) /\
      (reads s <= reads s')%nat /\ (ss_made s1 <= ss_made s' <= S (ss_made s1))%nat /\
      if ok then exists X', at_rest s' X' T /\ paid (sendContract s') n X' X else at_rest s' X T).
    { intros l0 s4 H4 E4 Hr4. destruct (contract_loop_ok l0 s4 n X T H4 Hn) as (s' & ok & -> & Ho); [lia|done|]. exists s', ok. split; [done|].
      by apply (Hout s4). }
    destruct cur as [c|]; [|apply Hl; [done|congruence|lia]]. destruct l as [|a l0].
    - exists s3, false. split; [done|]. split; [lia|]. split; [lia|done].
    - destruct (nextContract_ok s3 (at_contract a) n X T R3 Hn) as (s4 & ok & -> & Ho); [lia|done|]. cbn [gbind]. destruct ok.
      + exists s4, true. split; [done|]. by apply (Hout s3 s4 true R3); [congruence|lia|].
      + destruct Ho as [Hr5 [H5 M5]]. apply Hl; [done|congruence|lia]. }
  pose proof (current_ok s1 _ _ _ _ H1) as Hcur. destruct (sendContract s1) as [id|] eqn:Ecur.
  2:{ rewrite Hcur. cbn [gbind]. exact (Hrest s1 None H1 eq_refl Hr1). }
  destruct Hcur as (c & Hc & ->). cbn [gbind]. pose proof (v_contracts _ _ _ _ _ H1) as Hco. destruct (co_open _ _ _ Hco id c Hc) as (K1 & K2 & K3).
  assert (Hn' : 0 <= n < 2 ^ 62) by (pose proof env_payload; lia).
  destruct (update_account c _ _ n (now_ms s1) K3 Hn') as (U1 & U2 & U3 & U4 & _ & U5). destruct (update c (now_ms s1) n) as [c' ok]. cbn [fst snd] in *.
  set (s2 := put_contract (tick s1) id c'). destruct ok.
  - exists s2, true. split; [done|]. split; [unfold reads in *; cbn; lia|]. split; [cbn; lia|]. exists ((id, n) :: X). split.
    + eapply (inv_contracts (tick s1) s2 _ [] X _ _ []); [by apply inv_tick|done|by rewrite app_nil_r|by constructor|].
      apply (contracts_debit s1 s2 id c c'); try done. by rewrite U4.
    + unfold paid. change (sendContract s2) with (sendContract s1). by rewrite Ecur.
  - subst s2. specialize (U5 eq_refl). subst c'. set (s2 := put_contract (tick s1) id c).
    refine (Hrest s2 (Some (id, c)) _ eq_refl _); [|unfold reads in *; cbn; lia].
    eapply (inv_contracts (tick s1) s2 _ [] X _ _ []); [by apply inv_tick|done|by rewrite app_nil_r|by constructor|].
    apply (contracts_same s1 s2 (sendItems s1 ++ []) (sendItems s1 ++ [])); try done. cbn. by rewrite insert_id.
Qed.
End order.
