(* ===== verification/SendRun.v ===== *)
(** The loop of the send sequence: a resend pass settles or postpones every item
    that is due, a turn keeps the invariant of SendOrder.v, the teardown settles
    whatever is left; and the properties of the sequence that follow. *)
From stdpp Require Import sorting.
From Stdlib Require Import SpecFloat.
From S2P Require Import Prelude GoIo NetId TransferPath FrameCodec AckWindow GoHeap MemoryBudget TransferQueue RttWindow SequenceContract FlightController SendSequence SendNumbers SendOrder.

Section run.
Context {B H : Type} {MP : MemoryPool B H} {ML : MemoryPoolLaws B H} {PG : MessagePool} {E : SendEnv} {EO : EnvOk}.
Abbreviation SS := (@SendSequence B H).
Implicit Types (s : SS) (i : sendItem).

(** ** Resending an item *)

(** A new wire frame replaces the one of the item in hand, which becomes a head. *)
Lemma inv_rewire s L i b M X T :
  inv s L (i :: M) X T -> head (si_wire i) = false -> 0 < Z.of_nat (length b) <= maxFrame ->
  let '(s', buf) := alloc (messagePoolReturn s i) in inv s' L (set_wire i (ItemWire true b buf) :: M) X T /\ keeps s s'.
Proof.
  intros Hs Hh Hb. cbn. split; [|done]. pose proof (wire_bytes i) as Hwb. pose proof maxFrame_pos as Hmp.
  pose proof (flight_nonneg _ _ _ _ _ Hs) as Hfn.
  destruct Hs as [W S K Wi Rn N Md T1 Nm C R Rt F]. split; try done; cbn.
  - by apply (keys_mono s).
  - revert Wi. rewrite !Forall_app, !Forall_cons_iff. intros (W1 & W2 & W3). by split_and!.
  - rewrite <- app_assoc, !flat_map_app, T1. cbn [flat_map gains settles app]. rewrite !flat_map_app. cbn [flat_map]. unfold owns at 2 5. cbn.
    rewrite <- !app_assoc. apply Permutation_app_head. cbn [app]. solve_Permutation.
  - rewrite <- app_assoc, !flat_map_app, Nm. cbn. by rewrite app_nil_r.
  - apply (contracts_same s _ (L ++ i :: M)); [done..|by rewrite !map_app|done].
  - destruct R as (R1 & R2 & R3). rewrite sum_middle in *. split; [done|]. split; [|done].
    revert R2. by rewrite !Forall_app, !Forall_cons_iff.
  - destruct F as [F1 F2 F3 F4]. split; try done; [|by rewrite length_app in *]. rewrite !sum_middle in *.
    apply app_middle_Forall in Wi as [Wi _]. specialize (Hwb Wi). set (i' := set_wire _ _).
    assert (Hn : not_head i = 1 /\ not_head i' = 0) by (unfold not_head; by rewrite Hh). destruct Hn as [Hn Hn'].
    assert (Hf' : wire_ok i') by done. apply flight_of_range in Wi. apply flight_of_range in Hf'.
    change (ss_flight (SSeq _ _ _ _ _ _ _ _ _ _ _ _)) with (ss_flight s).
    rewrite Hn in F3. rewrite Hn'. rewrite ?Z.mul_sub_distr_l, ?Z.mul_add_distr_l in *. lia.
Qed.

(** An item taken back into the queue at [t]. *)
Lemma requeue_ok s L1 j L2 i t X T :
  inv s (L1 ++ L2) [i] X T -> keys_ok s (L1 ++ j :: L2) -> sendItems s = L1 ++ j :: L2 -> si_key i = si_key j -> retention_ok i ->
  at_rest (requeue s i t) X T /\ sendItems (requeue s i t) = L1 ++ set_resend i t :: L2 /\ advances s (requeue s i t).
Proof.
  intros Hs Hk Es Ek Hr. unfold requeue. set (i' := set_resend i t).
  assert (Hs' : inv s (L1 ++ L2) [i'] X T).
  { apply (inv_item s s _ i); [done|done|apply Hs| |done|done|done]. apply (flight_same _ _ _ i); [done|done|apply Hs]. }
  rewrite (update_item_split s L1 j i' L2 Hk Es Ek).
  destruct (resend_add_ok s (L1 ++ i' :: L2) L1 i' L2 [] X T Hs') as (H1 & q & b & E1); [|done|].
  { apply (keys_same _ (L1 ++ j :: L2)); [|done]. rewrite !map_app. cbn [map]. by f_equal; f_equal. }
  unfold at_rest. rewrite E1 in *. by split_and!.
Qed.

(** What the passes keep of an item: everything but its times, its wire frame and
    the facts about its carrier. *)
Definition same_item i i' : Prop := si_key i' = si_key i /\ si_retention i' = si_retention i.

(** Setting the head does not panic, and a new frame is of a fair size. *)
Lemma setHead_ok s L1 i L2 X T :
  inv s (L1 ++ i :: L2) [] X T -> head (si_wire i) = false ->
  exists s' x, setHead s i = Ret (s', x) /\ (s' = s \/ s' = tick s) /\ (forall b, x = Some b -> 0 < Z.of_nat (length b) <= maxFrame).
Proof.
  intros Hs Hh. assert (Hw : wire_ok i).
  { pose proof (v_wires _ _ _ _ _ Hs) as Hw. rewrite app_nil_r in Hw. by apply app_middle_Forall in Hw as [Hw _]. }
  destruct Hw as [_ Hw]. specialize (Hw Hh). unfold setHead. destruct (protoUnmarshalTransferFrame _) as [tf|] eqn:Et; [|exists s, None; split; [done|]; split; [by left|done]].
  pose proof (env_fresh _ tf Hw Et) as Hp. destruct (head_pack tf) as [[pk|]|] eqn:Ep; [|exists s, None; split; [done|]; split; [by left|done]|done]. unfold now. cbn [gbind].
  assert (Hcf : exists cf, head_contract (tick s) i = Ret cf /\ (cf = None \/ exists c, cf = Some (contractFrameOf c))).
  { unfold head_contract. destruct (si_contract i) as [id|] eqn:Ei; [|eauto]. destruct (ik_hasContractFrame _); [eauto|].
    destruct (co_owed _ _ _ (v_contracts _ _ _ _ _ Hs) i id) as [c Hc]; [|done|].
    { rewrite app_nil_r. apply list.elem_of_app. right. by left. }
    change (openSendContracts (tick s)) with (openSendContracts s). rewrite Hc. eauto. }
  destruct Hcf as (cf & -> & Hcf). cbn [gbind]. eexists _, _. split; [done|]. split; [by right|]. intros b Eb. by eapply env_head.
Qed.

Lemma promote_ok s L1 i L2 h X T :
  at_rest s X T -> sendItems s = L1 ++ i :: L2 -> (h = true -> head (si_wire i) = false) ->
  exists s' x, promote s i h = Ret (s', x) /\ advances s s' /\
    match x with
    | None => at_rest s' X T /\ sendItems s' = L1 ++ L2
    | Some i' => inv s' (L1 ++ L2) [i'] X T /\ same_item i i' /\ si_times i' = si_times i /\
                 exists j, sendItems s' = L1 ++ j :: L2 /\ si_key j = si_key i
    end.
Proof.
  intros Hs Es Hh. assert (Hs' : inv s (L1 ++ i :: L2) [] X T) by (unfold at_rest in Hs; by rewrite Es in Hs). unfold promote. destruct h.
  2:{ destruct (q_remove_ok s L1 i L2 [] X T Hs') as (s1 & -> & H1 & q & b & E1). cbn [gbind]. exists s1, (Some i).
      split; [done|]. split; [by rewrite E1|]. split; [done|]. split; [done|]. split; [done|]. exists i. split; [by rewrite E1|done]. }
  specialize (Hh eq_refl). destruct (setHead_ok s L1 i L2 X T Hs' Hh) as (s0 & x & -> & Hs0 & Hx). cbn [gbind].
  assert (H0 : inv s0 (L1 ++ i :: L2) [] X T) by (destruct Hs0 as [-> | ->]; [done|by apply inv_tick]).
  assert (A0 : advances s s0) by (destruct Hs0 as [-> | ->]; [done|apply quietly_advances, quietly_tick]).
  assert (Es0 : sendItems s0 = L1 ++ i :: L2) by (by destruct Hs0 as [-> | ->]). destruct x as [b|].
  - specialize (Hx b eq_refl). rename Hx into Eb. destruct (q_remove_ok s0 L1 i L2 [] X T H0) as (s1 & -> & H1 & q & b' & E1). cbn [gbind].
    pose proof (inv_rewire s1 _ i b [] X T H1 Hh Eb) as H2. destruct (alloc _) as [s2 buf] eqn:Ea. destruct H2 as [H2 [K1 K2 K3 K4 K5]].
    set (i' := set_wire i _) in *.
    assert (E2 : sendItems s2 = L1 ++ i :: L2) by (rewrite K1, E1; exact Es0).
    assert (Hk : keys_ok s2 (L1 ++ i :: L2)).
    { apply (keys_mono s0); [rewrite K2, E1; done|rewrite K3, E1; done|rewrite E1 in K5; exact K5|apply H0]. }
    rewrite (update_item_split s2 L1 i i' L2 Hk E2 eq_refl). eexists _, (Some i'). split; [done|]. split.
    { transitivity s0; [done|]. rewrite E1 in K2, K3, K5. split; [exact K2|exact K3|exact K5]. }
    split; [by apply inv_items|]. split; [done|]. split; [done|]. by exists i'.
  - destruct (dropItem_ok s0 L1 i L2 [] X T H0 Es0) as (s1 & -> & H1 & E1 & N1 & M1 & R1). cbn [gbind]. exists s1, None.
    split; [done|]. split; [by transitivity s0|]. split; [|done]. unfold at_rest. by rewrite E1.
Qed.

Lemma resend_write_ok s i debit L M X T :
  inv s L (i :: M) X T ->
  exists s' i', resend_write s i debit = Ret (s', i') /\ inv s' L (i' :: M) X T /\ keeps s s' /\ same_item i i' /\
    sendCount (si_times i') = i64 (sendCount (si_times i) + 1).
Proof.
  intros Hs. unfold resend_write. destruct (apply_policy_ok s _ _ _ _ Hs) as [H1 Q1]. destruct (apply_policy s) as [s1 available]. cbn [fst] in *.
  assert (H2 : exists s2 c r, (if si_tracked i then observeUnreliableResendTimeout s1 i available else (s1, i, false)) = (s2, set_carrier i c, r) /\
            inv s2 L (set_carrier i c :: M) X T /\ quietly s1 s2).
  { destruct (si_tracked i); [by apply observeUnreliableResendTimeout_ok|]. exists s1, (si_carrier i), false. destruct i; by split_and!. }
  destruct H2 as (s2 & c & r & -> & H2 & Q2). set (i2 := set_carrier i c) in *.
  destruct (writeMaybeWrappedBytes_ok s2 (transferFrameBytes (si_wire i2)) (ik_forceUnwrapped (si_key i2)) r _ _ _ _ H2) as [H3 Q3].
  destruct (writeMaybeWrappedBytes s2 _ _ r) as [s3 [d ok]]. cbn [fst] in *.
  set (s4 := if negb ok && (0 <? debit) then _ else s3).
  assert (H4 : inv s4 L (i2 :: M) X T /\ quietly s3 s4) by (unfold s4; destruct (_ && _); [|done]; split; [by apply inv_emit|by apply quietly_event]).
  destruct H4 as [H4 Q4].
  assert (H5 : exists s5 c5, (if d_typed d || d_unreliable d || d_reliable d then observeCarrierWrite s4 i2 d else (s4, i2)) = (s5, set_carrier i c5) /\
            inv s5 L (set_carrier i c5 :: M) X T /\ quietly s4 s5).
  { destruct (_ || _); [|by exists s4, c]. destruct (observeCarrierWrite_ok s4 i2 d _ _ _ _ H4) as (s5 & c5 & -> & H5 & Q5). by exists s5, c5. }
  destruct H5 as (s5 & c5 & -> & H5 & Q5). set (i5 := set_carrier i c5) in *.
  eexists _, _. split; [done|]. split; [|split; [|done]].
  - apply inv_emit; [done|]. apply (inv_item s5 s5 _ i5); [done|done|apply H5| |done|done|done].
    apply (flight_same _ _ _ i5); [done|done|apply H5].
  - apply quietly_keeps. do 4 (etransitivity; [eassumption|]). etransitivity; [exact Q5|]. by apply quietly_event.
Qed.

(** The backoff is positive and at most the interval, once the item was sent again. *)
Lemma resendBackoff_range rtt n m :
  0 < rtt < 2 ^ 46 -> 1 <= n < 2 ^ 62 -> 0 < m -> 0 < resendBackoff rtt n m <= Z.max rtt m.
Proof.
  intros Hr Hn Hm. unfold resendBackoff. rewrite (i64_small (n - 1)) by (unfold MaxInt64; lia).
  assert (Hs : 0 <= Z.min (n - 1) 16 <= 16) by lia. rewrite u64_small by lia. set (k := Z.min (n - 1) 16) in *.
  destruct (Z.ltb_spec 0 k); [|lia]. rewrite (proj2 (Z.leb_gt 64 k)) by lia. rewrite Z.shiftl_mul_pow2 by lia.
  assert (Hp : 2 ^ 0 <= 2 ^ k <= 2 ^ 16) by (split; apply Z.pow_le_mono_r; lia). change (2 ^ 0) with 1 in Hp. change (2 ^ 16) with 65536 in Hp.
  rewrite i64_small by (unfold MaxInt64; nia). nia.
Qed.

Lemma next_resend_later i t ackTimeout timeout :
  (si_retained i = false -> 0 < ackTimeout) -> 0 < timeout -> t < next_resend i t ackTimeout timeout.
Proof. intros Ha Ht. unfold next_resend. destruct (si_retained i); cbn [negb andb]; [lia|]. specialize (Ha eq_refl). destruct (_ <=? _); lia. Qed.

(** One due item is written again or postponed, or its head cannot be set and it
    is dropped. *)
Lemma resend_item_ok s L1 i L2 t ackTimeout X T :
  at_rest s X T -> sendItems s = L1 ++ i :: L2 -> 1 <= sendCount (si_times i) < 2 ^ 62 - 1 -> (si_retained i = false -> 0 < ackTimeout) ->
  exists s' b, resend_item s i t ackTimeout = Ret (s', b) /\ at_rest s' X T /\ advances s s' /\
    if b then exists i', sendItems s' = L1 ++ i' :: L2 /\ same_item i i' /\ t < si_resend i' /\
                sendCount (si_times i) <= sendCount (si_times i') <= sendCount (si_times i) + 1
    else sendItems s' = L1 ++ L2.
Proof.
  intros Hs Es Hcount Hack. unfold resend_item.
  assert (Hfirst : exists x, index (sendItems s) 0 = Ret x) by (rewrite Es; destruct L1; cbn; eauto).
  destruct Hfirst as [first ->]. cbn [gbind]. set (isHead := si_seq first =? si_seq i).
  destruct (promote_ok s L1 i L2 (isHead && negb (head (si_wire i))) X T Hs Es) as (s1 & x & -> & A1 & Hx).
  { intros [_ Hh]%andb_prop. by apply negb_true_iff in Hh. }
  cbn [gbind]. destruct x as [i1|].
  2:{ destruct Hx as [H1 E1]. eexists _, false. split; [done|]. split; [by apply inv_emit|]. split; [|done].
      etransitivity; [exact A1|]. by apply quietly_advances, quietly_event. }
  destruct Hx as (H1 & [K1 R1] & T1 & j & E1 & Ej). set (charged := _ && negb (resendIsFree _ _)).
  destruct (if charged then _ else _) as [allowed debit]. set (s2 := if charged then tick s1 else s1).
  assert (H2 : inv s2 (L1 ++ L2) [i1] X T /\ quietly s1 s2) by (unfold s2; destruct charged; [split; [by apply inv_tick|apply quietly_tick]|done]).
  destruct H2 as [H2 Q2].
  assert (Hk : forall s', advances s s' -> keys_ok s' (L1 ++ j :: L2)).
  { intros s' [N M R]. apply (keys_same s' (L1 ++ i :: L2)); [rewrite !map_app; cbn [map]; by rewrite Ej|].
    apply (keys_mono s); [lia|lia|done|]. pose proof (v_keys _ _ _ _ _ Hs) as Hk. by rewrite Es in Hk. }
  assert (Hret : retention_ok i).
  { pose proof (v_retention _ _ _ _ _ Hs) as Hr. rewrite Es in Hr. by apply app_middle_Forall in Hr as [Hr _]. }
  assert (Hfin : forall s' i' u, inv s' (L1 ++ L2) [i'] X T -> sendItems s' = L1 ++ j :: L2 -> advances s s' -> same_item i i' -> t < u ->
    sendCount (si_times i) <= sendCount (si_times i') <= sendCount (si_times i) + 1 ->
    exists s'' b, Ret (requeue s' i' u, true) = Ret (s'', b) /\ at_rest s'' X T /\ advances s s'' /\
    if b then exists i', sendItems s'' = L1 ++ i' :: L2 /\ same_item i i' /\ t < si_resend i' /\
                sendCount (si_times i) <= sendCount (si_times i') <= sendCount (si_times i) + 1
    else sendItems s'' = L1 ++ L2).
  { intros s' i' u H' E' A' [K' R'] Hu Hc. destruct (requeue_ok s' L1 j L2 i' u X T H' (Hk s' A') E') as (H3 & E3 & A3).
    { by rewrite K', Ej. } { unfold retention_ok, si_retained. by rewrite R'. }
    eexists _, true. split; [done|]. split; [done|]. split; [by transitivity s'|]. by exists (set_resend i' u). }
  assert (A2 : advances s s2) by (transitivity s1; [done|by apply quietly_advances]).
  assert (E2 : sendItems s2 = L1 ++ j :: L2) by (by rewrite (kp_items _ _ (quietly_keeps _ _ Q2))).
  assert (Hra : forall i', same_item i i' -> si_retained i' = false -> 0 < ackTimeout).
  { intros i' [_ R']. unfold si_retained in *. by rewrite R'. }
  destruct env_times as [Ht1 Ht2]. destruct allowed; cbn [negb].
  - destruct (resend_write_ok s2 i1 debit _ _ _ _ H2) as (s3 & i3 & -> & H3 & K3 & [J3 R3] & C3). cbn [gbind].
    rewrite i64_small in C3 by (unfold MaxInt64; rewrite T1; lia). rewrite T1 in C3.
    assert (S3 : same_item i i3) by (split; congruence).
    assert (A3 : advances s s3) by (transitivity s2; [done|by apply keeps_advances]).
    assert (E3 : sendItems s3 = L1 ++ j :: L2) by (by rewrite (kp_items _ _ K3)).
    destruct ((0 <? MaxResendCount settings) && _); [apply Hfin; [done..|lia|lia]|].
    destruct (ScaledRtt_ok s3 _ _ _ _ H3) as (s4 & v & -> & H4 & Q4 & Hv). cbn [gbind]. apply Hfin; [done| | |done| |lia].
    + by rewrite (kp_items _ _ (quietly_keeps _ _ Q4)).
    + transitivity s3; [done|by apply quietly_advances].
    + apply next_resend_later; [by apply Hra|]. apply (resendBackoff_range v); [done|lia|done].
  - set (s3 := emit s2 _). assert (H3 : inv s3 (L1 ++ L2) [i1] X T) by (by apply inv_emit).
    destruct (ScaledRtt_ok s3 _ _ _ _ H3) as (s4 & v & -> & H4 & Q4 & Hv). cbn [gbind]. apply Hfin; [done| | |done| |rewrite T1; lia].
    + by rewrite (kp_items _ _ (quietly_keeps _ _ Q4)).
    + transitivity s2; [done|]. transitivity s3; [by apply quietly_advances, quietly_event|by apply quietly_advances].
    + apply next_resend_later; [by apply Hra|]. rewrite i64_small by (unfold MaxInt64; rewrite T1; lia).
      apply (resendBackoff_range v); [done|rewrite T1; lia|done].
Qed.

(** ** The resend pass *)

(** What a pass at [t] still has to look at. *)
Definition pending (t : Z) i : bool := (si_resend i <=? t) || si_retained i && backstop_passed i t.
Definition pendings (t : Z) s : nat := length (List.filter (pending t) (sendItems s)).

(** An item was written at most [K] times, once more when this pass has dealt with it. *)
Definition count_ok (K t : Z) i : Prop := 1 <= sendCount (si_times i) <= K + (if t <? si_resend i then 1 else 0).
Definition counts_ok (K t : Z) s : Prop := Forall (count_ok K t) (sendItems s).

Lemma pendings_middle t s L1 i L2 s' i' :
  sendItems s = L1 ++ i :: L2 -> pending t i = true -> pending t i' = false -> sendItems s' = L1 ++ i' :: L2 \/ sendItems s' = L1 ++ L2 ->
  pendings t s = S (pendings t s').
Proof.
  intros Es Hi Hi' [E'|E']; unfold pendings; rewrite Es, E', !List.filter_app; cbn [List.filter]; rewrite ?Hi, ?Hi', !length_app; cbn [length]; lia.
Qed.

Lemma peek_ok s X T :
  at_rest s X T ->
  match PeekFirst (resendQueue s) with
  | None => sendItems s = []
  | Some i => i ∈ sendItems s /\ forall x, x ∈ sendItems s -> si_resend i <= si_resend x
  end.
Proof.
  intros Hs. pose proof (v_wf _ _ _ _ _ Hs) as [Hq _]. pose proof (v_same _ _ _ _ _ Hs) as Hsm.
  pose proof (PeekFirst_list si_transfer resend_cmp resend_cmp_flip resend_cmp_trans (resendQueue s) Hq) as Hp. fold (queued s) in Hp.
  destruct (PeekFirst (resendQueue s)) as [i|].
  - destruct Hp as [Hi Hm]. split; [by rewrite <- Hsm|]. intros x Hx. apply resend_cmp_le, Hm. by rewrite Hsm.
  - rewrite Hp in Hsm. by apply Permutation_nil in Hsm.
Qed.

Definition pass_outcome s (t timeout K : Z) (X : list (bytes * Z)) (T : list token) (m : go (SS * option Z)) : Prop :=
  exists s' r, m = Ret (s', r) /\ at_rest s' X T /\ advances s s' /\ counts_ok K t s' /\
    match r with
    | Some w => w <= timeout /\ forall x, x ∈ sendItems s' -> t < si_resend x /\ w <= si_resend x - t
    | None => True
    end.

Lemma resend_look_ok s t timeout K X T :
  at_rest s X T -> counts_ok K t s ->
  match resend_look s t timeout with
  | LookEnd s' r => pass_outcome s t timeout K X T (Ret (s', r))
  | LookDue i expired ackTimeout timeout' =>
      i ∈ sendItems s /\ pending t i = true /\ expired = si_retained i && backstop_passed i t /\ timeout' <= timeout /\
      (expired = false -> si_resend i <= t /\ (si_retained i = false -> 0 < ackTimeout))
  end.
Proof.
  intros Hs Hc. unfold resend_look. pose proof (peek_ok s X T Hs) as Hp. destruct (PeekFirst (resendQueue s)) as [i|].
  2:{ exists s, (Some timeout). rewrite Hp. split_and!; try done. by intros x Hx%not_elem_of_nil. }
  destruct Hp as [Hi Hmin]. set (ackTimeout := time_Sub _ t). set (timeout' := if _ && (ackTimeout <? timeout) then ackTimeout else timeout).
  assert (Ht' : timeout' <= timeout) by (unfold timeout'; destruct (negb _); cbn; [destruct (Z.ltb_spec ackTimeout timeout)|]; lia).
  remember (si_retained i && backstop_passed i t) as expired eqn:Ee.
  destruct (negb expired && (ackTimeout <=? 0) && negb (si_retained i)) eqn:E1.
  { eexists _, None. split; [done|]. split; [by apply inv_emit|]. split; [by apply quietly_advances, quietly_event|done]. }
  destruct (negb expired && (t <? si_resend i)) eqn:E2.
  - apply andb_prop in E2 as [_ E2%Z.ltb_lt]. eexists s, (Some _). do 4 (split; [done|]). set (itemTimeout := time_Sub (si_resend i) t).
    assert (Hit : itemTimeout <= si_resend i - t) by (unfold itemTimeout, time_Sub, MaxInt64; lia).
    destruct (Z.ltb_spec itemTimeout timeout'); (split; [lia|]); intros x Hx; specialize (Hmin x Hx); lia.
  - split; [done|]. unfold pending. rewrite <- Ee. destruct expired; cbn [negb andb] in *; [by rewrite orb_true_r|]. apply Z.ltb_ge in E2.
    rewrite (proj2 (Z.leb_le _ _) E2). split_and!; try done. intros _. split; [done|]. intros Hr. rewrite Hr in E1. cbn in E1.
    rewrite andb_true_r in E1. by apply Z.leb_gt in E1.
Qed.

(** A pass ends: each turn of its loop takes an item out of what is pending. At
    its end every item left is due later, and no earlier than the wait. *)
Lemma resend_pass_ok fuel s t timeout K X T :
  at_rest s X T -> counts_ok K t s -> K < 2 ^ 62 - 2 -> (pendings t s <= fuel)%nat ->
  pass_outcome s t timeout K X T (resend_pass fuel s t timeout).
Proof.
  revert s timeout. induction fuel as [|fuel IH]; intros s timeout Hs Hc HK Hf; cbn [resend_pass]; pose proof (resend_look_ok s t timeout K X T Hs Hc) as Hl;
    (destruct (resend_look s t timeout) as [s' r|i expired ackTimeout timeout']; [done|]);
    destruct Hl as ((L1 & L2 & Es)%list_elem_of_split & Hpend & Hexp & Ht' & Hdue).
  { unfold pendings in Hf. rewrite Es, List.filter_app, length_app in Hf. cbn [List.filter] in Hf. rewrite Hpend in Hf. cbn in Hf. lia. }
  assert (Hci : count_ok K t i /\ Forall (count_ok K t) (L1 ++ L2)) by (unfold counts_ok in Hc; rewrite Es in Hc; by apply app_middle_Forall in Hc).
  destruct Hci as [Hci Hcr].
  assert (Hnext : forall s1, at_rest s1 X T -> counts_ok K t s1 -> advances s s1 -> pendings t s = S (pendings t s1) ->
            pass_outcome s t timeout K X T (resend_pass fuel s1 t timeout')).
  { intros s1 H1 C1 A1 Hm. destruct (IH s1 timeout' H1 C1) as (s' & r & -> & H2 & A2 & C2 & Hr); [done|lia|].
    exists s', r. split; [done|]. split; [done|]. split; [by transitivity s1|]. split; [done|].
    destruct r as [w|]; [|done]. destruct Hr. split; [lia|done]. }
  destruct expired.
  - set (s0 := emit s _). assert (H0 : inv s0 (L1 ++ i :: L2) [] X T) by (apply inv_emit; [done|]; unfold at_rest in Hs; by rewrite Es in Hs).
    destruct (dropItem_ok s0 L1 i L2 [] X T H0 Es) as (s1 & -> & H1 & I1 & N1 & M1 & R1). cbn [gbind].
    apply Hnext; [unfold at_rest; by rewrite I1|unfold counts_ok; by rewrite I1|done|].
    unfold pendings. rewrite Es, I1, !List.filter_app. cbn [List.filter]. rewrite Hpend, !length_app. cbn [length]. lia.
  - destruct (Hdue eq_refl) as [E2 Hack]. unfold count_ok in Hci. rewrite (proj2 (Z.ltb_ge t (si_resend i)) E2) in Hci.
    destruct (resend_item_ok s L1 i L2 t ackTimeout X T Hs Es) as (s1 & b & -> & H1 & A1 & Hb); [lia|done|].
    cbn [gbind]. destruct b.
    2:{ exists s1, None. do 3 (split; [done|]). split; [|done]. unfold counts_ok. by rewrite Hb. }
    destruct Hb as (i' & I1 & [K1 R1] & Hlate & Hcount). apply Hnext; [done| |done|].
    + unfold counts_ok. rewrite I1. apply Forall_app in Hcr as [Hc1 Hc2]. apply Forall_app. split; [done|]. constructor; [|done].
      unfold count_ok. rewrite (proj2 (Z.ltb_lt t (si_resend i'))) by done. lia.
    + apply (pendings_middle t s L1 i L2 s1 i'); [done|done| |by left].
      unfold pending, si_retained, backstop_passed in *. rewrite R1, <- Hexp, (proj2 (Z.leb_gt _ _)) by done. done.
Qed.

(** ** The items across a turn *)

(** Sending appends items that were written once; the rest of the operations on
    contracts and routes leave the items alone. *)
Definition appended s s' : Prop := exists l, sendItems s' = sendItems s ++ l /\ Forall (fun i => sendCount (si_times i) = 1) l.
Definition unmoved s s' : Prop := sendItems s' = sendItems s.

Lemma unmoved_appended s s' : unmoved s s' -> appended s s'.
Proof. intros He. exists []. by rewrite app_nil_r. Qed.
#[export] Instance appended_preorder : PreOrder appended.
Proof.
  split; [intros s; by apply unmoved_appended|]. intros s1 s2 s3 (l1 & E1 & H1) (l2 & E2 & H2). exists (l1 ++ l2).
  rewrite E2, E1, app_assoc. split; [done|]. by apply Forall_app.
Qed.

Lemma safeAck_items s cb ok : unmoved s (safeAck s cb ok).
Proof. unfold safeAck, setContractAcked. destruct cb as [[]|]; [done| |done]. by repeat case_match. Qed.
Lemma ack_contract_items s i : yields (ack_contract s i) (unmoved s).
Proof.
  unfold ack_contract. destruct (si_contract i); [|done]. destruct (_ !! _); [|done]. destruct (ack _ _); [|done].
  cbn. unfold close_if_done. by destruct (_ && _).
Qed.
Lemma releaseUnreliableFlight_items s i : yields (releaseUnreliableFlight s i) (fun '(s', _) => unmoved s s').
Proof. unfold releaseUnreliableFlight. destruct (negb _); [done|]. by destruct (acknowledgeForKey _ _ _ _). Qed.
Lemma ackItemCounted_items s i y : yields (ackItemCounted s i y) (unmoved s).
Proof.
  unfold ackItemCounted. set (s0 := if y then _ else s). assert (H0 : unmoved s s0) by (unfold s0; by destruct y).
  eapply yields_bind; [apply releaseUnreliableFlight_items|]. intros [s1 i1] H1. eapply yields_bind; [apply ack_contract_items|].
  intros s2 H2. cbn. unfold unmoved in *. cbn. rewrite (safeAck_items s2). congruence.
Qed.
Lemma current_items s : yields (current s) (fun _ => True).
Proof. apply yields_true. Qed.
Lemma ScaledRtt_items s : yields (ScaledRtt s) (fun '(s', _) => unmoved s s').
Proof. unfold ScaledRtt. by destruct (scaledRtt _ _) as [[]|]. Qed.
Lemma contractFillFraction_items s : yields (contractFillFraction s) (fun '(s', _) => unmoved s s').
Proof. unfold contractFillFraction. by destruct (MeanRtt _ _) as [[]|]. Qed.

Lemma make_item_items s frames cb ack sc forced retain :
  yields (make_item s frames cb ack sc forced retain) (fun '(s', i, _) => unmoved s s' /\ sendCount (si_times i) = 1).
Proof.
  unfold make_item, now. eapply yields_bind; [apply current_items|]. intros cur _. cbn zeta. unfold encode, now.
  destruct (2 <=? _); (eapply yields_bind; [apply ScaledRtt_items|]); intros [s' v] Hs; cbn; unfold unmoved in *; cbn in *; rewrite Hs;
    by destruct (ack || _).
Qed.
Lemma reliableOnlyWriteNow_items s : unmoved s (fst (reliableOnlyWriteNow s)).
Proof. unfold reliableOnlyWriteNow. by destruct (negb _). Qed.
Lemma writeMaybeWrappedBytes_items s b forced ro : unmoved s (fst (writeMaybeWrappedBytes s b forced ro)).
Proof. unfold writeMaybeWrappedBytes. cbn. unfold route_write. by repeat case_match. Qed.
Lemma observeCarrierWrite_items s i d :
  unmoved s (fst (observeCarrierWrite s i d)) /\ si_times (snd (observeCarrierWrite s i d)) = si_times i.
Proof.
  unfold observeCarrierWrite, now. set (s0 := match retainedSilenceStart _ with Some _ => s | None => _ end).
  assert (H0 : unmoved s s0) by (unfold s0; by destruct (retainedSilenceStart _)). cbn zeta.
  destruct (negb _); [by destruct (_ && _)|]. unfold trackUnreliableFlight. destruct (si_tracked _); [done|].
  by destruct (sendForKey _ _ _).
Qed.
Lemma admit_retained_items s i : unmoved s (fst (admit_retained s i)) /\ si_times (snd (admit_retained s i)) = si_times i.
Proof. unfold admit_retained. by repeat case_match. Qed.
Lemma q_add_items s i : unmoved s (q_add s i).
Proof. unfold q_add. by destruct (Add _ _ _ _ _). Qed.

Lemma sendWithSetContract_items s frame cb ack sc forced retain :
  yields (sendWithSetContract s frame cb ack sc forced retain) (appended s).
Proof.
  unfold sendWithSetContract. eapply yields_bind; [apply make_item_items|]. intros [[s1 i] ack'] [H1 C1].
  pose proof (reliableOnlyWriteNow_items s1) as H2. destruct (reliableOnlyWriteNow s1) as [s2 ro]. cbn [fst] in H2.
  pose proof (writeMaybeWrappedBytes_items s2 (transferFrameBytes (si_wire i)) forced ro) as H3.
  destruct (writeMaybeWrappedBytes s2 _ forced ro) as [s3 [d ok]]. cbn [fst] in H3.
  set (w := if ok then _ else (s3, i)). assert (H4 : unmoved s3 (fst w) /\ si_times (snd w) = si_times i).
  { unfold w. destruct ok; [apply (observeCarrierWrite_items (emit s3 _))|done]. }
  destruct w as [s4 j]. cbn [fst snd] in H4. destruct H4 as [H4 C4]. unfold unmoved in *.
  eapply (yields_bind _ _ (appended s)); [|intros s5 H5; by destruct frame as [[]|]].
  destruct ack'; [|destruct ok].
  - pose proof (admit_retained_items s4 j) as [H5 C5]. destruct (admit_retained s4 j) as [s5 k]. cbn [fst snd] in *. cbn. exists [k].
    unfold unmoved in *. rewrite (q_add_items _ k). cbn. rewrite H5, H4, H3, H2, H1. split; [done|]. constructor; [|done]. congruence.
  - generalize (ackItemCounted_items s4 j false). destruct (ackItemCounted s4 j false) as [s5|]; [|done]. cbn. intros H5.
    apply unmoved_appended. unfold unmoved in *. congruence.
  - cbn. apply unmoved_appended. unfold unmoved. cbn. rewrite (safeAck_items s4 cb false). congruence.
Qed.

Lemma setNextContract_items s ct n : yields (setNextContract s ct n) (fun '(s', _) => appended s s').
Proof.
  unfold setNextContract. eapply yields_bind; [apply contractFillFraction_items|]. intros [s1 fill] H1. apply unmoved_appended in H1.
  destruct (newSequenceContract _ _ _ _ _) as [next|]; [|done]. cbn zeta. case_bool_decide; [done|]. destruct (expired _ _); [done|].
  destruct (update next _ 0) as [n1 ok1]. destruct (if ok1 then update n1 _ n else _) as [n2 ok2]. destruct ok2; [|done].
  eapply (yields_bind _ _ (appended s)).
  - unfold setContract. eapply yields_bind; [apply current_items|]. intros [[id c]|] _; cbn; [|done]. by destruct (_ =? 0).
  - intros s2 H2. eapply yields_bind; [apply sendWithSetContract_items|]. intros s3 H3. cbn. by transitivity s2.
Qed.
Lemma createContract_items s n : yields (createContract s n) (unmoved s).
Proof. unfold createContract. eapply yields_bind; [apply contractFillFraction_items|]. by intros [s1 fill] H1. Qed.
Lemma nextContract_items s ct n : yields (nextContract s ct n) (fun '(s', _) => appended s s').
Proof.
  unfold nextContract. destruct ct as [ct|]; [|cbn; reflexivity]. eapply yields_bind; [apply setNextContract_items|]. intros [s1 ok] H1.
  destruct ok; [|done]. eapply yields_bind; [apply createContract_items|]. intros s2 H2. cbn. transitivity s1; [done|]. by apply unmoved_appended.
Qed.
Lemma contract_loop_items l s n : yields (contract_loop s n l) (fun '(s', _) => appended s s').
Proof.
  revert s. induction l as [|a l IH]; intros s; cbn [contract_loop]; [cbn; reflexivity|].
  eapply (yields_bind _ _ (unmoved s)); [destruct (at_degraded a); [done|apply createContract_items]|]. intros s1 H1.
  eapply yields_bind; [apply nextContract_items|]. intros [s2 ok] H2. assert (H3 : appended s s2) by (transitivity s1; [by apply unmoved_appended|done]).
  destruct ok; [done|]. generalize (IH s2). destruct (contract_loop s2 n l) as [[s3 ok]|]; [|done]. cbn. by transitivity s2.
Qed.
Lemma updateContract_items s n l : yields (updateContract s n l) (fun '(s', _) => appended s s').
Proof.
  unfold updateContract. destruct (SendNoContract _); [by apply unmoved_appended|]. eapply yields_bind; [apply current_items|]. intros cur _.
  assert (H1 : unmoved s (fst (match cur with
                   | None => (tick s, false)
                   | Some (id, c) => let '(c, ok) := update c (now_ms (tick s)) n in (put_contract (tick (tick s)) id c, ok)
                   end))) by (destruct cur as [[id c]|]; [by destruct (update c _ n)|done]).
  destruct (match cur with Some _ => _ | None => _ end) as [s1 ok]. cbn [fst] in H1. destruct ok; [by apply unmoved_appended|].
  eapply yields_bind; [apply contractFillFraction_items|]. intros [s2 fill] H2.
  assert (H3 : appended s s2) by (apply unmoved_appended; unfold unmoved in *; congruence). destruct (_ <? _); [done|].
  destruct cur as [c|]; [destruct l as [|a l]; [done|]|].
  - eapply yields_bind; [apply nextContract_items|]. intros [s3 ok] H4. assert (H5 : appended s s3) by (by transitivity s2). destruct ok; [done|].
    generalize (contract_loop_items l s3 n). destruct (contract_loop s3 n l) as [[s4 ok]|]; [|done]. cbn. by transitivity s3.
  - generalize (contract_loop_items l s2 n). destruct (contract_loop s2 n l) as [[s4 ok]|]; [|done]. cbn. by transitivity s2.
Qed.

(** ** A turn *)

(** Every item was written between once and [K] times. *)
Definition counted (K : Z) s : Prop := Forall (fun i => 1 <= sendCount (si_times i) <= K) (sendItems s).

Lemma counted_mono K K' s s' :
  K <= K' -> (forall x, x ∈ sendItems s' -> exists y, y ∈ sendItems s /\ sendCount (si_times x) = sendCount (si_times y)) ->
  counted K s -> counted K' s'.
Proof.
  intros HK Hs Hc. apply list.Forall_forall. intros x Hx. destruct (Hs x Hx) as (y & Hy & ->).
  unfold counted in Hc. rewrite list.Forall_forall in Hc. specialize (Hc y Hy). lia.
Qed.
Lemma counted_unmoved K s s' : unmoved s s' -> counted K s -> counted K s'.
Proof. intros Hu. unfold counted. by rewrite Hu. Qed.
Lemma counted_appended K s s' : 1 <= K -> appended s s' -> counted K s -> counted K s'.
Proof.
  intros HK (l & El & Hl) Hc. unfold counted. rewrite El. apply Forall_app. split; [done|]. revert Hl. apply List.Forall_impl. intros i Hi. lia.
Qed.
Lemma counted_pass K t s : counted K s -> counts_ok K t s.
Proof. unfold counted, counts_ok. apply List.Forall_impl. intros i Hi. unfold count_ok. destruct (_ <? _); lia. Qed.
Lemma counted_passed K t s : counts_ok K t s -> counted (K + 1) s.
Proof. unfold counted, counts_ok. apply List.Forall_impl. intros i Hi. unfold count_ok in Hi. destruct (_ <? _); lia. Qed.

Lemma ack_walk_suffix s n l : yields (ack_walk s n l) (fun '(_, rest) => forall x, x ∈ rest -> x ∈ l).
Proof.
  revert s. induction l as [|i l IH]; intros s; cbn [ack_walk]; [by intros x Hx|]. destruct (n <? si_seq i); [by intros x Hx|].
  assert (Hl : forall s', yields (ack_walk s' n l) (fun '(_, rest) => forall x, x ∈ rest -> x ∈ i :: l)).
  { intros s'. generalize (IH s'). destruct (ack_walk s' n l) as [[s2 rest]|]; [|done]. cbn. intros Hr x Hx. right. by apply Hr. }
  eapply yields_bind; [apply yields_true|]. intros [s1 [y|]] _; [|apply Hl].
  eapply yields_bind; [apply yields_true|]. intros [s2 j] _. destruct (if si_retained j then _ else (s2, j)) as [s3 k].
  eapply yields_bind; [apply yields_true|]. intros s4 _. apply Hl.
Qed.

Lemma q_remove_items s id : yields (q_remove s id) (fun '(s', _) => unmoved s s').
Proof. unfold q_remove. by destruct (RemoveByMessageId _ _ _ _ _) as [[[]]|]. Qed.
Lemma restartRetainedSilence_items s : unmoved s (restartRetainedSilence s).
Proof. unfold restartRetainedSilence. by destruct (_ <? _). Qed.
Lemma observeAckRtt_items s i tag : yields (observeAckRtt s i tag) (unmoved s).
Proof. unfold observeAckRtt. destruct (unreliableCarrierObserved _); [done|]. destruct tag as [t|]; [|done]. by destruct (closeSendTime _ _ _). Qed.

Lemma selective_ack_counted K s i : i ∈ sendItems s -> counted K s -> yields (selective_ack s i) (counted K).
Proof.
  intros Hi Hc. unfold selective_ack. eapply yields_bind; [apply q_remove_items|]. intros [s1 [y|]] H1; [|by apply (counted_unmoved K s)].
  eapply (yields_bind _ _ (fun '(s2, j) => unmoved s1 s2 /\ si_times j = si_times i)).
  { destruct (selectiveAcked _); [done|]. unfold releaseUnreliableFlight. destruct (negb _); [done|]. by destruct (acknowledgeForKey _ _ _ _). }
  intros [s2 j] [H2 Ej]. cbn. apply (counted_unmoved K (q_add (update_item (tick (tick s2)) (set_times j
    (ItemTimes (clock (S (reads s2))) (clock (reads s2) + SelectiveAckTimeout settings) (sendCount (si_times j)) true)))
    (set_times j (ItemTimes (clock (S (reads s2))) (clock (reads s2) + SelectiveAckTimeout settings) (sendCount (si_times j)) true))));
    [apply restartRetainedSilence_items|].
  eapply counted_unmoved; [apply q_add_items|]. apply (counted_mono K K s); [lia| |done]. cbn. unfold unmoved in *.
  rewrite H2, H1. intros x (y' & -> & Hy)%list_elem_of_fmap. destruct (_ =? _)%nat; [|by exists y']. exists i. split; [done|]. cbn. by rewrite Ej.
Qed.

Lemma receiveAck_counted K s id selective tag X T :
  at_rest s X T -> counted K s -> yields (receiveAck s id selective tag) (counted K).
Proof.
  intros Hs Hc. unfold receiveAck. destruct (GetByMessageId _ id) as [i|] eqn:Eg; [|done]. destruct (queued_id s X T id i Hs Eg) as [Hi _].
  eapply yields_bind; [apply observeAckRtt_items|]. intros s1 H1. assert (C1 : counted K s1) by (by apply (counted_unmoved K s)).
  destruct selective; [apply selective_ack_counted; [by rewrite H1|done]|].
  eapply yields_bind; [apply ack_walk_suffix|]. intros [s2 rest] Hr. cbn. eapply counted_unmoved; [apply restartRetainedSilence_items|].
  apply (counted_mono K K s1); [lia| |done]. cbn. intros x Hx. exists x. split; [by apply Hr|done].
Qed.

Lemma apply_acks_counted K s h l X T :
  at_rest s X T -> counted K s ->
  exists s', apply_acks s h l = Ret s' /\ at_rest s' X T /\ advances s s' /\ counted K s'.
Proof.
  intros Hs Hc. unfold apply_acks.
  assert (H0 : forall s0 id sel tag, at_rest s0 X T -> counted K s0 -> advances s s0 ->
            exists s1, receiveAck s0 id sel tag = Ret s1 /\ at_rest s1 X T /\ counted K s1 /\ advances s s1).
  { intros s0 id sel tag R0 C0 A0. destruct (receiveAck_ok s0 id sel tag X T R0) as (s1 & E1 & R1 & A1). exists s1.
    pose proof (receiveAck_counted K s0 id sel tag X T R0 C0) as Hy. rewrite E1 in Hy. split_and!; try done. by transitivity s0. }
  assert (H1 : exists s1, match h with Some a => receiveAck s (ak_messageId a) false (ak_tag a) | None => Ret s end = Ret s1 /\
            at_rest s1 X T /\ counted K s1 /\ advances s s1) by (destruct h as [a|]; [by apply H0|by exists s]).
  destruct H1 as (s1 & -> & R1 & C1 & A1). cbn [gbind]. clear Hs Hc. revert s1 R1 C1 A1.
  induction l as [|[id a] l IH]; intros s1 R1 C1 A1; cbn [fold_left]; [by exists s1|]. cbn [gbind].
  destruct (H0 s1 id true (ak_tag a) R1 C1 A1) as (s2 & -> & R2 & C2 & A2). by apply IH.
Qed.

(** The scan drops every listed item whose backstop has passed. *)
Lemma backstop_scan_ok s t l X T :
  at_rest s X T -> NoDup l -> (forall i, i ∈ l -> i ∈ sendItems s) ->
  exists s', backstop_scan s t l = Ret s' /\ at_rest s' X T /\ advances s s' /\ sendItems s' `sublist_of` sendItems s /\
    forall x, x ∈ sendItems s' -> x ∈ l -> si_retained x && backstop_passed x t = false.
Proof.
  intros Hs Hnd. revert s Hs. induction l as [|i l IH]; intros s Hs Hl; cbn [backstop_scan].
  { exists s. split_and!; try done. by intros x _ ?%not_elem_of_nil. }
  apply list.NoDup_cons in Hnd as [Hi Hnd]. destruct (si_retained i && backstop_passed i t) eqn:Ei.
  - destruct (list_elem_of_split (sendItems s) i (Hl i (list_elem_of_here _ _))) as (L1 & L2 & Es).
    set (s0 := emit s _). assert (H0 : inv s0 (L1 ++ i :: L2) [] X T) by (apply inv_emit; [done|]; unfold at_rest in Hs; by rewrite Es in Hs).
    destruct (dropItem_ok s0 L1 i L2 [] X T H0 Es) as (s1 & -> & H1 & I1 & N1 & M1 & R1). cbn [gbind].
    destruct (IH Hnd s1) as (s2 & -> & H2 & A2 & Hsub & Hx); [unfold at_rest; by rewrite I1| |].
    { intros x Hx. rewrite I1. assert (Hin : x ∈ sendItems s) by (apply Hl; by right). rewrite Es in Hin.
      apply list.elem_of_app in Hin as [Hin|Hin]; apply list.elem_of_app; [by left|]. apply elem_of_cons in Hin as [->|Hin]; [done|by right]. }
    exists s2. split; [done|]. split; [done|]. split; [by transitivity s1|]. split.
    + etransitivity; [exact Hsub|]. rewrite I1, Es. apply sublist_app; [done|]. by apply sublist_cons.
    + intros x Hin [->|Hxl]%elem_of_cons; [|by apply Hx]. exfalso. assert (Hin' : i ∈ L1 ++ L2) by (rewrite <- I1; by eapply elem_of_sublist).
      destruct (keys_fresh s0 L1 i L2 i (v_keys _ _ _ _ _ H0) Hin') as [K _]. done.
  - cbn [gbind]. destruct (IH Hnd s Hs) as (s2 & -> & H2 & A2 & Hsub & Hx); [intros x Hx; apply Hl; by right|].
    exists s2. split_and!; try done. intros x Hin [->|Hxl]%elem_of_cons; [done|by apply Hx].
Qed.

Lemma retainedDestinationSilent_ok s t X T :
  at_rest s X T -> let s' := fst (retainedDestinationSilent s t) in at_rest s' X T /\ advances s s' /\ unmoved s s'.
Proof.
  intros Hs. unfold retainedDestinationSilent. destruct (IsEmpty _); [split; [by apply inv_silence|done]|].
  destruct (retainedSilenceDeadline s); [|done]. destruct (_ <? _); [done|]. split; [by apply inv_emit|done].
Qed.

(** The queue is empty exactly when no item waits. *)
Lemma queue_size s X T : at_rest s X T -> Len (orderedItems (resendQueue s)) = length (sendItems s).
Proof. intros Hs. by apply Permutation_length, (v_same _ _ _ _ _ Hs). Qed.

(** What a turn leaves ready to wait: nothing is due at the reading [t] of its
    clock. *)
Definition settled (t : Z) s : Prop := forall x, x ∈ sendItems s -> t < si_resend x /\ si_retained x && backstop_passed x t = false.

Lemma send_before_ok s x K X T :
  at_rest s X T -> counted K s -> K < 2 ^ 62 - 2 ->
  exists s' r, before_select s x = Ret (s', r) /\ at_rest s' X T /\ advances s s' /\ counted (K + 1) s' /\
    (is_Some r -> exists k, (reads s <= k <= reads s')%nat /\ settled (clock k) s').
Proof.
  intros Hs Hc HK. unfold before_select. destruct (apply_acks_counted K s (in_head x) (in_selective x) X T Hs Hc) as (s1 & -> & H1 & A1 & C1).
  cbn [gbind]. unfold now. set (t := clock (reads s1)). set (s2 := tick s1). assert (H2 : at_rest s2 X T) by (by apply inv_tick).
  assert (A2 : advances s1 s2) by apply quietly_advances, quietly_tick. assert (C2 : counted K s2) by done.
  assert (Rd2 : (reads s <= reads s1 <= reads s2)%nat) by (pose proof (ad_reads _ _ A1); pose proof (ad_reads _ _ A2); lia).
  destruct (retainedDestinationSilent_ok s2 t X T H2) as (H3 & A3 & U3). destruct (retainedDestinationSilent s2 t) as [s3 silent]. cbn [fst] in *.
  assert (A03 : advances s s3) by (do 2 (etransitivity; [eassumption|]); done).
  assert (C3 : counted K s3) by (by apply (counted_unmoved K s2)). assert (Rd3 := ad_reads _ _ A3). destruct silent.
  { exists s3, None. do 3 (split; [done|]). split; [apply counted_passed with t, counted_pass, C3|]. by intros []. }
  assert (H4 : exists s4 r, (if IsEmpty (resendQueue s3) then Ret (s3, Some (IdleTimeout settings))
            else resend_pass (S (Len (orderedItems (resendQueue s3)))) s3 t (AckTimeout settings)) = Ret (s4, r) /\
            at_rest s4 X T /\ advances s3 s4 /\ counts_ok K t s4 /\ (is_Some r -> forall y, y ∈ sendItems s4 -> t < si_resend y)).
  { pose proof (queue_size s3 X T H3) as Hlen. unfold IsEmpty. destruct (Nat.eqb_spec (Len (orderedItems (resendQueue s3))) 0) as [Hz|Hz].
    - exists s3, (Some (IdleTimeout settings)). do 3 (split; [done|]). split; [by apply counted_pass|]. intros _ y Hy.
      rewrite Hz in Hlen. destruct (sendItems s3); [by apply not_elem_of_nil in Hy|done].
    - destruct (resend_pass_ok (S (Len (orderedItems (resendQueue s3)))) s3 t (AckTimeout settings) K X T H3) as (s4 & r & -> & H4 & A4 & C4 & Hr);
        [by apply counted_pass|done| |].
      { unfold pendings. rewrite Hlen. apply Nat.le_trans with (length (sendItems s3)); [apply List.filter_length_le|lia]. }
      exists s4, r. do 4 (split; [done|]). intros [w ->] y Hy. apply (proj2 Hr y Hy). }
  destruct H4 as (s4 & r & -> & H4 & A4 & C4 & Hr). cbn [gbind]. assert (A04 : advances s s4) by (by transitivity s3).
  assert (Rd4 := ad_reads _ _ A4). destruct r as [w|].
  2:{ exists s4, None. do 3 (split; [done|]). split; [by apply counted_passed with t|]. by intros []. }
  pose proof (v_wf _ _ _ _ _ H4) as [Hq _]. pose proof (v_same _ _ _ _ _ H4) as Hsm.
  destruct (backstop_scan_ok s4 t (TransferQueue.Snapshot (resendQueue s4)) X T H4) as (s5 & -> & H5 & A5 & Hsub & Hx).
  { apply (queue_nodup si_transfer resend_cmp _ Hq). }
  { intros y Hy. by rewrite <- Hsm. }
  cbn [gbind]. assert (A05 : advances s s5) by (by transitivity s4). assert (Rd5 := ad_reads _ _ A5).
  assert (C5 : counted (K + 1) s5).
  { apply (counted_mono (K + 1) (K + 1) s4); [lia| |by apply counted_passed with t]. intros y Hy. exists y. split; [by eapply elem_of_sublist|done]. }
  assert (S5 : settled t s5).
  { intros y Hy. assert (Hy4 : y ∈ sendItems s4) by (by eapply elem_of_sublist). split; [by apply Hr|]. apply Hx; [done|].
    unfold TransferQueue.Snapshot. fold (queued s4). by rewrite Hsm. }
  assert (Rd5' : (reads s <= reads s1 <= reads s5)%nat) by lia.
  destruct (retainedSilenceDeadline s5) as [d|].
  - unfold now. eexists _, _. split; [done|]. split; [by apply inv_tick|]. split; [by transitivity s5; [done|apply quietly_advances, quietly_tick]|].
    split; [done|]. intros _. exists (reads s1). split; [|done]. change (reads (tick s5)) with (S (reads s5)). lia.
  - exists s5, (Some w). do 4 (split; [done|]). intros _. exists (reads s1). by split.
Qed.

(** [X'] are the debits of the packs without an ack that could not be written. *)
Definition case_ok (c : select_case) : Prop := match c with SelPack p _ => pack_ok p | _ => True end.
Definition case_acked (c : select_case) : Prop := match c with SelPack p _ => sk_Ack p = true | _ => True end.

(** Taking a pack gains what it owns. *)
Lemma take_ok s p X T : at_rest s X T -> at_rest (emit s (EvTake p)) X (pack_tokens p ++ T).
Proof.
  intros [W S K Wi Rn N Md T1 Nm C R Rt F]. split; try done; cbn.
  - by apply (keys_mono s).
  - rewrite !flat_map_app, T1. cbn. rewrite !app_nil_r, <- !app_assoc. apply Permutation_app_head. solve_Permutation.
  - rewrite flat_map_app, Nm. cbn. by rewrite app_nil_r.
  - by apply (contracts_same s _ (sendItems s ++ []) (sendItems s ++ [])).
Qed.

Lemma after_select_ok s c X T :
  at_rest s X T -> case_ok c -> (ss_made s + 2 <= maxItems)%nat ->
  exists s' b X', after_select s c = Ret (s', b) /\ at_rest s' X' T /\ appended s s' /\ (ss_made s' <= ss_made s + 2)%nat /\
    (case_acked c -> X' = X).
Proof.
  intros Hs Hc Hm. unfold after_select. destruct (apply_policy_ok s _ _ _ _ Hs) as [H1 Q1]. destruct (apply_policy s) as [s1 available].
  cbn [fst] in *. pose proof (quietly_keeps _ _ Q1) as [K1 K2 K3 K4 K5]. assert (R1 : at_rest s1 X T) by (unfold at_rest; by rewrite K1).
  assert (U1 : appended s s1) by (by apply unmoved_appended). set (gates := unreliableFlightGates s1 available).
  assert (Hstay : forall s2 (b : bool), at_rest s2 X T -> unmoved s1 s2 -> ss_made s2 = ss_made s1 ->
    exists s' b' X', Ret (s2, b) = Ret (s', b') /\ at_rest s' X' T /\ appended s s' /\ (ss_made s' <= ss_made s + 2)%nat /\ (case_acked c -> X' = X)).
  { intros s2 b H2 U2 M2. exists s2, b, X. split; [done|]. split; [done|]. split; [|split; [lia|done]].
    transitivity s1; [done|]. by apply unmoved_appended. }
  destruct c as [| | |p l|closed]; [by apply Hstay; [apply inv_emit|..]|by apply Hstay|by destruct (canQueue _ _ _); apply Hstay| |].
  2:{ unfold idle_exit. destruct (_ && _); [by apply Hstay; [apply inv_emit|..]|by apply Hstay]. }
  destruct (canQueue _ _ _); [|by apply Hstay]. destruct Hc as [Hlen Hmax]. set (s2 := emit s1 (EvTake p)).
  assert (H2 : at_rest s2 X (pack_tokens p ++ T)) by (by apply take_ok).
  pose proof env_payload as Hpay. assert (Hn : 0 <= sk_MessageByteCount p <= maxPayload) by lia.
  destruct (send_updateContract_ok s2 (sk_MessageByteCount p) l X (pack_tokens p ++ T) H2 Hn) as (s3 & ok & E3 & Rd3 & M3 & H3).
  { change (ss_made s2) with (ss_made s1). lia. }
  pose proof (yields_ret _ _ _ (updateContract_items s2 (sk_MessageByteCount p) l) E3) as U3. cbn in U3. rewrite E3. cbn [gbind].
  change (ss_made s2) with (ss_made s1) in M3. assert (U03 : appended s s3) by (transitivity s1; [done|]; transitivity s2; [by apply unmoved_appended|done]).
  destruct ok.
  - destruct H3 as (X' & H3 & Hp). unfold send, pack_tokens in *. rewrite <- app_assoc in H3.
    assert (Hfr : frames_MessageByteCount [sk_Frame p] = sk_MessageByteCount p).
    { rewrite Hlen. cbn. rewrite i64_small; [lia|]. unfold MaxInt64. change (2 ^ 62) with 4611686018427387904 in Hpay. lia. }
    edestruct (sendWithSetContract_ok s3 (Some (sk_Frame p, sk_buffer p)) (option_map CbUser (sk_AckCallback p)) (sk_Ack p) false
      (sk_ForceUnwrapped p) (sk_RetainAfterAckTimeout p) X' X T) as (s4 & X'' & E4 & H4 & M4 & _ & _ & HX); [done|lia|split; [cbn; lia|apply Forall_singleton; lia]| |].
    { cbn [frame_list]. by rewrite Hfr. }
    pose proof (yields_ret _ _ _ (sendWithSetContract_items s3 (Some (sk_Frame p, sk_buffer p)) (option_map CbUser (sk_AckCallback p)) (sk_Ack p) false
      (sk_ForceUnwrapped p) (sk_RetainAfterAckTimeout p)) E4) as U4. rewrite E4. cbn [gbind].
    exists s4, true, X''. split; [done|]. split; [done|]. split; [by transitivity s3|]. split; [lia|done].
  - eexists _, false, X. split; [done|]. pose proof (safeAck_items s3 (option_map CbUser (sk_AckCallback p)) false) as U4.
    set (s4 := safeAck s3 _ false) in *.
    assert (H4 : at_rest s4 X (TokBuf (BufPack (sk_buffer p)) :: T) /\ ss_made s4 = ss_made s3).
    { unfold s4. unfold pack_tokens in H3. destruct (sk_AckCallback p) as [n|]; cbn in *; [|done].
      split; [|done]. by apply (inv_token s3 (EvCallback n false) (TokCb n)). }
    destruct H4 as [H4 M4]. split; [|split; [|split; [|done]]].
    + unfold at_rest. cbn [sendItems emit]. apply inv_emit; [done|]. by apply (inv_token s4 _ (TokBuf (BufPack (sk_buffer p)))).
    + transitivity s3; [done|]. by apply unmoved_appended.
    + cbn. lia.
Qed.

Definition turn_ok (x : turn_input) : Prop := case_ok (in_case x).
Definition turn_acked (x : turn_input) : Prop := case_acked (in_case x).

Lemma turn_keeps s x K X T :
  at_rest s X T -> counted K s -> 1 <= K < 2 ^ 62 - 2 -> turn_ok x -> (ss_made s + 2 <= maxItems)%nat ->
  exists s' b X', turn s x = Ret (s', b) /\ at_rest s' X' T /\ counted (K + 1) s' /\ (ss_made s' <= ss_made s + 2)%nat /\ (turn_acked x -> X' = X).
Proof.
  intros Hs Hc HK Hx Hm. unfold turn. destruct (send_before_ok s x K X T Hs Hc) as (s1 & r & -> & H1 & [A1 A2 A3] & C1 & _); [lia|].
  cbn [gbind]. destruct r as [w|]; [|exists s1, false, X; split_and!; try done; lia].
  destruct (after_select_ok s1 (in_case x) X T H1 Hx) as (s2 & b & X' & -> & H2 & U2 & M2 & HX); [lia|].
  exists s2, b, X'. split; [done|]. split; [done|]. split; [by apply (counted_appended _ s1); [lia|..]|]. split; [lia|done].
Qed.

(** ** The teardown *)

(** The events of a discard settle what the item owns, and tell its owner. *)
Record discarded s s' (l : list sendItem) : Prop := {
  dc_queue : resendQueue s' = resendQueue s /\ ss_pool s' = ss_pool s /\ nextSequenceNumber s' = nextSequenceNumber s;
  dc_gains : flat_map gains (ss_log s') = flat_map gains (ss_log s);
  dc_settles : flat_map settles (ss_log s') = flat_map settles (ss_log s) ++ flat_map owns l;
  dc_calls : calls s' = calls s ++ flat_map (fired false) l;
  dc_numbers : flat_map numbered (ss_log s') = flat_map numbered (ss_log s);
}.

Lemma quiet_flat_map {A} (f : event -> list A) l :
  Forall (fun e => quiet e = true) l -> (forall e, quiet e = true -> f e = []) -> flat_map f l = [].
Proof. intros Hl Hf. induction Hl as [|e l He _ IH]; [done|]. cbn. by rewrite (Hf e He), IH. Qed.

Lemma discard_item_ok s i A X :
  contracts_ok s (i :: A) X -> discarded s (discard_item s i) [i] /\ contracts_ok (discard_item s i) A X.
Proof.
  intros Hs. unfold discard_item. set (p := if si_retained i then _ else (s, i)).
  assert (Hp : exists l, ss_log (fst p) = ss_log s ++ l /\ Forall (fun e => quiet e = true) l /\
    (nextSequenceNumber (fst p), resendQueue (fst p), ss_pool (fst p), openSendContracts (fst p), sendContract (fst p)) =
    (nextSequenceNumber s, resendQueue s, ss_pool s, openSendContracts s, sendContract s) /\
    si_key (snd p) = si_key i /\ si_wire (snd p) = si_wire i).
  { unfold p, releaseRetained. destruct (si_retained i); [|exists []; by rewrite app_nil_r]. exists [EvRetention RetainSeqExit].
    destruct (retainedReleased _); (split; [done|]); (split; [by repeat constructor|done]). }
  destruct p as [s1 j]. cbn [fst snd] in Hp. destruct Hp as (l & El & Hl & [= En Eq Ep Eo Ec] & Ek & Ew).
  assert (H1 : contracts_ok s1 (j :: A) X) by (apply (contracts_same s _ (i :: A)); [done|done|cbn; by rewrite Ek|done]).
  destruct (unack_contract_ok s1 j false A X H1) as [H2 Q2]. set (s2 := unack_contract s1 j false) in *.
  destruct (safeAck_spec s2 (ik_ackCallback (si_key j)) false) as [a ->]. unfold messagePoolReturn, emit. cbn.
  pose proof (cy_rest _ _ Q2) as Hrest. injection Hrest as En2 _ Eq2 Ep2 Ec2 _ _ _ _.
  destruct (cb_settles (ik_ackCallback (si_key j)) false) as (S1 & S2 & S3).
  split; [|by apply (contracts_same s2 _ A)].
  assert (Hf : forall C (f : event -> list C), (forall e, quiet e = true -> f e = []) ->
            flat_map f ((ss_log s2 ++ cb_events (ik_ackCallback (si_key j)) false) ++ [EvReturn (si_buffer j)]) =
            flat_map f (ss_log s) ++ flat_map f (cb_events (ik_ackCallback (si_key j)) false) ++ flat_map f [EvReturn (si_buffer j)]).
  { intros C f Hf. rewrite !flat_map_app, (contractly_flat s1 s2 f Q2 Hf), El, flat_map_app, (quiet_flat_map f l Hl Hf), app_nil_r.
    by rewrite <- app_assoc. }
  split; cbn.
  - split_and!; congruence.
  - rewrite Hf by (intros e He; apply (quiet_events e He)). rewrite S2. cbn. by rewrite app_nil_r.
  - rewrite Hf by (intros e He; apply (quiet_events e He)). rewrite S1. cbn. unfold owns, si_buffer. by rewrite Ek, Ew, app_nil_r.
  - unfold calls at 1. cbn. rewrite Hf by (intros e He; apply (quiet_events e He)). cbn. unfold fired. by rewrite Ek, !app_nil_r.
  - rewrite Hf by (intros e He; apply (quiet_events e He)). rewrite S3. cbn. by rewrite app_nil_r.
Qed.

Lemma discards_ok l s A X :
  contracts_ok s (l ++ A) X -> let s' := fold_left discard_item l s in discarded s s' l /\ contracts_ok s' A X.
Proof.
  revert s. induction l as [|i l IH]; intros s Hs; cbn [fold_left].
  - split; [|done]. split; [done|done|by rewrite app_nil_r..|done].
  - destruct (discard_item_ok s i (l ++ A) X Hs) as [[(Q1 & Q2 & Q3) G1 T1 C1 N1] H1].
    destruct (IH (discard_item s i) H1) as [[(R1 & R2 & R3) G2 T2 C2 N2] H2]. split; [|done]. cbn in T1, C1. rewrite app_nil_r in T1, C1.
    split; [split_and!; congruence|congruence| | |congruence].
    + rewrite T2, T1. cbn. by rewrite <- app_assoc.
    + rewrite C2, C1. cbn. by rewrite <- app_assoc.
Qed.

(** The books at the end: every open contract is closed with what was acked and
    what is still debited without an item. *)
Definition closings (m : gmap bytes sequenceContract) : list event :=
  map (fun c => EvCloseContract (contractId c) (ackedByteCount c) (unackedByteCount c)) (map snd (map_to_list m)).

Record torn s s' (X : list (bytes * Z)) (T : list token) : Prop := {
  to_empty : items (orderedItems (resendQueue s')) = [] /\ retainedByteCount s' = 0;
  to_pool : queue_wf si_transfer resend_cmp (resendQueue s') /\ backed (resendQueue s') (ss_pool s');
  to_tokens : flat_map gains (ss_log s') ≡ₚ flat_map settles (ss_log s') ++ T;
  to_calls : exists l, l ≡ₚ sendItems s /\ calls s' = calls s ++ flat_map (fired false) l;
  to_numbers : flat_map numbered (ss_log s') = seqZ 0 (nextSequenceNumber s') /\ nextSequenceNumber s' = nextSequenceNumber s;
  to_contracts : contracts_ok s' [] X;
  to_closed : exists l, ss_log s' = l ++ closings (openSendContracts s') ++ [EvFlushContracts];
}.

Lemma emits_closings (l : list sequenceContract) s :
  fold_left (fun s c => emit s (EvCloseContract (contractId c) (ackedByteCount c) (unackedByteCount c))) l s =
  SSeq (nextSequenceNumber s) (sendItems s) (resendQueue s) (ss_pool s) (openSendContracts s) (sendContract s) (sendContractAcked s)
    (retainedByteCount s) (ss_made s) (ss_buffers s) (ss_aux s)
    (ss_log s ++ map (fun c => EvCloseContract (contractId c) (ackedByteCount c) (unackedByteCount c)) l).
Proof. revert s. induction l as [|c l IH]; intros s; cbn; [rewrite app_nil_r; by destruct s|]. rewrite IH. cbn. by rewrite <- app_assoc. Qed.

Lemma teardown_ok s X T : at_rest s X T -> torn s (teardown s) X T.
Proof.
  intros Hs. pose proof (v_wf _ _ _ _ _ Hs) as [Hq Hb]. pose proof (v_same _ _ _ _ _ Hs) as Hsm. unfold teardown.
  destruct (Clear_list si_transfer resend_cmp resend_cmp_flip resend_cmp_trans (resendQueue s) (ss_pool s) Hq Hb) as (q & b & -> & Hq' & Hb' & He).
  fold (queued s). set (l := queued s) in *. set (s1 := set_queue s q b).
  destruct (discards_ok l s1 [] X) as [[(D1 & D2 & D3) G T1 C N] Hc].
  { rewrite app_nil_r. apply (contracts_same s _ l l); [done..|]. apply (contracts_perm s (sendItems s ++ []) _ X X); [|done|apply Hs].
    rewrite app_nil_r. by symmetry. }
  set (s2 := fold_left discard_item l s1) in *. rewrite emits_closings. cbn [openSendContracts set_retained]. fold (closings (openSendContracts s2)).
  set (k := closings (openSendContracts s2)).
  assert (Hk : Forall (fun e => quiet e = true) (k ++ [EvFlushContracts])).
  { apply Forall_app. split; [|by repeat constructor]. unfold k, closings. apply list.Forall_forall. by intros e (c & -> & _)%list_elem_of_fmap. }
  assert (Hf : forall A (f : event -> list A), (forall e, quiet e = true -> f e = []) -> flat_map f ((ss_log s2 ++ k) ++ [EvFlushContracts]) = flat_map f (ss_log s2)).
  { intros A f Hf. rewrite <- app_assoc, flat_map_app, (quiet_flat_map f _ Hk Hf). by rewrite app_nil_r. }
  pose proof (v_tokens _ _ _ _ _ Hs) as Ht. split; cbn.
  - by rewrite D1.
  - rewrite D1, D2. done.
  - rewrite !Hf by (intros e He'; apply (quiet_events e He')). rewrite G, T1. change (ss_log s1) with (ss_log s). rewrite Ht, app_nil_r, <- app_assoc.
    apply Permutation_app_head. by rewrite Hsm.
  - exists l. split; [done|]. unfold calls at 1. cbn. rewrite Hf by (intros e He'; apply (quiet_events e He')). exact C.
  - rewrite Hf by (intros e He'; apply (quiet_events e He')). rewrite N, D3. split; [apply Hs|done].
  - by apply (contracts_same s2 _ [] []).
  - exists (ss_log s2). by rewrite <- app_assoc.
Qed.

(** ** The run *)

(** What a sequence starts from, and the turns it is given. *)
Record send_start (b : B) (bud : option H) (min : Z) (w : RttWindow) (l : list turn_input) : Prop := {
  st_queue : start_ok b bud min;
  st_rtt : rtt_ok w;
  st_turns : Forall turn_ok l;
  st_items : (2 * length l <= maxItems)%nat;
  st_count : Z.of_nat (length l) < 2 ^ 62 - 3;
}.

Lemma new_at_rest b bud min lifetime w : start_ok b bud min -> rtt_ok w -> at_rest (NewSendSequence b bud min lifetime w) [] [].
Proof.
  intros Hq Hw. unfold NewSendSequence, newResendQueue.
  pose proof (new_queue_wf si_transfer resend_cmp resend_cmp_flip resend_cmp_trans b bud min lifetime Hq) as H1.
  destruct (setBudget _ b bud min) as [q0 b0]. destruct (if lifetime then setLifetimeBudget q0 b0 else (q0, b0)) as [q1 b1].
  destruct H1 as (Hq1 & Hb1 & Hi1). pose proof env_retain.
  assert (Hz : byteCount (counts (newSendFlightController (Some (FlightSettings settings)))) = 0).
  { unfold newSendFlightController. destruct (_ <=? _); [done|]. by destruct (0 <? _). }
  split; try done; cbn -[newSendFlightController].
  - by rewrite <- Hi1.
  - split; constructor.
  - lia.
  - split; try done; cbn.
    + by intros i id ?%not_elem_of_nil.
    + by intros id n ?%not_elem_of_nil.
  - split; [done|]. split; [done|lia].
  - pose proof (new_flight_ok (Some (FlightSettings settings))) as Hf. split; [exact Hf|reflexivity| |cbn; lia].
    change (0 <= byteCount (counts (newSendFlightController (Some (FlightSettings settings)))) <= 0 + maxFrame * (0 - 0)). rewrite Hz. lia.
Qed.

(** The last state of the loop, [K] turns after items were first written. *)
Definition run_outcome (l : list turn_input) (K : Z) (X : list (bytes * Z)) s (g : bool) : Prop :=
  exists s0 X', at_rest s0 X' [] /\ counted K s0 /\ (Forall turn_acked l -> X' = X) /\ s = (if g then s0 else teardown s0).

Lemma Run_keeps l s K X :
  at_rest s X [] -> counted K s -> 1 <= K -> K + Z.of_nat (length l) < 2 ^ 62 - 2 -> Forall turn_ok l ->
  (ss_made s + 2 * length l <= maxItems)%nat ->
  exists s' g, Run s l = Ret (s', g) /\ run_outcome l (K + Z.of_nat (length l)) X s' g.
Proof.
  revert s K X. induction l as [|x l IH]; intros s K X Hs Hc HK Hlen Hl Hm; cbn [Run length] in *.
  { exists s, true. split; [done|]. exists s, X. rewrite Z.add_0_r. by split_and!. }
  apply Forall_cons_1 in Hl as [Hx Hl]. destruct (turn_keeps s x K X [] Hs Hc) as (s1 & g & X1 & -> & H1 & C1 & M1 & HX); [lia|done|lia|].
  cbn [gbind]. destruct g.
  - destruct (IH s1 (K + 1) X1 H1 C1) as (s' & g & -> & s0 & X' & H0 & C0 & HX' & E'); [lia|lia|done|lia|]. exists s', g. split; [done|].
    exists s0, X'. split; [done|]. split; [by replace (K + Z.of_nat (S (length l))) with (K + 1 + Z.of_nat (length l)) by lia|].
    split; [|done]. intros [Ha Hl']%Forall_cons_1. rewrite (HX' Hl'). by apply HX.
  - exists (teardown s1), false. split; [done|]. exists s1, X1. split; [done|]. split; [|split; [|done]].
    + apply (counted_mono (K + 1) _ s1); [lia| |done]. intros y Hy. by exists y.
    + intros [Ha _]%Forall_cons_1. by apply HX.
Qed.

Lemma send_run_ok b bud min lifetime w l :
  send_start b bud min w l ->
  exists s g, Run (NewSendSequence b bud min lifetime w) l = Ret (s, g) /\ run_outcome l (1 + Z.of_nat (length l)) [] s g.
Proof.
  intros [H1 H2 H3 H4 H5]. apply (Run_keeps l _ 1 []); [by apply new_at_rest| |lia|lia|done|].
  - unfold NewSendSequence. destruct (newResendQueue _ _ _) as [q0 b0]. destruct (if lifetime then _ else _). by constructor.
  - unfold NewSendSequence. destruct (newResendQueue _ _ _) as [q0 b0]. destruct (if lifetime then _ else _). cbn. lia.
Qed.

(** ** Claims *)

(** The payloads that wait on contract [id]. *)
Definition waiting_on (id : bytes) (l : list sendItem) : list Z :=
  flat_map (fun i => if bool_decide (si_contract i = Some id) then [si_bytes i] else []) l.

(** C10: The sequence settles what it takes on exactly once: every ack callback it
    was handed is called once and every pooled buffer, of the packs and of the
    wire frames it makes, is returned once. While it runs, the callbacks and
    buffers still owed are exactly those of the items that wait; when [Run] has
    returned, none is. This holds, and the run ends without a panic, under the
    conditions of [EnvOk] and [send_start], which rule out the code's own
    panics: every payload fits the standard contract (else updateContract
    panics with "Message too large for contract"), whether the destination
    needs contracts does not change during the run (else an ack can panic in
    the contract's accounting), the message ids are distinct, and the counters
    of as many frames as the run can make fit 64 bits. *)
Theorem send_settles_once b bud min lifetime w l :
  send_start b bud min w l ->
  exists s g, Run (NewSendSequence b bud min lifetime w) l = Ret (s, g) /\
    flat_map gains (ss_log s) ≡ₚ flat_map settles (ss_log s) ++ (if g then flat_map owns (sendItems s) else []).
Proof.
  intros Hst. destruct (send_run_ok b bud min lifetime w l Hst) as (s & g & E1 & s0 & X & H0 & C0 & _ & ->). exists (if g then s0 else teardown s0), g.
  split; [done|]. destruct g.
  - pose proof (v_tokens _ _ _ _ _ H0) as Ht. by rewrite !app_nil_r in Ht.
  - rewrite (to_tokens _ _ _ _ (teardown_ok s0 X [] H0)). done.
Qed.

(** C12: The acknowledged messages are numbered 0, 1, 2, ... in the order of
    their first writes, none skipped and none twice; the items that wait are
    kept oldest first, and the resend queue, whatever its order, holds exactly
    those items, each under its message id. *)
Theorem send_numbers_consecutive b bud min lifetime w l :
  send_start b bud min w l ->
  exists s g, Run (NewSendSequence b bud min lifetime w) l = Ret (s, g) /\
    flat_map numbered (ss_log s) = seqZ 0 (nextSequenceNumber s) /\
    (g = true -> items (orderedItems (resendQueue s)) ≡ₚ sendItems s /\ StronglySorted Z.lt (map si_seq (sendItems s)) /\
      forall i, i ∈ sendItems s <-> GetByMessageId (resendQueue s) (si_id i) = Some i) /\
    (g = false -> items (orderedItems (resendQueue s)) = []).
Proof.
  intros Hst. destruct (send_run_ok b bud min lifetime w l Hst) as (s & g & E1 & s0 & X & H0 & C0 & _ & ->). exists (if g then s0 else teardown s0), g.
  split; [done|]. destruct g.
  - split; [apply H0|]. split; [|done]. intros _. split; [apply (v_same _ _ _ _ _ H0)|]. split; [apply (v_keys _ _ _ _ _ H0)|].
    intros i. symmetry. by apply (queued_elem s0 X []).
  - pose proof (teardown_ok s0 X [] H0) as [[T1 _] _ _ _ [T2 _] _ _]. by split_and!.
Qed.

(** C11: When every message asks for an ack, the books of the contracts agree
    with the queue after any run: an open contract's unacked bytes are the
    charges of exactly the items that wait on it, and acked and unacked together
    stay within what the contract allows. Once [Run] has returned nothing is left
    unacked, and its last events close every open contract with its counts. *)
Theorem send_contract_ledger b bud min lifetime w l :
  send_start b bud min w l -> Forall turn_acked l ->
  exists s g, Run (NewSendSequence b bud min lifetime w) l = Ret (s, g) /\
    (forall id c, openSendContracts s !! id = Some c ->
       unackedByteCount c = (if g then sumZ (map (effective c) (waiting_on id (sendItems s))) else 0) /\
       ackedByteCount c + unackedByteCount c <= effectiveTransferByteCount c) /\
    (g = true -> forall i id, i ∈ sendItems s -> si_contract i = Some id -> is_Some (openSendContracts s !! id)) /\
    (g = false -> exists l, ss_log s = l ++ closings (openSendContracts s) ++ [EvFlushContracts]).
Proof.
  intros Hst Hl. destruct (send_run_ok b bud min lifetime w l Hst) as (s & g & E1 & s0 & X & H0 & C0 & HX & ->). rewrite (HX Hl) in *.
  exists (if g then s0 else teardown s0), g. split; [done|]. destruct g.
  - pose proof (v_contracts _ _ _ _ _ H0) as Hc. rewrite app_nil_r in Hc. split; [|split; [|done]].
    + intros id c Ho. destruct (co_open _ _ _ Hc id c Ho) as (_ & _ & [_ _ _ [A4 _] A5]). cbn [ac_contract ac_open] in *.
      split; [|done]. rewrite A4. unfold charges, waiting_on. cbn. by rewrite app_nil_r.
    + intros _ i id. apply (co_owed _ _ _ Hc).
  - pose proof (teardown_ok s0 [] [] H0) as [_ _ _ _ _ Hc Hl']. split; [|split; [done|done]].
    intros id c Ho. destruct (co_open _ _ _ Hc id c Ho) as (_ & _ & [_ _ _ [A4 _] A5]). by cbn in *.
Qed.

(** C14: A cumulative ack settles exactly the items it covers: after any run, an
    ack of a waiting item calls back, with no error and in order, the items up
    to it that have a callback, and leaves the others waiting; nothing else is
    called. *)
Theorem send_cumulative_ack b bud min lifetime w l tag :
  send_start b bud min w l ->
  exists s g, Run (NewSendSequence b bud min lifetime w) l = Ret (s, g) /\
    (g = true -> forall i, i ∈ sendItems s ->
       exists s', receiveAck s (si_id i) false tag = Ret s' /\
         sendItems s' = filter (fun x => si_seq i < si_seq x) (sendItems s) /\
         calls s' = calls s ++ flat_map (fired true) (filter (fun x => si_seq x <= si_seq i) (sendItems s))).
Proof.
  intros Hst. destruct (send_run_ok b bud min lifetime w l Hst) as (s & g & E1 & s0 & X & H0 & C0 & _ & ->). exists (if g then s0 else teardown s0), g.
  split; [done|]. intros -> i Hi. destruct (cumulative_ack_ok s0 i X [] H0 Hi tag) as (s' & Ea & _ & _ & E2 & E3). by exists s'.
Qed.

(** C13: The part of a turn before the select ends: after any run, the acks, the
    resend pass and the backstop scan return, and when the sequence goes on to
    wait, every item that is left is due after the pass's reading of the clock
    and none has its backstop behind it. *)
Theorem send_pass_terminates b bud min lifetime w l x :
  send_start b bud min w l ->
  exists s g, Run (NewSendSequence b bud min lifetime w) l = Ret (s, g) /\
    (g = true -> exists s' r, before_select s x = Ret (s', r) /\
       (is_Some r -> exists k, (reads s <= k <= reads s')%nat /\ settled (clock k) s')).
Proof.
  intros Hst. destruct (send_run_ok b bud min lifetime w l Hst) as (s & g & E1 & s0 & X & H0 & C0 & _ & ->). exists (if g then s0 else teardown s0), g.
  split; [done|]. intros ->. destruct (send_before_ok s0 x _ X [] H0 C0) as (s' & r & Eb & _ & _ & _ & Hr); [pose proof (st_count _ _ _ _ _ Hst); lia|].
  by exists s', r.
Qed.

(** C36: The bytes of retained items are counted exactly and stay within the cap:
    after any run the counter is the sum of the charges of the waiting items that
    are retained, each charge positive, and it is at most a quarter of the
    queue's limit, as the code computes it; after the teardown it is 0. *)
Theorem send_retained_bounded b bud min lifetime w l :
  send_start b bud min w l ->
  exists s g, Run (NewSendSequence b bud min lifetime w) l = Ret (s, g) /\
    retainedByteCount s = (if g then sumZ (map retained_of (sendItems s)) else 0) /\
    retainedByteCount s <= retainCap (ResendQueueMaxByteCount settings) /\
    (g = true -> forall i, i ∈ sendItems s -> si_retained i = true -> 0 < retained_of i).
Proof.
  intros Hst. destruct (send_run_ok b bud min lifetime w l Hst) as (s & g & E1 & s0 & X & H0 & C0 & _ & ->). exists (if g then s0 else teardown s0), g.
  split; [done|]. destruct g.
  - pose proof (v_retained _ _ _ _ _ H0) as (R1 & _ & R3). rewrite app_nil_r in R1. split; [done|]. split; [done|].
    intros _ i Hi Hr. pose proof (v_retention _ _ _ _ _ H0) as Hret. rewrite list.Forall_forall in Hret.
    destruct (Hret i Hi Hr) as [Hch Hrel]. unfold retained_of. by rewrite Hr, Hrel.
  - pose proof (teardown_ok s0 X [] H0) as [[_ T1] _ _ _ _ _ _]. rewrite T1. split; [done|]. split; [|done].
    pose proof env_retain. lia.
Qed.

End run.

(** ** When the need for contracts changes

    The code asks at every message whether the destination needs contracts
    ([SendNoContract]), but charges the message to the current contract all the
    same. Nothing here relies on [EnvOk], which excludes such a change. *)
Section exemption.
Context {B H : Type} {MP : MemoryPool B H} {PG : MessagePool} {E : SendEnv}.
Abbreviation SS := (@SendSequence B H).
Implicit Types (s : SS) (i : sendItem).

Lemma yields_panic {A} (m : go A) : yields m (fun _ => False) -> m = Panic.
Proof. by destruct m. Qed.

(** What settling reads of the state. *)
Definition books s := (sendItems s, openSendContracts s).

Lemma release_books s i : yields (releaseUnreliableFlight s i) (fun '(s', i') => books s' = books s /\ si_key i' = si_key i).
Proof. unfold releaseUnreliableFlight. destruct (negb _); [done|]. by destruct (acknowledgeForKey _ _ _ _). Qed.

Lemma observeAckRtt_books s i tag :
  yields (observeAckRtt s i tag) (fun s' => books s' = books s /\ resendQueue s' = resendQueue s).
Proof. unfold observeAckRtt. destruct (unreliableCarrierObserved _); [done|]. destruct tag; [|done]. by destruct (closeSendTime _ _ _). Qed.

Lemma q_remove_books s i :
  GetByMessageId (resendQueue s) (si_id i) = Some i ->
  yields (q_remove s (si_id i)) (fun '(s', x) => books s' = books s /\ x = Some i).
Proof.
  unfold GetByMessageId, q_remove, RemoveByMessageId, TransferQueue.remove. intros ->. destruct (heap_Remove _ _ _) as [[o p]|]; [|done]. cbn.
  case_bool_decide; [|done]. destruct (heap_Remove _ _ _) as [[m q]|]; [|done]. cbn. by destruct (updateByteCountWithLock _ _ _ _).
Qed.

(** An item whose contract does not carry its charge panics when it settles. *)
Lemma unpaid_item_panics s i id c y :
  si_contract i = Some id -> openSendContracts s !! id = Some c -> unackedByteCount c < effective c (si_bytes i) -> ackItemCounted s i y = Panic.
Proof.
  intros Hi Hc Hu. unfold ackItemCounted. set (s0 := if y then _ else s). assert (H0 : openSendContracts s0 = openSendContracts s) by (unfold s0; by destruct y).
  apply yields_panic. eapply yields_bind; [apply release_books|]. intros [s1 i1] [[= _ Eo] Ek].
  unfold ack_contract, si_contract, si_bytes in *. rewrite Ek, Hi, Eo, H0, Hc. unfold ack. rewrite (proj2 (Z.ltb_lt _ _)) by done. done.
Qed.

Lemma unpaid_ack_panics s i rest id c tag :
  sendItems s = i :: rest -> GetByMessageId (resendQueue s) (si_id i) = Some i -> si_contract i = Some id ->
  openSendContracts s !! id = Some c -> unackedByteCount c < effective c (si_bytes i) -> receiveAck s (si_id i) false tag = Panic.
Proof.
  intros Hl Hq Hi Hc Hu. unfold receiveAck. rewrite Hq. apply yields_panic. eapply yields_bind; [apply observeAckRtt_books|].
  intros s1 [[= E1 O1] Q1]. eapply (yields_bind _ _ (fun _ => False)); [|done]. rewrite E1, Hl. cbn [ack_walk]. rewrite Z.ltb_irrefl.
  eapply yields_bind; [apply q_remove_books; by rewrite Q1|]. intros [s2 x] [[= _ O2] ->].
  eapply (yields_bind _ _ (fun '(s', i') => books s' = books s2 /\ si_key i' = si_key i)).
  { destruct (selectiveAcked _); [done|apply release_books]. }
  intros [s3 i3] [[= _ O3] K3]. set (y := if si_retained i3 then _ else _).
  assert (Hy : openSendContracts (fst y) = openSendContracts s3 /\ si_key (snd y) = si_key i3).
  { unfold y. destruct (si_retained i3); [|done]. unfold releaseRetained. by destruct (retainedReleased _). }
  destruct y as [s4 i4]. destruct Hy as [O4 K4]. cbn [fst snd] in *. unfold ackItem.
  unfold si_contract, si_bytes in *. rewrite (unpaid_item_panics s4 i4 id c); [done| | |]; unfold si_contract, si_bytes; rewrite ?K4, ?K3; try done.
  by rewrite O4, O3, O2, O1.
Qed.

(** A message made while a contract is current is charged to it. *)
Lemma make_item_charged s f cb setContract forced retain id c :
  rtt_ok (ss_rtt s) -> sendContract s = Some id -> openSendContracts s !! id = Some c ->
  exists s' i, make_item s [f] cb true setContract forced retain = Ret (s', i, true) /\ books s' = books s /\
    si_contract i = Some id /\ si_bytes i = frames_MessageByteCount [f] /\ si_id i = itemId (ss_made s).
Proof.
  intros Hr Hs Hc. unfold make_item, now, current. cbn [sendContract tick set_aux openSendContracts]. rewrite Hs, Hc. cbn [gbind orb andb].
  unfold encode, now.
  destruct (2 <=? _); match goal with |- context [ScaledRtt ?s1] => destruct (ScaledRtt_ret s1 Hr) as (w & v & -> & _) end; by eexists _, _.
Qed.

Lemma write_books s b forced ro : books (fst (writeMaybeWrappedBytes s b forced ro)) = books s.
Proof. unfold writeMaybeWrappedBytes. cbn. unfold route_write. by repeat case_match. Qed.
Lemma observe_books s i d : books (fst (observeCarrierWrite s i d)) = books s /\ si_key (snd (observeCarrierWrite s i d)) = si_key i.
Proof.
  unfold observeCarrierWrite, now. set (s0 := match retainedSilenceStart _ with Some _ => s | None => _ end).
  assert (H0 : books s0 = books s) by (unfold s0; by destruct (retainedSilenceStart _)). cbn zeta.
  destruct (negb _); [by destruct (_ && _)|]. unfold trackUnreliableFlight. destruct (si_tracked _); [done|].
  by destruct (sendForKey _ _ _).
Qed.

(** The message waits, charged to the contract, whose account has not moved. *)
Lemma send_charged s p id c :
  rtt_ok (ss_rtt s) -> sk_Ack p = true -> sendContract s = Some id -> openSendContracts s !! id = Some c ->
  exists s' i, send s p = Ret s' /\ sendItems s' = sendItems s ++ [i] /\ GetByMessageId (resendQueue s') (si_id i) = Some i /\
    si_id i = itemId (ss_made s) /\ si_contract i = Some id /\ si_bytes i = frames_MessageByteCount [sk_Frame p] /\
    openSendContracts s' = openSendContracts s.
Proof.
  intros Hr Ha Hs Hc. unfold send, sendWithSetContract. rewrite Ha.
  destruct (make_item_charged s (sk_Frame p) (option_map CbUser (sk_AckCallback p)) false (sk_ForceUnwrapped p) (sk_RetainAfterAckTimeout p) id c Hr Hs Hc)
    as (s1 & i1 & -> & B1 & Hi & Hb & Hid). cbn [gbind].
  assert (B2 : books (fst (reliableOnlyWriteNow s1)) = books s1) by (unfold reliableOnlyWriteNow; by destruct (negb _)).
  destruct (reliableOnlyWriteNow s1) as [s2 ro]. cbn [fst] in B2.
  pose proof (write_books s2 (transferFrameBytes (si_wire i1)) (sk_ForceUnwrapped p) ro) as B3.
  destruct (writeMaybeWrappedBytes s2 _ _ ro) as [s3 [d ok]]. cbn [fst] in B3.
  set (y := if ok then _ else (s3, i1)). assert (By : books (fst y) = books s3 /\ si_key (snd y) = si_key i1).
  { unfold y. destruct ok; [|done]. destruct (observe_books (emit s3 (EvFirstSend (wire_len i1))) i1 d) as [H1 H2]. by rewrite H1. }
  destruct y as [s4 i4]. destruct By as [B4 K4]. cbn [fst snd] in *.
  assert (B5 : books (fst (admit_retained s4 i4)) = books s4 /\ si_key (snd (admit_retained s4 i4)) = si_key i4).
  { unfold admit_retained. destruct (negb _); [done|]. by destruct (_ <? _). }
  destruct (admit_retained s4 i4) as [s5 i5]. destruct B5 as [B5 K5]. cbn [fst snd gbind] in *.
  assert (Eb : books s5 = books s) by congruence. injection Eb as E1 E2. assert (Ek : si_key i5 = si_key i1) by congruence.
  unfold si_id, si_contract, si_bytes in *. unfold q_add. destruct (Add _ _ _ _ i5) as [q b] eqn:Eadd.
  eexists _, i5. split; [done|]. split; [cbn; by rewrite E1|]. rewrite Ek. split_and!; try done.
  unfold Add in Eadd. destruct (update_items _ _ _ _ _ _ Eadd) as (_ & _ & Em & _). unfold GetByMessageId.
  cbn [resendQueue emit set_queue]. rewrite Em, <- Ek. apply lookup_insert_eq.
Qed.

(** C37: When the destination no longer needs contracts while one is open, the
    next message that is to be acknowledged is not debited, but is charged to
    the open contract all the same: if that contract does not happen to carry
    other unacknowledged bytes to cover it, the cumulative ack of the message
    panics in the contract's accounting. The state is any in which no message
    waits; nothing else but a working round-trip window is assumed. *)
Theorem contract_exemption_panics s p attempts id c tag :
  rtt_ok (ss_rtt s) -> sendItems s = [] -> sendContract s = Some id -> openSendContracts s !! id = Some c ->
  sk_Ack p = true -> unackedByteCount c < effective c (frames_MessageByteCount [sk_Frame p]) -> SendNoContract (reads s) = true ->
  exists s1 s2 i, updateContract s (sk_MessageByteCount p) attempts = Ret (s1, true) /\ send s1 p = Ret s2 /\
    sendItems s2 = [i] /\ si_contract i = Some id /\ openSendContracts s2 !! id = Some c /\
    receiveAck s2 (si_id i) false tag = Panic.
Proof.
  intros Hr Hl Hs Hc Ha Hu Hno. unfold updateContract. rewrite Hno.
  destruct (send_charged (tick s) p id c Hr Ha Hs Hc) as (s2 & i & E2 & L2 & Q2 & _ & Hi & Hb & O2).
  cbn [sendItems openSendContracts tick set_aux] in *. rewrite Hl in L2. exists (tick s), s2, i. split_and!; try done; [by rewrite O2|].
  apply (unpaid_ack_panics s2 i [] id c); [done|done|done|by rewrite O2|by rewrite Hb].
Qed.
End exemption.

(** ** Witnesses *)

(** A tenth of a second passes between two readings; every contract frame holds a
    contract of 100000 bytes; the legacy frames are three bytes long. *)
Definition demo_send_settings (min : Z) : SendSettings := MkSendSettings 60000000000 60000000000 300000000000 5000000000 0 300000000000 0 false min 1000000
  (float32_of_float64 (float64_const 7 10)) 1 {|
    UnreliableInitialFlightByteCount := 0; UnreliableMinimumFlightByteCount := 0; UnreliableMaximumFlightByteCount := 0;
    UnreliableFlightIncreaseByteCount := 0; UnreliableInitialFlightMessageCount := 0; UnreliableMinimumFlightMessageCount := 0;
    UnreliableMaximumFlightMessageCount := 0; UnreliableFlightIncreaseMessageCount := 0; UnreliableSlowStartGrowthDivisor := 0 |}.
Definition demo_offer : StoredContract := MkStoredContract (replicate 16 9) 100000 None None None [] [] [] None.

(** [writes]: whether the n-th reading's write succeeds. *)
Definition demo_send_env (noContract : nat -> bool) (writes : nat -> bool) (ss : option session_ops) : SendEnv := {|
  settings := demo_send_settings 10;
  clock n := 100000000 * Z.of_nat n;
  itemId n := u8 (Z.of_nat n) :: u8 (Z.of_nat n / 256) :: replicate 14 0;
  newId _ := replicate 16 0;
  sequenceId := replicate 16 1;
  clientId := replicate 16 2;
  destination := demo_transfer_path;
  encryptionServer := false;
  encryptionCompanion := false;
  unmarshalStored _ := Some demo_offer;
  marshalContract _ := [4];
  legacyMarshal _ := [1; 2; 3];
  protoUnmarshalTransferFrame _ := Some (MkTransferFrame None None (Some emptyPack) None None None None);
  protoUnmarshalPack _ := None;
  protoMarshalTransferFrame _ := Some [1; 2; 3; 4];
  protoMarshalPack _ := None;
  outerFrame b := Some (0 :: b);
  flightPolicyAt _ := (Snapshot 0 false 0 0 false, true);
  routeWrite n _ _ := (MkDisposition true false true false (Some 0%nat), writes n);
  session := ss;
  retryAllowed _ n := (true, n);
  SendNoContract := noContract;
  StandardContractTransferByteCount _ := 1000000;
|}.

(** What the sizes of the demo come to at any fill fraction. *)
Lemma demo_size (T : Z) mT eT lo hi v :
  float32_of_Z T = S754_finite false mT (- Z.pos eT) -> Z.pos eT <= 100 ->
  2 ^ 47 <= Z.pos mT * 11744051 -> Z.pos mT * 14260634 < 2 ^ 48 - 2 ^ 24 ->
  lo * 2 ^ Z.pos eT * 2 ^ 24 <= Z.pos mT * 11744051 -> Z.pos mT * 14260634 < (hi - 1) * 2 ^ Z.pos eT * 2 ^ 24 -> 0 <= lo -> hi <= MaxInt64 ->
  - 9223372036854775808 <= v <= MaxInt64 ->
  lo <= int64_of_float32 (float32_mul (float32_of_Z T) (computeFillFraction v (ContractFillFraction (demo_send_settings 10)))) < hi.
Proof.
  intros -> He Hlo Hhi Kl Kh K0 K1 Hv.
  destruct (fill_unit v (ContractFillFraction (demo_send_settings 10)) 11744051 Hv) as (m & -> & Hm); [vm_compute; reflexivity|lia|].
  destruct (mul_fill mT (- Z.pos eT) m) as (q & -> & Hq); [|lia|].
  { change (2 ^ 47) with 140737488355328 in *. change (2 ^ 48 - 2 ^ 24) with 281474959933440 in *. nia. }
  unfold int64_of_float32. rewrite (proj2 (Z.leb_gt 0 _)) by lia. rewrite Z.opp_involutive.
  assert (H2 : 0 < 2 ^ Z.pos eT) by (apply Z.pow_pos_nonneg; lia). change (2 ^ 24) with 16777216 in *.
  assert (B1 : lo <= Z.pos q / 2 ^ Z.pos eT).
  { apply Z.div_le_lower_bound; [lia|]. pose proof (Z.div_le_lower_bound (Z.pos mT * Z.pos m) 16777216 (lo * 2 ^ Z.pos eT) ltac:(lia) ltac:(nia)). lia. }
  assert (B2 : Z.pos q / 2 ^ Z.pos eT < hi).
  { apply Z.div_lt_upper_bound; [lia|]. pose proof (Z.div_lt_upper_bound (Z.pos mT * Z.pos m) 16777216 ((hi - 1) * 2 ^ Z.pos eT) ltac:(lia) ltac:(nia)). nia. }
  unfold MaxInt64 in *. rewrite (proj2 (Z.leb_le _ _)) by lia. rewrite (proj2 (Z.leb_le _ _)) by lia. cbn. lia.
Qed.

Lemma demo_send_env_ok noContract writes ss :
  (forall n, noContract n = true) \/ (forall n, noContract n = false) -> @EnvOk dirty_pool (demo_send_env noContract writes ss).
Proof.
  intros Hn. refine (@Build_EnvOk dirty_pool (demo_send_env noContract writes ss) 1000 100 1000 _ _ _ _ _ _ _ _ _ _ _ _ _ _).
  - intros n m Hn' Hm' [= E1 E2]. unfold u8 in *. Z.div_mod_to_equations. lia.
  - cbn. lia.
  - lia.
  - lia.
  - intros b st [= <-]. cbn. repeat constructor; lia.
  - intros b (k & n & h & a & fs & cf & tag & cid & _ & _ & _ & ->). cbn. lia.
  - by intros b tf _ [= <-].
  - intros b tf pk tag cf b' _ [= <-] _ _ [= <-]. cbn. lia.
  - vm_compute. split; discriminate.
  - vm_compute. split; discriminate.
  - cbn. lia.
  - exact Hn.
  - intros ct v lid c Hv E.
    pose proof (demo_size 100000 12800000 7 0 (2 ^ 62) v ltac:(vm_compute; reflexivity) ltac:(lia) ltac:(lia) ltac:(lia) ltac:(lia) ltac:(lia) ltac:(lia)
      ltac:(unfold MaxInt64; lia) Hv) as Hf.
    cbv [newSequenceContract] in E. cbn -[computeFillFraction float32_mul float32_of_Z int64_of_float32 Z.pow Z.lt] in E.
    injection E as <-. exact (proj2 Hf).
  - intros n v Hv.
    pose proof (demo_size 1000000 16000000 4 1010 (2 ^ 62) v ltac:(vm_compute; reflexivity) ltac:(lia) ltac:(lia) ltac:(lia) ltac:(lia) ltac:(lia) ltac:(lia)
      ltac:(unfold MaxInt64; lia) Hv) as Hf. exact (proj1 Hf).
Defined.

Definition demo_send_E : SendEnv := demo_send_env (fun _ => false) (fun _ => true) None.
Definition demo_window : RttWindow :=
  match NewRttWindow 8 60000000000 (float32_of_Z 2) 100000000 [5000000000] with
  | Ret w => w
  | Panic => Window 0 (float32_of_Z 2) 0 0 0 [] 0 0 newRttHeap []
  end.
Definition demo_pack (n : nat) (ack retain : bool) : SendPack :=
  MkSendPack (MkFrame 16 (Some [69; 0; 0; 20]) true) n (Some n) 4 ack false retain.
Definition demo_take (n : nat) (ack retain : bool) : turn_input :=
  TurnInput None [] (SelPack (demo_pack n ack retain) [MkAttempt false (Some (MkContract [] [] 3 [] [] []))]).
Definition demo_ack (k : Z) : turn_input := TurnInput (Some (SequenceAck 1 (k :: replicate 15 0) false None false)) [] SelAcks.
(** Two messages, an ack of the first, and the end of the context. *)
Definition demo_turns : list turn_input := [demo_take 0 true false; demo_take 1 true true; demo_ack 1; TurnInput None [] SelDone].
Definition demo_send_sequence : @SendSequence (world * (nat -> Z)) nat :=
  NewSendSequence (E := demo_send_E) demo_pool (Some 0%nat) 0 false demo_window.

#[local] Instance demo_send_EO : @EnvOk dirty_pool demo_send_E.
Proof. apply demo_send_env_ok. right. reflexivity. Defined.

Lemma demo_window_ok : rtt_ok demo_window.
Proof.
  destruct (new_wf 8 60000000000 (float32_of_Z 2) 100000000 [5000000000] ltac:(lia)) as (w & E & Hw & _).
  unfold demo_window. rewrite E. vm_compute in E. injection E as <-. split; [exact Hw|]. vm_compute. repeat split; reflexivity.
Qed.

Lemma demo_started (l : list turn_input) :
  forallb (fun x => match in_case x with SelPack p _ => (sk_MessageByteCount p =? Z.of_nat (length (bval (MessageBytes (sk_Frame p))))) && (sk_MessageByteCount p <=? 1000) | _ => true end) l = true ->
  (length l <= 500)%nat -> @send_start (world * (nat -> Z)) nat _ _ dirty_pool demo_send_E demo_send_EO demo_pool (Some 0%nat) 0 demo_window l.
Proof.
  intros Hl Hn. split.
  - split; [unfold MaxInt64; lia|apply demo_pool_ok].
  - exact demo_window_ok.
  - clear Hn. induction l as [|x l IH]; [constructor|]. cbn [forallb] in Hl. apply andb_prop in Hl as [Hx Hl]. constructor; [|by apply IH].
    unfold turn_ok, case_ok. destruct (in_case x); try done. apply andb_prop in Hx as [H1%Z.eqb_eq H2%Z.leb_le]. exact (conj H1 H2).
  - change maxItems with 1000%nat. lia.
  - lia.
Qed.

Lemma demo_turns_start : @send_start (world * (nat -> Z)) nat _ _ dirty_pool demo_send_E demo_send_EO demo_pool (Some 0%nat) 0 demo_window demo_turns.
Proof. apply demo_started; [reflexivity|cbn; lia]. Qed.

Lemma send_settles_once_witness :
  exists s g, Run (E := demo_send_E) demo_send_sequence demo_turns = Ret (s, g) /\ g = false /\
    flat_map gains (ss_log s) ≡ₚ flat_map settles (ss_log s).
Proof.
  destruct (send_settles_once (E := demo_send_E) demo_pool (Some 0%nat) 0 false demo_window demo_turns demo_turns_start) as (s & g & Er & Ht).
  exists s, g. split; [exact Er|].
  assert (E : match Run (E := demo_send_E) demo_send_sequence demo_turns with Ret (_, g) => g = false | Panic => False end) by (vm_compute; reflexivity).
  unfold demo_send_sequence in E. rewrite Er in E. subst g. rewrite app_nil_r in Ht. exact (conj eq_refl Ht).
Defined.

(** Two messages sent, the first acked, the other waiting and retained. *)
Definition demo_running : list turn_input := [demo_take 0 true false; demo_take 1 true true; demo_ack 1].
Lemma demo_running_start : @send_start (world * (nat -> Z)) nat _ _ dirty_pool demo_send_E demo_send_EO demo_pool (Some 0%nat) 0 demo_window demo_running.
Proof. apply demo_started; [reflexivity|cbn; lia]. Qed.
Lemma demo_running_run :
  match Run (E := demo_send_E) demo_send_sequence demo_running with
  | Ret (s, g) => g = true /\ nextSequenceNumber s = 3 /\ map si_seq (sendItems s) = [2] /\ map si_id (sendItems s) = [2 :: replicate 15 0] /\
      map si_retained (sendItems s) = [true] /\ map (fun c => (contractId c, ackedByteCount c, unackedByteCount c)) (map snd (map_to_list (openSendContracts s))) =
      [(replicate 16 9, 20, 10)]
  | Panic => False
  end.
Proof. vm_compute. repeat split. Qed.

Lemma send_numbers_consecutive_witness :
  exists s g, Run (E := demo_send_E) demo_send_sequence demo_running = Ret (s, g) /\ flat_map numbered (ss_log s) = [0; 1; 2] /\
    items (orderedItems (resendQueue s)) ≡ₚ sendItems s.
Proof.
  destruct (send_numbers_consecutive (E := demo_send_E) demo_pool (Some 0%nat) 0 false demo_window demo_running demo_running_start)
    as (s & g & Er & Hn & Hq & _).
  exists s, g. split; [exact Er|]. pose proof demo_running_run as Ed. unfold demo_send_sequence in Ed. rewrite Er in Ed.
  destruct Ed as (-> & En & _). rewrite Hn, En. split; [reflexivity|]. exact (proj1 (Hq eq_refl)).
Defined.

Lemma send_contract_ledger_witness :
  exists s g c, Run (E := demo_send_E) demo_send_sequence demo_running = Ret (s, g) /\ openSendContracts s !! replicate 16 9 = Some c /\
    unackedByteCount c = sumZ (map (effective c) (waiting_on (replicate 16 9) (sendItems s))) /\
    ackedByteCount c + unackedByteCount c <= effectiveTransferByteCount c.
Proof.
  destruct (send_contract_ledger (E := demo_send_E) demo_pool (Some 0%nat) 0 false demo_window demo_running demo_running_start)
    as (s & g & Er & Hc & Ho & _); [by repeat constructor|].
  pose proof demo_running_run as Ed. unfold demo_send_sequence in Ed. rewrite Er in Ed. destruct Ed as (-> & _ & _ & _ & _ & _).
  assert (E : match Run (E := demo_send_E) demo_send_sequence demo_running with
              | Ret (s, g) => is_Some (openSendContracts s !! replicate 16 9) | Panic => False end) by (vm_compute; eauto).
  unfold demo_send_sequence in *. rewrite Er in E. destruct E as [c Eo]. exists s, true, c. split; [exact Er|]. split; [exact Eo|].
  exact (Hc _ c Eo).
Defined.

Lemma send_cumulative_ack_witness :
  exists s g i s', Run (E := demo_send_E) demo_send_sequence demo_running = Ret (s, g) /\
    receiveAck (E := demo_send_E) s (si_id i) false None = Ret s' /\ sendItems s' = filter (fun x => si_seq i < si_seq x) (sendItems s).
Proof.
  destruct (send_cumulative_ack (E := demo_send_E) demo_pool (Some 0%nat) 0 false demo_window demo_running None demo_running_start)
    as (s & g & Er & Ha).
  pose proof demo_running_run as Ed. unfold demo_send_sequence in Ed. rewrite Er in Ed. destruct Ed as (-> & _ & Es & _).
  destruct (sendItems s) as [|i l] eqn:El; [discriminate|].
  destruct (Ha eq_refl i (list_elem_of_here _ _)) as (s' & E1 & E2 & _). exists s, true, i, s'. rewrite El. exact (conj Er (conj E1 E2)).
Defined.

Lemma send_pass_terminates_witness :
  exists s g s' r, Run (E := demo_send_E) demo_send_sequence demo_running = Ret (s, g) /\
    before_select (E := demo_send_E) s (TurnInput None [] SelAcks) = Ret (s', r).
Proof.
  destruct (send_pass_terminates (E := demo_send_E) demo_pool (Some 0%nat) 0 false demo_window demo_running (TurnInput None [] SelAcks) demo_running_start)
    as (s & g & Er & Hb).
  pose proof demo_running_run as Ed. unfold demo_send_sequence in Ed. rewrite Er in Ed. destruct Ed as (-> & _).
  destruct (Hb eq_refl) as (s' & r & E1 & _). exists s, true, s', r. exact (conj Er E1).
Defined.

Lemma send_retained_bounded_witness :
  exists s g, Run (E := demo_send_E) demo_send_sequence demo_running = Ret (s, g) /\
    retainedByteCount s = sumZ (map retained_of (sendItems s)) /\ retainedByteCount s <= 250000.
Proof.
  destruct (send_retained_bounded (E := demo_send_E) demo_pool (Some 0%nat) 0 false demo_window demo_running demo_running_start)
    as (s & g & Er & H1 & H2 & _).
  pose proof demo_running_run as Ed. unfold demo_send_sequence in Ed. rewrite Er in Ed. destruct Ed as (-> & _).
  exists s, true. exact (conj Er (conj H1 H2)).
Defined.


(** ** What the model shows of the code's errors *)

Definition run_in (env : SendEnv) (l : list turn_input) : go (@SendSequence (world * (nat -> Z)) nat * bool) :=
  Run (E := env) (NewSendSequence (E := env) demo_pool (Some 0%nat) 0 false demo_window) l.

(** A message without an ack whose write fails keeps its contract debit: the
    error branch calls back and returns the buffer but never unacks. Here one
    message is sent and acked, the next asks for no ack and its write fails; no
    item waits any more, every callback and buffer is settled, and the contract
    is closed with 10 bytes still unacked. *)
Theorem nack_failure_leaks_debit :
  match run_in (demo_send_env (fun _ => false) (fun n => (n <? 32)%nat) None)
          [demo_take 0 true false; demo_ack 1; demo_take 1 false false; TurnInput None [] SelDone] with
  | Ret (s, g) => g = false /\ sendItems s = [] /\ calls s = [(0%nat, true); (1%nat, false)] /\
      exists l, ss_log s = l ++ [EvCloseContract (replicate 16 9) 20 10; EvFlushContracts]
  | Panic => False
  end.
Proof.
  vm_compute. split; [reflexivity|]. split; [reflexivity|]. split; [reflexivity|].
  match goal with |- exists l, ?log = _ => exists (take (length log - 2) log) end. vm_compute. reflexivity.
Qed.

(** Contracts stop being needed after the first 20 readings: by then the first
    message has opened a contract and both are acknowledged. *)
Definition demo_exempt_env : SendEnv := demo_send_env (fun n => (20 <? n)%nat) (fun _ => true) None.
Definition demo_exempt_turns : list turn_input := [demo_take 0 true false; demo_ack 1; TurnInput None [] SelAcks; TurnInput None [] SelAcks].
Definition demo_exempt_state : @SendSequence (world * (nat -> Z)) nat :=
  match Run (E := demo_exempt_env) (NewSendSequence (E := demo_exempt_env) demo_pool (Some 0%nat) 0 false demo_window) demo_exempt_turns with
  | Ret (s, _) => s
  | Panic => demo_send_sequence
  end.

(** Up to then the run is that of a destination that needs contracts. *)
Lemma demo_exempt_rtt : rtt_ok (ss_rtt demo_exempt_state).
Proof.
  destruct (send_run_ok (PG := dirty_pool) (E := demo_send_E) (EO := demo_send_EO) demo_pool (Some 0%nat) 0 false demo_window demo_exempt_turns) as (s & g & E1 & s0 & X & H0 & _ & _ & Es).
  { apply demo_started; [reflexivity|cbn; lia]. }
  assert (E2 : match Run (E := demo_send_E) demo_send_sequence demo_exempt_turns with
               | Ret (s, g) => ss_rtt s = ss_rtt demo_exempt_state /\ g = true | Panic => False end) by (vm_compute; split; reflexivity).
  unfold demo_send_sequence in E2. rewrite E1 in E2. destruct E2 as [E2 ->]. subst s. rewrite <- E2. apply (v_rtt _ _ _ _ _ H0).
Qed.

Lemma contract_exemption_panics_witness :
  exists s1 s2 i, updateContract (E := demo_exempt_env) demo_exempt_state 4 [] = Ret (s1, true) /\
    send (PG := dirty_pool) (E := demo_exempt_env) s1 (demo_pack 1 true false) = Ret s2 /\ sendItems s2 = [i] /\
    receiveAck (E := demo_exempt_env) s2 (si_id i) false None = Panic.
Proof.
  assert (Hc : exists c, openSendContracts demo_exempt_state !! replicate 16 9 = Some c /\
                 unackedByteCount c < effective c (frames_MessageByteCount [sk_Frame (demo_pack 1 true false)])).
  { vm_compute. eexists. split; [reflexivity|]. reflexivity. }
  destruct Hc as (c & Hc & Hu).
  destruct (contract_exemption_panics (PG := dirty_pool) (E := demo_exempt_env) demo_exempt_state (demo_pack 1 true false) [] (replicate 16 9) c None)
    as (s1 & s2 & i & E1 & E2 & E3 & _ & _ & E4).
  - exact demo_exempt_rtt.
  - vm_compute. reflexivity.
  - vm_compute. reflexivity.
  - exact Hc.
  - reflexivity.
  - exact Hu.
  - vm_compute. reflexivity.
  - exists s1, s2, i. split; [exact E1|]. split; [exact E2|]. split; [exact E3|exact E4].
Defined.
