(* ===== verification/SendTrace.v ===== *)
(** What the log of a send sequence tells its peer: every frame on the wire is a
    copy of a numbered message that was taken, a head is announced only when
    everything before it is settled, and a callback succeeds only for a message
    that a cumulative ack covers. Delivery.v joins this with the receiver. *)
From stdpp Require Import sorting.
From S2P Require Import Prelude GoIo NetId TransferPath FrameCodec AckWindow GoHeap MemoryBudget TransferQueue RttWindow SequenceContract FlightController SendSequence SendNumbers SendOrder SendRun.

(** ** What a wire frame says *)

(** A message as it was sent: what identifies it, whether it is numbered, and its
    frames as a receiver decodes them. *)
Record message := Message {
  m_key : itemKey;
  m_ack : bool;
  m_frames : list Frame;
}.
Definition m_seq (m : message) : Z := ik_sequenceNumber (m_key m).
Definition m_id (m : message) : bytes := ik_messageId (m_key m).
Definition m_cb (m : message) : option AckFunction := ik_ackCallback (m_key m).

(** An id and frames that decode as they are: an empty byte string decodes to nil. *)
Definition canonical (m : message) : Prop := m_id m <> [] /\ Forall (fun f => canon_frame f = f) (m_frames m).

(** [b] decodes, with or without its path, to a pack that carries [m]. *)
Definition reads_as (b : bytes) (m : message) (hd : bool) : Prop :=
  canonical m /\ forall d, exists tf pk, unmarshalTransferFrame b emptyTransferFrame d = Ret (Some tf) /\ tf_Pack tf = Some pk /\
    FrameCodec.MessageId pk = Some (m_id m) /\ FrameCodec.SequenceNumber pk = m_seq m /\ Head pk = hd /\
    Frames pk = m_frames m /\ Nack pk = negb (m_ack m).

(** A shorter reading of the same pack, its head flag aside. *)
Lemma reads_as_head b m hd d tf pk :
  reads_as b m hd -> unmarshalTransferFrame b emptyTransferFrame d = Ret (Some tf) -> tf_Pack tf = Some pk ->
  FrameCodec.MessageId pk = Some (m_id m) /\ FrameCodec.SequenceNumber pk = m_seq m /\ Head pk = hd /\
  Frames pk = m_frames m /\ Nack pk = negb (m_ack m).
Proof. intros [_ Hb] E1 E2. destruct (Hb d) as (tf' & pk' & E3 & E4 & Hpk). rewrite E1 in E3. injection E3 as <-. by simplify_eq. Qed.

(** What the peer's codec and cipher are relied on for: the ids are 16 bytes; the
    frames of contracts are in range; the generated decoder reads the same pack as
    the hand-written one from a frame of the sequence; what the generated encoder
    writes decodes to the pack it was given; and what was sealed for the peer opens to what was
    sealed. [opened plain w] is the frame the peer reads from [w]. *)
Class WireOk {PG : MessagePool} {E : SendEnv} (opened : bool -> bytes -> option bytes) : Prop := {
  wi_version : 2 <= ProtocolVersion settings;
  wi_new n : isId (itemId n);
  wi_sequence : isId sequenceId;
  wi_path : path_ok (AddSource destination clientId);
  wi_contract c : frame_ok (contractFrameOf c);
  wi_decode b m hd tf tf' : reads_as b m hd -> protoUnmarshalTransferFrame b = Some tf ->
    unmarshalTransferFrame b emptyTransferFrame true = Ret (Some tf') -> tf_Pack tf = tf_Pack tf';
  wi_encode tf pk b d : tf_Pack tf = Some pk -> protoMarshalTransferFrame tf = Some b ->
    exists tf' pk', unmarshalTransferFrame b emptyTransferFrame d = Ret (Some tf') /\ tf_Pack tf' = Some pk' /\
      FrameCodec.MessageId pk' = canon_bytes (FrameCodec.MessageId pk) /\ FrameCodec.SequenceNumber pk' = FrameCodec.SequenceNumber pk /\
      Head pk' = Head pk /\ Frames pk' = map canon_frame (Frames pk) /\ Nack pk' = Nack pk;
  wi_plain b : opened true b = Some b;
  wi_sealed ss n k b ct w : session = Some ss -> sn_Seal ss n k b = Some ct -> outerFrame ct = Some w -> opened false w = Some b;
}.

Section trace.
Context {B H : Type} {MP : MemoryPool B H} {ML : MemoryPoolLaws B H} {PG : MessagePool} {E : SendEnv} {EO : EnvOk}.
Context (opened : bool -> bytes -> option bytes) {WO : WireOk opened}.
Abbreviation SS := (@SendSequence B H).
Implicit Types (s : SS) (i : sendItem).

(** ** Steps that tell the peer nothing *)

Definition mute (e : event) : bool :=
  match e with EvTake _ | EvSend _ _ | EvWire _ _ _ | EvCallback _ true => false | _ => true end.

Record mutely s s' : Prop := {
  mu_next : nextSequenceNumber s' = nextSequenceNumber s;
  mu_made : ss_made s' = ss_made s;
  mu_log : exists l, ss_log s' = ss_log s ++ l /\ Forall (fun e => mute e = true) l;
  mu_contracts : forall id, is_Some (openSendContracts s' !! id) -> is_Some (openSendContracts s !! id) \/ isId id;
}.
#[export] Instance mutely_preorder : PreOrder mutely.
Proof.
  split.
  - intros s. split; [done|done|exists []; by rewrite app_nil_r|by left].
  - intros s1 s2 s3 [A1 A2 (l1 & A3 & A4) A5] [B1 B2 (l2 & B3 & B4) B5]. split; [congruence|congruence| |].
    + exists (l1 ++ l2). rewrite B3, A3, app_assoc. split; [done|]. by apply Forall_app.
    + intros id Hid. destruct (B5 id Hid) as [Hid'|]; [by apply A5|by right].
Qed.

Lemma mute_emit s e : mute e = true -> mutely s (emit s e).
Proof. intros He. split; [done|done|exists [e]; split; [done|by constructor]|by left]. Qed.

(** One field of the state is set; a queue operation; a reading. *)
Ltac mute_field := split; [done|done|exists []; by rewrite app_nil_r|by left].
Lemma mute_tick s : mutely s (tick s). Proof. mute_field. Qed.
Lemma mute_set_items s l : mutely s (set_items s l). Proof. mute_field. Qed.
Lemma mute_set_queue s q b : mutely s (set_queue s q b). Proof. mute_field. Qed.
Lemma mute_set_retained s n : mutely s (set_retained s n). Proof. mute_field. Qed.
Lemma mute_set_silence s t : mutely s (set_silence s t). Proof. mute_field. Qed.
Lemma mute_set_rtt s w : mutely s (set_rtt s w). Proof. mute_field. Qed.
Lemma mute_set_flight s c : mutely s (set_flight s c). Proof. mute_field. Qed.
Lemma mute_bump_index s : mutely s (bump_index s). Proof. mute_field. Qed.
Lemma mute_update_item s i : mutely s (update_item s i). Proof. mute_field. Qed.
Lemma mute_alloc s : mutely s (fst (alloc s)).
Proof. cbn. split; [done|done|by exists [EvAlloc (BufFrame (ss_buffers s))]; split; [|constructor]|by left]. Qed.
Lemma mute_q_add s i : mutely s (q_add s i).
Proof. unfold q_add. destruct (Add _ _ _ _ _). apply mute_set_queue. Qed.
Lemma mute_contracts s m c a :
  (forall id, is_Some (m !! id) -> is_Some (openSendContracts s !! id) \/ isId id) -> mutely s (set_contracts s m c a).
Proof. intros Hm. split; [done|done|exists []; by rewrite app_nil_r|done]. Qed.

(** Peels the last of the steps above off [mutely s (f x)]. *)
Ltac mute_step :=
  match goal with
  | |- mutely ?s ?s => reflexivity
  | |- mutely _ (emit ?x _) => transitivity x; [|by apply mute_emit]
  | |- mutely _ (tick ?x) => transitivity x; [|apply mute_tick]
  | |- mutely _ (set_items ?x _) => transitivity x; [|apply mute_set_items]
  | |- mutely _ (set_queue ?x _ _) => transitivity x; [|apply mute_set_queue]
  | |- mutely _ (set_retained ?x _) => transitivity x; [|apply mute_set_retained]
  | |- mutely _ (set_silence ?x _) => transitivity x; [|apply mute_set_silence]
  | |- mutely _ (set_rtt ?x _) => transitivity x; [|apply mute_set_rtt]
  | |- mutely _ (set_flight ?x _) => transitivity x; [|apply mute_set_flight]
  | |- mutely _ (bump_index ?x) => transitivity x; [|apply mute_bump_index]
  | |- mutely _ (update_item ?x _) => transitivity x; [|apply mute_update_item]
  | |- mutely _ (q_add ?x _) => transitivity x; [|apply mute_q_add]
  end.
Ltac mute := repeat mute_step.

Lemma mute_q_remove s id : yields (q_remove s id) (fun '(s', _) => mutely s s').
Proof. unfold q_remove. destruct (RemoveByMessageId _ _ _ _ _) as [[[q b] x]|]; [|done]. cbn. mute. Qed.
Lemma mute_ScaledRtt s : yields (ScaledRtt s) (fun '(s', _) => mutely s s').
Proof. unfold ScaledRtt. destruct (scaledRtt _ _) as [[w v]|]; [|done]. cbn. mute. Qed.
Lemma mute_contractFillFraction s : yields (contractFillFraction s) (fun '(s', _) => mutely s s').
Proof. unfold contractFillFraction. destruct (MeanRtt _ _) as [[w v]|]; [|done]. cbn. mute. Qed.

(** A callback that is told of success names its item; any other call is mute. *)
Lemma mute_setContractAcked s lid a : mutely s (setContractAcked s lid a).
Proof. unfold setContractAcked. repeat case_match; try reflexivity. apply mute_contracts. by left. Qed.
Lemma mute_safeAck s cb : mutely s (safeAck s cb false).
Proof. unfold safeAck. destruct cb as [[n|lid]|]; [mute|apply mute_setContractAcked|mute]. Qed.
Lemma mute_releaseRetained s i : mutely s (fst (releaseRetained s i)).
Proof. unfold releaseRetained. destruct (retainedReleased _); cbn; mute. Qed.
Lemma mute_restart s : mutely s (restartRetainedSilence s).
Proof. unfold restartRetainedSilence, now. destruct (0 <? _); mute. Qed.
Lemma mute_silent s t : mutely s (fst (retainedDestinationSilent s t)).
Proof. unfold retainedDestinationSilent. repeat case_match; cbn; mute. Qed.

(** ** The unreliable flight and the carriers *)

Lemma mute_track s i : mutely s (fst (trackUnreliableFlight s i)).
Proof. unfold trackUnreliableFlight. destruct (si_tracked i); [cbn; mute|]. destruct (sendForKey _ _ _). cbn. mute. Qed.
Lemma mute_release s i : yields (releaseUnreliableFlight s i) (fun '(s', i') => mutely s s' /\ same_item i i' /\ si_wire i' = si_wire i).
Proof.
  unfold releaseUnreliableFlight. destruct (negb _); [done|]. destruct (acknowledgeForKey _ _ _ _); [|done]. cbn. split; [mute|done].
Qed.
Lemma mute_forget s i : mutely s (fst (forgetUnreliableFlight s i)) /\ si_key (snd (forgetUnreliableFlight s i)) = si_key i /\
  si_wire (snd (forgetUnreliableFlight s i)) = si_wire i.
Proof. unfold forgetUnreliableFlight. destruct (negb _); cbn; (split; [mute|done]). Qed.
Lemma mute_observeTimeout s i a : let '(s', i', _) := observeUnreliableResendTimeout s i a in mutely s s' /\ si_key i' = si_key i /\ si_wire i' = si_wire i.
Proof.
  unfold observeUnreliableResendTimeout. destruct (negb a); [split; [mute|done]|]. set (s1 := set_flight s _).
  destruct (mute_forget s1 i) as (H1 & H2 & H3). destruct (forgetUnreliableFlight s1 i). cbn in *. split; [transitivity s1; [unfold s1; mute|done]|done].
Qed.
Lemma mute_observeCarrier s i d : mutely s (fst (observeCarrierWrite s i d)) /\
  si_key (snd (observeCarrierWrite s i d)) = si_key i /\ si_wire (snd (observeCarrierWrite s i d)) = si_wire i.
Proof.
  unfold observeCarrierWrite, now. set (s0 := match retainedSilenceStart _ with Some _ => s | None => _ end).
  assert (H0 : mutely s s0) by (unfold s0; destruct (retainedSilenceStart _); mute). cbn zeta.
  destruct (negb _); [by destruct (_ && _)|]. unfold trackUnreliableFlight. destruct (si_tracked _); [done|].
  destruct (sendForKey _ _ _). cbn. split; [|done]. transitivity s0; [done|mute].
Qed.
Lemma mute_observeAck s i tag : yields (observeAckRtt s i tag) (mutely s).
Proof.
  unfold observeAckRtt. destruct (unreliableCarrierObserved _); [cbn; mute|]. destruct tag as [t|]; [|cbn; mute].
  destruct (closeSendTime _ _ _); [|done]. cbn. mute.
Qed.
Lemma mute_apply_policy s : mutely s (fst (apply_policy s)).
Proof. unfold apply_policy, transferFlightPolicy. destruct (flightPolicyAt _). cbn. mute. Qed.
Lemma mute_reliableOnly s : mutely s (fst (reliableOnlyWriteNow s)).
Proof. unfold reliableOnlyWriteNow, transferFlightPolicy. destruct (negb _); cbn; mute. Qed.
Lemma mute_admit s i : mutely s (fst (admit_retained s i)) /\ si_key (snd (admit_retained s i)) = si_key i /\
  si_wire (snd (admit_retained s i)) = si_wire i.
Proof. unfold admit_retained. repeat case_match; cbn; (split; [mute|done]). Qed.

(** ** Contracts *)

Lemma mute_put s id c : is_Some (openSendContracts s !! id) -> mutely s (put_contract s id c).
Proof.
  intros Hid. apply mute_contracts. intros id'. destruct (decide (id' = id)) as [->|]; [by left|].
  rewrite lookup_insert_ne by done. by left.
Qed.
Lemma mute_close s id c : mutely s (close_if_done s id c).
Proof.
  unfold close_if_done. destruct (_ && _); [|mute]. set (s1 := emit s _). transitivity s1; [unfold s1; mute|].
  apply mute_contracts. intros id' [c' Hc']. apply lookup_delete_Some in Hc' as [_ Hc']. by left; exists c'.
Qed.
Lemma mute_ack_contract s i : yields (ack_contract s i) (mutely s).
Proof.
  unfold ack_contract. destruct (si_contract i) as [id|]; [|cbn; mute]. destruct (openSendContracts s !! id) as [c|] eqn:Ec; [|cbn; mute].
  destruct (ack c _) as [c'|]; [|done]. cbn. set (s1 := put_contract s id c'). transitivity s1; [by apply mute_put; exists c|].
  set (s2 := emit s1 _). transitivity s2; [unfold s2; mute|apply mute_close].
Qed.
Lemma mute_unack_contract s i b : mutely s (unack_contract s i b).
Proof.
  unfold unack_contract. destruct (si_contract i) as [id|]; [|mute]. destruct (openSendContracts s !! id) as [c|] eqn:Ec; [|mute].
  set (s1 := put_contract s id _). assert (H1 : mutely s s1) by (by apply mute_put; exists c).
  destruct b; [|done]. transitivity s1; [done|apply mute_close].
Qed.
Lemma mute_createContract s n : yields (createContract s n) (mutely s).
Proof. unfold createContract. eapply yields_bind; [apply mute_contractFillFraction|]. intros [s1 f] H1. cbn. transitivity s1; [done|mute]. Qed.

(** ** The story of a sequence

    The packs taken and the messages sent so far, the numbers settled by an ack,
    the numbers given up, and the frames of a pack that was taken and is not sent
    yet. *)
Record story := Story {
  st_takes : list SendPack;
  st_msgs : list message;
  st_oks : list Z;
  st_drops : list Z;
  st_due : list Frame;
}.

Definition sends (l : list event) : list (itemKey * bool) :=
  omap (fun e => match e with EvSend i a => Some (si_key i, a) | _ => None end) l.

Definition takes (l : list event) : list SendPack := omap (fun e => match e with EvTake p => Some p | _ => None end) l.

(** A message carries a pack that was taken, or opens a contract. *)
Definition origin (l : list SendPack) (m : message) : Prop :=
  (exists p, p ∈ l /\ m_frames m = [canon_frame (sk_Frame p)] /\ m_cb m = option_map CbUser (sk_AckCallback p) /\
     (sk_Ack p = true -> m_ack m = true)) \/
  (m_frames m = [] /\ exists lid, m_cb m = Some (CbContractOpen lid)).

(** Every number below [n] is settled. *)
Definition below (G : story) (n : Z) : Prop := forall k, 0 <= k < n -> k ∈ st_oks G \/ k ∈ st_drops G.

(** A wire frame that is a copy of [m]; a head comes after everything before it
    is settled. *)
Definition copies (G : story) (b : bytes) (m : message) (hd : bool) : Prop :=
  m ∈ st_msgs G /\ reads_as b m hd /\ (m_ack m = true -> hd = true -> below G (m_seq m)).

Definition item_told (G : story) i : Prop :=
  exists m, m_ack m = true /\ m_key m = si_key i /\ copies G (transferFrameBytes (si_wire i)) m (head (si_wire i)) /\
    si_seq i ∉ st_oks G /\ si_seq i ∉ st_drops G.

(** [L]: the items that wait. *)
Record told s (L : list sendItem) (G : story) : Prop := {
  td_takes : takes (ss_log s) = st_takes G;
  td_sends : sends (ss_log s) = map (fun m => (m_key m, m_ack m)) (st_msgs G);
  td_frames : flat_map m_frames (st_msgs G) ++ st_due G = map (fun p => canon_frame (sk_Frame p)) (st_takes G);
  td_order : StronglySorted Z.lt (map m_seq (List.filter m_ack (st_msgs G)));
  td_origin m : m ∈ st_msgs G -> origin (st_takes G) m;
  td_range m : m ∈ st_msgs G -> m_ack m = true -> 0 <= m_seq m < nextSequenceNumber s;
  td_seqs m m' : m ∈ st_msgs G -> m' ∈ st_msgs G -> m_ack m = true -> m_ack m' = true -> m_seq m = m_seq m' -> m = m';
  td_ids m : m ∈ st_msgs G -> exists k, (k < ss_made s)%nat /\ m_id m = itemId k;
  td_id m m' : m ∈ st_msgs G -> m' ∈ st_msgs G -> m_id m = m_id m' -> m = m';
  td_wire p f w : EvWire p f w ∈ ss_log s -> exists b m hd, opened p w = Some b /\ copies G b m hd;
  td_items i : i ∈ L -> item_told G i;
  td_all n : 0 <= n < nextSequenceNumber s -> n ∈ st_oks G \/ n ∈ st_drops G \/ n ∈ map si_seq L;
  td_ok n : EvCallback n true ∈ ss_log s -> exists m, m ∈ st_msgs G /\ m_cb m = Some (CbUser n) /\ (m_ack m = true -> m_seq m ∈ st_oks G);
  td_oks n : n ∈ st_oks G -> 0 <= n < nextSequenceNumber s;
  td_drop n : n ∈ st_drops G -> exists m, m ∈ st_msgs G /\ m_ack m = true /\ m_seq m = n /\
    forall c, m_cb m = Some (CbUser c) -> EvCallback c false ∈ ss_log s;
  td_contracts id : is_Some (openSendContracts s !! id) -> isId id;
}.

(** What is told stays told. *)
Record extends (G G' : story) : Prop := {
  ex_takes : st_takes G `prefix_of` st_takes G';
  ex_msgs : st_msgs G `prefix_of` st_msgs G';
  ex_oks n : n ∈ st_oks G -> n ∈ st_oks G';
  ex_drops n : n ∈ st_drops G -> n ∈ st_drops G';
}.
#[export] Instance extends_preorder : PreOrder extends.
Proof. split; [by intros G|]. intros G1 G2 G3 [A0 A1 A2 A3] [B0 B1 B2 B3]. split; [by transitivity (st_takes G2)|by transitivity (st_msgs G2)|auto..]. Qed.
Lemma extends_msg G G' m : extends G G' -> m ∈ st_msgs G -> m ∈ st_msgs G'.
Proof. intros [_ [k ->] _ _] Hm. apply list.elem_of_app. by left. Qed.
Lemma extends_below G G' n : extends G G' -> below G n -> below G' n.
Proof. intros [_ _ H1 H2] Hb k Hk. destruct (Hb k Hk); auto. Qed.
Lemma extends_copies G G' b m hd : extends G G' -> copies G b m hd -> copies G' b m hd.
Proof. intros He (H1 & H2 & H3). split; [by eapply extends_msg|]. split; [done|]. intros Ha Hh. eapply extends_below; eauto. Qed.

Lemma mutely_in s s' e : mutely s s' -> mute e = false -> e ∈ ss_log s' -> e ∈ ss_log s.
Proof.
  intros [_ _ (l & -> & Hl) _] He [Hin|Hin]%list.elem_of_app; [done|].
  rewrite list.Forall_forall in Hl. specialize (Hl e Hin). congruence.
Qed.
Lemma mutely_sub s s' e : mutely s s' -> e ∈ ss_log s -> e ∈ ss_log s'.
Proof. intros [_ _ (l & -> & _) _] He. apply list.elem_of_app. by left. Qed.
Lemma sends_app l k : sends (l ++ k) = sends l ++ sends k.
Proof. apply omap_app. Qed.
Lemma takes_app l k : takes (l ++ k) = takes l ++ takes k.
Proof. apply omap_app. Qed.
Lemma takes_mute l : Forall (fun e => mute e = true) l -> takes l = [].
Proof. induction 1 as [|[] l He _ IH]; cbn; try done. Qed.
Lemma sends_mute l : Forall (fun e => mute e = true) l -> sends l = [].
Proof. induction 1 as [|[] l He _ IH]; cbn; try done. Qed.
Lemma origin_prefix l l' m : l `prefix_of` l' -> origin l m -> origin l' m.
Proof. intros [k ->] [(p & Hp & Hr)|Hr]; [left|by right]. exists p. split; [apply list.elem_of_app; by left|done]. Qed.

Lemma told_mutely s s' L G : mutely s s' -> told s L G -> told s' L G.
Proof.
  intros Hm [T0 T1 TF TO T2 T3 T4 T5 T6 T7 T8 T9 T10 T13 T11 T12]. pose proof Hm as [M1 M2 (l & M3 & M4) M5]. split; try done.
  - by rewrite M3, takes_app, (takes_mute l M4), app_nil_r.
  - by rewrite M3, sends_app, (sends_mute l M4), app_nil_r.
  - intros m. rewrite M1. apply T3.
  - intros m Hm'. destruct (T5 m Hm') as (k & Hk & Ek). exists k. split; [lia|done].
  - intros p f w Hw. apply (T7 p f w). by eapply mutely_in.
  - intros n. rewrite M1. apply T9.
  - intros n Hn. apply T10. by eapply mutely_in.
  - intros n Hn. rewrite M1. by apply T13.
  - intros n Hn. destruct (T11 n Hn) as (m & A & Bm & C & D). exists m. split_and!; try done. intros c Hc. eapply mutely_sub; eauto.
  - intros id Hid. destruct (M5 id Hid); auto.
Qed.

(** Fewer details of the same items. *)
Lemma told_items s L L' G :
  (forall i, i ∈ L' -> exists j, j ∈ L /\ si_key i = si_key j /\ si_wire i = si_wire j) -> map si_seq L' = map si_seq L ->
  told s L G -> told s L' G.
Proof.
  intros HL Hs [T0 T1 TF TO T2 T3 T4 T5 T6 T7 T8 T9 T10 T13 T11 T12]. split; try done; [|by rewrite Hs].
  intros i Hi. destruct (HL i Hi) as (j & Hj & Ek & Ew). destruct (T8 j Hj) as (m & A & Bm & C & D). exists m.
  unfold si_seq in *. rewrite Ek, Ew. done.
Qed.

(** An item whose number is settled leaves those that wait. *)
Lemma told_swap s L1 i i' L2 G :
  si_key i' = si_key i -> si_wire i' = si_wire i -> told s (L1 ++ i :: L2) G -> told s (L1 ++ i' :: L2) G.
Proof.
  intros Ek Ew. apply told_items.
  - intros x Hx. apply list.elem_of_app in Hx as [Hx|[->|Hx]%elem_of_cons].
    + exists x. split; [apply list.elem_of_app; by left|done].
    + exists i. split; [apply list.elem_of_app; right; by left|done].
    + exists x. split; [apply list.elem_of_app; right; by right|done].
  - rewrite !map_app. cbn. unfold si_seq. by rewrite Ek.
Qed.

(** ** Writes *)

Lemma told_wire s L G p f w b m hd : opened p w = Some b -> copies G b m hd -> told s L G -> told (emit s (EvWire p f w)) L G.
Proof.
  intros Ho Hc [T0 T1 TF TO T2 T3 T4 T5 T6 T7 T8 T9 T10 T13 T11 T12].
  assert (Hsub : forall e, e ∈ ss_log s -> e ∈ ss_log s ++ [EvWire p f w]) by (intros e He; apply list.elem_of_app; by left).
  split; try done; cbn.
  - rewrite takes_app, T0. cbn. by rewrite app_nil_r.
  - rewrite sends_app, T1. cbn. by rewrite app_nil_r.
  - intros p' f' w' [Hw|[= -> -> ->]%list_elem_of_singleton]%list.elem_of_app; [by apply (T7 p' f')|by exists b, m, hd].
  - intros n [Hn|Hn%list_elem_of_singleton]%list.elem_of_app; [by apply T10|done].
  - intros n Hn. destruct (T11 n Hn) as (m' & A & Bm & C & D). exists m'. split_and!; auto.
Qed.

Lemma told_write s L G b m hd forced ro :
  copies G b m hd -> told s L G -> told (fst (writeMaybeWrappedBytes s b forced ro)) L G.
Proof.
  intros Hc Ht. unfold writeMaybeWrappedBytes, transferFlightPolicy. set (s1 := tick s).
  assert (H1 : told s1 L G) by (by apply (told_mutely s); [apply mute_tick|]).
  assert (Hplain : forall x, told x L G -> told (emit (tick x) (EvWire true forced b)) L G).
  { intros x Hx. apply (told_wire _ _ _ _ _ _ b m hd); [by apply wi_plain|done|]. by apply (told_mutely x); [apply mute_tick|]. }
  destruct session as [ss|] eqn:Es; [|by apply Hplain]. destruct forced; [by apply Hplain|].
  destruct (sn_Cipher ss _) as [k|].
  - destruct (negb _); [by apply (told_mutely s1); [apply mute_tick|]|].
    destruct (sn_Seal ss _ k b) as [ct|] eqn:Ect; [|by apply (told_mutely s1); [apply mute_tick|]]. set (s2 := if sn_ShouldRekey _ _ then _ else _).
    assert (H2 : told s2 L G) by (unfold s2; destruct (sn_ShouldRekey _ _); [by apply (told_mutely s1); [apply mute_emit|]|done]).
    destruct (outerFrame ct) as [w|] eqn:Ew; [|by apply (told_mutely s2); [apply mute_tick|]]. cbn.
    apply (told_wire _ _ _ _ _ _ b m hd); [by eapply wi_sealed|done|]. by apply (told_mutely s2); [apply mute_tick|].
  - destruct (sn_RequireEncryption _ _); [|by apply Hplain]. apply (told_mutely (tick s1)); [by apply mute_emit|].
    by apply (told_mutely s1); [apply mute_tick|].
Qed.

(** ** Settling *)

Definition acked (G : story) (n : Z) : story := Story (st_takes G) (st_msgs G) (st_oks G ++ [n]) (st_drops G) (st_due G).
Definition dropped (G : story) (n : Z) : story := Story (st_takes G) (st_msgs G) (st_oks G) (st_drops G ++ [n]) (st_due G).

Lemma extends_acked G n : extends G (acked G n).
Proof. split; cbn; [done|done|intros k Hk; apply list.elem_of_app; by left|done]. Qed.
Lemma extends_dropped G n : extends G (dropped G n).
Proof. split; cbn; [done|done|done|intros k Hk; apply list.elem_of_app; by left]. Qed.

Lemma others_told (G G' : story) L1 i L2 :
  extends G G' -> (forall n, n <> si_seq i -> n ∈ st_oks G' -> n ∈ st_oks G) -> (forall n, n <> si_seq i -> n ∈ st_drops G' -> n ∈ st_drops G) ->
  si_seq i ∉ map si_seq (L1 ++ L2) -> (forall j, j ∈ L1 ++ i :: L2 -> item_told G j) -> forall j, j ∈ L1 ++ L2 -> item_told G' j.
Proof.
  intros He Ho Hd Hi HL j Hj. destruct (HL j) as (m & A & Bm & C & D & F).
  { apply list.elem_of_app in Hj as [Hj|Hj]; apply list.elem_of_app; [by left|right; by right]. }
  assert (Hne : si_seq j <> si_seq i) by (intros Heq; apply Hi; rewrite <- Heq; by apply list_elem_of_fmap_2).
  exists m. split_and!; try done; [by eapply extends_copies|auto..].
Qed.

Lemma all_told L1 i L2 n : n ∈ map si_seq (L1 ++ i :: L2) -> n = si_seq i \/ n ∈ map si_seq (L1 ++ L2).
Proof. rewrite !map_app. cbn [map]. rewrite !list.elem_of_app, elem_of_cons. tauto. Qed.

(** The callback of a waiting item is told of success: its number is acked. *)
Lemma told_acked s L1 i L2 G :
  si_seq i ∉ map si_seq (L1 ++ L2) -> told s (L1 ++ i :: L2) G ->
  told (safeAck s (ik_ackCallback (si_key i)) true) (L1 ++ L2) (acked G (si_seq i)).
Proof.
  intros Hi Ht. assert (Hin : i ∈ L1 ++ i :: L2) by (apply list.elem_of_app; right; by left).
  pose proof (td_items _ _ _ Ht i Hin) as (m & A & Bm & C & D & F).
  assert (H0 : told s (L1 ++ L2) (acked G (si_seq i))).
  { destruct Ht as [T0 T1 TF TO T2 T3 T4 T5 T6 T7 T8 T9 T10 T13 T11 T12]. pose proof (extends_acked G (si_seq i)) as He. split; try done.
    - intros p f w Hw. destruct (T7 p f w Hw) as (b & m' & hd & E1 & E2). exists b, m', hd. split; [done|]. by eapply extends_copies.
    - apply (others_told G _ L1 i); try done. cbn. intros n Hn [Hk|Hk%list_elem_of_singleton]%list.elem_of_app; done.
    - intros n Hn. cbn. rewrite list.elem_of_app, list_elem_of_singleton. destruct (T9 n Hn) as [Hk|[Hk|Hk]]; [tauto..|].
      apply all_told in Hk. tauto.
    - intros n Hn. destruct (T10 n Hn) as (m' & E1 & E2 & E3). exists m'. split_and!; try done. intros Ha. apply He. auto.
    - intros n [Hn|Hn%list_elem_of_singleton]%list.elem_of_app; [by apply T13|]. pose proof (T3 m ltac:(apply C) A) as Hr.
      unfold m_seq in Hr. rewrite Bm in Hr. by subst n. }
  unfold safeAck. destruct (ik_ackCallback (si_key i)) as [[n|lid]|] eqn:Ecb; [|apply (told_mutely s); [apply mute_setContractAcked|done]|done].
  destruct H0 as [T0 T1 TF TO T2 T3 T4 T5 T6 T7 T8 T9 T10 T13 T11 T12].
  assert (Hsub : forall e, e ∈ ss_log s -> e ∈ ss_log s ++ [EvCallback n true]) by (intros e He; apply list.elem_of_app; by left).
  split; try done; cbn [ss_log emit].
  - rewrite takes_app, T0. cbn. by rewrite app_nil_r.
  - rewrite sends_app, T1. cbn. by rewrite app_nil_r.
  - intros p f w [Hw|Hw%list_elem_of_singleton]%list.elem_of_app; [by apply (T7 p f)|done].
  - intros k [Hk|[= ->]%list_elem_of_singleton]%list.elem_of_app; [by apply T10|]. exists m. split_and!; [apply C| |].
    + unfold m_cb. by rewrite Bm.
    + intros _. cbn. apply list.elem_of_app. right. apply list_elem_of_singleton. unfold m_seq. by rewrite Bm.
  - intros k Hk. destruct (T11 k Hk) as (m' & E1 & E2 & E3 & E4). exists m'. split_and!; auto.
Qed.

(** The callback of a waiting item is told of failure: its number is given up. *)
Lemma told_dropped s L1 i L2 G :
  si_seq i ∉ map si_seq (L1 ++ L2) -> told s (L1 ++ i :: L2) G ->
  told (safeAck s (ik_ackCallback (si_key i)) false) (L1 ++ L2) (dropped G (si_seq i)).
Proof.
  intros Hi Ht. assert (Hin : i ∈ L1 ++ i :: L2) by (apply list.elem_of_app; right; by left).
  pose proof (td_items _ _ _ Ht i Hin) as (m & A & Bm & C & D & F).
  pose proof (mute_safeAck s (ik_ackCallback (si_key i))) as Hm. set (s' := safeAck _ _ _) in *.
  pose proof (told_mutely _ _ _ _ Hm Ht) as Ht'. destruct Ht' as [T0 T1 TF TO T2 T3 T4 T5 T6 T7 T8 T9 T10 T13 T11 T12].
  pose proof (extends_dropped G (si_seq i)) as He. split; try done.
  - intros p f w Hw. destruct (T7 p f w Hw) as (b & m' & hd & E1 & E2). exists b, m', hd. split; [done|]. by eapply extends_copies.
  - apply (others_told G _ L1 i); try done. cbn. intros n Hn [Hk|Hk%list_elem_of_singleton]%list.elem_of_app; done.
  - intros n Hn. cbn. rewrite list.elem_of_app, list_elem_of_singleton. destruct (T9 n Hn) as [Hk|[Hk|Hk]]; [tauto..|].
    apply all_told in Hk. tauto.
  - intros n [Hn|Hn%list_elem_of_singleton]%list.elem_of_app; [by apply T11|]. exists m. split_and!; [apply C|done| |].
    + rewrite Hn. unfold m_seq. by rewrite Bm.
    + intros c Hc. unfold m_cb in Hc. rewrite Bm in Hc. unfold s'. rewrite Hc. cbn. apply list.elem_of_app. right. by left.
Qed.

Lemma seq_fresh s L1 i L2 : keys_ok s (L1 ++ i :: L2) -> si_seq i ∉ map si_seq (L1 ++ L2).
Proof.
  intros Hk (j & Ej & Hj)%list_elem_of_fmap. destruct (keys_fresh s L1 i L2 j Hk Hj) as (K1 & K2 & K3). by symmetry in Ej.
Qed.

Lemma ackItemCounted_told s L1 i L2 G y :
  si_seq i ∉ map si_seq (L1 ++ L2) -> told s (L1 ++ i :: L2) G ->
  yields (ackItemCounted s i y) (fun s' => told s' (L1 ++ L2) (acked G (si_seq i))).
Proof.
  intros Hi Ht. unfold ackItemCounted. set (s0 := if y then _ else s).
  assert (H0 : mutely s s0) by (unfold s0; destruct y; mute).
  eapply yields_bind; [apply mute_release|]. intros [s1 j] (H1 & [Ek _] & Ew).
  eapply yields_bind; [apply mute_ack_contract|]. intros s2 H2. cbn. unfold messagePoolReturn.
  assert (H3 : told s2 (L1 ++ j :: L2) G).
  { apply (told_swap _ _ i); [done..|]. apply (told_mutely s); [|done]. transitivity s0; [done|]. by transitivity s1. }
  assert (Es : si_seq j = si_seq i) by (unfold si_seq; by rewrite Ek). rewrite <- Es in *.
  eapply told_mutely; [by apply mute_emit|]. by apply told_acked.
Qed.

Lemma walk_item_told s L1 i L2 G :
  si_seq i ∉ map si_seq (L1 ++ L2) -> told s (L1 ++ i :: L2) G ->
  yields (let! '(s, i) := if selectiveAcked (si_times i) then Ret (s, i) else releaseUnreliableFlight s i in
          let '(s, i) := if si_retained i
                         then let '(s, i) := releaseRetained s i in (emit s (EvRetention RetainAck), i) else (s, i) in
          ackItem s i) (fun s' => told s' (L1 ++ L2) (acked G (si_seq i))).
Proof.
  intros Hi Ht. eapply (yields_bind _ _ (fun '(s', i') => mutely s s' /\ si_key i' = si_key i /\ si_wire i' = si_wire i)).
  { destruct (selectiveAcked _); [done|]. generalize (mute_release s i). destruct (releaseUnreliableFlight s i) as [[]|]; [|done]. cbn. by intros (? & [? _] & ?). }
  intros [s1 j] (H1 & Ek & Ew). set (p := if si_retained j then _ else (s1, j)).
  assert (Hp : mutely s (fst p) /\ si_key (snd p) = si_key i /\ si_wire (snd p) = si_wire i).
  { unfold p. destruct (si_retained j); [|done]. pose proof (mute_releaseRetained s1 j) as H2.
    assert (Hk : si_key (snd (releaseRetained s1 j)) = si_key j /\ si_wire (snd (releaseRetained s1 j)) = si_wire j).
    { unfold releaseRetained. by destruct (retainedReleased _). }
    destruct (releaseRetained s1 j) as [s2 k]. cbn in *. split; [|by destruct Hk; split; congruence]. mute. by transitivity s1. }
  destruct p as [s2 k]. cbn [fst snd] in Hp. destruct Hp as (H2 & Ek2 & Ew2).
  assert (Es : si_seq k = si_seq i) by (unfold si_seq; by rewrite Ek2). rewrite <- Es in *. apply ackItemCounted_told; [done|].
  apply (told_swap _ _ i); [done..|]. by apply (told_mutely s).
Qed.

(** What acks of [ids] settle: numbers that were waiting, up to one they name. *)
Record answers (ids : list bytes) (G G' : story) : Prop := {
  an_takes : st_takes G' = st_takes G;
  an_msgs : st_msgs G' = st_msgs G;
  an_drops : st_drops G' = st_drops G;
  an_due : st_due G' = st_due G;
  an_oks n : n ∈ st_oks G -> n ∈ st_oks G';
  an_new n : n ∈ st_oks G' -> n ∈ st_oks G \/ (n ∉ st_drops G /\ 0 <= n /\ exists m, m ∈ st_msgs G /\ m_ack m = true /\ m_id m ∈ ids /\ n <= m_seq m);
}.
Lemma answers_refl ids G : answers ids G G.
Proof. split; try done. by left. Qed.
Lemma answers_extends ids G G' : answers ids G G' -> extends G G'.
Proof. intros [A0 A1 A2 AD A3 A4]. split; [by rewrite A0|by rewrite A1|done|by rewrite A2]. Qed.
Lemma answers_trans ids G1 G2 G3 : answers ids G1 G2 -> answers ids G2 G3 -> answers ids G1 G3.
Proof.
  intros [A0 A1 A2 AD A3 A4] [B0 B1 B2 BD B3 B4]. split; [congruence..|auto|].
  intros n Hn. destruct (B4 n Hn) as [Hn'|Hn']; [by apply A4|right; by rewrite <- A1, <- A2].
Qed.

Lemma ack_walk_told s l G a M X T :
  told s l G -> a ∈ l -> forall l0 s0 G0,
  inv s0 l0 M X T -> told s0 l0 G0 -> answers [si_id a] G G0 ->
  yields (ack_walk s0 (si_seq a) l0) (fun '(s', rest) => exists G', told s' rest G' /\ answers [si_id a] G G').
Proof.
  intros Ht Ha l0. induction l0 as [|i l0 IH]; intros s0 G0 H0 T0 A0; [by exists G0|].
  rewrite walk_unfold. destruct (Z.ltb_spec (si_seq a) (si_seq i)) as [Hlt|Hge]; [by exists G0|].
  destruct (q_remove_ok s0 [] i l0 M X T H0) as (s1 & Er & H1 & q & b & E1). rewrite Er. cbn [gbind app] in *.
  pose proof (v_retention _ _ _ _ _ H0) as Hr. apply Forall_cons_1 in Hr as [Hr _].
  pose proof (seq_fresh s0 [] i l0 (v_keys _ _ _ _ _ H0)) as Hfr.
  assert (T1 : told s1 (i :: l0) G0).
  { pose proof (mute_q_remove s0 (si_id i)) as Hm. rewrite Er in Hm. by apply (told_mutely s0). }
  pose proof (walk_item_told s1 [] i l0 G0 Hfr T1) as Hw. destruct (walk_item_ok s1 i l0 M X T H1 Hr) as (s2 & Ew & H2 & _).
  rewrite Ew in Hw |- *. cbn [gbind yields app] in *. apply (IH s2 (acked G0 (si_seq i)) H2 Hw).
  eapply answers_trans; [exact A0|]. split; try done; cbn; [intros n Hn; apply list.elem_of_app; by left|].
  intros n [Hn|Hn%list_elem_of_singleton]%list.elem_of_app; [by left|right]. subst n.
  destruct (td_items _ _ _ T0 i) as (m & B1 & B2 & (B3 & _) & B4 & B5); [by left|]. split; [done|].
  destruct (td_items _ _ _ Ht a Ha) as (m' & C1 & C2 & (C3 & _) & _).
  split; [pose proof (td_range _ _ _ T0 m B3 B1) as Hm; unfold m_seq in Hm; rewrite B2 in Hm; unfold si_seq; lia|].
  exists m'. split_and!; [by rewrite (an_msgs _ _ _ A0)|done| |unfold m_seq; by rewrite C2].
  unfold m_id. rewrite C2. by apply list_elem_of_singleton.
Qed.

(** An item takes new fields where it stands; its identity and its frame stay. *)
Lemma told_update s s' i j G :
  keys_ok s (sendItems s) -> i ∈ sendItems s -> si_key j = si_key i -> si_wire j = si_wire i ->
  mutely s s' -> sendItems s' = sendItems (update_item s j) -> told s (sendItems s) G -> told s' (sendItems s') G.
Proof.
  intros Hk (L1 & L2 & Es)%list_elem_of_split Ej Ew Hm E' Ht. rewrite Es in Hk, Ht.
  rewrite E', (update_item_split s L1 i j L2) by done. cbn [sendItems set_items].
  apply (told_swap _ _ i); [done..|]. by apply (told_mutely s).
Qed.

Lemma restart_items s : unmoved s (restartRetainedSilence s).
Proof. unfold restartRetainedSilence. by destruct (0 <? _). Qed.
Lemma selective_ack_told s i G X T :
  at_rest s X T -> i ∈ sendItems s -> told s (sendItems s) G ->
  yields (selective_ack s i) (fun s' => told s' (sendItems s') G).
Proof.
  intros Hs Hi Ht. pose proof (v_keys _ _ _ _ _ Hs) as Hk. unfold selective_ack.
  eapply yields_bind. { apply (yields_and _ _ _ (mute_q_remove s (si_id i)) (q_remove_items s (si_id i))). }
  intros [s1 x] [H1 U1]. destruct x as [x|]; [|cbn; rewrite U1; by apply (told_mutely s)].
  eapply (yields_bind _ _ (fun '(s2, i2) => mutely s1 s2 /\ unmoved s1 s2 /\ si_key i2 = si_key i /\ si_wire i2 = si_wire i)).
  { destruct (selectiveAcked _); [done|]. generalize (mute_release s1 i), (releaseUnreliableFlight_items s1 i).
    destruct (releaseUnreliableFlight s1 i) as [[]|]; [|done]. cbn. by intros (? & [? _] & ?) ?. }
  intros [s2 i2] (H2 & U2 & Ek & Ew). unfold now. cbn [yields]. set (j := set_times i2 _). set (s3 := tick (tick s2)).
  assert (H3 : mutely s s3) by (unfold s3; mute; by transitivity s1).
  apply (told_update s _ i j); [done..| | |done].
  - etransitivity; [|apply mute_restart]. mute. done.
  - rewrite (restart_items _), (q_add_items _). unfold update_item. cbn [sendItems set_items].
    unfold unmoved in *. change (sendItems s3) with (sendItems s2). by rewrite U2, U1.
Qed.

Lemma receiveAck_told s id sel tag G X T :
  at_rest s X T -> told s (sendItems s) G ->
  yields (receiveAck s id sel tag) (fun s' => exists G', told s' (sendItems s') G' /\ answers (if sel then [] else [id]) G G').
Proof.
  intros Hs Ht. unfold receiveAck. destruct (GetByMessageId (resendQueue s) id) as [i|] eqn:Eg.
  2:{ exists G. split; [done|apply answers_refl]. }
  destruct (queued_id s X T id i Hs Eg) as [Hi <-]. pose proof (mute_observeAck s i tag) as Hm.
  destruct (observeAckRtt_ok s i tag _ _ _ _ Hs) as (s1 & E1 & H1 & Q1). rewrite E1 in *. cbn [gbind yields] in *.
  pose proof (kp_items _ _ (quietly_keeps _ _ Q1)) as U1. pose proof (told_mutely _ _ _ _ Hm Ht) as T1.
  rewrite <- U1 in T1, Hi, H1. destruct sel.
  - generalize (selective_ack_told s1 i G X T H1 Hi T1). destruct (selective_ack s1 i) as [s2|]; [|done]. cbn.
    intros T2. exists G. split; [done|apply answers_refl].
  - eapply yields_bind; [apply (ack_walk_told s1 (sendItems s1) G i [] X T T1 Hi _ s1 G H1 T1 (answers_refl _ _))|].
    intros [s2 rest] (G' & T2 & A2). cbn. exists G'. split; [|done]. rewrite (restart_items _). cbn [sendItems set_items].
    eapply told_mutely; [apply mute_restart|]. eapply told_mutely; [apply mute_set_items|done].
Qed.

Lemma apply_acks_told s h l G X T :
  at_rest s X T -> told s (sendItems s) G ->
  yields (apply_acks s h l) (fun s' => exists G', told s' (sendItems s') G' /\ answers (match h with Some a => [ak_messageId a] | None => [] end) G G').
Proof.
  intros Hs Ht. unfold apply_acks. set (ids := match h with Some a => [ak_messageId a] | None => [] end).
  assert (H0 : exists s0, (match h with Some a => receiveAck s (ak_messageId a) false (ak_tag a) | None => Ret s end) = Ret s0 /\
            at_rest s0 X T /\ exists G0, told s0 (sendItems s0) G0 /\ answers ids G G0).
  { destruct h as [a|]; [|exists s; split; [done|split; [done|exists G; split; [done|apply answers_refl]]]].
    pose proof (receiveAck_told s (ak_messageId a) false (ak_tag a) G X T Hs Ht) as Hy.
    destruct (receiveAck_ok s (ak_messageId a) false (ak_tag a) X T Hs) as (s0 & E0 & H0 & _). rewrite E0 in *. by exists s0. }
  destruct H0 as (s0 & -> & H0 & G0 & T0 & A0). cbn [gbind]. clear Hs Ht. revert s0 G0 H0 T0 A0.
  induction l as [|[id a] l IH]; intros s0 G0 H0 T0 A0; cbn [fold_left]; [by exists G0|]. cbn [gbind].
  pose proof (receiveAck_told s0 id true (ak_tag a) G0 X T H0 T0) as Hy.
  destruct (receiveAck_ok s0 id true (ak_tag a) X T H0) as (s1 & E1 & H1 & _). rewrite E1 in *. cbn [yields] in Hy.
  destruct Hy as (G1 & T1 & A1). apply (IH s1 G1 H1 T1). eapply answers_trans; [exact A0|].
  destruct A1 as [B0 B1 B2 BD B3 B4]. split; try done. intros n Hn. destruct (B4 n Hn) as [?|(? & ? & m & ? & ? & Hm & ?)]; [by left|].
  by apply not_elem_of_nil in Hm.
Qed.

(** ** Giving up and resending *)

Lemma releaseRetained_item s i : si_key (snd (releaseRetained s i)) = si_key i /\ si_wire (snd (releaseRetained s i)) = si_wire i.
Proof. unfold releaseRetained. by destruct (retainedReleased _). Qed.

Lemma dropItem_told s L1 i L2 G M X T :
  inv s (L1 ++ i :: L2) M X T -> sendItems s = L1 ++ i :: L2 -> told s (L1 ++ i :: L2) G ->
  yields (dropItem s i) (fun s' => told s' (L1 ++ L2) (dropped G (si_seq i))).
Proof.
  intros Hs Es Ht. pose proof (seq_fresh s L1 i L2 (v_keys _ _ _ _ _ Hs)) as Hfr. unfold dropItem.
  destruct (q_remove_ok s L1 i L2 M X T Hs) as (s1 & Er & H1 & q & b & E1). pose proof (mute_q_remove s (si_id i)) as Hm. rewrite Er in *.
  cbn [gbind yields] in *. set (s2 := set_items s1 _). assert (H2 : mutely s s2) by (unfold s2; mute; done).
  set (p := if si_retained i then _ else (s2, i)).
  assert (Hp : mutely s (fst p) /\ si_key (snd p) = si_key i /\ si_wire (snd p) = si_wire i).
  { unfold p. destruct (si_retained i); [|done]. split; [transitivity s2; [done|apply mute_releaseRetained]|apply releaseRetained_item]. }
  destruct p as [s3 j]. cbn [fst snd] in Hp. destruct Hp as (H3 & Ek & Ew). unfold ackItemWithErrDropped.
  eapply yields_bind; [apply mute_release|]. intros [s4 k] (H4 & [Ek4 _] & Ew4). cbn [yields]. unfold messagePoolReturn.
  set (s5 := unack_contract s4 k true). assert (H5 : mutely s s5).
  { transitivity s3; [done|]. transitivity s4; [done|]. apply mute_unack_contract. }
  assert (Ek5 : si_key k = si_key i) by congruence. assert (E5 : si_seq k = si_seq i) by (unfold si_seq; by rewrite Ek5).
  eapply told_mutely; [by apply mute_emit|]. rewrite <- E5 in *. apply told_dropped; [done|].
  apply (told_swap _ _ i); [done|congruence|]. by apply (told_mutely s).
Qed.

(** [G'] knows more than [G], and no new successes. *)
Record furthers (G G' : story) : Prop := {
  fu_extends : extends G G';
  fu_oks : st_oks G' = st_oks G;
}.
#[export] Instance furthers_preorder : PreOrder furthers.
Proof. split; [by intros G|]. intros G1 G2 G3 [A1 A2] [B1 B2]. split; [by transitivity G2|congruence]. Qed.

(** The same, and what is due stays due. *)
Record quiets (G G' : story) : Prop := {
  qg_furthers : furthers G G';
  qg_due : st_due G' = st_due G;
}.
#[export] Instance quiets_preorder : PreOrder quiets.
Proof. split; [by intros G|]. intros G1 G2 G3 [A1 A2] [B1 B2]. split; [by transitivity G2|congruence]. Qed.
Lemma quiets_dropped G n : quiets G (dropped G n).
Proof. split; [split; [apply extends_dropped|done]|done]. Qed.

(** The head of the list is first in the order. *)
Lemma first_below s i L G first :
  told s L G -> StronglySorted Z.lt (map si_seq L) -> index L 0 = Ret first -> i ∈ L -> (si_seq first =? si_seq i) = true -> below G (si_seq i).
Proof.
  intros Ht Hsort Hf Hi He%Z.eqb_eq n Hn. destruct L as [|x L]; [done|]. cbn in Hf. injection Hf as ->.
  destruct (td_items _ _ _ Ht i Hi) as (m & A & Bm & (C & _) & _).
  pose proof (td_range _ _ _ Ht m C A) as Hr. unfold m_seq in Hr. rewrite Bm in Hr. change (ik_sequenceNumber (si_key i)) with (si_seq i) in Hr.
  destruct (td_all _ _ _ Ht n) as [Hk|[Hk|Hk]]; [lia|by left|by right|]. exfalso.
  cbn [map] in Hsort, Hk. apply StronglySorted_inv in Hsort as [_ Hsort]. rewrite elem_of_cons in Hk. destruct Hk as [->|Hk]; [lia|].
  rewrite List.Forall_forall in Hsort. specialize (Hsort n (proj1 (list_elem_of_In _ _) Hk)). lia.
Qed.

(** An item takes a new frame of the same message. *)
Lemma told_rewire s L1 i i' L2 G :
  si_key i' = si_key i -> (forall m hd, reads_as (transferFrameBytes (si_wire i)) m hd -> reads_as (transferFrameBytes (si_wire i')) m (head (si_wire i'))) ->
  (head (si_wire i') = true -> below G (si_seq i)) -> told s (L1 ++ i :: L2) G -> told s (L1 ++ i' :: L2) G.
Proof.
  intros Ek Hr Hb [T0 T1 TF TO T2 T3 T4 T5 T6 T7 T8 T9 T10 T13 T11 T12]. split; try done.
  - intros x Hx. apply list.elem_of_app in Hx as [Hx|[->|Hx]%elem_of_cons].
    + apply T8, list.elem_of_app. by left.
    + destruct (T8 i) as (m & A & Bm & (C1 & C2 & C3) & D & F); [apply list.elem_of_app; right; by left|].
      exists m. unfold si_seq. rewrite Ek. split_and!; try done. split; [done|]. split; [by eapply Hr|]. intros _ Hh.
      unfold m_seq. rewrite Bm. by apply Hb.
    + apply T8, list.elem_of_app. right. by right.
  - intros n Hn. destruct (T9 n Hn) as [?|[?|Hk]]; [tauto..|]. right. right. revert Hk. rewrite !map_app. cbn. unfold si_seq. by rewrite Ek.
Qed.

Lemma yields_same {A} (m : go A) : yields m (fun a => m = Ret a).
Proof. by destruct m. Qed.
Lemma map_id_Forall {A} (f : A -> A) l : Forall (fun x => f x = x) l -> map f l = l.
Proof. induction 1 as [|x l Hx _ IH]; [done|]. cbn. by rewrite Hx, IH. Qed.

(** The new frame of a head carries the same message: id, number, frames and all
    but the head flag. *)
Lemma setHead_reads s i :
  yields (setHead s i) (fun '(s', x) => (s' = s \/ s' = tick s) /\
    forall m hd b, x = Some b -> reads_as (transferFrameBytes (si_wire i)) m hd -> reads_as b m true).
Proof.
  unfold setHead. destruct (protoUnmarshalTransferFrame _) as [tf|] eqn:Et; [|by split; [left|]]. eapply yields_bind; [apply yields_same|].
  intros [pk|] Ep; [|by split; [left|]]. unfold now. eapply yields_bind; [apply yields_true|]. intros cf _. cbn. split; [by right|].
  intros m hd b Eb [Hc Hr]. split; [done|]. intros d. destruct (Hr true) as (tf0 & pk0 & E0 & P0 & R1 & R2 & R3 & R4 & R5).
  pose proof (wi_decode _ m hd tf tf0 (conj Hc Hr) Et E0) as Ed. rewrite P0 in Ed. unfold head_pack in Ep. rewrite Ed in Ep. injection Ep as <-.
  unfold head_bytes in Eb. rewrite Ed in Eb. set (tf1 := MkTransferFrame _ _ _ _ _ _ _) in Eb.
  destruct (wi_encode tf1 (head_fields pk0 (openTag (clock (reads s))) cf) b d eq_refl Eb) as (tf' & pk' & E1 & P1 & S1 & S2 & S3 & S4 & S5).
  exists tf', pk'. split; [done|]. split; [done|]. cbn in S1, S2, S3, S4, S5. destruct Hc as [Hid Hfs].
  rewrite S1, S2, S3, S4, S5, R1, R2, R4, R5. split_and!; try done; [by cbn; destruct (m_id m)|]. by apply map_id_Forall.
Qed.

Lemma promote_told s L1 i L2 h G X T :
  at_rest s X T -> sendItems s = L1 ++ i :: L2 -> told s (L1 ++ i :: L2) G -> (h = true -> below G (si_seq i)) ->
  yields (promote s i h) (fun '(s', x) =>
    match x with None => told s' (L1 ++ L2) (dropped G (si_seq i)) | Some i' => told s' (L1 ++ i' :: L2) G end).
Proof.
  intros Hs Es Ht Hh. assert (Hs' : inv s (L1 ++ i :: L2) [] X T) by (unfold at_rest in Hs; by rewrite Es in Hs). unfold promote. destruct h.
  2:{ eapply yields_bind; [apply mute_q_remove|]. intros [s1 x] H1. cbn. by apply (told_mutely s). }
  specialize (Hh eq_refl). eapply yields_bind; [apply setHead_reads|].
  intros [s1 b] [Hs1 Hb]. assert (H1 : inv s1 (L1 ++ i :: L2) [] X T) by (destruct Hs1 as [-> | ->]; [done|by apply inv_tick]).
  assert (T1 : told s1 (L1 ++ i :: L2) G) by (destruct Hs1 as [-> | ->]; [done|by apply (told_mutely s); [apply mute_tick|]]).
  assert (Es1 : sendItems s1 = L1 ++ i :: L2) by (by destruct Hs1 as [-> | ->]). destruct b as [b|].
  - eapply yields_bind; [apply mute_q_remove|]. intros [s2 x] H2. pose proof (mute_alloc (messagePoolReturn s2 i)) as H3.
    destruct (alloc _) as [s3 buf]. cbn [fst yields] in *. apply (told_rewire _ _ i); [done|intros m hd Hr; by apply (Hb m hd)|done|].
    apply (told_mutely s1); [|done]. unfold update_item. mute. etransitivity; [exact H2|]. etransitivity; [|exact H3]. by apply mute_emit.
  - generalize (dropItem_told s1 L1 i L2 G [] X T H1 Es1 T1). destruct (dropItem s1 i) as [s2|]; [|done]. done.
Qed.

Lemma resend_write_told s L1 i L2 debit G :
  told s (L1 ++ i :: L2) G -> yields (resend_write s i debit) (fun '(s', i') => told s' (L1 ++ i' :: L2) G).
Proof.
  intros Ht. unfold resend_write. pose proof (mute_apply_policy s) as H1. destruct (apply_policy s) as [s1 available]. cbn [fst] in H1.
  set (p := if si_tracked i then _ else (s1, i, false)).
  assert (Hp : let '(s2, i2, _) := p in mutely s1 s2 /\ si_key i2 = si_key i /\ si_wire i2 = si_wire i).
  { unfold p. destruct (si_tracked i); [apply mute_observeTimeout|done]. }
  destruct p as [[s2 i2] ro]. destruct Hp as (H2 & Ek & Ew).
  assert (T2 : told s2 (L1 ++ i2 :: L2) G) by (apply (told_swap _ _ i); [done..|]; apply (told_mutely s); [by transitivity s1|done]).
  destruct (td_items _ _ _ T2 i2) as (m & A & Bm & C & _); [apply list.elem_of_app; right; by left|].
  pose proof (told_write s2 (L1 ++ i2 :: L2) G (transferFrameBytes (si_wire i2)) m (head (si_wire i2)) (ik_forceUnwrapped (si_key i2)) ro C T2) as T3.
  destruct (writeMaybeWrappedBytes s2 _ _ ro) as [s3 [d ok]]. cbn [fst] in T3. set (s4 := if negb ok && (0 <? debit) then _ else s3).
  assert (T4 : told s4 (L1 ++ i2 :: L2) G) by (unfold s4; destruct (_ && _); [by apply (told_mutely s3); [apply mute_emit|]|done]).
  set (q := if d_typed d || d_unreliable d || d_reliable d then _ else (s4, i2)).
  assert (Hq : mutely s4 (fst q) /\ si_key (snd q) = si_key i2 /\ si_wire (snd q) = si_wire i2).
  { unfold q. destruct (_ || _); [apply mute_observeCarrier|done]. }
  destruct q as [s5 i5]. cbn [fst snd yields] in *. destruct Hq as (H5 & Ek5 & Ew5).
  apply (told_swap _ _ i2); [done..|]. apply (told_mutely s4); [|done]. transitivity s5; [done|by apply mute_emit].
Qed.

Lemma requeue_told s L1 j L2 i t G X T :
  inv s (L1 ++ L2) [i] X T -> keys_ok s (L1 ++ j :: L2) -> sendItems s = L1 ++ j :: L2 -> si_key i = si_key j -> retention_ok i ->
  told s (L1 ++ i :: L2) G -> told (requeue s i t) (sendItems (requeue s i t)) G.
Proof.
  intros Hs Hk Es Ek Hr Ht. destruct (requeue_ok s L1 j L2 i t X T Hs Hk Es Ek Hr) as (_ & -> & _). unfold requeue.
  apply (told_swap _ _ i); [done..|]. apply (told_mutely s); [|done]. mute.
Qed.

Lemma resend_item_told s L1 i L2 t ackTimeout G X T :
  at_rest s X T -> sendItems s = L1 ++ i :: L2 -> told s (sendItems s) G ->
  yields (resend_item s i t ackTimeout) (fun '(s', _) => exists G', told s' (sendItems s') G' /\ quiets G G').
Proof.
  intros Hs Es Ht. unfold resend_item.
  assert (Hfirst : exists x, index (sendItems s) 0 = Ret x) by (rewrite Es; destruct L1; cbn; eauto).
  destruct Hfirst as [first Ef]. rewrite Ef. cbn [gbind]. set (isHead := si_seq first =? si_seq i).
  assert (Hb : isHead && negb (head (si_wire i)) = true -> below G (si_seq i)).
  { intros [Hh _]%andb_prop. eapply (first_below s i (sendItems s) G first); try done; [apply (v_keys _ _ _ _ _ Hs)|].
    rewrite Es. apply list.elem_of_app. right. by left. }
  destruct (promote_ok s L1 i L2 (isHead && negb (head (si_wire i))) X T Hs Es) as (s1 & x & Ep & A1 & Hx).
  { intros [_ Hh]%andb_prop. by apply negb_true_iff in Hh. }
  rewrite Es in Ht. pose proof (promote_told s L1 i L2 (isHead && negb (head (si_wire i))) G X T Hs Es Ht Hb) as Hp.
  rewrite Ep in Hp |- *. cbn [gbind yields] in *. destruct x as [i1|].
  2:{ destruct Hx as [H1 E1]. exists (dropped G (si_seq i)). split; [|apply quiets_dropped]. cbn [sendItems emit]. rewrite E1.
      by apply (told_mutely s1); [apply mute_emit|]. }
  destruct Hx as (H1 & [K1 R1] & T1 & j & E1 & Ej). set (charged := _ && negb (resendIsFree _ _)).
  destruct (if charged then _ else _) as [allowed debit]. set (s2 := if charged then tick s1 else s1).
  assert (Q2 : quietly s1 s2 /\ mutely s1 s2) by (unfold s2; destruct charged; [split; [apply quietly_tick|apply mute_tick]|done]).
  destruct Q2 as [Q2 M2]. assert (H2 : inv s2 (L1 ++ L2) [i1] X T) by (unfold s2; destruct charged; [by apply inv_tick|done]).
  assert (T2 : told s2 (L1 ++ i1 :: L2) G) by (by apply (told_mutely s1)).
  assert (E2 : sendItems s2 = L1 ++ j :: L2) by (by rewrite (kp_items _ _ (quietly_keeps _ _ Q2))).
  assert (Hret : retention_ok i).
  { pose proof (v_retention _ _ _ _ _ Hs) as Hr. rewrite Es in Hr. by apply app_middle_Forall in Hr as [Hr _]. }
  assert (Hk : keys_ok s2 (L1 ++ j :: L2)).
  { apply (keys_same _ (L1 ++ i :: L2)); [rewrite !map_app; cbn [map]; by rewrite Ej|].
    destruct A1 as [N M R]. pose proof (qu_reads _ _ Q2). pose proof (kp_next _ _ (quietly_keeps _ _ Q2)). pose proof (kp_made _ _ (quietly_keeps _ _ Q2)).
    apply (keys_mono s); [lia|lia|lia|]. pose proof (v_keys _ _ _ _ _ Hs) as Hk. by rewrite Es in Hk. }
  assert (Hfin : forall s' i' u, inv s' (L1 ++ L2) [i'] X T -> keeps s2 s' -> same_item i i' -> told s' (L1 ++ i' :: L2) G ->
            exists G', told (requeue s' i' u) (sendItems (requeue s' i' u)) G' /\ quiets G G').
  { intros s' i' u H' K' [J' R'] T'. exists G. split; [|done]. apply (requeue_told s' L1 j L2 i' u G X T); [done| | |congruence| |done].
    - by apply (keys_keeps s2).
    - by rewrite (kp_items _ _ K').
    - unfold retention_ok, si_retained in *. by rewrite R'. }
  destruct allowed; cbn [negb].
  - destruct (resend_write_ok s2 i1 debit _ _ _ _ H2) as (s3 & i3 & E3 & H3 & K3 & [J3 R3] & _).
    pose proof (resend_write_told s2 L1 i1 L2 debit G T2) as T3. rewrite E3 in *. cbn [gbind yields] in *.
    assert (S3 : same_item i i3) by (split; congruence). destruct ((0 <? MaxResendCount settings) && _); [by apply Hfin|].
    destruct (ScaledRtt_ok s3 _ _ _ _ H3) as (s4 & v & E4 & H4 & Q4 & _). pose proof (mute_ScaledRtt s3) as M4. rewrite E4 in *. cbn [gbind yields] in *.
    apply Hfin; [done|transitivity s3; [done|by apply quietly_keeps]|done|by apply (told_mutely s3)].
  - set (s3 := emit s2 _). assert (H3 : inv s3 (L1 ++ L2) [i1] X T) by (by apply inv_emit).
    destruct (ScaledRtt_ok s3 _ _ _ _ H3) as (s4 & v & E4 & H4 & Q4 & _). pose proof (mute_ScaledRtt s3) as M4. rewrite E4 in *. cbn [gbind yields] in *.
    assert (S1 : same_item i i1) by done.
    apply Hfin; [done|transitivity s3; [by apply quietly_keeps, quietly_event|by apply quietly_keeps]|done|].
    apply (told_mutely s2); [|done]. transitivity s3; [by apply mute_emit|done].
Qed.

Lemma look_told s t timeout :
  match resend_look s t timeout with LookEnd s' _ => mutely s s' /\ unmoved s s' | LookDue _ _ _ _ => True end.
Proof. unfold resend_look. repeat case_match; try done; by injection H0 as <- _; split; [mute|]. Qed.

(** A pass and a scan only give up: every due item is dealt with as above. *)
Lemma resend_pass_told fuel s t timeout G K X T :
  at_rest s X T -> counts_ok K t s -> K < 2 ^ 62 - 2 -> told s (sendItems s) G ->
  yields (resend_pass fuel s t timeout) (fun '(s', _) => exists G', told s' (sendItems s') G' /\ quiets G G').
Proof.
  revert s timeout G. induction fuel as [|fuel IH]; intros s timeout G Hs Hc HK Ht; cbn [resend_pass]; pose proof (resend_look_ok s t timeout K X T Hs Hc) as Hl;
    pose proof (look_told s t timeout) as Hlk; (destruct (resend_look s t timeout) as [s' r|i expired ackTimeout timeout'];
    [destruct Hlk as [M1 U1]; exists G; split; [rewrite U1; by apply (told_mutely s)|done]|]); [done|].
  destruct Hl as ((L1 & L2 & Es)%list_elem_of_split & Hpend & Hexp & Ht' & Hdue). clear Hlk.
  assert (Hci : count_ok K t i /\ Forall (count_ok K t) (L1 ++ L2)) by (unfold counts_ok in Hc; rewrite Es in Hc; by apply app_middle_Forall in Hc).
  destruct Hci as [Hci Hcr].
  assert (Hnext : forall s1 G1, at_rest s1 X T -> counts_ok K t s1 -> told s1 (sendItems s1) G1 -> quiets G G1 ->
            yields (resend_pass fuel s1 t timeout') (fun '(s', _) => exists G', told s' (sendItems s') G' /\ quiets G G')).
  { intros s1 G1 H1 C1 T1 Q1. eapply yields_weaken; [by apply (IH s1 timeout' G1)|]. intros [s' r] (G' & T' & Q'). exists G'. split; [done|by transitivity G1]. }
  destruct expired.
  - set (s0 := emit s _). assert (H0 : inv s0 (L1 ++ i :: L2) [] X T) by (apply inv_emit; [done|]; unfold at_rest in Hs; by rewrite Es in Hs).
    destruct (dropItem_ok s0 L1 i L2 [] X T H0 Es) as (s1 & E1 & H1 & I1 & _).
    assert (T0 : told s0 (L1 ++ i :: L2) G) by (rewrite <- Es; by apply (told_mutely s); [apply mute_emit|]).
    pose proof (dropItem_told s0 L1 i L2 G [] X T H0 Es T0) as Hd. rewrite E1 in *. cbn [gbind yields] in *.
    apply (Hnext s1 (dropped G (si_seq i))); [unfold at_rest; by rewrite I1|unfold counts_ok; by rewrite I1|by rewrite I1|apply quiets_dropped].
  - destruct (Hdue eq_refl) as [E2 Hack]. unfold count_ok in Hci. rewrite (proj2 (Z.ltb_ge t (si_resend i)) E2) in Hci.
    destruct (resend_item_ok s L1 i L2 t ackTimeout X T Hs Es) as (s1 & b & E1 & H1 & A1 & Hb); [lia|done|].
    pose proof (resend_item_told s L1 i L2 t ackTimeout G X T Hs Es Ht) as Hr. rewrite E1 in *. cbn [gbind yields] in *.
    destruct b; [|done]. destruct Hr as (G1 & T1 & Q1). destruct Hb as (i' & I1 & [K1 R1] & Hlate & Hcount). apply (Hnext s1 G1); [done| |done|done].
    unfold counts_ok. rewrite I1. apply Forall_app in Hcr as [Hc1 Hc2]. apply Forall_app. split; [done|]. constructor; [|done].
    unfold count_ok. rewrite (proj2 (Z.ltb_lt t (si_resend i'))) by done. lia.
Qed.

Lemma backstop_scan_told s t l G X T :
  at_rest s X T -> NoDup l -> (forall i, i ∈ l -> i ∈ sendItems s) -> told s (sendItems s) G ->
  yields (backstop_scan s t l) (fun s' => exists G', told s' (sendItems s') G' /\ quiets G G').
Proof.
  intros Hs Hnd. revert s G Hs. induction l as [|i l IH]; intros s G Hs Hl Ht; cbn [backstop_scan]; [by exists G|].
  apply list.NoDup_cons in Hnd as [Hi Hnd]. destruct (si_retained i && backstop_passed i t) eqn:Ei.
  - destruct (list_elem_of_split (sendItems s) i (Hl i (list_elem_of_here _ _))) as (L1 & L2 & Es).
    set (s0 := emit s _). assert (H0 : inv s0 (L1 ++ i :: L2) [] X T) by (apply inv_emit; [done|]; unfold at_rest in Hs; by rewrite Es in Hs).
    assert (T0 : told s0 (L1 ++ i :: L2) G) by (rewrite <- Es; by apply (told_mutely s); [apply mute_emit|]).
    pose proof (dropItem_told s0 L1 i L2 G [] X T H0 Es T0) as Hd.
    destruct (dropItem_ok s0 L1 i L2 [] X T H0 Es) as (s1 & E1 & H1 & I1 & _). rewrite E1 in *. cbn [gbind yields] in *.
    eapply yields_weaken; [apply (IH Hnd s1 (dropped G (si_seq i)))|].
    + unfold at_rest. by rewrite I1.
    + intros x Hx. rewrite I1. assert (Hin : x ∈ sendItems s) by (apply Hl; by right). rewrite Es in Hin.
      apply list.elem_of_app in Hin as [Hin|Hin]; apply list.elem_of_app; [by left|]. apply elem_of_cons in Hin as [->|Hin]; [done|by right].
    + by rewrite I1.
    + intros s' (G' & T' & Q'). exists G'. split; [done|]. transitivity (dropped G (si_seq i)); [apply quiets_dropped|done].
  - cbn [gbind]. apply IH; [done|done|intros x Hx; apply Hl; by right|done].
Qed.

(** What a turn may tell, given the acks it took in: the acks settle, the passes
    give up, and the select sends. *)
Record turn_tells (h : option sequenceAck) (G G' : story) : Prop := {
  tt_extends : extends G G';
  tt_new n : n ∈ st_oks G' -> n ∈ st_oks G \/ (n ∉ st_drops G /\ 0 <= n /\
    exists a m, h = Some a /\ m ∈ st_msgs G /\ m_ack m = true /\ m_id m = ak_messageId a /\ n <= m_seq m);
}.

Lemma turn_tells_further h G1 G2 G3 : turn_tells h G1 G2 -> furthers G2 G3 -> turn_tells h G1 G3.
Proof. intros [A1 A2] [B1 B2]. split; [by transitivity G2|]. intros n. rewrite B2. apply A2. Qed.
Lemma answers_tells h G G' : answers (match h with Some a => [ak_messageId a] | None => [] end) G G' -> turn_tells h G G'.
Proof.
  intros Ha. split; [by eapply answers_extends|]. intros n Hn. destruct (an_new _ _ _ Ha n Hn) as [?|(H1 & H2 & m & H3 & H4 & H5 & H6)]; [by left|right].
  split; [done|]. split; [done|]. destruct h as [a|]; [|by apply not_elem_of_nil in H5]. apply list_elem_of_singleton in H5. by exists a, m.
Qed.

Lemma silent_items s t : unmoved s (fst (retainedDestinationSilent s t)).
Proof. unfold retainedDestinationSilent. by repeat case_match. Qed.

Lemma before_select_told s x K G X T :
  at_rest s X T -> counted K s -> K < 2 ^ 62 - 2 -> told s (sendItems s) G ->
  yields (before_select s x) (fun '(s', _) => exists G', told s' (sendItems s') G' /\ turn_tells (in_head x) G G' /\ st_due G' = st_due G).
Proof.
  intros Hs Hc HK Ht. unfold before_select.
  pose proof (apply_acks_told s (in_head x) (in_selective x) G X T Hs Ht) as Ha.
  destruct (apply_acks_counted K s (in_head x) (in_selective x) X T Hs Hc) as (s1 & E1 & H1 & A1 & C1). rewrite E1 in *. cbn [gbind yields] in *.
  destruct Ha as (G1 & T1 & N1). pose proof (an_due _ _ _ N1) as D1. apply answers_tells in N1. unfold now. set (t := clock (reads s1)). set (s2 := tick s1).
  assert (H2 : at_rest s2 X T) by (by apply inv_tick). assert (T2 : told s2 (sendItems s2) G1) by (by apply (told_mutely s1); [apply mute_tick|]).
  destruct (retainedDestinationSilent_ok s2 t X T H2) as (H3 & _ & _). pose proof (mute_silent s2 t) as M3. pose proof (silent_items s2 t) as U3.
  destruct (retainedDestinationSilent s2 t) as [s3 silent]. cbn [fst] in *.
  assert (T3 : told s3 (sendItems s3) G1) by (rewrite U3; by apply (told_mutely s2)).
  assert (C3 : counted K s3) by (by apply (counted_unmoved K s2)). destruct silent; [by exists G1|].
  assert (H4 : exists s4 r, (if IsEmpty (resendQueue s3) then Ret (s3, Some (IdleTimeout settings))
            else resend_pass (S (Len (orderedItems (resendQueue s3)))) s3 t (AckTimeout settings)) = Ret (s4, r) /\
            at_rest s4 X T /\ exists G2, told s4 (sendItems s4) G2 /\ quiets G1 G2).
  { destruct (IsEmpty (resendQueue s3)); [by exists s3, (Some (IdleTimeout settings)); split; [|split; [|exists G1]]|].
    destruct (resend_pass_ok (S (Len (orderedItems (resendQueue s3)))) s3 t (AckTimeout settings) K X T H3) as (s4 & r & E4 & H4 & _);
      [by apply counted_pass|done| |].
    { unfold pendings. rewrite (queue_size s3 X T H3). apply Nat.le_trans with (length (sendItems s3)); [apply List.filter_length_le|lia]. }
    pose proof (resend_pass_told (S (Len (orderedItems (resendQueue s3)))) s3 t (AckTimeout settings) G1 K X T H3 ltac:(by apply counted_pass) HK T3) as Hp.
    rewrite E4 in Hp. by exists s4, r. }
  destruct H4 as (s4 & r & -> & H4 & G2 & T4 & Q4). cbn [gbind]. destruct r as [w|]; [|exists G2; split; [done|split; [by eapply turn_tells_further, qg_furthers|by rewrite (qg_due _ _ Q4)]]].
  pose proof (v_wf _ _ _ _ _ H4) as [Hq _]. pose proof (v_same _ _ _ _ _ H4) as Hsm.
  eapply yields_bind.
  { apply (backstop_scan_told s4 t (TransferQueue.Snapshot (resendQueue s4)) G2 X T H4); [apply (queue_nodup si_transfer resend_cmp _ Hq)| |done].
    intros y Hy. by rewrite <- Hsm. }
  intros s5 (G3 & T5 & Q5). assert (N5 : turn_tells (in_head x) G G3) by (eapply turn_tells_further; [|apply Q5]; by eapply turn_tells_further, qg_furthers).
  assert (D5 : st_due G3 = st_due G) by (by rewrite (qg_due _ _ Q5), (qg_due _ _ Q4)).
  destruct (retainedSilenceDeadline s5); [|by exists G3]. exists G3. split; [by apply (told_mutely s5); [apply mute_tick|]|done].
Qed.

(** ** Sending *)

Lemma encode_reads k n h a fs cf tag cid m :
  small_frames maxPayload fs -> 0 <= n < 2 ^ 64 -> 0 <= tag < 2 ^ 64 -> Forall frame_ok fs -> (cf = None \/ exists c, cf = Some (contractFrameOf c)) ->
  (forall id, cid = Some id -> isId id) ->
  m_id m = itemId k -> m_seq m = n -> m_ack m = a -> m_frames m = map canon_frame fs ->
  reads_as (marshalSendPackTransferFrame (pack_frame (itemId k) n h a fs cf tag cid)) m h.
Proof.
  intros Hlen Hn Ht Hfs Hcf Hcid E1 E2 E3 E4. split.
  { split; [rewrite E1; pose proof (wi_new k) as [Hid _]; by destruct (itemId k)|]. rewrite E4. apply List.Forall_map, List.Forall_forall. intros f _.
    unfold canon_frame. cbn. by destruct (MessageBytes f) as [[]|]. }
  intros d. set (f := pack_frame (itemId k) n h a fs cf tag cid).
  assert (Hok : FrameCodec.pack_ok f).
  { split; [apply wi_path|]. split; [apply wi_new|]. split; [apply wi_sequence|]. cbn. destruct a; [done|]. destruct cid; [by apply Hcid|done]. }
  assert (Hbytes : marshalSendPackTransferFrame f = pack_frame_bytes f).
  { unfold marshalSendPackTransferFrame. rewrite take_0. by rewrite (proj1 (pack_frame_append f [] Hok)). }
  assert (Hfit : fits63 (length (pack_frame_bytes f))).
  { assert (Hw : 0 < Z.of_nat (length (marshalSendPackTransferFrame f)) <= maxFrame).
    { apply env_wire. exists k, n, h, a, fs, cf, tag, cid. split_and!; try done. by rewrite (proj2 (Z.leb_le 2 _) wi_version). }
    rewrite Hbytes in Hw. pose proof env_retain as [H1 H2]. unfold fits63. unfold MaxInt64 in *. lia. }
  rewrite Hbytes, (unmarshal_pack_frame f d).
  - eexists _, _. split; [done|]. split; [done|]. cbn. rewrite E1, E2, E3, E4. done.
  - split; [done|]. split; [done|]. split; [|split; [done|split; [done|split; [|done]]]].
    + cbn. destruct Hcf as [->|[c ->]]; [done|apply wi_contract].
    + unfold f, pack_frame. cbn. destruct encryptionServer; unfold SequenceRoleServer; lia.
Qed.

Definition sent (G : story) (m : message) : story :=
  Story (st_takes G) (st_msgs G ++ [m]) (st_oks G) (st_drops G) (match m_frames m with [] => st_due G | _ => [] end).
Lemma furthers_sent G m : furthers G (sent G m).
Proof. split; [|done]. split; cbn; [done|by apply prefix_app_r|done|done]. Qed.

Lemma sorted_snoc (l : list Z) x : StronglySorted Z.lt l -> (forall n, n ∈ l -> n < x) -> StronglySorted Z.lt (l ++ [x]).
Proof.
  intros Hl Hx. induction Hl as [|y l Hl IH Hy]; cbn; [by repeat constructor|]. constructor.
  - apply IH. intros n Hn. apply Hx. by right.
  - apply List.Forall_app. split; [done|]. constructor; [|constructor]. apply Hx. by left.
Qed.

(** A message is numbered and sent; an acknowledged one waits. *)
Lemma told_sent s s' L G i m l :
  told s L G -> ss_log s' = ss_log s ++ l ++ [EvSend i (m_ack m)] -> Forall (fun e => mute e = true) l ->
  (ss_made s < ss_made s' <= maxItems)%nat -> m_id m = itemId (ss_made s) -> m_key m = si_key i ->
  nextSequenceNumber s' = (if m_ack m then nextSequenceNumber s + 1 else nextSequenceNumber s) -> 0 <= nextSequenceNumber s ->
  (m_ack m = true -> m_seq m = nextSequenceNumber s) -> origin (st_takes G) m ->
  reads_as (transferFrameBytes (si_wire i)) m (head (si_wire i)) -> (head (si_wire i) = true -> L = []) ->
  (forall id, is_Some (openSendContracts s' !! id) -> is_Some (openSendContracts s !! id) \/ isId id) ->
  m_frames m = [] \/ m_frames m = st_due G ->
  told s' (if m_ack m then L ++ [i] else L) (sent G m) /\ copies (sent G m) (transferFrameBytes (si_wire i)) m (head (si_wire i)).
Proof.
  intros Ht El Hl Hk Hid Hkey Hn Hpos Hseq Ho Hr Hh Hc Hdue. pose proof Ht as [T0 T1 TF TO T2 T3 T4 T5 T6 T7 T8 T9 T10 T13 T11 T12].
  pose proof (fu_extends _ _ (furthers_sent G m)) as He.
  assert (Hin : m ∈ st_msgs (sent G m)) by (apply list.elem_of_app; right; by left).
  assert (Hcopy : copies (sent G m) (transferFrameBytes (si_wire i)) m (head (si_wire i))).
  { split; [done|]. split; [done|]. intros Ha Hhd. specialize (Hh Hhd). subst L. intros n Hlt. rewrite (Hseq Ha) in Hlt.
    destruct (T9 n Hlt) as [?|[?|Hx]]; [by left|by right|by apply not_elem_of_nil in Hx]. }
  split; [|done].
  assert (Hold : forall e, e ∈ ss_log s' -> mute e = false -> e ∈ ss_log s \/ e = EvSend i (m_ack m)).
  { intros e. rewrite El, !list.elem_of_app, list_elem_of_singleton. intros [?|[Hx|?]] He'; [by left| |by right].
    rewrite list.Forall_forall in Hl. specialize (Hl e Hx). congruence. }
  assert (Hsub : forall e, e ∈ ss_log s -> e ∈ ss_log s') by (intros e He'; rewrite El; apply list.elem_of_app; by left).
  assert (Hsplit : forall x, x ∈ st_msgs (sent G m) -> x ∈ st_msgs G \/ x = m).
  { intros x [?|?%list_elem_of_singleton]%list.elem_of_app; auto. }
  split.
  - rewrite El, !takes_app, (takes_mute l Hl), T0. cbn. by rewrite app_nil_r.
  - rewrite El, !sends_app, (sends_mute l Hl), T1. cbn. rewrite map_app. cbn. by rewrite Hkey.
  - cbn. rewrite flat_map_app, <- TF. cbn. rewrite app_nil_r, <- app_assoc. f_equal. destruct Hdue as [-> | ->]; [done|]. by destruct (st_due G); [|rewrite app_nil_r].
  - cbn. rewrite List.filter_app. cbn. destruct (m_ack m) eqn:Ha; [|by rewrite app_nil_r]. rewrite map_app. apply sorted_snoc; [done|].
    intros n (x & -> & Hx)%list_elem_of_fmap. apply list_elem_of_In, List.filter_In in Hx as [Hx%list_elem_of_In Hxa].
    rewrite (Hseq eq_refl). by apply T3.
  - intros x [Hx| ->]%Hsplit; auto.
  - intros x [Hx| ->]%Hsplit Ha; rewrite Hn; [specialize (T3 x Hx Ha); destruct (m_ack m); lia|rewrite Ha, (Hseq Ha); lia].
  - intros x y [Hx| ->]%Hsplit [Hy| ->]%Hsplit Ha Hb Heq; [by apply T4| | |done].
    + specialize (T3 x Hx Ha). specialize (Hseq Hb). lia.
    + specialize (T3 y Hy Hb). specialize (Hseq Ha). lia.
  - intros x [Hx| ->]%Hsplit; [|exists (ss_made s); split; [lia|done]]. destruct (T5 x Hx) as (k' & Hk' & Ek'). exists k'. split; [lia|done].
  - intros x y [Hx| ->]%Hsplit [Hy| ->]%Hsplit Heq; [by apply T6| | |done].
    + destruct (T5 x Hx) as (k' & Hk' & Ek'). rewrite Ek', Hid in Heq. apply env_ids in Heq; lia.
    + destruct (T5 y Hy) as (k' & Hk' & Ek'). rewrite Ek', Hid in Heq. apply env_ids in Heq; lia.
  - intros p f w [Hw|?]%Hold; [|done|done]. destruct (T7 p f w Hw) as (b & x & hd & E1 & E2). exists b, x, hd. split; [done|]. by eapply extends_copies.
  - intros x Hx. assert (Hx' : x ∈ L \/ m_ack m = true /\ x = i).
    { destruct (m_ack m); [|by left]. apply list.elem_of_app in Hx as [?|?%list_elem_of_singleton]; auto. }
    destruct Hx' as [Hx'|[Ha ->]].
    + destruct (T8 x Hx') as (y & A & Bm & C & D & F). exists y. split_and!; try done. by eapply extends_copies.
    + specialize (Hseq Ha). assert (Es : si_seq i = nextSequenceNumber s) by (unfold si_seq; rewrite <- Hkey; exact Hseq).
      exists m. split_and!; try done; rewrite Es; cbn.
      * intros Hx''. specialize (T13 _ Hx''). lia.
      * intros Hx''. destruct (T11 _ Hx'') as (y & A & Bm & C & _). specialize (T3 y A Bm). lia.
  - intros n. rewrite Hn. cbn. destruct (m_ack m) eqn:Ha; [|apply T9]. intros Hlt.
    destruct (decide (n = nextSequenceNumber s)) as [->|Hne].
    + right. right. rewrite map_app. apply list.elem_of_app. right. apply list_elem_of_singleton. unfold si_seq. rewrite <- Hkey. by rewrite <- Hseq.
    + destruct (T9 n) as [?|[?|?]]; [lia|by left|right; by left|right; right]. rewrite map_app. apply list.elem_of_app. by left.
  - intros n [Hx|?]%Hold; [|done|done]. destruct (T10 n Hx) as (x & A & Bm & C). exists x. split_and!; try done. by eapply extends_msg.
  - intros n Hx. rewrite Hn. specialize (T13 n Hx). destruct (m_ack m); lia.
  - intros n Hx. destruct (T11 n Hx) as (x & A & Bm & C & D). exists x. split_and!; try done; [by eapply extends_msg|]. intros c Hc'. auto.
  - intros id Hx. destruct (Hc id Hx); auto.
Qed.

Lemma current_open s : yields (current s) (fun cur => forall id c, cur = Some (id, c) -> openSendContracts s !! id = Some c).
Proof.
  unfold current. destruct (sendContract s) as [id|]; [|done]. destruct (openSendContracts s !! id) as [c|] eqn:Ec; [|done].
  cbn. by intros ? ? [= <- <-].
Qed.

(** The numbers and the ids last for one more message. *)
Definition numberable s : Prop := 0 <= nextSequenceNumber s < 2 ^ 63 /\ (ss_made s < maxItems)%nat.
Lemma numberable_mute s s' : mutely s s' -> numberable s -> numberable s'.
Proof. intros [Hn Hm _ _] Hs. unfold numberable. by rewrite Hn, Hm. Qed.

Lemma make_item_told s frames cb ack sc forced retain G :
  told s (sendItems s) G -> numberable s -> Forall frame_ok frames -> small_frames maxPayload frames ->
  (forall m, m_frames m = map canon_frame frames -> m_cb m = cb -> (ack = true -> m_ack m = true) -> origin (st_takes G) m) ->
  frames = [] \/ map canon_frame frames = st_due G ->
  yields (make_item s frames cb ack sc forced retain) (fun '(s', i, a) => exists m, m_key m = si_key i /\ m_ack m = a /\ m_frames m = map canon_frame frames /\
    told s' (if a then sendItems s ++ [i] else sendItems s) (sent G m) /\ copies (sent G m) (transferFrameBytes (si_wire i)) m (head (si_wire i))).
Proof.
  intros Ht [Hnext Hmade] Hfs Hlen Ho Hdue. unfold make_item, now. eapply yields_bind; [apply current_open|]. intros cur Hcur. cbn zeta.
  set (ack' := ack || _). set (isHead := ack' && _). set (n := if ack' then _ else 0).
  set (cf := match cur with Some _ => _ | None => None end). set (s1 := tick s) in *. set (s2 := if ack' then _ else s1).
  assert (Hcf : cf = None \/ exists c, cf = Some (contractFrameOf c)).
  { unfold cf. destruct cur as [[id c]|]; [|by left]. destruct (isHead || sc); [right; by exists c|by left]. }
  assert (H2 : ss_log s2 = ss_log s /\ openSendContracts s2 = openSendContracts s /\ ss_made s2 = ss_made s /\
            nextSequenceNumber s2 = if ack' then nextSequenceNumber s + 1 else nextSequenceNumber s).
  { unfold s2. destruct ack'; [|done]. split_and!; try done. cbn. apply u64_small. lia. }
  destruct H2 as (L2 & O2 & R2 & N2). unfold encode. rewrite (proj2 (Z.leb_le 2 _) wi_version).
  eapply yields_bind; [apply mute_ScaledRtt|]. intros [s3 rtt] [M1 M2 (l & M3 & M4) M5]. cbn [alloc yields].
  match goal with |- exists m, m_key m = si_key ?x /\ _ => set (i := x) end.
  set (m := Message (si_key i) ack' (map canon_frame frames)). exists m. do 3 (split; [done|]).
  apply (told_sent s _ (sendItems s) G i m (l ++ [EvAlloc (BufFrame (ss_buffers s3))])); try done.
  - cbn. rewrite M3, L2, <- !app_assoc. done.
  - apply Forall_app. split; [done|by constructor].
  - cbn. lia.
  - change (nextSequenceNumber (emit _ _)) with (nextSequenceNumber s3). by rewrite M1.
  - lia.
  - unfold m, i, m_seq, n. cbn. by intros ->.
  - apply Ho; [done|done|]. unfold m, ack'. cbn. by intros ->.
  - apply encode_reads; try done; [|pose proof (u64_range (clock (reads s) / 1000000)); unfold openTag; lia|].
    + change (2 ^ 63) with 9223372036854775808 in Hnext. change (2 ^ 64) with 18446744073709551616. unfold n. change (nextSequenceNumber s1) with (nextSequenceNumber s). destruct ack'; lia.
    + destruct cur as [[id c]|]; [|done]. intros id' [= <-]. apply (td_contracts _ _ _ Ht). exists c. by apply Hcur.
  - change (isHead = true -> sendItems s = []). unfold isHead. intros [_ Hx]%andb_prop. change (sendItems s1) with (sendItems s) in Hx. by destruct (sendItems s).
  - intros id Hid. destruct (M5 id Hid) as [Hx|]; [left; by rewrite <- O2|by right].
  - destruct Hdue as [-> |]; [by left|by right].
Qed.

Lemma q_add_told s L i G : told s L G -> told (q_add s i) L G.
Proof. apply told_mutely, mute_q_add. Qed.

(** A nack that could be written is told of success. *)
Lemma told_nack s L G m i c :
  told s L G -> m ∈ st_msgs G -> m_ack m = false -> m_key m = si_key i ->
  told (safeAck s (ik_ackCallback (si_key (set_carrier i c))) true) L G.
Proof.
  intros Ht Hm Ha Hk. cbn. unfold safeAck. destruct (ik_ackCallback (si_key i)) as [[n|lid]|] eqn:Ecb; [|apply (told_mutely s); [apply mute_setContractAcked|done]|done].
  destruct Ht as [T0 T1 TF TO T2 T3 T4 T5 T6 T7 T8 T9 T10 T13 T11 T12].
  assert (Hsub : forall e, e ∈ ss_log s -> e ∈ ss_log s ++ [EvCallback n true]) by (intros e He; apply list.elem_of_app; by left).
  split; try done; cbn [ss_log emit].
  - rewrite takes_app, T0. cbn. by rewrite app_nil_r.
  - rewrite sends_app, T1. cbn. by rewrite app_nil_r.
  - intros p f w [Hw|Hw%list_elem_of_singleton]%list.elem_of_app; [by apply (T7 p f)|done].
  - intros k [Hk'|[= ->]%list_elem_of_singleton]%list.elem_of_app; [by apply T10|]. exists m. split_and!; [done| |congruence].
    unfold m_cb. by rewrite Hk.
  - intros k Hk'. destruct (T11 k Hk') as (m' & E1 & E2 & E3 & E4). exists m'. split_and!; auto.
Qed.

Lemma sendWithSetContract_told s frame cb ack sc forced retain G :
  told s (sendItems s) G -> numberable s -> Forall frame_ok (frame_list frame) ->
  small_frames maxPayload (frame_list frame) ->
  (forall m, m_frames m = map canon_frame (frame_list frame) -> m_cb m = cb -> (ack = true -> m_ack m = true) -> origin (st_takes G) m) ->
  frame_list frame = [] \/ map canon_frame (frame_list frame) = st_due G ->
  yields (sendWithSetContract s frame cb ack sc forced retain) (fun s' => exists G', told s' (sendItems s') G' /\ furthers G G' /\
    st_due G' = match frame with None => st_due G | Some _ => [] end).
Proof.
  intros Ht Hnext Hfs Hlen Ho Hdue. unfold sendWithSetContract. fold (frame_list frame).
  eapply yields_bind. { apply (yields_and _ _ _ (make_item_told s (frame_list frame) cb ack sc forced retain G Ht Hnext Hfs Hlen Ho Hdue)
                                 (make_item_items s (frame_list frame) cb ack sc forced retain)). }
  intros [[s1 i] a] [(m & Em & Ea & Efr & T1 & C1) [U1 _]]. rewrite <- U1 in T1.
  pose proof (mute_reliableOnly s1) as M2. pose proof (reliableOnlyWriteNow_items s1) as U2. destruct (reliableOnlyWriteNow s1) as [s2 ro]. cbn [fst] in *.
  set (L := if a then _ else _) in T1.
  assert (T2 : told s2 L (sent G m)) by (by apply (told_mutely s1)).
  pose proof (told_write s2 L _ (transferFrameBytes (si_wire i)) m (head (si_wire i)) forced ro C1 T2) as T3.
  pose proof (writeMaybeWrappedBytes_items s2 (transferFrameBytes (si_wire i)) forced ro) as U3.
  destruct (writeMaybeWrappedBytes s2 _ forced ro) as [s3 [d ok]]. cbn [fst] in *.
  set (w := if ok then _ else (s3, i)).
  assert (Hw : mutely s3 (fst w) /\ unmoved s3 (fst w) /\ si_key (snd w) = si_key i /\ si_wire (snd w) = si_wire i).
  { unfold w. destruct ok; [|done]. destruct (mute_observeCarrier (emit s3 (EvFirstSend (wire_len i))) i d) as (A & A1 & A2).
    split; [transitivity (emit s3 (EvFirstSend (wire_len i))); [by apply mute_emit|done]|]. split; [apply (observeCarrierWrite_items (emit s3 _))|done]. }
  destruct w as [s4 j]. cbn [fst snd] in Hw. destruct Hw as (M4 & U4 & Ek & Ew).
  assert (T4 : told s4 L (sent G m)) by (by apply (told_mutely s3)).
  assert (E4 : sendItems s4 = sendItems s1) by (unfold unmoved in *; congruence).
  eapply (yields_bind _ _ (fun s' => told s' (sendItems s') (sent G m))).
  2:{ intros s5 T5. exists (sent G m). split; [|split; [apply furthers_sent|cbn; rewrite Efr; by destruct frame as [[f b]|]]].
      destruct frame as [[f b]|]; [|done]. by apply (told_mutely s5); [apply mute_emit|]. }
  destruct a; unfold L in *.
  - destruct (mute_admit s4 j) as (M5 & Ek5 & Ew5). destruct (admit_retained_items s4 j) as [U5 _]. destruct (admit_retained s4 j) as [s5 k]. cbn [fst snd yields] in *.
    rewrite (q_add_items _ k). apply q_add_told. cbn [sendItems set_items]. apply (told_mutely s5); [apply mute_set_items|].
    unfold unmoved in *. rewrite U5, E4. apply (told_swap _ _ i); [congruence|congruence|]. by apply (told_mutely s4).
  - destruct ok.
    + generalize (ackItemCounted_items s4 j false). unfold ackItemCounted. intros Hu.
      assert (Hy : yields (ackItemCounted s4 j false) (fun s' => told s' (sendItems s4) (sent G m))).
      { unfold ackItemCounted. eapply yields_bind; [apply mute_release|]. intros [s5 k] (M5 & [Ek5 _] & Ew5).
        eapply yields_bind; [apply mute_ack_contract|]. intros s6 M6. cbn [yields]. unfold messagePoolReturn.
        eapply told_mutely; [by apply mute_emit|]. replace k with (set_carrier k (si_carrier k)) by (by destruct k).
        apply (told_nack _ _ _ m k); [|apply C1|done|congruence]. rewrite E4. apply (told_mutely s4); [by transitivity s5|done]. }
      pose proof (yields_and _ _ _ Hu Hy) as Hz. eapply yields_weaken; [exact Hz|]. cbn. intros s' [U' T']. by rewrite U'.
    + cbn. rewrite <- E4 in T4. rewrite (safeAck_items s4 cb false). unfold messagePoolReturn.
      eapply told_mutely; [by apply mute_emit|]. by apply (told_mutely s4); [apply mute_safeAck|].
Qed.

Lemma update_id c t n : contractId (fst (update c t n)) = contractId c.
Proof. unfold update. by repeat case_match. Qed.

Lemma mute_setContract s next : isId (contractId next) -> yields (setContract s next) (fun s' => mutely s s' /\ unmoved s s').
Proof.
  intros Hid. unfold setContract. eapply yields_bind; [apply yields_true|]. intros cur _.
  set (s1 := match cur with Some _ => _ | None => s end).
  assert (H1 : mutely s s1 /\ unmoved s s1).
  { unfold s1. destruct cur as [[id c]|]; [|done]. destruct (_ =? 0); [|done]. split; [|done].
    set (s0 := emit s _). transitivity s0; [by apply mute_emit|]. apply mute_contracts. intros id' [c' [_ Hc']%lookup_delete_Some]. by left; exists c'. }
  destruct H1 as [H1 U1]. cbn. split; [|done]. mute. transitivity s1; [done|]. apply mute_contracts. intros id [c' [[<- _]|[_ Hc']]%lookup_insert_Some]; [by right|by left; exists c'].
Qed.

(** An attempt at a contract; one that fails leaves a message to number. *)
Definition tries (G : story) (r : SS * bool) : Prop :=
  exists G', told (fst r) (sendItems (fst r)) G' /\ quiets G G' /\ (snd r = false -> numberable (fst r)).
Lemma tries_mute s s' G b : told s (sendItems s) G -> numberable s -> mutely s s' -> unmoved s s' -> tries G (s', b).
Proof.
  intros Ht Hn Hm Hu. exists G. cbn. rewrite Hu. split; [by apply (told_mutely s)|]. split; [done|]. intros _. by apply (numberable_mute s).
Qed.

Lemma setNextContract_told s ct n G :
  told s (sendItems s) G -> numberable s -> yields (setNextContract s ct n) (tries G).
Proof.
  intros Ht Hn. unfold setNextContract.
  eapply yields_bind. { apply (yields_and _ _ _ (mute_contractFillFraction s) (contractFillFraction_items s)). }
  intros [s1 fill] [M1 U1]. destruct (newSequenceContract _ _ _ _ _) as [next|] eqn:Enew; [|apply (tries_mute s); [done|done|mute; done|done]].
  pose proof (contract_id_ok _ _ _ _ _ Enew) as Hid. case_bool_decide; [apply (tries_mute s); [done|done|mute; done|done]|].
  destruct (expired _ _); [apply (tries_mute s); [done|done|mute; done|done]|]. set (s4 := tick (tick s1)).
  pose proof (update_id next (now_ms s4) 0) as I1. destruct (update next (now_ms s4) 0) as [n1 ok1]. cbn [fst] in I1.
  destruct (if ok1 then update n1 _ n else (n1, false)) as [n2 ok2] eqn:Eu. assert (Iu : contractId n2 = contractId next).
  { destruct ok1; [|by injection Eu as <- _]. apply (f_equal fst) in Eu. cbn [fst] in Eu. by rewrite <- Eu, update_id. }
  set (s5 := tick (tick s4)).
  assert (M5 : mutely s s5) by (unfold s5, s4; mute; done). assert (U5 : unmoved s s5) by exact U1.
  destruct ok2; [|apply (tries_mute s); [done|done|mute; done|done]].
  eapply yields_bind; [apply mute_setContract; by rewrite Iu|]. intros s6 [M6 U6].
  set (s7 := tick s6). assert (M7 : mutely s s7) by (unfold s7; mute; by transitivity s5).
  assert (U7 : sendItems s7 = sendItems s) by (unfold unmoved in *; change (sendItems s7) with (sendItems s6); congruence).
  eapply yields_bind.
  { apply (sendWithSetContract_told s7 None (Some (CbContractOpen (localId n2))) true true _ false G).
    - rewrite U7. by apply (told_mutely s).
    - by apply (numberable_mute s).
    - constructor.
    - split; [cbn; lia|constructor].
    - intros m Hf Hc _. right. cbn in Hf. split; [done|]. by exists (localId n2).
    - by left. }
  intros s8 (G' & T8 & Q8 & D8). cbn. exists G'. split; [done|]. split; [by split|done].
Qed.

Lemma nextContract_told s ct n G : told s (sendItems s) G -> numberable s -> yields (nextContract s ct n) (tries G).
Proof.
  intros Ht Hn. unfold nextContract. destruct ct as [ct|]; [|by apply (tries_mute s)].
  eapply yields_bind; [by apply (setNextContract_told s ct n G)|]. intros [s1 ok] (G1 & T1 & Q1 & N1). cbn [fst snd] in *.
  destruct ok; [|by exists G1]. eapply yields_bind; [apply (yields_and _ _ _ (mute_createContract _ _) (createContract_items _ _))|].
  intros s2 [M2 U2]. exists G1. cbn. split; [|done]. rewrite U2. apply (told_mutely s1); [|done]. transitivity (bump_index s1); [mute|done].
Qed.

Lemma contract_loop_told l s n G : told s (sendItems s) G -> numberable s -> yields (contract_loop s n l) (tries G).
Proof.
  revert s G. induction l as [|a l IH]; intros s G Ht Hn; cbn [contract_loop]; [by apply (tries_mute s)|].
  eapply (yields_bind _ _ (fun s1 => mutely s s1 /\ unmoved s s1)).
  { destruct (at_degraded a); [done|]. apply (yields_and _ _ _ (mute_createContract _ _) (createContract_items _ _)). }
  intros s1 [M1 U1]. assert (T1 : told s1 (sendItems s1) G) by (rewrite U1; by apply (told_mutely s)).
  eapply yields_bind; [apply (nextContract_told s1 _ n G T1); by apply (numberable_mute s)|].
  intros [s2 ok] (G2 & T2 & Q2 & N2). cbn [fst snd] in *. destruct ok; [by exists G2|]. specialize (N2 eq_refl).
  eapply yields_weaken; [by apply (IH s2 G2 T2)|]. intros [s3 ok] (G3 & T3 & Q3 & N3). cbn [fst snd] in *.
  exists G3. split; [done|]. split; [by transitivity G2|done].
Qed.

Lemma updateContract_told s n l G : told s (sendItems s) G -> numberable s -> yields (updateContract s n l) (tries G).
Proof.
  intros Ht Hn. unfold updateContract. destruct (SendNoContract _); [apply (tries_mute s); [done|done|mute|done]|].
  eapply yields_bind; [apply current_open|]. intros cur Hcur. set (s1 := tick s).
  assert (H1 : mutely s (fst (match cur with
                   | None => (s1, false)
                   | Some (id, c) => let '(c, ok) := update c (now_ms s1) n in (put_contract (tick s1) id c, ok)
                   end)) /\ unmoved s (fst (match cur with
                   | None => (s1, false)
                   | Some (id, c) => let '(c, ok) := update c (now_ms s1) n in (put_contract (tick s1) id c, ok)
                   end))).
  { destruct cur as [[id c]|]; [|split; [apply mute_tick|done]]. destruct (update c _ n) as [c' ok]. split; [|done]. cbn [fst].
    transitivity (tick s1); [unfold s1; mute|]. apply mute_put. exists c. by apply Hcur. }
  destruct (match cur with Some _ => _ | None => _ end) as [s2 ok]. cbn [fst] in H1. destruct H1 as [M2 U2]. destruct ok; [by apply (tries_mute s)|].
  eapply yields_bind. { apply (yields_and _ _ _ (mute_contractFillFraction s2) (contractFillFraction_items s2)). }
  intros [s3 fill] [M3 U3]. destruct (_ <? _); [done|].
  assert (M03 : mutely s s3) by (by transitivity s2). assert (U03 : unmoved s s3) by (unfold unmoved in *; congruence).
  assert (T3 : told s3 (sendItems s3) G) by (rewrite U03; by apply (told_mutely s)).
  assert (Hn3 : numberable s3) by (by apply (numberable_mute s)).
  destruct cur as [c|]; [destruct l as [|a l]; [by apply (tries_mute s)|]|].
  - eapply yields_bind; [by apply (nextContract_told s3 _ n G)|]. intros [s4 ok] (G4 & T4 & Q4 & N4). cbn [fst snd] in *. destruct ok; [by exists G4|].
    specialize (N4 eq_refl). eapply yields_weaken; [by apply (contract_loop_told l s4 n G4 T4)|].
    intros [s5 ok] (G5 & T5 & Q5 & N5). exists G5. split; [done|]. split; [by transitivity G4|done].
  - by apply (contract_loop_told l s3 n G).
Qed.

(** ** A turn *)

Definition taken (G : story) (p : SendPack) : story := Story (st_takes G ++ [p]) (st_msgs G) (st_oks G) (st_drops G) (st_due G ++ [canon_frame (sk_Frame p)]).
Lemma furthers_taken G p : furthers G (taken G p).
Proof. split; [|done]. split; cbn; [by apply prefix_app_r|done|done|done]. Qed.

Lemma told_taken s L G p : told s L G -> told (emit s (EvTake p)) L (taken G p).
Proof.
  intros [T0 T1 TF TO T2 T3 T4 T5 T6 T7 T8 T9 T10 T13 T11 T12].
  assert (Hsub : forall e, e ∈ ss_log s -> e ∈ ss_log s ++ [EvTake p]) by (intros e He; apply list.elem_of_app; by left).
  split; try done; cbn [ss_log emit].
  - by rewrite takes_app, T0.
  - rewrite sends_app, T1. cbn. by rewrite app_nil_r.
  - cbn. by rewrite app_assoc, TF, map_app.
  - intros m Hm. eapply origin_prefix; [|by apply T2]. by apply prefix_app_r.
  - intros q f w [Hw|Hw%list_elem_of_singleton]%list.elem_of_app; [by apply (T7 q f)|done].
  - intros k [Hk|Hk%list_elem_of_singleton]%list.elem_of_app; [by apply T10|done].
  - intros k Hk. destruct (T11 k Hk) as (m' & E1 & E2 & E3 & E4). exists m'. split_and!; auto.
Qed.

(** The frames of the packs a turn takes are in range. *)
Definition case_frames (c : select_case) : Prop := match c with SelPack p _ => frame_ok (sk_Frame p) | _ => True end.

Lemma at_rest_numberable s X T : at_rest s X T -> (ss_made s < maxItems)%nat -> numberable s.
Proof.
  intros Hs Hm. pose proof (v_next _ _ _ _ _ Hs). pose proof (v_made _ _ _ _ _ Hs). pose proof env_items. unfold numberable.
  change (2 ^ 63) with 9223372036854775808 in *. lia.
Qed.

Lemma after_select_told s c G X T :
  at_rest s X T -> case_ok c -> case_frames c -> (ss_made s + 2 <= maxItems)%nat -> told s (sendItems s) G -> st_due G = [] ->
  yields (after_select s c) (fun '(s', b) => exists G', told s' (sendItems s') G' /\ furthers G G' /\ (b = true -> st_due G' = [])).
Proof.
  intros Hs Hc Hf Hm Ht Hdue. unfold after_select. destruct (apply_policy_ok s _ _ _ _ Hs) as [H1 Q1]. pose proof (mute_apply_policy s) as M1.
  destruct (apply_policy s) as [s1 available]. cbn [fst] in *. pose proof (quietly_keeps _ _ Q1) as [K1 K2 K3 K4 K5].
  assert (R1 : at_rest s1 X T) by (unfold at_rest; by rewrite K1).
  assert (T1 : told s1 (sendItems s1) G) by (rewrite K1; by apply (told_mutely s)).
  assert (Hstay : forall s2 (b : bool), mutely s1 s2 -> unmoved s1 s2 -> yields (Ret (s2, b)) (fun '(s', b) => exists G', told s' (sendItems s') G' /\ furthers G G' /\ (b = true -> st_due G' = []))).
  { intros s2 b M2 U2. exists G. split; [|by split]. rewrite U2. by apply (told_mutely s1). }
  destruct c as [| | |p l|closed]; [by apply Hstay; [apply mute_emit|]|by apply Hstay|by destruct (canQueue _ _ _); apply Hstay| |].
  2:{ unfold idle_exit. destruct (_ && _); [by apply Hstay; [apply mute_emit|]|by apply Hstay]. }
  destruct (canQueue _ _ _); [|by apply Hstay]. destruct Hc as [Hlen Hmax]. set (s2 := emit s1 (EvTake p)).
  assert (T2 : told s2 (sendItems s2) (taken G p)) by (by apply told_taken).
  assert (H2 : at_rest s2 X (pack_tokens p ++ T)) by (by apply take_ok).
  pose proof env_payload as Hpay. assert (Hn : 0 <= sk_MessageByteCount p <= maxPayload) by lia.
  destruct (send_updateContract_ok s2 (sk_MessageByteCount p) l X (pack_tokens p ++ T) H2 Hn) as (s3 & ok & E3 & Rd3 & M3 & H3).
  { change (ss_made s2) with (ss_made s1). lia. }
  pose proof (updateContract_told s2 (sk_MessageByteCount p) l (taken G p) T2 (at_rest_numberable _ _ _ H2 ltac:(change (ss_made s2) with (ss_made s1); lia))) as Hu.
  rewrite E3 in *. cbn [gbind yields] in *. destruct Hu as (G3 & T3 & Q3 & _). cbn [fst snd] in *. pose proof (furthers_taken G p) as Q2.
  assert (D3 : st_due G3 = [canon_frame (sk_Frame p)]) by (rewrite (qg_due _ _ Q3); cbn; by rewrite Hdue). apply qg_furthers in Q3.
  destruct ok.
  - destruct H3 as (X' & H3 & _). eapply yields_bind.
    { unfold send. apply (sendWithSetContract_told s3 (Some (sk_Frame p, sk_buffer p)) _ _ _ _ _ G3); [done|eapply at_rest_numberable; [done|cbn in M3; lia]|by apply Forall_singleton| | |].
      - split; [cbn; lia|apply Forall_singleton; lia].
      - intros m Em Ecb Ea. left. exists p. split; [|done].
        apply (elem_of_prefix (st_takes (taken G p))); [apply list.elem_of_app; right; by left|apply Q3].
      - right. by rewrite D3. }
    intros s4 (G4 & T4 & Q4 & D4). exists G4. split; [done|]. split; [|by intros _]. transitivity (taken G p); [done|]. by transitivity G3.
  - exists G3. split; [|by split; [transitivity (taken G p)|]]. cbn [sendItems emit]. rewrite (safeAck_items s3 (option_map CbUser (sk_AckCallback p)) false).
    apply (told_mutely s3); [|done]. mute. apply mute_safeAck.
Qed.

(** The acks a turn takes in settle, and nothing else does. *)
Lemma turn_told s x K G X T :
  at_rest s X T -> counted K s -> 1 <= K < 2 ^ 62 - 2 -> turn_ok x -> case_frames (in_case x) -> (ss_made s + 2 <= maxItems)%nat ->
  told s (sendItems s) G -> st_due G = [] ->
  yields (turn s x) (fun '(s', b) => exists G', told s' (sendItems s') G' /\ turn_tells (in_head x) G G' /\ (b = true -> st_due G' = [])).
Proof.
  intros Hs Hc HK Hx Hf Hm Ht Hdue. unfold turn. destruct (send_before_ok s x K X T Hs Hc) as (s1 & r & E1 & H1 & [A1 A2 A3] & C1 & _); [lia|].
  pose proof (before_select_told s x K G X T Hs Hc ltac:(lia) Ht) as Hb. rewrite E1 in *. cbn [gbind yields] in *.
  destruct Hb as (G1 & T1 & N1 & D1). destruct r as [w|]; [|by exists G1].
  eapply yields_weaken; [apply (after_select_told s1 (in_case x) G1 X T H1 Hx Hf); [lia|done|congruence]|].
  intros [s' b] (G' & T' & Q' & D'). exists G'. split; [done|]. split; [by eapply turn_tells_further|done].
Qed.

(** ** The start and the end *)

Lemma sorted_seqs_nodup (l : list Z) : StronglySorted Z.lt l -> NoDup l.
Proof.
  induction 1 as [|x l _ IH Hx]; [constructor|]. apply list.NoDup_cons. split; [|done]. intros Hin.
  rewrite List.Forall_forall in Hx. specialize (Hx x (proj1 (list_elem_of_In _ _) Hin)). lia.
Qed.

Lemma told_perm s L L' G : L ≡ₚ L' -> told s L G -> told s L' G.
Proof.
  intros Hp [T0 T1 TF TO T2 T3 T4 T5 T6 T7 T8 T9 T10 T13 T11 T12]. split; try done.
  - intros i. rewrite <- Hp. apply T8.
  - intros n Hn. rewrite <- Hp. by apply T9.
Qed.

Lemma discard_told s i L G :
  si_seq i ∉ map si_seq L -> told s (i :: L) G -> told (discard_item s i) L (dropped G (si_seq i)).
Proof.
  intros Hi Ht. unfold discard_item. set (p := if si_retained i then _ else (s, i)).
  assert (Hp : mutely s (fst p) /\ si_key (snd p) = si_key i /\ si_wire (snd p) = si_wire i).
  { unfold p. destruct (si_retained i); [|done]. split; [|apply releaseRetained_item].
    transitivity (emit s (EvRetention RetainSeqExit)); [by apply mute_emit|apply mute_releaseRetained]. }
  destruct p as [s1 j]. cbn [fst snd] in Hp. destruct Hp as (M1 & Ek & Ew). unfold messagePoolReturn.
  eapply told_mutely; [by apply mute_emit|]. assert (Es : si_seq j = si_seq i) by (unfold si_seq; by rewrite Ek). rewrite <- Es in *.
  apply (told_dropped _ [] j L); [done|]. apply (told_mutely s1); [apply mute_unack_contract|].
  apply (told_swap s1 [] i j L); [done..|]. by apply (told_mutely s).
Qed.

Lemma discards_told l s G :
  NoDup (map si_seq l) -> told s l G -> exists G', told (fold_left discard_item l s) [] G' /\ quiets G G'.
Proof.
  revert s G. induction l as [|i l IH]; intros s G Hnd Ht; cbn [fold_left]; [by exists G|]. cbn [map] in Hnd.
  apply list.NoDup_cons in Hnd as [Hi Hnd]. destruct (IH _ _ Hnd (discard_told s i l G Hi Ht)) as (G' & T' & Q').
  exists G'. split; [done|]. transitivity (dropped G (si_seq i)); [apply quiets_dropped|done].
Qed.

(** When [Run] returns, what waits is given up. *)
Lemma teardown_told s G X T :
  at_rest s X T -> told s (sendItems s) G -> exists G', told (teardown s) [] G' /\ quiets G G'.
Proof.
  intros Hs Ht. pose proof (v_wf _ _ _ _ _ Hs) as [Hq Hb]. pose proof (v_same _ _ _ _ _ Hs) as Hsm. unfold teardown.
  destruct (Clear_list si_transfer resend_cmp resend_cmp_flip resend_cmp_trans (resendQueue s) (ss_pool s) Hq Hb) as (q & b & -> & _).
  fold (queued s). set (l := queued s) in *.
  destruct (discards_told l (set_queue s q b) G) as (G' & T' & Q').
  - rewrite Hsm. pose proof (ky_seq _ _ (v_keys _ _ _ _ _ Hs)) as Hk. by apply sorted_seqs_nodup.
  - apply (told_perm _ (sendItems s)); [by symmetry|]. by apply (told_mutely s); [apply mute_set_queue|].
  - exists G'. split; [|done]. set (s2 := fold_left discard_item l _) in *. rewrite emits_closings. cbn [openSendContracts set_retained].
    fold (closings (openSendContracts s2)). set (k := closings _). apply (told_mutely s2); [|done].
    split; [done|done| |by left]. exists (k ++ [EvFlushContracts]). split; [by cbn; rewrite <- app_assoc|].
    apply Forall_app. split; [|by constructor]. unfold k, closings. apply list.Forall_forall. by intros e (c & -> & _)%list_elem_of_fmap.
Qed.

Definition no_story : story := Story [] [] [] [] [].

Lemma new_told b bud min lifetime w : told (NewSendSequence b bud min lifetime w) [] no_story.
Proof.
  unfold NewSendSequence. destruct (newResendQueue b bud min) as [q0 b0]. destruct (if lifetime then _ else _) as [q1 b1].
  split; cbn; try done; try (by intros ? ?%not_elem_of_nil); try (by intros ? ? ?%not_elem_of_nil); try (by intros ? ? ? ?%not_elem_of_nil); [constructor|lia|].
  intros id [c Hc]. by rewrite lookup_empty in Hc.
Qed.
End trace.
