(* ===== verification/ReceiveTrace.v ===== *)
(** What the log of a receive sequence tells its peer and its application, besides
    the deliveries and the acks of ReceiveOrder.v: the delivery point passes a
    number without a delivery only behind a head that arrived, and every message
    taken in reaches the application's callback once, at its place, or is
    discarded because it came as plaintext where encryption is required. *)
From stdpp Require Import sorting.
From S2P Require Import Prelude NetId TransferPath FrameCodec AckWindow GoHeap MemoryBudget TransferQueue RttWindow SequenceContract ReceiveSequence ReceiveOrder.

(** ** How a log grows *)

(** Events that are neither a jump nor part of taking a message in. *)
Definition plain (e : event) : bool :=
  match e with EvJump _ _ | EvReceived _ | EvCallback _ _ _ | EvRequiredDiscard _ => false | _ => true end.

Section grow.
Context {B H : Type} {MP : MemoryPool B H} {E : ReceiveEnv}.
Abbreviation RS := (@ReceiveSequence B H).
Implicit Types (s : RS) (i : receiveItem).

(** The log grows by a list of events that satisfies [P]. *)
Definition grows (P : list event -> Prop) s s' : Prop := exists l, rs_log s' = rs_log s ++ l /\ P l.

(** A property of events that joins up, holds of plain events, and holds of what
    a message taken in at the delivery point adds. *)
Class LogRule (P : list event -> Prop) : Prop := {
  lr_nil : P [];
  lr_app k l : P k -> P l -> P (k ++ l);
  lr_plain e : plain e = true -> P [e];
  lr_head s i cid : yields (receiveHead s i cid) (grows P s);
}.
End grow.

Section rule.
Context {B H : Type} {MP : MemoryPool B H} {E : ReceiveEnv}.
Context (P : list event -> Prop) {LR : LogRule (B := B) (H := H) P}.
Abbreviation RS := (@ReceiveSequence B H).
Abbreviation steadily := (grows (B := B) (H := H) P).
Implicit Types (s : RS) (i : receiveItem).

#[export] Instance grows_preorder : PreOrder steadily.
Proof.
  split; [intros s; exists []; rewrite app_nil_r; split; [done|apply lr_nil]|]. intros s1 s2 s3 (l1 & E1 & J1) (l2 & E2 & J2). exists (l1 ++ l2).
  rewrite E2, E1, app_assoc. split; [done|]. by apply lr_app.
Qed.

Lemma steady_same s s' : rs_log s' = rs_log s -> steadily s s'.
Proof. intros El. exists []. rewrite El, app_nil_r. split; [done|apply lr_nil]. Qed.
Lemma steady_emit s e : plain e = true -> steadily s (emit s e).
Proof. intros He. exists [e]. split; [done|by apply lr_plain]. Qed.

(** Peels the last step off [steadily s (f x)]. *)
Ltac steady_step :=
  match goal with
  | |- grows P ?s ?s => reflexivity
  | |- grows P _ (emit ?x _) => transitivity x; [|by apply steady_emit]
  | |- grows P _ (sendAck ?x _ _ _ _ _) => transitivity x; [|by apply steady_emit]
  | |- grows P _ (messagePoolReturn ?x _) => transitivity x; [|by apply steady_emit]
  | |- grows P _ (set_contracts ?x _ _) => transitivity x; [|by apply steady_same]
  | |- grows P _ (set_next ?x _) => transitivity x; [|by apply steady_same]
  | |- grows P _ (set_hold ?x _ _) => transitivity x; [|by apply steady_same]
  | |- grows P _ (set_queue ?x _ _) => transitivity x; [|by apply steady_same]
  | |- grows P _ (bump_reads ?x) => transitivity x; [|by apply steady_same]
  | |- grows P _ (bump_items ?x) => transitivity x; [|by apply steady_same]
  end.
Ltac steady := repeat steady_step.

Lemma steady_fold {A} (f : RS -> A -> RS) l s : (forall s x, steadily s (f s x)) -> steadily s (fold_left f l s).
Proof. intros Hf. revert s. induction l as [|x l IH]; intros s; cbn; [reflexivity|]. transitivity (f s x); [apply Hf|apply IH]. Qed.

Lemma steady_trim s : yields (trim_contracts s) (steadily s).
Proof.
  unfold trim_contracts. destruct (0 <? _); [|cbn; reflexivity]. destruct (slice _ _ _) as [l|]; [|done]. cbn. unfold close_oldest.
  apply steady_fold. intros s' c. case_bool_decide; steady.
Qed.
Lemma steady_setContract s c : yields (setContract s c) (fun '(s', _) => steadily s s').
Proof.
  unfold setContract, expired_now. destruct (expired _ _); [cbn; steady|]. case_bool_decide.
  { destruct (_ !! _); [|done]. cbn. steady. }
  destruct (_ !! _); [destruct (expired _ _); cbn; steady|].
  eapply yields_bind; [apply steady_trim|]. intros s1 H1. cbn. etransitivity; [|exact H1]. steady.
Qed.
Lemma steady_register s i : yields (registerContracts s i) (fun '(s', _) => steadily s s').
Proof.
  unfold registerContracts, expired_now. destruct (it_contractFrame i) as [f|]; [|cbn; steady]. destruct (unmarshalContract _) as [ct|]; [|cbn; steady].
  destruct (negb _); [cbn; steady|]. destruct (newSequenceContract _ _ _ _ _) as [next|]; [|cbn; steady]. destruct (expired _ _); [cbn; steady|].
  eapply yields_bind; [apply steady_setContract|]. intros [s1 err] H1. assert (H01 : steadily s s1) by (etransitivity; [|exact H1]; steady).
  destruct err as [[]|]; cbn; steady; done.
Qed.
Lemma steady_update s i cid : steadily s (fst (fst (updateContract s i cid))).
Proof.
  unfold updateContract, expired_now, debit.
  assert (Ha : forall id on, match (match openReceiveContracts s !! id with
    | None => inl s
    | Some c => let '(s, e) := (bump_reads s, expired c (now_ms s)) in if e then inr (s, false, cid)
      else let '(s, ok) := (let '(c', ok) := update c (now_ms s) (it_bytes i) in
             (set_contracts (bump_reads s) (<[id := c']> (openReceiveContracts s)) (receiveContract s), ok)) in
           if ok then inr (s, true, on) else inl s
    end) with inl s' => steadily s s' | inr r => steadily s (fst (fst r)) end).
  { intros id on. destruct (_ !! id) as [c|]; [|reflexivity]. destruct (expired _ _); [cbn; steady|].
    destruct (update _ _ _) as [c' ok]. destruct ok; cbn; steady. }
  destruct cid as [id|].
  - specialize (Ha id (Some id)). destruct (match openReceiveContracts s !! id with Some _ => _ | None => _ end); cbn; exact Ha.
  - destruct (receiveContract s) as [id|]; [|cbn; reflexivity]. specialize (Ha id (Some id)).
    destruct (match openReceiveContracts s !! id with Some _ => _ | None => _ end); cbn; exact Ha.
Qed.
Lemma steady_q_remove_id s id : yields (q_remove_id s id) (fun '(s', _) => steadily s s').
Proof. unfold q_remove_id. destruct (RemoveByMessageId _ _ _ _ _) as [[[q b] x]|]; [|done]. cbn. steady. Qed.
Lemma steady_q_remove_seq s n : yields (q_remove_seq s n) (fun '(s', _) => steadily s s').
Proof. unfold q_remove_seq. destruct (RemoveBySequenceNumber _ _ _ _ _) as [[[q b] x]|]; [|done]. cbn. steady. Qed.
Lemma steady_q_add s i : steadily s (q_add s i).
Proof. unfold q_add. destruct (Add _ _ _ _ _). steady. Qed.
Lemma steady_replaced s x : steadily s (replaced s x).
Proof. unfold replaced. destruct x; steady. Qed.
Lemma steady_commit s i : steadily s (commitHeldItem s i).
Proof. unfold commitHeldItem. steady. Qed.
Lemma steady_commitHeldPrefix s : steadily s (commitHeldPrefix s).
Proof.
  unfold commitHeldPrefix. destruct (QueueSize (receiveQueue s)) as [n t]. destruct (n =? 0)%nat; [reflexivity|].
  match goal with |- context [if ?b then _ else _] => destruct b end.
  - unfold commit_all. apply steady_fold. intros s' i. case_bool_decide; [reflexivity|apply steady_commit].
  - generalize (AscendingItems item_cmp (receiveQueue s)), 0%nat, 0. intros l. revert s. induction l as [|i l IH]; intros s k h; cbn; [reflexivity|].
    destruct (negb _); [reflexivity|]. etransitivity; [|apply IH]. case_bool_decide; [reflexivity|apply steady_commit].
Qed.
Lemma steady_evict fuel s n k : yields (evict_later fuel s n k) (steadily s).
Proof.
  revert s. induction fuel as [|fuel IH]; intros s; cbn [evict_later]; (destruct (canQueue s k); [cbn; reflexivity|]); [done|].
  destruct (PeekLast (receiveQueue s)) as [x|]; [|cbn; reflexivity]. destruct (_ <=? _); [cbn; reflexivity|]. destruct (_ && _); [cbn; reflexivity|].
  eapply yields_bind; [apply steady_q_remove_id|]. intros [s1 y] H1. eapply yields_weaken; [apply IH|]. intros s2 H2.
  etransitivity; [|exact H2]. steady. done.
Qed.

(** ** Arrivals and turns *)

Lemma steady_receive_now s i : yields (receive_now s i) (fun '(s', _) => steadily s s').
Proof.
  unfold receive_now. eapply yields_bind; [apply steady_register|]. intros [s1 err] H1. assert (H01 : steadily s s1) by (etransitivity; [|exact H1]; steady).
  destruct err; [done|]. pose proof (steady_update s1 i None) as H2. destruct (updateContract s1 i None) as [[s2 ok] cid]. cbn [fst] in H2.
  destruct ok; [|cbn; by transitivity s1]. eapply yields_bind; [apply lr_head|]. intros s3 H3. cbn. do 2 (etransitivity; [eassumption|]). done.
Qed.
Lemma steady_receive_early s i : yields (receive_early s i) (fun '(s', _) => steadily s s').
Proof.
  unfold receive_early. eapply (yields_bind _ _ (steadily s)); [case_bool_decide; [cbn; reflexivity|apply steady_evict]|]. intros s1 H1.
  destruct (canQueue _ _); [|done]. cbn. etransitivity; [exact H1|].
  assert (H2 : steadily s1 (q_add (set_hold s1 (Z.max (maxHeldByteCount s1) (it_bytes i)) (committed s1)) i)).
  { etransitivity; [|apply steady_q_add]. steady. }
  case_bool_decide; [etransitivity; [exact H2|apply steady_commitHeldPrefix]|]. steady. exact H2.
Qed.

(** The log grows as [P] says, except for a jump that follows the numbered head [p]. *)
Definition heads_only s s' (p : ReceivePack) : Prop :=
  exists k j l, rs_log s' = rs_log s ++ k ++ j ++ l /\ P k /\ P l /\
    (j = [] \/ exists a, j = [EvJump a (FrameCodec.SequenceNumber (rp_Pack p))] /\ Nack (rp_Pack p) = false /\ Head (rp_Pack p) = true).

Lemma steady_heads s s1 s2 s3 p : steadily s s1 -> heads_only s1 s2 p -> steadily s2 s3 -> heads_only s s3 p.
Proof.
  intros (l1 & E1 & J1) (k & j & l & E2 & K2 & L2 & J2) (l3 & E3 & J3). exists (l1 ++ k), j, (l ++ l3).
  split; [by rewrite E3, E2, E1, !app_assoc|]. split; [by apply lr_app|]. split; [by apply lr_app|done].
Qed.
Lemma heads_steady s s' p : steadily s s' -> heads_only s s' p.
Proof. intros (l & El & Hl). exists l, [], []. rewrite app_nil_r. split; [done|]. split; [done|]. split; [apply lr_nil|by left]. Qed.

Lemma receive_heads s p : Nack (rp_Pack p) = false -> yields (receive s p) (fun '(s', _) => heads_only s s' p).
Proof.
  intros Hn. unfold receive. destruct (IdFromBytes _) as [id|]; [|cbn; apply heads_steady; steady]. set (s0 := bump_items (bump_reads s)).
  set (i := make_item _ _ _ _). set (s1 := if it_head i && _ then _ else s0).
  assert (H1 : heads_only s0 s1 p).
  { unfold s1. destruct (it_head i && _) eqn:Eh; [|by apply heads_steady; reflexivity]. apply andb_prop in Eh as [Eh _].
    exists [], [EvJump (nextSequenceNumber s0) (it_seq i)], []. split; [by rewrite app_nil_r|]. split; [apply lr_nil|]. split; [apply lr_nil|]. right. by eexists. }
  assert (H0 : steadily s s0) by (unfold s0; steady). clearbody s1.
  eapply yields_bind; [apply steady_q_remove_seq|]. intros [s2 x] H2. eapply yields_bind; [apply steady_q_remove_id|]. intros [s3 y] H3.
  set (s4 := replaced s3 y). assert (H4 : steadily s1 s4).
  { transitivity s2; [done|]. etransitivity; [apply (steady_replaced s2 x)|]. etransitivity; [exact H3|apply steady_replaced]. }
  assert (Hend : forall s5, steadily s4 s5 -> heads_only s s5 p) by (intros s5 H5; apply (steady_heads s s0 s1 s5); [done|done|by transitivity s4]).
  destruct (_ <=? _); [destruct (_ =? _)|].
  - eapply yields_weaken; [apply steady_receive_now|]. intros [s5 r] H5. by apply Hend.
  - cbn [yields]. apply Hend. destruct (it_ack i); steady.
  - eapply yields_weaken; [apply steady_receive_early|]. intros [s5 r] H5. by apply Hend.
Qed.

Lemma steady_receiveNack s p : yields (receiveNack s p) (fun '(s', _) => steadily s s').
Proof.
  unfold receiveNack. destruct (IdFromBytes _) as [id|]; [|cbn; steady]. destruct (match ContractId _ with None => _ | Some _ => _ end) as [cid|]; [|cbn; steady].
  destruct (_ && _); [cbn; steady|]. eapply yields_bind; [apply steady_register|]. intros [s1 err] H1.
  assert (H01 : steadily s s1) by (etransitivity; [|exact H1]; steady). destruct err; [done|]. destruct (match cid with Some _ => _ | None => _ end); [done|].
  pose proof (steady_update s1 (make_item (bump_reads s) p id (clock (rs_reads s))) cid) as H2. destruct (updateContract s1 _ cid) as [[s2 ok] cid']. cbn [fst] in H2.
  destruct ok; [|cbn; by transitivity s1]. eapply yields_bind; [apply lr_head|]. intros s3 H3. cbn. do 2 (etransitivity; [eassumption|]). done.
Qed.

Lemma steady_drain fuel s t w : yields (drain fuel s t w) (fun '(s', _) => steadily s s').
Proof.
  revert s. induction fuel as [|fuel IH]; intros s; cbn [drain]; (destruct (PeekFirst (receiveQueue s)) as [i|]; [|cbn; reflexivity]);
    (destruct (_ <? 0); [cbn; reflexivity|]); (destruct (nextSequenceNumber s <? _); [cbn; reflexivity|]); [done|].
  eapply yields_bind; [apply steady_q_remove_id|]. intros [s1 x] H1.
  assert (Hnext : forall s2, steadily s1 s2 -> yields (drain fuel s2 t w) (fun '(s', _) => steadily s s')).
  { intros s2 H2. eapply yields_weaken; [apply IH|]. intros [s3 r] H3. transitivity s1; [done|]. by transitivity s2. }
  destruct (_ =? _); [|apply Hnext; destruct (it_ack i); steady]. eapply yields_bind; [apply steady_register|]. intros [s2 err] H2.
  destruct err; [cbn; by transitivity s1|]. pose proof (steady_update s2 i None) as H3. destruct (updateContract s2 i None) as [[s3 ok] cid]. cbn [fst] in H3.
  destruct ok; [|cbn; transitivity s1; [done|by transitivity s2]]. eapply yields_bind; [apply lr_head|]. intros s4 H4. apply Hnext.
  transitivity s2; [done|]. transitivity s3; [done|]. etransitivity; [|exact H4]. steady.
Qed.

(** A turn jumps at most once, behind the head of the pack it takes. *)
Lemma turn_grows s c :
  yields (turn s c) (fun '(s', _) => match c with SelPack p => heads_only s s' p | _ => steadily s s' end).
Proof.
  unfold turn. eapply (yields_bind _ _ (fun '(s1, _) => steadily s s1)).
  { unfold before_select. destruct (_ =? 0)%nat; [cbn; steady|]. eapply yields_bind; [apply steady_drain|]. intros [s1 r] H1.
    assert (H01 : steadily s s1) by (etransitivity; [|exact H1]; steady). destruct r; [|done]. cbn.
    case_bool_decide; [etransitivity; [exact H01|apply steady_commitHeldPrefix]|done]. }
  intros [s1 r] H1. destruct r as [w|]; [|destruct c; cbn; [done|done|by apply heads_steady|done]].
  destruct c as [| |p|closed]; cbn [after_select yields]; [done|done| |done].
  eapply (yields_bind _ _ (fun '(s2, _) => heads_only s1 s2 p)).
  { destruct (Nack _) eqn:En; [|by apply receive_heads]. eapply yields_weaken; [apply steady_receiveNack|]. intros [s2 r] H2. by apply heads_steady. }
  intros [s2 r] H2. cbn. unfold received. destruct r as [[]|]; apply (steady_heads s s1 s2 _ p); try done; steady.
Qed.

Lemma steady_teardown s : steadily s (teardown s).
Proof.
  unfold teardown. set (s1 := fold_left _ _ s). assert (H1 : steadily s s1) by (apply steady_fold; intros s' c; case_bool_decide; steady).
  set (s2 := match receiveContract s1 with None => s1 | Some _ => _ end).
  assert (H2 : steadily s s2) by (unfold s2; destruct (receiveContract s1) as [id|]; [destruct (_ !! id)|]; steady; done).
  destruct (Clear item_cmp (receiveQueue s2) (rs_pool s2)) as [[q b] l]. etransitivity; [exact H2|]. etransitivity; [|apply steady_fold; intros s' i; steady]. steady.
Qed.
End rule.

(** ** What a message taken in comes to *)

Section trace.
Context {B H : Type} {MP : MemoryPool B H} {ML : MemoryPoolLaws B H} {E : ReceiveEnv}.
Abbreviation RS := (@ReceiveSequence B H).
Implicit Types (s : RS) (i : receiveItem).

(** The frames of an item that are for the application: with a session, its
    control frames are not. *)
Definition is_control (f : Frame) : bool := MessageType f =? MessageType_TransferEncryptedControl.
Definition application i : list Frame :=
  match session with None => it_frames i | Some _ => List.filter (fun f => negb (is_control f)) (it_frames i) end.

(** What became of the items with such frames, as the log tells it: the frames
    the callback got, or none for a required discard. *)
Definition outcomes (l : list event) : list (receiveItem * option (list Frame)) :=
  omap (fun e => match e with EvCallback i fs _ => Some (i, Some fs) | EvRequiredDiscard i => Some (i, None) | _ => None end) l.

(** The session required encryption at some reading. *)
Definition required : Prop := exists req n, session = Some req /\ req n = true.

Definition outcome_ok (o : receiveItem * option (list Frame)) : Prop :=
  match snd o with
  | Some fs => fs = application (fst o)
  | None => it_unwrapped (fst o) = true /\ required
  end.

Definition has_application i : bool := match application i with [] => false | _ => true end.

(** The items taken in that have frames for the application are, in the order
    they were taken in and one for one, those handed to the callback or
    discarded; the callback gets the frames, and the discarded ones came as
    plaintext where encryption was required. *)
Record accounted (l : list event) : Prop := {
  ac_all : List.filter has_application (heads l) = map fst (outcomes l);
  ac_each : Forall outcome_ok (outcomes l);
}.

(** The callback's calls. *)
Definition handed (l : list event) : list (receiveItem * list Frame) :=
  omap (fun e => match e with EvCallback i fs _ => Some (i, fs) | _ => None end) l.

Lemma outcomes_app l k : outcomes (l ++ k) = outcomes l ++ outcomes k.
Proof. apply omap_app. Qed.
Lemma accounted_app l k : accounted l -> accounted k -> accounted (l ++ k).
Proof.
  intros [A1 A2] [B1 B2]. split; [by rewrite heads_app, outcomes_app, List.filter_app, map_app, A1, B1|]. rewrite outcomes_app. by apply Forall_app.
Qed.
Lemma plain_facts l : Forall (fun e => plain e = true) l -> heads l = [] /\ outcomes l = [] /\ jumped l = false.
Proof. induction 1 as [|e l He Hl (I1 & I2 & I3)]; [done|]. by destruct e. Qed.

(** The session's controls are plain events, and what is left is for the
    application. *)
Lemma controls_log l s :
  let '(s', rest) := deliverEncryptedControlFrames s l in
  rest = List.filter (fun f => negb (is_control f)) l /\ exists k, rs_log s' = rs_log s ++ k /\ Forall (fun e => plain e = true) k.
Proof.
  revert s. induction l as [|f l IH]; intros s; cbn [deliverEncryptedControlFrames List.filter].
  { split; [done|]. exists []. rewrite app_nil_r. split; [done|constructor]. }
  unfold is_control in *. destruct (MessageType f =? _); cbn [negb].
  - match goal with |- context [deliverEncryptedControlFrames ?x l] => specialize (IH x); set (s0 := x) in * end.
    destruct (deliverEncryptedControlFrames s0 l) as [s' rest]. destruct IH as (Hr & k & E1 & Hk). split; [done|].
    assert (H0 : exists k0, rs_log s0 = rs_log s ++ k0 /\ Forall (fun e => plain e = true) k0).
    { unfold s0. destruct (unmarshalControl _) as [ec|]; [|exists []; by rewrite app_nil_r]. destruct (sequenceTlsRoleFromProtobuf _) as [r [|]].
      - eexists [_]. split; [done|by constructor].
      - exists []. by rewrite app_nil_r. }
    destruct H0 as (k0 & E0 & Hk0). exists (k0 ++ k). rewrite E1, E0, app_assoc. split; [done|by apply Forall_app].
  - specialize (IH s). destruct (deliverEncryptedControlFrames s l) as [s' rest]. destruct IH as (-> & Hk). by split.
Qed.

(** Plain events, and the discard when it is one. *)
Lemma application_log s i :
  let '(s', fs) := application_frames s i in
  exists k d, rs_log s' = rs_log s ++ k ++ d /\ Forall (fun e => plain e = true) k /\
    ((fs = application i /\ d = []) \/
     (fs = [] /\ d = [EvRequiredDiscard i] /\ application i <> [] /\ it_unwrapped i = true /\ required)).
Proof.
  unfold application_frames, application, required. destruct session as [req|] eqn:Es.
  2:{ exists [], []. rewrite app_nil_r. split; [done|]. split; [constructor|by left]. }
  pose proof (controls_log (it_frames i) s) as Hc. destruct (deliverEncryptedControlFrames s (it_frames i)) as [s1 fs].
  destruct Hc as (<- & k & E1 & Hk). destruct fs as [|f fs].
  { exists k, []. rewrite app_nil_r. split; [done|]. split; [done|by left]. }
  destruct (it_unwrapped i && req (rs_reads s1)) eqn:Er.
  - apply andb_prop in Er as [E2 E3]. exists (k ++ [EvBadMessage (it_bytes i)]), [EvRequiredDiscard i]. cbn. rewrite E1, <- !app_assoc.
    split; [done|]. split; [apply Forall_app; split; [done|by constructor]|]. right. split_and!; try done. by exists req, (rs_reads s1).
  - exists k, []. rewrite app_nil_r. split; [done|]. split; [done|by left].
Qed.

(** What taking a message in adds to the log. *)
Lemma receiveHead_log s i cid :
  yields (receiveHead s i cid) (fun s' => exists k d out tail, rs_log s' = rs_log s ++ [EvReceived i] ++ k ++ d ++ out ++ tail /\
    Forall (fun e => plain e = true) k /\ Forall (fun e => plain e = true) tail /\
    ((d = [] /\ application i = [] /\ out = []) \/
     (d = [] /\ application i <> [] /\ exists mode, out = [EvCallback i (application i) mode]) \/
     (d = [EvRequiredDiscard i] /\ out = [] /\ application i <> [] /\ it_unwrapped i = true /\ required))).
Proof.
  unfold receiveHead. eapply (yields_bind _ _ (fun '(s1, _) => exists k, rs_log s1 = rs_log s ++ EvReceived i :: k /\ Forall (fun e => plain e = true) k)).
  { unfold settle_contract. destruct cid as [id|]; [|by exists []]. destruct (_ !! _) as [c|]; [|by exists []]. destruct (ack _ _) as [c'|]; [|done].
    cbn. rewrite <- app_assoc. eexists. split; [done|by constructor]. }
  intros [s1 mode] (k & E1 & Hk). pose proof (application_log s1 i) as Ha. destruct (application_frames s1 i) as [s2 fs].
  destruct Ha as (k2 & d & E2 & Hk2 & Hd). cbn [yields].
  exists (k ++ k2), d, (match fs with [] => [] | _ => [EvCallback i fs mode] end), (head_acks i ++ [EvReturn (it_buffer i)]).
  split; [|split; [by apply Forall_app|split; [unfold head_acks; destruct (it_ack i); by repeat constructor|]]].
  - unfold head_acks. destruct fs, (it_ack i); cbn; rewrite E2, E1; repeat (rewrite <- ?app_assoc; cbn [app]); done.
  - destruct Hd as [[-> ->]|(-> & -> & Hn & Hu)]; [|by right; right]. destruct (application i) as [|f fs]; [by left|].
    right. left. split; [done|]. split; [done|by exists mode].
Qed.

#[export] Instance accounted_rule : LogRule (B := B) (H := H) accounted.
Proof.
  split.
  - split; [done|constructor].
  - apply accounted_app.
  - intros e He. destruct (plain_facts [e]) as (E1 & E2 & _); [by constructor|]. split; rewrite ?E1, ?E2; [done|constructor].
  - intros s i cid. eapply yields_weaken; [apply receiveHead_log|]. intros s' (k & d & out & tail & El & Hk & Ht & Ho). eexists. split; [exact El|].
    destruct (plain_facts k Hk) as (K1 & K2 & _). destruct (plain_facts tail Ht) as (T1 & T2 & _).
    split; rewrite ?heads_app, ?outcomes_app, ?K1, ?K2, ?T1, ?T2; unfold has_application;
      destruct Ho as [(-> & Ha & ->)|[(-> & Ha & mode & ->)|(-> & -> & Ha & Hu)]]; cbn; try done.
    + by rewrite Ha.
    + by destruct (application i).
    + by destruct (application i).
    + apply Forall_singleton. done.
    + apply Forall_singleton. exact Hu.
Qed.

#[export] Instance jumped_rule : LogRule (B := B) (H := H) (fun l => jumped l = false).
Proof.
  split.
  - done.
  - intros k l Hk Hl. by rewrite jumped_app, Hk, Hl.
  - intros e He. apply (plain_facts [e]). by constructor.
  - intros s i cid. eapply yields_weaken; [apply receiveHead_log|]. intros s' (k & d & out & tail & El & Hk & Ht & Ho). eexists. split; [exact El|].
    destruct (plain_facts k Hk) as (_ & _ & K). destruct (plain_facts tail Ht) as (_ & _ & T). rewrite !jumped_app, K, T. cbn.
    destruct Ho as [(-> & _ & ->)|[(-> & _ & mode & ->)|(-> & -> & _)]]; done.
Qed.

Lemma unjumped l a b : jumped l = false -> EvJump a b ∈ l -> False.
Proof.
  intros Hj Hin. unfold jumped in Hj. rewrite <- not_true_iff_false, List.existsb_exists in Hj. apply Hj. exists (EvJump a b).
  split; [by apply list_elem_of_In|done].
Qed.

(** What a turn adds: its jumps are behind the head of the pack it takes, and the
    messages it takes in are accounted for. *)
Lemma turn_heads s c :
  yields (turn s c) (fun '(s', _) => grows (fun l => forall a b, EvJump a b ∈ l ->
    exists p, c = SelPack p /\ Nack (rp_Pack p) = false /\ Head (rp_Pack p) = true /\ b = FrameCodec.SequenceNumber (rp_Pack p)) s s').
Proof.
  eapply yields_weaken; [apply (turn_grows (fun l => jumped l = false))|]. intros [s' g]. destruct c as [| |p|closed].
  3:{ intros (k & j & l & El & Hk & Hl & Hj). eexists. split; [exact El|]. intros a b. rewrite !list.elem_of_app.
      intros [Hin|[Hin|Hin]]; [by destruct (unjumped k a b)| |by destruct (unjumped l a b)].
      destruct Hj as [->|(x & -> & Hn & Hh)]; [by apply not_elem_of_nil in Hin|]. apply list_elem_of_singleton in Hin as [= -> ->]. by exists p. }
  all: intros (l & El & Hl); exists l; split; [done|]; intros a b Hin; by destruct (unjumped l a b).
Qed.

Lemma turn_accounted s c : yields (turn s c) (fun '(s', _) => grows accounted s s').
Proof.
  eapply yields_weaken; [apply (turn_grows accounted)|]. intros [s' g]. destruct c as [| |p|closed]; try done.
  intros (k & j & l & El & Hk & Hl & Hj). eexists. split; [exact El|]. apply accounted_app; [done|]. apply accounted_app; [|done].
  destruct Hj as [->|(x & -> & _)]; split; try done; constructor.
Qed.

Lemma Run_accounted l s : yields (Run s l) (fun '(s', _) => grows accounted s s').
Proof.
  revert s. induction l as [|c l IH]; intros s; cbn [Run]; [cbn; reflexivity|]. eapply yields_bind; [apply turn_accounted|].
  intros [s1 g] H1. destruct g; [|cbn; etransitivity; [exact H1|apply (steady_teardown accounted)]].
  eapply yields_weaken; [apply IH|]. intros [s2 g2] H2. by transitivity s1.
Qed.

(** ** What the application is handed *)

(** The items of the numbered messages among the callback's calls. *)
Definition numbered_calls (l : list event) : list (receiveItem * list Frame) := List.filter (fun c => it_ack (fst c)) (handed l).

Lemma handed_outcomes l : handed l = omap (fun o => match snd o with Some fs => Some (fst o, fs) | None => None end) (outcomes l).
Proof.
  induction l as [|e l IH]; [done|]. unfold handed, outcomes in *. destruct e; cbn [omap list_omap] in *; try exact IH.
  cbn. by rewrite IH.
Qed.

Lemma accepted_heads l : accepted l = List.filter it_ack (heads l).
Proof.
  induction l as [|e l IH]; [done|]. unfold accepted, heads in *. destruct e; cbn [omap list_omap] in *; try exact IH.
  cbn. destruct (it_ack i); by rewrite IH.
Qed.

Lemma filter_sublist {A} (p : A -> bool) l : List.filter p l `sublist_of` l.
Proof. induction l as [|x l IH]; cbn; [done|]. destruct (p x); by constructor. Qed.
Lemma filter_filter_sublist {A} (p q : A -> bool) l : List.filter p (List.filter q l) `sublist_of` List.filter p l.
Proof. induction l as [|x l IH]; cbn; [done|]. destruct (q x), (p x) eqn:Ep; cbn; rewrite ?Ep; by try constructor. Qed.

(** Items picked in order keep their order. *)
Lemma sorted_sublist {A} (f : A -> Z) (k l : list A) : k `sublist_of` l -> StronglySorted Z.lt (map f l) -> StronglySorted Z.lt (map f k).
Proof.
  induction 1 as [|x k l Hs IH|x k l Hs IH]; cbn; [constructor| |]; intros [Hl Hx]%StronglySorted_inv; [|by apply IH]. constructor; [by apply IH|].
  rewrite List.Forall_forall in *. intros y (z & <- & Hz)%in_map_iff. apply Hx, in_map. apply list_elem_of_In in Hz. apply list_elem_of_In.
  by eapply elem_of_sublist.
Qed.

(** The numbered messages of the callback's calls are accepted ones, in order. *)
Lemma calls_accepted l : accounted l -> map fst (numbered_calls l) `sublist_of` accepted l.
Proof.
  intros [Ha _]. rewrite accepted_heads. etransitivity; [|apply (filter_filter_sublist it_ack has_application)]. rewrite Ha. unfold numbered_calls.
  rewrite handed_outcomes. generalize (outcomes l). clear Ha l. induction l as [|[i [fs|]] l IH]; cbn in *; [done| |];
    destruct (it_ack i) eqn:Ei; cbn; by try constructor.
Qed.

(** A call hands over the item's frames for the application, and there are some. *)
Lemma call_frames l i fs : accounted l -> (i, fs) ∈ handed l -> i ∈ heads l /\ fs = application i /\ fs <> [].
Proof.
  intros [Ha He] Hin. rewrite handed_outcomes in Hin. apply list_elem_of_omap in Hin as ([j o] & Hin & E1). destruct o as [fs'|]; [|done].
  injection E1 as <- <-. rewrite List.Forall_forall in He. pose proof (He (j, Some fs') (proj1 (list_elem_of_In _ _) Hin)) as Ho. cbn in Ho.
  assert (Hj : j ∈ List.filter has_application (heads l)) by (rewrite Ha; by apply (list_elem_of_fmap_2 fst) in Hin).
  apply list_elem_of_In, List.filter_In in Hj as [Hj Hp]. split; [by apply list_elem_of_In|]. split; [done|]. subst fs'. unfold has_application in Hp.
  by destruct (application j).
Qed.

(** What became of an item: nothing of it is for the application, the callback
    got its frames, or it was discarded for having come as plaintext where
    encryption was required. *)
Definition fate (l : list event) i : Prop :=
  application i = [] \/ (exists mode, EvCallback i (application i) mode ∈ l) \/ (EvRequiredDiscard i ∈ l /\ it_unwrapped i = true /\ required).

Lemma accounted_fate l i : accounted l -> i ∈ heads l -> fate l i.
Proof.
  intros [Ha He] Hi. destruct (has_application i) eqn:Ep; [|left; unfold has_application in Ep; by destruct (application i)]. right.
  assert (Hin : i ∈ map fst (outcomes l)) by (rewrite <- Ha; apply list_elem_of_In, List.filter_In; split; [by apply list_elem_of_In|done]).
  apply list_elem_of_fmap in Hin as ([j o] & -> & Hin). rewrite List.Forall_forall in He.
  pose proof (He _ (proj1 (list_elem_of_In _ _) Hin)) as Ho. unfold outcome_ok in Ho. cbn [fst snd] in *.
  apply list_elem_of_omap in Hin as (e & He1 & Ee). destruct e; try done; injection Ee as <- <-; [left|right; done]. subst l0. by eexists.
Qed.

Lemma accepted_fate l i : accounted l -> i ∈ accepted l -> fate l i.
Proof.
  intros Ha Hi. apply accounted_fate; [done|]. rewrite accepted_heads in Hi. eapply elem_of_sublist; [exact Hi|apply filter_sublist].
Qed.

Context {EO : EnvOk}.

(** C4: The receiver takes every numbered message in once and in order, whatever
    the network does, and the application is handed what it is due of it once,
    at its place. For any packs, in any order, lost, duplicated or malformed,
    that satisfy [pack_ok] (a number below 2^64 - 1, and no unsequenced message
    that names a contract comes from a source exempt from contracts, which can
    panic the code), the loop does not panic; the numbers taken in are strictly
    increasing and below the next expected number, and unless the sender moved
    the head itself they are exactly 0, 1, ... without a gap; each item carries
    the frames of a pack that arrived with its number. The items taken in, the
    unsequenced ones included (which are taken in again when they arrive again,
    as nothing tells the copies apart), that have frames for the application are one for one, in the order they were
    taken in, handed to the callback or, having come as plaintext where
    encryption is required, discarded; so the numbered messages the callback
    gets have strictly increasing numbers. *)
Theorem receive_in_order b bud min lifetime l :
  start_ok b bud min -> Forall pack_ok (packs_of l) ->
  exists s g pos, Run (NewReceiveSequence b bud min lifetime) l = Ret (s, g) /\
    (g = true -> pos = nextSequenceNumber s) /\
    StronglySorted Z.lt (map it_seq (accepted (rs_log s))) /\
    Forall (fun i => it_seq i < pos) (accepted (rs_log s)) /\
    (jumped (rs_log s) = false -> map it_seq (accepted (rs_log s)) = seqZ 0 pos) /\
    Forall (from (packs_of l)) (heads (rs_log s)) /\
    accounted (rs_log s) /\ StronglySorted Z.lt (map (fun c => it_seq (fst c)) (numbered_calls (rs_log s))).
Proof.
  intros Hst Hok. destruct (run_inv b bud min lifetime l Hst Hok) as (s & g & P & pos & extra & Er & Hpre & Hinv & Hg).
  assert (Hac : accounted (rs_log s)).
  { pose proof (Run_accounted l (NewReceiveSequence b bud min lifetime)) as Ha. rewrite Er in Ha. destruct Ha as (k & -> & Hk).
    unfold NewReceiveSequence. destruct (newReceiveQueue _ _ _). by destruct (if lifetime then _ else _). }
  exists s, g, pos. split; [done|]. split; [by destruct g; [intros _; apply Hg|]|].
  destruct (replay_delivered _ _ _ (si_replay _ _ _ _ Hinv)) as (_ & H1 & H2 & H3). split; [done|].
  split; [eapply Forall_impl; [|exact H1]; cbn; lia|]. split; [rewrite Z.sub_0_r in H3; done|]. split; [|split; [done|]].
  - pose proof (si_from _ _ _ _ Hinv) as Hfr. apply Forall_app in Hfr as [_ Hfr]. eapply Forall_impl; [|exact Hfr]. intros i. by apply from_prefix.
  - rewrite <- map_map. by eapply sorted_sublist; [apply calls_accepted|].
Qed.
End trace.

(** A session that requires encryption, and legacy unsequenced messages. *)
Definition demo_required : ReceiveEnv := {|
  settings := MkReceiveSettings 30000000000 60000000000 10 1000 ReceiveHoldCommittedPrefix true 2;
  clock _ := 0;
  unmarshalContract := unmarshalContract (ReceiveEnv := demo_E);
  unmarshalStored := unmarshalStored (ReceiveEnv := demo_E);
  unmarshalControl _ := None;
  Verify _ _ _ _ := true;
  ReceiveNoContract _ := true;
  newId := newId (ReceiveEnv := demo_E);
  session := Some (fun _ => true);
|}.
#[local] Instance demo_required_ok : @EnvOk demo_required.
Proof. destruct (demo_env_ok ReceiveHoldCommittedPrefix true) as [H1 H2 H3 H4]. by split. Qed.

(** Packs 2, 0, 2 again and 1, an unsequenced one that arrives twice, and 3 as
    plaintext. *)
Definition demo_other (n : Z) (nack unwrapped : bool) (buffer : nat) : select_case :=
  SelPack (MkReceivePack (MkPack (Some (demo_id n)) None n false [demo_frame] nack None None None) 100 buffer unwrapped).
Definition demo_mixed : list select_case := demo_arrivals ++ [demo_other 9 true false 4; demo_other 9 true false 5; demo_other 3 false true 6].

Lemma receive_in_order_witness :
  exists s g, Run (E := demo_required) demo_sequence demo_mixed = Ret (s, g) /\ map it_seq (accepted (rs_log s)) = [0; 1; 2; 3] /\
    accounted (E := demo_required) (rs_log s) /\
    map (fun o => (it_seq (fst o), snd o)) (outcomes (rs_log s)) =
      [(0, Some [demo_frame]); (1, Some [demo_frame]); (2, Some [demo_frame]); (9, Some [demo_frame]); (9, Some [demo_frame]); (3, None)].
Proof.
  destruct (receive_in_order (E := demo_required) demo_pool (Some 0%nat) 0 false demo_mixed demo_start_ok)
    as (s & g & pos & Er & Hpos & _ & _ & Hd & _ & Ha & _).
  { unfold demo_mixed. repeat constructor; cbn; try (unfold max_seq, in64; lia); try done. }
  exists s, g. split; [exact Er|].
  assert (E : match Run (E := demo_required) demo_sequence demo_mixed with
              | Ret (s, g) => g = true /\ nextSequenceNumber s = 4 /\ jumped (rs_log s) = false /\
                  map (fun o => (it_seq (fst o), snd o)) (outcomes (rs_log s)) =
                    [(0, Some [demo_frame]); (1, Some [demo_frame]); (2, Some [demo_frame]); (9, Some [demo_frame]); (9, Some [demo_frame]); (3, None)]
              | Panic => False
              end) by (vm_compute; repeat split).
  unfold demo_sequence in E. rewrite Er in E. destruct E as (-> & En & Ej & Eo). rewrite (Hd Ej), (Hpos eq_refl), En. split; [reflexivity|].
  split; [exact Ha|exact Eo].
Defined.
