(* ===== verification/Delivery.v ===== *)
(** The two ends of a transfer sequence joined by a network. A send sequence
    (SendSequence.v) writes frames, a receive sequence (ReceiveSequence.v) takes
    in packs read from frames that were written, and its ack writer answers; the
    network loses, repeats, reorders and delays frames and acks as it likes.
    What the application is handed is what the other one sent, in order, once
    and unaltered; a sender that is told of success was not lied to; and a
    message that is skipped was reported lost.

    The states, steps and logs are those of the two files: a step of the network
    is a turn of one end, or a snapshot written by the receiver's ack writer.
    The client between the ends, which reads a frame's path and finds its
    sequence, is the relation [arrives]. *)
From stdpp Require Import sorting.
From S2P Require Import Prelude GoIo NetId TransferPath FrameCodec AckWindow GoHeap MemoryBudget TransferQueue RttWindow SequenceContract.
From S2P Require Import FlightController ReceiveSequence ReceiveOrder ReceiveTrace SendSequence SendNumbers SendOrder SendRun SendTrace.

(** ** Selections in order *)

(** Items picked in the order of their numbers carry a sublist of what the
    numbered messages carry. *)
Lemma picked_sublist {A C X} (f : A -> Z) (g : C -> Z) (v : A -> list X) (w : C -> list X) (l : list A) (k : list C) :
  StronglySorted Z.lt (map f l) -> StronglySorted Z.lt (map g k) ->
  (forall x, x ∈ l -> exists y, y ∈ k /\ f x = g y /\ v x = w y) -> flat_map v l `sublist_of` flat_map w k.
Proof.
  revert l. induction k as [|y k IH]; intros l Hl Hk Hm.
  { destruct l as [|x l]; [done|]. destruct (Hm x) as (z & Hz & _); [by left|]. by apply not_elem_of_nil in Hz. }
  cbn [map flat_map] in *. apply StronglySorted_inv in Hk as [Hk Hy]. rewrite List.Forall_forall in Hy.
  assert (Hlt : forall z, z ∈ k -> g y < g z) by (intros z Hz; apply Hy; apply list_elem_of_In; by apply list_elem_of_fmap_2).
  destruct l as [|x l]; [apply sublist_nil_l|]. cbn [map flat_map] in *. apply StronglySorted_inv in Hl as [Hl Hx]. rewrite List.Forall_forall in Hx.
  assert (Hxl : forall z, z ∈ l -> f x < f z) by (intros z Hz; apply Hx; apply list_elem_of_In; by apply list_elem_of_fmap_2).
  destruct (Hm x) as (z & [->|Hz]%elem_of_cons & Ef & Ev); [by left| |].
  - rewrite Ev. apply sublist_app; [done|]. apply IH; [done|done|]. intros x' Hx'. destruct (Hm x') as (z & [->|Hz]%elem_of_cons & Ef' & Ev'); [by right| |by exists z].
    specialize (Hxl x' Hx'). lia.
  - apply sublist_inserts_l. apply (IH (x :: l)); [cbn; constructor; [done|by apply List.Forall_forall]|done|].
    intros x' Hx'. destruct (Hm x' Hx') as (z' & [->|Hz']%elem_of_cons & Ef' & Ev'); [|by exists z'].
    apply elem_of_cons in Hx' as [->|Hx']; [specialize (Hlt z Hz); lia|]. specialize (Hxl x' Hx'). specialize (Hlt z Hz). lia.
Qed.

Lemma sublist_filter_flat {A X} (p : A -> bool) (w : A -> list X) l : flat_map w (List.filter p l) `sublist_of` flat_map w l.
Proof.
  induction l as [|x l IH]; cbn; [done|]. destruct (p x); cbn; [by apply sublist_app|]. by apply sublist_inserts_l.
Qed.

(** ** The delivery point of a log *)

(** A number below the point was delivered or jumped over. *)
Lemma replay_covers l p q n :
  replay_from p l = Some q -> p <= n < q ->
  n ∈ map it_seq (accepted l) \/ exists a b, ReceiveSequence.EvJump a b ∈ l /\ a <= n < b.
Proof.
  revert p. induction l as [|e l IH]; intros p Hr Hn; [injection Hr as ->; lia|].
  destruct (replay_cons p e l q Hr) as (p1 & E1 & Hr1).
  assert (Hin : forall a b, ReceiveSequence.EvJump a b ∈ l /\ a <= n < b -> ReceiveSequence.EvJump a b ∈ e :: l /\ a <= n < b) by (intros a b [? ?]; split; [by right|done]).
  assert (Hrest : p1 <= n -> n ∈ map it_seq (accepted l) \/ exists a b, ReceiveSequence.EvJump a b ∈ e :: l /\ a <= n < b).
  { intros Hp. destruct (IH p1 Hr1) as [?|(a & b & Hab)]; [lia|by left|]. right. exists a, b. auto. }
  assert (Hd : n ∈ map it_seq (accepted l) -> n ∈ map it_seq (accepted (e :: l))).
  { intros Hx. unfold accepted. cbn. destruct e; try exact Hx. destruct (it_ack i); [by right|exact Hx]. }
  assert (Hsame : p1 = p -> n ∈ map it_seq (accepted (e :: l)) \/ exists a b, ReceiveSequence.EvJump a b ∈ e :: l /\ a <= n < b).
  { intros ->. destruct Hrest as [?|?]; [lia|left; auto|by right]. }
  destruct e; cbn in E1; try (apply Hsame; congruence).
  - destruct (Z.eqb_spec from p) as [->|]; [|done]. destruct (Z.ltb_spec p to); [|done]. injection E1 as ->.
    destruct (decide (n < p1)); [right; exists p, p1; split; [by left|lia]|]. destruct Hrest as [?|?]; [lia|left; auto|by right].
  - destruct (it_ack i) eqn:Ea; [|apply Hsame; congruence]. destruct (Z.eqb_spec (it_seq i) p) as [Hi|]; [|done]. injection E1 as <-.
    destruct (decide (n = p)) as [->|]; [left; unfold accepted; cbn; rewrite Ea; cbn; rewrite Hi; by left|].
    destruct Hrest as [?|?]; [lia|left; auto|by right].
Qed.

(** Jumps start at the point or later. *)
Lemma replay_jumps l p q a b : replay_from p l = Some q -> ReceiveSequence.EvJump a b ∈ l -> p <= a.
Proof.
  revert p. induction l as [|e l IH]; intros p Hr Hin; [by apply not_elem_of_nil in Hin|].
  destruct (replay_cons p e l q Hr) as (p1 & E1 & Hr1). apply elem_of_cons in Hin as [<-|Hin].
  - cbn in E1. destruct (Z.eqb_spec a p); [lia|done].
  - pose proof (IH p1 Hr1 Hin). destruct e; cbn in E1; try (injection E1 as <-; lia).
    + destruct (_ =? _); [|done]. destruct (Z.ltb_spec p to); [|done]. injection E1 as <-. lia.
    + destruct (it_ack i); [|injection E1 as <-; lia]. destruct (_ =? _); [|done]. injection E1 as <-. lia.
Qed.

(** ** The network *)

Section network.
Context {B H : Type} {MP : MemoryPool B H} {ML : MemoryPoolLaws B H} {PG : MessagePool}.
Context {SE : SendEnv} {SO : SendOrder.EnvOk} {RE : ReceiveEnv} {RO : ReceiveOrder.EnvOk}.
Context (opened : bool -> bytes -> option bytes) {WO : WireOk opened}.
Abbreviation SS := (@SendSequence.SendSequence B H).
Abbreviation RS := (@ReceiveSequence.ReceiveSequence B H).

(** Both ends, whether they run, and the acks written so far. *)
Record network := Network {
  nw_send : SS;
  nw_sending : bool;
  nw_recv : RS;
  nw_receiving : bool;
  nw_acks : list sequenceAck;
}.

(** A pack reaches the receiver when some frame that was written reads as it. *)
Definition arrives (w : network) (c : ReceiveSequence.select_case) : Prop :=
  match c with
  | ReceiveSequence.SelPack p =>
      ReceiveOrder.pack_ok p /\
      exists plain forced wire b d tf, EvWire plain forced wire ∈ ss_log (nw_send w) /\ opened plain wire = Some b /\
        unmarshalTransferFrame b emptyTransferFrame d = Ret (Some tf) /\ tf_Pack tf = Some (rp_Pack p)
  | _ => True
  end.

(** The cumulative ack a turn takes in was written by the receiver; nothing is
    asked of the selective ones. *)
Definition heard (w : network) (x : turn_input) : Prop :=
  turn_ok x /\ case_frames (in_case x) /\
  forall a, in_head x = Some a -> exists a', a' ∈ nw_acks w /\ ak_selective a' = false /\ ak_messageId a' = ak_messageId a.

(** What the two ends are made with. *)
Record ends := Ends {
  en_send_pool : B; en_send_budget : option H; en_send_min : Z; en_send_lifetime : bool; en_rtt : RttWindow;
  en_recv_pool : B; en_recv_budget : option H; en_recv_min : Z; en_recv_lifetime : bool;
}.
Definition new_sender (z : ends) : SS := NewSendSequence (en_send_pool z) (en_send_budget z) (en_send_min z) (en_send_lifetime z) (en_rtt z).
Definition new_receiver (z : ends) : RS := NewReceiveSequence (en_recv_pool z) (en_recv_budget z) (en_recv_min z) (en_recv_lifetime z).
Record ends_ok (z : ends) : Prop := {
  eo_send : start_ok (en_send_pool z) (en_send_budget z) (en_send_min z);
  eo_rtt : rtt_ok (en_rtt z);
  eo_recv : start_ok (en_recv_pool z) (en_recv_budget z) (en_recv_min z);
}.

(** Reachable states, by the number of turns the sender took. *)
Inductive reach (z : ends) : nat -> network -> Prop :=
| reach_start :
    reach z 0 (Network (new_sender z) true (new_receiver z) true [])
| reach_send n w x s g :
    reach z n w -> nw_sending w = true -> heard w x -> turn (nw_send w) x = Ret (s, g) ->
    reach z (S n)
      (Network (if g then s else teardown s) g (nw_recv w) (nw_receiving w) (nw_acks w))
| reach_recv n w c s g :
    reach z n w -> nw_receiving w = true -> arrives w c ->
    ReceiveSequence.turn (nw_recv w) c = Ret (s, g) ->
    reach z n
      (Network (nw_send w) (nw_sending w) (if g then s else ReceiveSequence.teardown s) g (nw_acks w))
| reach_ack n w wakes wl reset win win' snap :
    reach z n w ->
    (history wl).1 `prefix_of` acks (rs_log (nw_recv w)) -> Z.of_nat (length (acks (rs_log (nw_recv w)))) < MaxInt64 ->
    window_run (newSequenceAckWindowWithGapWake wakes) wl = Ret win -> AckWindow.Snapshot win reset = Ret (win', snap) ->
    reach z n
      (Network (nw_send w) (nw_sending w) (nw_recv w) (nw_receiving w) (nw_acks w ++ writeSnapshot snap)).

(** A pack that carries the message [m]. *)
Definition carries (G : story) (p : ReceivePack) : Prop :=
  exists m, m ∈ st_msgs G /\ FrameCodec.MessageId (rp_Pack p) = Some (m_id m) /\ FrameCodec.SequenceNumber (rp_Pack p) = m_seq m /\
    Frames (rp_Pack p) = m_frames m /\ Nack (rp_Pack p) = negb (m_ack m) /\
    (m_ack m = true -> Head (rp_Pack p) = true -> below G (m_seq m)).

Definition ack_names_message (G : story) (pos : Z) (a : sequenceAck) : Prop :=
  (ak_selective a = false -> ak_sequenceNumber a < pos) /\
  exists m, m ∈ st_msgs G /\ ak_messageId a = m_id m /\ ak_sequenceNumber a = m_seq m.

(** The sender's side, after [n] turns. *)
Definition sender_ok (n : nat) (s : SS) (on : bool) (G : story) : Prop :=
  told opened s (if on then sendItems s else []) G /\
  (on = true -> (exists X, at_rest s X []) /\ counted (1 + Z.of_nat n) s /\ (ss_made s <= 2 * n)%nat /\ st_due G = []).

(** The receiver's side, with the packs it took in and its delivery point. *)
Record receiver_ok (s : RS) (on : bool) (G : story) (P : list ReceivePack) (pos : Z) : Prop := {
  rk_inv : exists extra, seq_inv s P pos extra;
  rk_on : on = true -> running s P /\ pos = ReceiveSequence.nextSequenceNumber s;
  rk_packs p : p ∈ P -> carries G p;
  rk_jumps a b n : ReceiveSequence.EvJump a b ∈ rs_log s -> a <= n < b -> n ∈ st_drops G;
  rk_oks n : n ∈ st_oks G -> n ∈ map it_seq (accepted (rs_log s));
  rk_accounted : accounted (rs_log s);
}.

Record joined (n : nat) (w : network) (G : story) (P : list ReceivePack) (pos : Z) : Prop := {
  jn_send : sender_ok n (nw_send w) (nw_sending w) G;
  jn_recv : receiver_ok (nw_recv w) (nw_receiving w) G P pos;
  jn_acks : Forall (ack_names_message G pos) (nw_acks w);
}.

Lemma carries_extends G G' p : extends G G' -> carries G p -> carries G' p.
Proof.
  intros He (m & Hm & H1 & H2 & H3 & H4 & H5). exists m. split; [by eapply extends_msg|]. do 4 (split; [done|]).
  intros Ha Hh. eapply extends_below; eauto.
Qed.
Lemma names_extends G G' pos pos' a : extends G G' -> pos <= pos' -> ack_names_message G pos a -> ack_names_message G' pos' a.
Proof. intros He Hp [H1 (m & Hm & H2)]. split; [intros Hs; specialize (H1 Hs); lia|]. exists m. split; [by eapply extends_msg|done]. Qed.

(** The receiver's books only say more when the sender's story goes on; what was
    newly acked lies below the delivery point and was not given up. *)
Lemma receiver_extends s on G G' P pos :
  receiver_ok s on G P pos -> extends G G' ->
  (forall n, n ∈ st_oks G' -> n ∈ st_oks G \/ (n ∉ st_drops G /\ 0 <= n < pos)) -> receiver_ok s on G' P pos.
Proof.
  intros [R1 R2 R3 R4 R5 R6] He Hn. split; try done.
  - intros p Hp. eapply carries_extends; eauto.
  - intros a b n Hj Hab. eapply He; eauto.
  - intros n Hin. destruct (Hn n Hin) as [?|[Hd Hp]]; [auto|]. destruct R1 as [extra Hinv].
    destruct (replay_covers _ _ _ n (si_replay _ _ _ _ Hinv) Hp) as [?|(a & b & Hj & Hab)]; [done|]. exfalso. apply Hd. by apply (R4 a b).
Qed.

Implicit Types (w : network) (s : SS).

Lemma joined_send n w G P pos x s g :
  joined n w G P pos -> (2 * S n <= maxItems)%nat -> Z.of_nat n < 2 ^ 62 - 4 ->
  nw_sending w = true -> heard w x -> turn (nw_send w) x = Ret (s, g) ->
  exists G', joined (S n) (Network (if g then s else teardown s) g (nw_recv w) (nw_receiving w) (nw_acks w)) G' P pos.
Proof.
  intros [[Ht Hon] Hr Ha] Hm Hk Hs (Hx & Hf & Hack) Et. rewrite Hs in *. destruct (Hon eq_refl) as ((X & Hrest) & Hc & Hmade & Hdue).
  destruct (turn_keeps (nw_send w) x (1 + Z.of_nat n) X [] Hrest Hc) as (s' & g' & X' & Et' & H1 & C1 & M1 & _); [lia|done|lia|].
  rewrite Et in Et'. injection Et' as <- <-.
  pose proof (turn_told opened (nw_send w) x (1 + Z.of_nat n) G X [] Hrest Hc ltac:(lia) Hx Hf ltac:(lia) Ht Hdue) as Hy.
  rewrite Et in Hy. cbn [yields] in Hy. destruct Hy as (G1 & T1 & N1 & D1).
  assert (Hnew : forall k, k ∈ st_oks G1 -> k ∈ st_oks G \/ (k ∉ st_drops G /\ 0 <= k < pos)).
  { intros k Hin. destruct (tt_new _ _ _ N1 k Hin) as [?|(Hd & Hk0 & a & m & Ea & Hm1 & Hm2 & Hm3 & Hm4)]; [by left|right].
    split; [done|]. destruct (Hack a Ea) as (a' & Ha' & Hsel & Eid). rewrite List.Forall_forall in Ha.
    destruct (Ha a' (proj1 (list_elem_of_In _ _) Ha')) as [Hlt (m' & Hm' & E1 & E2)]. specialize (Hlt Hsel).
    assert (m' = m) as ->; [|lia]. apply (td_id _ _ _ _ Ht); [done|done|congruence]. }
  assert (He1 : extends G G1) by apply N1.
  assert (Hfin : forall (s' : SS) (on : bool) G', told opened s' (if on then sendItems s' else []) G' -> extends G1 G' -> st_oks G' = st_oks G1 ->
            (on = true -> (exists X, at_rest s' X []) /\ counted (1 + Z.of_nat (S n)) s' /\ (ss_made s' <= 2 * S n)%nat /\ st_due G' = []) ->
            joined (S n) (Network s' on (nw_recv w) (nw_receiving w) (nw_acks w)) G' P pos).
  { intros s' on G' T' He' Eo Hon'. assert (He : extends G G') by (by transitivity G1). split; cbn; [done| |].
    - apply (receiver_extends _ _ G); [done|done|]. intros k. rewrite Eo. apply Hnew.
    - revert Ha. apply List.Forall_impl. intros a. by apply names_extends. }
  destruct g.
  - exists G1. apply Hfin; [done|done|done|]. intros _. split; [by exists X'|]. split; [|split; [lia|by apply D1]].
    replace (1 + Z.of_nat (S n)) with (1 + Z.of_nat n + 1) by lia. done.
  - destruct (teardown_told opened s G1 X' [] H1 T1) as (G2 & T2 & [Q2 Q2'] & _). exists G2. by apply Hfin.
Qed.

Lemma replay_suffix p l k q r : replay_from p l = Some q -> replay_from p (l ++ k) = Some r -> replay_from q k = Some r.
Proof. unfold replay_from. rewrite fold_left_app. by intros ->. Qed.
Lemma delivered_app l k : accepted (l ++ k) = accepted l ++ accepted k.
Proof. apply omap_app. Qed.

(** What arrives is a message the sender sent. *)
Lemma arrives_carries w c n G P pos :
  joined n w G P pos -> arrives w c -> forall p, p ∈ packs_of [c] -> ReceiveOrder.pack_ok p /\ carries G p.
Proof.
  intros [[Ht _] _ _] Hc p Hp. destruct c as [| |q|]; try (by apply not_elem_of_nil in Hp). apply list_elem_of_singleton in Hp as ->.
  destruct Hc as (Hok & plain & forced & wire & b & d & tf & Hw & Ho & Eu & Ep). split; [done|].
  destruct (td_wire _ _ _ _ Ht plain forced wire Hw) as (b' & m & hd & Ho' & Hm & Hr & Hh). rewrite Ho in Ho'. injection Ho' as <-.
  destruct (reads_as_head b m hd d tf _ Hr Eu Ep) as (E1 & E2 & E3 & E4 & E5). exists m. split_and!; try done. intros Ha Hhd. apply Hh; [done|congruence].
Qed.

(** The receiver goes from one log to a longer one. *)
Lemma receiver_moves (s s' : RS) G P pos P' extra' pos' l :
  receiver_ok s true G P pos -> seq_inv s' P' pos' extra' -> rs_log s' = rs_log s ++ l -> accounted l -> (forall p, p ∈ P' -> carries G p) ->
  (forall a b, ReceiveSequence.EvJump a b ∈ l -> exists m, m_ack m = true /\ b = m_seq m /\ below G (m_seq m)) ->
  pos <= pos' /\ (forall on, (on = true -> running s' P' /\ pos' = ReceiveSequence.nextSequenceNumber s') -> receiver_ok s' on G P' pos').
Proof.
  intros [[extra R1] R2 R3 R4 R5 R6] Hinv El Hac HP Hj. pose proof (si_replay _ _ _ _ R1) as Hr1. pose proof (si_replay _ _ _ _ Hinv) as Hr2.
  rewrite El in Hr2. pose proof (replay_suffix _ _ _ _ _ Hr1 Hr2) as Hr3. destruct (replay_delivered _ _ _ Hr3) as (Hle & _).
  destruct (replay_delivered _ _ _ Hr1) as (Hpos & Hdel & _). split; [done|]. intros on Hon. split; try done; [by exists extra'| | |by rewrite El; apply accounted_app].
  - rewrite El. intros a b n [Ho|Ho]%list.elem_of_app Hn; [by apply (R4 a b)|]. destruct (Hj a b Ho) as (m & Ha & -> & Hb).
    pose proof (replay_jumps _ _ _ _ _ Hr3 Ho) as Hge. destruct (Hb n) as [Hok|]; [lia| |done]. exfalso.
    apply R5 in Hok as (j & -> & Hin)%list_elem_of_fmap. rewrite List.Forall_forall in Hdel. specialize (Hdel j (proj1 (list_elem_of_In _ _) Hin)). lia.
  - intros n Hn. rewrite El, delivered_app, map_app. apply list.elem_of_app. left. by apply R5.
Qed.

Lemma joined_recv n w G P pos c (s : RS) g :
  joined n w G P pos -> nw_receiving w = true -> arrives w c -> ReceiveSequence.turn (nw_recv w) c = Ret (s, g) ->
  exists P' pos', joined n (Network (nw_send w) (nw_sending w) (if g then s else ReceiveSequence.teardown s) g (nw_acks w)) G P' pos'.
Proof.
  intros Hj Hon Hc Et. pose proof (arrives_carries w c n G P pos Hj Hc) as Hcar. destruct Hj as [Hs Hr Ha]. rewrite Hon in Hr.
  destruct (rk_on _ _ _ _ _ Hr eq_refl) as [Hrun Epos].
  destruct (ReceiveOrder.turn_ok (nw_recv w) P c Hrun) as (s1 & g1 & Et1 & Hg).
  { apply list.Forall_forall. intros p Hp. by apply Hcar. }
  rewrite Et in Et1. injection Et1 as <- <-. pose proof (turn_heads (nw_recv w) c) as Hh. rewrite Et in Hh. destruct Hh as (l & El & Hl).
  pose proof (turn_accounted (nw_recv w) c) as Hac. rewrite Et in Hac. destruct Hac as (l0 & El0 & Hac). rewrite El in El0. apply app_inv_head in El0 as <-.
  assert (Hjump : forall a b, ReceiveSequence.EvJump a b ∈ l -> exists m, m_ack m = true /\ b = m_seq m /\ below G (m_seq m)).
  { intros a b Hab. destruct (Hl a b Hab) as (p & -> & Hn & Hhd & ->). destruct (Hcar p) as [_ (m & Hm & E1 & E2 & E3 & E4 & E5)]; [by left|].
    rewrite Hn in E4. symmetry in E4. apply negb_false_iff in E4. exists m. split; [done|]. split; [done|]. by apply E5. }
  clear Hl. rename Hjump into Hl.
  assert (HP : forall p, p ∈ P ++ packs_of [c] -> carries G p).
  { intros p [Hp|Hp]%list.elem_of_app; [by apply (rk_packs _ _ _ _ _ Hr)|by apply Hcar]. }
  destruct g.
  - destruct Hg as (extra & Hinv & Hnj). destruct (receiver_moves _ s G P pos _ _ _ l Hr Hinv El Hac HP Hl) as [Hle Hok].
    eexists _, _. split; [done| |].
    + apply Hok. intros _. split; [by exists extra|done].
    + revert Ha. apply List.Forall_impl. intros a. by apply names_extends.
  - destruct Hg as (P' & Hpre & pos' & extra & Hinv). destruct (teardown_inv s P' pos' extra Hinv) as [Hinv' _].
    destruct (steady_teardown (fun l => jumped l = false) s) as (l' & El' & Hl'). destruct (steady_teardown accounted s) as (l1 & El1 & Hac1).
    rewrite El' in El1. apply app_inv_head in El1 as <-. destruct (receiver_moves _ (ReceiveSequence.teardown s) G P pos P' _ _ (l ++ l') Hr Hinv') as [Hle Hok].
    + by rewrite El', El, app_assoc.
    + by apply accounted_app.
    + intros p Hp. apply HP. by eapply elem_of_prefix.
    + intros a b [Hab|Hab]%list.elem_of_app; [by apply (Hl a)|]. by destruct (unjumped l' a b).
    + exists P', pos'. split; [done|by apply Hok|]. revert Ha. apply List.Forall_impl. intros a. by apply names_extends.
Qed.

Lemma joined_ack n w G P pos wakes wl reset win win' snap :
  joined n w G P pos -> (history wl).1 `prefix_of` acks (rs_log (nw_recv w)) -> Z.of_nat (length (acks (rs_log (nw_recv w)))) < MaxInt64 ->
  window_run (newSequenceAckWindowWithGapWake wakes) wl = Ret win -> AckWindow.Snapshot win reset = Ret (win', snap) ->
  joined n (Network (nw_send w) (nw_sending w) (nw_recv w) (nw_receiving w) (nw_acks w ++ writeSnapshot snap)) G P pos.
Proof.
  intros [[Ht Hon] Hr Ha] Hwl Hlen Ew Es. split; [done|done|]. apply List.Forall_app. split; [done|].
  assert (Htrue : Forall (ack_true P pos) (history wl).1).
  { destruct (rk_inv _ _ _ _ _ Hr) as [extra Hinv]. pose proof (si_acks _ _ _ _ Hinv) as Hacks. destruct Hwl as [k Ek]. rewrite Ek in Hacks.
    by apply List.Forall_app in Hacks as [Hacks _]. }
  assert (Hname : forall a, ack_true P pos a -> ack_names_message G pos a).
  { intros a [Hlt (p & Hp & En & Ei)]. split; [done|]. destruct (rk_packs _ _ _ _ _ Hr p Hp) as (m & Hm & E1 & E2 & _).
    exists m. split; [done|]. rewrite E1 in Ei. split; [exact Ei|congruence]. }
  destruct (snapshot_true wakes wl reset P pos) as (win1 & win1' & snap1 & Ew1 & Es1 & Hok); [|done| |].
  - intros x y Hx Hy Hid. rewrite List.Forall_forall in Htrue.
    destruct (Hname x (Htrue x (proj1 (list_elem_of_In _ _) Hx))) as [_ (m & Hm & Em & En)].
    destruct (Hname y (Htrue y (proj1 (list_elem_of_In _ _) Hy))) as [_ (m' & Hm' & Em' & En')].
    assert (m = m') as ->; [apply (td_id _ _ _ _ Ht); [done|done|congruence]|congruence].
  - apply prefix_length in Hwl. lia.
  - rewrite Ew in Ew1. injection Ew1 as <-. rewrite Es in Es1. injection Es1 as <- <-. revert Hok. apply List.Forall_impl. apply Hname.
Qed.

(** The sender's turns are few enough for its counters. *)
Definition few_turns (n : nat) : Prop := (2 * n <= maxItems)%nat /\ Z.of_nat n < 2 ^ 62 - 4.

Lemma reach_joined z n w : ends_ok z -> reach z n w -> few_turns n -> exists G P pos, joined n w G P pos.
Proof.
  intros [Z1 Z2 Z3] Hr. induction Hr as [|n w x s g Hr IH Hs Hx Et|n w c s g Hr IH Hs Hc Et|n w wakes wl reset win win' snap Hr IH Hwl Hlen Ew Es];
    intros Hfew.
  - exists no_story, [], 0. split; cbn.
    + pose proof (new_at_rest (en_send_pool z) (en_send_budget z) (en_send_min z) (en_send_lifetime z) (en_rtt z) Z1 Z2) as H1.
      pose proof (new_told opened (en_send_pool z) (en_send_budget z) (en_send_min z) (en_send_lifetime z) (en_rtt z)) as H2.
      fold (new_sender z) in H1, H2.
      assert (Ei : sendItems (new_sender z) = [] /\ ss_made (new_sender z) = 0%nat).
      { unfold new_sender, NewSendSequence. destruct (newResendQueue _ _ _). by destruct (if en_send_lifetime z then _ else _). }
      destruct Ei as [Ei Em]. split; [by rewrite Ei|]. intros _. split; [by exists []|]. split; [unfold counted; by rewrite Ei|]. split; [lia|done].
    + destruct (new_running (en_recv_pool z) (en_recv_budget z) (en_recv_min z) (en_recv_lifetime z) Z3) as (extra & Hinv & Hnj).
      assert (E0 : rs_log (new_receiver z) = [] /\ ReceiveSequence.nextSequenceNumber (new_receiver z) = 0).
      { unfold new_receiver, NewReceiveSequence. destruct (newReceiveQueue _ _ _). by destruct (if en_recv_lifetime z then _ else _). }
      fold (new_receiver z) in Hinv, Hnj. destruct E0 as [E0 E1]. pose proof Hinv as Hinv0. rewrite E1 in Hinv0. split.
      * by exists extra.
      * intros _. split; [by exists extra|done].
      * by intros p ?%not_elem_of_nil.
      * rewrite E0. by intros a b k ?%not_elem_of_nil.
      * by intros k ?%not_elem_of_nil.
      * rewrite E0. split; [done|constructor].
    + constructor.
  - destruct Hfew as [F1 F2]. destruct IH as (G & P & pos & Hj); [split; lia|].
    destruct (joined_send n w G P pos x s g Hj) as (G' & Hj'); [lia|lia|done..|]. by exists G', P, pos.
  - destruct (IH Hfew) as (G & P & pos & Hj). destruct (joined_recv n w G P pos c s g Hj Hs Hc Et) as (P' & pos' & Hj'). by exists G, P', pos'.
  - destruct (IH Hfew) as (G & P & pos & Hj). exists G, P, pos. by eapply joined_ack.
Qed.

(** ** What the ends agree on *)

(** An item that was taken in carries the frames of the message it has the number of. *)
Lemma head_message n w G P pos j :
  joined n w G P pos -> j ∈ heads (rs_log (nw_recv w)) ->
  exists m, m ∈ st_msgs G /\ m_ack m = it_ack j /\ it_seq j = m_seq m /\ it_frames j = m_frames m.
Proof.
  intros [_ Hr _] Hj. destruct (rk_inv _ _ _ _ _ Hr) as [extra Hinv].
  pose proof (si_from _ _ _ _ Hinv) as Hfr. apply List.Forall_app in Hfr as [_ Hfr]. rewrite List.Forall_forall in Hfr.
  destruct (Hfr j (proj1 (list_elem_of_In _ _) Hj)) as (p & Hp & E1 & E2 & _ & _ & _ & E6).
  destruct (rk_packs _ _ _ _ _ Hr p Hp) as (m & Hm & _ & M2 & M3 & M4 & _). exists m. split; [done|]. split; [|split; congruence].
  by rewrite E6, M4, negb_involutive.
Qed.

Lemma accepted_in_heads l j : j ∈ accepted l -> j ∈ heads l /\ it_ack j = true.
Proof. rewrite accepted_heads. intros [Hj Ha]%list_elem_of_In%List.filter_In. split; [by apply list_elem_of_In|done]. Qed.

(** A message carries one frame of a pack, or none. *)
Lemma origin_frames l m : origin l m -> m_frames m = [] \/ exists p, p ∈ l /\ m_frames m = [canon_frame (sk_Frame p)] /\ (sk_Ack p = true -> m_ack m = true).
Proof. intros [(p & Hp & Ef & _ & Ha)|[Ef _]]; [right; by exists p|by left]. Qed.

Lemma application_single (j : receiveItem) f : it_frames j = [f] -> application j = [f] \/ (application j = [] /\ is_control f = true /\ ReceiveSequence.session <> None).
Proof. unfold application. intros ->. destruct ReceiveSequence.session; [|by left]. cbn. destruct (is_control f); [right|left]; done. Qed.

(** The frames of the callback's numbered calls are frames of accepted items, in order. *)
Lemma calls_frames l : accounted l -> flat_map snd (numbered_calls l) `sublist_of` flat_map it_frames (accepted l).
Proof.
  intros Ha. transitivity (flat_map it_frames (map fst (numbered_calls l))).
  - assert (Hc : forall c, c ∈ numbered_calls l -> snd c `sublist_of` it_frames (fst c)).
    { intros [i fs] [Hin _]%list_elem_of_In%List.filter_In. apply list_elem_of_In in Hin. destruct (call_frames l i fs Ha Hin) as (_ & -> & _). cbn.
      unfold application. destruct ReceiveSequence.session; [apply filter_sublist|done]. }
    clear Ha. induction (numbered_calls l) as [|c k IH]; cbn; [done|]. apply sublist_app; [apply Hc; by left|]. apply IH. intros c' Hc'. apply Hc. by right.
  - pose proof (calls_accepted l Ha) as Hs. induction Hs as [|x k l' Hs IH|x k l' Hs IH]; cbn; [done|by apply sublist_app|by apply sublist_inserts_l].
Qed.

(** C1: What the application at the receiver's end is handed is what was sent. The
    frames of the callback's calls for numbered messages are, in order, frames
    of the packs the sender took, in the order it took them: none twice, none
    altered, none out of order. A call for an unsequenced message hands over the
    one frame, unaltered, of a pack that was taken without asking for an ack;
    the network may repeat and reorder those, and so does the receiver. This is
    for packs that satisfy [pack_ok] and under the laws of both ends' environments
    and of the codec and cipher between them ([EnvOk], [WireOk]). *)
Theorem delivered_as_sent z n w :
  ends_ok z -> reach z n w -> few_turns n ->
  flat_map snd (numbered_calls (rs_log (nw_recv w))) `sublist_of` map (fun p => canon_frame (sk_Frame p)) (takes (ss_log (nw_send w))) /\
  forall i fs, (i, fs) ∈ handed (rs_log (nw_recv w)) -> it_ack i = false ->
    exists p, p ∈ takes (ss_log (nw_send w)) /\ sk_Ack p = false /\ fs = [canon_frame (sk_Frame p)].
Proof.
  intros Hz Hr Hfew. destruct (reach_joined z n w Hz Hr Hfew) as (G & P & pos & Hj). pose proof (jn_send _ _ _ _ _ Hj) as [Ht _].
  pose proof (jn_recv _ _ _ _ _ Hj) as Hrk. destruct (rk_inv _ _ _ _ _ Hrk) as [extra Hinv]. pose proof (rk_accounted _ _ _ _ _ Hrk) as Hac.
  rewrite (td_takes _ _ _ _ Ht). split.
  - destruct (replay_delivered _ _ _ (si_replay _ _ _ _ Hinv)) as (_ & _ & Hsort & _). rewrite <- (td_frames _ _ _ _ Ht).
    etransitivity; [by apply calls_frames|]. transitivity (flat_map m_frames (List.filter m_ack (st_msgs G))).
    + apply (picked_sublist it_seq m_seq); [done|apply (td_order _ _ _ _ Ht)|]. intros j [Hjd Hja]%accepted_in_heads.
      destruct (head_message n w G P pos j Hj Hjd) as (m & Hm & Ha & E1 & E2). exists m. split; [|done].
      apply list_elem_of_In, List.filter_In. split; [by apply list_elem_of_In|congruence].
    + etransitivity; [apply sublist_filter_flat|]. by apply sublist_inserts_r.
  - intros i fs Hin Hi. destruct (call_frames _ i fs Hac Hin) as (Hh & -> & Hne). destruct (head_message n w G P pos i Hj Hh) as (m & Hm & Ha & _ & E2).
    destruct (origin_frames _ m (td_origin _ _ _ _ Ht m Hm)) as [Ef|(p & Hp & Ef & Hp')].
    { exfalso. apply Hne. unfold application. rewrite E2, Ef. by destruct ReceiveSequence.session. }
    exists p. split; [done|]. split; [destruct (sk_Ack p); [specialize (Hp' eq_refl); congruence|done]|].
    rewrite Ef in E2. by destruct (application_single i _ E2) as [?|[? _]].
Qed.

(** C2: A success callback tells the truth: it belongs to a pack the sender took, and
    when the pack asked for an ack, the receiver took a message with exactly its
    frame in, and then handed the frame to the application, or kept it for the
    session whose control frame it is, or, and this is the one case where the
    application does not get what it was due, discarded it because it came as
    plaintext while the receiver's session required encryption: such a message
    is acked like any other. *)
Theorem success_means_delivered z n w c :
  ends_ok z -> reach z n w -> few_turns n -> EvCallback c true ∈ ss_log (nw_send w) ->
  exists p, p ∈ takes (ss_log (nw_send w)) /\ sk_AckCallback p = Some c /\
    (sk_Ack p = true ->
     let f := canon_frame (sk_Frame p) in
     exists j, j ∈ accepted (rs_log (nw_recv w)) /\ it_frames j = [f] /\
       ((exists mode, ReceiveSequence.EvCallback j [f] mode ∈ rs_log (nw_recv w)) \/
        (is_control f = true /\ ReceiveSequence.session <> None) \/
        (ReceiveSequence.EvRequiredDiscard j ∈ rs_log (nw_recv w) /\ it_unwrapped j = true /\ required))).
Proof.
  intros Hz Hr Hfew Hc. destruct (reach_joined z n w Hz Hr Hfew) as (G & P & pos & Hj). pose proof (jn_send _ _ _ _ _ Hj) as [Ht _].
  pose proof (jn_recv _ _ _ _ _ Hj) as Hrk. destruct (td_ok _ _ _ _ Ht c Hc) as (m & Hm & Ecb & Hok).
  destruct (td_origin _ _ _ _ Ht m Hm) as [(p & Hp & Ef & Eo & Ha)|(_ & lid & Eo)]; [|congruence].
  exists p. rewrite (td_takes _ _ _ _ Ht). split; [done|]. rewrite Ecb in Eo. destruct (sk_AckCallback p) as [c'|]; [|done]. injection Eo as <-.
  split; [done|]. intros Hack. specialize (Ha Hack). apply (rk_oks _ _ _ _ _ Hrk) in Hok as (j & Ej & Hjd)%list_elem_of_fmap; [|done].
  cbn zeta. exists j. split; [done|]. pose proof (accepted_in_heads _ _ Hjd) as [Hjh Hja]. destruct (head_message n w G P pos j Hj Hjh) as (m' & Hm' & Ha' & E1 & E2).
  assert (m' = m) as ->; [apply (td_seqs _ _ _ _ Ht); [done|done|congruence|done|congruence]|]. rewrite Ef in E2. split; [done|].
  pose proof (accepted_fate _ j (rk_accounted _ _ _ _ _ Hrk) Hjd) as Hf. unfold fate in Hf.
  destruct (application_single j _ E2) as [Ea|(_ & Hx)]; [|by right; left]. rewrite Ea in Hf.
  destruct Hf as [?|[?|?]]; [done|by left|by right; right].
Qed.

(** C3: Nothing is lost in silence: of every number below the running receiver's
    next one, either the message was taken in, and then its frames went to the
    application (or there were none for it), or it came as plaintext where
    encryption is required and was discarded under that rule; or the sender gave
    the message up and told its callback so. *)
Theorem skipped_is_reported z n w k :
  ends_ok z -> reach z n w -> few_turns n -> nw_receiving w = true ->
  0 <= k < ReceiveSequence.nextSequenceNumber (nw_recv w) ->
  (exists j, j ∈ accepted (rs_log (nw_recv w)) /\ it_seq j = k /\
     (application j = [] \/ (exists mode, ReceiveSequence.EvCallback j (application j) mode ∈ rs_log (nw_recv w)) \/
      (ReceiveSequence.EvRequiredDiscard j ∈ rs_log (nw_recv w) /\ it_unwrapped j = true /\ required))) \/
  (exists key, (key, true) ∈ sends (ss_log (nw_send w)) /\ ik_sequenceNumber key = k /\
     forall c, ik_ackCallback key = Some (CbUser c) -> EvCallback c false ∈ ss_log (nw_send w)).
Proof.
  intros Hz Hr Hfew Hon Hk. destruct (reach_joined z n w Hz Hr Hfew) as (G & P & pos & Hj). pose proof (jn_send _ _ _ _ _ Hj) as [Ht _].
  pose proof (jn_recv _ _ _ _ _ Hj) as Hrk. destruct (rk_on _ _ _ _ _ Hrk Hon) as [_ Epos]. rewrite <- Epos in Hk.
  destruct (rk_inv _ _ _ _ _ Hrk) as [extra Hinv].
  destruct (replay_covers _ _ _ k (si_replay _ _ _ _ Hinv) Hk) as [(j & -> & Hin)%list_elem_of_fmap|(a & b & Hjump & Hab)]; [left|right].
  { exists j. split; [done|]. split; [done|]. by apply (accepted_fate _ j (rk_accounted _ _ _ _ _ Hrk)). }
  destruct (td_drop _ _ _ _ Ht k (rk_jumps _ _ _ _ _ Hrk a b k Hjump Hab)) as (m & Hm & Ha & Es & Hcb). exists (m_key m).
  split; [|done]. rewrite (td_sends _ _ _ _ Ht). apply list_elem_of_fmap. exists m. by rewrite Ha.
Qed.
End network.

(** ** Witnesses

    A sender without contracts and without a session, whose frames are the real
    codec's and are read as they were written. *)
Definition demo_net_settings : SendSettings := MkSendSettings 60000000000 60000000000 300000000000 5000000000 0 300000000000 0 false 10 1000000
  (ContractFillFraction (demo_send_settings 10)) 2 (FlightSettings (demo_send_settings 10)).

(** A codec for the frames with a pack of this sender's: the hand-written one,
    which refuses what it does not encode. *)
Definition demo_unmarshal (b : bytes) : option TransferFrame :=
  match unmarshalTransferFrame b emptyTransferFrame true with
  | Ret (Some tf) => match tf_Pack tf with Some _ => Some tf | None => None end
  | _ => None
  end.
Definition demo_frame_of (pk : Pack) : sendPackFrame :=
  SendPackFrame demo_transfer_path (default [] (FrameCodec.MessageId pk)) (default [] (FrameCodec.SequenceId pk))
    (FrameCodec.SequenceNumber pk) (Head pk) (Nack pk) (Frames pk) (ContractFrame pk)
    (match PackTag pk with Some t => SendTime t | None => 0 end) (ContractId pk) 0 false false.
Definition demo_marshal (tf : TransferFrame) : option bytes :=
  match tf_Pack tf with
  | None => None
  | Some pk =>
      if bool_decide (pack_values_ok (demo_frame_of pk)) && bool_decide (FrameCodec.MessageId pk <> None) &&
         (Z.of_nat (length (pack_frame_bytes (demo_frame_of pk))) <=? 10000)
      then Some (pack_frame_bytes (demo_frame_of pk)) else None
  end.

Lemma demo_unmarshal_pack b tf : demo_unmarshal b = Some tf ->
  is_Some (tf_Pack tf) /\ unmarshalTransferFrame b emptyTransferFrame true = Ret (Some tf).
Proof.
  unfold demo_unmarshal. destruct (unmarshalTransferFrame b emptyTransferFrame true) as [[tf'|]|]; try done.
  destruct (tf_Pack tf') as [pk|] eqn:Ep; [|done]. intros [= <-]. by rewrite Ep.
Qed.

Lemma demo_marshal_pack tf b : demo_marshal tf = Some b ->
  exists pk, tf_Pack tf = Some pk /\ pack_values_ok (demo_frame_of pk) /\ FrameCodec.MessageId pk <> None /\
    b = pack_frame_bytes (demo_frame_of pk) /\ Z.of_nat (length b) <= 10000.
Proof.
  unfold demo_marshal. destruct (tf_Pack tf) as [pk|]; [|done]. case_bool_decide as H1; [|done]. case_bool_decide as H2; [|done].
  cbn [andb]. destruct (Z.leb_spec (Z.of_nat (length (pack_frame_bytes (demo_frame_of pk)))) 10000); [|done].
  intros [= <-]. by exists pk.
Qed.

Definition demo_net : SendEnv := {|
  settings := demo_net_settings;
  clock n := 100000000 * Z.of_nat n;
  itemId n := u8 (Z.of_nat n) :: u8 (Z.of_nat n / 256) :: replicate 14 0;
  newId _ := replicate 16 0;
  sequenceId := replicate 16 1;
  clientId := replicate 16 2;
  destination := demo_transfer_path;
  encryptionServer := false;
  encryptionCompanion := false;
  unmarshalStored _ := None;
  marshalContract _ := [4];
  legacyMarshal _ := [1; 2; 3];
  protoUnmarshalTransferFrame := demo_unmarshal;
  protoUnmarshalPack _ := None;
  protoMarshalTransferFrame := demo_marshal;
  protoMarshalPack _ := None;
  outerFrame b := Some (0 :: b);
  flightPolicyAt _ := (Snapshot 0 false 0 0 false, true);
  routeWrite _ _ _ := (MkDisposition true false true false (Some 0%nat), true);
  session := None;
  retryAllowed _ n := (true, n);
  SendNoContract _ := true;
  StandardContractTransferByteCount _ := 1000000;
|}.

Lemma demo_pack_frame_ok k n h a fs cf tag cid :
  (forall id, cid = Some id -> isId id) -> FrameCodec.pack_ok (pack_frame (E := demo_net) (itemId (SendEnv := demo_net) k) n h a fs cf tag cid).
Proof.
  intros Hc. split; [vm_compute; repeat constructor; discriminate|]. split.
  { split; [done|]. assert (Hb : forall z, byte_ok (u8 z)) by (intros z; unfold byte_ok; apply Z.mod_pos_bound; lia).
    constructor; [apply Hb|]. constructor; [apply Hb|]. repeat constructor; discriminate. }
  split; [by split; [|repeat constructor; discriminate]|]. cbn. destruct a; [done|]. destruct cid; [by apply Hc|done].
Qed.

#[local] Instance demo_net_ok : @SendOrder.EnvOk dirty_pool demo_net.
Proof.
  refine (@SendOrder.Build_EnvOk dirty_pool demo_net 1000 10000 1000 _ _ _ _ _ _ _ _ _ _ _ _ _ _).
  - intros n m Hn' Hm' [= E1 E2]. unfold u8 in *. Z.div_mod_to_equations. lia.
  - cbn. lia.
  - lia.
  - lia.
  - done.
  - intros b (k & n & h & a & fs & cf & tag & cid & [Hone Hlen] & Hcf & Hcid & Eb). cbn zeta in Eb. change (2 <=? ProtocolVersion settings) with true in Eb. cbv iota in Eb.
    set (m := pack_frame _ _ _ _ _ _ _ _) in Eb. subst b. pose proof (demo_pack_frame_ok k n h a fs cf tag cid Hcid) as Hm. fold m in Hm.
    unfold marshalSendPackTransferFrame. rewrite take_0, (proj1 (pack_frame_append m [] Hm)). cbn [app].
    pose proof (pack_frame_size m Hm) as Hs. change (sp_frames m) with fs in Hs. change (sp_contractFrame m) with cf in Hs.
    assert (match cf with Some f => payload_size f | None => 0 end <= 61)%nat by (destruct Hcf as [->|[c ->]]; [lia|done]).
    assert (list_sum (map payload_size fs) <= 1060)%nat; [|lia].
    destruct fs as [|f [|g fs]]; [cbn; lia| |cbn in Hone; lia]. apply Forall_cons_1 in Hlen as [Hlen _].
    unfold list_sum, payload_size. cbn [map fold_right]. lia.
  - intros b tf _ [[pk Ep] _]%demo_unmarshal_pack. unfold head_pack. by rewrite Ep.
  - intros b tf pk tag cf b' _ [[pk0 Ep] _]%demo_unmarshal_pack _ _. unfold head_bytes. rewrite Ep.
    intros (pk' & _ & Hm & _ & -> & Hl)%demo_marshal_pack. pose proof (pack_frame_size _ (proj1 Hm)). lia.
  - vm_compute. split; discriminate.
  - vm_compute. split; discriminate.
  - cbn. lia.
  - left. done.
  - intros ct v lid c Hv E. done.
  - intros n v Hv.
    pose proof (demo_size 1000000 16000000 4 1010 (2 ^ 62) v ltac:(vm_compute; reflexivity) ltac:(lia) ltac:(lia) ltac:(lia) ltac:(lia) ltac:(lia) ltac:(lia)
      ltac:(unfold MaxInt64; lia) Hv) as Hf. exact (proj1 Hf).
Defined.

Definition demo_opened (plain : bool) (b : bytes) : option bytes := Some b.
#[local] Instance demo_wire_ok : @WireOk dirty_pool demo_net demo_opened.
Proof.
  split; try done.
  - intros n. exact (proj1 (proj2 (demo_pack_frame_ok n 0 false true [] None 0 None ltac:(done)))).
  - split; [done|repeat constructor; discriminate].
  - vm_compute. repeat constructor; discriminate.
  - intros b m hd tf tf' _ [_ Eu]%demo_unmarshal_pack Eu'. congruence.
  - intros tf pk b d Ep (pk0 & Ep0 & Hm & Hid & -> & _)%demo_marshal_pack. rewrite Ep in Ep0. injection Ep0 as <-. rewrite (unmarshal_pack_frame _ d Hm).
    eexists _, _. split; [done|]. split; [done|]. cbn. destruct (FrameCodec.MessageId pk) as [id|] eqn:Ei; [|done]. cbn.
    destruct Hm as [(_ & [Hl _] & _) _]. cbn in Hl. rewrite Ei in Hl. by destruct id.
Qed.

Definition demo_ends : ends (B := world * (nat -> Z)) (H := nat) := Ends demo_pool (Some 0%nat) 0 false demo_window demo_pool (Some 0%nat) 0 false.
Lemma demo_ends_ok : ends_ok demo_ends.
Proof. split; [|apply demo_window_ok|apply demo_start_ok]. split; [unfold MaxInt64; cbn; lia|apply demo_pool_ok]. Qed.

(** A message is taken and sent, read off the wire, delivered and acked; the ack
    writer answers, and the sender takes the answer in. *)
Definition demo_sent : SendPack := MkSendPack (MkFrame 16 (Some [69; 0; 0; 20]) true) 0 (Some 7%nat) 4 true false false.
Definition demo_read : Pack := MkPack (Some (replicate 16 0)) (Some (replicate 16 1)) 0 true [MkFrame 16 (Some [69; 0; 0; 20]) true] false None
  (Some (MkTag 300)) None.
Definition demo_answer : sequenceAck := SequenceAck 0 (replicate 16 0) false (Some (MkTag 300)) true.
Definition demo_arrival : ReceiveSequence.select_case := ReceiveSequence.SelPack (MkReceivePack demo_read 4 0 true).

Definition state_of {A} (r : go (A * bool)) (d : A) : A := match r with Ret (s, _) => s | Panic => d end.
Lemma state_of_ret {A} (r : go (A * bool)) d g :
  match r with Ret (_, g') => g' = g | Panic => False end -> r = Ret (state_of r d, g).
Proof. destruct r as [[s g']|]; [by intros ->|done]. Qed.

Definition demo_sender_1 := state_of (turn (E := demo_net) (new_sender (SE := demo_net) demo_ends) (TurnInput None [] (SelPack demo_sent [])))
  (new_sender (SE := demo_net) demo_ends).
Definition demo_receiver_1 := state_of (ReceiveSequence.turn (E := demo_E) (new_receiver demo_ends) demo_arrival)
  (new_receiver demo_ends).
Definition demo_sender_2 := state_of (turn (E := demo_net) demo_sender_1 (TurnInput (Some demo_answer) [] SelAcks)) demo_sender_1.
Definition demo_end : network := Network demo_sender_2 true demo_receiver_1 true [demo_answer].

Lemma demo_reached :
  (exists d, EvWire true false d ∈ ss_log demo_sender_1 /\ exists tf, unmarshalTransferFrame d emptyTransferFrame true = Ret (Some tf) /\ tf_Pack tf = Some demo_read) /\
  acks (rs_log demo_receiver_1) = [demo_answer] /\ calls demo_sender_2 = [(7%nat, true)] /\ ReceiveSequence.nextSequenceNumber demo_receiver_1 = 1.
Proof.
  split; [|vm_compute; repeat split].
  assert (E : match ss_log demo_sender_1 with
              | [_; _; _; EvWire true false d; _; _] => match unmarshalTransferFrame d emptyTransferFrame true with Ret (Some tf) => tf_Pack tf = Some demo_read | _ => False end
              | _ => False
              end) by (vm_compute; reflexivity).
  destruct (ss_log demo_sender_1) as [|e1 [|e2 [|e3 [|[| | |[] [] d| | | | | | | | | | | | | | | |] [|e5 [|e6 [|]]]]]]]; try destruct E.
  exists d. split; [do 3 right; left|]. destruct (unmarshalTransferFrame d emptyTransferFrame true) as [[tf|]|]; [by exists tf|done|done].
Qed.

(** The run, given what each turn returns. *)
Lemma demo_reach_from s1 r1 s2 d tf :
  turn (E := demo_net) (new_sender (SE := demo_net) demo_ends) (TurnInput None [] (SelPack demo_sent [])) = Ret (s1, true) ->
  ReceiveSequence.turn (E := demo_E) (new_receiver demo_ends) demo_arrival = Ret (r1, true) ->
  turn (E := demo_net) s1 (TurnInput (Some demo_answer) [] SelAcks) = Ret (s2, true) ->
  EvWire true false d ∈ ss_log s1 -> unmarshalTransferFrame d emptyTransferFrame true = Ret (Some tf) -> tf_Pack tf = Some demo_read ->
  acks (rs_log r1) = [demo_answer] ->
  reach (SE := demo_net) (RE := demo_E) demo_opened demo_ends 2 (Network s2 true r1 true [demo_answer]).
Proof.
  intros E1 E2 E3 Hd Eu Ep Ea.
  pose proof (reach_start (SE := demo_net) (RE := demo_E) demo_opened demo_ends) as R0.
  apply (reach_send demo_opened demo_ends 0 _ (TurnInput None [] (SelPack demo_sent [])) s1 true) in R0; [|done| |done].
  2:{ split; [split; [done|by vm_compute]|]. split; [vm_compute; repeat split; congruence|done]. }
  apply (reach_recv demo_opened demo_ends 1 _ demo_arrival r1 true) in R0; [|done| |done].
  2:{ split; [split; [vm_compute; split; congruence|split; [vm_compute; split; congruence|discriminate]]|]. by exists true, false, d, d, true, tf. }
  assert (Hw : match window_run (newSequenceAckWindowWithGapWake 3) [DoUpdate demo_answer] with
               | Ret win => match AckWindow.Snapshot win true with Ret (_, snap) => writeSnapshot snap = [demo_answer] | Panic => False end
               | Panic => False
               end) by (vm_compute; reflexivity).
  destruct (window_run _ _) as [win|] eqn:W1; [|done]. destruct (AckWindow.Snapshot win true) as [[win' snap]|] eqn:W2; [|done]. rename Hw into W3.
  apply (fun R H1 H2 => reach_ack demo_opened demo_ends 1 _ 3 [DoUpdate demo_answer] true win win' snap R H1 H2 W1 W2) in R0; cbn [nw_recv] in *;
    [|by rewrite Ea..]. rewrite W3 in R0.
  apply (reach_send demo_opened demo_ends 1 _ (TurnInput (Some demo_answer) [] SelAcks) s2 true) in R0; [exact R0|done| |done].
  split; [done|]. split; [done|]. intros a [= <-]. exists demo_answer. split; [by left|done].
Qed.

Lemma demo_reach : reach (SE := demo_net) (RE := demo_E) demo_opened demo_ends 2 demo_end.
Proof.
  destruct demo_reached as ((d & Hd & tf & Eu & Ep) & Ea & _).
  apply (demo_reach_from demo_sender_1 demo_receiver_1 demo_sender_2 d tf); [apply state_of_ret; vm_compute; reflexivity..|exact Hd|exact Eu|exact Ep|exact Ea].
Qed.

Lemma demo_few : few_turns (SE := demo_net) 2.
Proof. split; [vm_compute; lia|lia]. Qed.

Lemma delivered_as_sent_witness :
  flat_map snd (numbered_calls (rs_log (nw_recv demo_end))) `sublist_of` map (fun p => canon_frame (sk_Frame p)) (takes (ss_log (nw_send demo_end))) /\
  flat_map snd (numbered_calls (rs_log (nw_recv demo_end))) = [MkFrame 16 (Some [69; 0; 0; 20]) true].
Proof.
  destruct (delivered_as_sent (SE := demo_net) (RE := demo_E) (RO := demo_env_ok ReceiveHoldCommittedPrefix true) demo_opened demo_ends 2 demo_end
    demo_ends_ok demo_reach demo_few) as [H _].
  split; [exact H|vm_compute; reflexivity].
Defined.

Lemma called {B H} (s : @SendSequence.SendSequence B H) n ok : (n, ok) ∈ calls s -> EvCallback n ok ∈ ss_log s.
Proof.
  intros (e & He & Ee)%list_elem_of_In%in_flat_map. apply list_elem_of_In in He.
  destruct e; cbn in Ee; try (by destruct Ee). destruct Ee as [[= -> ->]|[]]. exact He.
Qed.

Lemma demo_not_required : ~ required (E := demo_E).
Proof. intros (req & n & E & _). discriminate E. Qed.

Lemma success_means_delivered_witness :
  exists p, p ∈ takes (ss_log (nw_send demo_end)) /\ sk_AckCallback p = Some 7%nat /\
    (sk_Ack p = true -> exists j mode, ReceiveSequence.EvCallback j [canon_frame (sk_Frame p)] mode ∈ rs_log (nw_recv demo_end)).
Proof.
  destruct (success_means_delivered (SE := demo_net) (RE := demo_E) (RO := demo_env_ok ReceiveHoldCommittedPrefix true) demo_opened demo_ends 2 demo_end 7
    demo_ends_ok demo_reach demo_few) as (p & Hp & Hc & Hd).
  { unfold demo_end. cbn [nw_send]. apply called. rewrite (proj1 (proj2 (proj2 demo_reached))). left. }
  exists p. split; [exact Hp|]. split; [exact Hc|]. intros Ha. destruct (Hd Ha) as (j & _ & _ & [[mode H]|[[_ H]|(_ & _ & H)]]).
  - exists j, mode. exact H.
  - destruct (H eq_refl).
  - destruct (demo_not_required H).
Defined.

Lemma skipped_is_reported_witness :
  ReceiveSequence.nextSequenceNumber demo_receiver_1 = 1 /\
  ((exists j, j ∈ accepted (rs_log (nw_recv demo_end)) /\ it_seq j = 0 /\
      (it_frames j = [] \/ exists mode, ReceiveSequence.EvCallback j (it_frames j) mode ∈ rs_log (nw_recv demo_end))) \/
   (exists key, (key, true) ∈ sends (ss_log (nw_send demo_end)) /\ ik_sequenceNumber key = 0 /\
     forall c, ik_ackCallback key = Some (CbUser c) -> EvCallback c false ∈ ss_log (nw_send demo_end))).
Proof.
  pose proof (proj2 (proj2 (proj2 demo_reached))) as En. split; [exact En|].
  destruct (skipped_is_reported (SE := demo_net) (RE := demo_E) (RO := demo_env_ok ReceiveHoldCommittedPrefix true) demo_opened demo_ends 2 demo_end 0
    demo_ends_ok demo_reach demo_few) as [(j & Hj & Hk & [H|[H|(_ & _ & H)]])|H].
  - reflexivity.
  - unfold demo_end. cbn [nw_recv]. rewrite En. lia.
  - left. exists j. split; [exact Hj|]. split; [exact Hk|left; exact H].
  - left. exists j. split; [exact Hj|]. split; [exact Hk|right; exact H].
  - destruct (demo_not_required H).
  - right. exact H.
Defined.
