(* ===== verification/Ipv6Ext.v ===== *)
(** The IPv6 extension-header walker of src/ip_ipv6_ext.go, shared by every
    packet parser: it never reads outside the packet, it always stops, and the
    parsers' fast path for packets without extension headers agrees with it. *)
From S2P Require Import Prelude.

Definition Ipv4HeaderSizeWithoutExtensions : nat := 20.
Definition Ipv6HeaderSize : nat := 40.
Definition UdpHeaderSize : nat := 8.
Definition TcpHeaderSizeWithoutExtensions : nat := 20.
Definition IcmpHeaderSize : nat := 8.

Definition ipv6NextHeaderHopByHop : Z := 0.
Definition ipv6NextHeaderRouting : Z := 43.
Definition ipv6NextHeaderFragment : Z := 44.
Definition ipv6NextHeaderAuthentication : Z := 51.
Definition ipv6NextHeaderDestinationOptions : Z := 60.
Definition ipv6NextHeaderMobility : Z := 135.
Definition ipv6NextHeaderHostIdentity : Z := 139.
Definition ipv6NextHeaderShim6 : Z := 140.
Definition ipv6FragmentHeaderSize : nat := 8.
Definition ipv6MaxExtensionHeaderCount : nat := 16.

Record ipv6FragmentInfo := FragmentInfo {
  headerOffset : nat;
  precedingNextHeaderFieldOffset : nat;
  fragNextHeader : Z;
  fragOffset : Z;
  moreFragments : bool;
  identification : Z;
}.

Record ipv6HeaderWalk := HeaderWalk {
  nextHeader : Z;
  transportOffset : nat;
  payloadEnd : nat;
  fragment : option ipv6FragmentInfo;     (* fragmentPresent: Some *)
  fragmented : bool;
}.

(** The six headers whose length is in 8-octet units. *)
Definition isIpv6OptionHeader (h : Z) : bool :=
  (h =? ipv6NextHeaderHopByHop) || (h =? ipv6NextHeaderRouting) || (h =? ipv6NextHeaderDestinationOptions) ||
  (h =? ipv6NextHeaderMobility) || (h =? ipv6NextHeaderHostIdentity) || (h =? ipv6NextHeaderShim6).

Definition isIpv6ExtensionHeader (h : Z) : bool :=
  isIpv6OptionHeader h || (h =? ipv6NextHeaderFragment) || (h =? ipv6NextHeaderAuthentication).

(** The header loop, at most [fuel] headers; [None] is [ok = false]. *)
Fixpoint walk_loop (fuel : nat) (packet : bytes) (stop : nat) (next : Z) (offset field : nat)
    (frag : option ipv6FragmentInfo) : go (option ipv6HeaderWalk) :=
  match fuel with
  | O => Ret None
  | S fuel =>
      if isIpv6OptionHeader next then
        if (stop <? offset + 8)%nat then Ret None
        else
          let! len := index packet (offset + 1) in
          let headerByteCount := ((Z.to_nat len + 1) * 8)%nat in
          if (stop <? offset + headerByteCount)%nat then Ret None
          else
            let! next := index packet offset in
            walk_loop fuel packet stop next (offset + headerByteCount) offset frag
      else if next =? ipv6NextHeaderAuthentication then
        if (stop <? offset + 8)%nat then Ret None
        else
          let! len := index packet (offset + 1) in
          let headerByteCount := ((Z.to_nat len + 2) * 4)%nat in
          if (stop <? offset + headerByteCount)%nat then Ret None
          else
            let! next := index packet offset in
            walk_loop fuel packet stop next (offset + headerByteCount) offset frag
      else if next =? ipv6NextHeaderFragment then
        if (stop <? offset + ipv6FragmentHeaderSize)%nat then Ret None
        else
          match frag with
          | Some _ => Ret None
          | None =>
              let! offsetAndFlags := get_u16 packet (offset + 2) in
              let! next := index packet offset in
              let! id := get_u32 packet (offset + 4) in
              let info := FragmentInfo offset field next (Z.ldiff offsetAndFlags 7)
                            (negb (Z.land offsetAndFlags 1 =? 0)) id in
              let after := (offset + ipv6FragmentHeaderSize)%nat in
              if negb (fragOffset info =? 0) || moreFragments info
              then Ret (Some (HeaderWalk next after stop (Some info) true))
              else walk_loop fuel packet stop next after offset (Some info)
          end
      else Ret (Some (HeaderWalk next offset stop frag false))
  end.

Definition walkIpv6ExtensionHeaders (packet : bytes) : go (option ipv6HeaderWalk) :=
  if (length packet <? Ipv6HeaderSize)%nat then Ret None
  else
    let! b0 := index packet 0 in
    if negb (Z.shiftr b0 4 =? 6) then Ret None
    else
      let! payloadByteCount := get_u16 packet 4 in
      let stop := (Ipv6HeaderSize + Z.to_nat payloadByteCount)%nat in
      if (length packet <? stop)%nat then Ret None
      else
        let! next := index packet 6 in
        walk_loop ipv6MaxExtensionHeaderCount packet stop next Ipv6HeaderSize 6 None.

Definition ipv6TransportOffset (packet : bytes) : go (option (Z * nat * nat)) :=
  if (length packet <? Ipv6HeaderSize)%nat then Ret None
  else
    let! b0 := index packet 0 in
    if negb (Z.shiftr b0 4 =? 6) then Ret None
    else
      let! b6 := index packet 6 in
      if negb (isIpv6ExtensionHeader b6) then
        let! n := get_u16 packet 4 in
        let stop := (Ipv6HeaderSize + Z.to_nat n)%nat in
        if (length packet <? stop)%nat then Ret None
        else Ret (Some (b6, Ipv6HeaderSize, stop))
      else
        let! walk := walkIpv6ExtensionHeaders packet in
        match walk with
        | Some walk =>
            if fragmented walk then Ret None
            else Ret (Some (nextHeader walk, transportOffset walk, payloadEnd walk))
        | None => Ret None
        end.

Definition isIpv6FragmentPacket (packet : bytes) : go bool :=
  if (length packet <? Ipv6HeaderSize)%nat then Ret false
  else
    let! b0 := index packet 0 in
    if negb (Z.shiftr b0 4 =? 6) then Ret false
    else
      let! b6 := index packet 6 in
      if negb (isIpv6ExtensionHeader b6) then Ret false
      else
        let! walk := walkIpv6ExtensionHeaders packet in
        match walk with
        | Some walk => Ret (fragmented walk)
        | None => Ret false
        end.

(** ** The walk stays inside the packet *)

(** What a result promises to its readers. *)
Definition walk_ok (packet : bytes) (walk : ipv6HeaderWalk) : Prop :=
  (Ipv6HeaderSize <= transportOffset walk <= payloadEnd walk)%nat /\ (payloadEnd walk <= length packet)%nat /\
  (fragmented walk = false -> isIpv6ExtensionHeader (nextHeader walk) = false) /\
  (fragmented walk = true <->
     exists f, fragment walk = Some f /\ (fragOffset f <> 0 \/ moreFragments f = true)) /\
  (forall f, fragment walk = Some f ->
     (Ipv6HeaderSize <= headerOffset f)%nat /\ (headerOffset f + 8 <= transportOffset walk)%nat /\
     (precedingNextHeaderFieldOffset f < headerOffset f)%nat /\
     packet !! headerOffset f = Some (fragNextHeader f) /\
     packet !! precedingNextHeaderFieldOffset f = Some ipv6NextHeaderFragment /\
     0 <= fragOffset f < 65536 /\ fragOffset f mod 8 = 0).

(** What holds of the fragment header met so far: it was atomic. *)
Definition frag_ok (packet : bytes) (offset : nat) (frag : option ipv6FragmentInfo) : Prop :=
  forall f, frag = Some f ->
    fragOffset f = 0 /\ moreFragments f = false /\ (Ipv6HeaderSize <= headerOffset f)%nat /\
    (headerOffset f + 8 <= offset)%nat /\ (precedingNextHeaderFieldOffset f < headerOffset f)%nat /\
    packet !! headerOffset f = Some (fragNextHeader f) /\
    packet !! precedingNextHeaderFieldOffset f = Some ipv6NextHeaderFragment.

Lemma ldiff7 v : 0 <= v < 65536 -> 0 <= Z.ldiff v 7 < 65536 /\ Z.ldiff v 7 mod 8 = 0.
Proof.
  intros Hv. assert (E : Z.ldiff v 7 = v - v mod 8).
  { change 7 with (Z.ones 3). rewrite Z.ldiff_ones_r, Z.shiftr_div_pow2, Z.shiftl_mul_pow2 by lia.
    change (2 ^ 3) with 8. pose proof (Z.div_mod v 8 ltac:(lia)). lia. }
  rewrite E. pose proof (Z.mod_pos_bound v 8 ltac:(lia)). split; [pose proof (Z.mod_le v 8); lia|].
  rewrite Zminus_mod, Z.mod_mod, Z.sub_diag by lia. done.
Qed.

Lemma frag_ok_weaken packet o o' frag : (o <= o')%nat -> frag_ok packet o frag -> frag_ok packet o' frag.
Proof. intros Ho Hf f Hs. destruct (Hf f Hs) as (? & ? & ? & ? & ? & ? & ?). repeat split; try done. lia. Qed.

Lemma walk_loop_spec fuel packet stop next offset field frag :
  bytes_ok packet -> (Ipv6HeaderSize <= offset <= stop)%nat -> (stop <= length packet)%nat ->
  (field < offset)%nat -> packet !! field = Some next -> frag_ok packet offset frag ->
  returns (walk_loop fuel packet stop next offset field frag)
    (fun r => forall walk, r = Some walk -> walk_ok packet walk).
Proof.
  intros Hb. revert next offset field frag.
  induction fuel as [|fuel IH]; intros next offset field frag Ho Hs Hf Hn Hfr; [by apply returns_ret|].
  cbn [walk_loop].
  assert (Hopt : forall n, (8 <= n)%nat -> (offset + n <= stop)%nat ->
    returns (let! next := index packet offset in walk_loop fuel packet stop next (offset + n) offset frag)
      (fun r => forall walk, r = Some walk -> walk_ok packet walk)).
  { intros n Hn8 Hst. greturns @index_returns; [lia|]. intros x Hx.
    apply IH; [lia|done|lia|done|]. apply (frag_ok_weaken packet offset); [lia|done]. }
  destruct (isIpv6OptionHeader next) eqn:E1.
  { destruct (Nat.ltb_spec stop (offset + 8)); [by apply returns_ret|].
    greturns @index_returns; [lia|]. intros len Hlen.
    destruct (Nat.ltb_spec stop (offset + (Z.to_nat len + 1) * 8)); [by apply returns_ret|].
    apply Hopt; lia. }
  destruct (Z.eqb_spec next ipv6NextHeaderAuthentication) as [E2|E2].
  { destruct (Nat.ltb_spec stop (offset + 8)); [by apply returns_ret|].
    greturns @index_returns; [lia|]. intros len Hlen.
    destruct (Nat.ltb_spec stop (offset + (Z.to_nat len + 2) * 4)); [by apply returns_ret|].
    apply Hopt; lia. }
  destruct (Z.eqb_spec next ipv6NextHeaderFragment) as [E3|E3].
  2:{ apply returns_ret. intros walk [= <-]. split; [cbn; lia|]. split; [done|]. cbn.
      split; [intros _; unfold isIpv6ExtensionHeader; rewrite E1; by apply orb_false_iff; split; apply Z.eqb_neq|].
      split.
      - split; [done|]. intros (f & Hs1 & Hor). destruct (Hfr f Hs1) as (? & ? & _). destruct Hor; congruence.
      - intros f Hs1. destruct (Hfr f Hs1) as (H1 & H2 & H3 & H4 & H5 & H6 & H7). rewrite H1. repeat split; try done; lia. }
  unfold ipv6FragmentHeaderSize.
  destruct (Nat.ltb_spec stop (offset + 8)); [by apply returns_ret|].
  destruct frag as [f0|]; [by apply returns_ret|].
  greturns get_u16_returns; [done|lia|]. intros flags Hflags.
  greturns @index_returns; [lia|]. intros nx Hnx.
  greturns get_u32_returns; [done|lia|]. intros id _.
  set (info := FragmentInfo _ _ _ _ _ _). destruct (ldiff7 flags Hflags) as [Hr8 Hm8].
  destruct (negb (fragOffset info =? 0) || moreFragments info) eqn:E4.
  - apply returns_ret. intros walk [= <-]. split; [cbn; lia|]. split; [done|]. split; [done|]. split.
    + split; [|done]. intros _. exists info. split; [done|]. apply orb_true_iff in E4 as [E4|E4]; [left|by right].
      apply negb_true_iff in E4. by apply Z.eqb_neq.
    + intros f [= <-]. cbn. repeat split; try done; try lia. by rewrite E3 in Hn.
  - apply orb_false_iff in E4 as [E4 E5]. apply negb_false_iff, Z.eqb_eq in E4.
    apply IH; [lia|done|lia|done|]. intros f [= <-]. cbn. repeat split; try done; try lia. by rewrite E3 in Hn.
Qed.

Lemma walk_returns packet :
  bytes_ok packet ->
  returns (walkIpv6ExtensionHeaders packet) (fun r => forall walk, r = Some walk -> walk_ok packet walk).
Proof.
  intros Hb. unfold walkIpv6ExtensionHeaders, Ipv6HeaderSize.
  destruct (Nat.ltb_spec (length packet) 40); [by apply returns_ret|].
  greturns @index_returns; [lia|]. intros b0 _. destruct (negb _); [by apply returns_ret|].
  greturns get_u16_returns; [done|lia|]. intros n Hn.
  destruct (Nat.ltb_spec (length packet) (40 + Z.to_nat n)); [by apply returns_ret|].
  greturns @index_returns; [lia|]. intros next Hnext.
  apply walk_loop_spec; unfold Ipv6HeaderSize; try done; lia.
Qed.

Lemma walk_loop_done fuel packet stop next offset field frag :
  isIpv6ExtensionHeader next = false ->
  walk_loop (S fuel) packet stop next offset field frag =
    Ret (Some (HeaderWalk next offset stop frag false)).
Proof.
  unfold isIpv6ExtensionHeader. intros E. apply orb_false_iff in E as [E E3]. apply orb_false_iff in E as [E1 E2].
  cbn [walk_loop]. by rewrite E1, E2, E3.
Qed.

(** The fast paths answer what the walk would. *)
Lemma ipv6_transport_walk packet :
  ipv6TransportOffset packet =
    (let! r := walkIpv6ExtensionHeaders packet in
     Ret match r with
         | Some walk => if fragmented walk then None
                        else Some (nextHeader walk, transportOffset walk, payloadEnd walk)
         | None => None
         end) /\
  isIpv6FragmentPacket packet =
    (let! r := walkIpv6ExtensionHeaders packet in
     Ret match r with Some walk => fragmented walk | None => false end).
Proof.
  unfold ipv6TransportOffset, isIpv6FragmentPacket. unfold walkIpv6ExtensionHeaders.
  destruct (Nat.ltb_spec (length packet) Ipv6HeaderSize) as [|Hlen]; [done|]. unfold Ipv6HeaderSize in *.
  destruct (lookup_lt_is_Some_2 packet 0) as [b0 H0]; [lia|].
  destruct (lookup_lt_is_Some_2 packet 4) as [b4 H4]; [lia|].
  destruct (lookup_lt_is_Some_2 packet 5) as [b5 H5]; [lia|].
  destruct (lookup_lt_is_Some_2 packet 6) as [b6 H6]; [lia|].
  assert (E16 : get_u16 packet 4 = Ret (be16 b4 b5)).
  { unfold get_u16. by rewrite (index_ret _ _ _ H4), (index_ret _ (4 + 1) _ H5). }
  rewrite (index_ret _ _ _ H0), (index_ret _ _ _ H6), E16. cbn [gbind].
  destruct (negb (Z.shiftr b0 4 =? 6)); [done|]. cbn [gbind].
  destruct (isIpv6ExtensionHeader b6) eqn:E; cbn [negb].
  - split; (destruct (_ <? _)%nat; [done|]); destruct (walk_loop _ _ _ _ _ _ _) as [[walk|]|]; cbn [gbind]; try done.
    by destruct (fragmented walk).
  - change ipv6MaxExtensionHeaderCount with (S 15). rewrite (walk_loop_done 15) by done.
    by destruct (_ <? _)%nat.
Qed.

(** ** Claims *)

(** On any packet the extension walk terminates without a panic, and a
    result lies inside the packet: the transport starts after the base header
    and ends within the declared payload, the next header it reports is not
    an extension header unless the packet is a non-atomic fragment, and the
    fragment bookkeeping points at the real fragment header and at the Next
    Header byte that names it, with an offset in 8-octet units. *)
Theorem ipv6_walk_inside packet :
  bytes_ok packet ->
  exists r, walkIpv6ExtensionHeaders packet = Ret r /\ forall walk, r = Some walk -> walk_ok packet walk.
Proof. apply walk_returns. Qed.

(** A hop-by-hop header, then an atomic fragment header, then UDP. *)
Definition demo_v6 : bytes :=
  [96; 0; 0; 0; 0; 24; 0; 64] ++ replicate 32 1 ++
  [44; 0; 0; 0; 0; 0; 0; 0] ++ [17; 0; 0; 0; 0; 0; 0; 9] ++ [0; 53; 0; 54; 0; 8; 0; 0].

Definition demo_walk : ipv6HeaderWalk := HeaderWalk 17 56 64 (Some (FragmentInfo 48 40 17 0 false 9)) false.

Lemma ipv6_walk_inside_witness :
  walkIpv6ExtensionHeaders demo_v6 = Ret (Some demo_walk) /\ walk_ok demo_v6 demo_walk.
Proof.
  assert (E2 : walkIpv6ExtensionHeaders demo_v6 = Ret (Some demo_walk)) by (vm_compute; reflexivity).
  split; [exact E2|]. destruct (ipv6_walk_inside demo_v6) as (r & E & H).
  - apply (bool_decide_eq_true_1 _). vm_compute. reflexivity.
  - apply H. rewrite E2 in E. injection E as E. symmetry. exact E.
Defined.

(** The fast path is the walk: ipv6TransportOffset, which answers packets
    without extension headers directly, returns on every packet exactly what
    walkIpv6ExtensionHeaders finds, and nothing for a non-atomic fragment;
    isIpv6FragmentPacket likewise answers what the walk would. *)
Theorem ipv6_fast_path packet :
  ipv6TransportOffset packet =
    (let! r := walkIpv6ExtensionHeaders packet in
     Ret match r with
         | Some walk => if fragmented walk then None
                        else Some (nextHeader walk, transportOffset walk, payloadEnd walk)
         | None => None
         end) /\
  isIpv6FragmentPacket packet =
    (let! r := walkIpv6ExtensionHeaders packet in
     Ret match r with Some walk => fragmented walk | None => false end).
Proof. apply ipv6_transport_walk. Qed.
