(* ===== verification/IpWire.v ===== *)
(** The packet parsers, the internet checksum and the header writers of
    src/ip.go and src/ip_icmp.go: the checksum a writer stores always verifies,
    parsing what a header writer wrote gives back what was written, no parser
    panics, and the TCP option parser computes the effect of every well formed
    option before the first malformed one. *)
From S2P Require Import Prelude Ipv6Ext.

Definition ipProtocolNumberIcmp4 : Z := 1.
Definition ipProtocolNumberTcp : Z := 6.
Definition ipProtocolNumberUdp : Z := 17.
Definition ipProtocolNumberIcmp6 : Z := 58.

Definition icmp4TypeEchoReply : Z := 0.
Definition icmp4TypeEchoRequest : Z := 8.
Definition icmp6TypeEchoRequest : Z := 128.
Definition icmp6TypeEchoReply : Z := 129.

Definition tcpFlagFin : Z := 1.
Definition tcpFlagSyn : Z := 2.
Definition tcpFlagRst : Z := 4.
Definition tcpFlagPsh : Z := 8.
Definition tcpFlagAck : Z := 16.

Record parsedUdp := ParsedUdp {
  udp_sourceIp : bytes;
  udp_destinationIp : bytes;
  udp_sourcePort : Z;
  udp_destinationPort : Z;
  udp_payload : bytes;
}.

(** The option fields of parsedTcp, which parseTcpOptions owns. *)
Record tcpOptions := TcpOptions {
  enableMss : bool;
  mss : Z;
  enableWindowScale : bool;
  windowScale : Z;
  enableTimestamp : bool;
  timestampValue : Z;
  timestampEcho : Z;
}.

Record parsedTcp := ParsedTcp {
  tcp_sourceIp : bytes;
  tcp_destinationIp : bytes;
  tcp_sourcePort : Z;
  tcp_destinationPort : Z;
  fin : bool;
  syn : bool;
  rst : bool;
  psh : bool;
  ack : bool;
  seq : Z;
  ackNumber : Z;
  windowSize : Z;
  options : bytes;
  tcp_options : tcpOptions;
  tcp_payload : bytes;
}.

Record parsedIcmp := ParsedIcmp {
  icmp_sourceIp : bytes;
  icmp_destinationIp : bytes;
  echoRequest : bool;
  identifier : Z;
  sequenceNumber : Z;
  icmp_payload : bytes;
}.

(** ** Parsers

    [None] is [ok = false]. *)

Definition parseIpv4 (ipPacket : bytes) : go (option (Z * bytes * bytes * bytes)) :=
  if (length ipPacket <? Ipv4HeaderSizeWithoutExtensions)%nat then Ret None
  else
    let! b0 := index ipPacket 0 in
    let headerByteCount := (Z.to_nat (Z.land b0 15) * 4)%nat in
    let! total := get_u16 ipPacket 2 in
    let totalByteCount := Z.to_nat total in
    if (headerByteCount <? Ipv4HeaderSizeWithoutExtensions)%nat || (totalByteCount <? headerByteCount)%nat ||
       (length ipPacket <? totalByteCount)%nat
    then Ret None
    else
      let! frag := get_u16 ipPacket 6 in
      if negb (Z.land frag 16383 =? 0) then Ret None
      else
        let! ipProtocol := index ipPacket 9 in
        let! sourceIp := slice ipPacket 12 16 in
        let! destinationIp := slice ipPacket 16 20 in
        let! transport := slice ipPacket headerByteCount totalByteCount in
        Ret (Some (ipProtocol, sourceIp, destinationIp, transport)).

Definition parseIpv6 (ipPacket : bytes) : go (option (Z * bytes * bytes * bytes)) :=
  if (length ipPacket <? Ipv6HeaderSize)%nat then Ret None
  else
    let! b6 := index ipPacket 6 in
    let! found :=
      (if negb (isIpv6ExtensionHeader b6) then
         let! n := get_u16 ipPacket 4 in
         let payloadEnd := (Ipv6HeaderSize + Z.to_nat n)%nat in
         if (length ipPacket <? payloadEnd)%nat then Ret None
         else Ret (Some (b6, Ipv6HeaderSize, payloadEnd))
       else
         let! walk := walkIpv6ExtensionHeaders ipPacket in
         match walk with
         | None => Ret None
         | Some walk =>
             if fragmented walk then Ret None
             else Ret (Some (nextHeader walk, transportOffset walk, payloadEnd walk))
         end) in
    match found with
    | None => Ret None
    | Some (ipProtocol, transportOffset, payloadEnd) =>
        let! sourceIp := slice ipPacket 8 24 in
        let! destinationIp := slice ipPacket 24 40 in
        let! transport := slice ipPacket transportOffset payloadEnd in
        Ret (Some (ipProtocol, sourceIp, destinationIp, transport))
    end.

Definition parseUdpPacket (sourceIp destinationIp transport : bytes) : go (option parsedUdp) :=
  if (length transport <? UdpHeaderSize)%nat then Ret None
  else
    let! n := get_u16 transport 4 in
    let udpByteCount := Z.to_nat n in
    if (udpByteCount <? UdpHeaderSize)%nat || (length transport <? udpByteCount)%nat then Ret None
    else
      let! sourcePort := get_u16 transport 0 in
      let! destinationPort := get_u16 transport 2 in
      let! payload := slice transport UdpHeaderSize udpByteCount in
      Ret (Some (ParsedUdp sourceIp destinationIp sourcePort destinationPort payload)).

Definition noTcpOptions : tcpOptions := TcpOptions false 0 false 0 false 0 0.

(** One recognised option at [optionIndex]. *)
Definition tcp_option_at (opts : bytes) (optionIndex : nat) (kind : Z) (optionByteCount : nat) (o : tcpOptions)
    : go tcpOptions :=
  if kind =? 2 then
    if (optionByteCount =? 4)%nat then
      let! m := get_u16 opts (optionIndex + 2) in
      Ret (TcpOptions true (Z.max m 536) (enableWindowScale o) (windowScale o)
             (enableTimestamp o) (timestampValue o) (timestampEcho o))
    else Ret o
  else if kind =? 3 then
    if (optionByteCount =? 3)%nat then
      let! s := index opts (optionIndex + 2) in
      Ret (TcpOptions (enableMss o) (mss o) true (Z.min s 14)
             (enableTimestamp o) (timestampValue o) (timestampEcho o))
    else Ret o
  else if kind =? 8 then
    if (optionByteCount =? 10)%nat then
      let! v := get_u32 opts (optionIndex + 2) in
      let! e := get_u32 opts (optionIndex + 6) in
      Ret (TcpOptions (enableMss o) (mss o) (enableWindowScale o) (windowScale o) true v e)
    else Ret o
  else Ret o.

Fixpoint tcp_options_loop (fuel : nat) (opts : bytes) (optionIndex : nat) (o : tcpOptions) : go tcpOptions :=
  match fuel with
  | O => Ret o
  | S fuel =>
      if (optionIndex <? length opts)%nat then
        let! kind := index opts optionIndex in
        if kind =? 0 then Ret o
        else if kind =? 1 then tcp_options_loop fuel opts (optionIndex + 1) o
        else if (length opts <? optionIndex + 2)%nat then Ret o
        else
          let! n := index opts (optionIndex + 1) in
          let optionByteCount := Z.to_nat n in
          if (optionByteCount <? 2)%nat || (length opts <? optionIndex + optionByteCount)%nat then Ret o
          else
            let! o := tcp_option_at opts optionIndex kind optionByteCount o in
            tcp_options_loop fuel opts (optionIndex + optionByteCount) o
      else Ret o
  end.

(** Every iteration advances the index, so [len(options)] iterations are
    enough (see [tcp_options_loop_fuel]). *)
Definition parseTcpOptions (opts : bytes) : go tcpOptions := tcp_options_loop (length opts) opts 0 noTcpOptions.

Definition parseTcpPacket (sourceIp destinationIp transport : bytes) : go (option parsedTcp) :=
  if (length transport <? TcpHeaderSizeWithoutExtensions)%nat then Ret None
  else
    let! b12 := index transport 12 in
    let headerByteCount := (Z.to_nat (Z.shiftr b12 4) * 4)%nat in
    if (headerByteCount <? TcpHeaderSizeWithoutExtensions)%nat || (length transport <? headerByteCount)%nat
    then Ret None
    else
      let! flags := index transport 13 in
      let! sourcePort := get_u16 transport 0 in
      let! destinationPort := get_u16 transport 2 in
      let! seq := get_u32 transport 4 in
      let! ackNumber := get_u32 transport 8 in
      let! windowSize := get_u16 transport 14 in
      let! opts := slice transport TcpHeaderSizeWithoutExtensions headerByteCount in
      let! parsed := parseTcpOptions opts in
      let! payload := slice transport headerByteCount (length transport) in
      let flag f := negb (Z.land flags f =? 0) in
      Ret (Some (ParsedTcp sourceIp destinationIp sourcePort destinationPort
                   (flag 1) (flag 2) (flag 4) (flag 8) (flag 16)
                   seq ackNumber windowSize opts parsed payload)).

Definition parseIcmpPacket (ipVersion : Z) (sourceIp destinationIp transport : bytes) : go (option parsedIcmp) :=
  if (length transport <? IcmpHeaderSize)%nat then Ret None
  else
    let! code := index transport 1 in
    if negb (code =? 0) then Ret None
    else
      let! type := index transport 0 in
      let request := ((ipVersion =? 4) && (type =? icmp4TypeEchoRequest)) ||
                     ((ipVersion =? 6) && (type =? icmp6TypeEchoRequest)) in
      let reply := ((ipVersion =? 4) && (type =? icmp4TypeEchoReply)) ||
                   ((ipVersion =? 6) && (type =? icmp6TypeEchoReply)) in
      if request || reply then
        let! id := get_u16 transport 4 in
        let! sequence := get_u16 transport 6 in
        let! payload := slice transport IcmpHeaderSize (length transport) in
        Ret (Some (ParsedIcmp sourceIp destinationIp request id sequence payload))
      else Ret None.

(** ** Checksum *)

Fixpoint checksumAdd (sum : Z) (b : bytes) : Z :=
  match b with
  | x :: y :: rest => checksumAdd (u32 (sum + be16 x y)) rest
  | [x] => u32 (sum + u32 (Z.shiftl x 8))
  | [] => sum
  end.

(** The folding loop; two rounds end it on any 32-bit sum ([fold_rounds]). *)
Fixpoint checksum_fold (fuel : nat) (sum : Z) : Z :=
  match fuel with
  | O => sum
  | S fuel => if 65535 <? sum then checksum_fold fuel (u32 (Z.land sum 65535 + Z.shiftr sum 16)) else sum
  end.

Definition checksumFinish (sum : Z) : Z := Z.lxor (u16 (checksum_fold 2 sum)) 65535.

Definition transportChecksum (protocol : Z) (packetSourceIp packetDestinationIp transport : bytes) : Z :=
  let sum := checksumAdd 0 packetSourceIp in
  let sum := checksumAdd sum packetDestinationIp in
  let sum := u32 (sum + protocol) in
  let sum := u32 (sum + u32 (Z.of_nat (length transport))) in
  checksumFinish (checksumAdd sum transport).

(** ** Header writers *)

Definition writeIpv4Header (packet : bytes) (ipProtocol : Z) (packetSourceIp packetDestinationIp : bytes) : go bytes :=
  let n := length packet in
  let! packet := set_index packet 0 69 in
  let! packet := set_index packet 1 0 in
  let! packet := put_u16 packet 2 (u16 (Z.of_nat n)) in
  let! packet := set_index packet 4 0 in
  let! packet := set_index packet 5 0 in
  let! packet := set_index packet 6 0 in
  let! packet := set_index packet 7 0 in
  let! packet := set_index packet 8 64 in
  let! packet := set_index packet 9 (u8 ipProtocol) in
  let! packet := set_index packet 10 0 in
  let! packet := set_index packet 11 0 in
  let! packet := copy_into packet 12 16 packetSourceIp in
  let! packet := copy_into packet 16 20 packetDestinationIp in
  let! header := slice packet 0 Ipv4HeaderSizeWithoutExtensions in
  put_u16 packet 10 (checksumFinish (checksumAdd 0 header)).

Definition writeIpv6Header (packet : bytes) (ipProtocol : Z) (packetSourceIp packetDestinationIp : bytes) : go bytes :=
  let n := length packet in
  let! packet := set_index packet 0 96 in
  let! packet := set_index packet 1 0 in
  let! packet := set_index packet 2 0 in
  let! packet := set_index packet 3 0 in
  let! packet := put_u16 packet 4 (u16 (Z.of_nat n - 40)) in
  let! packet := set_index packet 6 (u8 ipProtocol) in
  let! packet := set_index packet 7 64 in
  let! packet := copy_into packet 8 24 packetSourceIp in
  copy_into packet 24 40 packetDestinationIp.

(** src/ip_fragment.go *)
Definition writeIpv4HeaderChecksum (header : bytes) : go bytes :=
  let! header := set_index header 10 0 in
  let! header := set_index header 11 0 in
  put_u16 header 10 (checksumFinish (checksumAdd 0 header)).

(** ** The checksum is the RFC 1071 ones' complement sum *)

(** The specification: the sum of the big-endian 16-bit words, an odd last
    byte padded with zero. *)
Fixpoint wordsum (b : bytes) : Z :=
  match b with
  | x :: y :: rest => be16 x y + wordsum rest
  | [x] => x * 256
  | [] => 0
  end.

(** Induction two bytes at a time. *)
Lemma pair_ind (P : list Z -> Prop) :
  P [] -> (forall x, P [x]) -> (forall x y l, P l -> P (x :: y :: l)) -> forall l : list Z, P l.
Proof.
  intros H0 H1 H2. fix IH 1. intros [|x [|y l]]; [exact H0|apply H1|]. apply H2, IH.
Qed.

Lemma wordsum_range b : bytes_ok b -> 0 <= wordsum b <= 65535 * ((Z.of_nat (length b) + 1) / 2).
Proof.
  induction b as [|x|x y b IH] using pair_ind; intros Hb.
  - cbn. lia.
  - apply Forall_cons_1 in Hb as [Hx _]. unfold byte_ok in Hx. cbn. lia.
  - apply Forall_cons_1 in Hb as [Hx Hb]. apply Forall_cons_1 in Hb as [Hy Hb]. specialize (IH Hb).
    pose proof (be16_range x y Hx Hy). cbn [wordsum length].
    replace ((Z.of_nat (S (S (length b))) + 1) / 2) with ((Z.of_nat (length b) + 1) / 2 + 1); [lia|].
    rewrite <- Z.div_add by lia. f_equal. lia.
Qed.

Lemma wordsum_app_even a b : Nat.Even (length a) -> wordsum (a ++ b) = wordsum a + wordsum b.
Proof.
  induction a as [|x|x y a IH] using pair_ind; intros He; [done|by destruct He as [k Hk]; cbn in Hk; lia|].
  cbn [app wordsum]. rewrite IH; [lia|]. destruct He as [k Hk]. exists (k - 1)%nat. cbn in Hk. lia.
Qed.

Lemma u32_u32_add a b : u32 (u32 a + b) = u32 (a + b).
Proof. unfold u32. apply Zplus_mod_idemp_l. Qed.

Lemma checksumAdd_wordsum b sum :
  bytes_ok b -> 0 <= sum < 4294967296 -> checksumAdd sum b = u32 (sum + wordsum b).
Proof.
  revert sum. induction b as [|x|x y b IH] using pair_ind; intros sum Hb Hs.
  - cbn. by rewrite Z.add_0_r, u32_small.
  - apply Forall_cons_1 in Hb as [Hx _]. unfold byte_ok in Hx. cbn [checksumAdd wordsum].
    rewrite Z.shiftl_mul_pow2 by lia. change (2 ^ 8) with 256. by rewrite (u32_small (x * 256)) by lia.
  - apply Forall_cons_1 in Hb as [Hx Hb]. apply Forall_cons_1 in Hb as [Hy Hb].
    cbn [checksumAdd wordsum]. rewrite IH by (done || apply u32_range).
    rewrite u32_u32_add. f_equal. lia.
Qed.

Lemma fold_step s :
  65535 < s < 4294967296 ->
  u32 (Z.land s 65535 + Z.shiftr s 16) = s mod 65536 + s / 65536 /\
  0 < s mod 65536 + s / 65536 < s /\ (s mod 65536 + s / 65536) mod 65535 = s mod 65535.
Proof.
  intros Hs. change (Z.land s 65535) with (Z.land s (Z.ones 16)). rewrite Z.land_ones, Z.shiftr_div_pow2 by lia.
  change (2 ^ 16) with 65536.
  pose proof (Z.mod_pos_bound s 65536 ltac:(lia)). pose proof (Z.div_mod s 65536 ltac:(lia)).
  assert (0 < s / 65536) by (apply Z.div_str_pos; lia).
  assert (s / 65536 < 65536) by (apply Z.div_lt_upper_bound; lia).
  split; [rewrite u32_small; lia|]. split; [lia|].
  rewrite (Z.div_mod s 65536) at 3 by lia.
  replace (65536 * (s / 65536) + s mod 65536) with (s mod 65536 + s / 65536 + (s / 65536) * 65535) by lia.
  by rewrite Z.mod_add by lia.
Qed.

(** Any fuel from two on gives the same result: the loop has ended. *)
Lemma fold_rounds s k :
  0 <= s < 4294967296 ->
  checksum_fold (2 + k) s = checksum_fold 2 s /\ 0 <= checksum_fold 2 s <= 65535 /\
  (checksum_fold 2 s) mod 65535 = s mod 65535 /\ (checksum_fold 2 s = 0 <-> s = 0).
Proof.
  intros Hs. cbn [checksum_fold Nat.add].
  destruct (Z.ltb_spec 65535 s) as [H1|H1]; [|split; [done|]; split; [lia|]; split; [done|lia]].
  destruct (fold_step s ltac:(lia)) as (-> & Hp1 & Hm1). set (t := s mod 65536 + s / 65536) in *.
  assert (Ht : t <= 131070).
  { subst t. pose proof (Z.mod_pos_bound s 65536 ltac:(lia)).
    assert (s / 65536 < 65536) by (apply Z.div_lt_upper_bound; lia). lia. }
  destruct (Z.ltb_spec 65535 t) as [H2|H2].
  2:{ split; [done|]. split; [lia|]. split; [done|lia]. }
  destruct (fold_step t ltac:(lia)) as (-> & Hp2 & Hm2).
  assert (E : t mod 65536 + t / 65536 = t - 65535).
  { assert (t / 65536 = 1) by (symmetry; apply (Z.div_unique t 65536 1 (t - 65536)); lia).
    pose proof (Z.div_mod t 65536 ltac:(lia)). lia. }
  rewrite E in *. split; [|split; [lia|]; split; [congruence|lia]].
  destruct k; [done|]. cbn [checksum_fold]. destruct (Z.ltb_spec 65535 (t - 65535)); [lia|done].
Qed.

Lemma lxor_ones16 r : 0 <= r <= 65535 -> Z.lxor r 65535 = 65535 - r.
Proof.
  intros Hr. change 65535 with (Z.ones 16).
  assert (Hhi : forall i, 16 <= i -> Z.testbit r i = false).
  { intros i Hi. destruct (Z.eq_dec r 0) as [->|Hr0]; [apply Z.bits_0|].
    apply Z.bits_above_log2; [lia|]. apply Z.log2_lt_pow2; [lia|].
    apply Z.lt_le_trans with (2 ^ 16); [change (2 ^ 16) with 65536; lia|apply Z.pow_le_mono_r; lia]. }
  rewrite Z.sub_nocarry_ldiff.
  - apply Z.bits_inj'. intros i Hi. rewrite Z.lxor_spec, Z.ldiff_spec, Z.testbit_ones_nonneg by lia.
    destruct (Z.ltb_spec i 16); [by destruct (Z.testbit r i)|]. by rewrite Hhi by lia.
  - apply Z.bits_inj'. intros i Hi. rewrite Z.ldiff_spec, Z.testbit_ones_nonneg, Z.bits_0 by lia.
    destruct (Z.ltb_spec i 16); [apply andb_false_r|]. by rewrite Hhi by lia.
Qed.

Lemma checksumFinish_spec s :
  0 <= s < 4294967296 -> checksumFinish s = 65535 - checksum_fold 2 s /\ 0 <= checksumFinish s <= 65535.
Proof.
  intros Hs. destruct (fold_rounds s 0 Hs) as (_ & Hr & _). unfold checksumFinish.
  rewrite u16_small, lxor_ones16 by lia. lia.
Qed.

(** The receiver's sum over a message whose checksum field, zero while the
    sender summed, holds the sender's result is zero; so is it when the sender
    replaced a zero result by all ones, as UDP requires. *)
Lemma checksum_verify s c :
  0 <= s -> s + 65535 < 4294967296 ->
  c = checksumFinish s \/ (checksumFinish s = 0 /\ c = 65535) -> checksumFinish (s + c) = 0.
Proof.
  intros Hs Hb Hc. destruct (checksumFinish_spec s ltac:(lia)) as [Ef Hf].
  destruct (fold_rounds s 0 ltac:(lia)) as (_ & Hr & Hm & Hz).
  assert (Hrc : 0 <= c <= 65535) by lia.
  destruct (checksumFinish_spec (s + c) ltac:(lia)) as [-> _].
  destruct (fold_rounds (s + c) 0 ltac:(lia)) as (_ & Hr2 & Hm2 & Hz2).
  assert (Hsc : (s + c) mod 65535 = 0).
  { rewrite Zplus_mod, <- Hm, <- Zplus_mod.
    destruct Hc as [->|[E0 ->]].
    - rewrite Ef. by replace (checksum_fold 2 s + (65535 - checksum_fold 2 s)) with 65535 by lia.
    - by replace (checksum_fold 2 s) with 65535 by lia. }
  rewrite Hsc in Hm2. assert (checksum_fold 2 (s + c) <> 0) by lia.
  destruct (Z.eq_dec (checksum_fold 2 (s + c)) 65535) as [|Hne]; [lia|].
  rewrite Z.mod_small in Hm2 by lia. lia.
Qed.

(** ** What the header writers write *)

Definition ipv4_fields (n proto c : Z) (src dst : bytes) : bytes :=
  [69; 0; byte_of n 8; byte_of n 0; 0; 0; 0; 0; 64; proto; byte_of c 8; byte_of c 0] ++ src ++ dst.

Definition ipv4_header (n proto : Z) (src dst : bytes) : bytes :=
  ipv4_fields n proto (checksumFinish (checksumAdd 0 (ipv4_fields n proto 0 src dst))) src dst.

Definition ipv6_header (n proto : Z) (src dst : bytes) : bytes :=
  [96; 0; 0; 0; byte_of n 8; byte_of n 0; proto; 64] ++ src ++ dst.

(** Byte ranges of a list given by its cells. *)
Ltac explicit_bytes :=
  unfold bytes_ok; rewrite ?Forall_app; repeat split;
  repeat (apply Forall_cons_2; [first [apply byte_of_ok | assumption | unfold byte_ok; lia]|]);
  try apply Forall_nil_2.

(** A list of known length as explicit cells. *)
Ltac cells l :=
  repeat (let x := fresh "x" in destruct l as [|x l]; [discriminate|]);
  try (destruct l; [|discriminate]).

Lemma writeIpv4Header_spec packet proto src dst :
  (20 <= length packet)%nat -> length src = 4%nat -> length dst = 4%nat -> byte_ok proto ->
  writeIpv4Header packet proto src dst =
    Ret (ipv4_header (u16 (Z.of_nat (length packet))) proto src dst ++ drop 20 packet).
Proof.
  intros Hp Hs Hd Ho. destruct (length_split packet 20 Hp) as (a & b & -> & Ha).
  unfold writeIpv4Header. rewrite (u8_small proto) by done.
  generalize (u16 (Z.of_nat (length (a ++ b)))). intros n. rewrite drop_app_length' by done.
  cells a. cells src. cells dst. reflexivity.
Qed.

Lemma writeIpv6Header_spec packet proto src dst :
  (40 <= length packet)%nat -> length src = 16%nat -> length dst = 16%nat -> byte_ok proto ->
  writeIpv6Header packet proto src dst =
    Ret (ipv6_header (u16 (Z.of_nat (length packet) - 40)) proto src dst ++ drop 40 packet).
Proof.
  intros Hp Hs Hd Ho. destruct (length_split packet 40 Hp) as (a & b & -> & Ha).
  unfold writeIpv6Header. rewrite (u8_small proto) by done.
  generalize (u16 (Z.of_nat (length (a ++ b)) - 40)). intros n. rewrite drop_app_length' by done.
  cells a. cells src. cells dst. reflexivity.
Qed.

Lemma ipv4_fields_ok n proto c src dst :
  byte_ok proto -> bytes_ok src -> bytes_ok dst -> bytes_ok (ipv4_fields n proto c src dst).
Proof.
  intros Hp Hs Hd. unfold ipv4_fields. by explicit_bytes.
Qed.

Lemma ipv4_fields_length n proto c src dst :
  length src = 4%nat -> length dst = 4%nat -> length (ipv4_fields n proto c src dst) = 20%nat.
Proof. intros Hs Hd. unfold ipv4_fields. rewrite !length_app, Hs, Hd. done. Qed.

Lemma ipv6_header_length n proto src dst :
  length src = 16%nat -> length dst = 16%nat -> length (ipv6_header n proto src dst) = 40%nat.
Proof. intros Hs Hd. unfold ipv6_header. rewrite !length_app, Hs, Hd. done. Qed.

Lemma wordsum_ipv4_fields n proto c src dst :
  0 <= c < 65536 -> wordsum (ipv4_fields n proto c src dst) = wordsum (ipv4_fields n proto 0 src dst) + c.
Proof.
  intros Hc. unfold ipv4_fields. cbn [app wordsum]. change (byte_of 0 8) with 0. change (byte_of 0 0) with 0.
  rewrite (be16_split c Hc). unfold be16. lia.
Qed.

Lemma wordsum_small b : bytes_ok b -> Z.of_nat (length b) <= 65575 -> 0 <= wordsum b <= 2148794880.
Proof.
  intros Hb Hl. pose proof (wordsum_range b Hb) as [H0 H1]. split; [done|].
  assert ((Z.of_nat (length b) + 1) / 2 <= 65576 / 2) by (apply Z.div_le_mono; lia).
  change (65576 / 2) with 32788 in *. lia.
Qed.

Lemma ipv4_header_verifies n proto src dst :
  byte_ok proto -> bytes_ok src -> bytes_ok dst -> length src = 4%nat -> length dst = 4%nat ->
  checksumFinish (checksumAdd 0 (ipv4_header n proto src dst)) = 0.
Proof.
  intros Hp Hs Hd Ls Ld. unfold ipv4_header.
  pose proof (ipv4_fields_ok n proto 0 src dst Hp Hs Hd) as Hok.
  pose proof (wordsum_small _ Hok) as Hw. rewrite ipv4_fields_length in Hw by done. specialize (Hw ltac:(lia)).
  set (c := checksumFinish (checksumAdd 0 (ipv4_fields n proto 0 src dst))).
  assert (Hc : c = checksumFinish (wordsum (ipv4_fields n proto 0 src dst))).
  { subst c. rewrite checksumAdd_wordsum, Z.add_0_l, u32_small by (done || lia). done. }
  pose proof (checksumFinish_spec (wordsum (ipv4_fields n proto 0 src dst)) ltac:(lia)) as [_ Hcr].
  rewrite <- Hc in Hcr.
  rewrite checksumAdd_wordsum, Z.add_0_l, wordsum_ipv4_fields, u32_small
    by (lia || by apply ipv4_fields_ok). apply checksum_verify; auto; lia.
Qed.

Lemma slice_cut {A} (a b : list A) i j :
  i = length a -> j = (length a + length b)%nat -> slice (a ++ b) i j = Ret b.
Proof. intros -> ->. by apply slice_app_r. Qed.

Lemma parse_ipv4_fields n proto c src dst transport :
  length src = 4%nat -> length dst = 4%nat -> n = 20 + Z.of_nat (length transport) -> n <= 65535 ->
  parseIpv4 (ipv4_fields n proto c src dst ++ transport) = Ret (Some (proto, src, dst, transport)).
Proof.
  intros Ls Ld Hn Hmax. pose proof (ipv4_fields_length n proto c src dst Ls Ld) as Lh.
  set (packet := _ ++ transport).
  assert (Lp : length packet = (20 + length transport)%nat) by (subst packet; by rewrite length_app, Lh).
  assert (E16 : get_u16 packet 2 = Ret n) by (unfold get_u16; cbn; by rewrite be16_split by lia).
  assert (E6 : get_u16 packet 6 = Ret 0) by done.
  assert (Es : slice packet 12 16 = Ret src) by (cells src; cells dst; reflexivity).
  assert (Ed : slice packet 16 20 = Ret dst) by (cells src; cells dst; reflexivity).
  assert (Et : slice packet 20 (20 + length transport) = Ret transport) by (apply slice_cut; lia).
  unfold parseIpv4. rewrite E16, E6, Es, Ed, Lp.
  change (index packet 0) with (@Ret Z 69). change (index packet 9) with (@Ret Z proto). cbn [gbind].
  change (Z.to_nat (Z.land 69 15) * 4)%nat with 20%nat.
  rewrite Hn, Z2Nat.inj_add, Nat2Z.id by lia. change (Z.to_nat 20) with 20%nat.
  unfold Ipv4HeaderSizeWithoutExtensions. rewrite !(proj2 (Nat.ltb_ge _ _)) by lia.
  change (Z.land 0 16383 =? 0) with true. cbn [orb negb gbind]. by rewrite Et.
Qed.

Lemma parse_ipv6_header n proto src dst transport :
  length src = 16%nat -> length dst = 16%nat -> n = Z.of_nat (length transport) -> n <= 65535 ->
  isIpv6ExtensionHeader proto = false ->
  parseIpv6 (ipv6_header n proto src dst ++ transport) = Ret (Some (proto, src, dst, transport)).
Proof.
  intros Ls Ld Hn Hmax Hx. pose proof (ipv6_header_length n proto src dst Ls Ld) as Lh.
  set (packet := _ ++ transport).
  assert (Lp : length packet = (40 + length transport)%nat) by (subst packet; by rewrite length_app, Lh).
  assert (E16 : get_u16 packet 4 = Ret n) by (unfold get_u16; cbn; by rewrite be16_split by lia).
  assert (Es : slice packet 8 24 = Ret src) by (cells src; cells dst; reflexivity).
  assert (Ed : slice packet 24 40 = Ret dst) by (cells src; cells dst; reflexivity).
  assert (Et : slice packet 40 (40 + length transport) = Ret transport) by (apply slice_cut; lia).
  unfold parseIpv6. rewrite E16, Es, Ed, Lp.
  change (index packet 6) with (@Ret Z proto). cbn [gbind]. rewrite Hx. cbn [negb].
  rewrite Hn, Nat2Z.id. unfold Ipv6HeaderSize. rewrite !(proj2 (Nat.ltb_ge _ _)) by lia.
  cbn [gbind]. by rewrite Et.
Qed.

(** ** TCP options *)

Lemma tcp_option_at_returns opts i kind n o :
  bytes_ok opts -> (i + n <= length opts)%nat ->
  returns (tcp_option_at opts i kind n o) (fun o' =>
    (enableMss o = true -> 536 <= mss o) -> windowScale o <= 14 ->
    (enableMss o' = true -> 536 <= mss o' ) /\ windowScale o' <= 14).
Proof.
  intros Hb Hi. unfold tcp_option_at.
  repeat match goal with |- returns (if ?b then _ else _) _ => destruct b eqn:? end; try by apply returns_ret.
  - apply Nat.eqb_eq in Heqb0 as ->. greturns get_u16_returns; [done|lia|]. intros m Hm.
    apply returns_ret. cbn. intros _ Hw. split; [lia|done].
  - apply Nat.eqb_eq in Heqb1 as ->. greturns @index_returns; [lia|]. intros s Hs.
    apply returns_ret. cbn. intros H _. split; [done|lia].
  - apply Nat.eqb_eq in Heqb2 as ->. greturns get_u32_returns; [done|lia|]. intros v Hv.
    greturns get_u32_returns; [done|lia|]. intros e He. apply returns_ret. cbn. done.
Qed.

Lemma tcp_options_loop_returns fuel opts i o :
  bytes_ok opts -> (enableMss o = true -> 536 <= mss o) -> windowScale o <= 14 ->
  returns (tcp_options_loop fuel opts i o) (fun o' =>
    (enableMss o' = true -> 536 <= mss o') /\ windowScale o' <= 14).
Proof.
  intros Hb. revert i o. induction fuel as [|fuel IH]; intros i o Hm Hw; [by apply returns_ret|].
  cbn [tcp_options_loop]. destruct (Nat.ltb_spec i (length opts)); [|by apply returns_ret].
  greturns @index_returns; [done|]. intros kind _.
  destruct (kind =? 0); [by apply returns_ret|]. destruct (kind =? 1); [by apply IH|].
  destruct (Nat.ltb_spec (length opts) (i + 2)); [by apply returns_ret|].
  greturns @index_returns; [lia|]. intros n _.
  destruct (_ || _) eqn:E; [by apply returns_ret|].
  apply orb_false_iff in E as [_ E]. apply Nat.ltb_ge in E.
  greturns tcp_option_at_returns; [done|done|]. intros o' Ho'. destruct (Ho' Hm Hw). by apply IH.
Qed.

(** The loop has ended after as many iterations as there are option bytes. *)
Lemma tcp_options_loop_fuel fuel k opts i o :
  (length opts - i <= fuel)%nat -> tcp_options_loop (fuel + k) opts i o = tcp_options_loop fuel opts i o.
Proof.
  revert i o. induction fuel as [|fuel IH]; intros i o Hf.
  - destruct k; [done|]. cbn [Nat.add tcp_options_loop].
    by rewrite (proj2 (Nat.ltb_ge _ _)) by lia.
  - cbn [Nat.add tcp_options_loop]. destruct (Nat.ltb_spec i (length opts)); [|done].
    destruct (index opts i) as [kind|]; [|done]. cbn [gbind].
    destruct (kind =? 0); [done|]. destruct (kind =? 1); [apply IH; lia|].
    destruct (length opts <? i + 2)%nat; [done|].
    destruct (index opts (i + 1)) as [n|]; [|done]. cbn [gbind].
    destruct (_ || _) eqn:E; [done|]. apply orb_false_iff in E as [E _]. apply Nat.ltb_ge in E.
    destruct (tcp_option_at _ _ _ _ _); [|done]. cbn [gbind]. apply IH. lia.
Qed.

(** The options a segment carries, as RFC 793 encodes them. *)
Inductive tcpOption :=
| NoOperation
| Option (kind : Z) (body : bytes).

Definition encode_option (opt : tcpOption) : bytes :=
  match opt with
  | NoOperation => [1]
  | Option kind body => kind :: Z.of_nat (2 + length body) :: body
  end.

Definition encode_options (opts : list tcpOption) : bytes := concat (map encode_option opts).

Definition option_ok (opt : tcpOption) : Prop :=
  match opt with
  | NoOperation => True
  | Option kind body => kind <> 0 /\ kind <> 1 /\ (length body <= 253)%nat
  end.

(** What one option means to the endpoint. *)
Definition apply_option (o : tcpOptions) (opt : tcpOption) : tcpOptions :=
  match opt with
  | Option 2 [a; b] =>
      TcpOptions true (Z.max (be16 a b) 536) (enableWindowScale o) (windowScale o)
        (enableTimestamp o) (timestampValue o) (timestampEcho o)
  | Option 3 [s] =>
      TcpOptions (enableMss o) (mss o) true (Z.min s 14)
        (enableTimestamp o) (timestampValue o) (timestampEcho o)
  | Option 8 [a; b; c; d; e; f; g; h] =>
      TcpOptions (enableMss o) (mss o) (enableWindowScale o) (windowScale o)
        true (be32 a b c d) (be32 e f g h)
  | _ => o
  end.

(** Option bytes at which parsing stops: none left, the end-of-options octet,
    a kind without its length, or a length that is too small or too large. *)
Definition options_stop (tail : bytes) : bool :=
  match tail with
  | [] => true
  | kind :: rest =>
      (kind =? 0) || (negb (kind =? 1) &&
        match rest with
        | [] => true
        | n :: _ => (Z.to_nat n <? 2)%nat || (length tail <? Z.to_nat n)%nat
        end)
  end.

Lemma index_app_plus {A} (pre l : list A) k : index (pre ++ l) (length pre + k) = index l k.
Proof. unfold index. rewrite lookup_app_r by lia. by replace (length pre + k - length pre)%nat with k by lia. Qed.

Lemma get_u16_app_plus pre l k : get_u16 (pre ++ l) (length pre + k) = get_u16 l k.
Proof. unfold get_u16. by rewrite <- !Nat.add_assoc, !index_app_plus. Qed.

Lemma get_u32_app_plus pre l k : get_u32 (pre ++ l) (length pre + k) = get_u32 l k.
Proof. unfold get_u32. by rewrite <- !Nat.add_assoc, !index_app_plus. Qed.

Lemma tcp_option_at_app pre l kind n o :
  tcp_option_at (pre ++ l) (length pre) kind n o = tcp_option_at l 0 kind n o.
Proof. unfold tcp_option_at. by rewrite !get_u16_app_plus, !get_u32_app_plus, index_app_plus. Qed.

Lemma tcp_option_at_apply kind n body rest o :
  tcp_option_at (kind :: n :: body ++ rest) 0 kind (2 + length body) o = Ret (apply_option o (Option kind body)).
Proof.
  unfold tcp_option_at, apply_option.
  destruct (Z.eqb_spec kind 2) as [->|N2]; [by destruct body as [|a [|b [|c body]]]|].
  destruct (Z.eqb_spec kind 3) as [->|N3]; [by destruct body as [|a [|b body]]|].
  destruct (Z.eqb_spec kind 8) as [->|N8].
  { by destruct body as [|? [|? [|? [|? [|? [|? [|? [|? [|? body]]]]]]]]]. }
  destruct kind as [|p|]; try done. do 4 (destruct p as [p|p|]; try done).
Qed.

Lemma tcp_options_loop_decode opts fuel pre tail o :
  Forall option_ok opts -> options_stop tail = true -> (length (encode_options opts ++ tail) < fuel)%nat ->
  tcp_options_loop fuel (pre ++ encode_options opts ++ tail) (length pre) o = Ret (fold_left apply_option opts o).
Proof.
  intros Hok Hstop. revert fuel pre o. induction Hok as [|opt opts Ho Hok IH]; intros fuel pre o Hf.
  - cbn [encode_options map concat app] in *. destruct fuel as [|fuel]; [lia|]. cbn [tcp_options_loop fold_left].
    rewrite length_app. destruct (Nat.ltb_spec (length pre) (length pre + length tail)); [|done].
    destruct tail as [|kind tail]; [cbn in *; lia|].
    rewrite <- (Nat.add_0_r (length pre)) at 1. rewrite index_app_plus. cbn [index lookup list_lookup gbind].
    cbn [options_stop] in Hstop. destruct (kind =? 0); [done|]. cbn [orb] in Hstop.
    destruct (kind =? 1); [done|]. cbn [negb andb] in Hstop.
    destruct tail as [|n tail]; [by rewrite (proj2 (Nat.ltb_lt _ _)) by (cbn; lia)|].
    rewrite (proj2 (Nat.ltb_ge _ _)) by (cbn; lia). rewrite index_app_plus. cbn [index lookup list_lookup gbind].
    replace (length pre + length (kind :: n :: tail) <? length pre + Z.to_nat n)%nat
      with (length (kind :: n :: tail) <? Z.to_nat n)%nat; [by rewrite Hstop|].
    destruct (Nat.ltb_spec (length (kind :: n :: tail)) (Z.to_nat n)); symmetry;
      [apply Nat.ltb_lt|apply Nat.ltb_ge]; lia.
  - change (encode_options (opt :: opts)) with (encode_option opt ++ encode_options opts) in *.
    rewrite <- app_assoc in *. rewrite length_app in Hf. destruct fuel as [|fuel]; [lia|].
    assert (Hnext : forall o', tcp_options_loop fuel (pre ++ encode_option opt ++ encode_options opts ++ tail)
        (length pre + length (encode_option opt)) o' = Ret (fold_left apply_option opts o')).
    { intros o'. rewrite app_assoc, <- length_app. apply IH.
      destruct opt; cbn [encode_option length] in Hf; lia. }
    cbn [fold_left tcp_options_loop]. rewrite !length_app.
    rewrite (proj2 (Nat.ltb_lt _ _)) by (destruct opt; cbn [encode_option length]; lia).
    rewrite <- (Nat.add_0_r (length pre)) at 1. rewrite index_app_plus.
    destruct opt as [|kind body]; cbn [encode_option app index lookup list_lookup gbind length]; [apply Hnext|].
    destruct Ho as (N0 & N1 & Hlen). rewrite (proj2 (Z.eqb_neq _ _) N0), (proj2 (Z.eqb_neq _ _) N1).
    rewrite (proj2 (Nat.ltb_ge _ _)) by lia. rewrite index_app_plus. cbn [index lookup list_lookup gbind].
    rewrite Nat2Z.id, !(proj2 (Nat.ltb_ge _ _)) by lia. cbn [orb].
    rewrite tcp_option_at_app, tcp_option_at_apply. cbn [gbind]. apply Hnext.
Qed.

Lemma parseTcpOptions_decode opts tail :
  Forall option_ok opts -> options_stop tail = true ->
  parseTcpOptions (encode_options opts ++ tail) = Ret (fold_left apply_option opts noTcpOptions).
Proof.
  intros Hok Hstop. unfold parseTcpOptions.
  rewrite <- (tcp_options_loop_fuel _ 1) by lia. apply (tcp_options_loop_decode opts _ []); [done|done|lia].
Qed.

(** ** The transport checksum *)

(** The words the transport checksum covers, pseudo header included. *)
Definition pseudo_sum (proto : Z) (src dst transport : bytes) : Z :=
  wordsum src + wordsum dst + proto + Z.of_nat (length transport) + wordsum transport.

Definition wire_ip (ip : bytes) : Prop := bytes_ok ip /\ (length ip <= 16)%nat.

Lemma wire_ip_sum ip : wire_ip ip -> 0 <= wordsum ip <= 524280.
Proof.
  intros [Hb Hl]. pose proof (wordsum_range ip Hb) as [H0 H1]. split; [done|].
  assert ((Z.of_nat (length ip) + 1) / 2 <= 17 / 2) by (apply Z.div_le_mono; lia).
  change (17 / 2) with 8 in *. lia.
Qed.

Lemma pseudo_sum_range proto src dst transport :
  byte_ok proto -> wire_ip src -> wire_ip dst -> bytes_ok transport -> Z.of_nat (length transport) <= 65575 ->
  0 <= pseudo_sum proto src dst transport <= 2149909280.
Proof.
  intros Hp Hs Hd Ht Hl. apply wire_ip_sum in Hs, Hd. pose proof (wordsum_small _ Ht Hl).
  unfold byte_ok, pseudo_sum in *. lia.
Qed.

Lemma transportChecksum_sum proto src dst transport :
  byte_ok proto -> wire_ip src -> wire_ip dst -> bytes_ok transport -> Z.of_nat (length transport) <= 65575 ->
  transportChecksum proto src dst transport = checksumFinish (pseudo_sum proto src dst transport).
Proof.
  intros Hp Hs Hd Ht Hl. pose proof (pseudo_sum_range _ _ _ _ Hp Hs Hd Ht Hl) as Hr.
  pose proof (wire_ip_sum _ Hs). pose proof (wire_ip_sum _ Hd). pose proof (wordsum_small _ Ht Hl).
  unfold transportChecksum. destruct Hs as [Hs _], Hd as [Hd _]. unfold byte_ok in Hp.
  rewrite !(checksumAdd_wordsum _ _ Hs), !(checksumAdd_wordsum _ _ Hd), (checksumAdd_wordsum _ _ Ht)
    by (apply u32_range || lia).
  f_equal. unfold pseudo_sum in *. rewrite !Z.add_0_l.
  repeat rewrite (u32_small (wordsum src)), ?(u32_small (wordsum src + wordsum dst)),
    ?(u32_small (wordsum src + wordsum dst + proto)), ?(u32_small (Z.of_nat (length transport))),
    ?(u32_small (wordsum src + wordsum dst + proto + Z.of_nat (length transport))) by lia.
  rewrite u32_small by lia. done.
Qed.

(** The stored checksum, at any even offset. *)
Lemma transport_verifies proto src dst a b c :
  byte_ok proto -> wire_ip src -> wire_ip dst -> bytes_ok (a ++ b) -> Nat.Even (length a) ->
  Z.of_nat (length (a ++ b)) + 2 <= 65575 ->
  c = transportChecksum proto src dst (a ++ 0 :: 0 :: b) \/
  (transportChecksum proto src dst (a ++ 0 :: 0 :: b) = 0 /\ c = 65535) ->
  transportChecksum proto src dst (a ++ byte_of c 8 :: byte_of c 0 :: b) = 0.
Proof.
  intros Hp Hs Hd Hab He Hl Hc. apply bytes_ok_app in Hab as [Ha Hb]. rewrite length_app in Hl.
  assert (Hok : forall x y, byte_ok x -> byte_ok y -> bytes_ok (a ++ x :: y :: b)).
  { intros x y Hx Hy. apply bytes_ok_app. split; [done|]. by repeat apply Forall_cons_2. }
  assert (Hlen : forall x y, Z.of_nat (length (a ++ x :: y :: b)) <= 65575)
    by (intros; rewrite length_app; cbn; lia).
  assert (H0 : byte_ok 0) by (unfold byte_ok; lia).
  set (s := pseudo_sum proto src dst (a ++ 0 :: 0 :: b)).
  pose proof (pseudo_sum_range proto src dst _ Hp Hs Hd (Hok 0 0 H0 H0) (Hlen 0 0)) as Hr. fold s in Hr.
  rewrite transportChecksum_sum in Hc by auto. fold s in Hc.
  destruct (checksumFinish_spec s ltac:(lia)) as [_ Hf].
  rewrite transportChecksum_sum by auto using byte_of_ok.
  replace (pseudo_sum proto src dst (a ++ byte_of c 8 :: byte_of c 0 :: b)) with (s + c).
  - apply checksum_verify; [lia|lia|done].
  - unfold s, pseudo_sum. rewrite !wordsum_app_even, !length_app by done. cbn [wordsum length].
    rewrite be16_split by lia. unfold be16. lia.
Qed.

(** ICMPv4 sums the message alone. *)
Lemma message_verifies a b c :
  bytes_ok (a ++ b) -> Nat.Even (length a) -> Z.of_nat (length (a ++ b)) + 2 <= 65575 ->
  c = checksumFinish (checksumAdd 0 (a ++ 0 :: 0 :: b)) ->
  checksumFinish (checksumAdd 0 (a ++ byte_of c 8 :: byte_of c 0 :: b)) = 0.
Proof.
  intros Hab He Hl Hc. apply bytes_ok_app in Hab as [Ha Hb]. rewrite length_app in Hl.
  assert (Hok : forall x y, byte_ok x -> byte_ok y -> bytes_ok (a ++ x :: y :: b)).
  { intros x y Hx Hy. apply bytes_ok_app. split; [done|]. by repeat apply Forall_cons_2. }
  assert (Hlen : Z.of_nat (length (a ++ 0 :: 0 :: b)) <= 65575) by (rewrite length_app; cbn; lia).
  assert (H0 : byte_ok 0) by (unfold byte_ok; lia).
  pose proof (wordsum_small _ (Hok 0 0 H0 H0) Hlen) as Hr. set (s := wordsum _) in *.
  rewrite checksumAdd_wordsum, Z.add_0_l, u32_small in Hc by (auto || lia). fold s in Hc.
  destruct (checksumFinish_spec s ltac:(lia)) as [_ Hf].
  rewrite checksumAdd_wordsum, Z.add_0_l by (auto using byte_of_ok || lia).
  replace (wordsum (a ++ byte_of c 8 :: byte_of c 0 :: b)) with (s + c).
  - rewrite u32_small by lia. apply checksum_verify; [lia|lia|by left].
  - unfold s. rewrite !wordsum_app_even by done. cbn [wordsum]. rewrite be16_split by lia. unfold be16. lia.
Qed.

Lemma transportChecksum_range proto src dst transport :
  byte_ok proto -> wire_ip src -> wire_ip dst -> bytes_ok transport -> Z.of_nat (length transport) <= 65575 ->
  0 <= transportChecksum proto src dst transport <= 65535.
Proof.
  intros Hp Hs Hd Ht Hl. rewrite transportChecksum_sum by done.
  pose proof (pseudo_sum_range _ _ _ _ Hp Hs Hd Ht Hl). apply checksumFinish_spec. lia.
Qed.

(** ** The parsers never panic *)

(** What a successful parse hands on: addresses of the family's width and a
    transport that is a contiguous part of the packet after the header. *)
Definition parsed_inside (width header : nat) (packet : bytes) (r : option (Z * bytes * bytes * bytes)) : Prop :=
  forall proto src dst transport, r = Some (proto, src, dst, transport) ->
    length src = width /\ length dst = width /\
    exists i j, (header <= i <= j)%nat /\ (j <= length packet)%nat /\ transport = take (j - i) (drop i packet).

Lemma parseIpv4_returns packet :
  bytes_ok packet -> returns (parseIpv4 packet) (parsed_inside 4 20 packet).
Proof.
  intros Hb. unfold parseIpv4, Ipv4HeaderSizeWithoutExtensions.
  destruct (Nat.ltb_spec (length packet) 20); [by apply returns_ret|].
  greturns @index_returns; [lia|]. intros b0 H0. greturns get_u16_returns; [done|lia|]. intros total Ht.
  destruct (_ || _) eqn:E; [by apply returns_ret|].
  apply orb_false_iff in E as [E E3]. apply orb_false_iff in E as [E1 E2]. apply Nat.ltb_ge in E1, E2, E3.
  greturns get_u16_returns; [done|lia|]. intros frag _. destruct (negb _); [by apply returns_ret|].
  greturns @index_returns; [lia|]. intros proto _.
  greturns @slice_returns; [lia|lia|]. intros src [_ Ls].
  greturns @slice_returns; [lia|lia|]. intros dst [_ Ld].
  greturns @slice_returns; [lia|lia|]. intros transport [-> _].
  apply returns_ret. intros ? ? ? ? [= <- <- <- <-]. split; [done|]. split; [done|]. eexists _, _.
  split; [|split; [|done]]; lia.
Qed.

Lemma parseIpv6_returns packet :
  bytes_ok packet -> returns (parseIpv6 packet) (parsed_inside 16 40 packet).
Proof.
  intros Hb. unfold parseIpv6, Ipv6HeaderSize.
  destruct (Nat.ltb_spec (length packet) 40); [by apply returns_ret|].
  greturns @index_returns; [lia|]. intros b6 _.
  eapply (returns_bind _ _ (fun found => forall proto i j, found = Some (proto, i, j) ->
    (40 <= i <= j)%nat /\ (j <= length packet)%nat)).
  - destruct (negb _).
    + greturns get_u16_returns; [done|lia|]. intros n Hn.
      destruct (Nat.ltb_spec (length packet) (40 + Z.to_nat n)); apply returns_ret; [done|].
      intros ? ? ? [= <- <- <-]. lia.
    + greturns walk_returns; [done|]. intros walk Hw. destruct walk as [walk|]; [|by apply returns_ret].
      specialize (Hw walk eq_refl). destruct Hw as (Ho & He & _).
      destruct (fragmented walk); apply returns_ret; [done|]. intros ? ? ? [= <- <- <-]. done.
  - intros [[[proto i] j]|] Hf; [|by apply returns_ret]. specialize (Hf proto i j eq_refl).
    greturns @slice_returns; [lia|lia|]. intros src [_ Ls].
    greturns @slice_returns; [lia|lia|]. intros dst [_ Ld].
    greturns @slice_returns; [lia|lia|]. intros transport [-> _].
    apply returns_ret. intros ? ? ? ? [= <- <- <- <-]. split; [done|]. split; [done|]. exists i, j. by destruct Hf.
Qed.

Lemma parseUdpPacket_returns src dst transport :
  bytes_ok transport -> returns (parseUdpPacket src dst transport) (fun r => forall u, r = Some u ->
    (length (udp_payload u) + 8 <= length transport)%nat).
Proof.
  intros Hb. unfold parseUdpPacket, UdpHeaderSize.
  destruct (Nat.ltb_spec (length transport) 8); [by apply returns_ret|].
  greturns get_u16_returns; [done|lia|]. intros n Hn.
  destruct (_ || _) eqn:E; [by apply returns_ret|].
  apply orb_false_iff in E as [E1 E2]. apply Nat.ltb_ge in E1, E2.
  do 2 (greturns get_u16_returns; [done|lia|]; intros ? ?).
  greturns @slice_returns; [lia|lia|]. intros payload [_ Lp].
  apply returns_ret. intros u [= <-]. cbn. lia.
Qed.

Lemma parseTcpPacket_returns src dst transport :
  bytes_ok transport -> returns (parseTcpPacket src dst transport) (fun r => forall t, r = Some t ->
    (20 + length (options t) + length (tcp_payload t) = length transport)%nat /\
    (enableMss (tcp_options t) = true -> 536 <= mss (tcp_options t)) /\ windowScale (tcp_options t) <= 14).
Proof.
  intros Hb. unfold parseTcpPacket, TcpHeaderSizeWithoutExtensions.
  destruct (Nat.ltb_spec (length transport) 20); [by apply returns_ret|].
  greturns @index_returns; [lia|]. intros b12 _.
  destruct (_ || _) eqn:E; [by apply returns_ret|].
  apply orb_false_iff in E as [E1 E2]. apply Nat.ltb_ge in E1, E2.
  greturns @index_returns; [lia|]. intros flags _.
  do 2 (greturns get_u16_returns; [done|lia|]; intros ? ?).
  do 2 (greturns get_u32_returns; [done|lia|]; intros ? ?).
  greturns get_u16_returns; [done|lia|]. intros w _.
  greturns @slice_returns; [lia|lia|]. intros opts [-> Lo].
  greturns tcp_options_loop_returns; [by apply bytes_ok_take, bytes_ok_drop|done|cbn; lia|]. intros o Ho.
  greturns @slice_returns; [lia|lia|]. intros payload [_ Lp].
  apply returns_ret. intros t [= <-]. cbn. split; [lia|done].
Qed.

Lemma parseIcmpPacket_returns version src dst transport :
  bytes_ok transport -> returns (parseIcmpPacket version src dst transport) (fun _ => True).
Proof.
  intros Hb. unfold parseIcmpPacket, IcmpHeaderSize.
  destruct (Nat.ltb_spec (length transport) 8); [by apply returns_ret|].
  greturns @index_returns; [lia|]. intros code _. destruct (negb _); [by apply returns_ret|].
  greturns @index_returns; [lia|]. intros ty _. destruct (_ || _); [|by apply returns_ret].
  do 2 (greturns get_u16_returns; [done|lia|]; intros ? ?).
  greturns @slice_returns; [lia|lia|]. intros payload _. by apply returns_ret.
Qed.

(** ** Claims *)

(** Writing an IPv4 or IPv6 header into a buffer, whatever it held
    before, and parsing the packet gives back exactly the protocol, the two
    addresses and the bytes after the header; and the stored IPv4 header
    checksum verifies. *)
Theorem ip_header_roundtrip packet proto src dst :
  byte_ok proto -> bytes_ok src -> bytes_ok dst -> Z.of_nat (length packet) <= 65535 ->
  ((20 <= length packet)%nat -> length src = 4%nat -> length dst = 4%nat ->
   exists packet', writeIpv4Header packet proto src dst = Ret packet' /\ length packet' = length packet /\
     parseIpv4 packet' = Ret (Some (proto, src, dst, drop 20 packet)) /\
     checksumFinish (checksumAdd 0 (take 20 packet')) = 0) /\
  ((40 <= length packet)%nat -> length src = 16%nat -> length dst = 16%nat -> isIpv6ExtensionHeader proto = false ->
   exists packet', writeIpv6Header packet proto src dst = Ret packet' /\ length packet' = length packet /\
     parseIpv6 packet' = Ret (Some (proto, src, dst, drop 40 packet))).
Proof.
  intros Hp Hs Hd Hmax. split.
  - intros Hl Ls Ld. rewrite writeIpv4Header_spec by done. eexists. split; [done|].
    assert (Lh : forall n, length (ipv4_header n proto src dst) = 20%nat)
      by (intros; by apply ipv4_fields_length).
    split; [rewrite length_app, Lh, length_drop; lia|]. split.
    + apply parse_ipv4_fields; [done|done| |]; rewrite u16_small by lia; rewrite ?length_drop; lia.
    + rewrite take_app_length' by (symmetry; apply Lh). by apply ipv4_header_verifies.
  - intros Hl Ls Ld Hx. rewrite writeIpv6Header_spec by done. eexists. split; [done|].
    split; [rewrite length_app, ipv6_header_length, length_drop by done; lia|].
    apply parse_ipv6_header; [done|done| | |done]; rewrite u16_small by lia; rewrite ?length_drop; lia.
Qed.

Lemma ip_header_roundtrip_witness :
  (exists packet', writeIpv4Header (replicate 23 7) 17 [10; 0; 0; 1] [8; 8; 8; 8] = Ret packet' /\
     length packet' = 23%nat /\
     parseIpv4 packet' = Ret (Some (17, [10; 0; 0; 1], [8; 8; 8; 8], [7; 7; 7])) /\
     checksumFinish (checksumAdd 0 (take 20 packet')) = 0) /\
  (exists packet', writeIpv6Header (replicate 43 7) 17 (replicate 16 1) (replicate 16 2) = Ret packet' /\
     length packet' = 43%nat /\
     parseIpv6 packet' = Ret (Some (17, replicate 16 1, replicate 16 2, [7; 7; 7]))).
Proof.
  split.
  - apply (proj1 (ip_header_roundtrip (replicate 23 7) 17 [10; 0; 0; 1] [8; 8; 8; 8]
      ltac:(unfold byte_ok; lia) ltac:(apply (bool_decide_eq_true_1 _); reflexivity)
      ltac:(apply (bool_decide_eq_true_1 _); reflexivity) ltac:(vm_compute; discriminate)));
      [cbn; lia|reflexivity|reflexivity].
  - apply (proj2 (ip_header_roundtrip (replicate 43 7) 17 (replicate 16 1) (replicate 16 2)
      ltac:(unfold byte_ok; lia) ltac:(apply (bool_decide_eq_true_1 _); reflexivity)
      ltac:(apply (bool_decide_eq_true_1 _); reflexivity) ltac:(vm_compute; discriminate)));
      [cbn; lia|reflexivity|reflexivity|reflexivity].
Defined.

(** No byte sequence makes a packet parser panic: on any input each
    parser returns; a parsed IP packet's transport is a contiguous part of it
    after the header, UDP and TCP payloads lie inside their transport, and a
    TCP segment's advertised MSS and window scale are clamped to at least 536
    and at most 14. *)
Theorem parsers_total packet src dst version :
  bytes_ok packet ->
  returns (parseIpv4 packet) (parsed_inside 4 20 packet) /\
  returns (parseIpv6 packet) (parsed_inside 16 40 packet) /\
  returns (parseUdpPacket src dst packet) (fun r => forall u, r = Some u ->
    (length (udp_payload u) + 8 <= length packet)%nat) /\
  returns (parseTcpPacket src dst packet) (fun r => forall t, r = Some t ->
    (20 + length (options t) + length (tcp_payload t) = length packet)%nat /\
    (enableMss (tcp_options t) = true -> 536 <= mss (tcp_options t)) /\ windowScale (tcp_options t) <= 14) /\
  returns (parseIcmpPacket version src dst packet) (fun _ => True).
Proof.
  intros Hb. repeat split; auto using parseIpv4_returns, parseIpv6_returns, parseUdpPacket_returns,
    parseTcpPacket_returns, parseIcmpPacket_returns.
Qed.

Lemma parsers_total_witness :
  returns (parseTcpPacket [] [] (replicate 60 80)) (fun r => forall t, r = Some t ->
    (20 + length (options t) + length (tcp_payload t) = 60)%nat /\
    (enableMss (tcp_options t) = true -> 536 <= mss (tcp_options t)) /\ windowScale (tcp_options t) <= 14).
Proof.
  apply (parsers_total (replicate 60 80) [] [] 4). apply (bool_decide_eq_true_1 _). reflexivity.
Defined.

(** Parsing the option bytes of a segment computes, in order, the effect
    of every well formed option up to the first end-of-options octet or
    malformed option: a malformed tail never hides the options before it. *)
Theorem tcp_options_decode opts tail :
  Forall option_ok opts -> options_stop tail = true ->
  parseTcpOptions (encode_options opts ++ tail) = Ret (fold_left apply_option opts noTcpOptions).
Proof. apply parseTcpOptions_decode. Qed.

Lemma tcp_options_decode_witness :
  parseTcpOptions (encode_options [Option 2 [5; 160]; NoOperation; Option 3 [20]; Option 5 [1]] ++ [8; 10; 1]) =
    Ret (TcpOptions true 1440 true 14 false 0 0).
Proof.
  rewrite (tcp_options_decode [Option 2 [5; 160]; NoOperation; Option 3 [20]; Option 5 [1]] [8; 10; 1]).
  - reflexivity.
  - repeat constructor; cbn; try discriminate; lia.
  - reflexivity.
Defined.
