(* ===== verification/IpFlow.v ===== *)
(** The packets the user-space NAT sends toward a flow's source (src/ip.go:
    StreamState, ConnectionState; src/ip_icmp.go: echoReplyPacket). Every
    builder fills a pooled buffer completely: what it sends parses back to the
    flow's own addresses, ports, sequence numbers, flags, options and payload,
    with a transport checksum that verifies. Splitting a payload into segments
    keeps the byte stream. *)
From S2P Require Import Prelude GoIo Ipv6Ext IpWire.

(** The [switch self.ipVersion] every builder opens with; a version that is
    neither 4 nor 6 leaves the header size zero and writes no header. *)
Definition ipHeaderByteCount (ipVersion : Z) : nat :=
  if ipVersion =? 4 then Ipv4HeaderSizeWithoutExtensions else if ipVersion =? 6 then Ipv6HeaderSize else 0.

Definition writeIpHeader (ipVersion : Z) (packet : bytes) (ipProtocol : Z) (src dst : bytes) : go bytes :=
  if ipVersion =? 4 then writeIpv4Header packet ipProtocol src dst
  else if ipVersion =? 6 then writeIpv6Header packet ipProtocol src dst
  else Ret packet.

Definition writeTcpHeader (tcp : bytes) (sourcePort destinationPort seq ackNumber flags windowSize : Z)
    (options : bytes) : go bytes :=
  let! tcp := put_u16 tcp 0 sourcePort in
  let! tcp := put_u16 tcp 2 destinationPort in
  let! tcp := put_u32 tcp 4 seq in
  let! tcp := put_u32 tcp 8 ackNumber in
  let headerWordCount := 5 + (Z.of_nat (length options) + 3) / 4 in
  let! tcp := set_index tcp 12 (u8 (Z.shiftl headerWordCount 4)) in
  let! tcp := set_index tcp 13 flags in
  let! tcp := put_u16 tcp 14 windowSize in
  let! tcp := set_index tcp 16 0 in
  let! tcp := set_index tcp 17 0 in
  let! tcp := set_index tcp 18 0 in
  let! tcp := set_index tcp 19 0 in
  copy_into tcp 20 (length tcp) options.

Record StreamState := {
  ss_ipVersion : Z;
  ss_sourceIp : bytes;
  ss_sourcePort : Z;
  ss_destinationIp : bytes;
  ss_destinationPort : Z;
}.

Record ConnectionState := {
  cs_ipVersion : Z;
  cs_sourceIp : bytes;
  cs_sourcePort : Z;
  cs_destinationIp : bytes;
  cs_destinationPort : Z;
  cs_sendSeq : Z;
  cs_receiveSeq : Z;
  cs_enableWindowScale : bool;
  cs_windowSize : Z;
  cs_windowScale : Z;
  cs_enableTimestamp : bool;
  cs_timestampRecent : Z;
  cs_timestampOffset : Z;
  cs_peerMss : Z;
  cs_timestampValueForTest : option Z;
}.

Definition encodedWindowSize (c : ConnectionState) : Z :=
  u16 (Z.min (Z.shiftr (cs_windowSize c) (cs_windowScale c)) 65535).

(** [now]: the milliseconds since the process's timestamp epoch. *)
Definition timestampValue (c : ConnectionState) (now : Z) : Z :=
  match cs_timestampValueForTest c with
  | Some v => v
  | None => u32 (u32 (cs_timestampOffset c + u32 now) + 1)
  end.

(** [int32(a - b)] on 32-bit values. *)
Definition int32_diff (a b : Z) : Z :=
  let d := u32 (a - b) in if d <? 2147483648 then d else d - 4294967296.

Definition updateTimestampRecentWithLock (c : ConnectionState) (o : tcpOptions) : ConnectionState :=
  if negb (cs_enableTimestamp c) || negb (enableTimestamp o) then c
  else if (cs_timestampRecent c =? 0) || (0 <=? int32_diff (IpWire.timestampValue o) (cs_timestampRecent c)) then
    {| cs_ipVersion := cs_ipVersion c; cs_sourceIp := cs_sourceIp c; cs_sourcePort := cs_sourcePort c;
       cs_destinationIp := cs_destinationIp c; cs_destinationPort := cs_destinationPort c;
       cs_sendSeq := cs_sendSeq c; cs_receiveSeq := cs_receiveSeq c;
       cs_enableWindowScale := cs_enableWindowScale c; cs_windowSize := cs_windowSize c;
       cs_windowScale := cs_windowScale c; cs_enableTimestamp := cs_enableTimestamp c;
       cs_timestampRecent := IpWire.timestampValue o; cs_timestampOffset := cs_timestampOffset c;
       cs_peerMss := cs_peerMss c; cs_timestampValueForTest := cs_timestampValueForTest c |}
  else c.

Definition tcpTimestampOptionByteCount : nat := 12.

Definition tcpOptionsBytes (c : ConnectionState) (now : Z) : go bytes :=
  if negb (cs_enableTimestamp c) then Ret []
  else
    let options := replicate tcpTimestampOptionByteCount 0 in
    let! options := set_index options 0 1 in
    let! options := set_index options 1 1 in
    let! options := set_index options 2 8 in
    let! options := set_index options 3 10 in
    let! options := put_u32 options 4 (timestampValue c now) in
    put_u32 options 8 (cs_timestampRecent c).

Section builders.
Context `{MessagePool}.

(** The body the segment builders share: a pooled buffer sized for the
    headers and the payload, the IP header, the TCP header with its options,
    the payload (nothing for a pure control segment), and the checksum over
    the whole segment. The transport slice aliases the packet's tail, so the
    packet is the header bytes followed by it. *)
Definition tcp_segment (c : ConnectionState) (seq flags window : Z) (options payload : bytes) : go bytes :=
  let h := ipHeaderByteCount (cs_ipVersion c) in
  let tcpHeaderByteCount := (TcpHeaderSizeWithoutExtensions + length options)%nat in
  let packet := pool_get (h + tcpHeaderByteCount + length payload) in
  let! packet := writeIpHeader (cs_ipVersion c) packet ipProtocolNumberTcp (cs_destinationIp c) (cs_sourceIp c) in
  let! tcp := slice packet h (length packet) in
  let! tcp := writeTcpHeader tcp (u16 (cs_destinationPort c)) (u16 (cs_sourcePort c)) seq (cs_sendSeq c)
                flags window options in
  let! tcp := copy_into tcp tcpHeaderByteCount (length tcp) payload in
  let checksum := transportChecksum ipProtocolNumberTcp (cs_destinationIp c) (cs_sourceIp c) tcp in
  let! tcp := put_u16 tcp 16 checksum in
  Ret (take h packet ++ tcp).

(** [None] is the mtu error. *)
Definition SynAck (c : ConnectionState) (mtu now : Z) : go (option bytes) :=
  let optionsByteCount := (4 + (if cs_enableWindowScale c then 3 else 0) + (if cs_enableTimestamp c then 10 else 0))%nat in
  let paddedOptionsByteCount := Z.to_nat (Z.ldiff (Z.of_nat optionsByteCount + 3) 3) in
  let opts := replicate paddedOptionsByteCount 0 in
  let m := mtu - Z.of_nat (ipHeaderByteCount (cs_ipVersion c)) - Z.of_nat TcpHeaderSizeWithoutExtensions in
  if m <=? 0 then Ret None
  else
    let! opts := set_index opts 0 2 in
    let! opts := set_index opts 1 4 in
    let! opts := put_u16 opts 2 (u16 m) in
    let optionIndex := 4%nat in
    let! '(opts, optionIndex) :=
      (if cs_enableTimestamp c then
         let! opts := set_index opts optionIndex 8 in
         let! opts := set_index opts (optionIndex + 1) 10 in
         let! opts := put_u32 opts (optionIndex + 2) (timestampValue c now) in
         let! opts := put_u32 opts (optionIndex + 6) (cs_timestampRecent c) in
         Ret (opts, (optionIndex + 10)%nat)
       else Ret (opts, optionIndex)) in
    let! opts :=
      (if cs_enableWindowScale c then
         let! '(opts, optionIndex) :=
           (if cs_enableTimestamp c then
              let! opts := set_index opts optionIndex 1 in Ret (opts, (optionIndex + 1)%nat)
            else Ret (opts, optionIndex)) in
         let! opts := set_index opts optionIndex 3 in
         let! opts := set_index opts (optionIndex + 1) 3 in
         set_index opts (optionIndex + 2) (u8 (cs_windowScale c))
       else Ret opts) in
    let! packet := tcp_segment c (cs_receiveSeq c) (Z.lor tcpFlagSyn tcpFlagAck)
                     (u16 (Z.min (cs_windowSize c) 65535)) opts [] in
    Ret (Some packet).

Definition PureAck (c : ConnectionState) (now : Z) : go bytes :=
  let! options := tcpOptionsBytes c now in
  tcp_segment c (cs_receiveSeq c) tcpFlagAck (encodedWindowSize c) options [].

Definition FinAck (c : ConnectionState) (now : Z) : go bytes :=
  let! options := tcpOptionsBytes c now in
  tcp_segment c (cs_receiveSeq c) (Z.lor tcpFlagFin tcpFlagAck) (encodedWindowSize c) options [].

Definition RstAck (c : ConnectionState) : go bytes :=
  tcp_segment c (cs_receiveSeq c) (Z.lor tcpFlagRst tcpFlagAck) (encodedWindowSize c) [] [].

Definition tcpPacket (c : ConnectionState) (payload : bytes) (seq now : Z) : go bytes :=
  let! options := tcpOptionsBytes c now in
  tcp_segment c seq tcpFlagAck (encodedWindowSize c) options payload.

(** The segmentation loop; [clock k] is the time at which the [k]-th segment
    is stamped. Every round advances [i], so [n] rounds are enough. *)
Fixpoint data_loop (fuel : nat) (c : ConnectionState) (clock : nat -> Z) (payload : bytes)
    (n packetByteCount i k : nat) : go (list bytes) :=
  match fuel with
  | O => Ret []
  | S fuel =>
      if (i <? n)%nat then
        let j := Nat.min (i + packetByteCount) n in
        let! chunk := slice payload i j in
        let! packet := tcpPacket c chunk (u32 (cs_receiveSeq c + u32 (Z.of_nat i))) (clock k) in
        let! rest := data_loop fuel c clock payload n packetByteCount j (S k) in
        Ret (packet :: rest)
      else Ret []
  end.

Definition tcpHeaderOverhead (c : ConnectionState) : nat :=
  (ipHeaderByteCount (cs_ipVersion c) + TcpHeaderSizeWithoutExtensions +
   (if cs_enableTimestamp c then tcpTimestampOptionByteCount else 0))%nat.

Definition segmentByteCount (c : ConnectionState) (mtu : Z) : Z :=
  let headerByteCount := Z.of_nat (tcpHeaderOverhead c) in
  let packetByteCount := mtu - headerByteCount in
  let packetByteCount :=
    if negb (cs_peerMss c =? 0) then
      let optionByteCount := headerByteCount - Z.of_nat (ipHeaderByteCount (cs_ipVersion c)) -
                             Z.of_nat TcpHeaderSizeWithoutExtensions in
      Z.min packetByteCount (Z.max 1 (cs_peerMss c - optionByteCount))
    else packetByteCount in
  Z.max 1 packetByteCount.

(** ConnectionState.DataPackets *)
Definition tcpDataPackets (c : ConnectionState) (clock : nat -> Z) (payload : bytes) (n : nat) (mtu : Z)
    : go (option (list bytes)) :=
  if mtu <=? Z.of_nat (tcpHeaderOverhead c) then Ret None
  else
    let packetByteCount := Z.to_nat (segmentByteCount c mtu) in
    if (n <=? packetByteCount)%nat then
      let! chunk := slice payload 0 n in
      let! packet := tcpPacket c chunk (cs_receiveSeq c) (clock 0%nat) in
      Ret (Some [packet])
    else
      let! packets := data_loop n c clock payload n packetByteCount 0 0 in
      Ret (Some packets).

(** StreamState.udpPacket *)
Definition udpPacket (s : StreamState) (payload : bytes) : go bytes :=
  let h := ipHeaderByteCount (ss_ipVersion s) in
  let packet := pool_get (h + UdpHeaderSize + length payload) in
  let! packet := writeIpHeader (ss_ipVersion s) packet ipProtocolNumberUdp (ss_destinationIp s) (ss_sourceIp s) in
  let! udp := slice packet h (length packet) in
  let! udp := put_u16 udp 0 (u16 (ss_destinationPort s)) in
  let! udp := put_u16 udp 2 (u16 (ss_sourcePort s)) in
  let! udp := put_u16 udp 4 (u16 (Z.of_nat (UdpHeaderSize + length payload))) in
  let! udp := set_index udp 6 0 in
  let! udp := set_index udp 7 0 in
  let! udp := copy_into udp UdpHeaderSize (length udp) payload in
  let checksum := transportChecksum ipProtocolNumberUdp (ss_destinationIp s) (ss_sourceIp s) udp in
  let checksum := if checksum =? 0 then 65535 else checksum in
  let! udp := put_u16 udp 6 checksum in
  Ret (take h packet ++ udp).

(** IcmpSequence.echoReplyPacket; [None] when the reply exceeds the device
    mtu. Any version that is not 4 is answered as 6. *)
Definition echoReplyPacket (ipVersion : Z) (sourceIp destinationIp : bytes) (identifier : Z) (mtu : nat)
    (sequenceNumber : Z) (payload : bytes) : go (option bytes) :=
  let '(h, icmpType, ipProtocol) :=
    (if ipVersion =? 4 then (Ipv4HeaderSizeWithoutExtensions, icmp4TypeEchoReply, ipProtocolNumberIcmp4)
     else (Ipv6HeaderSize, icmp6TypeEchoReply, ipProtocolNumberIcmp6)) in
  let packetByteCount := (h + IcmpHeaderSize + length payload)%nat in
  if (mtu <? packetByteCount)%nat then Ret None
  else
    let packet := pool_get packetByteCount in
    let! packet :=
      (if ipVersion =? 4 then writeIpv4Header packet ipProtocol destinationIp sourceIp
       else writeIpv6Header packet ipProtocol destinationIp sourceIp) in
    let! icmp := slice packet h (length packet) in
    let! icmp := set_index icmp 0 icmpType in
    let! icmp := set_index icmp 1 0 in
    let! icmp := set_index icmp 2 0 in
    let! icmp := set_index icmp 3 0 in
    let! icmp := put_u16 icmp 4 identifier in
    let! icmp := put_u16 icmp 6 sequenceNumber in
    let! icmp := copy_into icmp IcmpHeaderSize (length icmp) payload in
    let checksum := if ipVersion =? 4 then checksumFinish (checksumAdd 0 icmp)
                    else transportChecksum ipProtocol destinationIp sourceIp icmp in
    let! icmp := put_u16 icmp 2 checksum in
    Ret (Some (take h packet ++ icmp)).
End builders.

(** ** What a receiver reads *)

(** The family's parser, and the largest packet its length field can name. *)
Definition parseIp (ipVersion : Z) (packet : bytes) : go (option (Z * bytes * bytes * bytes)) :=
  if ipVersion =? 4 then parseIpv4 packet else parseIpv6 packet.

Definition ip_limit (ipVersion : Z) : Z := if ipVersion =? 4 then 65535 else 65575.

Definition addresses_ok (ipVersion : Z) (src dst : bytes) : Prop :=
  bytes_ok src /\ bytes_ok dst /\
  ((ipVersion = 4 /\ length src = 4%nat /\ length dst = 4%nat) \/
   (ipVersion = 6 /\ length src = 16%nat /\ length dst = 16%nat)).

Definition ip_header (ipVersion total proto : Z) (src dst : bytes) : bytes :=
  if ipVersion =? 4 then ipv4_header (u16 total) proto src dst else ipv6_header (u16 (total - 40)) proto src dst.

Lemma ip_header_length v total proto src dst :
  addresses_ok v src dst -> length (ip_header v total proto src dst) = ipHeaderByteCount v.
Proof.
  intros (_ & _ & [(-> & Hs & Hd)|(-> & Hs & Hd)]); [by apply ipv4_fields_length|].
  by apply ipv6_header_length.
Qed.

Lemma writeIpHeader_spec v packet proto src dst :
  addresses_ok v src dst -> byte_ok proto -> (ipHeaderByteCount v <= length packet)%nat ->
  writeIpHeader v packet proto src dst =
    Ret (ip_header v (Z.of_nat (length packet)) proto src dst ++ drop (ipHeaderByteCount v) packet).
Proof.
  intros (_ & _ & [(-> & Hs & Hd)|(-> & Hs & Hd)]) Hp Hl.
  - by apply writeIpv4Header_spec.
  - by apply writeIpv6Header_spec.
Qed.

Lemma parseIp_header v total proto src dst transport :
  addresses_ok v src dst -> isIpv6ExtensionHeader proto = false ->
  total = Z.of_nat (ipHeaderByteCount v + length transport) -> total <= ip_limit v ->
  parseIp v (ip_header v total proto src dst ++ transport) = Ret (Some (proto, src, dst, transport)).
Proof.
  intros (_ & _ & [(-> & Hs & Hd)|(-> & Hs & Hd)]) Hx Ht Hm; unfold ip_limit in Hm; cbn in Hm, Ht.
  - apply parse_ipv4_fields; [done|done| |]; rewrite u16_small; lia.
  - apply parse_ipv6_header; [done|done| | |done]; rewrite u16_small; lia.
Qed.

Lemma addresses_wire v src dst : addresses_ok v src dst -> wire_ip src /\ wire_ip dst.
Proof. intros (Hs & Hd & [(_ & L1 & L2)|(_ & L1 & L2)]); unfold wire_ip; split; split; (done || lia). Qed.

Lemma addresses_swap v src dst : addresses_ok v src dst -> addresses_ok v dst src.
Proof. intros (Hs & Hd & [(? & L1 & L2)|(? & L1 & L2)]); split; [done| |done|]; split; auto. Qed.

(** A parsed TCP packet with the receiver's checksum over its segment. *)
Definition tcp_view (v : Z) (packet : bytes) : option (parsedTcp * Z) :=
  match parseIp v packet with
  | Ret (Some (proto, src, dst, transport)) =>
      if proto =? ipProtocolNumberTcp then
        match parseTcpPacket src dst transport with
        | Ret (Some t) => Some (t, transportChecksum proto src dst transport)
        | _ => None
        end
      else None
  | _ => None
  end.

Definition udp_view (v : Z) (packet : bytes) : option (parsedUdp * Z) :=
  match parseIp v packet with
  | Ret (Some (proto, src, dst, transport)) =>
      if proto =? ipProtocolNumberUdp then
        match parseUdpPacket src dst transport with
        | Ret (Some u) => Some (u, transportChecksum proto src dst transport)
        | _ => None
        end
      else None
  | _ => None
  end.

Definition tcp_fields (sp dp sq an off flags w c : Z) : bytes :=
  [byte_of sp 8; byte_of sp 0; byte_of dp 8; byte_of dp 0;
   byte_of sq 24; byte_of sq 16; byte_of sq 8; byte_of sq 0;
   byte_of an 24; byte_of an 16; byte_of an 8; byte_of an 0;
   off; flags; byte_of w 8; byte_of w 0; byte_of c 8; byte_of c 0; 0; 0].

Lemma writeTcpHeader_spec tcp sp dp sq an flags w opts :
  (20 + length opts <= length tcp)%nat ->
  writeTcpHeader tcp sp dp sq an flags w opts =
    Ret (tcp_fields sp dp sq an (u8 (Z.shiftl (5 + (Z.of_nat (length opts) + 3) / 4) 4)) flags w 0 ++
         opts ++ drop (20 + length opts) tcp).
Proof.
  intros Hl. destruct (length_split tcp 20 ltac:(lia)) as (a & b & -> & Ha).
  unfold writeTcpHeader. generalize (u8 (Z.shiftl (5 + (Z.of_nat (length opts) + 3) / 4) 4)). intros off.
  rewrite length_app in Hl. rewrite drop_app_ge by lia. rewrite Ha.
  replace (20 + length opts - 20)%nat with (length opts) by lia.
  cells a. transitivity (copy_into (tcp_fields sp dp sq an off flags w 0 ++ b) 20 (20 + length b) opts);
    [reflexivity|].
  apply copy_tail; [done|done|]. cbn in Hl. lia.
Qed.

Lemma parse_tcp_fields src dst sp dp sq an flags w c opts payload o :
  0 <= sp < 65536 -> 0 <= dp < 65536 -> 0 <= sq < 4294967296 -> 0 <= an < 4294967296 -> 0 <= w < 65536 ->
  (length opts <= 40)%nat -> (length opts mod 4 = 0)%nat -> parseTcpOptions opts = Ret o ->
  parseTcpPacket src dst
    (tcp_fields sp dp sq an (u8 (Z.shiftl (5 + (Z.of_nat (length opts) + 3) / 4) 4)) flags w c ++ opts ++ payload) =
  Ret (Some (ParsedTcp src dst sp dp
    (negb (Z.land flags 1 =? 0)) (negb (Z.land flags 2 =? 0)) (negb (Z.land flags 4 =? 0))
    (negb (Z.land flags 8 =? 0)) (negb (Z.land flags 16 =? 0)) sq an w opts o payload)).
Proof.
  intros Hsp Hdp Hsq Han Hw Hl Hm Ho. set (off := u8 _).
  assert (Eoff : (Z.to_nat (Z.shiftr off 4) * 4 = 20 + length opts)%nat).
  { subst off. pose proof (Nat.div_mod_eq (length opts) 4) as Hdm. rewrite Hm in Hdm.
    set (q := (length opts / 4)%nat) in *. rewrite Hdm in *.
    replace ((Z.of_nat (4 * q + 0) + 3) / 4) with (Z.of_nat q)
      by (apply (Z.div_unique _ 4 _ 3); lia).
    rewrite Z.shiftl_mul_pow2, u8_small, Z.shiftr_div_pow2, Z.div_mul by lia. lia. }
  set (t := tcp_fields _ _ _ _ _ _ _ _ ++ _).
  assert (Lt : length t = (20 + length opts + length payload)%nat) by (subst t; rewrite !length_app; cbn; lia).
  assert (E0 : get_u16 t 0 = Ret sp) by (unfold get_u16; cbn; by rewrite be16_split).
  assert (E2 : get_u16 t 2 = Ret dp) by (unfold get_u16; cbn; by rewrite be16_split).
  assert (E4 : get_u32 t 4 = Ret sq) by (unfold get_u32; cbn; by rewrite be32_split).
  assert (E8 : get_u32 t 8 = Ret an) by (unfold get_u32; cbn; by rewrite be32_split).
  assert (E14 : get_u16 t 14 = Ret w) by (unfold get_u16; cbn; by rewrite be16_split).
  assert (Es : slice t 20 (20 + length opts) = Ret opts).
  { rewrite slice_ret by lia. replace (20 + length opts - 20)%nat with (length opts) by lia.
    subst t. rewrite drop_app_length' by done. by rewrite take_app_length. }
  assert (Ep : slice t (20 + length opts) (length t) = Ret payload).
  { subst t. rewrite app_assoc. apply slice_cut; rewrite !length_app; done. }
  unfold parseTcpPacket. rewrite E0, E2, E4, E8, E14.
  change (index t 12) with (@Ret Z off). change (index t 13) with (@Ret Z flags). cbn [gbind].
  rewrite Eoff. unfold TcpHeaderSizeWithoutExtensions.
  rewrite !(proj2 (Nat.ltb_ge _ _)) by lia. cbn [orb]. rewrite Es. cbn [gbind]. rewrite Ho, Ep. done.
Qed.

(** ** Every segment reads back *)

Definition connection_ok (c : ConnectionState) : Prop :=
  addresses_ok (cs_ipVersion c) (cs_sourceIp c) (cs_destinationIp c) /\
  0 <= cs_sourcePort c < 65536 /\ 0 <= cs_destinationPort c < 65536 /\
  0 <= cs_sendSeq c < 4294967296 /\ 0 <= cs_receiveSeq c < 4294967296 /\
  0 <= cs_windowSize c < 4294967296 /\ 0 <= cs_windowScale c < 4294967296 /\
  0 <= cs_timestampRecent c < 4294967296 /\ 0 <= cs_timestampOffset c < 4294967296 /\
  0 <= cs_peerMss c < 4294967296 /\
  (forall v, cs_timestampValueForTest c = Some v -> 0 <= v < 4294967296).

(** The view a segment with these contents must have. *)
Definition segment_view (c : ConnectionState) (seq flags window : Z) (opts : bytes) (o : tcpOptions)
    (payload : bytes) : parsedTcp :=
  ParsedTcp (cs_destinationIp c) (cs_sourceIp c) (cs_destinationPort c) (cs_sourcePort c)
    (negb (Z.land flags 1 =? 0)) (negb (Z.land flags 2 =? 0)) (negb (Z.land flags 4 =? 0))
    (negb (Z.land flags 8 =? 0)) (negb (Z.land flags 16 =? 0)) seq (cs_sendSeq c) window opts o payload.

Section proofs.
Context `{MessagePool}.

Lemma tcp_segment_spec c seq flags window opts payload o :
  connection_ok c -> 0 <= seq < 4294967296 -> byte_ok flags -> 0 <= window < 65536 ->
  bytes_ok opts -> (length opts <= 40)%nat -> (length opts mod 4 = 0)%nat -> parseTcpOptions opts = Ret o ->
  bytes_ok payload ->
  Z.of_nat (ipHeaderByteCount (cs_ipVersion c) + 20 + length opts + length payload) <= ip_limit (cs_ipVersion c) ->
  returns (tcp_segment c seq flags window opts payload) (fun packet =>
    length packet = (ipHeaderByteCount (cs_ipVersion c) + 20 + length opts + length payload)%nat /\
    tcp_view (cs_ipVersion c) packet = Some (segment_view c seq flags window opts o payload, 0)).
Proof.
  intros (Ha & Hsp & Hdp & Han & _) Hsq Hfl Hw Hbo Hlo Hmo Ho Hbp Hlim.
  apply addresses_swap in Ha as Hsw. destruct (addresses_wire _ _ _ Ha) as [Hws Hwd].
  set (v := cs_ipVersion c) in *. set (h := ipHeaderByteCount v) in *.
  unfold tcp_segment. fold v. fold h. unfold TcpHeaderSizeWithoutExtensions.
  set (buf := pool_get _). assert (Lb : length buf = (h + (20 + length opts) + length payload)%nat)
    by apply pool_get_length.
  rewrite writeIpHeader_spec by (done || (unfold byte_ok, ipProtocolNumberTcp; lia) || (fold h; lia)).
  cbn [gbind]. fold h. set (hd := ip_header v _ _ _ _).
  assert (Lh : length hd = h) by by apply ip_header_length.
  rewrite slice_cut; [|done|by rewrite length_app]. cbn [gbind].
  assert (Ld : length (drop h buf) = (20 + length opts + length payload)%nat) by (rewrite length_drop; lia).
  rewrite writeTcpHeader_spec by lia. cbn [gbind].
  set (off := u8 _). rewrite !u16_small by done. set (rest := drop _ (drop h buf)).
  assert (Lr : length rest = length payload) by (unfold rest; rewrite length_drop; lia).
  rewrite app_assoc. erewrite copy_tail; [|rewrite length_app; done|by rewrite length_app|lia]. cbn [gbind].
  rewrite (drop_ge rest), app_nil_r, <- app_assoc by lia. set (body := opts ++ payload).
  set (sum := transportChecksum _ _ _ _).
  rewrite take_app_length' by (symmetry; done).
  exists (hd ++ tcp_fields (cs_destinationPort c) (cs_sourcePort c) seq (cs_sendSeq c) off flags window sum ++ body).
  split; [done|]. split; [rewrite !length_app, Lh; cbn; unfold body; rewrite length_app; lia|].
  unfold tcp_view, hd. rewrite parseIp_header; [|done|done| |].
  2:{ rewrite Lb. unfold body. rewrite !length_app. cbn [tcp_fields length]. fold h. lia. }
  2:{ rewrite Lb. lia. }
  change (ipProtocolNumberTcp =? ipProtocolNumberTcp) with true. cbn match. unfold body at 1, off.
  rewrite (parse_tcp_fields _ _ _ _ _ _ _ _ _ _ _ o) by done. f_equal. f_equal. fold off.
  assert (Hoff : byte_ok off) by apply u8_range.
  assert (H0 : byte_ok 0) by (unfold byte_ok; lia).
  assert (Hbb : bytes_ok body) by (apply bytes_ok_app; done).
  set (pre := take 16 (tcp_fields (cs_destinationPort c) (cs_sourcePort c) seq (cs_sendSeq c) off flags window 0)).
  change (tcp_fields _ _ _ _ _ _ _ sum ++ body) with (pre ++ byte_of sum 8 :: byte_of sum 0 :: 0 :: 0 :: body).
  apply transport_verifies; try done.
  - unfold pre. cbn [take tcp_fields]. apply bytes_ok_app. split; [explicit_bytes|]. by repeat apply Forall_cons_2.
  - exists 8%nat. done.
  - rewrite length_app. cbn [length pre take tcp_fields]. unfold body. rewrite length_app.
    unfold ip_limit in Hlim. destruct (v =? 4); lia.
  - by left.
Qed.

Lemma timestampValue_range c now : connection_ok c -> 0 <= timestampValue c now < 4294967296.
Proof.
  intros Hc. unfold timestampValue. destruct (cs_timestampValueForTest c) eqn:E; [by apply Hc|apply u32_range].
Qed.

(** RFC 7323: the timestamp option on every segment but a reset. *)
Definition connection_options (c : ConnectionState) (now : Z) : tcpOptions :=
  if cs_enableTimestamp c
  then TcpOptions false 0 false 0 true (timestampValue c now) (cs_timestampRecent c)
  else noTcpOptions.

Definition u32_wire (v : Z) : bytes := [byte_of v 24; byte_of v 16; byte_of v 8; byte_of v 0].

Definition connection_option_bytes (c : ConnectionState) (now : Z) : bytes :=
  if cs_enableTimestamp c
  then [1; 1; 8; 10] ++ u32_wire (timestampValue c now) ++ u32_wire (cs_timestampRecent c)
  else [].

Lemma tcpOptionsBytes_spec c now :
  connection_ok c ->
  let opts := connection_option_bytes c now in
  tcpOptionsBytes c now = Ret opts /\ parseTcpOptions opts = Ret (connection_options c now) /\
  bytes_ok opts /\ length opts = (if cs_enableTimestamp c then 12 else 0)%nat.
Proof.
  intros Hc. pose proof (timestampValue_range c now Hc) as Ht.
  destruct Hc as (_ & _ & _ & _ & _ & _ & _ & Hr & _).
  unfold connection_option_bytes, connection_options, tcpOptionsBytes. destruct (cs_enableTimestamp c); cbn [negb].
  2:{ repeat split; try done; apply Forall_nil_2. }
  generalize dependent (timestampValue c now). generalize dependent (cs_timestampRecent c). intros r Hr t Ht.
  split; [done|]. split; [|split; [unfold u32_wire; explicit_bytes|done]].
  pose proof (parseTcpOptions_decode [NoOperation; NoOperation; Option 8 (u32_wire t ++ u32_wire r)] []) as E.
  rewrite app_nil_r in E. etransitivity; [apply E; [|done]|].
  - repeat constructor; cbn; lia.
  - cbn. by rewrite !be32_split.
Qed.

Lemma encodedWindowSize_range c : 0 <= encodedWindowSize c < 65536.
Proof. apply u16_range. Qed.

Lemma option_bytes_aligned c now :
  connection_ok c ->
  (length (connection_option_bytes c now) <= 40)%nat /\ (length (connection_option_bytes c now) mod 4 = 0)%nat.
Proof. intros Hc. destruct (tcpOptionsBytes_spec c now Hc) as (_ & _ & _ & ->). destruct (cs_enableTimestamp c); cbn; lia. Qed.

Lemma header_overhead_limit c now :
  connection_ok c ->
  Z.of_nat (ipHeaderByteCount (cs_ipVersion c) + 20 + length (connection_option_bytes c now)) <= 72 /\
  72 <= ip_limit (cs_ipVersion c).
Proof.
  intros Hc. destruct (tcpOptionsBytes_spec c now Hc) as (_ & _ & _ & ->).
  unfold ipHeaderByteCount, ip_limit. destruct (cs_ipVersion c =? 4), (cs_ipVersion c =? 6), (cs_enableTimestamp c); cbn; lia.
Qed.

Lemma tcpPacket_spec c payload seq now :
  connection_ok c -> 0 <= seq < 4294967296 -> bytes_ok payload ->
  Z.of_nat (tcpHeaderOverhead c + length payload) <= ip_limit (cs_ipVersion c) ->
  returns (tcpPacket c payload seq now) (fun packet =>
    length packet = (tcpHeaderOverhead c + length payload)%nat /\
    tcp_view (cs_ipVersion c) packet =
      Some (segment_view c seq tcpFlagAck (encodedWindowSize c) (connection_option_bytes c now)
              (connection_options c now) payload, 0)).
Proof.
  intros Hc Hs Hp Hl. destruct (tcpOptionsBytes_spec c now Hc) as (Eb & Eo & Hb & Lb).
  destruct (option_bytes_aligned c now Hc) as [H40 H4].
  assert (Lt : tcpHeaderOverhead c =
    (ipHeaderByteCount (cs_ipVersion c) + 20 + length (connection_option_bytes c now))%nat)
    by (rewrite Lb; reflexivity).
  unfold tcpPacket. rewrite Eb. cbn [gbind]. rewrite Lt in *.
  apply tcp_segment_spec; auto using encodedWindowSize_range. unfold byte_ok, tcpFlagAck. lia.
Qed.

(** ** Segmentation *)

(** The segments of [payload[i:n]] cut every [size] bytes. *)
Fixpoint chunks (fuel : nat) (payload : bytes) (n size i : nat) : list (nat * bytes) :=
  match fuel with
  | O => []
  | S fuel =>
      if (i <? n)%nat then
        let j := Nat.min (i + size) n in
        (i, take (j - i) (drop i payload)) :: chunks fuel payload n size j
      else []
  end.

Lemma chunks_concat fuel payload n size i :
  (1 <= size)%nat -> (n <= length payload)%nat -> (n - i <= fuel)%nat ->
  concat (chunks fuel payload n size i).*2 = take (n - i) (drop i payload) /\
  Forall (fun ch => (0 < length ch.2 <= size)%nat) (chunks fuel payload n size i).
Proof.
  intros Hs Hn. revert i. induction fuel as [|fuel IH]; intros i Hf.
  - cbn. replace (n - i)%nat with 0%nat by lia. done.
  - cbn [chunks]. destruct (Nat.ltb_spec i n).
    2:{ replace (n - i)%nat with 0%nat by lia. done. }
    set (j := Nat.min (i + size) n). destruct (IH j ltac:(lia)) as [E1 E2]. split.
    + cbn [fmap list_fmap concat snd]. rewrite E1.
      replace (drop j payload) with (drop (j - i) (drop i payload)) by (rewrite drop_drop; f_equal; lia).
      replace (n - i)%nat with ((j - i) + (n - j))%nat by lia. by rewrite take_take_drop.
    + constructor; [|done]. cbn. rewrite length_take, length_drop. lia.
Qed.

Lemma data_loop_spec fuel c clock payload n size i k :
  connection_ok c -> bytes_ok payload -> (1 <= size)%nat -> (n <= length payload)%nat ->
  Z.of_nat (tcpHeaderOverhead c + size) <= ip_limit (cs_ipVersion c) ->
  returns (data_loop fuel c clock payload n size i k) (fun packets =>
    Forall2 (fun packet '(k, (i, chunk)) =>
      length packet = (tcpHeaderOverhead c + length chunk)%nat /\
      tcp_view (cs_ipVersion c) packet =
        Some (segment_view c (u32 (cs_receiveSeq c + Z.of_nat i)) tcpFlagAck (encodedWindowSize c)
                (connection_option_bytes c (clock k)) (connection_options c (clock k)) chunk, 0))
      packets (zip (List.seq k (length (chunks fuel payload n size i))) (chunks fuel payload n size i))).
Proof.
  intros Hc Hp Hs Hn Hl. revert i k. induction fuel as [|fuel IH]; intros i k; cbn [data_loop chunks].
  { apply returns_ret. constructor. }
  destruct (Nat.ltb_spec i n) as [Hi|]; [|apply returns_ret; constructor].
  set (j := Nat.min (i + size) n).
  greturns @slice_returns; [lia|lia|]. intros chunk [-> Lc].
  greturns tcpPacket_spec; [done|apply u32_range|by apply bytes_ok_take, bytes_ok_drop|rewrite Lc; lia|].
  intros packet [Lp Hv].
  greturns IH. intros rest Hr. apply returns_ret. cbn [length List.seq zip zip_with].
  constructor; [|done]. split; [done|]. rewrite Hv. f_equal. f_equal. f_equal.
  unfold u32. by rewrite Zplus_mod_idemp_r.
Qed.

Lemma chunks_offset fuel payload n size i k o ch :
  chunks fuel payload n size i !! k = Some (o, ch) -> (1 <= size)%nat -> (n <= length payload)%nat ->
  o = (i + length (concat (take k (chunks fuel payload n size i).*2)))%nat.
Proof.
  revert i k. induction fuel as [|fuel IH]; intros i k Hk Hs Hn; [done|]. cbn [chunks] in *.
  destruct (Nat.ltb_spec i n); [|done]. destruct k as [|k]; [cbn in Hk; simplify_eq; cbn; lia|].
  cbn in Hk. rewrite (IH _ _ Hk Hs Hn). cbn [fmap list_fmap take snd concat].
  rewrite length_app, length_take, length_drop. unfold fmap. lia.
Qed.

(** A data segment of the connection's own flow. *)
Definition flow_segment (c : ConnectionState) (t : parsedTcp) : Prop :=
  tcp_sourceIp t = cs_destinationIp c /\ tcp_destinationIp t = cs_sourceIp c /\
  tcp_sourcePort t = cs_destinationPort c /\ tcp_destinationPort t = cs_sourcePort c /\
  ackNumber t = cs_sendSeq c /\ windowSize t = encodedWindowSize c /\
  (fin t, syn t, rst t, psh t, ack t) = (false, false, false, false, true) /\
  enableTimestamp (tcp_options t) = cs_enableTimestamp c.

(** The packets carry [data] as consecutive segments from the connection's
    receive sequence on. *)
Definition carries (c : ConnectionState) (mtu : Z) (size : nat) (packets : list bytes) (data : bytes) : Prop :=
  exists segs,
    Forall2 (fun packet t => tcp_view (cs_ipVersion c) packet = Some (t, 0) /\
               Z.of_nat (length packet) <= mtu /\ (length (tcp_payload t) <= size)%nat /\ flow_segment c t)
      packets segs /\
    concat (map tcp_payload segs) = data /\
    forall k t, segs !! k = Some t ->
      seq t = u32 (cs_receiveSeq c + Z.of_nat (length (concat (take k (map tcp_payload segs))))).

Lemma Forall2_with_r {A B} (P : A -> B -> Prop) (Q : B -> Prop) l k :
  Forall2 P l k -> Forall Q k -> Forall2 (fun x y => P x y /\ Q y) l k.
Proof. induction 1; intros HQ; constructor; inversion HQ; auto. Qed.

Lemma carries_chunks c clock mtu size packets (chs : list (nat * bytes)) data :
  Z.of_nat (tcpHeaderOverhead c + size) <= mtu ->
  Forall2 (fun packet '(k, (i, chunk)) =>
      length packet = (tcpHeaderOverhead c + length chunk)%nat /\
      tcp_view (cs_ipVersion c) packet =
        Some (segment_view c (u32 (cs_receiveSeq c + Z.of_nat i)) tcpFlagAck (encodedWindowSize c)
                (connection_option_bytes c (clock k)) (connection_options c (clock k)) chunk, 0))
      packets (zip (List.seq 0 (length chs)) chs) ->
  concat chs.*2 = data -> Forall (fun ch => (length ch.2 <= size)%nat) chs ->
  (forall k o ch, chs !! k = Some (o, ch) -> o = length (concat (take k chs.*2))) ->
  carries c mtu size packets data.
Proof.
  intros Hmtu Hf Hc Hsz Ho.
  set (view := fun x : nat * (nat * bytes) => let '(k, (i, chunk)) := x in
    segment_view c (u32 (cs_receiveSeq c + Z.of_nat i)) tcpFlagAck (encodedWindowSize c)
      (connection_option_bytes c (clock k)) (connection_options c (clock k)) chunk).
  exists (map view (zip (List.seq 0 (length chs)) chs)).
  assert (Ep : map tcp_payload (map view (zip (List.seq 0 (length chs)) chs)) = chs.*2).
  { rewrite List.map_map. transitivity ((zip (List.seq 0 (length chs)) chs).*2.*2).
    - rewrite <- list_fmap_compose. apply list_fmap_ext. by intros ? [? [? ?]] _.
    - by rewrite snd_zip by (rewrite length_seq; lia). }
  rewrite Ep. split; [|split; [done|]].
  - assert (Hz : Forall (fun x => (length x.2.2 <= size)%nat) (zip (List.seq 0 (length chs)) chs)).
    { apply Forall_lookup_2. intros q [k [i ch]] Hq. apply lookup_zip_Some in Hq as [_ Hq].
      apply (Forall_lookup_1 _ _ _ _ Hsz Hq). }
    apply Forall2_fmap_r. eapply Forall2_impl; [|exact (Forall2_with_r _ _ _ _ Hf Hz)].
    intros packet [k [i ch]] [[Lp Hv] Hl]. cbn in *. split; [done|]. split; [lia|]. split; [done|].
    unfold flow_segment. cbn. repeat split; try done. unfold connection_options. by destruct (cs_enableTimestamp c).
  - intros k t Ht. change (map view ?l) with (view <$> l) in Ht.
    apply list_lookup_fmap_Some in Ht as ([q [i ch]] & -> & Hq).
    apply lookup_zip_Some in Hq as [_ Hq]. cbn. by rewrite (Ho _ _ _ Hq).
Qed.

Lemma segmentByteCount_bounds c mtu :
  Z.of_nat (tcpHeaderOverhead c) < mtu ->
  1 <= segmentByteCount c mtu /\ Z.of_nat (tcpHeaderOverhead c) + segmentByteCount c mtu <= mtu /\
  (cs_peerMss c <> 0 -> segmentByteCount c mtu <= Z.max 1 (cs_peerMss c)).
Proof.
  intros Hm. unfold segmentByteCount.
  assert (Z.of_nat (ipHeaderByteCount (cs_ipVersion c)) + Z.of_nat TcpHeaderSizeWithoutExtensions
          <= Z.of_nat (tcpHeaderOverhead c)) by (unfold tcpHeaderOverhead; lia).
  destruct (Z.eqb_spec (cs_peerMss c) 0); cbn [negb]; lia.
Qed.

Lemma tcpDataPackets_spec c clock payload n mtu :
  connection_ok c -> bytes_ok payload -> (n <= length payload)%nat ->
  Z.of_nat (tcpHeaderOverhead c) < mtu <= ip_limit (cs_ipVersion c) ->
  returns (tcpDataPackets c clock payload n mtu) (fun r =>
    exists packets, r = Some packets /\
      carries c mtu (Z.to_nat (segmentByteCount c mtu)) packets (take n payload)).
Proof.
  intros Hc Hp Hn Hm. destruct (segmentByteCount_bounds c mtu ltac:(lia)) as (H1 & H2 & _).
  unfold tcpDataPackets. rewrite (proj2 (Z.leb_gt _ _)) by lia.
  set (size := Z.to_nat (segmentByteCount c mtu)) in *.
  assert (Hsize : Z.of_nat (tcpHeaderOverhead c + size) <= mtu) by lia.
  destruct (Nat.leb_spec n size) as [Hle|Hgt].
  - greturns @slice_returns; [lia|lia|]. rewrite Nat.sub_0_r, drop_0. intros chunk [-> Lc].
    destruct Hc as (Ha & Hs & Hd & Hss & Hrs & Hc). assert (connection_ok c) as Hc' by done.
    greturns tcpPacket_spec; [done|done|by apply bytes_ok_take|rewrite Lc; lia|]. intros packet [Lp Hv].
    apply returns_ret. exists [packet]. split; [done|].
    apply (carries_chunks c clock _ _ _ [(0%nat, take n payload)]); [done| | | |].
    + constructor; [|constructor]. split; [done|]. rewrite Hv, Z.add_0_r, u32_small by done. done.
    + cbn. by rewrite app_nil_r.
    + constructor; [|constructor]. cbn. lia.
    + intros [|k] o ch Hk; [by simplify_eq/=|done].
  - greturns data_loop_spec; [done|done|lia|done|lia|]. intros packets Hf. apply returns_ret.
    exists packets. split; [done|]. destruct (chunks_concat n payload n size 0 ltac:(lia) Hn ltac:(lia)) as [E1 E2].
    apply (carries_chunks c clock _ _ _ (chunks n payload n size 0)); [done|done| | |].
    + by rewrite E1, Nat.sub_0_r, drop_0.
    + eapply Forall_impl; [|exact E2]. intros [o ch] ?. cbn in *. lia.
    + intros k o ch Hk. apply (chunks_offset _ _ _ _ _ _ _ _ Hk); [lia|done].
Qed.

(** ** Claims *)

(** C38: Sending a payload on a connection: whenever the mtu leaves room for
    the headers, DataPackets returns packets that each parse as a segment of
    the flow itself, addressed from its destination to its source, with only
    ACK set and a checksum that verifies; no packet exceeds the mtu, no segment
    exceeds the segment size derived from the peer's MSS, the payloads
    concatenated are exactly the payload, and every segment's sequence number
    is the receive sequence plus the bytes before it, modulo 2^32. *)
Theorem tcp_data_packets c clock payload n mtu :
  connection_ok c -> bytes_ok payload -> (n <= length payload)%nat ->
  Z.of_nat (tcpHeaderOverhead c) < mtu <= ip_limit (cs_ipVersion c) ->
  exists packets, tcpDataPackets c clock payload n mtu = Ret (Some packets) /\
    carries c mtu (Z.to_nat (segmentByteCount c mtu)) packets (take n payload) /\
    (cs_peerMss c <> 0 -> segmentByteCount c mtu <= Z.max 1 (cs_peerMss c)).
Proof.
  intros Hc Hp Hn Hm. destruct (tcpDataPackets_spec c clock payload n mtu Hc Hp Hn Hm) as (r & E & packets & -> & H1).
  exists packets. split; [done|]. split; [done|]. apply segmentByteCount_bounds. lia.
Qed.

Definition control_view (c : ConnectionState) (flags : Z) (opts : bytes) (o : tcpOptions) : option (parsedTcp * Z) :=
  Some (segment_view c (cs_receiveSeq c) flags (encodedWindowSize c) opts o [], 0).

Lemma control_segment c flags opts o :
  connection_ok c -> byte_ok flags -> bytes_ok opts -> (length opts <= 12)%nat -> (length opts mod 4 = 0)%nat ->
  parseTcpOptions opts = Ret o ->
  returns (tcp_segment c (cs_receiveSeq c) flags (encodedWindowSize c) opts []) (fun packet =>
    tcp_view (cs_ipVersion c) packet = control_view c flags opts o).
Proof.
  intros Hc Hf Hb Hl Hm Ho. pose proof Hc as (_ & _ & _ & _ & Hr & _).
  eapply returns_weaken; [apply tcp_segment_spec; eauto using encodedWindowSize_range|].
  - lia.
  - apply Forall_nil_2.
  - cbn [length]. unfold ip_limit, ipHeaderByteCount.
    destruct (cs_ipVersion c =? 4), (cs_ipVersion c =? 6); unfold Ipv4HeaderSizeWithoutExtensions, Ipv6HeaderSize; lia.
  - by intros packet [_ Hv].
Qed.

(** Every control segment of a connection parses back as that segment of
    the flow with a checksum that verifies and nothing of the pooled buffer's
    previous contents: a pure ACK, a FIN-ACK and a RST-ACK carry the receive
    and send sequence, exactly their flags and the encoded window; the first
    two carry the negotiated timestamp option and the reset carries none. *)
Theorem tcp_control_segments c now :
  connection_ok c ->
  (exists p, PureAck c now = Ret p /\ tcp_view (cs_ipVersion c) p =
     control_view c tcpFlagAck (connection_option_bytes c now) (connection_options c now)) /\
  (exists p, FinAck c now = Ret p /\ tcp_view (cs_ipVersion c) p =
     control_view c 17 (connection_option_bytes c now) (connection_options c now)) /\
  (exists p, RstAck c = Ret p /\ tcp_view (cs_ipVersion c) p = control_view c 20 [] noTcpOptions).
Proof.
  intros Hc. destruct (tcpOptionsBytes_spec c now Hc) as (Eb & Eo & Hb & Lb).
  destruct (option_bytes_aligned c now Hc) as [_ H4].
  assert (H12 : (length (connection_option_bytes c now) <= 12)%nat) by (rewrite Lb; destruct (cs_enableTimestamp c); lia).
  unfold PureAck, FinAck, RstAck. rewrite Eb. cbn [gbind].
  split; [|split]; apply control_segment; (done || (unfold byte_ok, tcpFlagAck; cbn; lia) || (cbn; lia) || apply Forall_nil_2).
Qed.

(** The options a SYN-ACK announces. *)
Definition syn_options (c : ConnectionState) (m now : Z) : tcpOptions :=
  TcpOptions true (Z.max m 536)
    (cs_enableWindowScale c) (if cs_enableWindowScale c then Z.min (u8 (cs_windowScale c)) 14 else 0)
    (cs_enableTimestamp c) (if cs_enableTimestamp c then timestampValue c now else 0)
    (if cs_enableTimestamp c then cs_timestampRecent c else 0).

Definition syn_option_list (c : ConnectionState) (m now : Z) : list tcpOption :=
  [Option 2 [byte_of m 8; byte_of m 0]] ++
  (if cs_enableTimestamp c then [Option 8 (u32_wire (timestampValue c now) ++ u32_wire (cs_timestampRecent c))] else []) ++
  (if cs_enableWindowScale c
   then (if cs_enableTimestamp c then [NoOperation] else []) ++ [Option 3 [u8 (cs_windowScale c)]] else []).

Definition syn_padding (c : ConnectionState) : bytes :=
  match cs_enableTimestamp c, cs_enableWindowScale c with
  | false, false => []
  | false, true => [0]
  | true, _ => [0; 0]
  end.

Definition syn_bytes (c : ConnectionState) (m now : Z) : bytes :=
  encode_options (syn_option_list c m now) ++ syn_padding c.

Lemma syn_bytes_spec c m now :
  connection_ok c -> 0 <= m < 65536 ->
  let opts := syn_bytes c m now in
  parseTcpOptions opts = Ret (syn_options c m now) /\ bytes_ok opts /\
  (length opts <= 20)%nat /\ (length opts mod 4 = 0)%nat.
Proof.
  intros Hc Hm. pose proof (timestampValue_range c now Hc) as Ht.
  destruct Hc as (_ & _ & _ & _ & _ & _ & _ & Hr & _). cbn zeta. split.
  - unfold syn_bytes. rewrite parseTcpOptions_decode.
    + unfold syn_options, syn_option_list. destruct (cs_enableTimestamp c), (cs_enableWindowScale c);
        cbn -[be16 be32 u8 byte_of]; by rewrite ?be16_split, ?be32_split.
    + unfold syn_option_list. destruct (cs_enableTimestamp c), (cs_enableWindowScale c); repeat constructor; cbn; lia.
    + unfold syn_padding. by destruct (cs_enableTimestamp c), (cs_enableWindowScale c).
  - unfold syn_bytes, syn_option_list, syn_padding, u32_wire.
    pose proof (u8_range (cs_windowScale c)) as Hu.
    destruct (cs_enableTimestamp c), (cs_enableWindowScale c); cbn -[byte_of u8];
      (split; [explicit_bytes|split; [lia|done]]).
Qed.

Lemma SynAck_unfold c mtu now :
  let m := mtu - Z.of_nat (ipHeaderByteCount (cs_ipVersion c)) - 20 in
  SynAck c mtu now =
    if m <=? 0 then Ret None
    else let! p := tcp_segment c (cs_receiveSeq c) 18 (u16 (Z.min (cs_windowSize c) 65535)) (syn_bytes c (u16 m) now) [] in
         Ret (Some p).
Proof.
  cbn zeta. unfold SynAck, syn_bytes, syn_option_list, syn_padding.
  change (Z.of_nat TcpHeaderSizeWithoutExtensions) with 20. change (Z.lor tcpFlagSyn tcpFlagAck) with 18.
  generalize (mtu - Z.of_nat (ipHeaderByteCount (cs_ipVersion c)) - 20). intros m.
  destruct (m <=? 0); [done|].
  generalize (u16 m), (timestampValue c now), (cs_timestampRecent c), (u8 (cs_windowScale c)),
    (u16 (Z.min (cs_windowSize c) 65535)).
  intros z t r w win. destruct (cs_enableTimestamp c), (cs_enableWindowScale c); reflexivity.
Qed.

(** A SYN-ACK on an mtu with room for the fixed headers parses back as
    the flow's SYN-ACK with a verifying checksum, an unscaled window, and
    exactly the negotiated options: the MSS the mtu leaves (the parser's
    536 floor applied), the timestamp pair and the window scale when enabled,
    and neither otherwise; a smaller mtu is refused. *)
Theorem tcp_syn_ack c mtu now :
  connection_ok c ->
  let m := mtu - Z.of_nat (ipHeaderByteCount (cs_ipVersion c)) - 20 in
  (m <= 0 -> SynAck c mtu now = Ret None) /\
  (0 < m < 65536 -> exists p, SynAck c mtu now = Ret (Some p) /\
     tcp_view (cs_ipVersion c) p =
       Some (segment_view c (cs_receiveSeq c) 18 (Z.min (cs_windowSize c) 65535) (syn_bytes c m now)
               (syn_options c m now) [], 0)).
Proof.
  intros Hc. cbn zeta. rewrite SynAck_unfold. set (m := mtu - _ - 20). split; intros Hm.
  - by rewrite (proj2 (Z.leb_le _ _)).
  - rewrite (proj2 (Z.leb_gt _ _)), (u16_small m) by lia.
    pose proof Hc as (_ & _ & _ & _ & Hr & Hw & _).
    rewrite (u16_small (Z.min (cs_windowSize c) 65535)) by lia.
    destruct (syn_bytes_spec c m now Hc ltac:(lia)) as (Eo & Hb & Hl & H4).
    destruct (tcp_segment_spec c (cs_receiveSeq c) 18 (Z.min (cs_windowSize c) 65535) (syn_bytes c m now) []
      (syn_options c m now)) as (p & -> & _ & Hv);
      try done; try lia; try apply Forall_nil_2.
    + cbn [length]. unfold ip_limit, ipHeaderByteCount.
      destruct (cs_ipVersion c =? 4), (cs_ipVersion c =? 6); unfold Ipv4HeaderSizeWithoutExtensions, Ipv6HeaderSize; lia.
    + cbn [gbind]. eauto.
Qed.

(** ** Datagrams and echo replies *)

Definition stream_ok (s : StreamState) : Prop :=
  addresses_ok (ss_ipVersion s) (ss_sourceIp s) (ss_destinationIp s) /\
  0 <= ss_sourcePort s < 65536 /\ 0 <= ss_destinationPort s < 65536.

Definition udp_fields (sp dp n c : Z) : bytes :=
  [byte_of sp 8; byte_of sp 0; byte_of dp 8; byte_of dp 0; byte_of n 8; byte_of n 0; byte_of c 8; byte_of c 0].

Lemma parse_udp_fields src dst sp dp c payload :
  0 <= sp < 65536 -> 0 <= dp < 65536 -> Z.of_nat (8 + length payload) <= 65535 ->
  parseUdpPacket src dst (udp_fields sp dp (Z.of_nat (8 + length payload)) c ++ payload) =
    Ret (Some (ParsedUdp src dst sp dp payload)).
Proof.
  intros Hsp Hdp Hl. set (t := _ ++ payload).
  assert (Lt : length t = (8 + length payload)%nat) by done.
  assert (E0 : get_u16 t 0 = Ret sp) by (unfold get_u16; cbn; by rewrite be16_split).
  assert (E2 : get_u16 t 2 = Ret dp) by (unfold get_u16; cbn; by rewrite be16_split).
  assert (E4 : get_u16 t 4 = Ret (Z.of_nat (8 + length payload))).
  { unfold get_u16. cbn -[Z.of_nat]. by rewrite be16_split by lia. }
  unfold parseUdpPacket, UdpHeaderSize. rewrite E0, E2, E4. cbn [gbind].
  rewrite Nat2Z.id, Lt. rewrite !(proj2 (Nat.ltb_ge _ _)) by lia. cbn [orb].
  unfold t. rewrite slice_cut by done. done.
Qed.

(** The checksum field of a datagram never holds the reserved zero. *)
Definition udp_checksum_sent (v : Z) (packet : bytes) : Prop :=
  (take 2 (drop (ipHeaderByteCount v + 6) packet)) <> [0; 0].

Lemma byte_pair_nonzero c : 0 < c < 65536 -> [byte_of c 8; byte_of c 0] <> [0; 0].
Proof. intros Hc E. injection E as E1 E2. pose proof (be16_split c ltac:(lia)) as E. rewrite E1, E2 in E. unfold be16 in E. lia. Qed.

Lemma udpPacket_spec s payload :
  stream_ok s -> bytes_ok payload ->
  Z.of_nat (ipHeaderByteCount (ss_ipVersion s) + 8 + length payload) <= ip_limit (ss_ipVersion s) ->
  returns (udpPacket s payload) (fun packet =>
    length packet = (ipHeaderByteCount (ss_ipVersion s) + 8 + length payload)%nat /\
    udp_view (ss_ipVersion s) packet =
      Some (ParsedUdp (ss_destinationIp s) (ss_sourceIp s) (ss_destinationPort s) (ss_sourcePort s) payload, 0) /\
    udp_checksum_sent (ss_ipVersion s) packet).
Proof.
  intros (Ha & Hsp & Hdp) Hbp Hlim. apply addresses_swap in Ha as Hsw. destruct (addresses_wire _ _ _ Ha) as [Hws Hwd].
  set (v := ss_ipVersion s) in *. set (h := ipHeaderByteCount v) in *.
  assert (Hh : Z.of_nat (8 + length payload) <= 65535).
  { destruct Ha as (_ & _ & [(E & _)|(E & _)]); unfold h, ip_limit in Hlim; rewrite E in Hlim; cbn in Hlim; lia. }
  unfold udpPacket. fold v. fold h. unfold UdpHeaderSize.
  set (buf := pool_get _). assert (Lb : length buf = (h + 8 + length payload)%nat) by apply pool_get_length.
  rewrite writeIpHeader_spec by (done || (fold h; lia)). cbn [gbind]. fold h. set (hd := ip_header v _ _ _ _).
  assert (Lh : length hd = h) by by apply ip_header_length.
  rewrite slice_cut; [|done|by rewrite length_app]. cbn [gbind]. rewrite !u16_small by (done || lia).
  assert (Ld : length (drop h buf) = (8 + length payload)%nat) by (rewrite length_drop; lia).
  destruct (length_split (drop h buf) 8 ltac:(lia)) as (a & b & Ed & La). rewrite Ed in *. rewrite length_app in Ld.
  set (n := Z.of_nat (8 + length payload)) in *. rewrite take_app_length' by (symmetry; done).
  set (t0 := udp_fields (ss_destinationPort s) (ss_sourcePort s) n 0 ++ payload).
  set (sum := transportChecksum ipProtocolNumberUdp (ss_destinationIp s) (ss_sourceIp s) t0).
  set (c := if sum =? 0 then 65535 else sum).
  exists (hd ++ udp_fields (ss_destinationPort s) (ss_sourcePort s) n c ++ payload). split; [|split; [|split]].
  - cells a. transitivity (let! udp := copy_into (udp_fields (ss_destinationPort s) (ss_sourcePort s) n 0 ++ b) 8
        (8 + length b) payload in
      let! udp := put_u16 udp 6 (let k := transportChecksum ipProtocolNumberUdp (ss_destinationIp s) (ss_sourceIp s) udp in
                                 if k =? 0 then 65535 else k) in Ret (hd ++ udp)); [reflexivity|].
    cbn [length] in Ld. rewrite copy_tail by (done || lia). cbn [gbind].
    rewrite (drop_ge b), app_nil_r by lia. reflexivity.
  - rewrite !length_app, Lh. cbn. lia.
  - unfold udp_view, hd. rewrite parseIp_header; [|done|done| |].
    2:{ rewrite Lb, !length_app. cbn [udp_fields length]. fold h. lia. }
    2:{ rewrite Lb. lia. }
    change (ipProtocolNumberUdp =? ipProtocolNumberUdp) with true. cbn match. unfold n.
    rewrite parse_udp_fields by done. f_equal. f_equal. fold n.
    set (pre := take 6 (udp_fields (ss_destinationPort s) (ss_sourcePort s) n 0)).
    change (udp_fields _ _ n c ++ payload) with (pre ++ byte_of c 8 :: byte_of c 0 :: payload).
    apply transport_verifies; try done.
    + unfold pre. cbn [take udp_fields]. apply bytes_ok_app. split; [explicit_bytes|done].
    + by exists 3%nat.
    + rewrite length_app. change (length pre) with 6%nat. lia.
    + change (pre ++ 0 :: 0 :: payload) with t0. fold sum. unfold c.
      destruct (Z.eqb_spec sum 0); [right|left]; done.
  - unfold udp_checksum_sent. fold h. rewrite drop_app_ge by lia. rewrite Lh.
    replace (h + 6 - h)%nat with 6%nat by lia. cbn -[byte_of]. apply byte_pair_nonzero.
    assert (0 <= sum <= 65535).
    { apply transportChecksum_range; try done; unfold t0; [|cbn; lia].
      apply bytes_ok_app. split; [unfold udp_fields; explicit_bytes|done]. }
    unfold c. destruct (Z.eqb_spec sum 0); lia.
Qed.

(** A UDP datagram built for a stream parses back to exactly the stream's
    addresses and ports, from the destination to the source, and the payload;
    its checksum verifies and is never sent as the reserved zero value. *)
Theorem udp_packet_roundtrip s payload :
  stream_ok s -> bytes_ok payload ->
  Z.of_nat (ipHeaderByteCount (ss_ipVersion s) + 8 + length payload) <= ip_limit (ss_ipVersion s) ->
  exists packet, udpPacket s payload = Ret packet /\
    udp_view (ss_ipVersion s) packet =
      Some (ParsedUdp (ss_destinationIp s) (ss_sourceIp s) (ss_destinationPort s) (ss_sourcePort s) payload, 0) /\
    udp_checksum_sent (ss_ipVersion s) packet.
Proof.
  intros Hs Hp Hl. destruct (udpPacket_spec s payload Hs Hp Hl) as (p & E & _ & H1 & H2). by exists p.
Qed.

Definition icmp_fields (ty c id sq : Z) : bytes :=
  [ty; 0; byte_of c 8; byte_of c 0; byte_of id 8; byte_of id 0; byte_of sq 8; byte_of sq 0].

Lemma parse_icmp_fields v ty c src dst id sq payload :
  0 <= id < 65536 -> 0 <= sq < 65536 ->
  (v = 4 /\ ty = icmp4TypeEchoReply \/ v = 6 /\ ty = icmp6TypeEchoReply) ->
  parseIcmpPacket v src dst (icmp_fields ty c id sq ++ payload) =
    Ret (Some (ParsedIcmp src dst false id sq payload)).
Proof.
  intros Hid Hsq Hv. set (t := _ ++ payload).
  assert (E4 : get_u16 t 4 = Ret id) by (unfold get_u16; cbn; by rewrite be16_split).
  assert (E6 : get_u16 t 6 = Ret sq) by (unfold get_u16; cbn; by rewrite be16_split).
  assert (Ep : slice t 8 (length t) = Ret payload) by (apply slice_cut; done).
  unfold parseIcmpPacket, IcmpHeaderSize. rewrite E4, E6, Ep.
  change (index t 1) with (@Ret Z 0). change (index t 0) with (@Ret Z ty).
  rewrite (proj2 (Nat.ltb_ge _ _)) by (subst t; cbn; lia). cbn [gbind].
  by destruct Hv as [[-> ->]|[-> ->]].
Qed.

(** The receiver's checksum of an ICMP message. *)
Definition icmp_checksum (v : Z) (src dst icmp : bytes) : Z :=
  if v =? 4 then checksumFinish (checksumAdd 0 icmp) else transportChecksum ipProtocolNumberIcmp6 src dst icmp.

Definition icmp_view (v : Z) (packet : bytes) : option (Z * parsedIcmp * Z) :=
  match parseIp v packet with
  | Ret (Some (proto, src, dst, transport)) =>
      match parseIcmpPacket v src dst transport with
      | Ret (Some i) => Some (proto, i, icmp_checksum v src dst transport)
      | _ => None
      end
  | _ => None
  end.

Lemma icmp_verifies v src dst pre body c :
  wire_ip src -> wire_ip dst -> bytes_ok (pre ++ body) -> length pre = 2%nat ->
  Z.of_nat (length body) <= 65571 ->
  c = icmp_checksum v src dst (pre ++ 0 :: 0 :: body) ->
  icmp_checksum v src dst (pre ++ byte_of c 8 :: byte_of c 0 :: body) = 0.
Proof.
  intros Hs Hd Hb Lp Hl Hc. unfold icmp_checksum in *. assert (Nat.Even (length pre)) by (exists 1%nat; lia).
  destruct (v =? 4).
  - apply message_verifies; [done|done|rewrite length_app; lia|done].
  - apply transport_verifies; try done; [rewrite length_app; lia|by left].
Qed.

(** The protocol and the message type of a reply of each family. *)
Definition icmp_protocol (v : Z) : Z := if v =? 4 then ipProtocolNumberIcmp4 else ipProtocolNumberIcmp6.

Definition echo_reply_type (v : Z) : Z := if v =? 4 then icmp4TypeEchoReply else icmp6TypeEchoReply.

Lemma icmp_protocol_ok v : byte_ok (icmp_protocol v) /\ isIpv6ExtensionHeader (icmp_protocol v) = false.
Proof.
  unfold icmp_protocol. destruct (v =? 4); (split; [unfold byte_ok, ipProtocolNumberIcmp4, ipProtocolNumberIcmp6; lia|done]).
Qed.

(** Both families build the reply the same way. *)
Lemma echoReplyPacket_unfold v src dst id mtu sq payload :
  addresses_ok v src dst ->
  let h := ipHeaderByteCount v in
  echoReplyPacket v src dst id mtu sq payload =
    if (mtu <? h + 8 + length payload)%nat then Ret None
    else
      let! packet := writeIpHeader v (pool_get (h + 8 + length payload)) (icmp_protocol v) dst src in
      let! icmp := slice packet h (length packet) in
      let! icmp := set_index icmp 0 (echo_reply_type v) in
      let! icmp := set_index icmp 1 0 in
      let! icmp := set_index icmp 2 0 in
      let! icmp := set_index icmp 3 0 in
      let! icmp := put_u16 icmp 4 id in
      let! icmp := put_u16 icmp 6 sq in
      let! icmp := copy_into icmp 8 (length icmp) payload in
      let! icmp := put_u16 icmp 2 (icmp_checksum v dst src icmp) in
      Ret (Some (take h packet ++ icmp)).
Proof. by intros (_ & _ & [(-> & _)|(-> & _)]). Qed.

(** The bytes of a reply that fits: the header, then the message with the
    checksum of its zeroed form. *)
Lemma echoReplyPacket_wire v src dst id mtu sq payload :
  addresses_ok v src dst -> Z.of_nat mtu <= ip_limit v ->
  let n := (ipHeaderByteCount v + 8 + length payload)%nat in
  (n <= mtu)%nat ->
  echoReplyPacket v src dst id mtu sq payload =
    Ret (Some (ip_header v (Z.of_nat n) (icmp_protocol v) dst src ++
      icmp_fields (echo_reply_type v)
        (icmp_checksum v dst src (icmp_fields (echo_reply_type v) 0 id sq ++ payload)) id sq ++ payload)).
Proof.
  intros Ha Hmtu n Hn. rewrite echoReplyPacket_unfold by done. cbv zeta. fold n.
  rewrite (proj2 (Nat.ltb_ge _ _)) by lia. set (h := ipHeaderByteCount v) in *.
  apply addresses_swap in Ha as Hsw.
  set (buf := pool_get _). assert (Lb : length buf = n) by apply pool_get_length.
  rewrite writeIpHeader_spec by (done || apply icmp_protocol_ok || (fold h; lia)). cbn [gbind]. fold h.
  rewrite Lb. set (hd := ip_header v _ _ _ _). assert (Lh : length hd = h) by by apply ip_header_length.
  rewrite slice_cut; [|done|by rewrite length_app]. cbn [gbind].
  assert (Ld : length (drop h buf) = (8 + length payload)%nat) by (rewrite length_drop; lia).
  destruct (length_split (drop h buf) 8 ltac:(lia)) as (a & b & Ed & La). rewrite Ed in *. rewrite length_app in Ld.
  rewrite take_app_length' by (symmetry; done). set (ty := echo_reply_type v).
  cells a. transitivity (let! icmp := copy_into (icmp_fields ty 0 id sq ++ b) 8 (8 + length b) payload in
    let! icmp := put_u16 icmp 2 (icmp_checksum v dst src icmp) in Ret (Some (hd ++ icmp))); [reflexivity|].
  cbn [length] in Ld. rewrite copy_tail by (done || lia). cbn [gbind].
  rewrite (drop_ge b), app_nil_r by lia. reflexivity.
Qed.

(** An echo reply that fits the device mtu parses back as an echo reply
    from the flow's destination to its source carrying the original identifier
    and sequence number and the payload, with a checksum that verifies (the
    pseudo header included for ICMPv6); one that does not fit is not built. *)
Theorem echo_reply_roundtrip v src dst id mtu sq payload :
  addresses_ok v src dst -> 0 <= id < 65536 -> 0 <= sq < 65536 -> bytes_ok payload ->
  Z.of_nat mtu <= ip_limit v ->
  let n := (ipHeaderByteCount v + 8 + length payload)%nat in
  ((mtu < n)%nat -> echoReplyPacket v src dst id mtu sq payload = Ret None) /\
  ((n <= mtu)%nat -> exists packet, echoReplyPacket v src dst id mtu sq payload = Ret (Some packet) /\
     icmp_view v packet =
       Some (icmp_protocol v, ParsedIcmp dst src false id sq payload, 0)).
Proof.
  intros Ha Hid Hsq Hbp Hmtu. cbn zeta.
  split; intros Hn; [by rewrite echoReplyPacket_unfold, (proj2 (Nat.ltb_lt _ _)) by done|].
  rewrite echoReplyPacket_wire by done. set (sum := icmp_checksum _ _ _ _). set (ty := echo_reply_type v).
  eexists. split; [done|].
  apply addresses_swap in Ha as Hsw. destruct (addresses_wire _ _ _ Ha) as [Hws Hwd].
  destruct (icmp_protocol_ok v) as [Hpb Hpx].
  unfold icmp_view. rewrite parseIp_header; [|done|done| |lia].
  2:{ rewrite !length_app. cbn [icmp_fields length]. lia. }
  rewrite parse_icmp_fields; [|done|done|unfold ty, echo_reply_type; destruct Ha as (_ & _ & [(-> & _)|(-> & _)]); [by left|by right]].
  f_equal. f_equal.
  change (icmp_fields ty sum id sq ++ payload) with ([ty; 0] ++ byte_of sum 8 :: byte_of sum 0 ::
    ([byte_of id 8; byte_of id 0; byte_of sq 8; byte_of sq 0] ++ payload)).
  apply icmp_verifies; try done.
  - assert (byte_ok ty) by (unfold ty, echo_reply_type, byte_ok, icmp4TypeEchoReply, icmp6TypeEchoReply; destruct (v =? 4); lia).
    rewrite !bytes_ok_app. repeat split; [explicit_bytes|explicit_bytes|done].
  - rewrite length_app. cbn [length]. unfold ip_limit in Hmtu. destruct (v =? 4); lia.
Qed.
End proofs.

(** ** Witnesses *)

Definition demo_connection : ConnectionState :=
  {| cs_ipVersion := 4; cs_sourceIp := [10; 0; 0; 2]; cs_sourcePort := 40000;
     cs_destinationIp := [1; 1; 1; 1]; cs_destinationPort := 443;
     cs_sendSeq := 7; cs_receiveSeq := 4294967290; cs_enableWindowScale := true; cs_windowSize := 70000;
     cs_windowScale := 3; cs_enableTimestamp := true; cs_timestampRecent := 99; cs_timestampOffset := 5;
     cs_peerMss := 14; cs_timestampValueForTest := None |}.

Lemma demo_addresses : addresses_ok 4 [10; 0; 0; 2] [1; 1; 1; 1].
Proof.
  split; [apply (bool_decide_eq_true_1 _); reflexivity|].
  split; [apply (bool_decide_eq_true_1 _); reflexivity|]. left. done.
Qed.

Lemma demo_connection_ok : connection_ok demo_connection.
Proof. split; [exact demo_addresses|]. cbn. repeat split; try lia; discriminate. Qed.

(** Ten bytes in segments of two, over a wrapping sequence number. *)
Lemma tcp_data_packets_witness :
  exists packets,
    tcpDataPackets demo_connection (fun k => 1000 + Z.of_nat k) (seqZ 0 10) 10 60 = Ret (Some packets) /\
    carries demo_connection 60 2 packets (seqZ 0 10) /\ length packets = 5%nat.
Proof.
  destruct (tcp_data_packets demo_connection (fun k => 1000 + Z.of_nat k) (seqZ 0 10) 10 60 demo_connection_ok)
    as (packets & E & H & _).
  - apply (bool_decide_eq_true_1 _). reflexivity.
  - apply (bool_decide_eq_true_1 _). reflexivity.
  - vm_compute. split; [reflexivity|discriminate].
  - exists packets. split; [exact E|]. split; [exact H|]. vm_compute in E. injection E as <-. reflexivity.
Defined.

Lemma tcp_control_segments_witness :
  (exists p, RstAck demo_connection = Ret p /\ tcp_view 4 p = control_view demo_connection 20 [] noTcpOptions).
Proof. apply (tcp_control_segments demo_connection 1000 demo_connection_ok). Defined.

Lemma tcp_syn_ack_witness :
  SynAck demo_connection 40 1000 = Ret None /\
  exists p, SynAck demo_connection 1440 1000 = Ret (Some p) /\
    tcp_view 4 p = Some (segment_view demo_connection 4294967290 18 65535 (syn_bytes demo_connection 1400 1000)
      (TcpOptions true 1400 true 3 true 1006 99) [], 0).
Proof.
  split.
  - apply (tcp_syn_ack demo_connection 40 1000 demo_connection_ok). vm_compute. discriminate.
  - apply (tcp_syn_ack demo_connection 1440 1000 demo_connection_ok). vm_compute. split; reflexivity.
Defined.

Definition demo_stream : StreamState :=
  {| ss_ipVersion := 4; ss_sourceIp := [10; 0; 0; 2]; ss_sourcePort := 5353;
     ss_destinationIp := [1; 1; 1; 1]; ss_destinationPort := 53 |}.

Lemma udp_packet_roundtrip_witness :
  exists packet, udpPacket demo_stream [1; 2; 3] = Ret packet /\
    udp_view 4 packet = Some (ParsedUdp [1; 1; 1; 1] [10; 0; 0; 2] 53 5353 [1; 2; 3], 0) /\
    udp_checksum_sent 4 packet.
Proof.
  apply (udp_packet_roundtrip demo_stream [1; 2; 3]).
  - split; [exact demo_addresses|]. cbn. lia.
  - apply (bool_decide_eq_true_1 _). reflexivity.
  - vm_compute. discriminate.
Defined.

Lemma echo_reply_roundtrip_witness :
  exists packet, echoReplyPacket 4 [10; 0; 0; 2] [1; 1; 1; 1] 77 100 3 [9; 9; 9] = Ret (Some packet) /\
    icmp_view 4 packet = Some (1, ParsedIcmp [1; 1; 1; 1] [10; 0; 0; 2] false 77 3 [9; 9; 9], 0).
Proof.
  apply (echo_reply_roundtrip 4 [10; 0; 0; 2] [1; 1; 1; 1] 77 100 3 [9; 9; 9] demo_addresses); try lia.
  - apply (bool_decide_eq_true_1 _). reflexivity.
  - vm_compute. discriminate.
  - cbn. lia.
Defined.
