(* ===== verification/IpPacket.v ===== *)
(** Flow paths and the packets built outside any flow's sequence (src/ip.go:
    IpPath and ParseIpPath; src/ip_packet.go: the out-of-sequence builders, the
    ICMP error parsers and the provider dial-failure signal; src/ip_icmp_gate.go:
    the echo gate). What the builders emit is recognised by the parsers as
    exactly the flow it was built for, and no input makes a parser panic. *)
From S2P Require Import Prelude GoIo Ipv6Ext IpWire IpFlow.

Inductive IpProtocol := IpProtocolUnknown | IpProtocolTcp | IpProtocolUdp | IpProtocolIcmp.

#[export] Instance IpProtocol_eq_dec : EqDecision IpProtocol.
Proof. solve_decision. Defined.

(** [net.IP]: a nil address is the empty slice. *)
Record IpPath := mkIpPath {
  Version : Z;
  Protocol : IpProtocol;
  SourceIp : bytes;
  SourcePort : Z;
  DestinationIp : bytes;
  DestinationPort : Z;
  SequenceNumber : Z;
  Syn : bool;
  Rst : bool;
  Ack : bool;
}.

#[export] Instance IpPath_eq_dec : EqDecision IpPath.
Proof. solve_decision. Defined.

(** [net.IP.To4] and [To16] of the standard library. *)
Definition v4InV6Prefix : bytes := replicate 10 0 ++ [255; 255].

Definition To4 (ip : bytes) : option bytes :=
  if (length ip =? 4)%nat then Some ip
  else if ((length ip =? 16)%nat && bool_decide (take 12 ip = v4InV6Prefix)) then Some (drop 12 ip)
  else None.

Definition To16 (ip : bytes) : option bytes :=
  if (length ip =? 4)%nat then Some (v4InV6Prefix ++ ip)
  else if (length ip =? 16)%nat then Some ip
  else None.

Definition To4_wire (ip : bytes) : bytes := default [] (To4 ip).
Definition To16_wire (ip : bytes) : bytes := default [] (To16 ip).

Definition Reverse (p : IpPath) : IpPath :=
  mkIpPath (Version p) (Protocol p) (DestinationIp p) (DestinationPort p) (SourceIp p) (SourcePort p)
    0 false false false.

Definition Source (p : IpPath) : IpPath :=
  mkIpPath (Version p) (Protocol p) (SourceIp p) (SourcePort p) [] 0 0 false false false.

Definition Destination (p : IpPath) : IpPath :=
  mkIpPath (Version p) (Protocol p) [] 0 (DestinationIp p) (DestinationPort p) 0 false false false.

(** Ip4Path and Ip6Path, the comparable map keys of a flow; the address arrays
    are lists of 4 and 16 bytes. *)
Record IpKey := mkIpKey {
  key_Protocol : IpProtocol;
  key_SourceIp : bytes;
  key_SourcePort : Z;
  key_DestinationIp : bytes;
  key_DestinationPort : Z;
}.

Definition ToIp4Path (p : IpPath) : IpKey :=
  mkIpKey (Protocol p) (default (replicate 4 0) (To4 (SourceIp p))) (SourcePort p)
    (default (replicate 4 0) (To4 (DestinationIp p))) (DestinationPort p).

Definition ToIp6Path (p : IpPath) : IpKey :=
  mkIpKey (Protocol p) (default (replicate 16 0) (To16 (SourceIp p))) (SourcePort p)
    (default (replicate 16 0) (To16 (DestinationIp p))) (DestinationPort p).

(** ** The echo gate *)

Record icmpGate := IcmpGate {
  icmpEchoFamilyRefused : Z;       (* bit 0 is ipv4, bit 1 is ipv6 *)
  icmpEnvState : Z;                (* 0 unread, 1 on, 2 off *)
  icmpEnvOff : bool;               (* what URNETWORK_ICMP says when read *)
}.

Definition icmpFamilyBit (ipVersion : Z) : Z := if ipVersion =? 4 then 1 else 2.

Definition icmpEnvDisabled (g : icmpGate) : icmpGate * bool :=
  if icmpEnvState g =? 0 then
    let state := if icmpEnvOff g then 2 else 1 in
    (IcmpGate (icmpEchoFamilyRefused g) state (icmpEnvOff g), state =? 2)
  else (g, icmpEnvState g =? 2).

Definition icmpEchoParsingEnabled (g : icmpGate) (ipVersion : Z) : icmpGate * bool :=
  if negb (Z.land (icmpEchoFamilyRefused g) (icmpFamilyBit ipVersion) =? 0) then (g, false)
  else let '(g, disabled) := icmpEnvDisabled g in (g, negb disabled).

(** [refusal]: the error means the platform refuses unprivileged sockets. *)
Definition icmpEgressRefused (g : icmpGate) (ipVersion : Z) (refusal : bool) : icmpGate :=
  if refusal
  then IcmpGate (Z.lor (icmpEchoFamilyRefused g) (icmpFamilyBit ipVersion)) (icmpEnvState g) (icmpEnvOff g)
  else g.

(** ** Parsing a packet to its flow

    [None] is an error; the gate's cached environment read is threaded. *)

Definition parseIcmpIpPath (g : icmpGate) (ipVersion ipProtocol : Z) (sourceIp destinationIp transport : bytes)
    : icmpGate * go (option (IpPath * bytes)) :=
  if negb ((ipProtocol =? ipProtocolNumberIcmp4) || (ipProtocol =? ipProtocolNumberIcmp6)) then (g, Ret None)
  else if negb (Bool.eqb (ipProtocol =? ipProtocolNumberIcmp4) (ipVersion =? 4)) then (g, Ret None)
  else
    let '(g, enabled) := icmpEchoParsingEnabled g ipVersion in
    if negb enabled then (g, Ret None)
    else
      (g, let! icmp := parseIcmpPacket ipVersion sourceIp destinationIp transport in
          match icmp with
          | None => Ret None
          | Some icmp =>
              let '(sp, dp) := if echoRequest icmp then (identifier icmp, 0) else (0, identifier icmp) in
              Ret (Some (mkIpPath ipVersion IpProtocolIcmp sourceIp sp destinationIp dp 0 false false false,
                         icmp_payload icmp))
          end).

(** The transport dispatch, the same for both families. *)
Definition parse_transport (g : icmpGate) (ipVersion : Z) (parsed : option (Z * bytes * bytes * bytes))
    : icmpGate * go (option (IpPath * bytes)) :=
  match parsed with
  | None => (g, Ret None)
  | Some (ipProtocol, sourceIp, destinationIp, transport) =>
      if ipProtocol =? ipProtocolNumberUdp then
        (g, let! udp := parseUdpPacket sourceIp destinationIp transport in
            match udp with
            | None => Ret None
            | Some u =>
                Ret (Some (mkIpPath ipVersion IpProtocolUdp sourceIp (udp_sourcePort u) destinationIp
                             (udp_destinationPort u) 0 false false false, udp_payload u))
            end)
      else if ipProtocol =? ipProtocolNumberTcp then
        (g, let! tcp := parseTcpPacket sourceIp destinationIp transport in
            match tcp with
            | None => Ret None
            | Some t =>
                Ret (Some (mkIpPath ipVersion IpProtocolTcp sourceIp (tcp_sourcePort t) destinationIp
                             (tcp_destinationPort t) (seq t) (syn t) (rst t) (ack t), tcp_payload t))
            end)
      else parseIcmpIpPath g ipVersion ipProtocol sourceIp destinationIp transport
  end.

Definition ParseIpPathWithPayload (g : icmpGate) (ipPacket : bytes) : icmpGate * go (option (IpPath * bytes)) :=
  if (length ipPacket =? 0)%nat then (g, Ret None)
  else
    match index ipPacket 0 with
    | Panic => (g, Panic)
    | Ret b0 =>
        let ipVersion := Z.shiftr b0 4 in
        if ipVersion =? 4 then
          match parseIpv4 ipPacket with
          | Ret parsed => parse_transport g 4 parsed
          | Panic => (g, Panic)
          end
        else if ipVersion =? 6 then
          match parseIpv6 ipPacket with
          | Ret parsed => parse_transport g 6 parsed
          | Panic => (g, Panic)
          end
        else (g, Ret None)
    end.

Definition ParseIpPath (g : icmpGate) (ipPacket : bytes) : icmpGate * go (option IpPath) :=
  let '(g, r) := ParseIpPathWithPayload g ipPacket in
  (g, let! r := r in Ret (fst <$> r)).

(** ** Out-of-sequence builders

    [ipTransportPacket] returns the header bytes and the transport slice of a
    fresh packet; writes to the slice are writes to the packet's tail. *)

Definition ipTransportPacket (p : IpPath) (ipProtocol : Z) (transportByteCount : nat) : go (bytes * bytes) :=
  if Version p =? 4 then
    let! packet := writeIpv4Header (replicate (Ipv4HeaderSizeWithoutExtensions + transportByteCount) 0) ipProtocol
                     (To4_wire (SourceIp p)) (To4_wire (DestinationIp p)) in
    let! transport := slice packet Ipv4HeaderSizeWithoutExtensions (length packet) in
    Ret (take Ipv4HeaderSizeWithoutExtensions packet, transport)
  else if Version p =? 6 then
    let! packet := writeIpv6Header (replicate (Ipv6HeaderSize + transportByteCount) 0) ipProtocol
                     (To16_wire (SourceIp p)) (To16_wire (DestinationIp p)) in
    let! transport := slice packet Ipv6HeaderSize (length packet) in
    Ret (take Ipv6HeaderSize packet, transport)
  else Panic.

Definition ipPathTransportChecksum (p : IpPath) (ipProtocol : Z) (transport : bytes) : Z :=
  if Version p =? 4
  then transportChecksum ipProtocol (To4_wire (SourceIp p)) (To4_wire (DestinationIp p)) transport
  else transportChecksum ipProtocol (To16_wire (SourceIp p)) (To16_wire (DestinationIp p)) transport.

Definition ipOosUdpPacket (p : IpPath) (payload : bytes) : go bytes :=
  let! '(header, udp) := ipTransportPacket p ipProtocolNumberUdp (UdpHeaderSize + length payload) in
  let! udp := put_u16 udp 0 (u16 (SourcePort p)) in
  let! udp := put_u16 udp 2 (u16 (DestinationPort p)) in
  let! udp := put_u16 udp 4 (u16 (Z.of_nat (UdpHeaderSize + length payload))) in
  let! udp := set_index udp 6 0 in
  let! udp := set_index udp 7 0 in
  let! udp := copy_into udp UdpHeaderSize (length udp) payload in
  let checksum := ipPathTransportChecksum p ipProtocolNumberUdp udp in
  let checksum := if checksum =? 0 then 65535 else checksum in
  let! udp := put_u16 udp 6 checksum in
  Ret (header ++ udp).

Definition ipOosTcpPacketSequence (p : IpPath) (flags sequenceNumber : Z) (payload : bytes) : go bytes :=
  let! '(header, tcp) := ipTransportPacket p ipProtocolNumberTcp (TcpHeaderSizeWithoutExtensions + length payload) in
  let! tcp := put_u16 tcp 0 (u16 (SourcePort p)) in
  let! tcp := put_u16 tcp 2 (u16 (DestinationPort p)) in
  let! tcp := put_u32 tcp 4 sequenceNumber in
  let! tcp := put_u32 tcp 8 0 in
  let! tcp := set_index tcp 12 80 in
  let! tcp := set_index tcp 13 flags in
  let! tcp := put_u16 tcp 14 4096 in
  let! tcp := set_index tcp 16 0 in
  let! tcp := set_index tcp 17 0 in
  let! tcp := set_index tcp 18 0 in
  let! tcp := set_index tcp 19 0 in
  let! tcp := copy_into tcp TcpHeaderSizeWithoutExtensions (length tcp) payload in
  let! tcp := put_u16 tcp 16 (ipPathTransportChecksum p ipProtocolNumberTcp tcp) in
  Ret (header ++ tcp).

Definition ipOosTcpPacket (p : IpPath) (flags : Z) (payload : bytes) : go bytes :=
  ipOosTcpPacketSequence p flags 0 payload.

(** [None] is a nil packet or [ok = false]. *)
Definition ipOosPacket (p : IpPath) (payload : bytes) : go (option bytes) :=
  match Protocol p with
  | IpProtocolUdp => let! packet := ipOosUdpPacket p payload in Ret (Some packet)
  | IpProtocolTcp => let! packet := ipOosTcpPacket p 0 payload in Ret (Some packet)
  | _ => Ret None
  end.

Definition ipOosRstSequence (p : IpPath) (sequenceNumber : Z) : go (option bytes) :=
  match Protocol p with
  | IpProtocolTcp =>
      if (Version p =? 4) || (Version p =? 6) then
        let! packet := ipOosTcpPacketSequence p tcpFlagRst sequenceNumber [] in Ret (Some packet)
      else Ret None
  | _ => Ret None
  end.

Definition ipOosRst (p : IpPath) : go (option bytes) := ipOosRstSequence p 0.

(** ** ICMP errors *)

Definition icmpUnreachableHeaderSize : nat := 8.
Definition icmpv4TypeDestinationUnreachable : Z := 3.
Definition icmpv4CodePortUnreachable : Z := 3.
Definition icmpv6TypeDestinationUnreachable : Z := 1.
Definition icmpv6CodePortUnreachable : Z := 4.
Definition icmpv4CodeHostUnreachable : Z := 1.
Definition icmpv6CodeNoRoute : Z := 0.
Definition icmpv4CodeFragmentationNeeded : Z := 4.
Definition icmpv6TypePacketTooBig : Z := 2.

(** The [writeHeader] closure of ipOosUnreachable. *)
Definition writeHeader (icmp : bytes) (icmpType code : Z) (embedded : bytes) : go bytes :=
  let! icmp := set_index icmp 0 icmpType in
  let! icmp := set_index icmp 1 code in
  let! icmp := set_index icmp 2 0 in
  let! icmp := set_index icmp 3 0 in
  let! icmp := put_u32 icmp 4 0 in
  copy_into icmp icmpUnreachableHeaderSize (length icmp) embedded.

Definition ipOosUnreachable (p : IpPath) : go (option bytes) :=
  if negb ((Version p =? 4) || (Version p =? 6)) then Ret None
  else
    let! built :=
      match Protocol p with
      | IpProtocolUdp =>
          let! embedded := ipOosUdpPacket p [] in
          Ret (Some (embedded, icmpv4CodePortUnreachable, icmpv6CodePortUnreachable))
      | IpProtocolTcp =>
          let! embedded := ipOosTcpPacketSequence p tcpFlagSyn (SequenceNumber p) [] in
          Ret (Some (embedded, icmpv4CodeHostUnreachable, icmpv6CodeNoRoute))
      | _ => Ret None
      end in
    match built with
    | None => Ret None
    | Some (embedded, v4Code, v6Code) =>
        let reverse := Reverse p in
        if Version p =? 4 then
          let! '(header, icmp) :=
            ipTransportPacket reverse ipProtocolNumberIcmp4 (icmpUnreachableHeaderSize + length embedded) in
          let! icmp := writeHeader icmp icmpv4TypeDestinationUnreachable v4Code embedded in
          let! icmp := put_u16 icmp 2 (checksumFinish (checksumAdd 0 icmp)) in
          Ret (Some (header ++ icmp))
        else
          let! '(header, icmp) :=
            ipTransportPacket reverse ipProtocolNumberIcmp6 (icmpUnreachableHeaderSize + length embedded) in
          let! icmp := writeHeader icmp icmpv6TypeDestinationUnreachable v6Code embedded in
          let! icmp := put_u16 icmp 2 (transportChecksum ipProtocolNumberIcmp6
                         (To16_wire (SourceIp reverse)) (To16_wire (DestinationIp reverse)) icmp) in
          Ret (Some (header ++ icmp))
    end.

Definition ipOosPacketTooBig (original : IpPath) (mtu : Z) : go (option bytes) :=
  if negb ((Version original =? 4) || (Version original =? 6)) then Ret None
  else
    let! embedded :=
      match Protocol original with
      | IpProtocolUdp => let! e := ipOosUdpPacket original [] in Ret (Some e)
      | IpProtocolTcp =>
          let! e := ipOosTcpPacketSequence original tcpFlagAck (SequenceNumber original) [] in Ret (Some e)
      | _ => Ret None
      end in
    match embedded with
    | None => Ret None
    | Some embedded =>
        let reverse := Reverse original in
        if Version original =? 4 then
          let! '(header, icmp) :=
            ipTransportPacket reverse ipProtocolNumberIcmp4 (icmpUnreachableHeaderSize + length embedded) in
          let! icmp := set_index icmp 0 icmpv4TypeDestinationUnreachable in
          let! icmp := set_index icmp 1 icmpv4CodeFragmentationNeeded in
          let! icmp := set_index icmp 2 0 in
          let! icmp := set_index icmp 3 0 in
          let! icmp := put_u16 icmp 4 0 in
          let! icmp := put_u16 icmp 6 (u16 mtu) in
          let! icmp := copy_into icmp icmpUnreachableHeaderSize (length icmp) embedded in
          let! icmp := put_u16 icmp 2 (checksumFinish (checksumAdd 0 icmp)) in
          Ret (Some (header ++ icmp))
        else
          let! '(header, icmp) :=
            ipTransportPacket reverse ipProtocolNumberIcmp6 (icmpUnreachableHeaderSize + length embedded) in
          let! icmp := set_index icmp 0 icmpv6TypePacketTooBig in
          let! icmp := set_index icmp 1 0 in
          let! icmp := set_index icmp 2 0 in
          let! icmp := set_index icmp 3 0 in
          let! icmp := put_u32 icmp 4 (u32 mtu) in
          let! icmp := copy_into icmp icmpUnreachableHeaderSize (length icmp) embedded in
          let! icmp := put_u16 icmp 2 (transportChecksum ipProtocolNumberIcmp6
                         (To16_wire (SourceIp reverse)) (To16_wire (DestinationIp reverse)) icmp) in
          Ret (Some (header ++ icmp))
    end.

Definition ipIcmpBody (packet : bytes) : go (option bytes) :=
  if (length packet =? 0)%nat then Ret None
  else
    let! b0 := index packet 0 in
    if Z.shiftr b0 4 =? 4 then
      if (length packet <? Ipv4HeaderSizeWithoutExtensions)%nat then Ret None
      else
        let ihl := (Z.to_nat (Z.land b0 15) * 4)%nat in
        if (ihl <? Ipv4HeaderSizeWithoutExtensions)%nat || (length packet <? ihl)%nat then Ret None
        else
          let! proto := index packet 9 in
          if negb (proto =? ipProtocolNumberIcmp4) then Ret None
          else let! body := slice packet ihl (length packet) in Ret (Some body)
    else if Z.shiftr b0 4 =? 6 then
      let! found := ipv6TransportOffset packet in
      match found with
      | None => Ret None
      | Some (next, offset, stop) =>
          if negb (next =? ipProtocolNumberIcmp6) then Ret None
          else let! body := slice packet offset stop in Ret (Some body)
      end
    else Ret None.

Definition ipv6EmbedForWalk (embedded : bytes) : go bytes :=
  let! n := get_u16 embedded 4 in
  let declared := (Ipv6HeaderSize + Z.to_nat n)%nat in
  if (length embedded <? declared)%nat
  then put_u16 embedded 4 (u16 (Z.of_nat (length embedded) - Z.of_nat Ipv6HeaderSize))
  else Ret embedded.

(** Protocol, addresses and transport of the embedded datagram. *)
Definition embedded_fields (embedded : bytes) (version : Z) : go (option (Z * bytes * bytes * bytes)) :=
  if version =? 4 then
    if (length embedded <? Ipv4HeaderSizeWithoutExtensions)%nat then Ret None
    else
      let! b0 := index embedded 0 in
      let ihl := (Z.to_nat (Z.land b0 15) * 4)%nat in
      if (ihl <? Ipv4HeaderSizeWithoutExtensions)%nat || (length embedded <? ihl + 8)%nat then Ret None
      else
        let! proto := index embedded 9 in
        let! sourceIp := slice embedded 12 16 in
        let! destinationIp := slice embedded 16 20 in
        let! transport := slice embedded ihl (length embedded) in
        Ret (Some (proto, sourceIp, destinationIp, transport))
  else if version =? 6 then
    if (length embedded <? Ipv6HeaderSize + 8)%nat then Ret None
    else
      let! b6 := index embedded 6 in
      let! found :=
        (if isIpv6ExtensionHeader b6 then
           let! clamped := ipv6EmbedForWalk embedded in
           let! walk := walkIpv6ExtensionHeaders clamped in
           match walk with
           | None => Ret None
           | Some walk => if fragmented walk then Ret None else Ret (Some (nextHeader walk, transportOffset walk))
           end
         else Ret (Some (b6, Ipv6HeaderSize))) in
      match found with
      | None => Ret None
      | Some (proto, offset) =>
          if (length embedded <? offset + 8)%nat then Ret None
          else
            let! sourceIp := slice embedded 8 24 in
            let! destinationIp := slice embedded 24 40 in
            let! transport := slice embedded offset (length embedded) in
            Ret (Some (proto, sourceIp, destinationIp, transport))
      end
  else Ret None.

Definition ipParseIcmpEmbeddedPath (embedded : bytes) : go (option IpPath) :=
  if (length embedded =? 0)%nat then Ret None
  else
    let! b0 := index embedded 0 in
    let version := Z.shiftr b0 4 in
    let! fields := embedded_fields embedded version in
    match fields with
    | None => Ret None
    | Some (proto, sourceIp, destinationIp, transport) =>
        if (proto =? ipProtocolNumberTcp) || (proto =? ipProtocolNumberUdp) then
          let! sp := get_u16 transport 0 in
          let! dp := get_u16 transport 2 in
          if proto =? ipProtocolNumberTcp then
            let! sequence := get_u32 transport 4 in
            Ret (Some (mkIpPath version IpProtocolTcp sourceIp sp destinationIp dp sequence false false false))
          else Ret (Some (mkIpPath version IpProtocolUdp sourceIp sp destinationIp dp 0 false false false))
        else Ret None
    end.

Definition ipParseIcmpUnreachable (packet : bytes) : go (option IpPath) :=
  if (length packet =? 0)%nat then Ret None
  else
    let! body := ipIcmpBody packet in
    match body with
    | None => Ret None
    | Some icmp =>
        if (length icmp <? icmpUnreachableHeaderSize)%nat then Ret None
        else
          let! b0 := index packet 0 in
          let! ty := index icmp 0 in
          if ((Z.shiftr b0 4 =? 4) && negb (ty =? icmpv4TypeDestinationUnreachable)) ||
             ((Z.shiftr b0 4 =? 6) && negb (ty =? icmpv6TypeDestinationUnreachable)) then Ret None
          else
            let! embedded := slice icmp icmpUnreachableHeaderSize (length icmp) in
            ipParseIcmpEmbeddedPath embedded
    end.

(** The mtu and the flow; [None] is [ok = false]. *)
Definition ipParseIcmpv4FragmentationNeeded (icmp : bytes) : go (option (Z * IpPath)) :=
  if (length icmp <? icmpUnreachableHeaderSize)%nat then Ret None
  else
    let! ty := index icmp 0 in
    let! code := index icmp 1 in
    if negb (ty =? icmpv4TypeDestinationUnreachable) || negb (code =? icmpv4CodeFragmentationNeeded) then Ret None
    else
      let! mtu := get_u16 icmp 6 in
      if mtu =? 0 then Ret None
      else
        let! embedded := slice icmp icmpUnreachableHeaderSize (length icmp) in
        let! path := ipParseIcmpEmbeddedPath embedded in
        Ret ((fun p => (mtu, p)) <$> path).

Definition ipParseIcmpv6PacketTooBig (icmp : bytes) : go (option (Z * IpPath)) :=
  if (length icmp <? icmpUnreachableHeaderSize)%nat then Ret None
  else
    let! ty := index icmp 0 in
    if negb (ty =? icmpv6TypePacketTooBig) then Ret None
    else
      let! mtu := get_u32 icmp 4 in
      if (mtu <=? 0) || (65535 <? mtu) then Ret None
      else
        let! embedded := slice icmp icmpUnreachableHeaderSize (length icmp) in
        let! path := ipParseIcmpEmbeddedPath embedded in
        Ret ((fun p => (mtu, p)) <$> path).

(** A nil flow path is [None]. *)
Definition providerDialFailureReturnPath (flowPath : option IpPath) (packet : bytes) : go (option IpPath) :=
  match flowPath with
  | None => Ret None
  | Some flowPath =>
      let! signal := ipOosUnreachable flowPath in
      match signal with
      | Some signal => if bool_decide (signal = packet) then Ret (Some (Reverse flowPath)) else Ret None
      | None => Ret None
      end
  end.

Definition providerDialFailureEgressPath (packet : bytes) : go (option IpPath) :=
  let! egress := ipParseIcmpUnreachable packet in
  match egress with
  | None => Ret None
  | Some egress =>
      let! signal := ipOosUnreachable egress in
      match signal with
      | Some signal => if bool_decide (signal = packet) then Ret (Some egress) else Ret None
      | None => Ret None
      end
  end.

(** ** What the builders write *)

Definition path_ok (p : IpPath) : Prop :=
  addresses_ok (Version p) (SourceIp p) (DestinationIp p) /\
  0 <= SourcePort p < 65536 /\ 0 <= DestinationPort p < 65536 /\ 0 <= SequenceNumber p < 4294967296.

Lemma To4_wire_4 ip : length ip = 4%nat -> To4_wire ip = ip.
Proof. intros H. unfold To4_wire, To4. by rewrite H. Qed.

Lemma To16_wire_16 ip : length ip = 16%nat -> To16_wire ip = ip.
Proof. intros H. unfold To16_wire, To16. by rewrite H. Qed.

Lemma path_ok_reverse p : path_ok p -> path_ok (Reverse p).
Proof. intros (Ha & Hs & Hd & _). unfold path_ok. cbn. split; [by apply addresses_swap|]. lia. Qed.

Lemma ipTransportPacket_spec p proto n :
  addresses_ok (Version p) (SourceIp p) (DestinationIp p) -> byte_ok proto ->
  ipTransportPacket p proto n =
    Ret (ip_header (Version p) (Z.of_nat (ipHeaderByteCount (Version p) + n)) proto (SourceIp p) (DestinationIp p),
         replicate n 0).
Proof.
  intros Ha Hp. pose proof (writeIpHeader_spec (Version p) (replicate (ipHeaderByteCount (Version p) + n) 0) proto
    (SourceIp p) (DestinationIp p) Ha Hp) as E.
  rewrite length_replicate, drop_replicate in E. specialize (E ltac:(lia)).
  replace (ipHeaderByteCount (Version p) + n - ipHeaderByteCount (Version p))%nat with n in E by lia.
  pose proof (ip_header_length (Version p) (Z.of_nat (ipHeaderByteCount (Version p) + n)) proto _ _ Ha) as Lh.
  unfold ipTransportPacket. destruct Ha as (_ & _ & [(Ev & Hs & Hd)|(Ev & Hs & Hd)]); rewrite Ev in *.
  - rewrite !To4_wire_4 by done. change (writeIpHeader 4) with writeIpv4Header in E.
    change (ipHeaderByteCount 4) with 20%nat in *. cbn [Z.eqb Pos.eqb]. unfold Ipv4HeaderSizeWithoutExtensions.
    rewrite E. cbn [gbind]. rewrite take_app_length', slice_cut; [done|done|by rewrite length_app|done].
  - rewrite !To16_wire_16 by done. change (writeIpHeader 6) with writeIpv6Header in E.
    change (ipHeaderByteCount 6) with 40%nat in *. cbn [Z.eqb Pos.eqb]. unfold Ipv6HeaderSize.
    rewrite E. cbn [gbind]. rewrite take_app_length', slice_cut; [done|done|by rewrite length_app|done].
Qed.

Lemma ipPathTransportChecksum_spec p proto t :
  addresses_ok (Version p) (SourceIp p) (DestinationIp p) ->
  ipPathTransportChecksum p proto t = transportChecksum proto (SourceIp p) (DestinationIp p) t.
Proof.
  intros (_ & _ & [(Ev & Hs & Hd)|(Ev & Hs & Hd)]); unfold ipPathTransportChecksum; rewrite Ev; cbn [Z.eqb Pos.eqb].
  - by rewrite !To4_wire_4.
  - by rewrite !To16_wire_16.
Qed.

(** The header of a packet of the path's direction. *)
Definition path_header (p : IpPath) (proto : Z) (transport : bytes) : bytes :=
  ip_header (Version p) (Z.of_nat (ipHeaderByteCount (Version p) + length transport)) proto (SourceIp p) (DestinationIp p).

Definition oos_udp (p : IpPath) (payload : bytes) : bytes :=
  let n := Z.of_nat (8 + length payload) in
  let k := transportChecksum ipProtocolNumberUdp (SourceIp p) (DestinationIp p)
             (udp_fields (SourcePort p) (DestinationPort p) n 0 ++ payload) in
  udp_fields (SourcePort p) (DestinationPort p) n (if k =? 0 then 65535 else k) ++ payload.

Definition oos_tcp (p : IpPath) (flags sequence : Z) (payload : bytes) : bytes :=
  let k := transportChecksum ipProtocolNumberTcp (SourceIp p) (DestinationIp p)
             (tcp_fields (SourcePort p) (DestinationPort p) sequence 0 80 flags 4096 0 ++ payload) in
  tcp_fields (SourcePort p) (DestinationPort p) sequence 0 80 flags 4096 k ++ payload.

Lemma ipOosUdpPacket_spec p payload :
  path_ok p -> Z.of_nat (8 + length payload) <= 65535 ->
  ipOosUdpPacket p payload = Ret (path_header p ipProtocolNumberUdp (oos_udp p payload) ++ oos_udp p payload).
Proof.
  intros (Ha & Hs & Hd & _) Hl. unfold ipOosUdpPacket. rewrite ipTransportPacket_spec by done. cbn [gbind].
  rewrite !u16_small by (done || (unfold UdpHeaderSize; lia)). unfold UdpHeaderSize.
  set (n := Z.of_nat (8 + length payload)). set (hd := ip_header _ _ _ _ _).
  rewrite replicate_add. set (b := replicate (length payload) 0).
  assert (Lb : length b = length payload) by apply length_replicate.
  transitivity (let! udp := copy_into (udp_fields (SourcePort p) (DestinationPort p) n 0 ++ b) 8 (8 + length b) payload in
     let! udp := put_u16 udp 6 (let k := ipPathTransportChecksum p ipProtocolNumberUdp udp in
                                if k =? 0 then 65535 else k) in Ret (hd ++ udp)); [reflexivity|].
  rewrite copy_tail by (done || lia). cbn [gbind]. rewrite (drop_ge b), app_nil_r by lia.
  rewrite ipPathTransportChecksum_spec by done. reflexivity.
Qed.

Lemma ipOosTcpPacketSequence_spec p flags sequence payload :
  path_ok p ->
  ipOosTcpPacketSequence p flags sequence payload =
    Ret (path_header p ipProtocolNumberTcp (oos_tcp p flags sequence payload) ++ oos_tcp p flags sequence payload).
Proof.
  intros (Ha & Hs & Hd & _). unfold ipOosTcpPacketSequence. rewrite ipTransportPacket_spec by done. cbn [gbind].
  rewrite !u16_small by done. unfold TcpHeaderSizeWithoutExtensions. set (hd := ip_header _ _ _ _ _).
  rewrite replicate_add. set (b := replicate (length payload) 0).
  assert (Lb : length b = length payload) by apply length_replicate.
  transitivity (let! tcp := copy_into (tcp_fields (SourcePort p) (DestinationPort p) sequence 0 80 flags 4096 0 ++ b)
       20 (20 + length b) payload in
     let! tcp := put_u16 tcp 16 (ipPathTransportChecksum p ipProtocolNumberTcp tcp) in Ret (hd ++ tcp)); [reflexivity|].
  rewrite copy_tail by (done || lia). cbn [gbind]. rewrite (drop_ge b), app_nil_r by lia.
  rewrite ipPathTransportChecksum_spec by done. reflexivity.
Qed.

(** ** Reading them back *)

Definition version_byte (v : Z) : Z := if v =? 4 then 69 else 96.

Lemma header_index0 v total proto src dst t :
  addresses_ok v src dst -> index (ip_header v total proto src dst ++ t) 0 = Ret (version_byte v).
Proof. by intros (_ & _ & [(-> & _)|(-> & _)]). Qed.

Lemma version_byte_shift v src dst : addresses_ok v src dst -> Z.shiftr (version_byte v) 4 = v.
Proof. by intros (_ & _ & [(-> & _)|(-> & _)]). Qed.

Lemma ipIcmpBody_spec v total src dst body :
  addresses_ok v src dst -> total = Z.of_nat (ipHeaderByteCount v + length body) -> total <= ip_limit v ->
  ipIcmpBody (ip_header v total (if v =? 4 then ipProtocolNumberIcmp4 else ipProtocolNumberIcmp6) src dst ++ body) =
    Ret (Some body).
Proof.
  intros Ha Ht Hl. pose proof (ip_header_length v total (if v =? 4 then ipProtocolNumberIcmp4 else ipProtocolNumberIcmp6)
    _ _ Ha) as Lh. unfold ipIcmpBody. rewrite length_app, Lh, header_index0 by done. cbn [gbind].
  destruct Ha as (Hs & Hd & [(-> & L1 & L2)|(-> & L1 & L2)]).
  - change (ipHeaderByteCount 4) with 20%nat in *.
    rewrite (proj2 (Nat.eqb_neq _ _)) by lia. change (Z.shiftr (version_byte 4) 4 =? 4) with true. cbn match.
    unfold Ipv4HeaderSizeWithoutExtensions. change (Z.to_nat (Z.land (version_byte 4) 15) * 4)%nat with 20%nat.
    rewrite !(proj2 (Nat.ltb_ge _ _)) by lia. cbn [orb].
    match goal with |- gbind ?x _ = _ => change x with (@Ret Z 1) end. cbn [gbind].
    change (negb (1 =? ipProtocolNumberIcmp4)) with false. cbn match. rewrite slice_cut; [done|by rewrite Lh|by rewrite Lh].
  - change (ipHeaderByteCount 6) with 40%nat in *. unfold ip_limit in Hl. cbn in Hl.
    rewrite (proj2 (Nat.eqb_neq _ _)) by lia. change (Z.shiftr (version_byte 6) 4 =? 4) with false.
    change (Z.shiftr (version_byte 6) 4 =? 6) with true. cbn match.
    set (packet := _ ++ body) in *.
    assert (Lp : length packet = (40 + length body)%nat) by (unfold packet; by rewrite length_app, Lh).
    assert (E : ipv6TransportOffset packet = Ret (Some (58, 40%nat, (40 + length body)%nat))).
    { unfold ipv6TransportOffset, Ipv6HeaderSize. rewrite Lp, (proj2 (Nat.ltb_ge _ _)) by lia.
      change (index packet 0) with (@Ret Z 96). change (index packet 6) with (@Ret Z 58). cbn [gbind].
      change (negb (Z.shiftr 96 4 =? 6)) with false. change (negb (isIpv6ExtensionHeader 58)) with true. cbn match.
      assert (E16 : get_u16 packet 4 = Ret (Z.of_nat (length body))).
      { unfold get_u16. transitivity (Ret (be16 (byte_of (u16 (total - 40)) 8) (byte_of (u16 (total - 40)) 0)));
          [reflexivity|]. rewrite u16_small, be16_split by lia. f_equal. lia. }
      rewrite E16. cbn [gbind]. rewrite Nat2Z.id. by rewrite (proj2 (Nat.ltb_ge _ _)) by lia. }
    rewrite E. cbn [gbind]. change (negb (58 =? ipProtocolNumberIcmp6)) with false. cbn match.
    unfold packet. rewrite slice_cut; [done|done|by rewrite Lh].
Qed.

Lemma embedded_fields_spec v total proto src dst transport :
  addresses_ok v src dst -> isIpv6ExtensionHeader proto = false -> (8 <= length transport)%nat ->
  embedded_fields (ip_header v total proto src dst ++ transport) v = Ret (Some (proto, src, dst, transport)).
Proof.
  intros Ha Hx Hl. pose proof (ip_header_length v total proto _ _ Ha) as Lh. unfold embedded_fields.
  destruct Ha as (Hs & Hd & [(-> & L1 & L2)|(-> & L1 & L2)]); cbn [Z.eqb Pos.eqb];
    rewrite length_app, Lh; set (packet := _ ++ transport).
  - change (ipHeaderByteCount 4) with 20%nat in *. unfold Ipv4HeaderSizeWithoutExtensions.
    rewrite (proj2 (Nat.ltb_ge _ _)) by lia. change (index packet 0) with (@Ret Z 69). cbn [gbind].
    change (Z.to_nat (Z.land 69 15) * 4)%nat with 20%nat. rewrite !(proj2 (Nat.ltb_ge _ _)) by lia. cbn [orb].
    change (index packet 9) with (@Ret Z proto). cbn [gbind].
    assert (E1 : slice packet 12 16 = Ret src) by (cells src; cells dst; reflexivity).
    assert (E2 : slice packet 16 20 = Ret dst) by (cells src; cells dst; reflexivity).
    rewrite E1, E2. cbn [gbind]. unfold packet. rewrite slice_cut; [done|by rewrite Lh|by rewrite Lh].
  - change (ipHeaderByteCount 6) with 40%nat in *. unfold Ipv6HeaderSize.
    rewrite (proj2 (Nat.ltb_ge _ _)) by lia. change (index packet 6) with (@Ret Z proto). cbn [gbind].
    rewrite Hx. cbn [gbind]. rewrite (proj2 (Nat.ltb_ge _ _)) by lia.
    assert (E1 : slice packet 8 24 = Ret src) by (cells src; cells dst; reflexivity).
    assert (E2 : slice packet 24 40 = Ret dst) by (cells src; cells dst; reflexivity).
    rewrite E1, E2. cbn [gbind]. unfold packet. rewrite slice_cut; [done|by rewrite Lh|by rewrite Lh].
Qed.

(** The path a parser recovers from an error about the path's own packet:
    the addresses and ports, and the sequence number of a TCP flow. *)
Definition quoted (p : IpPath) : IpPath :=
  mkIpPath (Version p) (Protocol p) (SourceIp p) (SourcePort p) (DestinationIp p) (DestinationPort p)
    (match Protocol p with IpProtocolTcp => SequenceNumber p | _ => 0 end) false false false.

(** The packet of the flow an error quotes. *)
Definition quoted_packet (p : IpPath) (flags : Z) : bytes :=
  match Protocol p with
  | IpProtocolTcp =>
      path_header p ipProtocolNumberTcp (oos_tcp p flags (SequenceNumber p) []) ++ oos_tcp p flags (SequenceNumber p) []
  | _ => path_header p ipProtocolNumberUdp (oos_udp p []) ++ oos_udp p []
  end.

Definition transport_path (p : IpPath) : Prop := Protocol p = IpProtocolTcp \/ Protocol p = IpProtocolUdp.

Lemma quoted_packet_parses p flags :
  path_ok p -> transport_path p -> ipParseIcmpEmbeddedPath (quoted_packet p flags) = Ret (Some (quoted p)).
Proof.
  intros (Ha & Hs & Hd & Hq) Hp. unfold ipParseIcmpEmbeddedPath, quoted_packet, quoted, path_header.
  pose proof (fun total proto => ip_header_length (Version p) total proto _ _ Ha) as Lh.
  assert (Hne : (0 < ipHeaderByteCount (Version p))%nat)
    by (destruct Ha as (_ & _ & [(-> & _)|(-> & _)]); apply Nat.ltb_lt; reflexivity).
  destruct Hp as [E|E]; rewrite E;
    rewrite length_app, Lh, (proj2 (Nat.eqb_neq _ _)), header_index0 by (done || lia); cbn [gbind];
    rewrite (version_byte_shift _ _ _ Ha), embedded_fields_spec by (done || (unfold oos_tcp, oos_udp; cbn; lia)); cbn [gbind].
  - unfold oos_tcp. set (k := transportChecksum _ _ _ _). cbn [orb Z.eqb Pos.eqb ipProtocolNumberTcp ipProtocolNumberUdp].
    unfold get_u16, get_u32. cbn -[be16 be32 byte_of]. by rewrite !be16_split, be32_split.
  - unfold oos_udp. set (k := if _ =? 0 then _ else _). cbn [orb Z.eqb Pos.eqb ipProtocolNumberTcp ipProtocolNumberUdp].
    unfold get_u16. cbn -[be16 byte_of]. by rewrite !be16_split.
Qed.

Definition icmp_error (ty code c w : Z) (embedded : bytes) : bytes :=
  [ty; code; byte_of c 8; byte_of c 0] ++ u32_wire w ++ embedded.

Definition icmp_number (v : Z) : Z := if v =? 4 then ipProtocolNumberIcmp4 else ipProtocolNumberIcmp6.

(** An ICMP error about a packet of [p], addressed back to its sender. *)
Definition error_packet (p : IpPath) (ty code w : Z) (embedded : bytes) : bytes :=
  let k := icmp_checksum (Version p) (DestinationIp p) (SourceIp p) (icmp_error ty code 0 w embedded) in
  path_header (Reverse p) (icmp_number (Version p)) (icmp_error ty code 0 w embedded) ++ icmp_error ty code k w embedded.

Lemma writeHeader_spec ty code e n :
  length e = n -> writeHeader (replicate (8 + n) 0) ty code e = Ret (icmp_error ty code 0 0 e).
Proof.
  intros <-. rewrite replicate_add. set (b := replicate (length e) 0).
  assert (Lb : length b = length e) by apply length_replicate.
  transitivity (copy_into ([ty; code; 0; 0; 0; 0; 0; 0] ++ b) 8 (8 + length b) e); [reflexivity|].
  rewrite copy_tail by (done || lia). by rewrite (drop_ge b), app_nil_r by lia.
Qed.

Lemma put_error_checksum ty code w e k :
  put_u16 (icmp_error ty code 0 w e) 2 k = Ret (icmp_error ty code k w e).
Proof. reflexivity. Qed.

(** The unreachable code for the flow. *)
Definition unreachable_type (v : Z) : Z :=
  if v =? 4 then icmpv4TypeDestinationUnreachable else icmpv6TypeDestinationUnreachable.

Definition unreachable_code (p : IpPath) : Z :=
  match Protocol p with
  | IpProtocolTcp => if Version p =? 4 then icmpv4CodeHostUnreachable else icmpv6CodeNoRoute
  | _ => if Version p =? 4 then icmpv4CodePortUnreachable else icmpv6CodePortUnreachable
  end.

Lemma ipOosUnreachable_spec p :
  path_ok p -> transport_path p ->
  ipOosUnreachable p =
    Ret (Some (error_packet p (unreachable_type (Version p)) (unreachable_code p) 0 (quoted_packet p tcpFlagSyn))).
Proof.
  intros Hok Hp. pose proof Hok as (Ha & _).
  assert (Hv : negb ((Version p =? 4) || (Version p =? 6)) = false)
    by (by destruct Ha as (_ & _ & [(-> & _)|(-> & _)])).
  unfold ipOosUnreachable. rewrite Hv. clear Hv.
  set (v4 := match Protocol p with IpProtocolTcp => icmpv4CodeHostUnreachable | _ => icmpv4CodePortUnreachable end).
  set (v6 := match Protocol p with IpProtocolTcp => icmpv6CodeNoRoute | _ => icmpv6CodePortUnreachable end).
  match goal with |- gbind ?m _ = _ => assert (Eb : m = Ret (Some (quoted_packet p tcpFlagSyn, v4, v6))) end.
  { unfold v4, v6, quoted_packet. destruct Hp as [E|E]; rewrite E.
    - by rewrite ipOosTcpPacketSequence_spec.
    - by rewrite ipOosUdpPacket_spec by (done || (cbn; lia)). }
  rewrite Eb. cbn [gbind]. clear Eb. set (e := quoted_packet p tcpFlagSyn).
  assert (Hr : forall proto n, byte_ok proto -> ipTransportPacket (Reverse p) proto n =
    Ret (ip_header (Version p) (Z.of_nat (ipHeaderByteCount (Version p) + n)) proto (DestinationIp p) (SourceIp p),
         replicate n 0)).
  { intros proto n Hb. apply (ipTransportPacket_spec (Reverse p)); [by apply addresses_swap|done]. }
  unfold error_packet, unreachable_type, unreachable_code, icmp_number, icmp_checksum, path_header.
  destruct Ha as (_ & _ & [(Ev & Hs & Hd)|(Ev & Hs & Hd)]); cbn [Version Reverse SourceIp DestinationIp];
    rewrite Ev in *; cbn [Z.eqb Pos.eqb].
  - rewrite Hr by done. cbn [gbind]. unfold icmpUnreachableHeaderSize. rewrite writeHeader_spec by done. cbn [gbind].
    rewrite put_error_checksum. cbn [gbind]. unfold v4. by destruct Hp as [E|E]; rewrite E.
  - rewrite Hr by done. cbn [gbind]. unfold icmpUnreachableHeaderSize. rewrite writeHeader_spec by done. cbn [gbind].
    rewrite put_error_checksum, !To16_wire_16 by done. cbn [gbind]. unfold v6. by destruct Hp as [E|E]; rewrite E.
Qed.

Lemma quoted_packet_length p flags :
  path_ok p -> (length (quoted_packet p flags) <= 60)%nat.
Proof.
  intros (Ha & _). pose proof (fun total proto => ip_header_length (Version p) total proto _ _ Ha) as Lh.
  assert (ipHeaderByteCount (Version p) <= 40)%nat
    by (destruct Ha as (_ & _ & [(-> & _)|(-> & _)]); apply Nat.leb_le; reflexivity).
  unfold quoted_packet, path_header. destruct (Protocol p); rewrite length_app, Lh; unfold oos_tcp, oos_udp; cbn; lia.
Qed.

Lemma error_body p ty code w e :
  path_ok p -> (length e <= 60)%nat ->
  let k := icmp_checksum (Version p) (DestinationIp p) (SourceIp p) (icmp_error ty code 0 w e) in
  ipIcmpBody (error_packet p ty code w e) = Ret (Some (icmp_error ty code k w e)).
Proof.
  intros (Ha & _) He. cbn zeta. unfold error_packet, path_header, icmp_number. cbn [Version Reverse SourceIp DestinationIp].
  apply ipIcmpBody_spec.
  - by apply addresses_swap.
  - done.
  - cbn [length icmp_error app u32_wire]. unfold ip_limit, ipHeaderByteCount, Ipv4HeaderSizeWithoutExtensions, Ipv6HeaderSize.
    destruct (Version p =? 4), (Version p =? 6); lia.
Qed.

(** Recognising the error built for a flow recovers the flow. *)
Lemma unreachable_parses p :
  path_ok p -> transport_path p ->
  ipParseIcmpUnreachable (error_packet p (unreachable_type (Version p)) (unreachable_code p) 0 (quoted_packet p tcpFlagSyn)) =
    Ret (Some (quoted p)).
Proof.
  intros Hok Hp. pose proof (quoted_packet_length p tcpFlagSyn Hok) as Hl.
  set (e := quoted_packet p tcpFlagSyn). unfold ipParseIcmpUnreachable. rewrite error_body by done. cbn [gbind].
  set (k := icmp_checksum _ _ _ _).
  assert (E0 : index (error_packet p (unreachable_type (Version p)) (unreachable_code p) 0 e) 0 = Ret (version_byte (Version p))).
  { unfold error_packet, path_header. apply header_index0, addresses_swap. apply Hok. }
  rewrite E0. cbn [gbind]. rewrite (proj2 (Nat.eqb_neq _ _)).
  2:{ unfold error_packet. rewrite length_app. cbn. lia. }
  rewrite (proj2 (Nat.ltb_ge _ _)) by (unfold icmpUnreachableHeaderSize, icmp_error; rewrite !length_app; cbn [length u32_wire]; lia).
  change (index (icmp_error _ _ _ _ _) 0) with (@Ret Z (unreachable_type (Version p))). cbn [gbind].
  destruct Hok as (Ha & Hrest). rewrite (version_byte_shift _ _ _ Ha).
  replace (_ || _) with false by (by destruct Ha as (_ & _ & [(-> & _)|(-> & _)])).
  change (icmp_error (unreachable_type (Version p)) (unreachable_code p) k 0 e)
    with ([unreachable_type (Version p); unreachable_code p; byte_of k 8; byte_of k 0; 0; 0; 0; 0] ++ e).
  rewrite slice_cut by done. cbn [gbind]. by apply quoted_packet_parses.
Qed.

(** ** Path-mtu signals *)

Lemma u16_word m : 0 <= m < 65536 -> byte_of m 24 = 0 /\ byte_of m 16 = 0.
Proof.
  intros Hm. rewrite !byte_of_div by lia. change (2 ^ 24) with 16777216. change (2 ^ 16) with 65536.
  by rewrite !Z.div_small by lia.
Qed.

Definition too_big_type (v : Z) : Z := if v =? 4 then icmpv4TypeDestinationUnreachable else icmpv6TypePacketTooBig.
Definition too_big_code (v : Z) : Z := if v =? 4 then icmpv4CodeFragmentationNeeded else 0.

Lemma fill_error ty code a b c d e n :
  length e = n ->
  (let! icmp := set_index (replicate (8 + n) 0) 0 ty in
   let! icmp := set_index icmp 1 code in
   let! icmp := set_index icmp 2 0 in
   let! icmp := set_index icmp 3 0 in
   let! icmp := set_index icmp 4 a in
   let! icmp := set_index icmp 5 b in
   let! icmp := set_index icmp 6 c in
   let! icmp := set_index icmp 7 d in
   copy_into icmp 8 (length icmp) e) = Ret ([ty; code; 0; 0; a; b; c; d] ++ e).
Proof.
  intros <-. rewrite replicate_add. set (z := replicate (length e) 0).
  assert (Lb : length z = length e) by apply length_replicate.
  transitivity (copy_into ([ty; code; 0; 0; a; b; c; d] ++ z) 8 (8 + length z) e); [reflexivity|].
  rewrite copy_tail by (done || lia). by rewrite (drop_ge z), app_nil_r by lia.
Qed.

Lemma gbind_assoc {A B C} (m : go A) (f : A -> go B) (g : B -> go C) :
  gbind (gbind m f) g = gbind m (fun x => gbind (f x) g).
Proof. by destruct m. Qed.

(** Runs the goal's computation along an equation for its prefix. *)
Ltac align_binds E :=
  repeat (rewrite ?gbind_assoc;
    match type of E with
    | gbind ?m _ = Ret _ => destruct m; [|discriminate E]; cbn [gbind] in *
    end); rewrite ?gbind_assoc.

Lemma ipOosPacketTooBig_spec p mtu :
  path_ok p -> transport_path p -> 0 <= mtu < 65536 ->
  ipOosPacketTooBig p mtu =
    Ret (Some (error_packet p (too_big_type (Version p)) (too_big_code (Version p)) mtu (quoted_packet p tcpFlagAck))).
Proof.
  intros Hok Hp Hm. pose proof Hok as (Ha & _). destruct (u16_word mtu Hm) as [M1 M2].
  assert (Hv : negb ((Version p =? 4) || (Version p =? 6)) = false)
    by (by destruct Ha as (_ & _ & [(-> & _)|(-> & _)])).
  unfold ipOosPacketTooBig. rewrite Hv. clear Hv.
  match goal with |- gbind ?m _ = _ => assert (Eb : m = Ret (Some (quoted_packet p tcpFlagAck))) end.
  { unfold quoted_packet. destruct Hp as [E|E]; rewrite E.
    - by rewrite ipOosTcpPacketSequence_spec.
    - by rewrite ipOosUdpPacket_spec by (done || (cbn; lia)). }
  rewrite Eb. cbn [gbind]. clear Eb. set (e := quoted_packet p tcpFlagAck).
  assert (Hr : forall proto n, byte_ok proto -> ipTransportPacket (Reverse p) proto n =
    Ret (ip_header (Version p) (Z.of_nat (ipHeaderByteCount (Version p) + n)) proto (DestinationIp p) (SourceIp p),
         replicate n 0)).
  { intros proto n Hb. apply (ipTransportPacket_spec (Reverse p)); [by apply addresses_swap|done]. }
  unfold error_packet, too_big_type, too_big_code, icmp_number, icmp_checksum, path_header, icmp_error, u32_wire.
  rewrite (u16_small mtu), (u32_small mtu), M1, M2 by lia. unfold icmpUnreachableHeaderSize, put_u32, put_u16.
  change (byte_of 0 8) with 0. change (byte_of 0 0) with 0.
  change (4 + 1)%nat with 5%nat. change (4 + 2)%nat with 6%nat. change (4 + 3)%nat with 7%nat.
  change (6 + 1)%nat with 7%nat.
  destruct Ha as (_ & _ & [(Ev & Hs & Hd)|(Ev & Hs & Hd)]); cbn [Version Reverse SourceIp DestinationIp];
    rewrite Ev in *; cbn [Z.eqb Pos.eqb]; rewrite Hr by done; cbn [gbind]; rewrite ?To16_wire_16, ?M1, ?M2 by done.
  - pose proof (fill_error icmpv4TypeDestinationUnreachable icmpv4CodeFragmentationNeeded 0 0 (byte_of mtu 8) (byte_of mtu 0)
      e (length e) eq_refl) as E.
    revert E. generalize (replicate (8 + length e) 0). intros l E.
    align_binds E. rewrite E. reflexivity.
  - pose proof (fill_error icmpv6TypePacketTooBig 0 0 0 (byte_of mtu 8) (byte_of mtu 0)
      e (length e) eq_refl) as E.
    revert E. generalize (replicate (8 + length e) 0). intros l E.
    align_binds E. rewrite E. reflexivity.
Qed.

Lemma too_big_parses p mtu k :
  path_ok p -> transport_path p -> 0 < mtu < 65536 ->
  let icmp := icmp_error (too_big_type (Version p)) (too_big_code (Version p)) k mtu (quoted_packet p tcpFlagAck) in
  (if Version p =? 4 then ipParseIcmpv4FragmentationNeeded icmp else ipParseIcmpv6PacketTooBig icmp) =
    Ret (Some (mtu, quoted p)).
Proof.
  intros Hok Hp Hm. cbn zeta. set (e := quoted_packet p tcpFlagAck). set (icmp := icmp_error _ _ _ _ _).
  assert (Ll : (8 <= length icmp)%nat) by (unfold icmp, icmp_error; rewrite !length_app; cbn; lia).
  assert (Es : slice icmp 8 (length icmp) = Ret e).
  { change icmp with ([too_big_type (Version p); too_big_code (Version p); byte_of k 8; byte_of k 0;
      byte_of mtu 24; byte_of mtu 16; byte_of mtu 8; byte_of mtu 0] ++ e). by apply slice_cut. }
  assert (E6 : get_u16 icmp 6 = Ret mtu) by (transitivity (Ret (be16 (byte_of mtu 8) (byte_of mtu 0))); [done|by rewrite be16_split by lia]).
  assert (E4 : get_u32 icmp 4 = Ret mtu).
  { transitivity (Ret (be32 (byte_of mtu 24) (byte_of mtu 16) (byte_of mtu 8) (byte_of mtu 0))); [done|by rewrite be32_split by lia]. }
  unfold ipParseIcmpv4FragmentationNeeded, ipParseIcmpv6PacketTooBig, icmpUnreachableHeaderSize.
  rewrite (proj2 (Nat.ltb_ge _ _)), E6, E4, Es by lia.
  change (index icmp 0) with (@Ret Z (too_big_type (Version p))). change (index icmp 1) with (@Ret Z (too_big_code (Version p))).
  cbn [gbind]. rewrite (proj2 (Z.eqb_neq mtu 0)), (proj2 (Z.leb_gt mtu 0)), (proj2 (Z.ltb_ge 65535 mtu)) by lia.
  unfold e. rewrite quoted_packet_parses by done. cbn [orb gbind].
  destruct Hok as ((_ & _ & [(-> & _)|(-> & _)]) & _); done.
Qed.

(** ** Nothing panics *)

Lemma slice_bytes (l : bytes) i j r : bytes_ok l -> r = take (j - i) (drop i l) -> bytes_ok r.
Proof. intros Hl ->. auto with go. Qed.

Lemma put_u16_returns (l : bytes) i v :
  bytes_ok l -> (i + 2 <= length l)%nat ->
  returns (put_u16 l i v) (fun r => bytes_ok r /\ length r = length l).
Proof.
  intros Hl Hi. unfold put_u16, set_index. rewrite (proj2 (Nat.ltb_lt _ _)) by lia. cbn [gbind].
  rewrite length_insert, (proj2 (Nat.ltb_lt _ _)) by lia. apply returns_ret.
  rewrite !length_insert. split; [|done]. auto using bytes_ok_insert, byte_of_ok.
Qed.

Lemma ipv6EmbedForWalk_returns embedded :
  bytes_ok embedded -> (48 <= length embedded)%nat ->
  returns (ipv6EmbedForWalk embedded) (fun r => bytes_ok r /\ length r = length embedded).
Proof.
  intros Hb Hl. unfold ipv6EmbedForWalk. greturns get_u16_returns; [done|lia|]. intros n _.
  destruct (_ <? _)%nat; [|by apply returns_ret]. apply put_u16_returns; [done|lia].
Qed.

Lemma embedded_fields_returns embedded v :
  bytes_ok embedded -> (1 <= length embedded)%nat ->
  returns (embedded_fields embedded v) (fun r => forall proto src dst transport,
    r = Some (proto, src, dst, transport) -> addresses_ok v src dst /\ bytes_ok transport /\ (8 <= length transport)%nat).
Proof.
  intros Hb Hn. unfold embedded_fields, Ipv4HeaderSizeWithoutExtensions, Ipv6HeaderSize.
  destruct (Z.eqb_spec v 4) as [->|_]; [|destruct (Z.eqb_spec v 6) as [->|_]; [|by apply returns_ret]].
  - destruct (Nat.ltb_spec (length embedded) 20); [by apply returns_ret|].
    greturns @index_returns; [lia|]. intros b0 _. destruct (_ || _) eqn:E; [by apply returns_ret|].
    apply orb_false_iff in E as [E1 E2]. apply Nat.ltb_ge in E1, E2.
    greturns @index_returns; [lia|]. intros proto _.
    greturns @slice_returns; [lia|lia|]. intros src [Es Ls]. greturns @slice_returns; [lia|lia|]. intros dst [Ed Ld].
    greturns @slice_returns; [lia|lia|]. intros t [Et Lt]. apply returns_ret. intros ? ? ? ? [= <- <- <- <-].
    split; [|split; [by eapply slice_bytes|lia]]. split; [by eapply slice_bytes|]. split; [by eapply slice_bytes|]. left. lia.
  - destruct (Nat.ltb_spec (length embedded) (40 + 8)); [by apply returns_ret|].
    greturns @index_returns; [lia|]. intros b6 _.
    eapply (returns_bind _ _ (fun _ => True)).
    + destruct (isIpv6ExtensionHeader b6); [|by apply returns_ret].
      greturns ipv6EmbedForWalk_returns; [done|lia|]. intros clamped [Hc _].
      greturns walk_returns; [done|]. intros [walk|] _; [|by apply returns_ret].
      destruct (fragmented walk); by apply returns_ret.
    + intros [[proto offset]|] _; [|by apply returns_ret].
      destruct (Nat.ltb_spec (length embedded) (offset + 8)); [by apply returns_ret|].
      greturns @slice_returns; [lia|lia|]. intros src [Es Ls]. greturns @slice_returns; [lia|lia|]. intros dst [Ed Ld].
      greturns @slice_returns; [lia|lia|]. intros t [Et Lt]. apply returns_ret. intros ? ? ? ? [= <- <- <- <-].
      split; [|split; [by eapply slice_bytes|lia]]. split; [by eapply slice_bytes|]. split; [by eapply slice_bytes|]. right. lia.
Qed.

(** Whatever the embed, a recovered path is a usable TCP or UDP path. *)
Lemma ipParseIcmpEmbeddedPath_returns embedded :
  bytes_ok embedded ->
  returns (ipParseIcmpEmbeddedPath embedded) (fun r => forall p, r = Some p ->
    path_ok p /\ transport_path p /\ quoted p = p).
Proof.
  intros Hb. unfold ipParseIcmpEmbeddedPath. destruct (Nat.eqb_spec (length embedded) 0); [by apply returns_ret|].
  greturns @index_returns; [lia|]. intros b0 _. set (v := Z.shiftr b0 4).
  greturns embedded_fields_returns; [done|lia|]. intros [[[[proto src] dst] t]|] Hf; [|by apply returns_ret].
  destruct (Hf _ _ _ _ eq_refl) as (Ha & Ht & Hl). destruct (_ || _); [|by apply returns_ret].
  greturns get_u16_returns; [done|lia|]. intros sp Hsp. greturns get_u16_returns; [done|lia|]. intros dp Hdp.
  destruct (proto =? ipProtocolNumberTcp).
  - greturns get_u32_returns; [done|lia|]. intros sq Hsq. apply returns_ret. intros p [= <-].
    split; [done|]. split; [by left|done].
  - apply returns_ret. intros p [= <-]. split; [split; [done|]; cbn; lia|]. split; [by right|done].
Qed.

Lemma ipIcmpBody_returns packet :
  bytes_ok packet -> returns (ipIcmpBody packet) (fun r => forall b, r = Some b -> bytes_ok b).
Proof.
  intros Hb. unfold ipIcmpBody, Ipv4HeaderSizeWithoutExtensions. destruct (Nat.eqb_spec (length packet) 0); [by apply returns_ret|].
  greturns @index_returns; [lia|]. intros b0 _. destruct (_ =? 4); [|destruct (_ =? 6); [|by apply returns_ret]].
  - destruct (Nat.ltb_spec (length packet) 20); [by apply returns_ret|]. destruct (_ || _) eqn:E; [by apply returns_ret|].
    apply orb_false_iff in E as [E1 E2]. apply Nat.ltb_ge in E1, E2.
    greturns @index_returns; [lia|]. intros proto _. destruct (negb _); [by apply returns_ret|].
    greturns @slice_returns; [lia|lia|]. intros body [Eb _]. apply returns_ret. intros b [= <-]. by eapply slice_bytes.
  - destruct (walk_returns packet Hb) as (r & Er & Hr).
    rewrite (proj1 (ipv6_transport_walk packet)), Er. cbn [gbind].
    destruct r as [walk|]; [|by apply returns_ret]. destruct (Hr walk eq_refl) as (Ho & He & _).
    destruct (fragmented walk); [by apply returns_ret|]. destruct (negb _); [by apply returns_ret|].
    greturns @slice_returns; [lia|lia|]. intros body [Eb _]. apply returns_ret. intros b [= <-]. by eapply slice_bytes.
Qed.

Lemma ipParseIcmpUnreachable_returns packet :
  bytes_ok packet ->
  returns (ipParseIcmpUnreachable packet) (fun r => forall p, r = Some p ->
    path_ok p /\ transport_path p /\ quoted p = p).
Proof.
  intros Hb. unfold ipParseIcmpUnreachable. destruct (Nat.eqb_spec (length packet) 0); [by apply returns_ret|].
  greturns ipIcmpBody_returns; [done|]. intros [icmp|] Hi; [|by apply returns_ret]. specialize (Hi _ eq_refl).
  unfold icmpUnreachableHeaderSize. destruct (Nat.ltb_spec (length icmp) 8); [by apply returns_ret|].
  greturns @index_returns; [lia|]. intros b0 _. greturns @index_returns; [lia|]. intros ty _.
  destruct (_ || _); [by apply returns_ret|]. greturns @slice_returns; [lia|lia|]. intros e [Ee _].
  apply ipParseIcmpEmbeddedPath_returns. by eapply slice_bytes.
Qed.

Lemma parse_transport_returns g v r packet width header :
  bytes_ok packet -> parsed_inside width header packet r -> returns (parse_transport g v r).2 (fun _ => True).
Proof.
  intros Hb Hr. destruct r as [[[[proto src] dst] t]|]; [|by apply returns_ret]. cbn.
  assert (Ht : bytes_ok t).
  { destruct (Hr _ _ _ _ eq_refl) as (_ & _ & i & j & _ & _ & ->). auto with go. }
  destruct (proto =? ipProtocolNumberUdp); [|destruct (proto =? ipProtocolNumberTcp)].
  - cbn. greturns parseUdpPacket_returns; [done|]. intros [u|] _; by apply returns_ret.
  - cbn. greturns parseTcpPacket_returns; [done|]. intros [u|] _; by apply returns_ret.
  - unfold parseIcmpIpPath. destruct (negb _); [by apply returns_ret|]. destruct (negb _); [by apply returns_ret|].
    destruct (icmpEchoParsingEnabled g v) as [g' enabled]. destruct (negb enabled); [by apply returns_ret|].
    cbn. greturns parseIcmpPacket_returns; [done|]. intros [i|] _; [|by apply returns_ret].
    destruct (echoRequest i); by apply returns_ret.
Qed.

Lemma ParseIpPathWithPayload_returns g packet :
  bytes_ok packet -> returns (ParseIpPathWithPayload g packet).2 (fun _ => True).
Proof.
  intros Hb. unfold ParseIpPathWithPayload. destruct (Nat.eqb_spec (length packet) 0); [by apply returns_ret|].
  destruct (lookup_lt_is_Some_2 packet 0) as [b0 H0]; [lia|]. rewrite (index_ret _ _ _ H0).
  destruct (_ =? 4); [|destruct (_ =? 6); [|by apply returns_ret]].
  - destruct (parseIpv4_returns packet Hb) as (r & -> & Hr). by apply (parse_transport_returns g 4 r packet 4 20).
  - destruct (parseIpv6_returns packet Hb) as (r & -> & Hr). by apply (parse_transport_returns g 6 r packet 16 40).
Qed.

(** The dispatch on the version nibble of a written packet. *)
Lemma ParseIpPathWithPayload_dispatch g p proto t :
  path_ok p -> isIpv6ExtensionHeader proto = false ->
  Z.of_nat (ipHeaderByteCount (Version p) + length t) <= ip_limit (Version p) ->
  ParseIpPathWithPayload g (path_header p proto t ++ t) =
    parse_transport g (Version p) (Some (proto, SourceIp p, DestinationIp p, t)).
Proof.
  intros (Ha & _) Hx Hl. unfold ParseIpPathWithPayload, path_header.
  pose proof (parseIp_header (Version p) _ proto _ _ t Ha Hx eq_refl Hl) as E.
  rewrite length_app, ip_header_length, header_index0, (version_byte_shift _ _ _ Ha) by done.
  destruct Ha as (_ & _ & [(Ev & _)|(Ev & _)]); rewrite Ev in *.
  - change (parseIp 4) with parseIpv4 in E. change (ipHeaderByteCount 4) with 20%nat in *.
    rewrite (proj2 (Nat.eqb_neq _ _)) by lia. cbn [Z.eqb Pos.eqb]. by rewrite E.
  - change (parseIp 6) with parseIpv6 in E. change (ipHeaderByteCount 6) with 40%nat in *.
    rewrite (proj2 (Nat.eqb_neq _ _)) by lia. cbn [Z.eqb Pos.eqb]. by rewrite E.
Qed.

(** ** Claims *)

(** A packet built outside any sequence parses, under either setting of
    the echo gate, to exactly the path it was built for, with its payload:
    addresses, ports and protocol, and for TCP the sequence number and the
    SYN, RST and ACK flags it was given. *)
Theorem oos_packet_roundtrip g p flags sequence payload :
  path_ok p -> bytes_ok payload -> byte_ok flags -> 0 <= sequence < 4294967296 ->
  Z.of_nat (ipHeaderByteCount (Version p) + 20 + length payload) <= ip_limit (Version p) ->
  (exists packet, ipOosUdpPacket p payload = Ret packet /\
     ParseIpPathWithPayload g packet =
       (g, Ret (Some (mkIpPath (Version p) IpProtocolUdp (SourceIp p) (SourcePort p) (DestinationIp p) (DestinationPort p)
                        0 false false false, payload)))) /\
  (exists packet, ipOosTcpPacketSequence p flags sequence payload = Ret packet /\
     ParseIpPathWithPayload g packet =
       (g, Ret (Some (mkIpPath (Version p) IpProtocolTcp (SourceIp p) (SourcePort p) (DestinationIp p) (DestinationPort p)
                        sequence (negb (Z.land flags 2 =? 0)) (negb (Z.land flags 4 =? 0)) (negb (Z.land flags 16 =? 0)),
                      payload)))).
Proof.
  intros Hok Hb Hf Hs Hl. pose proof Hok as (Ha & Hsp & Hdp & _).
  assert (Hn : Z.of_nat (8 + length payload) <= 65535).
  { destruct Ha as (_ & _ & [(E & _)|(E & _)]); rewrite E in Hl; unfold ip_limit in Hl; cbn in Hl; lia. }
  split.
  - rewrite ipOosUdpPacket_spec by done. eexists. split; [done|].
    rewrite ParseIpPathWithPayload_dispatch; [|done|done|unfold oos_udp; rewrite length_app; cbn [length udp_fields]; lia].
    unfold parse_transport, oos_udp. cbn [Z.eqb Pos.eqb ipProtocolNumberUdp]. by rewrite parse_udp_fields by done.
  - rewrite ipOosTcpPacketSequence_spec by done. eexists. split; [done|].
    rewrite ParseIpPathWithPayload_dispatch; [|done|done|unfold oos_tcp; rewrite length_app; cbn [length tcp_fields]; lia].
    unfold parse_transport, oos_tcp. set (k := transportChecksum _ _ _ _).
    cbn [Z.eqb Pos.eqb ipProtocolNumberUdp ipProtocolNumberTcp].
    pose proof (parse_tcp_fields (SourceIp p) (DestinationIp p) (SourcePort p) (DestinationPort p) sequence 0 flags 4096 k
      [] payload noTcpOptions Hsp Hdp Hs ltac:(lia) ltac:(lia) ltac:(cbn; lia) eq_refl eq_refl) as E.
    cbn [app] in E. change (u8 (Z.shiftl (5 + (Z.of_nat (length []) + 3) / 4) 4)) with 80 in E. by rewrite E.
Qed.

Definition demo_path : IpPath :=
  mkIpPath 4 IpProtocolTcp [10; 0; 0; 2] 40000 [1; 1; 1; 1] 443 305419896 false false false.

Lemma demo_path_ok : path_ok demo_path.
Proof. split; [exact demo_addresses|]. cbn. lia. Qed.

Definition demo_gate : icmpGate := IcmpGate 0 0 false.

Lemma oos_packet_roundtrip_witness :
  exists packet, ipOosTcpPacketSequence demo_path 4 9 [1; 2] = Ret packet /\
    ParseIpPathWithPayload demo_gate packet =
      (demo_gate, Ret (Some (mkIpPath 4 IpProtocolTcp [10; 0; 0; 2] 40000 [1; 1; 1; 1] 443 9 false true false, [1; 2]))).
Proof.
  apply (oos_packet_roundtrip demo_gate demo_path 4 9 [1; 2] demo_path_ok).
  - apply (bool_decide_eq_true_1 _). reflexivity.
  - unfold byte_ok. lia.
  - lia.
  - vm_compute. discriminate.
Defined.

(** C39: The provider's dial-failure signal: for every TCP or UDP flow the
    builder returns a packet that the client's intercept accepts as that very
    flow and the provider's return path accepts only for that flow, so the
    signal built for one flow is refused for any other. *)
Theorem dial_failure_signal p :
  path_ok p -> transport_path p -> quoted p = p ->
  exists signal, ipOosUnreachable p = Ret (Some signal) /\
    ipParseIcmpUnreachable signal = Ret (Some p) /\
    providerDialFailureEgressPath signal = Ret (Some p) /\
    providerDialFailureReturnPath (Some p) signal = Ret (Some (Reverse p)) /\
    (forall q, path_ok q -> transport_path q -> quoted q = q -> q <> p ->
       providerDialFailureReturnPath (Some q) signal = Ret None).
Proof.
  intros Hok Hp Hq. pose proof (ipOosUnreachable_spec p Hok Hp) as E. pose proof (unreachable_parses p Hok Hp) as Hu.
  rewrite Hq in Hu. eexists. split; [exact E|]. split; [exact Hu|].
  unfold providerDialFailureEgressPath, providerDialFailureReturnPath. rewrite Hu. cbn [gbind]. rewrite E. cbn [gbind].
  rewrite bool_decide_eq_true_2 by reflexivity. split; [done|]. split; [done|].
  intros q Hqok Hqp Hqq Hne. rewrite (ipOosUnreachable_spec q Hqok Hqp). cbn [gbind].
  rewrite bool_decide_eq_false_2; [done|]. intros Eq. apply Hne.
  pose proof (unreachable_parses q Hqok Hqp) as Hu2. rewrite Hqq, Eq, Hu in Hu2. congruence.
Qed.

Lemma dial_failure_signal_witness :
  exists signal, ipOosUnreachable demo_path = Ret (Some signal) /\
    providerDialFailureEgressPath signal = Ret (Some demo_path).
Proof.
  destruct (dial_failure_signal demo_path demo_path_ok) as (signal & E & _ & H & _).
  - left. reflexivity.
  - reflexivity.
  - exists signal. split; [exact E|exact H].
Defined.

(** Whatever bytes arrive, parsing a packet to its flow, recognising an
    ICMP unreachable and the dial-failure intercept return without a panic
    (the intercept re-runs a builder that panics on other versions); and a
    flow the intercept accepts is a TCP or UDP path whose own signal is
    exactly the packet that arrived. *)
Theorem flow_parsers_total g packet :
  bytes_ok packet ->
  returns (ParseIpPathWithPayload g packet).2 (fun _ => True) /\
  returns (ipParseIcmpUnreachable packet) (fun r => forall p, r = Some p -> path_ok p /\ transport_path p) /\
  returns (providerDialFailureEgressPath packet) (fun r => forall p, r = Some p ->
    path_ok p /\ transport_path p /\ ipOosUnreachable p = Ret (Some packet)).
Proof.
  intros Hb. split; [by apply ParseIpPathWithPayload_returns|].
  destruct (ipParseIcmpUnreachable_returns packet Hb) as (r & Er & Hr). split.
  - rewrite Er. apply returns_ret. intros p Hp. by destruct (Hr p Hp) as (? & ? & _).
  - unfold providerDialFailureEgressPath. rewrite Er. cbn [gbind].
    destruct r as [p|]; [|by apply returns_ret]. destruct (Hr p eq_refl) as (Hok & Hp & _).
    rewrite (ipOosUnreachable_spec p Hok Hp). cbn [gbind].
    destruct (bool_decide_reflect (error_packet p (unreachable_type (Version p)) (unreachable_code p) 0
      (quoted_packet p tcpFlagSyn) = packet)) as [E|E]; apply returns_ret; [|done].
    intros ? [= <-]. split; [done|]. split; [done|]. by rewrite (ipOosUnreachable_spec p Hok Hp), E.
Qed.

Lemma flow_parsers_total_witness :
  returns (providerDialFailureEgressPath (replicate 50 69)) (fun r => forall p, r = Some p ->
    path_ok p /\ transport_path p /\ ipOosUnreachable p = Ret (Some (replicate 50 69))).
Proof.
  apply (flow_parsers_total demo_gate (replicate 50 69)). apply (bool_decide_eq_true_1 _). reflexivity.
Defined.

(** A path-mtu signal built for a packet of a flow is found in the
    packet's ICMP body and parsed, in either family, to the reported mtu and
    the flow the oversized packet belongs to. *)
Theorem path_mtu_roundtrip p mtu :
  path_ok p -> transport_path p -> 0 < mtu < 65536 ->
  exists packet icmp, ipOosPacketTooBig p mtu = Ret (Some packet) /\ ipIcmpBody packet = Ret (Some icmp) /\
    (if Version p =? 4 then ipParseIcmpv4FragmentationNeeded icmp else ipParseIcmpv6PacketTooBig icmp) =
      Ret (Some (mtu, quoted p)).
Proof.
  intros Hok Hp Hm. eexists _, _. split; [apply ipOosPacketTooBig_spec; [done|done|lia]|].
  split; [apply error_body; [done|by apply quoted_packet_length]|]. by apply too_big_parses.
Qed.

Lemma path_mtu_roundtrip_witness :
  exists packet icmp, ipOosPacketTooBig demo_path 1280 = Ret (Some packet) /\ ipIcmpBody packet = Ret (Some icmp) /\
    ipParseIcmpv4FragmentationNeeded icmp = Ret (Some (1280, quoted demo_path)).
Proof.
  apply (path_mtu_roundtrip demo_path 1280 demo_path_ok); [left; reflexivity|lia].
Defined.
