(* ===== verification/FragmentCache.v ===== *)
(** The reassembly cache both IP families share (src/ip_fragment.go, and
    src/ip_ipv6_fragment.go, which repeats it for IPv6): incomplete datagrams of
    many sources in one bounded cache, with expiry, eviction, admission of a
    fragment and completion. A family supplies its keys, what it retains of a
    fragment and what the offset-zero fragment tells; its own file reads and
    writes the wire format. *)
From stdpp Require Import sorting.
From S2P Require Import Prelude GoIo IpFlow.

Definition ipv4FragmentReassemblyTimeout : Z := 15 * 1000000000.
Definition ipv4FragmentReassemblyMaxDatagrams : nat := 16.
Definition ipv4FragmentReassemblyMaxFragments : nat := 64.
Definition ipv4FragmentReassemblyMaxRetainedBytes : Z := 65536.

(** A message is the buffer it is in, and its bytes. [result_packet = None] is a
    nil packet; the fragments are handed over with their buffers. *)
Record ipFragmentProcessResult := ProcessResult {
  result_packet : option bytes;
  result_fragments : list (nat * bytes);
  fragment : bool;
  accepted : bool;
}.

Class FragmentFamily := {
  Key : Type;
  key_eq_dec :: EqDecision Key;
  key_countable :: Countable Key;
  (** the transfer path a key came on *)
  source : Key -> list Z;
  (** the keys releaseOldestDatagram admits *)
  evictable : Key -> bool;
  (** a retained fragment: its buffer and bytes, the header bytes that a whole
      packet repeats, [gap] more before its payload, its offset and length *)
  Frag : Type;
  frag_buffer : Frag -> nat;
  packet : Frag -> bytes;
  headByteCount : Frag -> nat;
  gap : nat;
  offset : Frag -> nat;
  payloadByteCount : Frag -> nat;
  (** what the offset-zero fragment tells; its byte count is 0 until it arrives *)
  First : Type;
  noFirst : First;
  firstByteCount : First -> nat;
  (** a first header and a final payload length that do not go together *)
  too_long : nat -> Z -> bool;
}.

(** A piece of a payload: where it starts, and its bytes. *)
Definition piece : Type := nat * bytes.

(** A piece as a fragment may carry it: whole 8-octet units unless it is the
    last, and not the only one. *)
Definition piece_more (n : nat) (x : piece) : bool := (x.1 + length x.2 <? n)%nat.

Record piece_fits (n : nat) (x : piece) : Prop := {
  pf_unit : (x.1 mod 8 = 0)%nat;
  pf_pos : (0 < length x.2)%nat;
  pf_end : (x.1 + length x.2 <= n)%nat;
  pf_bytes : bytes_ok x.2;
  pf_more : piece_more n x = true -> (length x.2 mod 8 = 0)%nat;
  pf_frag : piece_more n x = true \/ x.1 <> 0%nat;
}.

Section cache.
Context {FF : FragmentFamily}.

Definition payload (f : Frag) : go bytes :=
  slice (packet f) (headByteCount f + gap) (headByteCount f + gap + payloadByteCount f).

(** Times are nanoseconds. [finalPayloadByteCount] is -1 until the last fragment
    has arrived. *)
Record datagram := Datagram {
  createdAt : Z;
  updatedAt : Z;
  fragments : list Frag;
  first : First;
  finalPayloadByteCount : Z;
}.

(** [returned] logs the buffers given back to the message pool. *)
Record reassembler := Reassembler {
  maxRetainedBytes : Z;
  maxRetainedBytesPerSource : Z;
  datagrams : gmap Key datagram;
  retainedByteCount : Z;
  retainedBytesBySource : gmap (list Z) Z;
  returned : list nat;
}.

Definition retainedBytesForSource (r : reassembler) (s : list Z) : Z := default 0 (retainedBytesBySource r !! s).

(** One retained fragment's bytes leave the totals. *)
Definition uncharge (s : list Z) (r : reassembler) (f : Frag) : reassembler :=
  let n := Z.of_nat (length (packet f)) in
  let retained := retainedBytesForSource r s - n in
  Reassembler (maxRetainedBytes r) (maxRetainedBytesPerSource r) (datagrams r) (retainedByteCount r - n)
    (if 0 <? retained then <[s := retained]> (retainedBytesBySource r) else delete s (retainedBytesBySource r)) (returned r).

Definition set_datagrams (r : reassembler) (m : gmap Key datagram) : reassembler :=
  Reassembler (maxRetainedBytes r) (maxRetainedBytesPerSource r) m (retainedByteCount r) (retainedBytesBySource r) (returned r).
Definition give_back (r : reassembler) (l : list nat) : reassembler :=
  Reassembler (maxRetainedBytes r) (maxRetainedBytesPerSource r) (datagrams r) (retainedByteCount r) (retainedBytesBySource r) (returned r ++ l).

Definition detachDatagram (r : reassembler) (key : Key) : reassembler * list Frag :=
  match datagrams r !! key with
  | None => (r, [])
  | Some d =>
      let r := set_datagrams r (delete key (datagrams r)) in
      (fold_left (uncharge (source key)) (fragments d) r, fragments d)
  end.

Definition releaseDatagram (r : reassembler) (key : Key) : reassembler :=
  let '(r, l) := detachDatagram r key in
  give_back r (map frag_buffer l).

(** Go ranges over a map in an unspecified order: [iter] is any order. *)
Context (iter : gmap Key datagram -> list (Key * datagram)).

Definition expire (r : reassembler) (now : Z) : reassembler :=
  fold_left (fun r '(key, d) => if ipv4FragmentReassemblyTimeout <=? now - createdAt d then releaseDatagram r key else r)
    (iter (datagrams r)) r.

(** The least recently updated datagram the filter admits. *)
Definition oldest_of (eligible : Key -> bool) (l : list (Key * datagram)) : option (Key * Z) :=
  fold_left (fun best '(key, d) =>
    if eligible key then
      match best with
      | None => Some (key, updatedAt d)
      | Some (_, t) => if updatedAt d <? t then Some (key, updatedAt d) else best
      end
    else best) l None.

Definition release_oldest (eligible : Key -> bool) (r : reassembler) : reassembler * bool :=
  match oldest_of eligible (iter (datagrams r)) with
  | Some (key, _) => (releaseDatagram r key, true)
  | None => (r, false)
  end.
Definition releaseOldestDatagram (r : reassembler) : reassembler * bool := release_oldest evictable r.
Definition releaseOldestDatagramForSource (s : list Z) (r : reassembler) : reassembler * bool :=
  release_oldest (fun key => bool_decide (source key = s)) r.

(** [for need { if !release() { return false } }]: every round removes a
    datagram, so one round per datagram is enough. *)
Fixpoint evict_while (fuel : nat) (need : reassembler -> bool) (release : reassembler -> reassembler * bool) (r : reassembler)
    : reassembler * bool :=
  if need r then
    match fuel with
    | O => (r, false)
    | S fuel =>
        let '(r, released) := release r in
        if released then evict_while fuel need release r else (r, false)
    end
  else (r, true).

Definition rounds (r : reassembler) : nat := S (size (datagrams r)).

Definition makeDatagramRoom (r : reassembler) (now : Z) : reassembler :=
  let r := expire r now in
  (evict_while (rounds r) (fun r => (ipv4FragmentReassemblyMaxDatagrams <=? size (datagrams r))%nat) releaseOldestDatagram r).1.

Definition close (r : reassembler) : reassembler := fold_left releaseDatagram (iter (datagrams r)).*1 r.

(** ** One fragment *)

Inductive admission :=
| Proceed (r : reassembler) (d : datagram)   (* go on with this datagram *)
| Refused (r : reassembler)     (* the packet alone is dropped *)
| Dropped (r : reassembler).    (* the datagram is dropped with it *)

(** The budget checks before a fragment is looked at, and the new entry. *)
Definition admit_fragment (r : reassembler) (key : Key) (cost now : Z) : admission :=
  match datagrams r !! key with
  | None =>
      let r := makeDatagramRoom r now in
      if maxRetainedBytes r <? cost then Refused r
      else
        let '(r, fits) := evict_while (rounds r) (fun r => maxRetainedBytes r <? retainedByteCount r + cost) releaseOldestDatagram r in
        if negb fits then Refused r
        else
          let '(r, fits) :=
            (if 0 <? maxRetainedBytesPerSource r then
               evict_while (rounds r)
                 (fun r => maxRetainedBytesPerSource r <? retainedBytesForSource r (source key) + cost)
                 (releaseOldestDatagramForSource (source key)) r
             else (r, true)) in
          if negb fits then Refused r
          else
            let d := Datagram now now [] noFirst (-1) in
            Proceed (set_datagrams r (<[key := d]> (datagrams r))) d
  | Some d =>
      if (maxRetainedBytes r <? retainedByteCount r + cost) ||
         ((0 <? maxRetainedBytesPerSource r) &&
          (maxRetainedBytesPerSource r <? retainedBytesForSource r (source key) + cost))
      then Dropped (releaseDatagram r key)
      else Proceed r d
  end.

Inductive verdict := Duplicate | Conflict | Fits.

Fixpoint overlap_check (l : list Frag) (offset' fragmentEnd : nat) (fragmentPayload : bytes) : go verdict :=
  match l with
  | [] => Ret Fits
  | f :: l =>
      let retainedEnd := (offset f + payloadByteCount f)%nat in
      if ((offset' =? offset f) && (fragmentEnd =? retainedEnd))%nat then
        let! p := payload f in
        Ret (if bool_decide (fragmentPayload = p) then Duplicate else Conflict)
      else if ((offset' <? retainedEnd) && (offset f <? fragmentEnd))%nat then Ret Conflict
      else overlap_check l offset' fragmentEnd fragmentPayload
  end.

(** The final length and the first header after this fragment, which tells
    [mine] if it is the first; [None] drops. *)
Definition placement (d : datagram) (moreFragments : bool) (offset' fragmentEnd : nat) (mine : First) : option (First * Z) :=
  let final :=
    if negb moreFragments then
      if (0 <=? finalPayloadByteCount d) && negb (finalPayloadByteCount d =? Z.of_nat fragmentEnd) then None
      else if existsb (fun f => fragmentEnd <? offset f + payloadByteCount f)%nat (fragments d) then None
      else Some (Z.of_nat fragmentEnd)
    else if (0 <=? finalPayloadByteCount d) && (finalPayloadByteCount d <=? Z.of_nat fragmentEnd) then None
    else Some (finalPayloadByteCount d) in
  match final with
  | None => None
  | Some final =>
      let fst :=
        if (offset' =? 0)%nat then
          if negb (firstByteCount (first d) =? 0)%nat && negb (firstByteCount (first d) =? firstByteCount mine)%nat then None
          else Some mine
        else Some (first d) in
      match fst with
      | None => None
      | Some fst => if too_long (firstByteCount fst) final then None else Some (fst, final)
      end
  end.

(** slices.SortFunc by offset; retained offsets are distinct, so every sort
    gives the same order. *)
Definition by_offset (a b : Frag) : Prop := (offset a <= offset b)%nat.

#[local] Instance by_offset_dec : RelDecision by_offset.
Proof. intros a b. unfold by_offset. apply _. Defined.

Definition sort_fragments (l : list Frag) : list Frag := merge_sort by_offset l.

Fixpoint contiguous_to (l : list Frag) (position : nat) : option nat :=
  match l with
  | [] => Some position
  | f :: l => if (offset f =? position)%nat then contiguous_to l (position + payloadByteCount f) else None
  end.

Fixpoint copy_first (l : list Frag) (n : nat) (buf : bytes) : go bytes :=
  match l with
  | [] => Ret buf
  | f :: l =>
      if (offset f =? 0)%nat then
        let! head := slice (packet f) 0 n in
        copy_into buf 0 n head
      else copy_first l n buf
  end.

Fixpoint copy_payloads (l : list Frag) (n : nat) (buf : bytes) : go bytes :=
  match l with
  | [] => Ret buf
  | f :: l =>
      let! p := payload f in
      let! buf := copy_into buf (n + offset f) (length buf) p in
      copy_payloads l n buf
  end.

(** The reassembled packet before its header is rewritten. *)
Definition assemble `{MessagePool} (l : list Frag) (n : nat) (final : Z) : go bytes :=
  let buf := pool_get (n + Z.to_nat final) in
  let! buf := copy_first l n buf in
  copy_payloads l n buf.

Definition charge (r : reassembler) (s : list Z) (n : Z) : reassembler :=
  Reassembler (maxRetainedBytes r) (maxRetainedBytesPerSource r) (datagrams r) (retainedByteCount r + n)
    (<[s := retainedBytesForSource r s + n]> (retainedBytesBySource r)) (returned r).

Definition set_max (r : reassembler) : reassembler :=
  if maxRetainedBytes r <=? 0
  then Reassembler ipv4FragmentReassemblyMaxRetainedBytes (maxRetainedBytesPerSource r) (datagrams r)
         (retainedByteCount r) (retainedBytesBySource r) (returned r)
  else r.

Definition waiting : ipFragmentProcessResult := ProcessResult None [] true true.
Definition dropped : ipFragmentProcessResult := ProcessResult None [] true false.

(** How a family finishes: the whole packet, and the owned fragments under a fresh
    identification, which it draws from its state. *)
Context {St : Type} (reassemble : list Frag -> First -> Z -> go bytes) (own : St -> list Frag -> go (St * list (nat * bytes))).

(** The retained fragment, and what its arrival completes. *)
Definition retain (r : reassembler) (st : St) (key : Key) (d : datagram) (f : Frag) (fst : First) (final now : Z)
    (retainCompletedFragments : bool) : go (reassembler * St * ipFragmentProcessResult) :=
  let r := charge r (source key) (Z.of_nat (length (packet f))) in
  let put l := set_datagrams r (<[key := Datagram (createdAt d) now l fst final]> (datagrams r)) in
  let l := fragments d ++ [f] in
  if (firstByteCount fst =? 0)%nat || (final <? 0) then Ret (put l, st, waiting)
  else
    let l := sort_fragments l in
    let r := put l in
    match contiguous_to l 0 with
    | None => Ret (r, st, waiting)
    | Some position =>
        if negb (Z.of_nat position =? final) then Ret (r, st, waiting)
        else
          let! whole := reassemble l fst final in
          if retainCompletedFragments then
            let '(r, owned) := detachDatagram r key in
            let! '(st, parts) := own st owned in
            Ret (r, st, ProcessResult (Some whole) parts true true)
          else Ret (releaseDatagram r key, st, ProcessResult (Some whole) [] true true)
    end.

(** [drop()]: the datagram goes, and the packet's buffer. *)
Definition drop_with (r : reassembler) (st : St) (key : Key) (b : nat) : go (reassembler * St * ipFragmentProcessResult) :=
  Ret (give_back (releaseDatagram r key) [b], st, dropped).

(** From the admission on: [f] is what would be retained of the packet of [cost]
    bytes, and [pl] its payload. *)
Definition offer (r : reassembler) (st : St) (key : Key) (cost : Z) (f : Frag) (pl : bytes) (mine : First) (moreFragments : bool) (now : Z)
    (retainCompletedFragments : bool) : go (reassembler * St * ipFragmentProcessResult) :=
  match admit_fragment r key cost now with
  | Refused r | Dropped r => Ret (give_back r [frag_buffer f], st, dropped)
  | Proceed r d =>
      let fragmentEnd := (offset f + payloadByteCount f)%nat in
      let! v := overlap_check (fragments d) (offset f) fragmentEnd pl in
      match v with
      | Duplicate =>
          let d := Datagram (createdAt d) now (fragments d) (first d) (finalPayloadByteCount d) in
          Ret (set_datagrams (give_back r [frag_buffer f]) (<[key := d]> (datagrams r)), st, waiting)
      | Conflict => drop_with r st key (frag_buffer f)
      | Fits =>
          if (ipv4FragmentReassemblyMaxFragments <=? length (fragments d))%nat then drop_with r st key (frag_buffer f)
          else
            match placement d moreFragments (offset f) fragmentEnd mine with
            | None => drop_with r st key (frag_buffer f)
            | Some (fst, final) => retain r st key d f fst final now retainCompletedFragments
            end
      end
  end.
End cache.

Section proofs.
Context {FF : FragmentFamily}.

(** ** Accounting *)

Definition fragment_bytes (f : Frag) : Z := Z.of_nat (length (packet f)).
Definition datagram_bytes (d : datagram) : Z := sumZ (map fragment_bytes (fragments d)).

(** The bytes retained for the keys a predicate admits. *)
Definition weight (g : Key -> bool) (m : gmap Key datagram) : Z :=
  sumZ (map (fun kd => if g kd.1 then datagram_bytes kd.2 else 0) (map_to_list m)).

Definition of_source (s : list Z) (key : Key) : bool := bool_decide (source key = s).
Definition any_key (_ : Key) : bool := true.

Lemma datagram_bytes_nonneg d : 0 <= datagram_bytes d.
Proof. apply sumZ_map_nonneg. intros f _. unfold fragment_bytes. lia. Qed.

Lemma weight_nonneg g m : 0 <= weight g m.
Proof. apply sumZ_map_nonneg. intros [k d] _. cbn. destruct (g k); [apply datagram_bytes_nonneg|done]. Qed.

Lemma weight_insert g m k d :
  m !! k = None -> weight g (<[k := d]> m) = (if g k then datagram_bytes d else 0) + weight g m.
Proof. intros Hk. unfold weight. by rewrite (sumZ_map_perm _ _ _ (map_to_list_insert m k d Hk)). Qed.

Lemma weight_delete g m k d :
  m !! k = Some d -> weight g m = (if g k then datagram_bytes d else 0) + weight g (delete k m).
Proof. intros Hk. unfold weight. by rewrite <- (sumZ_map_perm _ _ _ (map_to_list_delete m k d Hk)). Qed.

Lemma weight_update g m k d d' :
  m !! k = Some d ->
  weight g (<[k := d']> m) = weight g m + (if g k then datagram_bytes d' - datagram_bytes d else 0).
Proof.
  intros Hk. rewrite (weight_delete g m k d Hk), <- insert_delete_eq, weight_insert by apply lookup_delete_eq.
  destruct (g k); lia.
Qed.

(** The buffers of the retained fragments. *)
Definition buffers (d : datagram) : list nat := map frag_buffer (fragments d).
Definition held (m : gmap Key datagram) : list nat := concat (map (fun kd => buffers kd.2) (map_to_list m)).

Lemma concat_map_perm {A B} (f : A -> list B) (l k : list A) : l ≡ₚ k -> concat (map f l) ≡ₚ concat (map f k).
Proof.
  induction 1 as [|x l k _ IH|x y l|l1 l2 l3 _ IH1 _ IH2]; cbn; [done|by rewrite IH|by rewrite !app_assoc, (Permutation_app_comm (f y))|by rewrite IH1].
Qed.
Lemma held_insert m k d : m !! k = None -> held (<[k := d]> m) ≡ₚ buffers d ++ held m.
Proof. intros Hk. unfold held. by rewrite (concat_map_perm _ _ _ (map_to_list_insert m k d Hk)). Qed.
Lemma held_delete m k d : m !! k = Some d -> held m ≡ₚ buffers d ++ held (delete k m).
Proof. intros Hk. unfold held. by rewrite <- (concat_map_perm _ _ _ (map_to_list_delete m k d Hk)). Qed.
Lemma held_update m k d d' : m !! k = Some d -> held (<[k := d']> m) ≡ₚ buffers d' ++ held (delete k m).
Proof. intros Hk. rewrite <- insert_delete_eq. apply held_insert, lookup_delete_eq. Qed.

(** Every buffer the cache was given is with the pool or in the cache. *)
Definition books (r : reassembler) : list nat := returned r ++ held (datagrams r).

(** The counters agree with what is retained. *)
Definition exact (r : reassembler) : Prop :=
  retainedByteCount r = weight any_key (datagrams r) /\
  forall s, retainedBytesForSource r s = weight (of_source s) (datagrams r).

Definition same_limits (r r' : reassembler) : Prop :=
  maxRetainedBytes r' = maxRetainedBytes r /\ maxRetainedBytesPerSource r' = maxRetainedBytesPerSource r.

Lemma same_limits_trans r1 r2 r3 : same_limits r1 r2 -> same_limits r2 r3 -> same_limits r1 r3.
Proof. unfold same_limits. intuition congruence. Qed.

Lemma fold_uncharge s l r :
  sumZ (map fragment_bytes l) <= retainedBytesForSource r s ->
  let r' := fold_left (uncharge s) l r in
  datagrams r' = datagrams r /\ same_limits r r' /\ returned r' = returned r /\
  retainedByteCount r' = retainedByteCount r - sumZ (map fragment_bytes l) /\
  (forall s', retainedBytesForSource r' s' =
     retainedBytesForSource r s' - if decide (s' = s) then sumZ (map fragment_bytes l) else 0).
Proof.
  revert r. induction l as [|f l IH]; intros r Hs; cbn zeta.
  { cbn. repeat split; try lia. intros s'. destruct (decide (s' = s)); lia. }
  cbn [fold_left map] in *. rewrite sumZ_cons in *.
  assert (0 <= sumZ (map fragment_bytes l)) by (apply sumZ_map_nonneg; intros; unfold fragment_bytes; lia).
  assert (Hu : forall s', retainedBytesForSource (uncharge s r f) s' =
    retainedBytesForSource r s' - if decide (s' = s) then fragment_bytes f else 0).
  { intros s'. unfold uncharge, fragment_bytes in *. set (v := retainedBytesForSource r s - _).
    unfold retainedBytesForSource at 1. cbn [retainedBytesBySource].
    destruct (decide (s' = s)) as [->|Hne].
    - destruct (Z.ltb_spec 0 v); [by rewrite lookup_insert_eq|]. rewrite lookup_delete_eq. cbn. lia.
    - destruct (0 <? v); rewrite ?lookup_insert_ne, ?lookup_delete_ne by congruence; unfold retainedBytesForSource; lia. }
  destruct (IH (uncharge s r f)) as (E1 & (E2 & E3) & E0 & E4 & E5).
  { rewrite Hu, decide_True by done. lia. }
  repeat split; try done.
  - rewrite E4. cbn. unfold fragment_bytes. lia.
  - intros s'. rewrite E5, Hu. destruct (decide (s' = s)); lia.
Qed.

Lemma detach_spec r key d :
  exact r -> datagrams r !! key = Some d ->
  exists r', detachDatagram r key = (r', fragments d) /\ datagrams r' = delete key (datagrams r) /\ same_limits r r' /\ exact r' /\ returned r' = returned r.
Proof.
  intros [Et Es] Hk. unfold detachDatagram. rewrite Hk. eexists. split; [done|].
  set (r0 := set_datagrams r _).
  destruct (fold_uncharge (source key) (fragments d) r0) as (E1 & E2 & E0 & E3 & E4).
  { change (retainedBytesForSource r0 (source key)) with (retainedBytesForSource r (source key)).
    rewrite Es, (weight_delete _ _ _ _ Hk). unfold of_source. rewrite bool_decide_eq_true_2 by done.
    pose proof (weight_nonneg (of_source (source key)) (delete key (datagrams r))). unfold of_source in *.
    change (sumZ (map fragment_bytes (fragments d))) with (datagram_bytes d). lia. }
  split; [done|]. split; [done|]. split; [|done]. split.
  - rewrite E3, E1. cbn. rewrite Et, (weight_delete _ _ _ _ Hk). cbn.
    change (sumZ (map fragment_bytes (fragments d))) with (datagram_bytes d). lia.
  - intros s. rewrite E4, E1. change (retainedBytesForSource r0 s) with (retainedBytesForSource r s). cbn.
    rewrite Es, (weight_delete _ _ _ _ Hk). unfold of_source at 1.
    change (sumZ (map fragment_bytes (fragments d))) with (datagram_bytes d).
    destruct (decide (s = source key)) as [->|Hne].
    + rewrite bool_decide_eq_true_2 by done. lia.
    + rewrite bool_decide_eq_false_2 by congruence. lia.
Qed.

Lemma release_spec r key d :
  exact r -> datagrams r !! key = Some d ->
  let r' := releaseDatagram r key in
  datagrams r' = delete key (datagrams r) /\ same_limits r r' /\ exact r' /\ returned r' = returned r ++ buffers d.
Proof.
  intros Hex Hk. cbv zeta. unfold releaseDatagram. destruct (detach_spec r key d Hex Hk) as (r' & -> & E1 & E2 & E3 & E4).
  cbn [datagrams returned give_back]. split_and!; [done|done|done|]. by rewrite E4.
Qed.

Lemma release_absent r key : datagrams r !! key = None -> releaseDatagram r key = r.
Proof. intros Hk. unfold releaseDatagram, detachDatagram. rewrite Hk. unfold give_back. cbn. rewrite app_nil_r. by destruct r. Qed.

(** ** Shedding datagrams

    Expiry and eviction are sequences of releases of keys with a property. *)
Definition sheds (P : Key -> Prop) : reassembler -> reassembler -> Prop :=
  rtc (fun a b => exists k, P k /\ b = releaseDatagram a k).

Lemma sheds_weaken (P Q : Key -> Prop) r r' : (forall k, P k -> Q k) -> sheds P r r' -> sheds Q r r'.
Proof. intros HPQ. apply rtc_subrel. intros a b (k & Hk & ->). eauto. Qed.

Lemma sheds_trans P r1 r2 r3 : sheds P r1 r2 -> sheds P r2 r3 -> sheds P r1 r3.
Proof. unfold sheds. intros H1 H2. by transitivity r2. Qed.

(** What every shed keeps. *)
Record shed (P : Key -> Prop) (r r' : reassembler) : Prop := {
  sd_exact : exact r';
  sd_limits : same_limits r r';
  sd_sub : datagrams r' ⊆ datagrams r;
  sd_size : (size (datagrams r') <= size (datagrams r))%nat;
  sd_weight g : weight g (datagrams r') <= weight g (datagrams r);
  sd_keeps k : ~ P k -> datagrams r' !! k = datagrams r !! k;
  sd_books : books r' ≡ₚ books r;
}.

Lemma sheds_spec P r r' : sheds P r r' -> exact r -> shed P r r'.
Proof.
  induction 1 as [r|r r1 r' (k & Hk & ->) _ IH]; intros Hex.
  { split; try done; lia. }
  destruct (datagrams r !! k) as [d|] eqn:E.
  2:{ rewrite release_absent in IH by done. by apply IH. }
  destruct (release_spec r k d Hex E) as (E1 & (L1 & L2) & Hex1 & Er).
  destruct (IH Hex1) as [H1 (H2 & H3) H4 H5 H6 H7 H8]. rewrite E1 in *.
  assert (Hsz : size (delete k (datagrams r)) = pred (size (datagrams r))) by (by apply map_size_delete_Some).
  split; [done|split; congruence| | | | |].
  - transitivity (delete k (datagrams r)); [done|apply delete_subseteq].
  - lia.
  - intros g. pose proof (H6 g). rewrite (weight_delete g _ _ _ E). pose proof (datagram_bytes_nonneg d).
    destruct (g k); lia.
  - intros k' Hk'. rewrite H7 by done. apply lookup_delete_ne. intros ->. done.
  - rewrite H8. unfold books. rewrite Er, E1, (held_delete _ _ _ E). by rewrite app_assoc.
Qed.

Context (iter : gmap Key datagram -> list (Key * datagram)).
Context (iter_perm : forall m, iter m ≡ₚ map_to_list m).

Lemma iter_lookup m k d : (k, d) ∈ iter m <-> m !! k = Some d.
Proof. rewrite iter_perm. apply elem_of_map_to_list. Qed.

Definition expired (r : reassembler) (now : Z) (k : Key) : Prop :=
  exists d, datagrams r !! k = Some d /\ ipv4FragmentReassemblyTimeout <= now - createdAt d.

Lemma expire_sheds r now : sheds (expired r now) r (expire iter r now).
Proof.
  unfold expire. set (l := iter (datagrams r)).
  assert (Hl : forall k d, (k, d) ∈ l -> datagrams r !! k = Some d) by (intros k d; apply iter_lookup).
  generalize l Hl. clear l Hl. intros l Hl. assert (Hg : forall r0, sheds (expired r now) r0 (fold_left
    (fun r '(key, d) => if ipv4FragmentReassemblyTimeout <=? now - createdAt d then releaseDatagram r key else r) l r0)).
  { induction l as [|[k d] l IH]; intros r0; [apply rtc_refl|]. cbn [fold_left].
    assert (IH' := IH (fun k d Hin => Hl k d (list_elem_of_further _ _ _ Hin))).
    destruct (Z.leb_spec ipv4FragmentReassemblyTimeout (now - createdAt d)); [|by apply IH'].
    eapply rtc_l; [|apply IH']. exists k. split; [|done]. exists d. split; [|done]. apply Hl. apply list_elem_of_here. }
  apply Hg.
Qed.

Lemma close_sheds r : sheds (fun _ => True) r (close iter r).
Proof.
  unfold close. generalize (iter (datagrams r)).*1. intros l. revert r. induction l as [|k l IH]; intros r; [apply rtc_refl|].
  cbn [fold_left]. eapply rtc_l; [|apply IH]. by exists k.
Qed.

(** Nothing stays after a close. *)
Lemma close_empty r : exact r -> datagrams (close iter r) = ∅.
Proof.
  intros Hex. assert (Hg : forall l r, exact r -> (forall k d, datagrams r !! k = Some d -> k ∈ l) -> datagrams (fold_left releaseDatagram l r) = ∅).
  { clear r Hex. induction l as [|k l IH]; intros r Hex Hin.
    - cbn. apply map_empty. intros k. destruct (datagrams r !! k) as [d|] eqn:E; [|done]. apply Hin in E. by apply not_elem_of_nil in E.
    - cbn [fold_left]. destruct (datagrams r !! k) as [d|] eqn:E.
      + destruct (release_spec r k d Hex E) as (E1 & _ & Hex1 & _). apply IH; [done|]. rewrite E1. intros k' d' [Hne Hk']%lookup_delete_Some.
        apply Hin in Hk' as [->|Hk']%list.elem_of_cons; done.
      + rewrite release_absent by done. apply IH; [done|]. intros k' d' Hk'. pose proof (Hin k' d' Hk') as [->|?]%list.elem_of_cons; [congruence|done]. }
  unfold close. apply Hg; [done|]. intros k d Hk. apply iter_lookup in Hk. apply list_elem_of_fmap. by exists (k, d).
Qed.

Lemma oldest_of_spec eligible l :
  match oldest_of eligible l with
  | Some (k, t) => eligible k = true /\ (exists d, (k, d) ∈ l /\ t = updatedAt d) /\
                   (forall k' d', (k', d') ∈ l -> eligible k' = true -> t <= updatedAt d')
  | None => forall k d, (k, d) ∈ l -> eligible k = false
  end.
Proof.
  unfold oldest_of. set (step := fun _ _ => _). induction l as [|[k d] l IH] using rev_ind; [set_solver|].
  rewrite fold_left_app. cbn [fold_left]. unfold step at 1.
  destruct (fold_left step l None) as [[k0 t0]|]; destruct (eligible k) eqn:E.
  - destruct IH as (Ha & (d0 & Hin & Ht) & Hmin). destruct (Z.ltb_spec (updatedAt d) t0).
    + split; [done|]. split; [exists d; split; [set_solver|done]|]. intros k' d' [Hi|Hi]%elem_of_app Ha'.
      * pose proof (Hmin k' d' Hi Ha'). lia.
      * apply list_elem_of_singleton in Hi. simplify_eq. lia.
    + split; [done|]. split; [exists d0; split; [set_solver|done]|]. intros k' d' [Hi|Hi]%elem_of_app Ha'.
      * by apply (Hmin k').
      * apply list_elem_of_singleton in Hi. simplify_eq. lia.
  - destruct IH as (Ha & (d0 & Hin & Ht) & Hmin). split; [done|]. split; [exists d0; split; [set_solver|done]|].
    intros k' d' [Hi|Hi]%elem_of_app Ha'; [by apply (Hmin k')|]. apply list_elem_of_singleton in Hi. congruence.
  - split; [done|]. split; [exists d; split; [set_solver|done]|]. intros k' d' [Hi|Hi]%elem_of_app Ha'.
    + rewrite (IH k' d' Hi) in Ha'. done.
    + apply list_elem_of_singleton in Hi. simplify_eq. lia.
  - intros k' d' [Hi|Hi]%elem_of_app; [by apply (IH k' d')|]. apply list_elem_of_singleton in Hi. congruence.
Qed.

(** An eviction releases a least recently updated admissible datagram, and
    fails only when there is none. *)
Lemma release_oldest_spec eligible r r' b :
  release_oldest iter eligible r = (r', b) ->
  if b then exists k d, eligible k = true /\ datagrams r !! k = Some d /\ r' = releaseDatagram r k /\
              (forall k' d', datagrams r !! k' = Some d' -> eligible k' = true -> updatedAt d <= updatedAt d')
  else r' = r /\ forall k d, datagrams r !! k = Some d -> eligible k = false.
Proof.
  unfold release_oldest. pose proof (oldest_of_spec eligible (iter (datagrams r))) as Ho.
  destruct (oldest_of _ _) as [[k t]|]; intros [= <- <-].
  - destruct Ho as (Ha & (d & Hin & ->) & Hmin). exists k, d. split; [done|]. split; [by apply iter_lookup|].
    split; [done|]. intros k' d' Hk'. apply Hmin. by apply iter_lookup.
  - split; [done|]. intros k d Hk. apply (Ho k d). by apply iter_lookup.
Qed.

Lemma evict_while_spec fuel need eligible r r' b :
  exact r -> (size (datagrams r) < fuel)%nat ->
  evict_while fuel need (release_oldest iter eligible) r = (r', b) ->
  sheds (fun k => eligible k = true) r r' /\
  (if b then need r' = false
   else need r' = true /\ forall k d, datagrams r' !! k = Some d -> eligible k = false).
Proof.
  revert r. induction fuel as [|fuel IH]; intros r Hex Hf He; [lia|]. cbn [evict_while] in He.
  destruct (need r) eqn:En; [|injection He as <- <-; split; [apply rtc_refl|done]].
  destruct (release_oldest iter eligible r) as [r1 b1] eqn:Er. apply release_oldest_spec in Er. destruct b1.
  - destruct Er as (k & d & Ha & Hk & -> & _). destruct (release_spec r k d Hex Hk) as (E1 & _ & Hex1 & _).
    assert (Hsz : size (delete k (datagrams r)) = pred (size (datagrams r))) by (by apply map_size_delete_Some).
    assert (size (datagrams r) <> 0%nat) by (intros E0; apply map_size_empty_inv in E0; rewrite E0 in Hk; done).
    destruct (IH _ Hex1 ltac:(rewrite E1; lia) He) as [Hs Hb]. split; [|done].
    eapply rtc_l; [|exact Hs]. exists k. done.
  - injection He as <- <-. destruct Er as [-> Hall]. split; [apply rtc_refl|]. done.
Qed.

Context (evictable_all : forall k, evictable k = true).

Lemma makeDatagramRoom_spec r now :
  exact r ->
  let r' := makeDatagramRoom iter r now in
  exact r' /\ sheds (fun _ => True) r r' /\ (size (datagrams r') < 16)%nat.
Proof.
  intros Hex. cbn zeta. unfold makeDatagramRoom. pose proof (expire_sheds r now) as Hs0.
  pose proof (sd_exact _ _ _ (sheds_spec _ _ _ Hs0 Hex)) as Hex0. set (r0 := expire iter r now) in *.
  destruct (evict_while _ _ _ _) as [r1 b] eqn:E. cbn [fst]. unfold releaseOldestDatagram in E.
  destruct (evict_while_spec _ _ _ _ _ _ Hex0 (Nat.lt_succ_diag_r _) E) as [Hs Hb].
  pose proof (sd_exact _ _ _ (sheds_spec _ _ _ Hs Hex0)) as Hex1.
  split; [done|]. split.
  { eapply sheds_trans; [eapply sheds_weaken; [|exact Hs0]; done|eapply sheds_weaken; [|exact Hs]; done]. }
  unfold ipv4FragmentReassemblyMaxDatagrams in Hb. destruct b.
  - apply Nat.leb_gt in Hb. done.
  - destruct Hb as [Hn Hall]. assert (datagrams r1 = ∅) as ->; [|rewrite map_size_empty; lia].
    apply map_empty. intros k. destruct (datagrams r1 !! k) as [d|] eqn:Ek; [|done].
    pose proof (Hall k d Ek) as Hz. by rewrite evictable_all in Hz.
Qed.

(** ** Fragments

    A family adds what it knows of its fragments and of a first header. *)
Context (frag_extra : Frag -> Prop) (first_ok : First -> Prop).

Definition frag_end (f : Frag) : nat := (offset f + payloadByteCount f)%nat.

Record frag_wf (f : Frag) : Prop := {
  fw_bytes : bytes_ok (packet f);
  fw_length : length (packet f) = (headByteCount f + gap + payloadByteCount f)%nat;
  fw_pos : (0 < payloadByteCount f)%nat;
  fw_extra : frag_extra f;
}.

Definition disjoint (a b : Frag) : Prop := (frag_end a <= offset b \/ frag_end b <= offset a)%nat.

Fixpoint apart (l : list Frag) : Prop :=
  match l with
  | [] => True
  | f :: l => Forall (disjoint f) l /\ apart l
  end.

(** ** The reassembled packet *)

Definition frag_payload (f : Frag) : bytes := drop (headByteCount f + gap) (packet f).

Lemma payload_spec f : frag_wf f -> payload f = Ret (frag_payload f) /\ length (frag_payload f) = payloadByteCount f.
Proof.
  intros Hf. pose proof (fw_length _ Hf) as Hl. unfold payload, frag_payload. split; [|rewrite length_drop; lia].
  rewrite slice_ret by lia. rewrite firstn_all2 by (rewrite length_drop; lia). done.
Qed.

Lemma contiguous_mono l pos stop : contiguous_to l pos = Some stop -> (pos <= stop)%nat.
Proof.
  revert pos. induction l as [|f l IH]; intros pos Hc; cbn in Hc; [injection Hc as ->; lia|].
  destruct (offset f =? pos)%nat; [|done]. apply IH in Hc. lia.
Qed.

Lemma copy_payloads_spec l n head done_ rest pos stop :
  Forall frag_wf l -> contiguous_to l pos = Some stop -> length head = n -> length done_ = pos ->
  length rest = (stop - pos)%nat ->
  copy_payloads l n (head ++ done_ ++ rest) = Ret (head ++ done_ ++ concat (map frag_payload l)).
Proof.
  intros Hl. revert done_ rest pos. induction Hl as [|f l Hf Hl IH]; intros done_ rest pos Hc Hh Hd Hr; cbn in Hc |- *.
  { injection Hc as ->. destruct rest; [done|cbn in Hr; lia]. }
  destruct (Nat.eqb_spec (offset f) pos) as [E|]; [|done]. pose proof (contiguous_mono _ _ _ Hc) as Hm.
  destruct (payload_spec f Hf) as [-> Lp]. cbn [gbind].
  rewrite app_assoc. rewrite copy_tail; [|rewrite length_app; lia|by rewrite !length_app|lia]. cbn [gbind].
  rewrite <- app_assoc.
  replace (head ++ done_ ++ frag_payload f ++ drop (length (frag_payload f)) rest)
    with (head ++ (done_ ++ frag_payload f) ++ drop (length (frag_payload f)) rest) by (by rewrite <- !app_assoc).
  rewrite (IH (done_ ++ frag_payload f) _ (pos + payloadByteCount f)%nat); [|done|done|rewrite length_app; lia|
    rewrite length_drop; lia]. by rewrite <- !app_assoc.
Qed.

(** A rewritten header and the payloads. *)
Lemma reassembled_bytes head l : Forall frag_wf l -> bytes_ok head -> bytes_ok (head ++ concat (map frag_payload l)).
Proof.
  intros Hl Hh. apply bytes_ok_app. split; [done|]. induction Hl as [|f l Hf _ IH]; [by apply Forall_nil_2|]. cbn [map concat].
  apply bytes_ok_app. split; [|done]. apply bytes_ok_drop, (fw_bytes _ Hf).
Qed.

Lemma assemble_spec `{MessagePool} f l final :
  Forall frag_wf (f :: l) -> contiguous_to (f :: l) 0 = Some (Z.to_nat final) ->
  assemble (f :: l) (headByteCount f) final = Ret (take (headByteCount f) (packet f) ++ concat (map frag_payload (f :: l))).
Proof.
  intros Hl Hc. pose proof Hl as [Hf _]%Forall_cons_1. pose proof (fw_length _ Hf) as Hlen.
  unfold assemble. set (n := headByteCount f) in *.
  assert (E0 : offset f = 0%nat) by (cbn in Hc; by destruct (Nat.eqb_spec (offset f) 0)).
  set (buf := pool_get _). assert (Lb : length buf = (n + Z.to_nat final)%nat) by apply pool_get_length.
  cbn [copy_first]. rewrite E0. cbn [Nat.eqb]. rewrite slice_0 by lia. cbn [gbind].
  set (head := take n (packet f)). assert (Lh : length head = n) by (unfold head; rewrite length_take; lia).
  destruct (length_split buf n ltac:(lia)) as (a & b & Eb & La). rewrite Eb. rewrite Eb, length_app in Lb.
  change (a ++ b) with ([] ++ a ++ b). rewrite copy_into_app by (done || (cbn; lia)). cbn [gbind app].
  pose proof (copy_payloads_spec (f :: l) n head [] b 0 (Z.to_nat final) Hl Hc Lh eq_refl) as E.
  cbn [app] in E. rewrite E by lia. done.
Qed.

(** *** Sorting *)

Lemma sort_perm l : sort_fragments l ≡ₚ l.
Proof. apply merge_sort_Permutation. Qed.

Lemma contiguous_above l pos stop :
  contiguous_to l pos = Some stop -> Forall (fun f => pos <= offset f)%nat l /\ StronglySorted by_offset l.
Proof.
  revert pos. induction l as [|f l IH]; intros pos Hc; [split; constructor|]. cbn in Hc.
  destruct (Nat.eqb_spec (offset f) pos) as [E|]; [|done]. destruct (IH _ Hc) as [Ha Hs].
  split; constructor; try done; try lia; (eapply Forall_impl; [|exact Ha]); intros g Hg; unfold by_offset; cbn in Hg; lia.
Qed.

Lemma contiguous_inj l pos stop a b :
  contiguous_to l pos = Some stop -> Forall (fun f => 0 < payloadByteCount f)%nat l ->
  a ∈ l -> b ∈ l -> offset a = offset b -> a = b.
Proof.
  revert pos. induction l as [|f l IH]; intros pos Hc Hp Ha Hb Hab; [set_solver|]. cbn in Hc.
  destruct (Nat.eqb_spec (offset f) pos) as [E|]; [|done]. apply Forall_cons_1 in Hp as [Hf Hp].
  destruct (contiguous_above _ _ _ Hc) as [Hab' _].
  assert (Hgt : forall g, g ∈ l -> (offset f < offset g)%nat).
  { intros g Hg. apply list_elem_of_In in Hg. pose proof (proj1 (Forall_forall _ _) Hab' g Hg). cbn in *. lia. }
  apply elem_of_cons in Ha as [->|Ha], Hb as [->|Hb]; [done| | |by apply (IH _ Hc)].
  - pose proof (Hgt b Hb). lia.
  - pose proof (Hgt a Ha). lia.
Qed.

#[local] Instance by_offset_trans : Transitive by_offset.
Proof. intros a b c. unfold by_offset. lia. Qed.
#[local] Instance by_offset_total : Total by_offset.
Proof. intros a b. unfold by_offset. lia. Qed.

Lemma sort_contiguous l l' pos stop :
  contiguous_to l' pos = Some stop -> Forall (fun f => 0 < payloadByteCount f)%nat l' -> l ≡ₚ l' -> sort_fragments l = l'.
Proof.
  intros Hc Hp Hl. assert (Hs : sort_fragments l ≡ₚ l') by (rewrite sort_perm; done).
  apply (StronglySorted_unique_strong by_offset); [|apply StronglySorted_merge_sort; apply _|
    by destruct (contiguous_above _ _ _ Hc)|done].
  intros a b Ha Hb H1 H2. rewrite Hs in Ha. apply (contiguous_inj l' pos stop); try done. unfold by_offset in *. lia.
Qed.

Lemma contiguous_apart l pos stop : contiguous_to l pos = Some stop -> apart l.
Proof.
  revert pos. induction l as [|f l IH]; intros pos Hc; [done|]. cbn in Hc.
  destruct (Nat.eqb_spec (offset f) pos) as [E|]; [|done]. split; [|by apply (IH _ Hc)].
  destruct (contiguous_above _ _ _ Hc) as [Ha _]. eapply Forall_impl; [|exact Ha].
  intros g Hg. left. unfold frag_end. cbn in Hg. lia.
Qed.

Definition payload_sum (l : list Frag) : Z := sumZ (map (fun f => Z.of_nat (payloadByteCount f)) l).

Lemma contiguous_sum l pos stop : contiguous_to l pos = Some stop -> Z.of_nat stop = Z.of_nat pos + payload_sum l.
Proof.
  revert pos. induction l as [|f l IH]; intros pos Hc; cbn in Hc; [injection Hc as ->; cbn; lia|].
  destruct (offset f =? pos)%nat; [|done]. rewrite (IH _ Hc). unfold payload_sum. cbn [map]. rewrite sumZ_cons. lia.
Qed.

(** ** Datagrams *)

Context (noFirst_count : firstByteCount noFirst = 0%nat).

Definition first_fits (fst : First) (final : Z) : Prop :=
  firstByteCount fst <> 0%nat -> first_ok fst /\ too_long (firstByteCount fst) final = false.

Record datagram_wf (d : datagram) : Prop := {
  dw_frags : Forall frag_wf (fragments d);
  dw_count : (length (fragments d) <= 64)%nat;
  dw_apart : apart (fragments d);
  dw_final : finalPayloadByteCount d = -1 \/
    0 <= finalPayloadByteCount d /\ Forall (fun f => Z.of_nat (frag_end f) <= finalPayloadByteCount d) (fragments d);
  dw_head : Forall (fun f => offset f = 0%nat -> headByteCount f = firstByteCount (first d)) (fragments d);
  dw_first : first_fits (first d) (finalPayloadByteCount d);
}.

(** ** The cache invariant *)

Definition stored (d : datagram) : Prop := datagram_wf d /\ fragments d <> [].

Definition within (r : reassembler) (cost : Z) (s : list Z) : Prop :=
  retainedByteCount r + cost <= maxRetainedBytes r /\
  (0 < maxRetainedBytesPerSource r -> retainedBytesForSource r s + cost <= maxRetainedBytesPerSource r).

Record cache_ok (r : reassembler) : Prop := {
  co_exact : exact r;
  co_max : 0 < maxRetainedBytes r;
  co_within s : within r 0 s;
  co_size : (size (datagrams r) <= 16)%nat;
  co_stored : map_Forall (fun _ d => stored d) (datagrams r);
}.

(** The cache while a fragment of cost [cost] is added to the datagram [d],
    which may still be empty. *)
Record open_ok (r : reassembler) (key : Key) (d : datagram) (cost : Z) : Prop := {
  oo_exact : exact r;
  oo_max : 0 < maxRetainedBytes r;
  oo_within s : within r 0 s;
  oo_room : within r cost (source key);
  oo_size : (size (datagrams r) <= 16)%nat;
  oo_at : datagrams r !! key = Some d;
  oo_wf : datagram_wf d;
  oo_stored : map_Forall (fun k d => k <> key -> stored d) (datagrams r);
}.

Lemma within_shrink r r' cost s :
  exact r -> exact r' -> same_limits r r' -> (forall g, weight g (datagrams r') <= weight g (datagrams r)) ->
  within r cost s -> within r' cost s.
Proof.
  intros [E1 E2] [E1' E2'] [L1 L2] Hw [H1 H2]. unfold within. rewrite L1, L2, E1', E2'.
  pose proof (Hw any_key). pose proof (Hw (of_source s)). rewrite E1 in H1. rewrite E2 in H2. split; [lia|].
  intros Hp. specialize (H2 Hp). lia.
Qed.

Lemma shed_within P r r' cost s : exact r -> shed P r r' -> within r cost s -> within r' cost s.
Proof. intros Hex [H1 H2 _ _ H5 _ _]. by apply within_shrink. Qed.

Lemma sheds_cache_ok P r r' : sheds P r r' -> cache_ok r -> cache_ok r'.
Proof.
  intros Hs [Hex Hm Hw Hz Hd]. pose proof (sheds_spec _ _ _ Hs Hex) as S. destruct (S) as [H1 H2 H3 H4 H5 _ _].
  split; [done|by rewrite (proj1 H2)| |lia|].
  - intros s. by apply (shed_within P r).
  - intros k d Hk. apply (Hd k d). by apply (lookup_weaken _ _ _ _ Hk).
Qed.

Lemma release_sheds r k : sheds (fun _ => True) r (releaseDatagram r k).
Proof. apply rtc_once. eauto. Qed.

Lemma give_back_ok r l : cache_ok r -> cache_ok (give_back r l).
Proof. intros [? ? ? ? ?]. by split. Qed.

Lemma give_back_books r l : books (give_back r l) ≡ₚ l ++ books r.
Proof. unfold books. cbn. by rewrite (Permutation_app_comm l), <- !app_assoc, (Permutation_app_comm l). Qed.

Lemma open_release r key d cost : open_ok r key d cost -> cache_ok (releaseDatagram r key).
Proof.
  intros [Hex Hm Hw _ Hz Hk _ Hd]. destruct (release_spec r key d Hex Hk) as (E1 & L & Hex' & _).
  pose proof (sheds_spec _ _ _ (release_sheds r key) Hex) as S. destruct (S) as [_ _ _ H4 H5 _ _].
  split; [done|by rewrite (proj1 L)| |lia|].
  - intros s. by apply (shed_within (fun _ => True) r).
  - rewrite E1. intros k d' Hk'. apply lookup_delete_Some in Hk' as [Hne Hk']. by apply (Hd k d' Hk').
Qed.

Definition fresh (now : Z) : datagram := Datagram now now [] noFirst (-1).

Lemma fresh_wf now : datagram_wf (fresh now).
Proof. split; cbn; try done; try lia; try constructor; try done. Qed.

Lemma admit_proceed_new r key now cost :
  cache_ok r -> datagrams r !! key = None -> (size (datagrams r) < 16)%nat -> within r cost (source key) ->
  open_ok (set_datagrams r (<[key := fresh now]> (datagrams r))) key (fresh now) cost /\
  books (set_datagrams r (<[key := fresh now]> (datagrams r))) ≡ₚ books r.
Proof.
  intros [Hex Hm Hw Hz Hd] Hk Hsz Hc.
  assert (Hwt : forall g, weight g (<[key := fresh now]> (datagrams r)) = weight g (datagrams r)).
  { intros g. rewrite weight_insert by done. by destruct (g key). }
  split; [|unfold books; cbn; by rewrite held_insert].
  split; [|done|done|done| | |apply fresh_wf|].
  - destruct Hex as [E1 E2]. split; cbn; [by rewrite Hwt|]. intros s. rewrite Hwt. apply E2.
  - cbn. rewrite map_size_insert_None by done. lia.
  - apply lookup_insert_eq.
  - intros k d' Hk' Hne. cbn in Hk'. rewrite lookup_insert_ne in Hk' by congruence. by apply (Hd k d' Hk').
Qed.

Lemma admit_spec r key cost now :
  cache_ok r -> 0 <= cost ->
  match admit_fragment iter r key cost now with
  | Proceed r' d => open_ok r' key d cost /\ same_limits r r' /\ books r' ≡ₚ books r
  | Refused r' => cache_ok r' /\ same_limits r r' /\ books r' ≡ₚ books r
  | Dropped r' => cache_ok r' /\ same_limits r r' /\ books r' ≡ₚ books r
  end.
Proof.
  intros Hok Hc. unfold admit_fragment. destruct (datagrams r !! key) as [d|] eqn:Hk.
  - destruct (_ || _) eqn:E.
    + pose proof (sheds_spec _ _ _ (release_sheds r key) (co_exact _ Hok)) as S.
      split; [eapply sheds_cache_ok; [apply release_sheds|done]|]. split; [apply S|apply S].
    + split; [|done]. destruct Hok as [Hex Hm Hw Hz Hd]. apply orb_false_iff in E as [E1 E2].
      apply Z.ltb_ge in E1. split; [done|done|done| |done|done| |].
      * split; [done|]. intros Hp. rewrite (proj2 (Z.ltb_lt _ _) Hp) in E2. by apply Z.ltb_ge in E2.
      * apply (Hd key d Hk).
      * intros k d' Hk' _. by apply (Hd k d').
  - destruct (makeDatagramRoom_spec r now (co_exact _ Hok)) as (Hex1 & Hs1 & Hz1). cbn zeta in *.
    set (r1 := makeDatagramRoom iter r now) in *. pose proof (sheds_cache_ok _ _ _ Hs1 Hok) as Hok1.
    pose proof (sheds_spec _ _ _ Hs1 (co_exact _ Hok)) as S1. pose proof (sd_limits _ _ _ S1) as L1. pose proof (sd_books _ _ _ S1) as B1.
    destruct (Z.ltb_spec (maxRetainedBytes r1) cost); [done|].
    destruct (evict_while _ _ _ _) as [r2 b2] eqn:E2. unfold releaseOldestDatagram in E2.
    destruct (evict_while_spec _ _ _ _ _ _ Hex1 (Nat.lt_succ_diag_r _) E2) as [Hs2 Hb2].
    pose proof (sheds_cache_ok _ _ _ Hs2 Hok1) as Hok2. pose proof (sheds_spec _ _ _ Hs2 Hex1) as S2.
    pose proof (same_limits_trans _ _ _ L1 (sd_limits _ _ _ S2)) as L02.
    assert (B02 : books r2 ≡ₚ books r) by (rewrite (sd_books _ _ _ S2); done).
    destruct b2; cbn [negb]; [|done]. apply Z.ltb_ge in Hb2.
    destruct (if 0 <? maxRetainedBytesPerSource r2 then _ else _) as [r3 b3] eqn:E3.
    assert (H3 : sheds (fun _ => True) r2 r3 /\ (b3 = true -> 0 < maxRetainedBytesPerSource r3 ->
      retainedBytesForSource r3 (source key) + cost <= maxRetainedBytesPerSource r3)).
    { destruct (Z.ltb_spec 0 (maxRetainedBytesPerSource r2)).
      - unfold releaseOldestDatagramForSource in E3.
        destruct (evict_while_spec _ _ _ _ _ _ (co_exact _ Hok2) (Nat.lt_succ_diag_r _) E3) as [Hs3 Hb3].
        split; [eapply sheds_weaken; [|exact Hs3]; done|]. intros -> _. by apply Z.ltb_ge in Hb3.
      - injection E3 as <- <-. split; [apply rtc_refl|]. intros _ ?. lia. }
    destruct H3 as [Hs3 Hb3]. pose proof (sheds_cache_ok _ _ _ Hs3 Hok2) as Hok3.
    pose proof (sheds_spec _ _ _ Hs3 (co_exact _ Hok2)) as S3. destruct (S3) as [Hex3 L3 Hsub3 Hz3 Hw3 _ B3].
    pose proof (same_limits_trans _ _ _ L02 L3) as L03.
    assert (B03 : books r3 ≡ₚ books r) by (by rewrite B3).
    destruct b3; cbn [negb]; [|done].
    destruct (admit_proceed_new r3 key now cost) as [Ho Hb]; [done| | | |split; [exact Ho|split; [done|by rewrite <- B03]]].
    + apply (lookup_weaken_None _ _ _ Hk). etransitivity; [exact Hsub3|]. etransitivity; [apply S2|apply S1].
    + pose proof (sd_size _ _ _ S2). lia.
    + split; [|by apply Hb3]. rewrite (proj1 Hex3), (proj1 L3). pose proof (Hw3 any_key).
      rewrite (proj1 (co_exact _ Hok2)) in Hb2. lia.
Qed.

(** ** Adding a fragment *)

Lemma overlap_check_spec l o e p :
  Forall frag_wf l ->
  returns (overlap_check l o e p) (fun v =>
    match v with
    | Fits => Forall (fun f => e <= offset f \/ frag_end f <= o)%nat l
    | Duplicate => l <> []
    | Conflict => True
    end).
Proof.
  induction 1 as [|f l Hf Hl IH]; [by apply returns_ret|]. cbn [overlap_check].
  match goal with |- returns (if ?b then _ else _) _ => destruct b end.
  - pose proof (fw_length _ Hf) as Hlen. unfold payload. greturns @slice_returns; [lia|lia|]. intros q _.
    apply returns_ret. by destruct (bool_decide _).
  - match goal with |- returns (if ?b then _ else _) _ => destruct b eqn:E2 end; [by apply returns_ret|].
    destruct IH as (v & -> & Hv). apply returns_ret. destruct v; [done|done|]. constructor; [|done].
    unfold frag_end. apply andb_false_iff in E2 as [E2|E2]; apply Nat.ltb_ge in E2; lia.
Qed.

Lemma disjoint_sym a b : disjoint a b -> disjoint b a.
Proof. unfold disjoint. lia. Qed.

Lemma apart_perm l l' : l ≡ₚ l' -> apart l -> apart l'.
Proof.
  induction 1 as [|f l l' Hp IH|f g l|]; cbn; [done| | |by auto].
  - intros [H1 H2]. split; [by rewrite <- Hp|by apply IH].
  - intros [H1 [H2 H3]]. apply Forall_cons_1 in H1 as [H0 H1]. split; [constructor; [by apply disjoint_sym|done]|done].
Qed.

Lemma apart_snoc l f : apart l -> Forall (disjoint f) l -> apart (l ++ [f]).
Proof. intros Hl Hf. apply (apart_perm (f :: l)); [by rewrite Permutation_app_comm|done]. Qed.

Lemma datagram_wf_perm ca ca' ua ua' l l' fst final :
  l ≡ₚ l' -> datagram_wf (Datagram ca ua l fst final) -> datagram_wf (Datagram ca' ua' l' fst final).
Proof.
  intros Hp [H1 H2 H3 H4 H5 H6]. cbn in *. split; cbn; [by rewrite <- Hp|by rewrite <- Hp|by apply (apart_perm l)|by rewrite <- Hp|by rewrite <- Hp|done].
Qed.

(** What a fragment that is the first one tells. *)
Definition tells (f : Frag) (mine : First) : Prop := offset f = 0%nat -> headByteCount f = firstByteCount mine /\ first_ok mine.

Lemma placement_spec d more f mine fst final now :
  datagram_wf d -> frag_wf f -> tells f mine -> Forall (disjoint f) (fragments d) -> (length (fragments d) < 64)%nat ->
  placement d more (offset f) (frag_end f) mine = Some (fst, final) ->
  datagram_wf (Datagram (createdAt d) now (fragments d ++ [f]) fst final).
Proof.
  intros [H1 H2 H3 H4 H5 H6] Hf Hm Hd Hl Hp. unfold placement in Hp.
  match type of Hp with match ?x with _ => _ end = _ => destruct x as [fin|] eqn:Ef; [|done] end.
  match type of Hp with match ?x with _ => _ end = _ => destruct x as [fst'|] eqn:Es; [|done] end.
  destruct (too_long _ _) eqn:E in Hp; [done|]. injection Hp as -> ->.
  assert (Hfin : final = -1 \/ 0 <= final /\ Forall (fun f => Z.of_nat (frag_end f) <= final) (fragments d ++ [f])).
  { destruct more; cbn [negb] in Ef.
    - destruct (_ && _) eqn:E2 in Ef; [done|]. injection Ef as <-. destruct H4 as [H4|[H4 H4']]; [by left|right].
      split; [done|]. apply Forall_app. split; [done|]. constructor; [|constructor].
      rewrite (proj2 (Z.leb_le _ _) H4) in E2. apply Z.leb_gt in E2. lia.
    - destruct (_ && _) in Ef; [done|]. destruct (existsb _ _) eqn:E2 in Ef; [done|]. injection Ef as <-. right. split; [lia|].
      apply Forall_app. split; [|constructor; [lia|constructor]].
      apply Forall_forall. intros g Hg. destruct (Nat.ltb_spec (frag_end f) (frag_end g)) as [Hlt|]; [|lia].
      assert (existsb (fun f0 => frag_end f <? offset f0 + payloadByteCount f0)%nat (fragments d) = true); [|congruence].
      apply existsb_exists. exists g. split; [exact Hg|]. by apply Nat.ltb_lt. }
  assert (Efst : fst = if (offset f =? 0)%nat then mine else first d).
  { destruct (offset f =? 0)%nat; [destruct (_ && _) in Es; [done|]|]; congruence. }
  split; cbn [fragments first finalPayloadByteCount].
  - apply Forall_app. split; [done|by constructor].
  - rewrite length_app. cbn. lia.
  - by apply apart_snoc.
  - done.
  - rewrite Efst. apply Forall_app. destruct (Nat.eqb_spec (offset f) 0) as [E0|E0].
    + split; [|constructor; [intros _; by apply Hm|constructor]]. apply Forall_forall. intros g Hg Hg0. pose proof (proj1 (Forall_forall _ _) Hd g Hg) as Hdj.
      pose proof (fw_pos _ (proj1 (Forall_forall _ _) H1 g Hg)). pose proof (fw_pos _ Hf).
      unfold disjoint, frag_end in Hdj. lia.
    + split; [done|]. constructor; [|constructor]. done.
  - intros Hne. split; [|done]. rewrite Efst in *. destruct (Nat.eqb_spec (offset f) 0) as [E0|E0]; [by apply Hm|by apply H6].
Qed.

(** The state after the fragment is retained. *)
Definition put_fragments (r : reassembler) (key : Key) (d : datagram) (f : Frag) (l : list Frag) (fst : First) (final now : Z) : reassembler :=
  let r := charge r (source key) (fragment_bytes f) in
  set_datagrams r (<[key := Datagram (createdAt d) now l fst final]> (datagrams r)).

Lemma charge_for r s n s' :
  retainedBytesForSource (charge r s n) s' = retainedBytesForSource r s' + if decide (s' = s) then n else 0.
Proof.
  unfold charge. unfold retainedBytesForSource at 1. cbn. destruct (decide (s' = s)) as [->|Hne].
  - by rewrite lookup_insert_eq.
  - rewrite lookup_insert_ne by congruence. unfold retainedBytesForSource. lia.
Qed.

Lemma put_fragments_ok r key d f l fst final now cost :
  open_ok r key d cost -> fragment_bytes f <= cost -> l ≡ₚ fragments d ++ [f] ->
  datagram_wf (Datagram (createdAt d) now l fst final) ->
  cache_ok (put_fragments r key d f l fst final now) /\ books (put_fragments r key d f l fst final now) ≡ₚ frag_buffer f :: books r.
Proof.
  intros [Hex Hm Hw Hc Hz Hk Hd Ho] Hcost Hp Hwf. set (d' := Datagram _ _ l _ _) in *.
  assert (Hn : 0 <= fragment_bytes f) by (unfold fragment_bytes; lia).
  assert (Hb : datagram_bytes d' = datagram_bytes d + fragment_bytes f).
  { unfold datagram_bytes. cbn [fragments d']. rewrite (sumZ_map_perm _ _ _ Hp), map_app, sumZ_app. cbn. lia. }
  assert (Hwt : forall g, weight g (<[key := d']> (datagrams r)) =
    weight g (datagrams r) + if g key then fragment_bytes f else 0).
  { intros g. rewrite (weight_update g _ _ d d' Hk). destruct (g key); lia. }
  assert (Hfor : forall s, retainedBytesForSource (put_fragments r key d f l fst final now) s =
    retainedBytesForSource r s + if decide (s = source key) then fragment_bytes f else 0).
  { intros s. apply (charge_for r (source key) (fragment_bytes f) s). }
  split; [split; [|done| | |]|].
  - destruct Hex as [E1 E2]. split; [cbn; rewrite Hwt, E1; done|]. intros s. rewrite Hfor, E2. cbn. rewrite Hwt.
    unfold of_source at 3. destruct (decide (s = source key)) as [->|Hne].
    + by rewrite bool_decide_eq_true_2.
    + by rewrite bool_decide_eq_false_2 by congruence.
  - intros s. destruct Hc as [C1 C2]. split; [cbn; lia|]. intros Hper. cbn in Hper. rewrite Hfor.
    cbn [maxRetainedBytesPerSource put_fragments set_datagrams charge].
    destruct (decide (s = source key)) as [->|]; [specialize (C2 Hper); lia|].
    destruct (Hw s) as [_ W]. specialize (W Hper). lia.
  - cbn. by rewrite map_size_insert_Some by (by eexists).
  - intros k d0 Hk0. cbn in Hk0. apply lookup_insert_Some in Hk0 as [[<- <-]|[Hne Hk0]].
    + split; [done|]. cbn. intros ->. apply Permutation_nil in Hp. destruct (fragments d); done.
    + by apply (Ho k d0 Hk0).
  - unfold books. cbn [returned datagrams put_fragments set_datagrams charge]. fold d'. rewrite (held_update _ _ _ d' Hk), (held_delete _ _ _ Hk).
    unfold buffers. cbn [fragments d']. rewrite Hp, map_app, <- !app_assoc. cbn [map app]. rewrite (app_assoc (returned r) (map _ _)), (app_assoc (returned r) (map _ (fragments d))).
    by rewrite Permutation_middle.
Qed.

(** ** Processing a fragment *)

(** What a family's completion promises. *)
Context {St : Type} (reassemble : list Frag -> First -> Z -> go bytes) (own : St -> list Frag -> go (St * list (nat * bytes))).
Context (reassemble_returns : forall f l fst final,
  Forall frag_wf (f :: l) -> contiguous_to (f :: l) 0 = Some (Z.to_nat final) -> 0 <= final -> headByteCount f = firstByteCount fst ->
  firstByteCount fst <> 0%nat -> first_fits fst final -> returns (reassemble (f :: l) fst final) bytes_ok).
Context (own_returns : forall st l, Forall frag_wf l -> returns (own st l) (fun '(_, parts) => parts.*1 = map frag_buffer l)).

(** The buffer [b] is returned, retained or handed to the caller. *)
Definition settled (r r' : reassembler) (b : nat) (res : ipFragmentProcessResult) : Prop :=
  books r' ++ (result_fragments res).*1 ≡ₚ b :: books r.

(** A packet handed out holds bytes. *)
Definition result_bytes (res : ipFragmentProcessResult) : Prop := forall w, result_packet res = Some w -> bytes_ok w.

Definition processed (r : reassembler) (b : nat) : reassembler * St * ipFragmentProcessResult -> Prop :=
  fun '(r', _, res) => cache_ok r' /\ same_limits r r' /\ settled r r' b res /\ fragment res = true /\ result_bytes res.

Lemma retain_unfold r st key d f fst final now keep :
  retain reassemble own r st key d f fst final now keep =
    let l := fragments d ++ [f] in
    if (firstByteCount fst =? 0)%nat || (final <? 0)
    then Ret (put_fragments r key d f l fst final now, st, waiting)
    else
      let l := sort_fragments l in
      let r := put_fragments r key d f l fst final now in
      match contiguous_to l 0 with
      | None => Ret (r, st, waiting)
      | Some position =>
          if negb (Z.of_nat position =? final) then Ret (r, st, waiting)
          else
            let! whole := reassemble l fst final in
            if keep then
              let '(r, owned) := detachDatagram r key in
              let! '(st, parts) := own st owned in
              Ret (r, st, ProcessResult (Some whole) parts true true)
            else Ret (releaseDatagram r key, st, ProcessResult (Some whole) [] true true)
      end.
Proof. reflexivity. Qed.

Lemma retain_spec r st key d f fst final now keep cost :
  open_ok r key d cost -> fragment_bytes f <= cost ->
  datagram_wf (Datagram (createdAt d) now (fragments d ++ [f]) fst final) ->
  returns (retain reassemble own r st key d f fst final now keep) (processed r (frag_buffer f)).
Proof.
  intros Ho Hc Hwf. rewrite retain_unfold. cbv zeta.
  assert (Hput : forall l, l ≡ₚ fragments d ++ [f] -> let r' := put_fragments r key d f l fst final now in
    cache_ok r' /\ same_limits r r' /\ books r' ≡ₚ frag_buffer f :: books r).
  { intros l Hl. destruct (put_fragments_ok r key d f l fst final now cost) as [H1 H2]; [done|done|done| |done].
    by apply (datagram_wf_perm (createdAt d) (createdAt d) now now (fragments d ++ [f])). }
  assert (Hwait : forall l, l ≡ₚ fragments d ++ [f] -> returns (Ret (put_fragments r key d f l fst final now, st, waiting)) (processed r (frag_buffer f))).
  { intros l Hl. apply returns_ret. destruct (Hput l Hl) as (H1 & H2 & H3). split_and!; [done|done| |done|done]. unfold settled. cbn. by rewrite app_nil_r. }
  destruct (_ || _) eqn:E; [by apply Hwait|]. apply orb_false_iff in E as [E1 E2].
  apply Z.ltb_ge in E2. apply Nat.eqb_neq in E1.
  set (l := sort_fragments (fragments d ++ [f])). assert (Hl : l ≡ₚ fragments d ++ [f]) by apply sort_perm.
  destruct (contiguous_to l 0) as [position|] eqn:Ec; [|by apply Hwait].
  destruct (Z.eqb_spec (Z.of_nat position) final) as [Ep|]; cbn [negb]; [|by apply Hwait].
  destruct (datagram_wf_perm (createdAt d) (createdAt d) now now _ l fst final (symmetry Hl) Hwf) as [W1 _ _ _ W5 W6].
  cbn in W1, W5, W6. destruct (Hput l Hl) as (Hok & Hlim & Hbk).
  destruct l as [|f0 l0] eqn:El.
  { apply Permutation_nil in Hl. destruct (fragments d); done. }
  assert (E0 : offset f0 = 0%nat) by (cbn in Ec; by destruct (Nat.eqb_spec (offset f0) 0)).
  assert (Efirst : headByteCount f0 = firstByteCount fst) by (apply Forall_cons_1 in W5 as [W5 _]; by apply W5).
  set (r1 := put_fragments _ _ _ _ _ _ _ _) in *.
  greturns reassemble_returns; [done|rewrite Ec; f_equal; lia|done|done|done|done|]. intros whole Hwhole.
  assert (Hk1 : datagrams r1 !! key = Some (Datagram (createdAt d) now (f0 :: l0) fst final)) by apply lookup_insert_eq.
  destruct (detach_spec r1 key _ (co_exact _ Hok) Hk1) as (r2 & Ed & Ed2 & Lr & _ & Er2). cbn [fragments] in Ed.
  pose proof (sheds_spec _ _ _ (release_sheds r1 key) (co_exact _ Hok)) as S.
  destruct keep.
  - rewrite Ed. greturns own_returns; [done|]. intros [st' parts] Hparts. apply returns_ret.
    assert (Hr2 : cache_ok r2).
    { pose proof (sheds_cache_ok _ _ _ (release_sheds r1 key) Hok) as Hk2. unfold releaseDatagram in Hk2. rewrite Ed in Hk2. destruct Hk2 as [? ? ? ? ?]. by split. }
    split_and!; [done|by eapply same_limits_trans| |done|by intros w [= <-]]. unfold settled. cbn [result_fragments]. rewrite Hparts, <- Hbk. unfold books.
    rewrite Er2, Ed2, (held_delete _ _ _ Hk1), <- app_assoc. f_equiv. apply Permutation_app_comm.
  - apply returns_ret. split_and!; [by eapply sheds_cache_ok; [apply release_sheds|]|by eapply same_limits_trans; [|apply S]| |done|by intros w [= <-]].
    unfold settled. cbn. by rewrite app_nil_r, (sd_books _ _ _ S).
Qed.

(** A duplicate only refreshes its datagram. *)
Lemma open_touch r key d cost now b :
  open_ok r key d cost -> fragments d <> [] ->
  let r' := set_datagrams (give_back r [b]) (<[key := Datagram (createdAt d) now (fragments d) (first d) (finalPayloadByteCount d)]> (datagrams r)) in
  cache_ok r' /\ books r' ≡ₚ b :: books r.
Proof.
  intros [Hex1 Hm Hw _ Hz Hk1 Hwf1 Ho] Hne. cbv zeta. set (d' := Datagram _ _ _ _ _).
  assert (Hwt : forall g, weight g (<[key := d']> (datagrams r)) = weight g (datagrams r)).
  { intros g. rewrite (weight_update g _ _ d _ Hk1). change (datagram_bytes d') with (datagram_bytes d). destruct (g key); lia. }
  split; [split; [|done|done| |]|].
  - destruct Hex1 as [X1 X2]. split; cbn; [by rewrite Hwt|]. intros s'. rewrite Hwt. apply X2.
  - cbn. by rewrite map_size_insert_Some by (by eexists).
  - intros k d0 Hk0. cbn in Hk0. apply lookup_insert_Some in Hk0 as [[<- <-]|[Hnk Hk0]].
    + split; [|done]. by apply (datagram_wf_perm (createdAt d) _ (updatedAt d) _ (fragments d)); [|destruct d].
    + by apply (Ho k d0 Hk0).
  - unfold books. cbn. rewrite (held_update _ _ _ d' Hk1), (held_delete _ _ _ Hk1). change (buffers d') with (buffers d).
    by rewrite <- app_assoc, Permutation_middle.
Qed.

Lemma set_max_id r : 0 < maxRetainedBytes r -> set_max r = r.
Proof. intros Hm. unfold set_max. by rewrite (proj2 (Z.leb_gt _ _)). Qed.

Lemma drop_settled r0 r st key b :
  cache_ok (releaseDatagram r key) -> exact r -> same_limits r0 r -> books r ≡ₚ books r0 -> returns (drop_with r st key b) (processed r0 b).
Proof.
  intros Hok Hex L B. pose proof (sheds_spec _ _ _ (release_sheds r key) Hex) as S. apply returns_ret. split_and!; [by apply give_back_ok| | |done|done].
  - eapply same_limits_trans; [exact L|]. apply (sd_limits _ _ _ S).
  - unfold settled. cbn [result_fragments dropped fmap list_fmap]. by rewrite app_nil_r, give_back_books, (sd_books _ _ _ S), B.
Qed.

Lemma offer_ok r st key cost f pl mine more now keep :
  cache_ok r -> frag_wf f -> fragment_bytes f <= cost -> tells f mine ->
  returns (offer iter reassemble own r st key cost f pl mine more now keep) (processed r (frag_buffer f)).
Proof.
  intros Hok Hf Hcost Hm. unfold offer. assert (Hc0 : 0 <= cost) by (unfold fragment_bytes in Hcost; lia).
  pose proof (admit_spec r key cost now Hok Hc0) as Ha.
  destruct (admit_fragment iter r key cost now) as [r1 d|r1|r1].
  2,3: destruct Ha as (Ha & La & Ba); apply returns_ret; split_and!; [by apply give_back_ok|done| |done|done]; unfold settled;
    cbn [result_fragments dropped fmap list_fmap]; by rewrite app_nil_r, give_back_books, Ba.
  destruct Ha as (Ha & La & Ba). pose proof (oo_wf _ _ _ _ Ha) as Hwf.
  assert (Hdrop : returns (drop_with r1 st key (frag_buffer f)) (processed r (frag_buffer f))).
  { apply drop_settled; [by apply (open_release r1 key d cost)|apply Ha|done|done]. }
  greturns overlap_check_spec; [apply Hwf|]. intros v Hv. destruct v.
  - apply returns_ret. destruct (open_touch r1 key d cost now (frag_buffer f) Ha Hv) as [H1 H2]. split_and!; [done|done| |done|done].
    unfold settled. cbn [result_fragments waiting fmap list_fmap]. by rewrite app_nil_r, H2, Ba.
  - apply Hdrop.
  - destruct (Nat.leb_spec ipv4FragmentReassemblyMaxFragments (length (fragments d))) as [|H64]; [apply Hdrop|].
    fold (frag_end f). destruct (placement _ _ _ _ _) as [[fst final]|] eqn:Epl; [|apply Hdrop].
    assert (Hdj : Forall (disjoint f) (fragments d)).
    { eapply Forall_impl; [|exact Hv]. intros g Hg. unfold disjoint, frag_end in *. lia. }
    pose proof (placement_spec d _ f mine fst final now Hwf Hf Hm Hdj H64 Epl) as Hwf2.
    eapply returns_weaken; [apply (retain_spec _ _ _ _ _ _ _ _ _ _ Ha); done|].
    intros [[r' c'] res] (H1 & H2 & H3 & H4). split_and!; [done|by eapply same_limits_trans| |apply H4|apply H4].
    unfold settled in *. by rewrite H3, Ba.
Qed.

(** ** Feeding the fragments of one packet

    A packet of [N] payload bytes under one key, whose first fragment tells
    [fs]. A family shows that its fragments are offered this way. *)
Section feed.
Context (key : Key) (N : nat) (fs : First).
Context (fs_some : firstByteCount fs <> 0%nat) (fs_ok : first_ok fs).
Context (fits_none : too_long (firstByteCount fs) (-1) = false) (fits_zero : forall final, too_long 0 final = false).
Context (fits_all : too_long (firstByteCount fs) (Z.of_nat N) = false).

Definition more (f : Frag) : bool := (frag_end f <? N)%nat.

Record piece_ok (f : Frag) : Prop := {
  pk_wf : frag_wf f;
  pk_end : (frag_end f <= N)%nat;
  pk_head : headByteCount f = firstByteCount fs;
}.

Definition step (r : reassembler) (st : St) (f : Frag) (now : Z) (keep : bool) : go (reassembler * St * ipFragmentProcessResult) :=
  offer iter reassemble own (set_max (expire iter r now)) st key (fragment_bytes f) f (frag_payload f) fs (more f) now keep.

Definition first_of (l : list Frag) : First := if existsb (fun f => offset f =? 0)%nat l then fs else noFirst.
Definition final_of (l : list Frag) : Z := if existsb (fun f => negb (more f)) l then Z.of_nat N else -1.

(** The datagram holds exactly the pieces [l]. *)
Definition shaped (d : datagram) (l : list Frag) : Prop :=
  fragments d ≡ₚ l /\ first d = first_of l /\ finalPayloadByteCount d = final_of l.

(** The cache after the pieces [l] have arrived since [t0], with room for
    [rest] more bytes. *)
Definition fed (r : reassembler) (l : list Frag) (t0 rest : Z) : Prop :=
  cache_ok r /\ within r rest (source key) /\
  match l with
  | [] => datagrams r !! key = None
  | _ => exists d, datagrams r !! key = Some d /\ shaped d l /\ createdAt d = t0
  end.

Lemma within_less r a b s' : a <= b -> within r b s' -> within r a s'.
Proof. intros Hab [W1 W2]. split; [lia|]. intros Hp. specialize (W2 Hp). lia. Qed.

Lemma overlap_fits l o e p :
  (o < e)%nat -> Forall (fun f => (e <= offset f \/ frag_end f <= o) /\ 0 < payloadByteCount f)%nat l ->
  overlap_check l o e p = Ret Fits.
Proof.
  intros Ho. induction 1 as [|f l [Hd Hp] _ IH]; [done|]. cbn [overlap_check]. unfold frag_end in Hd.
  replace ((o =? offset f) && (e =? offset f + payloadByteCount f))%nat with false.
  2:{ symmetry. apply andb_false_iff. rewrite !Nat.eqb_neq. lia. }
  replace ((o <? offset f + payloadByteCount f) && (offset f <? e))%nat with false; [done|].
  symmetry. apply andb_false_iff. rewrite !Nat.ltb_ge. lia.
Qed.

Lemma admit_existing r k d cost now :
  datagrams r !! k = Some d -> within r cost (source k) -> admit_fragment iter r k cost now = Proceed r d.
Proof.
  intros Hk [W1 W2]. unfold admit_fragment. rewrite Hk, (proj2 (Z.ltb_ge _ _)) by lia. cbn [orb].
  destruct (Z.ltb_spec 0 (maxRetainedBytesPerSource r)) as [Hp|]; [|done]. specialize (W2 Hp).
  by rewrite (proj2 (Z.ltb_ge _ _)) by lia.
Qed.

Lemma evict_none fuel need release (r : reassembler) : need r = false -> evict_while fuel need release r = (r, true).
Proof. intros Hn. destruct fuel; cbn; by rewrite Hn. Qed.

Lemma admit_fresh r k cost now :
  exact r -> datagrams r !! k = None -> within r cost (source k) ->
  let r1 := makeDatagramRoom iter r now in
  admit_fragment iter r k cost now = Proceed (set_datagrams r1 (<[k := fresh now]> (datagrams r1))) (fresh now) /\ within r1 cost (source k).
Proof.
  intros Hex Hk Hw. cbn zeta. destruct (makeDatagramRoom_spec r now Hex) as (Hex1 & Hs & _).
  pose proof (shed_within _ _ _ _ _ Hex (sheds_spec _ _ _ Hs Hex) Hw) as W. split; [|done].
  unfold admit_fragment. rewrite Hk. set (r1 := makeDatagramRoom iter r now) in *. destruct W as [W1 W2].
  pose proof (weight_nonneg any_key (datagrams r1)) as Hnn. rewrite <- (proj1 Hex1) in Hnn.
  rewrite (proj2 (Z.ltb_ge _ _)) by lia. rewrite evict_none by (apply Z.ltb_ge; lia). cbn [negb].
  destruct (Z.ltb_spec 0 (maxRetainedBytesPerSource r1)) as [Hp|]; [|done].
  specialize (W2 Hp). by rewrite evict_none by (apply Z.ltb_ge; lia).
Qed.

Lemma feed_admits r l t0 rest x now :
  fed r l t0 (fragment_bytes x + rest) -> 0 <= rest -> (l <> [] -> now - t0 < ipv4FragmentReassemblyTimeout) ->
  0 < maxRetainedBytes (expire iter r now) /\
  exists r1 d, admit_fragment iter (expire iter r now) key (fragment_bytes x) now = Proceed r1 d /\
    open_ok r1 key d (fragment_bytes x) /\ shaped d l /\ createdAt d = (if l is [] then now else t0) /\
    within r1 (fragment_bytes x + rest) (source key).
Proof.
  intros (Hok & Hw & Hl) Hrest Ht. pose proof (expire_sheds r now) as Hs.
  pose proof (sheds_cache_ok _ _ _ Hs Hok) as Hok0. pose proof (sheds_spec _ _ _ Hs (co_exact _ Hok)) as S.
  pose proof (shed_within _ _ _ _ _ (co_exact _ Hok) S Hw) as Hw0. pose proof (co_exact _ Hok0) as Hex0.
  assert (Hc0 : 0 <= fragment_bytes x) by (unfold fragment_bytes; lia).
  assert (Hwc : within (expire iter r now) (fragment_bytes x) (source key)) by (eapply within_less; [|exact Hw0]; lia).
  pose proof (admit_spec _ key (fragment_bytes x) now Hok0 Hc0) as Ha.
  split; [apply Hok0|]. destruct l as [|y l].
  - assert (Hk0 : datagrams (expire iter r now) !! key = None) by (by apply (lookup_weaken_None _ _ _ Hl), S).
    destruct (admit_fresh _ key (fragment_bytes x) now Hex0 Hk0 Hwc) as [E _].
    destruct (admit_fresh _ key (fragment_bytes x + rest) now Hex0 Hk0 Hw0) as [_ W].
    rewrite E in Ha |- *. eexists _, _. split; [done|]. split; [apply Ha|]. split; [done|]. split; [done|]. exact W.
  - destruct Hl as (d & Hk & Hsh & Hc). specialize (Ht ltac:(done)).
    assert (Hk0 : datagrams (expire iter r now) !! key = Some d).
    { rewrite (sd_keeps _ _ _ S); [done|]. intros (d' & Hk' & Hx). rewrite Hk in Hk'. injection Hk' as <-. lia. }
    rewrite (admit_existing _ _ _ _ now Hk0 Hwc) in Ha |- *. exists (expire iter r now), d.
    split; [done|]. split; [apply Ha|]. done.
Qed.

Lemma first_long l : too_long (firstByteCount (first_of l)) (final_of l) = false.
Proof.
  unfold first_of, final_of. destruct (existsb (fun f => offset f =? 0)%nat l); [|rewrite noFirst_count; apply fits_zero].
  destruct (existsb _ l); [apply fits_all|apply fits_none].
Qed.

Lemma feed_placement d l x :
  shaped d l -> Forall piece_ok (x :: l) ->
  placement d (more x) (offset x) (frag_end x) fs = Some (first_of (x :: l), final_of (x :: l)).
Proof.
  intros (Hp & Hf & Hl) [Hx Hok]%Forall_cons_1. pose proof (pk_end _ Hx) as Hend.
  pose proof (first_long (x :: l)) as Hlong. revert Hlong. unfold placement. rewrite Hf, Hl. unfold first_of, final_of. cbn [existsb].
  assert (Hmore : more x = false -> frag_end x = N) by (intros E; apply Nat.ltb_ge in E; lia).
  assert (Hle : existsb (fun f => frag_end x <? offset f + payloadByteCount f)%nat (fragments d) = true -> more x = false -> False).
  { intros He Em. apply existsb_exists in He as (f & Hin & Hlt). apply Nat.ltb_lt in Hlt.
    apply list_elem_of_In in Hin. rewrite Hp in Hin. apply list_elem_of_In in Hin. pose proof (pk_end _ (proj1 (Forall_forall _ _) Hok f Hin)) as Hfe.
    specialize (Hmore Em). unfold frag_end in *. lia. }
  set (e := existsb (fun y => negb (more y)) l). set (z := existsb (fun y => offset y =? 0)%nat l).
  assert (Hfst : (if (offset x =? 0)%nat
     then if negb (firstByteCount (if z then fs else noFirst) =? 0)%nat && negb (firstByteCount (if z then fs else noFirst) =? firstByteCount fs)%nat then None else Some fs
     else Some (if z then fs else noFirst)) = Some (if (offset x =? 0)%nat || z then fs else noFirst)).
  { destruct (offset x =? 0)%nat; [|done]. destruct z; [by rewrite Nat.eqb_refl, andb_false_r|]. by rewrite noFirst_count. }
  rewrite Hfst. destruct (more x) eqn:Em; cbn [negb orb].
  - apply Nat.ltb_lt in Em. intros Hlong.
    replace ((0 <=? (if e then Z.of_nat N else -1)) && ((if e then Z.of_nat N else -1) <=? Z.of_nat (frag_end x))) with false.
    2:{ destruct e; cbn [andb]; [|done]. symmetry. apply andb_false_iff. right. apply Z.leb_gt. lia. }
    by rewrite Hlong.
  - intros Hlong. replace ((0 <=? (if e then Z.of_nat N else -1)) && negb ((if e then Z.of_nat N else -1) =? Z.of_nat (frag_end x))) with false.
    2:{ destruct e; [|done]. by rewrite (Hmore eq_refl), Z.eqb_refl, andb_false_r. }
    destruct (existsb _ (fragments d)); [by destruct (Hle eq_refl eq_refl)|]. rewrite (Hmore eq_refl). by rewrite Hlong.
Qed.

(** The retention of one more piece, admission done. *)
Lemma feed_retain r l t0 rest x now st keep :
  fed r l t0 (fragment_bytes x + rest) -> 0 <= rest -> (l <> [] -> now - t0 < ipv4FragmentReassemblyTimeout) ->
  Forall piece_ok (x :: l) -> Forall (disjoint x) l -> (length l < 64)%nat ->
  exists r1 d, open_ok r1 key d (fragment_bytes x) /\ shaped d l /\ createdAt d = (if l is [] then now else t0) /\
    within r1 (fragment_bytes x + rest) (source key) /\
    step r st x now keep = retain reassemble own r1 st key d x (first_of (x :: l)) (final_of (x :: l)) now keep /\
    datagram_wf (Datagram (createdAt d) now (fragments d ++ [x]) (first_of (x :: l)) (final_of (x :: l))).
Proof.
  intros Hfed Hrest Ht Hok Hdj Hlen. destruct (feed_admits r l t0 rest x now Hfed Hrest Ht) as (Hm & r1 & d & Ha & Ho & Hsh & Hc & Hw).
  exists r1, d. split; [done|]. split; [done|]. split; [done|]. split; [done|].
  pose proof Hok as [Hx Hl]%Forall_cons_1. pose proof (pk_wf _ Hx) as Hwx.
  pose proof Hsh as (Hp & _). pose proof (feed_placement d l x Hsh Hok) as Hpl.
  assert (Hdd : Forall (disjoint x) (fragments d)) by (by rewrite Hp).
  assert (Hl64 : (length (fragments d) < 64)%nat) by (by rewrite Hp).
  pose proof (oo_wf _ _ _ _ Ho) as Hwf.
  assert (Htell : tells x fs) by (intros _; split; [apply Hx|done]).
  pose proof (placement_spec d (more x) x fs _ _ now Hwf Hwx Htell Hdd Hl64 Hpl) as Hwf2.
  split; [|done]. unfold step, offer. rewrite set_max_id by done. rewrite Ha. fold (frag_end x). rewrite overlap_fits.
  - cbn [gbind]. unfold ipv4FragmentReassemblyMaxFragments. rewrite (proj2 (Nat.leb_gt _ _)) by done. by rewrite Hpl.
  - pose proof (fw_pos _ Hwx). unfold frag_end. lia.
  - apply Forall_forall. intros g Hg. pose proof (fw_pos _ (proj1 (Forall_forall _ _) (dw_frags _ Hwf) g Hg)) as Hgp.
    pose proof (proj1 (Forall_forall _ _) Hdd g Hg) as Hgd. unfold disjoint in Hgd. split; [lia|done].
Qed.

Lemma shaped_add d l x l' : shaped d l -> l' ≡ₚ fragments d ++ [x] -> l' ≡ₚ x :: l.
Proof. intros (Hp & _) ->. by rewrite Hp, Permutation_app_comm. Qed.

Lemma feed_waits r l t0 rest x now st keep :
  fed r l t0 (fragment_bytes x + rest) -> 0 <= rest -> (l <> [] -> now - t0 < ipv4FragmentReassemblyTimeout) ->
  Forall piece_ok (x :: l) -> Forall (disjoint x) l -> (length l < 64)%nat -> payload_sum (x :: l) < Z.of_nat N ->
  exists r', step r st x now keep = Ret (r', st, waiting) /\ fed r' (x :: l) (if l is [] then now else t0) rest.
Proof.
  intros Hfed Hrest Ht Hok Hdj Hlen Hsz.
  destruct (feed_retain r l t0 rest x now st keep Hfed Hrest Ht Hok Hdj Hlen) as (r1 & d & Ho & Hsh & Hc & Hw & -> & Hwf).
  rewrite retain_unfold. cbv zeta.
  assert (Hput : forall l', l' ≡ₚ fragments d ++ [x] ->
    fed (put_fragments r1 key d x l' (first_of (x :: l)) (final_of (x :: l)) now) (x :: l) (if l is [] then now else t0) rest).
  { intros l' Hl'. split; [|split].
    - apply (put_fragments_ok _ _ _ _ _ _ _ _ (fragment_bytes x)); [done|lia|done|].
      apply (datagram_wf_perm (createdAt d) (createdAt d) now now (fragments d ++ [x])); [by symmetry|done].
    - destruct Hw as [W1 W2]. split; [cbn; lia|]. intros Hp. specialize (W2 Hp).
      change (retainedBytesForSource (put_fragments r1 key d x l' (first_of (x :: l)) (final_of (x :: l)) now) (source key))
        with (retainedBytesForSource (charge r1 (source key) (fragment_bytes x)) (source key)).
      rewrite charge_for, decide_True by done. cbn. lia.
    - eexists. split; [apply lookup_insert_eq|]. split; [|done]. split; [|done]. cbn. by apply (shaped_add d l x l'). }
  destruct (_ || _) eqn:E; [eexists; split; [done|by apply Hput]|].
  apply orb_false_iff in E as [_ E2]. apply Z.ltb_ge in E2.
  assert (Hfin : final_of (x :: l) = Z.of_nat N) by (unfold final_of in *; destruct (existsb _ _); lia).
  assert (Hsort : sort_fragments (fragments d ++ [x]) ≡ₚ fragments d ++ [x]) by apply sort_perm.
  destruct (contiguous_to _ 0) as [position|] eqn:Ec; [|eexists; split; [done|by apply Hput]].
  apply contiguous_sum in Ec. assert (Hpos : Z.of_nat position = payload_sum (x :: l)).
  { rewrite Ec. unfold payload_sum. rewrite (sumZ_map_perm _ _ _ (shaped_add d l x _ Hsh Hsort)). lia. }
  rewrite (proj2 (Z.eqb_neq _ _)) by lia. cbn [negb]. eexists. split; [done|by apply Hput].
Qed.

(** A complete, ordered set of pieces. *)
Record pieces_of (l : list Frag) : Prop := {
  ps_ok : Forall piece_ok l;
  ps_contiguous : contiguous_to l 0 = Some N;
  ps_count : (length l <= 64)%nat;
}.

Lemma pieces_ends l : pieces_of l -> (0 < N)%nat -> first_of l = fs /\ final_of l = Z.of_nat N.
Proof.
  intros [Hok Hc _] HN. destruct l as [|x l]; [cbn in Hc; injection Hc; lia|]. split.
  - unfold first_of. cbn [existsb]. cbn in Hc. destruct (offset x =? 0)%nat; done.
  - unfold final_of. replace (existsb _ _) with true; [done|]. symmetry.
    assert (Hlast : forall pos, contiguous_to (x :: l) pos = Some N -> existsb (fun f => negb (more f)) (x :: l) = true).
    { clear Hc Hok. revert x. induction l as [|y l IH]; intros x pos Hc; cbn in Hc; cbn [existsb].
      - destruct (Nat.eqb_spec (offset x) pos) as [E|]; [|done]. injection Hc as Hc.
        assert (more x = false) as -> by (apply Nat.ltb_ge; unfold frag_end; lia). done.
      - destruct (Nat.eqb_spec (offset x) pos) as [E|]; [|done].
        cbn [existsb] in IH. rewrite (IH y _ Hc). by rewrite orb_true_r. }
    by apply (Hlast 0%nat).
Qed.

Lemma existsb_perm {A} (f : A -> bool) l l' : l ≡ₚ l' -> existsb f l = existsb f l'.
Proof. induction 1 as [|x l l' _ IH|x y l|l1 l2 l3 _ IH1 _ IH2]; cbn; [done|by rewrite IH|by destruct (f x), (f y)|congruence]. Qed.

Lemma feed_completes r l t0 x now st ps whole :
  fed r l t0 (fragment_bytes x + 0) -> (l <> [] -> now - t0 < ipv4FragmentReassemblyTimeout) ->
  pieces_of ps -> x :: l ≡ₚ ps -> (0 < N)%nat -> Forall (disjoint x) l -> reassemble ps fs (Z.of_nat N) = Ret whole ->
  exists r', step r st x now false = Ret (r', st, ProcessResult (Some whole) [] true true) /\
    cache_ok r' /\ datagrams r' !! key = None.
Proof.
  intros Hfed Ht Hps Hperm HN Hdj Hwhole. destruct (pieces_ends ps Hps HN) as [Hfst Hfin].
  pose proof Hps as [Hok Hcont Hlen].
  assert (Hok' : Forall piece_ok (x :: l)) by (by rewrite Hperm).
  assert (Hl : (length l < 64)%nat) by (apply Permutation_length in Hperm; cbn in Hperm; lia).
  destruct (feed_retain r l t0 0 x now st false Hfed ltac:(lia) Ht Hok' Hdj Hl) as (r1 & d & Ho & Hsh & Hc & Hw & -> & Hwf).
  rewrite retain_unfold. cbv zeta.
  assert (Efst : first_of (x :: l) = fs) by (rewrite <- Hfst; unfold first_of; by rewrite (existsb_perm _ _ _ Hperm)).
  assert (Efin : final_of (x :: l) = Z.of_nat N) by (rewrite <- Hfin; unfold final_of; by rewrite (existsb_perm _ _ _ Hperm)).
  rewrite Efst, Efin in *.
  rewrite (proj2 (Nat.eqb_neq _ _)), (proj2 (Z.ltb_ge _ _)) by lia. cbn [orb].
  assert (Hsort : sort_fragments (fragments d ++ [x]) = ps).
  { apply (sort_contiguous _ _ 0 N); [done| |].
    - eapply Forall_impl; [|exact Hok]. intros y Hy. apply (fw_pos _ (pk_wf _ Hy)).
    - etransitivity; [apply (shaped_add d l x _ Hsh); reflexivity|done]. }
  rewrite Hsort, Hcont, Z.eqb_refl. cbn [negb]. rewrite Hwhole. cbn [gbind]. eexists. split; [done|].
  destruct (put_fragments_ok r1 key d x ps fs (Z.of_nat N) now (fragment_bytes x)) as [Hok1 _]; [done|done|rewrite <- Hsort; apply sort_perm| |].
  { apply (datagram_wf_perm (createdAt d) (createdAt d) now now (fragments d ++ [x])); [|done]. rewrite <- Hsort. symmetry. apply sort_perm. }
  split; [eapply sheds_cache_ok; [apply release_sheds|done]|].
  destruct (release_spec _ key _ (co_exact _ Hok1) (lookup_insert_eq _ _ _)) as (E1 & _). rewrite E1. apply lookup_delete_eq.
Qed.

Definition todo_cost (todo : list (Frag * Z)) : Z := sumZ (map (fun y => fragment_bytes y.1) todo).

Lemma payload_sum_app l l' : payload_sum (l ++ l') = payload_sum l + payload_sum l'.
Proof. unfold payload_sum. by rewrite map_app, sumZ_app. Qed.

Lemma payload_sum_pos l : Forall piece_ok l -> l <> [] -> 0 < payload_sum l.
Proof.
  intros Hok Hne. destruct Hok as [|x l Hx _]; [done|]. pose proof (fw_pos _ (pk_wf _ Hx)).
  assert (0 <= payload_sum l) by (apply sumZ_map_nonneg; intros; lia).
  change (payload_sum (x :: l)) with (Z.of_nat (payloadByteCount x) + payload_sum l). lia.
Qed.

(** Pieces of a complete set, [x] among them, taken so far. *)
Lemma pieces_split ps x rest l :
  pieces_of ps -> x :: rest ++ l ≡ₚ ps ->
  Forall piece_ok (x :: l) /\ Forall (disjoint x) l /\ (length l < 64)%nat /\ (rest <> [] -> payload_sum (x :: l) < Z.of_nat N).
Proof.
  intros [Hok Hc Hlen] Hp. pose proof Hok as Hok'. rewrite <- Hp in Hok'.
  apply Forall_cons_1 in Hok' as [Hx Hrl]. apply Forall_app in Hrl as [Hr Hl].
  split; [by constructor|]. split; [|split].
  - pose proof (contiguous_apart _ _ _ Hc) as Ha.
    apply (apart_perm _ (x :: rest ++ l)) in Ha; [|by symmetry].
    destruct Ha as [Ha _]. by apply Forall_app in Ha as [_ Ha].
  - apply Permutation_length in Hp. cbn in Hp. rewrite length_app in Hp. lia.
  - intros Hne. apply contiguous_sum in Hc. unfold payload_sum in Hc. rewrite <- (sumZ_map_perm _ _ _ Hp) in Hc. fold (payload_sum (x :: rest ++ l)) in Hc.
    change (x :: rest ++ l) with ([x] ++ rest ++ l) in Hc. rewrite !payload_sum_app in Hc.
    change (x :: l) with ([x] ++ l). rewrite payload_sum_app. pose proof (payload_sum_pos rest Hr Hne). lia.
Qed.

Fixpoint steps (r : reassembler) (st : St) (l : list (Frag * Z)) : go (reassembler * St * list ipFragmentProcessResult) :=
  match l with
  | [] => Ret (r, st, [])
  | (f, now) :: l =>
      let! '(r, st, result) := step r st f now false in
      let! '(r, st, rest) := steps r st l in
      Ret (r, st, result :: rest)
  end.

Lemma feed_run st ps whole lo todo : forall r l t0,
  fed r l t0 (todo_cost todo) -> todo <> [] -> (0 < N)%nat -> pieces_of ps -> map fst todo ++ l ≡ₚ ps -> reassemble ps fs (Z.of_nat N) = Ret whole ->
  Forall (fun y => lo <= y.2 < lo + ipv4FragmentReassemblyTimeout) todo -> (l <> [] -> lo <= t0) ->
  exists r', steps r st todo = Ret (r', st, replicate (length todo - 1) waiting ++ [ProcessResult (Some whole) [] true true]) /\
    cache_ok r' /\ datagrams r' !! key = None.
Proof.
  induction todo as [|[x now] todo IH]; intros r l t0 Hfed Hne HN Hps Hp Hwhole Ht Hlo; [done|].
  apply Forall_cons_1 in Ht as [Hnow Ht]. cbn [map fst app] in Hp. cbn in Hnow.
  destruct (pieces_split ps x (map fst todo) l Hps Hp) as (Hok & Hdj & Hlen & Hsz).
  assert (Hexp : l <> [] -> now - t0 < ipv4FragmentReassemblyTimeout) by (intros Hl; specialize (Hlo Hl); lia).
  change (todo_cost ((x, now) :: todo)) with (fragment_bytes x + todo_cost todo) in Hfed.
  cbn [steps]. destruct todo as [|y todo].
  - destruct (feed_completes r l t0 x now st ps whole Hfed Hexp Hps Hp HN Hdj Hwhole) as (r' & -> & H1 & H2).
    cbn [gbind]. exists r'. done.
  - assert (Hc0 : 0 <= todo_cost (y :: todo)) by (apply sumZ_map_nonneg; intros z _; unfold fragment_bytes; lia).
    destruct (feed_waits r l t0 (todo_cost (y :: todo)) x now st false Hfed Hc0 Hexp Hok Hdj Hlen (Hsz ltac:(done)))
      as (r1 & -> & Hfed1). cbn [gbind].
    destruct (IH r1 (x :: l) _ Hfed1 ltac:(done) HN Hps) as (r' & E & H1 & H2).
    + rewrite <- Hp. cbn [map]. by rewrite Permutation_middle.
    + done.
    + done.
    + intros _. destruct l; [lia|by apply Hlo].
    + rewrite E. cbn [gbind]. exists r'. split; [|done].
      replace (length ((x, now) :: y :: todo) - 1)%nat with (S (length (y :: todo) - 1)) by (cbn; lia). done.
Qed.
(** *** Pieces that arrive in any order, each in its buffer *)

Context (R : nat * piece -> Frag) (cost : piece -> Z).
Context (R_place : forall y, offset (R y) = y.2.1 /\ payloadByteCount (R y) = length y.2.2).
Context (R_cost : forall y, fragment_bytes (R y) = cost y.2).
Context (R_ok : forall y, piece_fits N y.2 -> piece_ok (R y)).

Lemma contiguous_pieces ys pos : contiguous_to (map R ys) pos = contiguous_to (map (fun x => R (0%nat, x)) (map snd ys)) pos.
Proof.
  revert pos. induction ys as [|y ys IH]; intros pos; [done|]. cbn [map contiguous_to]. destruct (R_place y) as [-> ->].
  destruct (R_place (0%nat, y.2)) as [-> ->]. cbn [snd]. destruct (_ =? _)%nat; [apply IH|done].
Qed.

Lemma arrival_order {A} (arriving : list (nat * A * Z)) (todo ps : list piece) : length arriving = length todo -> ps ≡ₚ todo ->
  exists ys, map snd ys = ps /\ ys ≡ₚ zip_with (fun a x => (a.1.1, x)) arriving todo.
Proof.
  intros Hl Hp. assert (E : map snd (zip_with (fun (a : nat * A * Z) (x : piece) => (a.1.1, x)) arriving todo) = todo).
  { clear Hp. revert todo Hl. induction arriving as [|a arriving IH]; intros [|x todo] Hl; try done. cbn. f_equal. apply IH. by injection Hl. }
  rewrite <- E in Hp. apply Permutation_map_inv in Hp as (ys & -> & Hy). exists ys. by split.
Qed.

Lemma feed_all {A} st ps whole lo (arriving : list (nat * A * Z)) todo r :
  Forall (piece_fits N) ps -> contiguous_to (map (fun x => R (0%nat, x)) ps) 0 = Some N -> (length ps <= 64)%nat -> (0 < N)%nat ->
  length arriving = length todo -> ps ≡ₚ todo -> (forall ys, map snd ys = ps -> reassemble (map R ys) fs (Z.of_nat N) = Ret whole) ->
  Forall (fun a => lo <= a.2 < lo + ipv4FragmentReassemblyTimeout) arriving ->
  cache_ok r -> datagrams r !! key = None -> within r (sumZ (map cost ps)) (source key) ->
  exists r', steps r st (zip_with (fun a x => (R (a.1.1, x), a.2)) arriving todo) =
      Ret (r', st, replicate (length ps - 1) waiting ++ [ProcessResult (Some whole) [] true true]) /\
    cache_ok r' /\ datagrams r' !! key = None.
Proof.
  intros Hfit Hcont H64 HN Hlen Hp Hwhole Ht Hok Hk Hw. destruct (arrival_order arriving todo ps Hlen Hp) as (ys & Ey & Hy).
  set (td := zip_with (fun a x => (R (a.1.1, x), a.2)) arriving todo).
  assert (Etd : map fst td = map R (zip_with (fun (a : nat * A * Z) (x : piece) => (a.1.1, x)) arriving todo)).
  { unfold td. clear - Hlen. revert todo Hlen. induction arriving as [|a arriving IH]; intros [|x todo] Hl; try done. cbn. f_equal. apply IH. by injection Hl. }
  assert (Ltd : length td = length ps) by (unfold td; rewrite length_zip_with, (Permutation_length Hp); lia).
  rewrite <- Ltd. apply (feed_run st (map R ys) whole lo td r [] 0); try done.
  - split; [done|]. split; [|done]. replace (todo_cost td) with (sumZ (map cost ps)); [done|]. unfold todo_cost.
    transitivity (sumZ (map fragment_bytes (map fst td))); [|by rewrite List.map_map]. rewrite Etd, <- (sumZ_map_perm _ _ _ (Permutation_map R Hy)), List.map_map, <- Ey, List.map_map.
    apply sumZ_map_ext. intros y _. by rewrite R_cost.
  - intros E. rewrite E in Ltd. destruct ps; [cbn in Hcont; injection Hcont; lia|done].
  - split; [|by rewrite contiguous_pieces, Ey|rewrite length_map, <- (length_map snd), Ey; done].
    apply Forall_fmap. rewrite <- Ey in Hfit. apply (Forall_map snd) in Hfit. eapply Forall_impl; [|exact Hfit]. intros y Hf. by apply R_ok.
  - rewrite app_nil_r, Etd. by apply Permutation_map.
  - by apply Hwhole.
  - unfold td. clear - Ht. revert todo. induction Ht as [|a arriving Ha _ IH]; intros [|x todo]; try constructor; [done|apply IH].
Qed.
End feed.

(** ** One packet

    A packet that is no fragment passes through and changes nothing; a fragment's
    buffer is settled. *)
Definition handled (r : reassembler) (b : nat) (p : bytes) : reassembler * St * ipFragmentProcessResult -> Prop :=
  fun '(r', _, res) => cache_ok r' /\ same_limits r r' /\
    if fragment res then settled r r' b res /\ result_bytes res else r' = r /\ res = ProcessResult (Some p) [] false true.

Lemma passed_handled r st b p : cache_ok r -> handled r b p (r, st, ProcessResult (Some p) [] false true).
Proof. intros Hok. by split_and!. Qed.

(** A fragment is looked at after the expiry. *)
Lemma expired_handled (r : reassembler) now :
  cache_ok r -> let r0 := set_max (expire iter r now) in cache_ok r0 /\ forall b p x, processed r0 b x -> handled r b p x.
Proof.
  intros Hok. cbv zeta. pose proof (expire_sheds r now) as Hs. pose proof (sheds_cache_ok _ _ _ Hs Hok) as Hok0.
  rewrite set_max_id by apply Hok0. pose proof (sheds_spec _ _ _ Hs (co_exact _ Hok)) as S. split; [done|].
  intros b p [[r' st] res] (H1 & H2 & H3 & H4 & H5). split_and!; [done|by eapply same_limits_trans; [apply S|]|]. rewrite H4. split; [|done]. unfold settled in *.
  by rewrite H3, (sd_books _ _ _ S).
Qed.

Lemma drop_processed (r : reassembler) st key b : cache_ok r -> returns (drop_with r st key b) (processed r b).
Proof. intros Hok. apply drop_settled; [by eapply sheds_cache_ok; [apply release_sheds|]|apply Hok|done|done]. Qed.

(** ** The empty cache *)

Lemma new_cache_ok mx per : 0 < mx -> cache_ok (Reassembler mx per ∅ 0 ∅ []).
Proof.
  intros Hm. split.
  - split; [done|]. intros s. unfold retainedBytesForSource. cbn. by rewrite lookup_empty.
  - done.
  - intros s. split; [cbn; lia|]. cbn. intros Hp. unfold retainedBytesForSource. cbn. rewrite lookup_empty. cbn. lia.
  - cbn. rewrite map_size_empty. lia.
  - apply map_Forall_empty.
Qed.

(** What a caller may rely on. *)
Record bounded (mx per : Z) (r : reassembler) : Prop := {
  bd_total : retainedByteCount r = weight any_key (datagrams r) /\ weight any_key (datagrams r) <= mx;
  bd_source s : retainedBytesForSource r s = weight (of_source s) (datagrams r) /\ (0 < per -> weight (of_source s) (datagrams r) <= per);
  bd_datagrams : (size (datagrams r) <= 16)%nat;
  bd_fragments k d : datagrams r !! k = Some d -> (1 <= length (fragments d) <= 64)%nat /\ apart (fragments d);
}.

Lemma cache_bounded r : cache_ok r -> bounded (maxRetainedBytes r) (maxRetainedBytesPerSource r) r.
Proof.
  intros [(E1 & E2) _ Hw Hz Hd]. split.
  - split; [done|]. rewrite <- E1. pose proof (Hw []) as [W _]. lia.
  - intros s. split; [done|]. intros Hp. rewrite <- E2. destruct (Hw s) as [_ Ws]. specialize (Ws Hp). lia.
  - done.
  - intros k d Hk. destruct (Hd k d Hk) as [W Hne]. split; [|apply W]. pose proof (dw_count _ W). destruct (fragments d); [done|cbn in *; lia].
Qed.
End proofs.

(** ** Rewriting header fields *)

Definition set16 (h : list Z) (i : nat) (v : Z) : list Z := <[S i := byte_of v 0]> (<[i := byte_of v 8]> h).

Lemma set16_length h i v : length (set16 h i v) = length h.
Proof. unfold set16. by rewrite !length_insert. Qed.

Lemma put_u16_set16 h i v : (i + 2 <= length h)%nat -> put_u16 h i v = Ret (set16 h i v).
Proof.
  intros Hi. unfold put_u16, set16, set_index. rewrite (proj2 (Nat.ltb_lt _ _)) by lia. cbn [gbind].
  rewrite length_insert, (proj2 (Nat.ltb_lt _ _)) by lia. by rewrite Nat.add_1_r.
Qed.

Lemma set16_app a b i v : (i + 2 <= length a)%nat -> set16 (a ++ b) i v = set16 a i v ++ b.
Proof. intros Hi. unfold set16. rewrite !insert_app_l; [done|rewrite length_insert; lia|lia]. Qed.

Lemma set16_bytes h i v : bytes_ok h -> bytes_ok (set16 h i v).
Proof. intros Hh. unfold set16. auto using bytes_ok_insert, byte_of_ok. Qed.

(** A payload size in whole 8-octet units. *)
Lemma unit_size a : 8 <= a -> (8 <= Z.to_nat (Z.ldiff a 7))%nat /\ (Z.to_nat (Z.ldiff a 7) mod 8 = 0)%nat /\ Z.of_nat (Z.to_nat (Z.ldiff a 7)) <= a.
Proof.
  intros Ha. assert (E : Z.ldiff a 7 = 8 * (a / 8)).
  { change 7 with (Z.ones 3). rewrite Z.ldiff_ones_r, Z.shiftr_div_pow2, Z.shiftl_mul_pow2 by lia.
    change (2 ^ 3) with 8. lia. }
  rewrite E. pose proof (Z.div_mod a 8 ltac:(lia)). pose proof (Z.mod_pos_bound a 8 ltac:(lia)).
  assert (1 <= a / 8) by (apply Z.div_le_lower_bound; lia). split; [lia|]. split; [|lia].
  rewrite Z2Nat.inj_mul by lia. change (Z.to_nat 8) with 8%nat. rewrite Nat.mul_comm. apply Nat.Div0.mod_mul.
Qed.

Lemma chunks_pieces {FF : FragmentFamily} (F : piece -> Frag) body size fuel i :
  (forall x, offset (F x) = x.1 /\ payloadByteCount (F x) = length x.2) -> bytes_ok body ->
  (size mod 8 = 0)%nat -> (1 <= size < length body)%nat -> (i mod 8 = 0)%nat -> (length body - i <= fuel)%nat -> (i <= length body)%nat ->
  Forall (piece_fits (length body)) (chunks fuel body (length body) size i) /\
  contiguous_to (map F (chunks fuel body (length body) size i)) i = Some (length body).
Proof.
  intros HF Hb Hs8 Hs. revert i. induction fuel as [|fuel IH]; intros i Hi Hf Hle; cbn [chunks].
  { split; [constructor|]. cbn. f_equal. lia. }
  destruct (Nat.ltb_spec i (length body)) as [Hlt|]; [|split; [constructor|]; cbn; f_equal; lia].
  set (j := Nat.min (i + size) (length body)). set (ch := take (j - i) (drop i body)).
  assert (Lc : length ch = (j - i)%nat) by (unfold ch; rewrite length_take, length_drop; lia).
  assert (Hbc : bytes_ok ch) by (unfold ch; auto with go).
  assert (Hok : piece_fits (length body) (i, ch)).
  { split; unfold piece_more; cbn [fst snd]; rewrite ?Lc; [done|lia|lia|done| |].
    - replace (i + (j - i))%nat with j by lia. intros Hj. apply Nat.ltb_lt in Hj. replace (j - i)%nat with size by lia. done.
    - replace (i + (j - i))%nat with j by lia. destruct i; [left; apply Nat.ltb_lt; lia|by right]. }
  destruct (HF (i, ch)) as [Eo Ep]. cbn [fst snd] in Eo, Ep. cbn [map contiguous_to]. rewrite Eo, Ep, Nat.eqb_refl, Lc.
  replace (i + (j - i))%nat with j by lia.
  destruct (Nat.lt_ge_cases j (length body)) as [Hj|Hj].
  - assert (j mod 8 = 0)%nat.
    { replace j with (i + size)%nat by lia. rewrite Nat.Div0.add_mod, Hi, Hs8. done. }
    destruct (IH j) as [H1 H2]; [done|lia|lia|]. split; [by constructor|done].
  - assert (Ej : j = length body) by lia. assert (Hn : chunks fuel body (length body) size j = []).
    { destruct fuel; [done|]. cbn [chunks]. by rewrite (proj2 (Nat.ltb_ge _ _)) by lia. }
    rewrite Hn. split; [constructor; [done|constructor]|]. cbn. by rewrite Ej.
Qed.

Lemma chunks_whole (body : bytes) size : (1 <= size)%nat -> concat (map snd (chunks (length body) body (length body) size 0)) = body.
Proof.
  intros Hs. destruct (chunks_concat (length body) body (length body) size 0 ltac:(lia) ltac:(lia) ltac:(lia)) as [E _].
  etransitivity; [exact E|]. rewrite Nat.sub_0_r, drop_0. apply firstn_all.
Qed.
