(* ===== verification/Fragment4.v ===== *)
(** IPv4 fragmentation and reassembly (src/ip_fragment.go): the wire format, over
    the cache of FragmentCache. Whatever packets arrive, processing one never
    panics and keeps the cache inside its bounds with exact accounting and every
    buffer settled once; and the fragments of a packet, fed in any order, come
    back as the packet. *)
From S2P Require Import Prelude GoIo Ipv6Ext IpWire IpFlow FragmentCache.

(** TransferPath and TransferKey are comparable structs of ids; a key holds
    their bytes. *)
Record ipv4FragmentKey := FragmentKey {
  key_path : list Z;
  transferKey : list Z;
  provideMode : Z;
  sourceIp : list Z;
  destinationIp : list Z;
  protocol : Z;
  key_identification : Z;
}.

#[export] Instance ipv4FragmentKey_eq_dec : EqDecision ipv4FragmentKey.
Proof. solve_decision. Defined.

#[export] Instance ipv4FragmentKey_countable : Countable ipv4FragmentKey.
Proof.
  refine (inj_countable'
    (fun k => (key_path k, transferKey k, provideMode k, sourceIp k, destinationIp k, protocol k, key_identification k))
    (fun '(a, b, c, d, e, f, g) => FragmentKey a b c d e f g) _).
  by intros [].
Defined.

Definition zeroKey : ipv4FragmentKey := FragmentKey [] [] 0 [0; 0; 0; 0] [0; 0; 0; 0] 0 0.

(** The keys releaseOldestDatagram does not skip; its callers exclude none. *)
Definition not_excluded (exclude key : ipv4FragmentKey) : bool :=
  negb (bool_decide (key = exclude) && negb (bool_decide (exclude = zeroKey))).

Record ipv4RetainedFragment := RetainedFragment {
  f_buffer : nat;
  f_packet : bytes;
  headerByteCount : nat;
  f_offset : nat;
  f_payloadByteCount : nat;
}.

(** The first fragment tells its header's length; a datagram is at most 65535
    bytes. *)
#[export] Instance ipv4_family : FragmentFamily := {|
  Key := ipv4FragmentKey;
  source := key_path;
  evictable := not_excluded zeroKey;
  Frag := ipv4RetainedFragment;
  frag_buffer := f_buffer;
  packet := f_packet;
  headByteCount := headerByteCount;
  gap := 0;
  offset := f_offset;
  payloadByteCount := f_payloadByteCount;
  First := nat;
  noFirst := 0%nat;
  firstByteCount n := n;
  too_long n final := negb (n =? 0)%nat && (65535 - Z.of_nat n <? final);
|}.

Definition ipv4FragmentDatagram : Type := @datagram ipv4_family.
Definition ipv4FragmentReassembler : Type := @reassembler ipv4_family.

Definition newIpv4FragmentReassembler : ipv4FragmentReassembler :=
  Reassembler ipv4FragmentReassemblyMaxRetainedBytes 0 ∅ 0 ∅ [].

Definition isIpv4FragmentPacket (p : bytes) : go bool :=
  if (length p <? Ipv4HeaderSizeWithoutExtensions)%nat then Ret false
  else
    let! b0 := index p 0 in
    if negb (Z.shiftr b0 4 =? 4) then Ret false
    else
      let! flags := get_u16 p 6 in
      Ret (negb (Z.land flags 16383 =? 0)).

Definition isIpFragmentPacket (p : bytes) : go bool :=
  if (length p =? 0)%nat then Ret false
  else
    let! b0 := index p 0 in
    if Z.shiftr b0 4 =? 4 then isIpv4FragmentPacket p
    else if Z.shiftr b0 4 =? 6 then isIpv6FragmentPacket p
    else Ret false.

(** The global identification counter: the counter after the call and the
    identification. Two increments always reach a nonzero low half. *)
Definition nextIpv4FragmentIdentification (counter : Z) : Z * Z :=
  let c := u32 (counter + 1) in
  if negb (u16 c =? 0) then (c, u16 c)
  else let c := u32 (c + 1) in (c, u16 c).

(** Rewrites the checksum of [p[:n]] in place. *)
Definition checksum_header (p : bytes) (n : nat) : go bytes :=
  let! header := slice p 0 n in
  let! header := writeIpv4HeaderChecksum header in
  Ret (header ++ drop n p).

(** The owned fragments of a completed datagram under a fresh identification,
    DF cleared. *)
Definition canonical_fragment (identification : Z) (p : bytes) : go bytes :=
  let! b0 := index p 0 in
  let header := (Z.to_nat (Z.land b0 15) * 4)%nat in
  let! p := put_u16 p 4 identification in
  let! flags := get_u16 p 6 in
  let! p := put_u16 p 6 (Z.ldiff flags 16384) in
  checksum_header p header.

Fixpoint canonical_fragments (identification : Z) (l : list ipv4RetainedFragment) : go (list (nat * bytes)) :=
  match l with
  | [] => Ret []
  | f :: l =>
      let! p := canonical_fragment identification (f_packet f) in
      let! rest := canonical_fragments identification l in
      Ret ((f_buffer f, p) :: rest)
  end.

Definition own (counter : Z) (l : list ipv4RetainedFragment) : go (Z * list (nat * bytes)) :=
  let '(counter, identification) := nextIpv4FragmentIdentification counter in
  let! parts := canonical_fragments identification l in
  Ret (counter, parts).

Section reassembler.
Context (iter : gmap (@Key ipv4_family) (@datagram ipv4_family) -> list (@Key ipv4_family * @datagram ipv4_family)).
Context `{MessagePool}.

Definition reassemble (l : list ipv4RetainedFragment) (n : nat) (final : Z) : go bytes :=
  let! buf := assemble l n final in
  let! buf := put_u16 buf 2 (u16 (Z.of_nat (n + Z.to_nat final))) in
  let! buf := put_u16 buf 6 0 in
  checksum_header buf n.

(** One packet, the bytes [p] in the buffer [b]. *)
Definition processResultAt (r : ipv4FragmentReassembler) (counter : Z) (source' transferKey' : list Z) (provideMode' : Z)
    (b : nat) (p : bytes) (now : Z) (retainCompletedFragments : bool)
    : go (ipv4FragmentReassembler * Z * ipFragmentProcessResult) :=
  let passed := ProcessResult (Some p) [] false true in
  if (length p <? Ipv4HeaderSizeWithoutExtensions)%nat then Ret (r, counter, passed)
  else
    let! b0 := index p 0 in
    if negb (Z.shiftr b0 4 =? 4) then Ret (r, counter, passed)
    else
      let! flagsAndOffset := get_u16 p 6 in
      if Z.land flagsAndOffset 16383 =? 0 then Ret (r, counter, passed)
      else
        let r := set_max (expire iter r now) in
        let! proto := index p 9 in
        let! id := get_u16 p 4 in
        let! src := slice p 12 16 in
        let! dst := slice p 16 20 in
        let key := FragmentKey source' transferKey' provideMode' src dst proto id in
        if negb (Z.land flagsAndOffset 32768 =? 0) then drop_with r counter key b
        else
          let header := (Z.to_nat (Z.land b0 15) * 4)%nat in
          let! total := get_u16 p 2 in
          let totalByteCount := Z.to_nat total in
          if (header <? Ipv4HeaderSizeWithoutExtensions)%nat || (totalByteCount <? header)%nat ||
             (length p <? totalByteCount)%nat
          then drop_with r counter key b
          else
            let payloadByteCount' := (totalByteCount - header)%nat in
            let moreFragments := negb (Z.land flagsAndOffset 8192 =? 0) in
            let offset' := (Z.to_nat (Z.land flagsAndOffset 8191) * 8)%nat in
            if (payloadByteCount' =? 0)%nat || (moreFragments && negb (payloadByteCount' mod 8 =? 0)%nat) ||
               (65535 - 20 <? Z.of_nat (offset' + payloadByteCount'))
            then drop_with r counter key b
            else
              let! fragmentPayload := slice p header totalByteCount in
              let! kept := slice p 0 totalByteCount in
              offer iter reassemble own r counter key (Z.of_nat (length p)) (RetainedFragment b kept header offset' payloadByteCount')
                fragmentPayload header moreFragments now retainCompletedFragments.

Definition processAt (r : ipv4FragmentReassembler) (counter : Z) (source' transferKey' : list Z) (provideMode' : Z)
    (b : nat) (p : bytes) (now : Z) : go (ipv4FragmentReassembler * Z * option bytes) :=
  let! '(r, counter, result) := processResultAt r counter source' transferKey' provideMode' b p now false in
  Ret (r, counter, result_packet result).

(** ** Fragmentation *)

Fixpoint fragment_loop (fuel : nat) (header ipPayload : bytes) (size offset' : nat) (identification : Z) : go (list bytes) :=
  match fuel with
  | O => Ret []
  | S fuel =>
      if (offset' <? length ipPayload)%nat then
        let stop := Nat.min (offset' + size) (length ipPayload) in
        let n := length header in
        let buf := pool_get (n + stop - offset') in
        let! buf := copy_into buf 0 n header in
        let! chunk := slice ipPayload offset' stop in
        let! buf := copy_into buf n (length buf) chunk in
        let! buf := put_u16 buf 2 (u16 (Z.of_nat (length buf))) in
        let! buf := put_u16 buf 4 identification in
        let flagsAndOffset := u16 (Z.of_nat (offset' / 8)) in
        let flagsAndOffset := if (stop <? length ipPayload)%nat then Z.lor flagsAndOffset 8192 else flagsAndOffset in
        let! buf := put_u16 buf 6 flagsAndOffset in
        let! buf := checksum_header buf n in
        let! rest := fragment_loop fuel header ipPayload size stop identification in
        Ret (buf :: rest)
      else Ret []
  end.

Inductive fragment_error := errInvalidIpv4Packet | errIpv4MtuTooSmall.

Definition fragmentIpv4Packet (counter : Z) (p : bytes) (mtu : Z) : go (Z * (list bytes + fragment_error)) :=
  if (length p <? Ipv4HeaderSizeWithoutExtensions)%nat then Ret (counter, inr errInvalidIpv4Packet)
  else
    let! b0 := index p 0 in
    if negb (Z.shiftr b0 4 =? 4) then Ret (counter, inr errInvalidIpv4Packet)
    else
      let header := (Z.to_nat (Z.land b0 15) * 4)%nat in
      if (header <? Ipv4HeaderSizeWithoutExtensions)%nat || (length p <? header)%nat
      then Ret (counter, inr errInvalidIpv4Packet)
      else
        let fragmentPayloadByteCount := Z.ldiff (mtu - Z.of_nat header) 7 in
        if fragmentPayloadByteCount <? 8 then Ret (counter, inr errIpv4MtuTooSmall)
        else
          let! head := slice p 0 header in
          let! ipPayload := slice p header (length p) in
          let '(counter, identification) := nextIpv4FragmentIdentification counter in
          let! l := fragment_loop (length ipPayload) head ipPayload (Z.to_nat fragmentPayloadByteCount) 0 identification in
          Ret (counter, inl l).
End reassembler.

(** ** Rewriting the header *)

Definition with_checksum (h : bytes) : bytes :=
  set16 (set16 h 10 0) 10 (checksumFinish (checksumAdd 0 (set16 h 10 0))).

Lemma with_checksum_length h : length (with_checksum h) = length h.
Proof. unfold with_checksum. by rewrite !set16_length. Qed.

Lemma with_checksum_bytes h : bytes_ok h -> bytes_ok (with_checksum h).
Proof. intros Hh. unfold with_checksum. by repeat apply set16_bytes. Qed.

Lemma writeIpv4HeaderChecksum_spec h : (12 <= length h)%nat -> writeIpv4HeaderChecksum h = Ret (with_checksum h).
Proof.
  intros Hh. unfold writeIpv4HeaderChecksum.
  transitivity (let! h := put_u16 h 10 0 in put_u16 h 10 (checksumFinish (checksumAdd 0 h))).
  { unfold put_u16 at 2. change (10 + 1)%nat with 11%nat. change (byte_of 0 8) with 0. change (byte_of 0 0) with 0.
    destruct (set_index h 10 0); done. }
  rewrite put_u16_set16 by lia. cbn [gbind]. rewrite put_u16_set16 by (rewrite set16_length; lia). done.
Qed.

Lemma checksum_header_spec p n :
  (12 <= n)%nat -> (n <= length p)%nat -> checksum_header p n = Ret (with_checksum (take n p) ++ drop n p).
Proof.
  intros H1 H2. unfold checksum_header. rewrite slice_0 by done. cbn [gbind].
  rewrite writeIpv4HeaderChecksum_spec by (rewrite length_take; lia). done.
Qed.

(** ** What the cache relies on *)

Definition ipv4_frag (f : ipv4RetainedFragment) : Prop :=
  (20 <= headerByteCount f)%nat /\ exists b0, f_packet f !! 0%nat = Some b0 /\ headerByteCount f = (Z.to_nat (Z.land b0 15) * 4)%nat.
Definition ipv4_first (_ : nat) : Prop := True.

#[local] Notation frag_wf := (frag_wf (FF := ipv4_family) ipv4_frag).
#[local] Notation cache_ok := (cache_ok (FF := ipv4_family) ipv4_frag ipv4_first).

Lemma zero_admits k : not_excluded zeroKey k = true.
Proof. unfold not_excluded. rewrite (bool_decide_eq_true_2 (zeroKey = zeroKey)) by done. cbn. by rewrite andb_false_r. Qed.

(** The header of a whole packet made from the first fragment's. *)
Definition whole_header (h : bytes) (total : Z) : bytes := with_checksum (set16 (set16 h 2 total) 6 0).

Lemma reassemble_spec `{MessagePool} f l final :
  Forall frag_wf (f :: l) -> contiguous_to (f :: l) 0 = Some (Z.to_nat final) ->
  reassemble (f :: l) (headerByteCount f) final =
    Ret (whole_header (take (headerByteCount f) (f_packet f)) (u16 (Z.of_nat (headerByteCount f + Z.to_nat final))) ++
         concat (map frag_payload (f :: l))).
Proof.
  intros Hl Hc. unfold reassemble. pose proof (assemble_spec ipv4_frag f l final Hl Hc) as E. cbn [headByteCount packet ipv4_family] in E. rewrite E. clear E.
  cbn [gbind]. apply Forall_cons_1 in Hl as [[_ Hlen _ [H20 _]] _]. cbn in Hlen. set (n := headerByteCount f) in *.
  set (head := take n (f_packet f)). assert (Lh : length head = n) by (unfold head; rewrite length_take; lia). set (body := concat _).
  rewrite put_u16_set16 by (rewrite length_app; lia). cbn [gbind]. rewrite set16_app by lia.
  rewrite put_u16_set16 by (rewrite length_app, set16_length; lia). cbn [gbind].
  rewrite set16_app by (rewrite set16_length; lia).
  rewrite checksum_header_spec by (rewrite ?length_app, ?set16_length; lia).
  rewrite take_app_length', drop_app_length' by (rewrite !set16_length; lia). done.
Qed.

Lemma canonical_fragment_returns id f : frag_wf f -> returns (canonical_fragment id (f_packet f)) (fun _ => True).
Proof.
  intros [Hb Hlen _ (H20 & b0 & H0 & Hh)]. cbn in Hb, Hlen. unfold canonical_fragment. rewrite (index_ret _ _ _ H0). cbn [gbind].
  rewrite put_u16_set16 by lia. cbn [gbind]. greturns get_u16_returns; [by apply set16_bytes|rewrite set16_length; lia|].
  intros flags _. rewrite put_u16_set16 by (rewrite set16_length; lia). cbn [gbind].
  rewrite checksum_header_spec by (rewrite ?set16_length; lia). by apply returns_ret.
Qed.

Lemma own_returns counter l : Forall frag_wf l -> returns (own counter l) (fun '(_, parts) => parts.*1 = map f_buffer l).
Proof.
  intros Hl. unfold own. destruct (nextIpv4FragmentIdentification counter) as [c id].
  assert (Hp : returns (canonical_fragments id l) (fun parts => parts.*1 = map f_buffer l)).
  { induction Hl as [|f l Hf Hl IH]; [by apply returns_ret|]. cbn [canonical_fragments].
    greturns canonical_fragment_returns; [done|]. intros p _. eapply returns_bind; [exact IH|]. intros rest E. apply returns_ret. cbn. by rewrite <- E. }
  eapply returns_bind; [exact Hp|]. intros parts E. by apply returns_ret.
Qed.

Section proofs.
Context (iter : gmap (@Key ipv4_family) (@datagram ipv4_family) -> list (@Key ipv4_family * @datagram ipv4_family)).
Context (iter_perm : forall m, iter m ≡ₚ map_to_list m).
Context `{MessagePool}.

(** ** Processing a packet *)

Lemma offer4_ok r counter key cost f pl header more now keep :
  cache_ok r -> frag_wf f -> fragment_bytes f <= cost -> header = headerByteCount f ->
  returns (offer iter reassemble own r counter key cost f pl header more now keep) (processed ipv4_frag ipv4_first r (f_buffer f)).
Proof.
  intros Hok Hf Hc ->. apply (offer_ok (FF := ipv4_family) iter iter_perm zero_admits ipv4_frag ipv4_first eq_refl reassemble own); try done.
  - intros f0 l fst final Hl Hcont Hfin Eh _ _. cbn in Eh. subst fst. rewrite reassemble_spec by done. apply returns_ret, (reassembled_bytes (FF := ipv4_family) ipv4_frag); [done|].
    apply with_checksum_bytes, set16_bytes, set16_bytes, bytes_ok_take. apply Forall_cons_1 in Hl as [Hl _]. apply (fw_bytes _ _ Hl).
  - intros st l Hl. by apply own_returns.
Qed.

Lemma processResultAt_ok r counter s tk pm b p now keep :
  cache_ok r -> bytes_ok p ->
  returns (processResultAt iter r counter s tk pm b p now keep) (handled ipv4_frag ipv4_first r b p).
Proof.
  intros Hok Hp. unfold processResultAt, Ipv4HeaderSizeWithoutExtensions.
  assert (Hpass : forall c : Z, returns (Ret (r, c, ProcessResult (Some p) [] false true)) (handled ipv4_frag ipv4_first r b p)) by (intros c; by apply returns_ret, passed_handled).
  destruct (Nat.ltb_spec (length p) 20) as [|Hp20]; [done|].
  destruct (lookup_lt_is_Some_2 p 0) as [b0 H0]; [lia|]. rewrite (index_ret _ _ _ H0). cbn [gbind].
  destruct (negb (Z.shiftr b0 4 =? 4)); [done|].
  greturns get_u16_returns; [done|lia|]. intros flags Hflags. destruct (Z.land flags 16383 =? 0); [done|]. clear Hpass.
  destruct (expired_handled (FF := ipv4_family) (St := Z) iter iter_perm ipv4_frag ipv4_first eq_refl r now Hok) as [Hok0 Hh].
  eapply returns_weaken; [|intros x; apply Hh]. clear Hh. set (r0 := set_max (expire iter r now)) in *.
  greturns @index_returns; [lia|]. intros proto _. greturns get_u16_returns; [done|lia|]. intros id _.
  greturns @slice_returns; [lia|lia|]. intros src _. greturns @slice_returns; [lia|lia|]. intros dst _.
  set (key := FragmentKey _ _ _ _ _ _ _).
  assert (Hdrop : returns (drop_with r0 counter key b) (processed ipv4_frag ipv4_first r0 b)) by (by apply drop_processed).
  destruct (negb (Z.land flags 32768 =? 0)); [done|].
  greturns get_u16_returns; [done|lia|]. intros total Ht. cbn zeta.
  set (header := (Z.to_nat (Z.land b0 15) * 4)%nat). set (n := Z.to_nat total).
  destruct (_ || _) eqn:E1; [done|]. apply orb_false_iff in E1 as [E1 E1c]. apply orb_false_iff in E1 as [E1a E1b].
  apply Nat.ltb_ge in E1a, E1b, E1c.
  destruct (_ || _) eqn:E2; [done|]. apply orb_false_iff in E2 as [E2 E2c]. apply orb_false_iff in E2 as [E2a _].
  apply Nat.eqb_neq in E2a. apply Z.ltb_ge in E2c.
  greturns @slice_returns; [lia|lia|]. intros fp _. rewrite slice_0 by lia. cbn [gbind].
  set (f := RetainedFragment _ _ _ _ _). change b with (f_buffer f). apply offer4_ok; [done| | |done].
  - split; cbn; [by apply bytes_ok_take|rewrite length_take; lia|lia|]. split; [done|]. exists b0. split; [|done].
    change (take n p !! 0%nat = Some b0). by rewrite lookup_take_lt by lia.
  - unfold fragment_bytes. cbn. rewrite length_take. lia.
Qed.

(** ** Fragments of one packet *)

(** The flags-and-offset field of a piece of a payload of [n] bytes. *)
Definition piece_flags (n : nat) (x : piece) : Z :=
  if piece_more n x then Z.lor (u16 (Z.of_nat (x.1 / 8))) 8192 else u16 (Z.of_nat (x.1 / 8)).

Definition piece_header (h : bytes) (n : nat) (id : Z) (x : piece) : bytes :=
  with_checksum (set16 (set16 (set16 h 2 (u16 (Z.of_nat (length h + length x.2)))) 4 id) 6 (piece_flags n x)).

Definition piece_packet (h : bytes) (n : nat) (id : Z) (x : piece) : bytes := piece_header h n id x ++ x.2.

Lemma piece_header_length h n id x : length (piece_header h n id x) = length h.
Proof. unfold piece_header. by rewrite with_checksum_length, !set16_length. Qed.
Lemma piece_packet_length h n id x : length (piece_packet h n id x) = (length h + length x.2)%nat.
Proof. unfold piece_packet. by rewrite length_app, piece_header_length. Qed.

Lemma fragment_loop_spec fuel h body size i id :
  (20 <= length h)%nat -> (1 <= size)%nat ->
  fragment_loop fuel h body size i id =
    Ret (map (piece_packet h (length body) id) (chunks fuel body (length body) size i)).
Proof.
  intros Hh Hs. revert i. induction fuel as [|fuel IH]; intros i; [done|]. cbn [fragment_loop chunks].
  destruct (Nat.ltb_spec i (length body)); [|done]. set (stop := Nat.min (i + size) (length body)).
  set (buf := pool_get _). assert (Lb : length buf = (length h + stop - i)%nat) by apply pool_get_length.
  destruct (length_split buf (length h) ltac:(lia)) as (a & b & -> & La). rewrite length_app in Lb.
  change (a ++ b) with ([] ++ a ++ b). rewrite copy_into_app by (done || (cbn; lia)). cbn [gbind app].
  rewrite slice_ret by lia. cbn [gbind]. set (ch := take (stop - i) (drop i body)).
  assert (Lc : length ch = (stop - i)%nat) by (unfold ch; rewrite length_take, length_drop; lia).
  rewrite copy_tail by (rewrite ?length_app; lia). cbn [gbind]. rewrite (drop_ge b), app_nil_r by lia.
  rewrite put_u16_set16 by (rewrite length_app; lia). cbn [gbind]. rewrite set16_app by lia.
  rewrite put_u16_set16 by (rewrite length_app, set16_length; lia). cbn [gbind].
  rewrite set16_app by (rewrite set16_length; lia).
  rewrite put_u16_set16 by (rewrite length_app, !set16_length; lia). cbn [gbind].
  rewrite set16_app by (rewrite !set16_length; lia).
  rewrite checksum_header_spec by (rewrite ?length_app, ?set16_length; lia).
  rewrite take_app_length', drop_app_length' by (rewrite !set16_length; lia). cbn [gbind].
  rewrite IH. cbn [gbind map]. f_equal. f_equal. unfold piece_packet, piece_header, piece_flags, piece_more. cbn [fst snd].
  rewrite length_app, Lc. by replace (i + (stop - i))%nat with stop by lia.
Qed.

(** The fields a reader finds. *)
Lemma piece_header_cells h n id x :
  (20 <= length h)%nat ->
  exists c0 c1 c8 c9 c12 c13 c14 c15 c16 c17 c18 c19 c opts b2 b3 b4 b5 b6 b7 b10 b11,
    h = [c0; c1; b2; b3; b4; b5; b6; b7; c8; c9; b10; b11; c12; c13; c14; c15; c16; c17; c18; c19] ++ opts /\
    piece_header h n id x =
      [c0; c1; byte_of (u16 (Z.of_nat (length h + length x.2))) 8; byte_of (u16 (Z.of_nat (length h + length x.2))) 0;
       byte_of id 8; byte_of id 0; byte_of (piece_flags n x) 8; byte_of (piece_flags n x) 0; c8; c9;
       byte_of c 8; byte_of c 0; c12; c13; c14; c15; c16; c17; c18; c19] ++ opts.
Proof.
  intros Hh. destruct (length_split h 20 Hh) as (a & opts & -> & La). unfold piece_header.
  generalize (u16 (Z.of_nat (length (a ++ opts) + length x.2))), (piece_flags n x). intros t fl. cells a.
  repeat eexists.
Qed.

Lemma land_pow2 x n : 0 <= n -> Z.land x (2 ^ n) = if Z.odd (Z.shiftr x n) then 2 ^ n else 0.
Proof.
  intros Hn. apply Z.bits_inj'. intros i Hi. rewrite Z.land_spec, Z.pow2_bits_eqb by lia.
  rewrite <- Z.testbit_odd. destruct (Z.eqb_spec n i) as [->|Hne].
  - destruct (Z.testbit x i) eqn:E; [by rewrite Z.pow2_bits_true|by rewrite Z.bits_0].
  - rewrite andb_false_r. destruct (Z.testbit x n); [by rewrite Z.pow2_bits_false by lia|by rewrite Z.bits_0].
Qed.

Lemma piece_flags_bits n x :
  Z.of_nat x.1 <= 65515 -> (x.1 mod 8 = 0)%nat ->
  let more := piece_more n x in
  let fl := piece_flags n x in
  0 <= fl < 65536 /\ Z.land fl 32768 = 0 /\ negb (Z.land fl 8192 =? 0) = more /\
  (Z.to_nat (Z.land fl 8191) * 8)%nat = x.1 /\ (more = true \/ x.1 <> 0%nat -> Z.land fl 16383 <> 0).
Proof.
  destruct x as [o ch]. unfold piece_flags. cbn zeta. set (m := piece_more n (o, ch)). cbn [fst snd]. intros Hx H8.
  pose proof (Nat.div_mod_eq o 8) as Hd. rewrite H8 in Hd. set (q := (o / 8)%nat) in *. assert (Hq : 0 <= Z.of_nat q < 8192) by lia. rewrite (u16_small (Z.of_nat q)) by lia.
  assert (Elor : Z.lor (Z.of_nat q) 8192 = Z.of_nat q + 8192).
  { rewrite <- Z.lxor_lor, <- Z.add_nocarry_lxor; [done| |]; change 8192 with (2 ^ 13); rewrite land_pow2 by lia;
      rewrite Z.shiftr_div_pow2 by lia; change (2 ^ 13) with 8192; rewrite Z.div_small by lia; done. }
  rewrite Elor.
  replace (if m then Z.of_nat q + 8192 else Z.of_nat q) with (Z.of_nat q + (if m then 8192 else 0)) by (destruct m; lia).
  set (fl := Z.of_nat q + (if m then 8192 else 0)). assert (Hfl : 0 <= fl < 16384) by (unfold fl; destruct m; lia).
  assert (Ediv : fl / 8192 = if m then 1 else 0).
  { unfold fl. destruct m; [|rewrite Z.add_0_r; by apply Z.div_small].
    symmetry. apply (Z.div_unique _ 8192 1 (Z.of_nat q)); lia. }
  split; [lia|]. split; [|split; [|split]].
  - change 32768 with (2 ^ 15). rewrite land_pow2 by lia. rewrite Z.shiftr_div_pow2 by lia.
    change (2 ^ 15) with 32768. rewrite Z.div_small by lia. done.
  - change 8192 with (2 ^ 13) at 1. rewrite land_pow2 by lia. rewrite Z.shiftr_div_pow2 by lia.
    change (2 ^ 13) with 8192. rewrite Ediv. by destruct m.
  - change 8191 with (Z.ones 13). rewrite Z.land_ones by lia. change (2 ^ 13) with 8192.
    rewrite Z.mod_eq, Ediv by lia. unfold fl. destruct m; lia.
  - intros Hor. change 16383 with (Z.ones 14). rewrite Z.land_ones by lia. change (2 ^ 14) with 16384.
    rewrite Z.mod_small by lia. unfold fl. destruct Hor as [->|Hne]; [lia|destruct m; lia].
Qed.

(** ** Feeding the fragments back

    A packet with header [h] and payload [body], fragmented under [id] and
    fed to the reassembler as coming from one source. *)
Section feed.
Context (h body : bytes) (id : Z) (s tk : list Z) (pm : Z).

Definition header_ok : Prop :=
  bytes_ok h /\ (20 <= length h)%nat /\
  exists b0, h !! 0%nat = Some b0 /\ Z.shiftr b0 4 = 4 /\ length h = (Z.to_nat (Z.land b0 15) * 4)%nat.

Context (Hh : header_ok) (Hbody : bytes_ok body) (Hid : 0 <= id < 65536).
Context (Htotal : Z.of_nat (length h + length body) <= 65535).

Definition feed_key : ipv4FragmentKey :=
  FragmentKey s tk pm (take 4 (drop 12 h)) (take 4 (drop 16 h)) (default 0 (h !! 9%nat)) id.

(** What is kept of a piece that came in the buffer [y.1]. *)
Definition retained_piece (y : nat * piece) : @Frag ipv4_family :=
  RetainedFragment y.1 (piece_packet h (length body) id y.2) (length h) y.2.1 (length y.2.2).

Lemma retained_payload y : frag_payload (FF := ipv4_family) (retained_piece y) = y.2.2.
Proof.
  unfold frag_payload. cbn. unfold piece_packet. rewrite Nat.add_0_r. by rewrite drop_app_length' by (by rewrite piece_header_length).
Qed.

(** What the reassembler does with a piece, its header read. *)
Lemma process_piece r counter b x now keep :
  piece_fits (length body) x ->
  processResultAt iter r counter s tk pm b (piece_packet h (length body) id x) now keep =
    step iter reassemble own feed_key (length body) (length h) r counter (retained_piece (b, x)) now keep.
Proof.
  intros [H8 Hpos Hend Hbx Hm8 Hfrag]. pose proof (retained_payload (b, x)) as Hpay. destruct x as [o ch]. cbn [fst snd] in *.
  pose proof Hh as (Hhb & H20 & b0 & E0 & Ev & Ehl).
  destruct (piece_flags_bits (length body) (o, ch) ltac:(cbn; lia) H8) as (Fr & F15 & F13 & F12 & F14).
  cbn [fst snd] in *. specialize (F14 Hfrag). set (fl := piece_flags (length body) (o, ch)) in *.
  set (n := (length h + length ch)%nat). assert (Hn : 0 <= Z.of_nat n < 65536) by (unfold n; lia).
  set (pk := piece_packet h (length body) id (o, ch)).
  assert (Lp : length pk = n) by apply piece_packet_length.
  assert (Facts : index pk 0 = Ret b0 /\ get_u16 pk 6 = Ret fl /\ index pk 9 = Ret (default 0 (h !! 9%nat)) /\
    get_u16 pk 4 = Ret id /\ slice pk 12 16 = Ret (take 4 (drop 12 h)) /\ slice pk 16 20 = Ret (take 4 (drop 16 h)) /\
    get_u16 pk 2 = Ret (Z.of_nat n)).
  { destruct (piece_header_cells h (length body) id (o, ch) H20) as (c0 & c1 & c8 & c9 & c12 & c13 & c14 & c15 & c16 & c17 & c18
      & c19 & c & opts & b2 & b3 & b4 & b5 & b6 & b7 & b10 & b11 & Eh & Ep).
    unfold pk, piece_packet. rewrite Ep. cbn [snd] in *. fold n. fold fl. rewrite (u16_small (Z.of_nat n)) by lia.
    rewrite Eh in E0. cbn in E0. injection E0 as ->. rewrite Eh. clearbody fl n.
    split; [done|]. split; [unfold get_u16; cbn -[be16 byte_of]; by rewrite be16_split|]. split; [done|].
    split; [unfold get_u16; cbn -[be16 byte_of]; by rewrite be16_split|]. split; [done|]. split; [done|].
    unfold get_u16. cbn -[be16 byte_of]. by rewrite be16_split. }
  destruct Facts as (I0 & I6 & I9 & I4 & S12 & S16 & I2).
  assert (Sp : slice pk (length h) n = Ret ch).
  { unfold pk, piece_packet. apply slice_cut; rewrite piece_header_length; done. }
  assert (Sk : slice pk 0 n = Ret pk) by (by apply slice_all).
  unfold processResultAt, Ipv4HeaderSizeWithoutExtensions.
  rewrite Lp, (proj2 (Nat.ltb_ge _ _)), I0 by lia. cbn [gbind]. rewrite Ev. cbn [Z.eqb Pos.eqb negb].
  rewrite I6. cbn [gbind]. rewrite (proj2 (Z.eqb_neq _ _) F14), I9, I4, S12, S16, I2. cbn [gbind].
  rewrite F15. cbn [Z.eqb negb]. rewrite <- Ehl, Nat2Z.id.
  rewrite !(proj2 (Nat.ltb_ge _ _)) by (unfold n; lia). cbn [orb].
  assert (Epl : (n - length h)%nat = length ch) by (unfold n; lia). rewrite Epl, F13, F12.
  rewrite (proj2 (Nat.eqb_neq (length ch) 0)), (proj2 (Z.ltb_ge _ _)) by lia.
  replace (piece_more (length body) (o, ch) && negb (length ch mod 8 =? 0)%nat) with false.
  2:{ destruct (piece_more (length body) (o, ch)) eqn:Em; [|done]. by rewrite (Hm8 eq_refl). }
  cbn [orb]. rewrite Sp. cbn [gbind]. rewrite Sk. cbn [gbind]. unfold step. rewrite Hpay. unfold fragment_bytes. cbn [packet ipv4_family f_packet retained_piece fst snd].
  fold pk. rewrite Lp. reflexivity.
Qed.

Lemma retained_piece_ok y : piece_fits (length body) y.2 -> piece_ok (FF := ipv4_family) ipv4_frag (length body) (length h) (retained_piece y).
Proof.
  intros [_ Hpos Hend Hb _ _]. pose proof Hh as (Hhb & H20 & b0 & E0 & Ev & Ehl). split; [split|..]; cbn.
  - apply bytes_ok_app. split; [|done]. apply with_checksum_bytes. by repeat apply set16_bytes.
  - rewrite piece_packet_length. lia.
  - done.
  - split; [done|]. exists b0. split; [|done]. change (piece_packet h (length body) id y.2 !! 0%nat = Some b0). unfold piece_packet.
    destruct (piece_header_cells h (length body) id y.2 H20) as (c0 & c1 & c8 & c9 & c12 & c13 & c14 & c15 & c16 & c17 & c18
      & c19 & c & opts & b2 & b3 & b4 & b5 & b6 & b7 & b10 & b11 & Eh & Ep).
    rewrite Ep. rewrite Eh in E0. done.
  - done.
  - done.
Qed.

(** The whole packet: the header under the fragments' identification, with
    the fragmentation fields cleared and the checksum renewed. *)
Definition whole_packet : bytes :=
  with_checksum (set16 (set16 (set16 h 2 (Z.of_nat (length h + length body))) 4 id) 6 0) ++ body.

Lemma whole_header_piece x total :
  whole_header (piece_header h (length body) id x) total =
  with_checksum (set16 (set16 (set16 h 2 total) 4 id) 6 0).
Proof.
  pose proof Hh as (_ & H20 & _). destruct (length_split h 20 H20) as (a & opts & E & La).
  unfold whole_header, piece_header. rewrite E.
  generalize (u16 (Z.of_nat (length (a ++ opts) + length x.2))), (piece_flags (length body) x).
  intros t fl. clear E H20. cells a. reflexivity.
Qed.

Lemma whole_reassembled ys :
  Forall (fun y => piece_fits (length body) y.2) ys -> contiguous_to (map retained_piece ys) 0 = Some (length body) ->
  concat (map (fun y => y.2.2) ys) = body -> ys <> [] ->
  reassemble (map retained_piece ys) (length h) (Z.of_nat (length body)) = Ret whole_packet.
Proof.
  intros Hok Hc Hb Hne. destruct ys as [|y ys]; [done|].
  assert (Hall : Forall frag_wf (map retained_piece (y :: ys))).
  { apply Forall_fmap. eapply Forall_impl; [|exact Hok]. intros z Hz. apply (pk_wf _ _ _ _ (retained_piece_ok z Hz)). }
  pose proof (reassemble_spec (retained_piece y) (map retained_piece ys) (Z.of_nat (length body)) Hall) as E.
  cbn [headerByteCount retained_piece f_packet] in E. cbn [map]. etransitivity; [apply E; rewrite Nat2Z.id; exact Hc|]. clear E.
  rewrite Nat2Z.id, u16_small by lia. unfold whole_packet. do 2 f_equal.
  - rewrite <- (whole_header_piece y.2). f_equal. unfold piece_packet. by rewrite take_app_length' by (by rewrite piece_header_length).
  - etransitivity; [|exact Hb]. transitivity (concat (map (frag_payload (FF := ipv4_family)) (map retained_piece (y :: ys)))); [done|].
    rewrite List.map_map. f_equal. apply map_ext. intros z. apply retained_payload.
Qed.

(** Packets of the source with their buffers and the times they arrive. *)
Fixpoint process_all (r : ipv4FragmentReassembler) (counter : Z) (l : list (nat * bytes * Z))
    : go (ipv4FragmentReassembler * Z * list ipFragmentProcessResult) :=
  match l with
  | [] => Ret (r, counter, [])
  | (b, p, now) :: l =>
      let! '(r, counter, result) := processResultAt iter r counter s tk pm b p now false in
      let! '(r, counter, rest) := process_all r counter l in
      Ret (r, counter, result :: rest)
  end.

Lemma process_steps arriving : forall todo r counter,
  map (fun a => a.1.2) arriving = map (piece_packet h (length body) id) todo -> Forall (piece_fits (length body)) todo ->
  process_all r counter arriving =
    steps iter reassemble own feed_key (length body) (length h) r counter (zip_with (fun a x => (retained_piece (a.1.1, x), a.2)) arriving todo).
Proof.
  induction arriving as [|[[b p] now] arriving IH]; intros [|x todo] r counter E Hok; try done. cbn in E. injection E as -> E.
  apply Forall_cons_1 in Hok as [Hx Hok]. cbn [process_all zip_with steps fst snd]. rewrite process_piece by done.
  destruct (step _ _ _ _ _ _ _ _ _ _ _) as [[[r1 c1] res]|]; [|done]. cbn [gbind]. by rewrite (IH todo) by done.
Qed.
End feed.

Lemma next_identification_range counter :
  0 < (nextIpv4FragmentIdentification counter).2 < 65536.
Proof.
  unfold nextIpv4FragmentIdentification. set (c := u32 (counter + 1)).
  pose proof (u16_range c). destruct (Z.eqb_spec (u16 c) 0) as [E|]; cbn; [|lia].
  pose proof (u32_range (counter + 1)) as Hc. fold c in Hc. unfold u16 in *.
  assert (Hc1 : c + 1 < 4294967296 \/ c + 1 = 4294967296) by lia. destruct Hc1 as [Hc1|Hc1].
  - rewrite u32_small by lia. rewrite Zplus_mod, E. cbn. lia.
  - assert (c = 4294967295) as -> by lia. done.
Qed.

Definition fragment_size (h : bytes) (mtu : Z) : nat := Z.to_nat (Z.ldiff (mtu - Z.of_nat (length h)) 7).

Lemma fragmentIpv4Packet_spec counter h body mtu :
  header_ok h -> Z.of_nat (length h) + 8 <= mtu ->
  let '(counter', id) := nextIpv4FragmentIdentification counter in
  fragmentIpv4Packet counter (h ++ body) mtu =
    Ret (counter', inl (map (piece_packet h (length body) id)
                          (chunks (length body) body (length body) (fragment_size h mtu) 0))).
Proof.
  intros (Hb & H20 & b0 & E0 & Ev & Ehl) Hm. destruct (nextIpv4FragmentIdentification counter) as [c' id] eqn:En.
  destruct (unit_size (mtu - Z.of_nat (length h)) ltac:(lia)) as (S1 & S2 & S3). fold (fragment_size h mtu) in *.
  unfold fragmentIpv4Packet, Ipv4HeaderSizeWithoutExtensions. rewrite length_app, (proj2 (Nat.ltb_ge _ _)) by lia.
  rewrite (index_ret (h ++ body) 0 b0) by (rewrite lookup_app_l by lia; done). cbn [gbind]. rewrite Ev. cbn [Z.eqb Pos.eqb negb].
  rewrite <- Ehl, !(proj2 (Nat.ltb_ge _ _)) by lia. cbn [orb].
  rewrite (proj2 (Z.ltb_ge _ _)) by (unfold fragment_size in *; lia).
  rewrite slice_app_l. cbn [gbind]. rewrite slice_app_r by done. cbn [gbind]. rewrite En.
  fold (fragment_size h mtu). rewrite fragment_loop_spec by lia. done.
Qed.

(** ** Claims *)

(** Packets of any sources, interleaved, each in its buffer. *)
Definition arrival : Type := list Z * list Z * Z * (nat * bytes) * Z.

Fixpoint arrivals (r : ipv4FragmentReassembler) (counter : Z) (keep : bool) (l : list arrival)
    : go (ipv4FragmentReassembler * Z * list ipFragmentProcessResult) :=
  match l with
  | [] => Ret (r, counter, [])
  | (s, tk, pm, (b, p), now) :: l =>
      let! '(r, counter, res) := processResultAt iter r counter s tk pm b p now keep in
      let! '(r, counter, rest) := arrivals r counter keep l in
      Ret (r, counter, res :: rest)
  end.

(** The buffers the caller keeps or gets back: that of a packet that is no
    fragment, and those of owned fragments. *)
Definition with_caller (bs : list nat) (res : list ipFragmentProcessResult) : list nat :=
  concat (zip_with (fun b x => if fragment x then (result_fragments x).*1 else [b]) bs res).

Lemma arrivals_ok keep l r counter :
  cache_ok r -> Forall (fun a : arrival => bytes_ok a.1.2.2) l ->
  returns (arrivals r counter keep l) (fun '(r', _, res) => cache_ok r' /\ same_limits r r' /\
    books r' ++ with_caller (map (fun a => a.1.2.1) l) res ≡ₚ map (fun a => a.1.2.1) l ++ books r).
Proof.
  intros Hok Hl. revert r counter Hok. induction Hl as [|[[[[s tk] pm] [b p]] now] l Hp Hl IH]; intros r counter Hok.
  - apply returns_ret. split_and!; [done|done|]. by rewrite app_nil_r.
  - cbn [arrivals]. greturns processResultAt_ok; [done|exact Hp|]. intros [[r1 c1] res] (Hok1 & L1 & S1).
    eapply returns_bind; [by apply IH|]. intros [[r2 c2] rest] (Hok2 & L2 & B2). apply returns_ret.
    split_and!; [done|by eapply same_limits_trans|]. cbn [map with_caller zip_with concat fst snd]. fold (with_caller (map (fun a : arrival => a.1.2.1) l) rest).
    destruct (fragment res).
    + destruct S1 as [S1 _]. unfold settled in S1. rewrite (Permutation_app_comm (result_fragments res).*1), app_assoc, B2, <- app_assoc, S1. symmetry. apply Permutation_middle.
    + destruct S1 as [-> _]. rewrite (Permutation_app_comm [b]), app_assoc, B2. rewrite Permutation_app_comm. done.
Qed.

(** Whatever packets arrive, from any sources and in any order of map
    iteration, the IPv4 reassembler never panics and stays bounded: its byte
    counters equal the bytes it holds, in total and per source, and exceed
    neither the shared budget nor a source's quota; it holds at most 16
    datagrams of 1 to 64 fragments, and the fragments of a datagram never
    overlap. Every buffer it was given is retained, returned to the pool, left
    with the caller or handed back to it, once. *)
Theorem reassembly_bounded mx per keep (l : list arrival) :
  0 < mx -> Forall (fun a => bytes_ok a.1.2.2) l ->
  returns (arrivals (Reassembler mx per ∅ 0 ∅ []) 0 keep l) (fun '(r, _, res) =>
    bounded mx per r /\ returned r ++ held (datagrams r) ++ with_caller (map (fun a => a.1.2.1) l) res ≡ₚ map (fun a => a.1.2.1) l).
Proof.
  intros Hm Hl. eapply returns_weaken; [apply arrivals_ok; [by apply new_cache_ok|done]|].
  intros [[r c] res] (Hok & [L1 L2] & B). cbn in L1, L2. split; [rewrite <- L1, <- L2; by apply (cache_bounded (FF := ipv4_family) ipv4_frag ipv4_first)|].
  unfold books in B. cbn in B. rewrite app_nil_r, <- app_assoc in B. exact B.
Qed.

(** C32: Fragmenting a packet that does not fit the mtu gives fragments that
    each fit it; and fed back in any order, in any buffers, within the reassembly
    timeout, to a cache with room for them, every fragment but the last is retained
    and the last returns the packet: its payload unchanged under its own header,
    with the fragments' identification, the fragmentation fields cleared and the
    checksum renewed; nothing of it stays in the cache. *)
Theorem fragment_roundtrip counter h body mtu :
  header_ok h -> bytes_ok body -> Z.of_nat (length h + length body) <= 65535 ->
  Z.of_nat (length h) + 8 <= mtu < Z.of_nat (length h + length body) ->
  let '(counter', id) := nextIpv4FragmentIdentification counter in
  exists frags, fragmentIpv4Packet counter (h ++ body) mtu = Ret (counter', inl frags) /\
    Forall (fun f => Z.of_nat (length f) <= mtu) frags /\
    forall r s tk pm arriving lo,
      (length frags <= 64)%nat -> map (fun a => a.1.2) arriving ≡ₚ frags ->
      Forall (fun a => lo <= a.2 < lo + ipv4FragmentReassemblyTimeout) arriving ->
      cache_ok r -> datagrams r !! feed_key h id s tk pm = None ->
      within r (sumZ (map (fun f => Z.of_nat (length f)) frags)) s ->
      exists r', process_all s tk pm r counter' arriving =
          Ret (r', counter', replicate (length frags - 1) (ProcessResult None [] true true) ++
                             [ProcessResult (Some (whole_packet h body id)) [] true true]) /\
        cache_ok r' /\ datagrams r' !! feed_key h id s tk pm = None.
Proof.
  intros Hh Hb Hmax Hm. pose proof (fragmentIpv4Packet_spec counter h body mtu Hh ltac:(lia)) as E.
  pose proof (next_identification_range counter) as Hid.
  destruct (nextIpv4FragmentIdentification counter) as [counter' id]. cbn in Hid.
  destruct (unit_size (mtu - Z.of_nat (length h)) ltac:(lia)) as (S1 & S2 & S3). fold (fragment_size h mtu) in *. set (size := fragment_size h mtu) in *.
  set (ps := chunks (length body) body (length body) size 0) in *.
  eexists. split; [exact E|]. clear E. split.
  { apply Forall_map. destruct (chunks_concat (length body) body (length body) size 0 ltac:(lia) ltac:(lia) ltac:(lia)) as [_ Hc].
    eapply Forall_impl; [|exact Hc]. intros [o ch] Hx. rewrite piece_packet_length.
    cbn [snd] in *. lia. }
  intros r s tk pm arriving lo H64 Hord Htimes Hok Hk Hw. rewrite length_map in H64 |- *.
  apply Permutation_map_inv in Hord as (todo & Etodo & Hp).
  destruct (chunks_pieces (FF := ipv4_family) (fun x => retained_piece h body id (0%nat, x)) body size (length body) 0) as [Hfit Hcont]; try done; try lia.
  rewrite (process_steps h body id s tk pm Hh ltac:(lia) Hmax arriving todo r counter' Etodo) by (by rewrite <- Hp).
  apply (feed_all (FF := ipv4_family) iter iter_perm zero_admits ipv4_frag ipv4_first eq_refl reassemble own (feed_key h id s tk pm) (length body) (length h))
    with (R := retained_piece h body id) (cost := fun x => Z.of_nat (length (piece_packet h (length body) id x))) (lo := lo); try done.
  - cbn. destruct Hh as (_ & ? & _). lia.
  - cbn. rewrite (proj2 (Z.ltb_ge _ _)) by lia. by rewrite andb_false_r.
  - cbn. rewrite (proj2 (Z.ltb_ge _ _)) by lia. by rewrite andb_false_r.
  - intros y Hy. apply retained_piece_ok; done || lia.
  - lia.
  - by rewrite <- (length_map (fun a => a.1.2)), Etodo, length_map.
  - intros ys Ey. apply whole_reassembled; try done; try lia.
    + apply (Forall_map snd). rewrite Ey. exact Hfit.
    + rewrite (contiguous_pieces (FF := ipv4_family)) by done. rewrite Ey. exact Hcont.
    + transitivity (concat (map snd (map snd ys))); [by rewrite List.map_map|]. rewrite Ey. apply chunks_whole. lia.
    + intros ->. cbn in Ey. fold ps in Hcont. rewrite <- Ey in Hcont. cbn in Hcont. injection Hcont. lia.
  - by rewrite List.map_map in Hw.
Qed.
End proofs.

(** ** Witnesses *)

Definition demo_header : bytes := [69; 0; 0; 60; 0; 0; 0; 0; 64; 17; 0; 0; 10; 0; 0; 2; 1; 1; 1; 1].
Definition demo_body : bytes := replicate 40 9.

Lemma demo_header_ok : header_ok demo_header.
Proof.
  split; [apply (bool_decide_eq_true_1 _); reflexivity|]. split; [cbn; lia|]. exists 69. done.
Qed.

Lemma reassembly_bounded_witness :
  returns (arrivals map_to_list (Reassembler 100 50 ∅ 0 ∅ []) 0 true
      [([1], [], 0, (3%nat, [69; 0; 0; 28; 0; 7; 32; 0; 64; 17; 0; 0; 10; 0; 0; 2; 1; 1; 1; 1; 1; 2; 3; 4; 5; 6; 7; 8]), 5);
       ([2], [], 0, (4%nat, replicate 30 69), 6)])
    (fun '(r, _, res) => bounded 100 50 r /\ returned r ++ held (datagrams r) ++ with_caller [3; 4]%nat res ≡ₚ [3; 4]%nat).
Proof.
  apply (reassembly_bounded map_to_list (fun m => Permutation_refl _) 100 50 true).
  - lia.
  - apply (bool_decide_eq_true_1 _). reflexivity.
Defined.

(** Two fragments, fed last first. *)
Lemma fragment_roundtrip_witness :
  exists a b, fragmentIpv4Packet 6 (demo_header ++ demo_body) 44 = Ret (7, inl [a; b]) /\
    exists r', process_all map_to_list [1] [] 0 newIpv4FragmentReassembler 7 [(8%nat, b, 100); (9%nat, a, 200)] =
      Ret (r', 7, [ProcessResult None [] true true;
                   ProcessResult (Some (whole_packet demo_header demo_body 7)) [] true true]).
Proof.
  destruct (fragment_roundtrip map_to_list (fun m => Permutation_refl _) 6 demo_header demo_body 44 demo_header_ok)
    as (frags & E & _ & H).
  - apply (bool_decide_eq_true_1 _). reflexivity.
  - vm_compute. discriminate.
  - vm_compute. split; [discriminate|reflexivity].
  - pose proof E as Ev. vm_compute in Ev. injection Ev as <-. eexists _, _. split; [exact E|].
    match type of E with _ = Ret (_, inl [?a; ?b]) =>
      destruct (H newIpv4FragmentReassembler [1] [] 0 [(8%nat, b, 100); (9%nat, a, 200)] 0) as (r' & Er & _) end.
    + cbn. lia.
    + apply perm_swap.
    + repeat constructor; vm_compute; discriminate.
    + by apply new_cache_ok.
    + reflexivity.
    + split; [vm_compute; discriminate|]. intros Hp. discriminate Hp.
    + exists r'. exact Er.
Defined.
