(* ===== verification/Fragment6.v ===== *)
(** IPv6 fragmentation and reassembly (src/ip_ipv6_fragment.go): the RFC 8200 wire
    format over the cache of FragmentCache. A fragment repeats the unfragmentable
    part, the base header and the extension headers before the Fragment header;
    the reassembled packet has no Fragment header. Identifications are drawn from
    the system's random source. *)
From S2P Require Import Prelude GoIo Ipv6Ext IpWire IpFlow FragmentCache.

Definition ipv6FragmentReassemblyTimeout : Z := ipv4FragmentReassemblyTimeout.
Definition ipv6FragmentReassemblyMaxDatagrams : nat := ipv4FragmentReassemblyMaxDatagrams.
Definition ipv6FragmentReassemblyMaxFragments : nat := ipv4FragmentReassemblyMaxFragments.
Definition ipv6FragmentReassemblyMaxRetainedBytes : Z := ipv4FragmentReassemblyMaxRetainedBytes.

Record ipv6FragmentKey := FragmentKey6 {
  key6_path : list Z;
  key6_transferKey : list Z;
  key6_provideMode : Z;
  key6_sourceIp : list Z;
  key6_destinationIp : list Z;
  key6_identification : Z;
}.

#[export] Instance ipv6FragmentKey_eq_dec : EqDecision ipv6FragmentKey.
Proof. solve_decision. Defined.

#[export] Instance ipv6FragmentKey_countable : Countable ipv6FragmentKey.
Proof.
  refine (inj_countable'
    (fun k => (key6_path k, key6_transferKey k, key6_provideMode k, key6_sourceIp k, key6_destinationIp k, key6_identification k))
    (fun '(a, b, c, d, e, f) => FragmentKey6 a b c d e f) _).
  by intros [].
Defined.

Record ipv6RetainedFragment := RetainedFragment6 {
  f6_buffer : nat;
  f6_packet : bytes;
  unfragmentableByteCount : nat;
  f6_offset : nat;
  f6_payloadByteCount : nat;
}.

(** The fields of ipv6FragmentDatagram that the offset-zero fragment sets. *)
Record ipv6First := First6 {
  firstUnfragmentableByteCount : nat;
  firstNextHeaderFieldOffset : nat;
  firstNextHeader : Z;
}.

(** The payload follows the Fragment header; the declared payload of a packet,
    extension headers included, is at most 65535 bytes. *)
#[export] Instance ipv6_family : FragmentFamily := {|
  Key := ipv6FragmentKey;
  source := key6_path;
  evictable _ := true;
  Frag := ipv6RetainedFragment;
  frag_buffer := f6_buffer;
  packet := f6_packet;
  headByteCount := unfragmentableByteCount;
  gap := ipv6FragmentHeaderSize;
  offset := f6_offset;
  payloadByteCount := f6_payloadByteCount;
  First := ipv6First;
  noFirst := First6 0 0 0;
  firstByteCount := firstUnfragmentableByteCount;
  too_long n final := negb (n =? 0)%nat && (0 <=? final) && (65535 <? (Z.of_nat n - Z.of_nat Ipv6HeaderSize) + final);
|}.

Definition ipv6FragmentDatagram : Type := @datagram ipv6_family.
Definition ipv6FragmentReassembler : Type := @reassembler ipv6_family.

Definition newIpv6FragmentReassembler : ipv6FragmentReassembler :=
  Reassembler ipv6FragmentReassemblyMaxRetainedBytes 0 ∅ 0 ∅ [].

(** ** Identifications *)

(** The system's random source, by the number of the reading: four bytes as a
    number, or an error. Some reading of every [rand_patience] is not zero. *)
Class RandomReads := {
  rand_read : nat -> option Z;
  rand_patience : nat;
}.
Class RandomReadsOk `{RandomReads} : Prop := {
  rand_range n v : rand_read n = Some v -> 0 <= v < 4294967296;
  rand_settles n : exists k, (k < rand_patience)%nat /\ rand_read (n + k) <> Some 0;
}.

(** The fallback counter, and the readings made. *)
Record idState := IdState { id_counter : Z; id_reads : nat }.

Section identification.
Context `{RandomReads}.

(** [for { … }]; a random source that kept giving zero would keep the loop going. *)
Fixpoint next_id_loop (fuel : nat) (st : idState) : go (idState * Z) :=
  match fuel with
  | O => Panic
  | S fuel =>
      match rand_read (id_reads st) with
      | None =>
          let identification := u32 (id_counter st + 1) in
          let st := IdState identification (S (id_reads st)) in
          if negb (identification =? 0) then Ret (st, identification) else next_id_loop fuel st
      | Some identification =>
          let st := IdState (id_counter st) (S (id_reads st)) in
          if negb (identification =? 0) then Ret (st, identification) else next_id_loop fuel st
      end
  end.
Definition nextIpv6FragmentIdentification (st : idState) : go (idState * Z) := next_id_loop (2 * rand_patience) st.

(** The owned fragments of a completed datagram under a fresh identification. *)
Fixpoint canonical_fragments6 (identification : Z) (l : list ipv6RetainedFragment) : go (list (nat * bytes)) :=
  match l with
  | [] => Ret []
  | f :: l =>
      let! p := put_u32 (f6_packet f) (unfragmentableByteCount f + 4) identification in
      let! rest := canonical_fragments6 identification l in
      Ret ((f6_buffer f, p) :: rest)
  end.

Definition own6 (st : idState) (l : list ipv6RetainedFragment) : go (idState * list (nat * bytes)) :=
  let! '(st, identification) := nextIpv6FragmentIdentification st in
  let! parts := canonical_fragments6 identification l in
  Ret (st, parts).

(** ** The reassembler *)

Context (iter : gmap (@Key ipv6_family) (@datagram ipv6_family) -> list (@Key ipv6_family * @datagram ipv6_family)).
Context `{MessagePool}.

(** The methods of ipv6FragmentReassembler repeat those of the IPv4 one. *)
Definition retainedBytesForSource6 : ipv6FragmentReassembler -> list Z -> Z := @retainedBytesForSource ipv6_family.
Definition detachDatagram6 : ipv6FragmentReassembler -> ipv6FragmentKey -> ipv6FragmentReassembler * list ipv6RetainedFragment := @detachDatagram ipv6_family.
Definition releaseDatagram6 : ipv6FragmentReassembler -> ipv6FragmentKey -> ipv6FragmentReassembler := @releaseDatagram ipv6_family.
Definition expire6 : ipv6FragmentReassembler -> Z -> ipv6FragmentReassembler := @expire ipv6_family iter.
Definition releaseOldestDatagram6 : ipv6FragmentReassembler -> ipv6FragmentReassembler * bool := @releaseOldestDatagram ipv6_family iter.
Definition releaseOldestDatagramForSource6 : list Z -> ipv6FragmentReassembler -> ipv6FragmentReassembler * bool :=
  @releaseOldestDatagramForSource ipv6_family iter.
Definition makeDatagramRoom6 : ipv6FragmentReassembler -> Z -> ipv6FragmentReassembler := @makeDatagramRoom ipv6_family iter.
Definition close6 : ipv6FragmentReassembler -> ipv6FragmentReassembler := @close ipv6_family iter.

Definition reassemble6 (l : list ipv6RetainedFragment) (fst : ipv6First) (final : Z) : go bytes :=
  let n := firstUnfragmentableByteCount fst in
  let! buf := assemble (FF := ipv6_family) l n final in
  let! buf := set_index buf (firstNextHeaderFieldOffset fst) (firstNextHeader fst) in
  put_u16 buf 4 (u16 (Z.of_nat (n + Z.to_nat final) - Z.of_nat Ipv6HeaderSize)).

(** A walk without a Fragment header has the zero value. *)
Definition no_fragment : ipv6FragmentInfo := FragmentInfo 0 0 0 0 false 0.

(** One packet, the bytes [p] in the buffer [b]. *)
Definition processResultAt6 (r : ipv6FragmentReassembler) (st : idState) (source' transferKey' : list Z) (provideMode' : Z)
    (b : nat) (p : bytes) (now : Z) (retainCompletedFragments : bool)
    : go (ipv6FragmentReassembler * idState * ipFragmentProcessResult) :=
  let passed := ProcessResult (Some p) [] false true in
  if (length p <? Ipv6HeaderSize)%nat then Ret (r, st, passed)
  else
    let! b0 := index p 0 in
    if negb (Z.shiftr b0 4 =? 6) then Ret (r, st, passed)
    else
      let! b6 := index p 6 in
      if negb (isIpv6ExtensionHeader b6) then Ret (r, st, passed)
      else
        let! walk := walkIpv6ExtensionHeaders p in
        match walk with
        | None => Ret (r, st, passed)
        | Some walk =>
            if negb (fragmented walk) then Ret (r, st, passed)
            else
              let info := default no_fragment (Ipv6Ext.fragment walk) in
              let r := set_max (expire6 r now) in
              let! src := slice p 8 24 in
              let! dst := slice p 24 40 in
              let key := FragmentKey6 source' transferKey' provideMode' src dst (identification info) in
              let unfragmentable := headerOffset info in
              let n := Z.of_nat (payloadEnd walk) - Z.of_nat (transportOffset walk) in
              let more := moreFragments info in
              let off := fragOffset info in
              if (n <=? 0) || (more && negb (n mod 8 =? 0)) ||
                 (65535 <? (Z.of_nat unfragmentable - Z.of_nat Ipv6HeaderSize) + off + n)
              then drop_with (FF := ipv6_family) r st key b
              else
                let! fragmentPayload := slice p (transportOffset walk) (payloadEnd walk) in
                let! kept := slice p 0 (payloadEnd walk) in
                offer (FF := ipv6_family) iter reassemble6 own6 r st key (Z.of_nat (length p))
                  (RetainedFragment6 b kept unfragmentable (Z.to_nat off) (Z.to_nat n)) fragmentPayload
                  (First6 unfragmentable (precedingNextHeaderFieldOffset info) (fragNextHeader info)) more now retainCompletedFragments
        end.

Definition processAt6 (r : ipv6FragmentReassembler) (st : idState) (source' transferKey' : list Z) (provideMode' : Z)
    (b : nat) (p : bytes) (now : Z) : go (ipv6FragmentReassembler * idState * option bytes) :=
  let! '(r, st, result) := processResultAt6 r st source' transferKey' provideMode' b p now false in
  Ret (r, st, result_packet result).

(** ** Fragmentation *)

Inductive fragment6_error := errInvalidIpv6Packet | errIpv6MtuTooSmall | errIpv6ExtensionHeadersFragment.

Fixpoint fragment_loop6 (fuel : nat) (header ipPayload : bytes) (nextHeader : Z) (size offset' : nat) (identification : Z) : go (list bytes) :=
  match fuel with
  | O => Ret []
  | S fuel =>
      if (offset' <? length ipPayload)%nat then
        let stop := Nat.min (offset' + size) (length ipPayload) in
        let buf := pool_get (Ipv6HeaderSize + ipv6FragmentHeaderSize + stop - offset') in
        let! buf := copy_into buf 0 Ipv6HeaderSize header in
        let! buf := put_u16 buf 4 (u16 (Z.of_nat (length buf) - Z.of_nat Ipv6HeaderSize)) in
        let! buf := set_index buf 6 ipv6NextHeaderFragment in
        let! buf := set_index buf Ipv6HeaderSize nextHeader in
        let! buf := set_index buf (Ipv6HeaderSize + 1) 0 in
        let offsetAndFlags := u16 (Z.of_nat offset') in
        let offsetAndFlags := if (stop <? length ipPayload)%nat then Z.lor offsetAndFlags 1 else offsetAndFlags in
        let! buf := put_u16 buf (Ipv6HeaderSize + 2) offsetAndFlags in
        let! buf := put_u32 buf (Ipv6HeaderSize + 4) identification in
        let! chunk := slice ipPayload offset' stop in
        let! buf := copy_into buf (Ipv6HeaderSize + ipv6FragmentHeaderSize) (length buf) chunk in
        let! rest := fragment_loop6 fuel header ipPayload nextHeader size stop identification in
        Ret (buf :: rest)
      else Ret []
  end.

Definition fragmentIpv6Packet (st : idState) (p : bytes) (mtu : Z) : go (idState * (list bytes + fragment6_error)) :=
  if (length p <? Ipv6HeaderSize)%nat then Ret (st, inr errInvalidIpv6Packet)
  else
    let! b0 := index p 0 in
    if negb (Z.shiftr b0 4 =? 6) then Ret (st, inr errInvalidIpv6Packet)
    else
      let! n := get_u16 p 4 in
      let declaredEnd := (Ipv6HeaderSize + Z.to_nat n)%nat in
      if (length p <? declaredEnd)%nat then Ret (st, inr errInvalidIpv6Packet)
      else
        let! nextHeader := index p 6 in
        if isIpv6ExtensionHeader nextHeader then Ret (st, inr errIpv6ExtensionHeadersFragment)
        else
          let fragmentPayloadByteCount := Z.ldiff (mtu - Z.of_nat Ipv6HeaderSize - Z.of_nat ipv6FragmentHeaderSize) 7 in
          if fragmentPayloadByteCount <? 8 then Ret (st, inr errIpv6MtuTooSmall)
          else
            let! head := slice p 0 Ipv6HeaderSize in
            let! ipPayload := slice p Ipv6HeaderSize declaredEnd in
            let! '(st, identification) := nextIpv6FragmentIdentification st in
            let! l := fragment_loop6 (length ipPayload) head ipPayload nextHeader (Z.to_nat fragmentPayloadByteCount) 0 identification in
            Ret (st, inl l).
End identification.

(** ** Identifications are drawn, and not zero *)

Section next_id.
Context `{RR : RandomReads} {RO : RandomReadsOk}.

Definition id_ok (id : Z) : Prop := 0 < id < 4294967296.

(** Once the counter is away from its end, the next reading that is not zero
    ends the loop. *)
Lemma next_id_draws k : forall fuel st,
  (k < fuel)%nat -> rand_read (id_reads st + k) <> Some 0 -> u32 (id_counter st + 1) <> 0 ->
  returns (next_id_loop fuel st) (fun '(_, id) => id_ok id).
Proof.
  induction k as [|k IH]; intros [|fuel] [c n] Hf Hr Hc; cbn in *; try lia.
  - rewrite Nat.add_0_r in Hr. destruct (rand_read n) as [v|] eqn:E.
    + pose proof (rand_range n v E). destruct (Z.eqb_spec v 0) as [->|Hv]; [done|]. apply returns_ret. unfold id_ok. lia.
    + destruct (Z.eqb_spec (u32 (c + 1)) 0); [done|]. apply returns_ret. pose proof (u32_range (c + 1)). unfold id_ok. lia.
  - destruct (rand_read n) as [v|] eqn:E.
    + pose proof (rand_range n v E). destruct (Z.eqb_spec v 0) as [->|Hv]; cbn [negb]; [|apply returns_ret; unfold id_ok; lia].
      apply IH; cbn; [lia|by rewrite Nat.add_succ_r in Hr|done].
    + destruct (Z.eqb_spec (u32 (c + 1)) 0); [done|]. apply returns_ret. pose proof (u32_range (c + 1)). unfold id_ok. lia.
Qed.

(** At its end the counter wraps to zero, and one more reading is needed. *)
Lemma next_id_wraps k : forall fuel st,
  (k + rand_patience < fuel)%nat -> rand_read (id_reads st + k) <> Some 0 -> u32 (id_counter st + 1) = 0 ->
  returns (next_id_loop fuel st) (fun '(_, id) => id_ok id).
Proof.
  assert (Hagain : forall fuel n, (rand_patience <= fuel)%nat -> returns (next_id_loop fuel (IdState 0 n)) (fun '(_, id) => id_ok id)).
  { intros fuel n Hf. destruct (rand_settles n) as (k' & Hk & Hr). apply (next_id_draws k'); [lia|done|]. done. }
  induction k as [|k IH]; intros [|fuel] [c n] Hf Hr Hc; cbn in *; try lia.
  - rewrite Nat.add_0_r in Hr. destruct (rand_read n) as [v|] eqn:E.
    + pose proof (rand_range n v E). destruct (Z.eqb_spec v 0) as [->|Hv]; [done|]. apply returns_ret. unfold id_ok. lia.
    + rewrite Hc. cbn [Z.eqb negb]. apply Hagain. lia.
  - destruct (rand_read n) as [v|] eqn:E.
    + pose proof (rand_range n v E). destruct (Z.eqb_spec v 0) as [->|Hv]; cbn [negb]; [|apply returns_ret; unfold id_ok; lia].
      apply IH; cbn; [lia|by rewrite Nat.add_succ_r in Hr|done].
    + rewrite Hc. cbn [Z.eqb negb]. apply Hagain. lia.
Qed.

Lemma next_identification6 st : returns (nextIpv6FragmentIdentification st) (fun '(_, id) => id_ok id).
Proof.
  unfold nextIpv6FragmentIdentification. destruct (rand_settles (id_reads st)) as (k & Hk & Hr).
  destruct (Z.eq_dec (u32 (id_counter st + 1)) 0) as [E|E]; [apply (next_id_wraps k)|apply (next_id_draws k)]; try done; lia.
Qed.
End next_id.

(** ** What the cache relies on *)

Definition ipv6_frag (f : ipv6RetainedFragment) : Prop := (40 <= unfragmentableByteCount f)%nat.
Definition ipv6_first (fst : ipv6First) : Prop :=
  (40 <= firstUnfragmentableByteCount fst)%nat /\ (firstNextHeaderFieldOffset fst < firstUnfragmentableByteCount fst)%nat /\ byte_ok (firstNextHeader fst).

#[local] Notation frag_wf := (frag_wf (FF := ipv6_family) ipv6_frag).
#[local] Notation cache_ok := (cache_ok (FF := ipv6_family) ipv6_frag ipv6_first).

Lemma set_index_ret {A} (l : list A) i v : (i < length l)%nat -> set_index l i v = Ret (<[i := v]> l).
Proof. intros Hi. unfold set_index. by rewrite (proj2 (Nat.ltb_lt _ _)). Qed.

Lemma reassemble6_spec `{MessagePool} f l fst final :
  Forall frag_wf (f :: l) -> contiguous_to (FF := ipv6_family) (f :: l) 0 = Some (Z.to_nat final) ->
  unfragmentableByteCount f = firstUnfragmentableByteCount fst -> ipv6_first fst ->
  reassemble6 (f :: l) fst final =
    Ret (set16 (<[firstNextHeaderFieldOffset fst := firstNextHeader fst]> (take (unfragmentableByteCount f) (f6_packet f)))
           4 (u16 (Z.of_nat (unfragmentableByteCount f + Z.to_nat final) - 40)) ++ concat (map (frag_payload (FF := ipv6_family)) (f :: l))).
Proof.
  intros Hl Hc Eh (H40 & Hfield & _). unfold reassemble6, Ipv6HeaderSize. rewrite <- Eh in *.
  pose proof (assemble_spec (FF := ipv6_family) ipv6_frag f l final Hl Hc) as E. cbn [headByteCount packet ipv6_family] in E. rewrite E. clear E.
  cbn [gbind]. apply Forall_cons_1 in Hl as [[_ Hlen _ _] _]. cbn in Hlen. set (n := unfragmentableByteCount f) in *.
  set (head := take n (f6_packet f)). assert (Lh : length head = n) by (unfold head; rewrite length_take; unfold ipv6FragmentHeaderSize in Hlen; lia).
  set (body := concat _). rewrite set_index_ret by (rewrite length_app; lia). cbn [gbind]. rewrite insert_app_l by lia.
  rewrite put_u16_set16 by (rewrite length_app, length_insert; lia). by rewrite set16_app by (rewrite length_insert; lia).
Qed.

Lemma put_u32_length (l : bytes) i v : (i + 4 <= length l)%nat -> returns (put_u32 l i v) (fun _ => True).
Proof.
  intros Hi. unfold put_u32. repeat (rewrite set_index_ret by (rewrite ?length_insert; lia); cbn [gbind]). by apply returns_ret.
Qed.

Lemma own6_returns `{RR : RandomReads} {RO : RandomReadsOk} st l :
  Forall frag_wf l -> returns (own6 st l) (fun '(_, parts) => parts.*1 = map f6_buffer l).
Proof.
  intros Hl. unfold own6. greturns next_identification6. intros [st' id] _.
  assert (Hp : returns (canonical_fragments6 id l) (fun parts => parts.*1 = map f6_buffer l)).
  { induction Hl as [|f l Hf Hl IH]; [by apply returns_ret|]. cbn [canonical_fragments6]. pose proof (fw_length _ _ Hf) as Hlen. cbn in Hlen. unfold ipv6FragmentHeaderSize in Hlen.
    greturns put_u32_length; [lia|]. intros p _. eapply returns_bind; [exact IH|]. intros rest E. apply returns_ret. cbn. by rewrite <- E. }
  eapply returns_bind; [exact Hp|]. intros parts E. by apply returns_ret.
Qed.

(** ** The walk of a fragment *)

Lemma walk_loop_fragment fuel p stop : forall next o field frag w,
  walk_loop fuel p stop next o field frag = Ret (Some w) -> fragmented w = true ->
  exists info, Ipv6Ext.fragment w = Some info /\ transportOffset w = (headerOffset info + 8)%nat.
Proof.
  induction fuel as [|fuel IH]; intros next o field frag w E Hw; cbn [walk_loop] in E; [done|].
  destruct (isIpv6OptionHeader next).
  { destruct (_ <? _)%nat in E; [done|]. destruct (index p (o + 1)) as [len|]; cbn [gbind] in E; [|done].
    destruct (_ <? _)%nat in E; [done|]. destruct (index p o) as [nx|]; cbn [gbind] in E; [|done]. exact (IH _ _ _ _ _ E Hw). }
  destruct (next =? ipv6NextHeaderAuthentication).
  { destruct (_ <? _)%nat in E; [done|]. destruct (index p (o + 1)) as [len|]; cbn [gbind] in E; [|done].
    destruct (_ <? _)%nat in E; [done|]. destruct (index p o) as [nx|]; cbn [gbind] in E; [|done]. exact (IH _ _ _ _ _ E Hw). }
  destruct (next =? ipv6NextHeaderFragment).
  - destruct (_ <? _)%nat in E; [done|]. destruct frag; [done|]. destruct (get_u16 p (o + 2)) as [fl|]; cbn [gbind] in E; [|done].
    destruct (index p o) as [nx|]; cbn [gbind] in E; [|done]. destruct (get_u32 p (o + 4)) as [id|]; cbn [gbind] in E; [|done].
    cbv zeta in E. destruct (negb _ || _) in E; [|exact (IH _ _ _ _ _ E Hw)]. injection E as <-. eexists. by split.
  - injection E as <-. done.
Qed.

Lemma walk_fragment p w : walkIpv6ExtensionHeaders p = Ret (Some w) -> fragmented w = true ->
  exists info, Ipv6Ext.fragment w = Some info /\ transportOffset w = (headerOffset info + 8)%nat.
Proof.
  unfold walkIpv6ExtensionHeaders. generalize ipv6MaxExtensionHeaderCount. intros fuel E. destruct (_ <? _)%nat in E; [done|]. destruct (index p 0) as [b0|]; cbn [gbind] in E; [|done].
  destruct (negb _) in E; [done|]. destruct (get_u16 p 4) as [n|]; cbn [gbind] in E; [|done]. destruct (_ <? _)%nat in E; [done|].
  destruct (index p 6) as [next|]; cbn [gbind] in E; [|done]. apply (walk_loop_fragment _ _ _ _ _ _ _ _ E).
Qed.

Section proofs6.
Context `{RR : RandomReads} {RO : RandomReadsOk}.
Context (iter : gmap (@Key ipv6_family) (@datagram ipv6_family) -> list (@Key ipv6_family * @datagram ipv6_family)).
Context (iter_perm : forall m, iter m ≡ₚ map_to_list m).
Context `{MessagePool}.

Lemma offer6_ok r st key cost f pl mine more now keep :
  cache_ok r -> frag_wf f -> fragment_bytes (FF := ipv6_family) f <= cost -> unfragmentableByteCount f = firstUnfragmentableByteCount mine -> ipv6_first mine ->
  returns (offer (FF := ipv6_family) iter reassemble6 own6 r st key cost f pl mine more now keep) (processed ipv6_frag ipv6_first r (f6_buffer f)).
Proof.
  intros Hok Hf Hc Eh Hm. apply (offer_ok (FF := ipv6_family) iter iter_perm (fun _ => eq_refl) ipv6_frag ipv6_first eq_refl reassemble6 own6); try done.
  - intros f0 l fst final Hl Hcont Hfin E0 Hn Hfst. destruct (Hfst Hn) as [Hfo _]. rewrite reassemble6_spec by done. apply returns_ret, (reassembled_bytes (FF := ipv6_family) ipv6_frag); [done|].
    apply set16_bytes, bytes_ok_insert, Hfo. apply bytes_ok_take. apply Forall_cons_1 in Hl as [Hl _]. apply (fw_bytes _ _ Hl).
  - intros st' l Hl. by apply own6_returns.
Qed.

Lemma processResultAt6_ok r st s tk pm b p now keep :
  cache_ok r -> bytes_ok p ->
  returns (processResultAt6 iter r st s tk pm b p now keep) (handled ipv6_frag ipv6_first r b p).
Proof.
  intros Hok Hp. unfold processResultAt6, Ipv6HeaderSize.
  assert (Hpass : forall st : idState, returns (Ret (r, st, ProcessResult (Some p) [] false true)) (handled ipv6_frag ipv6_first r b p)) by (intros c; by apply returns_ret, passed_handled).
  destruct (Nat.ltb_spec (length p) 40) as [|Hp40]; [done|].
  greturns @index_returns; [lia|]. intros b0 _. destruct (negb (Z.shiftr b0 4 =? 6)); [done|].
  greturns @index_returns; [lia|]. intros b6 _. destruct (negb (isIpv6ExtensionHeader b6)); [done|].
  destruct (walk_returns p Hp) as (w & Ew & Hwalk). rewrite Ew. cbn [gbind]. destruct w as [w|]; [|done].
  destruct (fragmented w) eqn:Efr; cbn [negb]; [|done]. clear Hpass.
  destruct (walk_fragment p w Ew Efr) as (info & Einfo & Etr). specialize (Hwalk w eq_refl) as (Ho & Hend & _ & _ & Hinfo).
  specialize (Hinfo info Einfo) as (H40 & _ & Hfield & Hnext & _ & Hoff & _). unfold Ipv6HeaderSize in *.
  rewrite Einfo. change (default no_fragment (Some info)) with info. cbv zeta.
  destruct (expired_handled (FF := ipv6_family) (St := idState) iter iter_perm ipv6_frag ipv6_first eq_refl r now Hok) as [Hok0 Hh].
  eapply returns_weaken; [|intros x; apply Hh]. clear Hh. unfold expire6. set (r0 := set_max (expire iter r now)) in *.
  greturns @slice_returns; [lia|lia|]. intros src _. greturns @slice_returns; [lia|lia|]. intros dst _.
  set (key := FragmentKey6 _ _ _ _ _ _).
  destruct (_ || _) eqn:E1; [by apply drop_processed|]. apply orb_false_iff in E1 as [E1 E1c]. apply orb_false_iff in E1 as [E1a E1b].
  apply Z.leb_gt in E1a. apply Z.ltb_ge in E1c.
  greturns @slice_returns; [lia|lia|]. intros fp _. rewrite slice_0 by lia. cbn [gbind].
  set (f := RetainedFragment6 _ _ _ _ _). change b with (f6_buffer f). apply offer6_ok; [done| | |done|].
  - split; cbn; [by apply bytes_ok_take|rewrite length_take; unfold ipv6FragmentHeaderSize; lia|lia|done].
  - unfold fragment_bytes. cbn. rewrite length_take. lia.
  - split_and!; [done|done|]. apply (bytes_ok_lookup _ _ _ Hp Hnext).
Qed.

(** ** Fragments of one packet *)

(** The offset-and-flags field of a piece of a payload of [n] bytes. *)
Definition piece_flags6 (n : nat) (x : piece) : Z :=
  if piece_more n x then Z.lor (u16 (Z.of_nat x.1)) 1 else u16 (Z.of_nat x.1).
Definition piece_base (h : bytes) (x : piece) : bytes := <[6%nat := ipv6NextHeaderFragment]> (set16 h 4 (u16 (Z.of_nat (8 + length x.2)))).
Definition fragment_header (nh fl id : Z) : bytes :=
  [nh; 0; byte_of fl 8; byte_of fl 0; byte_of id 24; byte_of id 16; byte_of id 8; byte_of id 0].
Definition piece_packet6 (h : bytes) (nh : Z) (n : nat) (id : Z) (x : piece) : bytes :=
  piece_base h x ++ fragment_header nh (piece_flags6 n x) id ++ x.2.

Lemma piece_base_length h x : length (piece_base h x) = length h.
Proof. unfold piece_base. by rewrite length_insert, set16_length. Qed.
Lemma piece_packet6_length h nh n id x : length h = 40%nat -> length (piece_packet6 h nh n id x) = (48 + length x.2)%nat.
Proof. intros Hh. unfold piece_packet6. rewrite !length_app, piece_base_length, Hh. cbn. lia. Qed.

Lemma set_index_at {A} (a l : list A) i j v : i = (length a + j)%nat -> (j < length l)%nat -> set_index (a ++ l) i v = Ret (a ++ <[j := v]> l).
Proof. intros -> Hj. rewrite set_index_ret by (rewrite length_app; lia). by rewrite insert_app_r. Qed.

Lemma fragment_loop6_spec fuel h nh body size i id :
  length h = 40%nat -> (1 <= size)%nat ->
  fragment_loop6 fuel h body nh size i id =
    Ret (map (piece_packet6 h nh (length body) id) (chunks fuel body (length body) size i)).
Proof.
  intros Hh Hs. revert i. induction fuel as [|fuel IH]; intros i; [done|]. cbn [fragment_loop6 chunks].
  destruct (Nat.ltb_spec i (length body)); [|done]. set (stop := Nat.min (i + size) (length body)). unfold Ipv6HeaderSize, ipv6FragmentHeaderSize.
  set (buf := pool_get _). assert (Lb : length buf = (40 + 8 + stop - i)%nat) by apply pool_get_length.
  destruct (length_split buf 40 ltac:(lia)) as (a & b & -> & La). rewrite length_app in Lb.
  destruct (length_split b 8 ltac:(lia)) as (f & c & -> & Lf). rewrite length_app in Lb.
  change (a ++ f ++ c) with ([] ++ a ++ f ++ c). rewrite copy_into_app by (done || (cbn; lia)). cbn [gbind app].
  rewrite slice_ret by lia. set (ch := take (stop - i) (drop i body)).
  assert (Lc : length ch = (stop - i)%nat) by (unfold ch; rewrite length_take, length_drop; lia).
  rewrite put_u16_set16 by (rewrite length_app; lia). cbn [gbind]. rewrite set16_app by lia.
  rewrite set_index_ret by (rewrite length_app, set16_length; lia). cbn [gbind]. rewrite insert_app_l by (rewrite set16_length; lia).
  replace (u16 (Z.of_nat (length (h ++ f ++ c)) - Z.of_nat 40)) with (u16 (Z.of_nat (8 + length ch))) by (f_equal; rewrite !length_app; lia).
  fold (piece_base h (i, ch)). set (base := piece_base h (i, ch)). assert (Lbase : length base = 40%nat) by (unfold base; by rewrite piece_base_length).
  rewrite (set_index_at base _ 40 0) by (rewrite ?length_app; lia). cbn [gbind].
  rewrite (set_index_at base _ _ 1) by (rewrite ?length_insert, ?length_app; lia). cbn [gbind].
  set (fl := if (stop <? length body)%nat then _ else _).
  assert (Efl : fl = piece_flags6 (length body) (i, ch)).
  { unfold fl, piece_flags6, piece_more. cbn [fst snd]. rewrite Lc. by replace (i + (stop - i))%nat with stop by lia. }
  unfold put_u16. rewrite (set_index_at base _ _ 2) by (rewrite ?length_insert, ?length_app; lia). cbn [gbind].
  rewrite (set_index_at base _ _ 3) by (rewrite ?length_insert, ?length_app; lia). cbn [gbind].
  unfold put_u32. rewrite (set_index_at base _ _ 4) by (rewrite ?length_insert, ?length_app; lia). cbn [gbind].
  rewrite (set_index_at base _ _ 5) by (rewrite ?length_insert, ?length_app; lia). cbn [gbind].
  rewrite (set_index_at base _ _ 6) by (rewrite ?length_insert, ?length_app; lia). cbn [gbind].
  rewrite (set_index_at base _ _ 7) by (rewrite ?length_insert, ?length_app; lia). cbn [gbind].
  replace (<[7%nat := byte_of id 0]> _) with (fragment_header nh fl id ++ c).
  2:{ clear - Lf. cells f. reflexivity. }
  rewrite app_assoc, copy_tail by (rewrite ?length_app, ?Lbase; cbn [length fragment_header]; lia). cbn [gbind].
  rewrite (drop_ge c), app_nil_r by lia. rewrite IH. cbn [gbind map]. rewrite Efl. unfold piece_packet6 at 2. fold base. cbn [snd]. by rewrite <- app_assoc.
Qed.

Lemma piece_flags6_bits n x :
  Z.of_nat x.1 <= 65535 -> (x.1 mod 8 = 0)%nat ->
  let fl := piece_flags6 n x in
  0 <= fl < 65536 /\ Z.ldiff fl 7 = Z.of_nat x.1 /\ negb (Z.land fl 1 =? 0) = piece_more n x.
Proof.
  unfold piece_flags6. cbn zeta. set (m := piece_more n x). destruct x as [o ch]. cbn [fst]. intros Hx H8. rewrite (u16_small (Z.of_nat o)) by lia.
  pose proof (Nat.div_mod_eq o 8) as Hd. rewrite H8 in Hd. set (q := Z.of_nat (o / 8)). assert (Eo : Z.of_nat o = 8 * q) by (unfold q; lia). assert (Hq : 0 <= q < 8192) by (unfold q; lia).
  assert (Elor : Z.lor (8 * q) 1 = 8 * q + 1).
  { rewrite <- Z.lxor_lor, <- Z.add_nocarry_lxor; [done| |]; change 1 with (Z.ones 1); rewrite Z.land_ones by lia; change (2 ^ 1) with 2;
      replace (8 * q) with ((4 * q) * 2) by lia; apply Z_mod_mult. }
  rewrite Eo, Elor. set (fl := if m then _ else _). assert (Hfl : fl = 8 * q + (if m then 1 else 0)) by (unfold fl; destruct m; lia).
  split; [rewrite Hfl; destruct m; lia|]. split.
  - change 7 with (Z.ones 3). rewrite Z.ldiff_ones_r, Z.shiftr_div_pow2, Z.shiftl_mul_pow2 by lia. change (2 ^ 3) with 8.
    rewrite Hfl. replace ((8 * q + (if m then 1 else 0)) / 8) with q; [lia|]. apply (Z.div_unique _ 8 q (if m then 1 else 0)); destruct m; lia.
  - change 1 with (Z.ones 1). rewrite Z.land_ones by lia. change (2 ^ 1) with 2. rewrite Hfl.
    replace (8 * q + (if m then 1 else 0)) with ((if m then 1 else 0) + (4 * q) * 2) by lia. rewrite Z_mod_plus_full. by destruct m.
Qed.

(** The walk stops at a Fragment header that describes a proper fragment. *)
Lemma walk_loop_stops fuel p stop o field fl next id info :
  (o + 8 <= stop)%nat -> get_u16 p (o + 2) = Ret fl -> index p o = Ret next -> get_u32 p (o + 4) = Ret id ->
  info = FragmentInfo o field next (Z.ldiff fl 7) (negb (Z.land fl 1 =? 0)) id ->
  negb (fragOffset info =? 0) || moreFragments info = true ->
  walk_loop (S fuel) p stop 44 o field None = Ret (Some (HeaderWalk next (o + 8) stop (Some info) true)).
Proof.
  intros Ho E1 E2 E3 -> Hfrag. cbn [walk_loop]. change (isIpv6OptionHeader 44) with false. change (44 =? ipv6NextHeaderAuthentication) with false.
  change (44 =? ipv6NextHeaderFragment) with true. cbv iota. unfold ipv6FragmentHeaderSize. rewrite (proj2 (Nat.ltb_ge _ _)) by lia.
  rewrite E1. cbn [gbind]. rewrite E2. cbn [gbind]. rewrite E3. cbn [gbind]. cbv zeta. by rewrite Hfrag.
Qed.

(** ** Feeding the fragments back

    A packet with base header [h] and payload [body], fragmented under [id] and
    fed to the reassembler as coming from one source. *)
Section feed6.
Context (h body : bytes) (nh id : Z) (s tk : list Z) (pm : Z).

Record header6_ok : Prop := {
  h6_bytes : bytes_ok h;
  h6_length : length h = 40%nat;
  h6_version : exists b0, h !! 0%nat = Some b0 /\ Z.shiftr b0 4 = 6;
  h6_payload : h !! 4%nat = Some (byte_of (Z.of_nat (length body)) 8) /\ h !! 5%nat = Some (byte_of (Z.of_nat (length body)) 0);
  h6_next : h !! 6%nat = Some nh;
  h6_plain : isIpv6ExtensionHeader nh = false;
}.

Context (Hh : header6_ok) (Hbody : bytes_ok body) (Hid : id_ok id) (Hmax : Z.of_nat (length body) <= 65535).

Definition feed_key6 : ipv6FragmentKey := FragmentKey6 s tk pm (take 16 (drop 8 h)) (take 16 (drop 24 h)) id.
Definition feed_first6 : ipv6First := First6 40 6 nh.

Definition retained_piece6 (y : nat * piece) : @Frag ipv6_family :=
  RetainedFragment6 y.1 (piece_packet6 h nh (length body) id y.2) 40 y.2.1 (length y.2.2).

Lemma retained_payload6 y : frag_payload (FF := ipv6_family) (retained_piece6 y) = y.2.2.
Proof.
  unfold frag_payload. cbn. unfold piece_packet6. rewrite app_assoc. apply drop_app_length'. rewrite length_app, piece_base_length, (h6_length Hh). done.
Qed.

(** The fields a reader finds. *)
Lemma piece_reads x : let pk := piece_packet6 h nh (length body) id x in
  let fl := piece_flags6 (length body) x in
  Z.of_nat (8 + length x.2) < 65536 -> 0 <= fl < 65536 ->
  (exists b0, index pk 0 = Ret b0 /\ Z.shiftr b0 4 = 6) /\ index pk 6 = Ret 44 /\ get_u16 pk 4 = Ret (Z.of_nat (8 + length x.2)) /\
  slice pk 8 24 = Ret (take 16 (drop 8 h)) /\ slice pk 24 40 = Ret (take 16 (drop 24 h)) /\
  index pk 40 = Ret nh /\ get_u16 pk 42 = Ret fl /\ get_u32 pk 44 = Ret id.
Proof.
  cbv zeta. unfold piece_packet6, piece_base. generalize (piece_flags6 (length body) x). intros fl. set (n := Z.of_nat (8 + length x.2)). intros Hn Hfl. pose proof (h6_length Hh) as L. destruct (h6_version Hh) as (b0 & E0 & Ev).
  rewrite (u16_small n) by lia. clear Hh. revert L E0. generalize h. intros h0 L E0. cells h0.
  cbn in E0. injection E0 as <-.
  split; [eexists; split; [reflexivity|exact Ev]|]. split; [reflexivity|]. split; [unfold get_u16; cbn -[be16 byte_of]; by rewrite be16_split by lia|].
  split; [reflexivity|]. split; [reflexivity|]. split; [reflexivity|]. split; [unfold get_u16; cbn -[be16 byte_of]; by rewrite be16_split|].
  unfold get_u32. cbn -[be32 byte_of]. unfold id_ok in Hid. by rewrite be32_split by lia.
Qed.

(** A fragment's own payload length fits its field. *)
Definition piece_small (x : piece) : Prop := Z.of_nat (8 + length x.2) < 65536.

(** What the walk finds in a piece. *)
Lemma piece_walk x : piece_fits (length body) x -> piece_small x ->
  walkIpv6ExtensionHeaders (piece_packet6 h nh (length body) id x) =
    Ret (Some (HeaderWalk nh 48 (48 + length x.2) (Some (FragmentInfo 40 6 nh (Z.of_nat x.1) (piece_more (length body) x) id)) true)).
Proof.
  intros [H8 Hpos Hend Hbx Hm8 Hfrag] Hsmall. destruct (piece_flags6_bits (length body) x ltac:(lia) H8) as (Fr & Foff & Fmore).
  destruct (piece_reads x Hsmall Fr) as ((b0 & I0 & Ev) & I6 & I4 & _ & _ & I40 & I42 & I44).
  pose proof (piece_packet6_length h nh (length body) id x (h6_length Hh)) as Lp. set (pk := piece_packet6 h nh (length body) id x) in *.
  unfold walkIpv6ExtensionHeaders, Ipv6HeaderSize. rewrite Lp, (proj2 (Nat.ltb_ge _ _)) by lia. rewrite I0. cbn [gbind]. rewrite Ev. cbn [Z.eqb Pos.eqb negb].
  rewrite I4. cbn [gbind]. rewrite Nat2Z.id, (proj2 (Nat.ltb_ge _ _)) by lia. rewrite I6. cbn [gbind].
  destruct ipv6MaxExtensionHeaderCount as [|fuel] eqn:Ef; [discriminate Ef|]. clear Ef.
  rewrite (walk_loop_stops fuel pk _ 40 6 (piece_flags6 (length body) x) nh id (FragmentInfo 40 6 nh (Z.of_nat x.1) (piece_more (length body) x) id)); try done.
  - lia.
  - by rewrite Foff, Fmore.
  - cbn [fragOffset moreFragments]. apply orb_true_iff. destruct Hfrag as [->|Hx]; [by right|left]. apply negb_true_iff, Z.eqb_neq. lia.
Qed.

(** What the reassembler does with a piece, its headers read. *)
Lemma process_piece6 r st b x now keep :
  piece_fits (length body) x -> piece_small x ->
  processResultAt6 iter r st s tk pm b (piece_packet6 h nh (length body) id x) now keep =
    step (FF := ipv6_family) iter reassemble6 own6 feed_key6 (length body) feed_first6 r st (retained_piece6 (b, x)) now keep.
Proof.
  intros Hf Hsmall. pose proof (piece_walk x Hf Hsmall) as Ew. pose proof (retained_payload6 (b, x)) as Hpay. destruct Hf as [H8 Hpos Hend Hbx Hm8 Hfrag].
  destruct (piece_flags6_bits (length body) x ltac:(lia) H8) as (Fr & _).
  destruct (piece_reads x Hsmall Fr) as ((b0 & I0 & Ev) & I6 & _ & Ss & Sd & _).
  pose proof (piece_packet6_length h nh (length body) id x (h6_length Hh)) as Lp. set (pk := piece_packet6 h nh (length body) id x) in *.
  assert (Sp : slice pk 48 (48 + length x.2) = Ret x.2).
  { unfold pk, piece_packet6. rewrite app_assoc. apply slice_cut; rewrite length_app, piece_base_length, (h6_length Hh); done. }
  assert (Sk : slice pk 0 (48 + length x.2) = Ret pk) by (apply slice_all; lia).
  unfold processResultAt6, Ipv6HeaderSize. rewrite Lp, (proj2 (Nat.ltb_ge _ _)), I0 by lia. cbn [gbind]. rewrite Ev. cbn [Z.eqb Pos.eqb negb]. rewrite I6. cbn [gbind].
  change (isIpv6ExtensionHeader 44) with true. cbn [negb]. rewrite Ew. cbn [gbind fragmented negb Ipv6Ext.fragment]. rewrite Ss. cbn [gbind]. rewrite Sd. cbn [gbind].
  cbn [from_option Datatypes.id identification headerOffset payloadEnd transportOffset moreFragments fragOffset precedingNextHeaderFieldOffset fragNextHeader].
  replace (Z.of_nat (48 + length x.2) - Z.of_nat 48) with (Z.of_nat (length x.2)) by lia.
  rewrite (proj2 (Z.leb_gt _ _)), (proj2 (Z.ltb_ge _ _)) by lia.
  replace (piece_more (length body) x && negb (Z.of_nat (length x.2) mod 8 =? 0)) with false.
  2:{ destruct (piece_more (length body) x); [|done]. pose proof (Hm8 eq_refl) as Hm. cbn [andb]. change 8 with (Z.of_nat 8) at 1. rewrite <- Nat2Z.inj_mod, Hm. done. }
  cbn [orb]. rewrite Sp. cbn [gbind]. rewrite Sk. cbn [gbind]. rewrite !Nat2Z.id. unfold step. rewrite Hpay. cbn [snd]. unfold fragment_bytes.
  cbn [packet ipv6_family f6_packet retained_piece6 fst snd]. fold pk. rewrite Lp. reflexivity.
Qed.

Lemma feed_first6_ok : ipv6_first feed_first6.
Proof. split_and!; [cbn; lia|cbn; lia|]. apply (bytes_ok_lookup _ _ _ (h6_bytes Hh) (h6_next Hh)). Qed.

Lemma piece_base_bytes x : bytes_ok (piece_base h x).
Proof. unfold piece_base. apply bytes_ok_insert; [|done]. apply set16_bytes, (h6_bytes Hh). Qed.

Lemma retained_piece6_ok y : piece_fits (length body) y.2 ->
  piece_ok (FF := ipv6_family) ipv6_frag (length body) feed_first6 (retained_piece6 y).
Proof.
  intros [_ Hpos Hend Hb _ _]. split; [split|..]; cbn; try done.
  - apply bytes_ok_app. split; [apply piece_base_bytes|]. apply bytes_ok_app. split; [|done]. pose proof (bytes_ok_lookup _ _ _ (h6_bytes Hh) (h6_next Hh)).
    unfold fragment_header. repeat (apply Forall_cons_2; [by first [apply byte_of_ok|done]|]). by apply Forall_nil_2.
  - by rewrite piece_packet6_length by apply (h6_length Hh).
  - unfold ipv6_frag. cbn. lia.
Qed.

(** The header of the first fragment, rewritten, is the packet's own. *)
Lemma whole_base x : set16 (<[6%nat := nh]> (piece_base h x)) 4 (Z.of_nat (length body)) = h.
Proof.
  pose proof (h6_length Hh) as L. destruct (h6_payload Hh) as [P4 P5]. pose proof (h6_next Hh) as P6. unfold piece_base, set16.
  revert L P4 P5 P6. generalize (u16 (Z.of_nat (8 + length x.2))), (byte_of (Z.of_nat (length body)) 8), (byte_of (Z.of_nat (length body)) 0). generalize h. intros h0 v a b L P4 P5 P6.
  cells h0. cbn in P4, P5, P6. injection P4 as <-. injection P5 as <-. injection P6 as <-. reflexivity.
Qed.

Lemma whole_reassembled6 ys :
  Forall (fun y => piece_fits (length body) y.2) ys -> contiguous_to (FF := ipv6_family) (map retained_piece6 ys) 0 = Some (length body) ->
  concat (map (fun y => y.2.2) ys) = body -> ys <> [] ->
  reassemble6 (map retained_piece6 ys) feed_first6 (Z.of_nat (length body)) = Ret (h ++ body).
Proof.
  intros Hok Hc Hb Hne. destruct ys as [|y ys]; [done|].
  assert (Hall : Forall frag_wf (map retained_piece6 (y :: ys))).
  { apply Forall_fmap. eapply Forall_impl; [|exact Hok]. intros z Hz. apply (pk_wf _ _ _ _ (retained_piece6_ok z Hz)). }
  cbn [map]. etransitivity; [apply (reassemble6_spec (retained_piece6 y) (map retained_piece6 ys)); [done|rewrite Nat2Z.id; exact Hc|done|apply feed_first6_ok]|].
  cbn [unfragmentableByteCount retained_piece6 f6_packet feed_first6 firstNextHeaderFieldOffset firstNextHeader]. rewrite Nat2Z.id.
  replace (Z.of_nat (40 + length body) - 40) with (Z.of_nat (length body)) by lia. rewrite u16_small by lia. do 2 f_equal.
  - unfold piece_packet6. rewrite take_app_length' by (rewrite piece_base_length, (h6_length Hh); done). apply whole_base.
  - etransitivity; [|exact Hb]. transitivity (concat (map (frag_payload (FF := ipv6_family)) (map retained_piece6 (y :: ys)))); [done|].
    rewrite List.map_map. f_equal. apply map_ext. intros z. apply retained_payload6.
Qed.

(** Packets of the source with their buffers and the times they arrive. *)
Fixpoint process_all6 (r : ipv6FragmentReassembler) (st : idState) (l : list (nat * bytes * Z))
    : go (ipv6FragmentReassembler * idState * list ipFragmentProcessResult) :=
  match l with
  | [] => Ret (r, st, [])
  | (b, p, now) :: l =>
      let! '(r, st, result) := processResultAt6 iter r st s tk pm b p now false in
      let! '(r, st, rest) := process_all6 r st l in
      Ret (r, st, result :: rest)
  end.

Lemma process_steps6 arriving : forall todo r st,
  map (fun a => a.1.2) arriving = map (piece_packet6 h nh (length body) id) todo -> Forall (piece_fits (length body)) todo -> Forall piece_small todo ->
  process_all6 r st arriving =
    steps (FF := ipv6_family) iter reassemble6 own6 feed_key6 (length body) feed_first6 r st
      (zip_with (fun a x => (retained_piece6 (a.1.1, x), a.2)) arriving todo).
Proof.
  induction arriving as [|[[b p] now] arriving IH]; intros [|x todo] r st E Hok Hsm; try done. cbn in E. injection E as -> E.
  apply Forall_cons_1 in Hok as [Hx Hok], Hsm as [Hsx Hsm]. cbn [process_all6 zip_with steps fst snd]. rewrite process_piece6 by done.
  destruct (step _ _ _ _ _ _ _ _ _ _ _) as [[[r1 c1] res]|]; [|done]. cbn [gbind]. by rewrite (IH todo) by done.
Qed.
End feed6.

Definition fragment_size6 (mtu : Z) : nat := Z.to_nat (Z.ldiff (mtu - 48) 7).

(** A packet may be followed by bytes its length does not declare. *)
Lemma fragmentIpv6Packet_spec st h body rest nh mtu :
  header6_ok h body nh -> Z.of_nat (length body) <= 65535 -> 56 <= mtu ->
  fragmentIpv6Packet st (h ++ body ++ rest) mtu =
    (let! '(st, id) := nextIpv6FragmentIdentification st in
     Ret (st, inl (map (piece_packet6 h nh (length body) id) (chunks (length body) body (length body) (fragment_size6 mtu) 0)))).
Proof.
  intros Hh Hmax Hm. pose proof (h6_length _ _ _ Hh) as L. destruct (h6_version _ _ _ Hh) as (b0 & E0 & Ev). destruct (h6_payload _ _ _ Hh) as [P4 P5].
  destruct (unit_size (mtu - 48) ltac:(lia)) as (S1 & S2 & S3). fold (fragment_size6 mtu) in *.
  unfold fragmentIpv6Packet, Ipv6HeaderSize. rewrite !length_app, (proj2 (Nat.ltb_ge _ _)) by lia.
  assert (HI : forall i v, h !! i = Some v -> index (h ++ body ++ rest) i = Ret v).
  { intros i v E. apply index_ret. by apply lookup_app_l_Some. }
  rewrite (HI _ _ E0). cbn [gbind]. rewrite Ev. cbn [Z.eqb Pos.eqb negb].
  unfold get_u16. rewrite (HI _ _ P4). cbn [gbind]. change (4 + 1)%nat with 5%nat. rewrite (HI _ _ P5). cbn [gbind]. rewrite be16_split by lia.
  rewrite Nat2Z.id, (proj2 (Nat.ltb_ge _ _)) by lia. rewrite (HI _ _ (h6_next _ _ _ Hh)). cbn [gbind]. rewrite (h6_plain _ _ _ Hh).
  unfold ipv6FragmentHeaderSize. replace (mtu - Z.of_nat 40 - Z.of_nat 8) with (mtu - 48) by lia.
  rewrite (proj2 (Z.ltb_ge _ _)) by (unfold fragment_size6 in *; lia).
  rewrite !slice_ret by (rewrite ?length_app; lia). cbn [gbind]. rewrite Nat.sub_0_r, drop_0, take_app_length' by done.
  rewrite drop_app_length', take_app_length' by lia.
  destruct (nextIpv6FragmentIdentification st) as [[st' id]|]; [|done]. cbn [gbind]. fold (fragment_size6 mtu).
  rewrite fragment_loop6_spec by lia. done.
Qed.

(** C33: Fragmenting an IPv6 packet that does not fit the mtu gives fragments that
    each fit it; and fed back in any order, in any buffers, within the reassembly
    timeout, to a cache with room for them, every fragment but the last is retained
    and the last returns exactly the packet, without the Fragment header and
    without bytes beyond its declared length; nothing of it stays in the cache. *)
Theorem fragment6_roundtrip st h body rest nh mtu :
  header6_ok h body nh -> bytes_ok body -> Z.of_nat (length body) <= 65535 ->
  56 <= mtu < 48 + Z.of_nat (length body) -> mtu <= 65575 ->
  exists st' id frags, fragmentIpv6Packet st (h ++ body ++ rest) mtu = Ret (st', inl frags) /\
    nextIpv6FragmentIdentification st = Ret (st', id) /\ Forall (fun f => Z.of_nat (length f) <= mtu) frags /\
    forall r s tk pm arriving lo,
      (length frags <= 64)%nat -> map (fun a => a.1.2) arriving ≡ₚ frags ->
      Forall (fun a => lo <= a.2 < lo + ipv6FragmentReassemblyTimeout) arriving ->
      cache_ok r -> datagrams r !! feed_key6 h id s tk pm = None ->
      within (FF := ipv6_family) r (sumZ (map (fun f => Z.of_nat (length f)) frags)) s ->
      exists r', process_all6 s tk pm r st' arriving =
          Ret (r', st', replicate (length frags - 1) (ProcessResult None [] true true) ++ [ProcessResult (Some (h ++ body)) [] true true]) /\
        cache_ok r' /\ datagrams r' !! feed_key6 h id s tk pm = None.
Proof.
  intros Hh Hb Hmax Hm Hm2. pose proof (fragmentIpv6Packet_spec st h body rest nh mtu Hh Hmax ltac:(lia)) as E.
  pose proof (next_identification6 st) as Hid. pose proof (h6_length _ _ _ Hh) as Lh.
  destruct Hid as ([st' id] & En & Hid). rewrite En in E. cbn [gbind] in E.
  destruct (unit_size (mtu - 48) ltac:(lia)) as (S1 & S2 & S3). fold (fragment_size6 mtu) in *. set (size := fragment_size6 mtu) in *.
  set (ps := chunks (length body) body (length body) size 0) in *.
  destruct (chunks_concat (length body) body (length body) size 0 ltac:(lia) ltac:(lia) ltac:(lia)) as [_ Hc]. fold ps in Hc.
  eexists st', id, _. split; [exact E|]. clear E. split; [exact En|]. split.
  { apply Forall_map. eapply Forall_impl; [|exact Hc]. intros [o ch] Hx. rewrite piece_packet6_length by done. cbn [snd] in *. lia. }
  intros r s tk pm arriving lo H64 Hord Htimes Hok Hk Hw. rewrite length_map in H64 |- *.
  apply Permutation_map_inv in Hord as (todo & Etodo & Hp).
  destruct (chunks_pieces (FF := ipv6_family) (fun x => retained_piece6 h body nh id (0%nat, x)) body size (length body) 0) as [Hfit Hcont]; try done; try lia.
  fold ps in Hfit, Hcont.
  assert (Hsm : Forall piece_small ps) by (eapply Forall_impl; [|exact Hc]; intros [o ch] Hx; unfold piece_small; cbn [snd] in *; lia).
  rewrite (process_steps6 h body nh id s tk pm Hh Hid Hmax arriving todo r st' Etodo) by (by rewrite <- Hp).
  apply (feed_all (FF := ipv6_family) iter iter_perm (fun _ => eq_refl) ipv6_frag ipv6_first eq_refl reassemble6 own6 (feed_key6 h id s tk pm) (length body) (feed_first6 nh))
    with (R := retained_piece6 h body nh id) (cost := fun x => Z.of_nat (length (piece_packet6 h nh (length body) id x))) (lo := lo); try done.
  - by apply (feed_first6_ok h body).
  - cbn [too_long firstByteCount ipv6_family feed_first6 firstUnfragmentableByteCount]. unfold Ipv6HeaderSize. rewrite (proj2 (Z.ltb_ge _ _)) by lia. by rewrite andb_false_r.
  - intros y Hy. apply retained_piece6_ok; done || lia.
  - lia.
  - by rewrite <- (length_map (fun a => a.1.2)), Etodo, length_map.
  - intros ys Ey. apply whole_reassembled6; try done; try lia.
    + apply (Forall_map snd). rewrite Ey. exact Hfit.
    + rewrite (contiguous_pieces (FF := ipv6_family)) by done. rewrite Ey. exact Hcont.
    + transitivity (concat (map snd (map snd ys))); [by rewrite List.map_map|]. rewrite Ey. apply chunks_whole. lia.
    + intros ->. cbn in Ey. rewrite <- Ey in Hcont. cbn in Hcont. injection Hcont. lia.
  - by rewrite List.map_map in Hw.
Qed.
End proofs6.

(** ** Witness *)

Definition demo_header6 : bytes := [96; 0; 0; 0; 0; 40; 17; 64] ++ replicate 16 32 ++ replicate 16 33.
Definition demo_body6 : bytes := replicate 40 9.

#[local] Instance demo_reads : RandomReads := {| rand_read n := if (n =? 0)%nat then Some 0 else Some (Z.of_nat (Nat.min n 7)); rand_patience := 2 |}.
#[local] Instance demo_reads_ok : RandomReadsOk.
Proof.
  split; cbn.
  - intros [|n] v E; cbn in E; injection E as <-; lia.
  - intros [|n]; [exists 1%nat|exists 0%nat]; split; try lia; cbn; intros E; injection E; lia.
Qed.

Lemma demo_header6_ok : header6_ok demo_header6 demo_body6 17.
Proof.
  split; try reflexivity; [apply (bool_decide_eq_true_1 _); reflexivity| |by split]. exists 96. by split.
Qed.

(** Two fragments, fed last first; the first reading was zero. *)
Lemma fragment6_roundtrip_witness :
  exists (a b : bytes) (st' : idState), fragmentIpv6Packet (IdState 0 0) (demo_header6 ++ demo_body6 ++ [1; 2]) 80 = Ret (st', inl [a; b]) /\
    exists r', process_all6 map_to_list [1] [] 0 newIpv6FragmentReassembler st' [(8%nat, b, 100); (9%nat, a, 200)] =
      Ret (r', st', [ProcessResult None [] true true; ProcessResult (Some (demo_header6 ++ demo_body6)) [] true true]).
Proof.
  destruct (fragment6_roundtrip map_to_list (fun m => Permutation_refl _) (IdState 0 0) demo_header6 demo_body6 [1; 2] 17 80 demo_header6_ok)
    as (st' & id & frags & E & Eid & _ & H).
  - apply (bool_decide_eq_true_1 _). reflexivity.
  - vm_compute. discriminate.
  - vm_compute. split; [discriminate|reflexivity].
  - lia.
  - pose proof E as Ev. vm_compute in Ev. injection Ev as <- <-. eexists _, _, _. split; [exact E|].
    match type of E with _ = Ret (_, inl [?a; ?b]) =>
      destruct (H newIpv6FragmentReassembler [1] [] 0 [(8%nat, b, 100); (9%nat, a, 200)] 0) as (r' & Er & _) end.
    + cbn. lia.
    + apply perm_swap.
    + repeat constructor; vm_compute; discriminate.
    + by apply new_cache_ok.
    + reflexivity.
    + split; [vm_compute; discriminate|]. intros Hp. discriminate Hp.
    + exists r'. exact Er.
Defined.
