(* ===== verification/FragmentGate.v ===== *)
(** The fragment gate (src/ip_fragment.go) and the provider's fragment ingress
    (src/ip.go, RemoteUserNatProvider.receiveFragment): one reassembler per
    family, made on first use and dropped on close, in front of the packet parser
    and the security policy. *)
From S2P Require Import Prelude GoIo IpFlow IpPacket FragmentCache Fragment4 Fragment6.

(** ** The gate *)

(** The mutex makes every call atomic. [gate_returned] holds the buffers the
    dropped reassemblers returned to the pool. *)
Record ipFragmentGate := Gate {
  gate_maxRetainedBytes : Z;
  gate_maxRetainedBytesPerSource : Z;
  reassembler4 : option ipv4FragmentReassembler;
  reassembler6 : option ipv6FragmentReassembler;
  gate_returned : list nat;
}.

(** The identification sources of both families. *)
Record fragmentIds := FragmentIds { ids4 : Z; ids6 : idState }.

(** A new reassembler under the gate's limits, where it sets them. *)
Definition with_limits {FF : FragmentFamily} (g : ipFragmentGate) (r : reassembler) : reassembler :=
  Reassembler (if 0 <? gate_maxRetainedBytes g then gate_maxRetainedBytes g else maxRetainedBytes r)
    (if 0 <? gate_maxRetainedBytesPerSource g then gate_maxRetainedBytesPerSource g else maxRetainedBytesPerSource r)
    (datagrams r) (retainedByteCount r) (retainedBytesBySource r) (returned r).

Definition gate4 (g : ipFragmentGate) : ipv4FragmentReassembler :=
  default (with_limits (FF := ipv4_family) g newIpv4FragmentReassembler) (reassembler4 g).
Definition gate6 (g : ipFragmentGate) : ipv6FragmentReassembler :=
  default (with_limits (FF := ipv6_family) g newIpv6FragmentReassembler) (reassembler6 g).

Definition set_reassembler4 (g : ipFragmentGate) (r : ipv4FragmentReassembler) : ipFragmentGate :=
  Gate (gate_maxRetainedBytes g) (gate_maxRetainedBytesPerSource g) (Some r) (reassembler6 g) (gate_returned g).
Definition set_reassembler6 (g : ipFragmentGate) (r : ipv6FragmentReassembler) : ipFragmentGate :=
  Gate (gate_maxRetainedBytes g) (gate_maxRetainedBytesPerSource g) (reassembler4 g) (Some r) (gate_returned g).

Section gate.
Context `{RandomReads} `{MessagePool}.
Context (iter4 : gmap (@Key ipv4_family) (@datagram ipv4_family) -> list (@Key ipv4_family * @datagram ipv4_family)).
Context (iter6 : gmap (@Key ipv6_family) (@datagram ipv6_family) -> list (@Key ipv6_family * @datagram ipv6_family)).

Definition is_version6 (p : bytes) : go bool :=
  if (0 <? length p)%nat then let! b0 := index p 0 in Ret (Z.shiftr b0 4 =? 6) else Ret false.

Definition processOwned (g : ipFragmentGate) (ids : fragmentIds) (source' transferKey' : list Z) (provideMode' : Z) (b : nat) (p : bytes) (now : Z)
    : go (ipFragmentGate * fragmentIds * ipFragmentProcessResult) :=
  let! six := is_version6 p in
  if six then
    let! '(r, st, result) := processResultAt6 iter6 (gate6 g) (ids6 ids) source' transferKey' provideMode' b p now true in
    Ret (set_reassembler6 g r, FragmentIds (ids4 ids) st, result)
  else
    let! '(r, counter, result) := processResultAt iter4 (gate4 g) (ids4 ids) source' transferKey' provideMode' b p now true in
    Ret (set_reassembler4 g r, FragmentIds counter (ids6 ids), result).

Definition gate_close (g : ipFragmentGate) : ipFragmentGate :=
  let from4 := match reassembler4 g with Some r => returned (FragmentCache.close (FF := ipv4_family) iter4 r) | None => [] end in
  let from6 := match reassembler6 g with Some r => returned (close6 iter6 r) | None => [] end in
  Gate (gate_maxRetainedBytes g) (gate_maxRetainedBytesPerSource g) None None (gate_returned g ++ from4 ++ from6).

(** ** The provider's fragment ingress *)

Inductive SecurityPolicyResult := SecurityPolicyResultDrop | SecurityPolicyResultAllow | SecurityPolicyResultIncident.

(** The policy is configured: an interface with a state of its own; [None] is an
    error. *)
Class SecurityPolicy := {
  policy : Type;
  Inspect : policy -> Z -> IpPath -> bytes -> policy * option SecurityPolicyResult;
}.
Context `{SecurityPolicy}.

(** What happens to a buffer: a datagram that was reassembled is in a new one,
    [None]. *)
Inductive provider_event :=
| Returned (owner : option nat) (p : bytes)
| SentToNat (owner : option nat) (source : list Z) (provideMode : Z) (p : bytes)
| ReportAbuse (source : list Z).

Record provider := Provider {
  ingressFragments : ipFragmentGate;
  provider_ids : fragmentIds;
  provider_icmp : icmpGate;
  securityPolicy : policy;
}.

(** returnIpFragmentProcessResult, the packet taken out. *)
Definition return_fragments (result : ipFragmentProcessResult) : list provider_event :=
  map (fun bp => Returned (Some bp.1) bp.2) (result_fragments result).

(** The decision on a complete datagram. *)
Definition inspect_datagram (icmp : icmpGate) (ps : policy) (source' : list Z) (provideMode' : Z) (owner : option nat) (d : bytes)
    : go (icmpGate * policy * list provider_event) :=
  let '(icmp, parsed) := ParseIpPathWithPayload icmp d in
  let! parsed := parsed in
  match parsed with
  | None => Ret (icmp, ps, [Returned owner d])
  | Some (path, payload') =>
      if negb (bool_decide (Protocol path = IpProtocolUdp)) then Ret (icmp, ps, [Returned owner d])
      else
        let '(ps, verdict) := Inspect ps provideMode' path payload' in
        Ret (icmp, ps,
          match verdict with
          | None => [Returned owner d]
          | Some SecurityPolicyResultAllow => [SentToNat owner source' provideMode' d]
          | Some SecurityPolicyResultIncident => [Returned owner d; ReportAbuse source']
          | Some SecurityPolicyResultDrop => [Returned owner d]
          end)
  end.

(** [b] is the buffer of the gate's own copy; the transfer key is the zero one. *)
Definition receiveFragment (pr : provider) (source' : list Z) (provideMode' : Z) (b : nat) (packetBytes : bytes) (now : Z)
    : go (provider * list provider_event) :=
  let! '(g, ids, result) := processOwned (ingressFragments pr) (provider_ids pr) source' [] provideMode' b packetBytes now in
  match result_packet result with
  | None => Ret (Provider g ids (provider_icmp pr) (securityPolicy pr), return_fragments result)
  | Some d =>
      let owner := if fragment result then None else Some b in
      let! '(icmp, ps, events) := inspect_datagram (provider_icmp pr) (securityPolicy pr) source' provideMode' owner d in
      Ret (Provider g ids icmp ps, events ++ return_fragments result)
  end.
End gate.

(** ** Proofs *)

(** Every limit of a reassembler behind the gate. *)
Definition limit_or (limit fallback : Z) : Z := if 0 <? limit then limit else fallback.

Section gate_proofs.
Context `{RR : RandomReads} {RO : RandomReadsOk} `{MP : MessagePool} `{SP : SecurityPolicy}.
Context (iter4 : gmap (@Key ipv4_family) (@datagram ipv4_family) -> list (@Key ipv4_family * @datagram ipv4_family)).
Context (iter6 : gmap (@Key ipv6_family) (@datagram ipv6_family) -> list (@Key ipv6_family * @datagram ipv6_family)).
Context (iter4_perm : forall m, iter4 m ≡ₚ map_to_list m) (iter6_perm : forall m, iter6 m ≡ₚ map_to_list m).
Context (mx per : Z).

Notation cache_ok4 := (cache_ok (FF := ipv4_family) ipv4_frag ipv4_first).
Notation cache_ok6 := (cache_ok (FF := ipv6_family) ipv6_frag ipv6_first).
Notation limits r := (maxRetainedBytes r, maxRetainedBytesPerSource r).
Notation gate_limits := (limit_or mx ipv4FragmentReassemblyMaxRetainedBytes, limit_or per 0).

Record gate_ok (g : ipFragmentGate) : Prop := {
  gk_own : gate_maxRetainedBytes g = mx /\ gate_maxRetainedBytesPerSource g = per;
  gk_four : cache_ok4 (gate4 g) /\ limits (gate4 g) = gate_limits;
  gk_six : cache_ok6 (gate6 g) /\ limits (gate6 g) = gate_limits;
}.

(** The buffers of the pool and of both caches. *)
Definition gate_books (g : ipFragmentGate) : list nat := gate_returned g ++ books (gate4 g) ++ books (gate6 g).

Lemma limit_pos : 0 < limit_or mx ipv4FragmentReassemblyMaxRetainedBytes.
Proof. unfold limit_or. destruct (Z.ltb_spec 0 mx); [done|reflexivity]. Qed.

Lemma fresh4 g : gate_maxRetainedBytes g = mx -> gate_maxRetainedBytesPerSource g = per -> reassembler4 g = None ->
  cache_ok4 (gate4 g) /\ limits (gate4 g) = gate_limits /\ books (gate4 g) = [].
Proof.
  intros E1 E2 E. unfold gate4, with_limits. rewrite E, E1, E2. cbn [from_option]. split_and!; [|done|done]. by apply new_cache_ok, limit_pos.
Qed.
Lemma fresh6 g : gate_maxRetainedBytes g = mx -> gate_maxRetainedBytesPerSource g = per -> reassembler6 g = None ->
  cache_ok6 (gate6 g) /\ limits (gate6 g) = gate_limits /\ books (gate6 g) = [].
Proof.
  intros E1 E2 E. unfold gate6, with_limits. rewrite E, E1, E2. cbn [from_option]. split_and!; [|done|done]. by apply new_cache_ok, limit_pos.
Qed.

Lemma new_gate_ok : gate_ok (Gate mx per None None []).
Proof.
  destruct (fresh4 (Gate mx per None None []) eq_refl eq_refl eq_refl) as (? & ? & _).
  destruct (fresh6 (Gate mx per None None []) eq_refl eq_refl eq_refl) as (? & ? & _). by split.
Qed.

(** A packet passes, or its buffer is settled. *)
Definition gated (g : ipFragmentGate) (b : nat) (p : bytes) : ipFragmentGate * fragmentIds * ipFragmentProcessResult -> Prop :=
  fun '(g', _, res) => gate_ok g' /\
    if fragment res then gate_books g' ++ (result_fragments res).*1 ≡ₚ b :: gate_books g /\ result_bytes res
    else gate_books g' ≡ₚ gate_books g /\ res = ProcessResult (Some p) [] false true.

Lemma is_version6_returns p : returns (is_version6 p) (fun _ => True).
Proof.
  unfold is_version6. destruct (Nat.ltb_spec 0 (length p)); [|by apply returns_ret]. greturns @index_returns; [lia|]. intros. by apply returns_ret.
Qed.

Lemma processOwned_ok g ids s tk pm b p now :
  gate_ok g -> bytes_ok p -> returns (processOwned iter4 iter6 g ids s tk pm b p now) (gated g b p).
Proof.
  intros [Hown [H4 L4] [H6 L6]] Hp. unfold processOwned. greturns is_version6_returns. intros [] _.
  - eapply returns_bind; [by apply processResultAt6_ok|]. intros [[r st] res] (Hr & [M1 M2] & S). apply returns_ret. split.
    { split; [done|by split|]. split; [done|]. change (gate6 (set_reassembler6 g r)) with r. by rewrite M1, M2. }
    unfold gate_books. change (gate6 (set_reassembler6 g r)) with r. change (gate4 (set_reassembler6 g r)) with (gate4 g). cbn [set_reassembler6 gate_returned]. destruct (fragment res).
    + destruct S as [S Hb]. split; [|done]. unfold settled in S. rewrite <- !app_assoc, S. by rewrite !(app_assoc _ _ (b :: _)), <- Permutation_middle, <- app_assoc.
    + by destruct S as [-> ->].
  - eapply returns_bind; [by apply processResultAt_ok|]. intros [[r c] res] (Hr & [M1 M2] & S). apply returns_ret. split.
    { split; [done| |by split]. split; [done|]. change (gate4 (set_reassembler4 g r)) with r. by rewrite M1, M2. }
    unfold gate_books. change (gate4 (set_reassembler4 g r)) with r. change (gate6 (set_reassembler4 g r)) with (gate6 g). cbn [set_reassembler4 gate_returned]. destruct (fragment res).
    + destruct S as [S Hb]. split; [|done]. unfold settled in S.
      rewrite <- !app_assoc, (Permutation_app_comm (books (gate6 g))), (app_assoc (books r)), S. cbn. by rewrite <- Permutation_middle.
    + by destruct S as [-> ->].
Qed.

(** After a close every buffer the gate had is back in the pool. *)
Lemma closed_books {FF : FragmentFamily} (iter : gmap Key datagram -> list (Key * datagram)) (Hi : forall m, iter m ≡ₚ map_to_list m) fe fo r :
  cache_ok fe fo r -> returned (FragmentCache.close iter r) ≡ₚ books r.
Proof.
  intros Hok. pose proof (sheds_spec _ _ _ (close_sheds iter r) (co_exact _ _ _ Hok)) as S. rewrite <- (sd_books _ _ _ S). unfold books.
  rewrite (close_empty iter Hi r (co_exact _ _ _ Hok)). unfold held. rewrite map_to_list_empty. cbn. by rewrite app_nil_r.
Qed.

Lemma gate_close_ok g : gate_ok g -> gate_ok (gate_close iter4 iter6 g) /\ gate_returned (gate_close iter4 iter6 g) ≡ₚ gate_books g /\
  gate_books (gate_close iter4 iter6 g) ≡ₚ gate_books g.
Proof.
  intros [[E1 E2] [H4 L4] [H6 L6]]. set (g' := gate_close iter4 iter6 g).
  destruct (fresh4 g' E1 E2 eq_refl) as (F1 & F2 & F3). destruct (fresh6 g' E1 E2 eq_refl) as (G1 & G2 & G3).
  split; [by split|]. assert (HR : gate_returned g' ≡ₚ gate_books g); [|split; [done|]].
  - unfold gate_books, g', gate_close. cbn [gate_returned]. f_equiv. f_equiv.
    + destruct (reassembler4 g) as [r|] eqn:E; [|by destruct (fresh4 g E1 E2 E) as (_ & _ & ->)].
      unfold gate4 in *. rewrite E in *. cbn [from_option Datatypes.id] in *. by apply (closed_books iter4 iter4_perm _ _ _ H4).
    + destruct (reassembler6 g) as [r|] eqn:E; [|by destruct (fresh6 g E1 E2 E) as (_ & _ & ->)].
      unfold gate6 in *. rewrite E in *. cbn [from_option Datatypes.id] in *. by apply (closed_books iter6 iter6_perm _ _ _ H6).
  - unfold gate_books at 1. by rewrite F3, G3, !app_nil_r.
Qed.

(** ** The provider's side *)

(** The buffers an event takes over. *)
Definition event_owner (e : provider_event) : option nat :=
  match e with
  | Returned owner _ => owner
  | SentToNat owner _ _ _ => owner
  | ReportAbuse _ => None
  end.

(** What reaches the NAT was parsed whole, is UDP and was allowed. *)
Definition approved (e : provider_event) : Prop :=
  match e with
  | SentToNat _ _ pm d =>
      exists icmp ps path payload', (ParseIpPathWithPayload icmp d).2 = Ret (Some (path, payload')) /\
        Protocol path = IpProtocolUdp /\ (Inspect ps pm path payload').2 = Some SecurityPolicyResultAllow
  | _ => True
  end.

Lemma inspect_datagram_ok icmp ps s pm owner d :
  bytes_ok d -> returns (inspect_datagram icmp ps s pm owner d) (fun '(_, _, events) => omap event_owner events = option_list owner /\ Forall approved events).
Proof.
  intros Hd. unfold inspect_datagram. pose proof (ParseIpPathWithPayload_returns icmp d Hd) as Hr.
  destruct (ParseIpPathWithPayload icmp d) as [icmp' parsed] eqn:Ep. cbn [snd] in Hr. destruct Hr as (res & -> & _). cbn [gbind].
  assert (Hret : forall ps' : policy, returns (Ret (icmp', ps', [Returned owner d])) (fun '(_, _, events) => omap event_owner events = option_list owner /\ Forall approved events)).
  { intros ps'. apply returns_ret. split; [by destruct owner|]. by repeat constructor. }
  destruct res as [[path payload']|]; [|done]. destruct (bool_decide_reflect (Protocol path = IpProtocolUdp)) as [Hudp|]; cbn [negb]; [|done].
  destruct (Inspect ps pm path payload') as [ps' verdict] eqn:Ei. destruct verdict as [[]|]; try done; apply returns_ret.
  - split; [by destruct owner|]. constructor; [|done]. exists icmp, ps, path, payload'. by rewrite Ep, Ei.
  - split; [by destruct owner|]. by repeat constructor.
Qed.

Lemma return_fragments_spec res : omap event_owner (return_fragments res) = (result_fragments res).*1 /\ Forall approved (return_fragments res).
Proof.
  unfold return_fragments. induction (result_fragments res) as [|[b p] l [IH1 IH2]]; [done|]. cbn. rewrite IH1. split; [done|]. by constructor.
Qed.

Notation provider_books pr := (gate_books (ingressFragments pr)).

Lemma receiveFragment_ok pr s pm b p now :
  gate_ok (ingressFragments pr) -> bytes_ok p ->
  returns (receiveFragment iter4 iter6 pr s pm b p now) (fun '(pr', events) => gate_ok (ingressFragments pr') /\
    provider_books pr' ++ omap event_owner events ≡ₚ b :: provider_books pr /\ Forall approved events).
Proof.
  intros Hg Hp. unfold receiveFragment. greturns processOwned_ok; [done|done|]. intros [[g ids] res] [Hg' Hres].
  destruct (return_fragments_spec res) as [Eo Ha]. destruct (fragment res) eqn:Ef.
  - destruct Hres as [Hb Hw]. destruct (result_packet res) as [d|] eqn:Ed.
    + greturns inspect_datagram_ok; [by apply Hw|]. intros [[icmp ps] events] [Ee Hev]. apply returns_ret. cbn [ingressFragments].
      split_and!; [done| |by apply Forall_app]. by rewrite omap_app, Ee, Eo.
    + apply returns_ret. cbn [ingressFragments]. split_and!; [done|by rewrite Eo|done].
  - destruct Hres as [Hb ->]. cbn [result_packet]. greturns inspect_datagram_ok; [done|]. intros [[icmp ps] events] [Ee Hev]. apply returns_ret.
    cbn [ingressFragments]. split_and!; [done| |by apply Forall_app]. rewrite omap_app, Ee. cbn. rewrite Hb. symmetry. apply Permutation_cons_append.
Qed.

(** Fragments of any sources, each in the buffer of its copy, and closes. *)
Inductive ingress_op :=
| Receive (source : list Z) (provideMode : Z) (b : nat) (p : bytes) (now : Z)
| CloseIngress.

Definition op_buffer (o : ingress_op) : option nat := match o with Receive _ _ b _ _ => Some b | CloseIngress => None end.
Definition op_bytes (o : ingress_op) : Prop := match o with Receive _ _ _ p _ => bytes_ok p | CloseIngress => True end.

Definition ingress_step (pr : provider) (o : ingress_op) : go (provider * list provider_event) :=
  match o with
  | Receive s pm b p now => receiveFragment iter4 iter6 pr s pm b p now
  | CloseIngress => Ret (Provider (gate_close iter4 iter6 (ingressFragments pr)) (provider_ids pr) (provider_icmp pr) (securityPolicy pr), [])
  end.

Fixpoint ingress_run (pr : provider) (l : list ingress_op) : go (provider * list provider_event) :=
  match l with
  | [] => Ret (pr, [])
  | o :: l =>
      let! '(pr, events) := ingress_step pr o in
      let! '(pr, rest) := ingress_run pr l in
      Ret (pr, events ++ rest)
  end.

Lemma ingress_run_ok l : forall pr,
  gate_ok (ingressFragments pr) -> Forall op_bytes l ->
  returns (ingress_run pr l) (fun '(pr', events) => gate_ok (ingressFragments pr') /\
    provider_books pr' ++ omap event_owner events ≡ₚ omap op_buffer l ++ provider_books pr /\ Forall approved events).
Proof.
  induction l as [|o l IH]; intros pr Hg Hl; [apply returns_ret; split_and!; [done|by rewrite app_nil_r|done]|].
  apply Forall_cons_1 in Hl as [Ho Hl]. cbn [ingress_run].
  assert (Hstep : returns (ingress_step pr o) (fun '(pr', events) => gate_ok (ingressFragments pr') /\
    provider_books pr' ++ omap event_owner events ≡ₚ option_list (op_buffer o) ++ provider_books pr /\ Forall approved events)).
  { destruct o as [s pm b p now|]; [by apply receiveFragment_ok|]. apply returns_ret. destruct (gate_close_ok _ Hg) as (H1 & _ & H3).
    split_and!; [done|cbn; by rewrite app_nil_r|done]. }
  eapply returns_bind; [exact Hstep|]. intros [pr1 ev1] (G1 & B1 & A1). eapply returns_bind; [by apply IH|].
  intros [pr2 ev2] (G2 & B2 & A2). apply returns_ret. split_and!; [done| |by apply Forall_app].
  rewrite omap_app, (Permutation_app_comm (omap event_owner ev1)), app_assoc, B2, <- app_assoc, B1.
  change (o :: l) with ([o] ++ l). rewrite omap_app, !app_assoc. f_equiv. rewrite Permutation_app_comm. by destruct o.
Qed.

(** C34: Whatever fragments a provider's clients send, of either family and in any
    order, and whenever the ingress is closed: nothing panics; each family's cache
    stays within the gate's budget and per-source share; every buffer the provider
    took is in the pool, in a cache, returned or sent exactly once, and closing the
    gate then leaves none in a cache; and every datagram handed to the NAT was
    parsed as a whole UDP datagram that the security policy allowed. *)
Theorem provider_ingress_settled ids icmp (ps : policy) (l : list ingress_op) :
  Forall op_bytes l ->
  returns (ingress_run (Provider (Gate mx per None None []) ids icmp ps) l) (fun '(pr, events) =>
    let g := ingressFragments pr in
    bounded (FF := ipv4_family) (limit_or mx ipv4FragmentReassemblyMaxRetainedBytes) (limit_or per 0) (gate4 g) /\
    bounded (FF := ipv6_family) (limit_or mx ipv6FragmentReassemblyMaxRetainedBytes) (limit_or per 0) (gate6 g) /\
    gate_books g ++ omap event_owner events ≡ₚ omap op_buffer l /\
    gate_returned (gate_close iter4 iter6 g) ++ omap event_owner events ≡ₚ omap op_buffer l /\
    Forall approved events).
Proof.
  intros Hl. eapply returns_weaken; [apply ingress_run_ok; [apply new_gate_ok|done]|]. intros [pr events] (Hg & B & A). cbv zeta.
  pose proof Hg as [_ [H4 L4] [H6 L6]]. injection L4 as M4 P4. injection L6 as M6 P6.
  assert (E0 : gate_books (Gate mx per None None []) = []) by done. cbn [ingressFragments] in B. rewrite E0, app_nil_r in B.
  split; [rewrite <- M4, <- P4; by apply (cache_bounded (FF := ipv4_family) ipv4_frag ipv4_first)|].
  split; [change ipv6FragmentReassemblyMaxRetainedBytes with ipv4FragmentReassemblyMaxRetainedBytes; rewrite <- M6, <- P6; by apply (cache_bounded (FF := ipv6_family) ipv6_frag ipv6_first)|].
  split; [done|]. split; [|done]. by rewrite (proj1 (proj2 (gate_close_ok _ Hg))).
Qed.
End gate_proofs.

(** ** Witness *)

(** The provider's limits. *)
Definition providerIngressFragmentMaxRetainedBytes : Z := 16 * 1024.
Definition providerIngressFragmentMaxRetainedBytesPerSource : Z := providerIngressFragmentMaxRetainedBytes / 2.
Definition new_ingress : ipFragmentGate :=
  Gate providerIngressFragmentMaxRetainedBytes providerIngressFragmentMaxRetainedBytesPerSource None None [].

(** A policy that refuses its first datagram and allows the rest. *)
#[local] Instance demo_policy : SecurityPolicy := {|
  policy := bool;
  Inspect seen _ _ _ := (true, Some (if seen : bool then SecurityPolicyResultAllow else SecurityPolicyResultDrop));
|}.
#[local] Instance demo_ids : RandomReads := {| rand_read n := Some 7; rand_patience := 1 |}.
#[local] Instance demo_ids_ok : RandomReadsOk.
Proof. split; cbn; [intros n v [= <-]; lia|]. intros n. exists 0%nat. split; [lia|done]. Qed.

Definition demo_udp : bytes := [0; 53; 0; 54; 0; 40; 0; 0] ++ replicate 32 9.
Definition demo_fragments : list bytes :=
  match fragmentIpv4Packet 6 (demo_header ++ demo_udp) 44 with Ret (_, inl l) => l | _ => [] end.
Definition demo_piece (i : nat) : bytes := demo_fragments !!! i.
Definition demo_ops : list ingress_op :=
  [Receive [1] 2 10 (demo_piece 1) 5; Receive [1] 2 11 (demo_piece 0) 6; Receive [1] 2 12 (demo_piece 0) 7; Receive [3] 2 13 (demo_piece 0) 8;
   Receive [1] 2 14 (demo_piece 1) 9; CloseIngress].

(** The datagram is dropped the first time, sent the second time, and the fragment
    of the other source is returned by the close. *)
Lemma provider_ingress_settled_witness :
  exists pr events, ingress_run (SP := demo_policy) map_to_list map_to_list (Provider new_ingress (FragmentIds 0 (IdState 0 0)) (IcmpGate 0 1 false) false) demo_ops = Ret (pr, events) /\
    omap event_owner events = [11; 10; 12; 14]%nat /\ gate_books (ingressFragments pr) = [13%nat] /\
    exists d, events !! 3%nat = Some (SentToNat None [1] 2 d) /\ approved (SentToNat None [1] 2 d).
Proof.
  assert (Hb : Forall op_bytes demo_ops).
  { unfold demo_ops. repeat (apply Forall_cons_2; [cbn [op_bytes]; first [exact I|apply (bool_decide_eq_true_1 _); reflexivity]|]). apply Forall_nil_2. }
  destruct (provider_ingress_settled (SP := demo_policy) map_to_list map_to_list (fun m => Permutation_refl _) (fun m => Permutation_refl _)
    providerIngressFragmentMaxRetainedBytes providerIngressFragmentMaxRetainedBytesPerSource (FragmentIds 0 (IdState 0 0)) (IcmpGate 0 1 false) false demo_ops Hb)
    as ([pr events] & E & _ & _ & _ & _ & A).
  exists pr, events. split; [exact E|]. pose proof E as Ev. vm_compute in Ev. injection Ev as <- <-.
  split; [reflexivity|]. split; [reflexivity|]. eexists. split; [reflexivity|]. eapply (Forall_lookup_1 _ _ 3%nat); [exact A|reflexivity].
Defined.
